(* ===== verification/_CoqProject ===== *)
-Q . S2P
Prelude.v
Floats.v
Point.v
Presentation.v
Engine.v
ColorDelay.v
Session.v
Backend.v
ContentSource.v
SlicePipeline.v
ChunkProducer.v
World.v
Estimators.v
OutputModel.v
Driver.v
Bytes.v
Utf8.v
EtherDream.v
EtherModel.v
EtherStream.v
EtherLink.v
EtherServer.v
EtherHost.v
LaserCube.v
CubeTransport.v
CubeFacts.v
IdnProtocol.v
IdnTypes.v
IdnStream.v
Receiver.v
IdnLink.v
IdnServer.v
SimTools.v
Discovery.v
EtherBackend.v
EtherDrive.v
IdnScan.v
EtherScan.v
EtherReplay.v
EtherCaptures.v
IdnBackend.v
CubeBackend.v
Sessions.v
Resample.v
AudioSink.v
Oscilloscope.v
AvbHost.v
Avb.v
Usb.v
Helios.v
HeliosBackend.v
CubeUsb.v
