(* ===== verification/Prelude.v ===== *)
(** * laser-dac: a verification development

    laser-dac (the Rust crate under [src/src/]) streams laser points from an
    application to laser DACs.  A session runs on a driver thread that owns a
    device backend and a content source.  The user holds a control handle (arm,
    disarm, stop, point rate, colour delay) and submits frames or a fill
    callback.  Each iteration of the driver reconciles the desired arm state
    with the hardware shutter, then lets an output-model adapter pace the
    device, ask the source for points and write them.

    ** Parts and files

    - [Prelude]: machine integers, panicking slices, shared lemmas.
    - [Floats]: IEEE single and double arithmetic on the Standard Library's
      [SpecFloat], the Rust casts, clamp, min/max and rounding functions, and a
      small library of magnitude bounds for the rounded operations.
    - [Point] ([point.rs]): the laser point and its wire conversions.
    - [Presentation] ([presentation/mod.rs], [IdlePolicy] of [config.rs]):
      durations in points, parking and blanking, frames, transition plans and
      the default transition.
    - [Engine] ([presentation/engine.rs], PresentationEngine): frame looping,
      transitions and latest-wins replacement, in FIFO mode ([fill_chunk]) and
      frame-swap mode ([compose_hardware_frame]).
    - [ColorDelay] ([presentation/engine.rs], ColorDelayLine): the delay line
      with its in-place loops.
    - [Session] ([error.rs], [session.rs]): errors and the control handle, the
      compare-exchange loop also as an interleaving of threads.
    - [Backend] ([device.rs], [backend.rs]): capabilities, the backend traits as
      classes, BackendKind; Duration conversions to and from double seconds.
    - [ContentSource] ([presentation/content_source.rs]): the two source traits
      as classes and the cache contract as a class of laws.
    - [SlicePipeline] ([presentation/slice_pipeline.rs]) and [ChunkProducer]
      ([stream/chunk_producer.rs], types of [stream/mod.rs]): the two sources,
      instances of those classes.
    - [World]: the driver thread's world and monad.  Every access to shared
      state first lets the next block of interference of other threads happen,
      so quantifying over the list of blocks quantifies over interleavings.  The
      commands the driver issues are recorded in a trace.
    - [OutputModel] ([presentation/output_model/*.rs]): waiting, closing,
      draining and the four adapters.
    - [Estimators] ([buffer_estimate/*.rs]): the buffer-fullness estimators.
    - [Driver] ([presentation/driver.rs], [reconnect.rs]): shutter transitions,
      reconnection, the loop and the end of a session.
    - [Bytes]: little-endian byte streams; the [byteorder] crate is the class
      [ByteOrder], its documented behaviour the class's laws.
    - [EtherDream] ([protocols/ether_dream/protocol.rs], the commands of
      [dac/mod.rs]): the wire protocol.
    - [EtherModel] ([protocols/ether_dream/profile.rs], [sim/model.rs]): the
      firmware profiles and the simulator of a DAC, bytes in and replies out.
    - [EtherStream] ([protocols/ether_dream/dac/{mod,stream}.rs]): the status the
      client keeps, the command queue and the response reader; the other end of
      the socket is a class.
    - [EtherLink]: the stream with the simulator as its peer.
    - [EtherBackend] ([protocols/ether_dream/backend.rs]): the backend, its writes
      in a monad with early returns; [EtherDrive] holds the theorems about it,
      driving the simulator, with the weakest-precondition rules of that monad.
    - [EtherServer] and [EtherHost] ([protocols/ether_dream/sim/server.rs]): the
      simulator's TCP server, a connection's thread in a monad with interference of
      the other threads, and the server's threads as a step relation.
    - [EtherScan] (the broadcast receiver of [protocols/ether_dream/mod.rs],
      [protocols/ether_dream/discovery.rs]): the Ether Dream discoverer.
    - [EtherReplay] ([protocols/ether_dream/replay.rs]) and [EtherCaptures] (the
      captures under [src/tests/fixtures/ether_dream/]): the comparison of the
      simulator with recorded hardware, a test of the model and not one of its
      properties: the replies it compares agree in thirteen captures.
    - [LaserCube] ([protocols/lasercube_network/]: [protocol.rs],
      [packetizer.rs], [command.rs], [ack.rs], [status.rs], [profiles.rs],
      [pacing.rs], [mod.rs]): the wire formats, profiles and pacing arithmetic.
    - [CubeTransport] ([protocols/lasercube_network/transport.rs] and
      [transport/{state,worker,handle}.rs]): the transport's worker thread, the
      handle the backend calls and the state they share, in a monad of their own
      with the same treatment of interference as [World]; [CubeFacts] holds the
      theorems about it.
    - [CubeBackend] ([protocols/lasercube_network/]: [backend.rs],
      [diagnostics.rs], [discovery.rs], the connecting half of
      [transport/handle.rs]): the backend over that transport, and its discoverer.
    - [Utf8]: lossy decoding and character boundaries of byte strings.
    - [IdnProtocol] ([protocols/idn/protocol.rs]): every IDN message and point
      type, with the traits that write and read them as classes with laws.
    - [IdnTypes] ([protocols/idn/error.rs], [protocols/idn/dac/mod.rs]): errors,
      servers, services and relays.
    - [IdnStream] ([protocols/idn/dac/stream.rs]): the stream state machine over
      a scripted socket and clock: configuration, fragmentation, timestamps,
      keepalives, acknowledgements, parameters.
    - [Receiver] ([receiver/parser.rs]): the receiver's packet parser.
    - [IdnLink]: stream and parser composed over a network that delivers.
    - [IdnServer] ([receiver/{packet_builder,behavior,config,server}.rs]): the
      response builders, the behaviour interface as a class, the server loop.
    - [Discovery] ([discovery.rs], the filter of [device.rs], the entry points of
      [lib.rs], [Dac] of [stream/mod.rs]): discoverers as a class, the registry,
      stable identities, opening by id.
    - [IdnScan] ([protocols/idn/mod.rs], [protocols/idn/discovery.rs]): the
      network scanner and the devices made from its servers.
    - [IdnBackend] ([protocols/idn/backend.rs]): the backend and its worker as two
      threads that share a bounded channel and a flag; a step relation
      interleaves them.
    - [Sessions] ([config.rs], [Stream] and the starting of sessions in
      [stream/mod.rs], [presentation/session.rs]): configuration, starting, running
      on the driver, and ending a stream or a frame session.
    - [Usb] ([protocols/usb_transfer.rs]): the endpoints of a USB handle as a
      class, the host's devices as another (the USB library is a parameter), and
      handles that record their transfers or follow a script.
    - [Helios] ([protocols/helios/{frame,native}.rs]) and [HeliosBackend]
      ([protocols/helios/{backend,discovery}.rs]): the frame encoder, the control
      protocol, the backend with its handle policy, and the discoverer.
    - [CubeUsb] ([protocols/lasercube_usb/]): samples, the stream, the backend and
      the discoverer of the LaserCube USB.
    - [Resample] ([resample.rs]): the streaming resampler of the audio backends.
    - [AudioSink] ([protocols/audio_sink.rs]): the queue between a producer and an
      audio callback; what a frame of a callback does to it is a class.
    - [Oscilloscope] ([protocols/oscilloscope/]) and [Avb] ([protocols/avb/]): the
      two audio backends with their callbacks, device choice and discovery.
    - [SimTools] ([src/tools/]): what the simulator programs compute besides drawing:
      the frame assembly and timestamps of the IDN simulator, its server's behaviour,
      its persistence buffer, the history of the Ether Dream simulator.
    - [AvbHost] ([protocols/avb/host.rs]): the threads that share the audio host,
      as a step relation.

    ** What the theorems show

    Output content: [fill_chunk] refines a one-point-at-a-time reference stream,
    is independent of chunking, loops periodically and replaces frames
    latest-wins; frame-swap composition fits the device and keeps authored
    points; the colour delay is a queue; callback chunks are the callback's
    points completed by the idle policy and delayed once, and [RepeatLast]
    replays raw content.

    Safety: disarmed output is the dark park point for both sources (what an output
    filter makes of it, when one is installed: filters come last); startup
    blanking covers its time; the shutter opens only after a complete
    preparation, whatever the interleaving of control calls, failures and
    reconnects; adapters never open it; a pass that ends open is for the current
    generation; no exit leaves it open.  Starting a session never opens the shutter
    and a refused start leaves the device closed; what is started stays closed until
    it is armed, and ends closed or with the device given up unless it ends as
    disconnected without a reconnect policy.

    Accounting, bounds and termination: successful writes are committed exactly
    once; counters and stream position follow the commits; the rate stays in
    range; the desired-state word is linearizable and its generation detects
    every edge; every step of an adapter ends with an outcome, and a network device
    that keeps blocking is given up after the stall timeout.

    Wire formats: the Ether Dream commands, points and responses and the LaserCube
    sample packets decode to what was encoded.

    Buffers: the estimators never let a sender within its room overfill the
    device, acknowledgements never hide newer sends, status reports are
    authoritative.

    LaserCube transport: only points of the current generation are sent, in order
    and once; output commands follow the requests; packets respect the remote
    cutoff; acknowledgements discount exactly what is in flight; the shared
    counters stay in range.  Its backend keeps a usable transport, shuts a stale one
    down and makes a new one only after the device answered; a write appends the chunk
    or changes nothing; a scan ends with the traffic (the loop for the next device has
    no deadline of its own), lists each device once and ignores no status it read.

    Ether Dream: the simulator never fails, its time is continuous and the cutting
    of its input does not matter; a submitted queue is executed in order and
    answered reply by reply, and unsafe rates are never sent; on every firmware a
    write takes the whole chunk or none of it and never overfills the ring (the
    fullness decayed in double precision never runs ahead of the DAC), a stop
    leaves the DAC idle, and a session from the connection on never errs.  A scan ends
    and lists each DAC once; a DAC of any known firmware is found with the
    capabilities its backend then has.  The simulator's server never fails, answers
    without faults as the simulator does, counts its clients exactly, and joins every
    thread when it is dropped, in a bounded number of steps.

    IDN: wire types round-trip and batch encoders are point-wise; the frames
    written to a stream are the frames the receiver's parser delivers, in datagrams
    that fit and tile time; acknowledgements decide as documented; the parser is
    safe on every input; receiver sessions do not leak into each other and strangers
    are turned away; a scan ends, finds exactly the servers that answered and reads their
    configuration; devices have distinct identities that lead back to their
    discoverer, and opening by id follows its specification; the backend's worker
    plays the command stream in order, sends nothing queued before a stop, and
    leaves only for cause; the frames written are the frames the simulator shows.

    USB: a written Helios frame was taken whole and reads back as the points (at most
    4095, and one fewer where the size would fill whole packets), at a
    rate that keeps its duration and a length that avoids whole packets; a Helios
    link lives exactly until a fatal error or fifty missed polls in a row, a dead
    handle is leaked and never closed, and a backend stays on its port; a LaserCube
    USB shows every point at the rate it was programmed to and the estimator is
    told that rate, and a stream that is given up goes dark first.

    Audio: resampling chunk by chunk is resampling the whole stream but for the
    look-ahead not yet received; under every interleaving with the callback nothing
    is lost, reordered or dropped, while a chunk larger than the queue never fits; a
    muted beam glides within its box; AVB light needs an open shutter and every
    sample is in range; the devices of a scan are found again; a one-stream host
    runs one output, whatever hangs.

    ** Conventions

    A [w]-bit integer is a [Z] in its range, wrapping or saturating where the
    code does; [usize] is 64 bits.  A Duration is a [Z] number of nanoseconds
    and an Instant a [Z] on the same axis.  [None] (and [Panicked]) is a panic.
    Loops have fuel computed from their own bounds: [fill_chunk] uses
    [max_points + 2] rounds, the waits [duration / slice + 2], the retry spin
    [stall timeout / 100 us + 2], a LaserCube burst the length of its queue, the
    walk over packet slots 256, IDN continuation packets the number of points left, a
    wait for an IDN reply the datagrams pending plus one, a network scan the reads
    pending plus one per 5 ms of its timeout, an Ether Dream's play loop the points in
    its ring plus one, its command loop the bytes of input plus one, a response read
    the bytes wanted, the events pending and the read timeouts in its budget, an Ether
    Dream scan the reads pending and the timeouts in its window, a connection of the
    server its reads plus one and per read its bytes of input plus one; a
    write runs two passes; the theorems show these are enough.  The driver
    loop, the reconnect loop, the LaserCube worker's loop, the busy waits and
    the drain of stale Helios replies are unbounded in the code: their
    fuel is a parameter, and the safety theorems hold for every fuel and at
    every point of the run.  Sockets are scripts of what each read returns, clocks
    lists of increments, the iteration order of a hash map a parameter.  An audio
    callback is atomic with respect to the calls of the AVB backend (the shutter is
    loaded once per buffer).  Hardware, user callbacks, output filters, device
    discovery and other threads are parameters (classes or oracle lists).

    ** Not modelled

    Logging; message texts are abbreviated.  Sockets, USB and audio input/output
    themselves and their options, the enumeration of network interfaces, the COM
    apartment of the AVB backend, the longest captures (their replay takes minutes),
    the replay of Helios captures (test code), the windows and the drawing of the
    simulator programs with their spectrum estimate, the benchmarks and the examples. *)

From Stdlib Require Export ZArith Lia.
From stdpp Require Export base list numbers option relations.
Export stdpp.list_basics.list.

#[global] Open Scope Z_scope.

Declare Scope rust_scope.
Delimit Scope rust_scope with rust.
Open Scope rust_scope.

(** ** The panic monad

    [None] is a Rust panic (an out-of-range slice, an arithmetic overflow in a
    checked build, an [unwrap] of [None]).  [x ← m ;; k] of stdpp is its bind. *)
Notation "'panic'" := (@None _) (only parsing) : rust_scope.

(** [assert b ;; k]: a guard whose failure panics. *)
Notation "'assert!' b ;; k" := (if b then k else None)
  (at level 100, b at level 99, k at level 200, right associativity) : rust_scope.

(** ** Machine integers

    A [w]-bit unsigned integer is a [Z] in [0 .. 2^w - 1], a signed one a [Z] in
    [-2^(w-1) .. 2^(w-1) - 1]. *)
Definition umax (w : Z) : Z := 2 ^ w - 1.

Definition wrapu (w z : Z) : Z := z mod 2 ^ w.

Definition wraps (w z : Z) : Z := (z + 2 ^ (w - 1)) mod 2 ^ w - 2 ^ (w - 1).

(** [saturating_add] and [saturating_sub] of unsigned integers. *)
Definition sat_add (w a b : Z) : Z := Z.min (umax w) (a + b).

Definition sat_sub (a b : Z) : Z := Z.max 0 (a - b).

Definition in_u (w z : Z) : Prop := 0 <= z <= umax w.

Definition in_s (w z : Z) : Prop := - 2 ^ (w - 1) <= z < 2 ^ (w - 1).

(** The development's hint database. *)
Create HintDb lasers.

(** [update_field eta proj v r]: the record [r] with its field [proj] set to [v];
    [eta] rebuilds a record from its own fields. *)
Ltac update_field eta proj v r :=
  let t := eval cbv beta delta [eta] in (eta r) in
  let t := eval pattern (proj r) in t in
  match t with ?f _ => let u := eval cbv beta in (f v) in exact u end.

(** ** Slices

    [slice_from l i] is [&l[i..]], [slice_to l i] is [&l[..i]], [write_at buf i xs] is
    [buf[i..i + xs.len()].copy_from_slice(xs)]; all panic out of range. *)
Definition slice_from {A} (l : list A) (i : nat) : option (list A) :=
  if decide (i <= length l)%nat then Some (drop i l) else None.

Definition slice_to {A} (l : list A) (i : nat) : option (list A) :=
  if decide (i <= length l)%nat then Some (take i l) else None.

Definition write_at {A} (buf : list A) (i : nat) (xs : list A) : option (list A) :=
  if decide (i + length xs <= length buf)%nat
  then Some (take i buf ++ xs ++ drop (i + length xs) buf)
  else None.

Section slices.
Context {A : Type}.
Implicit Types l buf xs : list A.

Lemma slice_from_Some l i : (i <= length l)%nat -> slice_from l i = Some (drop i l).
Proof. intros. unfold slice_from. by rewrite decide_True. Qed.

Lemma slice_to_Some l i : (i <= length l)%nat -> slice_to l i = Some (take i l).
Proof. intros. unfold slice_to. by rewrite decide_True. Qed.

Lemma write_at_Some buf i xs :
  (i + length xs <= length buf)%nat ->
  write_at buf i xs = Some (take i buf ++ xs ++ drop (i + length xs) buf).
Proof. intros. unfold write_at. by rewrite decide_True. Qed.

Lemma write_at_length buf i xs buf' : write_at buf i xs = Some buf' -> length buf' = length buf.
Proof.
  unfold write_at. case_decide; intros [= <-].
  rewrite !length_app, length_take, length_drop. lia.
Qed.

(** Two adjacent writes are one write of the concatenation. *)
Lemma write_at_app buf i xs ys buf' :
  write_at buf i xs = Some buf' ->
  write_at buf' (i + length xs) ys = write_at buf i (xs ++ ys).
Proof.
  intros Hw. pose proof (write_at_length _ _ _ _ Hw) as Hl.
  unfold write_at in *. case_decide; [|done]. injection Hw as <-.
  rewrite Hl, length_app, Nat.add_assoc. case_decide; [|done]. f_equal.
  rewrite (app_assoc (take i buf)), take_app_length' by (rewrite length_app, length_take; lia).
  rewrite drop_app_ge by (rewrite length_app, length_take; lia).
  rewrite length_app, length_take, drop_drop, <- !app_assoc.
  repeat f_equal. lia.
Qed.

Lemma write_at_nil buf i : (i <= length buf)%nat -> write_at buf i [] = Some buf.
Proof.
  intros. rewrite write_at_Some by (simpl; lia). simpl. rewrite Nat.add_0_r, take_drop. done.
Qed.

Lemma write_at_0 buf xs :
  (length xs <= length buf)%nat -> write_at buf 0 xs = Some (xs ++ drop (length xs) buf).
Proof. intros. by rewrite write_at_Some by lia. Qed.
End slices.
