(* ===== verification/Floats.v ===== *)
(** * IEEE-754 arithmetic as the Rust sources use it

    [f32] and [f64] are the Standard Library's [spec_float] at the two formats
    (24/128 and 53/1024): every [+], [-], [*], [/] below is the correctly
    rounded operation.  On top of them this file models the methods the sources
    call ([clamp], [abs], [max], [round], [ceil], comparisons, integer casts)
    and proves the rounding facts the components need: a rounded result never
    crosses a representable bound. *)

From Stdlib Require Import SpecFloat.
From S2P Require Import Prelude.

(** ** Operations, generic in the format *)
Section ops.
Context (prec emax : Z).

(** An integer literal or an [as f32] / [as f64] cast of an integer. *)
Definition of_int (z : Z) : spec_float := binary_normalize prec emax z 0 false.

(** A dyadic literal [m * 2^e], for example [0.5]. *)
Definition of_dyadic (m e : Z) : spec_float := binary_normalize prec emax m e false.

Definition is_nan (x : spec_float) : bool :=
  match x with S754_nan => true | _ => false end.

(** [f.clamp(lo, hi)]: a NaN stays a NaN. *)
Definition fclamp (x lo hi : spec_float) : spec_float :=
  let x := if SFltb x lo then lo else x in
  if SFltb hi x then hi else x.

(** [f.max(g)]: a NaN operand is ignored. *)
Definition fmax (x y : spec_float) : spec_float :=
  if is_nan x then y else if is_nan y then x else if SFltb x y then y else x.

(** [f.min(g)]. *)
Definition fmin (x y : spec_float) : spec_float :=
  if is_nan x then y else if is_nan y then x else if SFltb y x then y else x.

(** The integer nearest to [m * 2^e], halves away from zero ([e < 0]). *)
Definition round_half_away (m e : Z) : Z := (m + 2 ^ (- e - 1)) / 2 ^ (- e).

Definition signed_int (s : bool) (q : Z) : spec_float :=
  if q =? 0 then S754_zero s else of_int (cond_Zopp s q).

(** [f.round()]. *)
Definition fround (x : spec_float) : spec_float :=
  match x with
  | S754_finite s m e =>
      if 0 <=? e then x else signed_int s (round_half_away (Zpos m) e)
  | _ => x
  end.

(** [f.ceil()]. *)
Definition fceil (x : spec_float) : spec_float :=
  match x with
  | S754_finite s m e =>
      if 0 <=? e then x
      else if s then signed_int true (Zpos m / 2 ^ (- e))
      else signed_int false (- (- Zpos m / 2 ^ (- e)))
  | _ => x
  end.

(** [f.floor()]. *)
Definition ffloor (x : spec_float) : spec_float :=
  match x with
  | S754_finite s m e =>
      if 0 <=? e then x
      else if s then signed_int true (- (- Zpos m / 2 ^ (- e)))
      else signed_int false (Zpos m / 2 ^ (- e))
  | _ => x
  end.
End ops.

(** The magnitude [m * 2^e] truncated to an integer. *)
Definition trunc_mag (m : positive) (e : Z) : Z :=
  if 0 <=? e then Zpos m * 2 ^ e else Zpos m / 2 ^ (- e).

(** [f as uN] / [f as iN] with [lo .. hi] the target's range: truncation towards
    zero, saturating, NaN to 0. *)
Definition cast_int (lo hi : Z) (x : spec_float) : Z :=
  match x with
  | S754_nan | S754_zero _ => 0
  | S754_infinity s => if s then lo else hi
  | S754_finite s m e => Z.max lo (Z.min hi (cond_Zopp s (trunc_mag m e)))
  end.

Definition as_u8 := cast_int 0 255.
Definition as_u16 := cast_int 0 65535.
Definition as_i16 := cast_int (-32768) 32767.
Definition as_u32 := cast_int 0 (umax 32).
Definition as_u64 := cast_int 0 (umax 64).
(** [usize] is 64 bits wide. *)
Definition as_usize := as_u64.

(** ** The two formats *)
Module F32.
Abbreviation t := spec_float.
Definition of_int := of_int 24 128.
Definition of_dyadic := of_dyadic 24 128.
Definition add := SFadd 24 128.
Definition sub := SFsub 24 128.
Definition mul := SFmul 24 128.
Definition div := SFdiv 24 128.
Definition round := fround 24 128.
Definition ceil := fceil 24 128.
Definition floor := ffloor 24 128.
Definition valid := valid_binary 24 128.
End F32.

Module F64.
Abbreviation t := spec_float.
Definition of_int := of_int 53 1024.
Definition of_dyadic := of_dyadic 53 1024.
Definition add := SFadd 53 1024.
Definition sub := SFsub 53 1024.
Definition mul := SFmul 53 1024.
Definition div := SFdiv 53 1024.
Definition round := fround 53 1024.
Definition ceil := fceil 53 1024.
Definition floor := ffloor 53 1024.
Definition valid := valid_binary 53 1024.
End F64.

(** ** Rounding never crosses a representable bound *)
Section rounding.
Context (prec emax : Z) (Hprec : 1 < prec) (Hemax : prec < emax).

Lemma digits2_pos_size (m : positive) : digits2_pos m = Pos.size m.
Proof. induction m; simpl; congruence. Qed.

Lemma digits2_bounds (m : positive) :
  2 ^ (Zpos (digits2_pos m) - 1) <= Zpos m < 2 ^ Zpos (digits2_pos m).
Proof.
  rewrite digits2_pos_size.
  pose proof (Pos2Z.inj_pow 2 (Pos.size m)) as Hpow.
  pose proof (Pos.size_gt m). pose proof (Pos.size_le m). split; [|lia].
  assert (Hp : 2 ^ Zpos (Pos.size m) = 2 * 2 ^ (Zpos (Pos.size m) - 1)).
  { rewrite <- Z.pow_succ_r by lia. f_equal. lia. }
  lia.
Qed.

Lemma shr_1_m mrs : 0 <= shr_m mrs -> shr_m (shr_1 mrs) = shr_m mrs / 2.
Proof.
  destruct mrs as [m r s]; simpl; intros Hm.
  destruct m as [|[p|p|]|p]; simpl; try lia; try reflexivity.
  - rewrite (Pos2Z.inj_xI p). apply (Z.div_unique_pos _ _ _ 1); lia.
  - rewrite (Pos2Z.inj_xO p). apply (Z.div_unique_pos _ _ _ 0); lia.
Qed.

Lemma iter_shr_1_m p : forall mrs, 0 <= shr_m mrs ->
  shr_m (SpecFloat.iter_pos shr_1 p mrs) = shr_m mrs / 2 ^ Zpos p.
Proof.
  assert (Hd : forall a b c, 0 < b -> 0 < c -> a / b / c = a / (b * c)) by
    (intros; apply Z.div_div; lia).
  induction p as [p IH|p IH|]; intros mrs Hm; simpl SpecFloat.iter_pos.
  - assert (0 <= shr_m mrs / 2) by (apply Z.div_pos; lia).
    rewrite IH; rewrite IH; rewrite ?shr_1_m by lia; try lia.
    + rewrite !Hd by lia. f_equal.
      rewrite (Pos2Z.inj_xI p), Z.pow_add_r by lia. rewrite Z.pow_twice_r. lia.
    + apply Z.div_pos; lia.
  - rewrite IH; rewrite IH; try lia.
    + rewrite !Hd by lia. f_equal.
      rewrite (Pos2Z.inj_xO p). rewrite Z.pow_twice_r. lia.
    + apply Z.div_pos; lia.
  - rewrite shr_1_m by lia. reflexivity.
Qed.

Definition mrs_exact (mrs : shr_record) : Prop := shr_r mrs = false /\ shr_s mrs = false.

Lemma shr_1_exact mrs :
  0 <= shr_m mrs -> mrs_exact mrs -> shr_m mrs mod 2 = 0 -> mrs_exact (shr_1 mrs).
Proof.
  destruct mrs as [m r s]; unfold mrs_exact; simpl shr_m; simpl shr_r; simpl shr_s.
  intros Hm [-> ->] Hmod. rewrite Zmod_odd in Hmod.
  destruct m as [|[p|p|]|p]; simpl in *; auto; try lia; try discriminate.
Qed.

Lemma iter_shr_1_exact p : forall mrs,
  0 <= shr_m mrs -> mrs_exact mrs -> shr_m mrs mod 2 ^ Zpos p = 0 ->
  mrs_exact (SpecFloat.iter_pos shr_1 p mrs).
Proof.
  assert (Hstep : forall m a b, 0 < a -> 0 < b -> m mod (a * b) = 0 ->
            m mod a = 0 /\ (m / a) mod b = 0).
  { intros m a b Ha Hb Hmod. apply Z.mod_divide in Hmod as [c ->]; [|lia].
    replace (c * (a * b)) with (c * b * a) by lia.
    rewrite Z.mod_mul, Z.div_mul, Z.mod_mul by lia. auto. }
  induction p as [p IH|p IH|]; intros mrs Hm Hex Hmod; simpl SpecFloat.iter_pos.
  - rewrite (Pos2Z.inj_xI p) in Hmod.
    replace (2 ^ (2 * Zpos p + 1)) with (2 * (2 ^ Zpos p * 2 ^ Zpos p)) in Hmod
      by (rewrite Z.pow_add_r by lia; rewrite Z.pow_twice_r; lia).
    apply Hstep in Hmod as [H1 Hmod]; [|lia..].
    apply Hstep in Hmod as [H2 H3]; [|lia..].
    assert (0 <= shr_m mrs / 2) by (apply Z.div_pos; lia).
    assert (0 <= shr_m (shr_1 mrs)) by (rewrite shr_1_m; lia).
    apply IH; [rewrite iter_shr_1_m by lia; apply Z.div_pos; lia| |].
    + apply IH; [lia|by apply shr_1_exact|by rewrite shr_1_m].
    + rewrite iter_shr_1_m, shr_1_m by lia. done.
  - rewrite (Pos2Z.inj_xO p), Z.pow_twice_r in Hmod.
    apply Hstep in Hmod as [H1 H2]; [|lia..].
    apply IH; [rewrite iter_shr_1_m by lia; apply Z.div_pos; lia|by apply IH|].
    by rewrite iter_shr_1_m.
  - by apply shr_1_exact.
Qed.

(** Digits of an integer, characterised by the enclosing powers of two. *)
Lemma Zdigits2_bounds m : 0 < m -> 0 < Zdigits2 m /\ 2 ^ (Zdigits2 m - 1) <= m < 2 ^ Zdigits2 m.
Proof. destruct m as [|p|p]; intros; [lia| |lia]. simpl. split; [lia|apply digits2_bounds]. Qed.

Lemma Zdigits2_unique m d : 2 ^ (d - 1) <= m < 2 ^ d -> 0 < d -> Zdigits2 m = d.
Proof.
  intros [Hlo Hhi] Hd. assert (0 < 2 ^ (d - 1)) by (apply Z.pow_pos_nonneg; lia).
  destruct (Zdigits2_bounds m ltac:(lia)) as (Hp & Hl & Hh).
  assert (d - 1 < Zdigits2 m) by (apply (Z.pow_lt_mono_r_iff 2); lia).
  assert (Zdigits2 m - 1 < d) by (apply (Z.pow_lt_mono_r_iff 2); lia). lia.
Qed.

Lemma Zdigits2_shift m k : 0 <= k < Zdigits2 m -> 0 < m -> Zdigits2 (m / 2 ^ k) = Zdigits2 m - k.
Proof.
  intros Hk Hm. destruct (Zdigits2_bounds m Hm) as (_ & Hl & Hh).
  apply Zdigits2_unique; [|lia].
  split.
  - apply Z.div_le_lower_bound; [lia|]. rewrite <- Z.pow_add_r by lia.
    replace (k + (Zdigits2 m - k - 1)) with (Zdigits2 m - 1) by lia. done.
  - apply Z.div_lt_upper_bound; [lia|]. rewrite <- Z.pow_add_r by lia.
    replace (k + (Zdigits2 m - k)) with (Zdigits2 m) by lia. done.
Qed.

(** [m * 2^e <= M * 2^E], brought to the smaller exponent. *)
Definition dle (m e M E : Z) : Prop :=
  m * 2 ^ (e - Z.min e E) <= M * 2 ^ (E - Z.min e E).

Definition dlt (m e M E : Z) : Prop :=
  m * 2 ^ (e - Z.min e E) < M * 2 ^ (E - Z.min e E).

Lemma dle_scale m e M E k :
  k <= e -> k <= E -> dle m e M E <-> m * 2 ^ (e - k) <= M * 2 ^ (E - k).
Proof.
  intros He HE. unfold dle. set (n := Z.min e E).
  replace (e - k) with (e - n + (n - k)) by lia.
  replace (E - k) with (E - n + (n - k)) by lia.
  rewrite !Z.pow_add_r by lia. assert (0 < 2 ^ (n - k)) by (apply Z.pow_pos_nonneg; lia).
  rewrite !Z.mul_assoc. split; intros; [apply Z.mul_le_mono_nonneg_r; lia|].
  eapply Z.mul_le_mono_pos_r; [|done]; lia.
Qed.

Lemma dlt_scale m e M E k :
  k <= e -> k <= E -> dlt m e M E <-> m * 2 ^ (e - k) < M * 2 ^ (E - k).
Proof.
  intros He HE. unfold dlt. set (n := Z.min e E).
  replace (e - k) with (e - n + (n - k)) by lia.
  replace (E - k) with (E - n + (n - k)) by lia.
  rewrite !Z.pow_add_r by lia. assert (0 < 2 ^ (n - k)) by (apply Z.pow_pos_nonneg; lia).
  rewrite !Z.mul_assoc. split; intros; [apply Z.mul_lt_mono_pos_r; lia|].
  eapply Z.mul_lt_mono_pos_r; [|done]; lia.
Qed.

Abbreviation fexp := (fexp prec emax).
Abbreviation emin := (emin prec emax).

Lemma shr_fexp_spec m e l :
  0 <= m ->
  let k := Z.max 0 (fexp (Zdigits2 m + e) - e) in
  exists mrs, shr_fexp prec emax m e l = (mrs, e + k) /\
    shr_m mrs = m / 2 ^ k /\ (l = loc_Exact -> m mod 2 ^ k = 0 -> mrs_exact mrs).
Proof.
  intros Hm k. unfold shr_fexp, shr.
  assert (Hr : shr_m (shr_record_of_loc m l) = m) by (destruct l as [|[]]; done).
  assert (Hx : l = loc_Exact -> mrs_exact (shr_record_of_loc m l)) by (by intros ->).
  subst k. destruct (fexp (Zdigits2 m + e) - e) as [|p|p] eqn:Hk.
  all: (eexists; split; [f_equal; lia|]).
  - rewrite Z.max_id, Z.div_1_r. auto.
  - change (Z.max 0 (Zpos p)) with (Zpos p). rewrite iter_shr_1_m by (rewrite Hr; lia).
    rewrite Hr. split; [done|]. intros Hl Hmod. apply iter_shr_1_exact; [rewrite Hr; lia|auto|by rewrite Hr].
  - simpl. rewrite Hr, Z.div_1_r. auto.
Qed.

Lemma round_nearest_even_cases mrs :
  let q := round_nearest_even (shr_m mrs) (loc_of_shr_record mrs) in
  q = shr_m mrs \/ (q = shr_m mrs + 1 /\ ~ mrs_exact mrs).
Proof.
  destruct mrs as [m [] []]; unfold mrs_exact; simpl; auto; try (right; split; [done|intuition discriminate]).
  destruct (Z.even m); auto. right; split; [done|intuition discriminate].
Qed.

(** The magnitude of a rounded result is at most [M * 2^E]. *)
Definition mag_le (x : spec_float) (M E : Z) : Prop :=
  match x with
  | S754_finite _ m e => dle (Zpos m) e M E
  | S754_zero _ => True
  | _ => False
  end.

(** A magnitude below [M * 2^E] has its unit in the last place below [2^E]. *)
Lemma fexp_le_bound m e M E :
  0 < m -> 0 < M < 2 ^ prec -> emin <= E -> dle m e M E -> fexp (Zdigits2 m + e) <= E.
Proof.
  intros Hm HM HE Hle. unfold SpecFloat.fexp.
  destruct (Zdigits2_bounds m Hm) as (Hd & Hl & _).
  enough (Zdigits2 m + e - prec <= E) by lia.
  set (k := Z.min e E). apply (dle_scale _ _ _ _ k) in Hle; [|lia..].
  assert (2 ^ (Zdigits2 m - 1 + (e - k)) < 2 ^ (prec + (E - k))).
  { rewrite !Z.pow_add_r by lia.
    assert (0 < 2 ^ (e - k)) by (apply Z.pow_pos_nonneg; lia).
    assert (0 < 2 ^ (E - k)) by (apply Z.pow_pos_nonneg; lia).
    apply Z.le_lt_trans with (m * 2 ^ (e - k)); [apply Z.mul_le_mono_nonneg_r; lia|].
    apply Z.le_lt_trans with (M * 2 ^ (E - k)); [done|apply Z.mul_lt_mono_pos_r; lia]. }
  assert (Zdigits2 m - 1 + (e - k) < prec + (E - k)) by (apply (Z.pow_lt_mono_r_iff 2); lia).
  lia.
Qed.

(** Rounding to a multiple of [2^(e+k)] stays below a bound that is such a multiple. *)
Lemma round_up_le m e k q M E :
  0 <= m -> 0 <= k -> e + k <= E -> dle m e M E ->
  q = m / 2 ^ k \/ (q = m / 2 ^ k + 1 /\ dlt (m / 2 ^ k) (e + k) M E) ->
  dle q (e + k) M E.
Proof.
  intros Hm Hk HE Hle Hq.
  assert (0 < 2 ^ k) by (apply Z.pow_pos_nonneg; lia).
  apply (dle_scale _ _ _ _ e) in Hle; [|lia..]. rewrite Z.sub_diag, Z.mul_1_r in Hle.
  apply (dle_scale _ _ _ _ (e + k)); [lia..|]. rewrite Z.sub_diag, Z.mul_1_r.
  destruct Hq as [->|[-> Hlt]].
  - replace (E - e) with (E - (e + k) + k) in Hle by lia. rewrite Z.pow_add_r in Hle by lia.
    apply Z.div_le_upper_bound; lia.
  - apply (dlt_scale _ _ _ _ (e + k)) in Hlt; [|lia..]. rewrite Z.sub_diag, Z.mul_1_r in Hlt. lia.
Qed.

(** The quotient of an inexact shift is strictly below the bound. *)
Lemma shift_lt_bound m e k M E :
  0 <= m -> 0 <= k -> e + k <= E -> dle m e M E ->
  (m mod 2 ^ k = 0 -> dlt m e M E) -> dlt (m / 2 ^ k) (e + k) M E.
Proof.
  intros Hm Hk HE Hle Hlt. assert (0 < 2 ^ k) by (apply Z.pow_pos_nonneg; lia).
  apply (dlt_scale _ _ _ _ (e + k)); [lia..|]. rewrite Z.sub_diag, Z.mul_1_r.
  apply (dle_scale _ _ _ _ e) in Hle; [|lia..].
  assert (Hlt' : m mod 2 ^ k = 0 -> m * 2 ^ (e - e) < M * 2 ^ (E - e))
    by (intros Hz; apply (dlt_scale _ _ _ _ e); auto; lia).
  rewrite Z.sub_diag, Z.mul_1_r in *.
  replace (E - e) with (E - (e + k) + k) in * by lia. rewrite Z.pow_add_r in * by lia.
  pose proof (Z.div_mod m (2 ^ k) ltac:(lia)). pose proof (Z.mod_pos_bound m (2 ^ k) ltac:(lia)).
  apply (Z.mul_lt_mono_pos_r (2 ^ k)); [lia|].
  destruct (Z.eq_dec (m mod 2 ^ k) 0) as [Hz|Hz]; [specialize (Hlt' Hz)|]; lia.
Qed.

(** Truncating a magnitude only lowers it. *)
Lemma trunc_le_bound m e k M E : 0 <= m -> 0 <= k -> dle m e M E -> dle (m / 2 ^ k) (e + k) M E.
Proof.
  intros Hm Hk Hle. assert (0 < 2 ^ k) by (apply Z.pow_pos_nonneg; lia).
  set (n := Z.min e E). apply (dle_scale _ _ _ _ n) in Hle; [|lia..].
  apply (dle_scale _ _ _ _ n); [lia..|].
  replace (e + k - n) with (k + (e - n)) by lia. rewrite Z.pow_add_r by lia.
  etrans; [|exact Hle]. rewrite Z.mul_assoc. apply Z.mul_le_mono_nonneg_r; [lia|].
  pose proof (Z.mul_div_le m (2 ^ k) ltac:(lia)). lia.
Qed.

Theorem round_aux_mag sx m e l M E :
  0 <= m -> e <= fexp (Zdigits2 m + e) -> 0 < M < 2 ^ prec -> emin <= E <= emax - prec ->
  dle m e M E -> (l <> loc_Exact -> dlt m e M E) ->
  mag_le (binary_round_aux prec emax sx m e l) M E.
Proof.
  intros Hm Hk HM HE Hle Hlt. unfold binary_round_aux.
  destruct (shr_fexp_spec m e l Hm) as (mrs & -> & Hsm & Hex).
  set (k := Z.max 0 (fexp (Zdigits2 m + e) - e)) in *.
  assert (He' : e + k <= E).
  { destruct (Z.eq_dec m 0) as [->|].
    2: { pose proof (fexp_le_bound m e M E ltac:(lia) HM ltac:(lia) Hle). lia. }
    subst k. simpl in *. unfold SpecFloat.fexp in *. lia. }
  pose proof (round_nearest_even_cases mrs) as Hq. cbv zeta in Hq.
  set (q := round_nearest_even _ _) in *.
  assert (Hqle : dle q (e + k) M E).
  { apply (round_up_le m); [lia..|done|]. rewrite Hsm in Hq. destruct Hq as [->|[-> Hnx]]; [by left|].
    right. split; [done|]. apply shift_lt_bound; [lia..|done|]. intros Hmod. apply Hlt.
    intros Hl. apply Hnx. by apply Hex. }
  assert (Hq0 : 0 <= q).
  { assert (0 <= shr_m mrs) by (rewrite Hsm; apply Z.div_pos; lia). lia. }
  destruct (shr_fexp_spec q (e + k) loc_Exact Hq0) as (mrs2 & -> & Hsm2 & _).
  set (k2 := Z.max 0 (fexp (Zdigits2 q + (e + k)) - (e + k))) in *. rewrite Hsm2.
  pose proof (trunc_le_bound q (e + k) k2 M E Hq0 ltac:(lia) Hqle) as Hfin.
  destruct (q / 2 ^ k2) as [|p|p] eqn:Hqd; [done| |].
  - assert (0 < q).
    { destruct (Z.eq_dec q 0) as [Hz|]; [|lia]. rewrite Hz, Z.div_0_l in Hqd; [done|].
      apply Z.pow_nonzero; lia. }
    pose proof (fexp_le_bound q (e + k) M E ltac:(lia) HM ltac:(lia) Hqle).
    destruct (Z.leb_spec (e + k + k2) (emax - prec)); [done|lia].
  - assert (0 <= q / 2 ^ k2) by (apply Z.div_pos; lia). lia.
Qed.

Lemma shift_canonical m e :
  let k := fexp (Zdigits2 m + e) - e in
  0 <= m -> 0 <= k -> 0 < m / 2 ^ k -> Zdigits2 (m / 2 ^ k) + (e + k) = Zdigits2 m + e.
Proof.
  intros k Hm Hk Hq.
  assert (0 < m) by (destruct (Z.eq_dec m 0) as [->|]; [rewrite Z.div_0_l in Hq; lia|lia]).
  destruct (Z.lt_ge_cases k (Zdigits2 m)) as [Hlt|Hge].
  - rewrite Zdigits2_shift by lia. lia.
  - destruct (Zdigits2_bounds m ltac:(lia)) as (_ & _ & Hh).
    rewrite Z.div_small in Hq; [lia|]. split; [lia|].
    apply Z.lt_le_trans with (2 ^ Zdigits2 m); [done|apply Z.pow_le_mono_r; lia].
Qed.

Lemma Zdigits2_mono a b : 0 < a <= b -> Zdigits2 a <= Zdigits2 b.
Proof.
  intros Hab. destruct (Zdigits2_bounds a ltac:(lia)) as (_ & Ha & _).
  destruct (Zdigits2_bounds b ltac:(lia)) as (? & _ & Hb).
  enough (Zdigits2 a - 1 < Zdigits2 b) by lia. apply (Z.pow_lt_mono_r_iff 2); lia.
Qed.

Theorem round_aux_valid sx m e l :
  0 <= m -> e <= fexp (Zdigits2 m + e) ->
  valid_binary prec emax (binary_round_aux prec emax sx m e l) = true.
Proof.
  intros Hm Hk. unfold binary_round_aux.
  destruct (shr_fexp_spec m e l Hm) as (mrs & -> & Hsm & _).
  pose proof (round_nearest_even_cases mrs) as Hq. cbv zeta in Hq.
  set (q := round_nearest_even _ _) in *. rewrite Hsm in Hq.
  rewrite Z.max_r in Hq by lia. rewrite Z.max_r by lia.
  set (k := fexp (Zdigits2 m + e) - e) in *.
  assert (Hq0 : 0 <= m / 2 ^ k) by (apply Z.div_pos; lia).
  assert (Hqn : 0 <= q) by lia.
  destruct (shr_fexp_spec q (e + k) loc_Exact Hqn) as (mrs2 & -> & -> & _).
  destruct (Z.eq_dec q 0) as [Hz|Hz].
  { rewrite Hz, Z.div_0_l; [done|apply Z.pow_nonzero; lia]. }
  assert (He : e + k <= fexp (Zdigits2 q + (e + k))).
  { destruct (Z.eq_dec (m / 2 ^ k) 0) as [Hz0|Hnz].
    - enough (e + k = emin) by (unfold SpecFloat.fexp; lia).
      destruct (Z.eq_dec m 0) as [->|].
      + subst k. simpl in *. unfold SpecFloat.fexp in *. lia.
      + destruct (Z.lt_ge_cases k (Zdigits2 m)) as [Hlt|Hge].
        * destruct (Zdigits2_bounds m ltac:(lia)) as (_ & Hl & _).
          apply Z.div_small_iff in Hz0; [|apply Z.pow_nonzero; lia].
          assert (2 ^ k <= 2 ^ (Zdigits2 m - 1)) by (apply Z.pow_le_mono_r; lia). lia.
        * subst k. unfold SpecFloat.fexp in *. lia.
    - pose proof (shift_canonical m e) as Hc. cbv zeta in Hc. fold k in Hc.
      specialize (Hc Hm ltac:(lia) ltac:(lia)).
      pose proof (Zdigits2_mono (m / 2 ^ k) q ltac:(lia)).
      assert (fexp (Zdigits2 m + e) <= fexp (Zdigits2 q + (e + k)))
        by (unfold SpecFloat.fexp; lia). lia. }
  rewrite Z.max_r by lia. set (k2 := fexp (Zdigits2 q + (e + k)) - (e + k)) in *.
  destruct (q / 2 ^ k2) as [|p|p] eqn:Hqd; [done| |done].
  pose proof (shift_canonical q (e + k)) as Hc. cbv zeta in Hc. fold k2 in Hc. rewrite Hqd in Hc.
  specialize (Hc Hqn ltac:(lia) ltac:(lia)).
  destruct (Z.leb_spec (e + k + k2) (emax - prec)) as [Hok|]; [|done]. simpl.
  unfold bounded, canonical_mantissa. simpl in Hc. rewrite Hc.
  apply andb_true_intro. split; [apply Z.eqb_eq; lia|by apply Z.leb_le].
Qed.

(** *** Algebra of bounds *)
Lemma dle_trans a ea b eb c ec :
  dle a ea b eb -> dle b eb c ec -> dle a ea c ec.
Proof.
  intros H1 H2. set (k := Z.min ea (Z.min eb ec)).
  apply (dle_scale _ _ _ _ k) in H1; [|lia..]. apply (dle_scale _ _ _ _ k) in H2; [|lia..].
  apply (dle_scale _ _ _ _ k); lia.
Qed.

Lemma dle_mul a ea A EA b eb B EB :
  0 <= a -> 0 <= b -> dle a ea A EA -> dle b eb B EB -> dle (a * b) (ea + eb) (A * B) (EA + EB).
Proof.
  intros Ha Hb H1 H2. set (k := Z.min ea EA). set (j := Z.min eb EB).
  apply (dle_scale _ _ _ _ k) in H1; [|lia..]. apply (dle_scale _ _ _ _ j) in H2; [|lia..].
  apply (dle_scale _ _ _ _ (k + j)); [lia..|].
  replace (ea + eb - (k + j)) with ((ea - k) + (eb - j)) by lia.
  replace (EA + EB - (k + j)) with ((EA - k) + (EB - j)) by lia.
  rewrite !Z.pow_add_r by lia.
  assert (0 < 2 ^ (ea - k)) by (apply Z.pow_pos_nonneg; lia).
  assert (0 < 2 ^ (eb - j)) by (apply Z.pow_pos_nonneg; lia).
  replace (a * b * (2 ^ (ea - k) * 2 ^ (eb - j)))
    with ((a * 2 ^ (ea - k)) * (b * 2 ^ (eb - j))) by lia.
  replace (A * B * (2 ^ (EA - k) * 2 ^ (EB - j)))
    with ((A * 2 ^ (EA - k)) * (B * 2 ^ (EB - j))) by lia.
  apply Z.mul_le_mono_nonneg; [apply Z.mul_nonneg_nonneg; lia|done|apply Z.mul_nonneg_nonneg; lia|done].
Qed.

(** A bound usable as the right-hand side of [mag_le]: representable. *)
Definition rep (M E : Z) : Prop := 0 < M < 2 ^ prec /\ emin <= E <= emax - prec.

(** A finite or zero value of the format with magnitude at most [M * 2^E]. *)
Definition bounded_by (x : spec_float) (M E : Z) : Prop :=
  valid_binary prec emax x = true /\ mag_le x M E.

Lemma bounded_exp s m e :
  valid_binary prec emax (S754_finite s m e) = true ->
  fexp (Zpos (digits2_pos m) + e) = e /\ e <= emax - prec.
Proof.
  simpl. unfold bounded, canonical_mantissa. intros [H1 H2]%andb_prop.
  apply Z.eqb_eq in H1. apply Z.leb_le in H2. done.
Qed.

Theorem mul_bounded x y M1 E1 M2 E2 M E :
  bounded_by x M1 E1 -> bounded_by y M2 E2 -> rep M E ->
  dle (M1 * M2) (E1 + E2) M E -> bounded_by (SFmul prec emax x y) M E.
Proof.
  intros [Hvx Hx] [Hvy Hy] [HM HE] Hle.
  destruct x as [| | |sx mx ex]; try done; destruct y as [| | |sy my ey]; try done.
  apply bounded_exp in Hvx as [Hcx _]. apply bounded_exp in Hvy as [Hcy _]. simpl in Hx, Hy.
  assert (Hk : ex + ey <= fexp (Zdigits2 (Zpos (mx * my)) + (ex + ey))).
  { pose proof (Zdigits2_mono (Zpos mx) (Zpos (mx * my)) ltac:(nia)) as Ha.
    pose proof (Zdigits2_mono (Zpos my) (Zpos (mx * my)) ltac:(nia)) as Hb.
    unfold Zdigits2, SpecFloat.fexp, SpecFloat.emin in *. lia. }
  split; [apply round_aux_valid; [lia|done]|].
  apply round_aux_mag; [lia|done|done|done| |done].
  rewrite Pos2Z.inj_mul. eapply dle_trans; [by apply dle_mul|done].
Qed.

Lemma shl_align_spec m e e' :
  let '(m', e'') := shl_align m e e' in
  e'' = Z.min e e' /\ Zpos m' = Zpos m * 2 ^ (e - Z.min e e').
Proof.
  unfold shl_align. destruct (e' - e) as [|p|p] eqn:Hd.
  - replace (Z.min e e') with e by lia. split; [done|]. rewrite Z.sub_diag. lia.
  - replace (Z.min e e') with e by lia. split; [done|]. rewrite Z.sub_diag. lia.
  - replace (Z.min e e') with e' by lia. split; [done|].
    replace (e - e') with (Zpos p) by lia.
    rewrite <- Pos2Z.inj_pow, <- Pos2Z.inj_mul. f_equal.
    clear Hd. revert m. induction p as [|p IH] using Pos.peano_ind; intros m.
    + simpl. lia.
    + rewrite Pos.iter_succ, IH, Pos.pow_succ_r. lia.
Qed.

Lemma Zdigits2_scale m k : 0 < m -> 0 <= k -> Zdigits2 (m * 2 ^ k) = Zdigits2 m + k.
Proof.
  intros Hm Hk. destruct (Zdigits2_bounds m Hm) as (Hd & Hl & Hh).
  assert (0 < 2 ^ k) by (apply Z.pow_pos_nonneg; lia).
  apply Zdigits2_unique; [|lia]. split.
  - replace (Zdigits2 m + k - 1) with (Zdigits2 m - 1 + k) by lia.
    rewrite Z.pow_add_r by lia. apply Z.mul_le_mono_nonneg_r; lia.
  - rewrite Z.pow_add_r by lia. apply Z.mul_lt_mono_pos_r; lia.
Qed.

(** [binary_round] aligns the mantissa, so that only [binary_round_aux]'s
    side conditions remain. *)
Lemma binary_round_aligned s p e :
  exists mz ez, binary_round prec emax s p e = binary_round_aux prec emax s (Zpos mz) ez loc_Exact /\
    ez <= e /\ Zpos mz = Zpos p * 2 ^ (e - ez) /\ ez <= fexp (Zdigits2 (Zpos mz) + ez).
Proof.
  unfold binary_round. pose proof (shl_align_spec p e (fexp (Zpos (digits2_pos p) + e))) as Hs.
  destruct (shl_align _ _ _) as [mz ez]. destruct Hs as [-> Hmz]. eexists _, _. split; [done|].
  split; [lia|]. split; [done|]. rewrite Hmz, Zdigits2_scale by lia. unfold Zdigits2.
  set (f := fexp (Zpos (digits2_pos p) + e)) in *.
  replace (Zpos (digits2_pos p) + (e - Z.min e f) + Z.min e f) with (Zpos (digits2_pos p) + e) by lia.
  fold f. lia.
Qed.

Lemma normalize_valid m e szero : valid_binary prec emax (binary_normalize prec emax m e szero) = true.
Proof.
  destruct m as [|p|p]; [done|..]; simpl;
    [destruct (binary_round_aligned false p e) as (mz & ez & -> & _ & _ & Hk)
    |destruct (binary_round_aligned true p e) as (mz & ez & -> & _ & _ & Hk)];
    apply round_aux_valid; done.
Qed.

Lemma normalize_bounded m e szero M E :
  dle (Z.abs m) e M E -> rep M E -> bounded_by (binary_normalize prec emax m e szero) M E.
Proof.
  intros Hle [HM HE]. split; [apply normalize_valid|].
  assert (Hround : forall s p, dle (Zpos p) e M E -> mag_le (binary_round prec emax s p e) M E).
  { intros s p Hp. destruct (binary_round_aligned s p e) as (mz & ez & -> & Hez & Hmz & Hk).
    apply round_aux_mag; [lia|done..| |done].
    rewrite Hmz. set (j := Z.min ez E).
    apply (dle_scale _ _ _ _ j) in Hp; [|lia..]. apply (dle_scale _ _ _ _ j); [lia..|].
    rewrite <- Z.mul_assoc, <- Z.pow_add_r by lia.
    replace (e - ez + (ez - j)) with (e - j) by lia. done. }
  destruct m as [|p|p]; [done|..]; apply Hround; done.
Qed.

Lemma dle_align m e k M E : k <= e -> dle m e M E -> dle (m * 2 ^ (e - k)) k M E.
Proof.
  intros Hk Hle. set (j := Z.min k E).
  apply (dle_scale _ _ _ _ j) in Hle; [|lia..]. apply (dle_scale _ _ _ _ j); [lia..|].
  rewrite <- Z.mul_assoc, <- Z.pow_add_r by lia.
  by replace (e - k + (k - j)) with (e - j) by lia.
Qed.

Lemma dle_add a b e M1 M2 E :
  dle a e M1 E -> dle b e M2 E -> dle (a + b) e (M1 + M2) E.
Proof. unfold dle. lia. Qed.

Lemma bounded_weaken x M1 E1 M E :
  bounded_by x M1 E1 -> dle M1 E1 M E -> bounded_by x M E.
Proof.
  intros [Hv Hm] Hle. split; [done|]. destruct x; simpl in *; try done. by eapply dle_trans.
Qed.

Lemma dle_0 M1 M2 E : 0 <= M1 -> dle M2 E (M1 + M2) E.
Proof. unfold dle. rewrite Z.min_id, Z.sub_diag. lia. Qed.

Lemma mag_align s m e k M E :
  k <= e -> dle (Zpos m) e M E ->
  dle (Z.abs (cond_Zopp s (Zpos (fst (shl_align m e k))))) k M E.
Proof.
  intros Hk Hle. pose proof (shl_align_spec m e k) as Hs.
  destruct (shl_align m e k) as [m' e']. destruct Hs as [_ Hm]. simpl fst.
  replace (Z.abs (cond_Zopp s (Zpos m'))) with (Zpos m') by (destruct s; simpl; lia).
  rewrite Hm, Z.min_r by lia. by apply dle_align.
Qed.

Lemma dle_mono a b e M E : a <= b -> dle b e M E -> dle a e M E.
Proof.
  unfold dle. intros Hab Hle. etrans; [|exact Hle].
  apply Z.mul_le_mono_nonneg_r; [apply Z.pow_nonneg|]; lia.
Qed.

Theorem add_bounded x y M1 M2 E :
  0 <= M1 -> 0 <= M2 -> bounded_by x M1 E -> bounded_by y M2 E -> rep (M1 + M2) E ->
  bounded_by (SFadd prec emax x y) (M1 + M2) E.
Proof.
  intros H1 H2 Hx Hy Hrep. pose proof (dle_0 M1 M2 E H1) as Hw1.
  assert (Hw2 : dle M1 E (M1 + M2) E) by (rewrite Z.add_comm; by apply dle_0).
  pose proof (bounded_weaken _ _ _ _ _ Hx Hw2) as Hx'.
  pose proof (bounded_weaken _ _ _ _ _ Hy Hw1) as Hy'.
  destruct x as [[]| | |sx mx ex]; [..|]; try (destruct Hx; done);
    (destruct y as [[]| | |sy my ey]; try (destruct Hy; done)); try done.
  destruct Hx as [_ Hx], Hy as [_ Hy]. simpl in Hx, Hy.
  apply normalize_bounded; [|done].
  apply (mag_align sx mx ex (Z.min ex ey)) in Hx; [|lia].
  apply (mag_align sy my ey (Z.min ex ey)) in Hy; [|lia].
  eapply dle_mono; [apply Z.abs_triangle|]. by apply dle_add.
Qed.

(** A quotient has at least the digits of the dividend less those of the divisor. *)
Lemma div_digits a n b q r :
  0 < a -> 0 < b -> 0 <= n -> 0 <= q -> 0 <= r < b -> a * 2 ^ n = b * q + r ->
  Zdigits2 a + n - Zdigits2 b <= Zdigits2 q.
Proof.
  intros Ha Hb Hn Hq Hr Hdm. destruct (Zdigits2_bounds a Ha) as (Hda & Hla & _).
  destruct (Zdigits2_bounds b Hb) as (Hdb & _ & Hhb).
  assert (Hlow : 2 ^ (Zdigits2 a - 1 + n) <= a * 2 ^ n).
  { rewrite Z.pow_add_r by lia. apply Z.mul_le_mono_nonneg_r; [apply Z.pow_nonneg|]; lia. }
  assert (Hup : a * 2 ^ n < 2 ^ (Zdigits2 b + Zdigits2 q)).
  { assert (q + 1 <= 2 ^ Zdigits2 q).
    { destruct (Z.eq_dec q 0) as [->|]; [simpl; lia|].
      destruct (Zdigits2_bounds q ltac:(lia)) as (_ & _ & ?). lia. }
    assert (0 <= Zdigits2 q) by (destruct q; simpl; lia).
    rewrite Z.pow_add_r by lia. apply Z.lt_le_trans with (b * (q + 1)); [nia|].
    apply Z.mul_le_mono_nonneg; lia. }
  assert (Zdigits2 a - 1 + n < Zdigits2 b + Zdigits2 q); [|lia].
  apply (Z.pow_lt_mono_r_iff 2); [lia|destruct q; simpl in *; lia|lia].
Qed.

Lemma SFsub_opp x y : SFsub prec emax x y = SFadd prec emax x (SFopp y).
Proof.
  destruct x as [[]|[]| |[] mx ex], y as [[]|[]| |[] my ey]; simpl; try reflexivity;
    repeat f_equal; lia.
Qed.

Lemma opp_bounded x M E : bounded_by x M E -> bounded_by (SFopp x) M E.
Proof. by destruct x. Qed.

Theorem sub_bounded x y M1 M2 E :
  0 <= M1 -> 0 <= M2 -> bounded_by x M1 E -> bounded_by y M2 E -> rep (M1 + M2) E ->
  bounded_by (SFsub prec emax x y) (M1 + M2) E.
Proof. intros. rewrite SFsub_opp. apply add_bounded; auto using opp_bounded. Qed.

(** The quotient and remainder [SFdiv] rounds from. *)
Lemma div_core_spec mx ex my ey :
  exists q e' r n, SFdiv_core_binary prec emax (Zpos mx) ex (Zpos my) ey = (q, e', new_location (Zpos my) r) /\
    0 <= n /\ 0 <= q /\ 0 <= r < Zpos my /\ Zpos mx * 2 ^ n = Zpos my * q + r /\
    n = ex - ey - e' /\ e' <= fexp (Zdigits2 q + e').
Proof.
  unfold SFdiv_core_binary. cbv zeta.
  set (d := Zdigits2 (Zpos mx) + ex - (Zdigits2 (Zpos my) + ey)).
  set (e' := Z.min (fexp d) (ex - ey)). set (n := ex - ey - e').
  assert (Hmm : (match n with | Zpos _ => Z.shiftl (Zpos mx) n | 0 => Zpos mx | Zneg _ => 0 end)
            = Zpos mx * 2 ^ n).
  { assert (0 <= n) by lia. destruct n as [|p|p]; [lia| |lia]. by rewrite Z.shiftl_mul_pow2. }
  rewrite Hmm. clear Hmm. assert (Hn : 0 <= n) by lia.
  pose proof (Z_div_mod (Zpos mx * 2 ^ n) (Zpos my) ltac:(lia)) as Hdm.
  destruct (Z.div_eucl _ _) as [q r]. destruct Hdm as [Hdm Hr].
  assert (Hpow : 0 < 2 ^ n) by (apply Z.pow_pos_nonneg; lia).
  assert (Hq : 0 <= q) by nia.
  exists q, e', r, n. repeat split; try done; try lia.
  enough (d <= Zdigits2 q + e') by (unfold SpecFloat.fexp in *; lia).
  apply div_digits with (r := r) in Hdm; [|lia..]. lia.
Qed.

(** Division of a magnitude below [M * 2^E * y] by [y]. *)
Theorem div_bounded x sy my ey M E :
  valid_binary prec emax x = true ->
  mag_le x (M * Zpos my) (E + ey) -> rep M E ->
  bounded_by (SFdiv prec emax x (S754_finite sy my ey)) M E.
Proof.
  intros Hv Hx [HM HE]. destruct x as [| | |sx mx ex]; try done. simpl in Hx. unfold SFdiv.
  destruct (div_core_spec mx ex my ey) as (q & e' & r & n & -> & Hn & Hq & Hr & Hdm & Hne & Hk).
  (* the scaled bound, at any exponent below both *)
  set (j := Z.min e' E).
  assert (Hsc : Zpos mx * 2 ^ n * 2 ^ (e' - j) <= Zpos my * (M * 2 ^ (E - j))).
  { apply (dle_scale _ _ _ _ (j + ey)) in Hx; [|lia..].
    rewrite <- Z.mul_assoc, <- Z.pow_add_r by lia.
    replace (n + (e' - j)) with (ex - (j + ey)) by lia.
    replace (E + ey - (j + ey)) with (E - j) in Hx by lia. lia. }
  assert (Hpos : 0 < 2 ^ (e' - j)) by (apply Z.pow_pos_nonneg; lia).
  split; [apply round_aux_valid; [lia|done]|apply round_aux_mag; try done].
  - apply (dle_scale _ _ _ _ j); [lia..|].
    apply (Z.mul_le_mono_pos_l _ _ (Zpos my)); [lia|]. etrans; [|exact Hsc].
    rewrite Hdm, Z.mul_assoc. apply Z.mul_le_mono_nonneg_r; lia.
  - intros Hloc. assert (r <> 0).
    { intros ->. apply Hloc. unfold new_location. by destruct (Z.even _). }
    apply (dlt_scale _ _ _ _ j); [lia..|].
    apply (Z.mul_lt_mono_pos_l (Zpos my)); [lia|]. eapply Z.lt_le_trans; [|exact Hsc].
    rewrite Hdm, Z.mul_assoc. apply Z.mul_lt_mono_pos_r; lia.
Qed.

(** *** Every operation yields a value of the format *)
Lemma add_valid x y :
  valid_binary prec emax x = true -> valid_binary prec emax y = true ->
  valid_binary prec emax (SFadd prec emax x y) = true.
Proof.
  intros Hx Hy. destruct x as [[]|[]| |sx mx ex], y as [[]|[]| |sy my ey]; try done.
  apply normalize_valid.
Qed.

Lemma opp_valid x : valid_binary prec emax x = true -> valid_binary prec emax (SFopp x) = true.
Proof. by destruct x. Qed.

Lemma sub_valid x y :
  valid_binary prec emax x = true -> valid_binary prec emax y = true ->
  valid_binary prec emax (SFsub prec emax x y) = true.
Proof. intros. rewrite SFsub_opp. auto using add_valid, opp_valid. Qed.

Lemma mul_valid x y :
  valid_binary prec emax x = true -> valid_binary prec emax y = true ->
  valid_binary prec emax (SFmul prec emax x y) = true.
Proof.
  intros Hvx Hvy. destruct x as [| | |sx mx ex], y as [| | |sy my ey]; try done. unfold SFmul.
  apply bounded_exp in Hvx as [Hcx _]. apply bounded_exp in Hvy as [Hcy _]. apply round_aux_valid; [lia|].
  pose proof (Zdigits2_mono (Zpos mx) (Zpos (mx * my)) ltac:(nia)). pose proof (Zdigits2_mono (Zpos my) (Zpos (mx * my)) ltac:(nia)).
  unfold Zdigits2, SpecFloat.fexp, SpecFloat.emin in *. lia.
Qed.

Lemma div_valid x y :
  valid_binary prec emax (SFdiv prec emax x y) = true.
Proof.
  destruct x as [| | |sx mx ex], y as [| | |sy my ey]; try done. unfold SFdiv.
  destruct (div_core_spec mx ex my ey) as (q & e' & r & n & -> & Hn & Hq & Hr & Hdm & Hne & Hk).
  by apply round_aux_valid.
Qed.

Lemma clamp_valid x lo hi :
  valid_binary prec emax x = true -> valid_binary prec emax lo = true ->
  valid_binary prec emax hi = true -> valid_binary prec emax (fclamp x lo hi) = true.
Proof. intros. unfold fclamp. destruct (SFltb x lo), (SFltb hi _); done. Qed.

Lemma dle_refl m e : dle m e m e.
Proof. unfold dle. lia. Qed.

(** Comparing canonical magnitudes by exponent first is comparing values. *)
Lemma compare_mag s1 m1 e1 s2 m2 e2 :
  valid_binary prec emax (S754_finite s1 m1 e1) = true ->
  valid_binary prec emax (S754_finite s2 m2 e2) = true ->
  match e1 ?= e2 with Lt => Lt | Gt => Gt | Eq => Pos.compare_cont Eq m1 m2 end <> Gt ->
  dle (Zpos m1) e1 (Zpos m2) e2.
Proof.
  intros [H1 _]%bounded_exp [H2 _]%bounded_exp Hc.
  destruct (digits2_bounds m1) as [_ Hh], (digits2_bounds m2) as [Hl _].
  destruct (Z.compare_spec e1 e2) as [->|Hlt|Hgt]; [| |done].
  - unfold dle. rewrite Z.min_id, Z.sub_diag. change (Pos.compare m1 m2 <> Gt) in Hc.
    assert (m1 <= m2)%positive by done. lia.
  - apply (dle_scale _ _ _ _ e1); [lia..|]. rewrite Z.sub_diag, Z.mul_1_r.
    unfold SpecFloat.fexp in *.
    assert (2 ^ Zpos (digits2_pos m1) <= 2 ^ prec) by (apply Z.pow_le_mono_r; lia).
    assert (2 ^ (prec - 1) <= Zpos m2).
    { replace prec with (Zpos (digits2_pos m2)) by lia. done. }
    assert (2 ^ prec <= 2 ^ (prec - 1) * 2 ^ (e2 - e1)).
    { rewrite <- Z.pow_add_r by lia. apply Z.pow_le_mono_r; lia. }
    assert (0 < 2 ^ (e2 - e1)) by (apply Z.pow_pos_nonneg; lia).
    assert (2 ^ (prec - 1) * 2 ^ (e2 - e1) <= Zpos m2 * 2 ^ (e2 - e1))
      by (apply Z.mul_le_mono_nonneg_r; lia). lia.
Qed.

(** Clamping a number of the format between two bounded values bounds it. *)
Theorem clamp_bounded x lo hi M E :
  valid_binary prec emax x = true -> is_nan x = false ->
  bounded_by lo M E -> bounded_by hi M E -> SFltb (S754_zero false) hi = true ->
  bounded_by (fclamp x lo hi) M E.
Proof.
  intros Hv Hn Hlo Hhi Hh0. unfold fclamp. destruct (SFltb x lo) eqn:H1.
  { by destruct (SFltb hi lo). }
  destruct (SFltb hi x) eqn:H2; [done|].
  destruct Hlo as [Hvl Hlo], Hhi as [Hvh Hhi]. split; [done|].
  destruct hi as [| | |[] mh eh]; try done.
  destruct x as [|[]| |[] m e]; try done.
  - destruct lo as [|[]| |[] ml el]; done.
  - destruct lo as [|[]| |[] ml el]; try done.
    simpl in Hlo. eapply dle_trans; [|exact Hlo]. apply (compare_mag true m e true ml el Hv Hvl).
    unfold SFltb in H1. simpl in H1. destruct (e ?= el); try done.
    by destruct (Pos.compare_cont Eq m ml).
  - simpl in Hhi. eapply dle_trans; [|exact Hhi]. apply (compare_mag false m e false mh eh Hv Hvh).
    unfold SFltb in H2. simpl in H2. rewrite Z.compare_antisym.
    destruct (eh ?= e); try done. simpl. change (Pos.compare m mh <> Gt).
    rewrite Pos.compare_antisym. change (Pos.compare mh m) with (Pos.compare_cont Eq mh m).
    by destruct (Pos.compare_cont Eq mh m).
Qed.

(** Rounding to an integer does not pass an integer bound. *)
Theorem round_bounded x B :
  bounded_by x B 0 -> 0 < B < 2 ^ prec -> bounded_by (fround prec emax x) B 0.
Proof.
  intros [Hv Hx] HB. unfold fround. destruct x as [| | |s m e]; try done.
  destruct (Z.leb_spec 0 e); [done|]. unfold signed_int.
  simpl in Hx. apply (dle_scale _ _ _ _ e) in Hx; [|lia..].
  rewrite Z.sub_diag, Z.mul_1_r, Z.sub_0_l in Hx. unfold round_half_away.
  assert (0 < 2 ^ (- e - 1)) by (apply Z.pow_pos_nonneg; lia).
  assert (Hp : 2 ^ (- e) = 2 * 2 ^ (- e - 1)) by (rewrite <- Z.pow_succ_r by lia; f_equal; lia).
  assert (Hq : 0 <= (Zpos m + 2 ^ (- e - 1)) / 2 ^ (- e) <= B).
  { split; [apply Z.div_pos; lia|]. enough ((Zpos m + 2 ^ (- e - 1)) / 2 ^ (- e) < B + 1) by lia.
    apply Z.div_lt_upper_bound; lia. }
  destruct (Z.eqb_spec ((Zpos m + 2 ^ (- e - 1)) / 2 ^ (- e)) 0); [done|].
  apply normalize_bounded; [|split; [lia|unfold SpecFloat.emin; lia]].
  unfold dle. rewrite Z.min_id, Z.sub_diag. destruct s; simpl cond_Zopp; lia.
Qed.

(** *** Signs *)

(** A number, zero or infinity of sign [s]. *)
Definition signed (s : bool) (x : spec_float) : Prop :=
  match x with S754_zero s' | S754_infinity s' | S754_finite s' _ _ => s' = s | S754_nan => False end.

(** Not below zero; a negative zero is not. *)
Definition nonneg (x : spec_float) : Prop := signed false x \/ x = S754_zero true.

Lemma round_aux_signed sx m e l : 0 <= m -> signed sx (binary_round_aux prec emax sx m e l).
Proof.
  intros Hm. unfold binary_round_aux. destruct (shr_fexp_spec m e l Hm) as (mrs & -> & Hsm & _).
  pose proof (round_nearest_even_cases mrs) as Hq. cbv zeta in Hq. set (q := round_nearest_even _ _) in *.
  assert (Hq0 : 0 <= q) by (assert (0 <= shr_m mrs) by (rewrite Hsm; apply Z.div_pos; lia); lia).
  destruct (shr_fexp_spec q (e + Z.max 0 (fexp (Zdigits2 m + e) - e)) loc_Exact Hq0) as (mrs2 & -> & -> & _).
  set (k2 := Z.max 0 _). assert (0 <= q / 2 ^ k2) by (apply Z.div_pos; lia).
  destruct (q / 2 ^ k2) as [|p|p]; [done|by destruct (_ <=? _)|lia].
Qed.

Lemma mul_signed s t x y M1 E1 M2 E2 :
  mag_le x M1 E1 -> mag_le y M2 E2 -> signed s x -> signed t y -> signed (xorb s t) (SFmul prec emax x y).
Proof.
  intros Hx Hy Hs Ht. destruct x as [| | |sx mx ex], y as [| | |sy my ey]; try done; simpl in Hs, Ht; subst; try done.
  by apply round_aux_signed.
Qed.

Lemma div_signed s t m e y : signed t y -> signed (xorb s t) (SFdiv prec emax (S754_finite s m e) y).
Proof.
  intros Ht. destruct y as [| | |sy my ey]; simpl in Ht; subst; try done. unfold SFdiv.
  destruct (div_core_spec m e my ey) as (q & e' & r & n & -> & _ & Hq & _). by apply round_aux_signed.
Qed.

Lemma normalize_signed p e szero : signed false (binary_normalize prec emax (Zpos p) e szero).
Proof. simpl. destruct (binary_round_aligned false p e) as (mz & ez & -> & _ & _ & Hk). by apply round_aux_signed. Qed.

(** Values of opposite signs do not add up. *)
Theorem add_opposite s x y M E :
  bounded_by x M E -> bounded_by y M E -> rep M E -> signed s x -> signed (negb s) y -> bounded_by (SFadd prec emax x y) M E.
Proof.
  intros Hx Hy Hrep Hs Ht.
  destruct x as [sx| | |sx mx ex]; try (destruct Hx; done); (destruct y as [sy| | |sy my ey]; try (destruct Hy; done)); try done.
  { by destruct sx, sy. }
  destruct Hx as [_ Hx], Hy as [_ Hy]. simpl in Hx, Hy, Hs, Ht. subst sx sy. apply normalize_bounded; [|done].
  apply (mag_align s mx ex (Z.min ex ey)) in Hx; [|lia]. apply (mag_align (negb s) my ey (Z.min ex ey)) in Hy; [|lia].
  set (a := cond_Zopp s _) in *. set (b := cond_Zopp (negb s) _) in *.
  assert (Hab : Z.abs (a + b) <= Z.abs a \/ Z.abs (a + b) <= Z.abs b) by (subst a b; destruct s; simpl; lia).
  destruct Hab as [H|H]; eapply dle_mono; [exact H|done|exact H|done].
Qed.

Lemma clamp_nonneg x hi : is_nan x = false -> signed false hi -> nonneg (fclamp x (S754_zero false) hi).
Proof.
  intros Hn Hh. unfold fclamp. destruct (SFltb x (S754_zero false)) eqn:Hlt.
  - destruct (SFltb hi _); [by left|by left].
  - destruct (SFltb hi x); [by left|]. destruct x as [[]|[]| |[] m e]; try done; [by right|by left..].
Qed.

(** An integer of at most [prec] bits is converted exactly. *)
Lemma normalize_exact p szero :
  Zpos p < 2 ^ prec -> exists m e, binary_normalize prec emax (Zpos p) 0 szero = S754_finite false m e /\ e <= 0 /\ Zpos m = Zpos p * 2 ^ (- e).
Proof.
  intros Hp. set (d := Zdigits2 (Zpos p)). assert (Hd : 0 < d <= prec).
  { destruct (Zdigits2_bounds (Zpos p) ltac:(lia)) as (Hd & Hl & _). fold d in Hd, Hl. split; [done|].
    assert (d - 1 < prec) by (apply (Z.pow_lt_mono_r_iff 2); lia). lia. }
  assert (Hf : fexp d <= 0 /\ fexp d = Z.max (d - prec) emin) by (unfold SpecFloat.fexp, SpecFloat.emin in *; lia).
  simpl. unfold binary_round. change (Zpos (digits2_pos p)) with d. rewrite Z.add_0_r.
  pose proof (shl_align_spec p 0 (fexp d)) as Hs. destruct (shl_align p 0 (fexp d)) as [mz ez]. destruct Hs as [-> Hmz].
  rewrite Z.min_r in * by lia. rewrite Z.sub_0_l in Hmz. set (f := fexp d) in *.
  assert (Hdz : Zdigits2 (Zpos mz) + f = d) by (rewrite Hmz, Zdigits2_scale by lia; fold d; lia).
  unfold binary_round_aux. destruct (shr_fexp_spec (Zpos mz) f loc_Exact ltac:(lia)) as (mrs & -> & Hm & Hex).
  rewrite Hdz in *. fold f in Hm, Hex |- *. rewrite Z.sub_diag in *. change (Z.max 0 0) with 0 in *. rewrite Z.div_1_r in Hm.
  assert (Hq : round_nearest_even (shr_m mrs) (loc_of_shr_record mrs) = Zpos mz).
  { pose proof (round_nearest_even_cases mrs) as Hq. cbv zeta in Hq. rewrite Hm in Hq |- *. destruct Hq as [Hq|[_ Hne]]; [done|].
    destruct Hne. apply Hex; [done|apply Z.mod_1_r]. }
  rewrite Hq, Z.add_0_r. destruct (shr_fexp_spec (Zpos mz) f loc_Exact ltac:(lia)) as (mrs2 & -> & -> & _).
  rewrite Hdz. fold f. rewrite Z.sub_diag. change (Z.max 0 0) with 0. rewrite Z.div_1_r, Z.add_0_r.
  rewrite (proj2 (Z.leb_le _ _)) by lia. exists mz, f. split_and!; [done|lia|done].
Qed.
End rounding.

Lemma trunc_mag_bound m e B : dle (Zpos m) e B 0 -> 0 <= trunc_mag m e <= B.
Proof.
  unfold trunc_mag. intros Hle. destruct (Z.leb_spec 0 e).
  - apply (dle_scale _ _ _ _ 0) in Hle; [|lia..]. rewrite !Z.sub_0_r, Z.mul_1_r in Hle.
    split; [apply Z.mul_nonneg_nonneg; [lia|apply Z.pow_nonneg; lia]|lia].
  - apply (dle_scale _ _ _ _ e) in Hle; [|lia..]. rewrite Z.sub_diag, Z.mul_1_r, Z.sub_0_l in Hle.
    assert (0 < 2 ^ (- e)) by (apply Z.pow_pos_nonneg; lia).
    split; [apply Z.div_pos; lia|]. apply Z.div_le_upper_bound; lia.
Qed.

(** A cast of a value with magnitude at most [B] is at most [B] in absolute value. *)
Lemma cast_int_bound lo hi x B :
  lo <= 0 <= hi -> 0 <= B -> mag_le x B 0 -> - B <= cast_int lo hi x <= B.
Proof.
  intros Hr HB Hx. destruct x as [|[]| |[] m e]; simpl in *; try lia; try done;
    apply trunc_mag_bound in Hx; lia.
Qed.

(** A cast never leaves the target's range. *)
Lemma cast_int_range lo hi x : lo <= 0 <= hi -> lo <= cast_int lo hi x <= hi.
Proof. intros. destruct x as [|[]| |[] m e]; simpl; lia. Qed.

(** A value below [(k + 1) - 2^-j] truncates to [k] at most. *)
Lemma cast_int_below lo hi x k j : lo <= 0 <= hi -> 0 <= k -> 0 <= j -> mag_le x ((k + 1) * 2 ^ j - 1) (- j) -> cast_int lo hi x <= k.
Proof.
  intros Hr Hk Hj Hx. destruct x as [|[]| |s m e]; simpl in *; try lia; try done.
  assert (Ht : 0 <= trunc_mag m e <= k); [|destruct s; simpl; lia].
  unfold trunc_mag. pose proof (Z.pow_pos_nonneg 2 j ltac:(lia) Hj). destruct (Z.leb_spec 0 e).
  - apply (dle_scale _ _ _ _ (- j)) in Hx; [|lia..]. rewrite Z.sub_diag, Z.mul_1_r in Hx.
    replace (e - - j) with (e + j) in Hx by lia. rewrite Z.pow_add_r in Hx by lia.
    pose proof (Z.pow_pos_nonneg 2 e ltac:(lia) ltac:(lia)). nia.
  - set (l := Z.min e (- j)). apply (dle_scale _ _ _ _ l) in Hx; [|lia..].
    assert (0 < 2 ^ (- e)) by (apply Z.pow_pos_nonneg; lia). split; [apply Z.div_pos; lia|].
    enough (Zpos m / 2 ^ (- e) < k + 1) by lia. apply Z.div_lt_upper_bound; [done|].
    assert (0 < 2 ^ (e - l)) by (apply Z.pow_pos_nonneg; lia). apply (Z.mul_lt_mono_pos_r (2 ^ (e - l))); [done|].
    eapply Z.le_lt_trans; [exact Hx|]. rewrite (Z.mul_comm (2 ^ (- e))), <- Z.mul_assoc, <- Z.pow_add_r by lia.
    replace (- e + (e - l)) with (- l) by lia. replace (- l) with (j + (- j - l)) by lia. rewrite Z.pow_add_r by lia.
    assert (0 < 2 ^ (- j - l)) by (apply Z.pow_pos_nonneg; lia). fold l. rewrite Z.mul_sub_distr_r, !Z.mul_assoc. lia.
Qed.
