(* ===== verification/Point.v ===== *)
(** * The laser point and its coordinate and colour conversions

    Models [src/src/point.rs]: [LaserPoint], its constructors, and the
    [coord_*] / [color_*] helpers every protocol encoder goes through.  The
    coordinates are IEEE single-precision floats; the conversions are proved to
    stay inside the wire range for every input, NaN and infinities included. *)

From Stdlib Require Import SpecFloat.
From S2P Require Import Prelude Floats.

Record LaserPoint := mkLaserPoint {
  lp_x : F32.t;
  lp_y : F32.t;
  lp_r : Z;
  lp_g : Z;
  lp_b : Z;
  lp_intensity : Z;
}.

#[global] Instance spec_float_eq_dec : EqDecision spec_float.
Proof. solve_decision. Defined.

#[global] Instance LaserPoint_eq_dec : EqDecision LaserPoint.
Proof. solve_decision. Defined.

(** Float literals of the sources. *)
Definition f0 : F32.t := S754_zero false.
Definition f1 : F32.t := F32.of_int 1.
Definition f2 : F32.t := F32.of_int 2.
Definition fm1 : F32.t := SFopp f1.

(** [LaserPoint::default()]: every field zero. *)
Definition default_point : LaserPoint := mkLaserPoint f0 f0 0 0 0 0.

#[global] Instance LaserPoint_inhabited : Inhabited LaserPoint := populate default_point.

(** [LaserPoint::blanked]. *)
Definition blanked (x y : F32.t) : LaserPoint := mkLaserPoint x y 0 0 0 0.

Definition is_dark (p : LaserPoint) : Prop :=
  lp_r p = 0 /\ lp_g p = 0 /\ lp_b p = 0 /\ lp_intensity p = 0.

#[global] Instance is_dark_dec p : Decision (is_dark p).
Proof. unfold is_dark. apply _. Defined.

(** The colour channels of a point are 16-bit. *)
Definition point_wf (p : LaserPoint) : Prop :=
  F32.valid (lp_x p) = true /\ F32.valid (lp_y p) = true /\
  in_u 16 (lp_r p) /\ in_u 16 (lp_g p) /\ in_u 16 (lp_b p) /\ in_u 16 (lp_intensity p).

(** [coord_to_u12_inverted]. *)
Definition coord_to_u12_inverted (v : F32.t) : Z :=
  as_u16 (F32.round (F32.mul
    (fclamp (F32.sub f1 (F32.div (F32.add v f1) f2)) f0 f1) (F32.of_int 4095))).

(** [coord_to_u12]. *)
Definition coord_to_u12 (v : F32.t) : Z :=
  as_u16 (F32.round (F32.mul
    (F32.div (F32.add (fclamp v fm1 f1) f1) f2) (F32.of_int 4095))).

(** [coord_to_i16_inverted]. *)
Definition coord_to_i16_inverted (v : F32.t) : Z :=
  as_i16 (F32.round (F32.mul (fclamp v fm1 f1) (F32.of_int (-32767)))).

(** [color_to_u8]: the products are computed in 32 bits and fit. *)
Definition color_to_u8 (v : Z) : Z := wrapu 8 (wrapu 32 (v * 255 + 32767) / 65535).

(** [color_to_u12]. *)
Definition color_to_u12 (v : Z) : Z := Z.shiftr v 4.

(** ** Colour conversion *)

Lemma color_to_u8_eq v : in_u 16 v -> color_to_u8 v = (v * 255 + 32767) / 65535.
Proof.
  unfold in_u, umax, color_to_u8, wrapu. intros Hv.
  rewrite (Z.mod_small (_ + _)) by lia. apply Z.mod_small. split.
  - apply Z.div_pos; lia.
  - apply Z.div_lt_upper_bound; lia.
Qed.

Lemma color_to_u8_nearest v c :
  in_u 16 v -> 0 <= c <= 255 ->
  Z.abs (65535 * color_to_u8 v - 255 * v) <= Z.abs (65535 * c - 255 * v).
Proof.
  intros Hv Hc. rewrite color_to_u8_eq by done. unfold in_u, umax in Hv.
  pose proof (Z.div_mod (v * 255 + 32767) 65535 ltac:(lia)) as Hd.
  pose proof (Z.mod_pos_bound (v * 255 + 32767) 65535 ltac:(lia)) as Hm.
  set (q := (v * 255 + 32767) / 65535) in *. lia.
Qed.

Lemma color_to_u8_range v : in_u 16 v -> 0 <= color_to_u8 v < 2 ^ 8.
Proof. intros _. unfold color_to_u8, wrapu. apply Z.mod_pos_bound. lia. Qed.

(** ** Coordinate conversion *)

Definition f32_bounded := bounded_by 24 128.

(** Discharges a [bounded_by] fact about a literal by evaluation. *)
Ltac literal_bound := split; [reflexivity|by vm_compute].

Lemma f1_bounded : f32_bounded f1 1 0.
Proof. literal_bound. Qed.

Lemma fm1_bounded : f32_bounded fm1 1 0.
Proof. literal_bound. Qed.

Lemma f0_bounded : f32_bounded f0 1 0.
Proof. literal_bound. Qed.

Lemma rep_small M : 0 < M < 2 ^ 24 -> rep 24 128 M 0.
Proof. intros H. split; [done|unfold SpecFloat.emin; lia]. Qed.

#[export] Hint Resolve f1_bounded fm1_bounded f0_bounded : lasers.

(** A product of a value in [-1, 1] with an integer literal [B], rounded and cast. *)
Lemma scaled_cast_bound lo hi x c B :
  lo <= 0 <= hi -> 0 < B < 2 ^ 24 ->
  f32_bounded x 1 0 -> f32_bounded c B 0 ->
  - B <= cast_int lo hi (F32.round (F32.mul x c)) <= B.
Proof.
  intros Hr HB Hx Hc. apply cast_int_bound; [done|lia|].
  refine (proj2 (round_bounded 24 128 eq_refl eq_refl _ B _ HB)).
  apply (mul_bounded 24 128 eq_refl eq_refl _ _ 1 0 B 0); [done|done|by apply rep_small|].
  rewrite Z.mul_1_l. apply dle_refl.
Qed.

Lemma clamp1_bounded v : F32.valid v = true -> is_nan v = false -> f32_bounded (fclamp v fm1 f1) 1 0.
Proof.
  intros Hv Hn. apply clamp_bounded; try done; apply fm1_bounded || apply f1_bounded.
Qed.

(** A NaN coordinate goes through every step as a NaN and is cast to 0. *)
Lemma mul_nan_l c : F32.mul S754_nan c = S754_nan.
Proof. reflexivity. Qed.

(** [(w + 1) / 2] for [w] in [-1, 1] stays in [-1, 1]. *)
Lemma half_shift_bounded w : f32_bounded w 1 0 -> f32_bounded (F32.div (F32.add w f1) f2) 1 0.
Proof.
  intros Hw. pose proof (add_bounded 24 128 eq_refl w f1 1 1 0) as Ha.
  destruct (Ha ltac:(lia) ltac:(lia) Hw f1_bounded (rep_small 2 ltac:(lia))) as [Hv Hm].
  change f2 with (S754_finite false 8388608 (-22)).
  apply div_bounded; [reflexivity|done| |apply rep_small; lia].
  unfold F32.add. destruct (SFadd _ _ _ _); try done. simpl in Hm |- *. eapply dle_trans; [exact Hm|by vm_compute].
Qed.

Lemma u12_nonneg v : 0 <= as_u16 v.
Proof. apply (cast_int_range 0 65535). lia. Qed.

Lemma coord_to_u12_range v : F32.valid v = true -> 0 <= coord_to_u12 v <= 4095.
Proof.
  intros Hv. split; [apply u12_nonneg|]. unfold coord_to_u12.
  destruct (is_nan v) eqn:Hn; [by destruct v|].
  apply (scaled_cast_bound 0 65535 _ (F32.of_int 4095) 4095); [lia..| |literal_bound].
  by apply half_shift_bounded, clamp1_bounded.
Qed.

Lemma coord_to_u12_inverted_range v : F32.valid v = true -> 0 <= coord_to_u12_inverted v <= 4095.
Proof.
  intros Hv. split; [apply u12_nonneg|]. unfold coord_to_u12_inverted.
  set (w := F32.sub _ _).
  assert (Hw : F32.valid w = true)
    by (apply (sub_valid 24 128); [done|done|apply (div_valid 24 128); done]).
  clearbody w. destruct (is_nan w) eqn:Hn; [by destruct w|].
  apply (scaled_cast_bound 0 65535 _ (F32.of_int 4095) 4095); [lia..| |literal_bound].
  apply clamp_bounded; try done; apply f0_bounded || apply f1_bounded.
Qed.

Lemma coord_to_i16_inverted_range v :
  F32.valid v = true -> -32767 <= coord_to_i16_inverted v <= 32767.
Proof.
  intros Hv. unfold coord_to_i16_inverted. destruct (is_nan v) eqn:Hn; [by destruct v|].
  apply (scaled_cast_bound (-32768) 32767 _ (F32.of_int (-32767)) 32767); [lia..| |literal_bound].
  by apply clamp1_bounded.
Qed.
