(* ===== verification/Presentation.v ===== *)
(** * Shared presentation types and helpers

    Models [src/src/presentation/mod.rs]: [Frame], [TransitionPlan], the
    duration-to-points conversion, idle parking, blanking, and the default
    transition with its quintic easing; and [IdlePolicy] of
    [src/src/config.rs].  A [Duration] is its number of nanoseconds. *)

From Stdlib Require Import SpecFloat.
From S2P Require Import Prelude Floats Point.

(** ** Durations *)

Definition NANOS_PER_SEC : Z := 1000000000.

(** A [Duration] is non-negative and its seconds fit 64 bits. *)
Definition duration_wf (d : Z) : Prop := 0 <= d < 2 ^ 64 * NANOS_PER_SEC.

Definition as_secs (d : Z) : Z := d / NANOS_PER_SEC.
Definition subsec_nanos (d : Z) : Z := d mod NANOS_PER_SEC.

(** [a.div_ceil(b)]. *)
Definition div_ceil (a b : Z) : Z := a / b + (if a mod b =? 0 then 0 else 1).

(** [duration_to_points]: the intermediate products are 128-bit. *)
Definition duration_to_points (d pps : Z) : Z :=
  if (d =? 0) || (pps =? 0) then 0
  else
    let nanos := wrapu 128 (wrapu 128 (as_secs d * NANOS_PER_SEC) + subsec_nanos d) in
    let points := div_ceil (wrapu 128 (nanos * pps)) NANOS_PER_SEC in
    if points <=? umax 64 then points else umax 64.

(** ** Idle policy, parking and blanking *)

Inductive IdlePolicy :=
  | RepeatLast
  | Blank
  | Park (x y : F32.t)
  | Stop.

Definition park_point (p : IdlePolicy) : LaserPoint :=
  match p with
  | Park x y => blanked x y
  | _ => blanked f0 f0
  end.

(** [blank_prefix]: the colours of every point of the slice are zeroed, the
    coordinates kept. *)
Definition blank_point (p : LaserPoint) : LaserPoint :=
  mkLaserPoint (lp_x p) (lp_y p) 0 0 0 0.

Definition blank_prefix (buffer : list LaserPoint) : list LaserPoint := blank_point <$> buffer.

(** ** Output filter vocabulary *)

Inductive OutputResetReason := SessionStart | Reconnect | Arm | Disarm.

Inductive PresentedSliceKind := FifoChunk | FrameSwapFrame.

Record OutputFilterContext := mkFilterCtx {
  fc_pps : Z;
  fc_kind : PresentedSliceKind;
  fc_is_cyclic : bool;
}.

(** ** Frames: immutable, so a value stands for the shared [Arc] *)

Record Frame := mkFrame { points : list LaserPoint }.

#[global] Instance Frame_eq_dec : EqDecision Frame.
Proof. solve_decision. Defined.

Definition first_point (f : Frame) : option LaserPoint := head (points f).
Definition last_point (f : Frame) : option LaserPoint := last (points f).
Definition frame_len (f : Frame) : nat := length (points f).
Definition is_empty (f : Frame) : bool := bool_decide (points f = []).

(** ** Transitions *)

Inductive TransitionPlan :=
  | Transition (pts : list LaserPoint)
  | Coalesce.

Record TransitionContext := mkTransitionContext { tc_pps : Z }.

Definition TransitionFn := LaserPoint -> LaserPoint -> TransitionContext -> TransitionPlan.

(** [quintic_ease_in_out]. *)
Definition quintic_ease_in_out (t : F32.t) : F32.t :=
  let half := F32.of_dyadic 1 (-1) in
  if SFltb t half then
    F32.mul (F32.mul (F32.mul (F32.mul (F32.mul (F32.of_int 16) t) t) t) t) t
  else
    let u := F32.sub (F32.mul f2 t) f2 in
    F32.add (F32.mul (F32.mul (F32.mul (F32.mul (F32.mul half u) u) u) u) u) f1.

(** [(us * pps as f64 / 1_000_000.0).round() as usize]. *)
Definition dwell_points (us pps : Z) : nat :=
  Z.to_nat (as_usize (F64.round (F64.div (F64.mul (F64.of_int us) (F64.of_int pps))
    (F64.of_int 1000000)))).

Definition END_DWELL_US : Z := 100.
Definition START_DWELL_US : Z := 400.

(** The transit point count: [(32.0 * d_inf).ceil().clamp(0.0, 64.0) as usize]. *)
Definition transit_points (dx dy : F32.t) : nat :=
  let d_inf := fmax (SFabs dx) (SFabs dy) in
  Z.to_nat (as_usize (fclamp (F32.ceil (F32.mul (F32.of_int 32) d_inf)) f0 (F32.of_int 64))).

(** The closure built by [default_transition]. *)
Definition default_transition : TransitionFn := fun from to context =>
  let end_dwell := dwell_points END_DWELL_US (tc_pps context) in
  let start_dwell := dwell_points START_DWELL_US (tc_pps context) in
  let dx := F32.sub (lp_x to) (lp_x from) in
  let dy := F32.sub (lp_y to) (lp_y from) in
  let transit := transit_points dx dy in
  Transition
    (replicate end_dwell (blanked (lp_x from) (lp_y from)) ++
     ((fun i =>
        let t := F32.div (F32.add (F32.of_int (Z.of_nat i)) f1)
                         (F32.add (F32.of_int (Z.of_nat transit)) f1) in
        let t := quintic_ease_in_out t in
        blanked (F32.add (lp_x from) (F32.mul dx t)) (F32.add (lp_y from) (F32.mul dy t)))
      <$> seq 0 transit) ++
     replicate start_dwell (blanked (lp_x to) (lp_y to))).

(** ** Lemmas *)

Lemma blank_point_dark p : is_dark (blank_point p).
Proof. done. Qed.

Lemma blanked_dark x y : is_dark (blanked x y).
Proof. done. Qed.

Lemma park_point_dark p : is_dark (park_point p).
Proof. by destruct p. Qed.

#[export] Hint Resolve blank_point_dark blanked_dark park_point_dark : lasers.

Lemma div_ceil_spec a b : 0 < b -> div_ceil a b = - ((- a) / b).
Proof.
  intros Hb. unfold div_ceil. destruct (Z.eqb_spec (a mod b) 0) as [Hz|Hz].
  - rewrite Z.div_opp_l_z by lia. lia.
  - rewrite Z.div_opp_l_nz by lia. lia.
Qed.

Lemma duration_to_points_eq d pps :
  duration_wf d -> in_u 32 pps ->
  duration_to_points d pps = Z.min (umax 64) (div_ceil (d * pps) NANOS_PER_SEC).
Proof.
  unfold duration_wf, in_u, umax, duration_to_points. intros Hd Hp.
  assert (Hnp : NANOS_PER_SEC = 1000000000) by done. unfold as_secs, subsec_nanos, wrapu.
  pose proof (Z.div_mod d NANOS_PER_SEC ltac:(lia)) as Hdm.
  pose proof (Z.mod_pos_bound d NANOS_PER_SEC ltac:(lia)).
  assert (0 <= d / NANOS_PER_SEC) by (apply Z.div_pos; lia).
  destruct (Z.eqb_spec d 0) as [->|Hd0]; [rewrite Z.mul_0_l; reflexivity|].
  destruct (Z.eqb_spec pps 0) as [->|Hp0]; [rewrite !Z.mul_0_r; reflexivity|]. simpl orb. cbv iota.
  rewrite (Z.mod_small (d / _ * _)) by lia.
  replace (d / NANOS_PER_SEC * NANOS_PER_SEC + d mod NANOS_PER_SEC) with d by lia.
  rewrite (Z.mod_small d) by lia. rewrite (Z.mod_small (d * pps)) by nia.
  destruct (Z.leb_spec (div_ceil (d * pps) NANOS_PER_SEC) (umax 64)) as [Hle|Hgt];
    unfold umax in *; lia.
Qed.

(** All points of a default transition are blanked. *)
Lemma default_transition_points from to ctx :
  exists pts, default_transition from to ctx = Transition pts /\
    length pts = (dwell_points END_DWELL_US (tc_pps ctx) +
      transit_points (F32.sub (lp_x to) (lp_x from)) (F32.sub (lp_y to) (lp_y from)) +
      dwell_points START_DWELL_US (tc_pps ctx))%nat /\
    Forall is_dark pts.
Proof.
  eexists. split; [done|]. split.
  - rewrite !length_app, !length_replicate, length_fmap, length_seq. lia.
  - rewrite !Forall_app. repeat split.
    + apply Forall_replicate. done.
    + apply Forall_fmap, Forall_forall. done.
    + apply Forall_replicate. done.
Qed.
