(* ===== verification/Engine.v ===== *)
(** * PresentationEngine

    Models [src/src/presentation/engine.rs], [PresentationEngine]: current and
    pending frame, the drawable and its cursor, the transition buffer, FIFO
    delivery ([fill_chunk]) and frame-swap delivery ([compose_hardware_frame]).

    A panic (slice out of range, [unwrap] of [None]) is [None].  The while loop
    of [fill_chunk] takes fuel; [fill_chunk_total] shows that the fuel given is
    enough and that no panic is reachable from a well-formed engine. *)

From S2P Require Import Prelude Floats Point Presentation.

Record PresentationEngine := mkEngine {
  current_base : option Frame;
  pending_base : option Frame;
  drawable : list LaserPoint;
  drawable_dirty : bool;
  cursor : nat;
  transition_fn : TransitionFn;
  transition_buf : list LaserPoint;
  transition_cursor : nat;
  transition_is_self_loop : bool;
  frame_swap_transition_len : nat;
  frame_swap_composed_pps : option Z;
  frame_capacity : option nat;
  idle_blank : LaserPoint;
}.

(** ** Field updates *)

Definition with_current (c : option Frame) (e : PresentationEngine) : PresentationEngine :=
  mkEngine c (pending_base e) (drawable e) (drawable_dirty e) (cursor e) (transition_fn e)
    (transition_buf e) (transition_cursor e) (transition_is_self_loop e)
    (frame_swap_transition_len e) (frame_swap_composed_pps e) (frame_capacity e) (idle_blank e).

Definition with_pending (p : option Frame) (e : PresentationEngine) : PresentationEngine :=
  mkEngine (current_base e) p (drawable e) (drawable_dirty e) (cursor e) (transition_fn e)
    (transition_buf e) (transition_cursor e) (transition_is_self_loop e)
    (frame_swap_transition_len e) (frame_swap_composed_pps e) (frame_capacity e) (idle_blank e).

Definition with_drawable (d : list LaserPoint) (dirty : bool) (e : PresentationEngine) :
    PresentationEngine :=
  mkEngine (current_base e) (pending_base e) d dirty (cursor e) (transition_fn e)
    (transition_buf e) (transition_cursor e) (transition_is_self_loop e)
    (frame_swap_transition_len e) (frame_swap_composed_pps e) (frame_capacity e) (idle_blank e).

Definition with_cursor (c : nat) (e : PresentationEngine) : PresentationEngine :=
  mkEngine (current_base e) (pending_base e) (drawable e) (drawable_dirty e) c (transition_fn e)
    (transition_buf e) (transition_cursor e) (transition_is_self_loop e)
    (frame_swap_transition_len e) (frame_swap_composed_pps e) (frame_capacity e) (idle_blank e).

Definition with_transition (buf : list LaserPoint) (cur : nat) (self_loop : bool)
    (e : PresentationEngine) : PresentationEngine :=
  mkEngine (current_base e) (pending_base e) (drawable e) (drawable_dirty e) (cursor e)
    (transition_fn e) buf cur self_loop
    (frame_swap_transition_len e) (frame_swap_composed_pps e) (frame_capacity e) (idle_blank e).

Definition with_swap (len : nat) (pps : option Z) (e : PresentationEngine) : PresentationEngine :=
  mkEngine (current_base e) (pending_base e) (drawable e) (drawable_dirty e) (cursor e)
    (transition_fn e) (transition_buf e) (transition_cursor e) (transition_is_self_loop e)
    len pps (frame_capacity e) (idle_blank e).

(** ** Construction and configuration *)

(** [PresentationEngine::new]. *)
Definition new_engine (tf : TransitionFn) : PresentationEngine :=
  mkEngine None None [] true 0 tf [] 0 false 0 None None (blanked f0 f0).

Definition set_frame_capacity (cap : option nat) (e : PresentationEngine) : PresentationEngine :=
  mkEngine (current_base e) (pending_base e) (drawable e) (drawable_dirty e) (cursor e)
    (transition_fn e) (transition_buf e) (transition_cursor e) (transition_is_self_loop e)
    (frame_swap_transition_len e) (frame_swap_composed_pps e) cap (idle_blank e).

Definition set_idle_blank_point (p : LaserPoint) (e : PresentationEngine) : PresentationEngine :=
  mkEngine (current_base e) (pending_base e) (drawable e) (drawable_dirty e) (cursor e)
    (transition_fn e) (transition_buf e) (transition_cursor e) (transition_is_self_loop e)
    (frame_swap_transition_len e) (frame_swap_composed_pps e) (frame_capacity e) p.

(** [reset]: runtime state cleared; transition function, capacity and idle
    point kept. *)
Definition reset (e : PresentationEngine) : PresentationEngine :=
  mkEngine None None [] true 0 (transition_fn e) [] 0 false 0 None (frame_capacity e) (idle_blank e).

Definition has_logical_frame (e : PresentationEngine) : bool :=
  bool_decide (is_Some (current_base e)).

(** [set_pending]: the first frame is promoted at once, later ones wait. *)
Definition set_pending (frame : Frame) (e : PresentationEngine) : PresentationEngine :=
  match current_base e with
  | None => with_cursor 0 (with_drawable (drawable e) true (with_current (Some frame) e))
  | Some _ => with_pending (Some frame) e
  end.

(** ** FIFO delivery *)

(** [refresh_drawable]. *)
Definition refresh_drawable (e : PresentationEngine) : PresentationEngine :=
  match current_base e with
  | None => with_drawable [] false e
  | Some current => with_drawable (points current) false e
  end.

(** The plan for the seam between two optional endpoints: without both there
    is nothing to bridge. *)
Definition seam_plan (tf : TransitionFn) (from to : option LaserPoint) (ctx : TransitionContext) :
    TransitionPlan :=
  match from, to with
  | Some last, Some first => tf last first ctx
  | _, _ => Transition []
  end.

Definition coalesced_cursor (d : list LaserPoint) : nat := if decide (1 < length d)%nat then 1%nat else 0%nat.

(** [promote_pending]; panics without a pending frame. *)
Definition promote_pending (ctx : TransitionContext) (e : PresentationEngine) :
    option PresentationEngine :=
  match pending_base e with
  | None => None
  | Some pending =>
      let plan := seam_plan (transition_fn e) (current_base e ≫= last_point) (first_point pending) ctx in
      let e1 := refresh_drawable (with_current (Some pending) (with_pending None e)) in
      Some (match plan with
            | Transition pts => with_cursor 0 (with_transition pts 0 false e1)
            | Coalesce => with_cursor (coalesced_cursor (drawable e1)) e1
            end)
  end.

(** The self-loop seam; panics on an empty drawable. *)
Definition self_loop_seam (ctx : TransitionContext) (e : PresentationEngine) :
    option PresentationEngine :=
  match last (drawable e), head (drawable e) with
  | Some last, Some first =>
      Some (match transition_fn e last first ctx with
            | Transition pts => with_cursor 0 (with_transition pts 0 true e)
            | Coalesce => with_cursor (coalesced_cursor (drawable e)) e
            end)
  | _, _ => None
  end.

(** Stale self-loop transition points with a newer frame waiting. *)
Definition stale_self_loop (e : PresentationEngine) : bool :=
  transition_is_self_loop e && bool_decide (is_Some (pending_base e)) &&
  bool_decide (transition_cursor e = 0%nat).

(** The while loop of [fill_chunk]. *)
Fixpoint fill_loop (fuel : nat) (e : PresentationEngine) (buffer : list LaserPoint)
    (written max_points : nat) (ctx : TransitionContext) :
    option (PresentationEngine * list LaserPoint * nat) :=
  match fuel with
  | O => None
  | S fuel =>
      if decide (written < max_points)%nat then
        if decide (transition_cursor e < length (transition_buf e))%nat then
          if stale_self_loop e then
            e1 ← promote_pending ctx (with_transition [] (transition_cursor e) false e);
            if decide (drawable e1 = []) then
              buffer1 ← write_at buffer written (replicate (max_points - written) (idle_blank e1));
              Some (e1, buffer1, max_points)
            else fill_loop fuel e1 buffer written max_points ctx
          else
            src ← slice_from (transition_buf e) (transition_cursor e);
            let n := Nat.min (length src) (max_points - written) in
            buffer1 ← write_at buffer written (take n src);
            fill_loop fuel
              (with_transition (transition_buf e) (transition_cursor e + n) (transition_is_self_loop e) e)
              buffer1 (written + n) max_points ctx
        else
          src ← slice_from (drawable e) (cursor e);
          let n := Nat.min (length src) (max_points - written) in
          buffer1 ← write_at buffer written (take n src);
          let e1 := with_cursor (cursor e + n) e in
          if decide (length (drawable e1) <= cursor e1)%nat then
            if bool_decide (is_Some (pending_base e1)) then
              e2 ← promote_pending ctx e1;
              if decide (drawable e2 = []) then
                buffer2 ← write_at buffer1 (written + n)
                            (replicate (max_points - (written + n)) (idle_blank e2));
                Some (e2, buffer2, max_points)
              else fill_loop fuel e2 buffer1 (written + n) max_points ctx
            else
              e2 ← self_loop_seam ctx e1;
              fill_loop fuel e2 buffer1 (written + n) max_points ctx
          else fill_loop fuel e1 buffer1 (written + n) max_points ctx
      else Some (e, buffer, written)
  end.

(** Enough iterations: every one but a single promotion writes a point. *)
Definition fill_fuel (max_points : nat) : nat := max_points + 2.

(** [fill_chunk]: the engine, the buffer and the number of points written. *)
Definition fill_chunk (e : PresentationEngine) (buffer : list LaserPoint) (max_points : nat) (pps : Z) :
    option (PresentationEngine * list LaserPoint * nat) :=
  let max_points := Nat.min max_points (length buffer) in
  let ctx := mkTransitionContext pps in
  let e1 := if drawable_dirty e then refresh_drawable e else e in
  if decide (current_base e1 = None \/ drawable e1 = []) then
    buffer1 ← write_at buffer 0 (replicate max_points (idle_blank e1));
    Some (e1, buffer1, max_points)
  else fill_loop (fill_fuel max_points) e1 buffer 0 max_points ctx.

(** ** Frame-swap delivery *)

(** [clamp_to_capacity]: trim the transition prefix first, then the tail. *)
Definition clamp_to_capacity (e : PresentationEngine) : PresentationEngine :=
  match frame_capacity e with
  | None => e
  | Some cap =>
      if decide (cap < length (drawable e))%nat then
        let excess := (length (drawable e) - cap)%nat in
        let trim := Nat.min excess (frame_swap_transition_len e) in
        let d := drop trim (drawable e) in
        let e1 := with_swap (frame_swap_transition_len e - trim) (frame_swap_composed_pps e)
                    (with_drawable d (drawable_dirty e) e) in
        if decide (cap < length d)%nat then with_drawable (take cap d) (drawable_dirty e1) e1 else e1
      else e
  end.

(** [build_self_loop_drawable]: the drawable and its transition length; panics
    on an empty base. *)
Definition build_self_loop_drawable (tf : TransitionFn) (base : list LaserPoint)
    (ctx : TransitionContext) : option (list LaserPoint * nat) :=
  match last base, head base with
  | Some last, Some first =>
      Some (match tf last first ctx with
            | Transition pts => (pts ++ base, length pts)
            | Coalesce => (take (if decide (1 < length base)%nat then length base - 1 else length base)%nat base, 0%nat)
            end)
  | _, _ => None
  end.

(** [refresh_drawable_for_frame_swap]. *)
Definition refresh_drawable_for_frame_swap (ctx : TransitionContext) (e : PresentationEngine) :
    option PresentationEngine :=
  let e1 := with_swap 0 (Some (tc_pps ctx)) (with_drawable [] false e) in
  match current_base e1 with
  | None => Some e1
  | Some current =>
      if is_empty current then Some (with_drawable [idle_blank e1] false e1)
      else
        '(d, tlen) ← build_self_loop_drawable (transition_fn e1) (points current) ctx;
        Some (clamp_to_capacity (with_swap tlen (frame_swap_composed_pps e1) (with_drawable d false e1)))
  end.

(** [compose_hardware_frame]: the engine and the composed frame. *)
Definition compose_hardware_frame (e : PresentationEngine) (pps : Z) :
    option (PresentationEngine * list LaserPoint) :=
  let ctx := mkTransitionContext pps in
  match pending_base e with
  | Some pending =>
      let e0 := with_pending None e in
      let plan := seam_plan (transition_fn e) (current_base e ≫= last_point) (first_point pending) ctx in
      let '(d, tlen) :=
        match plan with
        | Transition pts => (pts ++ points pending, length pts)
        | Coalesce =>
            (if decide (1 < length (points pending))%nat then drop 1 (points pending) else points pending, 0%nat)
        end in
      let d := if decide (d = []) then [idle_blank e] else d in
      let e1 := clamp_to_capacity
                  (with_swap tlen (frame_swap_composed_pps e0) (with_drawable d (drawable_dirty e0) e0)) in
      let e2 := with_swap (frame_swap_transition_len e1) (Some pps) e1 in
      let e3 := with_drawable (drawable e2) true (with_current (Some pending) e2) in
      Some (e3, drawable e3)
  | None =>
      e1 ← (if drawable_dirty e || negb (bool_decide (frame_swap_composed_pps e = Some pps))
            then refresh_drawable_for_frame_swap ctx e else Some e);
      Some (e1, drawable e1)
  end.

(** ** Reference semantics of FIFO delivery: one point at a time

    [next_point] is what the engine plays next; [play n] is the stream of the
    next [n] points.  The batching of [fill_chunk] (slices copied up to the next
    seam) is shown to be this stream, for every chunk size. *)

Definition drop_stale (ctx : TransitionContext) (e : PresentationEngine) : option PresentationEngine :=
  if decide (transition_cursor e < length (transition_buf e))%nat then
    if stale_self_loop e then promote_pending ctx (with_transition [] (transition_cursor e) false e)
    else Some e
  else Some e.

Definition at_seam (ctx : TransitionContext) (e : PresentationEngine) : option PresentationEngine :=
  if decide (length (drawable e) <= cursor e)%nat then
    if bool_decide (is_Some (pending_base e)) then promote_pending ctx e else self_loop_seam ctx e
  else Some e.

Definition next_point (ctx : TransitionContext) (e : PresentationEngine) :
    option (PresentationEngine * LaserPoint) :=
  if decide (drawable e = []) then Some (e, idle_blank e)
  else
    e1 ← drop_stale ctx e;
    if decide (drawable e1 = []) then Some (e1, idle_blank e1)
    else if decide (transition_cursor e1 < length (transition_buf e1))%nat then
      p ← transition_buf e1 !! transition_cursor e1;
      Some (with_transition (transition_buf e1) (S (transition_cursor e1)) (transition_is_self_loop e1) e1, p)
    else
      p ← drawable e1 !! cursor e1;
      e2 ← at_seam ctx (with_cursor (S (cursor e1)) e1);
      Some (e2, p).

Fixpoint play (ctx : TransitionContext) (n : nat) (e : PresentationEngine) :
    option (PresentationEngine * list LaserPoint) :=
  match n with
  | O => Some (e, [])
  | S n =>
      '(e1, p) ← next_point ctx e;
      '(e2, ps) ← play ctx n e1;
      Some (e2, p :: ps)
  end.

(** What [fill_chunk] does before it looks at the content. *)
Definition prepare (e : PresentationEngine) : PresentationEngine :=
  if drawable_dirty e then refresh_drawable e else e.

(** ** The FIFO invariant *)
Record fifo_wf (e : PresentationEngine) : Prop := {
  wf_clean : drawable_dirty e = false ->
    drawable e = match current_base e with None => [] | Some f => points f end;
  wf_dirty : drawable_dirty e = true -> cursor e = 0%nat;
  wf_cursor : drawable e <> [] -> drawable_dirty e = false -> (cursor e < length (drawable e))%nat;
  wf_no_frame : current_base e = None -> pending_base e = None;
  wf_transition : (transition_cursor e <= length (transition_buf e))%nat;
}.

Lemma fifo_wf_new tf : fifo_wf (new_engine tf).
Proof. by split. Qed.

Lemma fifo_wf_reset e : fifo_wf (reset e).
Proof. by split. Qed.

Lemma fifo_wf_set_pending f e : fifo_wf e -> fifo_wf (set_pending f e).
Proof.
  intros [H1 H2 H3 H4 H5]. unfold set_pending.
  destruct (current_base e) as [c|] eqn:Hc; split; simpl; rewrite ?Hc; done || auto.
Qed.

Lemma fifo_wf_refresh e : fifo_wf e -> drawable_dirty e = true -> fifo_wf (refresh_drawable e).
Proof.
  intros [H1 H2 H3 H4 H5] Hd. unfold refresh_drawable.
  destruct (current_base e) as [c|] eqn:Hc; split; simpl; rewrite ?Hc; try done; auto.
  intros Hne _. rewrite H2 by done. destruct (points c); [done|simpl; lia].
Qed.

Lemma fifo_wf_prepare e : fifo_wf e -> fifo_wf (prepare e) /\ drawable_dirty (prepare e) = false.
Proof.
  intros Hwf. unfold prepare. destruct (drawable_dirty e) eqn:Hd; [|done].
  split; [by apply fifo_wf_refresh|]. unfold refresh_drawable. by destruct (current_base e).
Qed.

(** A loop state: clean, well formed, and with something to draw. *)
Definition live (e : PresentationEngine) : Prop :=
  fifo_wf e /\ drawable_dirty e = false /\ drawable e <> [].

Lemma coalesced_cursor_lt d : d <> [] -> (coalesced_cursor d < length d)%nat.
Proof. unfold coalesced_cursor. intros. destruct d; [done|]. case_decide; simpl in *; lia. Qed.

Lemma promote_pending_spec ctx e :
  fifo_wf e -> is_Some (pending_base e) ->
  exists e', promote_pending ctx e = Some e' /\ fifo_wf e' /\
    drawable_dirty e' = false /\ current_base e' = pending_base e /\ pending_base e' = None /\
    idle_blank e' = idle_blank e.
Proof.
  intros Hwf [f Hf]. unfold promote_pending. rewrite Hf.
  eexists. split; [done|]. destruct Hwf as [H1 H2 H3 H4 H5].
  set (plan := seam_plan _ _ _ _).
  destruct plan as [pts|]; simpl; (split; [split; simpl; try done|done]).
  - intros Hne _. destruct (points f); [done|simpl; lia].
  - lia.
  - intros Hne _. by apply coalesced_cursor_lt.
Qed.

Lemma self_loop_seam_spec ctx e :
  fifo_wf e -> drawable_dirty e = false -> drawable e <> [] ->
  exists e', self_loop_seam ctx e = Some e' /\ live e' /\
    pending_base e' = pending_base e /\ idle_blank e' = idle_blank e.
Proof.
  intros Hwf Hd Hne. unfold self_loop_seam.
  destruct (last (drawable e)) as [l|] eqn:Hl; [|by apply last_None in Hl].
  destruct (head (drawable e)) as [p|] eqn:Hp; [|by destruct (drawable e)].
  eexists. split; [done|]. destruct Hwf as [H1 H2 H3 H4 H5].
  destruct (transition_fn e l p ctx) as [pts|]; simpl.
  all: (split; [split; [split; simpl; try done; try (intros; congruence)|done]|done]); auto.
  - intros _ _. destruct (drawable e); [done|simpl; lia].
  - lia.
  - auto using coalesced_cursor_lt.
Qed.

(** ** Batches are runs of single points *)

Lemma play_app ctx a b e :
  play ctx (a + b) e =
    ('(e1, ps) ← play ctx a e; '(e2, qs) ← play ctx b e1; Some (e2, ps ++ qs)).
Proof.
  revert e. induction a as [|a IH]; intros e; simpl.
  - by destruct (play ctx b e) as [[]|].
  - destruct (next_point ctx e) as [[e1 p]|]; simpl; [|done]. rewrite IH.
    destruct (play ctx a e1) as [[e2 ps]|]; simpl; [|done].
    by destruct (play ctx b e2) as [[]|].
Qed.

Lemma play_length ctx n e e' ps : play ctx n e = Some (e', ps) -> length ps = n.
Proof.
  revert e ps. induction n as [|n IH]; simpl; intros e ps.
  - by intros [= <- <-].
  - intros H. destruct (next_point ctx e) as [[e1 p]|]; simpl in H; [|done].
    destruct (play ctx n e1) as [[e2 qs]|] eqn:Hp; simpl in H; [|done].
    injection H as <- <-. simpl. f_equal. eauto.
Qed.

(** An empty drawable plays the idle point for ever. *)
Lemma play_idle ctx n e :
  drawable e = [] -> play ctx n e = Some (e, replicate n (idle_blank e)).
Proof.
  intros Hd. induction n as [|n IH]; [done|]. simpl. unfold next_point at 1.
  rewrite decide_True by done. simpl. by rewrite IH.
Qed.

Lemma play_idle_after_drop ctx n e e1 :
  drawable e <> [] -> drop_stale ctx e = Some e1 -> drawable e1 = [] ->
  play ctx (S n) e = Some (e1, replicate (S n) (idle_blank e1)).
Proof.
  intros Hne Hds He1. cbn [play]. unfold next_point at 1. rewrite decide_False by done.
  rewrite Hds. simpl. rewrite decide_True by done. simpl. by rewrite play_idle.
Qed.

(** Playing is insensitive to performing the stale check early. *)
Lemma play_drop_stale ctx n e e1 :
  drawable e <> [] -> drop_stale ctx e = Some e1 -> drawable e1 <> [] -> drop_stale ctx e1 = Some e1 ->
  play ctx (S n) e = play ctx (S n) e1.
Proof.
  intros Hne Hds He1 Hid. cbn [play]. unfold next_point.
  rewrite (decide_False (P := drawable e = [])) by done.
  rewrite (decide_False (P := drawable e1 = [])) by done. rewrite Hds, Hid. simpl.
  by rewrite (decide_False (P := drawable e1 = [])) by done.
Qed.

Lemma stale_late e b c sl :
  (0 < c)%nat -> stale_self_loop (with_transition b c sl e) = false.
Proof.
  intros Hc. unfold stale_self_loop. simpl.
  rewrite (bool_decide_eq_false_2 (c = 0%nat)) by lia. by rewrite andb_false_r.
Qed.

Lemma with_transition_id e :
  with_transition (transition_buf e) (transition_cursor e) (transition_is_self_loop e) e = e.
Proof. by destruct e. Qed.

Lemma with_transition_twice b c s b' c' s' e :
  with_transition b c s (with_transition b' c' s' e) = with_transition b c s e.
Proof. done. Qed.

Lemma play_transition ctx k e :
  drawable e <> [] -> stale_self_loop e = false ->
  (transition_cursor e + k <= length (transition_buf e))%nat ->
  play ctx k e = Some (
    with_transition (transition_buf e) (transition_cursor e + k) (transition_is_self_loop e) e,
    take k (drop (transition_cursor e) (transition_buf e))).
Proof.
  revert e. induction k as [|k IH]; intros e Hd Hs Hk.
  { simpl. by rewrite Nat.add_0_r, with_transition_id. }
  simpl. unfold next_point. rewrite decide_False by done. unfold drop_stale.
  rewrite (decide_True (P := (transition_cursor e < _)%nat)) by lia. rewrite Hs. simpl.
  rewrite decide_False by done.
  rewrite (decide_True (P := (transition_cursor e < _)%nat)) by lia.
  destruct (lookup_lt_is_Some_2 (transition_buf e) (transition_cursor e)) as [p Hp]; [lia|].
  rewrite Hp. simpl. rewrite IH; [|done|apply stale_late; lia|simpl; lia]. simpl.
  rewrite (drop_S (transition_buf e) p (transition_cursor e) Hp). simpl. rewrite with_transition_twice.
  repeat f_equal. lia.
Qed.

Lemma with_cursor_id e : with_cursor (cursor e) e = e.
Proof. by destruct e. Qed.

(** The next drawable point, when no transition point is waiting. *)
Lemma next_point_drawable ctx e p :
  (length (transition_buf e) <= transition_cursor e)%nat -> drawable e !! cursor e = Some p ->
  next_point ctx e = (e2 ← at_seam ctx (with_cursor (S (cursor e)) e); Some (e2, p)).
Proof.
  intros Ht Hp. assert (Hd : drawable e <> []) by (by intros Hd; rewrite Hd in Hp).
  unfold next_point, drop_stale. rewrite decide_False by done.
  rewrite (decide_False (P := (transition_cursor e < _)%nat)) by lia. simpl.
  rewrite decide_False by done.
  rewrite (decide_False (P := (transition_cursor e < _)%nat)) by lia. by rewrite Hp.
Qed.

Lemma play_drawable ctx k e :
  (length (transition_buf e) <= transition_cursor e)%nat ->
  (cursor e + k < length (drawable e))%nat ->
  play ctx k e = Some (with_cursor (cursor e + k) e, take k (drop (cursor e) (drawable e))).
Proof.
  revert e. induction k as [|k IH]; intros e Ht Hk.
  { simpl. by rewrite Nat.add_0_r, with_cursor_id. }
  destruct (lookup_lt_is_Some_2 (drawable e) (cursor e)) as [p Hp]; [lia|].
  cbn [play]. rewrite (next_point_drawable _ _ p) by done. unfold at_seam. simpl.
  rewrite decide_False by lia. simpl. rewrite IH by (simpl; lia). simpl.
  rewrite (drop_S (drawable e) p (cursor e) Hp). simpl. unfold with_cursor. simpl. repeat f_equal. lia.
Qed.

(** Playing to the seam: the rest of the drawable, then the seam is planned. *)
Lemma play_to_seam ctx e :
  (length (transition_buf e) <= transition_cursor e)%nat -> (cursor e < length (drawable e))%nat ->
  play ctx (length (drawable e) - cursor e) e =
    (e2 ← at_seam ctx (with_cursor (length (drawable e)) e); Some (e2, drop (cursor e) (drawable e))).
Proof.
  intros Ht Hc. set (k := (length (drawable e) - cursor e - 1)%nat).
  replace (length (drawable e) - cursor e)%nat with (k + 1)%nat by lia.
  rewrite play_app, play_drawable by lia. simpl.
  destruct (lookup_lt_is_Some_2 (drawable e) (cursor e + k)) as [p Hp]; [lia|].
  rewrite (next_point_drawable _ _ p); [|done|done]. simpl.
  unfold with_cursor at 1. simpl.
  replace (S (cursor e + k)) with (length (drawable e)) by lia.
  change (mkEngine _ _ _ _ _ _ _ _ _ _ _ _ _) with (with_cursor (length (drawable e)) e).
  destruct (at_seam _ _) as [e2|]; simpl; [|done]. do 2 f_equal.
  assert (Hlk : drop (cursor e) (drawable e) !! k = Some p) by (by rewrite lookup_drop).
  rewrite <- (take_S_r _ _ _ Hlk). apply take_ge. rewrite length_drop. lia.
Qed.

(** ** The batching loop plays the reference stream *)

Definition npend (e : PresentationEngine) : nat := if bool_decide (is_Some (pending_base e)) then 1 else 0.

(** [r] fills [buffer[written..max]] with what [e] plays. *)
Definition fills (ctx : TransitionContext) (max : nat) (e : PresentationEngine)
    (buffer : list LaserPoint) (written : nat)
    (r : option (PresentationEngine * list LaserPoint * nat)) : Prop :=
  exists e' pts buffer', play ctx (max - written) e = Some (e', pts) /\
    write_at buffer written pts = Some buffer' /\ r = Some (e', buffer', max) /\
    fifo_wf e' /\ drawable_dirty e' = false.

Lemma fills_step ctx max e buffer written n e1 ps buffer1 r :
  (written + n <= max)%nat -> play ctx n e = Some (e1, ps) -> write_at buffer written ps = Some buffer1 ->
  fills ctx max e1 buffer1 (written + n) r -> fills ctx max e buffer written r.
Proof.
  intros Hn Hp Hw (e' & pts & buffer' & Hp' & Hw' & -> & Hwf).
  exists e', (ps ++ pts), buffer'. split; [|split; [|done]].
  - replace (max - written)%nat with (n + (max - (written + n)))%nat by lia.
    by rewrite play_app, Hp; simpl; rewrite Hp'.
  - rewrite <- (write_at_app _ _ _ _ _ Hw), (play_length _ _ _ _ _ Hp). done.
Qed.

Lemma fills_idle ctx max e buffer written :
  fifo_wf e -> drawable_dirty e = false -> drawable e = [] -> (written <= max <= length buffer)%nat ->
  fills ctx max e buffer written
    (buffer1 ← write_at buffer written (replicate (max - written) (idle_blank e));
     Some (e, buffer1, max)).
Proof.
  intros Hwf Hd He Hl. eexists e, _, _. split; [by apply play_idle|].
  rewrite write_at_Some by (rewrite length_replicate; lia). done.
Qed.

Lemma drop_stale_no_pending ctx e : pending_base e = None -> drop_stale ctx e = Some e.
Proof.
  intros Hp. unfold drop_stale, stale_self_loop. rewrite Hp.
  rewrite (bool_decide_eq_false_2 (is_Some None)) by (by intros []).
  rewrite andb_false_r. simpl. by case_decide.
Qed.

Lemma npend_Some e : is_Some (pending_base e) -> npend e = 1%nat.
Proof. intros H. unfold npend. by rewrite bool_decide_eq_true_2. Qed.

Lemma npend_None e : pending_base e = None -> npend e = 0%nat.
Proof. intros H. unfold npend. rewrite H, bool_decide_eq_false_2; [done|by intros []]. Qed.

Lemma stale_pending e : stale_self_loop e = true -> is_Some (pending_base e).
Proof.
  unfold stale_self_loop. intros [[_ H]%andb_prop _]%andb_prop. by apply bool_decide_eq_true in H.
Qed.

Lemma fifo_wf_with_transition e b c sl :
  fifo_wf e -> (c <= length b)%nat -> fifo_wf (with_transition b c sl e).
Proof. intros [] Hc. by split. Qed.

(** The seam state is well formed apart from its cursor, which the seam resets. *)
Lemma live_with_cursor e c : live e -> (c < length (drawable e))%nat -> live (with_cursor c e).
Proof. intros ([] & Hd & Hne) Hc. split; [split; simpl; auto; congruence|done]. Qed.

Lemma promote_with_cursor ctx c e : promote_pending ctx (with_cursor c e) = promote_pending ctx e.
Proof.
  unfold promote_pending. simpl. destruct (pending_base e) as [f|]; [|done].
  by destruct (seam_plan _ _ _ _).
Qed.

Lemma self_loop_with_cursor ctx c e : self_loop_seam ctx (with_cursor c e) = self_loop_seam ctx e.
Proof.
  unfold self_loop_seam. simpl. destruct (last (drawable e)), (head (drawable e)); try done.
Qed.

(** The claim about the loop at a given fuel, and one lemma per branch of its body. *)
Definition loop_ok (ctx : TransitionContext) (max fuel : nat) : Prop :=
  forall e buffer written, live e -> (written <= max <= length buffer)%nat ->
    (max - written + npend e < fuel)%nat ->
    fills ctx max e buffer written (fill_loop fuel e buffer written max ctx).

Section branches.
Context (ctx : TransitionContext) (max fuel : nat) (IH : loop_ok ctx max fuel).
Context (e : PresentationEngine) (buffer : list LaserPoint) (written : nat).
Context (Hlive : live e) (Hb : (written < max <= length buffer)%nat).
Context (Hfuel : (max - written + npend e < S fuel)%nat).

(** Stale self-loop points: promote now. *)
Lemma fills_stale :
  (transition_cursor e < length (transition_buf e))%nat -> stale_self_loop e = true ->
  fills ctx max e buffer written (fill_loop (S fuel) e buffer written max ctx).
Proof using All.
  intros Htr Hst. destruct Hlive as (Hwf & Hcl & Hne). simpl.
  rewrite decide_True by lia. rewrite decide_True, Hst by done.
  pose proof (stale_pending _ Hst) as Hpend.
  set (e0 := with_transition [] (transition_cursor e) false e).
  assert (Hwf0 : fifo_wf e0).
  { apply fifo_wf_with_transition; [done|]. simpl.
    unfold stale_self_loop in Hst. apply andb_prop in Hst as [_ Hz%bool_decide_eq_true]. lia. }
  destruct (promote_pending_spec ctx e0 Hwf0 Hpend) as (e1 & He1 & Hwf1 & Hd1 & _ & Hp1 & _).
  assert (Hds : drop_stale ctx e = Some e1) by (unfold drop_stale; by rewrite decide_True, Hst).
  assert (Hm : (max - written)%nat = S (max - written - 1)) by lia.
  rewrite He1. simpl. destruct (decide (drawable e1 = [])) as [Hem|Hnem].
  - destruct (fills_idle ctx max e1 buffer written Hwf1 Hd1 Hem ltac:(lia)) as (e' & pts & b' & Hp & Hrest).
    exists e', pts, b'. split; [|done]. rewrite <- Hp, Hm.
    rewrite (play_idle_after_drop _ _ _ e1) by done. by rewrite play_idle.
  - destruct (IH e1 buffer written) as (e' & pts & b' & Hp & Hrest); [done|lia| |].
    { rewrite (npend_None e1), (npend_Some e) in * by done. lia. }
    exists e', pts, b'. split; [|done]. rewrite <- Hp, Hm.
    apply play_drop_stale; try done. by apply drop_stale_no_pending.
Qed.

(** Transition points are drained in one copy. *)
Lemma fills_transition :
  (transition_cursor e < length (transition_buf e))%nat -> stale_self_loop e = false ->
  fills ctx max e buffer written (fill_loop (S fuel) e buffer written max ctx).
Proof using All.
  intros Htr Hst. destruct Hlive as (Hwf & Hcl & Hne). simpl.
  rewrite decide_True by lia. rewrite decide_True, Hst by done.
  rewrite slice_from_Some by lia. simpl. rewrite length_drop.
  set (n := Nat.min _ _). assert (Hn : (1 <= n <= max - written)%nat) by lia.
  rewrite write_at_Some by (rewrite length_take, length_drop; lia). simpl.
  eapply (fills_step _ _ _ _ _ n); [lia|apply play_transition; [done|done|lia]| |apply IH].
  - apply write_at_Some. rewrite length_take, length_drop. lia.
  - split; [apply fifo_wf_with_transition; [done|lia]|done].
  - rewrite !length_app, !length_take, !length_drop. lia.
  - unfold npend in *. simpl. lia.
Qed.

(** Drawable points are copied up to the seam, which is planned at once. *)
Lemma fills_drawable :
  (length (transition_buf e) <= transition_cursor e)%nat ->
  fills ctx max e buffer written (fill_loop (S fuel) e buffer written max ctx).
Proof using All.
  intros Htr. destruct Hlive as (Hwf & Hcl & Hne). simpl.
  rewrite decide_True by lia. rewrite decide_False by lia.
  pose proof (wf_cursor _ Hwf Hne Hcl) as Hcur.
  rewrite slice_from_Some by lia. simpl. rewrite length_drop.
  set (n := Nat.min _ _). assert (Hn : (1 <= n <= max - written)%nat) by lia.
  assert (Hlen : length (take n (drop (cursor e) (drawable e))) = n)
    by (rewrite length_take, length_drop; lia).
  rewrite write_at_Some by lia. simpl. set (buffer1 := take written buffer ++ _).
  assert (Hw1 : write_at buffer written (take n (drop (cursor e) (drawable e))) = Some buffer1)
    by (apply write_at_Some; lia).
  pose proof (write_at_length _ _ _ _ Hw1) as Hbl.
  destruct (decide (length (drawable e) <= cursor e + n)%nat) as [Hseam|Hno].
  2:{ eapply (fills_step _ _ _ _ _ n); [lia|apply play_drawable; lia|exact Hw1|apply IH]; [|lia|].
      - apply live_with_cursor; [done|lia].
      - unfold npend in *. simpl. lia. }
  assert (Hnl : n = (length (drawable e) - cursor e)%nat) by lia.
  rewrite (take_ge (drop _ _)) in Hw1 by (rewrite length_drop; lia).
  replace (cursor e + n)%nat with (length (drawable e)) by lia.
  pose proof (play_to_seam ctx e ltac:(lia) Hcur) as Hps. rewrite <- Hnl in Hps.
  unfold at_seam in Hps. simpl in Hps. rewrite decide_True in Hps by lia.
  rewrite promote_with_cursor, self_loop_with_cursor in *.
  case_bool_decide as Hpd.
  - destruct (promote_pending_spec ctx e Hwf Hpd) as (e1 & He1 & Hwf1 & Hd1 & _ & Hp1 & _).
    rewrite He1 in *. simpl in *. destruct (decide (drawable e1 = [])) as [Hem|Hnem];
      (eapply fills_step; [|exact Hps|exact Hw1|]; [lia|]).
    + apply fills_idle; try done. lia.
    + apply IH; [done|lia|]. rewrite (npend_None e1) by done. lia.
  - destruct (self_loop_seam_spec ctx e Hwf Hcl Hne) as (e1 & He1 & Hl1 & Hp1 & _).
    rewrite He1 in *. simpl in *. eapply fills_step; [|exact Hps|exact Hw1|apply IH]; try done; [lia..|].
    unfold npend in *. rewrite Hp1. lia.
Qed.
End branches.

Lemma fill_loop_play ctx max fuel : loop_ok ctx max fuel.
Proof.
  induction fuel as [|fuel IH]; intros e buffer written Hlive Hb Hfuel; [lia|].
  destruct (decide (written < max)%nat) as [Hlt|Hge].
  - destruct (decide (transition_cursor e < length (transition_buf e))%nat) as [Htr|Htr].
    + destruct (stale_self_loop e) eqn:Hst; [apply fills_stale|apply fills_transition]; (done || lia).
    + apply fills_drawable; (done || lia).
  - simpl. rewrite decide_False by done. replace written with max by lia.
    exists e, [], buffer. rewrite Nat.sub_diag. split; [done|].
    split; [apply write_at_nil; lia|]. split; [done|]. by destruct Hlive as (? & ? & ?).
Qed.

(** What [fill_chunk] does, in terms of the reference stream. *)
Lemma fill_chunk_play e buffer max_points pps :
  fifo_wf e ->
  let n := Nat.min max_points (length buffer) in
  exists e' pts, play (mkTransitionContext pps) n (prepare e) = Some (e', pts) /\
    fill_chunk e buffer max_points pps = Some (e', pts ++ drop n buffer, n) /\
    length pts = n /\ fifo_wf e' /\ drawable_dirty e' = false.
Proof.
  intros Hwf n. destruct (fifo_wf_prepare e Hwf) as [Hwf1 Hd1].
  assert (Hf : fills (mkTransitionContext pps) n (prepare e) buffer 0 (fill_chunk e buffer max_points pps)).
  { unfold fill_chunk. cbv zeta. fold n. fold (prepare e).
    destruct (decide (current_base (prepare e) = None \/ drawable (prepare e) = [])) as [Hc|Hc].
    - rewrite <- (Nat.sub_0_r n) at 2. apply fills_idle; [done|done| |lia].
      destruct Hc as [Hc|Hc]; [|done]. rewrite (wf_clean _ Hwf1 Hd1). by rewrite Hc.
    - apply fill_loop_play; [|lia|unfold fill_fuel, npend; destruct (bool_decide _); lia].
      split; [done|]. split; [done|]. naive_solver. }
  destruct Hf as (e' & pts & b' & Hp & Hw & Hr & Hwf' & Hd'). rewrite Nat.sub_0_r in Hp.
  pose proof (play_length _ _ _ _ _ Hp) as Hl.
  rewrite write_at_0 in Hw by lia. injection Hw as <-. rewrite Hl in Hr.
  exists e', pts. done.
Qed.

Lemma prepare_clean e : drawable_dirty e = false -> prepare e = e.
Proof. intros H. unfold prepare. by rewrite H. Qed.

(** A whole buffer filled: the points are the stream and nothing is left over. *)
Lemma fill_whole e buffer pps :
  fifo_wf e ->
  exists e' pts, play (mkTransitionContext pps) (length buffer) (prepare e) = Some (e', pts) /\
    fill_chunk e buffer (length buffer) pps = Some (e', pts, length buffer) /\
    length pts = length buffer /\ fifo_wf e' /\ drawable_dirty e' = false.
Proof.
  intros Hwf. pose proof (fill_chunk_play e buffer (length buffer) pps Hwf) as H. cbv zeta in H.
  rewrite Nat.min_id in H. destruct H as (e' & pts & Hp & Hf & Hl & Hw & Hd).
  exists e', pts. rewrite drop_all, app_nil_r in Hf. done.
Qed.

(** ** A frame that loops *)

(** Cursor at the frame's start, no transition point waiting, no frame waiting. *)
Definition at_start (f : Frame) (e : PresentationEngine) : Prop :=
  live e /\ current_base e = Some f /\ cursor e = 0%nat /\
  (length (transition_buf e) <= transition_cursor e)%nat /\ pending_base e = None.

Lemma live_drawable e f : live e -> current_base e = Some f -> drawable e = points f.
Proof. intros (Hwf & Hd & _) Hc. rewrite (wf_clean _ Hwf Hd). by rewrite Hc. Qed.

Lemma play_loop_once ctx e f l p pts :
  at_start f e -> last (points f) = Some l -> head (points f) = Some p ->
  transition_fn e l p ctx = Transition pts ->
  exists e', play ctx (length (points f) + length pts) e = Some (e', points f ++ pts) /\
    at_start f e' /\ transition_fn e' = transition_fn e.
Proof.
  intros (Hl & Hc & Hcur & Ht & Hp) Hlast Hhead Htf.
  pose proof (live_drawable _ _ Hl Hc) as Hdr. destruct Hl as (Hwf & Hd & Hne).
  pose proof (wf_cursor _ Hwf Hne Hd) as Hlt.
  pose proof (play_to_seam ctx e ltac:(lia) Hlt) as Hs.
  rewrite Hcur, Nat.sub_0_r, drop_0, Hdr in Hs. unfold at_seam in Hs. simpl in Hs.
  rewrite Hdr, decide_True, Hp in Hs by lia.
  rewrite (bool_decide_eq_false_2 (is_Some None)) in Hs by (by intros []).
  rewrite self_loop_with_cursor in Hs. unfold self_loop_seam in Hs. rewrite Hdr, Hlast, Hhead, Htf in Hs.
  rewrite play_app, Hs. simpl. clear Hs.
  rewrite play_transition; simpl; [|done| |done].
  2:{ unfold stale_self_loop. simpl. rewrite Hp, (bool_decide_eq_false_2 (is_Some None)); [done|by intros []]. }
  rewrite drop_0, take_ge by lia. eexists. split; [done|]. split; [|done].
  destruct Hwf as [H1 H2 H3 H4 H5]. repeat split; simpl; try done; try lia; try congruence; auto.
Qed.

Lemma play_loop_many ctx f l p pts k e :
  at_start f e -> last (points f) = Some l -> head (points f) = Some p ->
  transition_fn e l p ctx = Transition pts ->
  exists e', play ctx (k * (length (points f) + length pts)) e =
      Some (e', mjoin (replicate k (points f ++ pts))) /\ at_start f e'.
Proof.
  intros Hst Hl Hh. revert e Hst. induction k as [|k IH]; intros e Hst Htf; [by exists e|].
  destruct (play_loop_once ctx e f l p pts Hst Hl Hh Htf) as (e1 & Hp1 & Hst1 & Hf1).
  destruct (IH e1 Hst1) as (e2 & Hp2 & Hst2); [by rewrite Hf1|].
  exists e2. split; [|done]. simpl. rewrite play_app, Hp1. simpl. by rewrite Hp2.
Qed.

(** ** A frame that is replaced *)

(** With [g] waiting and no transition point left, the current frame is played
    to its end, then the transition, then [g]. *)
Lemma play_frame_change ctx e f g pts :
  live e -> current_base e = Some f -> pending_base e = Some g -> points g <> [] ->
  (length (transition_buf e) <= transition_cursor e)%nat ->
  seam_plan (transition_fn e) (last_point f) (first_point g) ctx = Transition pts ->
  exists e', play ctx ((length (points f) - cursor e) + length pts) e =
      Some (e', drop (cursor e) (points f) ++ pts) /\ at_start g e'.
Proof.
  intros Hl Hc Hp Hg Ht Hplan. pose proof (live_drawable _ _ Hl Hc) as Hdr.
  destruct Hl as (Hwf & Hd & Hne). pose proof (wf_cursor _ Hwf Hne Hd) as Hlt.
  pose proof (play_to_seam ctx e ltac:(lia) Hlt) as Hs. rewrite Hdr in Hs.
  unfold at_seam in Hs. simpl in Hs. rewrite Hdr, decide_True, Hp in Hs by lia.
  rewrite (bool_decide_eq_true_2 (is_Some (Some g))) in Hs by done.
  rewrite promote_with_cursor in Hs. unfold promote_pending in Hs.
  rewrite Hp, Hc in Hs. simpl in Hs. rewrite Hplan in Hs. simpl in Hs.
  rewrite play_app, Hs. simpl. clear Hs.
  rewrite play_transition; simpl; [|done|done|done].
  rewrite drop_0, take_ge by lia. eexists. split; [done|].
  destruct Hwf as [H1 H2 H3 H4 H5]. repeat split; simpl; try done; try lia; try congruence; auto.
  intros _ _. destruct (points g); [done|simpl; lia].
Qed.

(** ** Frame-swap composition *)

Lemma clamp_drawable e cap :
  frame_capacity e = Some cap ->
  let tlen := frame_swap_transition_len e in
  let trim := Nat.min (length (drawable e) - cap) tlen in
  drawable (clamp_to_capacity e) = take cap (drop trim (drawable e)) /\
  (length (drawable (clamp_to_capacity e)) <= cap)%nat.
Proof.
  intros Hcap tlen trim. unfold clamp_to_capacity. rewrite Hcap. fold tlen.
  destruct (decide (cap < length (drawable e))%nat) as [Hlt|Hge].
  - fold trim. destruct (decide (cap < length (drop trim (drawable e)))%nat) as [H2|H2]; simpl.
    + split; [done|]. rewrite length_take. lia.
    + split; [|lia]. by rewrite take_ge by lia.
  - replace trim with 0%nat by lia. rewrite drop_0, take_ge by lia. split; [done|lia].
Qed.

(** If the transition prefix and the base are composed and the base alone fits,
    clamping keeps the whole base. *)
Lemma clamp_keeps_base e cap pre base :
  frame_capacity e = Some cap -> drawable e = pre ++ base ->
  frame_swap_transition_len e = length pre -> (length base <= cap)%nat ->
  exists k, drawable (clamp_to_capacity e) = drop k pre ++ base.
Proof.
  intros Hcap Hd Ht Hfit. pose proof (clamp_drawable e cap Hcap) as [Hc _]. rewrite Hc.
  rewrite Hd, Ht, length_app.
  set (k := Nat.min _ _). exists k. rewrite drop_app_le by lia.
  apply take_ge. rewrite length_app, length_drop. lia.
Qed.

Lemma clamp_no_capacity e : frame_capacity e = None -> clamp_to_capacity e = e.
Proof. intros H. unfold clamp_to_capacity. by rewrite H. Qed.

Lemma clamp_fields e :
  current_base (clamp_to_capacity e) = current_base e /\
  pending_base (clamp_to_capacity e) = pending_base e /\
  frame_capacity (clamp_to_capacity e) = frame_capacity e.
Proof.
  unfold clamp_to_capacity. destruct (frame_capacity e) as [cap|] eqn:Hc; [|by rewrite Hc].
  by repeat case_decide.
Qed.

(** A composed hardware frame respects the capacity whenever it is (re)built. *)
Definition swap_wf (e : PresentationEngine) : Prop :=
  drawable_dirty e = false ->
  forall cap, frame_capacity e = Some cap -> (length (drawable e) <= Nat.max 1 cap)%nat.

Lemma build_self_loop_total tf base ctx :
  base <> [] -> exists r, build_self_loop_drawable tf base ctx = Some r.
Proof.
  intros Hne. unfold build_self_loop_drawable.
  destruct (last base) eqn:Hl; [|by apply last_None in Hl].
  destruct (head base) eqn:Hh; [|by destruct base]. eauto.
Qed.

Lemma clamp_length e cap :
  frame_capacity (clamp_to_capacity e) = Some cap ->
  (length (drawable (clamp_to_capacity e)) <= Nat.max 1 cap)%nat.
Proof.
  intros Hcap. destruct (clamp_fields e) as (_ & _ & Hf). rewrite Hf in Hcap.
  destruct (clamp_drawable e cap Hcap). lia.
Qed.

Lemma refresh_swap_spec ctx e :
  exists e', refresh_drawable_for_frame_swap ctx e = Some e' /\
    frame_capacity e' = frame_capacity e /\
    forall cap, frame_capacity e' = Some cap -> (length (drawable e') <= Nat.max 1 cap)%nat.
Proof.
  unfold refresh_drawable_for_frame_swap. cbv zeta. simpl.
  destruct (current_base e) as [c|]; [|eexists; split; [done|]; split; [done|]; simpl; lia].
  unfold is_empty. case_bool_decide as Hem; [eexists; split; [done|]; split; [done|]; simpl; lia|].
  destruct (build_self_loop_total (transition_fn e) (points c) ctx Hem) as [[d tlen] ->]. simpl.
  eexists. split; [done|]. split; [by rewrite (proj2 (proj2 (clamp_fields _)))|].
  intros cap. apply clamp_length.
Qed.

(** Composition never panics. *)
Lemma compose_total e pps : exists e' frame, compose_hardware_frame e pps = Some (e', frame).
Proof.
  unfold compose_hardware_frame. destruct (pending_base e) as [g|].
  - destruct (match seam_plan _ _ _ _ with Transition _ => _ | Coalesce => _ end) as [d tlen]. eauto.
  - destruct (drawable_dirty e || _); simpl; [|eauto].
    destruct (refresh_swap_spec (mkTransitionContext pps) e) as (e1 & -> & _). simpl. eauto.
Qed.

(** ** Reachable FIFO engines *)

(** What a FIFO session does to its engine. *)
Inductive fifo_step : PresentationEngine -> PresentationEngine -> Prop :=
  | step_set_pending f e : fifo_step e (set_pending f e)
  | step_reset e : fifo_step e (reset e)
  | step_idle_point p e : fifo_step e (set_idle_blank_point p e)
  | step_capacity c e : fifo_step e (set_frame_capacity c e)
  | step_fill e buffer max_points pps e' buffer' n :
      fill_chunk e buffer max_points pps = Some (e', buffer', n) -> fifo_step e e'.

Lemma fifo_step_wf e e' : fifo_step e e' -> fifo_wf e -> fifo_wf e'.
Proof.
  intros Hs Hwf. destruct Hs as [f e|e|p e|c e|e buffer mp pps e' buffer' n Hf].
  - by apply fifo_wf_set_pending.
  - apply fifo_wf_reset.
  - destruct Hwf. by split.
  - destruct Hwf. by split.
  - destruct (fill_chunk_play e buffer mp pps Hwf) as (e1 & pts & _ & Hf1 & _ & Hwf1 & _). congruence.
Qed.

Lemma fifo_reachable_wf tf e : rtc fifo_step (new_engine tf) e -> fifo_wf e.
Proof.
  revert e. apply (rtc_ind_r fifo_wf (new_engine tf)); [apply fifo_wf_new|].
  intros y z _ Hs Hw. by eapply fifo_step_wf.
Qed.

(** ** Theorems *)

(** C5. In every engine a FIFO session can reach, [fill_chunk] terminates
    without panicking and writes exactly [min(max_points, buffer.len())] points;
    they are the reference one-point-at-a-time stream of the engine, the rest of
    the buffer is untouched, and the engine ends where the stream ends. *)
Theorem fill_chunk_refines_stream tf e buffer max_points pps :
  rtc fifo_step (new_engine tf) e ->
  let n := Nat.min max_points (length buffer) in
  exists e' pts,
    fill_chunk e buffer max_points pps = Some (e', pts ++ drop n buffer, n) /\
    play (mkTransitionContext pps) n (prepare e) = Some (e', pts) /\ length pts = n.
Proof.
  intros Hr n. apply fifo_reachable_wf in Hr.
  destruct (fill_chunk_play e buffer max_points pps Hr) as (e' & pts & Hp & Hf & Hl & _).
  by exists e', pts.
Qed.

(** A two-point frame, no transition. *)
Definition demo_frame : Frame :=
  mkFrame [mkLaserPoint f0 f0 1 2 3 4; mkLaserPoint f1 f1 5 6 7 8].

Definition demo_engine : PresentationEngine :=
  set_pending demo_frame (new_engine (fun _ _ _ => Transition [blanked f0 f1])).

Lemma demo_reachable :
  rtc fifo_step (new_engine (fun _ _ _ => Transition [blanked f0 f1])) demo_engine.
Proof. apply rtc_once. constructor. Qed.

Lemma fill_chunk_refines_stream_witness :
  exists e' pts, fill_chunk demo_engine (replicate 6 default_point) 5 30000 =
      Some (e', pts ++ drop 5 (replicate 6 default_point), 5%nat) /\
    play (mkTransitionContext 30000) 5 (prepare demo_engine) = Some (e', pts) /\ length pts = 5%nat.
Proof.
  exact (fill_chunk_refines_stream _ demo_engine (replicate 6 default_point) 5 30000 demo_reachable).
Defined.

(** The stream does not depend on how it is cut into chunks: filling two
    buffers one after the other gives the points, and leaves the engine, of one
    fill of their concatenation. *)
Theorem fill_chunk_split e buf1 buf2 pps :
  fifo_wf e ->
  exists e1 e2 ps qs,
    fill_chunk e buf1 (length buf1) pps = Some (e1, ps, length buf1) /\
    fill_chunk e1 buf2 (length buf2) pps = Some (e2, qs, length buf2) /\
    fill_chunk e (buf1 ++ buf2) (length (buf1 ++ buf2)) pps =
      Some (e2, ps ++ qs, length (buf1 ++ buf2)).
Proof.
  intros Hwf. destruct (fill_whole e buf1 pps Hwf) as (e1 & ps & Hp1 & Hf1 & _ & Hwf1 & Hd1).
  destruct (fill_whole e1 buf2 pps Hwf1) as (e2 & qs & Hp2 & Hf2 & _).
  destruct (fill_whole e (buf1 ++ buf2) pps Hwf) as (e3 & rs & Hp3 & Hf3 & _).
  exists e1, e2, ps, qs. split; [done|]. split; [done|].
  rewrite prepare_clean in Hp2 by done.
  rewrite length_app, play_app, Hp1 in Hp3. simpl in Hp3. rewrite Hp2 in Hp3. simpl in Hp3.
  congruence.
Qed.

Lemma fill_chunk_split_witness :
  exists e1 e2 ps qs,
    fill_chunk demo_engine (replicate 2 default_point) 2 30000 = Some (e1, ps, 2%nat) /\
    fill_chunk e1 (replicate 3 default_point) 3 30000 = Some (e2, qs, 3%nat) /\
    fill_chunk demo_engine (replicate 2 default_point ++ replicate 3 default_point) 5 30000 =
      Some (e2, ps ++ qs, 5%nat).
Proof.
  exact (fill_chunk_split demo_engine (replicate 2 default_point) (replicate 3 default_point) 30000
           (fifo_reachable_wf _ _ demo_reachable)).
Defined.

(** A frame with no successor loops: from its start, [k] periods of the
    stream are [k] repetitions of the authored points followed by the
    transition points, whatever chunk size carries them. *)
Theorem self_loop_periodic e f l p pts k pps buffer :
  at_start f e -> last (points f) = Some l -> head (points f) = Some p ->
  transition_fn e l p (mkTransitionContext pps) = Transition pts ->
  length buffer = (k * (length (points f) + length pts))%nat ->
  exists e', fill_chunk e buffer (length buffer) pps =
      Some (e', mjoin (replicate k (points f ++ pts)), length buffer) /\ at_start f e'.
Proof.
  intros Hst Hl Hh Htf Hlen. pose proof Hst as ((Hwf & Hd & Hne) & _).
  destruct (play_loop_many _ f l p pts k e Hst Hl Hh Htf) as (e1 & Hp1 & Hst1).
  destruct (fill_whole e buffer pps Hwf) as (e2 & qs & Hp2 & Hf2 & _).
  rewrite prepare_clean, Hlen, Hp1 in Hp2 by done. injection Hp2 as <- <-. by exists e1.
Qed.

Lemma self_loop_periodic_witness :
  exists e', fill_chunk (prepare demo_engine) (replicate 6 default_point) 6 30000 =
      Some (e', mjoin (replicate 2 (points demo_frame ++ [blanked f0 f1])), 6%nat) /\
    at_start demo_frame e'.
Proof.
  apply (self_loop_periodic (prepare demo_engine) demo_frame (mkLaserPoint f1 f1 5 6 7 8)
           (mkLaserPoint f0 f0 1 2 3 4) [blanked f0 f1] 2 30000 (replicate 6 default_point)); try reflexivity.
  repeat split; simpl; try done; lia.
Defined.

(** Latest wins, at the seam: when frames [h] then [g] are submitted while
    [f] plays, [f] is played to its end, then the planned transition from [f] to
    [g], and the engine is then at the start of [g]; [h] is never shown. *)
Theorem frame_change_latest_wins e f g h pts pps buffer :
  live e -> current_base e = Some f -> points g <> [] ->
  (length (transition_buf e) <= transition_cursor e)%nat ->
  seam_plan (transition_fn e) (last_point f) (first_point g) (mkTransitionContext pps) = Transition pts ->
  length buffer = ((length (points f) - cursor e) + length pts)%nat ->
  exists e', fill_chunk (set_pending g (set_pending h e)) buffer (length buffer) pps =
      Some (e', drop (cursor e) (points f) ++ pts, length buffer) /\ at_start g e'.
Proof.
  intros Hl Hc Hg Ht Hplan Hlen.
  assert (Hsp : set_pending g (set_pending h e) = with_pending (Some g) e).
  { unfold set_pending. rewrite Hc. simpl. by rewrite Hc. }
  rewrite Hsp. assert (Hl' : live (with_pending (Some g) e)).
  { destruct Hl as ([] & Hd & Hne). split; [split; simpl; auto; congruence|done]. }
  destruct (play_frame_change (mkTransitionContext pps) (with_pending (Some g) e) f g pts)
    as (e1 & Hp1 & Hst1); try done.
  destruct (fill_whole (with_pending (Some g) e) buffer pps ltac:(apply Hl')) as (e2 & qs & Hp2 & Hf2 & _).
  simpl cursor in Hp1. rewrite prepare_clean, Hlen, Hp1 in Hp2 by (apply Hl').
  injection Hp2 as <- <-. by exists e1.
Qed.

Lemma frame_change_latest_wins_witness :
  exists e', fill_chunk (set_pending (mkFrame [blanked f1 f0]) (set_pending (mkFrame []) (prepare demo_engine)))
      (replicate 3 default_point) 3 30000 = Some (e', points demo_frame ++ [blanked f0 f1], 3%nat) /\
    at_start (mkFrame [blanked f1 f0]) e'.
Proof.
  apply (frame_change_latest_wins (prepare demo_engine) demo_frame (mkFrame [blanked f1 f0]) (mkFrame [])
           [blanked f0 f1] 30000 (replicate 3 default_point)); try reflexivity; try done.
  repeat split; simpl; try done; lia.
Defined.

(** Frame-swap composition never panics, and a composed hardware frame
    never exceeds the device's frame capacity (a capacity of at least one
    point), across frame changes, self-loops and rate changes. *)
Theorem compose_within_capacity e pps cap :
  swap_wf e -> frame_capacity e = Some cap -> (1 <= cap)%nat ->
  exists e' frame, compose_hardware_frame e pps = Some (e', frame) /\
    frame = drawable e' /\ (length frame <= cap)%nat /\ swap_wf e' /\ frame_capacity e' = Some cap.
Proof.
  intros Hwf Hcap H1. unfold compose_hardware_frame. destruct (pending_base e) as [g|].
  - destruct (match seam_plan _ _ _ _ with Transition _ => _ | Coalesce => _ end) as [d tlen].
    eexists _, _. split; [done|]. split; [done|]. simpl.
    match goal with |- context [clamp_to_capacity ?x] => set (y := x) end.
    destruct (clamp_drawable y cap Hcap) as [_ Hle]. destruct (clamp_fields y) as (_ & _ & Hf).
    split; [done|]. split; [by intros|]. by rewrite Hf.
  - destruct (drawable_dirty e || _) eqn:Hd; simpl.
    + destruct (refresh_swap_spec (mkTransitionContext pps) e) as (e1 & -> & Hf & Hle). simpl.
      exists e1, (drawable e1). rewrite Hcap in Hf. specialize (Hle cap Hf).
      repeat split; try done; [lia|]. intros _ c Hc. rewrite Hf in Hc. injection Hc as <-. lia.
    + apply orb_false_elim in Hd as [Hd _]. exists e, (drawable e).
      specialize (Hwf Hd cap Hcap). repeat split; try done; [lia|]. intros _ c Hc. rewrite Hcap in Hc.
      injection Hc as <-. lia.
Qed.

Lemma compose_within_capacity_witness :
  exists e' frame, compose_hardware_frame (set_frame_capacity (Some 2%nat) demo_engine) 30000 = Some (e', frame) /\
    frame = drawable e' /\ (length frame <= 2)%nat /\ swap_wf e' /\ frame_capacity e' = Some 2%nat.
Proof.
  apply (compose_within_capacity (set_frame_capacity (Some 2%nat) demo_engine) 30000 2); [done|done|lia].
Defined.

(** A frame change never loses authored points that fit: if [g] alone fits
    the capacity, the hardware frame is a suffix of the planned transition
    followed by all of [g]. *)
Theorem compose_keeps_authored e g pts pps cap :
  pending_base e = Some g -> points g <> [] -> frame_capacity e = Some cap ->
  (length (points g) <= cap)%nat ->
  seam_plan (transition_fn e) (current_base e ≫= last_point) (first_point g) (mkTransitionContext pps)
    = Transition pts ->
  exists e' k, compose_hardware_frame e pps = Some (e', drop k pts ++ points g) /\
    current_base e' = Some g /\ pending_base e' = None.
Proof.
  intros Hp Hg Hcap Hfit Hplan. unfold compose_hardware_frame. rewrite Hp, Hplan. cbv zeta.
  rewrite decide_False by (intros [_ Hn]%app_eq_nil; done).
  match goal with |- context [clamp_to_capacity ?x] => set (y := x) end.
  destruct (clamp_keeps_base y cap pts (points g) Hcap eq_refl eq_refl Hfit) as [k Hk].
  eexists _, k. split; [simpl; by rewrite Hk|]. simpl. split; [done|].
  by destruct (clamp_fields y) as (_ & -> & _).
Qed.

Lemma compose_keeps_authored_witness :
  exists e' k, compose_hardware_frame
      (set_frame_capacity (Some 2%nat) (set_pending demo_frame demo_engine)) 30000 =
      Some (e', drop k [blanked f0 f1] ++ points demo_frame) /\
    current_base e' = Some demo_frame /\ pending_base e' = None.
Proof.
  apply (compose_keeps_authored (set_frame_capacity (Some 2%nat) (set_pending demo_frame demo_engine))
           demo_frame [blanked f0 f1] 30000 2); (reflexivity || done).
Defined.

(** C37. An empty frame latches the FIFO path: once the current frame is empty,
    submitting any frame [g] leaves the output at the idle point and the empty
    frame current, so no later frame is ever shown until the engine is reset. *)
Theorem empty_frame_latches_fifo e f g buffer max_points pps :
  fifo_wf e -> current_base e = Some f -> points f = [] ->
  let n := Nat.min max_points (length buffer) in
  exists e', fill_chunk (set_pending g e) buffer max_points pps =
      Some (e', replicate n (idle_blank e) ++ drop n buffer, n) /\
    current_base e' = Some f /\ pending_base e' = Some g /\ fifo_wf e'.
Proof.
  intros Hwf Hc Hf n. assert (Hsp : set_pending g e = with_pending (Some g) e).
  { unfold set_pending. by rewrite Hc. }
  assert (Hwf' : fifo_wf (with_pending (Some g) e)).
  { rewrite <- Hsp. by apply fifo_wf_set_pending. }
  rewrite Hsp. destruct (fill_chunk_play _ buffer max_points pps Hwf') as (e' & pts & Hp & Hfc & _ & Hwf1 & _).
  fold n in Hp, Hfc. destruct (fifo_wf_prepare _ Hwf') as [Hw Hd].
  assert (Hpr : current_base (prepare (with_pending (Some g) e)) = Some f /\
                pending_base (prepare (with_pending (Some g) e)) = Some g /\
                idle_blank (prepare (with_pending (Some g) e)) = idle_blank e).
  { unfold prepare, refresh_drawable. simpl. rewrite Hc. by destruct (drawable_dirty e). }
  destruct Hpr as (Hc1 & Hp1 & Hi1).
  rewrite play_idle in Hp by (rewrite (wf_clean _ Hw Hd), Hc1; done). injection Hp as <- <-.
  rewrite Hi1 in Hfc. by exists (prepare (with_pending (Some g) e)).
Qed.

Lemma empty_frame_latches_fifo_witness :
  exists e', fill_chunk (set_pending demo_frame (set_pending (mkFrame []) (new_engine (fun _ _ _ => Coalesce))))
      (replicate 4 default_point) 4 30000 =
      Some (e', replicate 4 (blanked f0 f0) ++ drop 4 (replicate 4 default_point), 4%nat) /\
    current_base e' = Some (mkFrame []) /\ pending_base e' = Some demo_frame /\ fifo_wf e'.
Proof.
  apply (empty_frame_latches_fifo (set_pending (mkFrame []) (new_engine (fun _ _ _ => Coalesce)))
           (mkFrame []) demo_frame (replicate 4 default_point) 4 30000); [|done|done].
  apply fifo_wf_set_pending, fifo_wf_new.
Defined.
