(* ===== verification/ColorDelay.v ===== *)
(** * ColorDelayLine

    Models [src/src/presentation/engine.rs], [ColorDelayLine]: the stateful
    colour delay that carries across chunk boundaries.  The in-place shift of
    [apply] is kept as the source has it (back-to-front loop, zip with the
    carry, [copy_within]); it is shown to be a FIFO queue of [delay] colours. *)

From S2P Require Import Prelude Floats Point Presentation.

Definition Color : Type := Z * Z * Z * Z.

Definition black : Color := (0, 0, 0, 0).

Definition color_of (p : LaserPoint) : Color := (lp_r p, lp_g p, lp_b p, lp_intensity p).

Definition set_color (p : LaserPoint) (c : Color) : LaserPoint :=
  let '(r, g, b, i) := c in mkLaserPoint (lp_x p) (lp_y p) r g b i.

Arguments set_color : simpl never.
Arguments color_of : simpl never.

Record ColorDelayLine := mkDelayLine {
  delay : nat;
  carry : list Color;
  scratch : list Color;
}.

(** [ColorDelayLine::new]. *)
Definition new_delay_line (d : nat) : ColorDelayLine := mkDelayLine d (replicate d black) [].

(** [reset]: the carry is filled with black in place. *)
Definition reset_delay (l : ColorDelayLine) : ColorDelayLine :=
  mkDelayLine (delay l) (replicate (length (carry l)) black) (scratch l).

(** [resize]. *)
Definition resize (new_delay : nat) (l : ColorDelayLine) : ColorDelayLine :=
  if decide (new_delay = delay l) then l
  else if decide (new_delay = 0%nat) then mkDelayLine 0 [] (scratch l)
  else if decide (delay l < new_delay)%nat then
    mkDelayLine new_delay (replicate (new_delay - delay l) black ++ carry l) (scratch l)
  else mkDelayLine new_delay (drop (delay l - new_delay) (carry l)) (scratch l).

(** [for i in (delay..delay + k).rev() { points[i].color = points[i - delay].color }]. *)
Fixpoint shift_loop (d k : nat) (points : list LaserPoint) : list LaserPoint :=
  match k with
  | O => points
  | S k =>
      let i := (d + k)%nat in
      shift_loop d k
        (match points !! (i - d)%nat, points !! i with
         | Some src, Some dst => <[i := set_color dst (color_of src)]> points
         | _, _ => points
         end)
  end.

(** [for (point, &c) in points.iter_mut().zip(&carry) { point.color = c }]. *)
Fixpoint zip_colors (points : list LaserPoint) (cs : list Color) : list LaserPoint :=
  match points, cs with
  | p :: ps, c :: cs => set_color p c :: zip_colors ps cs
  | _, _ => points
  end.

(** [v.copy_within(k.., 0)]. *)
Definition copy_within {A} (k : nat) (v : list A) : list A := drop k v ++ drop (length v - k) v.

(** [apply]; the line and the delayed points.  [None] if a copy had
    mismatched lengths. *)
Definition apply_delay (points : list LaserPoint) (l : ColorDelayLine) :
    option (ColorDelayLine * list LaserPoint) :=
  if decide (delay l = 0%nat \/ points = []) then Some (l, points)
  else
    let n := length points in
    let keep := Nat.min (delay l) n in
    let scratch1 := color_of <$> drop (n - keep) points in
    let shifted := shift_loop (delay l) (n - delay l) points in
    let out := zip_colors shifted (carry l) in
    carry1 ←
      (if decide (keep = delay l) then write_at (carry l) 0 scratch1
       else write_at (copy_within keep (carry l)) (delay l - keep) scratch1);
    Some (mkDelayLine (delay l) carry1 scratch1, out).

(** ** The invariant and the queue reading *)

Definition delay_wf (l : ColorDelayLine) : Prop := length (carry l) = delay l.

Lemma delay_wf_new d : delay_wf (new_delay_line d).
Proof. apply length_replicate. Qed.

Lemma delay_wf_reset l : delay_wf l -> delay_wf (reset_delay l).
Proof. unfold delay_wf. simpl. by rewrite length_replicate. Qed.

Lemma delay_wf_resize n l : delay_wf l -> delay_wf (resize n l) /\ delay (resize n l) = n.
Proof.
  unfold delay_wf, resize. intros Hl. repeat case_decide; simpl; subst; try done.
  - rewrite length_app, length_replicate. lia.
  - rewrite length_drop. lia.
Qed.

Lemma color_of_set p c : color_of (set_color p c) = c.
Proof. by destruct c as [[[]]]. Qed.

(** Positions are never touched. *)
Definition position (p : LaserPoint) : F32.t * F32.t := (lp_x p, lp_y p).

Lemma position_set p c : position (set_color p c) = position p.
Proof. by destruct c as [[[]]]. Qed.

Lemma shift_loop_lookup d k : forall points i,
  (0 < d)%nat -> (d + k <= length points)%nat ->
  color_of <$> shift_loop d k points !! i =
    (if decide (d <= i < d + k)%nat then color_of <$> points !! (i - d)%nat else color_of <$> points !! i)
  /\ position <$> shift_loop d k points !! i = position <$> points !! i.
Proof.
  induction k as [|k IH]; intros points i Hd Hk; simpl.
  - rewrite decide_False by lia. done.
  - replace (d + k - d)%nat with k by lia.
    destruct (lookup_lt_is_Some_2 points k) as [src Hsrc]; [lia|].
    destruct (lookup_lt_is_Some_2 points (d + k)) as [dst Hdst]; [lia|].
    rewrite Hsrc, Hdst. cbv iota beta.
    destruct (IH (<[(d + k)%nat := set_color dst (color_of src)]> points) i) as [Hc Hp];
      [done|rewrite length_insert; lia|]. rewrite Hc, Hp. clear Hc Hp IH.
    destruct (decide (i = d + k)%nat) as [->|Hne].
    + rewrite (decide_False (P := (d <= d + k < d + k)%nat)) by lia.
      rewrite decide_True by lia. replace (d + k - d)%nat with k by lia.
      rewrite list_lookup_insert_eq by lia. rewrite Hsrc, Hdst. simpl.
      by rewrite color_of_set, position_set.
    + destruct (decide (d <= i < d + k)%nat); [rewrite decide_True by lia|rewrite decide_False by lia];
        rewrite !list_lookup_insert_ne by lia; done.
Qed.

Lemma zip_colors_spec points cs i :
  color_of <$> zip_colors points cs !! i =
    (if decide (i < length points)%nat then
       (if decide (i < length cs)%nat then cs !! i else color_of <$> points !! i) else None)
  /\ position <$> zip_colors points cs !! i = position <$> points !! i.
Proof.
  revert cs i. induction points as [|p ps IH]; intros [|c cs] i; simpl; [done|done| |].
  - split; [|done]. repeat case_decide; try lia; try done.
    rewrite lookup_ge_None_2 by (simpl; lia). done.
  - destruct i as [|i]; simpl.
    + by rewrite color_of_set, position_set.
    + destruct (IH cs i) as [Hc Hp]. rewrite Hc, Hp. split; [|done].
      by repeat case_decide; try lia.
Qed.

Lemma shift_loop_length d k points : length (shift_loop d k points) = length points.
Proof.
  revert points. induction k as [|k IH]; intros points; simpl; [done|]. rewrite IH.
  destruct (points !! (d + k - d)%nat), (points !! (d + k)%nat); try done. by rewrite length_insert.
Qed.

Lemma zip_colors_length points cs : length (zip_colors points cs) = length points.
Proof. revert cs. induction points as [|p ps IH]; intros [|c cs]; simpl; congruence. Qed.

(** The output colours are the head of the queue [carry ++ input colours]. *)
Lemma delayed_colors d cs points :
  (0 < d)%nat -> length cs = d ->
  color_of <$> zip_colors (shift_loop d (length points - d) points) cs =
    take (length points) (cs ++ (color_of <$> points)).
Proof.
  intros Hd Hcs. apply list_eq. intros i. rewrite list_lookup_fmap.
  destruct (zip_colors_spec (shift_loop d (length points - d) points) cs i) as [-> _].
  rewrite shift_loop_length. case_decide as Hi.
  2:{ rewrite lookup_ge_None_2; [done|]. rewrite length_take. lia. }
  rewrite lookup_take_lt by done. case_decide as Hc.
  - by rewrite lookup_app_l.
  - rewrite lookup_app_r by lia. rewrite Hcs, list_lookup_fmap.
    destruct (decide (d <= length points)%nat).
    + destruct (shift_loop_lookup d (length points - d) points i) as [-> _]; [lia..|].
      by rewrite decide_True by lia.
    + lia.
Qed.

Lemma delayed_positions d cs points :
  (0 < d)%nat -> position <$> zip_colors (shift_loop d (length points - d) points) cs = position <$> points.
Proof.
  intros Hd. apply list_eq. intros i. rewrite !list_lookup_fmap.
  destruct (zip_colors_spec (shift_loop d (length points - d) points) cs i) as [_ ->].
  destruct (decide (d <= length points)%nat).
  - destruct (shift_loop_lookup d (length points - d) points i) as [_ ->]; [lia..|]. done.
  - replace (length points - d)%nat with 0%nat by lia. done.
Qed.

(** The rolled carry is the tail of the queue. *)
Lemma rolled_carry (cs qs : list Color) :
  let keep := Nat.min (length cs) (length qs) in
  (if decide (keep = length cs) then write_at cs 0 (drop (length qs - keep) qs)
   else write_at (copy_within keep cs) (length cs - keep) (drop (length qs - keep) qs))
  = Some (drop (length qs) (cs ++ qs)).
Proof.
  intros keep. destruct (decide (keep = length cs)) as [Hk|Hk].
  - rewrite write_at_0 by (rewrite length_drop; lia). f_equal.
    rewrite length_drop, (drop_ge cs), app_nil_r by lia.
    rewrite drop_app_ge by lia. f_equal. lia.
  - assert (Hq : keep = length qs) by lia. rewrite Hq in *.
    rewrite Nat.sub_diag, drop_0. unfold copy_within.
    rewrite write_at_Some by (rewrite length_app, !length_drop; lia). f_equal.
    rewrite take_app_le by (rewrite length_drop; lia).
    rewrite (take_ge (drop _ cs)) by (rewrite length_drop; lia).
    rewrite (drop_app_le cs) by lia. f_equal.
    rewrite drop_ge; [by rewrite app_nil_r|]. rewrite length_app, !length_drop. lia.
Qed.

Lemma apply_delay_spec l pts :
  delay_wf l ->
  exists l' out, apply_delay pts l = Some (l', out) /\ delay l' = delay l /\ delay_wf l' /\
    color_of <$> out = take (length pts) (carry l ++ (color_of <$> pts)) /\
    carry l' = drop (length pts) (carry l ++ (color_of <$> pts)) /\
    position <$> out = position <$> pts.
Proof.
  intros Hwf. unfold apply_delay. case_decide as H0.
  - exists l, pts. repeat split; try done.
    + destruct H0 as [H0| ->]; [|by rewrite take_0].
      destruct (carry l) eqn:Hc; [|unfold delay_wf in Hwf; rewrite Hc, H0 in Hwf; done].
      simpl. by rewrite take_ge by (by rewrite length_fmap).
    + destruct H0 as [H0| ->]; [|by rewrite drop_0, app_nil_r].
      destruct (carry l) eqn:Hc; [|unfold delay_wf in Hwf; rewrite Hc, H0 in Hwf; done].
      simpl. by rewrite drop_ge by (by rewrite length_fmap).
  - assert (Hd : delay l <> 0%nat) by tauto. unfold delay_wf in Hwf.
    pose proof (rolled_carry (carry l) (color_of <$> pts)) as Hr. cbv zeta in Hr.
    rewrite Hwf, length_fmap in Hr.
    rewrite fmap_drop. rewrite Hr. simpl. eexists _, _. split; [done|]. simpl.
    split; [done|]. split.
    { unfold delay_wf. simpl. rewrite length_drop, length_app, length_fmap. lia. }
    split; [apply delayed_colors; lia|]. split; [done|]. apply delayed_positions. lia.
Qed.

(** ** Darkness *)

Definition dark_carry (l : ColorDelayLine) : Prop := Forall (eq black) (carry l).

Lemma is_dark_color p : is_dark p <-> black = color_of p.
Proof.
  unfold is_dark, color_of, black. split.
  - by intros (-> & -> & -> & ->).
  - by intros [= <- <- <- <-].
Qed.

Lemma Forall_dark_colors pts : Forall is_dark pts <-> Forall (eq black) (color_of <$> pts).
Proof. rewrite Forall_fmap. apply Forall_iff. intros p. apply is_dark_color. Qed.

Lemma dark_carry_reset l : dark_carry (reset_delay l).
Proof. apply Forall_replicate. done. Qed.

Lemma dark_carry_resize n l : dark_carry l -> dark_carry (resize n l).
Proof.
  unfold dark_carry, resize. intros Hl. repeat case_decide; simpl; auto.
  - apply Forall_app. split; [by apply Forall_replicate|done].
  - by apply Forall_drop.
Qed.

(** A dark carry and a slice whose first [k] points are dark: the first [k]
    output points are dark, and with a wholly dark slice so is the new carry. *)
Lemma apply_delay_dark k l pts l' out :
  delay_wf l -> dark_carry l -> apply_delay pts l = Some (l', out) -> Forall is_dark (take k pts) ->
  Forall is_dark (take k out) /\ ((length pts <= k)%nat -> dark_carry l').
Proof.
  intros Hwf Hc Hap Hk.
  destruct (apply_delay_spec l pts Hwf) as (l1 & o1 & Hap' & _ & _ & Hcol & Hcar & _).
  rewrite Hap in Hap'. injection Hap' as <- <-.
  assert (Hpre : Forall (eq black) (take k (carry l ++ (color_of <$> pts)))).
  { rewrite take_app. apply Forall_app. split; [by apply Forall_take|].
    rewrite <- fmap_take, <- Forall_dark_colors.
    replace (k - length (carry l))%nat with (Nat.min (k - length (carry l)) k) by lia.
    rewrite <- take_take. by apply Forall_take. }
  split.
  - rewrite Forall_dark_colors, fmap_take, Hcol, take_take, Nat.min_comm, <- take_take. by apply Forall_take.
  - intros Hle. unfold dark_carry. rewrite Hcar. apply Forall_drop. rewrite Forall_app. split; [done|].
    rewrite take_ge in Hk by lia. by apply Forall_dark_colors.
Qed.

(** A slice of one repeated dark point goes through a dark line unchanged. *)
Lemma apply_delay_park n q l :
  delay_wf l -> dark_carry l -> is_dark q ->
  exists l', apply_delay (replicate n q) l = Some (l', replicate n q) /\ delay_wf l' /\ dark_carry l'.
Proof.
  intros Hwf Hc Hq.
  destruct (apply_delay_spec l (replicate n q) Hwf) as (l' & out & Hap & _ & Hwf' & Hcol & _ & Hpos).
  destruct (apply_delay_dark n l (replicate n q) l' out Hwf Hc Hap) as [Hd Hc'].
  { apply Forall_take. by apply Forall_replicate. }
  rewrite length_replicate in Hc'. exists l'. split; [|by split; [|apply Hc']].
  rewrite Hap. do 2 f_equal.
  assert (Hl : length out = n) by (rewrite <- (length_fmap position), Hpos, length_fmap, length_replicate; done).
  rewrite take_ge in Hd by lia. apply list_eq. intros i.
  destruct (decide (i < n)%nat) as [Hi|Hi]; [|by rewrite !lookup_ge_None_2 by (rewrite ?length_replicate; lia)].
  rewrite lookup_replicate_2 by done. destruct (lookup_lt_is_Some_2 out i) as [o Ho]; [lia|]. rewrite Ho.
  f_equal. assert (Hpo : position o = position q).
  { apply (f_equal (lookup i)) in Hpos. rewrite !list_lookup_fmap, Ho, lookup_replicate_2 in Hpos by done.
    simpl in Hpos. congruence. }
  apply (Forall_lookup_1 _ _ _ _ Hd) in Ho. destruct Ho as (? & ? & ? & ?), Hq as (? & ? & ? & ?).
  destruct o, q. injection Hpo as ? ?. simpl in *. by subst.
Qed.

(** ** Theorem *)

(** Applying the line to a list of chunks, in order. *)
Fixpoint apply_chunks (chunks : list (list LaserPoint)) (l : ColorDelayLine) :
    option (ColorDelayLine * list (list LaserPoint)) :=
  match chunks with
  | [] => Some (l, [])
  | c :: cs =>
      '(l1, out) ← apply_delay c l;
      '(l2, outs) ← apply_chunks cs l1;
      Some (l2, out :: outs)
  end.

(** C35. The colour delay is a delay line across chunk boundaries: whatever the
    chunking, the output colours are the carry followed by the input colours,
    shifted by [delay] points and cut at the input's length; positions and
    length are untouched, and the carry keeps the last [delay] colours. *)
Theorem color_delay_is_a_queue chunks l :
  delay_wf l ->
  exists l' outs, apply_chunks chunks l = Some (l', outs) /\
    let input := mjoin chunks in
    color_of <$> mjoin outs = take (length input) (carry l ++ (color_of <$> input)) /\
    position <$> mjoin outs = position <$> input /\
    carry l' = drop (length input) (carry l ++ (color_of <$> input)) /\ delay_wf l'.
Proof.
  revert l. induction chunks as [|c cs IH]; intros l Hwf.
  - exists l, []. simpl. rewrite take_0, drop_0, app_nil_r. done.
  - destruct (apply_delay_spec l c Hwf) as (l1 & out & Hap & _ & Hwf1 & Hcol & Hcar & Hpos).
    destruct (IH l1 Hwf1) as (l2 & outs & Hac & Hcol2 & Hpos2 & Hcar2 & Hwf2).
    exists l2, (out :: outs). simpl. rewrite Hap. simpl. rewrite Hac. simpl. split; [done|].
    assert (Hq : (carry l1 ++ (color_of <$> mjoin cs)) =
                 drop (length c) (carry l ++ (color_of <$> c ++ mjoin cs))).
    { rewrite Hcar, fmap_app, (app_assoc (carry l)). rewrite (drop_app_le (_ ++ _)); [done|].
      rewrite length_app, length_fmap. lia. }
    rewrite !fmap_app, Hcol, Hcol2, Hpos, Hpos2, Hcar2, length_app, Hq, fmap_app.
    split; [|split; [done|split; [by rewrite drop_drop|done]]].
    rewrite <- (take_drop (length c) (take (length c + _) _)), take_take, Nat.min_l by lia.
    rewrite <- take_drop_commute. f_equal.
    rewrite (app_assoc (carry l)), (take_app_le (_ ++ _)); [done|].
    rewrite length_app, length_fmap. lia.
Qed.

Lemma color_delay_is_a_queue_witness :
  exists l' outs, apply_chunks [[mkLaserPoint f0 f0 1 1 1 1]; [mkLaserPoint f1 f1 2 2 2 2]] (new_delay_line 1) =
      Some (l', outs) /\
    let input := [mkLaserPoint f0 f0 1 1 1 1; mkLaserPoint f1 f1 2 2 2 2] in
    color_of <$> mjoin outs = take 2 ([black] ++ (color_of <$> input)) /\
    position <$> mjoin outs = position <$> input /\
    carry l' = drop 2 ([black] ++ (color_of <$> input)) /\ delay_wf l'.
Proof.
  exact (color_delay_is_a_queue [[mkLaserPoint f0 f0 1 1 1 1]; [mkLaserPoint f1 f1 2 2 2 2]]
           (new_delay_line 1) (delay_wf_new 1)).
Defined.
