(* ===== verification/Session.v ===== *)
(** * Errors and session control

    Models [src/src/error.rs] (the error enum and its classifiers) and
    [src/src/session.rs]: the control handle shared between the user's threads
    and the driver.  The desired arm state is one 64-bit word, bit 0 the state
    and the rest a generation; [set_desired_armed] updates it by a
    compare-exchange loop, which is modelled as a small-step interleaving of
    any number of callers and shown to be atomic. *)

From stdpp Require Import strings.
From S2P Require Import Prelude.

#[local] Open Scope Z_scope.

(** ** Errors *)

Inductive Error :=
  | ErrWouldBlock
  | ErrStopped
  | ErrDisconnected (msg : string)
  | ErrPermissionDenied (msg : string)
  | ErrInvalidConfig (msg : string)
  | ErrBackend (e : string).

Definition is_would_block (e : Error) : bool := match e with ErrWouldBlock => true | _ => false end.

Definition is_disconnected (e : Error) : bool := match e with ErrDisconnected _ => true | _ => false end.

Definition is_permission_denied (e : Error) : bool := match e with ErrPermissionDenied _ => true | _ => false end.

Definition is_stopped (e : Error) : bool := match e with ErrStopped => true | _ => false end.

(** [Result<T>]. *)
Inductive result (T : Type) :=
  | Ok (v : T)
  | Err (e : Error).
Arguments Ok {T} v.
Arguments Err {T} e.

#[export] Instance Error_eq_dec : EqDecision Error.
Proof. solve_decision. Defined.

(** ** Session types *)

Inductive SessionExit :=
  | ExitStopped
  | ExitProducerEnded
  | ExitDisconnected
  | ExitIncompatibleDevice.

Inductive ControlMsg :=
  | MsgArm
  | MsgDisarm
  | MsgStop.

#[export] Instance ControlMsg_eq_dec : EqDecision ControlMsg.
Proof. solve_decision. Defined.

(** [DesiredState], a [u64]. *)
Definition ARMED : Z := 1.

Definition initial_desired : Z := 0.

Definition desired_is_armed (w : Z) : bool := negb (Z.land w ARMED =? 0).

Record RateState := mkRate { rate_pps : Z; rate_min : Z; rate_max : Z }.

(** [SessionControlInner].  The channel is its queue of undelivered messages
    and whether the receiver still exists. *)
Record SessionControl := mkControl {
  desired_state : Z;
  stop_requested : bool;
  control_queue : list ControlMsg;
  receiver_alive : bool;
  control_color_delay : Z;
  rate : RateState;
}.

(** [SessionControl::new_with_pps_bounds]. *)
Definition new_with_pps_bounds (color_delay pps pps_min pps_max : Z) : SessionControl :=
  mkControl 0 false [] true color_delay (mkRate pps pps_min pps_max).

Definition upd_desired (w : Z) (c : SessionControl) : SessionControl :=
  mkControl w (stop_requested c) (control_queue c) (receiver_alive c) (control_color_delay c) (rate c).

Definition upd_queue (q : list ControlMsg) (c : SessionControl) : SessionControl :=
  mkControl (desired_state c) (stop_requested c) q (receiver_alive c) (control_color_delay c) (rate c).

Definition upd_rate (r : RateState) (c : SessionControl) : SessionControl :=
  mkControl (desired_state c) (stop_requested c) (control_queue c) (receiver_alive c) (control_color_delay c) r.

(** [tx.send(msg)]: fails exactly when the receiver is gone. *)
Definition send_msg (m : ControlMsg) (why : string) (c : SessionControl) : SessionControl * result unit :=
  if receiver_alive c then (upd_queue (control_queue c ++ [m]) c, Ok tt) else (c, Err (ErrDisconnected why)).

Definition armed_bit (armed : bool) : Z := if armed then 1 else 0.

(** [(current.wrapping_add(2) & !ARMED) | armed_bit]. *)
Definition next_desired (current : Z) (armed : bool) : Z :=
  Z.lor (Z.ldiff (wrapu 64 (current + 2)) ARMED) (armed_bit armed).

(** The whole effect of the compare-exchange loop when it is not interrupted. *)
Definition set_armed_word (w : Z) (armed : bool) : Z :=
  if Z.land w ARMED =? armed_bit armed then w else next_desired w armed.

Definition set_desired_armed (armed : bool) (m : ControlMsg) (c : SessionControl) : SessionControl * result unit :=
  send_msg m "desired session state recorded, but scheduler notification failed"
    (upd_desired (set_armed_word (desired_state c) armed) c).

Definition arm (c : SessionControl) : SessionControl * result unit := set_desired_armed true MsgArm c.

Definition disarm (c : SessionControl) : SessionControl * result unit := set_desired_armed false MsgDisarm c.

Definition control_is_armed (c : SessionControl) : bool := desired_is_armed (desired_state c).

Definition control_set_color_delay (d : Z) (c : SessionControl) : SessionControl :=
  mkControl (desired_state c) (stop_requested c) (control_queue c) (receiver_alive c) d (rate c).

Definition set_pps (pps : Z) (c : SessionControl) : SessionControl * result unit :=
  if (pps <? rate_min (rate c)) || (rate_max (rate c) <? pps)
  then (c, Err (ErrInvalidConfig "PPS outside active backend range"))
  else (upd_rate (mkRate pps (rate_min (rate c)) (rate_max (rate c))) c, Ok tt).

Definition update_pps_bounds (mn mx : Z) (c : SessionControl) : SessionControl * result unit :=
  if (rate_pps (rate c) <? mn) || (mx <? rate_pps (rate c))
  then (c, Err (ErrInvalidConfig "current PPS outside replacement backend range"))
  else (upd_rate (mkRate (rate_pps (rate c)) mn mx) c, Ok tt).

Definition control_pps (c : SessionControl) : Z := rate_pps (rate c).

Definition stop (c : SessionControl) : SessionControl * result unit :=
  send_msg MsgStop "session stop recorded, but scheduler notification failed"
    (mkControl (desired_state c) true (control_queue c) (receiver_alive c) (control_color_delay c) (rate c)).

(** The calls a user makes on the handle. *)
Inductive ctl_op :=
  | CtlArm
  | CtlDisarm
  | CtlStop
  | CtlSetPps (pps : Z)
  | CtlSetColorDelay (d : Z).

Definition ctl_step (op : ctl_op) (c : SessionControl) : SessionControl :=
  match op with
  | CtlArm => (arm c).1
  | CtlDisarm => (disarm c).1
  | CtlStop => (stop c).1
  | CtlSetPps pps => (set_pps pps c).1
  | CtlSetColorDelay d => control_set_color_delay d c
  end.

Definition ctl_run (ops : list ctl_op) (c : SessionControl) : SessionControl := foldl (fun c op => ctl_step op c) c ops.

(** ** The desired word *)

Definition gen (w : Z) : Z := w / 2.

Lemma desired_is_armed_odd w : desired_is_armed w = Z.odd w.
Proof.
  unfold desired_is_armed, ARMED. change 1 with (Z.ones 1). rewrite Z.land_ones by lia.
  rewrite Z.pow_1_r, Zmod_odd. by destruct (Z.odd w).
Qed.

Lemma land_armed w : Z.land w ARMED = armed_bit (Z.odd w).
Proof. unfold ARMED. change 1 with (Z.ones 1). rewrite Z.land_ones by lia. rewrite Z.pow_1_r, Zmod_odd. done. Qed.

Lemma set_armed_word_eq w armed :
  set_armed_word w armed = if eqb (Z.odd w) armed then w else next_desired w armed.
Proof. unfold set_armed_word. rewrite land_armed. by destruct (Z.odd w), armed. Qed.

(** An edge advances the generation by one (modulo 2^63) and sets bit 0. *)
Lemma next_desired_eq w armed :
  in_u 64 w -> next_desired w armed = 2 * ((gen w + 1) mod 2 ^ 63) + armed_bit armed.
Proof.
  intros Hw. unfold next_desired, gen, ARMED, wrapu.
  assert (Hsplit : (w + 2) mod 2 ^ 64 = 2 * ((w / 2 + 1) mod 2 ^ 63) + w mod 2).
  { rewrite (Z.div_mod w 2) at 1 by lia.
    replace (2 * (w / 2) + w mod 2 + 2) with (2 * (w / 2 + 1) + w mod 2) by lia.
    replace (2 ^ 64) with (2 * 2 ^ 63) by lia. pose proof (Z.mod_pos_bound w 2).
    pose proof (Z.div_mod (w / 2 + 1) (2 ^ 63)). pose proof (Z.mod_pos_bound (w / 2 + 1) (2 ^ 63)).
    symmetry. apply Z.mod_unique with (q := (w / 2 + 1) / 2 ^ 63); lia. }
  rewrite Hsplit. set (g := (w / 2 + 1) mod 2 ^ 63). pose proof (Z.mod_pos_bound w 2).
  assert (Hld : Z.ldiff (2 * g + w mod 2) 1 = 2 * g).
  { apply Z.bits_inj'. intros n Hn. rewrite Z.ldiff_spec. destruct (decide (n = 0)) as [->|].
    - change (Z.testbit 1 0) with true. rewrite andb_false_r. rewrite Z.testbit_even_0. done.
    - replace n with (Z.succ (n - 1)) by lia. rewrite Z.testbit_even_succ by lia.
      change 1 with (2 * 0 + 1) at 3. rewrite (Z.testbit_odd_succ 0), Z.bits_0, andb_true_r by lia.
      destruct (decide (w mod 2 = 0)) as [->|].
      + rewrite Z.add_0_r. by rewrite Z.testbit_even_succ by lia.
      + replace (w mod 2) with 1 by lia. by rewrite Z.testbit_odd_succ by lia. }
  rewrite Hld. destruct armed; simpl; [|by rewrite Z.lor_0_r, Z.add_0_r].
  apply Z.bits_inj'. intros n Hn. rewrite Z.lor_spec. destruct (decide (n = 0)) as [->|].
  - rewrite Z.testbit_even_0, Z.testbit_odd_0. done.
  - replace n with (Z.succ (n - 1)) by lia. rewrite Z.testbit_even_succ, Z.testbit_odd_succ by lia.
    change 1 with (2 * 0 + 1) at 2. rewrite Z.testbit_odd_succ by lia. by rewrite Z.bits_0, orb_false_r.
Qed.

Lemma next_desired_facts w armed :
  in_u 64 w ->
  in_u 64 (next_desired w armed) /\ Z.odd (next_desired w armed) = armed /\
  gen (next_desired w armed) = (gen w + 1) mod 2 ^ 63.
Proof.
  intros Hw. rewrite next_desired_eq by done.
  pose proof (Z.mod_pos_bound (gen w + 1) (2 ^ 63)). set (g := (gen w + 1) mod 2 ^ 63) in *.
  split; [|split].
  - unfold in_u, umax. destruct armed; simpl; lia.
  - rewrite Z.odd_add, Z.odd_mul. by destruct armed.
  - unfold gen. destruct armed; simpl; Z.to_euclidean_division_equations; lia.
Qed.

Lemma set_armed_word_facts w armed :
  in_u 64 w -> in_u 64 (set_armed_word w armed) /\ Z.odd (set_armed_word w armed) = armed.
Proof.
  intros Hw. rewrite set_armed_word_eq. pose proof (next_desired_facts w armed Hw).
  destruct (Z.odd w) eqn:Ho, armed; simpl; naive_solver.
Qed.

(** Whether a call is an edge on the current word, and how many of a list are. *)
Definition edge_of (w : Z) (op : ctl_op) : bool :=
  match op with
  | CtlArm => negb (Z.odd w)
  | CtlDisarm => Z.odd w
  | _ => false
  end.

Fixpoint edges (ops : list ctl_op) (c : SessionControl) : Z :=
  match ops with
  | [] => 0
  | op :: ops => (if edge_of (desired_state c) op then 1 else 0) + edges ops (ctl_step op c)
  end.

Lemma send_desired m why c : desired_state (send_msg m why c).1 = desired_state c.
Proof. unfold send_msg. by destruct (receiver_alive c). Qed.

Lemma ctl_step_desired op c :
  desired_state (ctl_step op c) =
    match op with
    | CtlArm => set_armed_word (desired_state c) true
    | CtlDisarm => set_armed_word (desired_state c) false
    | _ => desired_state c
    end.
Proof.
  destruct op; simpl; unfold arm, disarm, set_desired_armed, stop, set_pps; rewrite ?send_desired; try done.
  by destruct (_ || _).
Qed.

Lemma ctl_step_gen op c :
  in_u 64 (desired_state c) ->
  in_u 64 (desired_state (ctl_step op c)) /\
  gen (desired_state (ctl_step op c)) =
    (gen (desired_state c) + if edge_of (desired_state c) op then 1 else 0) mod 2 ^ 63.
Proof.
  intros Hw. rewrite ctl_step_desired.
  assert (Hg : gen (desired_state c) = (gen (desired_state c) + 0) mod 2 ^ 63).
  { rewrite Z.mod_small; unfold in_u, umax, gen in *; Z.to_euclidean_division_equations; lia. }
  assert (Hset : forall b, in_u 64 (set_armed_word (desired_state c) b) /\
            gen (set_armed_word (desired_state c) b) =
              (gen (desired_state c) + if eqb (Z.odd (desired_state c)) b then 0 else 1) mod 2 ^ 63).
  { intros b. rewrite set_armed_word_eq. destruct (eqb _ _); [done|].
    by destruct (next_desired_facts (desired_state c) b Hw) as (? & _ & ->). }
  destruct op; simpl; try done.
  - destruct (Hset true) as [? ->]. by destruct (Z.odd _).
  - destruct (Hset false) as [? ->]. by destruct (Z.odd _).
Qed.

Lemma ctl_run_gen ops c :
  in_u 64 (desired_state c) ->
  in_u 64 (desired_state (ctl_run ops c)) /\ 0 <= edges ops c /\
  gen (desired_state (ctl_run ops c)) = (gen (desired_state c) + edges ops c) mod 2 ^ 63.
Proof.
  revert c. induction ops as [|op ops IH]; intros c Hw.
  - simpl. split; [done|]. split; [lia|]. rewrite Z.mod_small; [lia|].
    unfold in_u, umax, gen in *. Z.to_euclidean_division_equations; lia.
  - destruct (ctl_step_gen op c Hw) as [Hw' Hg]. destruct (IH (ctl_step op c) Hw') as (H1 & H2 & H3).
    simpl. change (ctl_run (op :: ops) c) with (ctl_run ops (ctl_step op c)).
    split; [done|]. split; [destruct (edge_of _ _); lia|].
    rewrite H3, Hg, Zplus_mod_idemp_l. f_equal. lia.
Qed.

(** Two equal words with fewer than 2^63 edges in between: there was no edge. *)
Lemma same_word_no_edge ops c :
  in_u 64 (desired_state c) -> edges ops c < 2 ^ 63 ->
  desired_state (ctl_run ops c) = desired_state c -> edges ops c = 0.
Proof.
  intros Hw He Heq. destruct (ctl_run_gen ops c Hw) as (_ & H0 & Hg). rewrite Heq in Hg.
  assert (0 <= gen (desired_state c) < 2 ^ 63)
    by (unfold in_u, umax, gen in *; Z.to_euclidean_division_equations; lia).
  destruct (decide (gen (desired_state c) + edges ops c < 2 ^ 63)).
  - rewrite Z.mod_small in Hg by lia. lia.
  - rewrite <- (Z.mod_unique (gen (desired_state c) + edges ops c) (2 ^ 63) 1
      (gen (desired_state c) + edges ops c - 2 ^ 63)) in Hg by lia. lia.
Qed.

Lemma no_edge_same_word ops c : in_u 64 (desired_state c) -> edges ops c = 0 -> desired_state (ctl_run ops c) = desired_state c.
Proof.
  revert c. induction ops as [|op ops IH]; intros c Hw He; [done|].
  destruct (ctl_step_gen op c Hw) as [Hw' _]. destruct (ctl_run_gen ops (ctl_step op c) Hw') as (_ & H0 & _).
  simpl in He. change (ctl_run (op :: ops) c) with (ctl_run ops (ctl_step op c)).
  assert (Hop : edge_of (desired_state c) op = false) by (destruct (edge_of _ _); [lia|done]).
  rewrite Hop in He. rewrite IH by (done || lia). rewrite ctl_step_desired. unfold edge_of in Hop.
  destruct op; rewrite ?set_armed_word_eq; try done; by destruct (Z.odd _).
Qed.

(** ** Concurrent callers

    One call of [set_desired_armed] per thread; the atomic actions are the
    initial load, each compare-exchange and the send.  The thread-local test of
    the loop runs with the access that produced the value it tests.  The label
    of a step is the requested state when the call takes effect there. *)
Inductive pc :=
  | PcLoad (armed : bool)
  | PcCas (armed : bool) (current : Z)
  | PcSend (armed : bool)
  | PcDone (r : result unit).

Definition observe (armed : bool) (w : Z) : pc * option bool :=
  if Z.land w ARMED =? armed_bit armed then (PcSend armed, Some armed) else (PcCas armed w, None).

Definition msg_of (armed : bool) : ControlMsg := if armed then MsgArm else MsgDisarm.

Definition thread_step (t : pc) (c : SessionControl) : pc * SessionControl * option bool :=
  match t with
  | PcLoad armed => let '(t, l) := observe armed (desired_state c) in (t, c, l)
  | PcCas armed current =>
      if decide (desired_state c = current)
      then (PcSend armed, upd_desired (next_desired current armed) c, Some armed)
      else let '(t, l) := observe armed (desired_state c) in (t, c, l)
  | PcSend armed =>
      let '(c, r) := send_msg (msg_of armed)
        "desired session state recorded, but scheduler notification failed" c in
      (PcDone r, c, None)
  | PcDone r => (PcDone r, c, None)
  end.

(** Run the threads in the order of a schedule; the labels are collected with
    their thread. *)
Fixpoint run_threads (sched : list nat) (ts : list pc) (c : SessionControl) :
    list pc * SessionControl * list (nat * bool) :=
  match sched with
  | [] => (ts, c, [])
  | i :: sched =>
      match ts !! i with
      | None => run_threads sched ts c
      | Some t =>
          let '(t', c', l) := thread_step t c in
          let '(ts2, c2, ls) := run_threads sched (<[i:=t']> ts) c' in
          (ts2, c2, match l with Some b => (i, b) :: ls | None => ls end)
      end
  end.

(** The calls that took effect, of one thread. *)
Definition effects_of (i : nat) (ls : list (nat * bool)) : list bool :=
  (filter (fun l => l.1 = i) ls).*2.

(** What a thread has still to contribute. *)
Definition pending_effect (t : pc) : list bool :=
  match t with PcLoad armed | PcCas armed _ => [armed] | _ => [] end.

Definition pc_wf (t : pc) : Prop :=
  match t with PcCas armed current => Z.land current ARMED <> armed_bit armed | _ => True end.

Lemma thread_step_spec t c :
  pc_wf t ->
  let '(t', c', l) := thread_step t c in
  pc_wf t' /\
  desired_state c' = match l with Some b => set_armed_word (desired_state c) b | None => desired_state c end /\
  pending_effect t = option_list l ++ pending_effect t'.
Proof.
  intros Hwf. destruct t as [armed|armed current|armed|r]; simpl.
  - unfold observe, set_armed_word. destruct (_ =? _) eqn:He; simpl; [by rewrite He|].
    apply Z.eqb_neq in He. done.
  - simpl in Hwf. case_decide as Hd.
    + simpl. unfold set_armed_word. rewrite Hd. apply Z.eqb_neq in Hwf. by rewrite Hwf.
    + unfold observe, set_armed_word. destruct (_ =? _) eqn:He; simpl; [by rewrite He|].
      apply Z.eqb_neq in He. done.
  - pose proof (send_desired (msg_of armed)
      "desired session state recorded, but scheduler notification failed" c) as Hs.
    destruct (send_msg _ _ c) as [c' r]. by simpl in *.
  - done.
Qed.

Lemma run_threads_spec sched : forall ts c,
  Forall pc_wf ts ->
  let '(ts', c', ls) := run_threads sched ts c in
  desired_state c' = foldl set_armed_word (desired_state c) ls.*2 /\
  forall i, pending_effect <$> ts !! i = (fun t => effects_of i ls ++ pending_effect t) <$> ts' !! i.
Proof.
  induction sched as [|i sched IH]; intros ts c Hwf; simpl.
  { split; [done|]. intros i. by destruct (ts !! i). }
  destruct (ts !! i) as [t|] eqn:Ht; [|by apply IH].
  pose proof (thread_step_spec t c) as Hs. destruct (thread_step t c) as [[t' c'] l].
  destruct Hs as (Hwf' & Hd & Hp); [by eapply Forall_lookup_1|].
  specialize (IH (<[i:=t']> ts) c'). destruct (run_threads sched (<[i:=t']> ts) c') as [[ts2 c2] ls].
  destruct IH as [Hd2 Hp2]; [by apply Forall_insert|].
  split.
  - rewrite Hd2, Hd. by destruct l.
  - intros j. specialize (Hp2 j). unfold effects_of in *. destruct (decide (i = j)) as [<-|Hne].
    + rewrite list_lookup_insert_eq in Hp2 by (by eapply lookup_lt_Some). rewrite Ht. simpl. rewrite Hp.
      destruct (ts2 !! i) as [t2|]; simpl in Hp2; [|done]. injection Hp2 as Hp2. rewrite Hp2. simpl.
      destruct l as [b|]; simpl; [|done]. by rewrite filter_cons_True.
    + rewrite list_lookup_insert_ne in Hp2 by done. rewrite Hp2.
      destruct l as [b|]; [|done]. by rewrite filter_cons_False.
Qed.

(** ** Theorems *)

(** C11. Arming is atomic under concurrency: for any number of threads calling
    [arm] or [disarm] at once and any interleaving of their loads,
    compare-exchanges and sends, the desired word is the one obtained by running
    the calls that took effect one after the other, each call takes effect at
    most once and with its own requested state, and a call that has sent its
    notification took effect exactly once. *)
Theorem set_desired_armed_linearizable sched (reqs : list bool) c :
  let '(ts', c', ls) := run_threads sched (PcLoad <$> reqs) c in
  desired_state c' = foldl set_armed_word (desired_state c) ls.*2 /\
  forall i armed, reqs !! i = Some armed ->
    match ts' !! i with
    | Some (PcSend _ | PcDone _) => effects_of i ls = [armed]
    | Some (PcLoad _ | PcCas _ _) => effects_of i ls = []
    | None => False
    end.
Proof.
  pose proof (run_threads_spec sched (PcLoad <$> reqs) c) as Hs.
  destruct (run_threads _ _ _) as [[ts' c'] ls]. destruct Hs as [Hd Hp].
  { apply Forall_fmap. by apply Forall_true. }
  split; [done|]. intros i armed Hi. specialize (Hp i). rewrite list_lookup_fmap, Hi in Hp. simpl in Hp.
  destruct (ts' !! i) as [t|]; simpl in Hp; [|done]. injection Hp as Hp.
  destruct t; simpl in Hp; rewrite ?app_nil_r in Hp; try done.
  all: destruct (effects_of i ls) as [|b [|b' l]] eqn:He; [done|discriminate Hp..].
Qed.

Lemma set_desired_armed_linearizable_witness :
  match run_threads [0; 1; 0; 1; 2; 0; 1; 1; 2]%nat (PcLoad <$> [true; true; false])
          (new_with_pps_bounds 0 30000 1000 60000) with
  | (ts', c', ls) =>
      (desired_state c' = foldl set_armed_word 0 ls.*2) /\ desired_state c' = 4 /\
      effects_of 0 ls = [true] /\ effects_of 1 ls = [true] /\ effects_of 2 ls = [false]
  end.
Proof.
  pose proof (set_desired_armed_linearizable [0; 1; 0; 1; 2; 0; 1; 1; 2]%nat [true; true; false]
    (new_with_pps_bounds 0 30000 1000 60000)) as [H1 H2].
  split; [exact H1|]. split; [reflexivity|].
  split; [exact (H2 0%nat true eq_refl)|]. split; [exact (H2 1%nat true eq_refl)|exact (H2 2%nat false eq_refl)].
Defined.

(** The generation detects every edge: whatever calls other threads make
    between two reads of the desired word, as long as they contain fewer than
    2^63 arm/disarm edges, the two reads are equal exactly when there was no
    edge in between (an arm/disarm pair is never missed). *)
Theorem generation_detects_edges ops c :
  in_u 64 (desired_state c) -> edges ops c < 2 ^ 63 ->
  desired_state (ctl_run ops c) = desired_state c <-> edges ops c = 0.
Proof. intros Hw He. split; [by apply same_word_no_edge|by apply no_edge_same_word]. Qed.

Lemma generation_detects_edges_witness :
  let c := new_with_pps_bounds 0 30000 1000 60000 in
  edges [CtlArm; CtlSetPps 20000; CtlDisarm] c = 2 /\
  (desired_state (ctl_run [CtlArm; CtlSetPps 20000; CtlDisarm] c) = 0 <-> edges [CtlArm; CtlSetPps 20000; CtlDisarm] c = 0).
Proof.
  split; [reflexivity|].
  apply (generation_detects_edges [CtlArm; CtlSetPps 20000; CtlDisarm] (new_with_pps_bounds 0 30000 1000 60000)).
  - vm_compute. split; discriminate.
  - vm_compute. reflexivity.
Defined.

(** The rate invariant. *)
Definition rate_wf (c : SessionControl) : Prop := rate_min (rate c) <= rate_pps (rate c) <= rate_max (rate c).

(** The two ways the rate lock is taken for writing. *)
Inductive rate_op :=
  | RateSet (pps : Z)
  | RateBounds (mn mx : Z).

Definition rate_step (op : rate_op) (c : SessionControl) : SessionControl * result unit :=
  match op with
  | RateSet pps => set_pps pps c
  | RateBounds mn mx => update_pps_bounds mn mx c
  end.

(** The active point rate always lies in the active backend's range: both
    writers of the rate either reject, leaving the control unchanged, or
    succeed and leave a rate inside the bounds; they reject exactly the
    out-of-range requests. *)
Theorem rate_stays_in_bounds op c :
  rate_wf c ->
  rate_wf (rate_step op c).1 /\
  match (rate_step op c).2 with
  | Ok _ => match op with
            | RateSet pps => rate_min (rate c) <= pps <= rate_max (rate c) /\ control_pps (rate_step op c).1 = pps
            | RateBounds mn mx => mn <= control_pps c <= mx /\ control_pps (rate_step op c).1 = control_pps c
            end
  | Err e => (rate_step op c).1 = c /\
            match op with
            | RateSet pps => pps < rate_min (rate c) \/ rate_max (rate c) < pps
            | RateBounds mn mx => control_pps c < mn \/ mx < control_pps c
            end
  end.
Proof.
  intros Hwf. unfold rate_wf, control_pps in *.
  destruct op; simpl; unfold set_pps, update_pps_bounds;
    (destruct (_ || _) eqn:Hb; simpl;
      [apply orb_true_iff in Hb; rewrite !Z.ltb_lt in Hb|apply orb_false_iff in Hb; rewrite !Z.ltb_ge in Hb]);
    repeat split; lia || done.
Qed.

Lemma rate_stays_in_bounds_witness :
  let c := new_with_pps_bounds 0 30000 1000 60000 in
  rate_wf c /\ rate_wf (rate_step (RateBounds 20000 40000) c).1.
Proof.
  assert (H : rate_wf (new_with_pps_bounds 0 30000 1000 60000)) by (vm_compute; split; discriminate).
  split; [exact H|]. exact (proj1 (rate_stays_in_bounds (RateBounds 20000 40000) _ H)).
Defined.
