(* ===== verification/Backend.v ===== *)
(** * Devices and backends

    Models the device descriptions of [src/src/device.rs], the backend traits
    and the type-erased [BackendKind] of [src/src/backend.rs], and the
    [std::time::Duration] conversions the adapters use.  The traits are the
    seam to hardware: they are classes, so every theorem of the scheduler holds
    for any backend. *)

From stdpp Require Import strings.
From S2P Require Import Prelude Floats Point Presentation Session.

#[local] Open Scope Z_scope.

(** ** Durations as floating-point seconds *)

(** [num / den] rounded to the nearest integer, ties to even ([den > 0]). *)
Definition round_half_even (num den : Z) : Z :=
  let q := num / den in
  let r := num mod den in
  if 2 * r <? den then q else if den <? 2 * r then q + 1 else if Z.even q then q else q + 1.

(** [Duration::from_secs_f64]: nanoseconds; panics on negative values, NaN and
    more than [u64::MAX] seconds. *)
Definition from_secs_f64 (x : F64.t) : option Z :=
  match x with
  | SpecFloat.S754_zero _ => Some 0
  | SpecFloat.S754_finite false m e =>
      let ns := if 0 <=? e then Zpos m * 2 ^ e * NANOS_PER_SEC else round_half_even (Zpos m * NANOS_PER_SEC) (2 ^ (- e)) in
      if ns / NANOS_PER_SEC <=? umax 64 then Some ns else None
  | _ => None
  end.

(** [Duration::as_secs_f64]. *)
Definition as_secs_f64 (d : Z) : F64.t :=
  F64.add (F64.of_int (as_secs d)) (F64.div (F64.of_int (subsec_nanos d)) (F64.of_int NANOS_PER_SEC)).

Definition millis (n : Z) : Z := n * 1000000.

Definition micros (n : Z) : Z := n * 1000.

(** ** Device descriptions *)

Inductive OutputModel :=
  | UsbFrameSwap
  | NetworkFifo
  | UdpTimed
  | BlockingFifo.

#[export] Instance OutputModel_eq_dec : EqDecision OutputModel.
Proof. solve_decision. Defined.

Inductive DacType :=
  | Helios
  | EtherDream
  | Idn
  | LaserCubeNetwork
  | LaserCubeUsb
  | Oscilloscope
  | Avb
  | Custom (name : string).

Record DacCapabilities := mkCaps {
  pps_min : Z;
  pps_max : Z;
  max_points_per_chunk : Z;
  output_model : OutputModel;
}.

Definition default_caps : DacCapabilities := mkCaps 1 100000 4096 NetworkFifo.

Record DacInfo := mkInfo {
  info_id : string;
  info_name : string;
  info_kind : DacType;
  info_caps : DacCapabilities;
}.

(** ** Backend traits *)

Inductive WriteOutcome :=
  | Written
  | WouldBlock.

#[export] Instance WriteOutcome_eq_dec : EqDecision WriteOutcome.
Proof. solve_decision. Defined.

(** [DacBackend]; a command returns the new backend state and its result. *)
Class DacBackend (B : Type) := {
  backend_caps : B -> DacCapabilities;
  backend_connect : B -> B * result unit;
  backend_disconnect : B -> B * result unit;
  backend_is_connected : B -> bool;
  backend_stop : B -> B * result unit;
  backend_set_shutter : bool -> B -> B * result unit;
}.

(** [FifoBackend], with the two methods of its [BufferEstimator]. *)
Class FifoBackend (B : Type) := {
  #[global] fifo_dac :: DacBackend B;
  try_write_points : Z -> list LaserPoint -> B -> B * result WriteOutcome;
  needs_clock : B -> bool;
  estimated_fullness : B -> Z -> Z -> Z;
  fifo_target_buffer_ceiling : B -> option Z;
  fifo_reset_device_buffer : B -> B * result unit;
}.

(** [FrameSwapBackend]. *)
Class FrameSwapBackend (B : Type) := {
  #[global] frame_dac :: DacBackend B;
  swap_frame_capacity : B -> nat;
  swap_is_ready_for_frame : B -> B * bool;
  write_frame : Z -> list LaserPoint -> B -> B * result WriteOutcome;
  swap_write_frame_after_ready : Z -> list LaserPoint -> B -> B * result WriteOutcome;
}.

(** ** BackendKind *)
Inductive BackendKind (FB SB : Type) :=
  | Fifo (b : FB)
  | FrameSwap (b : SB).
Arguments Fifo {FB SB} b.
Arguments FrameSwap {FB SB} b.

Section kind.
Context {FB SB : Type} `{FifoBackend FB} `{FrameSwapBackend SB}.
Implicit Types k : BackendKind FB SB.

(** Run a command of the wrapped backend. *)
Definition on_kind {R} (f : FB -> FB * R) (g : SB -> SB * R) k : BackendKind FB SB * R :=
  match k with
  | Fifo b => let '(b, r) := f b in (Fifo b, r)
  | FrameSwap b => let '(b, r) := g b in (FrameSwap b, r)
  end.

Definition caps k : DacCapabilities :=
  match k with Fifo b => backend_caps b | FrameSwap b => backend_caps b end.

Definition is_frame_swap k : bool := match k with FrameSwap _ => true | Fifo _ => false end.

Definition validate_output_model k : result unit :=
  let caps_frame_swap := bool_decide (output_model (caps k) = UsbFrameSwap) in
  if eqb caps_frame_swap (is_frame_swap k) then Ok tt
  else Err (ErrInvalidConfig "backend kind disagrees with output model").

Definition disconnect k : BackendKind FB SB * result unit := on_kind backend_disconnect backend_disconnect k.

Definition is_connected k : bool :=
  match k with Fifo b => backend_is_connected b | FrameSwap b => backend_is_connected b end.

Definition connect k : BackendKind FB SB * result unit :=
  match validate_output_model k with
  | Err e => (k, Err e)
  | Ok _ =>
      let '(k, r) := on_kind backend_connect backend_connect k in
      match r with
      | Err e => (k, Err e)
      | Ok _ =>
          match validate_output_model k with
          | Ok _ => (k, Ok tt)
          | Err invariant_err =>
              let '(k, cleanup) := disconnect k in
              (k, match cleanup with
                  | Ok _ => Err invariant_err
                  | Err _ => Err (ErrInvalidConfig "disconnect after invariant violation also failed")
                  end)
          end
      end
  end.

Definition stop_backend k : BackendKind FB SB * result unit := on_kind backend_stop backend_stop k.

Definition set_shutter (open : bool) k : BackendKind FB SB * result unit :=
  on_kind (backend_set_shutter open) (backend_set_shutter open) k.

Definition close_and_disconnect k : BackendKind FB SB :=
  let '(k, _) := set_shutter false k in (disconnect k).1.

Definition try_write (pps : Z) (points : list LaserPoint) k : BackendKind FB SB * result WriteOutcome :=
  on_kind (try_write_points pps points) (write_frame pps points) k.

Definition write_frame_after_ready (pps : Z) (points : list LaserPoint) k : BackendKind FB SB * result WriteOutcome :=
  match k with
  | FrameSwap b => let '(b, r) := swap_write_frame_after_ready pps points b in (FrameSwap b, r)
  | Fifo _ => (k, Err (ErrInvalidConfig "write_frame_after_ready called on a FIFO backend"))
  end.

Definition target_buffer_ceiling k : option Z :=
  match k with Fifo b => fifo_target_buffer_ceiling b | FrameSwap _ => None end.

Definition reset_device_buffer k : BackendKind FB SB * result unit :=
  on_kind fifo_reset_device_buffer (fun b => (b, Ok tt)) k.

Definition is_ready_for_frame k : BackendKind FB SB * result bool :=
  match k with
  | FrameSwap b => let '(b, r) := swap_is_ready_for_frame b in (FrameSwap b, Ok r)
  | Fifo _ => (k, Err (ErrInvalidConfig "frame readiness queried on a FIFO backend"))
  end.

Definition frame_capacity k : option nat :=
  match k with Fifo _ => None | FrameSwap b => Some (swap_frame_capacity b) end.

(** The public constructors only build a kind whose output model agrees. *)
Definition fifo (b : FB) : result (BackendKind FB SB) :=
  match validate_output_model (Fifo b) with Ok _ => Ok (Fifo b) | Err e => Err e end.

Definition frame_swap (b : SB) : result (BackendKind FB SB) :=
  match validate_output_model (FrameSwap b) with Ok _ => Ok (FrameSwap b) | Err e => Err e end.

(** ** Lemmas *)

Lemma on_kind_frame_swap {R} (f : FB -> FB * R) (g : SB -> SB * R) k : is_frame_swap (on_kind f g k).1 = is_frame_swap k.
Proof. destruct k as [b|b]; simpl; [by destruct (f b)|by destruct (g b)]. Qed.

Lemma validate_ok k :
  validate_output_model k = Ok tt <-> (output_model (caps k) = UsbFrameSwap <-> is_frame_swap k = true).
Proof.
  unfold validate_output_model. destruct (bool_decide_reflect (output_model (caps k) = UsbFrameSwap)) as [He|He];
    destruct (is_frame_swap k) eqn:Hk; simpl; rewrite ?Hk; naive_solver.
Qed.

(** A connected backend's output model agrees with its kind: when [connect]
    succeeds the live capabilities match the wrapper (frame swap exactly for
    [UsbFrameSwap]), even if the driver reported a different model after
    connecting; when they disagree, the backend is disconnected again and an
    error is returned; and the kind never changes. *)
Theorem connect_output_model k :
  is_frame_swap (connect k).1 = is_frame_swap k /\
  match (connect k).2 with
  | Ok _ => output_model (caps (connect k).1) = UsbFrameSwap <-> is_frame_swap k = true
  | Err _ => validate_output_model k <> Ok tt /\ (connect k).1 = k \/
      let k1 := on_kind backend_connect backend_connect k in
      (exists e, k1.2 = Err e) /\ (connect k).1 = k1.1 \/
      let k1 := on_kind backend_connect backend_connect k in
      validate_output_model k1.1 <> Ok tt /\ (connect k).1 = (disconnect k1.1).1
  end.
Proof.
  unfold connect. destruct (validate_output_model k) as [[]|e] eqn:Hv; simpl; [|split; [done|by left]].
  pose proof (on_kind_frame_swap backend_connect backend_connect k) as Hk.
  destruct (on_kind backend_connect backend_connect k) as [k1 r] eqn:Hc. simpl in Hk.
  destruct r as [u|e]; simpl; [|split; [done|]; right; left; by split; [exists e|]].
  destruct (validate_output_model k1) as [[]|e] eqn:Hv1; simpl.
  - split; [done|]. rewrite <- Hk. by apply validate_ok.
  - pose proof (on_kind_frame_swap backend_disconnect backend_disconnect k1) as Hd.
    unfold disconnect. destruct (on_kind backend_disconnect backend_disconnect k1) as [k2 c]. simpl in Hd.
    simpl. split; [congruence|]. destruct c; simpl; right; right; split; congruence.
Qed.
End kind.
