(* ===== verification/ContentSource.v ===== *)
(** * The content-source interfaces

    Models the traits [FifoContentSource] and [FrameContentSource] of
    [src/src/presentation/content_source.rs]: the seam between the point
    producers (SlicePipeline, ChunkProducer) and the output-model adapters and
    driver.  The classes hold the operations; [FifoContentSourceLaws] states the
    cache contract of the module's documentation, which the producers discharge
    and the adapters rely on. *)

From S2P Require Import Prelude Floats Point Presentation Session.

(** Operations of a FIFO source.  [None] is a panic.  The first argument of
    [produce_chunk] is the colour delay stored in the session control at the
    time of the call: ChunkProducer reads it through its own handle.
    [src_on_reconnect] takes the new device's [max_points_per_chunk], the only
    part of the device information a source looks at. *)
Class FifoContentSource (S : Type) := {
  produce_chunk : Z -> nat -> Z -> bool -> S -> option (S * list LaserPoint);
  cached_slice : S -> option (list LaserPoint);
  commit_written : nat -> bool -> S -> option S;
  discard_cached : S -> S;
  reserve_buf : nat -> S -> S;
  src_on_reconnect : nat -> S -> S;
  is_ended : S -> bool;
  src_submit_frame : Frame -> S -> S;
  src_arm_startup_blank : Z -> S -> S;
  src_on_disarm : S -> S;
  src_reset_output_filter : OutputResetReason -> S -> S;
  src_set_color_delay : Z -> S -> S;
  take_stop_error : S -> S * option Error;
}.

(** Operations of a whole-frame source. *)
Class FrameContentSource (S : Type) := {
  produce_frame : Z -> bool -> S -> option (S * list LaserPoint);
  frame_cached_slice : S -> option (list LaserPoint);
  frame_commit_written : nat -> bool -> S -> S;
  frame_discard_cached : S -> S;
  frame_on_reconnect : nat -> S -> S;
  frame_set_frame_capacity : option nat -> S -> S;
  frame_submit_frame : Frame -> S -> S;
  frame_arm_startup_blank : Z -> S -> S;
  frame_on_disarm : S -> S;
  frame_reset_output_filter : OutputResetReason -> S -> S;
  frame_set_color_delay : Z -> S -> S;
}.

(** The cache contract. *)
Class FifoContentSourceLaws (S : Type) `{FifoContentSource S} := {
  source_wf : S -> Prop;
  (** producing never panics and respects the requested size *)
  produce_total delay target pps armed s : source_wf s ->
    exists s' slice, produce_chunk delay target pps armed s = Some (s', slice) /\
      source_wf s' /\ (length slice <= target)%nat;
  (** a non-empty slice is cached: the retry reads the same points *)
  produce_caches delay target pps armed s s' slice : source_wf s ->
    produce_chunk delay target pps armed s = Some (s', slice) -> slice <> [] ->
    cached_slice s' = Some slice;
  (** committing never panics; committing and discarding both empty the cache *)
  commit_total n armed s : source_wf s ->
    exists s', commit_written n armed s = Some s' /\ source_wf s' /\ cached_slice s' = None;
  discard_clears s : cached_slice (discard_cached s) = None;
  discard_wf s : source_wf s -> source_wf (discard_cached s);
  reserve_wf n s : source_wf s -> source_wf (reserve_buf n s);
  (** reserving capacity does not touch a cached slice *)
  reserve_keeps_cache n s : source_wf s -> cached_slice (reserve_buf n s) = cached_slice s;
  (** reconnecting drops the cache: no stale slice reaches the new device *)
  reconnect_clears n s : source_wf s -> cached_slice (src_on_reconnect n s) = None;
  reconnect_wf n s : source_wf s -> source_wf (src_on_reconnect n s);
  (** the remaining lifecycle operations keep the source well formed *)
  lifecycle_wf s : source_wf s ->
    (forall fr, source_wf (src_submit_frame fr s)) /\ (forall pps, source_wf (src_arm_startup_blank pps s)) /\
    source_wf (src_on_disarm s) /\ (forall r, source_wf (src_reset_output_filter r s)) /\
    (forall d, source_wf (src_set_color_delay d s)) /\ source_wf (take_stop_error s).1;
}.

(** A user-supplied [OutputFilter]: its state, its reset hook and its in-place
    transformation of a slice. *)
Class OutputFilter (F : Type) := {
  filter_reset : OutputResetReason -> F -> F;
  filter_points : list LaserPoint -> OutputFilterContext -> F -> F * list LaserPoint;
}.

(** A slice is transformed in place: the filter cannot change its length. *)
Class OutputFilterOk (F : Type) `{OutputFilter F} :=
  filter_length pts ctx f : length (filter_points pts ctx f).2 = length pts.

(** [apply_blanking] of [slice_pipeline.rs], and the first half of
    [ChunkProducer::apply_blanking_and_color_delay]: the blanked slice and the
    startup-blank points still to come. *)
Definition apply_blanking (is_armed : bool) (remaining : nat) (buffer : list LaserPoint)
    (policy : IdlePolicy) : nat * list LaserPoint :=
  if negb is_armed then (remaining, replicate (length buffer) (park_point policy))
  else if decide (0 < remaining)%nat then
    let k := Nat.min (length buffer) remaining in
    ((remaining - k)%nat, blank_prefix (take k buffer) ++ drop k buffer)
  else (remaining, buffer).

Lemma apply_blanking_length armed remaining buffer policy :
  length (apply_blanking armed remaining buffer policy).2 = length buffer.
Proof.
  unfold apply_blanking. destruct armed; simpl; [|by rewrite length_replicate].
  case_decide; simpl; [|done]. unfold blank_prefix.
  rewrite length_app, length_fmap, <- length_app. by rewrite take_drop.
Qed.

(** Resize a buffer to at least [n] points ([Vec::resize] with the default). *)
Definition grow_buf (n : nat) (buf : list LaserPoint) : list LaserPoint :=
  if decide (length buf < n)%nat then buf ++ replicate (n - length buf) default_point else buf.

Lemma grow_buf_length n buf : length (grow_buf n buf) = Nat.max n (length buf).
Proof. unfold grow_buf. case_decide; rewrite ?length_app, ?length_replicate; lia. Qed.

Lemma grow_buf_prefix n buf k : (k <= length buf)%nat -> take k (grow_buf n buf) = take k buf.
Proof. intros Hk. unfold grow_buf. case_decide; [|done]. by rewrite take_app_le. Qed.
