(* ===== verification/SlicePipeline.v ===== *)
(** * SlicePipeline

    Models [src/src/presentation/slice_pipeline.rs]: the frame-mode content
    source, which owns the engine, the colour delay, the output filter, the
    working buffer and the single-slot slice cache.  It is an instance of
    [FifoContentSource]; the safety theorems show what it may emit while
    disarmed and right after arming. *)

From S2P Require Import Prelude Floats Point Presentation Engine ColorDelay Session ContentSource.

Section pipeline.
Context {F : Type} `{OutputFilterOk F}.

Record SlicePipeline := mkPipeline {
  engine : PresentationEngine;
  color_delay : ColorDelayLine;
  color_delay_duration : Z;
  output_filter : option F;
  idle_policy : IdlePolicy;
  buf : list LaserPoint;
  cached_len : nat;
  cached : bool;
  startup_blank_remaining : nat;
  startup_blank : Z;
  last_pending_frame : option Frame;
}.

(** ** Field updates *)
Definition upd_engine (e : PresentationEngine) (p : SlicePipeline) : SlicePipeline :=
  mkPipeline e (color_delay p) (color_delay_duration p) (output_filter p) (idle_policy p) (buf p)
    (cached_len p) (cached p) (startup_blank_remaining p) (startup_blank p) (last_pending_frame p).

Definition upd_delay (l : ColorDelayLine) (p : SlicePipeline) : SlicePipeline :=
  mkPipeline (engine p) l (color_delay_duration p) (output_filter p) (idle_policy p) (buf p)
    (cached_len p) (cached p) (startup_blank_remaining p) (startup_blank p) (last_pending_frame p).

Definition upd_filter (f : option F) (p : SlicePipeline) : SlicePipeline :=
  mkPipeline (engine p) (color_delay p) (color_delay_duration p) f (idle_policy p) (buf p)
    (cached_len p) (cached p) (startup_blank_remaining p) (startup_blank p) (last_pending_frame p).

Definition upd_buf (b : list LaserPoint) (p : SlicePipeline) : SlicePipeline :=
  mkPipeline (engine p) (color_delay p) (color_delay_duration p) (output_filter p) (idle_policy p) b
    (cached_len p) (cached p) (startup_blank_remaining p) (startup_blank p) (last_pending_frame p).

Definition upd_cache (c : bool) (n : nat) (p : SlicePipeline) : SlicePipeline :=
  mkPipeline (engine p) (color_delay p) (color_delay_duration p) (output_filter p) (idle_policy p) (buf p)
    n c (startup_blank_remaining p) (startup_blank p) (last_pending_frame p).

Definition upd_remaining (n : nat) (p : SlicePipeline) : SlicePipeline :=
  mkPipeline (engine p) (color_delay p) (color_delay_duration p) (output_filter p) (idle_policy p) (buf p)
    (cached_len p) (cached p) n (startup_blank p) (last_pending_frame p).

(** ** Construction and pass-throughs *)

(** [SlicePipeline::with_startup_blank]. *)
Definition new_pipeline (e : PresentationEngine) (delay : Z) (f : option F) (policy : IdlePolicy)
    (capacity : nat) (blank : Z) : SlicePipeline :=
  let e := match policy with Park x y => set_idle_blank_point (blanked x y) e | _ => e end in
  mkPipeline e (new_delay_line 0) delay f policy (replicate capacity default_point) 0 false 0 blank None.

Definition invalidate (p : SlicePipeline) : SlicePipeline := upd_cache false 0 p.

(** [set_pending] / [submit_frame]. *)
Definition submit_frame (fr : Frame) (p : SlicePipeline) : SlicePipeline :=
  mkPipeline (set_pending fr (engine p)) (color_delay p) (color_delay_duration p) (output_filter p)
    (idle_policy p) (buf p) (cached_len p) (cached p) (startup_blank_remaining p) (startup_blank p) (Some fr).

Definition reset_engine (p : SlicePipeline) : SlicePipeline :=
  invalidate (upd_engine (reset (engine p)) p).

Definition pipeline_set_frame_capacity (cap : option nat) (p : SlicePipeline) : SlicePipeline :=
  upd_engine (set_frame_capacity cap (engine p)) p.

Definition set_color_delay (d : Z) (p : SlicePipeline) : SlicePipeline :=
  mkPipeline (engine p) (color_delay p) d (output_filter p) (idle_policy p) (buf p)
    (cached_len p) (cached p) (startup_blank_remaining p) (startup_blank p) (last_pending_frame p).

Definition reset_color_delay (p : SlicePipeline) : SlicePipeline :=
  upd_delay (reset_delay (color_delay p)) p.

Definition reset_output_filter (reason : OutputResetReason) (p : SlicePipeline) : SlicePipeline :=
  upd_filter (filter_reset reason <$> output_filter p) p.

(** [arm_startup_blank] of the content-source trait: the configured duration at
    the current rate. *)
Definition arm_startup_blank (pps : Z) (p : SlicePipeline) : SlicePipeline :=
  upd_remaining (Z.to_nat (duration_to_points (startup_blank p) pps)) p.

Definition on_disarm (p : SlicePipeline) : SlicePipeline := reset_color_delay p.

Definition pipeline_reserve_buf (n : nat) (p : SlicePipeline) : SlicePipeline := upd_buf (grow_buf n (buf p)) p.

Definition pipeline_cached_slice (p : SlicePipeline) : option (list LaserPoint) :=
  if cached p then Some (take (cached_len p) (buf p)) else None.

(** [replay_after_reconnect], the body of both [on_reconnect]s. *)
Definition replay_after_reconnect (p : SlicePipeline) : SlicePipeline :=
  let p := reset_color_delay (reset_engine p) in
  let p := match last_pending_frame p with
           | Some fr => upd_engine (set_pending fr (engine p)) p
           | None => p
           end in
  reset_output_filter Reconnect p.

(** ** Slice production *)

(** The part common to both modes, on the fresh points [buf[..n]]: blanking,
    colour delay, then the output filter when [filtered]. *)
Definition present (n : nat) (pps : Z) (is_armed filtered : bool) (ctx : OutputFilterContext)
    (p : SlicePipeline) : option (SlicePipeline * list LaserPoint) :=
  let '(remaining, s1) := apply_blanking is_armed (startup_blank_remaining p) (take n (buf p)) (idle_policy p) in
  let line := resize (Z.to_nat (duration_to_points (color_delay_duration p) pps)) (color_delay p) in
  '(line1, s2) ← apply_delay s1 line;
  let '(f1, s3) :=
    match output_filter p with
    | Some f => if (filtered : bool) then let '(f1, s) := filter_points s2 ctx f in (Some f1, s) else (Some f, s2)
    | None => (None, s2)
    end in
  Some (upd_cache true n (upd_buf (s3 ++ drop n (buf p)) (upd_filter f1 (upd_delay line1 (upd_remaining remaining p)))), s3).

(** [produce_fifo_chunk]. *)
Definition produce_fifo_chunk (target_points : nat) (pps : Z) (is_armed : bool) (p : SlicePipeline) :
    option (SlicePipeline * list LaserPoint) :=
  let p := pipeline_reserve_buf target_points p in
  '(e1, buf1, n) ← fill_chunk (engine p) (buf p) target_points pps;
  let p := upd_buf buf1 (upd_engine e1 p) in
  if decide (n = 0%nat) then Some (invalidate p, [])
  else present n pps is_armed (has_logical_frame e1) (mkFilterCtx pps FifoChunk false) p.

(** [produce_frame_swap]. *)
Definition produce_frame_swap (pps : Z) (is_armed : bool) (p : SlicePipeline) :
    option (SlicePipeline * list LaserPoint) :=
  '(e1, composed) ← compose_hardware_frame (engine p) pps;
  let p := upd_engine e1 p in
  if decide (composed = []) then Some (invalidate p, [])
  else
    let n := length composed in
    buf1 ← write_at (grow_buf n (buf p)) 0 composed;
    present n pps is_armed true (mkFilterCtx pps FrameSwapFrame true) (upd_buf buf1 p).

(** ** Well-formedness *)

Record pipeline_wf (p : SlicePipeline) : Prop := {
  pwf_engine : fifo_wf (engine p);
  pwf_delay : delay_wf (color_delay p);
  pwf_cache : cached p = true -> (cached_len p <= length (buf p))%nat;
}.

(** What becomes of points when there is an output filter, and when it is applied. *)
Definition through (filtered : bool) (ctx : OutputFilterContext) (f : option F) (pts : list LaserPoint) : option F * list LaserPoint :=
  match f with
  | Some f => if filtered then let '(f1, s) := filter_points pts ctx f in (Some f1, s) else (Some f, pts)
  | None => (None, pts)
  end.

(** What [present] leaves and returns. *)
Lemma present_spec n pps armed filtered ctx p :
  delay_wf (color_delay p) -> (n <= length (buf p))%nat ->
  exists p' s line s2,
    present n pps armed filtered ctx p = Some (p', s) /\ length s = n /\
    apply_delay (apply_blanking armed (startup_blank_remaining p) (take n (buf p)) (idle_policy p)).2
      (resize (Z.to_nat (duration_to_points (color_delay_duration p) pps)) (color_delay p)) = Some (line, s2) /\
    delay_wf line /\ color_delay p' = line /\ engine p' = engine p /\
    cached p' = true /\ cached_len p' = n /\ buf p' = s ++ drop n (buf p) /\
    startup_blank_remaining p' =
      (apply_blanking armed (startup_blank_remaining p) (take n (buf p)) (idle_policy p)).1 /\
    idle_policy p' = idle_policy p /\
    through filtered ctx (output_filter p) s2 = (output_filter p', s).
Proof.
  intros Hd Hn. unfold present.
  pose proof (apply_blanking_length armed (startup_blank_remaining p) (take n (buf p)) (idle_policy p)) as Hl.
  rewrite length_take, Nat.min_l in Hl by lia.
  destruct (apply_blanking _ _ _ _) as [remaining s1]. simpl in Hl |- *.
  set (line := resize _ _).
  assert (Hline : delay_wf line) by (by apply delay_wf_resize).
  destruct (apply_delay_spec line s1 Hline) as (line1 & s2 & Hap & _ & Hwf1 & _ & _ & Hpos).
  assert (Hl2 : length s2 = n) by (rewrite <- (length_fmap position), Hpos, length_fmap; done).
  rewrite Hap. simpl. destruct (output_filter p) as [f|] eqn:Hf.
  - destruct filtered.
    + pose proof (filter_length s2 ctx f) as Hfl. destruct (filter_points s2 ctx f) as [f1 s3] eqn:Hfp. simpl in *.
      eexists _, _, _, s2. repeat split; try (done || congruence). simpl. by rewrite Hfp.
    + eexists _, _, _, s2. repeat split; done || congruence.
  - eexists _, _, _, s2. repeat split; done.
Qed.

Lemma produce_fifo_spec target pps armed p :
  pipeline_wf p ->
  exists p' s, produce_fifo_chunk target pps armed p = Some (p', s) /\ pipeline_wf p' /\
    length s = target /\ (target <> 0%nat -> pipeline_cached_slice p' = Some s).
Proof.
  intros [He Hd Hc]. unfold produce_fifo_chunk. cbv zeta.
  destruct (fill_chunk_play (engine (pipeline_reserve_buf target p)) (buf (pipeline_reserve_buf target p))
              target pps He) as (e1 & pts & _ & Hf & Hl & Hwf1 & _).
  simpl in Hf, Hl |- *. rewrite grow_buf_length in Hf, Hl. rewrite Nat.min_l in Hf, Hl by lia.
  rewrite Hf. simpl. case_decide as Hz.
  - eexists _, _. split; [done|]. split; [by split|]. split; [done|]. done.
  - match goal with |- context [present target pps armed ?b ?c ?q] =>
      destruct (present_spec target pps armed b c q) as
        (p' & s & line & s2 & -> & Hls & _ & Hwl & Hline & Hen & Hca & Hcl & Hbuf & _) end; [done| |].
    { simpl. rewrite length_app, length_drop, grow_buf_length. lia. }
    exists p', s. split; [done|]. split; [split|].
    + rewrite Hen. done.
    + by rewrite Hline.
    + intros _. rewrite Hcl, Hbuf, length_app. lia.
    + split; [done|]. intros _. unfold pipeline_cached_slice.
      rewrite Hca, Hcl, Hbuf, take_app_le, take_ge by lia. done.
Qed.

(** ** The pipeline is a FIFO content source *)
#[export] Instance pipeline_source : FifoContentSource SlicePipeline := {
  produce_chunk _ := produce_fifo_chunk;
  cached_slice := pipeline_cached_slice;
  commit_written _ _ p := Some (invalidate p);
  discard_cached := invalidate;
  reserve_buf := pipeline_reserve_buf;
  src_on_reconnect _ := replay_after_reconnect;
  is_ended _ := false;
  src_submit_frame := submit_frame;
  src_arm_startup_blank := arm_startup_blank;
  src_on_disarm := on_disarm;
  src_reset_output_filter := reset_output_filter;
  src_set_color_delay := set_color_delay;
  take_stop_error p := (p, None);
}.

#[export] Instance pipeline_frame_source : FrameContentSource SlicePipeline := {
  produce_frame := produce_frame_swap;
  frame_cached_slice := pipeline_cached_slice;
  frame_commit_written _ _ := invalidate;
  frame_discard_cached := invalidate;
  frame_on_reconnect _ := replay_after_reconnect;
  frame_set_frame_capacity := pipeline_set_frame_capacity;
  frame_submit_frame := submit_frame;
  frame_arm_startup_blank := arm_startup_blank;
  frame_on_disarm := on_disarm;
  frame_reset_output_filter := reset_output_filter;
  frame_set_color_delay := set_color_delay;
}.

Lemma reserve_pipeline_wf n p : pipeline_wf p -> pipeline_wf (pipeline_reserve_buf n p).
Proof.
  intros [He Hd Hc]. split; [done..|]. simpl. rewrite grow_buf_length. intros Hca. specialize (Hc Hca). lia.
Qed.

Lemma replay_pipeline_wf p :
  pipeline_wf p -> pipeline_wf (replay_after_reconnect p) /\ pipeline_cached_slice (replay_after_reconnect p) = None.
Proof.
  intros [He Hd Hc]. unfold replay_after_reconnect. simpl.
  destruct (last_pending_frame p) as [fr|]; (split; [split|done]); simpl;
    first [by apply fifo_wf_set_pending, fifo_wf_reset|apply fifo_wf_reset|by apply delay_wf_reset|done].
Qed.

#[export] Instance pipeline_source_laws : FifoContentSourceLaws SlicePipeline.
Proof.
  refine {| source_wf := pipeline_wf |}; simpl.
  - intros _ target pps armed s Hwf.
    destruct (produce_fifo_spec target pps armed s Hwf) as (p' & sl & Hp & Hwf' & Hl & _).
    exists p', sl. split; [done|]. split; [done|]. lia.
  - intros _ target pps armed s s' slice Hwf Hp Hne.
    destruct (produce_fifo_spec target pps armed s Hwf) as (p' & sl & Hp' & _ & Hl & Hc).
    rewrite Hp in Hp'. injection Hp' as <- <-. apply Hc. destruct slice; [done|]. simpl in Hl. lia.
  - intros _ _ s []. eexists. split; [done|]. by split.
  - done.
  - intros s []. by split.
  - apply reserve_pipeline_wf.
  - intros n s [He Hd Hc]. unfold pipeline_cached_slice. simpl. destruct (cached s) eqn:Hca; [|done].
    f_equal. apply grow_buf_prefix. auto.
  - intros _ s Hwf. by apply replay_pipeline_wf.
  - intros _ s Hwf. by apply replay_pipeline_wf.
  - intros s [He Hd Hc]. repeat apply conj; intros; split; try done.
    + by apply fifo_wf_set_pending.
    + by apply delay_wf_reset.
Defined.

(** ** Traces of a session between two arm/disarm edges *)

(** What the driver and the adapters do to a pipeline between two edges.  A
    session is either in FIFO mode or in frame-swap mode ([swap]). *)
Inductive pipeline_op :=
  | OpSubmit (fr : Frame)
  | OpSetDelay (d : Z)
  | OpProduce (target : nat) (pps : Z)
  | OpRetire
  | OpReserve (n : nat)
  | OpReconnect.

Definition produce (swap : bool) (target : nat) (pps : Z) (armed : bool) (p : SlicePipeline) :
    option (SlicePipeline * list LaserPoint) :=
  if swap then produce_frame_swap pps armed p else produce_fifo_chunk target pps armed p.

Definition run_op (swap armed : bool) (op : pipeline_op) (p : SlicePipeline) :
    option (SlicePipeline * list LaserPoint) :=
  match op with
  | OpSubmit fr => Some (submit_frame fr p, [])
  | OpSetDelay d => Some (set_color_delay d p, [])
  | OpProduce target pps => produce swap target pps armed p
  | OpRetire => Some (invalidate p, [])
  | OpReserve n => Some (pipeline_reserve_buf n p, [])
  | OpReconnect => Some (replay_after_reconnect p, [])
  end.

(** The points produced, in order. *)
Fixpoint run_ops (swap armed : bool) (ops : list pipeline_op) (p : SlicePipeline) :
    option (SlicePipeline * list LaserPoint) :=
  match ops with
  | [] => Some (p, [])
  | op :: ops =>
      '(p1, s1) ← run_op swap armed op p;
      '(p2, s2) ← run_ops swap armed ops p1;
      Some (p2, s1 ++ s2)
  end.

(** The invariant of a trace: in FIFO mode the engine invariant, in both the
    delay line's. *)
Definition trace_wf (swap : bool) (p : SlicePipeline) : Prop :=
  (swap = false -> fifo_wf (engine p)) /\ delay_wf (color_delay p).

Lemma trace_wf_submit swap fr p : trace_wf swap p -> trace_wf swap (submit_frame fr p).
Proof.
  intros (He & Hd). split; [|done]. intros Hs. by apply fifo_wf_set_pending, He.
Qed.

(** A produced slice is the delayed image of a blanked slice, as the filter leaves
    it. *)
Lemma produce_spec swap target pps armed p :
  trace_wf swap p ->
  exists p' s, produce swap target pps armed p = Some (p', s) /\ trace_wf swap p' /\
    idle_policy p' = idle_policy p /\
    (s = [] /\ color_delay p' = color_delay p /\ startup_blank_remaining p' = startup_blank_remaining p /\ output_filter p' = output_filter p \/
     exists raw line s2 filtered ctx, let b := apply_blanking armed (startup_blank_remaining p) raw (idle_policy p) in
       apply_delay b.2 (resize (Z.to_nat (duration_to_points (color_delay_duration p) pps)) (color_delay p))
         = Some (line, s2) /\
       color_delay p' = line /\ startup_blank_remaining p' = b.1 /\ length s = length raw /\
       through filtered ctx (output_filter p) s2 = (output_filter p', s)).
Proof.
  intros (He & Hd). unfold produce. destruct swap.
  - unfold produce_frame_swap. destruct (compose_total (engine p) pps) as (e1 & fr & ->). simpl.
    case_decide as Hfr; [eexists _, _; split; [done|]; split; [by split|]; split; [done|by left]|].
    rewrite write_at_0 by (rewrite grow_buf_length; lia). simpl.
    match goal with |- context [present ?n pps armed ?b ?c ?q] =>
      destruct (present_spec n pps armed b c q) as
        (p' & s & line & s2 & -> & Hls & Hap & Hwl & Hline & _ & _ & _ & _ & Hrem & Hidle & Hfil) end;
      [done|simpl; rewrite length_app; lia|].
    eexists _, _. split; [done|]. rewrite Hline. split; [split; [done|by rewrite Hline]|].
    split; [done|]. right.
    eexists _, _, _, _, _. split; [exact Hap|]. split; [done|]. split; [done|]. split; [|exact Hfil].
    simpl. rewrite Hls, length_take, length_app. lia.
  - unfold produce_fifo_chunk. cbv zeta.
    destruct (fill_chunk_play (engine (pipeline_reserve_buf target p)) (buf (pipeline_reserve_buf target p))
                target pps (He eq_refl)) as (e1 & pts & _ & Hfc & Hl & Hwf1 & _).
    simpl in Hfc, Hl |- *. rewrite grow_buf_length in Hfc, Hl. rewrite Nat.min_l in Hfc, Hl by lia.
    rewrite Hfc. simpl. case_decide as Hz; [eexists _, _; split; [done|]; split; [by split|]; split; [done|by left]|].
    match goal with |- context [present ?n pps armed ?b ?c ?q] =>
      destruct (present_spec n pps armed b c q) as
        (p' & s & line & s2 & -> & Hls & Hap & Hwl & Hline & Hen & _ & _ & _ & Hrem & Hidle & Hfil) end;
      [done|simpl; rewrite length_app; lia|].
    eexists _, _. split; [done|]. rewrite Hline. split; [|split; [done|right]].
    { split; [by rewrite Hen|by rewrite Hline]. }
    eexists _, _, _, _, _. split; [exact Hap|]. split; [done|]. split; [done|]. split; [|exact Hfil].
    simpl. rewrite Hls, length_take, length_app. lia.
Qed.

(** Reconnecting rebuilds the engine from the last submitted frame. *)
Lemma replay_spec swap p :
  trace_wf swap p ->
  trace_wf swap (replay_after_reconnect p) /\ dark_carry (color_delay (replay_after_reconnect p)) /\
  startup_blank_remaining (replay_after_reconnect p) = startup_blank_remaining p /\
  idle_policy (replay_after_reconnect p) = idle_policy p /\
  output_filter (replay_after_reconnect p) = filter_reset Reconnect <$> output_filter p.
Proof.
  intros (He & Hd). unfold replay_after_reconnect. simpl.
  destruct (last_pending_frame p) as [fr|]; simpl.
  all: (split; [split; [|by apply delay_wf_reset]|split; [apply dark_carry_reset|done]]).
  - intros _. apply fifo_wf_set_pending, fifo_wf_reset.
  - intros _. apply fifo_wf_reset.
Qed.

(** [shows q f out f']: [out] is what a filter in state [f] makes of slices that
    consist of the point [q] alone, and [f'] the state it ends in; it is reset at
    reconnects, and passed by when there is nothing of a frame to filter. *)
Inductive shows (q : LaserPoint) : option F -> list LaserPoint -> option F -> Prop :=
  | shows_nothing f : shows q f [] f
  | shows_reset f out f' : shows q (filter_reset Reconnect <$> f) out f' -> shows q f out f'
  | shows_slice n filtered ctx f f1 s out f' :
      through filtered ctx f (replicate n q) = (f1, s) -> shows q f1 out f' -> shows q f (s ++ out) f'.

Lemma shows_app q f s f1 out f' : shows q f s f1 -> shows q f1 out f' -> shows q f (s ++ out) f'.
Proof. induction 1 as [|? ? ? _ IH|? ? ? ? ? ? ? ? Ht _ IH]; intros H2; [done|apply shows_reset; auto|]. rewrite <- app_assoc. eapply shows_slice; eauto. Qed.

(** Without a filter the points stay as they are. *)
Lemma shows_unfiltered q out f' : shows q None out f' -> Forall (eq q) out.
Proof.
  remember None as f eqn:Hf. induction 1 as [|f out f' _ IH|n filtered ctx f f1 s out f' Ht _ IH]; subst; [done|by apply IH|].
  injection Ht as <- <-. apply Forall_app. split; [by apply Forall_replicate|by apply IH].
Qed.

(** A filter that keeps dark points dark lets nothing light up. *)
Lemma shows_dark q f out f' :
  is_dark q -> (forall pts ctx f, Forall is_dark pts -> Forall is_dark (filter_points pts ctx f).2) -> shows q f out f' -> Forall is_dark out.
Proof.
  intros Hq Hd. induction 1 as [|f out f' _ IH|n filtered ctx f f1 s out f' Ht _ IH]; [done|done|]. apply Forall_app. split; [|done].
  assert (Hr : Forall is_dark (replicate n q)) by (by apply Forall_replicate). destruct f as [f|]; cbn in Ht; [|by injection Ht as _ <-].
  destruct filtered; [|by injection Ht as _ <-]. specialize (Hd _ ctx f Hr). destruct (filter_points _ ctx f) as [f2 s2]. by injection Ht as _ <-.
Qed.

(** While disarmed, a dark carry stays dark and every slice is of park points before
    it comes to the filter. *)
Lemma disarmed_run swap ops p :
  trace_wf swap p -> dark_carry (color_delay p) ->
  exists p' out, run_ops swap false ops p = Some (p', out) /\
    shows (park_point (idle_policy p)) (output_filter p) out (output_filter p') /\ trace_wf swap p' /\ dark_carry (color_delay p').
Proof.
  revert p. induction ops as [|op ops IH]; intros p Hwf Hc; [exists p, []; split; [done|]; split; [constructor|done]|].
  assert (Hone : exists p1 s1, run_op swap false op p = Some (p1, s1) /\
            shows (park_point (idle_policy p)) (output_filter p) s1 (output_filter p1) /\ trace_wf swap p1 /\
            dark_carry (color_delay p1) /\ idle_policy p1 = idle_policy p).
  { destruct op as [fr|d|target pps| |n|]; simpl.
    - eexists _, []. split; [done|]. split; [constructor|]. split; [by apply trace_wf_submit|done].
    - eexists _, []. split; [done|]. split; [constructor|]. split; [exact Hwf|done].
    - destruct (produce_spec swap target pps false p Hwf) as (p1 & s1 & Hp & Hwf1 & Hi & Hcase).
      exists p1, s1. rewrite Hp. split; [done|].
      destruct Hcase as [(-> & Hcd & _ & ->)|(raw & line & s2 & filtered & ctx & Hap & Hcd & _ & _ & Hth)].
      { split; [constructor|]. split; [done|]. rewrite Hcd. done. }
      unfold apply_blanking in Hap. simpl in Hap.
      edestruct (apply_delay_park (length raw) (park_point (idle_policy p))) as (l' & Hap' & _ & Hd);
        [apply delay_wf_resize, Hwf|apply dark_carry_resize, Hc|apply park_point_dark|].
      rewrite Hap in Hap'. injection Hap' as -> ->. rewrite Hcd. split; [|done].
      rewrite <- (app_nil_r s1). eapply shows_slice; [exact Hth|constructor].
    - eexists _, []. split; [done|]. split; [constructor|]. split; [exact Hwf|done].
    - eexists _, []. split; [done|]. split; [constructor|]. split; [exact Hwf|done].
    - destruct (replay_spec swap p Hwf) as (H1 & H2 & _ & H4 & H5). eexists _, []. split; [done|]. split; [|done].
      rewrite H5. apply shows_reset. constructor. }
  destruct Hone as (p1 & s1 & Hr & Hs1 & Hwf1 & Hc1 & Hi1).
  destruct (IH p1 Hwf1 Hc1) as (p2 & s2 & Hr2 & Hs2 & Hwf2 & Hc2). rewrite Hi1 in Hs2.
  exists p2, (s1 ++ s2). simpl. rewrite Hr. simpl. rewrite Hr2. simpl. split; [done|].
  split; [by eapply shows_app|done].
Qed.

(** *** Without an output filter *)

Definition unfiltered (swap : bool) (p : SlicePipeline) : Prop := trace_wf swap p /\ output_filter p = None.

Lemma unfiltered_submit swap fr p : unfiltered swap p -> unfiltered swap (submit_frame fr p).
Proof. intros [Hwf Hf]. split; [by apply trace_wf_submit|done]. Qed.

Lemma produce_unfiltered swap target pps armed p :
  unfiltered swap p ->
  exists p' s, produce swap target pps armed p = Some (p', s) /\ unfiltered swap p' /\
    (s = [] /\ color_delay p' = color_delay p /\ startup_blank_remaining p' = startup_blank_remaining p \/
     exists raw line, let b := apply_blanking armed (startup_blank_remaining p) raw (idle_policy p) in
       apply_delay b.2 (resize (Z.to_nat (duration_to_points (color_delay_duration p) pps)) (color_delay p))
         = Some (line, s) /\
       color_delay p' = line /\ startup_blank_remaining p' = b.1 /\ length s = length raw).
Proof.
  intros [Hwf Hf]. destruct (produce_spec swap target pps armed p Hwf) as (p' & s & Hp & Hwf' & _ & Hcase). exists p', s. split; [done|].
  destruct Hcase as [(-> & Hcd & Hr & Hf')|(raw & line & s2 & filtered & ctx & Hap & Hcd & Hr & Hl & Hth)].
  - split; [split; [done|congruence]|]. by left.
  - rewrite Hf in Hth. injection Hth as Hf' ->. split; [by split|]. right. by exists raw, line.
Qed.

Lemma replay_unfiltered swap p :
  unfiltered swap p ->
  unfiltered swap (replay_after_reconnect p) /\ dark_carry (color_delay (replay_after_reconnect p)) /\
  startup_blank_remaining (replay_after_reconnect p) = startup_blank_remaining p.
Proof. intros [Hwf Hf]. destruct (replay_spec swap p Hwf) as (H1 & H2 & H3 & _ & H5). rewrite Hf in H5. by split_and!. Qed.

(** One armed operation with [r] startup-blank points to go. *)
Lemma armed_op swap op p :
  unfiltered swap p -> dark_carry (color_delay p) ->
  exists p1 s1, run_op swap true op p = Some (p1, s1) /\ unfiltered swap p1 /\
    Forall is_dark (take (startup_blank_remaining p) s1) /\
    startup_blank_remaining p1 = (startup_blank_remaining p - length s1)%nat /\
    ((length s1 <= startup_blank_remaining p)%nat -> dark_carry (color_delay p1)).
Proof.
  intros Hwf Hc. set (r := startup_blank_remaining p).
  assert (Hnil : forall p1, unfiltered swap p1 -> startup_blank_remaining p1 = r ->
            dark_carry (color_delay p1) -> exists q s1, Some (p1, @nil LaserPoint) = Some (q, s1) /\
            unfiltered swap q /\ Forall is_dark (take r s1) /\
            startup_blank_remaining q = (r - length s1)%nat /\
            ((length s1 <= r)%nat -> dark_carry (color_delay q))).
  { intros p1 H1 H2 H3. exists p1, []. split; [done|]. split; [done|]. simpl. rewrite take_nil, Nat.sub_0_r. done. }
  destruct op as [fr|d|target pps| |n|]; simpl; try (apply Hnil; done).
  - apply Hnil; [by apply unfiltered_submit|done|done].
  - destruct (produce_unfiltered swap target pps true p Hwf) as (p1 & s1 & Hp & Hwf1 & Hcase). rewrite Hp.
    destruct Hcase as [(-> & Hcd & Hr)|(raw & line & Hap & Hcd & Hr & Hl)].
    { apply Hnil; [done|done|by rewrite Hcd]. }
    exists p1, s1. split; [done|]. split; [done|]. rewrite Hcd. fold r in Hap, Hr.
    unfold apply_blanking in Hap, Hr. simpl in Hap, Hr.
    assert (Hw : delay_wf (resize (Z.to_nat (duration_to_points (color_delay_duration p) pps)) (color_delay p)))
      by (apply delay_wf_resize, Hwf).
    assert (Hdc : dark_carry (resize (Z.to_nat (duration_to_points (color_delay_duration p) pps)) (color_delay p)))
      by (by apply dark_carry_resize).
    destruct (decide (0 < r)%nat) as [Hr0|Hr0]; simpl in Hap, Hr.
    + set (k := Nat.min (length raw) r) in *.
      assert (Hk : Forall is_dark (take r (blank_prefix (take k raw) ++ drop k raw))).
      { unfold blank_prefix. destruct (decide (length raw <= r)%nat).
        - rewrite (drop_ge raw), app_nil_r by lia. apply Forall_take, Forall_fmap, Forall_forall. done.
        - rewrite take_app_le by (rewrite length_fmap, length_take; lia).
          apply Forall_take, Forall_fmap, Forall_forall. done. }
      destruct (apply_delay_dark r _ _ _ _ Hw Hdc Hap Hk) as [Ho Hc'].
      split; [done|]. split; [lia|]. intros Hle. apply Hc'.
      unfold blank_prefix. rewrite length_app, length_fmap, length_take, length_drop. lia.
    + replace r with 0%nat by lia. rewrite take_0. split; [done|]. split; [lia|]. intros Hle.
      destruct (apply_delay_dark 0 _ _ _ _ Hw Hdc Hap) as [_ Hc']; [by rewrite take_0|]. apply Hc'. lia.
  - destruct (replay_unfiltered swap p Hwf) as (H1 & H2 & H3). by apply Hnil.
Qed.

(** The first [startup_blank_remaining] points of an armed trace are dark. *)
Lemma armed_run swap ops p :
  unfiltered swap p -> dark_carry (color_delay p) \/ startup_blank_remaining p = 0%nat ->
  exists p' out, run_ops swap true ops p = Some (p', out) /\
    Forall is_dark (take (startup_blank_remaining p) out).
Proof.
  revert p. induction ops as [|op ops IH]; intros p Hwf Hc.
  { exists p, []. by rewrite take_nil. }
  destruct (decide (startup_blank_remaining p = 0%nat)) as [Hz|Hnz].
  - assert (Htot : forall q, unfiltered swap q -> startup_blank_remaining q = 0%nat ->
              exists q1 s1, run_op swap true op q = Some (q1, s1) /\ unfiltered swap q1 /\
                startup_blank_remaining q1 = 0%nat).
    { intros q Hq Hq0. destruct op as [fr|d|target pps| |n|]; simpl; try (by eexists _, _).
      - eexists _, _. split; [done|]. by split; [apply unfiltered_submit|].
      - destruct (produce_unfiltered swap target pps true q Hq) as (q1 & s1 & -> & Hq1 & Hcase).
        exists q1, s1. split; [done|]. split; [done|].
        destruct Hcase as [(_ & _ & ->)|(raw & line & _ & _ & -> & _)]; [done|].
        rewrite Hq0. unfold apply_blanking. simpl. done.
      - destruct (replay_unfiltered swap q Hq) as (H1 & _ & H3). rewrite Hq0 in H3. by eexists _, _. }
    destruct (Htot p Hwf Hz) as (p1 & s1 & Hr & Hwf1 & Hz1).
    destruct (IH p1 Hwf1 (or_intror Hz1)) as (p2 & s2 & Hr2 & _).
    exists p2, (s1 ++ s2). simpl. rewrite Hr. simpl. rewrite Hr2. simpl. rewrite Hz. by rewrite take_0.
  - destruct Hc as [Hc|]; [|done].
    destruct (armed_op swap op p Hwf Hc) as (p1 & s1 & Hr & Hwf1 & Hs1 & Hrem & Hc1).
    destruct (IH p1 Hwf1) as (p2 & s2 & Hr2 & Hs2).
    { destruct (decide (length s1 <= startup_blank_remaining p)%nat); [auto|right; lia]. }
    exists p2, (s1 ++ s2). simpl. rewrite Hr. simpl. rewrite Hr2. simpl. split; [done|].
    rewrite take_app, Forall_app. split; [done|]. by rewrite Hrem in Hs2.
Qed.

End pipeline.

Arguments SlicePipeline : clear implicits.

(** ** Theorems *)

(** A filter for the witnesses: none is installed. *)
#[local] Instance no_filter : OutputFilter unit := {
  filter_reset _ f := f;
  filter_points pts _ f := (f, pts);
}.

#[local] Instance no_filter_ok : OutputFilterOk unit.
Proof. done. Qed.

Definition demo_pipeline (policy : IdlePolicy) : SlicePipeline unit :=
  submit_frame demo_frame (new_pipeline (new_engine (fun _ _ _ => Coalesce)) 100000 None policy 4 1000000).

Lemma demo_trace_wf policy : trace_wf false (demo_pipeline policy).
Proof.
  split; [|done]. intros _. unfold demo_pipeline, submit_frame. simpl.
  apply fifo_wf_set_pending. destruct policy; by split.
Qed.

(** C6. Disarmed output is parked: after the disarm edge, whatever frames are
    submitted, delays set, chunks or hardware frames produced, retries and
    reconnects happen, production never panics, and all it hands to the output
    filter is the blank park point of the idle policy.  Without an output filter
    every point produced while disarmed is exactly that point.  An installed filter
    comes after the blanking also while disarmed: the output is then what it makes
    of the park points, which is dark when the filter keeps dark points dark. *)
Theorem disarmed_output_is_parked {F} `{OutputFilterOk F} swap ops (p : SlicePipeline F) :
  trace_wf swap p ->
  exists p' out, run_ops swap false ops (on_disarm p) = Some (p', out) /\ is_dark (park_point (idle_policy p)) /\
    shows (park_point (idle_policy p)) (output_filter p) out (output_filter p') /\
    (output_filter p = None -> Forall (fun q => q = park_point (idle_policy p)) out) /\
    ((forall pts ctx f, Forall is_dark pts -> Forall is_dark (filter_points pts ctx f).2) -> Forall is_dark out).
Proof.
  intros Hwf. pose proof (park_point_dark (idle_policy p)) as Hdark.
  destruct (disarmed_run swap ops (on_disarm p)) as (p' & out & Hr & Ho & _).
  - destruct Hwf as (He & Hd). split; [done|by apply delay_wf_reset].
  - apply dark_carry_reset.
  - exists p', out. split; [done|]. split; [done|]. split; [exact Ho|]. split.
    + intros Hf. change (output_filter (on_disarm p)) with (output_filter p) in Ho. rewrite Hf in Ho.
      eapply Forall_impl; [by eapply shows_unfiltered|]. by intros q <-.
    + intros Hk. by eapply shows_dark.
Qed.

Definition demo_trace : list pipeline_op := [OpProduce 3 30000; OpRetire; OpSubmit (mkFrame []); OpReconnect; OpProduce 2 30000].

(** Without a filter, and with one. *)
Lemma disarmed_output_is_parked_witness :
  (exists p' out, run_ops false false demo_trace (on_disarm (demo_pipeline (Park f1 f1))) = Some (p', out) /\
     Forall (fun q => q = park_point (Park f1 f1)) out) /\
  (exists p' out, run_ops false false demo_trace (on_disarm (upd_filter (Some tt) (demo_pipeline (Park f1 f1)))) = Some (p', out) /\
     shows (park_point (Park f1 f1)) (Some tt) out (output_filter p') /\ Forall is_dark out).
Proof.
  split.
  - destruct (disarmed_output_is_parked false demo_trace (demo_pipeline (Park f1 f1)) (demo_trace_wf _)) as (p' & out & Hr & _ & _ & Hp & _).
    exists p', out. split; [exact Hr|exact (Hp eq_refl)].
  - destruct (disarmed_output_is_parked false demo_trace (upd_filter (Some tt) (demo_pipeline (Park f1 f1))) (demo_trace_wf _))
      as (p' & out & Hr & _ & Hs & _ & Hd). exists p', out. split; [exact Hr|]. split; [exact Hs|]. apply Hd. intros pts ctx f Hf. exact Hf.
Defined.

(** Startup blanking covers the configured time: after the arm edge (from
    a pipeline whose delay line is dark, as the disarm edge leaves it), the
    first [ceil(startup_blank * pps)] points produced are dark, however they
    are cut into chunks or frames and whatever colour delay is in force (with no
    output filter installed). *)
Theorem startup_blank_is_dark {F} `{OutputFilterOk F} swap ops pps (p : SlicePipeline F) :
  unfiltered swap p -> dark_carry (color_delay p) ->
  exists p' out, run_ops swap true ops (arm_startup_blank pps p) = Some (p', out) /\
    Forall is_dark (take (Z.to_nat (duration_to_points (startup_blank p) pps)) out).
Proof. intros Hwf Hc. exact (armed_run swap ops (arm_startup_blank pps p) Hwf (or_introl Hc)). Qed.

Lemma startup_blank_is_dark_witness :
  exists p' out, run_ops false true [OpProduce 3 30000; OpRetire; OpProduce 40 30000]
      (arm_startup_blank 30000 (demo_pipeline Blank)) = Some (p', out) /\
    Forall is_dark (take (Z.to_nat (duration_to_points 1000000 30000)) out).
Proof.
  exact (startup_blank_is_dark false [OpProduce 3 30000; OpRetire; OpProduce 40 30000] 30000
           (demo_pipeline Blank) (conj (demo_trace_wf _) eq_refl) (Forall_nil_2 _)).
Defined.

(** Retained slices are stable: the slice an adapter retries after
    [WouldBlock] is the one produced, of exactly the requested size, and
    reserving buffer capacity does not disturb it. *)
Theorem retained_slice_is_stable {F} `{OutputFilterOk F} target pps armed n (p : SlicePipeline F) :
  pipeline_wf p -> target <> 0%nat ->
  exists p' slice, produce_fifo_chunk target pps armed p = Some (p', slice) /\
    length slice = target /\ pipeline_cached_slice p' = Some slice /\
    pipeline_cached_slice (pipeline_reserve_buf n p') = Some slice /\ pipeline_wf p'.
Proof.
  intros Hwf Ht. destruct (produce_fifo_spec target pps armed p Hwf) as (p' & s & Hp & Hwf' & Hl & Hc).
  exists p', s. split; [done|]. split; [done|]. specialize (Hc Ht). split; [done|]. split; [|done].
  rewrite <- Hc. exact (reserve_keeps_cache n p' Hwf').
Qed.

Lemma retained_slice_is_stable_witness :
  exists p' slice, produce_fifo_chunk 3 30000 true (demo_pipeline Blank) = Some (p', slice) /\
    length slice = 3%nat /\ pipeline_cached_slice p' = Some slice /\
    pipeline_cached_slice (pipeline_reserve_buf 10 p') = Some slice /\ pipeline_wf p'.
Proof.
  apply (retained_slice_is_stable 3 30000 true 10 (demo_pipeline Blank)); [|done].
  split; [apply demo_trace_wf; done|done|done].
Defined.
