(* ===== verification/ChunkProducer.v ===== *)
(** * ChunkProducer

    Models [src/src/stream/chunk_producer.rs] and the stream types of
    [src/src/stream/mod.rs]: the callback-mode content source.  It asks the
    user's fill function for points, completes short chunks by the idle policy,
    keeps the raw content of the last written chunk for [RepeatLast], and
    accounts for what was written.  It is an instance of [FifoContentSource]. *)

From S2P Require Import Prelude Floats Point Presentation ColorDelay Session ContentSource.

(** ** Stream types *)

(** [StreamInstant], a [u64] count of points, with its saturating arithmetic. *)
Definition add_points (i points : Z) : Z := sat_add 64 i points.

Definition sub_points (i points : Z) : Z := sat_sub i points.

Definition as_seconds (i pps : Z) : F64.t := F64.div (F64.of_int i) (F64.of_int pps).

Definition from_seconds (seconds : F64.t) (pps : Z) : Z := as_u64 (F64.mul seconds (F64.of_int pps)).

Record ChunkRequest := mkRequest { req_start : Z; req_pps : Z; req_target_points : nat }.

Inductive ChunkResult :=
  | Filled (n : nat)
  | Starved
  | End_.

Record StreamStats := mkStats {
  underrun_count : Z;
  reconnect_count : Z;
  chunks_written : Z;
  points_written : Z;
}.

(** [fetch_add] on an [AtomicU64] wraps. *)
Definition fetch_add (a b : Z) : Z := wrapu 64 (a + b).

(** The user's fill callback: a state, and a function that fills the slice it
    is given in place. *)
Class FillFn (P : Type) := fill : ChunkRequest -> list LaserPoint -> P -> P * list LaserPoint * ChunkResult.

(** A slice filled in place keeps its length. *)
Class FillFnOk (P : Type) `{FillFn P} := fill_length req buf p : length (fill req buf p).1.2 = length buf.

Section producer.
Context {P : Type} `{FillFnOk P}.

Record ChunkProducer := mkProducer {
  producer : P;
  cp_idle_policy : IdlePolicy;
  cp_startup_blank : Z;
  cp_buf : list LaserPoint;
  cp_cached_len : nat;
  cp_cached : bool;
  last_chunk : list LaserPoint;
  last_chunk_len : nat;
  pending_raw : list LaserPoint;
  pending_raw_len : nat;
  color_delay_line : ColorDelayLine;
  cp_startup_blank_remaining : nat;
  current_instant : Z;
  stats : StreamStats;
  ended : bool;
  stop_error : option Error;
}.

(** [ChunkProducer::new]; the statistics start from the shared instance. *)
Definition new_producer (p : P) (policy : IdlePolicy) (blank : Z) (capacity : nat) (st : StreamStats) : ChunkProducer :=
  mkProducer p policy blank (replicate capacity default_point) 0 false
    (replicate capacity default_point) 0 (replicate capacity default_point) 0
    (new_delay_line 0) 0 0 st false None.

(** ** Field updates *)

Definition cp_upd_fill (p : P) (b : list LaserPoint) (s : ChunkProducer) : ChunkProducer :=
  mkProducer p (cp_idle_policy s) (cp_startup_blank s) b (cp_cached_len s) (cp_cached s)
    (last_chunk s) (last_chunk_len s) (pending_raw s) (pending_raw_len s) (color_delay_line s)
    (cp_startup_blank_remaining s) (current_instant s) (stats s) (ended s) (stop_error s).

Definition cp_upd_cache (c : bool) (n : nat) (s : ChunkProducer) : ChunkProducer :=
  mkProducer (producer s) (cp_idle_policy s) (cp_startup_blank s) (cp_buf s) n c
    (last_chunk s) (last_chunk_len s) (pending_raw s) (pending_raw_len s) (color_delay_line s)
    (cp_startup_blank_remaining s) (current_instant s) (stats s) (ended s) (stop_error s).

Definition cp_upd_last (l : list LaserPoint) (n : nat) (s : ChunkProducer) : ChunkProducer :=
  mkProducer (producer s) (cp_idle_policy s) (cp_startup_blank s) (cp_buf s) (cp_cached_len s) (cp_cached s)
    l n (pending_raw s) (pending_raw_len s) (color_delay_line s)
    (cp_startup_blank_remaining s) (current_instant s) (stats s) (ended s) (stop_error s).

Definition cp_upd_raw (l : list LaserPoint) (n : nat) (s : ChunkProducer) : ChunkProducer :=
  mkProducer (producer s) (cp_idle_policy s) (cp_startup_blank s) (cp_buf s) (cp_cached_len s) (cp_cached s)
    (last_chunk s) (last_chunk_len s) l n (color_delay_line s)
    (cp_startup_blank_remaining s) (current_instant s) (stats s) (ended s) (stop_error s).

Definition cp_upd_delay (l : ColorDelayLine) (remaining : nat) (s : ChunkProducer) : ChunkProducer :=
  mkProducer (producer s) (cp_idle_policy s) (cp_startup_blank s) (cp_buf s) (cp_cached_len s) (cp_cached s)
    (last_chunk s) (last_chunk_len s) (pending_raw s) (pending_raw_len s) l
    remaining (current_instant s) (stats s) (ended s) (stop_error s).

Definition cp_upd_account (i : Z) (st : StreamStats) (s : ChunkProducer) : ChunkProducer :=
  mkProducer (producer s) (cp_idle_policy s) (cp_startup_blank s) (cp_buf s) (cp_cached_len s) (cp_cached s)
    (last_chunk s) (last_chunk_len s) (pending_raw s) (pending_raw_len s) (color_delay_line s)
    (cp_startup_blank_remaining s) i st (ended s) (stop_error s).

Definition cp_upd_end (e : bool) (err : option Error) (s : ChunkProducer) : ChunkProducer :=
  mkProducer (producer s) (cp_idle_policy s) (cp_startup_blank s) (cp_buf s) (cp_cached_len s) (cp_cached s)
    (last_chunk s) (last_chunk_len s) (pending_raw s) (pending_raw_len s) (color_delay_line s)
    (cp_startup_blank_remaining s) (current_instant s) (stats s) e err.

(** ** Operations *)

Definition arm_startup_blank (pps : Z) (s : ChunkProducer) : ChunkProducer :=
  cp_upd_delay (color_delay_line s) (Z.to_nat (duration_to_points (cp_startup_blank s) pps)) s.

Definition on_disarm (s : ChunkProducer) : ChunkProducer :=
  cp_upd_delay (reset_delay (color_delay_line s)) (cp_startup_blank_remaining s) s.

Definition invalidate (s : ChunkProducer) : ChunkProducer := cp_upd_cache false 0 s.

Definition ensure_buf (n : nat) (s : ChunkProducer) : ChunkProducer :=
  cp_upd_raw (grow_buf n (pending_raw s)) (pending_raw_len s)
    (cp_upd_last (grow_buf n (last_chunk s)) (last_chunk_len s)
      (cp_upd_fill (producer s) (grow_buf n (cp_buf s)) s)).

Definition build_request (target_points : nat) (pps : Z) (s : ChunkProducer) : ChunkRequest :=
  mkRequest (current_instant s) pps target_points.

(** [apply_blanking_and_color_delay] on [buf[..n]]. *)
Definition apply_blanking_and_color_delay (n : nat) (pps : Z) (is_armed : bool) (delay : Z) (s : ChunkProducer) :
    option ChunkProducer :=
  s0 ← slice_to (cp_buf s) n;
  let '(remaining, s1) := apply_blanking is_armed (cp_startup_blank_remaining s) s0 (cp_idle_policy s) in
  let line := resize (Z.to_nat (duration_to_points delay pps)) (color_delay_line s) in
  '(line1, s2) ← apply_delay s1 line;
  Some (cp_upd_fill (producer s) (s2 ++ drop n (cp_buf s)) (cp_upd_delay line1 remaining s)).

(** The [RepeatLast] loop: [buf[i] = last_chunk[offset % len]] for [k] points. *)
Fixpoint repeat_fill (last : list LaserPoint) (len k offset i : nat) (b : list LaserPoint) : option (list LaserPoint) :=
  match k with
  | O => Some b
  | S k =>
      q ← last !! (offset mod len)%nat;
      if decide (i < length b)%nat then repeat_fill last len k (S offset) (S i) (<[i:=q]> b) else None
  end.

(** [fill_idle_range(lo..hi)]: [false] when [IdlePolicy::Stop] triggered. *)
Definition fill_idle_range (lo hi : nat) (is_armed : bool) (s : ChunkProducer) : option (ChunkProducer * bool) :=
  let fill_with q := b ← write_at (cp_buf s) lo (replicate (hi - lo) q); Some (cp_upd_fill (producer s) b s, true) in
  if is_armed then
    match cp_idle_policy s with
    | Stop => Some (cp_upd_end true (Some ErrStopped) s, false)
    | RepeatLast =>
        if decide (0 < last_chunk_len s)%nat then
          b ← repeat_fill (last_chunk s) (last_chunk_len s) (hi - lo) 0 lo (cp_buf s);
          Some (cp_upd_fill (producer s) b s, true)
        else fill_with (blanked f0 f0)
    | Park x y => fill_with (blanked x y)
    | Blank => fill_with (blanked f0 f0)
    end
  else fill_with (match cp_idle_policy s with Park x y => blanked x y | _ => blanked f0 f0 end).

Definition fill_idle (n : nat) (is_armed : bool) (s : ChunkProducer) : option (ChunkProducer * bool) :=
  fill_idle_range 0 n is_armed s.

Definition count_underrun (s : ChunkProducer) : ChunkProducer :=
  cp_upd_account (current_instant s)
    (mkStats (fetch_add (underrun_count (stats s)) 1) (reconnect_count (stats s))
       (chunks_written (stats s)) (points_written (stats s))) s.

(** The [match result] of [produce_chunk]: the number of points to present, or
    [None] when it returns the empty slice. *)
Definition settle (r : ChunkResult) (target_points : nat) (is_armed : bool) (s : ChunkProducer) :
    option (ChunkProducer * option nat) :=
  match r with
  | Filled filled =>
      let filled := Nat.min filled target_points in
      if decide (filled = target_points) then Some (s, Some filled)
      else
        '(s, ok) ← fill_idle_range filled target_points is_armed s;
        if (ok : bool) then Some (s, Some target_points)
        else if decide (filled = 0%nat) then Some (invalidate s, None)
        else Some (s, Some filled)
  | Starved =>
      '(s, ok) ← fill_idle target_points is_armed (count_underrun s);
      if (ok : bool) then Some (s, Some target_points) else Some (invalidate s, None)
  | End_ => Some (invalidate (cp_upd_end true (stop_error s) s), None)
  end.

Definition cp_produce_chunk (delay : Z) (target_points : nat) (pps : Z) (is_armed : bool) (s : ChunkProducer) :
    option (ChunkProducer * list LaserPoint) :=
  if ended s then Some (s, [])
  else if decide (target_points = 0%nat) then Some (invalidate s, [])
  else
    let s := ensure_buf target_points s in
    let req := build_request target_points pps s in
    window ← slice_to (cp_buf s) target_points;
    let '(p1, window', r) := fill req window (producer s) in
    let s := cp_upd_fill p1 (window' ++ drop target_points (cp_buf s)) s in
    let r := match r with Filled 0 => Starved | other => other end in
    '(s, n) ← settle r target_points is_armed s;
    match n with
    | None => Some (s, [])
    | Some n =>
        raw ← slice_to (cp_buf s) n;
        raw' ← write_at (pending_raw s) 0 raw;
        s ← apply_blanking_and_color_delay n pps is_armed delay (cp_upd_raw raw' n s);
        out ← slice_to (cp_buf s) n;
        Some (cp_upd_cache true n s, out)
    end.

Definition cp_cached_slice (s : ChunkProducer) : option (list LaserPoint) :=
  if cp_cached s then Some (take (cp_cached_len s) (cp_buf s)) else None.

Definition cp_commit_written (n : nat) (is_armed : bool) (s : ChunkProducer) : option ChunkProducer :=
  s ← (if is_armed && bool_decide (0 < n)%nat then
         let copy := Nat.min n (pending_raw_len s) in
         src ← slice_to (pending_raw s) copy;
         l ← write_at (last_chunk s) 0 src;
         Some (cp_upd_last l copy s)
       else Some s);
  Some (invalidate (cp_upd_account (add_points (current_instant s) (Z.of_nat n))
    (mkStats (underrun_count (stats s)) (reconnect_count (stats s)) (fetch_add (chunks_written (stats s)) 1)
       (fetch_add (points_written (stats s)) (Z.of_nat n))) s)).

Definition cp_on_reconnect (max_points_per_chunk : nat) (s : ChunkProducer) : ChunkProducer :=
  let s := ensure_buf max_points_per_chunk s in
  let s := cp_upd_raw (pending_raw s) 0 (cp_upd_last (last_chunk s) 0 s) in
  let s := invalidate (cp_upd_delay (reset_delay (color_delay_line s)) 0 s) in
  cp_upd_account (current_instant s)
    (mkStats (underrun_count (stats s)) (fetch_add (reconnect_count (stats s)) 1)
       (chunks_written (stats s)) (points_written (stats s))) s.

Definition cp_take_stop_error (s : ChunkProducer) : ChunkProducer * option Error :=
  (cp_upd_end (ended s) None s, stop_error s).

(** [impl FifoContentSource for ChunkProducer]; the operations it does not
    override are the trait's no-ops. *)
#[export] Instance producer_source : FifoContentSource ChunkProducer := {
  produce_chunk := cp_produce_chunk;
  cached_slice := cp_cached_slice;
  commit_written := cp_commit_written;
  discard_cached := invalidate;
  reserve_buf := ensure_buf;
  src_on_reconnect := cp_on_reconnect;
  is_ended := ended;
  src_submit_frame _ s := s;
  src_arm_startup_blank := arm_startup_blank;
  src_on_disarm := on_disarm;
  src_reset_output_filter _ s := s;
  src_set_color_delay _ s := s;
  take_stop_error := cp_take_stop_error;
}.

(** ** Reference semantics *)

(** [k] points repeating [l] cyclically. *)
Definition cycle (k : nat) (l : list LaserPoint) : list LaserPoint :=
  (fun i => default default_point (l !! (i mod length l)%nat)) <$> seq 0 k.

(** The raw content of the last committed chunk. *)
Definition last_raw (s : ChunkProducer) : list LaserPoint := take (last_chunk_len s) (last_chunk s).

(** [k] idle points, or [None] when the policy stops the session. *)
Definition idle_points (policy : IdlePolicy) (lastc : list LaserPoint) (is_armed : bool) (k : nat) :
    option (list LaserPoint) :=
  if is_armed then
    match policy with
    | Stop => None
    | RepeatLast => Some (if decide (lastc = []) then replicate k (blanked f0 f0) else cycle k lastc)
    | _ => Some (replicate k (park_point policy))
    end
  else Some (replicate k (park_point policy)).

(** The raw content of the chunk a callback result stands for: the callback's
    points, completed by idle points; [None] when the stream ends. *)
Definition chunk_content (policy : IdlePolicy) (lastc : list LaserPoint) (is_armed : bool)
    (window : list LaserPoint) (r : ChunkResult) : option (list LaserPoint) :=
  match r with
  | End_ => None
  | Starved | Filled 0 => idle_points policy lastc is_armed (length window)
  | Filled n =>
      if decide (length window <= n)%nat then Some window
      else Some (take n window ++ default [] (idle_points policy lastc is_armed (length window - n)))
  end.

(** ** Well-formedness *)
Record producer_wf (s : ChunkProducer) : Prop := {
  cwf_delay : delay_wf (color_delay_line s);
  cwf_cache : cp_cached s = true -> (cp_cached_len s <= length (cp_buf s))%nat;
  cwf_raw : (pending_raw_len s <= length (pending_raw s))%nat;
  cwf_raw_last : (pending_raw_len s <= length (last_chunk s))%nat;
  cwf_last : (last_chunk_len s <= length (last_chunk s))%nat;
}.

Lemma ensure_buf_wf n s : producer_wf s -> producer_wf (ensure_buf n s).
Proof.
  intros [H1 H2 H3 H4 H5]. split; simpl; rewrite ?grow_buf_length; try lia; [done|]. intros Hc. specialize (H2 Hc). lia.
Qed.

Lemma repeat_fill_spec lastc len k : forall offset i b,
  (0 < len)%nat -> (len <= length lastc)%nat -> (i + k <= length b)%nat ->
  repeat_fill lastc len k offset i b =
    Some (take i b ++ ((fun j => default default_point (take len lastc !! (j mod len)%nat)) <$> seq offset k)
            ++ drop (i + k) b).
Proof.
  induction k as [|k IH]; intros offset i b Hlen Hl Hi; simpl.
  { by rewrite Nat.add_0_r, take_drop. }
  assert (Hm : (offset mod len < len)%nat) by (by apply Nat.mod_upper_bound; lia).
  destruct (lookup_lt_is_Some_2 lastc (offset mod len)%nat) as [q Hq]; [lia|]. rewrite Hq. simpl.
  rewrite decide_True by lia. rewrite IH by (rewrite ?length_insert; lia). f_equal.
  rewrite lookup_take_lt, Hq by done. simpl.
  rewrite (take_S_r _ _ q) by (apply list_lookup_insert_eq; lia).
  rewrite take_insert_ge by done. rewrite drop_insert_lt by lia. rewrite <- app_assoc. simpl.
  repeat f_equal. lia.
Qed.

Lemma fill_idle_range_spec lo hi armed s :
  (lo <= hi <= length (cp_buf s))%nat -> (last_chunk_len s <= length (last_chunk s))%nat ->
  fill_idle_range lo hi armed s =
    Some (match idle_points (cp_idle_policy s) (last_raw s) armed (hi - lo) with
          | Some pts => (cp_upd_fill (producer s) (take lo (cp_buf s) ++ pts ++ drop hi (cp_buf s)) s, true)
          | None => (cp_upd_end true (Some ErrStopped) s, false)
          end).
Proof.
  intros Hr Hl. unfold fill_idle_range, idle_points.
  assert (Hw : forall q, write_at (cp_buf s) lo (replicate (hi - lo) q) =
            Some (take lo (cp_buf s) ++ replicate (hi - lo) q ++ drop hi (cp_buf s))).
  { intros q. rewrite write_at_Some by (rewrite length_replicate; lia). rewrite length_replicate.
    by replace (lo + (hi - lo))%nat with hi by lia. }
  destruct armed; [|by destruct (cp_idle_policy s); rewrite Hw].
  destruct (cp_idle_policy s); try (by rewrite Hw); [|done].
  unfold last_raw. case_decide as Hz.
  - rewrite repeat_fill_spec by lia. replace (lo + (hi - lo))%nat with hi by lia. simpl.
    rewrite decide_False.
    + unfold cycle. rewrite length_take, Nat.min_l by lia. done.
    + intros Hn. apply (f_equal length) in Hn. rewrite length_take in Hn. simpl in Hn. lia.
  - rewrite Hw. simpl. replace (last_chunk_len s) with 0%nat by lia. done.
Qed.

Lemma idle_points_length policy lastc armed k pts : idle_points policy lastc armed k = Some pts -> length pts = k.
Proof.
  unfold idle_points, cycle. intros Hp.
  destruct armed, policy; try discriminate Hp; injection Hp as <-;
    try case_decide; by rewrite ?length_replicate, ?length_fmap, ?length_seq.
Qed.

(** The fields [settle] leaves alone. *)
Definition core (s : ChunkProducer) :=
  (cp_idle_policy s, last_chunk s, last_chunk_len s, pending_raw s, pending_raw_len s, color_delay_line s,
   cp_startup_blank_remaining s, current_instant s, chunks_written (stats s), points_written (stats s)).

Definition settled (raw : option (list LaserPoint)) (target : nat) (o : option (ChunkProducer * option nat))
    (s s' : ChunkProducer) : Prop :=
  match raw with
  | Some raw => o = Some (s', Some (length raw)) /\ (0 < length raw <= target)%nat /\
                take (length raw) (cp_buf s') = raw
  | None => o = Some (s', None) /\ ended s' = true /\ cp_cached s' = false
  end /\ core s' = core s /\ length (cp_buf s') = length (cp_buf s) /\ producer s' = producer s.

Lemma settle_starved target armed s :
  (0 < target <= length (cp_buf s))%nat -> (last_chunk_len s <= length (last_chunk s))%nat ->
  exists s', settled (idle_points (cp_idle_policy s) (last_raw s) armed target) target
    (settle Starved target armed s) s s'.
Proof.
  intros Ht Hl. unfold settle, fill_idle. rewrite fill_idle_range_spec by (simpl; lia).
  change (last_raw (count_underrun s)) with (last_raw s). rewrite Nat.sub_0_r. simpl.
  destruct (idle_points _ _ _ _) as [pts|] eqn:Hp; simpl; eexists.
  - apply idle_points_length in Hp. unfold settled. rewrite Hp.
    split; [split; [reflexivity|split; [lia|]]|split; [done|split; [|done]]]; simpl.
    + rewrite take_app_le, take_ge by lia. done.
    + rewrite length_app, length_drop. lia.
  - by split.
Qed.

Lemma settle_spec r target armed s :
  (0 < target <= length (cp_buf s))%nat -> (last_chunk_len s <= length (last_chunk s))%nat ->
  exists s', settled (chunk_content (cp_idle_policy s) (last_raw s) armed (take target (cp_buf s)) r) target
    (settle (match r with Filled 0 => Starved | other => other end) target armed s) s s'.
Proof.
  intros Ht Hl. set (window := take target (cp_buf s)).
  assert (Hlen : length window = target) by (subst window; rewrite length_take; lia).
  destruct r as [[|n]| |]; cbn [chunk_content]; rewrite ?Hlen;
    [by apply settle_starved| |by apply settle_starved|eexists; by split].
  case_decide as Hn; unfold settle.
  - exists s. rewrite decide_True by lia. unfold settled. rewrite Hlen, Nat.min_r by lia. by repeat split; lia || done.
  - rewrite decide_False by lia. rewrite fill_idle_range_spec by lia. rewrite Nat.min_l by lia.
    assert (Htake : take (S n) (cp_buf s) = take (S n) window)
      by (subst window; rewrite take_take; f_equal; lia).
    destruct (idle_points _ _ _ _) as [pts|] eqn:Hp; cbn [mbind option_bind default id].
    + apply idle_points_length in Hp. eexists. unfold settled. rewrite length_app, length_take, Hlen, Hp.
      replace (S n `min` target + (target - S n))%nat with target by lia. rewrite Htake.
      split; [split; [reflexivity|split; [lia|]]|split; [done|split; [|done]]]; cbn [cp_upd_fill cp_buf].
      * rewrite app_assoc, take_app_le, (take_ge (_ ++ _)) by (rewrite length_app, length_take, Hlen, Hp; lia). done.
      * rewrite !length_app, length_take, length_drop, Hlen, Hp. lia.
    + eexists. unfold settled. rewrite app_nil_r, length_take, Hlen, Nat.min_l by lia.
      rewrite decide_False by lia. split; [split; [reflexivity|split; [lia|done]]|done].
Qed.

Lemma last_raw_grow n s : producer_wf s -> last_raw (ensure_buf n s) = last_raw s.
Proof. intros Hwf. unfold last_raw. simpl. apply grow_buf_prefix, Hwf. Qed.

(** Blanking and delay on a raw chunk of [n] points. *)
Lemma present_chunk_spec n pps armed d s :
  delay_wf (color_delay_line s) -> (n <= length (cp_buf s))%nat ->
  let b := apply_blanking armed (cp_startup_blank_remaining s) (take n (cp_buf s)) (cp_idle_policy s) in
  exists line out,
    apply_delay b.2 (resize (Z.to_nat (duration_to_points d pps)) (color_delay_line s)) = Some (line, out) /\
    delay_wf line /\ length out = n /\
    apply_blanking_and_color_delay n pps armed d s =
      Some (cp_upd_fill (producer s) (out ++ drop n (cp_buf s)) (cp_upd_delay line b.1 s)).
Proof.
  intros Hd Hn b. unfold apply_blanking_and_color_delay. rewrite slice_to_Some by done. simpl.
  fold b. assert (Hl : length b.2 = n) by (unfold b; rewrite apply_blanking_length, length_take; lia).
  destruct b as [rem s1]. simpl in Hl |- *.
  destruct (apply_delay_spec (resize (Z.to_nat (duration_to_points d pps)) (color_delay_line s)) s1)
    as (line & out & Hap & _ & Hwf & _ & _ & Hpos); [by apply delay_wf_resize|].
  exists line, out. rewrite Hap. simpl. split; [done|]. split; [done|]. split; [|done].
  by rewrite <- (length_fmap position), Hpos, length_fmap.
Qed.

(** What one call produces, in terms of the callback's answer. *)
Lemma cp_produce_spec d target pps armed s p1 window r :
  producer_wf s -> ended s = false -> target <> 0%nat ->
  fill (mkRequest (current_instant s) pps target) (take target (grow_buf target (cp_buf s))) (producer s)
    = (p1, window, r) ->
  exists s' slice, cp_produce_chunk d target pps armed s = Some (s', slice) /\ producer_wf s' /\
    producer s' = p1 /\ cp_idle_policy s' = cp_idle_policy s /\ last_raw s' = last_raw s /\
    current_instant s' = current_instant s /\
    (chunks_written (stats s') = chunks_written (stats s) /\ points_written (stats s') = points_written (stats s)) /\
    match chunk_content (cp_idle_policy s) (last_raw s) armed window r with
    | None => slice = [] /\ ended s' = true /\ cp_cached_slice s' = None /\ color_delay_line s' = color_delay_line s
    | Some raw =>
        take (pending_raw_len s') (pending_raw s') = raw /\ pending_raw_len s' = length raw /\
        (0 < length raw <= target)%nat /\ cp_cached_slice s' = Some slice /\ length slice = length raw /\
        let b := apply_blanking armed (cp_startup_blank_remaining s) raw (cp_idle_policy s) in
        cp_startup_blank_remaining s' = b.1 /\
        apply_delay b.2 (resize (Z.to_nat (duration_to_points d pps)) (color_delay_line s))
          = Some (color_delay_line s', slice)
    end.
Proof.
  intros Hwf He Ht Hfill. unfold cp_produce_chunk. rewrite He, decide_False by done. cbv zeta.
  set (s1 := ensure_buf target s).
  assert (Hw1 : producer_wf s1) by (by apply ensure_buf_wf).
  assert (Hg : (target <= length (cp_buf s1))%nat) by (simpl; rewrite grow_buf_length; lia).
  assert (Hgl : (target <= length (last_chunk s1))%nat) by (simpl; rewrite grow_buf_length; lia).
  assert (Hgr : (target <= length (pending_raw s1))%nat) by (simpl; rewrite grow_buf_length; lia).
  assert (Hlr : last_raw s1 = last_raw s) by (by apply last_raw_grow).
  rewrite slice_to_Some by done. cbn [mbind option_bind].
  pose proof (fill_length (mkRequest (current_instant s) pps target)
    (take target (grow_buf target (cp_buf s))) (producer s)) as Hfl.
  rewrite Hfill in Hfl. change (length window = length (take target (cp_buf s1))) in Hfl.
  rewrite length_take, Nat.min_l in Hfl by lia.
  change (fill (build_request target pps s1) (take target (cp_buf s1)) (producer s1)) with
    (fill (mkRequest (current_instant s) pps target) (take target (grow_buf target (cp_buf s))) (producer s)).
  rewrite Hfill. set (s2 := cp_upd_fill p1 (window ++ drop target (cp_buf s1)) s1).
  assert (Hb2 : length (cp_buf s2) = length (cp_buf s1)) by (unfold s2; cbn [cp_upd_fill cp_buf]; rewrite length_app, length_drop, Hfl; lia).
  assert (Hwin : take target (cp_buf s2) = window) by (unfold s2; cbn [cp_upd_fill cp_buf]; rewrite take_app_length' by lia; done).
  destruct (settle_spec r target armed s2) as (s3 & Hset & Hcore & Hb3 & Hp3); [lia|apply Hw1|].
  rewrite Hwin in Hset. change (last_raw s2) with (last_raw s1) in Hset. rewrite Hlr in Hset.
  change (cp_idle_policy s2) with (cp_idle_policy s) in Hset.
  injection Hcore as Hpol Hlc Hlcl Hpr Hprl Hcd Hrem Hci Hcw Hpw.
  change (pending_raw s3 = pending_raw s1) in Hpr. change (last_chunk s3 = last_chunk s1) in Hlc.
  assert (Hl3 : last_raw s3 = last_raw s) by (unfold last_raw at 1; rewrite Hlc, Hlcl; exact Hlr).
  assert (Hlast3 : (last_chunk_len s3 <= length (last_chunk s3))%nat) by (rewrite Hlc, Hlcl; apply Hw1).
  destruct (chunk_content _ _ _ _ _) as [raw|].
  - destruct Hset as (-> & Hlen & Hraw). cbn [mbind option_bind].
    rewrite slice_to_Some by lia. cbn [mbind option_bind]. rewrite Hraw.
    rewrite write_at_0 by (rewrite Hpr; lia). cbn [mbind option_bind].
    edestruct (present_chunk_spec (length raw) pps armed d) as (line & out & Hap & Hwl & Hout & ->);
      [..|]; cycle 2.
    + cbn [mbind option_bind cp_upd_fill cp_upd_delay cp_upd_raw cp_buf] in *.
      rewrite slice_to_Some by (rewrite length_app; lia). cbn [mbind option_bind].
      rewrite take_app_length' by lia. eexists _, _. split; [reflexivity|].
      cbn in Hap. rewrite Hraw, Hpol, Hrem, Hcd in Hap.
      split; [split; cbn; try done|].
      * rewrite length_app. lia.
      * rewrite length_app, length_drop, Hpr. lia.
      * rewrite Hlc. lia.
      * split; [exact Hp3|]. split; [exact Hpol|]. split; [exact Hl3|]. split; [exact Hci|]. split; [done|]. cbn.
        split; [rewrite take_app_length' by lia; done|].
        split; [done|]. split; [lia|]. unfold cp_cached_slice. cbn.
        split; [rewrite take_app_length' by lia; done|]. split; [done|].
        split; [|done]. by rewrite Hraw, Hpol, Hrem.
    + cbn. rewrite Hcd. apply Hw1.
    + cbn. lia.
  - destruct Hset as (-> & Hend & Hca). cbn [mbind option_bind]. eexists _, _. split; [reflexivity|].
    split; [split|].
    + rewrite Hcd. apply Hw1.
    + by rewrite Hca.
    + rewrite Hpr, Hprl. apply Hw1.
    + rewrite Hlc, Hprl. apply Hw1.
    + done.
    + do 7 (split; [done|]). split; [|exact Hcd]. unfold cp_cached_slice. by rewrite Hca.
Qed.

(** A call that does not reach the callback. *)
Lemma cp_produce_idle d target pps armed s :
  producer_wf s -> ended s = true \/ target = 0%nat ->
  exists s', cp_produce_chunk d target pps armed s = Some (s', []) /\ producer_wf s' /\
    color_delay_line s' = color_delay_line s /\ cp_idle_policy s' = cp_idle_policy s /\
    current_instant s' = current_instant s /\ stats s' = stats s.
Proof.
  intros Hwf Hcase. unfold cp_produce_chunk. destruct (ended s); [by exists s|].
  destruct Hcase as [|Ht]; [done|]. rewrite decide_True by done. eexists. split; [done|].
  split; [|done]. destruct Hwf. by split.
Qed.

(** The raw content of the chunk produced and not yet retired. *)
Definition pending_content (s : ChunkProducer) : list LaserPoint := take (pending_raw_len s) (pending_raw s).

Lemma cp_commit_spec n armed s :
  producer_wf s ->
  exists s', cp_commit_written n armed s = Some s' /\ producer_wf s' /\ cp_cached_slice s' = None /\
    last_raw s' = (if armed && bool_decide (0 < n)%nat then take n (pending_content s) else last_raw s) /\
    current_instant s' = add_points (current_instant s) (Z.of_nat n) /\
    color_delay_line s' = color_delay_line s /\ cp_idle_policy s' = cp_idle_policy s /\ ended s' = ended s /\
    stats s' = mkStats (underrun_count (stats s)) (reconnect_count (stats s))
      (fetch_add (chunks_written (stats s)) 1) (fetch_add (points_written (stats s)) (Z.of_nat n)).
Proof.
  intros [H1 H2 H3 H4 H5]. unfold cp_commit_written. destruct (armed && _).
  - rewrite slice_to_Some by lia. cbn [mbind option_bind].
    rewrite write_at_0 by (rewrite length_take; lia). cbn [mbind option_bind].
    eexists. split; [reflexivity|]. split; [split; cbn; try done|].
    + rewrite length_app, length_take, length_drop. lia.
    + rewrite length_app, length_take. lia.
    + split; [done|]. split; [|done]. unfold last_raw, pending_content. cbn.
      rewrite take_app_length' by (rewrite length_take; lia). by rewrite take_take.
  - eexists. split; [reflexivity|]. by split.
Qed.

Lemma cp_on_reconnect_wf n s :
  producer_wf s -> producer_wf (cp_on_reconnect n s) /\ cp_cached_slice (cp_on_reconnect n s) = None /\
    dark_carry (color_delay_line (cp_on_reconnect n s)).
Proof.
  intros [H1 H2 H3 H4 H5]. split; [|split; [done|apply dark_carry_reset]].
  split; cbn; try lia. by apply delay_wf_reset.
Qed.

(** ** ChunkProducer satisfies the cache contract *)
#[export] Instance producer_source_laws : FifoContentSourceLaws ChunkProducer.
Proof.
  refine {| source_wf := producer_wf |}; cbn [produce_chunk cached_slice commit_written discard_cached reserve_buf
    src_on_reconnect src_submit_frame src_arm_startup_blank src_on_disarm src_reset_output_filter
    src_set_color_delay take_stop_error producer_source].
  - intros d target pps armed s Hwf. destruct (decide (ended s = true \/ target = 0%nat)) as [Hc|Hc].
    + destruct (cp_produce_idle d target pps armed s Hwf Hc) as (s' & Hp & Hwf' & _).
      exists s', []. split; [done|]. split; [done|]. simpl. lia.
    + destruct (fill (mkRequest (current_instant s) pps target) (take target (grow_buf target (cp_buf s)))
        (producer s)) as [[p1 w] r] eqn:Hf.
      destruct (cp_produce_spec d target pps armed s p1 w r Hwf) as (s' & sl & Hp & Hwf' & _ & _ & _ & _ & _ & Hm);
        [destruct (ended s); naive_solver|naive_solver|done|].
      exists s', sl. split; [done|]. split; [done|]. destruct (chunk_content _ _ _ _ _); [|destruct Hm as [-> _]; simpl; lia].
      destruct Hm as (_ & _ & ? & _ & ? & _). lia.
  - intros d target pps armed s s' slice Hwf Hp Hne. destruct (decide (ended s = true \/ target = 0%nat)) as [Hc|Hc].
    + destruct (cp_produce_idle d target pps armed s Hwf Hc) as (s1 & Hp' & _). congruence.
    + destruct (fill (mkRequest (current_instant s) pps target) (take target (grow_buf target (cp_buf s)))
        (producer s)) as [[p1 w] r] eqn:Hf.
      destruct (cp_produce_spec d target pps armed s p1 w r Hwf) as (s1 & sl & Hp' & _ & _ & _ & _ & _ & _ & Hm);
        [destruct (ended s); naive_solver|naive_solver|done|].
      rewrite Hp in Hp'. injection Hp' as <- <-. destruct (chunk_content _ _ _ _ _); [by destruct Hm as (_ & _ & _ & ? & _)|].
      by destruct Hm as [-> _].
  - intros n armed s Hwf. destruct (cp_commit_spec n armed s Hwf) as (s' & ? & ? & ? & _). by exists s'.
  - done.
  - intros s []. by split.
  - apply ensure_buf_wf.
  - intros n s Hwf. unfold cp_cached_slice. simpl. destruct (cp_cached s) eqn:Hc; [|done].
    f_equal. apply grow_buf_prefix. by apply Hwf.
  - intros n s Hwf. by apply cp_on_reconnect_wf.
  - intros n s Hwf. by apply cp_on_reconnect_wf.
  - intros s [H1 H2 H3 H4 H5]. repeat apply conj; intros; split; try done. by apply delay_wf_reset.
Defined.

(** ** Runs of a streaming session between two arm/disarm edges *)

Inductive producer_op :=
  | CpProduce (delay : Z) (target : nat) (pps : Z)
  | CpCommit (n : nat)
  | CpDiscard
  | CpReserve (n : nat)
  | CpReconnect (max_points : nat).

Definition run_producer_op (armed : bool) (op : producer_op) (s : ChunkProducer) :
    option (ChunkProducer * list LaserPoint) :=
  match op with
  | CpProduce d target pps => cp_produce_chunk d target pps armed s
  | CpCommit n => s ← cp_commit_written n armed s; Some (s, [])
  | CpDiscard => Some (invalidate s, [])
  | CpReserve n => Some (ensure_buf n s, [])
  | CpReconnect n => Some (cp_on_reconnect n s, [])
  end.

Fixpoint run_producer (armed : bool) (ops : list producer_op) (s : ChunkProducer) :
    option (ChunkProducer * list LaserPoint) :=
  match ops with
  | [] => Some (s, [])
  | op :: ops =>
      '(s1, o1) ← run_producer_op armed op s;
      '(s2, o2) ← run_producer armed ops s1;
      Some (s2, o1 ++ o2)
  end.

(** The sizes of the committed writes of a run. *)
Definition committed (ops : list producer_op) : list Z :=
  omap (fun op => match op with CpCommit n => Some (Z.of_nat n) | _ => None end) ops.

Definition sumZ (l : list Z) : Z := foldr Z.add 0 l.

(** Any single operation keeps the producer well formed, advances the position
    and counters by what it committed, and emits only parked points when the
    producer is disarmed with a dark delay line. *)
Lemma run_producer_op_spec armed op s :
  producer_wf s ->
  exists s' out, run_producer_op armed op s = Some (s', out) /\ producer_wf s' /\
    cp_idle_policy s' = cp_idle_policy s /\
    current_instant s' = foldl add_points (current_instant s) (committed [op]) /\
    chunks_written (stats s') = foldl (fun a _ => fetch_add a 1) (chunks_written (stats s)) (committed [op]) /\
    points_written (stats s') = foldl fetch_add (points_written (stats s)) (committed [op]) /\
    (armed = false -> dark_carry (color_delay_line s) ->
       Forall (eq (park_point (cp_idle_policy s))) out /\ dark_carry (color_delay_line s')).
Proof.
  intros Hwf. destruct op as [d target pps|n| |n|n]; cbn [run_producer_op committed omap list_omap foldl].
  - destruct (decide (ended s = true \/ target = 0%nat)) as [Hc|Hc].
    + destruct (cp_produce_idle d target pps armed s Hwf Hc) as (s' & Hp & Hwf' & Hl & Hi & Hci & Hst).
      exists s', []. rewrite Hl, Hst. by split.
    + destruct (fill (mkRequest (current_instant s) pps target) (take target (grow_buf target (cp_buf s)))
        (producer s)) as [[p1 w] r] eqn:Hf.
      destruct (cp_produce_spec d target pps armed s p1 w r Hwf)
        as (s' & sl & Hp & Hwf' & _ & Hpol & _ & Hci & [Hcw Hpw] & Hm);
        [destruct (ended s); naive_solver|naive_solver|done|].
      exists s', sl. do 6 (split; [done|]). intros -> Hdark.
      destruct (chunk_content _ _ _ _ _) as [raw|]; [|by destruct Hm as (-> & _ & _ & ->)].
      destruct Hm as (_ & _ & _ & _ & _ & _ & Hap). unfold apply_blanking in Hap. simpl in Hap.
      edestruct (apply_delay_park (length raw) (park_point (cp_idle_policy s))) as (l' & Hap' & _ & Hdk);
        [apply delay_wf_resize, Hwf|apply dark_carry_resize, Hdark|apply park_point_dark|].
      rewrite Hap in Hap'. injection Hap' as -> ->. split; [by apply Forall_replicate|done].
  - destruct (cp_commit_spec n armed s Hwf) as (s' & -> & Hwf' & _ & _ & Hci & Hcd & Hpol & _ & Hst).
    exists s', []. rewrite Hst, Hcd. by split.
  - exists (invalidate s), []. split; [done|]. split; [destruct Hwf; by split|done].
  - exists (ensure_buf n s), []. split; [done|]. split; [by apply ensure_buf_wf|done].
  - exists (cp_on_reconnect n s), []. destruct (cp_on_reconnect_wf n s Hwf) as (Hwf' & _ & Hd).
    split; [done|]. split; [done|]. by repeat split.
Qed.

Lemma committed_cons op ops : committed (op :: ops) = committed [op] ++ committed ops.
Proof. unfold committed. by destruct op. Qed.

Lemma run_producer_spec armed ops : forall s,
  producer_wf s ->
  exists s' out, run_producer armed ops s = Some (s', out) /\ producer_wf s' /\
    current_instant s' = foldl add_points (current_instant s) (committed ops) /\
    chunks_written (stats s') = foldl (fun a _ => fetch_add a 1) (chunks_written (stats s)) (committed ops) /\
    points_written (stats s') = foldl fetch_add (points_written (stats s)) (committed ops) /\
    (armed = false -> dark_carry (color_delay_line s) -> Forall (eq (park_point (cp_idle_policy s))) out).
Proof.
  induction ops as [|op ops IH]; intros s Hwf; [exists s, []; do 5 (split; [done|]); by intros|].
  destruct (run_producer_op_spec armed op s Hwf) as (s1 & o1 & Hr & Hwf1 & Hpol & Hci & Hcw & Hpw & Hpark).
  destruct (IH s1 Hwf1) as (s2 & o2 & Hr2 & Hwf2 & Hci2 & Hcw2 & Hpw2 & Hpark2).
  exists s2, (o1 ++ o2). cbn [run_producer]. rewrite Hr. cbn [mbind option_bind]. rewrite Hr2.
  split; [done|]. split; [done|]. rewrite committed_cons, !foldl_app, <- Hci, <- Hcw, <- Hpw.
  split; [done|]. split; [done|]. split; [done|]. intros Ha Hd. destruct (Hpark Ha Hd) as [H1 H2].
  rewrite Hpol in Hpark2. apply Forall_app. auto.
Qed.

End producer.

Arguments ChunkProducer : clear implicits.

(** ** Folds of the counters *)

Lemma committed_nonneg ops : Forall (Z.le 0) (committed ops).
Proof.
  induction ops as [|op ops IH]; [done|]. rewrite committed_cons. apply Forall_app. split; [|done].
  destruct op; simpl; [done| |done..]. apply Forall_singleton. lia.
Qed.

Lemma sumZ_nonneg l : Forall (Z.le 0) l -> 0 <= sumZ l.
Proof. induction 1; simpl in *; lia. Qed.

Lemma fold_add_points l i :
  Forall (Z.le 0) l -> 0 <= i <= umax 64 -> foldl add_points i l = sat_add 64 i (sumZ l).
Proof.
  intros Hl. revert i. induction Hl as [|n l Hn Hl IH]; intros i Hi; simpl.
  - unfold sat_add. lia.
  - rewrite IH; unfold add_points, sat_add in *; [|lia]. pose proof (sumZ_nonneg l Hl). lia.
Qed.

Lemma fold_fetch_add l a : 0 <= a < 2 ^ 64 -> foldl fetch_add a l = wrapu 64 (a + sumZ l).
Proof.
  revert a. induction l as [|n l IH]; intros a Ha; simpl.
  - unfold wrapu. rewrite Z.mod_small; lia.
  - rewrite IH; unfold fetch_add, wrapu; [|apply Z.mod_pos_bound; lia].
    rewrite Zplus_mod_idemp_l. f_equal. lia.
Qed.

Lemma fold_fetch_one (l : list Z) a : 0 <= a < 2 ^ 64 -> foldl (fun a _ => fetch_add a 1) a l = wrapu 64 (a + Z.of_nat (length l)).
Proof.
  revert a. induction l as [|n l IH]; intros a Ha; simpl.
  - unfold wrapu. rewrite Z.mod_small; lia.
  - rewrite IH; unfold fetch_add, wrapu; [|apply Z.mod_pos_bound; lia].
    rewrite Zplus_mod_idemp_l. f_equal. lia.
Qed.

(** A callback for the witnesses: it fills three red points once, then starves. *)
#[local] Instance demo_fill : FillFn bool := fun _ buf first =>
  if (first : bool) then (false, zip_with (fun q (_ : nat) => mkLaserPoint f1 f0 65535 0 0 65535) buf (seq 0 (length buf)), Filled 3)
  else (false, buf, Starved).

#[local] Instance demo_fill_ok : FillFnOk bool.
Proof. intros req buf []; simpl; [|done]. rewrite length_zip_with, length_seq. lia. Qed.

Definition demo_stats : StreamStats := mkStats 0 0 0 0.

Definition demo_producer : ChunkProducer bool := new_producer true RepeatLast 1000000 4 demo_stats.

Lemma demo_producer_wf : producer_wf demo_producer.
Proof. split; cbn; try done; lia. Qed.

(** ** Theorems *)

(** Streaming accounting: whatever a session does to a ChunkProducer
    (produce, commit, discard, reserve, reconnect, in any order), no operation
    panics, the stream position handed to the callback advances by exactly the
    committed points (saturating at [u64::MAX]) and the shared counters count
    exactly the committed chunks and points modulo 2^64; discarded chunks count
    for nothing. *)
Theorem producer_accounting {P} `{FillFnOk P} armed ops (s : ChunkProducer P) :
  producer_wf s -> 0 <= current_instant s <= umax 64 ->
  0 <= chunks_written (stats s) < 2 ^ 64 -> 0 <= points_written (stats s) < 2 ^ 64 ->
  exists s' out, run_producer armed ops s = Some (s', out) /\ producer_wf s' /\
    current_instant s' = sat_add 64 (current_instant s) (sumZ (committed ops)) /\
    chunks_written (stats s') = wrapu 64 (chunks_written (stats s) + Z.of_nat (length (committed ops))) /\
    points_written (stats s') = wrapu 64 (points_written (stats s) + sumZ (committed ops)) /\
    forall target pps, req_start (build_request target pps s') = current_instant s'.
Proof.
  intros Hwf Hi Hc Hp.
  destruct (run_producer_spec armed ops s Hwf) as (s' & out & Hr & Hwf' & Hci & Hcw & Hpw & _).
  exists s', out. split; [done|]. split; [done|].
  split; [by rewrite Hci, fold_add_points by (done || apply committed_nonneg)|].
  split; [by rewrite Hcw, fold_fetch_one|]. split; [by rewrite Hpw, fold_fetch_add|done].
Qed.

Lemma producer_accounting_witness :
  exists s' out, run_producer true [CpProduce 0 5 30000; CpCommit 5; CpProduce 0 2 30000; CpDiscard;
      CpProduce 0 2 30000; CpCommit 2] demo_producer = Some (s', out) /\ producer_wf s' /\
    current_instant s' = 7 /\ chunks_written (stats s') = 2 /\ points_written (stats s') = 7 /\
    forall target pps, req_start (build_request target pps s') = current_instant s'.
Proof.
  apply (producer_accounting true [CpProduce 0 5 30000; CpCommit 5; CpProduce 0 2 30000; CpDiscard;
    CpProduce 0 2 30000; CpCommit 2] demo_producer demo_producer_wf); vm_compute; split; congruence.
Defined.

(** Disarmed streams are dark: from the disarm edge on, whatever the
    callback supplies and whatever is committed, discarded or reconnected, every
    point a ChunkProducer emits while disarmed is the blank park point of the
    idle policy. *)
Theorem producer_disarmed_is_parked {P} `{FillFnOk P} ops (s : ChunkProducer P) :
  producer_wf s ->
  exists s' out, run_producer false ops (on_disarm s) = Some (s', out) /\
    Forall (fun q => q = park_point (cp_idle_policy s) /\ is_dark q) out.
Proof.
  intros Hwf. destruct (run_producer_spec false ops (on_disarm s)) as (s' & out & Hr & _ & _ & _ & _ & Hpark).
  { destruct Hwf. split; cbn; try done. by apply delay_wf_reset. }
  exists s', out. split; [done|]. eapply Forall_impl; [apply Hpark; [done|apply dark_carry_reset]|].
  intros q <-. split; [done|apply park_point_dark].
Qed.

Lemma producer_disarmed_is_parked_witness :
  exists s' out, run_producer false [CpProduce 100000 5 30000; CpCommit 5; CpReconnect 8; CpProduce 100000 2 30000]
      (on_disarm demo_producer) = Some (s', out) /\
    Forall (fun q => q = park_point RepeatLast /\ is_dark q) out.
Proof.
  exact (producer_disarmed_is_parked [CpProduce 100000 5 30000; CpCommit 5; CpReconnect 8; CpProduce 100000 2 30000]
    demo_producer demo_producer_wf).
Defined.

(** A chunk is the callback's content: every produced chunk is the
    callback's points on the requested window (short answers completed by the
    idle policy), blanked and then delayed exactly once; it is cached for a
    retry; the raw, undelayed content is kept aside; and the producer ends, with
    an empty slice, exactly when the callback ends or the policy is [Stop] and
    nothing was supplied. *)
Theorem produced_chunk_content {P} `{FillFnOk P} d target pps armed (s : ChunkProducer P) p1 window r :
  producer_wf s -> ended s = false -> target <> 0%nat ->
  fill (mkRequest (current_instant s) pps target) (take target (grow_buf target (cp_buf s))) (producer s)
    = (p1, window, r) ->
  exists s' slice, cp_produce_chunk d target pps armed s = Some (s', slice) /\ producer s' = p1 /\
    match chunk_content (cp_idle_policy s) (last_raw s) armed window r with
    | None => slice = [] /\ ended s' = true
    | Some raw =>
        pending_content s' = raw /\ cp_cached_slice s' = Some slice /\ length slice = length raw /\
        let b := apply_blanking armed (cp_startup_blank_remaining s) raw (cp_idle_policy s) in
        cp_startup_blank_remaining s' = b.1 /\
        apply_delay b.2 (resize (Z.to_nat (duration_to_points d pps)) (color_delay_line s))
          = Some (color_delay_line s', slice)
    end.
Proof.
  intros Hwf He Ht Hf.
  destruct (cp_produce_spec d target pps armed s p1 window r Hwf He Ht Hf)
    as (s' & slice & Hp & _ & Hp1 & _ & _ & _ & _ & Hm).
  exists s', slice. split; [done|]. split; [done|]. destruct (chunk_content _ _ _ _ _) as [raw|].
  - destruct Hm as (H1 & _ & _ & H2 & H3 & H4). done.
  - by destruct Hm as (-> & ? & _).
Qed.

Lemma produced_chunk_content_witness :
  exists s' slice, cp_produce_chunk 0 5 30000 true demo_producer = Some (s', slice) /\
    pending_content s' = replicate 3 (mkLaserPoint f1 f0 65535 0 0 65535) ++ replicate 2 (blanked f0 f0) /\
    cp_cached_slice s' = Some slice.
Proof.
  destruct (produced_chunk_content 0 5 30000 true demo_producer false
    (replicate 5 (mkLaserPoint f1 f0 65535 0 0 65535)) (Filled 3)) as (s' & slice & Hp & _ & Hm).
  - exact demo_producer_wf.
  - reflexivity.
  - done.
  - reflexivity.
  - exists s', slice. split; [exact Hp|]. exact (conj (proj1 Hm) (proj1 (proj2 Hm))).
Defined.

(** [RepeatLast] replays raw content: after a write of [n] points is
    committed while armed, a starved request is answered by the committed
    chunk's raw points, repeated cyclically, sent through blanking and the
    continuous delay line once, exactly as if the callback had supplied them. *)
Theorem starved_chunk_repeats_raw {P} `{FillFnOk P} d target pps n (s s1 : ChunkProducer P) p1 window :
  producer_wf s -> ended s = false -> cp_idle_policy s = RepeatLast ->
  target <> 0%nat -> take n (pending_content s) <> [] ->
  cp_commit_written n true s = Some s1 ->
  fill (mkRequest (current_instant s1) pps target) (take target (grow_buf target (cp_buf s1))) (producer s1)
    = (p1, window, Starved) ->
  exists s2 slice, cp_produce_chunk d target pps true s1 = Some (s2, slice) /\
    pending_content s2 = cycle target (take n (pending_content s)) /\ length slice = target /\
    apply_delay (apply_blanking true (cp_startup_blank_remaining s1) (cycle target (take n (pending_content s))) RepeatLast).2
      (resize (Z.to_nat (duration_to_points d pps)) (color_delay_line s)) = Some (color_delay_line s2, slice).
Proof.
  intros Hwf He Hpol Ht Hne Hc Hf.
  destruct (cp_commit_spec n true s Hwf) as (s' & Hc' & Hwf1 & _ & Hlast & _ & Hcd & Hpol1 & He1 & _).
  rewrite Hc in Hc'. injection Hc' as <-.
  assert (Hn : bool_decide (0 < n)%nat = true)
    by (apply bool_decide_eq_true; destruct n; [by rewrite take_0 in Hne|lia]).
  rewrite Hn in Hlast. simpl in Hlast.
  assert (Hlen : length window = target).
  { pose proof (fill_length (mkRequest (current_instant s1) pps target)
      (take target (grow_buf target (cp_buf s1))) (producer s1)) as Hl. rewrite Hf in Hl. simpl in Hl.
    rewrite Hl, length_take, grow_buf_length. lia. }
  destruct (cp_produce_spec d target pps true s1 p1 window Starved Hwf1) as (s2 & slice & Hp & _ & _ & _ & _ & _ & _ & Hm);
    [congruence|done|done|].
  rewrite Hpol1, Hpol, Hlast in Hm. cbn [chunk_content idle_points] in Hm.
  rewrite decide_False, Hlen, Hcd in Hm by done.
  destruct Hm as (Hraw & _ & _ & _ & Hls & _ & Hap). exists s2, slice. split; [done|]. split; [exact Hraw|].
  split; [|exact Hap]. rewrite Hls. unfold cycle. by rewrite length_fmap, length_seq.
Qed.

Lemma starved_chunk_repeats_raw_witness :
  exists s s1 s2 slice, cp_produce_chunk 0 3 30000 true demo_producer = Some (s, replicate 3 (mkLaserPoint f1 f0 65535 0 0 65535)) /\
    cp_commit_written 3 true s = Some s1 /\ cp_produce_chunk 0 4 30000 true s1 = Some (s2, slice) /\
    pending_content s2 = replicate 4 (mkLaserPoint f1 f0 65535 0 0 65535).
Proof.
  pose (s := (default (demo_producer, []) (cp_produce_chunk 0 3 30000 true demo_producer)).1).
  pose (s1 := default demo_producer (cp_commit_written 3 true s)).
  assert (Hwf : producer_wf s) by (split; vm_compute; try done; lia).
  destruct (starved_chunk_repeats_raw 0 4 30000 3 s s1 false
    (grow_buf 4 (cp_buf s1)) Hwf) as (s2 & slice & Hp & Hc & _).
  - reflexivity.
  - reflexivity.
  - done.
  - done.
  - reflexivity.
  - reflexivity.
  - exists s, s1, s2, slice. split; [vm_compute; reflexivity|]. split; [reflexivity|]. split; [exact Hp|].
    rewrite Hc. reflexivity.
Defined.
