(* ===== verification/World.v ===== *)
(** * The scheduler's world

    The driver thread's view of a session: the shared control, the device, the
    content source, the clock, and the trace of what the driver has done.  Other
    threads act between any two of the driver's accesses to shared state: each
    access first lets the next block of interference of [w_env] happen (control
    calls, a submitted frame, time passing), so a theorem for every [w_env] is a
    theorem for every interleaving.

    [M A] is the driver's monad.  A computation ends with a result, a panic, or
    out of fuel (its loops have fuel); all three keep the world reached, so
    safety theorems speak about every prefix of an execution. *)

From S2P Require Import Prelude Floats Point Presentation Session Backend ContentSource.

(** Driver knowledge of the shutter ([ShutterState] of [output_model/mod.rs]). *)
Inductive ShutterState :=
  | Open_
  | Closed
  | Unknown.

#[export] Instance ShutterState_eq_dec : EqDecision ShutterState.
Proof. solve_decision. Defined.

(** What the driver does, in order, as seen from outside. *)
Inductive event :=
  | EvShutter (open ok : bool)
  | EvWrite (pps : Z) (points : list LaserPoint) (r : result WriteOutcome)
  | EvCommit (n : nat)
  | EvResetBuffer (ok : bool)
  | EvDisconnect
  | EvStop
  | EvLost
  | EvNewDevice
  | EvSourceArm
  | EvSourceDisarm
  | EvError (e : Error).

(** One block of interference by other threads. *)
Record interference := mkInterference {
  i_ops : list ctl_op;
  i_frame : option Frame;
  i_elapsed : Z;
}.

Section world.
Context {FB SB S FS : Type}.

(** [SourceOwned] of [driver.rs]. *)
Inductive SourceOwned :=
  | SrcFifo (s : S)
  | SrcFrame (s : FS).

Record World := mkWorld {
  w_ctl : SessionControl;
  w_env : list interference;
  w_now : Z;
  w_dev : BackendKind FB SB;
  w_src : SourceOwned;
  w_shutter : ShutterState;
  w_handled : Z;
  w_last_reconnect : option Z;
  w_frame_slot : option (option Frame);
  w_opens : list (result (DacInfo * option (BackendKind FB SB)));
  w_trace : list event;
}.

(** ** Field updates *)
Definition set_ctl c w := mkWorld c (w_env w) (w_now w) (w_dev w) (w_src w) (w_shutter w) (w_handled w)
  (w_last_reconnect w) (w_frame_slot w) (w_opens w) (w_trace w).
Definition set_now t w := mkWorld (w_ctl w) (w_env w) t (w_dev w) (w_src w) (w_shutter w) (w_handled w)
  (w_last_reconnect w) (w_frame_slot w) (w_opens w) (w_trace w).
Definition set_dev d w := mkWorld (w_ctl w) (w_env w) (w_now w) d (w_src w) (w_shutter w) (w_handled w)
  (w_last_reconnect w) (w_frame_slot w) (w_opens w) (w_trace w).
Definition set_src s w := mkWorld (w_ctl w) (w_env w) (w_now w) (w_dev w) s (w_shutter w) (w_handled w)
  (w_last_reconnect w) (w_frame_slot w) (w_opens w) (w_trace w).
Definition set_shut s w := mkWorld (w_ctl w) (w_env w) (w_now w) (w_dev w) (w_src w) s (w_handled w)
  (w_last_reconnect w) (w_frame_slot w) (w_opens w) (w_trace w).
Definition set_handled h w := mkWorld (w_ctl w) (w_env w) (w_now w) (w_dev w) (w_src w) (w_shutter w) h
  (w_last_reconnect w) (w_frame_slot w) (w_opens w) (w_trace w).
Definition set_last_reconnect t w := mkWorld (w_ctl w) (w_env w) (w_now w) (w_dev w) (w_src w) (w_shutter w) (w_handled w)
  t (w_frame_slot w) (w_opens w) (w_trace w).
Definition set_frame_slot f w := mkWorld (w_ctl w) (w_env w) (w_now w) (w_dev w) (w_src w) (w_shutter w) (w_handled w)
  (w_last_reconnect w) f (w_opens w) (w_trace w).
Definition set_opens o w := mkWorld (w_ctl w) (w_env w) (w_now w) (w_dev w) (w_src w) (w_shutter w) (w_handled w)
  (w_last_reconnect w) (w_frame_slot w) o (w_trace w).
Definition log_event e w := mkWorld (w_ctl w) (w_env w) (w_now w) (w_dev w) (w_src w) (w_shutter w) (w_handled w)
  (w_last_reconnect w) (w_frame_slot w) (w_opens w) (w_trace w ++ [e]).

(** The next block of interference happens. *)
Definition tick (w : World) : World :=
  match w_env w with
  | [] => w
  | i :: env =>
      mkWorld (ctl_run (i_ops i) (w_ctl w)) env (w_now w + Z.max 0 (i_elapsed i)) (w_dev w) (w_src w)
        (w_shutter w) (w_handled w) (w_last_reconnect w)
        (match i_frame i, w_frame_slot w with Some fr, Some _ => Some (Some fr) | _, slot => slot end)
        (w_opens w) (w_trace w)
  end.

(** ** The monad *)
Inductive outcome (A : Type) :=
  | Ret (a : A) (w : World)
  | Panicked (w : World)
  | OutOfFuel (w : World).
#[global] Arguments Ret {A} a w.
#[global] Arguments Panicked {A} w.
#[global] Arguments OutOfFuel {A} w.

Definition M (A : Type) : Type := World -> outcome A.

#[global] Instance M_ret : MRet M := fun A a w => Ret a w.

#[global] Instance M_bind : MBind M := fun A B k m w =>
  match m w with
  | Ret a w => k a w
  | Panicked w => Panicked w
  | OutOfFuel w => OutOfFuel w
  end.

Definition final {A} (o : outcome A) : World := match o with Ret _ w | Panicked w | OutOfFuel w => w end.

Definition get {A} (f : World -> A) : M A := fun w => Ret (f w) w.

Definition modify (f : World -> World) : M unit := fun w => Ret tt (f w).

Definition panic_m {A} : M A := fun w => Panicked w.

Definition no_fuel {A} : M A := fun w => OutOfFuel w.

Definition of_option {A} (o : option A) : M A := match o with Some a => mret a | None => panic_m end.

(** Read the shared control, after the other threads had their turn. *)
Definition load {A} (f : SessionControl -> A) : M A := fun w => let w := tick w in Ret (f (w_ctl w)) w.

Definition clock_now : M Z := fun w => let w := tick w in Ret (w_now w) w.

Definition sleep (d : Z) : M unit := fun w => let w := tick w in Ret tt (set_now (w_now w + d) w).

(** Issue a device command, recording the event it is. *)
Definition dev_cmd {R} (f : BackendKind FB SB -> BackendKind FB SB * R) (ev : R -> event) : M R := fun w =>
  let w := tick w in
  let '(d, r) := f (w_dev w) in
  Ret r (log_event (ev r) (set_dev d w)).

(** ** Invariants of a computation

    [keeps I m]: wherever [m] stops, [I] still holds.  [keeps_ret I m Q] also
    describes the result. *)
Definition keeps (I : World -> Prop) {A} (m : M A) : Prop := forall w, I w -> I (final (m w)).

Definition keeps_post (I : World -> Prop) {A} (m : M A) (Q : A -> World -> Prop) : Prop :=
  forall w, I w -> match m w with Ret a w' => Q a w' | o => I (final o) end.

Lemma keeps_mret I {A} (a : A) : keeps I (mret a).
Proof. by intros w Hw. Qed.

Lemma keeps_bind I {A B} (m : M A) (k : A -> M B) :
  keeps I m -> (forall a, keeps I (k a)) -> keeps I (m ≫= k).
Proof.
  intros Hm Hk w Hw. specialize (Hm w Hw). unfold mbind, M_bind.
  destruct (m w) as [a w'|w'|w']; simpl in *; [by apply Hk|done..].
Qed.

Lemma keeps_post_bind I {A B} (m : M A) (k : A -> M B) (Q : A -> World -> Prop) :
  keeps_post I m Q -> (forall a w, Q a w -> I (final (k a w))) -> keeps I (m ≫= k).
Proof.
  intros Hm Hk w Hw. specialize (Hm w Hw). unfold mbind, M_bind.
  destruct (m w) as [a w'|w'|w']; simpl in *; [by apply Hk|done..].
Qed.

Lemma keeps_post_intro I {A} (m : M A) (Q : A -> World -> Prop) :
  keeps I m -> (forall w a w', I w -> m w = Ret a w' -> Q a w') -> keeps_post I m Q.
Proof.
  intros Hm HQ w Hw. specialize (Hm w Hw). destruct (m w) as [a w'|w'|w'] eqn:He; simpl in *; [by eapply HQ|done..].
Qed.

Lemma keeps_get I {A} (f : World -> A) : keeps I (get f).
Proof. by intros w Hw. Qed.

Lemma keeps_panic I {A} : keeps I (panic_m : M A).
Proof. by intros w Hw. Qed.

Lemma keeps_no_fuel I {A} : keeps I (no_fuel : M A).
Proof. by intros w Hw. Qed.

Lemma keeps_of_option I {A} (o : option A) : keeps I (of_option o).
Proof. intros w Hw. by destruct o. Qed.

Lemma keeps_modify I (f : World -> World) : (forall w, I w -> I (f w)) -> keeps I (modify f).
Proof. intros Hf w Hw. by apply Hf. Qed.

Lemma keeps_load I {A} (f : SessionControl -> A) : (forall w, I w -> I (tick w)) -> keeps I (load f).
Proof. intros Ht w Hw. by apply Ht. Qed.

Lemma keeps_clock_now I : (forall w, I w -> I (tick w)) -> keeps I clock_now.
Proof. intros Ht w Hw. by apply Ht. Qed.

Lemma keeps_sleep I d :
  (forall w, I w -> I (tick w)) -> (forall t w, I w -> I (set_now t w)) -> keeps I (sleep d).
Proof. intros Ht Hn w Hw. apply Hn. by apply Ht. Qed.

Lemma keeps_dev_cmd I {R} (f : BackendKind FB SB -> BackendKind FB SB * R) ev :
  (forall w, I w -> I (tick w)) ->
  (forall w, I w -> I (log_event (ev (f (w_dev w)).2) (set_dev (f (w_dev w)).1 w))) -> keeps I (dev_cmd f ev).
Proof.
  intros Ht Hf w Hw. unfold dev_cmd. specialize (Hf (tick w) (Ht w Hw)).
  by destruct (f (w_dev (tick w))) as [d r].
Qed.

Lemma keeps_if I {A} (b : bool) (m1 m2 : M A) : keeps I m1 -> keeps I m2 -> keeps I (if b then m1 else m2).
Proof. by destruct b. Qed.

End world.

Arguments SourceOwned : clear implicits.
Arguments World : clear implicits.
Arguments M : clear implicits.
Arguments outcome : clear implicits.

#[export] Hint Resolve keeps_mret keeps_get keeps_panic keeps_no_fuel keeps_of_option : lasers.
