(* ===== verification/Estimators.v ===== *)
(** * Buffer-fullness estimators

    Models [src/src/buffer_estimate/*.rs]: the four strategies by which a FIFO
    backend tracks how many points its device still holds.  Time-based decay is
    computed in double precision and truncated, as in the code. *)

From stdpp Require Import gmap.
From S2P Require Import Prelude Floats Presentation Backend.

#[local] Open Scope Z_scope.

(** [now.saturating_duration_since(t).as_secs_f64() * rate as f64]. *)
Definition decayed (now t rate : Z) : F64.t := F64.mul (as_secs_f64 (sat_sub now t)) (F64.of_int rate).

(** ** SoftwareDecayEstimator *)
Module SoftwareDecay.
Record SoftwareDecayEstimator := mk { fullness_at_anchor : Z; anchor_time : Z }.

Definition new (now : Z) : SoftwareDecayEstimator := mk 0 now.

Definition reset (now : Z) (e : SoftwareDecayEstimator) : SoftwareDecayEstimator := mk 0 now.

(** [None]: [Duration::from_secs_f64] panicked. *)
Definition record_send (now n pps : Z) (e : SoftwareDecayEstimator) : option SoftwareDecayEstimator :=
  if pps =? 0 then Some (mk (sat_add 64 (fullness_at_anchor e) n) (anchor_time e))
  else
    let consumed_int := as_u64 (decayed now (anchor_time e) pps) in
    let fullness := sat_add 64 (sat_sub (fullness_at_anchor e) consumed_int) n in
    let consumed_secs := F64.div (F64.of_int consumed_int) (F64.of_int pps) in
    d ← from_secs_f64 consumed_secs;
    Some (mk fullness (anchor_time e + d)).

Definition read_at (now pps : Z) (e : SoftwareDecayEstimator) : Z :=
  sat_sub (fullness_at_anchor e) (as_u64 (decayed now (anchor_time e) pps)).
End SoftwareDecay.

(** ** StatusDecayEstimator *)
Module StatusDecay.
Record StatusDecayEstimator := mk { fullness_at_anchor : Z; anchor_time : option Z; playing : bool }.

Definition new : StatusDecayEstimator := mk 0 None false.

Definition reset (e : StatusDecayEstimator) : StatusDecayEstimator := mk 0 None false.

Definition set_playing (b : bool) (e : StatusDecayEstimator) : StatusDecayEstimator :=
  mk (fullness_at_anchor e) (anchor_time e) b.

Definition record_status (now fullness : Z) (e : StatusDecayEstimator) : StatusDecayEstimator :=
  mk fullness (Some now) (playing e).

Definition read_at (now pps : Z) (e : StatusDecayEstimator) : Z :=
  match anchor_time e with
  | Some t =>
      if negb (playing e) then fullness_at_anchor e
      else sat_sub (fullness_at_anchor e) (as_u64 (decayed now t pps))
  | None => 0
  end.

Definition record_send (now n pps : Z) (e : StatusDecayEstimator) : StatusDecayEstimator :=
  mk (sat_add 64 (read_at now pps e) n) (Some now) (playing e).
End StatusDecay.

(** ** DualTrackAckEstimator *)
Module DualTrack.
Definition LATENCY_POINT_ADJUSTMENT : Z := 300.
Definition STALE_ENTRY_TIMEOUT : Z := 10 * NANOS_PER_SEC.
Definition MIN_SENDABLE_POINTS : Z := 140.

Record DualTrackAckEstimator := mk {
  capacity : Z;
  point_rate : Z;
  last_data_sent_time : option Z;
  last_data_sent_buffer_size : Z;
  last_ack_time : option Z;
  last_reported_buffer_fullness : Z;
  message_times : gmap Z Z;
}.

Definition new (cap rate : Z) : DualTrackAckEstimator := mk cap rate None 0 None 0 ∅.

Definition set_point_rate (rate : Z) (e : DualTrackAckEstimator) : DualTrackAckEstimator :=
  mk (capacity e) rate (last_data_sent_time e) (last_data_sent_buffer_size e) (last_ack_time e)
    (last_reported_buffer_fullness e) (message_times e).

Definition reset (e : DualTrackAckEstimator) : DualTrackAckEstimator := mk (capacity e) (point_rate e) None 0 None 0 ∅.

Definition estimate_fullness_by_time_sent (now : Z) (e : DualTrackAckEstimator) : Z :=
  match last_data_sent_time e with
  | None => 0
  | Some t => sat_sub (last_data_sent_buffer_size e) (as_u16 (decayed now t (point_rate e)))
  end.

Definition estimate_fullness_by_time_acked (now : Z) (e : DualTrackAckEstimator) : Z :=
  match last_ack_time e with
  | None => 0
  | Some t => sat_sub (last_reported_buffer_fullness e) (as_u16 (decayed now t (point_rate e)))
  end.

Definition estimated_buffer_fullness (now : Z) (e : DualTrackAckEstimator) : Z :=
  Z.max (estimate_fullness_by_time_sent now e) (estimate_fullness_by_time_acked now e).

Definition max_points_to_add (now : Z) (e : DualTrackAckEstimator) : Z :=
  sat_sub (sat_sub (capacity e) (estimated_buffer_fullness now e)) LATENCY_POINT_ADJUSTMENT.

Definition can_send (now : Z) (e : DualTrackAckEstimator) : bool := MIN_SENDABLE_POINTS <=? max_points_to_add now e.

Definition record_send (now message_number points_sent : Z) (e : DualTrackAckEstimator) : DualTrackAckEstimator :=
  mk (capacity e) (point_rate e) (Some now)
    (Z.min (sat_add 16 (estimated_buffer_fullness now e) points_sent) (capacity e))
    (last_ack_time e) (last_reported_buffer_fullness e) (<[message_number := now]> (message_times e)).

Definition cleanup_stale_entries (now : Z) (m : gmap Z Z) : gmap Z Z :=
  filter (fun kv => sat_sub now kv.2 < STALE_ENTRY_TIMEOUT) m.

Definition record_ack (now message_number free_space : Z) (e : DualTrackAckEstimator) : DualTrackAckEstimator :=
  let reported_fullness := sat_sub (capacity e) free_space in
  let e1 :=
    match message_times e !! message_number with
    | Some send_time =>
        let newest := match last_data_sent_time e with None => true | Some t => t <=? send_time end in
        mk (capacity e) (point_rate e)
          (if newest then Some send_time else last_data_sent_time e)
          (if newest then reported_fullness else last_data_sent_buffer_size e)
          (last_ack_time e) (last_reported_buffer_fullness e) (delete message_number (message_times e))
    | None => e
    end in
  mk (capacity e1) (point_rate e1) (last_data_sent_time e1) (last_data_sent_buffer_size e1)
    (Some now) reported_fullness (cleanup_stale_entries now (message_times e1)).

(** The events a transport reports. *)
Inductive ack_event :=
  | Send (now message_number points_sent : Z)
  | Ack (now message_number free_space : Z)
  | SetRate (rate : Z)
  | Reset.

Definition event_step (ev : ack_event) (e : DualTrackAckEstimator) : DualTrackAckEstimator :=
  match ev with
  | Send now k n => record_send now k n e
  | Ack now k free => record_ack now k free e
  | SetRate r => set_point_rate r e
  | Reset => reset e
  end.

Definition run_events (evs : list ack_event) (e : DualTrackAckEstimator) : DualTrackAckEstimator := foldl (fun e ev => event_step ev e) e evs.
End DualTrack.

(** ** RuntimeAuthorityEstimator: the source's queue depth and sample rate, when
    one is attached *)
Definition runtime_fullness (source : option (Z * Z)) (pps : Z) : Z :=
  match source with
  | None => 0
  | Some (queued_samples, sample_rate) =>
      if sample_rate =? 0 then queued_samples
      else wrapu 64 (wrapu 128 (queued_samples * pps) / sample_rate)
  end.

(** ** Lemmas *)

(** Doubles of 32-bit rates are finite. *)
Lemma of_int_u32_finite rate : 0 <= rate < 2 ^ 32 -> mag_le (F64.of_int rate) (2 ^ 32) 0.
Proof.
  intros Hr. apply (normalize_bounded 53 1024); [lia| |].
  - unfold dle. rewrite Z.abs_eq, Z.min_id, Z.sub_diag, Z.pow_0_r by lia. lia.
  - unfold rep. vm_compute. repeat split; congruence.
Qed.

(** No time, no consumption. *)
Lemma decayed_now t rate lo hi : 0 <= rate < 2 ^ 32 -> cast_int lo hi (decayed t t rate) = 0.
Proof.
  intros Hr. unfold decayed, sat_sub. rewrite Z.sub_diag. change (Z.max 0 0) with 0.
  assert (Hz : as_secs_f64 0 = SpecFloat.S754_zero false) by reflexivity. rewrite Hz.
  pose proof (of_int_u32_finite rate Hr) as Hm. by destruct (F64.of_int rate).
Qed.

(** Seconds, bounded on a grid. *)
Lemma secs_bounded d g : 0 <= d -> 0 <= g <= 512 -> d / NANOS_PER_SEC * 2 ^ g + (d mod NANOS_PER_SEC * 2 ^ g / NANOS_PER_SEC + 1) < 2 ^ 53 ->
  bounded_by 53 1024 (as_secs_f64 d) (d / NANOS_PER_SEC * 2 ^ g + (d mod NANOS_PER_SEC * 2 ^ g / NANOS_PER_SEC + 1)) (- g).
Proof.
  intros Hd Hg HM. unfold as_secs_f64, as_secs, subsec_nanos.
  assert (Hpow : 0 < 2 ^ g) by (apply Z.pow_pos_nonneg; lia). assert (Hn : 0 <= d mod NANOS_PER_SEC < NANOS_PER_SEC) by (by apply Z.mod_pos_bound).
  assert (Hs : 0 <= d / NANOS_PER_SEC) by (apply Z.div_pos; [lia|done]).
  set (secs := d / NANOS_PER_SEC) in *. set (nanos := d mod NANOS_PER_SEC) in *. set (M2 := nanos * 2 ^ g / NANOS_PER_SEC + 1) in *.
  assert (HM2 : 0 < M2 /\ nanos * 2 ^ g <= M2 * NANOS_PER_SEC).
  { pose proof (Z.div_pos (nanos * 2 ^ g) NANOS_PER_SEC ltac:(lia) ltac:(done)). split; [lia|].
    pose proof (Z.mul_succ_div_gt (nanos * 2 ^ g) NANOS_PER_SEC ltac:(done)). unfold M2. lia. }
  assert (Hemin : SpecFloat.emin 53 1024 <= - g <= 1024 - 53) by (vm_compute SpecFloat.emin; lia).
  apply add_bounded; [done|lia|lia| | |split; [lia|done]].
  - destruct (Z.eq_dec secs 0) as [->|]; [done|]. apply normalize_bounded; [done| |split; [nia|done]].
    apply (dle_scale _ _ _ _ (- g)); [lia..|]. rewrite Z.abs_eq by lia. replace (0 - - g) with g by lia. rewrite Z.sub_diag. lia.
  - assert (Hden : F64.of_int NANOS_PER_SEC = SpecFloat.S754_finite false 8388608000000000 (-23)) by reflexivity. rewrite Hden.
    apply div_bounded; [done|apply normalize_valid; done| |split; [nia|done]].
    destruct (Z.eq_dec nanos 0) as [->|]; [done|].
    assert (Hb : bounded_by 53 1024 (F64.of_int nanos) nanos 0).
    { apply normalize_bounded; [done|unfold dle; rewrite Z.abs_eq by lia; lia|]. split; [|done]. unfold NANOS_PER_SEC in *. lia. }
    eapply (bounded_weaken _ _ _ _ _ _ _ Hb). apply (dle_scale _ _ _ _ (- g + -23)); [lia..|].
    replace (0 - (- g + -23)) with (g + 23) by lia. rewrite Z.sub_diag, Z.mul_1_r, Z.pow_add_r by lia. unfold NANOS_PER_SEC in *. lia.
Qed.

(** The computed decay never runs ahead of the true one: not one point more is
    counted as drained than [d * rate / 10^9], whatever the rounding. *)
Lemma decayed_not_ahead now t rate : 1 <= rate < 2 ^ 32 ->
  as_u16 (fmin (decayed now t rate) (F64.of_int (umax 16))) <= sat_sub now t * rate / NANOS_PER_SEC.
Proof.
  intros Hr. unfold decayed. set (d := sat_sub now t). assert (Hd : 0 <= d) by (unfold d, sat_sub; lia). set (k := d * rate / NANOS_PER_SEC).
  assert (Hk : 0 <= k) by (apply Z.div_pos; [nia|done]). pose proof (cast_int_range 0 65535 (fmin (F64.mul (as_secs_f64 d) (F64.of_int rate)) (F64.of_int (umax 16))) ltac:(lia)) as Hrange.
  destruct (Z.le_gt_cases 65535 k) as [Hbig|Hsmall]; [unfold as_u16; lia|].
  assert (Hdr : d * rate < (k + 1) * NANOS_PER_SEC).
  { pose proof (Z.mul_succ_div_gt (d * rate) NANOS_PER_SEC ltac:(done)). unfold k. lia. }
  set (g := Z.log2_up (4 * rate * NANOS_PER_SEC)).
  assert (Hg : 4 * rate * NANOS_PER_SEC <= 2 ^ g < 8 * rate * NANOS_PER_SEC /\ 31 < g <= 64).
  { assert (H1 : 1 < 4 * rate * NANOS_PER_SEC) by (unfold NANOS_PER_SEC; lia). destruct (Z.log2_up_spec _ H1) as [Hlo Hhi]. fold g in Hlo, Hhi.
    assert (Hg0 : 0 < g) by (by apply Z.log2_up_pos). assert (Hpp : 2 ^ g = 2 * 2 ^ Z.pred g) by (rewrite <- Z.pow_succ_r by lia; f_equal; lia).
    split; [split; [done|lia]|]. split.
    - destruct (Z.le_gt_cases g 31) as [Hc|]; [|done]. pose proof (Z.pow_le_mono_r 2 g 31 ltac:(lia) Hc). unfold NANOS_PER_SEC in *. lia.
    - destruct (Z.le_gt_cases g 64) as [|Hc]; [done|]. pose proof (Z.pow_le_mono_r 2 65 g ltac:(lia) ltac:(lia)). unfold NANOS_PER_SEC in *. lia. }
  destruct Hg as [[Hg1 Hg2] Hg3]. pose proof (Z.div_mod d NANOS_PER_SEC ltac:(done)) as Hdm.
  pose proof (Z.mod_pos_bound d NANOS_PER_SEC ltac:(done)) as Hmod.
  set (M := d / NANOS_PER_SEC * 2 ^ g + (d mod NANOS_PER_SEC * 2 ^ g / NANOS_PER_SEC + 1)).
  assert (HM : M * NANOS_PER_SEC <= d * 2 ^ g + NANOS_PER_SEC).
  { pose proof (Z.mul_div_le (d mod NANOS_PER_SEC * 2 ^ g) NANOS_PER_SEC ltac:(done)). unfold M. nia. }
  assert (HM53 : M < 2 ^ 53).
  { assert (d * 2 ^ g < 65535 * NANOS_PER_SEC * (8 * NANOS_PER_SEC)); [|unfold NANOS_PER_SEC in *; lia].
    apply (Z.mul_lt_mono_pos_r rate); [lia|]. unfold NANOS_PER_SEC in *. nia. }
  assert (Hsecs : bounded_by 53 1024 (as_secs_f64 d) M (- g)) by (apply secs_bounded; [done|lia|done]).
  assert (Hrate : bounded_by 53 1024 (F64.of_int rate) rate 0).
  { apply normalize_bounded; [done|unfold dle; rewrite Z.abs_eq by lia; lia|]. split; [lia|done]. }
  assert (Hprod : bounded_by 53 1024 (F64.mul (as_secs_f64 d) (F64.of_int rate)) ((k + 1) * 2 ^ 31 - 1) (- 31)).
  { apply (mul_bounded 53 1024 ltac:(done) ltac:(done) _ _ M (- g) rate 0); [done|done|split; [lia|done]|].
    apply (dle_scale _ _ _ _ (- g)); [lia..|]. rewrite Z.add_0_r, Z.sub_diag, Z.mul_1_r. replace (-31 - - g) with (g - 31) by lia.
    assert (Hsp : 2 ^ g = 2 ^ 31 * 2 ^ (g - 31)) by (rewrite <- Z.pow_add_r by lia; f_equal; lia).
    set (q := 2 ^ (g - 31)) in *. assert (0 < q) by (apply Z.pow_pos_nonneg; lia).
    assert (M * rate * NANOS_PER_SEC <= ((k + 1) * 2 ^ 31 - 1) * q * NANOS_PER_SEC); [|unfold NANOS_PER_SEC in *; lia].
    assert (d * 2 ^ g * rate <= ((k + 1) * NANOS_PER_SEC - 1) * 2 ^ g) by nia.
    assert (M * rate * NANOS_PER_SEC <= d * 2 ^ g * rate + NANOS_PER_SEC * rate) by nia.
    unfold NANOS_PER_SEC in *. lia. }
  destruct Hprod as [Hvalid Hmag]. pose proof (cast_int_below 0 65535 _ k 31 ltac:(lia) Hk ltac:(lia) Hmag) as Hcast.
  set (x := F64.mul (as_secs_f64 d) (F64.of_int rate)) in *. unfold as_u16, fmin. assert (Hnan : is_nan x = false) by (by destruct x). rewrite Hnan.
  change (is_nan (F64.of_int (umax 16))) with false. cbv iota. destruct (SpecFloat.SFltb (F64.of_int (umax 16)) x) eqn:Hlt; [exfalso|done].
  assert (Hc : F64.of_int (umax 16) = SpecFloat.S754_finite false 9007061815787520 (-37)) by reflexivity. rewrite Hc in Hlt.
  destruct x as [| | |[] m e]; try done. cbn [mag_le] in Hmag.
  assert (Hle : dle 9007061815787520 (-37) (Zpos m) e).
  { apply (compare_mag 53 1024 ltac:(done) false _ _ false); [done|exact Hvalid|]. unfold SpecFloat.SFltb, SpecFloat.SFcompare in Hlt.
    destruct (-37 ?= e); [|done..]. by destruct (Pos.compare_cont Eq _ m). }
  pose proof (dle_trans _ _ _ _ _ _ Hle Hmag) as Hbad. unfold dle in Hbad.
  change (Z.min (-37) (-31)) with (-37) in Hbad. change (2 ^ (-37 - -37)) with 1 in Hbad. change (2 ^ (-31 - -37)) with 64 in Hbad. clearbody k. clear - Hbad Hsmall. lia.
Qed.

Lemma cast_range lo hi x : lo <= 0 <= hi -> lo <= cast_int lo hi x <= hi.
Proof. apply cast_int_range. Qed.

Module DualTrackFacts.
Import DualTrack.

(** Both tracks stay within the 16-bit capacity. *)
Record wf (e : DualTrackAckEstimator) : Prop := {
  wf_capacity : 0 <= capacity e <= 65535;
  wf_rate : 0 <= point_rate e < 2 ^ 32;
  wf_sent : 0 <= last_data_sent_buffer_size e <= capacity e;
  wf_reported : 0 <= last_reported_buffer_fullness e <= capacity e;
}.

(** The arguments a caller can pass: 16-bit counts, 32-bit rates. *)
Definition event_ok (ev : ack_event) : Prop :=
  match ev with
  | Send _ _ n => 0 <= n <= 65535
  | Ack _ _ free => 0 <= free <= 65535
  | SetRate r => 0 <= r < 2 ^ 32
  | Reset => True
  end.

Lemma track_bounds size c now t rate : 0 <= size <= c -> 0 <= sat_sub size (as_u16 (decayed now t rate)) <= c.
Proof.
  intros Hs. unfold sat_sub, as_u16. pose proof (cast_range 0 65535 (decayed now t rate)). lia.
Qed.

Lemma estimate_bounds now e : wf e -> 0 <= estimated_buffer_fullness now e <= capacity e.
Proof.
  intros [Hc Hr Hs Hp]. unfold estimated_buffer_fullness, estimate_fullness_by_time_sent, estimate_fullness_by_time_acked.
  destruct (last_data_sent_time e) as [t|], (last_ack_time e) as [t'|];
    repeat match goal with |- context [sat_sub ?s (as_u16 (decayed now ?u ?r))] =>
      lazymatch goal with
      | Hb : 0 <= sat_sub s (as_u16 (decayed now u r)) <= capacity e |- _ => fail
      | _ => pose proof (track_bounds s (capacity e) now u r ltac:(assumption)) end end; lia.
Qed.

Lemma step_wf ev e : wf e -> event_ok ev -> wf (event_step ev e).
Proof.
  intros Hwf Hok. pose proof Hwf as [Hc Hr Hs Hp]. destruct ev as [now k n|now k free|r|]; simpl in *.
  - split; simpl; try done. pose proof (estimate_bounds now e Hwf). unfold sat_add, umax. lia.
  - unfold record_ack. destruct (message_times e !! k) as [t|]; simpl.
    + split; simpl; try done; unfold sat_sub; try lia.
      destruct (match last_data_sent_time e with None => true | Some u => u <=? t end); lia.
    + split; simpl; try done. unfold sat_sub. lia.
  - by split.
  - split; simpl; done || lia.
Qed.

Lemma run_wf evs : forall e, wf e -> Forall event_ok evs -> wf (run_events evs e).
Proof.
  induction evs as [|ev evs IH]; intros e Hwf Hok; [done|]. apply Forall_cons in Hok as [H1 H2].
  apply (IH (event_step ev e)); [by apply step_wf|done].
Qed.

(** Sending within the computed room never overfills the device's estimate:
    after any history of sends, acknowledgements, rate changes and resets, if no
    more points are sent than [max_points_to_add] allows then the estimate grows
    by exactly the points sent and stays below the capacity less the safety
    margin; and the room is never more than the device can hold. *)
Theorem dual_track_send_is_safe evs cap rate now k n :
  0 <= cap <= 65535 -> 0 <= rate < 2 ^ 32 -> Forall event_ok evs ->
  let e := run_events evs (new cap rate) in
  0 <= n <= max_points_to_add now e -> 0 < n ->
  estimated_buffer_fullness now (record_send now k n e) = estimated_buffer_fullness now e + n /\
  estimated_buffer_fullness now (record_send now k n e) + LATENCY_POINT_ADJUSTMENT <= capacity e.
Proof.
  intros Hc Hr Hev e Hn Hpos. assert (Hwf : wf e) by (apply run_wf; [|done]; split; simpl; lia).
  pose proof (estimate_bounds now e Hwf) as Hest. destruct Hwf as [Hcap Hrate Hs Hp].
  assert (Hroom : estimated_buffer_fullness now e + n + LATENCY_POINT_ADJUSTMENT <= capacity e).
  { unfold max_points_to_add, sat_sub, LATENCY_POINT_ADJUSTMENT in *. lia. }
  assert (Hnew : estimated_buffer_fullness now (record_send now k n e) = estimated_buffer_fullness now e + n).
  { assert (Hback : estimate_fullness_by_time_acked now e <= estimated_buffer_fullness now e)
      by (unfold estimated_buffer_fullness; lia).
    set (f := estimated_buffer_fullness now e) in *.
    unfold estimated_buffer_fullness, estimate_fullness_by_time_sent. simpl.
    change (estimate_fullness_by_time_acked now (record_send now k n e)) with (estimate_fullness_by_time_acked now e).
    unfold as_u16. rewrite decayed_now by done. fold f. unfold sat_add, sat_sub, umax, LATENCY_POINT_ADJUSTMENT in *. lia. }
  split; [done|]. rewrite Hnew. done.
Qed.

Lemma dual_track_send_is_safe_witness :
  let e := run_events [Send 0 1 500; Ack 1000000 1 5500; SetRate 20000] (new 6000 30000) in
  0 < 1000 <= max_points_to_add 2000000 e /\
  estimated_buffer_fullness 2000000 (record_send 2000000 2 1000 e) = estimated_buffer_fullness 2000000 e + 1000.
Proof.
  split; [vm_compute; split; congruence|].
  apply (dual_track_send_is_safe [Send 0 1 500; Ack 1000000 1 5500; SetRate 20000] 6000 30000 2000000 2 1000);
    [lia|lia|repeat constructor; simpl; lia|vm_compute; split; congruence|lia].
Defined.

(** An acknowledgement never hides points sent after the packet it answers:
    when the last send is newer than the acknowledged one (or the packet is
    unknown), the sent track is untouched and still bounds the estimate from
    below; an acknowledgement of the newest packet replaces it by the device's
    own report. *)
Theorem ack_keeps_newer_sends now k free e t :
  last_data_sent_time e = Some t ->
  let e' := record_ack now k free e in
  let stale := match message_times e !! k with Some st => st <? t | None => true end in
  if stale then
    last_data_sent_time e' = Some t /\ last_data_sent_buffer_size e' = last_data_sent_buffer_size e /\
    forall now', estimate_fullness_by_time_sent now' e <= estimated_buffer_fullness now' e'
  else
    last_data_sent_time e' = message_times e !! k /\
    last_data_sent_buffer_size e' = sat_sub (capacity e) free /\
    last_reported_buffer_fullness e' = sat_sub (capacity e) free.
Proof.
  intros Ht e' stale. unfold stale, e', record_ack.
  destruct (message_times e !! k) as [st|] eqn:Hm; simpl; rewrite ?Ht.
  - destruct (Z.ltb_spec st t) as [Hlt|Hge].
    + replace (t <=? st) with false by (symmetry; apply Z.leb_gt; lia). split; [done|]. split; [done|].
      intros now'. unfold estimated_buffer_fullness, estimate_fullness_by_time_sent. simpl. rewrite Ht. lia.
    + replace (t <=? st) with true by (symmetry; apply Z.leb_le; lia). done.
  - split; [done|]. split; [done|]. intros now'.
    unfold estimated_buffer_fullness, estimate_fullness_by_time_sent. simpl. rewrite Ht. lia.
Qed.

Lemma ack_keeps_newer_sends_witness :
  let e := run_events [Send 0 1 500; Send 5000000 2 700] (new 6000 30000) in
  let e' := record_ack 6000000 1 5600 e in
  last_data_sent_time e' = Some 5000000 /\ last_data_sent_buffer_size e' = last_data_sent_buffer_size e.
Proof.
  destruct (ack_keeps_newer_sends 6000000 1 5600 (run_events [Send 0 1 500; Send 5000000 2 700] (new 6000 30000)) 5000000 eq_refl)
    as (H1 & H2 & _).
  exact (conj H1 H2).
Defined.
End DualTrackFacts.

Module StatusDecayFacts.
Import StatusDecay.

(** A status report is authoritative and the ring only drains while playing:
    right after a report the estimate is the reported fullness, a send adds
    exactly its points, and while the device is not playing no amount of time
    changes the estimate. *)
Theorem status_decay_anchors e now n pps fullness now' :
  0 <= pps < 2 ^ 32 -> 0 <= fullness -> 0 <= n -> fullness + n <= umax 64 ->
  let s := record_status now fullness e in
  read_at now pps s = fullness /\
  read_at now pps (record_send now n pps s) = fullness + n /\
  (playing e = false -> read_at now' pps (record_send now' n pps s) = fullness + n) /\
  read_at now' pps s <= fullness.
Proof.
  intros Hp Hf Hn Hb s. assert (Hrd : read_at now pps s = fullness).
  { unfold read_at. simpl. destruct (playing e); simpl; [|done]. unfold as_u64. rewrite decayed_now by done. unfold sat_sub. lia. }
  split; [done|]. split; [|split].
  - unfold record_send, read_at at 1. simpl. rewrite Hrd.
    destruct (playing e); simpl; unfold as_u64; rewrite ?decayed_now by done; unfold sat_sub, sat_add; lia.
  - intros Hpl. unfold record_send, read_at. simpl. rewrite Hpl. simpl. unfold sat_add. lia.
  - unfold read_at. simpl. destruct (playing e); simpl; [|lia]. unfold sat_sub, as_u64.
    pose proof (cast_range 0 (umax 64) (decayed now' now pps)). unfold umax in *. lia.
Qed.

Lemma status_decay_anchors_witness :
  read_at 5 30000 (record_send 5 100 30000 (record_status 5 1000 new)) = 1100.
Proof.
  destruct (status_decay_anchors new 5 100 30000 1000 7) as (_ & Hr & _); [lia|lia|lia|vm_compute; discriminate|exact Hr].
Defined.
(** A burst of sends [(now, n)], and that each comes less than one point's time
    after the one before. *)
Definition burst (pps : Z) (sends : list (Z * Z)) (e : StatusDecayEstimator) : StatusDecayEstimator :=
  foldl (fun e s => record_send s.1 s.2 pps e) e sends.

Fixpoint sub_point_gaps (pps t : Z) (sends : list (Z * Z)) : Prop :=
  match sends with
  | [] => True
  | (now, n) :: sends => as_u64 (decayed now t pps) = 0 /\ 0 <= n /\ sub_point_gaps pps now sends
  end.

Definition total (sends : list (Z * Z)) : Z := foldr (fun s acc => s.2 + acc) 0 sends.

Lemma total_nonneg pps sends : forall t, sub_point_gaps pps t sends -> 0 <= total sends.
Proof.
  induction sends as [|[now n] sends IH]; intros t Hg; [done|]. destruct Hg as (_ & Hn & Hg).
  specialize (IH now Hg). simpl. lia.
Qed.

Lemma burst_fullness pps sends : forall t f,
  sub_point_gaps pps t sends -> 0 <= f -> f + total sends <= umax 64 ->
  exists t', burst pps sends (mk f (Some t) true) = mk (f + total sends) (Some t') true /\
    (sends = [] -> t' = t) /\ forall l s, sends = l ++ [s] -> t' = s.1.
Proof.
  induction sends as [|[now n] sends IH]; intros t f Hg Hf Hb.
  { exists t. split; [simpl; by rewrite Z.add_0_r|]. split; [done|]. intros l s Hl. by destruct l. }
  destruct Hg as (H0 & Hn & Hg). simpl in Hb. pose proof (total_nonneg _ _ _ Hg).
  destruct (IH now (f + n) Hg ltac:(lia) ltac:(lia)) as (t' & Hrun & Hnil & Hlast).
  exists t'. simpl. unfold record_send, read_at. simpl. rewrite H0. unfold sat_sub, sat_add.
  replace (Z.min (umax 64) (Z.max 0 (f - 0) + n)) with (f + n) by lia.
  split; [rewrite Z.add_assoc; exact Hrun|]. split; [done|].
  intros l s Hl. destruct l as [|[now' n'] l]; injection Hl as Hs Hl.
  - subst s sends. rewrite Hnil by done. done.
  - subst. by apply (Hlast l).
Qed.

(** Sends in quick succession hide the drain of the ring: each send moves the
    anchor to its own time and keeps only whole consumed points, so while a
    playing device is fed at gaps shorter than one point's time the estimate is
    the starting fullness plus everything sent, however long the burst lasts. *)
Theorem frequent_sends_hide_drain pps t fullness sends :
  sub_point_gaps pps t sends -> 0 <= pps < 2 ^ 32 -> 0 <= fullness -> fullness + total sends <= umax 64 ->
  let e := burst pps sends (record_status t fullness (set_playing true new)) in
  forall now n l, sends = l ++ [(now, n)] -> read_at now pps e = fullness + total sends.
Proof.
  intros Hg Hp Hf Hb e now n l Hl. pose proof (total_nonneg _ _ _ Hg).
  destruct (burst_fullness pps sends t fullness Hg Hf Hb) as (t' & Hrun & _ & Hlast).
  unfold e. change (record_status t fullness (set_playing true new)) with (mk fullness (Some t) true). rewrite Hrun.
  rewrite (Hlast l (now, n) Hl). unfold read_at. simpl. unfold as_u64. rewrite decayed_now by done. unfold sat_sub. lia.
Qed.

(** Forty empty-handed sends 30 microseconds apart at 30 kpps: 1.2 ms, 36 points,
    pass without a trace; the software-decay estimator sees them drain. *)
Definition quick_sends : list (Z * Z) := (fun i => (Z.of_nat i * 30000, 0)) <$> seq 1 40.

Lemma frequent_sends_hide_drain_witness :
  read_at 1200000 30000 (burst 30000 quick_sends (record_status 0 1000 (set_playing true new))) = 1000 /\
  option_map (SoftwareDecay.read_at 1200000 30000)
    (foldl (fun e s => e ≫= SoftwareDecay.record_send s.1 s.2 30000) (Some (SoftwareDecay.mk 1000 0)) quick_sends) = Some 964.
Proof.
  split; [|vm_compute; reflexivity].
  apply (frequent_sends_hide_drain 30000 0 1000 quick_sends) with (n := 0) (l := take 39 quick_sends);
    [vm_compute; repeat split; congruence|lia|lia|vm_compute; congruence|vm_compute; reflexivity].
Defined.
End StatusDecayFacts.
