(* ===== verification/OutputModel.v ===== *)
(** * Output-model adapters

    Models [src/src/presentation/output_model/mod.rs] and the four adapters
    [network_fifo.rs], [udp_timed.rs], [blocking_fifo.rs] and
    [usb_frame_swap.rs]: pacing, slice production, writes with retries, and the
    safety paths they share (closing the shutter while waiting, draining and
    blanking at the end).  Diagnostic metrics and log lines are left out. *)

From stdpp Require Import strings.
From S2P Require Import Prelude Floats Point Presentation Session Backend ContentSource ChunkProducer World.

#[local] Open Scope Z_scope.

Inductive StepOutcome :=
  | StepContinue
  | StepStateChanged
  | StepStopped
  | StepDisconnected.

Inductive ControlAction :=
  | ActNone
  | ActStateChanged
  | ActStop.

(** [f64::min]: a NaN operand is ignored. *)
Definition fmin (x y : F64.t) : F64.t :=
  if is_nan x then y else if is_nan y then x else if SpecFloat.SFltb y x then y else x.

(** The per-step constants of [LoopCtx]. *)
Record StepCtx := mkStepCtx {
  target_buffer : Z;
  ctx_pps : Z;
  ctx_is_armed : bool;
}.

(** ** Constants *)
Definition SLICE : Z := millis 2.
Definition BUSY_WAIT_THRESHOLD : Z := micros 500.
Definition SLEEP_SLICE : Z := millis 1.
Definition POLL : Z := millis 5.
(** 0.005 and 0.010 as doubles. *)
Definition MIN_WRITE_QUANTUM_SECS : F64.t := F64.of_dyadic 5764607523034235 (-60).
Definition CHUNK_SECS : F64.t := F64.of_dyadic 5764607523034235 (-59).
Definition MIN_WRITE_QUANTUM_FLOOR : Z := 16.
Definition WOULDBLOCK_STALL_TIMEOUT : Z := 2 * NANOS_PER_SEC.
Definition CATCH_UP_CHUNKS : Z := 3.
Definition CHUNK_POINTS : Z := 512.
Definition IDLE_SLEEP : Z := millis 2.
Definition MAX_TRANSIENT_WRITE_RETRIES : Z := 3.

(** The [while let Ok(msg) = try_recv()] of [process_control_messages]: the
    action and the messages left in the channel. *)
Fixpoint drain_msgs (action : ControlAction) (q : list ControlMsg) : ControlAction * list ControlMsg :=
  match q with
  | [] => (action, [])
  | MsgStop :: q => (ActStop, q)
  | _ :: q => drain_msgs ActStateChanged q
  end.

(** ** Waits given in seconds *)

(** A number of seconds that makes a duration: not negative, at most 2^63. *)
Definition waitable (x : F64.t) : Prop := bounded_by 53 1024 x 1 63 /\ nonneg x.

Lemma from_secs_waitable x : waitable x -> exists d, from_secs_f64 x = Some d /\ 0 <= d.
Proof.
  intros [[_ Hm] Hn]. destruct x as [s|s| |s m e]; try done; [by exists 0|]. assert (s = false) as -> by (destruct Hn as [Hn|Hn]; [exact Hn|done]).
  simpl in Hm |- *. set (ns := if 0 <=? e then _ else _).
  assert (Hns : 0 <= ns <= 2 ^ 63 * NANOS_PER_SEC + 1).
  { unfold ns. destruct (Z.leb_spec 0 e).
    - apply (dle_scale _ _ _ _ 0) in Hm; [|lia|lia]. rewrite !Z.sub_0_r, Z.mul_1_l in Hm. pose proof (Z.pow_nonneg 2 e). unfold NANOS_PER_SEC. nia.
    - apply (dle_scale _ _ _ _ e) in Hm; [|lia|lia]. rewrite Z.sub_diag, Z.pow_0_r, Z.mul_1_r, Z.mul_1_l in Hm.
      assert (Hp : 2 ^ (63 - e) = 2 ^ 63 * 2 ^ (- e)) by (rewrite <- Z.pow_add_r by lia; f_equal; lia). rewrite Hp in Hm.
      pose proof (Z.pow_pos_nonneg 2 (- e) ltac:(lia) ltac:(lia)) as Hd. set (den := 2 ^ (- e)) in *.
      assert (Hq : 0 <= Z.pos m * NANOS_PER_SEC / den <= 2 ^ 63 * NANOS_PER_SEC).
      { split; [apply Z.div_pos; unfold NANOS_PER_SEC; lia|]. apply Z.div_le_upper_bound; [lia|]. unfold NANOS_PER_SEC. nia. }
      unfold round_half_even. repeat destruct (_ <? _); [lia..|]. destruct (Z.even _); lia. }
  rewrite (proj2 (Z.leb_le _ _)); [|apply Z.div_le_upper_bound; unfold NANOS_PER_SEC, umax in *; lia]. exists ns. split; [done|lia].
Qed.

(** A divisor of at least one. *)
Definition at_least_one (y : F64.t) : Prop :=
  match y with SpecFloat.S754_infinity s => s = false | SpecFloat.S754_finite s m e => s = false /\ dle 1 0 (Zpos m) e | _ => False end.

Lemma waitable_div x y : waitable x -> at_least_one y -> waitable (F64.div x y).
Proof.
  intros [[Hv Hm] Hn] Hy. destruct x as [sx|sx| |sx mx ex]; try done.
  - assert (Hz : exists s, F64.div (SpecFloat.S754_zero sx) y = SpecFloat.S754_zero s) by (destruct y; try done; by eexists). destruct Hz as [s ->].
    split; [done|]. destruct s; [by right|by left].
  - assert (sx = false) as -> by (destruct Hn as [Hn|Hn]; [exact Hn|done]).
    destruct y as [|sy| |sy my ey]; try done; [split; [done|]; simpl in Hy; subst; by left|]. destruct Hy as [-> Hy]. split.
    + apply (div_bounded 53 1024 eq_refl); [done| |unfold rep, SpecFloat.emin; lia]. simpl in Hm |- *.
      eapply dle_trans; [exact Hm|]. apply (dle_mul 1 63 1 63 1 0 (Zpos my) ey); [lia|lia|apply dle_refl|exact Hy].
    + left. by apply (div_signed 53 1024 eq_refl false false).
Qed.

Lemma waitable_int n : 0 <= n <= 2 ^ 63 -> waitable (F64.of_int n).
Proof.
  intros Hn. split.
  - apply (normalize_bounded 53 1024 eq_refl); [|unfold rep, SpecFloat.emin; lia]. unfold dle. change (0 - Z.min 0 63) with 0. change (63 - Z.min 0 63) with 63. rewrite Z.pow_0_r. lia.
  - destruct n as [|p|p]; [by left| |lia]. left. apply (normalize_signed 53 1024).
Qed.

Lemma compare_flip p m : Pos.compare_cont Eq m p <> Lt -> Pos.compare_cont Eq p m <> Gt.
Proof. change (Pos.compare_cont Eq m p) with (m ?= p)%positive. change (Pos.compare_cont Eq p m) with (p ?= m)%positive. rewrite (Pos.compare_antisym m p). by destruct (m ?= p)%positive. Qed.

Lemma int_at_least_one n : 1 <= n < 2 ^ 53 -> at_least_one (F64.of_int n).
Proof.
  intros Hn. destruct n as [|p|p]; [lia| |lia]. destruct (normalize_exact 53 1024 eq_refl eq_refl p false) as (m & e & He & Hle & Hm); [lia|].
  change (F64.of_int (Zpos p)) with (SpecFloat.binary_normalize 53 1024 (Zpos p) 0 false). rewrite He. split; [done|].
  apply (dle_scale _ _ _ _ e); [lia|lia|]. rewrite Z.sub_diag, Z.pow_0_r, Z.mul_1_r, Z.mul_1_l, Z.sub_0_l, Hm.
  pose proof (Z.pow_pos_nonneg 2 (- e)). nia.
Qed.

(** Rates: any integer's double, but at least one. *)
Lemma rate_at_least_one n : at_least_one (fmax (F64.of_int n) (F64.of_int 1)).
Proof.
  set (one := F64.of_int 1). assert (Hone : one = SpecFloat.S754_finite false 4503599627370496 (-52)) by (vm_compute; reflexivity).
  assert (H1 : at_least_one one) by (rewrite Hone; vm_compute; split; congruence).
  unfold fmax. destruct (is_nan (F64.of_int n)) eqn:Hnan; [done|]. rewrite Hone at 1. cbn [is_nan]. destruct (SpecFloat.SFltb (F64.of_int n) one) eqn:Hlt; [done|].
  pose proof (normalize_valid 53 1024 eq_refl n 0 false) as Hv. change (SpecFloat.binary_normalize 53 1024 n 0 false) with (F64.of_int n) in Hv.
  rewrite Hone in Hlt. unfold SpecFloat.SFltb, SpecFloat.SFcompare in Hlt. destruct (F64.of_int n) as [s|s| |s m e]; try done; [by destruct s|].
  destruct s; [done|]. split; [done|]. eapply dle_trans; [|apply (compare_mag 53 1024 eq_refl false 4503599627370496 (-52) false m e); [done|done|]].
  - vm_compute. congruence.
  - destruct (Z.compare_spec (-52) e) as [<-|Hc|Hc]; [|done|].
    + rewrite Z.compare_refl in Hlt. apply compare_flip. intros He. by rewrite He in Hlt.
    + rewrite (proj2 (Z.compare_lt_iff e (-52))) in Hlt by lia. done.
Qed.

Section adapters.
Context {FB SB S FS : Type} `{FifoBackend FB} `{FrameSwapBackend SB} `{FifoContentSource S} `{FrameContentSource FS}.
(** The cached instant handed to estimators that ignore the clock. *)
Context (sentinel_instant : Z).
Abbreviation M := (M FB SB S FS).
Abbreviation World := (World FB SB S FS).

(** ** Shared helpers *)

Definition is_ok {A} (r : result A) : bool := match r with Ok _ => true | Err _ => false end.

Definition process_control_messages : M ControlAction := fun w =>
  let w := tick w in
  let '(a, q) := drain_msgs ActNone (control_queue (w_ctl w)) in
  Ret a (set_ctl (upd_queue q (w_ctl w)) w).

(** [match backend.set_shutter(false) { Ok => Closed, Err => Unknown }]. *)
Definition close_shutter : M unit :=
  r ← dev_cmd (set_shutter false) (fun r => EvShutter false (is_ok r));
  modify (set_shut (if is_ok r then Closed else Unknown)).

Definition close_if_disarmed : M unit :=
  armed ← load control_is_armed;
  st ← get w_shutter;
  if negb armed && bool_decide (st <> Closed) then close_shutter else mret tt.

(** The checks both waits repeat: [None] to go on waiting. *)
Definition check_control : M (option StepOutcome) :=
  stopped ← load stop_requested;
  if (stopped : bool) then mret (Some StepStopped)
  else
    close_if_disarmed;;
    a ← process_control_messages;
    mret (match a with
          | ActStop => Some StepStopped
          | ActStateChanged => Some StepStateChanged
          | ActNone => None
          end).

Fixpoint sleep_loop (fuel : nat) (deadline : Z) : M (option StepOutcome) :=
  match fuel with
  | O => no_fuel
  | Datatypes.S fuel =>
      now ← clock_now;
      let remaining := sat_sub deadline now in
      if remaining =? 0 then mret None
      else
        sleep (Z.min remaining SLICE);;
        o ← check_control;
        match o with Some o => mret (Some o) | None => sleep_loop fuel deadline end
  end.

(** Every round sleeps at least [min remaining SLICE]. *)
Definition sleep_fuel (duration : Z) : nat := Z.to_nat (duration / SLICE + 2).

Definition sleep_with_control_check (duration : Z) : M (option StepOutcome) :=
  now ← clock_now;
  sleep_loop (sleep_fuel duration) (now + duration).

(** [sleep_until_precise]; the busy wait only ends when time passes, so the
    fuel is the caller's. *)
Fixpoint sleep_until_precise (fuel : nat) (deadline : Z) : M (option StepOutcome) :=
  match fuel with
  | O => no_fuel
  | Datatypes.S fuel =>
      now ← clock_now;
      if deadline <=? now then mret None
      else
        let remaining := deadline - now in
        (if BUSY_WAIT_THRESHOLD <? remaining
         then sleep (Z.min (sat_sub remaining BUSY_WAIT_THRESHOLD) SLEEP_SLICE)
         else mret tt);;
        o ← check_control;
        match o with Some o => mret (Some o) | None => sleep_until_precise fuel deadline end
  end.

Definition write_points (pps : Z) (pts : list LaserPoint) : M (result WriteOutcome) :=
  dev_cmd (try_write pps pts) (EvWrite pps pts).

Definition disconnect_device : M unit :=
  dev_cmd disconnect (fun _ => EvDisconnect);;
  mret tt.

Definition error_sink (e : Error) : M unit := modify (log_event (EvError e)).

Definition blank_and_close_shutter (c : StepCtx) : M unit :=
  close_shutter;;
  write_points (ctx_pps c) (replicate 16 (blanked f0 f0));;
  mret tt.

Definition estimator_fullness (pps : Z) : M Z := fun w =>
  let w := tick w in
  Ret (match w_dev w with
       | Fifo b => estimated_fullness b (if needs_clock b then w_now w else sentinel_instant) pps
       | FrameSwap _ => 0
       end) w.

Fixpoint drain_loop (fuel : nat) (drain_pps now deadline : Z) : M unit :=
  match fuel with
  | O => no_fuel
  | Datatypes.S fuel =>
      if now <? deadline then
        buffered ← estimator_fullness drain_pps;
        if buffered =? 0 then mret tt
        else
          stopped ← load stop_requested;
          if (stopped : bool) then mret tt
          else
            close_if_disarmed;;
            a ← process_control_messages;
            match a with
            | ActNone => sleep POLL;; now ← clock_now; drain_loop fuel drain_pps now deadline
            | _ => mret tt
            end
      else mret tt
  end.

Definition drain_via_estimator (c : StepCtx) (timeout : Z) : M unit :=
  if timeout =? 0 then mret tt
  else
    cs ← get (fun w => caps (w_dev w));
    start ← clock_now;
    drain_loop (Z.to_nat (timeout / POLL + 2)) (Z.min (ctx_pps c) (pps_max cs)) start (start + timeout).

Definition source_mismatch (adapter : string) : M StepOutcome :=
  error_sink (ErrInvalidConfig (adapter +:+ " requires a content source matching its output model"));;
  mret StepStopped.

(** ** Calls on the content source of the step *)

Definition fifo_produce (target : nat) (pps : Z) (armed : bool) : M (list LaserPoint) := fun w =>
  let w := tick w in
  match w_src w with
  | SrcFifo s =>
      match produce_chunk (control_color_delay (w_ctl w)) target pps armed s with
      | Some (s, slice) => Ret slice (set_src (SrcFifo s) w)
      | None => Panicked w
      end
  | SrcFrame _ => Panicked w
  end.

Definition fifo_cached : M (option (list LaserPoint)) :=
  get (fun w => match w_src w with SrcFifo s => cached_slice s | SrcFrame _ => None end).

Definition fifo_commit (n : nat) (armed : bool) : M unit := fun w =>
  match w_src w with
  | SrcFifo s =>
      match commit_written n armed s with
      | Some s => Ret tt (log_event (EvCommit n) (set_src (SrcFifo s) w))
      | None => Panicked w
      end
  | SrcFrame _ => Panicked w
  end.

Definition fifo_reserve (n : nat) : M unit :=
  modify (fun w => match w_src w with SrcFifo s => set_src (SrcFifo (reserve_buf n s)) w | _ => w end).

Definition frame_produce (pps : Z) (armed : bool) : M (list LaserPoint) := fun w =>
  match w_src w with
  | SrcFrame s =>
      match produce_frame pps armed s with
      | Some (s, slice) => Ret slice (set_src (SrcFrame s) w)
      | None => Panicked w
      end
  | SrcFifo _ => Panicked w
  end.

Definition frame_cached : M (option (list LaserPoint)) :=
  get (fun w => match w_src w with SrcFrame s => frame_cached_slice s | SrcFifo _ => None end).

Definition frame_commit (n : nat) (armed : bool) : M unit :=
  modify (fun w => match w_src w with
                   | SrcFrame s => log_event (EvCommit n) (set_src (SrcFrame (frame_commit_written n armed s)) w)
                   | SrcFifo _ => w
                   end).

Definition source_is_frame (w : World) : bool := match w_src w with SrcFrame _ => true | SrcFifo _ => false end.

(** The error arms shared by the FIFO adapters' writes. *)
Definition write_failed (e : Error) : M StepOutcome :=
  if is_stopped e then mret StepStopped
  else if is_disconnected e then error_sink e;; mret StepDisconnected
  else disconnect_device;; error_sink e;; mret StepDisconnected.

(** ** NetworkFifo *)
Record NetworkFifoAdapter := mkNetworkFifo {
  net_max_points : Z;
  written_pps : option Z;
}.

Definition new_network_fifo (c : DacCapabilities) : NetworkFifoAdapter := mkNetworkFifo (max_points_per_chunk c) None.

(** The buffer target in points, as a double and truncated, and the minimum
    write quantum. *)
Definition network_target (buffer pps : Z) (ceiling : option Z) (max_points : Z) : F64.t * Z * Z :=
  let pps_f64 := F64.of_int pps in
  let requested_points := F64.mul (as_secs_f64 buffer) pps_f64 in
  let target_buffer_f64 :=
    match ceiling with
    | Some c => fmin requested_points (F64.of_int (Z.max c 1))
    | None => requested_points
    end in
  let target_buffer_points := as_u64 target_buffer_f64 in
  let quantum :=
    Z.min (Z.min (Z.max (as_usize (F64.ceil (F64.mul MIN_WRITE_QUANTUM_SECS pps_f64))) MIN_WRITE_QUANTUM_FLOOR) max_points)
      target_buffer_points in
  (target_buffer_f64, target_buffer_points, quantum).

(** The number of points to ask the source for. *)
Definition network_request (target_f64 : F64.t) (buffered quantum max_points : Z) (rate_pending : bool) : Z :=
  let deficit := fmax (F64.sub target_f64 (F64.of_int buffered)) (F64.of_int 0) in
  let target_points := Z.min (as_usize (F64.ceil deficit)) max_points in
  if rate_pending then Z.max (Z.max target_points quantum) 1 else target_points.

(** The retry loop around one slice of [n] points. *)
Fixpoint network_write (fuel : nat) (a : NetworkFifoAdapter) (c : StepCtx) (n : nat) (spin_start desired_at_start : Z) :
    M (NetworkFifoAdapter * StepOutcome) :=
  match fuel with
  | O => no_fuel
  | Datatypes.S fuel =>
      slice ← fifo_cached;
      match slice with
      | None => mret (a, StepContinue)
      | Some slice =>
          r ← write_points (ctx_pps c) slice;
          match r with
          | Ok Written =>
              fifo_commit n (ctx_is_armed c);;
              mret (mkNetworkFifo (net_max_points a) (Some (ctx_pps c)), StepContinue)
          | Ok WouldBlock =>
              stopped ← load stop_requested;
              if (stopped : bool) then mret (a, StepStopped)
              else
                action ← process_control_messages;
                close_if_disarmed;;
                match action with
                | ActStop => mret (a, StepStopped)
                | ActStateChanged => mret (a, StepStateChanged)
                | ActNone =>
                    armed ← load control_is_armed;
                    if negb (eqb armed (ctx_is_armed c)) then mret (a, StepStateChanged)
                    else
                      desired ← load desired_state;
                      if negb (desired =? desired_at_start) then mret (a, StepStateChanged)
                      else
                        now ← clock_now;
                        if WOULDBLOCK_STALL_TIMEOUT <=? sat_sub now spin_start then
                          disconnect_device;;
                          error_sink (ErrDisconnected "write stalled: continuous WouldBlock");;
                          mret (a, StepDisconnected)
                        else
                          sleep (micros 100);;
                          network_write fuel a c n spin_start desired_at_start
                end
          | Err e => o ← write_failed e; mret (a, o)
          end
      end
  end.

(** The spin sleeps 100 us per round and gives up after the stall timeout. *)
Definition network_fuel : nat := Z.to_nat (WOULDBLOCK_STALL_TIMEOUT / micros 100 + 2).

Definition network_step (a : NetworkFifoAdapter) (c : StepCtx) : M (NetworkFifoAdapter * StepOutcome) :=
  let pps := ctx_pps c in
  let pps_f64 := F64.of_int pps in
  ceiling ← get (fun w => target_buffer_ceiling (w_dev w));
  let '(target_f64, target_pts, quantum) := network_target (target_buffer c) pps ceiling (net_max_points a) in
  let drain_pps := default pps (written_pps a) in
  let rate_pending := negb (drain_pps =? pps) in
  buffered ← estimator_fullness drain_pps;
  if (target_pts <? buffered) && negb rate_pending then
    d ← of_option (from_secs_f64 (F64.div (F64.of_int (buffered - target_pts)) (fmax pps_f64 (F64.of_int 1))));
    o ← sleep_with_control_check d;
    mret (a, default StepContinue o)
  else
    let target_points := network_request target_f64 buffered quantum (net_max_points a) rate_pending in
    if target_points =? 0 then sleep (millis 1);; mret (a, StepContinue)
    else if target_points <? quantum then
      d ← of_option (from_secs_f64 (F64.div (F64.of_int (quantum - target_points)) (fmax pps_f64 (F64.of_int 1))));
      o ← sleep_with_control_check d;
      mret (a, default StepContinue o)
    else
      frame ← get source_is_frame;
      if (frame : bool) then o ← source_mismatch "NetworkFifoAdapter"; mret (a, o)
      else
        slice ← fifo_produce (Z.to_nat target_points) pps (ctx_is_armed c);
        if decide (slice = []) then sleep (millis 1);; mret (a, StepContinue)
        else
          spin_start ← clock_now;
          desired_at_start ← load desired_state;
          network_write network_fuel a c (length slice) spin_start desired_at_start.

Definition network_on_reconnect (c : DacCapabilities) (a : NetworkFifoAdapter) : NetworkFifoAdapter :=
  mkNetworkFifo (max_points_per_chunk c) None.

(** ** UdpTimed *)
Record UdpTimedAdapter := mkUdpTimed {
  next_send : Z;
  udp_chunk_points : Z;
  chunk_pps : Z;
  chunk_duration : Z;
  udp_has_retain : bool;
  udp_max_points : Z;
}.

(** The initial period is 10 ms. *)
Definition new_udp_timed (now : Z) (c : DacCapabilities) : UdpTimedAdapter :=
  mkUdpTimed now 0 0 (millis 10) false (max_points_per_chunk c).

Definition recompute_chunk (pps : Z) (a : UdpTimedAdapter) : option UdpTimedAdapter :=
  let pps_f64 := F64.of_int pps in
  let new_chunk := Z.min (as_usize (F64.ceil (F64.mul pps_f64 CHUNK_SECS))) (udp_max_points a) in
  if negb (new_chunk =? udp_chunk_points a) || negb (pps =? chunk_pps a) then
    d ← from_secs_f64 (F64.div (F64.of_int new_chunk) (fmax pps_f64 (F64.of_int 1)));
    Some (mkUdpTimed (next_send a) new_chunk pps d (udp_has_retain a) (udp_max_points a))
  else Some a.

(** [next_send] after a step: one period later, but at most three periods behind. *)
Definition catch_up (now : Z) (a : UdpTimedAdapter) : UdpTimedAdapter :=
  let next := next_send a + chunk_duration a in
  let min_next := now - chunk_duration a * CATCH_UP_CHUNKS in
  mkUdpTimed (if next <? min_next then min_next else next) (udp_chunk_points a) (chunk_pps a) (chunk_duration a)
    (udp_has_retain a) (udp_max_points a).

Definition udp_set_retain (b : bool) (a : UdpTimedAdapter) : UdpTimedAdapter :=
  mkUdpTimed (next_send a) (udp_chunk_points a) (chunk_pps a) (chunk_duration a) b (udp_max_points a).

(** The write of the retained slice. *)
Definition udp_write (pps : Z) (c : StepCtx) (a : UdpTimedAdapter) : M (UdpTimedAdapter * StepOutcome) :=
  slice ← fifo_cached;
  match slice with
  | None => mret (udp_set_retain false a, StepContinue)
  | Some slice =>
      r ← write_points pps slice;
      match r with
      | Ok Written => fifo_commit (length slice) (ctx_is_armed c);; mret (udp_set_retain false a, StepContinue)
      | Ok WouldBlock => mret (a, StepContinue)
      | Err e => o ← write_failed e; mret (a, o)
      end
  end.

Definition udp_step (fuel : nat) (a : UdpTimedAdapter) (c : StepCtx) : M (UdpTimedAdapter * StepOutcome) :=
  o ← sleep_until_precise fuel (next_send a);
  match o with
  | Some o => mret (a, o)
  | None =>
      now ← clock_now;
      let a := catch_up now a in
      pps ← load control_pps;
      a ← of_option (recompute_chunk pps a);
      frame ← get source_is_frame;
      if (frame : bool) then o ← source_mismatch "UdpTimedAdapter"; mret (a, o)
      else
        fifo_reserve (Z.to_nat (udp_chunk_points a));;
        if udp_has_retain a then udp_write pps c a
        else
          slice ← fifo_produce (Z.to_nat (udp_chunk_points a)) pps (ctx_is_armed c);
          if decide (slice = []) then mret (a, StepContinue) else udp_write pps c (udp_set_retain true a)
  end.

Definition udp_on_reconnect (now : Z) (c : DacCapabilities) (a : UdpTimedAdapter) : UdpTimedAdapter :=
  mkUdpTimed now 0 (chunk_pps a) (chunk_duration a) false (max_points_per_chunk c).

(** ** BlockingFifo *)
Record BlockingFifoAdapter := mkBlockingFifo {
  blk_chunk_points : Z;
  blk_has_retain : bool;
}.

Definition new_blocking_fifo (c : DacCapabilities) : BlockingFifoAdapter :=
  mkBlockingFifo (Z.min CHUNK_POINTS (max_points_per_chunk c)) false.

Definition blocking_write (c : StepCtx) (a : BlockingFifoAdapter) : M (BlockingFifoAdapter * StepOutcome) :=
  slice ← fifo_cached;
  match slice with
  | None => mret (mkBlockingFifo (blk_chunk_points a) false, StepContinue)
  | Some slice =>
      r ← write_points (ctx_pps c) slice;
      match r with
      | Ok Written =>
          fifo_commit (length slice) (ctx_is_armed c);;
          mret (mkBlockingFifo (blk_chunk_points a) false, StepContinue)
      | Ok WouldBlock =>
          stopped ← load stop_requested;
          if (stopped : bool) then mret (a, StepStopped)
          else
            close_if_disarmed;;
            armed ← load control_is_armed;
            if negb armed then mret (a, StepStateChanged) else sleep (micros 100);; mret (a, StepContinue)
      | Err e => o ← write_failed e; mret (a, o)
      end
  end.

Definition blocking_step (a : BlockingFifoAdapter) (c : StepCtx) : M (BlockingFifoAdapter * StepOutcome) :=
  if negb (ctx_is_armed c) then
    o ← sleep_with_control_check IDLE_SLEEP;
    mret (a, default StepContinue o)
  else
    frame ← get source_is_frame;
    if (frame : bool) then o ← source_mismatch "BlockingFifoAdapter"; mret (a, o)
    else
      fifo_reserve (Z.to_nat (blk_chunk_points a));;
      if blk_has_retain a then blocking_write c a
      else
        slice ← fifo_produce (Z.to_nat (blk_chunk_points a)) (ctx_pps c) (ctx_is_armed c);
        if decide (slice = []) then sleep (millis 1);; mret (a, StepContinue)
        else blocking_write c (mkBlockingFifo (blk_chunk_points a) true).

Definition blocking_on_reconnect (c : DacCapabilities) (a : BlockingFifoAdapter) : BlockingFifoAdapter :=
  mkBlockingFifo (Z.min CHUNK_POINTS (max_points_per_chunk c)) false.

(** ** UsbFrameSwap *)
Record UsbFrameSwapAdapter := mkUsbFrameSwap {
  write_pending : bool;
  transient_retries : Z;
}.

Definition new_usb_frame_swap : UsbFrameSwapAdapter := mkUsbFrameSwap false 0.

Definition swap_write (c : StepCtx) (a : UsbFrameSwapAdapter) : M (UsbFrameSwapAdapter * StepOutcome) :=
  slice ← frame_cached;
  match slice with
  | None => mret (mkUsbFrameSwap false (transient_retries a), StepContinue)
  | Some slice =>
      let n := length slice in
      r ← dev_cmd (write_frame_after_ready (ctx_pps c) slice) (EvWrite (ctx_pps c) slice);
      match r with
      | Ok Written =>
          frame_commit n (ctx_is_armed c);;
          let a := mkUsbFrameSwap false 0 in
          if (0 <? ctx_pps c) && bool_decide (0 < n)%nat then
            let secs := F64.div (F64.of_int (Z.of_nat n)) (F64.of_int (ctx_pps c)) in
            half ← of_option (from_secs_f64 (F64.div secs (F64.of_int 2)));
            o ← sleep_with_control_check half;
            mret (a, default StepContinue o)
          else mret (a, StepContinue)
      | Ok WouldBlock => sleep (millis 1);; mret (a, StepContinue)
      | Err e =>
          if is_stopped e then mret (a, StepStopped)
          else if is_disconnected e then error_sink e;; mret (a, StepDisconnected)
          else
            let retries := transient_retries a + 1 in
            if retries <=? MAX_TRANSIENT_WRITE_RETRIES then
              sleep (millis 1);; mret (mkUsbFrameSwap (write_pending a) retries, StepContinue)
            else disconnect_device;; error_sink e;; mret (mkUsbFrameSwap false 0, StepDisconnected)
      end
  end.

Definition swap_step (a : UsbFrameSwapAdapter) (c : StepCtx) : M (UsbFrameSwapAdapter * StepOutcome) :=
  ready ← (fun w => let w := tick w in let '(d, r) := is_ready_for_frame (w_dev w) in Ret r (set_dev d w));
  match ready with
  | Err e => error_sink e;; mret (a, StepStopped)
  | Ok false =>
      o ← sleep_with_control_check (millis 1);
      mret (a, default StepContinue o)
  | Ok true =>
      frame ← get source_is_frame;
      if negb frame then o ← source_mismatch "UsbFrameSwapAdapter"; mret (a, o)
      else if write_pending a then swap_write c a
      else
        slice ← frame_produce (ctx_pps c) (ctx_is_armed c);
        if decide (slice = []) then sleep (millis 1);; mret (a, StepContinue)
        else swap_write c (mkUsbFrameSwap true (transient_retries a))
  end.

(** ** The adapter trait: one of the four models *)
Inductive Adapter :=
  | ANetwork (a : NetworkFifoAdapter)
  | AUdp (a : UdpTimedAdapter)
  | ABlocking (a : BlockingFifoAdapter)
  | ASwap (a : UsbFrameSwapAdapter).

(** [for_backend]. *)
Definition for_backend (now : Z) (k : BackendKind FB SB) (source_frame : bool) : result Adapter :=
  match validate_output_model k with
  | Err e => Err e
  | Ok _ =>
      let model := output_model (caps k) in
      if negb (eqb (bool_decide (model = UsbFrameSwap)) source_frame)
      then Err (ErrInvalidConfig "output model requires another content source")
      else
        Ok (match model with
            | UsbFrameSwap => ASwap new_usb_frame_swap
            | NetworkFifo => ANetwork (new_network_fifo (caps k))
            | UdpTimed => AUdp (new_udp_timed now (caps k))
            | BlockingFifo => ABlocking (new_blocking_fifo (caps k))
            end)
  end.

Definition adapter_step (spin : nat) (a : Adapter) (c : StepCtx) : M (Adapter * StepOutcome) :=
  match a with
  | ANetwork a => r ← network_step a c; mret (ANetwork r.1, r.2)
  | AUdp a => r ← udp_step spin a c; mret (AUdp r.1, r.2)
  | ABlocking a => r ← blocking_step a c; mret (ABlocking r.1, r.2)
  | ASwap a => r ← swap_step a c; mret (ASwap r.1, r.2)
  end.

Definition adapter_on_reconnect (now : Z) (c : DacCapabilities) (a : Adapter) : Adapter :=
  match a with
  | ANetwork a => ANetwork (network_on_reconnect c a)
  | AUdp a => AUdp (udp_on_reconnect now c a)
  | ABlocking a => ABlocking (blocking_on_reconnect c a)
  | ASwap a => ASwap (mkUsbFrameSwap false 0)
  end.

Definition on_state_change (a : Adapter) : Adapter :=
  match a with
  | ANetwork a => ANetwork a
  | AUdp a => AUdp (udp_set_retain false a)
  | ABlocking a => ABlocking (mkBlockingFifo (blk_chunk_points a) false)
  | ASwap a => ASwap (mkUsbFrameSwap false 0)
  end.

Definition drain_and_blank (c : StepCtx) (timeout : Z) (a : Adapter) : M unit :=
  match a with
  | ANetwork _ | AUdp _ => drain_via_estimator c timeout;; blank_and_close_shutter c
  | ABlocking _ =>
      drain_via_estimator c timeout;;
      dev_cmd reset_device_buffer (fun r => EvResetBuffer (is_ok r));;
      blank_and_close_shutter c
  | ASwap _ => blank_and_close_shutter c
  end.

(** ** Which invariants the adapters keep *)

(** [waiting_ok I]: waiting, closing the shutter, disconnecting and reporting
    errors keep [I]. *)
Record waiting_ok (I : World -> Prop) : Prop := {
  ok_tick w : I w -> I (tick w);
  ok_now w t : I w -> w_now w <= t -> I (set_now t w);
  ok_queue w q : I w -> I (set_ctl (upd_queue q (w_ctl w)) w);
  ok_close w d r : I w -> I (log_event (EvShutter false r) (set_dev d w));
  ok_shut w st : I w -> st <> Open_ -> I (set_shut st w);
  ok_disconnect w d : I w -> I (log_event EvDisconnect (set_dev d w));
  ok_error w e : I w -> I (log_event (EvError e) w);
}.

(** [adapter_ok I]: producing, writing and committing keep [I] too; a successful
    write and the commit that follows it count as one action. *)
Record adapter_ok (I : World -> Prop) : Prop := {
  ok_waiting : waiting_ok I;
  ok_dev w d : I w -> I (set_dev d w);
  ok_write w d pps slice r : I w -> r <> Ok Written -> I (log_event (EvWrite pps slice r) (set_dev d w));
  ok_produce w s delay target pps armed : I w -> w_src w = SrcFifo s ->
    match produce_chunk delay target pps armed s with
    | Some (s', slice) => I (set_src (SrcFifo s') w) /\ (slice <> [] -> cached_slice s' = Some slice)
    | None => True
    end;
  ok_reserve w s n : I w -> w_src w = SrcFifo s -> I (set_src (SrcFifo (reserve_buf n s)) w);
  ok_commit w s d pps slice armed : I w -> w_src w = SrcFifo s -> cached_slice s = Some slice ->
    exists s', commit_written (length slice) armed s = Some s' /\
      I (log_event (EvCommit (length slice)) (set_src (SrcFifo s') (log_event (EvWrite pps slice (Ok Written)) (set_dev d w))));
  ok_frame_produce w s pps armed : I w -> w_src w = SrcFrame s ->
    match produce_frame pps armed s with
    | Some (s', slice) => I (set_src (SrcFrame s') w)
    | None => True
    end;
  ok_frame_commit w s d pps slice armed : I w -> w_src w = SrcFrame s -> frame_cached_slice s = Some slice ->
    I (log_event (EvCommit (length slice)) (set_src (SrcFrame (frame_commit_written (length slice) armed s))
         (log_event (EvWrite pps slice (Ok Written)) (set_dev d w))));
}.

(** *** Waiting *)
Section waiting.
Context (I : World -> Prop) (HI : waiting_ok I).

Lemma keeps_load_ok {A} (f : SessionControl -> A) : keeps I (load f).
Proof. apply keeps_load, HI. Qed.

Lemma keeps_now_ok : keeps I clock_now.
Proof. apply keeps_clock_now, HI. Qed.

Lemma keeps_sleep_ok d : 0 <= d -> keeps I (sleep d).
Proof. intros Hd w Hw. apply (ok_now I HI); [by apply (ok_tick I HI)|simpl; lia]. Qed.

Lemma keeps_process : keeps I process_control_messages.
Proof.
  intros w Hw. unfold process_control_messages. destruct (drain_msgs _ _) as [a q].
  apply (ok_queue I HI), (ok_tick I HI), Hw.
Qed.

Lemma keeps_close_shutter : keeps I close_shutter.
Proof.
  apply keeps_bind.
  - apply keeps_dev_cmd; [apply HI|]. intros w Hw. by apply (ok_close I HI).
  - intros r. apply keeps_modify. intros w Hw. apply (ok_shut I HI); [done|]. by destruct (is_ok r).
Qed.

Lemma keeps_close_if_disarmed : keeps I close_if_disarmed.
Proof.
  apply keeps_bind; [apply keeps_load_ok|]. intros armed. apply keeps_bind; [apply keeps_get|]. intros st.
  apply keeps_if; [apply keeps_close_shutter|apply keeps_mret].
Qed.

Lemma keeps_check_control : keeps I check_control.
Proof.
  apply keeps_bind; [apply keeps_load_ok|]. intros stopped. apply keeps_if; [apply keeps_mret|].
  apply keeps_bind; [apply keeps_close_if_disarmed|]. intros _.
  apply keeps_bind; [apply keeps_process|]. intros a. apply keeps_mret.
Qed.

Lemma keeps_sleep_loop fuel deadline : keeps I (sleep_loop fuel deadline).
Proof.
  induction fuel as [|fuel IH]; [apply keeps_no_fuel|]. simpl.
  apply keeps_bind; [apply keeps_now_ok|]. intros now. apply keeps_if; [apply keeps_mret|].
  apply keeps_bind; [apply keeps_sleep_ok; unfold sat_sub, SLICE, millis; lia|]. intros _.
  apply keeps_bind; [apply keeps_check_control|]. intros [o|]; [apply keeps_mret|done].
Qed.

Lemma keeps_sleep_with_control_check d : keeps I (sleep_with_control_check d).
Proof. apply keeps_bind; [apply keeps_now_ok|]. intros now. apply keeps_sleep_loop. Qed.

Lemma keeps_sleep_until_precise fuel deadline : keeps I (sleep_until_precise fuel deadline).
Proof.
  induction fuel as [|fuel IH]; [apply keeps_no_fuel|]. simpl.
  apply keeps_bind; [apply keeps_now_ok|]. intros now. apply keeps_if; [apply keeps_mret|].
  apply keeps_bind.
  { apply keeps_if; [apply keeps_sleep_ok; unfold sat_sub, SLEEP_SLICE, millis; lia|apply keeps_mret]. }
  intros _. apply keeps_bind; [apply keeps_check_control|]. intros [o|]; [apply keeps_mret|done].
Qed.

Lemma keeps_error_sink e : keeps I (error_sink e).
Proof. apply keeps_modify. intros w Hw. by apply (ok_error I HI). Qed.

Lemma keeps_disconnect_device : keeps I disconnect_device.
Proof.
  apply keeps_bind; [|intros; apply keeps_mret]. apply keeps_dev_cmd; [apply HI|].
  intros w Hw. by apply (ok_disconnect I HI).
Qed.

Lemma keeps_write_failed e : keeps I (write_failed e).
Proof.
  unfold write_failed. apply keeps_if; [apply keeps_mret|].
  assert (keeps I (error_sink e;; mret StepDisconnected)).
  { apply keeps_bind; [apply keeps_error_sink|]. intros _. apply keeps_mret. }
  apply keeps_if; [done|]. apply keeps_bind; [apply keeps_disconnect_device|done].
Qed.

Lemma keeps_source_mismatch s : keeps I (source_mismatch s).
Proof. apply keeps_bind; [apply keeps_error_sink|]. intros _. apply keeps_mret. Qed.

Lemma keeps_estimator pps : keeps I (estimator_fullness pps).
Proof. intros w Hw. by apply (ok_tick I HI). Qed.

Lemma keeps_drain_loop fuel pps now deadline : keeps I (drain_loop fuel pps now deadline).
Proof.
  revert now. induction fuel as [|fuel IH]; intros now; [apply keeps_no_fuel|]. simpl.
  apply keeps_if; [|apply keeps_mret]. apply keeps_bind; [apply keeps_estimator|]. intros buffered.
  apply keeps_if; [apply keeps_mret|]. apply keeps_bind; [apply keeps_load_ok|]. intros stopped.
  apply keeps_if; [apply keeps_mret|]. apply keeps_bind; [apply keeps_close_if_disarmed|]. intros _.
  apply keeps_bind; [apply keeps_process|]. intros [| |]; [|apply keeps_mret..].
  apply keeps_bind; [by apply keeps_sleep_ok|]. intros _. apply keeps_bind; [apply keeps_now_ok|done].
Qed.

Lemma keeps_drain_via_estimator c timeout : keeps I (drain_via_estimator c timeout).
Proof.
  unfold drain_via_estimator. apply keeps_if; [apply keeps_mret|].
  apply keeps_bind; [apply keeps_get|]. intros cs. apply keeps_bind; [apply keeps_now_ok|]. intros start.
  apply keeps_drain_loop.
Qed.
End waiting.

(** A waiting-invariant together with a fixed source. *)
Lemma waiting_ok_src I s : waiting_ok I -> waiting_ok (fun w => I w /\ w_src w = s).
Proof.
  intros HI. split; simpl; intros; destruct_and?; (split; [by apply HI|try done]).
  by unfold tick; destruct (w_env w).
Qed.

(** *** Steps *)
Section steps.
Context (I : World -> Prop) (HI : adapter_ok I).

Lemma keeps_fifo_produce target pps armed : keeps I (fifo_produce target pps armed).
Proof.
  intros w Hw. unfold fifo_produce. assert (Ht : I (tick w)) by (by apply (ok_tick I (ok_waiting I HI))).
  destruct (w_src (tick w)) as [s|s] eqn:Hs; [|done].
  pose proof (ok_produce I HI (tick w) s (control_color_delay (w_ctl (tick w))) target pps armed Ht Hs) as Hp.
  destruct (produce_chunk _ _ _ _ s) as [[s' slice]|]; [|done]. by destruct Hp.
Qed.

Lemma keeps_fifo_reserve n : keeps I (fifo_reserve n).
Proof.
  apply keeps_modify. intros w Hw. destruct (w_src w) as [s|s] eqn:Hs; [|done]. by apply (ok_reserve I HI).
Qed.

Lemma keeps_frame_produce pps armed : keeps I (frame_produce pps armed).
Proof.
  intros w Hw. unfold frame_produce. destruct (w_src w) as [s|s] eqn:Hs; [done|].
  pose proof (ok_frame_produce I HI w s pps armed Hw Hs) as Hp. by destruct (produce_frame _ _ s) as [[s' slice]|].
Qed.

(** The write of a cached slice; a successful one is completed by its commit. *)
Lemma write_points_spec pps slice s w :
  I w -> w_src w = SrcFifo s -> cached_slice s = Some slice ->
  exists r w', write_points pps slice w = Ret r w' /\ w_src w' = SrcFifo s /\
    (r = Ok Written -> forall armed, exists w2, fifo_commit (length slice) armed w' = Ret tt w2 /\ I w2) /\
    (r <> Ok Written -> I w').
Proof.
  intros Hw Hs Hc. unfold write_points, dev_cmd.
  assert (Ht : I (tick w)) by (by apply (ok_tick I (ok_waiting I HI))).
  assert (Hst : w_src (tick w) = SrcFifo s) by (unfold tick; by destruct (w_env w)).
  destruct (try_write pps slice (w_dev (tick w))) as [d r]. eexists _, _. split; [reflexivity|]. split; [done|].
  split; [|intros Hr; by apply (ok_write I HI)].
  intros -> armed. destruct (ok_commit I HI (tick w) s d pps slice armed Ht Hst Hc) as (s' & Hcm & HI').
  unfold fifo_commit. simpl. rewrite Hst, Hcm. by eexists.
Qed.

(** What may follow a blocked write keeps the invariant and the source. *)
Lemma keeps_with_src {A} (m : M A) s w :
  (forall J, waiting_ok J -> keeps J m) -> I w -> w_src w = s -> I (final (m w)) /\ w_src (final (m w)) = s.
Proof.
  intros Hm Hw Hs. apply (Hm (fun w => I w /\ w_src w = s)); [|done]. apply waiting_ok_src, HI.
Qed.

Lemma bind_final {A B} (m : M A) (k : A -> M B) s w (P : World -> Prop) :
  (forall J, waiting_ok J -> keeps J m) -> I w -> w_src w = s ->
  (forall w', I w' -> P w') ->
  (forall a w', I w' -> w_src w' = s -> P (final (k a w'))) -> P (final ((m ≫= k) w)).
Proof.
  intros Hm Hw Hs HP Hk. destruct (keeps_with_src m s w Hm Hw Hs) as [Hf1 Hf2]. unfold mbind, M_bind.
  destruct (m w) as [a w'|w'|w']; simpl in *; auto.
Qed.

Lemma network_write_keeps fuel a c n t0 d0 : forall w s slice,
  I w -> w_src w = SrcFifo s -> cached_slice s = Some slice -> n = length slice ->
  I (final (network_write fuel a c n t0 d0 w)).
Proof.
  induction fuel as [|fuel IH]; intros w s slice Hw Hs Hc ->; [done|].
  cbn [network_write]. unfold fifo_cached, get. unfold mbind at 1, M_bind at 1. rewrite Hs, Hc.
  destruct (write_points_spec (ctx_pps c) slice s w Hw Hs Hc) as (r & w1 & Hr & Hs1 & Hok & Hno).
  unfold mbind at 1, M_bind at 1. rewrite Hr. destruct r as [[|]|e].
  - destruct (Hok eq_refl (ctx_is_armed c)) as (w2 & Hc2 & Hw2). unfold mbind, M_bind. by rewrite Hc2.
  - assert (Hw1 : I w1) by (by apply Hno).
    apply bind_final with (s := SrcFifo s); try done; [intros; by apply keeps_load_ok|].
    intros stopped w2 Hw2 Hs2. destruct stopped; [done|].
    apply bind_final with (s := SrcFifo s); try done; [intros; by apply keeps_process|].
    intros action w3 Hw3 Hs3.
    apply bind_final with (s := SrcFifo s); try done; [intros; by apply keeps_close_if_disarmed|].
    intros _ w4 Hw4 Hs4. destruct action; [|done..].
    apply bind_final with (s := SrcFifo s); try done; [intros; by apply keeps_load_ok|].
    intros armed w5 Hw5 Hs5. destruct (negb _); [done|].
    apply bind_final with (s := SrcFifo s); try done; [intros; by apply keeps_load_ok|].
    intros desired w6 Hw6 Hs6. destruct (negb _); [done|].
    apply bind_final with (s := SrcFifo s); try done; [intros; by apply keeps_now_ok|].
    intros now w7 Hw7 Hs7. destruct (_ <=? _).
    + apply keeps_bind; [apply keeps_disconnect_device, HI| |done]. intros _.
      apply keeps_bind; [apply keeps_error_sink, HI|]. intros _. apply keeps_mret.
    + apply bind_final with (s := SrcFifo s); try done.
      * intros. by apply keeps_sleep_ok.
      * intros _ w8 Hw8 Hs8. by eapply IH.
  - apply keeps_bind; [apply keeps_write_failed, HI| |by apply Hno]. intros o. apply keeps_mret.
Qed.

Lemma network_step_keeps a c : keeps I (network_step a c).
Proof.
  unfold network_step. apply keeps_bind; [apply keeps_get|]. intros ceiling.
  destruct (network_target _ _ _ _) as [[tf tp] quantum].
  apply keeps_bind; [apply keeps_estimator, HI|]. intros buffered.
  assert (Hwait : forall x, keeps I (d ← of_option (from_secs_f64 x); o ← sleep_with_control_check d;
            mret (a, default StepContinue o))).
  { intros x. apply keeps_bind; [apply keeps_of_option|]. intros d.
    apply keeps_bind; [apply keeps_sleep_with_control_check, HI|]. intros o. apply keeps_mret. }
  assert (Hms : keeps I (sleep (millis 1);; mret (a, StepContinue))).
  { apply keeps_bind; [apply keeps_sleep_ok; [apply HI|done]|]. intros _. apply keeps_mret. }
  apply keeps_if; [apply Hwait|]. apply keeps_if; [done|]. apply keeps_if; [apply Hwait|].
  apply keeps_bind; [apply keeps_get|]. intros frame. apply keeps_if.
  { apply keeps_bind; [apply keeps_source_mismatch, HI|]. intros o. apply keeps_mret. }
  intros w Hw. unfold mbind at 1, M_bind at 1. unfold fifo_produce.
  assert (Ht : I (tick w)) by (by apply (ok_tick I (ok_waiting I HI))).
  destruct (w_src (tick w)) as [s|s] eqn:Hs; [|done].
  match goal with |- context [produce_chunk ?d ?t ?p ?ar s] =>
    pose proof (ok_produce I HI (tick w) s d t p ar Ht Hs) as Hp;
    destruct (produce_chunk d t p ar s) as [[s' slice]|] end; [|done].
  destruct Hp as [Hw1 Hcache]. destruct (decide (slice = [])) as [|Hne]; [by apply Hms|].
  apply bind_final with (s := SrcFifo s'); try done; [intros; by apply keeps_now_ok|].
  intros t0 w2 Hw2 Hs2. apply bind_final with (s := SrcFifo s'); try done; [intros; by apply keeps_load_ok|].
  intros d0 w3 Hw3 Hs3. eapply network_write_keeps; [done..|by apply Hcache|done].
Qed.

Lemma udp_write_keeps pps c a : keeps I (udp_write pps c a).
Proof.
  intros w Hw. unfold udp_write, fifo_cached, get. unfold mbind at 1, M_bind at 1.
  destruct (w_src w) as [s|s] eqn:Hs; [|done]. destruct (cached_slice s) as [slice|] eqn:Hc; [|done].
  destruct (write_points_spec pps slice s w Hw Hs Hc) as (r & w1 & Hr & Hs1 & Hok & Hno).
  unfold mbind at 1, M_bind at 1. rewrite Hr. destruct r as [[|]|e].
  - destruct (Hok eq_refl (ctx_is_armed c)) as (w2 & Hc2 & Hw2). unfold mbind, M_bind. by rewrite Hc2.
  - by apply Hno.
  - apply keeps_bind; [apply keeps_write_failed, HI| |by apply Hno]. intros o. apply keeps_mret.
Qed.

Lemma udp_step_keeps fuel a c : keeps I (udp_step fuel a c).
Proof.
  apply keeps_bind; [apply keeps_sleep_until_precise, HI|]. intros [o|]; [apply keeps_mret|].
  apply keeps_bind; [apply keeps_now_ok, HI|]. intros now.
  apply keeps_bind; [apply keeps_load_ok, HI|]. intros pps.
  apply keeps_bind; [apply keeps_of_option|]. intros a'.
  apply keeps_bind; [apply keeps_get|]. intros frame. apply keeps_if.
  { apply keeps_bind; [apply keeps_source_mismatch, HI|]. intros o. apply keeps_mret. }
  apply keeps_bind; [apply keeps_fifo_reserve|]. intros _. apply keeps_if; [apply udp_write_keeps|].
  apply keeps_bind; [apply keeps_fifo_produce|]. intros slice.
  destruct (decide (slice = [])); [apply keeps_mret|apply udp_write_keeps].
Qed.

Lemma blocking_write_keeps c a : keeps I (blocking_write c a).
Proof.
  intros w Hw. unfold blocking_write, fifo_cached, get. unfold mbind at 1, M_bind at 1.
  destruct (w_src w) as [s|s] eqn:Hs; [|done]. destruct (cached_slice s) as [slice|] eqn:Hc; [|done].
  destruct (write_points_spec (ctx_pps c) slice s w Hw Hs Hc) as (r & w1 & Hr & Hs1 & Hok & Hno).
  unfold mbind at 1, M_bind at 1. rewrite Hr. destruct r as [[|]|e].
  - destruct (Hok eq_refl (ctx_is_armed c)) as (w2 & Hc2 & Hw2). unfold mbind, M_bind. by rewrite Hc2.
  - revert w1 Hr Hs1 Hok Hno. intros w1 _ _ _ Hno. specialize (Hno ltac:(done)). revert w1 Hno.
    apply keeps_bind; [apply keeps_load_ok, HI|]. intros stopped. apply keeps_if; [apply keeps_mret|].
    apply keeps_bind; [apply keeps_close_if_disarmed, HI|]. intros _.
    apply keeps_bind; [apply keeps_load_ok, HI|]. intros armed. apply keeps_if; [apply keeps_mret|].
    apply keeps_bind; [apply keeps_sleep_ok; [apply HI|done]|]. intros _. apply keeps_mret.
  - apply keeps_bind; [apply keeps_write_failed, HI| |by apply Hno]. intros o. apply keeps_mret.
Qed.

Lemma blocking_step_keeps a c : keeps I (blocking_step a c).
Proof.
  unfold blocking_step. apply keeps_if.
  { apply keeps_bind; [apply keeps_sleep_with_control_check, HI|]. intros o. apply keeps_mret. }
  apply keeps_bind; [apply keeps_get|]. intros frame. apply keeps_if.
  { apply keeps_bind; [apply keeps_source_mismatch, HI|]. intros o. apply keeps_mret. }
  apply keeps_bind; [apply keeps_fifo_reserve|]. intros _. apply keeps_if; [apply blocking_write_keeps|].
  apply keeps_bind; [apply keeps_fifo_produce|]. intros slice.
  destruct (decide (slice = [])); [|apply blocking_write_keeps].
  apply keeps_bind; [apply keeps_sleep_ok; [apply HI|done]|]. intros _. apply keeps_mret.
Qed.

Lemma swap_write_keeps c a : keeps I (swap_write c a).
Proof.
  intros w Hw. unfold swap_write, frame_cached, get. unfold mbind at 1, M_bind at 1.
  destruct (w_src w) as [s|s] eqn:Hs; [done|]. destruct (frame_cached_slice s) as [slice|] eqn:Hc; [|done].
  unfold mbind at 1, M_bind at 1, dev_cmd.
  assert (Ht : I (tick w)) by (by apply (ok_tick I (ok_waiting I HI))).
  assert (Hst : w_src (tick w) = SrcFrame s) by (unfold tick; by destruct (w_env w)).
  assert (Hms : forall x, keeps I (sleep (millis 1);; mret (x : UsbFrameSwapAdapter * StepOutcome))).
  { intros x. apply keeps_bind; [apply keeps_sleep_ok; [apply HI|done]|]. intros _. apply keeps_mret. }
  destruct (write_frame_after_ready _ _ _) as [d r]. destruct r as [[|]|e].
  - unfold frame_commit, modify. unfold mbind at 1, M_bind at 1. simpl w_src. rewrite Hst.
    match goal with |- I (final (?m ?w)) => enough (Hk : keeps I m) by (apply Hk; by apply (ok_frame_commit I HI)) end.
    apply keeps_if; [|apply keeps_mret]. apply keeps_bind; [apply keeps_of_option|]. intros half.
    apply keeps_bind; [apply keeps_sleep_with_control_check, HI|]. intros o. apply keeps_mret.
  - apply Hms. by apply (ok_write I HI).
  - match goal with |- I (final (?m ?w)) => enough (Hk : keeps I m) by (apply Hk; by apply (ok_write I HI)) end.
    apply keeps_if; [apply keeps_mret|]. apply keeps_if.
    { apply keeps_bind; [apply keeps_error_sink, HI|]. intros _. apply keeps_mret. }
    apply keeps_if; [apply Hms|]. apply keeps_bind; [apply keeps_disconnect_device, HI|]. intros _.
    apply keeps_bind; [apply keeps_error_sink, HI|]. intros _. apply keeps_mret.
Qed.

Lemma swap_step_keeps a c : keeps I (swap_step a c).
Proof.
  apply keeps_bind.
  { intros w Hw. cbv zeta. destruct (is_ready_for_frame (w_dev (tick w))) as [d r]. apply (ok_dev I HI). by apply (ok_tick I (ok_waiting I HI)). }
  intros [[|]|e].
  - apply keeps_bind; [apply keeps_get|]. intros frame. apply keeps_if.
    { apply keeps_bind; [apply keeps_source_mismatch, HI|]. intros o. apply keeps_mret. }
    apply keeps_if; [apply swap_write_keeps|]. apply keeps_bind; [apply keeps_frame_produce|]. intros slice.
    destruct (decide (slice = [])); [|apply swap_write_keeps].
    apply keeps_bind; [apply keeps_sleep_ok; [apply HI|done]|]. intros _. apply keeps_mret.
  - apply keeps_bind; [apply keeps_sleep_with_control_check, HI|]. intros o. apply keeps_mret.
  - apply keeps_bind; [apply keeps_error_sink, HI|]. intros _. apply keeps_mret.
Qed.

(** Every adapter keeps an [adapter_ok] invariant. *)
Lemma adapter_step_keeps spin a c : keeps I (adapter_step spin a c).
Proof.
  destruct a as [a|a|a|a]; (apply keeps_bind; [|intros; apply keeps_mret]).
  - apply network_step_keeps.
  - apply udp_step_keeps.
  - apply blocking_step_keeps.
  - apply swap_step_keeps.
Qed.
End steps.

(** ** Retiring writes *)

(** Every successful write is followed at once by the commit of exactly the
    points written, and nothing else is committed. *)
Fixpoint retired (tr : list event) : bool :=
  match tr with
  | [] => true
  | EvWrite _ pts (Ok Written) :: EvCommit n :: tr => bool_decide (n = length pts) && retired tr
  | EvWrite _ _ (Ok Written) :: _ => false
  | EvCommit _ :: _ => false
  | _ :: tr => retired tr
  end.

Lemma retired_app tr tr' : retired tr = true -> retired (tr ++ tr') = retired tr'.
Proof.
  remember (length tr) as n eqn:Hn. revert tr Hn. induction (lt_wf n) as [n _ IH]. intros tr -> Hr.
  destruct tr as [|e tr]; [done|].
  assert (Hstep : forall t, (length t < length (e :: tr))%nat -> retired t = true -> retired (t ++ tr') = retired tr')
    by (intros t Ht; by apply (IH (length t))).
  destruct e as [|pps pts [[|]|]| | | | | | | | |]; simpl in Hr |- *; try discriminate Hr; try (apply Hstep; simpl; [lia|done]).
  destruct tr as [|[] tr]; try discriminate Hr. simpl in Hr |- *.
  apply andb_true_iff in Hr as [Hn Hr]. rewrite Hn. simpl. apply Hstep; [simpl; lia|done].
Qed.

(** The open commands and the writes of a trace. *)
Definition is_open (e : event) : bool := match e with EvShutter true _ => true | _ => false end.

Definition is_write (e : event) : bool := match e with EvWrite _ _ _ => true | _ => false end.

Definition opens (tr : list event) : list event := filter (fun e => is_open e = true) tr.

Definition writes (tr : list event) : list event := filter (fun e => is_write e = true) tr.

Section lawful.
Context `{!FifoContentSourceLaws S}.

Definition src_ok (w : World) : Prop := match w_src w with SrcFifo s => source_wf s | SrcFrame _ => True end.

(** Invariants of the trace and of the believed shutter state. *)
Definition trace_inv (P : list event -> Prop) (Q : ShutterState -> Prop) (w : World) : Prop :=
  P (w_trace w) /\ Q (w_shutter w) /\ src_ok w.

Lemma src_ok_tick w : src_ok w -> src_ok (tick w).
Proof. unfold src_ok, tick. by destruct (w_env w). Qed.

Lemma trace_tick (w : World) : w_trace (tick w) = w_trace w.
Proof. unfold tick. by destruct (w_env w). Qed.

Lemma shutter_tick (w : World) : w_shutter (tick w) = w_shutter w.
Proof. unfold tick. by destruct (w_env w). Qed.

Lemma trace_waiting_ok P Q :
  (forall tr r, P tr -> P (tr ++ [EvShutter false r])) ->
  (forall tr, P tr -> P (tr ++ [EvDisconnect])) -> (forall tr e, P tr -> P (tr ++ [EvError e])) ->
  (forall st, st <> Open_ -> Q st) -> waiting_ok (trace_inv P Q).
Proof.
  intros Hcl Hdi Her HQ. split; unfold trace_inv; simpl; intros; destruct_and?; try (split_and!; by auto).
  rewrite trace_tick, shutter_tick. split_and!; [done..|by apply src_ok_tick].
Qed.

Lemma trace_adapter_ok P Q :
  (forall tr r, P tr -> P (tr ++ [EvShutter false r])) ->
  (forall tr, P tr -> P (tr ++ [EvDisconnect])) -> (forall tr e, P tr -> P (tr ++ [EvError e])) ->
  (forall tr pps pts r, P tr -> r <> Ok Written -> P (tr ++ [EvWrite pps pts r])) ->
  (forall tr pps pts, P tr -> P (tr ++ [EvWrite pps pts (Ok Written); EvCommit (length pts)])) ->
  (forall st, st <> Open_ -> Q st) -> adapter_ok (trace_inv P Q).
Proof.
  intros Hcl Hdi Her Hwr Hco HQ. split; [by apply trace_waiting_ok|..]; unfold trace_inv, src_ok; simpl.
  - done.
  - intros; destruct_and?. auto.
  - intros w s delay target pps armed (HP & HQs & Hs) Hsrc. rewrite Hsrc in Hs.
    destruct (produce_total delay target pps armed s Hs) as (s' & slice & Hp & Hwf & _). rewrite Hp.
    split; [done|]. exact (produce_caches delay target pps armed s s' slice Hs Hp).
  - intros w s n (HP & HQs & Hs) Hsrc. rewrite Hsrc in Hs. split_and!; [done..|by apply reserve_wf].
  - intros w s d pps slice armed (HP & HQs & Hs) Hsrc Hc. rewrite Hsrc in Hs.
    destruct (commit_total (length slice) armed s Hs) as (s' & Hcm & Hwf & _).
    exists s'. split; [done|]. split_and!; [|done..]. rewrite <- app_assoc. by apply Hco.
  - intros w s pps armed (HP & HQs & Hs) Hsrc. by destruct (produce_frame _ _ _) as [[]|].
  - intros w s d pps slice armed (HP & HQs & Hs) Hsrc Hc. split_and!; [|done..]. rewrite <- app_assoc. by apply Hco.
Qed.

(** ** The loops return

    [returns m w]: [m] ends with a result, without a panic and within its fuel. *)
Definition returns {A} (m : M A) (w : World) : Prop := match m w with Ret _ _ => True | _ => False end.

Lemma returns_bind {A B} (m : M A) (k : A -> M B) w :
  returns m w -> (forall a w', m w = Ret a w' -> returns (k a) w') -> returns (m ≫= k) w.
Proof.
  unfold returns, mbind, M_bind. intros Hm Hk. destruct (m w) as [a w'|w'|w']; [|done..]. by apply Hk.
Qed.

Lemma waiting_ok_time t : waiting_ok (fun w => t <= w_now w).
Proof.
  split; simpl; intros; try done; [|lia]. unfold tick. destruct (w_env w) as [|i env]; simpl; lia.
Qed.

(** Waiting never turns the clock back, and leaves the source alone. *)
Lemma wait_keeps {A} (m : M A) w a w' :
  (forall J, waiting_ok J -> keeps J m) -> m w = Ret a w' -> w_now w <= w_now w' /\ w_src w' = w_src w.
Proof.
  intros Hm He. pose proof (Hm _ (waiting_ok_src _ (w_src w) (waiting_ok_time (w_now w))) w) as Hk. rewrite He in Hk.
  apply Hk. split; [simpl; lia|done].
Qed.

Lemma tick_now (w : World) : w_now w <= w_now (tick w).
Proof. unfold tick. destruct (w_env w); simpl; lia. Qed.

Lemma tick_src (w : World) : w_src (tick w) = w_src w.
Proof. unfold tick. by destruct (w_env w). Qed.

Lemma close_if_disarmed_returns w : returns close_if_disarmed w.
Proof.
  unfold returns, close_if_disarmed, close_shutter, load, get, dev_cmd, modify, mbind, M_bind. simpl.
  destruct (negb _ && _); [|done]. by destruct (set_shutter false _) as [d r].
Qed.

Lemma process_returns w : returns process_control_messages w.
Proof. unfold returns, process_control_messages. by destruct (drain_msgs _ _). Qed.

Lemma check_control_returns w : returns check_control w.
Proof.
  apply returns_bind; [done|]. intros [|] w1 _; [done|].
  apply returns_bind; [apply close_if_disarmed_returns|]. intros _ w2 _.
  apply returns_bind; [apply process_returns|]. by intros a w3 _.
Qed.

Lemma disconnect_returns w : returns disconnect_device w.
Proof. apply returns_bind; [|done]. unfold returns, dev_cmd. by destruct (disconnect _). Qed.

Lemma write_failed_returns e w : returns (write_failed e) w.
Proof.
  unfold write_failed. destruct (is_stopped e); [done|]. destruct (is_disconnected e); [done|].
  apply returns_bind; [apply disconnect_returns|done].
Qed.

Lemma write_points_returns pps slice w : returns (write_points pps slice) w.
Proof. unfold returns, write_points, dev_cmd. by destruct (try_write _ _ _). Qed.

Lemma write_points_keeps pps slice w r w' : write_points pps slice w = Ret r w' -> w_now w <= w_now w' /\ w_src w' = w_src w.
Proof.
  unfold write_points, dev_cmd. destruct (try_write _ _ _) as [d r']. intros [= _ <-]. simpl. split; [apply tick_now|apply tick_src].
Qed.

Lemma sleep_loop_returns fuel : forall deadline w,
  deadline <= w_now w + SLICE * (Z.of_nat fuel - 1) -> (1 <= fuel)%nat -> returns (sleep_loop fuel deadline) w.
Proof.
  induction fuel as [|fuel IH]; intros deadline w Hf Hp; [lia|]. cbn [sleep_loop].
  apply returns_bind; [done|]. intros now w1 [= <- <-]. pose proof (tick_now w) as Hw1. set (w1 := tick w) in *.
  destruct (Z.eqb_spec (sat_sub deadline (w_now w1)) 0) as [|Hz]; [done|].
  apply returns_bind; [done|]. intros u w2 [= _ <-]. pose proof (tick_now w1) as Hw2.
  apply returns_bind; [apply check_control_returns|]. intros [o|] w3 Hck; [done|].
  apply wait_keeps in Hck as [Hck _]; [|intros; by apply keeps_check_control]. simpl in Hck.
  unfold sat_sub in *. apply IH; unfold SLICE, millis in *; lia.
Qed.

Lemma sleep_with_control_check_returns d w : 0 <= d -> returns (sleep_with_control_check d) w.
Proof.
  intros Hd. apply returns_bind; [done|]. intros now w1 [= <- <-]. apply sleep_loop_returns; unfold sleep_fuel.
  - pose proof (Z.div_mod d SLICE). pose proof (Z.mod_pos_bound d SLICE). unfold SLICE, millis in *. lia.
  - pose proof (Z.div_pos d SLICE). unfold SLICE, millis in *. lia.
Qed.

(** Waiting for a number of seconds. *)
Lemma wait_returns {A} x (k : option StepOutcome -> A) w :
  waitable x -> returns (d ← of_option (from_secs_f64 x); o ← sleep_with_control_check d; mret (k o)) w.
Proof.
  intros Hx. destruct (from_secs_waitable x Hx) as (d & -> & Hd). apply returns_bind; [done|]. intros d' w' [= <- <-].
  apply returns_bind; [by apply sleep_with_control_check_returns|done].
Qed.

(** The busy wait of the timed adapter ends when time passes: every look at the
    shared state finds the clock advanced, until the deadline. *)
Definition time_passes (deadline : Z) (w : World) : Prop :=
  Forall (fun i => 1 <= i_elapsed i) (w_env w) /\ deadline - w_now w <= Z.of_nat (length (w_env w)).

Lemma time_passes_tick deadline w : time_passes deadline w -> time_passes deadline (tick w).
Proof.
  unfold time_passes, tick. intros [Hf Hl]. destruct (w_env w) as [|i env] eqn:He; simpl; [rewrite He; by split|].
  apply Forall_cons in Hf as [Hi Henv]. simpl in Hl. split; [done|lia].
Qed.

Lemma time_passes_waiting deadline : waiting_ok (time_passes deadline).
Proof.
  split; [apply time_passes_tick|unfold time_passes; simpl..]; [|by intros; destruct_and?..].
  intros w t [Hf Hl] Ht. split; [done|lia].
Qed.

Lemma tick_passes deadline w : time_passes deadline w -> w_now w < deadline -> w_now w + 1 <= w_now (tick w).
Proof.
  unfold time_passes, tick. intros [Hf Hl] Hd. destruct (w_env w) as [|i env]; simpl in *; [lia|]. apply Forall_cons in Hf as [Hi _]. lia.
Qed.

Lemma sleep_until_precise_returns fuel deadline : forall w,
  time_passes deadline w -> deadline - w_now w < Z.of_nat fuel -> (1 <= fuel)%nat -> returns (sleep_until_precise fuel deadline) w.
Proof.
  induction fuel as [|fuel IH]; intros w Ht Hf Hp; [lia|]. cbn [sleep_until_precise].
  apply returns_bind; [done|]. intros now w1 [= <- <-]. pose proof (tick_now w) as Hw1.
  pose proof (ok_tick _ (time_passes_waiting deadline) w Ht) as Ht1. destruct (Z.leb_spec deadline (w_now (tick w))) as [|Hlt]; [done|].
  assert (Hadv : w_now w + 1 <= w_now (tick w)) by (apply (tick_passes deadline); [done|lia]).
  apply returns_bind; [by destruct (_ <? _)|]. intros u w2 Hsl.
  assert (Hw2 : w_now (tick w) <= w_now w2 /\ time_passes deadline w2).
  { assert (Hkeep : keeps (fun v => w_now (tick w) <= w_now v /\ time_passes deadline v)
      (if BUSY_WAIT_THRESHOLD <? deadline - w_now (tick w) then sleep (Z.min (sat_sub (deadline - w_now (tick w)) BUSY_WAIT_THRESHOLD) SLEEP_SLICE) else mret tt)).
    { apply keeps_if; [|apply keeps_mret]. intros v [Hv1 Hv2]. split.
      - simpl. pose proof (tick_now v). unfold sat_sub, SLEEP_SLICE, millis. lia.
      - apply (ok_now _ (time_passes_waiting deadline)); [by apply (ok_tick _ (time_passes_waiting deadline))|]. simpl. unfold sat_sub, SLEEP_SLICE, millis. lia. }
    specialize (Hkeep (tick w)). rewrite Hsl in Hkeep. apply Hkeep. split; [lia|done]. }
  destruct Hw2 as [Hw2 Ht2]. apply returns_bind; [apply check_control_returns|]. intros [o|] w3 Hck; [done|].
  pose proof (keeps_check_control _ (time_passes_waiting deadline) w2 Ht2) as Ht3. rewrite Hck in Ht3.
  apply wait_keeps in Hck as [Hck _]; [|intros; by apply keeps_check_control]. apply IH; [done|lia|lia].
Qed.

(** Producing and committing, on a source in order. *)
Lemma fifo_produce_returns target pps armed w :
  src_ok w -> source_is_frame w = false -> returns (fifo_produce target pps armed) w.
Proof.
  unfold returns, fifo_produce, src_ok, source_is_frame. rewrite tick_src. destruct (w_src w) as [s|s]; [|done]. intros Hs _.
  destruct (produce_total (control_color_delay (w_ctl (tick w))) target pps armed s Hs) as (s' & slice & -> & _). done.
Qed.

Lemma fifo_produce_ok target pps armed w slice w' : src_ok w -> fifo_produce target pps armed w = Ret slice w' -> src_ok w' /\ w_now w <= w_now w'.
Proof.
  unfold fifo_produce, src_ok. rewrite tick_src. destruct (w_src w) as [s|s]; [|done]. intros Hs.
  destruct (produce_total (control_color_delay (w_ctl (tick w))) target pps armed s Hs) as (s' & sl & -> & Hwf & _). intros [= _ <-]. simpl. split; [done|apply tick_now].
Qed.

Lemma fifo_commit_returns n armed w s : src_ok w -> w_src w = SrcFifo s -> returns (fifo_commit n armed) w.
Proof.
  unfold returns, fifo_commit, src_ok. intros Hs Hsrc. rewrite Hsrc in *. destruct (commit_total n armed s Hs) as (s' & -> & _). done.
Qed.

Lemma fifo_cached_src (w : World) slice : (match w_src w with SrcFifo s => cached_slice s | SrcFrame _ => None end) = Some slice -> exists s, w_src w = SrcFifo s /\ cached_slice s = Some slice.
Proof. destruct (w_src w) as [s|s]; [|done]. intros Hc. by exists s. Qed.

Lemma network_write_returns fuel a c n t0 d0 : forall w,
  src_ok w -> t0 + WOULDBLOCK_STALL_TIMEOUT <= w_now w + micros 100 * (Z.of_nat fuel - 1) -> (1 <= fuel)%nat ->
  returns (network_write fuel a c n t0 d0) w.
Proof.
  induction fuel as [|fuel IH]; intros w Hs Hf Hp; [lia|]. cbn [network_write].
  apply returns_bind; [done|]. intros slice w0 [= <- <-].
  destruct (match w_src w with SrcFifo s => cached_slice s | SrcFrame _ => None end) as [slice|] eqn:Hc; [|done].
  destruct (fifo_cached_src w slice Hc) as (s & Hsrc & _).
  apply returns_bind; [apply write_points_returns|]. intros r w1 [Hw1 S1]%write_points_keeps. destruct r as [[|]|e].
  - apply returns_bind; [|done]. apply (fifo_commit_returns _ _ _ s); [unfold src_ok in *; by rewrite S1|congruence].
  - apply returns_bind; [done|]. intros [|] w2 Hst; [done|].
    apply wait_keeps in Hst as [Hst S2]; [|intros; by apply keeps_load_ok].
    apply returns_bind; [apply process_returns|]. intros action w3 Hpr.
    apply wait_keeps in Hpr as [Hpr S3]; [|intros; by apply keeps_process].
    apply returns_bind; [apply close_if_disarmed_returns|]. intros u4 w4 Hcl.
    apply wait_keeps in Hcl as [Hcl S4]; [|intros; by apply keeps_close_if_disarmed]. destruct action; [|done..].
    apply returns_bind; [done|]. intros armed w5 Har. apply wait_keeps in Har as [Har S5]; [|intros; by apply keeps_load_ok].
    destruct (negb _); [done|]. apply returns_bind; [done|]. intros desired w6 Hde.
    apply wait_keeps in Hde as [Hde S6]; [|intros; by apply keeps_load_ok].
    destruct (negb _); [done|]. apply returns_bind; [done|]. intros now w7 [= <- <-]. pose proof (tick_now w6) as Hw7.
    destruct (Z.leb_spec WOULDBLOCK_STALL_TIMEOUT (sat_sub (w_now (tick w6)) t0)) as [Hle|Hlt].
    + apply returns_bind; [apply disconnect_returns|done].
    + apply returns_bind; [done|]. intros u w8 [= _ <-]. pose proof (tick_now (tick w6)) as Hw8. assert (S8 : w_src (tick (tick w6)) = w_src w) by (rewrite !tick_src; congruence).
      unfold sat_sub in *. apply IH; [unfold src_ok in *; simpl; by rewrite S8|simpl|];
        unfold WOULDBLOCK_STALL_TIMEOUT, NANOS_PER_SEC, micros in *; lia.
  - apply returns_bind; [apply write_failed_returns|done].
Qed.

(** A buffer level as an estimator reports it: a count of points. *)
Definition levels_ok : Prop := forall (b : FB) now pps, estimated_fullness b now pps <= 2 ^ 63.

Lemma network_step_returns a c w :
  levels_ok -> 0 <= net_max_points a < 2 ^ 63 -> src_ok w -> returns (network_step a c) w.
Proof.
  intros Hlev Hmax Hs. unfold network_step. apply returns_bind; [done|]. intros ceiling w1 [= <- <-].
  destruct (network_target _ _ _ _) as [[tf tp] quantum] eqn:Ht.
  assert (Htp : 0 <= tp /\ 0 <= quantum <= net_max_points a).
  { unfold network_target in Ht. injection Ht as _ <- <-. set (x := match _ with Some _ => _ | None => _ end).
    pose proof (cast_int_range 0 (umax 64) x ltac:(unfold umax; lia)) as Hx. unfold as_u64.
    unfold MIN_WRITE_QUANTUM_FLOOR. lia. }
  apply returns_bind; [done|]. intros buffered w2 Hb. unfold estimator_fullness in Hb. injection Hb as <- <-. set (buffered := match w_dev (tick w) with Fifo b => _ | FrameSwap _ => 0 end).
  assert (Hbuf : buffered <= 2 ^ 63) by (unfold buffered; destruct (w_dev (tick w)); [apply Hlev|lia]).
  assert (Hwait : forall n w, 0 <= n <= 2 ^ 63 -> returns (d ← of_option (from_secs_f64 (F64.div (F64.of_int n) (fmax (F64.of_int (ctx_pps c)) (F64.of_int 1))));
      o ← sleep_with_control_check d; mret (a, default StepContinue o)) w).
  { intros n w' Hn. apply (wait_returns _ (fun o => (a, default StepContinue o))). apply waitable_div; [by apply waitable_int|apply rate_at_least_one]. }
  destruct ((tp <? buffered) && _) eqn:Hb.
  { apply andb_true_iff in Hb as [Hb%Z.ltb_lt _]. apply Hwait. lia. }
  set (target_points := network_request _ _ _ _ _).
  assert (Htarget : 0 <= target_points).
  { unfold target_points, network_request. set (x := F64.ceil _).
    assert (Hx : 0 <= as_usize x) by (apply (cast_int_range 0 (umax 64) x); unfold umax; lia).
    match goal with |- context [if ?b then _ else _] => destruct b end; lia. }
  destruct (_ =? 0); [done|]. destruct (Z.ltb_spec target_points quantum); [apply Hwait; lia|].
  apply returns_bind; [done|]. intros frame w3 [= <- <-]. destruct (source_is_frame (tick w)) eqn:Hframe; [done|].
  assert (Hs1 : src_ok (tick w)) by (by apply src_ok_tick).
  apply returns_bind; [by apply fifo_produce_returns|]. intros slice w4 [Hs4 _]%fifo_produce_ok; [|done]. destruct (decide (slice = [])); [done|].
  apply returns_bind; [done|]. intros t0 w5 [= <- <-]. apply returns_bind; [done|]. intros d0 w6 [= <- <-].
  assert (Hfuel : Z.of_nat network_fuel = 20002) by (vm_compute; reflexivity). pose proof (tick_now (tick w4)).
  apply network_write_returns; [by apply src_ok_tick, src_ok_tick| |lia]. rewrite Hfuel. unfold WOULDBLOCK_STALL_TIMEOUT, NANOS_PER_SEC, micros in *. lia.
Qed.

Lemma retained_write_returns {A} pps slice (k : result WriteOutcome -> M A) w s :
  src_ok w -> w_src w = SrcFifo s ->
  (forall w', src_ok w' -> w_src w' = SrcFifo s -> w_now w <= w_now w' -> forall r, returns (k r) w') -> returns (r ← write_points pps slice; k r) w.
Proof.
  intros Hs Hsrc Hk. apply returns_bind; [apply write_points_returns|]. intros r w1 [Hw Hsame]%write_points_keeps.
  apply Hk; [unfold src_ok in *; by rewrite Hsame|congruence|done].
Qed.

Lemma blocking_step_returns a c w : src_ok w -> returns (blocking_step a c) w.
Proof.
  intros Hs. unfold blocking_step. destruct (negb _).
  { apply returns_bind; [by apply sleep_with_control_check_returns|done]. }
  apply returns_bind; [done|]. intros frame w1 [= <- <-]. destruct (source_is_frame w) eqn:Hframe; [done|]. apply returns_bind; [done|]. intros u w2 [= _ <-].
  set (w2 := match w_src w with SrcFifo s => _ | SrcFrame _ => w end).
  assert (Hs2 : src_ok w2 /\ source_is_frame w2 = false).
  { unfold w2, src_ok, source_is_frame in *. destruct (w_src w); [|done]. simpl. split; [by apply reserve_wf|done]. }
  destruct Hs2 as [Hs2 Hf2].
  assert (Hw : forall a w, src_ok w -> returns (blocking_write c a) w).
  { intros b w' Hs'. apply returns_bind; [done|]. intros sl w3 [= <- <-].
    destruct (match w_src w' with SrcFifo s => cached_slice s | SrcFrame _ => None end) as [slice|] eqn:Hc; [|done].
    destruct (fifo_cached_src w' slice Hc) as (s & Hsrc & _). apply (retained_write_returns _ _ _ _ s); [done..|]. intros w4 Hs4 Hsrc4 _ [[|]|e].
    - apply returns_bind; [by eapply fifo_commit_returns|done].
    - apply returns_bind; [done|]. intros [|] w5 _; [done|]. apply returns_bind; [apply close_if_disarmed_returns|]. intros u' w6 _.
      apply returns_bind; [done|]. intros armed w7 _. by destruct (negb armed).
    - apply returns_bind; [apply write_failed_returns|done]. }
  destruct (blk_has_retain a); [by apply Hw|]. apply returns_bind; [by apply fifo_produce_returns|].
  intros slice w3 [Hs3 _]%fifo_produce_ok; [|done]. destruct (decide (slice = [])); [done|by apply Hw].
Qed.

Lemma udp_step_returns spin a c w :
  0 <= udp_max_points a < 2 ^ 63 -> time_passes (next_send a) w -> next_send a - w_now w < Z.of_nat spin -> (1 <= spin)%nat ->
  src_ok w -> returns (udp_step spin a c) w.
Proof.
  intros Hmax Ht Hsp Hsp1 Hs. unfold udp_step. apply returns_bind; [by apply sleep_until_precise_returns|]. intros [o|] w1 Hsl; [done|].
  apply wait_keeps in Hsl as [_ S1]; [|intros; by apply keeps_sleep_until_precise]. assert (Hs1 : src_ok w1) by (unfold src_ok in *; by rewrite S1).
  apply returns_bind; [done|]. intros now w2 [= <- <-]. apply returns_bind; [done|]. intros pps w3 [= <- <-].
  set (w3 := tick (tick w1)). set (pps := control_pps (w_ctl w3)). set (a1 := catch_up _ a).
  assert (Hre : exists a2, recompute_chunk pps a1 = Some a2).
  { unfold recompute_chunk. set (n := Z.min (as_usize _) _). assert (Hn : 0 <= n <= 2 ^ 63).
    { unfold n, as_usize, as_u64. set (x := F64.ceil _). pose proof (cast_int_range 0 (umax 64) x ltac:(unfold umax; lia)). simpl. lia. }
    destruct (_ || _); [|by eexists].
    destruct (from_secs_waitable (F64.div (F64.of_int n) (fmax (F64.of_int pps) (F64.of_int 1)))) as (d & -> & _); [|by eexists].
    apply waitable_div; [by apply waitable_int|apply rate_at_least_one]. }
  destruct Hre as [a2 ->]. apply returns_bind; [done|]. intros a3 w4 [= <- <-]. apply returns_bind; [done|]. intros frame w5 [= <- <-].
  assert (Hs3 : src_ok w3) by (by apply src_ok_tick, src_ok_tick). destruct (source_is_frame w3) eqn:Hframe; [done|].
  apply returns_bind; [done|]. intros u w6 [= _ <-]. set (w6 := match w_src w3 with SrcFifo s => _ | SrcFrame _ => w3 end).
  assert (Hs6 : src_ok w6 /\ source_is_frame w6 = false).
  { unfold w6, src_ok, source_is_frame in *. destruct (w_src w3); [|done]. simpl. split; [by apply reserve_wf|done]. }
  destruct Hs6 as [Hs6 Hf6].
  assert (Hw : forall a w, src_ok w -> returns (udp_write pps c a) w).
  { intros b w' Hs'. apply returns_bind; [done|]. intros sl w7 [= <- <-].
    destruct (match w_src w' with SrcFifo s => cached_slice s | SrcFrame _ => None end) as [slice|] eqn:Hc; [|done].
    destruct (fifo_cached_src w' slice Hc) as (s & Hsrc & _). apply (retained_write_returns _ _ _ _ s); [done..|]. intros w8 Hs8 Hsrc8 _ [[|]|e]; [|done|].
    - apply returns_bind; [by eapply fifo_commit_returns|done].
    - apply returns_bind; [apply write_failed_returns|done]. }
  destruct (udp_has_retain a2); [by apply Hw|]. apply returns_bind; [by apply fifo_produce_returns|].
  intros slice w7 [Hs7 _]%fifo_produce_ok; [|done]. destruct (decide (slice = [])); [done|by apply Hw].
Qed.

(** A frame source in order: it can produce, and what it has cached is a frame of a
    possible size. *)
Definition frame_sized (s : FS) : Prop := forall slice, frame_cached_slice s = Some slice -> Z.of_nat (length slice) <= 2 ^ 63.

Definition frames_ok (w : World) : Prop :=
  match w_src w with
  | SrcFifo _ => True
  | SrcFrame s => frame_sized s /\ forall pps armed, exists s' slice, produce_frame pps armed s = Some (s', slice) /\ frame_sized s'
  end.

Lemma swap_step_returns a c w : ctx_pps c < 2 ^ 53 -> frames_ok w -> returns (swap_step a c) w.
Proof.
  intros Hpps Hfr. unfold swap_step. apply returns_bind.
  { unfold returns. cbv zeta. by destruct (is_ready_for_frame (w_dev (tick w))). }
  assert (Hw : forall a w s, w_src w = SrcFrame s -> frame_sized s -> returns (swap_write c a) w).
  { intros b w' s Hsrc Hsz. apply returns_bind; [done|]. intros sl w3 [= <- <-]. rewrite Hsrc.
    destruct (frame_cached_slice s) as [slice|] eqn:Hc; [|done]. specialize (Hsz slice Hc).
    apply returns_bind; [unfold returns, dev_cmd; by destruct (write_frame_after_ready _ _ _)|]. intros r w4 _. destruct r as [[|]|e].
    - apply returns_bind; [done|]. intros u w5 _. destruct ((0 <? ctx_pps c) && _) eqn:Hpos; [|done]. apply andb_true_iff in Hpos as [Hpos%Z.ltb_lt _].
      apply (wait_returns _ (fun o => (mkUsbFrameSwap false 0, default StepContinue o))).
      apply waitable_div; [|by apply int_at_least_one]. apply waitable_div; [apply waitable_int; lia|apply int_at_least_one; lia].
    - done.
    - destruct (is_stopped e); [done|]. destruct (is_disconnected e); [done|]. cbv zeta.
      destruct (transient_retries b + 1 <=? MAX_TRANSIENT_WRITE_RETRIES); [done|].
      apply returns_bind; [apply disconnect_returns|done]. }
  intros ready w1 Hr. assert (S1 : w_src w1 = w_src w).
  { cbv zeta in Hr. destruct (is_ready_for_frame (w_dev (tick w))) as [d r]. injection Hr as _ <-. simpl. apply tick_src. }
  destruct ready as [[|]|e]; [| |done].
  - apply returns_bind; [done|]. intros frame w2 [= <- <-]. unfold source_is_frame, frames_ok in *. rewrite S1. destruct (w_src w) as [s|s] eqn:Hsrc; [done|].
    destruct Hfr as [Hsz Hpr]. cbn [negb]. destruct (write_pending a); [by eapply Hw|]. destruct (Hpr (ctx_pps c) (ctx_is_armed c)) as (s' & slice & Hp & Hsz').
    apply returns_bind; [unfold returns, frame_produce; by rewrite S1, Hp|].
    intros sl w3 H3. unfold frame_produce in H3. rewrite S1, Hp in H3. injection H3 as <- <-. destruct (decide (slice = [])); [done|]. by eapply Hw.
  - apply returns_bind; [by apply sleep_with_control_check_returns|done].
Qed.

(** What a step of each adapter relies on, for the numbers and the source it works
    with; the timed adapter also needs the clock to go on while it waits. *)
Definition step_ok (spin : nat) (a : Adapter) (c : StepCtx) (w : World) : Prop :=
  src_ok w /\
  match a with
  | ANetwork a => levels_ok /\ 0 <= net_max_points a < 2 ^ 63
  | AUdp a => 0 <= udp_max_points a < 2 ^ 63 /\ time_passes (next_send a) w /\ next_send a - w_now w < Z.of_nat spin /\ (1 <= spin)%nat
  | ABlocking _ => True
  | ASwap _ => ctx_pps c < 2 ^ 53 /\ frames_ok w
  end.

(** ** A device that keeps blocking *)

Lemma bind_ret {A B} (m : M A) (k : A -> M B) w a w' : m w = Ret a w' -> (m ≫= k) w = k a w'.
Proof. unfold mbind, M_bind. by intros ->. Qed.

(** Nothing but the clock moves while nobody else acts. *)
Definition idle (w : World) : Prop := w_env w = [] /\ control_queue (w_ctl w) = [].

Definition quietly (w w' : World) : Prop :=
  w_now w <= w_now w' /\ w_src w' = w_src w /\ (idle w -> idle w' /\ w_ctl w' = w_ctl w /\ w_now w' = w_now w).

Lemma quietly_trans w1 w2 w3 : quietly w1 w2 -> quietly w2 w3 -> quietly w1 w3.
Proof.
  intros (K1 & K2 & K3) (K4 & K5 & K6). split; [lia|]. split; [congruence|]. intros Hi. destruct (K3 Hi) as (Hi2 & C2 & N2), (K6 Hi2) as (Hi3 & C3 & N3).
  split; [done|]. split; congruence.
Qed.

Lemma quietly_tick w : quietly w (tick w).
Proof. split; [apply tick_now|]. split; [apply tick_src|]. intros [He Hq]. unfold tick. rewrite He. done. Qed.

Lemma quietly_write pps slice w : exists r w', write_points pps slice w = Ret r w' /\ r = (try_write pps slice (w_dev (tick w))).2 /\ quietly w w'.
Proof.
  unfold write_points, dev_cmd. destruct (try_write pps slice (w_dev (tick w))) as [d r]. eexists r, _. split; [done|]. split; [done|].
  exact (quietly_tick w).
Qed.

Lemma quietly_process w : exists a w', process_control_messages w = Ret a w' /\ quietly w w' /\ (idle w -> a = ActNone).
Proof.
  unfold process_control_messages. pose proof (quietly_tick w) as (K1 & K2 & K3). destruct (drain_msgs ActNone (control_queue (w_ctl (tick w)))) as [a q] eqn:Hd.
  eexists a, _. split; [done|].
  assert (Hidle : idle w -> a = ActNone /\ q = [] /\ control_queue (w_ctl (tick w)) = []).
  { intros Hi. destruct (K3 Hi) as ([_ Hq] & _). rewrite Hq in Hd. by injection Hd as <- <-. }
  split; [|intros Hi; by apply Hidle]. split; [done|]. split; [done|]. intros Hi. destruct (Hidle Hi) as (_ & -> & Hq), (K3 Hi) as ((He & _) & Hc & Hn).
  split; [by split|]. split; [|done]. simpl. rewrite <- Hc. destruct (w_ctl (tick w)). simpl in *. by subst.
Qed.

Lemma quietly_close w : exists w', close_if_disarmed w = Ret tt w' /\ quietly w w'.
Proof.
  unfold close_if_disarmed, close_shutter, load, get, dev_cmd, modify, mbind, M_bind. pose proof (quietly_tick w) as Hq.
  destruct (negb _ && _); [|by eexists]. destruct (set_shutter false _) as [d r]. eexists. split; [done|].
  eapply quietly_trans; [exact Hq|]. exact (quietly_tick (tick w)).
Qed.

(** What the retry loop comes to. *)
Definition stalled_post (t0 : Z) (o : StepOutcome) (w w' : World) : Prop :=
  w_src w' = w_src w /\ o <> StepContinue /\
  (o = StepDisconnected ->
     t0 + WOULDBLOCK_STALL_TIMEOUT <= w_now w' /\
     exists tr, w_trace w' = tr ++ [EvDisconnect; EvError (ErrDisconnected "write stalled: continuous WouldBlock")]).

(** Nobody acts, and nothing has changed since the step began. *)
Definition undisturbed (c : StepCtx) (d0 : Z) (w : World) : Prop :=
  idle w /\ stop_requested (w_ctl w) = false /\ control_is_armed (w_ctl w) = ctx_is_armed c /\ desired_state (w_ctl w) = d0.

Lemma undisturbed_later c d0 w w' : quietly w w' -> undisturbed c d0 w -> undisturbed c d0 w' /\ w_now w' = w_now w.
Proof.
  intros (_ & _ & Hq) (Hi & Hrest). destruct (Hq Hi) as (Hi' & Hctl & Hnow). split; [|done]. unfold undisturbed. rewrite Hctl. by split.
Qed.

Lemma network_write_stalled fuel a c n t0 d0 s slice : (forall k, (try_write (ctx_pps c) slice k).2 = Ok WouldBlock) -> forall w,
  w_src w = SrcFifo s -> cached_slice s = Some slice -> t0 <= w_now w ->
  t0 + WOULDBLOCK_STALL_TIMEOUT <= w_now w + micros 100 * (Z.of_nat fuel - 1) -> (1 <= fuel)%nat ->
  exists o w', network_write fuel a c n t0 d0 w = Ret (a, o) w' /\ stalled_post t0 o w w' /\
    (undisturbed c d0 w -> w_now w < t0 + WOULDBLOCK_STALL_TIMEOUT + micros 100 ->
     o = StepDisconnected /\ w_now w' < t0 + WOULDBLOCK_STALL_TIMEOUT + micros 100).
Proof.
  intros Hblock. induction fuel as [|fuel IH]; intros w Hsrc Hc Hle Hf Hp; [lia|]. cbn [network_write].
  rewrite (bind_ret _ _ w (Some slice) w) by (unfold fifo_cached, get; by rewrite Hsrc, Hc).
  destruct (quietly_write (ctx_pps c) slice w) as (r & w1 & Hw & Hr & Q1). rewrite (bind_ret _ _ w r w1 Hw). rewrite Hblock in Hr. subst r.
  rewrite (bind_ret _ _ w1 (stop_requested (w_ctl (tick w1))) (tick w1)) by done.
  pose proof (quietly_trans _ _ _ Q1 (quietly_tick w1)) as Q2. set (w2 := tick w1) in *.
  (* ends that are not the stall *)
  assert (Hend : forall o w', quietly w w' -> o <> StepContinue -> o <> StepDisconnected -> (undisturbed c d0 w -> False) ->
    exists o' w'', (mret (a, o) : M _) w' = Ret (a, o') w'' /\ stalled_post t0 o' w w'' /\
      (undisturbed c d0 w -> w_now w < t0 + WOULDBLOCK_STALL_TIMEOUT + micros 100 -> o' = StepDisconnected /\ w_now w'' < t0 + WOULDBLOCK_STALL_TIMEOUT + micros 100)).
  { intros o w' (_ & Hs & _) Ho Hd Hn. exists o, w'. split; [done|]. split; [by split_and!|]. intros Hu. by destruct (Hn Hu). }
  assert (Hund : forall w', quietly w w' -> undisturbed c d0 w -> undisturbed c d0 w') by (intros w' Hq Hu; by apply (undisturbed_later c d0 w w' Hq)).
  destruct (stop_requested (w_ctl w2)) eqn:Hstop.
  { apply Hend; [done..|]. intros Hu. destruct (Hund w2 Q2 Hu) as (_ & Hst & _). congruence. }
  destruct (quietly_process w2) as (action & w3 & H3 & Q3 & Hact). rewrite (bind_ret _ _ w2 action w3 H3). apply (quietly_trans _ _ _ Q2) in Q3.
  destruct (quietly_close w3) as (w4 & H4 & Q4). rewrite (bind_ret _ _ w3 tt w4 H4). apply (quietly_trans _ _ _ Q3) in Q4.
  assert (Hnone : undisturbed c d0 w -> action = ActNone) by (intros Hu; apply Hact; by destruct (Hund w2 Q2 Hu)).
  destruct action; [|apply Hend; [done..|intros Hu; by specialize (Hnone Hu)]|apply Hend; [done..|intros Hu; by specialize (Hnone Hu)]].
  rewrite (bind_ret _ _ w4 (control_is_armed (w_ctl (tick w4))) (tick w4)) by done.
  pose proof (quietly_trans _ _ _ Q4 (quietly_tick w4)) as Q5. set (w5 := tick w4) in *.
  destruct (negb (eqb (control_is_armed (w_ctl w5)) (ctx_is_armed c))) eqn:Harm.
  { apply Hend; [done..|]. intros Hu. destruct (Hund w5 Q5 Hu) as (_ & _ & Ha & _). rewrite Ha, eqb_reflx in Harm. done. }
  rewrite (bind_ret _ _ w5 (desired_state (w_ctl (tick w5))) (tick w5)) by done.
  pose proof (quietly_trans _ _ _ Q5 (quietly_tick w5)) as Q6. set (w6 := tick w5) in *.
  destruct (negb (desired_state (w_ctl w6) =? d0)) eqn:Hdes.
  { apply Hend; [done..|]. intros Hu. destruct (Hund w6 Q6 Hu) as (_ & _ & _ & Hd). rewrite Hd, Z.eqb_refl in Hdes. done. }
  rewrite (bind_ret _ _ w6 (w_now (tick w6)) (tick w6)) by done.
  pose proof (quietly_trans _ _ _ Q6 (quietly_tick w6)) as Q7. set (w7 := tick w6) in *. pose proof Q7 as (N7 & S7 & I7).
  destruct (Z.leb_spec WOULDBLOCK_STALL_TIMEOUT (sat_sub (w_now w7) t0)) as [Hgive|Hgo].
  - unfold disconnect_device, dev_cmd, error_sink, modify, mbind, M_bind. destruct (disconnect (w_dev (tick w7))) as [d r]. cbn [mret M_ret].
    eexists _, _. split; [done|]. pose proof (tick_now w7). unfold sat_sub in Hgive. split.
    + split; [simpl; rewrite tick_src; exact S7|]. split; [done|]. intros _. simpl. split; [unfold WOULDBLOCK_STALL_TIMEOUT, NANOS_PER_SEC in *; lia|].
      eexists. by rewrite <- app_assoc.
    + intros Hu Hlt. split; [done|]. simpl. destruct (undisturbed_later _ _ _ _ (quietly_trans _ _ _ Q7 (quietly_tick w7)) Hu) as [_ ->]. done.
  - rewrite (bind_ret _ _ w7 tt (set_now (w_now (tick w7) + micros 100) (tick w7))) by done. set (w8 := set_now _ _).
    pose proof (tick_now w7) as N8. unfold sat_sub in Hgo.
    destruct (IH w8) as (o & w' & Hrun & (Hs' & Ho & Hd) & Hu').
    { unfold w8. simpl. rewrite tick_src. congruence. }
    { done. }
    { unfold w8, micros in *. simpl. lia. }
    { unfold w8, micros, WOULDBLOCK_STALL_TIMEOUT, NANOS_PER_SEC in *. simpl. lia. }
    { unfold WOULDBLOCK_STALL_TIMEOUT, NANOS_PER_SEC, micros in *. lia. }
    exists o, w'. split; [exact Hrun|]. split.
    + split; [rewrite Hs'; unfold w8; simpl; rewrite tick_src; exact S7|]. by split.
    + intros Hu Hlt. destruct (undisturbed_later _ _ _ _ (quietly_trans _ _ _ Q7 (quietly_tick w7)) Hu) as [Hu8 Hn8]. apply Hu'; [exact Hu8|].
      unfold w8. simpl. rewrite Hn8. destruct (undisturbed_later _ _ _ _ Q7 Hu) as [_ Hn7]. unfold WOULDBLOCK_STALL_TIMEOUT, NANOS_PER_SEC, micros in *. lia.
Qed.

(** ** Theorems *)

(** C13. Every successful write is committed exactly once: in any step of any of
    the four adapters, against any backend, any lawful source and any
    interference, a write the device accepted is followed at once by
    [commit_written] of exactly the points written; blocked and failed writes
    commit nothing; and nothing is committed that was not written. *)
Theorem writes_committed_once spin a c w :
  retired (w_trace w) = true -> src_ok w ->
  retired (w_trace (final (adapter_step spin a c w))) = true /\ src_ok (final (adapter_step spin a c w)).
Proof.
  intros Hr Hs.
  destruct (adapter_step_keeps (trace_inv (fun tr => retired tr = true) (fun _ => True))) with (spin := spin) (a := a) (c := c) (w := w)
    as (H3 & _ & H4); [|done|done].
  apply trace_adapter_ok; try done.
  1, 2, 3: by intros; rewrite retired_app.
  - intros tr pps pts r Ht Hr'. rewrite retired_app by done. by destruct r as [[|]|].
  - intros tr pps pts Ht. rewrite retired_app by done. simpl. by rewrite bool_decide_true.
Qed.

(** Adapters never open the shutter: no step of any adapter issues an open
    command, and the shutter is believed open after a step only if it was before
    it; opening is the driver's alone. *)
Theorem adapters_never_open spin a c w :
  src_ok w ->
  opens (w_trace (final (adapter_step spin a c w))) = opens (w_trace w) /\
  (w_shutter (final (adapter_step spin a c w)) = Open_ -> w_shutter w = Open_).
Proof.
  intros Hs.
  destruct (adapter_step_keeps (trace_inv (fun tr => opens tr = opens (w_trace w))
    (fun st => st = Open_ -> w_shutter w = Open_))) with (spin := spin) (a := a) (c := c) (w := w)
    as (H3 & H4 & _); [|done|done].
  apply trace_adapter_ok; try done; unfold opens; intros; rewrite filter_app; simpl; by rewrite app_nil_r.
Qed.

(** C36. Every step of every adapter ends with an outcome: it neither panics nor waits
    for ever, whatever the device answers and whatever the other threads do.  The
    source has to be in order; the estimator's level and the chunk sizes have to be
    point counts below 2^63, the rate of a frame-swap device below 2^53; and the timed
    adapter, which waits for its deadline by watching the clock, needs the clock to go
    on. *)
Theorem adapter_step_returns spin a c w :
  step_ok spin a c w -> exists r w', adapter_step spin a c w = Ret r w'.
Proof.
  intros [Hs Ha]. assert (Hr : returns (adapter_step spin a c) w).
  { destruct a; (apply returns_bind; [|done]).
    - apply network_step_returns; [apply Ha|apply Ha|done].
    - destruct Ha as (? & ? & ? & ?). by apply udp_step_returns.
    - by apply blocking_step_returns.
    - apply swap_step_returns; apply Ha. }
  unfold returns in Hr. destruct (adapter_step spin a c w) as [r w'|w'|w']; [by eexists _, _|done..].
Qed.

(** C22. A network device that keeps blocking is given up: while it answers every retry
    of a chunk with [WouldBlock], the write loop ends, and never as if the chunk had
    been written (the source is left as it was); it ends as disconnected only after
    the stall timeout of two seconds, with the device disconnected and the stall
    reported as the last two events; and when nobody interferes it does end so, less
    than one retry interval after the timeout. *)
Theorem blocked_device_is_given_up a c n t0 d0 s slice w :
  (forall k, (try_write (ctx_pps c) slice k).2 = Ok WouldBlock) ->
  w_src w = SrcFifo s -> cached_slice s = Some slice -> t0 <= w_now w ->
  exists o w', network_write network_fuel a c n t0 d0 w = Ret (a, o) w' /\ stalled_post t0 o w w' /\
    (undisturbed c d0 w -> w_now w < t0 + WOULDBLOCK_STALL_TIMEOUT + micros 100 ->
     o = StepDisconnected /\ w_now w' < t0 + WOULDBLOCK_STALL_TIMEOUT + micros 100).
Proof.
  intros Hb Hsrc Hc Hle. assert (Hfuel : Z.of_nat network_fuel = 20002) by (vm_compute; reflexivity).
  apply (network_write_stalled network_fuel a c n t0 d0 s slice); try done; [|lia]. rewrite Hfuel.
  unfold WOULDBLOCK_STALL_TIMEOUT, NANOS_PER_SEC, micros in *. lia.
Qed.

(** The blocking adapter writes nothing while disarmed: a blocking write to
    a device that drains nothing would never return. *)
Theorem blocking_disarmed_writes_nothing a c w :
  ctx_is_armed c = false -> src_ok w ->
  writes (w_trace (final (blocking_step a c w))) = writes (w_trace w).
Proof.
  intros Ha Hs. unfold blocking_step. rewrite Ha. simpl negb. cbv iota.
  assert (Hk : keeps (trace_inv (fun tr => writes tr = writes (w_trace w)) (fun _ => True))
            (o ← sleep_with_control_check IDLE_SLEEP; mret (a, default StepContinue o))).
  { apply keeps_bind; [|intros; apply keeps_mret]. apply keeps_sleep_with_control_check.
    apply trace_waiting_ok; try done; unfold writes; intros; rewrite filter_app; simpl; by rewrite app_nil_r. }
  by destruct (Hk w) as [? _].
Qed.
End lawful.

End adapters.

(** ** A concrete session for the witnesses *)
Module Demo.

(** A FIFO device that accepts every write and drains at once, and a
    frame-swap device that is never ready. *)
Record demo_device := mkDemo { dd_connected : bool; dd_shutter : bool; dd_received : list nat }.

#[export] Instance demo_dac : DacBackend demo_device := {
  backend_caps _ := mkCaps 1000 100000 1000 NetworkFifo;
  backend_connect b := (mkDemo true (dd_shutter b) (dd_received b), Ok tt);
  backend_disconnect b := (mkDemo false (dd_shutter b) (dd_received b), Ok tt);
  backend_is_connected := dd_connected;
  backend_stop b := (b, Ok tt);
  backend_set_shutter open b := (mkDemo (dd_connected b) open (dd_received b), Ok tt);
}.

#[export] Instance demo_fifo : FifoBackend demo_device := {
  try_write_points _ pts b := (mkDemo (dd_connected b) (dd_shutter b) (length pts :: dd_received b), Ok Written);
  needs_clock _ := true;
  estimated_fullness _ _ _ := 0;
  fifo_target_buffer_ceiling _ := None;
  fifo_reset_device_buffer b := (b, Ok tt);
}.

#[export] Instance demo_swap : FrameSwapBackend demo_device := {
  swap_frame_capacity _ := 4096%nat;
  swap_is_ready_for_frame b := (b, false);
  write_frame _ _ b := (b, Ok Written);
  swap_write_frame_after_ready _ _ b := (b, Ok Written);
}.

#[export] Existing Instance demo_fill.
#[export] Existing Instance demo_fill_ok.

(** A frame source with nothing to show. *)
#[export] Instance demo_frames : FrameContentSource unit := {
  produce_frame _ _ s := Some (s, []);
  frame_cached_slice _ := None;
  frame_commit_written _ _ s := s;
  frame_discard_cached s := s;
  frame_on_reconnect _ s := s;
  frame_set_frame_capacity _ s := s;
  frame_submit_frame _ s := s;
  frame_arm_startup_blank _ s := s;
  frame_on_disarm s := s;
  frame_reset_output_filter _ s := s;
  frame_set_color_delay _ s := s;
}.

Definition demo_world (c : SessionControl) (env : list interference) :
    World demo_device demo_device (ChunkProducer bool) unit :=
  mkWorld c env 0 (Fifo (mkDemo true false [])) (SrcFifo demo_producer) Closed 0 None None [] [].

Definition demo_control : SessionControl := (arm (new_with_pps_bounds 0 30000 1000 60000)).1.

Definition demo_ctx (armed : bool) : StepCtx := mkStepCtx (millis 1) 30000 armed.

Lemma demo_src_ok c env : src_ok (demo_world c env).
Proof. exact demo_producer_wf. Qed.

(** A device that never takes anything. *)
Record stuck_device := mkStuck { stuck_connected : bool }.

#[export] Instance stuck_dac : DacBackend stuck_device := {
  backend_caps _ := mkCaps 1000 100000 1000 NetworkFifo;
  backend_connect b := (mkStuck true, Ok tt);
  backend_disconnect b := (mkStuck false, Ok tt);
  backend_is_connected := stuck_connected;
  backend_stop b := (b, Ok tt);
  backend_set_shutter open b := (b, Ok tt);
}.

#[export] Instance stuck_fifo : FifoBackend stuck_device := {
  try_write_points _ _ b := (b, Ok WouldBlock);
  needs_clock _ := true;
  estimated_fullness _ _ _ := 0;
  fifo_target_buffer_ceiling _ := None;
  fifo_reset_device_buffer b := (b, Ok tt);
}.

#[export] Instance stuck_swap : FrameSwapBackend stuck_device := {
  swap_frame_capacity _ := 4096%nat;
  swap_is_ready_for_frame b := (b, false);
  write_frame _ _ b := (b, Ok WouldBlock);
  swap_write_frame_after_ready _ _ b := (b, Ok WouldBlock);
}.

(** A source with three points produced. *)
Definition demo_loaded : ChunkProducer bool :=
  match produce_chunk 0 3 30000 true demo_producer with Some (s, _) => s | None => demo_producer end.

Definition stuck_world : World stuck_device stuck_device (ChunkProducer bool) unit :=
  mkWorld (mkControl (desired_state demo_control) false [] true 0 (rate demo_control)) [] 5 (Fifo (mkStuck true)) (SrcFifo demo_loaded) Open_ 0 None None [] [].
End Demo.
Import Demo.

Lemma writes_committed_once_witness :
  let w' := final (adapter_step 0 0 (ANetwork (mkNetworkFifo 1000 None)) (demo_ctx true) (demo_world demo_control [])) in
  length (writes (w_trace w')) = 1%nat /\ retired (w_trace w') = true.
Proof.
  split; [vm_compute; reflexivity|].
  apply (writes_committed_once 0 0 (ANetwork (mkNetworkFifo 1000 None)) (demo_ctx true) (demo_world demo_control []));
    [reflexivity|apply demo_src_ok].
Defined.

Lemma adapters_never_open_witness :
  let w := demo_world demo_control [mkInterference [CtlDisarm] None 5; mkInterference [CtlArm] None 5] in
  opens (w_trace (final (adapter_step 0 9 (AUdp (mkUdpTimed 1000000 0 0 0 false 100)) (demo_ctx true) w))) = [].
Proof.
  apply (adapters_never_open 0 9 (AUdp (mkUdpTimed 1000000 0 0 0 false 100)) (demo_ctx true)
    (demo_world demo_control [mkInterference [CtlDisarm] None 5; mkInterference [CtlArm] None 5])).
  apply demo_src_ok.
Defined.

Lemma blocking_disarmed_writes_nothing_witness :
  writes (w_trace (final (blocking_step (mkBlockingFifo 512 false) (demo_ctx false) (demo_world demo_control [])))) = [].
Proof.
  apply (blocking_disarmed_writes_nothing (mkBlockingFifo 512 false) (demo_ctx false) (demo_world demo_control []));
    [reflexivity|apply demo_src_ok].
Defined.

(** A network step, and a timed step that waits for three ticks of the clock. *)
Lemma adapter_step_returns_witness :
  (exists r w', adapter_step 0 0 (ANetwork (mkNetworkFifo 1000 None)) (demo_ctx true) (demo_world demo_control []) = Ret r w') /\
  (exists r w', adapter_step 0 9 (AUdp (mkUdpTimed 3 0 0 0 false 100)) (demo_ctx true)
     (demo_world demo_control (replicate 5 (mkInterference [] None 1))) = Ret r w').
Proof.
  split.
  - apply (adapter_step_returns 0 0 (ANetwork (mkNetworkFifo 1000 None)) (demo_ctx true) (demo_world demo_control [])).
    split; [apply demo_src_ok|]. split; [intros b now pps; vm_compute; congruence|]. vm_compute. split; congruence.
  - apply (adapter_step_returns 0 9 (AUdp (mkUdpTimed 3 0 0 0 false 100)) (demo_ctx true) (demo_world demo_control (replicate 5 (mkInterference [] None 1)))).
    split; [apply demo_src_ok|]. split; [vm_compute; split; congruence|]. split; [split; [by apply Forall_replicate|vm_compute; congruence]|].
    split; [vm_compute; reflexivity|lia].
Defined.

Lemma demo_loaded_slice : exists slice, cached_slice demo_loaded = Some slice /\ length slice = 3%nat.
Proof. vm_compute. eexists. split; reflexivity. Qed.

Lemma stuck_blocks pps slice (k : BackendKind stuck_device stuck_device) : (try_write pps slice k).2 = Ok WouldBlock.
Proof. by destruct k. Qed.

Lemma stuck_undisturbed : undisturbed (demo_ctx true) (desired_state demo_control) stuck_world.
Proof. unfold undisturbed, idle. vm_compute. split_and!; reflexivity. Qed.

(** The stuck device is given up two seconds after the first attempt. *)
Lemma blocked_device_is_given_up_witness :
  exists w' tr, network_write network_fuel (mkNetworkFifo 1000 None) (demo_ctx true) 3 5 (desired_state demo_control) stuck_world =
    Ret (mkNetworkFifo 1000 None, StepDisconnected) w' /\
    5 + WOULDBLOCK_STALL_TIMEOUT <= w_now w' < 5 + WOULDBLOCK_STALL_TIMEOUT + micros 100 /\
    w_trace w' = tr ++ [EvDisconnect; EvError (ErrDisconnected "write stalled: continuous WouldBlock")].
Proof.
  destruct demo_loaded_slice as (slice & Hs & _).
  destruct (blocked_device_is_given_up (mkNetworkFifo 1000 None) (demo_ctx true) 3 5 (desired_state demo_control) demo_loaded slice stuck_world
    (stuck_blocks _ _) eq_refl Hs) as (o & w' & Hrun & (_ & _ & Hpost) & Hu); [simpl; lia|].
  destruct (Hu stuck_undisturbed) as [-> Hlt]; [simpl; unfold WOULDBLOCK_STALL_TIMEOUT, NANOS_PER_SEC, micros; lia|].
  destruct (Hpost eq_refl) as [Hge [tr Htr]]. exists w', tr. split; [exact Hrun|]. split; [split; [exact Hge|exact Hlt]|exact Htr].
Defined.
