(* ===== verification/Driver.v ===== *)
(** * The session driver

    Models [src/src/presentation/driver.rs] and the retry loop of
    [src/src/reconnect.rs]: the loop that owns the backend and the content
    source of a session, reconciles the desired arm state with the hardware
    shutter, reconnects, dispatches to the output-model adapter and ends the
    session.  The theorems are about the shutter: when it may open, that it
    closes, and what every exit leaves behind. *)

From stdpp Require Import strings.
From S2P Require Import Prelude Floats Point Presentation Session Backend ContentSource ChunkProducer World OutputModel.

#[local] Open Scope Z_scope.

(** [ReconnectPolicy]; the user's callbacks only act through the control. *)
Record ReconnectPolicy := mkPolicy {
  max_retries : option Z;
  backoff : Z;
}.

Definition is_retriable (e : Error) : bool :=
  match e with ErrInvalidConfig _ | ErrStopped => false | _ => true end.

Definition STOP_SLICE : Z := millis 50.

Inductive TransitionOutcome :=
  | TransContinue
  | TransDisconnected.

Section driver.
Context {FB SB S FS : Type} `{FifoBackend FB} `{FrameSwapBackend SB} `{FifoContentSource S} `{FrameContentSource FS}.
Context (sentinel_instant : Z).
Abbreviation M := (M FB SB S FS).
Abbreviation World := (World FB SB S FS).
Abbreviation Kind := (BackendKind FB SB).

(** The inputs of a session that do not change ([DriverInputs]). *)
Record DriverConfig := mkConfig {
  reconnect_policy : option ReconnectPolicy;
  validator : DacInfo -> Kind -> Z -> option SessionExit;
  cfg_target_buffer : Z;
  drain_timeout : Z;
}.

(** ** [SourceOwned] *)

Definition on_source (f : S -> S) (g : FS -> FS) (s : SourceOwned S FS) : SourceOwned S FS :=
  match s with SrcFifo s => SrcFifo (f s) | SrcFrame s => SrcFrame (g s) end.

Definition src_call (f : S -> S) (g : FS -> FS) : M unit := modify (fun w => set_src (on_source f g (w_src w)) w).

Definition so_is_ended (s : SourceOwned S FS) : bool := match s with SrcFifo s => is_ended s | SrcFrame _ => false end.

Definition so_discard_cached : M unit := src_call discard_cached frame_discard_cached.

Definition so_arm_startup_blank (pps : Z) : M unit :=
  src_call (src_arm_startup_blank pps) (frame_arm_startup_blank pps);;
  modify (log_event EvSourceArm).

Definition so_on_disarm : M unit :=
  src_call src_on_disarm frame_on_disarm;;
  modify (log_event EvSourceDisarm).

Definition so_reset_output_filter (r : OutputResetReason) : M unit :=
  src_call (src_reset_output_filter r) (frame_reset_output_filter r).

Definition so_take_stop_error : M (option Error) := fun w =>
  match w_src w with
  | SrcFifo s => let '(s, e) := take_stop_error s in Ret e (set_src (SrcFifo s) w)
  | SrcFrame _ => Ret None w
  end.

(** ** Shutter transitions *)

(** [command_close]. *)
Definition command_close (force : bool) : M unit :=
  st ← get w_shutter;
  if force || bool_decide (st <> Closed) then close_shutter else mret tt.

(** The falling half of [handle_shutter_transition]: [true] when a concurrent
    edge sends it back for a fresh pass. *)
Definition falling (desired : Z) (a : Adapter) : M (Adapter * bool) :=
  command_close false;;
  so_discard_cached;;
  let a := on_state_change a in
  so_on_disarm;;
  so_reset_output_filter Disarm;;
  modify (set_handled desired);;
  d ← load desired_state;
  mret (a, negb (d =? desired)).

(** The rising half: [false] when the device failed and was disconnected. *)
Definition rising (desired pps : Z) (a : Adapter) : M (Adapter * bool) :=
  so_discard_cached;;
  let a := on_state_change a in
  so_arm_startup_blank pps;;
  so_reset_output_filter Arm;;
  r ← dev_cmd reset_device_buffer (fun r => EvResetBuffer (is_ok r));
  if is_ok r then modify (set_handled desired);; mret (a, true)
  else command_close true;; disconnect_device;; mret (a, false).

(** The last part: open, or close, for the generation that was prepared. *)
Definition settle_shutter (desired : Z) : M unit :=
  if desired_is_armed desired then
    d ← load desired_state;
    if d =? desired then
      st ← get w_shutter;
      (if bool_decide (st <> Open_) then
         r ← dev_cmd (set_shutter true) (fun r => EvShutter true (is_ok r));
         modify (set_shut (if is_ok r then Open_ else Unknown))
       else mret tt);;
      d ← load desired_state;
      if negb (d =? desired) then command_close true else mret tt
    else mret tt
  else command_close false.

Definition handle_shutter_transition (a : Adapter) (pps : Z) : M (Adapter * TransitionOutcome) :=
  desired ← load desired_state;
  handled ← get w_handled;
  if negb (desired =? handled) then
    r ← (if desired_is_armed handled || negb (desired_is_armed desired) then falling desired a else mret (a, false));
    if (r.2 : bool) then mret (r.1, TransContinue)
    else if desired_is_armed desired then
      r ← rising desired pps r.1;
      if (r.2 : bool) then settle_shutter desired;; mret (r.1, TransContinue)
      else mret (r.1, TransDisconnected)
    else settle_shutter desired;; mret (r.1, TransContinue)
  else settle_shutter desired;; mret (a, TransContinue).

(** ** Reconnection *)

Fixpoint stop_sleep_loop (fuel : nat) (deadline : Z) : M bool :=
  match fuel with
  | O => no_fuel
  | Datatypes.S fuel =>
      stopped ← load stop_requested;
      if (stopped : bool) then mret true
      else
        now ← clock_now;
        let remaining := sat_sub deadline now in
        if remaining =? 0 then load stop_requested
        else sleep (Z.min remaining STOP_SLICE);; stop_sleep_loop fuel deadline
  end.

(** [ReconnectPolicy::sleep_with_stop]. *)
Definition sleep_with_stop (duration : Z) : M bool :=
  now ← clock_now;
  stop_sleep_loop (Z.to_nat (duration / STOP_SLICE + 2)) (now + duration).

(** [open_device]: discovery answers from the outside world. *)
Definition open_device : M (result (DacInfo * option Kind)) := fun w =>
  let w := tick w in
  match w_opens w with
  | [] => Ret (Err (ErrDisconnected "device not found")) w
  | r :: o => Ret r (set_opens o w)
  end.

(** A command to a backend that is not yet the session's. *)
Definition candidate_cmd {R} (f : Kind -> Kind * R) (ev : R -> list event) (k : Kind) : M (Kind * R) := fun w =>
  let w := tick w in
  let '(k, r) := f k in
  Ret (k, r) (foldl (fun w e => log_event e w) w (ev r)).

Definition candidate_close_and_disconnect (k : Kind) : M unit :=
  r ← candidate_cmd (set_shutter false) (fun r => [EvShutter false (is_ok r)]) k;
  candidate_cmd disconnect (fun _ => [EvDisconnect]) r.1;;
  mret tt.

Inductive attempt :=
  | AttConnected (info : DacInfo) (k : Kind)
  | AttExit (e : SessionExit)
  | AttRetry.

(** The validation closure the driver passes. *)
Definition validate (cfg : DriverConfig) (expected_frame_swap : bool) (info : DacInfo) (k : Kind) : M (option SessionExit) :=
  if negb (eqb (is_frame_swap k) expected_frame_swap) then mret (Some ExitIncompatibleDevice)
  else pps ← load control_pps; mret (validator cfg info k pps).

(** The second half of an attempt, on a connected backend: close the shutter,
    refresh the capabilities, validate again. *)
Definition finish_attempt (cfg : DriverConfig) (swap : bool) (info : DacInfo) (k : Kind) : M attempt :=
  r ← candidate_cmd (set_shutter false) (fun r => [EvShutter false (is_ok r)]) k;
  let k := r.1 in
  if negb (is_ok r.2) then candidate_close_and_disconnect k;; mret AttRetry
  else
    let info := mkInfo (info_id info) (info_name info) (info_kind info) (caps k) in
    v ← validate cfg swap info k;
    match v with
    | Some exit => candidate_close_and_disconnect k;; mret (AttExit exit)
    | None => mret (AttConnected info k)
    end.

(** One attempt of [reconnect_backend_with_retry]. *)
Definition reconnect_attempt (cfg : DriverConfig) (swap : bool) : M attempt :=
  opened ← open_device;
  match opened with
  | Err e => mret (if is_retriable e then AttRetry else AttExit ExitDisconnected)
  | Ok (_, None) => mret AttRetry
  | Ok (info, Some k) =>
      v ← validate cfg swap info k;
      match v with
      | Some exit => candidate_close_and_disconnect k;; mret (AttExit exit)
      | None =>
          if is_connected k then finish_attempt cfg swap info k
          else
            r ← candidate_cmd connect (fun _ => []) k;
            let k := r.1 in
            match r.2 with
            | Ok _ => finish_attempt cfg swap info k
            | Err e =>
                let incompatible := negb (is_ok (validate_output_model k)) in
                candidate_close_and_disconnect k;;
                mret (if incompatible then AttExit ExitIncompatibleDevice
                      else if is_retriable e then AttRetry else AttExit ExitDisconnected)
            end
      end
  end.

Fixpoint retry_loop (fuel : nat) (cfg : DriverConfig) (policy : ReconnectPolicy) (swap flapping : bool) (retries : Z) :
    M (DacInfo * Kind + SessionExit) :=
  match fuel with
  | O => no_fuel
  | Datatypes.S fuel =>
      stopped ← load stop_requested;
      if (stopped : bool) then mret (inr ExitStopped)
      else if match max_retries policy with Some mx => mx <=? retries | None => false end
      then mret (inr ExitDisconnected)
      else
        slept_stop ← (if (0 <? retries) || flapping then sleep_with_stop (backoff policy) else mret false);
        if (slept_stop : bool) then mret (inr ExitStopped)
        else
          r ← reconnect_attempt cfg swap;
          match r with
          | AttConnected info k => mret (inl (info, k))
          | AttExit e => mret (inr e)
          | AttRetry => retry_loop fuel cfg policy swap flapping (sat_add 32 retries 1)
          end
  end.

Definition reconnect_backend_with_retry (fuel : nat) (cfg : DriverConfig) (policy : ReconnectPolicy) (swap : bool) :
    M (DacInfo * Kind + SessionExit) :=
  now ← clock_now;
  last ← get w_last_reconnect;
  let flapping := match last with Some t => now - t <? backoff policy | None => false end in
  retry_loop fuel cfg policy swap flapping 0.

(** [update_pps_bounds] on the shared control. *)
Definition set_bounds (mn mx : Z) : M (result unit) := fun w =>
  let w := tick w in
  let '(c, r) := update_pps_bounds mn mx (w_ctl w) in Ret r (set_ctl c w).

(** [reconnect]: the adapter, and the exit when there is no device any more. *)
Definition reconnect (fuel : nat) (cfg : DriverConfig) (a : Adapter) : M (Adapter * option SessionExit) :=
  swap ← get source_is_frame;
  match reconnect_policy cfg with
  | None => mret (a, Some ExitDisconnected)
  | Some policy =>
      modify (log_event EvLost);;
      r ← reconnect_backend_with_retry fuel cfg policy swap;
      match r with
      | inr exit => mret (a, Some exit)
      | inl (info, k) =>
          b ← set_bounds (pps_min (caps k)) (pps_max (caps k));
          if negb (is_ok b) then candidate_close_and_disconnect k;; mret (a, Some ExitIncompatibleDevice)
          else
            modify (fun w => log_event EvNewDevice (set_dev k w));;
            modify (set_shut Closed);;
            modify (set_handled initial_desired);;
            now ← clock_now;
            modify (set_last_reconnect (Some now));;
            src_call (src_on_reconnect (Z.to_nat (max_points_per_chunk (info_caps info))))
              (frame_on_reconnect (Z.to_nat (max_points_per_chunk (info_caps info))));;
            (if (swap : bool) then src_call (fun s => s) (frame_set_frame_capacity (frame_capacity k)) else mret tt);;
            now ← clock_now;
            mret (adapter_on_reconnect now (info_caps info) a, None)
      end
  end.

(** ** The loop *)

Definition stop_and_close_shutter : M SessionExit :=
  command_close true;;
  mret ExitStopped.

(** Take the latest submitted frame, if any. *)
Definition take_frame : M unit := fun w =>
  let w := tick w in
  match w_frame_slot w with
  | Some (Some fr) =>
      Ret tt (set_src (on_source (src_submit_frame fr) (frame_submit_frame fr) (w_src w)) (set_frame_slot (Some None) w))
  | _ => Ret tt w
  end.

(** The three ways an iteration leaves the straight path: reconnect, stop, or
    the check for the end of the stream after a step. *)
Definition do_reconnect (retries : nat) (cfg : DriverConfig) (a : Adapter) : M (Adapter * option (result SessionExit)) :=
  r ← reconnect retries cfg a;
  mret (r.1, match r.2 with Some exit => Some (Ok exit) | None => None end).

Definition do_stop (a : Adapter) : M (Adapter * option (result SessionExit)) :=
  exit ← stop_and_close_shutter;
  mret (a, Some (Ok exit)).

Definition check_ended (cfg : DriverConfig) (c : StepCtx) (a : Adapter) : M (Adapter * option (result SessionExit)) :=
  ended ← get (fun w => so_is_ended (w_src w));
  if negb ended then mret (a, None)
  else
    err ← so_take_stop_error;
    match err with
    | Some e => command_close true;; mret (a, Some (Err e))
    | None => drain_and_blank sentinel_instant c (drain_timeout cfg) a;; mret (a, Some (Ok ExitProducerEnded))
    end.

(** The shutter transition and the adapter step of an iteration. *)
Definition transition_and_step (retries spin : nat) (cfg : DriverConfig) (pps : Z) (a : Adapter) :
    M (Adapter * option (result SessionExit)) :=
  t ← handle_shutter_transition a pps;
  match t.2 with
  | TransDisconnected => do_reconnect retries cfg t.1
  | TransContinue =>
      is_armed ← load control_is_armed;
      let c := mkStepCtx (cfg_target_buffer cfg) pps is_armed in
      r ← adapter_step sentinel_instant spin t.1 c;
      match r.2 with
      | StepStopped => do_stop r.1
      | StepDisconnected => do_reconnect retries cfg r.1
      | StepContinue | StepStateChanged => check_ended cfg c r.1
      end
  end.

(** One iteration of [run_loop]: the next adapter state, or the result.  The
    first fuel bounds the reconnect loop, the second the precise sleep. *)
Definition loop_body (retries spin : nat) (cfg : DriverConfig) (a : Adapter) : M (Adapter * option (result SessionExit)) :=
  stopped ← load stop_requested;
  if (stopped : bool) then do_stop a
  else
    pps ← load control_pps;
    delay ← load control_color_delay;
    src_call (src_set_color_delay delay) (frame_set_color_delay delay);;
    take_frame;;
    connected ← get (fun w => is_connected (w_dev w));
    if negb connected then do_reconnect retries cfg a
    else
      action ← process_control_messages;
      match action with
      | ActStop => do_stop a
      | _ => transition_and_step retries spin cfg pps a
      end.

Fixpoint run_loop_from (fuel retries spin : nat) (cfg : DriverConfig) (a : Adapter) : M (result SessionExit) :=
  match fuel with
  | O => no_fuel
  | Datatypes.S fuel =>
      r ← loop_body retries spin cfg a;
      match r.2 with
      | Some res => mret res
      | None => run_loop_from fuel retries spin cfg r.1
      end
  end.

(** [run_loop]: choose the adapter, start from a closed shutter and generation
    zero, loop. *)
Definition run_loop (fuel retries spin : nat) (cfg : DriverConfig) : M (result SessionExit) :=
  frame ← get source_is_frame;
  now ← clock_now;
  k ← get w_dev;
  match for_backend now k frame with
  | Err e =>
      dev_cmd (set_shutter false) (fun r => EvShutter false (is_ok r));;
      disconnect_device;;
      mret (Err e)
  | Ok a =>
      modify (fun w => set_shut Closed (set_handled initial_desired (set_last_reconnect None w)));;
      run_loop_from fuel retries spin cfg a
  end.

Definition end_session : M unit :=
  connected ← get (fun w => is_connected (w_dev w));
  if (connected : bool) then dev_cmd stop_backend (fun _ => EvStop);; disconnect_device else mret tt.

Definition run (fuel retries spin : nat) (cfg : DriverConfig) : M (result SessionExit) :=
  r ← run_loop fuel retries spin cfg;
  end_session;;
  mret r.

(** ** The opening discipline

    The shutter may be commanded open only after a complete rising preparation:
    the source was armed (startup blanking primed) and then the device buffer
    was reset successfully, with no disarm and no new device since. *)
Inductive phase :=
  | Unprepared
  | Priming
  | Prepared.

Definition phase_step (p : phase) (e : event) : option phase :=
  match e with
  | EvSourceArm => Some Priming
  | EvResetBuffer ok =>
      Some (match p with Priming => if ok then Prepared else Unprepared | _ => p end)
  | EvSourceDisarm | EvNewDevice => Some Unprepared
  | EvShutter true _ => match p with Prepared => Some Prepared | _ => None end
  | _ => Some p
  end.

Definition trace_phase (tr : list event) : option phase :=
  foldl (fun op e => p ← op; phase_step p e) (Some Unprepared) tr.

Lemma trace_phase_snoc tr e : trace_phase (tr ++ [e]) = (p ← trace_phase tr; phase_step p e).
Proof. unfold trace_phase. by rewrite foldl_app. Qed.

(** Events that do not move the phase. *)
Definition neutral (e : event) : bool :=
  match e with EvShutter false _ | EvWrite _ _ _ | EvCommit _ | EvDisconnect | EvStop | EvLost | EvError _ => true | _ => false end.

Lemma trace_phase_neutral tr e : neutral e = true -> trace_phase (tr ++ [e]) = trace_phase tr.
Proof. intros He. rewrite trace_phase_snoc. destruct (trace_phase tr); [|done]. by destruct e as [[]| | | | | | | | | |]. Qed.

(** ** Counting edges of the interference to come *)

Definition env_ops (env : list interference) : Z := foldr (fun i n => Z.of_nat (length (i_ops i)) + n) 0 env.

Lemma env_ops_nonneg env : 0 <= env_ops env.
Proof. induction env; simpl; lia. Qed.

Lemma edges_le ops : forall c, 0 <= edges ops c <= Z.of_nat (length ops).
Proof.
  induction ops as [|op ops IH]; intros c; simpl; [lia|]. specialize (IH (ctl_step op c)).
  destruct (edge_of _ _); lia.
Qed.

(** The current word is [k] edges after [D], and cannot wrap around to it. *)
Definition dist (D k : Z) (d : Z) (env : list interference) : Prop :=
  gen d = (gen D + k) mod 2 ^ 63 /\ 0 <= k /\ k + env_ops env < 2 ^ 63 /\ (k = 0 -> d = D) /\ in_u 64 d.

Definition since (D d : Z) (env : list interference) : Prop := exists k, dist D k d env.

Definition ahead (D d : Z) (env : list interference) : Prop := exists k, 0 < k /\ dist D k d env.

Lemma dist_step D k c i env :
  dist D k (desired_state c) (i :: env) ->
  exists k', k <= k' /\ dist D k' (desired_state (ctl_run (i_ops i) c)) env.
Proof.
  intros (Hg & Hk0 & Hb & Hz & Hu). destruct (ctl_run_gen (i_ops i) c Hu) as (Hu' & He0 & Hg').
  pose proof (edges_le (i_ops i) c). pose proof (env_ops_nonneg env). simpl in Hb.
  exists (k + edges (i_ops i) c). split; [lia|]. split; [|split; [lia|split; [lia|split; [|done]]]].
  - rewrite Hg', Hg, Zplus_mod_idemp_l. f_equal. lia.
  - intros Hk. rewrite <- Hz by lia. apply no_edge_same_word; [done|lia].
Qed.

Lemma since_step D c i env :
  since D (desired_state c) (i :: env) -> since D (desired_state (ctl_run (i_ops i) c)) env.
Proof. intros [k Hk]. destruct (dist_step D k c i env Hk) as (k' & _ & Hk'). by exists k'. Qed.

Lemma ahead_step D c i env :
  ahead D (desired_state c) (i :: env) -> ahead D (desired_state (ctl_run (i_ops i) c)) env.
Proof. intros (k & Hp & Hk). destruct (dist_step D k c i env Hk) as (k' & Hle & Hk'). exists k'. split; [lia|done]. Qed.

Lemma since_refl D env : in_u 64 D -> env_ops env < 2 ^ 63 -> since D D env.
Proof.
  intros HD Hb. exists 0. split; [|split; [lia|split; [lia|done]]].
  rewrite Z.add_0_r, Z.mod_small; [done|]. unfold in_u, umax, gen in *. Z.to_euclidean_division_equations; lia.
Qed.

Lemma since_ahead D d env : since D d env -> d <> D -> ahead D d env.
Proof.
  intros [k Hk] Hne. exists k. split; [|done]. destruct Hk as (_ & Hk0 & _ & Hz & _).
  destruct (decide (k = 0)); [naive_solver|lia].
Qed.

Lemma ahead_ne D d env : in_u 64 D -> ahead D d env -> d <> D.
Proof.
  intros HD (k & Hp & Hg & _ & Hb & _ & _) ->. pose proof (env_ops_nonneg env).
  assert (0 <= gen D < 2 ^ 63) by (unfold in_u, umax, gen in *; Z.to_euclidean_division_equations; lia).
  destruct (decide (gen D + k < 2 ^ 63)).
  - rewrite Z.mod_small in Hg by lia. lia.
  - rewrite <- (Z.mod_unique (gen D + k) (2 ^ 63) 1 (gen D + k - 2 ^ 63)) in Hg by lia. lia.
Qed.

(** ** Invariants over trace, desired word, interference and handled state *)
Section safety.
Context `{!FifoContentSourceLaws S}.

Definition assertion : Type := list event -> Z -> list interference -> Z -> Prop.

Definition holds (J : assertion) (w : World) : Prop :=
  J (w_trace w) (desired_state (w_ctl w)) (w_env w) (w_handled w) /\ src_ok w.

(** Kept by neutral events and by interference. *)
Record stable (J : assertion) : Prop := {
  st_event tr d env h e : neutral e = true -> J tr d env h -> J (tr ++ [e]) d env h;
  st_tick tr c i env h : J tr (desired_state c) (i :: env) h -> J tr (desired_state (ctl_run (i_ops i) c)) env h;
}.

Lemma holds_tick J w : stable J -> holds J w -> holds J (tick w).
Proof.
  intros HJ [HJw Hs]. split; [|by apply src_ok_tick]. unfold tick. destruct (w_env w) as [|i env] eqn:He; simpl.
  - by rewrite He.
  - by apply (st_tick J HJ).
Qed.

Lemma stable_waiting_ok J : stable J -> waiting_ok (holds J).
Proof.
  intros HJ. split; unfold holds; simpl; intros; destruct_and?; try (split; [by apply (st_event J HJ)|done]); try done.
  by apply holds_tick.
Qed.

Lemma stable_adapter_ok J : stable J -> adapter_ok (holds J).
Proof.
  intros HJ. split; [by apply stable_waiting_ok|..]; unfold holds, src_ok; simpl.
  - done.
  - intros w d pps slice r [HJw Hs] Hr. split; [|done]. by apply (st_event J HJ).
  - intros w s delay target pps armed [HJw Hs] Hsrc. rewrite Hsrc in Hs.
    destruct (produce_total delay target pps armed s Hs) as (s' & slice & Hp & Hwf & _). rewrite Hp.
    split; [done|]. exact (produce_caches delay target pps armed s s' slice Hs Hp).
  - intros w s n [HJw Hs] Hsrc. rewrite Hsrc in Hs. split; [done|by apply reserve_wf].
  - intros w s d pps slice armed [HJw Hs] Hsrc Hc. rewrite Hsrc in Hs.
    destruct (commit_total (length slice) armed s Hs) as (s' & Hcm & Hwf & _).
    exists s'. split; [done|]. split; [|done]. apply (st_event J HJ); [done|]. by apply (st_event J HJ).
  - intros w s pps armed [HJw Hs] Hsrc. by destruct (produce_frame _ _ _) as [[]|].
  - intros w s d pps slice armed [HJw Hs] Hsrc Hc. split; [|done]. apply (st_event J HJ); [done|]. by apply (st_event J HJ).
Qed.

(** The opening discipline has been respected, and interference is bounded. *)
Definition base : assertion := fun tr d env h => trace_phase tr <> None /\ in_u 64 d /\ env_ops env < 2 ^ 63.

(** Between iterations: an armed handled state is prepared, or out of date for
    ever. *)
Definition loop_inv : assertion := fun tr d env h =>
  base tr d env h /\ in_u 64 h /\
  (desired_is_armed h = true -> trace_phase tr = Some Prepared \/ ahead h d env).

(** Inside a pass that read the desired word [D]. *)
Definition during (D : Z) (Phi : phase -> Prop) (Hp : Z -> Prop) : assertion := fun tr d env h =>
  base tr d env h /\ in_u 64 D /\ since D d env /\ (exists p, trace_phase tr = Some p /\ Phi p) /\ Hp h.

Lemma base_stable : stable base.
Proof.
  split; unfold base.
  - intros tr d env h e He. by rewrite trace_phase_neutral.
  - intros tr c i env h (Ht & Hu & Hb). split; [done|]. simpl in Hb. split; [by apply ctl_run_gen|lia].
Qed.

Lemma loop_inv_stable : stable loop_inv.
Proof.
  split; unfold loop_inv.
  - intros tr d env h e He (HB & Hh & Ha). rewrite trace_phase_neutral by done.
    split; [by apply (st_event _ base_stable)|done].
  - intros tr c i env h (HB & Hh & Ha). split; [by apply (st_tick _ base_stable)|]. split; [done|].
    intros Har. destruct (Ha Har) as [|]; [by left|right]. by apply ahead_step.
Qed.

Lemma during_stable D Phi Hp : stable (during D Phi Hp).
Proof.
  split; unfold during.
  - intros tr d env h e He (HB & HD & Hs & (p & Ht & HPhi) & Hh). rewrite trace_phase_neutral by done.
    split; [by apply (st_event _ base_stable)|]. naive_solver.
  - intros tr c i env h (HB & HD & Hs & Hph & Hh). split; [by apply (st_tick _ base_stable)|].
    split; [done|]. split; [by apply since_step|done].
Qed.

(** ** Total triples for the straight-line parts *)
Definition total {A} (P : World -> Prop) (m : M A) (Q : A -> World -> Prop) : Prop :=
  forall w, P w -> match m w with Ret a w' => Q a w' | _ => False end.

Lemma total_bind {A B} P (m : M A) (Q : A -> World -> Prop) (k : A -> M B) R :
  total P m Q -> (forall a, total (Q a) (k a) R) -> total P (m ≫= k) R.
Proof.
  intros Hm Hk w Hw. specialize (Hm w Hw). unfold mbind, M_bind. destruct (m w) as [a w'|w'|w']; [|done..]. by apply Hk.
Qed.

Lemma total_ret {A} P (a : A) (Q : A -> World -> Prop) : (forall w, P w -> Q a w) -> total P (mret a) Q.
Proof. intros Hq w Hw. by apply Hq. Qed.

Lemma total_weaken {A} (P P' : World -> Prop) (m : M A) (Q Q' : A -> World -> Prop) :
  total P m Q -> (forall w, P' w -> P w) -> (forall a w, Q a w -> Q' a w) -> total P' m Q'.
Proof. intros Hm HP HQ w Hw. specialize (Hm w (HP w Hw)). destruct (m w); auto. Qed.

Lemma total_get {A} P (f : World -> A) : total P (get f) (fun a w => P w /\ a = f w).
Proof. by intros w Hw. Qed.

Lemma total_modify (P : World -> Prop) f (Q : World -> Prop) : (forall w, P w -> Q (f w)) -> total P (modify f) (fun _ => Q).
Proof. intros Hf w Hw. by apply Hf. Qed.

Lemma total_load {A} J (f : SessionControl -> A) :
  stable J -> total (holds J) (load f) (fun a w => holds J w /\ a = f (w_ctl w)).
Proof. intros HJ w Hw. split; [by apply holds_tick|done]. Qed.

Lemma total_cmd {R} J J' (f : Kind -> Kind * R) (ev : R -> event) :
  stable J -> (forall r tr d env h, J tr d env h -> J' r (tr ++ [ev r]) d env h) ->
  total (holds J) (dev_cmd f ev) (fun r => holds (J' r)).
Proof.
  intros HJ Hev w Hw. apply (holds_tick _ _ HJ) in Hw as [HJw Hs]. unfold dev_cmd.
  destruct (f (w_dev (tick w))) as [d r]. split; [by apply Hev|done].
Qed.

Lemma total_close_shutter J : stable J -> total (holds J) close_shutter (fun _ => holds J).
Proof.
  intros HJ. eapply total_bind.
  - apply (total_cmd J (fun _ => J)); [done|]. intros. by apply (st_event J HJ).
  - intros r. apply total_modify. by intros w [HJw Hs].
Qed.

Lemma total_command_close J force : stable J -> total (holds J) (command_close force) (fun _ => holds J).
Proof.
  intros HJ. eapply total_bind; [apply total_get|]. intros st. cbv beta.
  destruct (force || _).
  - eapply total_weaken; [by apply total_close_shutter|naive_solver|done].
  - apply total_ret. naive_solver.
Qed.

Lemma total_disconnect J : stable J -> total (holds J) disconnect_device (fun _ => holds J).
Proof.
  intros HJ. eapply total_bind.
  - apply (total_cmd J (fun _ => J)); [done|]. intros. by apply (st_event J HJ).
  - intros r. by apply total_ret.
Qed.

Lemma total_src_call J f g :
  (forall s, source_wf s -> source_wf (f s)) -> total (holds J) (src_call f g) (fun _ => holds J).
Proof.
  intros Hf. apply total_modify. intros w [HJw Hs]. split; [done|]. unfold src_ok in *. simpl.
  destruct (w_src w); simpl; auto.
Qed.

(** The lifecycle calls of the source. *)
Lemma total_discard J : total (holds J) so_discard_cached (fun _ => holds J).
Proof. apply total_src_call. apply discard_wf. Qed.

Lemma total_reset_filter J r : total (holds J) (so_reset_output_filter r) (fun _ => holds J).
Proof. apply total_src_call. intros s Hs. by apply (lifecycle_wf s Hs). Qed.

Lemma total_log J J' e :
  (forall tr d env h, J tr d env h -> J' (tr ++ [e]) d env h) -> total (holds J) (modify (log_event e)) (fun _ => holds J').
Proof. intros He. apply total_modify. intros w [HJw Hs]. split; [by apply He|done]. Qed.

Lemma during_log D Phi Phi' Hp e tr d env h :
  (forall p, Phi p -> exists p', phase_step p e = Some p' /\ Phi' p') ->
  during D Phi Hp tr d env h -> during D Phi' Hp (tr ++ [e]) d env h.
Proof.
  intros Hstep ((Ht & Hu & Hb) & HD & Hs & (p & Hph & HPhi) & Hh). destruct (Hstep p HPhi) as (p' & Hp' & HPhi').
  unfold during, base. rewrite trace_phase_snoc, Hph. simpl. rewrite Hp'. naive_solver.
Qed.

Lemma total_on_disarm D Phi Hp : total (holds (during D Phi Hp)) so_on_disarm (fun _ => holds (during D (eq Unprepared) Hp)).
Proof.
  eapply total_bind; [apply total_src_call; intros s Hs; by apply (lifecycle_wf s Hs)|]. intros ?.
  apply total_log. intros tr d env h. apply during_log. intros p _. by eexists.
Qed.

Lemma total_arm_blank D Phi Hp pps :
  total (holds (during D Phi Hp)) (so_arm_startup_blank pps) (fun _ => holds (during D (eq Priming) Hp)).
Proof.
  eapply total_bind; [apply total_src_call; intros s Hs; by apply (lifecycle_wf s Hs)|]. intros ?.
  apply total_log. intros tr d env h. apply during_log. intros p _. by eexists.
Qed.

Lemma total_set_handled D Phi Hp : total (holds (during D Phi Hp)) (modify (set_handled D)) (fun _ => holds (during D Phi (eq D))).
Proof. apply total_modify. intros w [(HB & HD & Hs & Hph & Hh) Hsrc]. split; [|done].
  exact (conj HB (conj HD (conj Hs (conj Hph eq_refl)))).
Qed.

Lemma falling_spec D a :
  total (holds (during D (fun _ => True) (fun _ => True))) (falling D a)
    (fun r w => holds (during D (eq Unprepared) (eq D)) w /\ (r.2 = true -> desired_state (w_ctl w) <> D)).
Proof.
  eapply total_bind; [apply total_command_close, during_stable|]. intros ?.
  eapply total_bind; [apply total_discard|]. intros ?. cbv zeta.
  eapply total_bind; [apply total_on_disarm|]. intros ?.
  eapply total_bind; [apply total_reset_filter|]. intros ?.
  eapply total_bind; [apply total_set_handled|]. intros ?.
  eapply total_bind; [apply total_load, during_stable|]. intros d. apply total_ret.
  intros w [Hw ->]. split; [done|]. simpl. rewrite negb_true_iff. by intros ?%Z.eqb_neq.
Qed.

Lemma rising_spec D pps a Hp :
  total (holds (during D (fun _ => True) Hp)) (rising D pps a)
    (fun r w => if r.2 then holds (during D (eq Prepared) (eq D)) w else holds base w).
Proof.
  eapply total_bind; [apply total_discard|]. intros ?. cbv zeta.
  eapply total_bind; [apply total_arm_blank|]. intros ?.
  eapply total_bind; [apply total_reset_filter|]. intros ?.
  eapply total_bind.
  { apply (total_cmd _ (fun r => during D (eq (if is_ok r then Prepared else Unprepared)) Hp)); [apply during_stable|].
    intros r tr d env h. apply during_log. intros p <-. by eexists. }
  intros r. cbv beta. destruct (is_ok r).
  - eapply total_bind; [apply total_set_handled|]. intros ?. by apply total_ret.
  - eapply total_bind; [apply total_command_close, during_stable|]. intros ?.
    eapply total_bind; [apply total_disconnect, during_stable|]. intros ?. apply total_ret.
    intros w [(HB & _) Hs]. by split.
Qed.

Lemma settle_shutter_spec D :
  total (holds (during D (fun p => desired_is_armed D = true -> p = Prepared) (eq D))) (settle_shutter D)
    (fun _ => holds (during D (fun p => desired_is_armed D = true -> p = Prepared) (eq D))).
Proof.
  set (J := during D _ _). assert (HJ : stable J) by apply during_stable.
  unfold settle_shutter. destruct (desired_is_armed D) eqn:Har; [|by apply total_command_close].
  eapply total_bind; [by apply total_load|]. intros d. destruct (d =? D); [|apply total_ret; naive_solver].
  eapply total_bind; [apply total_get|]. intros st.
  eapply total_bind with (Q := fun _ => holds J).
  - destruct (bool_decide _); [|apply total_ret; naive_solver].
    eapply total_weaken with (P := holds J) (Q := fun _ => holds J); [|naive_solver|done].
    eapply total_bind.
    + apply (total_cmd J (fun _ => J)); [done|]. intros r tr d' env h. apply during_log.
      intros p Hp. rewrite Hp by done. eexists. split; [done|]. done.
    + intros r. apply total_modify. by intros w [HJw Hs].
  - intros ?. eapply total_bind; [by apply total_load|]. intros d'. destruct (negb _).
    + eapply total_weaken; [by apply total_command_close|naive_solver|done].
    + apply total_ret. naive_solver.
Qed.

(** After the settling, the loop invariant holds again. *)
Lemma settled_loop_inv D w :
  holds (during D (fun p => desired_is_armed D = true -> p = Prepared) (eq D)) w -> holds loop_inv w.
Proof.
  intros [(HB & HD & Hs & (p & Hph & Hp) & Hh) Hsrc]. split; [|done]. rewrite <- Hh. split; [done|].
  split; [done|]. intros Har. left. by rewrite Hph, Hp.
Qed.

Lemma handle_shutter_transition_spec a pps :
  total (holds loop_inv) (handle_shutter_transition a pps)
    (fun r w => match r.2 with TransContinue => holds loop_inv w | TransDisconnected => holds base w end).
Proof.
  assert (Hsettle : forall D (b : Adapter), total (holds (during D (fun p => desired_is_armed D = true -> p = Prepared) (eq D)))
            (settle_shutter D;; mret (b, TransContinue))
            (fun r w => match r.2 with TransContinue => holds loop_inv w | TransDisconnected => holds base w end)).
  { intros D b. eapply total_bind; [apply settle_shutter_spec|]. intros ?. apply total_ret. intros w. apply settled_loop_inv. }
  unfold handle_shutter_transition.
  eapply total_bind; [apply total_load, loop_inv_stable|]. intros D.
  eapply total_bind; [apply total_get|]. intros handled.
  assert (Hpre : forall w, ((holds loop_inv w /\ D = desired_state (w_ctl w)) /\ handled = w_handled w) ->
            holds (during D (fun _ => True) (fun _ => True)) w).
  { intros w [[[(HB & Hh & Ha) Hsrc] ->] ->]. split; [|done]. split; [done|]. destruct HB as (Ht & Hu & Hb).
    split; [done|]. split; [by apply since_refl|]. split; [|done]. destruct (trace_phase _) as [p|]; [by exists p|done]. }
  destruct (Z.eqb_spec D handled) as [He|Hne]; simpl negb; cbv iota.
  - eapply total_weaken; [apply (Hsettle D a)| |done].
    intros w Hw. pose proof (Hpre w Hw) as [(HB & HD & Hs & (p & Hph & _) & _) Hsrc].
    destruct Hw as [[[(_ & _ & Ha) _] HDw] Hhw]. split; [|done]. subst handled. rewrite <- Hhw in Ha.
    split; [done|]. split; [done|]. split; [done|]. split; [|by rewrite <- Hhw].
    exists p. split; [done|]. intros Har. destruct (Ha Har) as [Hpp|Hah]; [congruence|].
    by apply ahead_ne in Hah.
  - eapply total_bind with (Q := fun r w => holds (during D (fun _ => True) (fun _ => True)) w /\
        (r.2 = true -> holds loop_inv w) /\
        (r.2 = false -> desired_is_armed D = false -> holds (during D (eq Unprepared) (eq D)) w)).
    + destruct (desired_is_armed handled || _) eqn:Hc.
      * eapply total_weaken; [apply falling_spec|exact Hpre|]. intros r w [Hw Hedge]. cbv beta.
        destruct Hw as [(HB & HD & Hs & (p & Hph & Hpp) & Hh) Hsrc].
        split; [split; [|done]; split_and!; try done; by exists p|].
        split; [|intros _ _; split; [|done]; split_and!; try done; by exists p].
        intros Hr. split; [|done]. rewrite <- Hh. split; [done|]. split; [done|]. intros ?. right.
        apply since_ahead; [done|]. auto.
      * apply total_ret. intros w Hw. split; [by apply Hpre|]. split; [done|]. intros _ Har.
        apply orb_false_iff in Hc as [_ Hc]. by rewrite Har in Hc.
    + intros r. cbv beta. destruct r.2.
      * apply total_ret. naive_solver.
      * destruct (desired_is_armed D) eqn:Har.
        -- eapply total_bind; [eapply total_weaken; [apply (rising_spec D pps r.1 (fun _ => True))|naive_solver|done]|].
           intros r'. cbv beta. destruct r'.2.
           ++ eapply total_weaken; [apply (Hsettle D r'.1)| |done]. intros w [(HB & HD & Hs & (p & Hph & <-) & Hh) Hsrc].
              split; [|done]. split_and!; try done. by exists Prepared.
           ++ by apply total_ret.
        -- eapply total_weaken; [apply (Hsettle D r.1)| |done]. intros w (_ & _ & Hw).
           destruct (Hw eq_refl eq_refl) as [(HB & HD & Hs & (p & Hph & _) & Hh) Hsrc].
           split; [|done]. split_and!; try done. exists p. split; [done|]. by rewrite Har.
Qed.

(** ** Partial triples for the loops: wherever they stop, [base] holds *)
Definition partial {A} (P : World -> Prop) (m : M A) (Q : A -> World -> Prop) : Prop :=
  forall w, P w -> match m w with Ret a w' => Q a w' | o => holds base (final o) end.

Lemma partial_bind {A B} P (m : M A) (Q : A -> World -> Prop) (k : A -> M B) R :
  partial P m Q -> (forall a, partial (Q a) (k a) R) -> partial P (m ≫= k) R.
Proof.
  intros Hm Hk w Hw. specialize (Hm w Hw). unfold mbind, M_bind. destruct (m w) as [a w'|w'|w']; [by apply Hk|done..].
Qed.

Lemma partial_ret {A} P (a : A) (Q : A -> World -> Prop) : (forall w, P w -> Q a w) -> partial P (mret a) Q.
Proof. intros Hq w Hw. by apply Hq. Qed.

Lemma partial_weaken {A} (P P' : World -> Prop) (m : M A) (Q Q' : A -> World -> Prop) :
  partial P m Q -> (forall w, P' w -> P w) -> (forall a w, Q a w -> Q' a w) -> partial P' m Q'.
Proof. intros Hm HP HQ w Hw. specialize (Hm w (HP w Hw)). destruct (m w); auto. Qed.

Lemma partial_total {A} P (m : M A) Q : total P m Q -> partial P m Q.
Proof. intros Hm w Hw. specialize (Hm w Hw). by destruct (m w). Qed.

Lemma loop_inv_base w : holds loop_inv w -> holds base w.
Proof. intros [(HB & _) Hs]. by split. Qed.

Lemma partial_keeps {A} J (m : M A) :
  (forall w, holds J w -> holds base w) -> keeps (holds J) m -> partial (holds J) m (fun _ => holds J).
Proof. intros HJ Hm w Hw. specialize (Hm w Hw). destruct (m w); simpl in *; auto. Qed.

Lemma partial_base {A} (m : M A) : keeps (holds base) m -> partial (holds base) m (fun _ => holds base).
Proof. by apply partial_keeps. Qed.

(** *** Reconnecting *)

(** What a reconnect attempt does to the world besides waiting. *)
Record reconnect_ok (I : World -> Prop) : Prop := {
  rc_waiting : waiting_ok I;
  rc_event w e : I w -> neutral e = true -> I (log_event e w);
  rc_opens w o : I w -> I (set_opens o w);
  rc_rate w r : I w -> I (set_ctl (upd_rate r (w_ctl w)) w);
}.

Section reconnecting.
Context (I : World -> Prop) (HI : reconnect_ok I).
Let HW : waiting_ok I := rc_waiting I HI.

Lemma keeps_candidate_cmd {R} (f : Kind -> Kind * R) ev k :
  (forall r, Forall (fun e => neutral e = true) (ev r)) -> keeps I (candidate_cmd f ev k).
Proof.
  intros Hev w Hw. unfold candidate_cmd. destruct (f k) as [k' r]. simpl.
  apply (ok_tick I HW) in Hw. revert Hw. generalize (tick w).
  induction (Hev r) as [|e l He _ IH]; intros w' Hw'; simpl; [done|]. apply IH. by apply (rc_event I HI).
Qed.

Lemma keeps_candidate_close k : keeps I (candidate_close_and_disconnect k).
Proof.
  apply keeps_bind; [apply keeps_candidate_cmd; intros r; by constructor|]. intros r.
  apply keeps_bind; [apply keeps_candidate_cmd; intros r'; by constructor|]. intros r'. apply keeps_mret.
Qed.

Lemma keeps_sleep_with_stop d : keeps I (sleep_with_stop d).
Proof.
  apply keeps_bind; [by apply keeps_now_ok|]. intros now. generalize (Z.to_nat (d / STOP_SLICE + 2)) as fuel.
  induction fuel as [|fuel IH]; [apply keeps_no_fuel|]. simpl.
  apply keeps_bind; [by apply keeps_load_ok|]. intros stopped. apply keeps_if; [apply keeps_mret|].
  apply keeps_bind; [by apply keeps_now_ok|]. intros now'. apply keeps_if; [by apply keeps_load_ok|].
  apply keeps_bind; [|done]. apply keeps_sleep_ok; [done|]. unfold sat_sub, STOP_SLICE, millis. lia.
Qed.

Lemma keeps_validate cfg swap info k : keeps I (validate cfg swap info k).
Proof.
  unfold validate. apply keeps_if; [apply keeps_mret|].
  apply keeps_bind; [by apply keeps_load_ok|]. intros pps. apply keeps_mret.
Qed.

Lemma keeps_finish_attempt cfg swap info k : keeps I (finish_attempt cfg swap info k).
Proof.
  apply keeps_bind; [apply keeps_candidate_cmd; intros r; by constructor|]. intros r. cbv zeta. apply keeps_if.
  - apply keeps_bind; [apply keeps_candidate_close|]. intros ?. apply keeps_mret.
  - apply keeps_bind; [apply keeps_validate|]. intros [e|]; [|apply keeps_mret].
    apply keeps_bind; [apply keeps_candidate_close|]. intros ?. apply keeps_mret.
Qed.

Lemma keeps_reconnect_attempt cfg swap : keeps I (reconnect_attempt cfg swap).
Proof.
  apply keeps_bind.
  { intros w Hw. unfold open_device. cbv zeta. apply (ok_tick I HW) in Hw.
    destruct (w_opens (tick w)); [done|]. by apply (rc_opens I HI). }
  intros [[info [k|]]|e]; [|apply keeps_mret..].
  apply keeps_bind; [apply keeps_validate|]. intros [e|].
  { apply keeps_bind; [apply keeps_candidate_close|]. intros ?. apply keeps_mret. }
  apply keeps_if; [apply keeps_finish_attempt|].
  apply keeps_bind; [apply keeps_candidate_cmd; intros r; by constructor|]. intros r. cbv zeta.
  destruct r.2; [apply keeps_finish_attempt|].
  apply keeps_bind; [apply keeps_candidate_close|]. intros ?. apply keeps_mret.
Qed.

Lemma keeps_retry_loop fuel cfg policy swap flapping : forall retries,
  keeps I (retry_loop fuel cfg policy swap flapping retries).
Proof.
  induction fuel as [|fuel IH]; intros retries; [apply keeps_no_fuel|]. simpl.
  apply keeps_bind; [by apply keeps_load_ok|]. intros stopped. apply keeps_if; [apply keeps_mret|].
  apply keeps_if; [apply keeps_mret|].
  apply keeps_bind; [apply keeps_if; [apply keeps_sleep_with_stop|apply keeps_mret]|]. intros slept.
  apply keeps_if; [apply keeps_mret|].
  apply keeps_bind; [apply keeps_reconnect_attempt|]. intros [info k|e|]; [apply keeps_mret..|done].
Qed.

Lemma keeps_reconnect_backend fuel cfg policy swap : keeps I (reconnect_backend_with_retry fuel cfg policy swap).
Proof.
  apply keeps_bind; [by apply keeps_now_ok|]. intros now. apply keeps_bind; [apply keeps_get|]. intros last.
  apply keeps_retry_loop.
Qed.

Lemma keeps_set_bounds mn mx : keeps I (set_bounds mn mx).
Proof.
  intros w Hw. unfold set_bounds. cbv zeta. apply (ok_tick I HW) in Hw. unfold update_pps_bounds.
  destruct (_ || _); simpl; [|by apply (rc_rate I HI)].
  destruct (tick w) as [c env now dev src sh h lr fs o tr]. exact Hw.
Qed.
End reconnecting.

Lemma base_reconnect_ok : reconnect_ok (holds base).
Proof.
  split; [apply stable_waiting_ok, base_stable| |done|done].
  intros w e [HB Hs] He. split; [by apply (st_event _ base_stable)|done].
Qed.
Let base_waiting : waiting_ok (holds base) := rc_waiting _ base_reconnect_ok.

Lemma reconnect_spec fuel cfg a :
  partial (holds base) (reconnect fuel cfg a)
    (fun r w => match r.2 with None => holds loop_inv w | Some _ => holds base w end).
Proof.
  eapply partial_bind; [apply partial_base, keeps_get|]. intros swap.
  destruct (reconnect_policy cfg) as [policy|]; [|by apply partial_ret].
  eapply partial_bind with (Q := fun _ => holds base).
  { apply partial_total, total_modify. intros w Hw. by apply (rc_event _ base_reconnect_ok). }
  intros ?. eapply partial_bind; [apply partial_base, keeps_reconnect_backend, base_reconnect_ok|].
  intros [[info k]|exit]; [|by apply partial_ret].
  eapply partial_bind; [apply partial_base, keeps_set_bounds, base_reconnect_ok|]. intros b. destruct (negb _).
  { eapply partial_bind; [apply partial_base, keeps_candidate_close, base_reconnect_ok|]. intros ?. by apply partial_ret. }
  eapply partial_bind with (Q := fun _ => holds base).
  { apply partial_total, total_modify. intros w [(Ht & Hu & Hb) Hs]. split; [|done]. unfold base. simpl.
    rewrite trace_phase_snoc. by destruct (trace_phase (w_trace w)). }
  intros ?. eapply partial_bind with (Q := fun _ => holds base); [apply partial_total, total_modify; by intros w [HB Hs]|].
  intros ?. eapply partial_bind with (Q := fun _ => holds loop_inv).
  { apply partial_total, total_modify. intros w [HB Hs]. split; [|done]. split; [done|]. by split; [vm_compute|]. }
  intros ?. eapply partial_bind.
  { apply (partial_keeps loop_inv); [apply loop_inv_base|apply keeps_now_ok, stable_waiting_ok, loop_inv_stable]. }
  intros now. eapply partial_bind with (Q := fun _ => holds loop_inv); [apply partial_total, total_modify; by intros w [HB Hs]|].
  intros ?. eapply partial_bind.
  { apply partial_total, (total_src_call loop_inv). intros s Hs. by apply reconnect_wf. }
  intros ?. eapply partial_bind with (Q := fun _ => holds loop_inv).
  { destruct swap; [|by apply partial_ret]. by apply partial_total, (total_src_call loop_inv). }
  intros ?. eapply partial_bind.
  { apply (partial_keeps loop_inv); [apply loop_inv_base|apply keeps_now_ok, stable_waiting_ok, loop_inv_stable]. }
  intros now'. by apply partial_ret.
Qed.

(** *** The loop *)

Lemma keeps_drain_and_blank c timeout a : keeps (holds base) (drain_and_blank sentinel_instant c timeout a).
Proof.
  assert (Hblank : keeps (holds base) (blank_and_close_shutter c)).
  { apply keeps_bind; [by apply keeps_close_shutter|]. intros ?. apply keeps_bind; [|intros; apply keeps_mret].
    apply keeps_dev_cmd; [apply base_waiting|]. intros w [HB Hs]. split; [by apply (st_event _ base_stable)|done]. }
  assert (Hdrain : keeps (holds base) (drain_via_estimator sentinel_instant c timeout)) by (by apply keeps_drain_via_estimator).
  destruct a; cbn [drain_and_blank]; [by apply keeps_bind|by apply keeps_bind| |done].
  apply keeps_bind; [done|]. intros ?. apply keeps_bind; [|done].
  apply keeps_dev_cmd; [apply base_waiting|]. intros w [(Ht & Hu & Hb) Hs]. split; [|done]. unfold base. simpl.
  rewrite trace_phase_snoc. by destruct (trace_phase (w_trace w)).
Qed.

Let inv_waiting : waiting_ok (holds loop_inv) := stable_waiting_ok loop_inv loop_inv_stable.

Lemma partial_inv {A} (m : M A) : keeps (holds loop_inv) m -> partial (holds loop_inv) m (fun _ => holds loop_inv).
Proof. apply partial_keeps, loop_inv_base. Qed.

Definition body_post (r : Adapter * option (result SessionExit)) (w : World) : Prop :=
  match r.2 with None => holds loop_inv w | Some _ => holds base w end.

Lemma do_reconnect_spec retries cfg a : partial (holds base) (do_reconnect retries cfg a) body_post.
Proof. eapply partial_bind; [apply reconnect_spec|]. intros [a' [e|]]; by apply partial_ret. Qed.

Lemma do_stop_spec (a : Adapter) : partial (holds base) (do_stop a) body_post.
Proof.
  eapply partial_bind with (Q := fun _ => holds base).
  - eapply partial_bind; [apply partial_total, total_command_close, base_stable|]. intros ?. by apply partial_ret.
  - intros e. by apply partial_ret.
Qed.

Lemma partial_from_inv {A} (m : M A) Q : partial (holds base) m Q -> partial (holds loop_inv) m Q.
Proof. intros Hm. eapply partial_weaken; [exact Hm|apply loop_inv_base|done]. Qed.

Lemma check_ended_spec cfg c (a : Adapter) : partial (holds loop_inv) (check_ended cfg c a) body_post.
Proof.
  eapply partial_bind; [apply partial_inv, keeps_get|]. intros ended. destruct (negb ended); [by apply partial_ret|].
  eapply partial_bind with (Q := fun _ => holds base).
  { intros w Hw. apply loop_inv_base in Hw as [HB Hs]. unfold so_take_stop_error. destruct (w_src w) as [s|s] eqn:Hsrc; [|done].
    unfold src_ok in Hs. rewrite Hsrc in Hs. destruct (lifecycle_wf s Hs) as (_ & _ & _ & _ & _ & Ht).
    by destruct (take_stop_error s) as [s' e]. }
  intros [e|].
  - eapply partial_bind; [apply partial_total, total_command_close, base_stable|]. intros ?. by apply partial_ret.
  - eapply partial_bind; [apply partial_base, keeps_drain_and_blank|]. intros ?. by apply partial_ret.
Qed.

Lemma transition_and_step_spec retries spin cfg pps a :
  partial (holds loop_inv) (transition_and_step retries spin cfg pps a) body_post.
Proof.
  eapply partial_bind; [apply partial_total, handle_shutter_transition_spec|].
  intros [a' [|]]; [|apply do_reconnect_spec]. cbn [snd fst].
  eapply partial_bind; [apply partial_inv; by apply keeps_load_ok|]. intros is_armed. cbv zeta.
  eapply partial_bind; [apply partial_inv, adapter_step_keeps, stable_adapter_ok, loop_inv_stable|].
  intros [a'' [| | |]]; cbn [snd fst]; [apply check_ended_spec..| |]; apply partial_from_inv;
    [apply do_stop_spec|apply do_reconnect_spec].
Qed.

Lemma loop_body_spec retries spin cfg a : partial (holds loop_inv) (loop_body retries spin cfg a) body_post.
Proof.
  eapply partial_bind; [apply partial_inv; by apply keeps_load_ok|].
  intros [|]; [apply partial_from_inv, do_stop_spec|].
  eapply partial_bind; [apply partial_inv; by apply keeps_load_ok|]. intros pps.
  eapply partial_bind; [apply partial_inv; by apply keeps_load_ok|]. intros delay.
  eapply partial_bind; [apply partial_total, (total_src_call loop_inv); intros s Hs; by apply (lifecycle_wf s Hs)|]. intros ?.
  eapply partial_bind with (Q := fun _ => holds loop_inv).
  { intros w Hw. unfold take_frame. cbv zeta. apply (holds_tick _ _ loop_inv_stable) in Hw as [HJ Hs].
    destruct (w_frame_slot (tick w)) as [[fr|]|]; [|done..]. split; [done|]. unfold src_ok in *. simpl.
    destruct (w_src (tick w)) as [s|s]; simpl; [by apply (lifecycle_wf s Hs)|done]. }
  intros ?. eapply partial_bind; [apply partial_inv, keeps_get|]. intros connected.
  destruct (negb connected); [apply partial_from_inv, do_reconnect_spec|].
  eapply partial_bind; [apply partial_inv; by apply keeps_process|].
  intros [| |]; [apply transition_and_step_spec..|apply partial_from_inv, do_stop_spec].
Qed.

Lemma run_loop_from_spec fuel retries spin cfg : forall a,
  partial (holds loop_inv) (run_loop_from fuel retries spin cfg a) (fun _ => holds base).
Proof.
  induction fuel as [|fuel IH]; intros a; [intros w Hw; by apply loop_inv_base|]. cbn [run_loop_from].
  eapply partial_bind; [apply loop_body_spec|]. intros [a' [res|]]; [by apply partial_ret|apply IH].
Qed.

Lemma run_spec fuel retries spin cfg : partial (holds base) (run fuel retries spin cfg) (fun _ => holds base).
Proof.
  eapply partial_bind with (Q := fun _ => holds base).
  - eapply partial_bind; [apply partial_base, keeps_get|]. intros frame.
    eapply partial_bind; [apply partial_base; by apply keeps_now_ok|]. intros now.
    eapply partial_bind; [apply partial_base, keeps_get|]. intros k. destruct (for_backend now k frame) as [a|e].
    + eapply partial_bind with (Q := fun _ => holds loop_inv); [|intros ?; apply run_loop_from_spec].
      apply partial_total, total_modify. intros w [HB Hs]. split; [|done]. split; [done|]. by split; [vm_compute|].
    + eapply partial_bind.
      { apply partial_total, (total_cmd base (fun _ => base)); [apply base_stable|]. intros. by apply (st_event _ base_stable). }
      intros ?. eapply partial_bind; [apply partial_total, total_disconnect, base_stable|]. intros ?. by apply partial_ret.
  - intros r. eapply partial_bind with (Q := fun _ => holds base); [|intros ?; by apply partial_ret].
    eapply partial_bind; [apply partial_base, keeps_get|]. intros [|]; [|by apply partial_ret].
    eapply partial_bind.
    { apply partial_total, (total_cmd base (fun _ => base)); [apply base_stable|]. intros. by apply (st_event _ base_stable). }
    intros ?. apply partial_total, total_disconnect, base_stable.
Qed.

(** ** What an exit leaves behind

    [lit]: whether the session's device may have been left open: the last
    shutter command was an open, and the device was not given up since. *)
Definition lit_step (b : bool) (e : event) : bool :=
  match e with EvShutter open _ => open | EvLost => false | _ => b end.

Definition lit (tr : list event) : bool := foldl lit_step false tr.

Definition dark (w : World) : Prop := lit (w_trace w) = false.

Lemma lit_snoc tr e : lit (tr ++ [e]) = lit_step (lit tr) e.
Proof. unfold lit. by rewrite foldl_app. Qed.

Lemma dark_reconnect_ok : reconnect_ok dark.
Proof.
  split; [split| | |]; unfold dark; simpl; intros; rewrite ?trace_tick, ?lit_snoc; try done.
  by destruct e as [[]| | | | | | | | | |].
Qed.

Let dark_waiting : waiting_ok dark := rc_waiting dark dark_reconnect_ok.

(** Postconditions of the computations that return. *)
Definition after {A} (P : World -> Prop) (m : M A) (Q : A -> World -> Prop) : Prop :=
  forall w, P w -> match m w with Ret a w' => Q a w' | _ => True end.

Lemma after_bind {A B} P (m : M A) (Q : A -> World -> Prop) (k : A -> M B) R :
  after P m Q -> (forall a, after (Q a) (k a) R) -> after P (m ≫= k) R.
Proof.
  intros Hm Hk w Hw. specialize (Hm w Hw). unfold mbind, M_bind. destruct (m w) as [a w'|w'|w']; [by apply Hk|done..].
Qed.

(** Nothing is known of what comes before the last part. *)
Lemma after_skip {A B} P (m : M A) (k : A -> M B) R : (forall a, after (fun _ => True) (k a) R) -> after P (m ≫= k) R.
Proof. intros Hk. eapply after_bind; [|exact Hk]. intros w _. by destruct (m w). Qed.

Lemma after_ret {A} P (a : A) (Q : A -> World -> Prop) : (forall w, P w -> Q a w) -> after P (mret a) Q.
Proof. intros Hq w Hw. by apply Hq. Qed.

Lemma after_keeps {A} (m : M A) : keeps dark m -> after dark m (fun _ => dark).
Proof. intros Hm w Hw. specialize (Hm w Hw). by destruct (m w). Qed.

Lemma close_shutter_dark P : after P close_shutter (fun _ => dark).
Proof.
  intros w _. unfold close_shutter, dev_cmd, modify, mbind, M_bind. destruct (set_shutter false _) as [d r].
  unfold dark. simpl. by rewrite lit_snoc.
Qed.

Lemma command_close_dark P : after P (command_close true) (fun _ => dark).
Proof. apply after_skip. intros st. simpl. apply close_shutter_dark. Qed.

Lemma blank_and_close_dark P c : after P (blank_and_close_shutter c) (fun _ => dark).
Proof.
  eapply after_bind; [apply close_shutter_dark|]. intros ?. apply after_keeps.
  apply keeps_bind; [|intros; apply keeps_mret]. apply keeps_dev_cmd; [apply dark_waiting|].
  intros w Hw. unfold dark. simpl. by rewrite lit_snoc.
Qed.

Lemma drain_and_blank_dark c timeout a P : after P (drain_and_blank sentinel_instant c timeout a) (fun _ => dark).
Proof.
  destruct a; cbn [drain_and_blank].
  - apply after_skip. intros ?. apply blank_and_close_dark.
  - apply after_skip. intros ?. apply blank_and_close_dark.
  - apply after_skip. intros ?. apply after_skip. intros ?. apply blank_and_close_dark.
  - apply blank_and_close_dark.
Qed.

Definition exit_dark (res : option (result SessionExit)) (w : World) : Prop :=
  match res with Some r => r = Ok ExitDisconnected \/ dark w | None => True end.

Lemma reconnect_dark fuel cfg a :
  after (fun _ => True) (reconnect fuel cfg a) (fun r w => exit_dark (match r.2 with Some e => Some (Ok e) | None => None end) w).
Proof.
  apply after_skip. intros swap. destruct (reconnect_policy cfg) as [policy|]; [|apply after_ret; by left].
  eapply after_bind with (Q := fun _ => dark); [intros w _; unfold dark; simpl; by rewrite lit_snoc|]. intros ?.
  eapply after_bind; [apply after_keeps, keeps_reconnect_backend, dark_reconnect_ok|].
  intros [[info k]|exit]; [|apply after_ret; by right].
  eapply after_bind; [apply after_keeps, keeps_set_bounds, dark_reconnect_ok|]. intros b. destruct (negb _).
  - eapply after_bind; [apply after_keeps, keeps_candidate_close, dark_reconnect_ok|]. intros ?. apply after_ret. by right.
  - do 8 (apply after_skip; intros ?). by apply after_ret.
Qed.

Lemma do_reconnect_dark P retries cfg a : after P (do_reconnect retries cfg a) (fun r w => exit_dark r.2 w).
Proof.
  eapply after_bind with (Q := fun r w => exit_dark (match r.2 with Some e => Some (Ok e) | None => None end) w).
  - intros w _. by apply reconnect_dark.
  - intros r. by apply after_ret.
Qed.

Lemma do_stop_dark P a : after P (do_stop a) (fun r w => exit_dark r.2 w).
Proof.
  eapply after_bind with (Q := fun _ => dark).
  - eapply after_bind; [apply command_close_dark|]. intros ?. by apply after_ret.
  - intros e. apply after_ret. by right.
Qed.

Lemma loop_body_dark P retries spin cfg a : after P (loop_body retries spin cfg a) (fun r w => exit_dark r.2 w).
Proof.
  apply after_skip. intros [|]; [apply do_stop_dark|]. apply after_skip. intros pps. do 4 (apply after_skip; intros ?).
  destruct (negb _); [apply do_reconnect_dark|]. apply after_skip. intros action.
  assert (Hgo : after (fun _ => True) (transition_and_step retries spin cfg pps a) (fun r w => exit_dark r.2 w)).
  { apply after_skip. intros [a' [|]]; [|apply do_reconnect_dark]. apply after_skip. intros armed. cbv zeta.
    apply after_skip. intros [a'' [| | |]]; [| |apply do_stop_dark|apply do_reconnect_dark].
    all: apply after_skip; intros ended; destruct (negb ended); [by apply after_ret|];
      apply after_skip; intros [e|]; (eapply after_bind with (Q := fun _ => dark); [|intros ?; apply after_ret; by right]);
      [apply command_close_dark|apply drain_and_blank_dark]. }
  destruct action; [exact Hgo..|apply do_stop_dark].
Qed.

Lemma run_loop_from_dark fuel retries spin cfg : forall a P,
  after P (run_loop_from fuel retries spin cfg a) (fun r w => r = Ok ExitDisconnected \/ dark w).
Proof.
  induction fuel as [|fuel IH]; intros a P; [by intros w _|]. cbn [run_loop_from].
  eapply after_bind; [apply loop_body_dark|]. intros [a' [res|]]; [|apply IH]. by apply after_ret.
Qed.

(** ** The believed shutter state after a transition pass *)

Definition shutter_handled (F : ShutterState -> Z -> Prop) (w : World) : Prop := F (w_shutter w) (w_handled w).

Lemma tick_handled (w : World) : w_handled (tick w) = w_handled w.
Proof. unfold tick. by destruct (w_env w). Qed.

Lemma frame_load F {A} (f : SessionControl -> A) :
  total (shutter_handled F) (load f) (fun a w => shutter_handled F w /\ a = f (w_ctl w)).
Proof. intros w Hw. unfold load, shutter_handled in *. by rewrite shutter_tick, tick_handled. Qed.

Lemma frame_cmd F {R} (f : Kind -> Kind * R) ev : total (shutter_handled F) (dev_cmd f ev) (fun _ => shutter_handled F).
Proof.
  intros w Hw. unfold dev_cmd, shutter_handled in *. destruct (f _) as [d r]. simpl. by rewrite shutter_tick, tick_handled.
Qed.

Lemma frame_src F f g : total (shutter_handled F) (src_call f g) (fun _ => shutter_handled F).
Proof. by apply total_modify. Qed.

Lemma frame_log F e : total (shutter_handled F) (modify (log_event e)) (fun _ => shutter_handled F).
Proof. by apply total_modify. Qed.

Lemma frame_command_close (F : ShutterState -> Z -> Prop) force :
  (forall st st' h, F st h -> F st' h) ->
  total (shutter_handled F) (command_close force) (fun _ => shutter_handled (fun st h => st <> Open_ /\ F st h)).
Proof.
  intros HF. eapply total_bind; [apply total_get|]. intros st.
  destruct (force || bool_decide (st <> Closed)) eqn:Hc.
  - eapply total_bind with (Q := fun _ => shutter_handled F).
    + eapply total_weaken; [apply (frame_cmd F)|by intros w [? _]|done].
    + intros r. apply total_modify. intros w Hw. unfold shutter_handled in *. simpl.
      split; [by destruct (is_ok r)|by eapply HF].
  - apply total_ret. intros w [Hw ->]. apply orb_false_iff in Hc as [_ Hc]. apply bool_decide_eq_false in Hc.
    unfold shutter_handled in *. split; [|done]. destruct (w_shutter w); naive_solver.
Qed.

Lemma falling_shutter D a :
  total (fun _ => True) (falling D a) (fun _ => shutter_handled (fun st h => st <> Open_ /\ h = D)).
Proof.
  eapply total_bind; [apply (frame_command_close (fun _ _ => True)); done|]. intros ?.
  eapply total_bind; [apply frame_src|]. intros ?. cbv zeta.
  eapply total_bind with (Q := fun _ => shutter_handled (fun st _ => st <> Open_)).
  { eapply total_bind; [eapply total_weaken; [apply frame_src|exact (fun _ Hw => Hw)|done]|]. intros ?.
    eapply total_weaken; [apply frame_log|exact (fun _ Hw => Hw)|]. by intros ? w [? _]. }
  intros ?. eapply total_bind; [apply frame_src|]. intros ?.
  eapply total_bind with (Q := fun _ => shutter_handled (fun st h => st <> Open_ /\ h = D)); [by apply total_modify|].
  intros ?. eapply total_bind; [apply frame_load|]. intros d. apply total_ret. by intros w [? _].
Qed.

Lemma rising_shutter D pps a st0 :
  total (shutter_handled (fun st _ => st = st0)) (rising D pps a)
    (fun r => shutter_handled (fun st h => if r.2 then st = st0 /\ h = D else st <> Open_)).
Proof.
  eapply total_bind; [apply frame_src|]. intros ?. cbv zeta.
  eapply total_bind; [eapply total_bind; [apply frame_src|intros ?; apply frame_log]|]. intros ?.
  eapply total_bind; [apply frame_src|]. intros ?. eapply total_bind; [apply frame_cmd|]. intros r. destruct (is_ok r).
  - eapply total_bind with (Q := fun _ => shutter_handled (fun st h => st = st0 /\ h = D)); [by apply total_modify|].
    intros ?. by apply total_ret.
  - eapply total_bind with (Q := fun _ => shutter_handled (fun st _ => st <> Open_)).
    { eapply total_weaken; [apply (frame_command_close (fun _ _ => True)); done|done|]. by intros ? w [? _]. }
    intros ?. eapply total_bind with (Q := fun _ => shutter_handled (fun st _ => st <> Open_)).
    { eapply total_bind; [apply frame_cmd|]. intros ?. by apply total_ret. }
    intros ?. by apply total_ret.
Qed.

Lemma settle_shutter_state D st0 :
  total (shutter_handled (fun st h => st = st0 /\ h = D)) (settle_shutter D)
    (fun _ w => w_handled w = D /\
      (w_shutter w = Open_ -> desired_is_armed D = true /\ (desired_state (w_ctl w) = D \/ st0 = Open_))).
Proof.
  set (F := fun (st : ShutterState) (h : Z) => h = D).
  assert (Hclose : forall P force, (forall w, P w -> shutter_handled F w) ->
            total P (command_close force) (fun _ w => w_handled w = D /\
              (w_shutter w = Open_ -> desired_is_armed D = true /\ (desired_state (w_ctl w) = D \/ st0 = Open_)))).
  { intros P force HP. eapply total_weaken; [apply (frame_command_close F); done|exact HP|].
    intros ? w [Hst Hh]. split; [exact Hh|done]. }
  unfold settle_shutter. destruct (desired_is_armed D) eqn:Har; [|apply Hclose; by intros w [? ?]].
  eapply total_bind; [apply frame_load|]. intros d. destruct (d =? D).
  2: { apply total_ret. intros w [[Hst Hh] _]. unfold F. split; [done|]. rewrite Hst. auto. }
  eapply total_bind; [apply total_get|]. intros st.
  eapply total_bind with (Q := fun _ => shutter_handled F).
  - destruct (bool_decide _); [|apply total_ret; by intros w [[[_ ?] _] _]].
    eapply total_bind with (Q := fun _ => shutter_handled F).
    + eapply total_weaken; [apply (frame_cmd F)|by intros w [[[_ ?] _] _]|done].
    + intros r. by apply total_modify.
  - intros ?. eapply total_bind; [apply frame_load|]. intros d'. destruct (Z.eqb_spec d' D) as [He|Hne]; simpl negb; cbv iota.
    + apply total_ret. intros w [Hh ->]. split; [exact Hh|]. auto.
    + apply Hclose. by intros w [? _].
Qed.

(** A run that starts dark ends dark or disconnected. *)
Lemma run_dark fuel retries spin cfg : after dark (run fuel retries spin cfg) (fun r w => r = Ok ExitDisconnected \/ dark w).
Proof.
  eapply after_bind with (Q := fun r w => r = Ok ExitDisconnected \/ dark w).
  - apply after_skip. intros frame. apply after_skip. intros now. apply after_skip. intros k.
    destruct (for_backend now k frame) as [a|e].
    + apply after_skip. intros ?. apply run_loop_from_dark.
    + eapply after_bind with (Q := fun _ => dark).
      { intros v _. unfold dev_cmd. destruct (set_shutter false _) as [d r']. unfold dark. simpl. by rewrite lit_snoc. }
      intros ?. eapply after_bind; [apply after_keeps; by apply keeps_disconnect_device|]. intros ?. apply after_ret. by right.
  - intros r0. assert (Hd : r0 = Ok ExitDisconnected \/ r0 <> Ok ExitDisconnected)
      by (destruct r0 as [[]|]; (by left) || (by right)). destruct Hd as [->|Hne].
    { apply after_skip. intros ?. apply after_ret. by left. }
    eapply after_bind with (Q := fun _ => dark); [|intros ?; apply after_ret; by right].
    intros v [?|Hv]; [done|]. revert v Hv. apply after_keeps. apply keeps_bind; [apply keeps_get|]. intros connected.
    apply keeps_if; [|apply keeps_mret]. apply keeps_bind; [|intros ?; by apply keeps_disconnect_device].
    apply keeps_dev_cmd; [apply dark_waiting|]. intros v Hv. unfold dark. simpl. by rewrite lit_snoc.
Qed.

(** ** Only on demand

    A closer invariant of the trace: every event is appended, and an opening only
    happens when the desired word was read as armed.  [U] is what is claimed of the
    trace, [C] what is known of the control and of the calls to come. *)
Section demanded.
Context (U : list event -> Prop) (C : SessionControl -> list interference -> Prop).
Hypothesis U_event : forall tr e, is_open e = false -> U tr -> U (tr ++ [e]).
Hypothesis U_open : forall c env tr ok, C c env -> control_is_armed c = true -> U tr -> U (tr ++ [EvShutter true ok]).
Hypothesis C_tick : forall c i env, C c (i :: env) -> C (ctl_run (i_ops i) c) env.
Hypothesis C_queue : forall c env q, C c env -> C (upd_queue q c) env.
Hypothesis C_rate : forall c env r, C c env -> C (upd_rate r c) env.

Definition demanded (w : World) : Prop := U (w_trace w) /\ src_ok w /\ C (w_ctl w) (w_env w).

Lemma demanded_tick w : demanded w -> demanded (tick w).
Proof.
  intros (HU & Hs & HC). unfold demanded. rewrite trace_tick. split; [done|]. split; [by apply src_ok_tick|].
  unfold tick. destruct (w_env w) as [|i env] eqn:He; simpl; [by rewrite He|by apply C_tick].
Qed.

Lemma demanded_event w e : is_open e = false -> demanded w -> demanded (log_event e w).
Proof. intros He (HU & Hs & HC). split; [by apply U_event|by split]. Qed.

Lemma demanded_waiting : waiting_ok demanded.
Proof.
  split; try (intros; destruct_and?; by apply demanded_event); try (intros w; intros; by destruct_and?).
  - apply demanded_tick.
  - intros w q (HU & Hs & HC). split; [done|]. split; [done|]. by apply C_queue.
Qed.

Lemma demanded_adapter : adapter_ok demanded.
Proof.
  split; [apply demanded_waiting|..]; unfold src_ok; simpl.
  - done.
  - intros w d pps slice r Hw Hr. by apply (demanded_event (set_dev d w)).
  - intros w s delay target pps armed (HU & Hs & HC) Hsrc. unfold src_ok in Hs. rewrite Hsrc in Hs.
    destruct (produce_total delay target pps armed s Hs) as (s' & slice & Hp & Hwf & _). rewrite Hp.
    split; [done|]. exact (produce_caches delay target pps armed s s' slice Hs Hp).
  - intros w s n (HU & Hs & HC) Hsrc. unfold src_ok in Hs. rewrite Hsrc in Hs. split; [done|]. split; [by apply reserve_wf|done].
  - intros w s d pps slice armed (HU & Hs & HC) Hsrc Hc. unfold src_ok in Hs. rewrite Hsrc in Hs.
    destruct (commit_total (length slice) armed s Hs) as (s' & Hcm & Hwf & _).
    exists s'. split; [done|]. split; [|split; [done|done]]. apply U_event; [done|]. by apply U_event.
  - intros w s pps armed (HU & Hs & HC) Hsrc. by destruct (produce_frame _ _ _) as [[]|].
  - intros w s d pps slice armed (HU & Hs & HC) Hsrc Hc. split; [|split; [done|done]]. apply U_event; [done|]. by apply U_event.
Qed.

Lemma demanded_reconnect : reconnect_ok demanded.
Proof.
  split; [apply demanded_waiting| |done|].
  - intros w e Hw He. apply demanded_event; [|done]. by destruct e as [[]| | | | | | | | | |].
  - intros w r (HU & Hs & HC). split; [done|]. split; [done|]. by apply C_rate.
Qed.

Lemma demanded_src f g : (forall s, source_wf s -> source_wf (f s)) -> keeps demanded (src_call f g).
Proof.
  intros Hf. apply keeps_modify. intros w (HU & Hs & HC). split; [done|]. split; [|done]. unfold src_ok in *. simpl. destruct (w_src w); simpl; auto.
Qed.

Lemma demanded_log e : is_open e = false -> keeps demanded (modify (log_event e)).
Proof. intros He. apply keeps_modify. intros w. by apply demanded_event. Qed.

Lemma demanded_cmd {R} (f : Kind -> Kind * R) ev : (forall r, is_open (ev r) = false) -> keeps demanded (dev_cmd f ev).
Proof. intros He. apply keeps_dev_cmd; [apply demanded_tick|]. intros w Hw. by apply (demanded_event (set_dev _ w)). Qed.

Let HW := demanded_waiting.

Lemma demanded_close force : keeps demanded (command_close force).
Proof. apply keeps_bind; [apply keeps_get|]. intros st. apply keeps_if; [by apply keeps_close_shutter|apply keeps_mret]. Qed.

Lemma demanded_falling d a : keeps demanded (falling d a).
Proof.
  apply keeps_bind; [apply demanded_close|]. intros ?. apply keeps_bind; [apply demanded_src, discard_wf|]. intros ?.
  apply keeps_bind; [apply keeps_bind; [apply demanded_src; intros s Hs; by apply (lifecycle_wf s Hs)|intros; by apply demanded_log]|]. intros ?.
  apply keeps_bind; [apply demanded_src; intros s Hs; by apply (lifecycle_wf s Hs)|]. intros ?.
  apply keeps_bind; [by apply keeps_modify|]. intros ?. apply keeps_bind; [by apply keeps_load_ok|]. intros ?. apply keeps_mret.
Qed.

Lemma demanded_rising d pps a : keeps demanded (rising d pps a).
Proof.
  apply keeps_bind; [apply demanded_src, discard_wf|]. intros ?.
  apply keeps_bind; [apply keeps_bind; [apply demanded_src; intros s Hs; by apply (lifecycle_wf s Hs)|intros; by apply demanded_log]|]. intros ?.
  apply keeps_bind; [apply demanded_src; intros s Hs; by apply (lifecycle_wf s Hs)|]. intros ?.
  apply keeps_bind; [by apply demanded_cmd|]. intros r. apply keeps_if.
  - apply keeps_bind; [by apply keeps_modify|]. intros ?. apply keeps_mret.
  - apply keeps_bind; [apply demanded_close|]. intros ?. apply keeps_bind; [by apply keeps_disconnect_device|]. intros ?. apply keeps_mret.
Qed.

(** The only opening: the desired word had just been read, and was armed. *)
Lemma demanded_settle d : keeps demanded (settle_shutter d).
Proof.
  unfold settle_shutter. destruct (desired_is_armed d) eqn:Harmed; [|apply demanded_close].
  apply (keeps_post_bind _ _ _ (fun d' w => demanded w /\ (d' = d -> forall tr ok, U tr -> U (tr ++ [EvShutter true ok])))).
  { intros w Hw. apply demanded_tick in Hw. split; [done|]. simpl. intros Hd tr ok. destruct Hw as (_ & _ & HC). eapply U_open; [exact HC|].
    unfold control_is_armed. by rewrite Hd. }
  intros d' w [Hw Hopen]. destruct (Z.eqb_spec d' d) as [He|]; [|done]. specialize (Hopen He). revert w Hw.
  apply keeps_bind; [apply keeps_get|]. intros st. apply keeps_bind.
  { apply keeps_if; [|apply keeps_mret]. apply keeps_bind; [|intros r; by apply keeps_modify].
    apply keeps_dev_cmd; [apply demanded_tick|]. intros w (HU & Hs & HC). split; [by apply Hopen|by split]. }
  intros ?. apply keeps_bind; [by apply keeps_load_ok|]. intros d2. apply keeps_if; [apply demanded_close|apply keeps_mret].
Qed.

Lemma demanded_transition a pps : keeps demanded (handle_shutter_transition a pps).
Proof.
  apply keeps_bind; [by apply keeps_load_ok|]. intros desired. apply keeps_bind; [apply keeps_get|]. intros handled.
  assert (Hend : forall b : Adapter, keeps demanded (settle_shutter desired;; mret (b, TransContinue))).
  { intros b. apply keeps_bind; [apply demanded_settle|]. intros ?. apply keeps_mret. }
  apply keeps_if; [|apply Hend]. apply keeps_bind; [apply keeps_if; [apply demanded_falling|apply keeps_mret]|]. intros r.
  apply keeps_if; [apply keeps_mret|]. apply keeps_if; [|apply Hend]. apply keeps_bind; [apply demanded_rising|]. intros r'.
  apply keeps_if; [apply Hend|apply keeps_mret].
Qed.

Lemma demanded_do_reconnect retries cfg a : keeps demanded (do_reconnect retries cfg a).
Proof.
  apply keeps_bind; [|intros; apply keeps_mret]. apply keeps_bind; [apply keeps_get|]. intros swap.
  destruct (reconnect_policy cfg) as [policy|]; [|apply keeps_mret]. apply keeps_bind; [by apply demanded_log|]. intros ?.
  apply keeps_bind; [apply keeps_reconnect_backend, demanded_reconnect|]. intros [[info k]|exit]; [|apply keeps_mret].
  apply keeps_bind; [apply keeps_set_bounds, demanded_reconnect|]. intros b. apply keeps_if.
  { apply keeps_bind; [apply keeps_candidate_close, demanded_reconnect|]. intros ?. apply keeps_mret. }
  apply keeps_bind; [apply keeps_modify; intros w Hw; by apply (demanded_event (set_dev k w))|]. intros ?.
  apply keeps_bind; [by apply keeps_modify|]. intros ?. apply keeps_bind; [by apply keeps_modify|]. intros ?.
  apply keeps_bind; [by apply keeps_now_ok|]. intros now. apply keeps_bind; [by apply keeps_modify|]. intros ?.
  apply keeps_bind; [apply demanded_src; intros s Hs; by apply reconnect_wf|]. intros ?.
  apply keeps_bind; [apply keeps_if; [by apply demanded_src|apply keeps_mret]|]. intros ?.
  apply keeps_bind; [by apply keeps_now_ok|]. intros ?. apply keeps_mret.
Qed.

Lemma demanded_do_stop (a : Adapter) : keeps demanded (do_stop a).
Proof. apply keeps_bind; [|intros; apply keeps_mret]. apply keeps_bind; [apply demanded_close|]. intros ?. apply keeps_mret. Qed.

Lemma demanded_drain c timeout a : keeps demanded (drain_and_blank sentinel_instant c timeout a).
Proof.
  assert (Hblank : keeps demanded (blank_and_close_shutter c)).
  { apply keeps_bind; [by apply keeps_close_shutter|]. intros ?. apply keeps_bind; [|intros; apply keeps_mret]. by apply demanded_cmd. }
  assert (Hdrain : keeps demanded (drain_via_estimator sentinel_instant c timeout)) by (by apply keeps_drain_via_estimator).
  destruct a; cbn [drain_and_blank]; [by apply keeps_bind|by apply keeps_bind| |done].
  apply keeps_bind; [done|]. intros ?. apply keeps_bind; [by apply demanded_cmd|done].
Qed.

Lemma demanded_check_ended cfg c (a : Adapter) : keeps demanded (check_ended cfg c a).
Proof.
  apply keeps_bind; [apply keeps_get|]. intros ended. apply keeps_if; [apply keeps_mret|]. apply keeps_bind.
  { intros w (HU & Hs & HC). unfold so_take_stop_error. destruct (w_src w) as [s|s] eqn:Hsrc; [|by split_and!].
    unfold src_ok in Hs. rewrite Hsrc in Hs. destruct (lifecycle_wf s Hs) as (_ & _ & _ & _ & _ & Ht).
    destruct (take_stop_error s) as [s' e]. by split_and!. }
  intros [e|]; (apply keeps_bind; [|intros; apply keeps_mret]); [apply demanded_close|apply demanded_drain].
Qed.

Lemma demanded_body retries spin cfg a : keeps demanded (loop_body retries spin cfg a).
Proof.
  apply keeps_bind; [by apply keeps_load_ok|]. intros stopped. apply keeps_if; [apply demanded_do_stop|].
  apply keeps_bind; [by apply keeps_load_ok|]. intros pps. apply keeps_bind; [by apply keeps_load_ok|]. intros delay.
  apply keeps_bind; [apply demanded_src; intros s Hs; by apply (lifecycle_wf s Hs)|]. intros ?. apply keeps_bind.
  { intros w Hw. unfold take_frame. cbv zeta. apply demanded_tick in Hw. destruct (w_frame_slot (tick w)) as [[fr|]|]; [|done..].
    destruct Hw as (HU & Hs & HC). split; [done|]. split; [|done]. unfold src_ok in *. simpl.
    destruct (w_src (tick w)) as [s|s]; simpl; [by apply (lifecycle_wf s Hs)|done]. }
  intros ?. apply keeps_bind; [apply keeps_get|]. intros connected. apply keeps_if; [apply demanded_do_reconnect|].
  apply keeps_bind; [by apply keeps_process|]. intros action.
  assert (Hstep : keeps demanded (transition_and_step retries spin cfg pps a)).
  { apply keeps_bind; [apply demanded_transition|]. intros [a' [|]]; [|apply demanded_do_reconnect]. cbn [snd fst].
    apply keeps_bind; [by apply keeps_load_ok|]. intros is_armed. cbv zeta.
    apply keeps_bind; [apply adapter_step_keeps, demanded_adapter|].
    intros [a'' [| | |]]; cbn [snd fst]; [apply demanded_check_ended..|apply demanded_do_stop|apply demanded_do_reconnect]. }
  destruct action; [exact Hstep|exact Hstep|apply demanded_do_stop].
Qed.

Lemma run_demanded fuel retries spin cfg : keeps demanded (run fuel retries spin cfg).
Proof.
  apply keeps_bind.
  - apply keeps_bind; [apply keeps_get|]. intros frame. apply keeps_bind; [by apply keeps_now_ok|]. intros now.
    apply keeps_bind; [apply keeps_get|]. intros k. destruct (for_backend now k frame) as [a|e].
    + apply keeps_bind; [by apply keeps_modify|]. intros ?. revert a. induction fuel as [|fuel IH]; intros a; [apply keeps_no_fuel|].
      cbn [run_loop_from]. apply keeps_bind; [apply demanded_body|]. intros [a' [res|]]; [apply keeps_mret|apply IH].
    + apply keeps_bind; [by apply demanded_cmd|]. intros ?. apply keeps_bind; [by apply keeps_disconnect_device|]. intros ?. apply keeps_mret.
  - intros r. apply keeps_bind; [|intros; apply keeps_mret]. apply keeps_bind; [apply keeps_get|]. intros connected.
    apply keeps_if; [|apply keeps_mret]. apply keeps_bind; [by apply demanded_cmd|]. intros ?. by apply keeps_disconnect_device.
Qed.
End demanded.

(** A run only adds to the trace. *)
Lemma run_extends fuel retries spin cfg w : src_ok w -> w_trace w `prefix_of` w_trace (final (run fuel retries spin cfg w)).
Proof.
  intros Hs. apply (run_demanded (fun tr => w_trace w `prefix_of` tr) (fun _ _ => True)); try done.
  - intros tr e _ Hp. by apply prefix_app_r.
  - intros c env tr ok _ _ Hp. by apply prefix_app_r.
Qed.

(** Nobody asks for light: the session is disarmed, and no call arms it. *)
Definition unarmed (env : list interference) : Prop := Forall (fun i => CtlArm ∉ i_ops i) env.

Lemma unarmed_run ops : forall c, CtlArm ∉ ops -> control_is_armed c = false -> control_is_armed (ctl_run ops c) = false.
Proof.
  induction ops as [|op ops IH]; intros c Hn Hc; [done|]. apply not_elem_of_cons in Hn as [Hop Hn]. apply IH; [done|].
  destruct op; [done| | | |exact Hc].
  - unfold ctl_step, disarm, set_desired_armed, control_is_armed in *. simpl. rewrite desired_is_armed_odd in Hc. rewrite set_armed_word_eq.
    rewrite Hc. unfold send_msg. destruct (receiver_alive _); simpl; rewrite desired_is_armed_odd; exact Hc.
  - unfold ctl_step, stop, send_msg, control_is_armed in *. simpl. repeat case_match; exact Hc.
  - unfold ctl_step, set_pps, control_is_armed in *. destruct (_ || _); exact Hc.
Qed.

Lemma run_unarmed fuel retries spin cfg w :
  src_ok w -> control_is_armed (w_ctl w) = false -> unarmed (w_env w) -> opens (w_trace w) = [] ->
  opens (w_trace (final (run fuel retries spin cfg w))) = [].
Proof.
  intros Hs Hc He Ht.
  apply (run_demanded (fun tr => opens tr = []) (fun c env => control_is_armed c = false /\ unarmed env)); [| | | | |by split_and!].
  - intros tr e Ho Htr. unfold opens in *. rewrite filter_app, Htr, filter_cons_False by (by rewrite Ho). done.
  - intros c env tr ok [Hd _] Hd'. congruence.
  - intros c i env [Hd [Hi Henv]%Forall_cons]. split; [by apply unarmed_run|done].
  - done.
  - done.
Qed.

(** ** Theorems *)

(** C1. The shutter opens only after a complete preparation: in every session,
    for every backend, source, adapter, reconnect history and interleaving of
    control calls (fewer than 2^63 of them), and at every point of the run, each
    open command was issued after the source was armed and the device buffer
    then reset successfully, with no disarm and no change of device in between. *)
Theorem opens_only_when_prepared fuel retries spin cfg w :
  w_trace w = [] -> src_ok w -> in_u 64 (desired_state (w_ctl w)) -> env_ops (w_env w) < 2 ^ 63 ->
  trace_phase (w_trace (final (run fuel retries spin cfg w))) <> None.
Proof.
  intros Ht Hs Hu Hb. pose proof (run_spec fuel retries spin cfg w) as Hr.
  assert (Hw : holds base w) by (split; [unfold base; by rewrite Ht|done]).
  specialize (Hr Hw). destruct (run fuel retries spin cfg w); apply Hr.
Qed.

(** C9. No exit leaves the laser on: whenever a session ends, with a result or
    an error, either the last shutter command to its device was a close, or the
    device had been given up as lost, or it never opened; the only other case is
    the exit that reports the device as disconnected without a reconnect policy. *)
Theorem exit_leaves_shutter_closed fuel retries spin cfg w r w' :
  w_trace w = [] -> run fuel retries spin cfg w = Ret r w' ->
  r = Ok ExitDisconnected \/ lit (w_trace w') = false.
Proof.
  intros Ht Hrun. pose proof (run_dark fuel retries spin cfg) as Ha.
  specialize (Ha w). rewrite Hrun in Ha. apply Ha. unfold dark. by rewrite Ht.
Qed.

(** A pass of the shutter logic ends open only for the current generation:
    it always completes, and if the driver believes the shutter open afterwards
    then the handled state is armed, and either the desired word is still that
    very generation, or the shutter was open already and an edge arrived during
    the pass (which the next pass handles).  In particular a pass that reads a
    disarmed word never ends open. *)
Theorem transition_ends_open_only_if_current a pps w :
  (w_shutter w = Open_ -> desired_is_armed (w_handled w) = true) ->
  exists r w', handle_shutter_transition a pps w = Ret r w' /\
    (w_shutter w' = Open_ ->
       desired_is_armed (w_handled w') = true /\
       (desired_state (w_ctl w') = w_handled w' \/ w_shutter w = Open_ /\ w_handled w' = w_handled w)).
Proof.
  intros Hinv.
  set (post := fun (r : Adapter * TransitionOutcome) (w' : World) =>
    w_shutter w' = Open_ -> desired_is_armed (w_handled w') = true /\
       (desired_state (w_ctl w') = w_handled w' \/ w_shutter w = Open_ /\ w_handled w' = w_handled w)).
  assert (Hsettle : forall D (b : Adapter) v, w_handled v = D ->
            (w_shutter v = Open_ -> w_shutter w = Open_ /\ D = w_handled w) ->
            match (settle_shutter D;; mret (b, TransContinue)) v with Ret r w' => post r w' | _ => False end).
  { intros D b v Hh Hst. pose proof (settle_shutter_state D (w_shutter v) v (conj eq_refl Hh)) as Hs.
    unfold mbind, M_bind. destruct (settle_shutter D v) as [u w'|w'|w']; [|done..]. destruct Hs as [Hh' Hs]. intros Ho.
    destruct (Hs Ho) as [Har [Hd|Hso]]; rewrite Hh'; naive_solver. }
  enough (Htot : total (shutter_handled (fun st h => st = w_shutter w /\ h = w_handled w)) (handle_shutter_transition a pps) post).
  { specialize (Htot w (conj eq_refl eq_refl)). destruct (handle_shutter_transition a pps w) as [r w'|w'|w']; [|done..].
    by exists r, w'. }
  eapply total_bind; [apply frame_load|]. intros D. eapply total_bind; [apply total_get|]. intros handled.
  destruct (Z.eqb_spec D handled) as [He|Hne]; simpl negb; cbv iota.
  { intros v [[[Hst Hh] _] Hhd]. apply Hsettle; simpl in *; [congruence|]. intros Ho. split; congruence. }
  eapply total_bind with (Q := fun r v => (w_shutter v <> Open_ /\ w_handled v = D \/ desired_is_armed D = true /\ w_shutter v <> Open_)).
  - destruct (desired_is_armed handled || _) eqn:Hc.
    + eapply total_weaken; [apply falling_shutter|done|]. intros r v [? ?]. by left.
    + apply total_ret. intros v [[[Hst Hh] _] Hhd]. apply orb_false_iff in Hc as [Hc1 Hc2]. right.
      split; [by destruct (desired_is_armed D)|]. simpl in *. rewrite Hst. intros Ho. specialize (Hinv Ho). congruence.
  - intros [b [|]]; cbn [snd fst].
    + apply total_ret. intros v Hv Ho. naive_solver.
    + destruct (desired_is_armed D) eqn:Har.
      * intros v Hv. assert (Hno : w_shutter v <> Open_) by naive_solver.
        pose proof (rising_shutter D pps b (w_shutter v) v eq_refl) as Hr. unfold mbind at 1, M_bind at 1.
        destruct (rising D pps b v) as [[b' ok] v'|v'|v']; [|done..]. unfold shutter_handled in Hr. cbn [snd fst] in *.
        destruct ok; [|by intros Ho]. destruct Hr as [Hr1 Hr2]. apply Hsettle; [done|]. congruence.
      * intros v [[Hno Hh]|[? _]]; [|done]. apply Hsettle; [done|]. congruence.
Qed.
End safety.
End driver.

(** ** Witnesses *)
Import Demo.

Definition demo_config : @DriverConfig demo_device demo_device := mkConfig None (fun _ _ _ => None) (millis 1) 0.

(** An armed session that is stopped after a while. *)
Definition demo_session : World demo_device demo_device (ChunkProducer bool) unit :=
  demo_world demo_control (replicate 30 (mkInterference [] None 1000000) ++ [mkInterference [CtlStop] None 0]).

Lemma opens_only_when_prepared_witness :
  let w' := final (run 0 20 1 0 demo_config demo_session) in
  length (opens (w_trace w')) = 1%nat /\ trace_phase (w_trace w') <> None.
Proof.
  split; [vm_compute; reflexivity|].
  apply (opens_only_when_prepared 0 20 1 0 demo_config demo_session);
    [reflexivity|apply demo_src_ok|vm_compute; split; discriminate|vm_compute; reflexivity].
Defined.

Lemma exit_leaves_shutter_closed_witness :
  exists w', run 0 20 1 0 demo_config demo_session = Ret (Ok ExitStopped) w' /\ lit (w_trace w') = false.
Proof.
  exists (final (run 0 20 1 0 demo_config demo_session)).
  assert (Hr : run 0 20 1 0 demo_config demo_session = Ret (Ok ExitStopped) (final (run 0 20 1 0 demo_config demo_session)))
    by (vm_compute; reflexivity).
  split; [exact Hr|].
  destruct (exit_leaves_shutter_closed 0 20 1 0 demo_config demo_session _ _ eq_refl Hr) as [Hd|Hd];
    [discriminate Hd|exact Hd].
Defined.

(** Disarmed and armed again while the driver is in the middle of a pass. *)
Lemma transition_ends_open_only_if_current_witness :
  let w := demo_world demo_control [mkInterference [] None 0; mkInterference [] None 0; mkInterference [CtlDisarm] None 0] in
  exists r w', handle_shutter_transition (ANetwork (mkNetworkFifo 1000 None)) 30000 w = Ret r w' /\
    (w_shutter w' = Open_ ->
       desired_is_armed (w_handled w') = true /\
       (desired_state (w_ctl w') = w_handled w' \/ w_shutter w = Open_ /\ w_handled w' = w_handled w)).
Proof.
  apply (transition_ends_open_only_if_current (ANetwork (mkNetworkFifo 1000 None)) 30000
    (demo_world demo_control [mkInterference [] None 0; mkInterference [] None 0; mkInterference [CtlDisarm] None 0])).
  discriminate.
Defined.
