(* ===== verification/Bytes.v ===== *)
(** * Byte streams

    The reading and writing of little- and big-endian integers the wire protocols
    use.  The [byteorder] crate is a parameter: [ByteOrder] holds its functions
    with the behaviour its documentation promises, and [stdlib_byte_order] shows
    the promise can be kept.  [be_bytes] and [be_value] are also the standard
    library's [to_be_bytes] and [from_be_bytes].  A byte is a [Z] in [0 .. 255]. *)

From S2P Require Import Prelude.

(** ** Bit fields *)

Lemma testbit_small n v i : 0 <= n <= i -> 0 <= v < 2 ^ n -> Z.testbit v i = false.
Proof. intros Hi Hv. rewrite <- (Z.mod_small v (2 ^ n)) by done. apply Z.mod_pow2_bits_high. lia. Qed.

Lemma lor_disjoint hi lo n : 0 <= n -> 0 <= lo < 2 ^ n -> Z.lor (hi * 2 ^ n) lo = hi * 2 ^ n + lo.
Proof.
  intros Hn Hl. assert (Hd : Z.land (hi * 2 ^ n) lo = 0).
  { apply Z.bits_inj'. intros i Hi. rewrite Z.land_spec, Z.bits_0, <- Z.shiftl_mul_pow2 by lia.
    destruct (Z.lt_ge_cases i n); [by rewrite Z.shiftl_spec_low|].
    by rewrite (testbit_small n lo), andb_false_r by lia. }
  by rewrite <- Z.lxor_lor, <- Z.add_nocarry_lxor.
Qed.

Lemma lor_range n a b : 0 <= n -> 0 <= a < 2 ^ n -> 0 <= b < 2 ^ n -> 0 <= Z.lor a b < 2 ^ n.
Proof.
  intros Hn Ha Hb. assert (0 <= Z.lor a b) by (apply Z.lor_nonneg; lia). split; [done|].
  destruct (Z.eq_dec a 0) as [->|Ha0]; [rewrite Z.lor_0_l; lia|]. destruct (Z.eq_dec b 0) as [->|Hb0]; [rewrite Z.lor_0_r; lia|].
  assert (Z.log2 a < n) by (apply Z.log2_lt_pow2; lia). assert (Z.log2 b < n) by (apply Z.log2_lt_pow2; lia).
  assert (Hz : Z.lor a b <> 0) by (intros Hz; apply Z.lor_eq_0_iff in Hz; lia).
  apply Z.log2_lt_pow2; [lia|]. rewrite Z.log2_lor by lia. lia.
Qed.

(** ** Little-endian representations *)
Fixpoint le_bytes (n : nat) (v : Z) : list Z :=
  match n with
  | O => []
  | S n => v mod 256 :: le_bytes n (v / 256)
  end.

Fixpoint le_value (bs : list Z) : Z :=
  match bs with
  | [] => 0
  | b :: bs => b + 256 * le_value bs
  end.

(** ** Big-endian representations *)
Definition be_bytes (n : nat) (v : Z) : list Z := rev (le_bytes n v).

Definition be_value (bs : list Z) : Z := le_value (rev bs).

(** [write_u8/u16/u32] of an [n]-byte unsigned integer in either order, and the
    read of one from the front of a stream ([None]: unexpected end of file). *)
Class ByteOrder := {
  write_le : nat -> Z -> list Z;
  read_le : nat -> list Z -> option (Z * list Z);
  write_be : nat -> Z -> list Z;
  read_be : nat -> list Z -> option (Z * list Z);
  write_le_spec n v : write_le n v = le_bytes n v;
  read_le_spec n bs : read_le n bs = if decide (n <= length bs)%nat then Some (le_value (take n bs), drop n bs) else None;
  write_be_spec n v : write_be n v = be_bytes n v;
  read_be_spec n bs : read_be n bs = if decide (n <= length bs)%nat then Some (be_value (take n bs), drop n bs) else None;
}.

#[export] Instance stdlib_byte_order : ByteOrder := {
  write_le := le_bytes;
  read_le n bs := if decide (n <= length bs)%nat then Some (le_value (take n bs), drop n bs) else None;
  write_be := be_bytes;
  read_be n bs := if decide (n <= length bs)%nat then Some (be_value (take n bs), drop n bs) else None;
  write_le_spec _ _ := eq_refl;
  read_le_spec _ _ := eq_refl;
  write_be_spec _ _ := eq_refl;
  read_be_spec _ _ := eq_refl;
}.

(** ** Readers *)

Inductive io_error :=
  | UnexpectedEof
  | InvalidData
  | InvalidInput.

#[export] Instance io_error_eq_dec : EqDecision io_error.
Proof. solve_decision. Defined.

Inductive io_result (A : Type) :=
  | IoOk (a : A)
  | IoErr (e : io_error).
Arguments IoOk {A} a.
Arguments IoErr {A} e.

(** A reader consumes a prefix of the stream. *)
Definition reader (A : Type) : Type := list Z -> io_result (A * list Z).

#[export] Instance reader_ret : MRet reader := fun A a bs => IoOk (a, bs).

#[export] Instance reader_bind : MBind reader := fun A B k m bs =>
  match m bs with IoOk (a, bs) => k a bs | IoErr e => IoErr e end.

Definition fail {A} (e : io_error) : reader A := fun _ => IoErr e.

Section bytes.
Context `{ByteOrder}.

Definition read_uint (n : nat) : reader Z := fun bs =>
  match read_le n bs with Some r => IoOk r | None => IoErr UnexpectedEof end.

Definition read_u8 : reader Z := read_uint 1.
Definition read_u16 : reader Z := read_uint 2.
Definition read_u32 : reader Z := read_uint 4.

(** [LittleEndian::read_u16(&buffer[i..i + 2])] and the like: the slices are in
    range where they are read. *)
Definition le_at (n i : nat) (buffer : list Z) : Z :=
  match read_le n (drop i buffer) with Some (v, _) => v | None => 0 end.

(** [read_i16]: two's complement. *)
Definition read_i16 : reader Z := v ← read_u16; mret (wraps 16 v).

Definition write_u8 (v : Z) : list Z := write_le 1 v.
Definition write_u16 (v : Z) : list Z := write_le 2 v.
Definition write_u32 (v : Z) : list Z := write_le 4 v.
Definition write_i16 (v : Z) : list Z := write_le 2 (wrapu 16 v).

(** The big-endian and signed 8-bit fields. *)
Definition read_uint_be (n : nat) : reader Z := fun bs =>
  match read_be n bs with Some r => IoOk r | None => IoErr UnexpectedEof end.

Definition read_u16_be : reader Z := read_uint_be 2.
Definition read_u32_be : reader Z := read_uint_be 4.
Definition read_i8 : reader Z := v ← read_u8; mret (wraps 8 v).
Definition read_i16_be : reader Z := v ← read_u16_be; mret (wraps 16 v).

Definition write_u16_be (v : Z) : list Z := write_be 2 v.
Definition write_u32_be (v : Z) : list Z := write_be 4 v.
Definition write_i8 (v : Z) : list Z := write_u8 (wrapu 8 v).
Definition write_i16_be (v : Z) : list Z := write_be 2 (wrapu 16 v).

(** [for byte in &mut buf { *byte = reader.read_u8()?; }] over [n] bytes. *)
Fixpoint read_array (n : nat) : reader (list Z) :=
  match n with
  | O => mret []
  | S n => b ← read_u8; bs ← read_array n; mret (b :: bs)
  end.

Definition write_array (bs : list Z) : list Z := mjoin (write_u8 <$> bs).

(** ** Laws *)

Lemma le_bytes_length n v : length (le_bytes n v) = n.
Proof. revert v. induction n as [|n IH]; intros v; simpl; [done|]. by rewrite IH. Qed.

Lemma le_value_bytes n v : le_value (le_bytes n v) = v mod 256 ^ Z.of_nat n.
Proof.
  revert v. induction n as [|n IH]; intros v; simpl.
  - by rewrite Z.mod_1_r.
  - rewrite IH. replace (Z.of_nat (S n)) with (Z.of_nat n + 1) by lia.
    rewrite Z.pow_add_r, Z.mul_comm by lia. change (256 ^ 1) with 256.
    pose proof (Z.pow_pos_nonneg 256 (Z.of_nat n)). rewrite (Z.mul_comm (256 ^ _)), Z.rem_mul_r by lia. lia.
Qed.

Lemma le_bytes_byte n v : Forall (fun b => 0 <= b < 256) (le_bytes n v).
Proof. revert v. induction n as [|n IH]; intros v; simpl; constructor; [apply Z.mod_pos_bound; lia|done]. Qed.

Lemma read_uint_write n v rest : 0 <= v < 256 ^ Z.of_nat n -> read_uint n (write_le n v ++ rest) = IoOk (v, rest).
Proof.
  intros Hv. unfold read_uint. rewrite read_le_spec, write_le_spec.
  rewrite decide_True by (rewrite length_app, le_bytes_length; lia).
  rewrite take_app_length', drop_app_length' by (by rewrite le_bytes_length).
  by rewrite le_value_bytes, Z.mod_small.
Qed.

Lemma read_u8_write v rest : 0 <= v < 2 ^ 8 -> read_u8 (write_u8 v ++ rest) = IoOk (v, rest).
Proof. intros. by apply read_uint_write. Qed.

Lemma read_u16_write v rest : 0 <= v < 2 ^ 16 -> read_u16 (write_u16 v ++ rest) = IoOk (v, rest).
Proof. intros. by apply read_uint_write. Qed.

Lemma read_u32_write v rest : 0 <= v < 2 ^ 32 -> read_u32 (write_u32 v ++ rest) = IoOk (v, rest).
Proof. intros. by apply read_uint_write. Qed.

Lemma wraps_wrapu_at w v : in_s w v -> 1 <= w -> wraps w (wrapu w v) = v.
Proof.
  unfold in_s, wraps, wrapu. intros Hv Hw. rewrite Zplus_mod_idemp_l.
  assert (2 ^ w = 2 * 2 ^ (w - 1)) by (rewrite <- Z.pow_succ_r by lia; f_equal; lia).
  rewrite Z.mod_small; lia.
Qed.

Lemma wraps_wrapu v : in_s 16 v -> wraps 16 (wrapu 16 v) = v.
Proof. intros. by apply wraps_wrapu_at. Qed.

Lemma read_i16_write v rest : in_s 16 v -> read_i16 (write_i16 v ++ rest) = IoOk (v, rest).
Proof.
  intros Hv. unfold read_i16, mbind, reader_bind. change (write_i16 v) with (write_u16 (wrapu 16 v)).
  rewrite read_u16_write by (apply Z.mod_pos_bound; lia). unfold mret, reader_ret. by rewrite wraps_wrapu.
Qed.

Lemma write_le_length n v : length (write_le n v) = n.
Proof. rewrite write_le_spec. apply le_bytes_length. Qed.

Lemma be_bytes_length n v : length (be_bytes n v) = n.
Proof. unfold be_bytes. rewrite length_rev. apply le_bytes_length. Qed.

Lemma be_value_bytes n v : be_value (be_bytes n v) = v mod 256 ^ Z.of_nat n.
Proof. unfold be_value, be_bytes. rewrite rev_involutive. apply le_value_bytes. Qed.

Lemma write_be_length n v : length (write_be n v) = n.
Proof. rewrite write_be_spec. apply be_bytes_length. Qed.

Lemma read_uint_be_write n v rest : 0 <= v < 256 ^ Z.of_nat n -> read_uint_be n (write_be n v ++ rest) = IoOk (v, rest).
Proof.
  intros Hv. unfold read_uint_be. rewrite read_be_spec, write_be_spec.
  rewrite decide_True by (rewrite length_app, be_bytes_length; lia).
  rewrite take_app_length', drop_app_length' by (by rewrite be_bytes_length).
  by rewrite be_value_bytes, Z.mod_small.
Qed.

Lemma read_u16_be_write v rest : 0 <= v < 2 ^ 16 -> read_u16_be (write_u16_be v ++ rest) = IoOk (v, rest).
Proof. intros. by apply read_uint_be_write. Qed.

Lemma read_u32_be_write v rest : 0 <= v < 2 ^ 32 -> read_u32_be (write_u32_be v ++ rest) = IoOk (v, rest).
Proof. intros. by apply read_uint_be_write. Qed.

Lemma read_i8_write v rest : in_s 8 v -> read_i8 (write_i8 v ++ rest) = IoOk (v, rest).
Proof.
  intros Hv. unfold read_i8, write_i8, mbind, reader_bind.
  rewrite read_u8_write by (apply Z.mod_pos_bound; lia). unfold mret, reader_ret. by rewrite wraps_wrapu_at.
Qed.

Lemma read_i16_be_write v rest : in_s 16 v -> read_i16_be (write_i16_be v ++ rest) = IoOk (v, rest).
Proof.
  intros Hv. unfold read_i16_be, mbind, reader_bind. change (write_i16_be v) with (write_u16_be (wrapu 16 v)).
  rewrite read_u16_be_write by (apply Z.mod_pos_bound; lia). unfold mret, reader_ret. by rewrite wraps_wrapu.
Qed.

Lemma read_array_write bs rest :
  Forall (fun b => 0 <= b < 2 ^ 8) bs -> read_array (length bs) (write_array bs ++ rest) = IoOk (bs, rest).
Proof.
  induction 1 as [|b bs Hb _ IH]; [done|]. cbn [length read_array]. unfold write_array in *. rewrite fmap_cons.
  change (mjoin (?x :: ?xs)) with (x ++ mjoin xs). rewrite <- app_assoc.
  unfold mbind, reader_bind. rewrite read_u8_write by done. cbv beta iota. by rewrite IH.
Qed.

Lemma read_array_back n bs rest :
  length bs = n -> Forall (fun b => 0 <= b < 2 ^ 8) bs -> read_array n (write_array bs ++ rest) = IoOk (bs, rest).
Proof. intros <-. apply read_array_write. Qed.

(** Writing a byte is that byte. *)
Lemma write_u8_byte b : 0 <= b < 2 ^ 8 -> write_u8 b = [b].
Proof. intros Hb. unfold write_u8. rewrite write_le_spec. simpl. by rewrite Z.mod_small. Qed.

Lemma write_array_bytes bs : Forall (fun b => 0 <= b < 2 ^ 8) bs -> write_array bs = bs.
Proof.
  induction 1 as [|b bs Hb _ IH]; [done|]. unfold write_array in *. rewrite fmap_cons.
  change (mjoin (?x :: ?xs)) with (x ++ mjoin xs). by rewrite write_u8_byte, IH.
Qed.

(** ** Soundness: a successful read consumed exactly the encoding of its result *)

Definition bytes (bs : list Z) : Prop := Forall (fun b => 0 <= b < 2 ^ 8) bs.

Lemma le_value_range bs : bytes bs -> 0 <= le_value bs < 256 ^ Z.of_nat (length bs).
Proof.
  induction 1 as [|b bs Hb _ IH]; [done|]. cbn [le_value length].
  replace (Z.of_nat (S (length bs))) with (Z.of_nat (length bs) + 1) by lia. rewrite Z.pow_add_r by lia. lia.
Qed.

Lemma le_bytes_value bs : bytes bs -> le_bytes (length bs) (le_value bs) = bs.
Proof.
  induction 1 as [|b bs Hb _ IH]; [done|]. cbn [length le_bytes le_value].
  rewrite (Z.mul_comm 256), Z_mod_plus_full, Z.div_add, Z.mod_small, Z.div_small by lia. by rewrite Z.add_0_l, IH.
Qed.

Lemma read_uint_sound n bs v rest :
  bytes bs -> read_uint n bs = IoOk (v, rest) -> 0 <= v < 256 ^ Z.of_nat n /\ bs = write_le n v ++ rest /\ bytes rest.
Proof.
  intros Hbs. unfold read_uint. rewrite read_le_spec. case_decide as Hl; [|done]. intros [= <- <-].
  assert (Ht : bytes (take n bs)) by by apply Forall_take.
  pose proof (le_value_range _ Ht) as Hv. pose proof (le_bytes_value _ Ht) as Hb.
  rewrite length_take_le in Hv, Hb by done. rewrite write_le_spec, Hb, take_drop. split; [done|]. split; [done|]. by apply Forall_drop.
Qed.

Lemma read_uint_be_sound n bs v rest :
  bytes bs -> read_uint_be n bs = IoOk (v, rest) -> 0 <= v < 256 ^ Z.of_nat n /\ bs = write_be n v ++ rest /\ bytes rest.
Proof.
  intros Hbs. unfold read_uint_be. rewrite read_be_spec. case_decide as Hl; [|done]. intros [= <- <-].
  assert (Ht : bytes (rev (take n bs))) by (apply Forall_rev; by apply Forall_take).
  pose proof (le_value_range _ Ht) as Hv. pose proof (le_bytes_value _ Ht) as Hb.
  rewrite length_rev, length_take_le in Hv, Hb by done.
  unfold be_value. rewrite write_be_spec. unfold be_bytes. rewrite Hb, rev_involutive, take_drop.
  split; [done|]. split; [done|]. by apply Forall_drop.
Qed.

Lemma bind_ok {A B} (m : reader A) (k : A -> reader B) bs b rest :
  (m ≫= k) bs = IoOk (b, rest) -> exists a mid, m bs = IoOk (a, mid) /\ k a mid = IoOk (b, rest).
Proof. unfold mbind, reader_bind. destruct (m bs) as [[a mid]|e]; [|done]. intros Hk. by exists a, mid. Qed.

Lemma wraps_range w v : 1 <= w -> in_s w (wraps w v).
Proof.
  intros Hw. unfold in_s, wraps. pose proof (Z.mod_pos_bound (v + 2 ^ (w - 1)) (2 ^ w) ltac:(apply Z.pow_pos_nonneg; lia)).
  assert (2 ^ w = 2 * 2 ^ (w - 1)) by (rewrite <- Z.pow_succ_r by lia; f_equal; lia). lia.
Qed.

Lemma wrapu_wraps w v : 1 <= w -> 0 <= v < 2 ^ w -> wrapu w (wraps w v) = v.
Proof.
  intros Hw Hv. unfold wrapu, wraps. rewrite Zminus_mod_idemp_l. rewrite Z.add_simpl_r. by apply Z.mod_small.
Qed.

Lemma read_u8_sound bs v rest :
  bytes bs -> read_u8 bs = IoOk (v, rest) -> 0 <= v < 2 ^ 8 /\ bs = write_u8 v ++ rest /\ bytes rest.
Proof. apply (read_uint_sound 1). Qed.

Lemma read_u16_be_sound bs v rest :
  bytes bs -> read_u16_be bs = IoOk (v, rest) -> 0 <= v < 2 ^ 16 /\ bs = write_u16_be v ++ rest /\ bytes rest.
Proof. apply (read_uint_be_sound 2). Qed.

Lemma read_u32_be_sound bs v rest :
  bytes bs -> read_u32_be bs = IoOk (v, rest) -> 0 <= v < 2 ^ 32 /\ bs = write_u32_be v ++ rest /\ bytes rest.
Proof. apply (read_uint_be_sound 4). Qed.

Lemma read_i8_sound bs v rest :
  bytes bs -> read_i8 bs = IoOk (v, rest) -> in_s 8 v /\ bs = write_i8 v ++ rest /\ bytes rest.
Proof.
  intros Hbs (u & mid & (Hu & -> & Hm)%read_u8_sound & [= <- <-])%bind_ok; [|done].
  split; [by apply wraps_range|]. unfold write_i8. by rewrite wrapu_wraps.
Qed.

Lemma read_i16_be_sound bs v rest :
  bytes bs -> read_i16_be bs = IoOk (v, rest) -> in_s 16 v /\ bs = write_i16_be v ++ rest /\ bytes rest.
Proof.
  intros Hbs (u & mid & (Hu & -> & Hm)%read_u16_be_sound & [= <- <-])%bind_ok; [|done].
  split; [by apply wraps_range|]. unfold write_i16_be. by rewrite wrapu_wraps.
Qed.

Lemma read_array_sound n bs v rest :
  bytes bs -> read_array n bs = IoOk (v, rest) -> (length v = n /\ bytes v) /\ bs = write_array v ++ rest /\ bytes rest.
Proof.
  revert bs v. induction n as [|n IH]; intros bs v Hbs; cbn [read_array].
  - intros [= <- <-]. split; [split; [done|constructor]|done].
  - intros (b & mid & (Hb & -> & Hm)%read_u8_sound & (l & mid' & Hl & [= <- <-])%bind_ok)%bind_ok; [|done].
    apply IH in Hl as ([Hl Hv] & -> & Hr); [|done]. unfold write_array in *. rewrite fmap_cons.
    change (mjoin (?x :: ?xs)) with (x ++ mjoin xs). rewrite <- app_assoc. split; [|done]. cbn [length]. split; [by f_equal|by constructor].
Qed.

(** A short stream ends early. *)
Lemma read_uint_be_short n bs : (length bs < n)%nat -> read_uint_be n bs = IoErr UnexpectedEof.
Proof. intros Hl. unfold read_uint_be. rewrite read_be_spec. by rewrite decide_False by lia. Qed.

Lemma read_uint_short n bs : (length bs < n)%nat -> read_uint n bs = IoErr UnexpectedEof.
Proof. intros Hl. unfold read_uint. rewrite read_le_spec. by rewrite decide_False by lia. Qed.

Lemma write_u8_length v : length (write_u8 v) = 1%nat.
Proof. apply write_le_length. Qed.

Lemma write_u16_be_length v : length (write_u16_be v) = 2%nat.
Proof. apply write_be_length. Qed.

Lemma write_u32_be_length v : length (write_u32_be v) = 4%nat.
Proof. apply write_be_length. Qed.

Lemma write_i8_length v : length (write_i8 v) = 1%nat.
Proof. apply write_le_length. Qed.

Lemma write_i16_be_length v : length (write_i16_be v) = 2%nat.
Proof. apply write_be_length. Qed.

Lemma write_array_length bs : length (write_array bs) = length bs.
Proof.
  induction bs as [|b bs IH]; [done|]. unfold write_array in *. rewrite fmap_cons.
  change (mjoin (?x :: ?xs)) with (x ++ mjoin xs). rewrite length_app, IH, write_u8_length. done.
Qed.
End bytes.

Create Rewrite HintDb wire_lengths.

#[export] Hint Rewrite @write_u8_length @write_u16_be_length @write_u32_be_length @write_i8_length
  @write_i16_be_length @write_array_length @length_app : wire_lengths.

Ltac in_range := first [assumption|split; assumption].

(** Read back, one field at a time, what was written in front of the stream. *)
Ltac read_fields :=
  rewrite <- ?app_assoc; unfold mbind, reader_bind;
  repeat (first [rewrite read_u8_write by in_range | rewrite read_u16_write by in_range
                |rewrite read_u32_write by in_range | rewrite read_i16_write by in_range
                |rewrite read_u16_be_write by in_range | rewrite read_u32_be_write by in_range
                |rewrite read_i8_write by in_range | rewrite read_i16_be_write by in_range
                |rewrite read_array_back by in_range]; cbv beta iota).

(** The converse: split a successful read [H] of several fields into the fields,
    their ranges and the bytes consumed. *)
Ltac invert_reads H :=
  lazymatch type of H with
  | _ = IoOk (_, _) =>
      let a := fresh "v" in let mid := fresh "mid" in let Hr := fresh "Hr" in
      apply bind_ok in H as (a & mid & Hr & H);
      first [apply read_u8_sound in Hr as (? & -> & ?); [|assumption]
            |apply read_u16_be_sound in Hr as (? & -> & ?); [|assumption]
            |apply read_u32_be_sound in Hr as (? & -> & ?); [|assumption]
            |apply read_i8_sound in Hr as (? & -> & ?); [|assumption]
            |apply read_i16_be_sound in Hr as (? & -> & ?); [|assumption]
            |apply read_array_sound in Hr as ([? ?] & -> & ?); [|assumption]];
      cbv beta in H; try invert_reads H
  end.
