(* ===== verification/Utf8.v ===== *)
(** * Strings on the wire

    The parts of the standard library's UTF-8 strings the protocols use: a string
    is the list of its characters (Unicode scalar values), [as_bytes] their
    encodings, [from_utf8] the strict decoder (overlong forms, surrogates and
    values above [0x10FFFF] are refused), [char_indices] the byte offset of each
    character. *)

From S2P Require Import Prelude.

Definition str : Type := list Z.

(** A Unicode scalar value, the range of [char]. *)
Definition is_char (c : Z) : bool := (0 <=? c) && (c <=? 0x10FFFF) && negb ((0xD800 <=? c) && (c <=? 0xDFFF)).

Definition is_str (s : str) : Prop := Forall (fun c => is_char c = true) s.

(** The encoding of one character. *)
Definition encode_char (c : Z) : list Z :=
  if c <? 0x80 then [c]
  else if c <? 0x800 then [0xC0 + c / 64; 0x80 + c mod 64]
  else if c <? 0x10000 then [0xE0 + c / 4096; 0x80 + c / 64 mod 64; 0x80 + c mod 64]
  else [0xF0 + c / 262144; 0x80 + c / 4096 mod 64; 0x80 + c / 64 mod 64; 0x80 + c mod 64].

Definition as_bytes (s : str) : list Z := mjoin (encode_char <$> s).

Definition is_cont (b : Z) : bool := (0x80 <=? b) && (b <=? 0xBF).

(** A decoded value is accepted when it needed this many bytes and is a [char]. *)
Definition accept (lo v : Z) (rest : list Z) : option (Z * list Z) :=
  if (lo <=? v) && is_char v then Some (v, rest) else None.

(** One character off the front. *)
Definition decode_char (bs : list Z) : option (Z * list Z) :=
  match bs with
  | [] => None
  | b0 :: rest =>
      if b0 <? 0x80 then Some (b0, rest)
      else if b0 <? 0xC0 then None
      else if b0 <? 0xE0 then
        match rest with
        | b1 :: rest => if is_cont b1 then accept 0x80 ((b0 - 0xC0) * 64 + (b1 - 0x80)) rest else None
        | _ => None
        end
      else if b0 <? 0xF0 then
        match rest with
        | b1 :: b2 :: rest =>
            if is_cont b1 && is_cont b2
            then accept 0x800 ((b0 - 0xE0) * 4096 + (b1 - 0x80) * 64 + (b2 - 0x80)) rest else None
        | _ => None
        end
      else if b0 <? 0xF8 then
        match rest with
        | b1 :: b2 :: b3 :: rest =>
            if is_cont b1 && is_cont b2 && is_cont b3
            then accept 0x10000 ((b0 - 0xF0) * 262144 + (b1 - 0x80) * 4096 + (b2 - 0x80) * 64 + (b3 - 0x80)) rest
            else None
        | _ => None
        end
      else None
  end.

(** [str::from_utf8]; every character takes a byte, so the length is enough fuel. *)
Fixpoint decode_all (fuel : nat) (bs : list Z) : option str :=
  match bs, fuel with
  | [], _ => Some []
  | _, O => None
  | _, S fuel => '(c, rest) ← decode_char bs; s ← decode_all fuel rest; Some (c :: s)
  end.

Definition from_utf8 (bs : list Z) : option str := decode_all (length bs) bs.

(** The second bytes a three- or four-byte lead allows. *)
Definition second_ok (b0 b1 : Z) : bool :=
  if b0 =? 0xE0 then (0xA0 <=? b1) && (b1 <=? 0xBF)
  else if b0 =? 0xED then (0x80 <=? b1) && (b1 <=? 0x9F)
  else if b0 =? 0xF0 then (0x90 <=? b1) && (b1 <=? 0xBF)
  else if b0 =? 0xF4 then (0x80 <=? b1) && (b1 <=? 0x8F)
  else is_cont b1.

(** The bytes one replacement character stands for: the longest start of a
    character, or one byte. *)
Definition invalid_len (bs : list Z) : nat :=
  match bs with
  | b0 :: b1 :: rest =>
      if (0xE0 <=? b0) && (b0 <=? 0xF4) && second_ok b0 b1 then
        match rest with
        | b2 :: _ => if (0xF0 <=? b0) && is_cont b2 then 3%nat else 2%nat
        | [] => 2%nat
        end
      else 1%nat
  | _ => 1%nat
  end.

(** [String::from_utf8_lossy]. *)
Fixpoint lossy_loop (fuel : nat) (bs : list Z) : str :=
  match fuel, bs with
  | O, _ | _, [] => []
  | S fuel, _ =>
      match decode_char bs with
      | Some (c, rest) => c :: lossy_loop fuel rest
      | None => 0xFFFD :: lossy_loop fuel (drop (invalid_len bs) bs)
      end
  end.

Definition from_utf8_lossy (bs : list Z) : str := lossy_loop (length bs) bs.

Lemma lossy_decode_all fuel bs s : decode_all fuel bs = Some s -> lossy_loop fuel bs = s.
Proof.
  revert bs s. induction fuel as [|fuel IH]; intros bs s; (destruct bs as [|b bs]; [by intros [= <-]|]); [done|]. cbn [decode_all lossy_loop].
  destruct (decode_char (b :: bs)) as [[c rest]|]; cbn [mbind option_bind]; [|done].
  destruct (decode_all fuel rest) as [s'|] eqn:Hd; cbn [mbind option_bind]; [|done]. intros [= <-]. f_equal. by apply IH.
Qed.

(** Valid text is decoded as it is. *)
Lemma lossy_valid bs s : from_utf8 bs = Some s -> from_utf8_lossy bs = s.
Proof. apply lossy_decode_all. Qed.

(** [char_indices]: the byte offsets of the characters. *)
Fixpoint char_offsets (at_ : nat) (s : str) : list nat :=
  match s with
  | [] => []
  | c :: s => at_ :: char_offsets (at_ + length (encode_char c)) s
  end.

Definition char_indices (s : str) : list nat := char_offsets 0 s.

(** ** Lemmas *)

Lemma is_char_spec c : is_char c = true <-> 0 <= c <= 0x10FFFF /\ ~ (0xD800 <= c <= 0xDFFF).
Proof.
  unfold is_char.
  destruct (Z.leb_spec 0 c), (Z.leb_spec c 0x10FFFF), (Z.leb_spec 0xD800 c), (Z.leb_spec c 0xDFFF); simpl; split; try done; lia.
Qed.

Lemma is_cont_mod v : is_cont (0x80 + v mod 64) = true.
Proof.
  pose proof (Z.mod_pos_bound v 64 ltac:(lia)). unfold is_cont.
  destruct (Z.leb_spec 0x80 (0x80 + v mod 64)), (Z.leb_spec (0x80 + v mod 64) 0xBF); simpl; lia.
Qed.

Lemma accept_char lo v rest : lo <= v -> is_char v = true -> accept lo v rest = Some (v, rest).
Proof. intros Hl Hc. unfold accept. rewrite Hc. destruct (Z.leb_spec lo v); [done|lia]. Qed.

(** Decide the comparisons of a decoded lead byte. *)
Ltac lead_byte := repeat match goal with |- context[?a <? ?b] => destruct (Z.ltb_spec a b); try lia end.

Lemma decode_encode c rest : is_char c = true -> decode_char (encode_char c ++ rest) = Some (c, rest).
Proof.
  intros Hc. pose proof Hc as Hr. apply is_char_spec in Hr as [Hr _]. unfold encode_char.
  destruct (Z.ltb_spec c 0x80); [|destruct (Z.ltb_spec c 0x800); [|destruct (Z.ltb_spec c 0x10000)]]; cbn [app decode_char].
  - lead_byte. done.
  - assert (0 <= c / 64 < 32) by (Z.to_euclidean_division_equations; lia). lead_byte. rewrite is_cont_mod.
    replace (_ + _) with c by (Z.to_euclidean_division_equations; lia). apply accept_char; [lia|done].
  - assert (0 <= c / 4096 < 16) by (Z.to_euclidean_division_equations; lia). lead_byte. rewrite !is_cont_mod. cbn [andb].
    replace (_ + (0x80 + c mod 64 - 0x80)) with c by (Z.to_euclidean_division_equations; lia). apply accept_char; [lia|done].
  - assert (0 <= c / 262144 < 5) by (Z.to_euclidean_division_equations; lia). lead_byte. rewrite !is_cont_mod. cbn [andb].
    replace (_ + (0x80 + c mod 64 - 0x80)) with c by (Z.to_euclidean_division_equations; lia). apply accept_char; [lia|done].
Qed.

Lemma encode_char_length c : (1 <= length (encode_char c) <= 4)%nat.
Proof. unfold encode_char. repeat case_match; simpl; lia. Qed.

Lemma encode_char_bytes c : is_char c = true -> Forall (fun b => 0 <= b < 2 ^ 8) (encode_char c).
Proof.
  intros [Hr _]%is_char_spec. unfold encode_char.
  destruct (Z.ltb_spec c 0x80); [|destruct (Z.ltb_spec c 0x800); [|destruct (Z.ltb_spec c 0x10000)]];
    repeat constructor; Z.to_euclidean_division_equations; lia.
Qed.

(** A character other than NUL has no zero byte. *)
Lemma encode_char_nonzero c : is_char c = true -> c <> 0 -> Forall (fun b => b <> 0) (encode_char c).
Proof.
  intros [Hr _]%is_char_spec Hn. unfold encode_char.
  destruct (Z.ltb_spec c 0x80); [|destruct (Z.ltb_spec c 0x800); [|destruct (Z.ltb_spec c 0x10000)]];
    repeat constructor; Z.to_euclidean_division_equations; lia.
Qed.

Lemma as_bytes_cons c s : as_bytes (c :: s) = encode_char c ++ as_bytes s.
Proof. done. Qed.

Lemma as_bytes_app s t : as_bytes (s ++ t) = as_bytes s ++ as_bytes t.
Proof. induction s as [|c s IH]; [done|]. cbn [app]. by rewrite !as_bytes_cons, IH, app_assoc. Qed.

Lemma as_bytes_bytes s : is_str s -> Forall (fun b => 0 <= b < 2 ^ 8) (as_bytes s).
Proof. induction 1; [done|]. rewrite as_bytes_cons. by apply Forall_app_2; [apply encode_char_bytes|]. Qed.

Lemma as_bytes_nonzero s : is_str s -> Forall (fun c => c <> 0) s -> Forall (fun b => b <> 0) (as_bytes s).
Proof.
  induction 1 as [|c s Hc _ IH]; [done|]. intros [Hn Hs]%Forall_cons. rewrite as_bytes_cons.
  apply Forall_app_2; [by apply encode_char_nonzero|by apply IH].
Qed.

Lemma decode_all_encode s fuel : is_str s -> (length (as_bytes s) <= fuel)%nat -> decode_all fuel (as_bytes s) = Some s.
Proof.
  intros Hs. revert fuel. induction Hs as [|c s Hc _ IH]; intros fuel Hf; [by destruct fuel|].
  rewrite as_bytes_cons in *. pose proof (encode_char_length c). rewrite length_app in Hf.
  destruct fuel as [|fuel]; [lia|]. cbn [decode_all]. rewrite decode_encode by done.
  destruct (encode_char c ++ as_bytes s) as [|b bs] eqn:He; [destruct (encode_char c); simpl in *; [lia|done]|].
  simpl. rewrite IH by lia. done.
Qed.

Lemma from_utf8_as_bytes s : is_str s -> from_utf8 (as_bytes s) = Some s.
Proof. intros Hs. by apply decode_all_encode. Qed.
