(* ===== verification/EtherDream.v ===== *)
(** * The Ether Dream wire protocol

    Models [src/src/protocols/ether_dream/protocol.rs]: status, broadcast,
    point, response and command layouts, their writers and readers.  The
    theorems are the round trips, the sizes, and that no reader accepts another
    command's bytes. *)

From S2P Require Import Prelude Floats Point Bytes.

(** ** Data *)

Record DacStatus := mkStatus {
  st_protocol : Z;
  st_light_engine_state : Z;
  st_playback_state : Z;
  st_source : Z;
  st_light_engine_flags : Z;
  st_playback_flags : Z;
  st_source_flags : Z;
  st_buffer_fullness : Z;
  st_point_rate : Z;
  st_point_count : Z;
}.

Record DacBroadcast := mkBroadcast {
  mac_address : list Z;
  hw_revision : Z;
  sw_revision : Z;
  buffer_capacity : Z;
  max_point_rate : Z;
  bc_status : DacStatus;
}.

Record DacPoint := mkDacPoint {
  dp_control : Z;
  dp_x : Z;
  dp_y : Z;
  dp_r : Z;
  dp_g : Z;
  dp_b : Z;
  dp_i : Z;
  dp_u1 : Z;
  dp_u2 : Z;
}.

Record DacResponse := mkResponse {
  response : Z;
  response_command : Z;
  response_status : DacStatus;
}.

Definition ACK : Z := 97.
Definition NAK_FULL : Z := 70.
Definition NAK_INVALID : Z := 73.
Definition NAK_STOP_CONDITION : Z := 33.

(** The commands of [mod command]. *)
Inductive Command :=
  | PrepareStream
  | Begin (low_water_mark point_rate : Z)
  | Update (low_water_mark point_rate : Z)
  | PointRate (rate : Z)
  | Data (points : list DacPoint)
  | StopCmd
  | EmergencyStop
  | EmergencyStopAlt
  | ClearEmergencyStop
  | Ping
  | Version.

Definition start_byte (c : Command) : Z :=
  match c with
  | PrepareStream => 112
  | Begin _ _ => 98
  | Update _ _ => 117
  | PointRate _ => 113
  | Data _ => 100
  | StopCmd => 115
  | EmergencyStop => 0
  | EmergencyStopAlt => 255
  | ClearEmergencyStop => 99
  | Ping => 63
  | Version => 118
  end.

(** [SIZE_BYTES]. *)
Definition status_size : nat := 20.
Definition broadcast_size : nat := status_size + 16.
Definition point_size : nat := 18.
Definition response_size : nat := status_size + 2.

(** [From<&LaserPoint>]. *)
Definition dac_point_of (p : LaserPoint) : DacPoint :=
  mkDacPoint 0 (coord_to_i16_inverted (lp_x p)) (coord_to_i16_inverted (lp_y p))
    (lp_r p) (lp_g p) (lp_b p) (lp_intensity p) 0 0.

(** ** Writers *)
Section protocol.
Context `{ByteOrder}.

Definition write_status (s : DacStatus) : list Z :=
  write_u8 (st_protocol s) ++ write_u8 (st_light_engine_state s) ++ write_u8 (st_playback_state s) ++
  write_u8 (st_source s) ++ write_u16 (st_light_engine_flags s) ++ write_u16 (st_playback_flags s) ++
  write_u16 (st_source_flags s) ++ write_u16 (st_buffer_fullness s) ++ write_u32 (st_point_rate s) ++
  write_u32 (st_point_count s).

Definition write_broadcast (b : DacBroadcast) : list Z :=
  mjoin (write_u8 <$> mac_address b) ++ write_u16 (hw_revision b) ++ write_u16 (sw_revision b) ++
  write_u16 (buffer_capacity b) ++ write_u32 (max_point_rate b) ++ write_status (bc_status b).

Definition write_point (p : DacPoint) : list Z :=
  write_u16 (dp_control p) ++ write_i16 (dp_x p) ++ write_i16 (dp_y p) ++ write_u16 (dp_r p) ++
  write_u16 (dp_g p) ++ write_u16 (dp_b p) ++ write_u16 (dp_i p) ++ write_u16 (dp_u1 p) ++ write_u16 (dp_u2 p).

Definition write_response (r : DacResponse) : list Z :=
  write_u8 (response r) ++ write_u8 (response_command r) ++ write_status (response_status r).

(** [write_to_bytes] of each command; only [Data] can fail. *)
Definition write_command (c : Command) : io_result (list Z) :=
  match c with
  | Begin lwm rate | Update lwm rate => IoOk (write_u8 (start_byte c) ++ write_u16 lwm ++ write_u32 rate)
  | PointRate rate => IoOk (write_u8 (start_byte c) ++ write_u32 rate)
  | Data pts =>
      if umax 16 <? Z.of_nat (length pts) then IoErr InvalidData
      else IoOk (write_u8 (start_byte c) ++ write_u16 (Z.of_nat (length pts)) ++ mjoin (write_point <$> pts))
  | _ => IoOk (write_u8 (start_byte c))
  end.

(** ** Readers *)

Definition read_status : reader DacStatus :=
  protocol ← read_u8; les ← read_u8; ps ← read_u8; src ← read_u8;
  lef ← read_u16; pf ← read_u16; sf ← read_u16; bf ← read_u16;
  pr ← read_u32; pc ← read_u32;
  mret (mkStatus protocol les ps src lef pf sf bf pr pc).

Definition read_broadcast : reader DacBroadcast :=
  m0 ← read_u8; m1 ← read_u8; m2 ← read_u8; m3 ← read_u8; m4 ← read_u8; m5 ← read_u8;
  hw ← read_u16; sw ← read_u16; cap ← read_u16; rate ← read_u32; st ← read_status;
  mret (mkBroadcast [m0; m1; m2; m3; m4; m5] hw sw cap rate st).

Definition read_point : reader DacPoint :=
  c ← read_u16; x ← read_i16; y ← read_i16; r ← read_u16; g ← read_u16; b ← read_u16;
  i ← read_u16; u1 ← read_u16; u2 ← read_u16;
  mret (mkDacPoint c x y r g b i u1 u2).

Definition read_response : reader DacResponse :=
  r ← read_u8; c ← read_u8; st ← read_status; mret (mkResponse r c st).

(** [read_points]: the loop over [0..n_points]. *)
Fixpoint read_points (n_points : nat) : reader (list DacPoint) :=
  match n_points with
  | O => mret []
  | S n => p ← read_point; ps ← read_points n; mret (p :: ps)
  end.

Definition begin_read_fields : reader Command := lwm ← read_u16; rate ← read_u32; mret (Begin lwm rate).

Definition update_read_fields : reader Command := lwm ← read_u16; rate ← read_u32; mret (Update lwm rate).

Definition point_rate_read_fields : reader Command := rate ← read_u32; mret (PointRate rate).

Definition data_read_fields : reader Command := n ← read_u16; pts ← read_points (Z.to_nat n); mret (Data pts).

(** Check the start byte, then read the fields. *)
Definition read_tagged (tag : Z) (k : reader Command) : reader Command :=
  b ← read_u8; if b =? tag then k else fail InvalidData.

Definition read_unit (c : Command) : reader Command := read_tagged (start_byte c) (mret c).

Definition read_emergency_stop : reader Command :=
  b ← read_u8;
  if negb (b =? start_byte EmergencyStop) && negb (b =? start_byte EmergencyStopAlt) then fail InvalidData
  else mret EmergencyStop.

(** The [read_from_bytes] of a command's type. *)
Definition read_as (c : Command) : reader Command :=
  match c with
  | Begin _ _ => read_tagged (start_byte (Begin 0 0)) begin_read_fields
  | Update _ _ => read_tagged (start_byte (Update 0 0)) update_read_fields
  | PointRate _ => read_tagged (start_byte (PointRate 0)) point_rate_read_fields
  | Data _ => read_tagged (start_byte (Data [])) data_read_fields
  | EmergencyStop | EmergencyStopAlt => read_emergency_stop
  | _ => read_unit c
  end.

(** [dac::Command]'s [read_from_bytes]: the start byte says which command follows. *)
Definition read_command : reader Command :=
  b ← read_u8;
  if b =? start_byte PrepareStream then mret PrepareStream
  else if b =? start_byte (Begin 0 0) then begin_read_fields
  else if b =? start_byte (Update 0 0) then update_read_fields
  else if b =? start_byte (PointRate 0) then point_rate_read_fields
  else if b =? start_byte (Data []) then data_read_fields
  else if b =? start_byte StopCmd then mret StopCmd
  else if b =? start_byte EmergencyStop then mret EmergencyStop
  else if b =? start_byte EmergencyStopAlt then mret EmergencyStop
  else if b =? start_byte ClearEmergencyStop then mret ClearEmergencyStop
  else if b =? start_byte Ping then mret Ping
  else fail InvalidData.

(** ** Well-formed values: every field in the range of its type *)

Definition status_wf (s : DacStatus) : Prop :=
  0 <= st_protocol s < 2 ^ 8 /\ 0 <= st_light_engine_state s < 2 ^ 8 /\ 0 <= st_playback_state s < 2 ^ 8 /\
  0 <= st_source s < 2 ^ 8 /\ 0 <= st_light_engine_flags s < 2 ^ 16 /\ 0 <= st_playback_flags s < 2 ^ 16 /\
  0 <= st_source_flags s < 2 ^ 16 /\ 0 <= st_buffer_fullness s < 2 ^ 16 /\ 0 <= st_point_rate s < 2 ^ 32 /\
  0 <= st_point_count s < 2 ^ 32.

Definition broadcast_wf (b : DacBroadcast) : Prop :=
  length (mac_address b) = 6%nat /\ Forall (fun v => 0 <= v < 2 ^ 8) (mac_address b) /\
  0 <= hw_revision b < 2 ^ 16 /\ 0 <= sw_revision b < 2 ^ 16 /\ 0 <= buffer_capacity b < 2 ^ 16 /\
  0 <= max_point_rate b < 2 ^ 32 /\ status_wf (bc_status b).

Definition dac_point_wf (p : DacPoint) : Prop :=
  0 <= dp_control p < 2 ^ 16 /\ in_s 16 (dp_x p) /\ in_s 16 (dp_y p) /\ 0 <= dp_r p < 2 ^ 16 /\
  0 <= dp_g p < 2 ^ 16 /\ 0 <= dp_b p < 2 ^ 16 /\ 0 <= dp_i p < 2 ^ 16 /\ 0 <= dp_u1 p < 2 ^ 16 /\
  0 <= dp_u2 p < 2 ^ 16.

Definition response_wf (r : DacResponse) : Prop :=
  0 <= response r < 2 ^ 8 /\ 0 <= response_command r < 2 ^ 8 /\ status_wf (response_status r).

Definition command_wf (c : Command) : Prop :=
  match c with
  | Begin lwm rate | Update lwm rate => 0 <= lwm < 2 ^ 16 /\ 0 <= rate < 2 ^ 32
  | PointRate rate => 0 <= rate < 2 ^ 32
  | Data pts => Forall dac_point_wf pts /\ Z.of_nat (length pts) < 2 ^ 16
  | _ => True
  end.

(** ** Field round trips *)

Lemma status_round s rest : status_wf s -> read_status (write_status s ++ rest) = IoOk (s, rest).
Proof.
  intros (? & ? & ? & ? & ? & ? & ? & ? & ? & ?). unfold read_status, write_status. read_fields. by destruct s.
Qed.

Lemma point_round p rest : dac_point_wf p -> read_point (write_point p ++ rest) = IoOk (p, rest).
Proof.
  intros (? & ? & ? & ? & ? & ? & ? & ? & ?). unfold read_point, write_point. read_fields. by destruct p.
Qed.

Lemma response_round r rest : response_wf r -> read_response (write_response r ++ rest) = IoOk (r, rest).
Proof.
  intros (? & ? & Hs). unfold read_response, write_response. read_fields. rewrite status_round by done. by destruct r.
Qed.

Lemma broadcast_round b rest : broadcast_wf b -> read_broadcast (write_broadcast b ++ rest) = IoOk (b, rest).
Proof.
  intros (Hl & Hm & ? & ? & ? & ? & Hs). unfold read_broadcast, write_broadcast.
  destruct b as [mac hw sw cap rate st]. simpl in *.
  destruct mac as [|m0 [|m1 [|m2 [|m3 [|m4 [|m5 [|]]]]]]]; try discriminate Hl.
  repeat (apply Forall_cons in Hm as [? Hm]). simpl. rewrite app_nil_r. read_fields. by rewrite status_round.
Qed.

Lemma points_round pts rest :
  Forall dac_point_wf pts -> read_points (length pts) (mjoin (write_point <$> pts) ++ rest) = IoOk (pts, rest).
Proof.
  induction 1 as [|p pts Hp _ IH]; [done|]. cbn [length read_points]. rewrite fmap_cons.
  change (mjoin (?x :: ?xs)) with (x ++ mjoin xs). rewrite <- app_assoc. unfold mbind, reader_bind. rewrite point_round by done. by rewrite IH.
Qed.

Lemma start_byte_range c : 0 <= start_byte c < 2 ^ 8.
Proof. destruct c; vm_compute; split; congruence. Qed.

Lemma read_tagged_write tag k rest :
  0 <= tag < 2 ^ 8 -> forall b, 0 <= b < 2 ^ 8 ->
  read_tagged tag k (write_u8 b ++ rest) = if b =? tag then k rest else IoErr InvalidData.
Proof.
  intros Ht b Hb. unfold read_tagged. unfold mbind, reader_bind. rewrite read_u8_write by done. by destruct (_ =? _).
Qed.

(** What a command is after a round trip: the alternative emergency stop is
    normalised. *)
Definition normal (c : Command) : Command := match c with EmergencyStopAlt => EmergencyStop | c => c end.

Lemma command_round c rest bs :
  command_wf c -> write_command c = IoOk bs -> read_as c (bs ++ rest) = IoOk (normal c, rest).
Proof.
  intros Hwf Hw. pose proof (start_byte_range c) as Hb.
  destruct c as [|lwm rate|lwm rate|rate|pts| | | | | |]; cbn [write_command] in Hw;
    try (injection Hw as <-; unfold read_as, read_unit;
         first [rewrite read_tagged_write by done; by rewrite Z.eqb_refl
               |unfold read_emergency_stop, mbind, reader_bind; by rewrite read_u8_write]).
  1, 2: injection Hw as <-; destruct Hwf; unfold read_as; rewrite <- app_assoc, read_tagged_write by done;
    rewrite Z.eqb_refl; unfold begin_read_fields, update_read_fields; by read_fields.
  - injection Hw as <-. cbn [command_wf] in Hwf. unfold read_as. rewrite <- app_assoc, read_tagged_write by done.
    rewrite Z.eqb_refl. unfold point_rate_read_fields. by read_fields.
  - destruct (umax 16 <? Z.of_nat (length pts)) eqn:Hlen; [discriminate Hw|]. injection Hw as <-.
    destruct Hwf as [Hp Hl]. unfold read_as. rewrite <- !app_assoc, read_tagged_write by done. rewrite Z.eqb_refl.
    unfold data_read_fields. unfold mbind, reader_bind. rewrite read_u16_write by lia. cbv beta iota.
    rewrite Nat2Z.id, points_round by done. done.
Qed.

(** A command's bytes start with its start byte. *)
Lemma write_command_head c bs : write_command c = IoOk bs -> exists rest, bs = write_u8 (start_byte c) ++ rest.
Proof.
  destruct c as [| | | |pts| | | | | |]; cbn [write_command]; try (destruct (_ <? _); [done|]); intros [= <-];
    first [by eexists|exists []; by rewrite app_nil_r].
Qed.

(** The start byte of a command leads to its reader; the version query has none. *)
Lemma read_command_dispatch c bs : write_command c = IoOk bs -> c <> Version -> forall rest, read_command (bs ++ rest) = read_as c (bs ++ rest).
Proof.
  intros Hw Hv rest. destruct (write_command_head c bs Hw) as (tail & ->). rewrite <- app_assoc. pose proof (start_byte_range c) as Hb.
  unfold read_command, mbind, reader_bind. rewrite read_u8_write by done.
  destruct c; try done; unfold read_as, read_unit;
    first [by rewrite read_tagged_write by done|unfold read_emergency_stop, mbind, reader_bind; by rewrite read_u8_write].
Qed.

(** Commands of the same type; both emergency stops are read as one. *)
Definition same_type (c c' : Command) : bool :=
  match c, c' with
  | (EmergencyStop | EmergencyStopAlt), (EmergencyStop | EmergencyStopAlt)
  | PrepareStream, PrepareStream | Begin _ _, Begin _ _ | Update _ _, Update _ _ | PointRate _, PointRate _
  | Data _, Data _ | StopCmd, StopCmd | ClearEmergencyStop, ClearEmergencyStop | Ping, Ping
  | Version, Version => true
  | _, _ => false
  end.

Lemma wrong_reader c c' bs rest :
  write_command c = IoOk bs -> same_type c c' = false -> read_as c' (bs ++ rest) = IoErr InvalidData.
Proof.
  intros Hw Hne. destruct (write_command_head c bs Hw) as (tail & ->). rewrite <- app_assoc.
  pose proof (start_byte_range c) as Hb.
  destruct c'; unfold read_as, read_unit;
    first [rewrite read_tagged_write by (done || lia); by destruct c
          |unfold read_emergency_stop, mbind, reader_bind; rewrite read_u8_write by done; by destruct c].
Qed.

Lemma point_bytes_length p : length (write_point p) = point_size.
Proof.
  unfold write_point, write_u16, write_i16. rewrite !length_app, !write_le_length. done.
Qed.

Lemma points_bytes_length pts : length (mjoin (write_point <$> pts)) = (point_size * length pts)%nat.
Proof.
  induction pts as [|p pts IH]; [done|]. rewrite fmap_cons. change (mjoin (?x :: ?xs)) with (x ++ mjoin xs).
  rewrite length_app, point_bytes_length, IH. simpl. lia.
Qed.

Lemma status_bytes_length s : length (write_status s) = status_size.
Proof. unfold write_status, write_u8, write_u16, write_u32. rewrite !length_app, !write_le_length. done. Qed.

Lemma dac_point_of_wf p : point_wf p -> dac_point_wf (dac_point_of p).
Proof.
  intros (Hx & Hy & Hr & Hg & Hb & Hi).
  pose proof (coord_to_i16_inverted_range _ Hx). pose proof (coord_to_i16_inverted_range _ Hy).
  unfold in_u, umax in *. unfold dac_point_wf, in_s, dac_point_of.
  cbn [dp_control dp_x dp_y dp_r dp_g dp_b dp_i dp_u1 dp_u2]. lia.
Qed.

(** ** Theorems *)

(** Ether Dream commands round-trip and are unambiguous: reading back the
    bytes of a command whose fields are in range, with anything after them,
    gives the command (the alternative emergency stop reads as the emergency
    stop) and leaves exactly what followed; the reader of any other command type
    rejects the same bytes as invalid data. *)
Theorem command_round_trip c bs rest :
  command_wf c -> write_command c = IoOk bs ->
  read_as c (bs ++ rest) = IoOk (normal c, rest) /\
  forall c', same_type c c' = false -> read_as c' (bs ++ rest) = IoErr InvalidData.
Proof. intros Hwf Hw. split; [by apply command_round|]. intros c'. by apply wrong_reader. Qed.

(** A data command carries its points exactly: writing succeeds precisely
    when the points fit the 16-bit count, takes 3 bytes and 18 per point, and
    the status, broadcast and response messages have the sizes the protocol
    states and read back unchanged. *)
Theorem message_round_trips pts b r rest :
  broadcast_wf b -> response_wf r ->
  (write_command (Data pts) = IoErr InvalidData <-> umax 16 < Z.of_nat (length pts)) /\
  (forall bs, write_command (Data pts) = IoOk bs -> length bs = (3 + point_size * length pts)%nat) /\
  read_broadcast (write_broadcast b ++ rest) = IoOk (b, rest) /\ length (write_broadcast b) = broadcast_size /\
  read_response (write_response r ++ rest) = IoOk (r, rest) /\ length (write_response r) = response_size.
Proof.
  intros Hb Hr. split; [|split; [|split; [by apply broadcast_round|split; [|split; [by apply response_round|]]]]].
  - cbn [write_command]. destruct (Z.ltb_spec (umax 16) (Z.of_nat (length pts))); split; intros; done || lia.
  - cbn [write_command]. destruct (_ <? _); [done|]. intros bs [= <-].
    rewrite !length_app, points_bytes_length. unfold write_u8, write_u16. rewrite !write_le_length. lia.
  - unfold write_broadcast. rewrite !length_app, status_bytes_length. unfold write_u16, write_u32. rewrite !write_le_length.
    destruct Hb as (Hl & _). destruct b as [mac hw sw cap rate st]. simpl in *.
    destruct mac as [|m0 [|m1 [|m2 [|m3 [|m4 [|m5 [|]]]]]]]; try discriminate Hl. simpl. unfold write_u8.
    rewrite !length_app, !write_le_length. done.
  - unfold write_response. rewrite !length_app, status_bytes_length. unfold write_u8. by rewrite !write_le_length.
Qed.

(** A laser point is always encodable: every point with valid coordinates
    and 16-bit colours becomes a wire point whose fields are in range, so it
    survives the wire unchanged, and a dark point stays dark. *)
Theorem laser_point_survives_wire p rest :
  point_wf p ->
  read_point (write_point (dac_point_of p) ++ rest) = IoOk (dac_point_of p, rest) /\
  (is_dark p -> dp_r (dac_point_of p) = 0 /\ dp_g (dac_point_of p) = 0 /\ dp_b (dac_point_of p) = 0 /\ dp_i (dac_point_of p) = 0).
Proof. intros Hp. split; [by apply point_round, dac_point_of_wf|done]. Qed.
End protocol.

(** ** Witnesses *)
Module Demo.
Definition status : DacStatus := mkStatus 0 0 2 0 0 1 0 1799 30000 123456.
Definition broadcast : DacBroadcast := mkBroadcast [0x00; 0x04; 0xa3; 0x3d; 0x0b; 0xff] 2 5 1799 100000 status.
Definition ack : DacResponse := mkResponse ACK 100 status.
Definition points : list DacPoint := [mkDacPoint 0 (-32767) 32767 65535 0 1 65535 0 0; mkDacPoint 32768 (-1) 0 0 0 0 0 0 0].
End Demo.

Lemma command_round_trip_witness :
  exists bs, write_command (Data Demo.points) = IoOk bs /\ length bs = 39%nat /\
  read_as (Data Demo.points) (bs ++ [63]) = IoOk (Data Demo.points, [63]) /\
  read_as Ping (bs ++ [63]) = IoErr InvalidData.
Proof.
  eexists. split; [vm_compute; reflexivity|]. split; [vm_compute; reflexivity|].
  match goal with |- read_as _ (?bs ++ _) = _ /\ _ =>
    assert (command_wf (Data Demo.points)) as Hwf
      by (split; [|done]; repeat apply Forall_cons_2; try apply Forall_nil_2; unfold dac_point_wf, in_s; simpl; lia);
    destruct (@command_round_trip stdlib_byte_order (Data Demo.points) bs [63] Hwf ltac:(vm_compute; reflexivity)) as [Hr Hother]
  end.
  split; [exact Hr|]. by apply Hother.
Defined.

Lemma message_round_trips_witness :
  read_broadcast (write_broadcast Demo.broadcast ++ [1]) = IoOk (Demo.broadcast, [1]) /\
  read_response (write_response Demo.ack ++ [1]) = IoOk (Demo.ack, [1]).
Proof.
  assert (status_wf Demo.status) as Hs by (unfold status_wf; simpl; lia).
  assert (broadcast_wf Demo.broadcast) as Hb by (split; [done|]; split; [repeat constructor; done|]; simpl; repeat split; try lia; apply Hs).
  assert (response_wf Demo.ack) as Hr by (split; [done|]; split; [done|]; exact Hs).
  destruct (@message_round_trips stdlib_byte_order Demo.points Demo.broadcast Demo.ack [1] Hb Hr) as (_ & _ & Hrb & _ & Hrr & _).
  by split.
Defined.

Lemma laser_point_survives_wire_witness :
  read_point (write_point (dac_point_of default_point) ++ [7]) = IoOk (dac_point_of default_point, [7]).
Proof. apply laser_point_survives_wire. vm_compute. repeat split; congruence. Defined.
