(* ===== verification/EtherModel.v ===== *)
(** * The Ether Dream simulator

    Models [src/src/protocols/ether_dream/profile.rs] and
    [src/src/protocols/ether_dream/sim/model.rs]: what each firmware advertises
    and how it behaves, and the transport-free state machine of a DAC that
    consumes command bytes and returns the replies, with the clock as an
    argument.  64-bit totals are unbounded here. *)

From stdpp Require Import strings.
From S2P Require Import Prelude Floats Point Presentation Bytes EtherDream.

#[local] Open Scope string_scope.
#[local] Open Scope list_scope.
#[local] Open Scope Z_scope.

(** ** Firmware profiles *)

Inductive Provenance :=
  | HardwareVerified
  | FirmwareSource
  | Unverified.

Record FirmwareProfile := mkProfile {
  fw_name : string;
  fw_provenance : Provenance;
  fw_mac_address : list Z;
  fw_hw_revision : Z;
  fw_sw_revision : Z;
  fw_buffer_capacity : Z;
  fw_max_point_rate : Z;
  fw_version_string : option string;
  fw_always_set_playback_flags : Z;
  fw_ring_points : Z;
  naks_full : bool;
  begin_while_idle_acked : bool;
  stop_while_idle_naks : bool;
  stale_fullness_until_prepare : bool;
  estop_clear_immediate : bool;
  unknown_command_resets_tcp : bool;
  data_partial_write_then_nak_invalid : bool;
  data_while_idle_nak_invalid : bool;
  enforce_single_client : bool;
  rate_nak_consumes_one_byte : bool;
  zero_rate_hangs : bool;
  close_stops_playback : bool;
  light_engine_flags_mirror_state : bool;
}.

(** The presets; the free-form notes are left out. *)
Definition ed1_j4cdac : FirmwareProfile :=
  mkProfile "ed1-j4cdac" FirmwareSource [0x02; 0xed; 0; 0; 0; 1] 0 2 1799 100000 (Some "sim-ed1-j4cdac") 0 1799
    false true true true true true true true false true true false true.

Definition ed2_r331 : FirmwareProfile :=
  mkProfile "ed2-r331" HardwareVerified [0x02; 0xed; 0; 0; 0; 2] 10 2 3899 100000 (Some "r331-ed4bef5") 0x5f31 3899
    false true true true true true true true false true true true true.

(** [..Self::ed2_r331()]. *)
Definition ed2_like (name : string) (mac : list Z) (points : Z) (version : string) : FirmwareProfile :=
  let p := ed2_r331 in
  mkProfile name Unverified mac (fw_hw_revision p) (fw_sw_revision p) points (fw_max_point_rate p) (Some version)
    (fw_always_set_playback_flags p) points (naks_full p) (begin_while_idle_acked p) (stop_while_idle_naks p)
    (stale_fullness_until_prepare p) (estop_clear_immediate p) (unknown_command_resets_tcp p)
    (data_partial_write_then_nak_invalid p) (data_while_idle_nak_invalid p) (enforce_single_client p)
    (rate_nak_consumes_one_byte p) (zero_rate_hangs p) (close_stops_playback p) (light_engine_flags_mirror_state p).

Definition ed3 : FirmwareProfile := ed2_like "ed3" [0x02; 0xed; 0; 0; 0; 3] 4095 "sim-ed3".

Definition ed4 : FirmwareProfile := ed2_like "ed4" [0x02; 0xed; 0; 0; 0; 4] 8191 "sim-ed4".

Definition all_profiles : list FirmwareProfile := [ed1_j4cdac; ed2_r331; ed3; ed4].

Definition identify (version : string) : option FirmwareProfile :=
  snd <$> list_find (fun p => fw_version_string p = Some version) all_profiles.

(** ** The model's state *)

Definition PBF_SHUTTER : Z := 1.
Definition PBF_UNDERFLOW : Z := 2.
Definition PBF_ESTOP : Z := 4.
Definition CONTROL_CHANGE_RATE : Z := 0x8000.
Definition RATE_QUEUE_LEN : nat := 200.
Definition WARMUP : Z := 100000000.

(** [DacStatus::LIGHT_ENGINE_*], [PLAYBACK_*] and [SOURCE_*]. *)
Definition LIGHT_ENGINE_READY : Z := 0.
Definition LIGHT_ENGINE_WARMUP : Z := 1.
Definition LIGHT_ENGINE_COOLDOWN : Z := 2.
Definition LIGHT_ENGINE_EMERGENCY_STOP : Z := 3.
Definition PLAYBACK_IDLE : Z := 0.
Definition PLAYBACK_PREPARED : Z := 1.
Definition PLAYBACK_PLAYING : Z := 2.
Definition SOURCE_NETWORK_STREAMING : Z := 0.
Definition SOURCE_ILDA_PLAYBACK_SD : Z := 1.
Definition SOURCE_INTERNAL_ABSTRACT_GENERATOR : Z := 2.

Inductive Reply :=
  | Response (r : DacResponse)
  | VersionReply (bs : list Z)
  | Reset
  | Hang.

#[export] Instance Reply_eq_reset_dec (r : Reply) : Decision (r = Reset).
Proof. destruct r; (by left) || (by right). Defined.

Record EtherDreamModel := mkModel {
  m_profile : FirmwareProfile;
  m_now : Z;
  m_input : list Z;
  m_light_engine : Z;
  m_warmup_until : option Z;
  m_interlock_ok : bool;
  m_playback : Z;
  m_sticky : Z;
  m_ring : list DacPoint;
  m_point_count : Z;
  m_rate_queue : list Z;
  m_seg_start : Z;
  m_seg_rate : Z;
  m_seg_played : Z;
  m_hung : bool;
  m_accepted_total : Z;
  m_played_total : Z;
  m_underflows : Z;
  m_overfull_writes : Z;
  m_nak_replies : Z;
  m_record_output : bool;
  m_output : list DacPoint;
  m_record_input : bool;
  m_commands : list Z;
  m_received_points : list DacPoint;
  m_inject : option (Z * list Z);
  m_reply_override : option (Z * Z);
}.

Definition model_eta (m : EtherDreamModel) : EtherDreamModel :=
  mkModel (m_profile m) (m_now m) (m_input m) (m_light_engine m) (m_warmup_until m) (m_interlock_ok m) (m_playback m)
    (m_sticky m) (m_ring m) (m_point_count m) (m_rate_queue m) (m_seg_start m) (m_seg_rate m) (m_seg_played m) (m_hung m)
    (m_accepted_total m) (m_played_total m) (m_underflows m) (m_overfull_writes m) (m_nak_replies m) (m_record_output m)
    (m_output m) (m_record_input m) (m_commands m) (m_received_points m) (m_inject m) (m_reply_override m).

(** Field updates. *)
Definition set_now (v : Z) (m : EtherDreamModel) : EtherDreamModel := ltac:(update_field model_eta m_now v m).
Definition set_input (v : list Z) (m : EtherDreamModel) : EtherDreamModel := ltac:(update_field model_eta m_input v m).
Definition set_light_engine (v : Z) (m : EtherDreamModel) : EtherDreamModel := ltac:(update_field model_eta m_light_engine v m).
Definition set_warmup_until (v : option Z) (m : EtherDreamModel) : EtherDreamModel := ltac:(update_field model_eta m_warmup_until v m).
Definition set_interlock_ok (v : bool) (m : EtherDreamModel) : EtherDreamModel := ltac:(update_field model_eta m_interlock_ok v m).
Definition set_playback (v : Z) (m : EtherDreamModel) : EtherDreamModel := ltac:(update_field model_eta m_playback v m).
Definition set_sticky (v : Z) (m : EtherDreamModel) : EtherDreamModel := ltac:(update_field model_eta m_sticky v m).
Definition set_ring (v : list DacPoint) (m : EtherDreamModel) : EtherDreamModel := ltac:(update_field model_eta m_ring v m).
Definition set_point_count (v : Z) (m : EtherDreamModel) : EtherDreamModel := ltac:(update_field model_eta m_point_count v m).
Definition set_rate_queue (v : list Z) (m : EtherDreamModel) : EtherDreamModel := ltac:(update_field model_eta m_rate_queue v m).
Definition set_seg_start (v : Z) (m : EtherDreamModel) : EtherDreamModel := ltac:(update_field model_eta m_seg_start v m).
Definition set_seg_rate (v : Z) (m : EtherDreamModel) : EtherDreamModel := ltac:(update_field model_eta m_seg_rate v m).
Definition set_seg_played (v : Z) (m : EtherDreamModel) : EtherDreamModel := ltac:(update_field model_eta m_seg_played v m).
Definition set_hung (v : bool) (m : EtherDreamModel) : EtherDreamModel := ltac:(update_field model_eta m_hung v m).
Definition set_accepted_total (v : Z) (m : EtherDreamModel) : EtherDreamModel := ltac:(update_field model_eta m_accepted_total v m).
Definition set_played_total (v : Z) (m : EtherDreamModel) : EtherDreamModel := ltac:(update_field model_eta m_played_total v m).
Definition set_underflows (v : Z) (m : EtherDreamModel) : EtherDreamModel := ltac:(update_field model_eta m_underflows v m).
Definition set_overfull_writes (v : Z) (m : EtherDreamModel) : EtherDreamModel := ltac:(update_field model_eta m_overfull_writes v m).
Definition set_nak_replies (v : Z) (m : EtherDreamModel) : EtherDreamModel := ltac:(update_field model_eta m_nak_replies v m).
Definition set_record_output (v : bool) (m : EtherDreamModel) : EtherDreamModel := ltac:(update_field model_eta m_record_output v m).
Definition set_output (v : list DacPoint) (m : EtherDreamModel) : EtherDreamModel := ltac:(update_field model_eta m_output v m).
Definition set_record_input (v : bool) (m : EtherDreamModel) : EtherDreamModel := ltac:(update_field model_eta m_record_input v m).
Definition set_commands (v : list Z) (m : EtherDreamModel) : EtherDreamModel := ltac:(update_field model_eta m_commands v m).
Definition set_received_points (v : list DacPoint) (m : EtherDreamModel) : EtherDreamModel := ltac:(update_field model_eta m_received_points v m).
Definition set_inject (v : option (Z * list Z)) (m : EtherDreamModel) : EtherDreamModel := ltac:(update_field model_eta m_inject v m).
Definition set_reply_override (v : option (Z * Z)) (m : EtherDreamModel) : EtherDreamModel := ltac:(update_field model_eta m_reply_override v m).

(** A freshly booted DAC. *)
Definition model_new (p : FirmwareProfile) : EtherDreamModel :=
  mkModel p 0 [] LIGHT_ENGINE_READY None true PLAYBACK_IDLE 0 [] 0 [] 0 0 0 false 0 0 0 0 0 false [] false [] [] None None.

(** ** Playback *)

Definition point_time (k : Z) (m : EtherDreamModel) : Z :=
  let d := Z.max (m_seg_rate m) 1 in
  let ns := (k * NANOS_PER_SEC + d - 1) / d in
  m_seg_start m + wrapu 64 ns.

Definition start_segment (at_ rate : Z) (m : EtherDreamModel) : EtherDreamModel :=
  set_seg_played 0 (set_seg_rate rate (set_seg_start at_ m)).

Definition underflow (m : EtherDreamModel) : EtherDreamModel :=
  let m := set_underflows (m_underflows m + 1) m in
  let m := set_playback PLAYBACK_IDLE m in
  let m := set_sticky (Z.lor (m_sticky m) PBF_UNDERFLOW) m in
  set_rate_queue [] (set_point_count 0 (set_seg_rate 0 m)).

(** The ring survives a stop on firmware with stale fullness. *)
Definition clear_unless_stale (m : EtherDreamModel) : EtherDreamModel :=
  if negb (stale_fullness_until_prepare (m_profile m)) then set_ring [] m else m.

Definition estop (m : EtherDreamModel) : EtherDreamModel :=
  let m := set_light_engine LIGHT_ENGINE_EMERGENCY_STOP m in
  let m := set_warmup_until None m in
  let m := set_playback PLAYBACK_IDLE m in
  let m := set_sticky (Z.lor (m_sticky m) PBF_ESTOP) m in
  clear_unless_stale (set_rate_queue [] (set_seg_rate 0 m)).

(** [due]: the points of the current segment that should have played by [now]. *)
Definition due (now : Z) (m : EtherDreamModel) : Z := wrapu 64 (sat_sub now (m_seg_start m) * m_seg_rate m / NANOS_PER_SEC).

(** The front point plays. *)
Definition play_point (point : DacPoint) (rest : list DacPoint) (m : EtherDreamModel) : EtherDreamModel :=
  let m := set_ring rest m in
  let m := set_seg_played (m_seg_played m + 1) m in
  let m := set_played_total (m_played_total m + 1) m in
  let m := set_point_count (wrapu 32 (m_point_count m + 1)) m in
  let m := if m_record_output m then set_output (m_output m ++ [point])%list m else m in
  if negb (Z.land (dp_control point) CONTROL_CHANGE_RATE =? 0) then
    match m_rate_queue m with
    | rate :: q =>
        let m := set_rate_queue q m in
        start_segment (point_time (m_seg_played m) m) rate m
    | [] => m
    end
  else m.

(** The playing loop of [advance_to]; every round but the last plays a point. *)
Fixpoint play_loop (fuel : nat) (now : Z) (m : EtherDreamModel) : EtherDreamModel :=
  match fuel with
  | O => m
  | S fuel =>
      if negb (m_playback m =? PLAYBACK_PLAYING) then m
      else if due now m <=? m_seg_played m then m
      else
        match m_ring m with
        | [] => underflow m
        | point :: rest => play_loop fuel now (play_point point rest m)
        end
  end.

Definition end_warmup (now : Z) (m : EtherDreamModel) : EtherDreamModel :=
  match m_warmup_until m with
  | Some until => if until <=? now then set_light_engine LIGHT_ENGINE_READY (set_warmup_until None m) else m
  | None => m
  end.

Definition advance_to (now : Z) (m : EtherDreamModel) : EtherDreamModel :=
  if now <=? m_now m then m
  else
    let m := end_warmup now (set_now now m) in
    play_loop (S (length (m_ring m))) now m.

(** ** Events from outside *)

Definition set_interlock (ok : bool) (m : EtherDreamModel) : EtherDreamModel :=
  set_interlock_ok ok (if m_interlock_ok m && negb ok then estop m else m).

Definition trigger_estop (now : Z) (m : EtherDreamModel) : EtherDreamModel := estop (advance_to now m).

Definition connection_closed (now : Z) (m : EtherDreamModel) : EtherDreamModel :=
  let m := advance_to now m in
  if negb (close_stops_playback (m_profile m)) || negb (m_playback m =? PLAYBACK_PLAYING) then m
  else clear_unless_stale (set_rate_queue [] (set_point_count 0 (set_seg_rate 0 (set_playback PLAYBACK_IDLE m)))).

Definition inject_before (opcode : Z) (bs : list Z) (m : EtherDreamModel) : EtherDreamModel := set_inject (Some (opcode, bs)) m.

Definition override_reply_code (opcode code : Z) (m : EtherDreamModel) : EtherDreamModel := set_reply_override (Some (opcode, code)) m.

Definition take_output (m : EtherDreamModel) : list DacPoint * EtherDreamModel := (m_output m, set_output [] m).

(** ** Status and replies *)

Definition model_status (m : EtherDreamModel) : DacStatus :=
  let playing := m_playback m =? PLAYBACK_PLAYING in
  let lef :=
    if m_light_engine m =? LIGHT_ENGINE_EMERGENCY_STOP
    then if light_engine_flags_mirror_state (m_profile m) then 3 else 1
    else 0 in
  mkStatus 0 (m_light_engine m) (m_playback m) SOURCE_NETWORK_STREAMING lef
    (Z.lor (Z.lor (fw_always_set_playback_flags (m_profile m)) (m_sticky m)) (if playing then PBF_SHUTTER else 0)) 0
    (Z.min (Z.of_nat (length (m_ring m))) (umax 16)) (if playing then m_seg_rate m else 0) (if playing then m_point_count m else 0).

Definition respond (code command : Z) (m : EtherDreamModel) : DacResponse := mkResponse code command (model_status m).

Definition hello (m : EtherDreamModel) : DacResponse := respond ACK 63 m.

Definition model_broadcast (m : EtherDreamModel) : DacBroadcast :=
  let p := m_profile m in
  mkBroadcast (fw_mac_address p) (fw_hw_revision p) (fw_sw_revision p) (fw_buffer_capacity p) (fw_max_point_rate p) (model_status m).

Section model.
Context `{ByteOrder}.

Definition reply_bytes (r : Reply) : list Z :=
  match r with
  | Response r => write_response r
  | VersionReply bs => bs
  | Reset | Hang => []
  end.

(** [LE::read_u16], [LE::read_u32] and [read_bytes::<DacPoint>] on slices whose
    length was checked; [None] is the panic of [expect]. *)
Definition read_ring_points (n : nat) (bs : list Z) : option (list DacPoint) :=
  match read_points n bs with IoOk (ps, _) => Some ps | IoErr _ => None end.

(** [command_complete]. *)
Definition command_complete (input : list Z) : bool :=
  match input with
  | [] => false
  | cmd :: _ =>
      let len := Z.of_nat (length input) in
      if (cmd =? 98) || (cmd =? 117) then 7 <=? len
      else if cmd =? 113 then 5 <=? len
      else if cmd =? 100 then (3 <=? len) && (3 + le_at 2 1 input * Z.of_nat point_size <=? len)
      else true
  end.

(** [check_rate]: [None] when the rate is acceptable. *)
Definition check_rate (cmd rate : Z) (full_len : nat) (m : EtherDreamModel) : option (nat * Reply * EtherDreamModel) :=
  if (rate =? 0) && zero_rate_hangs (m_profile m) then Some (full_len, Hang, set_hung true m)
  else if (rate =? 0) || (fw_max_point_rate (m_profile m) <? rate) then
    Some (if rate_nak_consumes_one_byte (m_profile m) then 1%nat else full_len, Response (respond NAK_INVALID cmd m), m)
  else None.

(** What one command did: the bytes it consumed and its reply, or [Incomplete];
    [None] is a panic. *)
Inductive stepped :=
  | Incomplete
  | Done (consumed : nat) (r : Reply) (m : EtherDreamModel).

Definition reply_with (consumed : nat) (code cmd : Z) (m : EtherDreamModel) : option stepped :=
  Some (Done consumed (Response (respond code cmd m)) m).

Definition step_prepare (cmd : Z) (m : EtherDreamModel) : option stepped :=
  if negb (m_playback m =? PLAYBACK_IDLE) || negb (m_light_engine m =? LIGHT_ENGINE_READY) then reply_with 1 NAK_INVALID cmd m
  else
    let m := set_playback PLAYBACK_PREPARED m in
    let m := set_ring [] m in
    reply_with 1 ACK cmd (set_sticky 0 (set_rate_queue [] (set_point_count 0 m))).

(** ['b'] and ['u']. *)
Definition step_begin (cmd : Z) (input : list Z) (m : EtherDreamModel) : option stepped :=
  if decide (length input < 7)%nat then Some Incomplete
  else
    let rate := le_at 4 3 input in
    match check_rate cmd rate 7 m with
    | Some (n, r, m) => Some (Done n r m)
    | None =>
        if (cmd =? 117) || (m_playback m =? PLAYBACK_PLAYING) then
          reply_with 7 ACK cmd (if m_playback m =? PLAYBACK_PLAYING then start_segment (m_now m) rate m else m)
        else if m_playback m =? PLAYBACK_PREPARED then
          reply_with 7 ACK cmd (set_point_count 0 (start_segment (m_now m) rate (set_playback PLAYBACK_PLAYING m)))
        else if begin_while_idle_acked (m_profile m) then reply_with 7 ACK cmd m
        else reply_with 7 NAK_INVALID cmd m
    end.

Definition step_queue_rate (cmd : Z) (input : list Z) (m : EtherDreamModel) : option stepped :=
  if decide (length input < 5)%nat then Some Incomplete
  else
    let rate := le_at 4 1 input in
    match check_rate cmd rate 5 m with
    | Some (n, r, m) => Some (Done n r m)
    | None =>
        reply_with 5 ACK cmd
          (if negb (m_playback m =? PLAYBACK_IDLE) && bool_decide (length (m_rate_queue m) < RATE_QUEUE_LEN - 1)%nat
           then set_rate_queue (m_rate_queue m ++ [rate])%list m else m)
    end.

(** How many points of an [n]-point write are taken, and the reply code. *)
Definition write_outcome (p : FirmwareProfile) (n space : nat) : nat * Z :=
  if decide (n <= space)%nat then (n, ACK)
  else if naks_full p then (0%nat, NAK_FULL)
  else if data_partial_write_then_nak_invalid p then (space, NAK_INVALID)
  else (0%nat, NAK_INVALID).

Definition step_data (cmd : Z) (input : list Z) (m : EtherDreamModel) : option stepped :=
  let p := m_profile m in
  if decide (length input < 3)%nat then Some Incomplete
  else
    let n := Z.to_nat (le_at 2 1 input) in
    let total := (3 + n * point_size)%nat in
    if decide (length input < total)%nat then Some Incomplete
    else if decide (n = 0)%nat then reply_with total ACK cmd m
    else if m_playback m =? PLAYBACK_IDLE then
      reply_with total (if data_while_idle_nak_invalid p then NAK_INVALID else ACK) cmd m
    else
      let space := (Z.to_nat (fw_ring_points p) - length (m_ring m))%nat in
      let m := if decide (space < n)%nat then set_overfull_writes (m_overfull_writes m + 1) m else m in
      let '(count, code) := write_outcome p n space in
      points ← read_ring_points count (take (count * point_size) (drop 3 input));
      let m := set_ring (m_ring m ++ points)%list m in
      reply_with total code cmd (set_accepted_total (m_accepted_total m + Z.of_nat count) m).

Definition step_stop (cmd : Z) (m : EtherDreamModel) : option stepped :=
  if m_playback m =? PLAYBACK_IDLE then reply_with 1 (if stop_while_idle_naks (m_profile m) then NAK_INVALID else ACK) cmd m
  else reply_with 1 ACK cmd (clear_unless_stale (set_rate_queue [] (set_seg_rate 0 (set_playback PLAYBACK_IDLE m)))).

Definition step_clear (cmd : Z) (m : EtherDreamModel) : option stepped :=
  if negb (m_interlock_ok m) then reply_with 1 NAK_STOP_CONDITION cmd m
  else
    let m :=
      if m_light_engine m =? LIGHT_ENGINE_EMERGENCY_STOP then
        if estop_clear_immediate (m_profile m) then set_light_engine LIGHT_ENGINE_READY m
        else set_warmup_until (Some (m_now m + WARMUP)) (set_light_engine LIGHT_ENGINE_WARMUP m)
      else m in
    if negb (m_light_engine m =? LIGHT_ENGINE_READY) then reply_with 1 NAK_STOP_CONDITION cmd m else reply_with 1 ACK cmd m.

Definition ascii_bytes (s : string) : list Z := (fun a => Z.of_N (Ascii.N_of_ascii a)) <$> String.list_ascii_of_string s.

(** The 32-byte build string, padded with zeros. *)
Definition version_bytes (version : string) : list Z :=
  let s := take 32 (ascii_bytes version) in (s ++ replicate (32 - length s) 0)%list.

(** [step]: one command at the front of [input]. *)
Definition step (input : list Z) (m : EtherDreamModel) : option stepped :=
  match input with
  | [] => Some Incomplete
  | cmd :: _ =>
      let p := m_profile m in
      if cmd =? 112 then step_prepare cmd m
      else if (cmd =? 98) || (cmd =? 117) then step_begin cmd input m
      else if cmd =? 113 then step_queue_rate cmd input m
      else if cmd =? 100 then step_data cmd input m
      else if cmd =? 115 then step_stop cmd m
      else if (cmd =? 0) || (cmd =? 255) then reply_with 1 ACK cmd (estop m)
      else if cmd =? 99 then step_clear cmd m
      else if cmd =? 63 then reply_with 1 ACK cmd m
      else
        match cmd =? 118, fw_version_string p with
        | true, Some s => Some (Done 1 (VersionReply (version_bytes s)) m)
        | _, _ =>
            if unknown_command_resets_tcp p then Some (Done (length input) Reset m)
            else reply_with 1 NAK_INVALID cmd m
        end
  end.

(** [record]. *)
Definition record (bs : list Z) (m : EtherDreamModel) : option EtherDreamModel :=
  match bs with
  | [] => Some m
  | op :: _ =>
      let m := set_commands (m_commands m ++ [op])%list m in
      if (op =? 100) && bool_decide (3 <= length bs)%nat then
        let rest := drop 3 bs in
        points ← read_ring_points (length rest / point_size) rest;
        Some (set_received_points (m_received_points m ++ points)%list m)
      else Some m
  end.

(** The injected commands: they run until one is incomplete. *)
Fixpoint run_injected (fuel : nat) (other : list Z) (m : EtherDreamModel) : option EtherDreamModel :=
  match fuel with
  | O => Some m
  | S fuel =>
      r ← step other m;
      match r with
      | Incomplete => Some m
      | Done n _ m => run_injected fuel (drop n other) m
      end
  end.

(** The injection in front of a command, if one is due, and whether it hung the DAC. *)
Definition injection (input : list Z) (m : EtherDreamModel) : option (EtherDreamModel * bool) :=
  match input, m_inject m with
  | op :: _, Some (want, other) =>
      if (op =? want) && command_complete input
      then m ← run_injected (S (length other)) other (set_inject None m); Some (m, m_hung m)
      else Some (m, false)
  | _, _ => Some (m, false)
  end.

(** The scripted reply code and the count of refusals. *)
Definition answer (r : Reply) (m : EtherDreamModel) : Reply * EtherDreamModel :=
  match r with
  | Response d =>
      let '(d, m) :=
        match m_reply_override m with
        | Some (op, code) =>
            if op =? response_command d then (mkResponse code (response_command d) (response_status d), set_reply_override None m) else (d, m)
        | None => (d, m)
        end in
      (Response d, if negb (response d =? ACK) then set_nak_replies (m_nak_replies m + 1) m else m)
  | _ => (r, m)
  end.

Definition ends (r : Reply) : bool := match r with Reset | Hang => true | _ => false end.

(** One round of the loop of [process_with]: an injection hung the DAC, the command
    is incomplete, or it is answered. *)
Inductive round :=
  | InjectionHung (m : EtherDreamModel)
  | Waiting (m : EtherDreamModel)
  | Answered (consumed : nat) (r : Reply) (m : EtherDreamModel).

Definition process_round (input : list Z) (m : EtherDreamModel) : option round :=
  '(m, hung) ← injection input m;
  if (hung : bool) then Some (InjectionHung m)
  else
    r ← step input m;
    match r with
    | Incomplete => Some (Waiting m)
    | Done consumed reply m =>
        let '(reply, m) := answer reply m in
        m ← (if m_record_input m then record (take consumed input) m else Some m);
        Some (Answered consumed reply m)
    end.

(** The loop; every round but the last consumes a byte. *)
Fixpoint process_loop (fuel : nat) (stop_before : option Z) (left : option nat) (input : list Z) (replies : list Reply) (m : EtherDreamModel)
    : option (list Z * list Reply * EtherDreamModel) :=
  match fuel with
  | O => Some (input, replies, m)
  | S fuel =>
      if bool_decide (left = Some 0%nat) || bool_decide (is_Some stop_before /\ head input = stop_before) then Some (input, replies, m)
      else
        r ← process_round input m;
        match r with
        | InjectionHung m => Some ([], replies, m)
        | Waiting m => Some (input, replies, m)
        | Answered consumed reply m =>
            let replies := replies ++ [reply] in
            if ends reply then Some ([], replies, m)
            else process_loop fuel stop_before (Nat.pred <$> left) (drop consumed input) replies m
        end
  end.

(** [process_with]; [max_commands] is [None] for [usize::MAX]. *)
Definition process_with (now : Z) (input : list Z) (stop_before : option Z) (max_commands : option nat) (m : EtherDreamModel)
    : option (list Z * list Reply * EtherDreamModel) :=
  let m := advance_to now m in
  if m_hung m then Some ([], [], m)
  else process_loop (S (length input)) stop_before max_commands input [] m.

Definition process (now : Z) (input : list Z) (m : EtherDreamModel) : option (list Z * list Reply * EtherDreamModel) :=
  process_with now input None None m.

Definition process_before (now : Z) (input : list Z) (opcode : Z) (m : EtherDreamModel) := process_with now input (Some opcode) None m.

Definition process_one (now : Z) (input : list Z) (m : EtherDreamModel) := process_with now input None (Some 1%nat) m.

(** [feed]: bytes from the default connection. *)
Definition feed (now : Z) (bs : list Z) (m : EtherDreamModel) : option (list Reply * EtherDreamModel) :=
  '(input, replies, m') ← process now (m_input m ++ bs)%list (set_input [] m);
  Some (replies, set_input input m').
End model.

(** ** The invariant *)

Definition rate_ok (p : FirmwareProfile) (rate : Z) : Prop := 1 <= rate <= fw_max_point_rate p.

Record profile_ok (p : FirmwareProfile) : Prop := {
  profile_ring : 0 <= fw_ring_points p < 2 ^ 16;
  profile_rate : 0 <= fw_max_point_rate p < 2 ^ 32;
  profile_flags : 0 <= fw_always_set_playback_flags p < 2 ^ 16;
}.

(** The light engine warms up exactly while a warmup is pending; a stream is only
    prepared or playing on a ready light engine, and plays at an acceptable rate. *)
Record model_ok (m : EtherDreamModel) : Prop := {
  ok_profile : profile_ok (m_profile m);
  ok_ring : Z.of_nat (length (m_ring m)) <= fw_ring_points (m_profile m);
  ok_points : Forall dac_point_wf (m_ring m);
  ok_engine : m_light_engine m = LIGHT_ENGINE_WARMUP /\ is_Some (m_warmup_until m) \/
    (m_light_engine m = LIGHT_ENGINE_READY \/ m_light_engine m = LIGHT_ENGINE_EMERGENCY_STOP) /\ m_warmup_until m = None;
  ok_playback : m_playback m = PLAYBACK_IDLE \/
    (m_playback m = PLAYBACK_PREPARED \/ m_playback m = PLAYBACK_PLAYING /\ rate_ok (m_profile m) (m_seg_rate m)) /\
    m_light_engine m = LIGHT_ENGINE_READY;
  ok_rates : Forall (rate_ok (m_profile m)) (m_rate_queue m) /\ (length (m_rate_queue m) < RATE_QUEUE_LEN)%nat;
  ok_sticky : 0 <= m_sticky m < 2 ^ 3;
  ok_count : 0 <= m_point_count m < 2 ^ 32;
  ok_totals : 0 <= m_played_total m /\ m_played_total m + Z.of_nat (length (m_ring m)) <= m_accepted_total m;
  ok_clock : 0 <= m_now m /\ 0 <= m_seg_start m;
  ok_inject : match m_inject m with Some (_, other) => bytes other | None => True end;
}.

(** Projections of updates. *)
Ltac model_fields :=
  cbn [m_profile m_now m_input m_light_engine m_warmup_until m_interlock_ok m_playback m_sticky m_ring m_point_count m_rate_queue
    m_seg_start m_seg_rate m_seg_played m_hung m_accepted_total m_played_total m_underflows m_overfull_writes m_nak_replies
    m_record_output m_output m_record_input m_commands m_received_points m_inject m_reply_override
    set_now set_input set_light_engine set_warmup_until set_interlock_ok set_playback set_sticky set_ring set_point_count
    set_rate_queue set_seg_start set_seg_rate set_seg_played set_hung set_accepted_total set_played_total set_underflows
    set_overfull_writes set_nak_replies set_record_output set_output set_record_input set_commands set_received_points
    set_inject set_reply_override start_segment length] in *.

Lemma no_rates p : Forall (rate_ok p) [] /\ (0 < RATE_QUEUE_LEN)%nat.
Proof. split; [done|unfold RATE_QUEUE_LEN; lia]. Qed.

(** The invariant of an updated model, field by field. *)
Ltac model_ok_by := split; model_fields; try done; try lia; try apply no_rates.

Lemma model_new_ok p : profile_ok p -> model_ok (model_new p).
Proof.
  intros Hp. split; unfold model_new; model_fields; try done; try (cbn; lia); try (by left); try (by repeat constructor).
  destruct Hp. cbn. lia.
Qed.

Lemma sticky_lor a b : 0 <= a < 2 ^ 3 -> 0 <= b < 2 ^ 3 -> 0 <= Z.lor a b < 2 ^ 3.
Proof. by apply lor_range. Qed.

Lemma underflow_ok m : model_ok m -> model_ok (underflow m).
Proof.
  intros []. unfold underflow. model_ok_by. by apply sticky_lor.
Qed.

Lemma clear_unless_stale_ok m : model_ok m -> model_ok (clear_unless_stale m).
Proof.
  intros Hm. unfold clear_unless_stale. destruct (negb _); [|done]. destruct Hm as [[] ? ? ? ? ? ? ? [? ?] ?]. model_ok_by.
Qed.

Lemma estop_ok m : model_ok m -> model_ok (estop m).
Proof.
  intros []. unfold estop. apply clear_unless_stale_ok. model_ok_by; [by auto|by apply sticky_lor].
Qed.

Lemma wrapu_range w v : 0 <= w -> 0 <= wrapu w v < 2 ^ w.
Proof. intros. apply Z.mod_pos_bound. lia. Qed.

Lemma start_segment_ok at_ rate m : 0 <= at_ -> rate_ok (m_profile m) rate -> model_ok m -> model_ok (start_segment at_ rate m).
Proof.
  intros Ha Hr []. model_ok_by. destruct ok_playback0 as [?|[[?|[? ?]] ?]]; [by left|right; auto|right; auto].
Qed.

Lemma play_point_ok point rest m : model_ok m -> m_ring m = point :: rest -> model_ok (play_point point rest m).
Proof.
  intros Hm Hr. unfold play_point.
  match goal with |- context [m_record_output ?m'] => set (m1 := m') end.
  assert (H1 : model_ok m1).
  { destruct Hm. rewrite Hr in *. cbn [length] in *. apply Forall_cons in ok_points0 as [? ?].
    unfold m1. model_ok_by. apply wrapu_range. lia. }
  match goal with |- context [m_rate_queue (if _ then ?a else ?b)] => set (m2 := if m_record_output m1 then a else b) end.
  assert (H2 : model_ok m2) by (unfold m2; destruct (m_record_output m1); [|done]; destruct H1; model_ok_by). clearbody m2. clear m1 H1.
  destruct (negb _); [|done]. destruct (m_rate_queue m2) as [|rate q] eqn:Hq; [done|].
  pose proof H2 as []. rewrite Hq in *. destruct ok_rates0 as [[Hrate Hrest]%Forall_cons Hlen]. cbn [length] in *.
  apply start_segment_ok; [|done|].
  - unfold point_time. model_fields. pose proof (wrapu_range 64 ((m_seg_played m2 * NANOS_PER_SEC + Z.max (m_seg_rate m2) 1 - 1) / Z.max (m_seg_rate m2) 1)). lia.
  - model_ok_by. split; [done|lia].
Qed.

Lemma play_loop_ok fuel now m : model_ok m -> model_ok (play_loop fuel now m).
Proof.
  revert m. induction fuel as [|fuel IH]; intros m Hm; [done|]. cbn [play_loop]. destruct (negb _); [done|]. destruct (_ <=? _); [done|].
  destruct (m_ring m) as [|point rest] eqn:Hr; [by apply underflow_ok|]. by apply IH, play_point_ok.
Qed.

Lemma end_warmup_ok now m : model_ok m -> model_ok (end_warmup now m).
Proof.
  intros Hm. unfold end_warmup. destruct (m_warmup_until m) as [until|] eqn:Hw; [|done]. destruct (_ <=? _); [|done].
  destruct Hm. rewrite Hw in *. model_ok_by; [right; auto|].
  destruct ok_playback0 as [?|[? ?]]; [by left|right; auto].
Qed.

Lemma advance_ok now m : model_ok m -> model_ok (advance_to now m).
Proof.
  intros Hm. unfold advance_to. destruct (Z.leb_spec now (m_now m)); [done|]. apply play_loop_ok, end_warmup_ok.
  destruct Hm. model_ok_by.
Qed.

(** ** Reading points that are there *)
Section reading.
Context `{ByteOrder}.

Lemma read_uint_there n bs : (n <= length bs)%nat -> read_uint n bs = IoOk (le_value (take n bs), drop n bs).
Proof. intros Hl. unfold read_uint. rewrite read_le_spec. by rewrite decide_True. Qed.

Lemma read_u16_there bs : (2 <= length bs)%nat ->
  exists v, read_u16 bs = IoOk (v, drop 2 bs) /\ (bytes bs -> 0 <= v < 2 ^ 16).
Proof.
  intros Hl. eexists. split; [by apply read_uint_there|]. intros Hb.
  pose proof (le_value_range (take 2 bs) (Forall_take _ _ _ Hb)) as Hv. rewrite length_take, Nat.min_l in Hv by done. done.
Qed.

Lemma read_i16_there bs : (2 <= length bs)%nat -> exists v, read_i16 bs = IoOk (v, drop 2 bs) /\ in_s 16 v.
Proof.
  intros Hl. destruct (read_u16_there bs Hl) as (v & Hv & _). exists (wraps 16 v). split; [|by apply wraps_range].
  unfold read_i16, mbind, reader_bind. by rewrite Hv.
Qed.

Lemma read_point_there bs : (point_size <= length bs)%nat ->
  exists p, read_point bs = IoOk (p, drop point_size bs) /\ (bytes bs -> dac_point_wf p).
Proof.
  unfold point_size. intros Hl. unfold read_point, mbind, reader_bind.
  destruct (read_u16_there bs) as (c & -> & Hc); [lia|].
  destruct (read_i16_there (drop 2 bs)) as (x & -> & Hx); [rewrite length_drop; lia|].
  destruct (read_i16_there (drop 2 (drop 2 bs))) as (y & -> & Hy); [rewrite !length_drop; lia|]. rewrite !drop_drop. cbn [Nat.add].
  assert (Hnext : forall k, (k + 2 <= length bs)%nat ->
    exists v, read_u16 (drop k bs) = IoOk (v, drop (S (S k)) bs) /\ (bytes bs -> 0 <= v < 2 ^ 16)).
  { intros k Hk. destruct (read_u16_there (drop k bs)) as (v & Hv & Hr); [rewrite length_drop; lia|]. exists v.
    rewrite drop_drop, Nat.add_comm in Hv. split; [done|]. intros Hb. by apply Hr, Forall_drop. }
  destruct (Hnext 6%nat ltac:(lia)) as (r & -> & Hr). destruct (Hnext 8%nat ltac:(lia)) as (g & -> & Hg).
  destruct (Hnext 10%nat ltac:(lia)) as (b & -> & Hb). destruct (Hnext 12%nat ltac:(lia)) as (i & -> & Hi).
  destruct (Hnext 14%nat ltac:(lia)) as (u1 & -> & H1). destruct (Hnext 16%nat ltac:(lia)) as (u2 & -> & H2).
  eexists. split; [reflexivity|]. intros Hbs. unfold dac_point_wf. cbn. auto 10.
Qed.

Lemma read_points_there n bs : (n * point_size <= length bs)%nat ->
  exists ps, read_points n bs = IoOk (ps, drop (n * point_size) bs) /\ length ps = n /\ (bytes bs -> Forall dac_point_wf ps).
Proof.
  revert bs. induction n as [|n IH]; intros bs Hl; [by exists []|]. cbn [read_points]. unfold mbind, reader_bind.
  destruct (read_point_there bs) as (p & -> & Hp); [unfold point_size in *; lia|].
  destruct (IH (drop point_size bs)) as (ps & -> & Hlen & Hps); [rewrite length_drop; unfold point_size in *; lia|].
  exists (p :: ps). rewrite drop_drop. split_and!; [done|by cbn; rewrite Hlen|]. intros Hb. constructor; [by apply Hp|by apply Hps, Forall_drop].
Qed.

Lemma ring_points_there n bs : (n * point_size <= length bs)%nat ->
  exists ps, read_ring_points n (take (n * point_size) bs) = Some ps /\ length ps = n /\ (bytes bs -> Forall dac_point_wf ps).
Proof.
  intros Hl. destruct (read_points_there n (take (n * point_size) bs)) as (ps & Hr & Hn & Hw); [rewrite length_take; lia|].
  exists ps. unfold read_ring_points. rewrite Hr. split_and!; [done|done|]. intros Hb. by apply Hw, Forall_take.
Qed.

Lemma le_at_there n i bs : (i + n <= length bs)%nat -> le_at n i bs = le_value (take n (drop i bs)).
Proof. intros Hl. unfold le_at. rewrite read_le_spec, decide_True; [done|]. rewrite length_drop. lia. Qed.

Lemma le_at_app n i bs rest : (i + n <= length bs)%nat -> le_at n i (bs ++ rest) = le_at n i bs.
Proof.
  intros Hl. rewrite !le_at_there by (rewrite ?length_app; lia). rewrite drop_app_le by lia. rewrite take_app_le; [done|]. rewrite length_drop. lia.
Qed.
End reading.

(** ** One command *)
Section stepping.
Context `{ByteOrder}.

(** What no command changes. *)
Definition frame (m m' : EtherDreamModel) : Prop :=
  m_profile m' = m_profile m /\ m_now m' = m_now m /\ m_input m' = m_input m /\ m_interlock_ok m' = m_interlock_ok m /\
  m_record_input m' = m_record_input m /\ m_inject m' = m_inject m /\ m_reply_override m' = m_reply_override m.

Lemma frame_refl m : frame m m.
Proof. done. Qed.

Lemma frame_clear m m' : frame m m' -> frame m (clear_unless_stale m').
Proof. unfold clear_unless_stale. by destruct (negb _). Qed.

Lemma frame_estop m : frame m (estop m).
Proof. unfold estop. by apply frame_clear. Qed.

(** A reply to the first command of [input], sent from the state [m']. *)
Definition reply_for (cmd : Z) (r : Reply) (m' : EtherDreamModel) : Prop :=
  match r with Response d => response_command d = cmd /\ response_status d = model_status m' | Hang => m_hung m' = true | _ => True end.

Definition done_ok (cmd : Z) (input : list Z) (m : EtherDreamModel) (n : nat) (r : Reply) (m' : EtherDreamModel) : Prop :=
  (1 <= n <= length input)%nat /\ model_ok m' /\ frame m m' /\ (m_hung m' = m_hung m \/ r = Hang) /\ reply_for cmd r m'.

Definition stepped_ok (cmd : Z) (input : list Z) (m : EtherDreamModel) (r : option stepped) : Prop :=
  match r with
  | None => False
  | Some Incomplete => command_complete input = false
  | Some (Done n r m') => command_complete input = true /\ done_ok cmd input m n r m'
  end.

Lemma reply_with_ok cmd input m n code m' : command_complete input = true -> (1 <= n <= length input)%nat ->
  model_ok m' -> frame m m' -> m_hung m' = m_hung m -> stepped_ok cmd input m (reply_with n code cmd m').
Proof. intros. split; [done|]. split; [done|]. split; [done|]. split; [done|]. split; [by left|done]. Qed.

Lemma check_rate_ok cmd input rate n m : command_complete input = true -> (1 <= n <= length input)%nat -> model_ok m -> 0 <= rate ->
  match check_rate cmd rate n m with
  | Some (k, r, m') => stepped_ok cmd input m (Some (Done k r m'))
  | None => rate_ok (m_profile m) rate
  end.
Proof.
  intros Hc Hn Hm Hr. unfold check_rate. destruct (Z.eqb_spec rate 0) as [->|Hz]; cbn [andb orb].
  - destruct (zero_rate_hangs _).
    + split; [done|]. split; [done|]. split; [destruct Hm; model_ok_by|]. split; [done|]. split; [by right|done].
    + apply reply_with_ok; try done. destruct (rate_nak_consumes_one_byte _); lia.
  - destruct (Z.ltb_spec (fw_max_point_rate (m_profile m)) rate); [|unfold rate_ok; lia].
    apply reply_with_ok; try done. destruct (rate_nak_consumes_one_byte _); lia.
Qed.

Lemma step_prepare_ok cmd input m : command_complete input = true -> (1 <= length input)%nat -> model_ok m ->
  stepped_ok cmd input m (step_prepare cmd m).
Proof.
  intros Hc Hl Hm. unfold step_prepare. destruct (Z.eqb_spec (m_playback m) PLAYBACK_IDLE); [|by apply reply_with_ok].
  destruct (Z.eqb_spec (m_light_engine m) LIGHT_ENGINE_READY) as [He|]; cbn [negb orb]; [|by apply reply_with_ok].
  apply reply_with_ok; try done. destruct Hm as [[] ? ? ? ? ? ? ? [? ?] ?]. model_ok_by.
Qed.

Lemma le_at_nonneg n i bs : bytes bs -> 0 <= le_at n i bs.
Proof.
  intros Hb. unfold le_at. rewrite read_le_spec. case_decide; [|done]. apply (le_value_range (take n (drop i bs))).
  by apply Forall_take, Forall_drop.
Qed.

Lemma step_begin_ok cmd input m : head input = Some cmd -> cmd = 98 \/ cmd = 117 -> bytes input -> model_ok m ->
  stepped_ok cmd input m (step_begin cmd input m).
Proof.
  intros Hh Hcmd Hb Hm. unfold step_begin.
  assert (Hc : command_complete input = if decide (length input < 7)%nat then false else true).
  { destruct input as [|c input]; [done|]. cbn in Hh. injection Hh as ->. unfold command_complete.
    assert (Hx : ((cmd =? 98) || (cmd =? 117)) = true) by (by destruct Hcmd as [-> | ->]). rewrite Hx.
    case_decide; destruct (Z.leb_spec 7 (Z.of_nat (length (cmd :: input)))); done || lia. }
  revert Hc. case_decide as Hl; intros Hc; [done|].
  pose proof (check_rate_ok cmd input (le_at 4 3 input) 7 m Hc ltac:(lia) Hm (le_at_nonneg _ _ _ Hb)) as Hr.
  destruct (check_rate _ _ _ _) as [[[n r] m']|]; [done|].
  pose proof Hm as []. destruct (_ || _) eqn:Hor.
  - apply reply_with_ok; try done; [lia| | |]; destruct (m_playback m =? PLAYBACK_PLAYING); try done. apply start_segment_ok; [lia|done|done].
  - destruct (Z.eqb_spec (m_playback m) PLAYBACK_PREPARED) as [Hp|].
    + apply reply_with_ok; try done; [lia|]. model_ok_by. right. destruct ok_playback0 as [Hi|[_ ?]]; [by rewrite Hp in Hi|]. auto.
    + destruct (begin_while_idle_acked _); apply reply_with_ok; done || lia.
Qed.

Lemma step_queue_rate_ok input m : head input = Some 113 -> bytes input -> model_ok m ->
  stepped_ok 113 input m (step_queue_rate 113 input m).
Proof.
  intros Hh Hb Hm. unfold step_queue_rate.
  assert (Hc : command_complete input = if decide (length input < 5)%nat then false else true).
  { destruct input as [|c input]; [done|]. cbn in Hh. injection Hh as ->. unfold command_complete.
    cbn [Z.eqb orb Pos.eqb]. case_decide; destruct (Z.leb_spec 5 (Z.of_nat (length (113 :: input)))); done || lia. }
  revert Hc. case_decide as Hl; intros Hc; [done|].
  pose proof (check_rate_ok 113 input (le_at 4 1 input) 5 m Hc ltac:(lia) Hm (le_at_nonneg _ _ _ Hb)) as Hr.
  destruct (check_rate _ _ _ _) as [[[n r] m']|]; [done|].
  apply reply_with_ok; try done; [lia| | |]; destruct (_ && _) eqn:Hq; try done. apply andb_prop in Hq as [_ Hlen%bool_decide_eq_true].
  destruct Hm. model_ok_by. split; [|rewrite length_app; cbn; unfold RATE_QUEUE_LEN in *; lia]. apply Forall_app. split; [by destruct ok_rates0|by constructor].
Qed.

Lemma data_complete input : head input = Some 100 -> bytes input ->
  command_complete input = if decide (length input < 3)%nat then false
    else if decide (length input < 3 + Z.to_nat (le_at 2 1 input) * point_size)%nat then false else true.
Proof.
  intros Hh Hb. destruct input as [|c input]; [done|]. cbn in Hh. injection Hh as ->. unfold command_complete.
  change (100 =? 98) with false. change (100 =? 117) with false. change (100 =? 113) with false. change (100 =? 100) with true. cbn [orb].
  pose proof (le_at_nonneg 2 1 (100 :: input) Hb). set (n := le_at 2 1 (100 :: input)) in *. set (len := length (100 :: input)).
  destruct (Z.leb_spec 3 (Z.of_nat len)); case_decide; try lia; cbn [andb]; try done.
  unfold point_size. destruct (Z.leb_spec (3 + n * Z.of_nat 18) (Z.of_nat len)); case_decide; done || lia.
Qed.

Lemma write_outcome_fits p n space : ((write_outcome p n space).1 <= n)%nat /\ ((write_outcome p n space).1 <= space)%nat.
Proof. unfold write_outcome. case_decide; [cbn; lia|]. destruct (naks_full p); [cbn; lia|]. destruct (data_partial_write_then_nak_invalid p); cbn; lia. Qed.

Lemma step_data_ok input m : head input = Some 100 -> bytes input -> model_ok m -> stepped_ok 100 input m (step_data 100 input m).
Proof.
  intros Hh Hb Hm. unfold step_data. pose proof (data_complete input Hh Hb) as Hc. revert Hc. case_decide; intros Hc; [done|].
  set (n := Z.to_nat (le_at 2 1 input)) in *. revert Hc. case_decide as Hl; intros Hc; [done|].
  case_decide; [apply reply_with_ok; done || lia|]. destruct (Z.eqb_spec (m_playback m) PLAYBACK_IDLE); [apply reply_with_ok; done || lia|].
  set (space := (Z.to_nat (fw_ring_points (m_profile m)) - length (m_ring m))%nat).
  set (m1 := if decide (space < n)%nat then set_overfull_writes (m_overfull_writes m + 1) m else m).
  assert (HM : model_ok m1 /\ frame m m1 /\ m_hung m1 = m_hung m /\ m_ring m1 = m_ring m)
    by (unfold m1; case_decide; [|done]; split_and!; try done; destruct Hm; model_ok_by).
  destruct HM as (HM & Hf1 & Hh1 & Hr1). pose proof (write_outcome_fits (m_profile m) n space) as [Hk Hs].
  destruct (write_outcome _ _ _) as [count code]. cbn [fst] in *.
  destruct (ring_points_there count (drop 3 input)) as (ps & Hps & Hlen & Hwf); [rewrite length_drop; unfold point_size in *; lia|].
  rewrite Hps. cbn [mbind option_bind]. assert (Hp1 : m_profile m1 = m_profile m) by apply Hf1.
  apply reply_with_ok; try done; [lia|].
  pose proof (ok_ring _ HM) as Hring. rewrite Hp1 in Hring.
  destruct HM. model_ok_by; rewrite ?Hr1, ?Hp1, ?length_app, ?Hlen in *; try done; try lia.
  apply Forall_app. split; [done|]. by apply Hwf, Forall_drop.
Qed.

Lemma step_stop_ok cmd input m : command_complete input = true -> (1 <= length input)%nat -> model_ok m ->
  stepped_ok cmd input m (step_stop cmd m).
Proof.
  intros Hc Hl Hm. unfold step_stop. destruct (_ =? _); [by apply reply_with_ok|]. apply reply_with_ok; try done.
  - apply clear_unless_stale_ok. destruct Hm. model_ok_by.
  - by apply frame_clear.
  - unfold clear_unless_stale. by destruct (negb _).
Qed.

Lemma step_clear_ok cmd input m : command_complete input = true -> (1 <= length input)%nat -> model_ok m ->
  stepped_ok cmd input m (step_clear cmd m).
Proof.
  intros Hc Hl Hm. unfold step_clear. destruct (negb (m_interlock_ok m)); [by apply reply_with_ok|].
  match goal with |- context [negb (m_light_engine ?x =? _)] => set (m1 := x) end.
  assert (HM : model_ok m1 /\ frame m m1 /\ m_hung m1 = m_hung m).
  { unfold m1. destruct (Z.eqb_spec (m_light_engine m) LIGHT_ENGINE_EMERGENCY_STOP) as [He|]; [|done].
    assert (Hidle : m_playback m = PLAYBACK_IDLE) by (destruct (ok_playback _ Hm) as [?|[_ Hr]]; [done|by rewrite He in Hr]).
    destruct (ok_engine _ Hm) as [[He' _]|[_ Hw]]; [by rewrite He in He'|].
    destruct (estop_clear_immediate _); split_and!; try done; destruct Hm; model_ok_by; try (by left); eauto. }
  destruct HM as (? & ? & ?). destruct (negb _); by apply reply_with_ok.
Qed.

(** Every command is handled: it is incomplete, or it consumes at least its first
    byte, keeps the invariant and is answered from the state it leaves. *)
Lemma command_step_ok cmd input m : head input = Some cmd -> bytes input -> model_ok m -> stepped_ok cmd input m (step input m).
Proof.
  intros Hh Hb Hm. destruct input as [|c input]; [done|]. pose proof Hh as Hh'. cbn in Hh. injection Hh as ->. unfold step.
  assert (Hone : (1 <= length (cmd :: input))%nat) by (cbn; lia).
  destruct (Z.eqb_spec cmd 112) as [->|]; [by apply step_prepare_ok|].
  destruct ((cmd =? 98) || (cmd =? 117)) eqn:Hbu; [apply step_begin_ok; [done| |done|done]; lia|].
  destruct (Z.eqb_spec cmd 113) as [->|]; [by apply step_queue_rate_ok|].
  destruct (Z.eqb_spec cmd 100) as [->|]; [by apply step_data_ok|].
  assert (Hc : command_complete (cmd :: input) = true).
  { unfold command_complete. rewrite Hbu. destruct (Z.eqb_spec cmd 113); [done|]. by destruct (Z.eqb_spec cmd 100). }
  destruct (cmd =? 115); [by apply step_stop_ok|].
  destruct ((cmd =? 0) || (cmd =? 255)).
  { apply reply_with_ok; try done; [by apply estop_ok|apply frame_estop|]. unfold estop, clear_unless_stale. by destruct (negb _). }
  destruct (cmd =? 99); [by apply step_clear_ok|].
  destruct (cmd =? 63); [by apply reply_with_ok|].
  assert (Hunknown : stepped_ok cmd (cmd :: input) m
    (if unknown_command_resets_tcp (m_profile m) then Some (Done (length (cmd :: input)) Reset m) else reply_with 1 NAK_INVALID cmd m)).
  { destruct (unknown_command_resets_tcp _); [|by apply reply_with_ok].
    split; [done|]. split; [lia|]. split; [done|]. split; [done|]. split; [by left|done]. }
  destruct (cmd =? 118); [|done]. destruct (fw_version_string _); [|done].
  split; [done|]. split; [lia|]. split; [done|]. split; [done|]. split; [by left|done].
Qed.

(** A complete command does not look behind itself, unless it resets the connection. *)
Lemma step_app input rest m n r m' : bytes input -> step input m = Some (Done n r m') -> r <> Reset -> step (input ++ rest) m = Some (Done n r m').
Proof.
  intros Hb Hs Hr. destruct input as [|cmd input]; [done|]. change ((cmd :: input) ++ rest) with (cmd :: (input ++ rest)).
  unfold step in *. destruct (Z.eqb_spec cmd 112); [done|].
  destruct ((cmd =? 98) || (cmd =? 117)).
  { unfold step_begin in *. change (cmd :: input ++ rest) with ((cmd :: input) ++ rest). case_decide; [done|].
    rewrite decide_False by (rewrite length_app; lia). by rewrite le_at_app by lia. }
  destruct (Z.eqb_spec cmd 113).
  { unfold step_queue_rate in *. change (cmd :: input ++ rest) with ((cmd :: input) ++ rest). case_decide; [done|].
    rewrite decide_False by (rewrite length_app; lia). by rewrite le_at_app by lia. }
  destruct (Z.eqb_spec cmd 100).
  { unfold step_data in *. change (cmd :: input ++ rest) with ((cmd :: input) ++ rest). case_decide; [done|].
    rewrite decide_False by (rewrite length_app; lia). rewrite le_at_app by lia. case_decide; [done|].
    rewrite decide_False by (rewrite length_app; lia). case_decide; [done|]. destruct (_ =? PLAYBACK_IDLE); [done|].
    pose proof (write_outcome_fits (m_profile m) (Z.to_nat (le_at 2 1 (cmd :: input))) (Z.to_nat (fw_ring_points (m_profile m)) - length (m_ring m))) as [Hk _].
    destruct (write_outcome _ _ _) as [count code]. cbn [fst] in Hk. rewrite drop_app_le by lia.
    rewrite take_app_le; [done|]. rewrite length_drop. unfold point_size in *. lia. }
  destruct (cmd =? 115); [done|]. destruct ((cmd =? 0) || (cmd =? 255)); [done|]. destruct (cmd =? 99); [done|]. destruct (cmd =? 63); [done|].
  assert (Hu : (if unknown_command_resets_tcp (m_profile m) then Some (Done (length (cmd :: input)) Reset m) else reply_with 1 NAK_INVALID cmd m) = Some (Done n r m') ->
    (if unknown_command_resets_tcp (m_profile m) then Some (Done (length (cmd :: input ++ rest)) Reset m) else reply_with 1 NAK_INVALID cmd m) = Some (Done n r m'))
    by (destruct (unknown_command_resets_tcp (m_profile m)); [intros [= _ <- _]|]; done).
  destruct (cmd =? 118); [destruct (fw_version_string (m_profile m)); [done|]|]; by apply Hu.
Qed.
End stepping.

(** ** Streams of commands *)
Section processing.
Context `{ByteOrder}.

Lemma frame_trans m1 m2 m3 : frame m1 m2 -> frame m2 m3 -> frame m1 m3.
Proof. unfold frame. intuition congruence. Qed.

(** The fields a run of commands keeps. *)
Definition kept (m m' : EtherDreamModel) : Prop :=
  m_profile m' = m_profile m /\ m_now m' = m_now m /\ m_input m' = m_input m /\ m_interlock_ok m' = m_interlock_ok m.

Lemma kept_trans m1 m2 m3 : kept m1 m2 -> kept m2 m3 -> kept m1 m3.
Proof. unfold kept. intuition congruence. Qed.

Lemma frame_kept m m' : frame m m' -> kept m m'.
Proof. unfold frame, kept. intuition congruence. Qed.

Lemma run_injected_ok fuel other m : bytes other -> model_ok m ->
  exists m', run_injected fuel other m = Some m' /\ model_ok m' /\ frame m m'.
Proof.
  revert other m. induction fuel as [|fuel IH]; intros other m Hb Hm; [by exists m|]. cbn [run_injected].
  destruct other as [|cmd other]; [by exists m|]. pose proof (command_step_ok cmd (cmd :: other) m eq_refl Hb Hm) as Hs.
  destruct (step (cmd :: other) m) as [[|n r m1]|]; [by exists m| |done]. cbn [mbind option_bind].
  destruct Hs as (_ & _ & H1 & Hf & _). destruct (IH (drop n (cmd :: other)) m1) as (m' & Hr & Hok & Hf'); [by apply Forall_drop|done|].
  exists m'. split_and!; [done|done|by eapply frame_trans].
Qed.

Lemma injection_ok input m : model_ok m ->
  exists m' hung, injection input m = Some (m', hung) /\ model_ok m' /\ kept m m' /\ (hung = true -> m_hung m' = true) /\
    (hung = false -> m_hung m = false -> m_hung m' = false) /\ (command_complete input = false -> m' = m /\ hung = false).
Proof.
  intros Hm. unfold injection. destruct input as [|op input]; [by exists m, false|].
  destruct (m_inject m) as [[want other]|] eqn:Hi; [|by exists m, false].
  destruct ((op =? want) && command_complete (op :: input)) eqn:Hc; [|by exists m, false].
  assert (Hb : bytes other) by (pose proof (ok_inject _ Hm) as Hx; by rewrite Hi in Hx).
  destruct (run_injected_ok (S (length other)) other (set_inject None m) Hb) as (m' & Hr & Hok & Hf); [destruct Hm; model_ok_by|].
  rewrite Hr. cbn [mbind option_bind]. exists m', (m_hung m'). split_and!; try done.
  - unfold frame in Hf. unfold kept. model_fields. intuition congruence.
  - apply andb_prop in Hc as [_ Hc]. by rewrite Hc.
Qed.

Lemma answer_ok r m : model_ok m -> model_ok (answer r m).2 /\ kept m (answer r m).2 /\ m_hung (answer r m).2 = m_hung m /\
  m_record_input (answer r m).2 = m_record_input m /\ ends (answer r m).1 = ends r /\ ((answer r m).1 = Reset <-> r = Reset).
Proof.
  intros Hm. unfold answer. destruct r as [d| | |]; try done.
  assert (H1 : forall c, model_ok (set_nak_replies c m)) by (intros; destruct Hm; model_ok_by).
  assert (H2 : model_ok (set_reply_override None m)) by (destruct Hm; model_ok_by).
  assert (H3 : forall c, model_ok (set_nak_replies c (set_reply_override None m))) by (intros; destruct Hm; model_ok_by).
  destruct (m_reply_override m) as [[op code]|]; [destruct (op =? _)|]; destruct (negb _); split_and!; try done; apply H1 || apply H3.
Qed.

Lemma record_ok bs m : model_ok m ->
  exists m', record bs m = Some m' /\ model_ok m' /\ kept m m' /\ m_hung m' = m_hung m.
Proof.
  intros Hm. unfold record. destruct bs as [|op bs]; [by exists m|].
  destruct (_ && _); [|eexists; split_and!; try done; destruct Hm; model_ok_by].
  set (rest := drop 3 (op :: bs)). destruct (read_points_there (length rest / point_size) rest) as (ps & Hps & _); [rewrite Nat.mul_comm; by apply Nat.Div0.mul_div_le|].
  unfold read_ring_points. rewrite Hps. cbn [mbind option_bind]. eexists. split_and!; try done. destruct Hm. model_ok_by.
Qed.

Lemma command_complete_app input rest : command_complete input = true -> command_complete (input ++ rest) = true.
Proof.
  destruct input as [|cmd input]; [done|]. change ((cmd :: input) ++ rest) with (cmd :: (input ++ rest)). unfold command_complete.
  change (cmd :: input ++ rest) with ((cmd :: input) ++ rest). rewrite length_app. set (len := length (cmd :: input)).
  destruct (_ || _); [rewrite !Z.leb_le; lia|]. destruct (cmd =? 113); [rewrite !Z.leb_le; lia|]. destruct (cmd =? 100); [|done].
  intros [Hl%Z.leb_le Hd%Z.leb_le]%andb_prop. rewrite le_at_app by (fold len; lia). apply andb_true_intro. split; apply Z.leb_le; lia.
Qed.

Definition round_ok (input : list Z) (m : EtherDreamModel) (r : round) : Prop :=
  match r with
  | Waiting m' => m' = m /\ command_complete input = false
  | InjectionHung m' => command_complete input = true /\ model_ok m' /\ kept m m' /\ m_hung m' = true
  | Answered n r m' => command_complete input = true /\ (1 <= n <= length input)%nat /\ model_ok m' /\ kept m m' /\
      (r <> Hang -> m_hung m' = false) /\ (r = Hang -> m_hung m' = true)
  end.

Lemma process_round_ok input m : model_ok m -> bytes input -> m_hung m = false -> exists r, process_round input m = Some r /\ round_ok input m r.
Proof.
  intros Hm Hb Hh. unfold process_round. destruct (injection_ok input m Hm) as (m1 & hung & Hi & H1 & Hk1 & Ht & Hf & Hw).
  rewrite Hi. cbn [mbind option_bind]. destruct hung.
  { eexists. split; [done|]. unfold round_ok. destruct (command_complete input) eqn:Hc; [by split_and!; auto; apply Hk1|]. by destruct (Hw eq_refl). }
  destruct input as [|cmd input].
  { destruct (Hw eq_refl) as [-> _]. by exists (Waiting m). }
  pose proof (command_step_ok cmd (cmd :: input) m1 eq_refl Hb H1) as Hs. destruct (step (cmd :: input) m1) as [[|n r m2]|]; [| |done]; cbn [mbind option_bind].
  { exists (Waiting m1). split; [done|]. by destruct (Hw Hs) as [-> _]. }
  destruct Hs as (Hc & Hn & H2 & Hf2 & Hh2 & Hr2).
  destruct (answer_ok r m2 H2) as (H3 & Hk3 & Hh3 & _ & He & Hx). destruct (answer r m2) as [r3 m3] eqn:Ha. cbn [fst snd] in *.
  assert (H4 : exists m4, (if m_record_input m3 then record (take n (cmd :: input)) m3 else Some m3) = Some m4 /\ model_ok m4 /\ kept m3 m4 /\ m_hung m4 = m_hung m3)
    by (destruct (m_record_input m3); [by apply record_ok|by exists m3]).
  destruct H4 as (m4 & -> & H4 & Hk4 & Hh4). cbn [mbind option_bind]. exists (Answered n r3 m4). split; [done|].
  specialize (Hf eq_refl Hh).
  assert (Hrr : r3 = Hang <-> r = Hang) by (destruct r; cbn in Ha; [destruct (match m_reply_override m2 with Some _ => _ | None => _ end)|..]; injection Ha as <- <-; done).
  split; [done|]. split; [done|]. split; [done|]. split.
  { eapply kept_trans; [exact Hk1|]. eapply kept_trans; [by apply frame_kept|]. by eapply kept_trans. }
  rewrite Hh4, Hh3. split; [intros Hne; destruct Hh2 as [-> | Hh2]; [done|by destruct Hne; apply Hrr]|].
  intros ->. destruct Hrr as [Hrr _]. rewrite (Hrr eq_refl) in Hr2. done.
Qed.

Lemma process_round_app input rest m r : bytes input -> model_ok m -> command_complete input = true -> process_round input m = Some r ->
  (forall n m', r <> Answered n Reset m') -> process_round (input ++ rest) m = Some r.
Proof.
  intros Hb Hm Hc. unfold process_round.
  assert (Hinj : injection (input ++ rest) m = injection input m).
  { unfold injection. destruct input as [|cmd input]; [done|]. cbn [app]. destruct (m_inject m) as [[want other]|]; [|done].
    change (cmd :: input ++ rest) with ((cmd :: input) ++ rest). by rewrite Hc, command_complete_app. }
  rewrite Hinj. destruct (injection_ok input m Hm) as (m1 & hung & Hi & H1 & _). rewrite Hi. cbn [mbind option_bind]. destruct hung; [done|].
  destruct input as [|cmd input]; [done|]. pose proof (command_step_ok cmd (cmd :: input) m1 eq_refl Hb H1) as Hs.
  destruct (step (cmd :: input) m1) as [[|n r1 m2]|] eqn:Hst; [by rewrite Hs in Hc| |done]. cbn [mbind option_bind].
  destruct Hs as (_ & Hn & _). intros Hr Hreset.
  destruct (decide (r1 = Reset)) as [->|Hne].
  { cbn [answer] in Hr. destruct (if m_record_input m2 then _ else _); [|done]. cbn in Hr. injection Hr as <-. by edestruct Hreset. }
  rewrite (step_app _ rest _ _ _ _ Hb Hst Hne). cbn [mbind option_bind]. by rewrite take_app_le by lia.
Qed.

(** The loop on unlimited commands. *)
Lemma process_loop_eq fuel input rs m : process_loop (S fuel) None None input rs m =
  (r ← process_round input m;
   match r with
   | InjectionHung m => Some ([], rs, m)
   | Waiting m => Some (input, rs, m)
   | Answered consumed reply m =>
       if ends reply then Some ([], rs ++ [reply], m) else process_loop fuel None None (drop consumed input) (rs ++ [reply]) m
   end).
Proof.
  cbn [process_loop fmap option_fmap option_map]. rewrite (bool_decide_eq_false_2 (None = Some 0%nat)) by done.
  rewrite (bool_decide_eq_false_2 (is_Some None /\ _)) by (intros [[? ?] _]; done). done.
Qed.

(** What is left after a run: no complete command, unless the connection was reset
    or the DAC hung. *)
Lemma process_loop_total fuel input rs m : model_ok m -> bytes input -> m_hung m = false -> (length input < fuel)%nat ->
  exists rest new m', process_loop fuel None None input rs m = Some (rest, rs ++ new, m') /\ model_ok m' /\ kept m m' /\
    bytes rest /\ (length rest <= length input)%nat /\ command_complete rest = false.
Proof.
  revert input rs m. induction fuel as [|fuel IH]; intros input rs m Hm Hb Hh Hf; [lia|]. rewrite process_loop_eq.
  destruct (process_round_ok input m Hm Hb Hh) as (r & -> & Hr). cbn [mbind option_bind].
  assert (Hk : kept m m) by done. destruct r as [m1|m1|n r m1]; cbn [round_ok] in Hr.
  - destruct Hr as (_ & H1 & Hk1 & _). exists [], [], m1. rewrite app_nil_r. split_and!; try done; try (by constructor); cbn; lia.
  - destruct Hr as [-> Hc]. exists input, [], m. by rewrite app_nil_r.
  - destruct Hr as (_ & Hn & H1 & Hk1 & Hnh & _). destruct (ends r) eqn:He.
    + exists [], [r], m1. split_and!; try done; try (by constructor); cbn; lia.
    + destruct (IH (drop n input) (rs ++ [r]) m1) as (rest & new & m' & Hrun & Hok & Hk' & Hbr & Hl & Hc); try done.
      * by apply Forall_drop.
      * apply Hnh. by intros ->.
      * rewrite length_drop. lia.
      * exists rest, (r :: new), m'. rewrite Hrun, <- app_assoc. rewrite length_drop in Hl. pose proof (kept_trans _ _ _ Hk1 Hk').
        split; [done|]. split; [done|]. split; [done|]. split; [done|]. split; [lia|done].
Qed.

Lemma process_loop_fuel f g input rs m : model_ok m -> bytes input -> m_hung m = false -> (length input < f)%nat -> (length input < g)%nat ->
  process_loop f None None input rs m = process_loop g None None input rs m.
Proof.
  revert g input rs m. induction f as [|f IH]; intros [|g] input rs m Hm Hb Hh Hf Hg; [lia..|]. rewrite !process_loop_eq.
  destruct (process_round_ok input m Hm Hb Hh) as (r & -> & Hr). cbn [mbind option_bind]. destruct r as [m1|m1|n r m1]; [done|done|].
  destruct Hr as (_ & Hn & H1 & _ & Hnh & _). destruct (ends r) eqn:He; [done|]. apply IH; [done|by apply Forall_drop| |rewrite length_drop; lia..].
  apply Hnh. by intros ->.
Qed.

(** Processing a prefix first makes no difference, unless it resets the connection. *)
Lemma process_loop_app f g h a b rs m rest rs' m' : model_ok m -> bytes a -> bytes b -> m_hung m = false ->
  (length a < f)%nat -> (length (a ++ b) < g)%nat -> (length (rest ++ b) < h)%nat ->
  process_loop f None None a rs m = Some (rest, rs', m') -> Reset ∉ rs' ->
  process_loop g None None (a ++ b) rs m = if m_hung m' then Some ([], rs', m') else process_loop h None None (rest ++ b) rs' m'.
Proof.
  revert g a rs m. induction f as [|f IH]; intros g a rs m Hm Ha Hb Hh Hf Hg Hl; [lia|]. destruct g as [|g]; [lia|].
  rewrite process_loop_eq. destruct (process_round_ok a m Hm Ha Hh) as (r & Hr & Hok). rewrite Hr. cbn [mbind option_bind].
  destruct (command_complete a) eqn:Hc.
  2:{ destruct r as [m1|m1|n r m1]; cbn [round_ok] in Hok; destruct Hok as [Hx _]; [congruence| |congruence]. subst m1. intros [= -> -> ->] _. rewrite Hh. apply process_loop_fuel; try done. by apply Forall_app. }
  intros Hrun Hreset. rewrite process_loop_eq.
  assert (Hne : forall n m1, r <> Answered n Reset m1).
  { intros n m1 ->. cbn in Hrun. injection Hrun as _ <- _. destruct Hreset. apply elem_of_app. right. by apply list_elem_of_singleton. }
  rewrite (process_round_app a b m r Ha Hm Hc Hr Hne). cbn [mbind option_bind].
  destruct r as [m1|m1|n r m1]; cbn [round_ok] in Hok.
  - injection Hrun as <- <- <-. destruct Hok as (_ & _ & _ & ->). done.
  - destruct Hok as [_ Hx]. by rewrite Hx in Hc.
  - destruct Hok as (_ & Hn & H1 & _ & Hnh & Hhang). destruct (ends r) eqn:He.
    + injection Hrun as <- <- <-. destruct r; try done; [by edestruct Hne|]. by rewrite Hhang.
    + rewrite drop_app_le by lia. rewrite length_app in Hg.
      apply (IH g (drop n a) (rs ++ [r]) m1); try done; [by apply Forall_drop|apply Hnh; by intros ->|rewrite ?length_app, length_drop; lia..].
Qed.
End processing.

(** ** Time *)

Lemma due_mono t1 t2 m : model_ok m -> m_playback m = PLAYBACK_PLAYING -> t1 <= t2 < 2 ^ 61 -> due t1 m <= due t2 m.
Proof.
  intros Hm Hp Ht. pose proof (ok_clock _ Hm). pose proof (profile_rate _ (ok_profile _ Hm)) as Hmax.
  assert (Hr : rate_ok (m_profile m) (m_seg_rate m)) by (destruct (ok_playback _ Hm) as [Hi|[[Hi|[_ ?]] _]]; [by rewrite Hp in Hi..|done]).
  unfold rate_ok in Hr. unfold due. set (r := m_seg_rate m) in *. set (s := m_seg_start m) in *.
  assert (Hle : forall t, t <= t2 -> 0 <= sat_sub t s * r / NANOS_PER_SEC < 2 ^ 64).
  { intros t Hle. unfold sat_sub. split; [apply Z.div_pos; [nia|done]|]. apply Z.div_lt_upper_bound; [done|].
    assert (Z.max 0 (t - s) * r <= 2 ^ 61 * 2 ^ 32) by nia. unfold NANOS_PER_SEC. lia. }
  unfold wrapu. rewrite !Z.mod_small by (apply Hle; lia). apply Z.div_le_mono; [done|]. unfold sat_sub. nia.
Qed.

Lemma play_point_now v point rest m : play_point point rest (set_now v m) = set_now v (play_point point rest m).
Proof.
  unfold play_point, point_time. model_fields. destruct (m_record_output m); destruct (negb _); model_fields; try done; by destruct (m_rate_queue m).
Qed.

Lemma play_loop_now fuel t v m : play_loop fuel t (set_now v m) = set_now v (play_loop fuel t m).
Proof.
  revert m. induction fuel as [|fuel IH]; intros m; [done|]. cbn [play_loop].
  change (due t (set_now v m)) with (due t m). change (m_playback (set_now v m)) with (m_playback m).
  change (m_seg_played (set_now v m)) with (m_seg_played m). change (m_ring (set_now v m)) with (m_ring m).
  destruct (negb _); [done|]. destruct (_ <=? _); [done|]. destruct (m_ring m); [done|]. by rewrite play_point_now, IH.
Qed.

Lemma play_point_ring point rest m : m_ring (play_point point rest m) = rest.
Proof. unfold play_point. destruct (m_record_output _); destruct (negb _); try done; model_fields; by destruct (m_rate_queue m). Qed.

Lemma play_point_playback point rest m : m_playback (play_point point rest m) = m_playback m.
Proof. unfold play_point. destruct (m_record_output _); destruct (negb _); try done; model_fields; by destruct (m_rate_queue m). Qed.

Lemma play_loop_idle fuel t m : m_playback m <> PLAYBACK_PLAYING -> play_loop fuel t m = m.
Proof. intros Hp. destruct fuel; [done|]. cbn [play_loop]. by destruct (Z.eqb_spec (m_playback m) PLAYBACK_PLAYING). Qed.

(** Enough fuel: one round per point, and one to stop. *)
Lemma play_loop_fuel f g t m : (length (m_ring m) < f)%nat -> (length (m_ring m) < g)%nat -> play_loop f t m = play_loop g t m.
Proof.
  revert g m. induction f as [|f IH]; intros [|g] m Hf Hg; [lia..|]. cbn [play_loop]. destruct (negb _); [done|]. destruct (_ <=? _); [done|].
  destruct (m_ring m) as [|p rest] eqn:Hr; [done|]. cbn in Hf, Hg. apply IH; rewrite play_point_ring; lia.
Qed.

(** Playing up to [t1] on the way to [t2] makes no difference. *)
Lemma play_loop_split f g h t1 t2 m : model_ok m -> t1 <= t2 < 2 ^ 61 ->
  (length (m_ring m) < f)%nat -> (length (m_ring m) < g)%nat -> (length (m_ring (play_loop f t1 m)) < h)%nat ->
  play_loop h t2 (play_loop f t1 m) = play_loop g t2 m.
Proof.
  intros Hm Ht. revert g m Hm. induction f as [|f IH]; intros g m Hm Hf Hg; [lia|]. destruct g as [|g]; [lia|].
  cbn [play_loop]. destruct (Z.eqb_spec (m_playback m) PLAYBACK_PLAYING) as [Hp|Hp]; cbn [negb].
  2:{ intros _. by apply play_loop_idle. }
  pose proof (due_mono t1 t2 m Hm Hp Ht). destruct (Z.leb_spec (due t1 m) (m_seg_played m)) as [H1|H1].
  { intros Hh. rewrite (play_loop_fuel h (S g)) by done. cbn [play_loop]. by rewrite Hp. }
  destruct (Z.leb_spec (due t2 m) (m_seg_played m)); [lia|].
  destruct (m_ring m) as [|p rest] eqn:Hr; [intros _; by apply play_loop_idle|]. cbn in Hf, Hg.
  apply IH; [by apply play_point_ok|rewrite play_point_ring; lia..].
Qed.

Lemma play_loop_warmup fuel t m : m_warmup_until (play_loop fuel t m) = m_warmup_until m.
Proof.
  revert m. induction fuel as [|fuel IH]; intros m; [done|]. cbn [play_loop]. destruct (negb _); [done|]. destruct (_ <=? _); [done|].
  destruct (m_ring m) as [|p rest]; [done|]. rewrite IH. unfold play_point. destruct (m_record_output _); destruct (negb _); try done; model_fields; by destruct (m_rate_queue m).
Qed.

Lemma play_loop_clock fuel t v m : m_now (play_loop fuel t (set_now v m)) = v.
Proof. by rewrite play_loop_now. Qed.

(** A playing stream has no warmup pending. *)
Lemma advance_playing t m : model_ok m -> m_playback m = PLAYBACK_PLAYING -> m_now m < t ->
  advance_to t m = set_now t (play_loop (S (length (m_ring m))) t m).
Proof.
  intros Hm Hp Ht. unfold advance_to. destruct (Z.leb_spec t (m_now m)); [lia|].
  assert (Hw : m_warmup_until m = None).
  { destruct (ok_playback _ Hm) as [Hi|[_ Hr]]; [by rewrite Hp in Hi|]. destruct (ok_engine _ Hm) as [[He _]|[_ ?]]; [by rewrite Hr in He|done]. }
  unfold end_warmup. change (m_warmup_until (set_now t m)) with (m_warmup_until m). rewrite Hw. by rewrite play_loop_now.
Qed.

Lemma end_warmup_playback t m : m_playback (end_warmup t m) = m_playback m.
Proof. unfold end_warmup. destruct (m_warmup_until m); [|done]. by destruct (_ <=? _). Qed.

Lemma advance_not_playing t m : m_playback m <> PLAYBACK_PLAYING -> m_now m < t -> advance_to t m = end_warmup t (set_now t m).
Proof.
  intros Hp Ht. unfold advance_to. destruct (Z.leb_spec t (m_now m)); [lia|]. apply play_loop_idle. by rewrite end_warmup_playback.
Qed.

(** The simulator's time is continuous: advancing in two steps is advancing in one,
    whatever is playing, however rates change in between, through underflows and
    warmups. *)
Theorem sim_time_is_continuous t1 t2 m : model_ok m -> t1 <= t2 < 2 ^ 61 -> advance_to t2 (advance_to t1 m) = advance_to t2 m.
Proof.
  intros Hm Ht. destruct (Z.le_gt_cases t1 (m_now m)) as [Hn|Hn]; [unfold advance_to at 2; by destruct (Z.leb_spec t1 (m_now m)); [|lia]|].
  destruct (Z.eq_dec t1 t2) as [->|Hne].
  { assert (Hnow : m_now (advance_to t2 m) = t2).
    { destruct (Z.eq_dec (m_playback m) PLAYBACK_PLAYING); [by rewrite advance_playing|]. rewrite advance_not_playing by done.
      unfold end_warmup. destruct (m_warmup_until _); [|done]. by destruct (_ <=? _). }
    unfold advance_to at 1. rewrite Hnow. by rewrite Z.leb_refl. }
  destruct (Z.eq_dec (m_playback m) PLAYBACK_PLAYING) as [Hp|Hp].
  - rewrite (advance_playing t1), (advance_playing t2 m) by (done || lia). set (m1 := play_loop (S (length (m_ring m))) t1 m).
    assert (Hs : forall h, (length (m_ring m1) < h)%nat -> play_loop h t2 m1 = play_loop (S (length (m_ring m))) t2 m) by (intros; by apply play_loop_split; try lia).
    assert (Hok : model_ok m1) by (by apply play_loop_ok).
    assert (Hok1 : model_ok (set_now t1 m1)) by (destruct (ok_clock _ Hm), Hok; model_ok_by).
    destruct (Z.eq_dec (m_playback m1) PLAYBACK_PLAYING) as [Hp1|Hp1].
    + rewrite advance_playing by (done || (model_fields; lia)). rewrite play_loop_now. change (m_ring (set_now t1 m1)) with (m_ring m1). rewrite Hs by lia. done.
    + rewrite advance_not_playing by (done || (model_fields; lia)). rewrite <- (Hs (S (length (m_ring m1)))), (play_loop_idle _ _ _ Hp1) by lia.
      unfold end_warmup. model_fields. unfold m1. rewrite play_loop_warmup.
      destruct (ok_playback _ Hm) as [Hi|[_ Hr]]; [by rewrite Hp in Hi|]. by destruct (ok_engine _ Hm) as [[He _]|[_ ->]]; [rewrite Hr in He|].
  - rewrite (advance_not_playing t1), (advance_not_playing t2 m) by (done || lia).
    assert (Hnow : m_now (end_warmup t1 (set_now t1 m)) = t1) by (unfold end_warmup; destruct (m_warmup_until _); [|done]; by destruct (_ <=? _)).
    rewrite advance_not_playing by (rewrite ?end_warmup_playback, ?Hnow; done || lia).
    unfold end_warmup. model_fields. destruct (m_warmup_until m) as [u|] eqn:Hu; [|model_fields; by rewrite Hu].
    destruct (Z.leb_spec u t1); model_fields; [by destruct (Z.leb_spec u t2); [|lia]|]. rewrite Hu. by destruct (_ <=? _).
Qed.

(** ** Runs of the simulator *)

(** What can happen to it. *)
Inductive sim_event :=
  | EvFeed (now : Z) (bs : list Z)
  | EvAdvance (now : Z)
  | EvInterlock (ok : bool)
  | EvEstop (now : Z)
  | EvClosed (now : Z)
  | EvInject (opcode : Z) (bs : list Z)
  | EvOverride (opcode code : Z)
  | EvRecord (output input : bool)
  | EvTakeOutput.

Section runs.
Context `{ByteOrder}.

Definition sim_step (e : sim_event) (m : EtherDreamModel) : option (list Reply * EtherDreamModel) :=
  match e with
  | EvFeed now bs => feed now bs m
  | EvAdvance now => Some ([], advance_to now m)
  | EvInterlock ok => Some ([], set_interlock ok m)
  | EvEstop now => Some ([], trigger_estop now m)
  | EvClosed now => Some ([], connection_closed now m)
  | EvInject opcode bs => Some ([], inject_before opcode bs m)
  | EvOverride opcode code => Some ([], override_reply_code opcode code m)
  | EvRecord output input => Some ([], set_record_input input (set_record_output output m))
  | EvTakeOutput => Some ([], (take_output m).2)
  end.

Fixpoint sim_run (es : list sim_event) (m : EtherDreamModel) : option (list Reply * EtherDreamModel) :=
  match es with
  | [] => Some ([], m)
  | e :: es => '(rs, m) ← sim_step e m; '(rs', m) ← sim_run es m; Some (rs ++ rs', m)
  end.

Definition event_ok (e : sim_event) : Prop :=
  match e with EvFeed _ bs | EvInject _ bs => bytes bs | _ => True end.

(** The input buffer between commands. *)
Definition settled (m : EtherDreamModel) : Prop := model_ok m /\ bytes (m_input m) /\ command_complete (m_input m) = false.

Lemma play_loop_keeps f t m :
  m_input (play_loop f t m) = m_input m /\ m_hung (play_loop f t m) = m_hung m /\ m_profile (play_loop f t m) = m_profile m /\ m_now (play_loop f t m) = m_now m.
Proof.
  revert m. induction f as [|f IH]; intros m; [done|]. cbn [play_loop]. destruct (negb _); [done|]. destruct (_ <=? _); [done|].
  destruct (m_ring m) as [|p rest]; [done|]. destruct (IH (play_point p rest m)) as (-> & -> & -> & ->). unfold play_point.
  destruct (m_record_output _); destruct (negb _); try done; model_fields; by destruct (m_rate_queue m).
Qed.

Lemma advance_keeps now m : m_input (advance_to now m) = m_input m /\ m_hung (advance_to now m) = m_hung m /\
  m_profile (advance_to now m) = m_profile m /\ m_now (advance_to now m) = Z.max now (m_now m).
Proof.
  unfold advance_to. destruct (Z.leb_spec now (m_now m)); [rewrite Z.max_r by lia; done|]. rewrite Z.max_l by lia.
  destruct (play_loop_keeps (S (length (m_ring (end_warmup now (set_now now m))))) now (end_warmup now (set_now now m))) as (-> & -> & -> & ->).
  unfold end_warmup. destruct (m_warmup_until _); [|done]. by destruct (_ <=? _).
Qed.

Lemma set_input_ok v m : model_ok m -> model_ok (set_input v m).
Proof. intros []. model_ok_by. Qed.

Lemma feed_total now bs m : settled m -> bytes bs ->
  exists rs m', feed now bs m = Some (rs, m') /\ settled m' /\ m_profile m' = m_profile m /\ m_now m' = Z.max now (m_now m).
Proof.
  intros (Hm & Hi & Hc) Hb. unfold feed, process, process_with.
  set (m1 := advance_to now (set_input [] m)). assert (H1 : model_ok m1) by (by apply advance_ok, set_input_ok).
  destruct (advance_keeps now (set_input [] m)) as (Hin1 & Hh1 & Hp1 & Hn1). fold m1 in Hin1, Hh1, Hp1, Hn1.
  destruct (m_hung m1) eqn:Hh.
  - cbn [mbind option_bind]. exists [], (set_input [] m1). split; [done|]. split; [split; [by apply set_input_ok|split; [by constructor|done]]|]. done.
  - destruct (process_loop_total (S (length (m_input m ++ bs))) (m_input m ++ bs) [] m1) as (rest & new & m' & -> & Hok & Hk & Hbr & _ & Hcr); try done.
    + by apply Forall_app.
    + lia.
    + cbn [mbind option_bind app]. exists new, (set_input rest m'). split; [done|]. destruct Hk as (Hkp & Hkn & _).
      split; [split; [by apply set_input_ok|done]|]. model_fields. by rewrite Hkp, Hkn.
Qed.

Lemma model_status_wf m : model_ok m -> status_wf (model_status m).
Proof.
  intros Hm. pose proof (profile_flags _ (ok_profile _ Hm)) as Hflags. pose proof (profile_rate _ (ok_profile _ Hm)) as Hmax.
  pose proof (ok_sticky _ Hm) as Hst. pose proof (ok_count _ Hm) as Hcount.
  assert (He : 0 <= m_light_engine m < 2 ^ 8)
    by (pose proof (ok_engine _ Hm) as [[-> _]|[[-> | ->] _]]; cbv; split; congruence).
  assert (Hp : 0 <= m_playback m < 2 ^ 8) by (pose proof (ok_playback _ Hm) as [->|[[->|[-> _]] _]]; cbv; split; congruence).
  assert (Hr : 0 <= (if m_playback m =? PLAYBACK_PLAYING then m_seg_rate m else 0) < 2 ^ 32).
  { destruct (Z.eqb_spec (m_playback m) PLAYBACK_PLAYING) as [Hpl|]; [|lia].
    pose proof (ok_playback _ Hm) as [Hi|[[Hi|[_ Hr]] _]]; [rewrite Hpl in Hi; discriminate Hi..|]. unfold rate_ok in Hr. lia. }
  assert (Hc : 0 <= (if m_playback m =? PLAYBACK_PLAYING then m_point_count m else 0) < 2 ^ 32) by (destruct (_ =? _); lia).
  assert (Hfl : forall b, 0 <= b < 2 ^ 3 -> 0 <= Z.lor (Z.lor (fw_always_set_playback_flags (m_profile m)) (m_sticky m)) b < 2 ^ 16)
    by (intros b Hb; change (2 ^ 3) with 8 in *; change (2 ^ 16) with 65536 in *; apply (lor_range 16); [lia|apply (lor_range 16); lia|lia]).
  assert (Hf : 0 <= (if m_playback m =? PLAYBACK_PLAYING then PBF_SHUTTER else 0) < 2 ^ 3) by (unfold PBF_SHUTTER; destruct (m_playback m =? _); lia).
  assert (Hl : 0 <= (if m_light_engine m =? LIGHT_ENGINE_EMERGENCY_STOP then if light_engine_flags_mirror_state (m_profile m) then 3 else 1 else 0) < 2 ^ 16)
    by (destruct (m_light_engine m =? _), (light_engine_flags_mirror_state (m_profile m)); cbv; split; congruence).
  assert (Hb : 0 <= Z.min (Z.of_nat (length (m_ring m))) (umax 16) < 2 ^ 16) by (unfold umax; lia).
  exact (conj (conj (Z.le_refl 0) eq_refl) (conj He (conj Hp (conj (conj (Z.le_refl 0) eq_refl) (conj Hl (conj (Hfl _ Hf)
    (conj (conj (Z.le_refl 0) eq_refl) (conj Hb (conj Hr Hc))))))))).
Qed.

(** An event that leaves the input and the profile alone. *)
Lemma settled_same m m' : settled m -> model_ok m' -> m_input m' = m_input m -> settled m'.
Proof. intros (_ & Hb & Hc) Hm' Hi. unfold settled. rewrite Hi. done. Qed.

Lemma estop_settled m : settled m -> settled (estop m) /\ m_profile (estop m) = m_profile m.
Proof.
  intros Hs. pose proof (frame_estop m) as (Hp & _ & Hin & _). split; [|done]. eapply settled_same; [exact Hs| |exact Hin]. apply estop_ok, Hs.
Qed.

Lemma advance_settled now m : settled m -> settled (advance_to now m) /\ m_profile (advance_to now m) = m_profile m.
Proof.
  intros Hs. destruct (advance_keeps now m) as (Hin & _ & Hp & _). split; [|done]. eapply settled_same; [exact Hs| |exact Hin]. apply advance_ok, Hs.
Qed.

Lemma closed_settled now m : settled m -> settled (connection_closed now m) /\ m_profile (connection_closed now m) = m_profile m.
Proof.
  intros Hs. destruct (advance_settled now m Hs) as [Ha Hp]. unfold connection_closed. destruct (_ || _); [done|].
  set (m1 := set_rate_queue _ _). assert (H1 : model_ok m1) by (destruct Ha as ([] & _); unfold m1; model_ok_by).
  assert (Hf : frame m1 (clear_unless_stale m1)) by (by apply frame_clear). destruct Hf as (Hp1 & _ & Hi1 & _).
  split; [|rewrite Hp1; exact Hp]. eapply settled_same; [exact Ha|by apply clear_unless_stale_ok|]. rewrite Hi1. reflexivity.
Qed.

Lemma interlock_change b m : settled m -> settled (set_interlock_ok b m) /\ m_profile (set_interlock_ok b m) = m_profile m.
Proof. intros Hs. split; [|done]. eapply settled_same; [exact Hs| |done]. destruct Hs as ([] & _). model_ok_by. Qed.

Lemma sim_step_ok e m : settled m -> event_ok e -> exists rs m', sim_step e m = Some (rs, m') /\ settled m' /\ m_profile m' = m_profile m.
Proof.
  intros Hs He. pose proof Hs as (Hm & _ & _). destruct e; cbn [sim_step event_ok] in *.
  - destruct (feed_total now bs m Hs He) as (rs & m' & ? & ? & ? & _). by exists rs, m'.
  - do 2 eexists. split; [reflexivity|by apply advance_settled].
  - do 2 eexists. split; [reflexivity|]. unfold set_interlock. destruct (estop_settled m Hs) as [He1 He2].
    destruct (_ && _).
    + destruct (interlock_change ok (estop m) He1) as [? ->]. done.
    + by apply interlock_change.
  - do 2 eexists. split; [reflexivity|]. unfold trigger_estop. destruct (advance_settled now m Hs) as [Ha <-]. by apply estop_settled.
  - do 2 eexists. split; [reflexivity|by apply closed_settled].
  - do 2 eexists. split; [reflexivity|]. split; [|done]. eapply settled_same; [exact Hs| |reflexivity]. destruct Hm. unfold inject_before. model_ok_by.
  - do 2 eexists. split; [reflexivity|]. split; [|done]. eapply settled_same; [exact Hs| |reflexivity]. destruct Hm. unfold override_reply_code. model_ok_by.
  - do 2 eexists. split; [reflexivity|]. split; [|done]. eapply settled_same; [exact Hs| |reflexivity]. destruct Hm. model_ok_by.
  - do 2 eexists. split; [reflexivity|]. split; [|done]. eapply settled_same; [exact Hs| |reflexivity]. destruct Hm. cbn [take_output snd]. model_ok_by.
Qed.

Lemma sim_run_ok es m : settled m -> Forall event_ok es -> exists rs m', sim_run es m = Some (rs, m') /\ settled m' /\ m_profile m' = m_profile m.
Proof.
  intros Hm He. revert m Hm. induction He as [|e es He _ IH]; intros m Hm; [by exists [], m|]. cbn [sim_run].
  destruct (sim_step_ok e m Hm He) as (rs & m1 & -> & H1 & Hp1). cbn [mbind option_bind].
  destruct (IH m1 H1) as (rs' & m' & -> & H' & Hp'). cbn [mbind option_bind]. exists (rs ++ rs'), m'. split_and!; [done|done|congruence].
Qed.

(** C20. The simulator never fails: whatever bytes arrive, in whatever portions, and
    whatever the interlock, the panel, other clients and scripted replies do, on
    every firmware no command panics or is left unprocessed; the ring never holds
    more than the firmware's points, all of them well formed; no more points are
    played than were accepted; a stream exists only on a ready light engine; and
    every status it reports is a valid wire status. *)
Theorem simulator_never_fails p es : profile_ok p -> Forall event_ok es ->
  exists rs m, sim_run es (model_new p) = Some (rs, m) /\ command_complete (m_input m) = false /\
    Z.of_nat (length (m_ring m)) <= fw_ring_points p /\ Forall dac_point_wf (m_ring m) /\
    m_played_total m + Z.of_nat (length (m_ring m)) <= m_accepted_total m /\
    (m_playback m <> PLAYBACK_IDLE -> m_light_engine m = LIGHT_ENGINE_READY) /\
    status_wf (model_status m).
Proof.
  intros Hp He. assert (H0 : settled (model_new p)) by (split; [by apply model_new_ok|by split; [constructor|]]).
  destruct (sim_run_ok es (model_new p) H0 He) as (rs & m & Hr & (Hm & _ & Hc) & Hpr). exists rs, m.
  split; [done|]. split; [done|]. split; [pose proof (ok_ring _ Hm) as Hx; by rewrite Hpr in Hx|].
  split; [apply Hm|]. split; [apply Hm|]. split; [|by apply model_status_wf].
  intros Hi. by destruct (ok_playback _ Hm) as [?|[_ ?]].
Qed.

Lemma process_loop_acc f input rs0 rs m : process_loop f None None input (rs0 ++ rs) m =
  (fun '(i, r, m) => (i, rs0 ++ r, m)) <$> process_loop f None None input rs m.
Proof.
  revert input rs m. induction f as [|f IH]; intros input rs m; [done|]. rewrite !process_loop_eq.
  destruct (process_round input m) as [[m1|m1|n r m1]|]; cbn [mbind option_bind fmap option_fmap option_map]; try done.
  rewrite <- app_assoc. destruct (ends r); [done|]. apply IH.
Qed.

(** C21. TCP segmentation does not matter: as long as the first portion does not reset the
    connection, feeding two portions one after the other gives the replies and the
    state of feeding them at once - commands cut anywhere are completed, and a
    hung DAC stays silent either way. *)
Theorem tcp_segmentation now a b m rs m1 : settled m -> bytes a -> bytes b -> feed now a m = Some (rs, m1) -> Reset ∉ rs ->
  exists rs' m2, feed now b m1 = Some (rs', m2) /\ feed now (a ++ b) m = Some (rs ++ rs', m2).
Proof.
  intros (Hm & Hi & _) Ha Hb. unfold feed, process, process_with.
  set (m0 := advance_to now (set_input [] m)). assert (H0 : model_ok m0) by (by apply advance_ok, set_input_ok).
  destruct (advance_keeps now (set_input [] m)) as (Hin0 & _ & _ & Hn0). fold m0 in Hin0, Hn0. rewrite app_assoc.
  assert (Hagain : forall x r, m_input x = [] -> now <= m_now x -> advance_to now (set_input [] (set_input r x)) = x).
  { intros x r Hx Hn. unfold advance_to. model_fields. destruct (Z.leb_spec now (m_now x)); [|lia]. destruct x. model_fields. by rewrite Hx. }
  destruct (m_hung m0) eqn:Hh.
  - cbn [mbind option_bind]. intros [= <- <-] _. rewrite Hagain, Hh by (done || lia). cbn [mbind option_bind]. by do 2 eexists.
  - destruct (process_loop_total (S (length (m_input m ++ a))) (m_input m ++ a) [] m0) as (rest & new & m' & Hrun & Hok & Hk & Hbr & _ & _); try done; [by apply Forall_app|lia|].
    rewrite Hrun. cbn [mbind option_bind app]. intros [= <- <-] Hreset. destruct Hk as (_ & Hkn & Hki & _).
    rewrite Hagain by (rewrite ?Hki, ?Hkn; done || lia).
    rewrite (process_loop_app (S (length (m_input m ++ a))) (S (length ((m_input m ++ a) ++ b))) (S (length (rest ++ b))) (m_input m ++ a) b [] m0 rest ([] ++ new) m' H0 ltac:(by apply Forall_app) Hb Hh ltac:(lia) ltac:(lia) ltac:(lia) Hrun Hreset).
    change (m_input (set_input rest m')) with rest. destruct (m_hung m') eqn:Hh'; cbn [mbind option_bind].
    { do 2 eexists. split; [done|]. by rewrite app_nil_r. }
    rewrite <- (app_nil_r ([] ++ new)), process_loop_acc. cbn [app].
    destruct (process_loop_total (S (length (rest ++ b))) (rest ++ b) [] m') as (rest' & new' & m'' & -> & _); try done; [by apply Forall_app|lia|].
    cbn [mbind option_bind fmap option_fmap option_map app]. by do 2 eexists.
Qed.
End runs.

(** ** A run on a real firmware *)
Module Demo.
Lemma ed2_ok : profile_ok ed2_r331.
Proof. by split. Qed.

(** Prepare, write two points and begin at 1000 points per second. *)
Definition stream_bytes : list Z := [112; 100; 2; 0] ++ replicate 36 0 ++ [98; 0; 0; 0xe8; 3; 0; 0].

Lemma stream_bytes_ok : bytes stream_bytes.
Proof. unfold bytes, stream_bytes. apply Forall_app. split; [|apply Forall_app; split; [by apply Forall_replicate|]]; repeat constructor; done. Qed.

Definition playing : EtherDreamModel := default (model_new ed2_r331) (snd <$> @feed stdlib_byte_order 5 stream_bytes (model_new ed2_r331)).

Lemma new_settled : @settled stdlib_byte_order (model_new ed2_r331).
Proof. split; [apply model_new_ok, ed2_ok|by split; [constructor|]]. Qed.

Lemma playing_ok : model_ok playing.
Proof.
  destruct (@feed_total stdlib_byte_order 5 stream_bytes (model_new ed2_r331) new_settled stream_bytes_ok) as (rs & m & Hf & Hs & _).
  unfold playing. rewrite Hf. apply Hs.
Qed.

Lemma simulator_never_fails_witness :
  exists rs m, @sim_run stdlib_byte_order [EvFeed 5 stream_bytes; EvAdvance 4000000; EvEstop 5000000; EvClosed 6000000] (model_new ed2_r331) = Some (rs, m) /\
    m_played_total m + Z.of_nat (length (m_ring m)) <= m_accepted_total m /\ m_accepted_total m = 2.
Proof.
  destruct (@simulator_never_fails stdlib_byte_order ed2_r331 [EvFeed 5 stream_bytes; EvAdvance 4000000; EvEstop 5000000; EvClosed 6000000] ed2_ok) as (rs & m & Hr & _ & _ & _ & Ht & _).
  - constructor; [exact stream_bytes_ok|]. by repeat constructor.
  - exists rs, m. split; [exact Hr|]. split; [exact Ht|]. vm_compute in Hr. by injection Hr as <- <-.
Defined.

(** Halfway through the second point, and on to the underflow. *)
Lemma sim_time_is_continuous_witness :
  m_playback playing = PLAYBACK_PLAYING /\ m_playback (advance_to 4000000 playing) = PLAYBACK_IDLE /\
  advance_to 4000000 (advance_to 1500000 playing) = advance_to 4000000 playing.
Proof.
  split; [by vm_compute|]. split; [by vm_compute|]. apply sim_time_is_continuous; [exact playing_ok|lia].
Defined.

Lemma tcp_segmentation_witness :
  exists rs m1 rs' m2, @feed stdlib_byte_order 5 (take 20 stream_bytes) (model_new ed2_r331) = Some (rs, m1) /\ length rs = 1%nat /\
    @feed stdlib_byte_order 5 (drop 20 stream_bytes) m1 = Some (rs', m2) /\
    @feed stdlib_byte_order 5 (take 20 stream_bytes ++ drop 20 stream_bytes) (model_new ed2_r331) = Some (rs ++ rs', m2).
Proof.
  assert (Hb : bytes (take 20 stream_bytes)) by (apply Forall_take, stream_bytes_ok).
  destruct (@feed stdlib_byte_order 5 (take 20 stream_bytes) (model_new ed2_r331)) as [[rs m1]|] eqn:Hf; [|by vm_compute in Hf].
  assert (Hrs : (Reset ∉ rs) /\ length rs = 1%nat).
  { vm_compute in Hf. injection Hf as <- <-. split; [|done]. intros Hin. by apply list_elem_of_singleton in Hin. }
  destruct (@tcp_segmentation stdlib_byte_order 5 (take 20 stream_bytes) (drop 20 stream_bytes) (model_new ed2_r331) rs m1 new_settled Hb
    (Forall_drop _ _ _ stream_bytes_ok) Hf (proj1 Hrs)) as (rs' & m2 & H1 & H2).
  exists rs, m1, rs', m2. split; [reflexivity|]. split; [exact (proj2 Hrs)|]. split; [exact H1|exact H2].
Defined.
End Demo.
