(* ===== verification/EtherStream.v ===== *)
(** * The Ether Dream connection

    Models [src/src/protocols/ether_dream/dac/mod.rs] and
    [src/src/protocols/ether_dream/dac/stream.rs]: the DAC's status as the client
    keeps it, and the TCP stream that sends queued commands and reads one response
    for each.  A [Net] holds the clock, the bytes and events the next reads
    deliver, and the peer that answers what is written; the peer is a class, so
    that the stream can face a scripted socket or the simulator.  The scratch
    buffer the code reuses for encoding and decoding is not part of the state. *)

From S2P Require Import Prelude Floats Point Presentation Bytes Utf8 EtherDream EtherModel.

#[local] Open Scope Z_scope.

(** ** The DAC as the client sees it *)

Inductive LightEngine :=
  | LeReady
  | LeWarmup
  | LeCooldown
  | LeEmergencyStop.

Inductive Playback :=
  | Idle
  | Prepared
  | Playing.

(** Flags are the known bits of their words. *)
Inductive DataSource :=
  | NetworkStreaming
  | IldaPlayback (flags : Z)
  | InternalAbstractGenerator (flags : Z).

#[export] Instance LightEngine_eq_dec : EqDecision LightEngine.
Proof. solve_decision. Defined.

#[export] Instance Playback_eq_dec : EqDecision Playback.
Proof. solve_decision. Defined.

#[export] Instance DataSource_eq_dec : EqDecision DataSource.
Proof. solve_decision. Defined.

Record Status := mkDacStatus {
  sd_protocol : Z;
  sd_light_engine : LightEngine;
  sd_playback : Playback;
  sd_data_source : DataSource;
  sd_light_engine_flags : Z;
  sd_playback_flags : Z;
  sd_buffer_fullness : Z;
  sd_point_rate : Z;
  sd_point_count : Z;
}.

(** [Addressed] with its [Dac]. *)
Record Addressed := mkDac {
  ad_mac_address : list Z;
  ad_hw_revision : Z;
  ad_sw_revision : Z;
  ad_buffer_capacity : Z;
  ad_max_point_rate : Z;
  ad_status : Status;
}.

Inductive ProtocolError :=
  | UnknownLightEngineState
  | UnknownPlaybackState
  | UnknownDataSource.

(** [from_bits_truncate] keeps the defined bits. *)
Definition LIGHT_ENGINE_FLAGS : Z := 0x3f.
Definition PLAYBACK_FLAGS : Z := 7.
Definition ILDA_PLAYBACK_FLAGS : Z := 1.
Definition GENERATOR_FLAGS : Z := 0.

Definition light_engine_from (state : Z) : option LightEngine :=
  if state =? LIGHT_ENGINE_READY then Some LeReady
  else if state =? LIGHT_ENGINE_WARMUP then Some LeWarmup
  else if state =? LIGHT_ENGINE_COOLDOWN then Some LeCooldown
  else if state =? LIGHT_ENGINE_EMERGENCY_STOP then Some LeEmergencyStop
  else None.

Definition light_engine_to (l : LightEngine) : Z :=
  match l with
  | LeReady => LIGHT_ENGINE_READY
  | LeWarmup => LIGHT_ENGINE_WARMUP
  | LeCooldown => LIGHT_ENGINE_COOLDOWN
  | LeEmergencyStop => LIGHT_ENGINE_EMERGENCY_STOP
  end.

Definition playback_from (state : Z) : option Playback :=
  if state =? PLAYBACK_IDLE then Some Idle
  else if state =? PLAYBACK_PREPARED then Some Prepared
  else if state =? PLAYBACK_PLAYING then Some Playing
  else None.

Definition playback_to (p : Playback) : Z :=
  match p with Idle => PLAYBACK_IDLE | Prepared => PLAYBACK_PREPARED | Playing => PLAYBACK_PLAYING end.

Definition data_source_from (source flags : Z) : option DataSource :=
  if source =? SOURCE_NETWORK_STREAMING then Some NetworkStreaming
  else if source =? SOURCE_ILDA_PLAYBACK_SD then Some (IldaPlayback (Z.land flags ILDA_PLAYBACK_FLAGS))
  else if source =? SOURCE_INTERNAL_ABSTRACT_GENERATOR then Some (InternalAbstractGenerator (Z.land flags GENERATOR_FLAGS))
  else None.

Definition data_source_to (d : DataSource) : Z * Z :=
  match d with
  | NetworkStreaming => (SOURCE_NETWORK_STREAMING, 0)
  | IldaPlayback flags => (SOURCE_ILDA_PLAYBACK_SD, flags)
  | InternalAbstractGenerator flags => (SOURCE_INTERNAL_ABSTRACT_GENERATOR, flags)
  end.

(** [Status::from_protocol]; [update] keeps the old status on an error. *)
Definition status_from (s : DacStatus) : Status + ProtocolError :=
  match light_engine_from (st_light_engine_state s) with
  | None => inr UnknownLightEngineState
  | Some le =>
      match playback_from (st_playback_state s) with
      | None => inr UnknownPlaybackState
      | Some pb =>
          match data_source_from (st_source s) (st_source_flags s) with
          | None => inr UnknownDataSource
          | Some ds =>
              inl (mkDacStatus (st_protocol s) le pb ds (Z.land (st_light_engine_flags s) LIGHT_ENGINE_FLAGS)
                (Z.land (st_playback_flags s) PLAYBACK_FLAGS) (st_buffer_fullness s) (st_point_rate s) (st_point_count s))
          end
      end
  end.

Definition status_to (s : Status) : DacStatus :=
  let '(source, source_flags) := data_source_to (sd_data_source s) in
  mkStatus (sd_protocol s) (light_engine_to (sd_light_engine s)) (playback_to (sd_playback s)) source
    (sd_light_engine_flags s) (sd_playback_flags s) source_flags (sd_buffer_fullness s) (sd_point_rate s) (sd_point_count s).

Definition from_broadcast (b : DacBroadcast) : Addressed + ProtocolError :=
  match status_from (bc_status b) with
  | inl status => inl (mkDac (mac_address b) (hw_revision b) (sw_revision b) (buffer_capacity b) (max_point_rate b) status)
  | inr e => inr e
  end.

Definition update_status (s : DacStatus) (d : Addressed) : Addressed + ProtocolError :=
  match status_from s with
  | inl status => inl (mkDac (ad_mac_address d) (ad_hw_revision d) (ad_sw_revision d) (ad_buffer_capacity d) (ad_max_point_rate d) status)
  | inr e => inr e
  end.

(** ** Errors *)

Inductive Nak :=
  | NakFull
  | NakInvalid
  | NakStopCondition.

Definition nak_from (nak : Z) : option Nak :=
  if nak =? NAK_FULL then Some NakFull
  else if nak =? NAK_INVALID then Some NakInvalid
  else if nak =? NAK_STOP_CONDITION then Some NakStopCondition
  else None.

Definition nak_to (n : Nak) : Z :=
  match n with NakFull => NAK_FULL | NakInvalid => NAK_INVALID | NakStopCondition => NAK_STOP_CONDITION end.

Inductive ResponseErrorKind :=
  | UnexpectedCommand (c : Z)
  | KindNak (n : Nak).

Inductive tcp_error :=
  | TcpInvalidInput
  | TcpInvalidData
  | TcpUnexpectedEof
  | TcpTimedOut
  | TcpOther (code : Z).

(** [CommunicationError], with [ResponseError]'s fields inline. *)
Inductive CommunicationError :=
  | CommIo (e : tcp_error)
  | CommProtocol (e : ProtocolError)
  | CommResponse (response : DacResponse) (kind : ResponseErrorKind).

#[export] Instance Nak_eq_dec : EqDecision Nak.
Proof. solve_decision. Defined.

Definition check_errors (r : DacResponse) (expected_command : Z) : option CommunicationError :=
  if negb (response_command r =? expected_command) then Some (CommResponse r (UnexpectedCommand (response_command r)))
  else match nak_from (response r) with Some nak => Some (CommResponse r (KindNak nak)) | None => None end.

(** ** The socket *)

Definition READ_TIMEOUT : Z := 500000000.
Definition READ_BUDGET : Z := 2000000000.
Definition VERSION_BUDGET : Z := 500000000.
Definition WRITE_TIMEOUT : Z := 2000000000.
Definition MAX_RETRIES : nat := 5.

(** What the next reads deliver; no event left means that nothing comes. *)
Inductive tcp_event :=
  | Incoming (bs : list Z)
  | ReadTimedOut
  | ReadInterrupted
  | ReadFailed (e : tcp_error).

(** The other end: what it does with written bytes, and what then arrives. *)
Class Peer (P : Type) := {
  peer_receive : Z -> list Z -> P -> P * list tcp_event * option tcp_error;
}.

Record Net (P : Type) := mkNet {
  n_now : Z;
  n_ticks : list N;
  n_pending : list tcp_event;
  n_peer : P;
}.
Arguments mkNet {P}.
Arguments n_now {P}.
Arguments n_ticks {P}.
Arguments n_pending {P}.
Arguments n_peer {P}.

Section net.
Context {P : Type} `{!Peer P}.
Implicit Types n : Net P.

(** [Instant::now()]. *)
Definition clock n : Z * Net P :=
  match n_ticks n with
  | d :: ticks => (n_now n + Z.of_N d, mkNet (n_now n + Z.of_N d) ticks (n_pending n) (n_peer n))
  | [] => (n_now n, n)
  end.

Inductive read_result :=
  | Got (bs : list Z)
  | GotTimeout
  | GotInterrupt
  | GotError (e : tcp_error).

Definition set_pending (p : list tcp_event) n : Net P := mkNet (n_now n) (n_ticks n) p (n_peer n).

(** [reader.read(&mut buf)] of a [cap]-byte buffer: what is there, at most [cap]
    bytes (none is the end of the stream), or the read timeout. *)
Definition tcp_read (cap : nat) n : read_result * Net P :=
  let timed_out rest := (GotTimeout, mkNet (n_now n + READ_TIMEOUT) (n_ticks n) rest (n_peer n)) in
  match n_pending n with
  | Incoming bs :: rest =>
      (Got (take cap bs), set_pending (match drop cap bs with [] => rest | more => Incoming more :: rest end) n)
  | ReadTimedOut :: rest => timed_out rest
  | ReadInterrupted :: rest => (GotInterrupt, set_pending rest n)
  | ReadFailed e :: rest => (GotError e, set_pending rest n)
  | [] => timed_out []
  end.

(** [tcp_stream.write_all(bytes)]. *)
Definition write_all (bs : list Z) n : option tcp_error * Net P :=
  let '(peer, events, r) := peer_receive (n_now n) bs (n_peer n) in
  (r, mkNet (n_now n) (n_ticks n) (n_pending n ++ events) peer).

(** The loop of [read_exact_with_budget]: [want] bytes are still missing. *)
Fixpoint read_exact_loop (fuel want : nat) (start budget : Z) (buf : list Z) n : (list Z + tcp_error) * Net P :=
  match want, fuel with
  | O, _ => (inl buf, n)
  | _, O => (inr TcpTimedOut, n)
  | _, S fuel =>
      match tcp_read want n with
      | (Got [], n) => (inr TcpUnexpectedEof, n)
      | (Got bs, n) => read_exact_loop fuel (want - length bs) start budget (buf ++ bs) n
      | (GotInterrupt, n) => read_exact_loop fuel want start budget buf n
      | (GotTimeout, n) =>
          let '(t, n) := clock n in
          if budget <=? sat_sub t start then (inr TcpTimedOut, n) else read_exact_loop fuel want start budget buf n
      | (GotError e, n) => (inr e, n)
      end
  end.

Definition read_fuel (want : nat) (budget : Z) n : nat := (want + length (n_pending n) + Z.to_nat (budget / READ_TIMEOUT) + 2)%nat.

Definition read_exact_with_budget (want : nat) (budget : Z) n : (list Z + tcp_error) * Net P :=
  let '(start, n) := clock n in
  read_exact_loop (read_fuel want budget n) want start budget [] n.
End net.

(** ** The stream *)

Inductive QueuedCommand :=
  | QPrepareStream
  | QBegin (low_water_mark point_rate : Z)
  | QUpdate (low_water_mark point_rate : Z)
  | QPointRate (rate : Z)
  | QData (first last : nat)
  | QStop
  | QEmergencyStop
  | QClearEmergencyStop
  | QPing.

(** [QueuedCommand::point_rate]. *)
Definition queued_rate (q : QueuedCommand) : option Z :=
  match q with QBegin _ rate | QUpdate _ rate | QPointRate rate => Some rate | _ => None end.

Record Stream := mkStream {
  es_dac : Addressed;
  es_command_buffer : list QueuedCommand;
  es_point_buffer : list DacPoint;
  es_status_sent_at : Z;
  es_status_received_at : Z;
}.

Definition stream_eta (s : Stream) : Stream :=
  mkStream (es_dac s) (es_command_buffer s) (es_point_buffer s) (es_status_sent_at s) (es_status_received_at s).

Definition set_dac (v : Addressed) (s : Stream) : Stream := ltac:(update_field stream_eta es_dac v s).
Definition set_command_buffer (v : list QueuedCommand) (s : Stream) : Stream := ltac:(update_field stream_eta es_command_buffer v s).
Definition set_point_buffer (v : list DacPoint) (s : Stream) : Stream := ltac:(update_field stream_eta es_point_buffer v s).
Definition set_status_sent_at (v : Z) (s : Stream) : Stream := ltac:(update_field stream_eta es_status_sent_at v s).
Definition set_status_received_at (v : Z) (s : Stream) : Stream := ltac:(update_field stream_eta es_status_received_at v s).

(** The queue under construction. *)
Definition queue_commands (s : Stream) : Stream := set_point_buffer [] (set_command_buffer [] s).

Definition push_command (q : QueuedCommand) (s : Stream) : Stream := set_command_buffer (es_command_buffer s ++ [q]) s.

Definition queue_prepare_stream : Stream -> Stream := push_command QPrepareStream.
Definition queue_begin (low_water_mark point_rate : Z) : Stream -> Stream := push_command (QBegin low_water_mark point_rate).
Definition queue_update (low_water_mark point_rate : Z) : Stream -> Stream := push_command (QUpdate low_water_mark point_rate).
Definition queue_point_rate (rate : Z) : Stream -> Stream := push_command (QPointRate rate).
Definition queue_stop : Stream -> Stream := push_command QStop.
Definition queue_emergency_stop : Stream -> Stream := push_command QEmergencyStop.
Definition queue_clear_emergency_stop : Stream -> Stream := push_command QClearEmergencyStop.
Definition queue_ping : Stream -> Stream := push_command QPing.

(** [data]: at most 65535 points, the rest is dropped. *)
Definition queue_data (points : list DacPoint) (s : Stream) : Stream :=
  let start := length (es_point_buffer s) in
  let buffer := es_point_buffer s ++ points in
  let stop := length buffer in
  if decide (Z.to_nat (umax 16) < stop - start)%nat then
    let stop := (start + Z.to_nat (umax 16))%nat in
    push_command (QData start stop) (set_point_buffer (take stop buffer) s)
  else push_command (QData start stop) (set_point_buffer buffer s).

(** The wire command of a queued one; a data range indexes the point buffer. *)
Definition wire_command (buffer : list DacPoint) (q : QueuedCommand) : Command :=
  match q with
  | QPrepareStream => PrepareStream
  | QBegin lwm rate => Begin lwm rate
  | QUpdate lwm rate => Update lwm rate
  | QPointRate rate => PointRate rate
  | QData first last => Data (take (last - first) (drop first buffer))
  | QStop => StopCmd
  | QEmergencyStop => EmergencyStop
  | QClearEmergencyStop => ClearEmergencyStop
  | QPing => Ping
  end.

(** [submit]'s check: rates a firmware hangs on or reads as other commands. *)
Definition unsafe_rate (max_rate rate : Z) : bool := (rate =? 0) || ((0 <? max_rate) && (max_rate <? rate)).

Definition io_kind (e : io_error) : tcp_error :=
  match e with UnexpectedEof => TcpUnexpectedEof | InvalidData => TcpInvalidData | InvalidInput => TcpInvalidInput end.

Section stream.
Context `{ByteOrder} {P : Type} `{!Peer P}.
Implicit Types n : Net P.

(** [send_command]. *)
Definition send_command (c : Command) n : option CommunicationError * Net P :=
  match write_command c with
  | IoErr e => (Some (CommIo (io_kind e)), n)
  | IoOk bs => let '(r, n) := write_all bs n in (CommIo <$> r, n)
  end.

(** One attempt of [recv_response_buffered]: the response is for the expected
    command, stale, or an error. *)
Inductive received :=
  | Answer (r : option CommunicationError)
  | Skipped.

Definition recv_one (expected_command : Z) (d : Addressed) n : received * Addressed * Net P :=
  let '(r, n) := read_exact_with_budget response_size READ_BUDGET n in
  match r with
  | inr e => (Answer (Some (CommIo e)), d, n)
  | inl bs =>
      match read_response bs with
      | IoErr e => (Answer (Some (CommIo (io_kind e))), d, n)
      | IoOk (resp, _) =>
          match update_status (response_status resp) d with
          | inr e => (Answer (Some (CommProtocol e)), d, n)
          | inl d =>
              if response_command resp =? expected_command then (Answer (check_errors resp expected_command), d, n)
              else if (response resp =? ACK) || (response resp =? NAK_INVALID) then (Skipped, d, n)
              else (Answer (Some (CommResponse resp (UnexpectedCommand (response_command resp)))), d, n)
          end
      end
  end.

Fixpoint recv_attempts (attempts : nat) (expected_command : Z) (d : Addressed) n : option CommunicationError * Addressed * Net P :=
  match attempts with
  | O => (Some (CommIo (TcpOther 0)), d, n)
  | S attempts =>
      match recv_one expected_command d n with
      | (Answer r, d, n) => (r, d, n)
      | (Skipped, d, n) => recv_attempts attempts expected_command d n
      end
  end.

Definition recv_response_buffered (expected_command : Z) (d : Addressed) n : option CommunicationError * Addressed * Net P :=
  recv_attempts (S MAX_RETRIES) expected_command d n.

(** The sending half of [submit]: the start bytes and send times, or the error. *)
Fixpoint send_queued (buffer : list DacPoint) (queue : list QueuedCommand) n : (list (Z * Z) + CommunicationError) * Net P :=
  match queue with
  | [] => (inl [], n)
  | q :: queue =>
      let '(t, n) := clock n in
      match send_command (wire_command buffer q) n with
      | (Some e, n) => (inr e, n)
      | (None, n) =>
          match send_queued buffer queue n with
          | (inl sent, n) => (inl ((start_byte (wire_command buffer q), t) :: sent), n)
          | (inr e, n) => (inr e, n)
          end
      end
  end.

(** The receiving half: every response is read, the first NAK is remembered. *)
Fixpoint recv_all (sent : list (Z * Z)) (first_nak : option CommunicationError) (s : Stream) n : option CommunicationError * Stream * Net P :=
  match sent with
  | [] => (first_nak, s, n)
  | (command_byte, sent_at) :: sent =>
      let '(r, d, n) := recv_response_buffered command_byte (es_dac s) n in
      let s := set_dac d s in
      let '(received_at, n) := clock n in
      match r with
      | None => recv_all sent first_nak (set_status_received_at received_at (set_status_sent_at sent_at s)) n
      | Some (CommResponse resp (KindNak nak)) =>
          let e := CommResponse resp (KindNak nak) in
          recv_all sent (Some (default e first_nak)) (set_status_received_at received_at (set_status_sent_at sent_at s)) n
      | Some e => (Some e, s, n)
      end
  end.

(** [submit]: [None] is success. *)
Definition submit (s : Stream) n : option CommunicationError * Stream * Net P :=
  let max_rate := ad_max_point_rate (es_dac s) in
  match list_find (fun rate => unsafe_rate max_rate rate = true) (omap queued_rate (es_command_buffer s)) with
  | Some _ => (Some (CommIo TcpInvalidInput), set_point_buffer [] (set_command_buffer [] s), n)
  | None =>
      let queue := es_command_buffer s in
      let s := set_command_buffer [] s in
      match send_queued (es_point_buffer s) queue n with
      | (inr e, n) => (Some e, s, n)
      | (inl sent, n) => recv_all sent None s n
      end
  end.

Definition VERSION_RESPONSE_SIZE : nat := 32.

(** [Version::decode_response]: the build string up to its padding. *)
Definition decode_response (raw : list Z) : str :=
  from_utf8_lossy (match list_find (fun b => b = 0) raw with Some (i, _) => take i raw | None => raw end).

Definition query_version (s : Stream) n : (option str + CommunicationError) * Stream * Net P :=
  let '(sent_at, n) := clock n in
  match send_command Version n with
  | (Some e, n) => (inr e, s, n)
  | (None, n) =>
      match read_exact_with_budget response_size VERSION_BUDGET n with
      | (inr e, n) => (inr (CommIo e), s, n)
      | (inl front, n) =>
          if bool_decide (is_Some (nak_from (front !!! 0%nat))) && (front !!! 1%nat =? start_byte Version) then
            match read_response front with
            | IoErr e => (inr (CommIo (io_kind e)), s, n)
            | IoOk (resp, _) =>
                match update_status (response_status resp) (es_dac s) with
                | inr e => (inr (CommProtocol e), s, n)
                | inl d =>
                    let '(t, n) := clock n in
                    (inl None, set_status_received_at t (set_status_sent_at sent_at (set_dac d s)), n)
                end
            end
          else
            match read_exact_with_budget (VERSION_RESPONSE_SIZE - response_size) VERSION_BUDGET n with
            | (inr e, n) => (inr (CommIo e), s, n)
            | (inl tail, n) => (inl (Some (decode_response (front ++ tail))), s, n)
            end
      end
  end.

(** ** Connecting *)

Definition SYNTHETIC_BUFFER_CAPACITY : Z := 1799.
Definition SYNTHETIC_MAX_POINT_RATE : Z := 100000.

Definition synthetic_broadcast : DacBroadcast :=
  mkBroadcast [0; 0; 0; 0; 0; 0] 0 0 SYNTHETIC_BUFFER_CAPACITY SYNTHETIC_MAX_POINT_RATE
    (mkStatus 0 LIGHT_ENGINE_READY PLAYBACK_IDLE SOURCE_NETWORK_STREAMING 0 0 0 0 0 0).

(** [connect_inner]: [opened] is the connected socket at the moment the call
    returns, or why there is none; the hello is the first response. *)
Definition connect_inner (broadcast : DacBroadcast) (opened : Z -> Net P + tcp_error) (now : Z) : (Stream * Net P) + CommunicationError :=
  match from_broadcast broadcast with
  | inr e => inr (CommProtocol e)
  | inl dac =>
      match opened now with
      | inr e => inr (CommIo e)
      | inl n =>
          match recv_response_buffered (start_byte Ping) dac n with
          | (Some e, _, _) => inr e
          | (None, dac, n) =>
              let '(hello_received_at, n) := clock n in
              inl (mkStream dac [] [] now hello_received_at, n)
          end
      end
  end.

Definition connect_to (broadcast : option DacBroadcast) (opened : Z -> Net P + tcp_error) (now : Z) : (Stream * Net P) + CommunicationError :=
  connect_inner (default synthetic_broadcast broadcast) opened now.
End stream.

(** ** Status conversions *)

Definition status_known (s : Status) : Prop :=
  Z.land (sd_light_engine_flags s) LIGHT_ENGINE_FLAGS = sd_light_engine_flags s /\
  Z.land (sd_playback_flags s) PLAYBACK_FLAGS = sd_playback_flags s /\
  match sd_data_source s with
  | NetworkStreaming => True
  | IldaPlayback f => Z.land f ILDA_PLAYBACK_FLAGS = f
  | InternalAbstractGenerator f => Z.land f GENERATOR_FLAGS = f
  end.

Lemma status_round_trip s : status_known s -> status_from (status_to s) = inl s.
Proof.
  intros (Hl & Hp & Hd). destruct s as [proto le pb ds lef pbf full rate count]. unfold status_to. cbn in *.
  destruct ds as [|f|f]; cbn in Hd; unfold status_from; cbn -[Z.land];
    (destruct le; destruct pb; cbn -[Z.land]; by rewrite Hl, Hp, ?Hd).
Qed.

(** ** Reading *)

(** The events deliver exactly these bytes, without waiting. *)
Inductive delivers : list tcp_event -> list Z -> Prop :=
  | delivers_nil : delivers [] []
  | delivers_bytes b es bs : b <> [] -> delivers es bs -> delivers (Incoming b :: es) (b ++ bs)
  | delivers_interrupt es bs : delivers es bs -> delivers (ReadInterrupted :: es) bs.

Lemma delivers_app es es' bs bs' : delivers es bs -> delivers es' bs' -> delivers (es ++ es') (bs ++ bs').
Proof. induction 1; intros; cbn; rewrite <- ?app_assoc; [done|constructor; auto..]. Qed.

Section reading.
Context {P : Type} `{!Peer P}.
Implicit Types n : Net P.

(** Reading what is delivered. *)
Lemma read_exact_delivers fuel want start budget buf n a rest :
  delivers (n_pending n) (a ++ rest) -> length a = want -> (want + length (n_pending n) < fuel)%nat ->
  exists p', read_exact_loop fuel want start budget buf n = (inl (buf ++ a), set_pending p' n) /\ delivers p' rest.
Proof.
  revert want buf n a. induction fuel as [|fuel IH]; intros want buf n a Hd Ha Hf; [lia|]. destruct want as [|want].
  { apply nil_length_inv in Ha as ->. exists (n_pending n). rewrite app_nil_r. destruct n. by split. }
  destruct a as [|x a]; [done|]. cbn [read_exact_loop]. unfold tcp_read. remember ((x :: a) ++ rest) as all eqn:Hall.
  destruct Hd as [|b es bs Hb Hd|es bs Hd]; [done| |].
  - set (cap := S want) in *. cbn [length] in Hf.
    assert (Htake : take cap b <> []) by (destruct b; [done|]; by unfold cap).
    set (p1 := match drop cap b with [] => es | more => Incoming more :: es end).
    destruct (decide (length b <= cap)%nat) as [Hle|Hgt].
    + assert (Hp1 : p1 = es) by (unfold p1; by rewrite drop_ge). rewrite (take_ge b cap) in * by done.
      assert (Hsplit : x :: a = b ++ drop (length b) (x :: a) /\ bs = drop (length b) (x :: a) ++ rest).
      { assert (Hx := f_equal (take (length b)) Hall). rewrite take_app_length, take_app_le in Hx by lia.
        assert (Hy := f_equal (drop (length b)) Hall). rewrite drop_app_length, drop_app_le in Hy by lia.
        split; [|done]. by rewrite Hx at 1; rewrite take_drop. }
      destruct Hsplit as [Hxa Hbs]. destruct b as [|b0 b]; [done|]. set (bb := b0 :: b) in *.
      destruct (IH (cap - length bb)%nat (buf ++ bb) (set_pending p1 n) (drop (length bb) (x :: a))) as (p' & Hr & Hd').
      * change (n_pending (set_pending p1 n)) with p1. by rewrite Hp1, <- Hbs.
      * rewrite length_drop. unfold cap. lia.
      * change (n_pending (set_pending p1 n)) with p1. rewrite Hp1. assert (1 <= length bb)%nat by (cbn; lia). lia.
      * exists p'. split; [|done].
        rewrite Hr. rewrite <- app_assoc, <- Hxa. done.
    + assert (Hlen : length (take cap b) = cap) by (rewrite length_take; lia).
      assert (Hta : take cap b = x :: a).
      { assert (Hx := f_equal (take cap) Hall). rewrite !take_app_le in Hx by lia. rewrite Hx. by rewrite <- Ha, firstn_all. }
      assert (Hdr : drop cap b ++ bs = rest).
      { assert (Hx := f_equal (drop cap) Hall). rewrite drop_app_le in Hx by lia. rewrite Hx. by rewrite <- Ha, drop_app_length. }
      rewrite Hta. exists p1. rewrite Ha, Nat.sub_diag. destruct fuel as [|fuel]; [lia|]. cbn [read_exact_loop].
      split; [done|]. unfold p1. destruct (drop cap b) as [|y more] eqn:Hdb.
      { assert (length (drop cap b) = 0)%nat by (by rewrite Hdb). rewrite length_drop in *. lia. }
      rewrite <- Hdr. by apply (delivers_bytes (y :: more)).
  - cbn [length] in Hf. destruct (IH (S want) buf (set_pending es n) (x :: a)) as (p' & Hr & Hd'); [change (n_pending (set_pending es n)) with es; by rewrite <- Hall|done|cbn; lia|].
    exists p'. done.
Qed.
(** The fuel is enough: every round takes bytes, uses up an event, or spends the read
    timeout out of the budget. *)
Definition reads_left (want : nat) (start budget : Z) n : nat :=
  (want + length (n_pending n) + Z.to_nat (Z.max 0 (start + budget - n_now n) / READ_TIMEOUT))%nat.

Lemma reads_left_timeout want start budget n n' : (length (n_pending n') <= length (n_pending n))%nat -> n_now n + READ_TIMEOUT <= n_now n' ->
  n_now n' - start < budget -> (reads_left want start budget n' < reads_left want start budget n)%nat.
Proof.
  intros Hp Ht Hb. unfold reads_left, READ_TIMEOUT in *. rewrite !Z.max_r by lia.
  pose proof (Z.div_le_mono (start + budget - n_now n' + 1 * 500000000) (start + budget - n_now n) 500000000 ltac:(done) ltac:(lia)) as Hd.
  rewrite Z.div_add in Hd by done. pose proof (Z.div_pos (start + budget - n_now n') 500000000 ltac:(lia) ltac:(done)). lia.
Qed.

Lemma read_exact_fuel f g want start budget buf n : (reads_left want start budget n < f)%nat -> (reads_left want start budget n < g)%nat ->
  read_exact_loop f want start budget buf n = read_exact_loop g want start budget buf n.
Proof.
  revert g want buf n. induction f as [|f IH]; intros [|g] want buf n Hf Hg; [lia..|]. destruct want as [|want]; [done|]. cbn [read_exact_loop].
  set (cap := S want) in *.
  assert (Hout : forall rest, (length rest <= length (n_pending n))%nat ->
    (let '(t, n') := clock (mkNet (n_now n + READ_TIMEOUT) (n_ticks n) rest (n_peer n)) in
     if budget <=? sat_sub t start then (inr TcpTimedOut, n') else read_exact_loop f cap start budget buf n') =
    (let '(t, n') := clock (mkNet (n_now n + READ_TIMEOUT) (n_ticks n) rest (n_peer n)) in
     if budget <=? sat_sub t start then (inr TcpTimedOut, n') else read_exact_loop g cap start budget buf n')).
  { intros rest Hr. set (n0 := mkNet _ _ _ _). assert (Hc : (clock n0).1 = n_now (clock n0).2 /\ n_now n0 <= n_now (clock n0).2 /\ n_pending (clock n0).2 = rest)
      by (unfold clock; destruct (n_ticks n0); cbn; split_and!; try done; lia).
    destruct (clock n0) as [t n']. cbn [fst snd n0 n_now] in Hc. destruct (Z.leb_spec budget (sat_sub t start)) as [|Hb]; [done|]. unfold sat_sub in Hb.
    pose proof (reads_left_timeout cap start budget n n'). apply IH; destruct Hc as (-> & ? & Hp); rewrite Hp in *; lia. }
  unfold tcp_read. destruct (n_pending n) as [|[bs| | |e] es] eqn:Hpend.
  - by apply Hout.
  - set (p1 := match drop cap bs with [] => es | more => Incoming more :: es end). destruct (take cap bs) as [|x xs] eqn:Htk; [done|].
    assert (Hp1 : (length p1 <= S (length es))%nat) by (unfold p1; destruct (drop cap bs); cbn; lia). apply IH; unfold reads_left in *; rewrite Hpend in *; cbn [n_pending n_now set_pending length] in *; lia.
  - apply Hout. cbn; lia.
  - apply IH; unfold reads_left in *; rewrite Hpend in *; cbn [n_pending n_now set_pending length] in *; lia.
  - done.
Qed.

Lemma read_fuel_enough want budget n : 0 <= budget -> (reads_left want (n_now n) budget n < read_fuel want budget n)%nat.
Proof. intros Hb. unfold reads_left, read_fuel. replace (Z.max 0 (n_now n + budget - n_now n)) with budget by lia. lia. Qed.
End reading.
