(* ===== verification/EtherLink.v ===== *)
(** * The Ether Dream stream against the simulator

    Composes [EtherStream] with [EtherModel]: the simulator is the peer at the
    other end of the socket, its replies cut into reads in any way.  [exec] is the
    command-level reading of the simulator's byte-level [step]; the theorems show
    that the bytes of each command are that command, and that [submit] stays in
    step with the DAC whatever it answers. *)

From S2P Require Import Prelude Floats Point Presentation Bytes EtherDream EtherModel EtherStream.

#[local] Open Scope Z_scope.

(** ** Commands on the DAC *)

Definition exec_data (pts : list DacPoint) (m : EtherDreamModel) : Z * EtherDreamModel :=
  let p := m_profile m in
  if decide (length pts = 0)%nat then (ACK, m)
  else if m_playback m =? PLAYBACK_IDLE then (if data_while_idle_nak_invalid p then NAK_INVALID else ACK, m)
  else
    let space := (Z.to_nat (fw_ring_points p) - length (m_ring m))%nat in
    let m := if decide (space < length pts)%nat then set_overfull_writes (m_overfull_writes m + 1) m else m in
    let '(count, code) := write_outcome p (length pts) space in
    let m := set_ring (m_ring m ++ take count pts) m in
    (code, set_accepted_total (m_accepted_total m + Z.of_nat count) m).

(** The effect of a command with an acceptable rate, and its reply code. *)
Definition exec_effect (c : Command) (m : EtherDreamModel) : Z * EtherDreamModel :=
  let p := m_profile m in
  let at_ pb := m_playback m =? pb in
  match c with
  | PrepareStream =>
      if negb (at_ PLAYBACK_IDLE) || negb (m_light_engine m =? LIGHT_ENGINE_READY) then (NAK_INVALID, m)
      else (ACK, set_sticky 0 (set_rate_queue [] (set_point_count 0 (set_ring [] (set_playback PLAYBACK_PREPARED m)))))
  | Begin _ rate =>
      if at_ PLAYBACK_PLAYING then (ACK, start_segment (m_now m) rate m)
      else if at_ PLAYBACK_PREPARED then (ACK, set_point_count 0 (start_segment (m_now m) rate (set_playback PLAYBACK_PLAYING m)))
      else (if begin_while_idle_acked p then ACK else NAK_INVALID, m)
  | Update _ rate => (ACK, if at_ PLAYBACK_PLAYING then start_segment (m_now m) rate m else m)
  | PointRate rate =>
      (ACK, if negb (at_ PLAYBACK_IDLE) && bool_decide (length (m_rate_queue m) < RATE_QUEUE_LEN - 1)%nat
            then set_rate_queue (m_rate_queue m ++ [rate]) m else m)
  | Data pts => exec_data pts m
  | StopCmd =>
      if at_ PLAYBACK_IDLE then (if stop_while_idle_naks p then NAK_INVALID else ACK, m)
      else (ACK, clear_unless_stale (set_rate_queue [] (set_seg_rate 0 (set_playback PLAYBACK_IDLE m))))
  | EmergencyStop | EmergencyStopAlt => (ACK, estop m)
  | ClearEmergencyStop =>
      if negb (m_interlock_ok m) then (NAK_STOP_CONDITION, m)
      else
        let m :=
          if m_light_engine m =? LIGHT_ENGINE_EMERGENCY_STOP then
            if estop_clear_immediate p then set_light_engine LIGHT_ENGINE_READY m
            else set_warmup_until (Some (m_now m + WARMUP)) (set_light_engine LIGHT_ENGINE_WARMUP m)
          else m in
        (if negb (m_light_engine m =? LIGHT_ENGINE_READY) then NAK_STOP_CONDITION else ACK, m)
  | Ping => (ACK, m)
  | Version => (ACK, m)
  end.

(** Refusals are counted. *)
Definition noted (code : Z) (m : EtherDreamModel) : EtherDreamModel :=
  if negb (code =? ACK) then set_nak_replies (m_nak_replies m + 1) m else m.

Definition exec (c : Command) (m : EtherDreamModel) : Z * EtherDreamModel :=
  let '(code, m) := exec_effect c m in (code, noted code m).

(** Commands a client may send: fields in range, and a rate the firmware accepts. *)
Definition command_rate (c : Command) : option Z :=
  match c with Begin _ rate | Update _ rate | PointRate rate => Some rate | _ => None end.

Definition sendable (p : FirmwareProfile) (c : Command) : Prop :=
  command_wf c /\ c <> Version /\ forall rate, command_rate c = Some rate -> rate_ok p rate.

Section bytes_are_commands.
Context `{ByteOrder}.

(** A field in the middle of a message. *)
Lemma le_at_field n i v pre post : length pre = i -> 0 <= v < 256 ^ Z.of_nat n -> le_at n i (pre ++ write_le n v ++ post) = v.
Proof.
  intros Hi Hv. unfold le_at. rewrite <- Hi, drop_app_length. pose proof (read_uint_write n v post Hv) as Hr. unfold read_uint in Hr.
  destruct (read_le n (write_le n v ++ post)) as [[x r]|]; [|done]. by injection Hr as -> _.
Qed.

Lemma take_points k pts : take (k * point_size) (mjoin (write_point <$> pts)) = mjoin (write_point <$> take k pts).
Proof.
  revert k. induction pts as [|p pts IH]; intros k; [rewrite (take_nil k); apply take_nil|]. destruct k as [|k]; [done|].
  rewrite firstn_cons, !fmap_cons. change (mjoin (?x :: ?xs)) with (x ++ mjoin xs). rewrite <- IH, take_app, point_bytes_length.
  rewrite take_ge by (rewrite point_bytes_length; unfold point_size; lia). f_equal. f_equal. unfold point_size. lia.
Qed.

Lemma read_ring_points_write k pts : Forall dac_point_wf pts -> (k <= length pts)%nat ->
  read_ring_points k (take (k * point_size) (mjoin (write_point <$> pts))) = Some (take k pts).
Proof.
  intros Hp Hk. rewrite take_points. unfold read_ring_points.
  pose proof (points_round (take k pts) [] (Forall_take _ _ _ Hp)) as Hr. rewrite app_nil_r, length_take, Nat.min_l in Hr by done. by rewrite Hr.
Qed.

Definition answered (bs : list Z) (b : Z) (r : Z * EtherDreamModel) : option stepped :=
  Some (Done (length bs) (Response (respond r.1 b r.2)) r.2).

Lemma check_rate_pass cmd rate k m : rate_ok (m_profile m) rate -> check_rate cmd rate k m = None.
Proof.
  intros [H1 H2]. unfold check_rate. destruct (Z.eqb_spec rate 0); [lia|]. cbn [andb orb].
  destruct (Z.ltb_spec (fw_max_point_rate (m_profile m)) rate); [lia|done].
Qed.

Lemma step_begin_exec cmd c lwm rate m : c = Begin lwm rate /\ cmd = 98 \/ c = Update lwm rate /\ cmd = 117 ->
  0 <= lwm < 2 ^ 16 -> 0 <= rate < 2 ^ 32 -> rate_ok (m_profile m) rate ->
  let bs := write_u8 cmd ++ write_u16 lwm ++ write_u32 rate in
  step_begin cmd bs m = answered bs cmd (exec_effect c m).
Proof.
  intros Hc Hl Hr Hok bs. assert (Hlen : length bs = 7%nat) by (unfold bs, write_u8, write_u16, write_u32; by rewrite !length_app, !write_le_length).
  unfold step_begin, answered. rewrite Hlen. rewrite decide_False by lia.
  assert (Hat : le_at 4 3 bs = rate).
  { unfold bs. rewrite app_assoc. rewrite <- (app_nil_r (write_u32 rate)). apply le_at_field; [|done].
    unfold write_u8, write_u16. by rewrite !length_app, !write_le_length. }
  rewrite Hat, check_rate_pass by done.
  destruct Hc as [[-> ->]|[-> ->]]; cbn [exec_effect].
  - change (98 =? 117) with false. cbn [orb]. destruct (m_playback m =? PLAYBACK_PLAYING); [done|].
    destruct (m_playback m =? PLAYBACK_PREPARED); [done|]. by destruct (begin_while_idle_acked _).
  - change (117 =? 117) with true. cbn [orb]. done.
Qed.

Lemma step_data_exec pts m : Forall dac_point_wf pts -> Z.of_nat (length pts) < 2 ^ 16 ->
  let bs := write_u8 100 ++ write_u16 (Z.of_nat (length pts)) ++ mjoin (write_point <$> pts) in
  step_data 100 bs m = answered bs 100 (exec_data pts m).
Proof.
  intros Hp Hn bs. set (k := length pts) in *.
  assert (Hlen : length bs = (3 + k * point_size)%nat)
    by (unfold bs, write_u8, write_u16; rewrite !length_app, !write_le_length, points_bytes_length; lia).
  assert (Hat : le_at 2 1 bs = Z.of_nat k).
  { unfold bs. apply le_at_field; [unfold write_u8; by rewrite write_le_length|lia]. }
  assert (Hdrop : drop 3 bs = mjoin (write_point <$> pts)).
  { unfold bs. rewrite app_assoc. rewrite drop_app_length'; [done|]. unfold write_u8, write_u16. by rewrite length_app, !write_le_length. }
  unfold step_data, exec_data, answered. rewrite Hat, Nat2Z.id, Hlen, Hdrop. fold k.
  rewrite decide_False by lia. rewrite decide_False by lia. case_decide; [done|]. destruct (m_playback m =? PLAYBACK_IDLE); [done|].
  set (space := (Z.to_nat (fw_ring_points (m_profile m)) - length (m_ring m))%nat).
  pose proof (write_outcome_fits (m_profile m) k space) as [Hk _]. destruct (write_outcome (m_profile m) k space) as [count code]. cbn [fst] in Hk.
  by rewrite read_ring_points_write.
Qed.

(** The bytes of a sendable command are that command. *)
Lemma step_exec c bs m : sendable (m_profile m) c -> profile_ok (m_profile m) -> write_command c = IoOk bs ->
  step bs m = answered bs (start_byte c) (exec_effect c m).
Proof.
  intros (Hwf & Hv & Hr) Hp Hw. pose proof (start_byte_range c) as Hb.
  assert (Hone : forall v, 0 <= v < 2 ^ 8 -> write_u8 v = [v]) by (intros; by apply write_u8_byte).
  destruct c as [|lwm rate|lwm rate|rate|pts| | | | | |]; cbn [write_command start_byte] in *; try done.
  - injection Hw as <-. rewrite Hone by done. unfold step, answered. cbn [Z.eqb Pos.eqb orb exec_effect length]. unfold step_prepare.
    by destruct (_ || _).
  - injection Hw as <-. pose proof (step_begin_exec 98 (Begin lwm rate) lwm rate m ltac:(auto) ltac:(apply Hwf) ltac:(apply Hwf) (Hr _ eq_refl)) as Hs.
    cbv zeta in Hs. rewrite <- Hs. rewrite Hone by done. done.
  - injection Hw as <-. pose proof (step_begin_exec 117 (Update lwm rate) lwm rate m ltac:(auto) ltac:(apply Hwf) ltac:(apply Hwf) (Hr _ eq_refl)) as Hs.
    cbv zeta in Hs. rewrite <- Hs. rewrite Hone by done. done.
  - injection Hw as <-.
    assert (Hlen : length (write_u8 113 ++ write_u32 rate) = 5%nat) by (unfold write_u8, write_u32; by rewrite length_app, !write_le_length).
    assert (Hat : le_at 4 1 (write_u8 113 ++ write_u32 rate) = rate).
    { rewrite <- (app_nil_r (write_u32 rate)). apply le_at_field; [unfold write_u8; by rewrite write_le_length|]. exact Hwf. }
    unfold answered. rewrite Hlen. rewrite Hone in * by done. unfold step. cbn [app]. cbn [Z.eqb Pos.eqb orb]. unfold step_queue_rate.
    change (113 :: write_u32 rate) with ([113] ++ write_u32 rate). rewrite Hlen, Hat. rewrite decide_False by lia.
    rewrite check_rate_pass by (by apply Hr). done.
  - destruct Hwf as [Hpts Hn]. destruct (umax 16 <? Z.of_nat (length pts)); [done|]. injection Hw as <-.
    pose proof (step_data_exec pts m Hpts Hn) as Hs. cbv zeta in Hs. cbn [exec_effect]. rewrite <- Hs. rewrite Hone by done. done.
  - injection Hw as <-. rewrite Hone by done. unfold step, answered. cbn [Z.eqb Pos.eqb orb exec_effect length]. unfold step_stop. by destruct (_ =? _).
  - injection Hw as <-. rewrite Hone by done. unfold step, answered, reply_with. cbn [Z.eqb Pos.eqb orb exec_effect length fst snd]. reflexivity.
  - injection Hw as <-. rewrite Hone by done. unfold step, answered, reply_with. cbn [Z.eqb Pos.eqb orb exec_effect length fst snd]. reflexivity.
  - injection Hw as <-. rewrite Hone by done. unfold step, answered. cbn [Z.eqb Pos.eqb orb exec_effect length]. unfold step_clear.
    destruct (negb (m_interlock_ok m)); [done|]. by destruct (negb _).
  - injection Hw as <-. by rewrite Hone.
Qed.
End bytes_are_commands.

(** ** The simulator as a peer *)

(** The DAC between commands, with no scripted interference. *)
Record serviceable (m : EtherDreamModel) : Prop := {
  svc_ok : model_ok m;
  svc_input : m_input m = [];
  svc_awake : m_hung m = false;
  svc_inject : m_inject m = None;
  svc_override : m_reply_override m = None;
  svc_record : m_record_input m = false;
}.

Record SimPeer := mkSim {
  sim_model : EtherDreamModel;
  sim_cut : list Z -> list tcp_event;
}.

Section link.
Context `{ByteOrder}.

(** Written bytes are fed to the DAC; its replies come back as the network cuts
    them, and a reset ends the stream. *)
#[export] Instance sim_peer : Peer SimPeer := {
  peer_receive now bs p :=
    match feed now bs (sim_model p) with
    | Some (rs, m) =>
        (mkSim m (sim_cut p), sim_cut p (mjoin (reply_bytes <$> rs)) ++ (if existsb (fun r => bool_decide (r = Reset)) rs then [Incoming []] else []), None)
    | None => (p, [], Some (TcpOther 0))
    end;
}.

Lemma noted_status code m : model_status (noted code m) = model_status m.
Proof. unfold noted. by destruct (negb _). Qed.

Lemma play_loop_frame f t m : frame m (play_loop f t m).
Proof.
  revert m. induction f as [|f IH]; intros m; [done|]. cbn [play_loop]. destruct (negb _); [done|]. destruct (_ <=? _); [done|].
  destruct (m_ring m) as [|p rest]; [done|]. eapply frame_trans; [|apply IH]. unfold play_point.
  destruct (m_record_output _); destruct (negb _); try done; model_fields; by destruct (m_rate_queue m).
Qed.

Lemma end_warmup_keeps now m :
  m_inject (end_warmup now (set_now now m)) = m_inject m /\ m_reply_override (end_warmup now (set_now now m)) = m_reply_override m /\
  m_record_input (end_warmup now (set_now now m)) = m_record_input m.
Proof. unfold end_warmup. model_fields. destruct (m_warmup_until m) as [u|]; [|done]. by destruct (u <=? now). Qed.

Lemma advance_serviceable now m : serviceable m -> serviceable (advance_to now m).
Proof.
  intros Hs. destruct (advance_keeps now m) as (Hi & Hh & _ & _). pose proof Hs as [].
  assert (Hrest : m_inject (advance_to now m) = None /\ m_reply_override (advance_to now m) = None /\ m_record_input (advance_to now m) = false).
  { unfold advance_to. destruct (now <=? m_now m); [done|]. destruct (end_warmup_keeps now m) as (Hj & Ho & Hr).
    pose proof (play_loop_frame (S (length (m_ring (end_warmup now (set_now now m))))) now (end_warmup now (set_now now m))) as (_ & _ & _ & _ & Hr' & Hj' & Ho').
    rewrite Hr', Hj', Ho'. split_and!; congruence. }
  destruct Hrest as (? & ? & ?). split; [by apply advance_ok|congruence..].
Qed.

Lemma write_command_bytes c bs : write_command c = IoOk bs -> bytes bs /\ (1 <= length bs)%nat.
Proof.
  assert (Hle : forall n v, bytes (write_le n v)) by (intros; rewrite write_le_spec; apply le_bytes_byte).
  assert (Hpt : forall p, bytes (write_point p)) by (intros; unfold write_point, write_u16, write_i16; repeat (apply Forall_app; split); apply Hle).
  assert (Hpts : forall pts, bytes (mjoin (write_point <$> pts))).
  { induction pts as [|p pts IH]; [constructor|]. rewrite fmap_cons. change (mjoin (?x :: ?xs)) with (x ++ mjoin xs). apply Forall_app; split; [apply Hpt|exact IH]. }
  intros Hw. split.
  - destruct c; cbn [write_command] in Hw; try (destruct (_ <? _); [done|]); injection Hw as <-; unfold write_u8, write_u16, write_u32;
      repeat (apply Forall_app; split); first [apply Hle|apply Hpts].
  - destruct (write_command_head c bs Hw) as (rest & ->). unfold write_u8. rewrite length_app, write_le_length. lia.
Qed.

Lemma exec_ok c m : sendable (m_profile m) c -> serviceable m -> serviceable (exec c m).2 /\ m_profile (exec c m).2 = m_profile m /\
  (forall bs, write_command c = IoOk bs -> step bs m = answered bs (start_byte c) (exec_effect c m)).
Proof.
  intros Hc [Hm Hi Hh Hj Ho Hr]. assert (Hstep : forall bs, write_command c = IoOk bs -> step bs m = answered bs (start_byte c) (exec_effect c m)).
  { intros bs. apply step_exec; [done|apply Hm]. }
  assert (Hex : exists bs, write_command c = IoOk bs).
  { destruct Hc as [Hwf _]. destruct c; cbn [write_command]; eauto. destruct Hwf as [_ Hn]. destruct (Z.ltb_spec (umax 16) (Z.of_nat (length points))); eauto. unfold umax in *. lia. }
  destruct Hex as (bs & Hbs). destruct (write_command_bytes c bs Hbs) as [Hb Hl].
  assert (Hhd : head bs = Some (start_byte c)).
  { destruct (write_command_head c bs Hbs) as (rest & ->). rewrite write_u8_byte by apply start_byte_range. done. }
  pose proof (command_step_ok (start_byte c) bs m Hhd Hb Hm) as Hs. rewrite (Hstep bs Hbs) in Hs. unfold answered in Hs.
  destruct Hs as (_ & _ & Hok & (Hp & Hn & Hin & _ & Hrec & Hinj & Hov) & Hhung & _).
  unfold exec. destruct (exec_effect c m) as [code m1]. cbn [fst snd] in *.
  assert (Hx : serviceable m1) by (split; [done|congruence|destruct Hhung; congruence|congruence..]).
  split; [|split; [|done]].
  - unfold noted. destruct (negb _); [|done]. destruct Hx as [[] ? ? ? ? ?]. split; try done; model_ok_by.
  - unfold noted. by destruct (negb _).
Qed.

(** Feeding the bytes of a command. *)
Lemma feed_exec now c bs m : sendable (m_profile m) c -> serviceable m -> write_command c = IoOk bs ->
  feed now bs m = Some ([Response (respond (exec c (advance_to now m)).1 (start_byte c) (exec c (advance_to now m)).2)], (exec c (advance_to now m)).2).
Proof.
  intros Hc Hs Hw. destruct (advance_keeps now m) as (_ & _ & Hp & _).
  pose proof (advance_serviceable now m Hs) as Ha. assert (Hc' : sendable (m_profile (advance_to now m)) c) by (by rewrite Hp).
  destruct (exec_ok c (advance_to now m) Hc' Ha) as (Hx & _ & Hstep). destruct (write_command_bytes c bs Hw) as [_ Hl].
  unfold feed, process, process_with. rewrite (svc_input _ Hs). cbn [app].
  assert (Hset : forall x, m_input x = [] -> set_input [] x = x) by (intros [] Hx0; cbn in *; by subst). rewrite Hset by apply Hs.
  rewrite (svc_awake _ Ha), process_loop_eq. unfold process_round, injection. rewrite (svc_inject _ Ha).
  replace (match bs with [] => Some (advance_to now m, false) | _ => Some (advance_to now m, false) end) with (Some (advance_to now m, false)) by (by destruct bs).
  cbn [mbind option_bind]. rewrite (Hstep bs Hw). unfold answered, exec in *. destruct (exec_effect c (advance_to now m)) as [code m1] eqn:He.
  cbn [fst snd mbind option_bind] in *.
  assert (Hov : m_reply_override m1 = None) by (pose proof (svc_override _ Hx) as Hy; unfold noted in Hy; by destruct (negb _)).
  unfold answer. rewrite Hov. cbn [response respond].
  change (if negb (code =? ACK) then set_nak_replies (m_nak_replies m1 + 1) m1 else m1) with (noted code m1).
  rewrite (svc_record _ Hx). cbn [mbind option_bind ends app]. rewrite drop_all.
  destruct bs as [|b bs]; [cbn in Hl; lia|]. cbn [length]. rewrite process_loop_eq. unfold process_round, injection.
  cbn [mbind option_bind step]. rewrite Hset by apply Hx. unfold respond. by rewrite noted_status.
Qed.

(** ** A queue of commands *)

Implicit Types n : Net SimPeer.

Definition net_model n : EtherDreamModel := sim_model (n_peer n).

(** One command: it is executed at the time it is sent, its reply is on the way. *)
Definition post (c : Command) n : DacResponse * Net SimPeer :=
  let '(code, m) := exec c (advance_to (n_now n) (net_model n)) in
  let resp := respond code (start_byte c) m in
  (resp, mkNet (n_now n) (n_ticks n) (n_pending n ++ sim_cut (n_peer n) (write_response resp)) (mkSim m (sim_cut (n_peer n)))).

Fixpoint run_commands (cs : list Command) n : list DacResponse * Net SimPeer :=
  match cs with
  | [] => ([], n)
  | c :: cs =>
      let '(_, n) := clock n in
      let '(resp, n) := post c n in
      let '(resps, n) := run_commands cs n in
      (resp :: resps, n)
  end.

(** The first refusal. *)
Definition nak_in (resp : DacResponse) : option CommunicationError :=
  match nak_from (response resp) with Some nak => Some (CommResponse resp (KindNak nak)) | None => None end.

Definition first_nak (resps : list DacResponse) : option CommunicationError := head (omap nak_in resps).

(** Client and DAC are in step: no bytes are on the way in either direction, and the
    client knows the DAC's rate limit. *)
Record linked (s : Stream) n : Prop := {
  lk_pending : delivers (n_pending n) [];
  lk_cut : forall bs, delivers (sim_cut (n_peer n) bs) bs;
  lk_model : serviceable (net_model n);
  lk_rate : ad_max_point_rate (es_dac s) = fw_max_point_rate (m_profile (net_model n)) /\ 0 < ad_max_point_rate (es_dac s);
}.

Lemma clock_keeps n : n_pending (clock n).2 = n_pending n /\ n_peer (clock n).2 = n_peer n /\ n_now n <= n_now (clock n).2.
Proof. unfold clock. destruct (n_ticks n); cbn; split_and!; try done; lia. Qed.

(** Time passes: [horizon] is when the clock has given all its readings. *)
Definition horizon n : Z := n_now n + foldr (fun d t => Z.of_N d + t) 0 (n_ticks n).

Definition later n n' : Prop := n_now n <= n_now n' /\ horizon n' = horizon n.

Lemma later_trans n1 n2 n3 : later n1 n2 -> later n2 n3 -> later n1 n3.
Proof. unfold later. intros [] []. split; [lia|congruence]. Qed.

Lemma clock_later n : later n (clock n).2 /\ (clock n).1 = n_now (clock n).2.
Proof. unfold later, clock, horizon. destruct (n_ticks n) eqn:Ht; cbn; rewrite ?Ht; cbn; (split; [lia|done]). Qed.

Lemma horizon_after n : n_now n <= horizon n.
Proof. unfold horizon. induction (n_ticks n) as [|d ds IH]; cbn; lia. Qed.

Lemma post_ok c n : sendable (m_profile (net_model n)) c -> serviceable (net_model n) ->
  let '(resp, n') := post c n in
  send_command c n = (None, n') /\ serviceable (net_model n') /\ m_profile (net_model n') = m_profile (net_model n) /\
  sim_cut (n_peer n') = sim_cut (n_peer n) /\ n_pending n' = n_pending n ++ sim_cut (n_peer n) (write_response resp) /\
  response_command resp = start_byte c /\ response_status resp = model_status (net_model n').
Proof.
  intros Hc Hs. unfold post, send_command. destruct (advance_keeps (n_now n) (net_model n)) as (_ & _ & Hp & _).
  assert (Hc' : sendable (m_profile (advance_to (n_now n) (net_model n))) c) by (by rewrite Hp).
  destruct (exec_ok c _ Hc' (advance_serviceable (n_now n) _ Hs)) as (Hx & Hpx & _).
  assert (Hw : exists bs, write_command c = IoOk bs).
  { destruct Hc as [Hwf _]. destruct c; cbn [write_command]; eauto. destruct Hwf as [_ Hn]. destruct (Z.ltb_spec (umax 16) (Z.of_nat (length points))); eauto. unfold umax in *. lia. }
  destruct Hw as (bs & Hw). pose proof (feed_exec (n_now n) c bs (net_model n) Hc Hs Hw) as Hf. fold (net_model n) in *.
  destruct (exec c (advance_to (n_now n) (net_model n))) as [code m] eqn:He. cbn [fst snd] in *.
  rewrite Hw. unfold write_all. cbn [peer_receive sim_peer]. fold (net_model n). rewrite Hf. cbn [fmap list_fmap existsb].
  split.
  { cbn [reply_bytes fmap option_fmap option_map orb]. change (mjoin [?x]) with (x ++ []). by rewrite !app_nil_r. }
  split; [done|]. split; [by cbn; rewrite Hpx, Hp|]. done.
Qed.

(** ** Replies *)

Lemma exec_code c m : (exec c m).1 = ACK \/ is_Some (nak_from (exec c m).1).
Proof.
  unfold exec. assert (Hc : (exec_effect c m).1 = ACK \/ is_Some (nak_from (exec_effect c m).1)); [|by destruct (exec_effect c m)].
  assert (HI : is_Some (nak_from NAK_INVALID)) by (by eexists). assert (HF : is_Some (nak_from NAK_FULL)) by (by eexists).
  assert (HS : is_Some (nak_from NAK_STOP_CONDITION)) by (by eexists).
  destruct c; cbn [exec_effect]; try (left; reflexivity).
  - destruct (_ || _); cbn; auto.
  - destruct (_ =? _); [cbn; auto|]. destruct (_ =? _); [cbn; auto|]. cbn. destruct (begin_while_idle_acked _); auto.
  - unfold exec_data. case_decide; [cbn; auto|]. destruct (_ =? _); [cbn; destruct (data_while_idle_nak_invalid _); auto|].
    unfold write_outcome. case_decide; [cbn; auto|]. destruct (naks_full _); [cbn; auto|]. destruct (data_partial_write_then_nak_invalid _); cbn; auto.
  - destruct (_ =? _); cbn; [destruct (stop_while_idle_naks _)|]; auto.
  - destruct (negb (m_interlock_ok m)); [cbn; auto|]. cbn [fst]. destruct (negb _); auto.
Qed.

Lemma nak_from_byte v : v = ACK \/ is_Some (nak_from v) -> 0 <= v < 2 ^ 8.
Proof.
  unfold nak_from. intros [->|[x Hx]]; [done|]. destruct (Z.eqb_spec v NAK_FULL) as [->|]; [done|].
  destruct (Z.eqb_spec v NAK_INVALID) as [->|]; [done|]. destruct (Z.eqb_spec v NAK_STOP_CONDITION) as [->|]; done.
Qed.

(** A reply of the DAC: an acknowledgement or a refusal, with its status. *)
Definition dac_reply (r : DacResponse) : Prop :=
  (response r = ACK \/ is_Some (nak_from (response r))) /\ 0 <= response_command r < 2 ^ 8 /\
  exists m, serviceable m /\ response_status r = model_status m.

Lemma dac_reply_wf r : dac_reply r -> response_wf r.
Proof. intros (Hc & Hb & m & Hm & Hs). split; [by apply nak_from_byte|]. split; [done|]. rewrite Hs. apply model_status_wf, Hm. Qed.

(** Every status of the DAC is understood. *)
Lemma status_from_model m : model_ok m -> exists st, status_from (model_status m) = inl st.
Proof.
  intros Hm. unfold status_from, model_status. cbn [st_light_engine_state st_playback_state st_source].
  assert (Hl : is_Some (light_engine_from (m_light_engine m))) by (destruct (ok_engine _ Hm) as [[-> _]|[[-> | ->] _]]; by eexists).
  assert (Hp : is_Some (playback_from (m_playback m))) by (destruct (ok_playback _ Hm) as [->|[[->|[-> _]] _]]; by eexists).
  destruct Hl as [le ->], Hp as [pb ->]. by eexists.
Qed.

Definition with_status (st : Status) (d : Addressed) : Addressed :=
  mkDac (ad_mac_address d) (ad_hw_revision d) (ad_sw_revision d) (ad_buffer_capacity d) (ad_max_point_rate d) st.

Lemma write_response_length r : length (write_response r) = response_size.
Proof. unfold write_response, write_u8. by rewrite !length_app, !write_le_length, status_bytes_length. Qed.

Lemma recv_one_ok r rest d n : dac_reply r -> delivers (n_pending n) (write_response r ++ rest) ->
  exists st p', status_from (response_status r) = inl st /\
    recv_one (response_command r) d n = (Answer (nak_in r), with_status st d, set_pending p' (clock n).2) /\ delivers p' rest.
Proof.
  intros Hr Hd. destruct (clock_keeps n) as (Hp & _ & _). unfold recv_one, read_exact_with_budget. destruct (clock n) as [t n1]. cbn [snd] in *.
  destruct (read_exact_delivers (read_fuel response_size READ_BUDGET n1) response_size t READ_BUDGET [] n1 (write_response r) rest) as (p' & -> & Hd').
  - by rewrite Hp.
  - apply write_response_length.
  - unfold read_fuel. lia.
  - cbn [app]. pose proof (response_round r [] (dac_reply_wf r Hr)) as Hrr. rewrite app_nil_r in Hrr. rewrite Hrr.
    destruct Hr as (_ & _ & m & Hm & Hs). destruct (status_from_model m (svc_ok _ Hm)) as (st & Hst). rewrite <- Hs in Hst.
    exists st, p'. unfold update_status. rewrite Hst, Z.eqb_refl. unfold check_errors. rewrite Z.eqb_refl. done.
Qed.

Lemma recv_response_ok r rest d n : dac_reply r -> delivers (n_pending n) (write_response r ++ rest) ->
  exists st p', status_from (response_status r) = inl st /\
    recv_response_buffered (response_command r) d n = (nak_in r, with_status st d, set_pending p' (clock n).2) /\ delivers p' rest.
Proof.
  intros Hr Hd. destruct (recv_one_ok r rest d n Hr Hd) as (st & p' & H1 & H2 & H3). exists st, p'.
  unfold recv_response_buffered. cbn [recv_attempts]. by rewrite H2.
Qed.

(** Every response is read, and the first refusal is the result. *)
Lemma recv_all_ok resps sent first s n : Forall dac_reply resps -> sent.*1 = response_command <$> resps ->
  delivers (n_pending n) (mjoin (write_response <$> resps)) ->
  exists s' n', recv_all sent first s n = (match first with Some e => Some e | None => first_nak resps end, s', n') /\
    delivers (n_pending n') [] /\ n_peer n' = n_peer n /\ later n n' /\ es_command_buffer s' = es_command_buffer s /\
    ad_max_point_rate (es_dac s') = ad_max_point_rate (es_dac s) /\ ad_buffer_capacity (es_dac s') = ad_buffer_capacity (es_dac s) /\
    match last resps with
    | None => s' = s /\ n' = n
    | Some r => status_from (response_status r) = inl (ad_status (es_dac s')) /\ es_status_received_at s' = n_now n'
    end.
Proof.
  intros Hr. revert sent first s n. induction Hr as [|r resps Hr Hrs IH]; intros sent first s n Hsent Hd.
  { destruct sent; [|done]. exists s, n. cbn. split_and!; try done. by destruct first. }
  destruct sent as [|[b t] sent]; [done|]. cbn in Hsent. injection Hsent as Hb Hsent.
  rewrite fmap_cons in Hd. change (mjoin (?x :: ?xs)) with (x ++ mjoin xs) in Hd. cbn [recv_all]. rewrite Hb.
  destruct (recv_response_ok r _ (es_dac s) n Hr Hd) as (st & p' & Hst & -> & Hd').
  destruct (clock_keeps (set_pending p' (clock n).2)) as (Hp2 & Hpe2 & _). destruct (clock_later (set_pending p' (clock n).2)) as [Hl2 Ht2].
  destruct (clock (set_pending p' (clock n).2)) as [t2 n2]. cbn [fst snd] in *. destruct (clock_keeps n) as (_ & Hpe & _).
  assert (Hl : later n n2) by (apply (later_trans _ (clock n).2); [apply clock_later|done]).
  change (n_peer (set_pending p' (clock n).2)) with (n_peer (clock n).2) in Hpe2. rewrite Hpe in Hpe2.
  set (s1 := set_status_received_at t2 (set_status_sent_at t (set_dac (with_status st (es_dac s)) s))).
  assert (Hd2 : delivers (n_pending n2) (mjoin (write_response <$> resps))) by (by rewrite Hp2).
  set (first' := match nak_from (response r) with Some nak => Some (default (CommResponse r (KindNak nak)) first) | None => first end).
  destruct (IH sent first' s1 n2 Hsent Hd2) as (s' & n' & Hrun & H1 & H2 & H3 & H4 & H5 & H6 & H7). exists s', n'. split.
  { transitivity (recv_all sent first' s1 n2); [unfold first', nak_in; by destruct (nak_from (response r))|]. rewrite Hrun. f_equal. f_equal.
    unfold first', first_nak. cbn [omap list_omap]. unfold nak_in at 2. destruct (nak_from (response r)); [by destruct first|done]. }
  split; [done|]. split; [congruence|]. split; [by eapply later_trans|]. split; [done|]. split; [done|]. split; [done|].
  rewrite last_cons. destruct (last resps); [done|]. destruct H7 as [-> ->]. by rewrite Hst.
Qed.

(** Sending a queue is running its commands. *)
Lemma send_queued_ok buffer queue n : serviceable (net_model n) -> Forall (fun q => sendable (m_profile (net_model n)) (wire_command buffer q)) queue ->
  (forall bs, delivers (sim_cut (n_peer n) bs) bs) ->
  let '(resps, n') := run_commands (wire_command buffer <$> queue) n in
  exists sent, send_queued buffer queue n = (inl sent, n') /\ serviceable (net_model n') /\ m_profile (net_model n') = m_profile (net_model n) /\
    sim_cut (n_peer n') = sim_cut (n_peer n) /\ sent.*1 = response_command <$> resps /\
    (forall bs, delivers (n_pending n) bs -> delivers (n_pending n') (bs ++ mjoin (write_response <$> resps))) /\
    Forall dac_reply resps /\ (last resps = None -> n' = n) /\
    (forall r, last resps = Some r -> response_status r = model_status (net_model n')).
Proof.
  revert n. induction queue as [|q queue IH]; intros n Hs Hq Hcut.
  { cbn. exists []. split_and!; try done. intros bs Hd. by rewrite app_nil_r. }
  rewrite fmap_cons. cbn [run_commands send_queued]. apply Forall_cons in Hq as [Hq Hqs].
  destruct (clock_keeps n) as (Hp1 & Hpe1 & _). destruct (clock n) as [t n1]. cbn [snd] in Hp1, Hpe1.
  assert (Hm1 : net_model n1 = net_model n) by (unfold net_model; by rewrite Hpe1). rewrite <- Hm1 in *.
  pose proof (exec_code (wire_command buffer q) (advance_to (n_now n1) (net_model n1))) as Hcode.
  pose proof (post_ok (wire_command buffer q) n1 Hq Hs) as Hpost.
  assert (Hr : (post (wire_command buffer q) n1).1 = respond (exec (wire_command buffer q) (advance_to (n_now n1) (net_model n1))).1
    (start_byte (wire_command buffer q)) (exec (wire_command buffer q) (advance_to (n_now n1) (net_model n1))).2) by (unfold post; by destruct (exec _ _)).
  destruct (post (wire_command buffer q) n1) as [resp n2]. cbn [fst] in Hr. destruct Hpost as (-> & Hs2 & Hpr2 & Hcut2 & Hp2 & Hcmd & Hst).
  rewrite <- Hpr2 in Hqs. specialize (IH n2 Hs2 Hqs). rewrite Hcut2, Hpe1 in IH. specialize (IH Hcut).
  destruct (run_commands (wire_command buffer <$> queue) n2) as [resps n'].
  destruct IH as (sent & -> & Hs' & Hpr' & Hcut' & Hsent & Hdel & Hrs & Hnone & Hl). eexists. split; [done|]. split; [done|].
  split; [congruence|]. split; [done|]. split; [rewrite !fmap_cons; f_equal; done|]. split; [|split; [|split]].
  - intros bs Hd. rewrite fmap_cons. change (mjoin (?x :: ?xs)) with (x ++ mjoin xs). rewrite app_assoc. apply Hdel. rewrite Hp2, Hp1, Hpe1.
    by apply delivers_app.
  - constructor; [|done]. split; [by rewrite Hr|]. split; [rewrite Hcmd; apply start_byte_range|]. by exists (net_model n2).
  - rewrite last_cons. by destruct (last resps).
  - intros r. rewrite last_cons. destruct (last resps) as [x|]; [intros [= ->]; by apply Hl|]. intros [= <-]. by rewrite Hnone.
Qed.

Lemma run_commands_later cs n : later n (run_commands cs n).2.
Proof.
  revert n. induction cs as [|c cs IH]; intros n; cbn [run_commands]; [by split|]. destruct (clock_later n) as [Hl _]. destruct (clock n) as [t n1]. cbn [snd] in Hl.
  unfold post. destruct (exec c _) as [code m]. set (n2 := mkNet _ _ _ _). specialize (IH n2). destruct (run_commands cs n2) as [resps n3]. cbn [snd] in *.
  eapply later_trans; [exact Hl|]. eapply later_trans; [|exact IH]. done.
Qed.

(** Submitting a queue is running its commands and taking the last status. *)
Lemma submit_ok s n : linked s n -> es_command_buffer s <> [] ->
  Forall (fun q => sendable (m_profile (net_model n)) (wire_command (es_point_buffer s) q)) (es_command_buffer s) ->
  let '(resps, n1) := run_commands (wire_command (es_point_buffer s) <$> es_command_buffer s) n in
  exists s' n', submit s n = (first_nak resps, s', n') /\ linked s' n' /\ n_peer n' = n_peer n1 /\ later n1 n' /\
    es_status_received_at s' = n_now n' /\ es_command_buffer s' = [] /\ ad_buffer_capacity (es_dac s') = ad_buffer_capacity (es_dac s) /\
    ad_max_point_rate (es_dac s') = ad_max_point_rate (es_dac s) /\ m_profile (net_model n') = m_profile (net_model n) /\
    status_from (model_status (net_model n')) = inl (ad_status (es_dac s')).
Proof.
  intros [Hpend Hcut Hsvc [Hrate Hpos]] Hne Hq. unfold submit.
  assert (Hsafe : list_find (fun rate => unsafe_rate (ad_max_point_rate (es_dac s)) rate = true) (omap queued_rate (es_command_buffer s)) = None).
  { apply list_find_None, Forall_forall. intros rate Hin Hu. apply list_elem_of_omap in Hin as (q & Hqin & Hqr).
    rewrite Forall_forall in Hq. destruct (Hq q Hqin) as (_ & _ & Hr). assert (Hcr : command_rate (wire_command (es_point_buffer s) q) = Some rate) by (by destruct q).
    apply Hr in Hcr as [H1 H2]. unfold unsafe_rate in Hu. rewrite Hrate in Hu. lia. }
  rewrite Hsafe. cbn [es_point_buffer set_command_buffer].
  pose proof (send_queued_ok (es_point_buffer s) (es_command_buffer s) n Hsvc Hq Hcut) as Hsend.
  destruct (run_commands (wire_command (es_point_buffer s) <$> es_command_buffer s) n) as [resps n1] eqn:Hrun.
  destruct Hsend as (sent & -> & Hs1 & Hp1 & Hc1 & Hsent & Hdel & Hrs & _ & Hl).
  destruct (recv_all_ok resps sent None (set_command_buffer [] s) n1 Hrs Hsent (Hdel [] Hpend)) as (s' & n' & Hrecv & Hd' & Hpe' & Hlat & Hcb & Hr' & Hcap & Hst).
  exists s', n'. assert (Hm' : net_model n' = net_model n1) by (unfold net_model; by rewrite Hpe').
  assert (Hlast : exists r, last resps = Some r).
  { destruct (es_command_buffer s) as [|q queue]; [done|]. rewrite fmap_cons in Hrun. cbn [run_commands] in Hrun.
    destruct (clock n) as [t0 n0], (post (wire_command (es_point_buffer s) q) n0) as [r0 n2], (run_commands (wire_command (es_point_buffer s) <$> queue) n2) as [rs0 n3].
    injection Hrun as <- _. rewrite last_cons. destruct (last rs0) as [x|]; [by exists x|by exists r0]. }
  destruct Hlast as (r & Hr). rewrite Hr in Hst. destruct Hst as [Hst Hrecv_at].
  split; [exact Hrecv|]. split; [split; [done|by rewrite Hpe', Hc1|by rewrite Hm'|rewrite Hm', Hp1, Hr'; done]|].
  rewrite Hm', <- (Hl r Hr), Hp1. done.
Qed.

(** C7. Staying in step: with every queued rate acceptable to the DAC and every field in
    range, [submit] sends the commands in order, each executed by the DAC exactly as
    it was queued, and reads exactly one response for each, even after a refusal;
    it succeeds exactly when none was refused, and otherwise reports the first
    refusal.  Afterwards no byte is on the way in either direction, the client's
    status is the one the DAC reports, and the DAC has not hung or reset the
    connection - on every firmware, and however the network cuts the replies. *)
Theorem submit_stays_in_step s n : linked s n -> es_command_buffer s <> [] ->
  Forall (fun q => sendable (m_profile (net_model n)) (wire_command (es_point_buffer s) q)) (es_command_buffer s) ->
  exists s' n', submit s n = (first_nak (run_commands (wire_command (es_point_buffer s) <$> es_command_buffer s) n).1, s', n') /\
    linked s' n' /\ n_peer n' = n_peer (run_commands (wire_command (es_point_buffer s) <$> es_command_buffer s) n).2 /\
    es_command_buffer s' = [] /\ ad_buffer_capacity (es_dac s') = ad_buffer_capacity (es_dac s) /\
    status_from (model_status (net_model n')) = inl (ad_status (es_dac s')).
Proof.
  intros Hl Hne Hq. pose proof (submit_ok s n Hl Hne Hq) as Hs. destruct (run_commands _ n) as [resps n1].
  destruct Hs as (s' & n' & ? & ? & ? & _ & _ & ? & ? & _ & _ & ?). by exists s', n'.
Qed.

(** Rates that would hang the firmware, or be read as other commands, are never sent:
    [submit] refuses the whole queue before it writes anything. *)
Theorem unsafe_rates_never_sent {P} `{!Peer P} s (n : Net P) q rate :
  q ∈ es_command_buffer s -> queued_rate q = Some rate -> unsafe_rate (ad_max_point_rate (es_dac s)) rate = true ->
  exists s', submit s n = (Some (CommIo TcpInvalidInput), s', n) /\ es_command_buffer s' = [] /\ es_dac s' = es_dac s.
Proof.
  intros Hin Hr Hu. unfold submit. destruct (list_find _ _) as [[i x]|] eqn:Hf; [by eexists|].
  apply list_find_None in Hf. rewrite Forall_forall in Hf. destruct (Hf rate); [|done]. apply list_elem_of_omap. by exists q.
Qed.
End link.

Module Demo.
Import EtherModel.Demo.

(** A booted DAC behind a socket that delivers each reply whole. *)
Definition whole (bs : list Z) : list tcp_event := match bs with [] => [] | _ => [Incoming bs] end.

Definition socket : Net SimPeer := mkNet 1000 [5%N; 7%N] [] (mkSim (model_new ed2_r331) whole).

Definition idle_status : Status := mkDacStatus 0 LeReady Idle NetworkStreaming 0 1 0 0 0.

Definition dac : Addressed := mkDac [2; 237; 0; 0; 0; 2] 10 2 3899 100000 idle_status.

Definition stream (queue : list QueuedCommand) : Stream := mkStream dac queue [] 0 0.

Lemma whole_delivers bs : delivers (whole bs) bs.
Proof. destruct bs as [|b bs]; [constructor|]. rewrite <- (app_nil_r (b :: bs)) at 2. by constructor; [|constructor]. Qed.

Lemma socket_linked queue : linked (stream queue) socket.
Proof.
  split; [constructor|intros bs; apply whole_delivers| |done].
  split; [apply model_new_ok, ed2_ok|done..].
Qed.

Lemma rate_sendable : sendable ed2_r331 (Begin 0 30000).
Proof. split; [cbn; lia|]. split; [done|]. intros rate [= <-]. unfold rate_ok. cbn. lia. Qed.

Lemma prepare_sendable : sendable ed2_r331 PrepareStream.
Proof. split; [done|]. split; [done|]. by intros. Qed.

Lemma submit_stays_in_step_witness : exists s' n',
  @submit stdlib_byte_order _ _ (stream [QPrepareStream; QBegin 0 30000]) socket = (None, s', n') /\ linked s' n'.
Proof.
  destruct (@submit_stays_in_step stdlib_byte_order (stream [QPrepareStream; QBegin 0 30000]) socket (socket_linked _)) as (s' & n' & Hs & Hl & _);
    [discriminate|constructor; [exact prepare_sendable|constructor; [exact rate_sendable|constructor]]|].
  exists s', n'. split; [exact Hs|exact Hl].
Defined.

Lemma unsafe_rates_never_sent_witness : exists s',
  @submit stdlib_byte_order _ _ (stream [QPrepareStream; QBegin 0 0]) socket = (Some (CommIo TcpInvalidInput), s', socket).
Proof.
  destruct (@unsafe_rates_never_sent stdlib_byte_order _ _ (stream [QPrepareStream; QBegin 0 0]) socket (QBegin 0 0) 0 ltac:(right; left) eq_refl eq_refl) as (s' & Hs & _).
  exists s'. exact Hs.
Defined.
End Demo.
