(* ===== verification/EtherServer.v ===== *)
(** * Ether Dream: the simulator's server

    Models [src/src/protocols/ether_dream/sim/server.rs]: the thread of a
    connection, which serves the shared simulator over TCP with the faults it can
    inject, and the accept loop with its counters.  A connection's thread is a
    computation in a monad of its own: before each access to what the threads share
    a block of [k_env] happens (events of other connections on the simulator, new
    faults, a stop, time passing), so quantifying over [k_env] quantifies over the
    interleavings.  The counters are a step relation between the accept thread and
    the connections' threads. *)

From stdpp Require Import gmap strings.
From S2P Require Import Prelude Floats Point Presentation Bytes EtherDream EtherModel.

#[local] Open Scope Z_scope.

(** ** Faults and configuration *)

Record Faults := mkFaults {
  drop_after_replies : option nat;
  truncate_reply : option nat;
  reply_delay : Z;
  duplicate_replies : bool;
  swallow_opcodes : list Z;
  hello_status : option DacStatus;
  data_delay : Z;
}.

Definition no_faults : Faults := mkFaults None None 0 false [] None 0.

Record BroadcastConfig := mkBroadcastConfig {
  bc_target : Z * Z;
  bc_interval : Z;
}.

Record SimServerConfig := mkServerConfig {
  cfg_profile : FirmwareProfile;
  cfg_tcp_addr : Z * Z;
  cfg_broadcast : option BroadcastConfig;
  cfg_enforce_single_client : bool;
  cfg_record_input : bool;
  cfg_faults : Faults;
}.

Definition LOCALHOST : Z := 0x7F000001.

Definition SimServerConfig_new (p : FirmwareProfile) : SimServerConfig :=
  mkServerConfig p (LOCALHOST, 0) None (enforce_single_client p) true no_faults.

Definition with_faults (f : Faults) (c : SimServerConfig) : SimServerConfig :=
  mkServerConfig (cfg_profile c) (cfg_tcp_addr c) (cfg_broadcast c) (cfg_enforce_single_client c) (cfg_record_input c) f.

Definition with_tcp_addr (a : Z * Z) (c : SimServerConfig) : SimServerConfig :=
  mkServerConfig (cfg_profile c) a (cfg_broadcast c) (cfg_enforce_single_client c) (cfg_record_input c) (cfg_faults c).

Definition with_broadcast (target : Z * Z) (interval : Z) (c : SimServerConfig) : SimServerConfig :=
  mkServerConfig (cfg_profile c) (cfg_tcp_addr c) (Some (mkBroadcastConfig target (Z.max interval 1000000)))
    (cfg_enforce_single_client c) (cfg_record_input c) (cfg_faults c).

(** The simulator of [SimServer::start]. *)
Definition server_model (c : SimServerConfig) : EtherDreamModel := set_record_input (cfg_record_input c) (model_new (cfg_profile c)).

(** ** A connection *)

(** What a read of the socket gives, and how long it takes: bytes (none at the end of
    the stream), nothing within the timeout, or an error. *)
Inductive sock_read :=
  | SockData (dt : N) (bs : list Z)
  | SockTimeout (dt : N)
  | SockErr.

(** What other threads do between two accesses. *)
Record block := mkBlock {
  b_events : list sim_event;
  b_faults : option Faults;
  b_stop : bool;
  b_elapsed : N;
}.

Record Conn := mkConn {
  k_model : EtherDreamModel;
  k_faults : Faults;
  k_stop : bool;
  k_now : Z;
  k_env : list block;
  k_reads : list sock_read;
  k_writes : list bool;
  k_out : list Z;
  k_input : list Z;
  k_sent : nat;
  k_hung : bool;
}.

Definition conn_eta (c : Conn) : Conn :=
  mkConn (k_model c) (k_faults c) (k_stop c) (k_now c) (k_env c) (k_reads c) (k_writes c) (k_out c) (k_input c) (k_sent c) (k_hung c).

Definition set_model (v : EtherDreamModel) (c : Conn) : Conn := ltac:(update_field conn_eta k_model v c).
Definition set_conn_now (v : Z) (c : Conn) : Conn := ltac:(update_field conn_eta k_now v c).
Definition set_reads (v : list sock_read) (c : Conn) : Conn := ltac:(update_field conn_eta k_reads v c).
Definition set_writes (v : list bool) (c : Conn) : Conn := ltac:(update_field conn_eta k_writes v c).
Definition set_out (v : list Z) (c : Conn) : Conn := ltac:(update_field conn_eta k_out v c).
Definition set_conn_input (v : list Z) (c : Conn) : Conn := ltac:(update_field conn_eta k_input v c).
Definition set_sent (v : nat) (c : Conn) : Conn := ltac:(update_field conn_eta k_sent v c).
Definition set_hung (v : bool) (c : Conn) : Conn := ltac:(update_field conn_eta k_hung v c).

(** How the thread leaves: the connection is closed, reset, or failed; it panicked;
    or the fuel was too little. *)
Inductive leave :=
  | LeaveClosed
  | LeaveReset
  | LeaveFailed
  | LeavePanic
  | LeaveFuel.

Definition K (A : Type) : Type := Conn -> (A + leave) * Conn.

#[export] Instance K_ret : MRet K := fun A a c => (inl a, c).

#[export] Instance K_bind : MBind K := fun A B k m c => match m c with (inl a, c) => k a c | (inr l, c) => (inr l, c) end.

Definition leave_with {A} (l : leave) : K A := fun c => (inr l, c).

Definition kget {A} (f : Conn -> A) : K A := fun c => (inl (f c), c).

Definition kmod (f : Conn -> Conn) : K unit := fun c => (inl tt, f c).

Section connection.
Context `{ByteOrder}.

(** The next block of the other threads; their events on the simulator do not
    fail. *)
Definition ktick (c : Conn) : Conn :=
  match k_env c with
  | [] => c
  | b :: env =>
      let m := match sim_run (b_events b) (k_model c) with Some (_, m) => m | None => k_model c end in
      mkConn m (default (k_faults c) (b_faults b)) (k_stop c || b_stop b) (k_now c + Z.of_N (b_elapsed b)) env
        (k_reads c) (k_writes c) (k_out c) (k_input c) (k_sent c) (k_hung c)
  end.

Definition kload {A} (f : Conn -> A) : K A := fun c => let c := ktick c in (inl (f c), c).

(** A load while the lock of the simulator is held: no other thread changes it. *)
Definition kheld {A} (f : Conn -> A) : K A := fun c => let c := set_model (k_model c) (ktick c) in (inl (f c), c).

(** [lock_model]: the simulator, advanced to the time. *)
Definition lock_model : K unit := fun c => let c := ktick c in (inl tt, set_model (advance_to (k_now c) (k_model c)) c).

Definition write_all (bs : list Z) : K unit := fun c =>
  match k_writes c with
  | false :: ws => (inr LeaveFailed, set_writes ws c)
  | ws => (inl tt, set_out (k_out c ++ bs) (set_writes (tail ws) c))
  end.

(** [sleep_unless_stopped]: in slices of 5 ms at most. *)
Fixpoint sleep_loop (fuel : nat) (deadline : Z) : K bool :=
  match fuel with
  | O => leave_with LeaveFuel
  | S fuel =>
      stopped ← kload k_stop;
      if (stopped : bool) then mret false
      else
        now ← kload k_now;
        if deadline <=? now then mret true
        else
          kmod (fun c => set_conn_now (k_now c + Z.min (deadline - now) 5000000) c);;
          sleep_loop fuel deadline
  end.

Definition sleep_unless_stopped (d : Z) : K bool :=
  now ← kload k_now;
  sleep_loop (Z.to_nat (d / 5000000 + 2)) (now + d).

(** One reply of [send_replies]: [false] when the loop over the replies ends. *)
Definition send_bytes (f : Faults) (r : Reply) : K unit :=
  sent ← kget k_sent;
  if bool_decide (drop_after_replies f = Some sent) then leave_with LeaveClosed
  else
    go ← sleep_unless_stopped (reply_delay f);
    if negb go then leave_with LeaveClosed
    else
      let bs := reply_bytes r in
      if bool_decide (truncate_reply f = Some sent) then write_all (take 2 bs);; leave_with LeaveClosed
      else
        write_all bs;;
        (if duplicate_replies f && (match r with Response _ => true | _ => false end) then write_all bs else mret tt);;
        kmod (fun c => set_sent (S sent) c).

Fixpoint send_replies (f : Faults) (rs : list Reply) : K unit :=
  match rs with
  | [] => mret tt
  | Reset :: _ => leave_with LeaveReset
  | Hang :: _ => kmod (set_hung true)
  | Response r :: rs =>
      if bool_decide (response_command r ∈ swallow_opcodes f) then send_replies f rs
      else send_bytes f (Response r);; send_replies f rs
  | VersionReply v :: rs => send_bytes f (VersionReply v);; send_replies f rs
  end.

(** The simulator handles the input; [process] is one of its three ways to. *)
Definition take_in (process : Z -> list Z -> EtherDreamModel -> option (list Z * list Reply * EtherDreamModel)) (now : Z) : K (list Reply) := fun c =>
  match process now (k_input c) (k_model c) with
  | None => (inr LeavePanic, c)
  | Some (input, rs, m) => (inl rs, set_model m (set_conn_input input c))
  end.

Definition run_model (process : Z -> list Z -> EtherDreamModel -> option (list Z * list Reply * EtherDreamModel)) : K (list Reply) :=
  lock_model;;
  now ← kheld k_now;
  take_in process now.

Definition OP_DATA : Z := 100.

(** The inner loop: commands before a data command, and then the data command after
    its delay. *)
Fixpoint serve_input (fuel : nat) (f : Faults) : K unit :=
  match fuel with
  | O => leave_with LeaveFuel
  | S fuel =>
      rs ← run_model (if data_delay f =? 0 then process else fun now input m => process_before now input OP_DATA m);
      data_ready ← kget (fun c => negb (data_delay f =? 0) && bool_decide (head (k_input c) = Some OP_DATA) && command_complete (k_input c));
      send_replies f rs;;
      hung ← kget k_hung;
      if hung || negb data_ready then mret tt
      else
        go ← sleep_unless_stopped (data_delay f);
        if negb go then leave_with LeaveClosed
        else
          rs ← run_model process_one;
          send_replies f rs;;
          hung ← kget k_hung;
          if (hung : bool) then mret tt else serve_input fuel f
  end.

(** [sock.read]; an exhausted script is the end of the stream. *)
Definition sock_read_next : K (option (list Z)) := fun c =>
  match k_reads c with
  | [] => (inl (Some []), c)
  | SockData dt bs :: reads => (inl (Some bs), set_conn_now (k_now c + Z.of_N dt) (set_reads reads c))
  | SockTimeout dt :: reads => (inl None, set_conn_now (k_now c + Z.of_N dt) (set_reads reads c))
  | SockErr :: reads => (inr LeaveFailed, set_reads reads c)
  end.

Fixpoint serve_loop (fuel : nat) : K unit :=
  match fuel with
  | O => leave_with LeaveFuel
  | S fuel =>
      stopped ← kload k_stop;
      if (stopped : bool) then leave_with LeaveClosed
      else
        r ← sock_read_next;
        match r with
        | None => serve_loop fuel
        | Some [] => leave_with LeaveClosed
        | Some bs =>
            hung ← kget k_hung;
            if (hung : bool) then serve_loop fuel
            else
              kmod (fun c => set_conn_input (k_input c ++ bs) c);;
              f ← kload k_faults;
              n ← kget (fun c => length (k_input c));
              serve_input (S n) f;;
              serve_loop fuel
        end
  end.

Definition send_hello : K unit :=
  lock_model;;
  m ← kget k_model;
  if m_hung m then kmod (set_hung true)
  else
    f ← kload k_faults;
    let h := hello m in
    let h := match hello_status f with Some st => mkResponse (response h) (response_command h) st | None => h end in
    write_all (write_response h).

(** [handle_connection], once the socket options are set. *)
Definition handle_connection : K unit :=
  send_hello;;
  n ← kget (fun c => length (k_reads c));
  serve_loop (S n).
End connection.

(** A new connection to a server. *)
Definition new_conn (m : EtherDreamModel) (f : Faults) (now : Z) (env : list block) (reads : list sock_read) (writes : list bool) : Conn :=
  mkConn m f false now env reads writes [] [] 0 false.

(** ** Serving never fails *)

Section handling.
Context `{ByteOrder}.

(** Any of the three ways to process commands: it is total, keeps the simulator's
    invariant and consumes input. *)
Lemma process_loop_any fuel sb left input rs m : model_ok m -> bytes input -> m_hung m = false ->
  exists rest new m', process_loop fuel sb left input rs m = Some (rest, rs ++ new, m') /\ model_ok m' /\ kept m m' /\ bytes rest /\ (length rest <= length input)%nat.
Proof.
  revert left input rs m. induction fuel as [|fuel IH]; intros left input rs m Hm Hb Hh; cbn [process_loop].
  { exists input, [], m. by rewrite app_nil_r. }
  destruct (_ || _); [exists input, [], m; by rewrite app_nil_r|].
  destruct (process_round_ok input m Hm Hb Hh) as (r & -> & Hr). cbn [mbind option_bind]. destruct r as [m1|m1|n r m1]; cbn [round_ok] in Hr.
  - destruct Hr as (_ & H1 & Hk1 & _). exists [], [], m1. rewrite app_nil_r. split_and!; try done; try (by constructor); cbn; lia.
  - destruct Hr as [-> Hc]. exists input, [], m. by rewrite app_nil_r.
  - destruct Hr as (_ & Hn & H1 & Hk1 & Hnh & _). destruct (ends r) eqn:He.
    + exists [], [r], m1. split_and!; try done; try (by constructor); cbn; lia.
    + destruct (IH (Nat.pred <$> left) (drop n input) (rs ++ [r]) m1) as (rest & new & m' & Hrun & Hok & Hk' & Hbr & Hl); try done.
      * by apply Forall_drop.
      * apply Hnh. by intros ->.
      * exists rest, (r :: new), m'. rewrite Hrun, <- app_assoc. rewrite length_drop in Hl. pose proof (kept_trans _ _ _ Hk1 Hk').
        split; [done|]. split; [done|]. split; [done|]. split; [done|]. lia.
Qed.

Lemma process_with_any now input sb left m : settled m -> bytes input ->
  exists rest rs m', process_with now input sb left m = Some (rest, rs, m') /\ settled m' /\ bytes rest /\ (length rest <= length input)%nat /\
    m_input m' = m_input m.
Proof.
  intros (Hm & Hi & Hc) Hb. unfold process_with. pose proof (advance_ok now m Hm) as H1. destruct (advance_keeps now m) as (Hin & Hh & _).
  assert (Hs1 : settled (advance_to now m)) by (apply advance_settled; by split_and!).
  destruct (m_hung (advance_to now m)) eqn:Hhung.
  - exists [], [], (advance_to now m). split; [done|]. split; [done|]. split; [constructor|]. split; [simpl; lia|done].
  - destruct (process_loop_any (S (length input)) sb left input [] (advance_to now m) H1 Hb Hhung) as (rest & new & m' & Hr & Hok & Hk & Hbr & Hl).
    exists rest, new, m'. split; [exact Hr|]. destruct Hk as (_ & _ & Hki & _). split; [split; [done|]; rewrite Hki, Hin; by split|].
    split; [done|]. split; [done|]. by rewrite Hki, Hin.
Qed.

(** A complete command is consumed. *)
Lemma process_one_consumes now input m rest rs m' : settled m -> bytes input -> command_complete input = true ->
  process_one now input m = Some (rest, rs, m') -> (length rest < length input)%nat.
Proof.
  intros (Hm & _) Hb Hc. assert (Hne : (0 < length input)%nat) by (destruct input; [done|simpl; lia]).
  unfold process_one, process_with. pose proof (advance_ok now m Hm) as H1. destruct (m_hung (advance_to now m)) eqn:Hhung; [intros [= <- _ _]; done|].
  cbn [process_loop]. rewrite (bool_decide_eq_false_2 (Some 1%nat = Some 0%nat)) by done. rewrite (bool_decide_eq_false_2 (is_Some None /\ _)) by (intros [[? ?] _]; done).
  destruct (process_round_ok input _ H1 Hb Hhung) as (r & Hr & Hrok). rewrite Hr. cbn [orb mbind option_bind]. destruct r as [m1|m1|n r m1]; cbn [round_ok] in Hrok.
  - intros [= <- _ _]. done.
  - destruct Hrok as [_ Hf]. by rewrite Hf in Hc.
  - destruct Hrok as (_ & Hn & Hm1 & _ & Hnh & _). destruct (ends r) eqn:He; [intros [= <- _ _]; done|]. intros Hp.
    assert (Hl : (length rest <= length (drop n input))%nat); [|rewrite length_drop in Hl; lia].
    destruct (process_loop_any (length input) None (Nat.pred <$> Some 1%nat) (drop n input) ([] ++ [r]) m1 Hm1 ltac:(by apply Forall_drop) ltac:(apply Hnh; by intros ->))
      as (rest' & new & m2 & Hrun & _ & _ & _ & Hl). rewrite Hrun in Hp. by injection Hp as <- _ _.
Qed.

Definition faults_ok (f : Faults) : Prop := 0 <= reply_delay f /\ 0 <= data_delay f.

Definition block_ok (b : block) : Prop := Forall event_ok (b_events b) /\ (forall f, b_faults b = Some f -> faults_ok f).

Definition read_ok (r : sock_read) : Prop := match r with SockData _ bs => bytes bs | _ => True end.

(** The invariant of a connection. *)
Record conn_ok (c : Conn) : Prop := {
  ck_model : settled (k_model c);
  ck_input : bytes (k_input c);
  ck_faults : faults_ok (k_faults c);
  ck_env : Forall block_ok (k_env c);
  ck_reads : Forall read_ok (k_reads c);
}.

(** What the environment can change: the reads still to come and the input of a
    connection are its own, and time does not go back. *)
Definition mine (c c' : Conn) : Prop := k_reads c' = k_reads c /\ k_input c' = k_input c /\ k_now c <= k_now c'.

Lemma ktick_ok c : conn_ok c -> conn_ok (ktick c) /\ mine c (ktick c).
Proof.
  intros Hc. unfold ktick. destruct (k_env c) as [|b env] eqn:He; [by split; [|split_and!; try done; lia]|].
  pose proof (ck_env _ Hc) as Henv. rewrite He in Henv. apply Forall_cons in Henv as [[Hev Hf] Henv].
  destruct (sim_run_ok (b_events b) (k_model c) (ck_model _ Hc) Hev) as (rs & m & Hr & Hs & _). rewrite Hr.
  split; [|split_and!; simpl; try done; lia]. destruct Hc. split; try done. simpl. destruct (b_faults b) as [f|]; [by apply Hf|done].
Qed.

(** [serves P m Q]: from [P], [m] neither panics nor runs out of fuel; it gives [Q] or
    leaves. *)
Definition serves {A} (P : Conn -> Prop) (m : K A) (Q : A -> Conn -> Prop) : Prop :=
  forall c, conn_ok c -> P c ->
  match m c with
  | (inl a, c') => conn_ok c' /\ Q a c'
  | (inr l, c') => l <> LeavePanic /\ l <> LeaveFuel /\ conn_ok c'
  end.

Lemma serves_ret {A} (P : Conn -> Prop) (a : A) (Q : A -> Conn -> Prop) : (forall c, P c -> Q a c) -> serves P (mret a) Q.
Proof. intros HQ c Hc HP. split; [done|]. by apply HQ. Qed.

Lemma serves_leave {A} P l (Q : A -> Conn -> Prop) : l <> LeavePanic -> l <> LeaveFuel -> serves P (leave_with l) Q.
Proof. by intros Hp Hf c Hc HP. Qed.

Lemma serves_bind {A B} P (m : K A) (Q : A -> Conn -> Prop) (k : A -> K B) R :
  serves P m Q -> (forall a, serves (Q a) (k a) R) -> serves P (m ≫= k) R.
Proof.
  intros Hm Hk c Hc HP. unfold mbind, K_bind. specialize (Hm c Hc HP). destruct (m c) as [[a|l] c']; [|done].
  destruct Hm as [Hc' HQ]. by apply (Hk a).
Qed.

Lemma serves_weaken {A} (P P' : Conn -> Prop) (m : K A) (Q Q' : A -> Conn -> Prop) :
  serves P m Q -> (forall c, P' c -> P c) -> (forall a c, Q a c -> Q' a c) -> serves P' m Q'.
Proof.
  intros Hm HP HQ c Hc HP'. specialize (Hm c Hc (HP c HP')). destruct (m c) as [[a|l] c']; [|done]. destruct Hm. split; [done|]. by apply HQ.
Qed.

Lemma serves_get {A} P (f : Conn -> A) : serves P (kget f) (fun a c => P c /\ a = f c).
Proof. by intros c Hc HP. Qed.

(** Assertions about what is the connection's own survive the other threads. *)
Definition own (P : Conn -> Prop) : Prop := forall c c', mine c c' -> P c -> P c'.

Lemma serves_load {A} P (f : Conn -> A) : own P -> serves P (kload f) (fun a c => P c /\ a = f c).
Proof. intros HO c Hc HP. unfold kload. destruct (ktick_ok c Hc) as [Hc' Hm]. split; [done|]. split; [by eapply HO|done]. Qed.

Lemma serves_held {A} P (f : Conn -> A) : own P -> serves P (kheld f) (fun a c => P c /\ a = f c).
Proof.
  intros HO c Hc HP. unfold kheld. destruct (ktick_ok c Hc) as [Hc' Hm]. split; [destruct Hc, Hc'; by split|]. split; [|done].
  eapply HO; [|exact HP]. exact Hm.
Qed.

Lemma serves_lock P : own P -> serves P lock_model (fun _ => P).
Proof.
  intros HO c Hc HP. unfold lock_model. destruct (ktick_ok c Hc) as [Hc' Hm]. split; [|by eapply HO; [|exact HP]].
  destruct Hc'. split; try done. by apply advance_settled.
Qed.

Ltac mine_by := split_and!; simpl; [done|done|lia].

Lemma serves_write P bs : own P -> serves P (write_all bs) (fun _ => P).
Proof.
  intros HO c Hc HP. unfold write_all.
  assert (Hok : forall ws out, conn_ok (set_out out (set_writes ws c)) /\ P (set_out out (set_writes ws c))).
  { intros ws out. split; [by destruct Hc|]. eapply HO; [|exact HP]. mine_by. }
  destruct (k_writes c) as [|[] ws]; [apply Hok|apply Hok|]. split_and!; try done. by destruct Hc.
Qed.

(** Updates of what neither the invariant nor an assertion of its own is about. *)
Lemma serves_mod P f : own P -> (forall c, conn_ok c -> conn_ok (f c) /\ mine c (f c)) -> serves P (kmod f) (fun _ => P).
Proof. intros HO Hf c Hc HP. destruct (Hf c Hc) as [Hc' Hm]. split; [done|]. by eapply HO. Qed.

Lemma sleep_loop_ends P fuel deadline : own P ->
  serves (fun c => P c /\ deadline - k_now c <= (Z.of_nat fuel - 1) * 5000000 /\ (0 < fuel)%nat) (sleep_loop fuel deadline) (fun _ => P).
Proof.
  intros HO. induction fuel as [|fuel IH]; [intros c _ (_ & _ & Hz); lia|]. cbn [sleep_loop].
  set (T := fun c => P c /\ deadline - k_now c <= (Z.of_nat (S fuel) - 1) * 5000000).
  assert (HT : own T) by (intros c c' Hm [HP Hd]; split; [by eapply HO|destruct Hm; lia]).
  eapply serves_bind; [eapply serves_weaken; [apply (serves_load T k_stop HT)| |intros a c Hx; exact Hx]; intros c (? & ? & _); by split|].
  intros stopped. destruct stopped; [apply serves_ret; by intros c [[? _] _]|].
  eapply serves_bind; [eapply serves_weaken; [apply (serves_load T k_now HT)|intros c [? _]; done|intros a c Hx; exact Hx]|]. intros now.
  destruct (Z.leb_spec deadline now); [apply serves_ret; by intros c [[? _] _]|].
  eapply serves_bind with (Q := fun _ c => P c /\ deadline - k_now c <= (Z.of_nat fuel - 1) * 5000000 /\ (0 < fuel)%nat); [|done].
  intros c Hc [[HP Hd] ->]. simpl. split; [by destruct Hc|]. split; [eapply HO; [|exact HP]; split_and!; try done; simpl; lia|]. simpl. lia.
Qed.

Lemma sleep_ends P d : own P -> 0 <= d -> serves P (sleep_unless_stopped d) (fun _ => P).
Proof.
  intros HO Hd. unfold sleep_unless_stopped. eapply serves_bind; [by apply (serves_load P k_now)|]. intros now.
  eapply serves_weaken; [apply (sleep_loop_ends P _ _ HO)| |done]. intros c [HP ->]. split; [done|]. pose proof (Z.div_pos d 5000000 Hd ltac:(lia)).
  pose proof (Z.div_mod d 5000000 ltac:(lia)). pose proof (Z.mod_pos_bound d 5000000 ltac:(lia)). split; [|lia]. rewrite Z2Nat.id by lia. lia.
Qed.

Lemma send_bytes_ok P f r : own P -> faults_ok f -> serves P (send_bytes f r) (fun _ => P).
Proof.
  intros HO [Hr _]. unfold send_bytes. eapply serves_bind with (Q := fun _ => P); [by intros c Hc HP|]. intros sent.
  case_bool_decide; [by apply serves_leave|]. eapply serves_bind; [by apply sleep_ends|]. intros [|]; cbn [negb]; [|by apply serves_leave].
  case_bool_decide; (eapply serves_bind; [by apply serves_write|]); intros []; [by apply serves_leave|].
  eapply serves_bind with (Q := fun _ => P).
  - destruct (_ && _); [by apply serves_write|by apply serves_ret].
  - intros []. apply serves_mod; [done|]. intros c Hc. split; [by destruct Hc|mine_by].
Qed.

Lemma send_replies_ok P f rs : own P -> faults_ok f -> serves P (send_replies f rs) (fun _ => P).
Proof.
  intros HO Hf. induction rs as [|r rs IH]; cbn [send_replies]; [by apply serves_ret|]. destruct r as [r|v| |].
  - case_bool_decide; [done|]. eapply serves_bind; [by apply send_bytes_ok|]. by intros [].
  - eapply serves_bind; [by apply send_bytes_ok|]. by intros [].
  - by apply serves_leave.
  - apply serves_mod; [done|]. intros c Hc. split; [by destruct Hc|mine_by].
Qed.

(** The simulator takes in the input, and leaves no more than it got. *)
Lemma run_model_ok sb left n m' :
  serves (fun c => (length (k_input c) <= n)%nat /\ (length (k_reads c) <= m')%nat /\ (left = Some 1%nat -> sb = None -> command_complete (k_input c) = true /\ (length (k_input c) <= n)%nat))
    (run_model (fun now input m => process_with now input sb left m))
    (fun _ c => (length (k_reads c) <= m')%nat /\ (length (k_input c) <= n)%nat /\ (left = Some 1%nat -> sb = None -> (length (k_input c) < n)%nat)).
Proof.
  unfold run_model.
  set (T := fun c => (length (k_input c) <= n)%nat /\ (length (k_reads c) <= m')%nat /\ (left = Some 1%nat -> sb = None -> command_complete (k_input c) = true /\ (length (k_input c) <= n)%nat)).
  assert (HT : own T) by (intros c c' (Hr & Hi & _); unfold T; by rewrite Hr, Hi).
  eapply serves_bind; [by apply (serves_lock T)|]. intros []. eapply serves_bind; [by apply (serves_held T k_now)|]. intros now c Hc [(Hn & Hr & Hone) _]. unfold take_in.
  destruct (process_with_any now (k_input c) sb left (k_model c) (ck_model _ Hc) (ck_input _ Hc)) as (rest & rs & m & Hp & Hs & Hb & Hl & _). rewrite Hp.
  split; [destruct Hc; by split|]. simpl. split; [done|]. split; [lia|]. intros -> ->. destruct (Hone eq_refl eq_refl) as [Hcc _].
  pose proof (process_one_consumes now (k_input c) (k_model c) rest rs m (ck_model _ Hc) (ck_input _ Hc) Hcc Hp). lia.
Qed.

(** The lengths of what is the connection's own. *)
Definition within (n m : nat) (c : Conn) : Prop := (length (k_input c) <= n)%nat /\ (length (k_reads c) <= m)%nat.

Lemma within_own n m : own (within n m).
Proof. intros c c' (Hr & Hi & _). unfold within. by rewrite Hr, Hi. Qed.

Lemma serve_input_ok fuel f n m : faults_ok f -> (n < fuel)%nat -> serves (within n m) (serve_input fuel f) (fun _ c => (length (k_reads c) <= m)%nat).
Proof.
  intros Hf. revert n. induction fuel as [|fuel IH]; intros n Hn; [lia|]. cbn [serve_input].
  eapply serves_bind with (Q := fun _ => within n m).
  { destruct (data_delay f =? 0); (eapply serves_weaken; [apply (run_model_ok _ None n m)| |]).
    1, 3: intros c [? ?]; split_and!; done. all: intros _ c (? & ? & _); by split. }
  intros rs. set (ready := fun c => _ && _ && _).
  eapply serves_bind with (Q := fun b c => within n m c /\ (b = true -> command_complete (k_input c) = true)).
  { intros c Hc HP. split; [done|]. split; [done|]. unfold ready. intros Hr. by apply andb_true_iff in Hr as [_ ?]. }
  intros data_ready. set (T := fun c => within n m c /\ (data_ready = true -> command_complete (k_input c) = true)).
  assert (HT : own T) by (intros c c' Hm [HW Hcc]; split; [by eapply within_own|]; destruct Hm as (_ & Hi & _); by rewrite Hi).
  eapply serves_bind; [by apply (send_replies_ok T)|]. intros [].
  eapply serves_bind with (Q := fun _ => T); [by intros c Hc HP|]. intros hung.
  destruct (hung || negb data_ready) eqn:Hgo; [apply serves_ret; by intros c [[_ ?] _]|]. apply orb_false_iff in Hgo as [_ Hd]. apply negb_false_iff in Hd. subst data_ready.
  eapply serves_bind; [apply (sleep_ends T); [done|apply Hf]|]. intros [|]; cbn [negb]; [|by apply serves_leave].
  destruct n as [|n].
  { intros c _ [[Hl _] Hcc]. specialize (Hcc eq_refl). by destruct (k_input c); [|simpl in Hl; lia]. }
  eapply serves_bind with (Q := fun _ => within n m).
  { eapply serves_weaken; [apply (run_model_ok None (Some 1%nat) (S n) m)| |].
    - intros c [[? ?] Hcc]. split_and!; try done. intros _ _. split; [by apply Hcc|done].
    - intros _ c (? & ? & Hlt). specialize (Hlt eq_refl eq_refl). split; [lia|done]. }
  intros rs'.
  eapply serves_bind; [apply (send_replies_ok (within n m)); [apply within_own|done]|]. intros [].
  eapply serves_bind with (Q := fun _ => within n m); [by intros c Hc HP|]. intros hung'. destruct hung'; [apply serves_ret; by intros c [_ ?]|].
  apply IH. lia.
Qed.

Lemma serve_loop_ok fuel m : (m < fuel)%nat -> serves (fun c => (length (k_reads c) <= m)%nat) (serve_loop fuel) (fun _ _ => False).
Proof.
  revert m. induction fuel as [|fuel IH]; intros m Hm; [lia|]. cbn [serve_loop]. set (T := fun c => (length (k_reads c) <= m)%nat).
  assert (HT : own T) by (intros c c' (Hr & _); unfold T; by rewrite Hr).
  eapply serves_bind; [by apply (serves_load T k_stop)|]. intros stopped. destruct stopped; [by apply serves_leave|].
  eapply serves_bind with (Q := fun r c => match r with Some [] => True | Some bs => bytes bs /\ (length (k_reads c) < m)%nat | None => (length (k_reads c) < m)%nat end).
  { intros c Hc [HP _]. unfold T in HP. unfold sock_read_next. pose proof (ck_reads _ Hc) as Hr. destruct (k_reads c) as [|[dt bs|dt|] reads] eqn:Hk; [done|..];
      apply Forall_cons in Hr as [Hr Hrs]; simpl in HP.
    - split; [destruct Hc; by split|]. destruct bs; [done|]. simpl. split; [done|lia].
    - split; [destruct Hc; by split|]. simpl. lia.
    - split_and!; try done. destruct Hc. by split. }
  intros [[|b bs]|]; [by apply serves_leave| |].
  2: { destruct m as [|m]; [intros c _ Hx; simpl in Hx; lia|]. eapply serves_weaken; [apply (IH m); lia|intros c Hx; simpl in *; lia|done]. }
  destruct m as [|m]; [intros c _ [_ Hx]; simpl in Hx; lia|].
  set (T' := fun c => bytes (b :: bs) /\ (length (k_reads c) <= m)%nat).
  eapply serves_bind with (Q := fun _ => T'); [intros c Hc [Hb Hl]; split; [done|]; split; [done|lia]|].
  intros hung. destruct hung; [eapply serves_weaken; [apply (IH m); lia|by intros c [_ ?]|done]|].
  set (T2 := fun c => (length (k_reads c) <= m)%nat). assert (HT2 : own T2) by (intros c c' (Hr & _); unfold T2; by rewrite Hr).
  eapply serves_bind with (Q := fun _ => T2).
  { intros c Hc [Hb Hl]. split; [|done]. destruct Hc. split; try done. simpl. by apply Forall_app. }
  intros []. eapply serves_bind with (Q := fun f c => T2 c /\ faults_ok f).
  { intros c Hc HP. destruct (serves_load T2 k_faults HT2 c Hc HP) as [Hc' [HP' _]]. split; [done|]. split; [done|]. apply (ck_faults _ Hc'). }
  intros f. eapply serves_bind with (Q := fun n c => within n m c /\ faults_ok f); [by intros c Hc [HP Hf]|]. intros n.
  eapply serves_bind with (Q := fun _ => T2); [|intros []; eapply serves_weaken; [apply (IH m); lia|done|done]].
  intros c Hc [HW Hf]. exact (serve_input_ok (S n) f n m Hf ltac:(lia) c Hc HW).
Qed.

Lemma handle_connection_ok : serves (fun _ => True) handle_connection (fun _ _ => False).
Proof.
  unfold handle_connection, send_hello. set (T := fun c : Conn => True). assert (HT : own T) by done.
  eapply serves_bind with (Q := fun _ => T).
  - eapply serves_bind; [by apply (serves_lock T)|]. intros []. eapply serves_bind with (Q := fun _ => T); [by intros c Hc _|]. intros m.
    destruct (m_hung m); [apply serves_mod; [done|]; intros c Hc; split; [by destruct Hc|mine_by]|].
    eapply serves_bind with (Q := fun _ => T); [eapply serves_weaken; [by apply (serves_load T k_faults)|done|done]|]. intros f. by apply serves_write.
  - intros []. eapply serves_bind with (Q := fun n c => (length (k_reads c) <= n)%nat); [by intros c Hc _|]. intros n. apply serve_loop_ok. lia.
Qed.

(** A connection of the simulator's server always ends by closing, resetting or
    failing its socket, never by a panic: for every input from the client, cut in
    any way, every fault injected, and whatever the other connections do to the
    simulator meanwhile; and the simulator stays in its invariant. *)
Theorem connection_always_served c :
  settled (k_model c) -> bytes (k_input c) -> faults_ok (k_faults c) -> Forall block_ok (k_env c) -> Forall read_ok (k_reads c) ->
  exists l c', handle_connection c = (inr l, c') /\ (l = LeaveClosed \/ l = LeaveReset \/ l = LeaveFailed) /\ settled (k_model c').
Proof.
  intros Hm Hi Hf He Hr. pose proof (handle_connection_ok c ltac:(by split) I) as Hs. destruct (handle_connection c) as [[[]|l] c'].
  - by destruct Hs as [_ []].
  - destruct Hs as (Hp & Hfu & Hc). exists l, c'. split; [done|]. split; [destruct l; naive_solver|apply Hc].
Qed.

(** ** What a client sees *)

(** The bytes a simulator fed with the client's data answers with, until it resets the
    connection. *)
Fixpoint fed_output (now : Z) (reads : list sock_read) (m : EtherDreamModel) : option (list Z * bool) :=
  match reads with
  | SockData dt (b :: bs) :: reads =>
      let now := now + Z.of_N dt in
      '(rs, m) ← feed now (b :: bs) m;
      if existsb (fun r => bool_decide (r = Reset)) rs then Some (mjoin (reply_bytes <$> rs), true)
      else '(out, reset) ← fed_output now reads m; Some (mjoin (reply_bytes <$> rs) ++ out, reset)
  | SockTimeout dt :: reads => fed_output (now + Z.of_N dt) reads m
  | _ => Some ([], false)
  end.

Lemma advance_idem now m : advance_to now (advance_to now m) = advance_to now m.
Proof. destruct (advance_keeps now m) as (_ & _ & _ & Hn). unfold advance_to at 1. rewrite Hn. by destruct (Z.leb_spec now (Z.max now (m_now m))); [|lia]. Qed.

(** Only the last reply of a run can be a reset or a hang. *)
Definition replies_ok (rs : list Reply) : Prop := exists l e, rs = l ++ e /\ Forall (fun r => ends r = false) l /\ (e = [] \/ exists r, e = [r] /\ ends r = true).

Lemma process_loop_replies fuel input rs m rest rs' m' : replies_ok rs -> Forall (fun r => ends r = false) rs ->
  process_loop fuel None None input rs m = Some (rest, rs', m') -> replies_ok rs'.
Proof.
  intros H0 H1. revert input rs m H0 H1. induction fuel as [|fuel IH]; intros input rs m Hok Hall; [by intros [= _ <- _]|]. rewrite process_loop_eq.
  destruct (process_round input m) as [[m1|m1|n r m1]|]; cbn [mbind option_bind]; [by intros [= _ <- _]..| |done].
  destruct (ends r) eqn:He.
  - intros [= _ <- _]. exists rs, [r]. split; [done|]. split; [done|]. right. by exists r.
  - assert (Hall' : Forall (fun r => ends r = false) (rs ++ [r])) by (apply Forall_app; split; [done|by constructor]).
    apply IH; [|done]. exists (rs ++ [r]), []. split; [by rewrite app_nil_r|]. split; [done|by left].
Qed.

Lemma process_replies now input m rest rs m' : process now input m = Some (rest, rs, m') -> replies_ok rs.
Proof.
  unfold process, process_with. assert (Hnil : replies_ok []) by (exists [], []; split_and!; try done; by left).
  destruct (m_hung (advance_to now m)); [by intros [= _ <- _]|]. apply process_loop_replies; [done|constructor].
Qed.

(** A run that answers with a hang leaves the device hung. *)
Lemma process_loop_hang fuel input rs m rest rs' m' : model_ok m -> bytes input -> m_hung m = false -> Forall (fun r => ends r = false) rs ->
  process_loop fuel None None input rs m = Some (rest, rs', m') -> Hang ∈ rs' -> m_hung m' = true.
Proof.
  assert (Hno : forall l, Forall (fun r => ends r = false) l -> Hang ∈ l -> False) by (intros l Hl Hin; rewrite Forall_forall in Hl; by specialize (Hl _ Hin)).
  revert input rs m. induction fuel as [|fuel IH]; intros input rs m Hm Hb Hh Hall; [intros [= _ <- _] Hx; by apply Hno in Hx|]. rewrite process_loop_eq.
  destruct (process_round_ok input m Hm Hb Hh) as (r & -> & Hr). cbn [mbind option_bind]. destruct r as [m1|m1|n r m1]; cbn [round_ok] in Hr.
  - intros [= _ <- <-] _. apply Hr.
  - intros [= _ <- _] Hx. by apply Hno in Hx.
  - destruct Hr as (_ & Hn & H1 & _ & Hnh & Hhang). destruct (ends r) eqn:He.
    + intros [= _ <- <-] [Hx|Hx%list_elem_of_singleton]%elem_of_app; [by apply Hno in Hx|]. by apply Hhang.
    + apply IH; [done|by apply Forall_drop|apply Hnh; by intros ->|]. apply Forall_app. split; [done|by constructor].
Qed.

Lemma process_hang now input m rest rs m' : settled m -> bytes input -> process now input m = Some (rest, rs, m') -> Hang ∈ rs -> m_hung m' = true.
Proof.
  intros (Hm & _) Hb. unfold process, process_with. destruct (m_hung (advance_to now m)) eqn:Hh; [intros [= _ <- _] Hx; by apply not_elem_of_nil in Hx|].
  apply process_loop_hang; [by apply advance_ok|done|done|constructor].
Qed.

(** No other thread acts, no fault is injected, and writing succeeds. *)
Definition quiet (c : Conn) : Prop := k_env c = [] /\ k_stop c = false /\ k_writes c = [] /\ k_faults c = no_faults.

Lemma kload_quiet {A} (f : Conn -> A) c : quiet c -> kload f c = (inl (f c), c).
Proof. intros (He & _). unfold kload, ktick. by rewrite He. Qed.

Lemma kheld_quiet {A} (f : Conn -> A) c : quiet c -> kheld f c = (inl (f c), c).
Proof. intros (He & _). unfold kheld, ktick. rewrite He. by destruct c. Qed.

Lemma send_bytes_quiet r c : quiet c -> send_bytes no_faults r c = (inl tt, set_sent (S (k_sent c)) (set_out (k_out c ++ reply_bytes r) c)).
Proof.
  intros Hq. unfold send_bytes, sleep_unless_stopped. cbn [drop_after_replies reply_delay truncate_reply duplicate_replies no_faults].
  unfold mbind, K_bind, kget, kmod, mret, K_ret. rewrite bool_decide_eq_false_2 by done. rewrite (kload_quiet k_now c Hq). change (Z.to_nat (0 / 5000000 + 2)) with 2%nat.
  cbn [sleep_loop]. unfold mbind, K_bind. rewrite (kload_quiet k_stop c Hq). destruct Hq as (He & Hs & Hw & Hf). rewrite Hs.
  rewrite (kload_quiet k_now c) by done. rewrite Z.add_0_r, Z.leb_refl. cbn [mret K_ret negb]. unfold mret, K_ret. cbn [negb].
  unfold write_all. rewrite Hw. cbn [andb tail]. f_equal. destruct c. simpl in *. by subst.
Qed.

Lemma send_replies_quiet l c : quiet c -> Forall (fun r => ends r = false) l ->
  forall rs, send_replies no_faults (l ++ rs) c = send_replies no_faults rs (set_sent (k_sent c + length l) (set_out (k_out c ++ mjoin (reply_bytes <$> l)) c)).
Proof.
  intros Hq Hl rs. revert c Hq. induction Hl as [|r l Hr _ IH]; intros c Hq.
  { simpl. rewrite app_nil_r, Nat.add_0_r. by destruct c. }
  assert (Hstep : forall rest, send_replies no_faults (r :: rest) c = send_replies no_faults rest (set_sent (S (k_sent c)) (set_out (k_out c ++ reply_bytes r) c))).
  { intros rest. destruct r as [r|v| |]; try done; cbn [send_replies].
    - rewrite bool_decide_eq_false_2 by apply not_elem_of_nil. unfold mbind, K_bind. by rewrite send_bytes_quiet.
    - unfold mbind, K_bind. by rewrite send_bytes_quiet. }
  change ((r :: l) ++ rs) with (r :: (l ++ rs)). rewrite Hstep. rewrite IH by done. f_equal. destruct c. simpl. unfold set_sent, set_out. simpl. f_equal; [by rewrite <- app_assoc|lia].
Qed.

Lemma run_model_quiet c rest rs m' : quiet c -> process (k_now c) (k_input c) (k_model c) = Some (rest, rs, m') ->
  run_model process c = (inl rs, set_model m' (set_conn_input rest c)).
Proof.
  intros Hq Hp. unfold run_model, mbind, K_bind, lock_model, ktick. pose proof Hq as (He & _). rewrite He.
  rewrite kheld_quiet by done. unfold take_in. cbn [k_now k_input k_model set_model].
  replace (process (k_now c) (k_input c) (advance_to (k_now c) (k_model c))) with (process (k_now c) (k_input c) (k_model c)); [rewrite Hp; by destruct c|].
  unfold process, process_with. by rewrite advance_idem.
Qed.

(** One portion of input, without faults: the replies are written whole and in
    order. *)
Lemma serve_input_quiet fuel c rest rs m' : quiet c -> process (k_now c) (k_input c) (k_model c) = Some (rest, rs, m') -> k_hung c = false ->
  exists c', serve_input (S fuel) no_faults c = (if existsb (fun r => bool_decide (r = Reset)) rs then inr LeaveReset else inl tt, c') /\ quiet c' /\
    k_out c' = k_out c ++ mjoin (reply_bytes <$> rs) /\ k_model c' = m' /\ k_input c' = rest /\ k_reads c' = k_reads c /\ k_now c' = k_now c /\
    (k_hung c' = true -> Hang ∈ rs).
Proof.
  intros Hq Hp Hh. destruct (process_replies _ _ _ _ _ _ Hp) as (l & e & -> & Hl & He). cbn [serve_input]. unfold mbind at 1, K_bind at 1.
  change (data_delay no_faults =? 0) with true. cbv iota. rewrite (run_model_quiet c rest (l ++ e) m') by done.
  unfold mbind, K_bind, kget. cbn [negb andb]. set (c1 := set_model m' (set_conn_input rest c)).
  rewrite send_replies_quiet by done. set (c2 := set_sent _ _).
  assert (Hlr : existsb (fun r => bool_decide (r = Reset)) l = false).
  { clear -Hl. induction Hl as [|r l Hr _ IH]; [done|]. simpl. rewrite IH, orb_false_r. destruct r; try done; by apply bool_decide_eq_false_2. }
  rewrite existsb_app, Hlr. cbn [orb]. rewrite fmap_app, join_app.
  destruct He as [->|(r & -> & Hr)].
  - cbn [send_replies existsb fmap list_fmap]. unfold mret, K_ret. simpl. rewrite app_nil_r. exists c2. unfold c2. simpl. rewrite Hh. simpl. split_and!; try done.
  - destruct r as [r|v| |]; try done; cbn [send_replies existsb].
    + unfold leave_with. rewrite bool_decide_eq_true_2 by done. exists c2. unfold c2. simpl. rewrite app_nil_r, Hh. split_and!; try done.
    + unfold kmod. rewrite bool_decide_eq_false_2 by done. exists (set_hung true c2). unfold c2. simpl. rewrite app_nil_r. split_and!; try done.
      intros _. apply elem_of_app. right. by left.
Qed.

Lemma fed_output_hung now reads m : m_hung m = true -> fed_output now reads m = Some ([], false).
Proof.
  revert now m. induction reads as [|[dt [|b bs]|dt|] reads IH]; intros now m Hh; try done; [|by apply IH]. cbn [fed_output].
  unfold feed, process, process_with. destruct (advance_keeps (now + Z.of_N dt) (set_input [] m)) as (_ & Hk & _).
  assert (Hh' : m_hung (advance_to (now + Z.of_N dt) (set_input [] m)) = true) by (rewrite Hk; by destruct m). rewrite Hh'. cbn [mbind option_bind existsb].
  rewrite IH by (by destruct (advance_to _ _)). done.
Qed.

Lemma feed_settled now bs m : settled m -> bytes bs -> exists rs m', feed now bs m = Some (rs, m') /\ settled m'.
Proof.
  intros Hm Hb. destruct (sim_run_ok [EvFeed now bs] m Hm) as (rs & m' & Hr & Hs & _); [by repeat constructor|].
  cbn [sim_run sim_step] in Hr. destruct (feed now bs m) as [[rs1 m1]|]; [|done]. cbn [mbind option_bind] in Hr. injection Hr as _ ->. by exists rs1, m'.
Qed.

Lemma fed_output_total now reads m : settled m -> Forall read_ok reads -> exists out reset, fed_output now reads m = Some (out, reset).
Proof.
  intros Hm Hr. revert now m Hm. induction Hr as [|r reads Hr _ IH]; intros now m Hm; [by do 2 eexists|].
  destruct r as [dt [|b bs]|dt|]; try (by do 2 eexists); cbn [fed_output]; [|by apply IH].
  destruct (feed_settled (now + Z.of_N dt) (b :: bs) m Hm Hr) as (rs & m' & -> & Hs). cbn [mbind option_bind].
  destruct (existsb _ _); [by do 2 eexists|]. destruct (IH (now + Z.of_N dt) m' Hs) as (out & reset & ->). by do 2 eexists.
Qed.

(** A connection whose device hangs reads on and answers nothing. *)
Lemma serve_loop_hung fuel c : quiet c -> k_hung c = true -> (length (k_reads c) < fuel)%nat ->
  exists l c', serve_loop fuel c = (inr l, c') /\ k_out c' = k_out c /\ l <> LeaveReset.
Proof.
  revert c. induction fuel as [|fuel IH]; intros c Hq Hh Hf; [lia|]. cbn [serve_loop]. unfold mbind, K_bind. rewrite kload_quiet by done.
  pose proof Hq as (_ & Hs & _). rewrite Hs. unfold sock_read_next, kget.
  destruct (k_reads c) as [|[dt [|b bs]|dt|] reads] eqn:Hr; simpl in Hf; try (by do 2 eexists).
  - cbn [k_hung set_conn_now set_reads]. rewrite Hh. apply (IH (set_conn_now (k_now c + Z.of_N dt) (set_reads reads c))); [done..|simpl; lia].
  - apply (IH (set_conn_now (k_now c + Z.of_N dt) (set_reads reads c))); [done..|simpl; lia].
Qed.

Lemma serve_loop_quiet fuel c out reset : quiet c -> k_hung c = false -> settled (k_model c) -> m_input (k_model c) = [] -> bytes (k_input c) ->
  Forall read_ok (k_reads c) -> (length (k_reads c) < fuel)%nat ->
  fed_output (k_now c) (k_reads c) (set_input (k_input c) (k_model c)) = Some (out, reset) ->
  exists l c', serve_loop fuel c = (inr l, c') /\ k_out c' = k_out c ++ out /\ (l = LeaveReset <-> reset = true).
Proof.
  revert c out. induction fuel as [|fuel IH]; intros c out Hq Hh Hm Hmi Hi Hr Hf; [lia|]. cbn [serve_loop]. unfold mbind, K_bind. rewrite kload_quiet by done.
  pose proof Hq as (_ & Hs & _). rewrite Hs. unfold sock_read_next, kget, leave_with.
  destruct (k_reads c) as [|[dt [|b bs]|dt|] reads] eqn:Hk; cbn [length] in Hf; try (intros [= <- <-]; do 2 eexists; split; [done|]; split; [by rewrite app_nil_r|done]).
  2: { cbn [fed_output]. apply Forall_cons in Hr as [_ Hr]. apply (IH (set_conn_now (k_now c + Z.of_N dt) (set_reads reads c))); try done. simpl. lia. }
  apply Forall_cons in Hr as [Hb Hr]. cbn [fed_output read_ok] in *. set (c1 := set_conn_now (k_now c + Z.of_N dt) (set_reads reads c)).
  change (k_hung c1) with (k_hung c). rewrite Hh. unfold kmod. set (c2 := set_conn_input (k_input c1 ++ b :: bs) c1).
  assert (Hq2 : quiet c2) by done. rewrite kload_quiet by done. assert (Hf2 : k_faults c2 = no_faults) by apply Hq. rewrite Hf2.
  assert (Hi2 : bytes (k_input c2)) by (apply Forall_app; by split).
  destruct (process_with_any (k_now c2) (k_input c2) None None (k_model c2) Hm Hi2) as (rest & rs & m' & Hp & Hs' & Hbr & Hl & Hin').
  assert (Hfeed : feed (k_now c + Z.of_N dt) (b :: bs) (set_input (k_input c) (k_model c)) = Some (rs, set_input rest m')).
  { unfold feed. replace (set_input [] (set_input (k_input c) (k_model c))) with (k_model c) by (destruct (k_model c); simpl in *; by subst).
    change (m_input (set_input (k_input c) (k_model c))) with (k_input c). unfold process.
    change (k_now c2) with (k_now c + Z.of_N dt) in Hp. change (k_input c2) with (k_input c ++ b :: bs) in Hp. change (k_model c2) with (k_model c) in Hp. by rewrite Hp. }
  rewrite Hfeed. cbn [mbind option_bind].
  destruct (serve_input_quiet (length (k_input c2)) c2 rest rs m' Hq2 Hp Hh) as (c3 & -> & Hq3 & Ho3 & Hm3 & Hi3 & Hr3 & Hn3 & Hh3).
  destruct (existsb _ rs) eqn:Hx.
  { intros [= <- <-]. do 2 eexists. split; [done|]. split; [exact Ho3|done]. }
  destruct (fed_output (k_now c + Z.of_N dt) reads (set_input rest m')) as [[out' reset']|] eqn:Hfo; [|done]. intros [= <- <-].
  destruct (k_hung c3) eqn:Hhung3.
  - assert (Hmh : m_hung m' = true) by (eapply process_hang; [exact Hm|exact Hi2|exact Hp|by apply Hh3]).
    rewrite fed_output_hung in Hfo by (by destruct m'). injection Hfo as <- <-.
    destruct (serve_loop_hung fuel c3 Hq3 Hhung3) as (l & c' & Hrun & Ho & Hl'); [rewrite Hr3; simpl; lia|].
    exists l, c'. split; [done|]. split; [rewrite Ho, Ho3; by rewrite app_nil_r|]. done.
  - destruct (IH c3 out' Hq3 Hhung3) as (l & c' & Hrun & Ho & Hl'); try done.
    + by rewrite Hm3.
    + by rewrite Hm3, Hin'.
    + by rewrite Hi3.
    + by rewrite Hr3.
    + rewrite Hr3. simpl. lia.
    + rewrite Hn3, Hr3, Hi3, Hm3. exact Hfo.
    + exists l, c'. split; [done|]. split; [|done]. rewrite Ho, Ho3. simpl. by rewrite <- app_assoc.
Qed.

(** C23. Without faults and other clients, a client of the server sees the simulator's
    hello, then exactly the bytes the simulator answers when it is fed what the client
    sends, each reply whole and in the order of the commands; the connection is reset
    where the simulator resets it and nowhere else, and a simulator that hangs leaves
    the client without an answer. *)
Theorem server_serves_the_model m now reads :
  settled m -> m_input m = [] -> Forall read_ok reads ->
  exists out reset l c',
    fed_output now reads (advance_to now m) = Some (out, reset) /\
    handle_connection (new_conn m no_faults now [] reads []) = (inr l, c') /\
    k_out c' = (if m_hung m then [] else write_response (hello (advance_to now m))) ++ out /\
    (l = LeaveReset <-> reset = true).
Proof.
  intros Hm Hi Hr. destruct (advance_keeps now m) as (Hin & Hh & _). pose proof (proj1 (advance_settled now m Hm)) as Hs.
  destruct (fed_output_total now reads (advance_to now m) Hs Hr) as (out & reset & Hfo). exists out, reset.
  unfold handle_connection, send_hello, mbind, K_bind, lock_model, kget. cbn [ktick new_conn k_env k_now k_model set_model conn_eta]. rewrite Hh.
  destruct (m_hung m) eqn:Hhung.
  - rewrite fed_output_hung in Hfo by (by rewrite Hh). injection Hfo as <- <-. unfold kmod. cbn [k_reads set_hung].
    destruct (serve_loop_hung (S (length reads)) (set_hung true (new_conn (advance_to now m) no_faults now [] reads []))) as (l & c' & Hrun & Ho & Hl); [done|done|simpl; lia|].
    exists l, c'. split; [apply fed_output_hung; by rewrite Hh|]. by split.
  - rewrite kload_quiet by done. unfold write_all. cbn [k_writes new_conn k_faults hello_status no_faults tail].
    destruct (serve_loop_quiet (S (length reads)) (set_out (write_response (hello (advance_to now m))) (new_conn (advance_to now m) no_faults now [] reads [])) out reset)
      as (l & c' & Hrun & Ho & Hl); try done; [by rewrite <- Hi, <- Hin|constructor|simpl; lia| |].
    + cbn. rewrite <- Hfo. f_equal. rewrite <- Hi, <- Hin. by destruct (advance_to now m).
    + exists l, c'. by split_and!.
Qed.
End handling.

(** ** A client of a simulated Ether Dream 2 *)
Module ServerDemo.
(** The client's bytes arrive in two pieces, 2 ms apart, with a timeout between. *)
Definition pieces : list sock_read := [SockData 5 (take 20 Demo.stream_bytes); SockTimeout 1000000; SockData 1000000 (drop 20 Demo.stream_bytes)].

Lemma portions_ok : Forall read_ok pieces.
Proof. apply Forall_cons; split; [|apply Forall_cons; split; [done|apply Forall_singleton]]; [apply Forall_take|apply Forall_drop]; exact Demo.stream_bytes_ok. Qed.

(** Another connection pings, the simulator is asked for an emergency stop, and every
    response is sent twice from then on. *)
Definition busy : list block := [mkBlock [EvFeed 7 [63]] None false 3; mkBlock [EvEstop 9] (Some (mkFaults None None 1000 true [112] None 2000000)) false 4].

Lemma busy_ok : Forall block_ok busy.
Proof.
  apply Forall_cons; split; [|apply Forall_singleton]; (split; [repeat constructor; lia|]); intros f Hf; simplify_eq/=. by split.
Qed.

Lemma connection_always_served_witness :
  exists l c', @handle_connection stdlib_byte_order (new_conn (model_new ed2_r331) no_faults 0 busy pieces []) = (inr l, c') /\
    (l = LeaveClosed \/ l = LeaveReset \/ l = LeaveFailed) /\ @settled stdlib_byte_order (k_model c').
Proof. exact (connection_always_served (new_conn (model_new ed2_r331) no_faults 0 busy pieces []) Demo.new_settled ltac:(constructor) ltac:(done) busy_ok portions_ok). Defined.

Lemma server_serves_the_model_witness :
  exists out reset l c',
    @fed_output stdlib_byte_order 0 pieces (advance_to 0 (model_new ed2_r331)) = Some (out, reset) /\
    @handle_connection stdlib_byte_order (new_conn (model_new ed2_r331) no_faults 0 [] pieces []) = (inr l, c') /\
    k_out c' = write_response (hello (advance_to 0 (model_new ed2_r331))) ++ out /\ l = LeaveClosed /\ length out = 66%nat.
Proof.
  destruct (server_serves_the_model (model_new ed2_r331) 0 pieces Demo.new_settled eq_refl portions_ok) as (out & reset & l & c' & Hf & Hr & Ho & Hl).
  exists out, reset, l, c'. split; [exact Hf|]. split; [exact Hr|]. split; [exact Ho|].
  vm_compute in Hf. injection Hf as <- <-. vm_compute in Hr. injection Hr as <- _. by split.
Defined.
End ServerDemo.
