(* ===== verification/EtherHost.v ===== *)
(** * Ether Dream: the threads of the simulator's server

    Models [SimServer], its accept loop, its broadcast loop and its [Drop], in
    [src/src/protocols/ether_dream/sim/server.rs].  The server's threads are the
    accept thread, the broadcast thread, one thread per connection (what it does to
    the simulator is [EtherServer.handle_connection]) and the thread that starts and
    drops the server.  [sv_step] is one access to what they share, by one of them: a
    run is an interleaving. *)

From stdpp Require Import gmap strings.
From S2P Require Import Prelude Floats Point Presentation Bytes EtherDream EtherModel EtherServer.

#[local] Open Scope Z_scope.

(** ** The state *)

(** A joinable thread; connections are numbered in the order they were spawned. *)
Inductive handle :=
  | HAccept
  | HBroadcast
  | HConn (i : nat).

#[export] Instance handle_eq_dec : EqDecision handle.
Proof. solve_decision. Defined.

(** A connection's thread: it serves, has left [handle_connection], was the last to
    leave, or is finished. *)
Inductive conn_pc :=
  | CServing
  | CLeft
  | CLast
  | CDone.

#[export] Instance conn_pc_eq_dec : EqDecision conn_pc.
Proof. solve_decision. Defined.

(** The accept thread: at the head of its loop, accepting, with a client it will take,
    with the client counted, with its thread spawned, counted as accepted, returned. *)
Inductive accept_pc :=
  | AIdle
  | AListen
  | AChecked
  | ACounted
  | ASpawned (i : nat)
  | AAccepted (i : nat)
  | AStopped.

Inductive broadcast_pc :=
  | BNone
  | BRunning
  | BDone.

(** The owner's thread: in [start] before and after the accept thread's handle is
    stored, with the running server, and in [drop] before and after taking a batch. *)
Inductive owner_pc :=
  | DStart
  | DSpawning
  | DRunning
  | DStopping
  | DJoining (batch : list handle)
  | DJoined.

Record Server := mkServer {
  sv_enforce : bool;
  sv_broadcasts : bool;
  sv_model : EtherDreamModel;
  sv_stop : bool;
  sv_active : nat;
  sv_accepted : nat;
  sv_conns : list conn_pc;
  sv_accept : accept_pc;
  sv_broadcast : broadcast_pc;
  sv_owner : owner_pc;
  sv_threads : list handle;
}.

Definition server_eta (s : Server) : Server :=
  mkServer (sv_enforce s) (sv_broadcasts s) (sv_model s) (sv_stop s) (sv_active s) (sv_accepted s) (sv_conns s) (sv_accept s) (sv_broadcast s) (sv_owner s) (sv_threads s).

Definition set_sv_model (v : EtherDreamModel) (s : Server) : Server := ltac:(update_field server_eta sv_model v s).
Definition set_sv_stop (v : bool) (s : Server) : Server := ltac:(update_field server_eta sv_stop v s).
Definition set_active (v : nat) (s : Server) : Server := ltac:(update_field server_eta sv_active v s).
Definition set_accepted (v : nat) (s : Server) : Server := ltac:(update_field server_eta sv_accepted v s).
Definition set_conns (v : list conn_pc) (s : Server) : Server := ltac:(update_field server_eta sv_conns v s).
Definition set_accept (v : accept_pc) (s : Server) : Server := ltac:(update_field server_eta sv_accept v s).
Definition set_broadcast_pc (v : broadcast_pc) (s : Server) : Server := ltac:(update_field server_eta sv_broadcast v s).
Definition set_owner (v : owner_pc) (s : Server) : Server := ltac:(update_field server_eta sv_owner v s).
Definition set_threads (v : list handle) (s : Server) : Server := ltac:(update_field server_eta sv_threads v s).

(** [SimServer::start], once the accept thread is spawned. *)
Definition server_start (c : SimServerConfig) : Server :=
  mkServer (cfg_enforce_single_client c) (bool_decide (is_Some (cfg_broadcast c))) (server_model c) false 0 0 [] AIdle BNone DStart [].

Definition finished (s : Server) (h : handle) : bool :=
  match h with
  | HAccept => match sv_accept s with AStopped => true | _ => false end
  | HBroadcast => match sv_broadcast s with BDone => true | _ => false end
  | HConn i => bool_decide (sv_conns s !! i = Some CDone)
  end.

(** [extract_finished]: the handles of threads that have exited, and the others. *)
Definition extract_finished (done : handle -> bool) (threads : list handle) : list handle * list handle :=
  (List.filter done threads, List.filter (fun h => negb (done h)) threads).

(** ** The steps *)

(** [SvPoll] and [SvBroadcastStop] load [stop]; [SvClient] and [SvNoClient] end a call
    of [accept]; [SvUse] is what a serving connection does to the simulator;
    [SvClose] reads the clock and, later, locks the simulator. *)
Inductive sv_event :=
  | SvPoll
  | SvNoClient
  | SvClient
  | SvCount
  | SvSpawn (ok : bool)
  | SvAccepted
  | SvRegister
  | SvUse (i : nat) (es : list sim_event)
  | SvLeave (i : nat)
  | SvRelease (i : nat)
  | SvClose (i : nat) (now t : Z)
  | SvBroadcastStop
  | SvStored
  | SvStarted
  | SvStop
  | SvTake
  | SvJoin.

Section steps.
Context `{ByteOrder}.

Definition accept_step (e : sv_event) (s : Server) : option Server :=
  match e, sv_accept s with
  | SvPoll, AIdle => Some (set_accept (if sv_stop s then AStopped else AListen) s)
  | SvNoClient, AListen => Some (set_accept AIdle s)
  | SvClient, AListen => Some (set_accept (if sv_enforce s && (0 <? sv_active s)%nat then AIdle else AChecked) s)
  | SvCount, AChecked => Some (set_accept ACounted (set_active (S (sv_active s)) s))
  | SvSpawn true, ACounted => Some (set_accept (ASpawned (length (sv_conns s))) (set_conns (sv_conns s ++ [CServing]) s))
  | SvSpawn false, ACounted => Some (set_accept AIdle (set_active (Nat.pred (sv_active s)) s))
  | SvAccepted, ASpawned i => Some (set_accept (AAccepted i) (set_accepted (S (sv_accepted s)) s))
  | SvRegister, AAccepted i => Some (set_accept AIdle (set_threads ((extract_finished (finished s) (sv_threads s)).2 ++ [HConn i]) s))
  | _, _ => None
  end.

Definition conn_step (e : sv_event) (s : Server) : option Server :=
  match e with
  | SvUse i es =>
      guard (sv_conns s !! i = Some CServing);;
      '(_, m) ← sim_run es (sv_model s);
      Some (set_sv_model m s)
  | SvLeave i => guard (sv_conns s !! i = Some CServing);; Some (set_conns (<[i := CLeft]> (sv_conns s)) s)
  | SvRelease i =>
      guard (sv_conns s !! i = Some CLeft);;
      Some (set_conns (<[i := if (sv_active s =? 1)%nat then CLast else CDone]> (sv_conns s)) (set_active (Nat.pred (sv_active s)) s))
  | SvClose i now t =>
      guard (sv_conns s !! i = Some CLast);;
      Some (set_conns (<[i := CDone]> (sv_conns s)) (set_sv_model (connection_closed now (advance_to t (sv_model s))) s))
  | SvBroadcastStop =>
      match sv_broadcast s, sv_stop s with
      | BRunning, true => Some (set_broadcast_pc BDone s)
      | _, _ => None
      end
  | _ => None
  end.

(** [start] stores the accept thread's handle, then spawns the broadcast thread and
    stores its handle; when that fails the server is dropped. *)
Definition owner_step (e : sv_event) (s : Server) : option Server :=
  match e, sv_owner s with
  | SvStored, DStart => Some (set_owner DSpawning (set_threads (sv_threads s ++ [HAccept]) s))
  | SvStarted, DSpawning =>
      Some (set_owner DRunning (if sv_broadcasts s then set_broadcast_pc BRunning (set_threads (sv_threads s ++ [HBroadcast]) s) else s))
  | SvStop, (DSpawning | DRunning) => Some (set_owner DStopping (set_sv_stop true s))
  | SvTake, (DStopping | DJoining []) =>
      Some (match sv_threads s with [] => set_owner DJoined s | batch => set_owner (DJoining batch) (set_threads [] s) end)
  | SvJoin, DJoining (h :: batch) => guard (finished s h = true);; Some (set_owner (DJoining batch) s)
  | _, _ => None
  end.

Definition sv_step (e : sv_event) (s : Server) : option Server :=
  match e with
  | SvPoll | SvNoClient | SvClient | SvCount | SvSpawn _ | SvAccepted | SvRegister => accept_step e s
  | SvUse _ _ | SvLeave _ | SvRelease _ | SvClose _ _ _ | SvBroadcastStop => conn_step e s
  | SvStored | SvStarted | SvStop | SvTake | SvJoin => owner_step e s
  end.

Fixpoint sv_run (es : list sv_event) (s : Server) : option Server :=
  match es with
  | [] => Some s
  | e :: es => s ← sv_step e s; sv_run es s
  end.

Definition reachable (c : SimServerConfig) (s : Server) : Prop := exists es, sv_run es (server_start c) = Some s.
End steps.

(** ** Broadcasting *)

Record BroadcastLoop := mkBroadcastLoop {
  bl_next : Z;
  bl_warned : bool;
}.

Section broadcasting.
Context `{ByteOrder}.

(** One round of [broadcast_loop] that was not stopped: the clock reads [now], [t]
    when the simulator is locked, and [now'] once the frame is sent; [ok] says whether
    the system took it. *)
Record beat := mkBeat {
  bt_now : Z;
  bt_lock : Z;
  bt_done : Z;
  bt_ok : bool;
}.

Definition broadcast_round (c : BroadcastConfig) (r : beat) (m : EtherDreamModel) (b : BroadcastLoop) : option (list Z) * EtherDreamModel * BroadcastLoop :=
  if bl_next b <=? bt_now r then
    let m := advance_to (bt_lock r) m in
    (Some (write_broadcast (model_broadcast m)), m, mkBroadcastLoop (Z.max (bl_next b + bc_interval c) (bt_done r)) (bl_warned b || negb (bt_ok r)))
  else (None, m, b).

Fixpoint broadcast_rounds (c : BroadcastConfig) (rs : list beat) (m : EtherDreamModel) (b : BroadcastLoop) : list (list Z) :=
  match rs with
  | [] => []
  | r :: rs =>
      let '(sent, m, b) := broadcast_round c r m b in
      option_list sent ++ broadcast_rounds c rs m b
  end.
End broadcasting.

(** ** Who counts as connected *)

Definition connected (c : conn_pc) : Prop := c = CServing \/ c = CLeft.

#[export] Instance connected_dec c : Decision (connected c).
Proof. unfold connected. apply _. Defined.

Definition connected_count (cs : list conn_pc) : nat := length (filter connected cs).

Definition counting (a : accept_pc) : nat := match a with ACounted => 1 | _ => 0 end.

Definition batch_of (o : owner_pc) : list handle := match o with DJoining batch => batch | _ => [] end.

Definition dropping (o : owner_pc) : bool := match o with DStopping | DJoining _ | DJoined => true | _ => false end.

(** A thread that runs, or whose handle is somewhere. *)
Definition exists_thread (s : Server) (h : handle) : Prop :=
  match h with
  | HAccept => True
  | HBroadcast => sv_broadcast s <> BNone
  | HConn i => is_Some (sv_conns s !! i)
  end.

(** Where the handle of a thread that still runs is. *)
Definition held (s : Server) (h : handle) : Prop :=
  h ∈ sv_threads s \/ h ∈ batch_of (sv_owner s) \/ finished s h = true \/
  match h with
  | HAccept => sv_owner s = DStart
  | HBroadcast => False
  | HConn i => sv_accept s = ASpawned i \/ sv_accept s = AAccepted i
  end.

Record server_ok (s : Server) : Prop := {
  so_active : sv_active s = (connected_count (sv_conns s) + counting (sv_accept s))%nat;
  so_single : sv_enforce s = true -> (sv_active s <= 1)%nat /\ (sv_accept s = AChecked -> sv_active s = 0%nat);
  so_held : forall h, exists_thread s h -> held s h;
  so_handles : forall h, h ∈ sv_threads s \/ h ∈ batch_of (sv_owner s) -> exists_thread s h;
  so_spawned : forall i, sv_accept s = ASpawned i \/ sv_accept s = AAccepted i -> is_Some (sv_conns s !! i);
  so_stop : sv_stop s = dropping (sv_owner s);
  so_joined : sv_owner s = DJoined -> sv_threads s = [] /\ sv_accept s = AStopped;
}.

Lemma connected_insert cs i c c' : cs !! i = Some c ->
  (connected_count (<[i := c']> cs) + (if decide (connected c) then 1 else 0) = connected_count cs + (if decide (connected c') then 1 else 0))%nat.
Proof.
  intros Hi. pose proof (lookup_lt_Some _ _ _ Hi) as Hl. unfold connected_count. rewrite insert_take_drop by done.
  rewrite <- (take_drop_middle cs i c Hi) at 3. rewrite !filter_app, !length_app, !filter_cons. repeat case_decide; simpl; lia.
Qed.

Lemma start_ok c : server_ok (server_start c).
Proof.
  split; try done; simpl.
  - intros _. split; [lia|done].
  - intros [| |i] Hx; [by right; right; right|done|by destruct Hx].
  - intros h [Hx|Hx]; by apply not_elem_of_nil in Hx.
  - intros i [Hx|Hx]; done.
Qed.

(** What a step of the accept thread keeps, handle by handle. *)
Lemma held_accept s a h : (h = HAccept -> a = AStopped \/ sv_accept s <> AStopped) ->
  (forall i, h = HConn i -> sv_accept s = ASpawned i \/ sv_accept s = AAccepted i -> a = ASpawned i \/ a = AAccepted i) ->
  held s h -> held (set_accept a s) h.
Proof.
  intros Ha Hc [Hh|[Hh|[Hh|Hh]]]; [by left|by right; left| |].
  - right. right. left. destruct h as [| |i]; try done. cbn [finished] in *. destruct (Ha eq_refl) as [->|Hne]; [done|]. by destruct (sv_accept s).
  - right. right. right. destruct h as [| |i]; try done. by apply (Hc i).
Qed.

(** A step of the accept thread that only moves its counters. *)
Lemma accept_keeps s a n k : server_ok s -> sv_accept s <> AStopped ->
  n = (connected_count (sv_conns s) + counting a)%nat -> (sv_enforce s = true -> (n <= 1)%nat /\ (a = AChecked -> n = 0%nat)) ->
  (forall i, sv_accept s = ASpawned i \/ sv_accept s = AAccepted i <-> a = ASpawned i \/ a = AAccepted i) ->
  server_ok (set_accept a (set_active n (set_accepted k s))).
Proof.
  intros Hs Hne Hc Hk Hi. split; try apply Hs; simpl; try done.
  - intros h Hh. change (held (set_accept a s) h). apply held_accept; [by right|intros i _; apply Hi|by apply Hs].
  - intros i Hx. apply (so_spawned _ Hs i). by apply Hi.
  - intros Ho. by destruct (so_joined _ Hs Ho).
Qed.

Lemma spawn_keeps s : server_ok s -> sv_accept s = ACounted ->
  server_ok (set_accept (ASpawned (length (sv_conns s))) (set_conns (sv_conns s ++ [CServing]) s)).
Proof.
  intros Hs Ha. pose proof (so_active _ Hs) as Hc. rewrite Ha in Hc. split; try apply Hs; simpl.
  - unfold connected_count in *. rewrite filter_app, length_app. simpl in *. lia.
  - intros He. split; [by apply Hs|done].
  - intros [| |i] Hh.
    + destruct (so_held _ Hs HAccept I) as [?|[?|[Hx|?]]]; [by left|by right; left| |by right; right; right]. cbn in Hx. by rewrite Ha in Hx.
    + exact (so_held _ Hs HBroadcast Hh).
    + cbn in Hh. destruct (decide (i = length (sv_conns s))) as [->|Hn]; [by right; right; right; left|].
      assert (Hi : is_Some (sv_conns s !! i)) by (apply lookup_lt_is_Some; apply lookup_lt_is_Some in Hh; rewrite length_app in Hh; simpl in Hh; lia).
      destruct (so_held _ Hs (HConn i) Hi) as [?|[?|[Hx|[Hx|Hx]]]]; [by left|by right; left| |by rewrite Ha in Hx..].
      right. right. left. cbn [finished sv_conns] in *. apply bool_decide_eq_true in Hx. apply bool_decide_eq_true. by apply lookup_app_l_Some.
  - intros h Hh. pose proof (so_handles _ Hs h Hh) as Hx. destruct h as [| |i]; try done. destruct Hx as [c Hx]. exists c. cbn [sv_conns set_accept set_conns]. by apply lookup_app_l_Some.
  - intros i [[= <-]|]; [|done]. by rewrite lookup_app_r, Nat.sub_diag.
  - intros Ho. destruct (so_joined _ Hs Ho) as [_ Hx]. by rewrite Ha in Hx.
Qed.

Lemma register_keeps s i : server_ok s -> sv_accept s = AAccepted i ->
  server_ok (set_accept AIdle (set_threads ((extract_finished (finished s) (sv_threads s)).2 ++ [HConn i]) s)).
Proof.
  intros Hs Ha. pose proof (so_active _ Hs) as Hc. rewrite Ha in Hc.
  assert (Hin : forall h, h ∈ (extract_finished (finished s) (sv_threads s)).2 <-> h ∈ sv_threads s /\ finished s h = false).
  { intros h. cbn. rewrite list_elem_of_In, filter_In, <- list_elem_of_In. destruct (finished s h); naive_solver. }
  split; try apply Hs; cbn [sv_active sv_conns sv_enforce sv_accept sv_stop sv_owner sv_threads set_accept set_threads counting].
  - exact Hc.
  - intros He. split; [by apply Hs|done].
  - intros h Hh. destruct (finished s h) eqn:Hf; [right; right; left; destruct h; try done; cbn in Hf; by rewrite Ha in Hf|].
    destruct (so_held _ Hs h Hh) as [Hx|[Hx|[Hx|Hx]]]; [left; apply elem_of_app; left; by apply Hin|by right; left|by rewrite Hx in Hf|].
    destruct h as [| |j]; [by right; right; right|done|]. left. apply elem_of_app. right. rewrite Ha in Hx. destruct Hx as [Hx|[= ->]]; [done|by left].
  - intros h Hh. assert (Hx : (h ∈ sv_threads s \/ h ∈ batch_of (sv_owner s)) \/ h = HConn i).
    { destruct Hh as [[Hh|Hh%list_elem_of_singleton]%elem_of_app|Hh]; [left; left; by apply Hin|by right|by left; right]. }
    destruct Hx as [Hx| ->]; [by apply (so_handles _ Hs)|]. apply (so_spawned _ Hs). by right.
  - intros j [Hx|Hx]; done.
  - intros Ho. destruct (so_joined _ Hs Ho) as [_ Hx]. by rewrite Ha in Hx.
Qed.

Lemma accept_step_ok e s s' : server_ok s -> accept_step e s = Some s' -> server_ok s'.
Proof.
  intros Hs Hstep. pose proof (so_active _ Hs) as Hc. pose proof (so_single _ Hs) as He.
  assert (Hk : forall a n k, sv_accept s <> AStopped -> n = (connected_count (sv_conns s) + counting a)%nat -> (sv_enforce s = true -> (n <= 1)%nat /\ (a = AChecked -> n = 0%nat)) ->
    (forall i, sv_accept s = ASpawned i \/ sv_accept s = AAccepted i <-> a = ASpawned i \/ a = AAccepted i) -> server_ok (set_accept a (set_active n (set_accepted k s)))).
  { intros a n k. by apply accept_keeps. }
  unfold accept_step in Hstep. destruct e, (sv_accept s) eqn:Ha; try (by destruct ok); try done; try destruct ok; injection Hstep as <-; cbn [counting] in Hc.
  - apply (Hk (if sv_stop s then AStopped else AListen) (sv_active s) (sv_accepted s)); [done|by destruct (sv_stop s)|intros Hx; destruct (He Hx); by destruct (sv_stop s)|by destruct (sv_stop s); naive_solver].
  - apply (Hk AIdle (sv_active s) (sv_accepted s)); naive_solver.
  - apply (Hk (if sv_enforce s && (0 <? sv_active s)%nat then AIdle else AChecked) (sv_active s) (sv_accepted s)); [done|by destruct (_ && _)| |by destruct (_ && _); naive_solver].
    intros Hx. rewrite Hx. cbn [andb]. destruct (He Hx). split; [done|]. destruct (Nat.ltb_spec 0 (sv_active s)); [done|lia].
  - apply (Hk ACounted (S (sv_active s)) (sv_accepted s)); [done|simpl; lia| |naive_solver]. intros Hx. destruct (He Hx) as [_ ->]; [|done]. split; [lia|done].
  - by apply spawn_keeps.
  - apply (Hk AIdle (Nat.pred (sv_active s)) (sv_accepted s)); [done|simpl; lia| |naive_solver]. intros Hx. destruct (He Hx). split; [lia|done].
  - apply (Hk (AAccepted i) (sv_active s) (S (sv_accepted s))); [done|done|naive_solver|naive_solver].
  - by apply register_keeps.
Qed.

(** A step of a connection's thread. *)
Lemma conn_keeps s i c c' n m : server_ok s -> sv_conns s !! i = Some c -> c <> CDone ->
  n = (connected_count (<[i := c']> (sv_conns s)) + counting (sv_accept s))%nat -> (n <= sv_active s)%nat ->
  server_ok (set_conns (<[i := c']> (sv_conns s)) (set_active n (set_sv_model m s))).
Proof.
  intros Hs Hi Hne Hn Hle. pose proof (lookup_lt_Some _ _ _ Hi) as Hl.
  assert (Hsome : forall j, is_Some (<[i := c']> (sv_conns s) !! j) <-> is_Some (sv_conns s !! j)) by (intros j; rewrite !lookup_lt_is_Some, length_insert; done).
  split; try apply Hs; cbn [sv_active sv_conns sv_enforce sv_accept sv_stop sv_owner sv_threads set_active set_sv_model set_conns].
  - exact Hn.
  - intros He. destruct (so_single _ Hs He) as [H1 H2]. split; [lia|]. intros Ha. specialize (H2 Ha). lia.
  - intros h Hh. assert (Hh' : exists_thread s h) by (destruct h; try done; by apply Hsome).
    destruct (so_held _ Hs h Hh') as [?|[?|[Hx|?]]]; [by left|by right; left| |by right; right; right]. right. right. left. destruct h as [| |j]; try done.
    cbn [finished sv_conns set_conns] in *. apply bool_decide_eq_true in Hx. apply bool_decide_eq_true. rewrite list_lookup_insert_ne; [done|]. intros ->. rewrite Hi in Hx. by injection Hx.
  - intros h Hh. pose proof (so_handles _ Hs h Hh) as Hx. destruct h as [| |j]; try done. by apply Hsome.
  - intros j Hx. apply Hsome. by apply Hs.
Qed.

Section safe.
Context `{ByteOrder}.

Lemma conn_step_ok e s s' : server_ok s -> conn_step e s = Some s' -> server_ok s'.
Proof.
  intros Hs Hstep. pose proof (so_active _ Hs) as Hc. destruct e; try done; cbn [conn_step] in Hstep.
  - case_guard; [|done]. destruct (sim_run es (sv_model s)) as [[rs m]|]; [|done]. injection Hstep as <-. by destruct Hs.
  - case_guard as Hi; [|done]. injection Hstep as <-. pose proof (connected_insert _ i _ CLeft Hi) as Hins. rewrite !decide_True in Hins by (by (left + right)).
    apply (conn_keeps s i CServing CLeft (sv_active s) (sv_model s)); try done. lia.
  - case_guard as Hi; [|done]. injection Hstep as <-. set (c' := if (_ =? _)%nat then _ else _). pose proof (connected_insert _ i _ c' Hi) as Hins.
    rewrite decide_True in Hins by (by right). assert (Hc' : ~ connected c') by (unfold c'; destruct (_ =? _)%nat; by intros [?|?]).
    rewrite (decide_False _ _ Hc') in Hins.
    apply (conn_keeps s i CLeft c' (Nat.pred (sv_active s)) (sv_model s)); try done; lia.
  - case_guard as Hi; [|done]. injection Hstep as <-. pose proof (connected_insert _ i _ CDone Hi) as Hins. rewrite !decide_False in Hins by (by intros [?|?]).
    apply (conn_keeps s i CLast CDone (sv_active s)); try done. lia.
  - destruct (sv_broadcast s) eqn:Hb; try done. destruct (sv_stop s) eqn:Hst; [|done]. injection Hstep as <-. split; try apply Hs; simpl.
    + intros [| |j] Hh; [by apply (so_held _ Hs HAccept)|by right; right; left|by apply (so_held _ Hs (HConn j))].
    + intros h Hh. pose proof (so_handles _ Hs h Hh) as Hx. by destruct h.
Qed.

(** [drop] takes the handles. *)
Lemma take_keeps s : server_ok s -> (sv_owner s = DStopping \/ sv_owner s = DJoining []) ->
  server_ok (match sv_threads s with [] => set_owner DJoined s | batch => set_owner (DJoining batch) (set_threads [] s) end).
Proof.
  intros Hs Ho. assert (Hb : batch_of (sv_owner s) = []) by (by destruct Ho as [->| ->]).
  assert (Hst : sv_stop s = true) by (rewrite (so_stop _ Hs); by destruct Ho as [->| ->]).
  assert (Hheld : forall h, exists_thread s h -> h ∈ sv_threads s \/ finished s h = true \/ match h with HConn i => sv_accept s = ASpawned i \/ sv_accept s = AAccepted i | _ => False end).
  { intros h Hh. destruct (so_held _ Hs h Hh) as [Hx|[Hx|[Hx|Hx]]]; [by left|by rewrite Hb in Hx; apply not_elem_of_nil in Hx|by right; left|].
    right. right. destruct h; try done. destruct Ho as [Ho|Ho]; by rewrite Ho in Hx. }
  destruct (sv_threads s) as [|h0 ts] eqn:Ht; (split; try apply Hs; simpl; try done).
  - intros h Hh. destruct (Hheld h Hh) as [Hx|[Hx|Hx]]; [by apply not_elem_of_nil in Hx|by right; right; left|by right; right; right; destruct h].
  - intros h [Hx|Hx]; [exact (so_handles _ Hs h (or_introl Hx))|by apply not_elem_of_nil in Hx].
  - intros _. split; [done|]. destruct (Hheld HAccept I) as [Hx|[Hx|Hx]]; [by apply not_elem_of_nil in Hx| |done]. cbn in Hx. by destruct (sv_accept s).
  - intros h Hh. destruct (Hheld h Hh) as [Hx|[Hx|Hx]]; [by right; left|by right; right; left|by right; right; right; destruct h].
  - intros h [Hx|Hx]; [by apply not_elem_of_nil in Hx|]. rewrite <- Ht in Hx. exact (so_handles _ Hs h (or_introl Hx)).
Qed.

Lemma stop_keeps s : server_ok s -> sv_owner s = DSpawning \/ sv_owner s = DRunning -> server_ok (set_owner DStopping (set_sv_stop true s)).
Proof.
  intros Hs Ho. assert (Hb : batch_of (sv_owner s) = []) by (by destruct Ho as [->| ->]). split; try apply Hs; simpl; try done.
  - intros h Hh. destruct (so_held _ Hs h Hh) as [Hx|[Hx|[Hx|Hx]]]; [by left|by rewrite Hb in Hx; apply not_elem_of_nil in Hx|by right; right; left|].
    right. right. right. destruct h; try done. destruct Ho as [Ho|Ho]; by rewrite Ho in Hx.
  - intros h [Hx|Hx]; [exact (so_handles _ Hs h (or_introl Hx))|by apply not_elem_of_nil in Hx].
Qed.

Lemma owner_step_ok e s s' : server_ok s -> owner_step e s = Some s' -> server_ok s'.
Proof.
  intros Hs Hstep. pose proof (so_stop _ Hs) as Hst. pose proof (so_held _ Hs) as Hheld. pose proof (so_handles _ Hs) as Hhs.
  destruct e; try done; cbn [owner_step] in Hstep; destruct (sv_owner s) as [| | | |batch|] eqn:Ho; try done.
  - injection Hstep as <-. split; try apply Hs; simpl; try done.
    + intros h Hh. destruct (Hheld h Hh) as [Hx|[Hx|[Hx|Hx]]]; [left; apply elem_of_app; by left|by rewrite Ho in Hx; apply not_elem_of_nil in Hx|by right; right; left|].
      destruct h; [left; apply elem_of_app; right; by left|done|by right; right; right].
    + intros h [[Hx|Hx%list_elem_of_singleton]%elem_of_app|Hx]; [exact (Hhs h (or_introl Hx))|by subst|by apply not_elem_of_nil in Hx].
  - injection Hstep as <-. destruct (sv_broadcasts s); (split; try apply Hs; simpl; try done).
    + intros h Hh. destruct (decide (h = HBroadcast)) as [->|Hn]; [left; apply elem_of_app; right; by left|].
      destruct (Hheld h ltac:(by destruct h)) as [Hx|[Hx|[Hx|Hx]]]; [left; apply elem_of_app; by left|by rewrite Ho in Hx; apply not_elem_of_nil in Hx|right; right; left; by destruct h|].
      destruct h; [by rewrite Ho in Hx|done|by right; right; right].
    + intros h [[Hx|Hx%list_elem_of_singleton]%elem_of_app|Hx]; [pose proof (Hhs h (or_introl Hx)); by destruct h|by subst|by apply not_elem_of_nil in Hx].
    + intros h Hh. destruct (Hheld h Hh) as [Hx|[Hx|[Hx|Hx]]]; [by left|by rewrite Ho in Hx; apply not_elem_of_nil in Hx|by right; right; left|].
      destruct h; [by rewrite Ho in Hx|done|by right; right; right].
  - injection Hstep as <-. by apply stop_keeps; [|left].
  - injection Hstep as <-. by apply stop_keeps; [|right].
  - injection Hstep as <-. by apply take_keeps; [|left].
  - destruct batch; [|done]. injection Hstep as <-. by apply take_keeps; [|right].
  - destruct batch as [|h0 batch]; [done|]. case_guard as Hf; [|done]. injection Hstep as <-. split; try apply Hs; simpl; try done.
    + intros h Hh. destruct (Hheld h Hh) as [Hx|[Hx|[Hx|Hx]]]; [by left| |by right; right; left|].
      * rewrite Ho in Hx. apply elem_of_cons in Hx as [->|Hx]; [by right; right; left|by right; left].
      * destruct h; [by rewrite Ho in Hx|done|by right; right; right].
    + intros h [Hx|Hx]; [exact (Hhs h (or_introl Hx))|]. apply (Hhs h). right. cbn. by right.
Qed.

Lemma sv_step_ok e s s' : server_ok s -> sv_step e s = Some s' -> server_ok s'.
Proof. intros Hs. destruct e; cbn [sv_step]; first [by apply accept_step_ok|by apply conn_step_ok|by apply owner_step_ok]. Qed.

Lemma sv_run_ok es s s' : server_ok s -> sv_run es s = Some s' -> server_ok s'.
Proof.
  revert s. induction es as [|e es IH]; intros s Hs; [by intros [= <-]|]. cbn [sv_run]. destruct (sv_step e s) as [s1|] eqn:He; [|done]. cbn [mbind option_bind].
  apply IH. by apply (sv_step_ok e s).
Qed.

Lemma reachable_ok c s : reachable c s -> server_ok s.
Proof. intros [es Hr]. eapply sv_run_ok; [|exact Hr]. apply start_ok. Qed.

Lemma sv_step_enforce e s s' : sv_step e s = Some s' -> sv_enforce s' = sv_enforce s.
Proof.
  destruct e; cbn [sv_step accept_step conn_step owner_step]; intros Hx; repeat (case_match || case_guard); simplify_option_eq; try done.
  all: match goal with Hp : (let '(_, _) := ?p in _) = _ |- _ => destruct p end; by simplify_eq/=.
Qed.

Lemma reachable_enforce c s : reachable c s -> sv_enforce s = cfg_enforce_single_client c.
Proof.
  intros [es Hr]. change (cfg_enforce_single_client c) with (sv_enforce (server_start c)). revert Hr. generalize (server_start c). induction es as [|e es IH]; intros s0; [by intros [= <-]|].
  cbn [sv_run]. destruct (sv_step e s0) as [s1|] eqn:He; [|done]. cbn [mbind option_bind]. intros Hr. rewrite (IH _ Hr). by apply (sv_step_enforce e).
Qed.

(** The counter of connections is exact in every interleaving: it is the number of
    clients that are served, or served and not yet counted out, and the one the accept
    thread has counted and not yet spawned; and a server that enforces a single client
    never serves two. *)
Theorem clients_are_counted c s : reachable c s ->
  sv_active s = (connected_count (sv_conns s) + counting (sv_accept s))%nat /\
  (cfg_enforce_single_client c = true -> (connected_count (sv_conns s) <= 1)%nat).
Proof.
  intros Hr. pose proof (reachable_ok c s Hr) as Hs. pose proof (so_active _ Hs) as Ha. split; [done|]. intros He.
  rewrite <- (reachable_enforce c s Hr) in He. destruct (so_single _ Hs He). lia.
Qed.

Lemma connected_none cs : (forall i, is_Some (cs !! i) -> cs !! i = Some CDone) -> connected_count cs = 0%nat.
Proof.
  intros Hd. unfold connected_count. destruct (filter connected cs) as [|x l] eqn:Hf; [done|].
  assert (Hx : x ∈ filter connected cs) by (rewrite Hf; by left). apply list_elem_of_filter in Hx as [Hc Hx]. apply list_elem_of_lookup in Hx as [i Hi].
  rewrite (Hd i ltac:(by eexists)) in Hi. injection Hi as <-. by destruct Hc.
Qed.

(** C24. When the server's owner has dropped it, every thread it ever started has ended:
    the accept thread, the broadcast thread and every connection, also those accepted
    while it was joining; no connection is left counted. *)
Theorem drop_joins_every_thread c s : reachable c s -> sv_owner s = DJoined ->
  sv_accept s = AStopped /\ sv_broadcast s <> BRunning /\ (forall i, is_Some (sv_conns s !! i) -> sv_conns s !! i = Some CDone) /\ sv_active s = 0%nat.
Proof.
  intros Hr Ho. pose proof (reachable_ok c s Hr) as Hs. destruct (so_joined _ Hs Ho) as [Ht Ha].
  assert (Hf : forall h, exists_thread s h -> finished s h = true).
  { intros h Hh. destruct (so_held _ Hs h Hh) as [Hx|[Hx|[Hx|Hx]]]; [by rewrite Ht in Hx; apply not_elem_of_nil in Hx|by rewrite Ho in Hx; apply not_elem_of_nil in Hx|done|].
    destruct h; [by rewrite Ho in Hx|done|]. rewrite Ha in Hx. by destruct Hx. }
  assert (Hc : forall i, is_Some (sv_conns s !! i) -> sv_conns s !! i = Some CDone) by (intros i Hi; exact (proj1 (bool_decide_eq_true _) (Hf (HConn i) Hi))).
  split; [done|]. split; [|split; [done|]].
  - intros Hb. specialize (Hf HBroadcast). cbn in Hf. rewrite Hb in Hf. by specialize (Hf ltac:(done)).
  - rewrite (so_active _ Hs), Ha, connected_none by done. done.
Qed.

(** ** Dropping ends *)

(** A step that is not a connection serving its client; serving ends by itself. *)
Definition progress (e : sv_event) : bool := match e with SvUse _ _ => false | _ => true end.

Definition conn_weight (c : conn_pc) : nat := match c with CServing => 3 | CLeft => 2 | CLast => 1 | CDone => 0 end.

Definition accept_weight (a : accept_pc) : nat :=
  match a with AStopped => 0 | AIdle => 1 | AAccepted _ => 4 | ASpawned _ => 5 | ACounted => 9 | AChecked => 10 | AListen => 11 end.

Definition owner_weight (o : owner_pc) : nat := match o with DJoined => 0 | DJoining batch => 1 + length batch | _ => 2 end.

(** How many steps are left at most once the server stops. *)
Definition steps_left (s : Server) : nat :=
  sum_list (conn_weight <$> sv_conns s) + accept_weight (sv_accept s) + (match sv_broadcast s with BRunning => 1 | _ => 0 end) +
  owner_weight (sv_owner s) + 2 * length (sv_threads s).

Lemma weight_insert cs i c c' : cs !! i = Some c ->
  (sum_list (conn_weight <$> <[i := c']> cs) + conn_weight c = sum_list (conn_weight <$> cs) + conn_weight c')%nat.
Proof.
  intros Hi. pose proof (lookup_lt_Some _ _ _ Hi). rewrite insert_take_drop by done. rewrite <- (take_drop_middle cs i c Hi) at 3.
  rewrite !fmap_app, !fmap_cons. rewrite !sum_list_with_app. simpl. lia.
Qed.

Lemma accept_decreases e s s' : sv_stop s = true -> accept_step e s = Some s' -> (steps_left s' < steps_left s)%nat /\ sv_stop s' = true.
Proof.
  intros Hst Hstep. unfold steps_left. unfold accept_step in Hstep.
  destruct e, (sv_accept s) eqn:Ha; try (by destruct ok); try done; try destruct ok; injection Hstep as <-; split; try done.
  all: cbn [sv_conns sv_accept sv_broadcast sv_owner sv_threads set_accept set_active set_conns set_accepted set_threads extract_finished snd].
  - rewrite Hst. simpl. lia.
  - simpl. lia.
  - destruct (_ && _); simpl; lia.
  - simpl. lia.
  - rewrite fmap_app. rewrite sum_list_with_app. simpl. lia.
  - simpl. lia.
  - simpl. lia.
  - rewrite length_app. pose proof (filter_length_le (fun h => negb (finished s h)) (sv_threads s)). simpl. lia.
Qed.

Lemma conn_decreases e s s' : sv_stop s = true -> progress e = true -> conn_step e s = Some s' -> (steps_left s' < steps_left s)%nat /\ sv_stop s' = true.
Proof.
  intros Hst Hp Hstep. unfold steps_left. destruct e; try done; cbn [conn_step] in Hstep.
  1-3: case_guard as Hi; [|done]; injection Hstep as <-; (split; [|done]); cbn [sv_conns sv_accept sv_broadcast sv_owner sv_threads set_active set_conns set_sv_model];
    match goal with Hi : ?cs !! ?i = Some _ |- context [<[?i := ?c]> ?cs] => pose proof (weight_insert cs i _ c Hi) end;
    try destruct (_ =? _)%nat; cbn [conn_weight] in *; lia.
  destruct (sv_broadcast s); try done. rewrite Hst in Hstep. injection Hstep as <-. split; [simpl; lia|done].
Qed.

Lemma owner_decreases e s s' : sv_stop s = true -> server_ok s -> owner_step e s = Some s' -> (steps_left s' < steps_left s)%nat /\ sv_stop s' = true.
Proof.
  intros Hst Hs Hstep. pose proof (so_stop _ Hs) as Hso. rewrite Hst in Hso. unfold steps_left, owner_step in *.
  destruct (sv_owner s) as [| | | |[|h batch]|] eqn:Ho; try done; destruct e; try done.
  1-2: injection Hstep as <-; destruct (sv_threads s) as [|h0 ts] eqn:Ht; (split; [|done]); simpl; rewrite ?Ht; simpl; lia.
  case_guard; [|done]. injection Hstep as <-. split; [simpl; lia|done].
Qed.

Lemma step_decreases e s s' : sv_stop s = true -> server_ok s -> progress e = true -> sv_step e s = Some s' ->
  (steps_left s' < steps_left s)%nat /\ sv_stop s' = true.
Proof.
  intros Hst Hs Hp. destruct e; try done; cbn [sv_step]; first [by apply accept_decreases|by apply conn_decreases|by apply owner_decreases].
Qed.

Lemma run_bounded es s s' : sv_stop s = true -> server_ok s -> forallb progress es = true -> sv_run es s = Some s' -> (length es <= steps_left s)%nat.
Proof.
  revert s. induction es as [|e es IH]; intros s Hst Hs Hp Hr; [simpl; lia|]. cbn [forallb] in Hp. apply andb_true_iff in Hp as [He Hp].
  cbn [sv_run] in Hr. destruct (sv_step e s) as [s1|] eqn:Hstep; [|done]. cbn [mbind option_bind] in Hr.
  destruct (step_decreases e s s1 Hst Hs He Hstep) as [Hlt Hst1]. specialize (IH s1 Hst1 (sv_step_ok e s s1 Hs Hstep) Hp Hr). simpl. lia.
Qed.

(** A thread that is not finished can take a step. *)
Lemma unfinished_steps s h : sv_stop s = true -> server_ok s -> exists_thread s h -> finished s h = false -> exists e s', progress e = true /\ sv_step e s = Some s'.
Proof.
  intros Hst Hs Hh Hf. destruct h as [| |i]; cbn [finished exists_thread] in *.
  - destruct (sv_accept s) as [| | | |j|j|] eqn:Ha; [exists SvPoll|exists SvNoClient|exists SvCount|exists (SvSpawn true)|exists SvAccepted|exists SvRegister|done];
      eexists; (split; [done|]); cbn [sv_step accept_step]; by rewrite Ha.
  - destruct (sv_broadcast s) eqn:Hb; try done. exists SvBroadcastStop. eexists. split; [done|]. cbn [sv_step conn_step]. by rewrite Hb, Hst.
  - apply bool_decide_eq_false in Hf. destruct Hh as [c Hc]. destruct c; [exists (SvLeave i)|exists (SvRelease i)|exists (SvClose i 0 0)|done];
      eexists; (split; [done|]); cbn [sv_step conn_step]; by rewrite option_guard_True by done.
Qed.

(** Dropping the server ends.  Once it is told to stop, every interleaving of its
    threads is finite, [steps_left] long at most (serving a client apart, which ends by
    itself), also when clients still arrive; and no thread ever waits for ever: until
    the owner has joined every thread, some thread can go on. *)
Theorem drop_ends c s : reachable c s -> sv_stop s = true ->
  (forall es s', forallb progress es = true -> sv_run es s = Some s' -> (length es <= steps_left s)%nat) /\
  (sv_owner s <> DJoined -> exists e s', progress e = true /\ sv_step e s = Some s').
Proof.
  intros Hr Hst. pose proof (reachable_ok c s Hr) as Hs. split; [intros es s' Hp Hx; by eapply run_bounded|]. intros Hn.
  pose proof (so_stop _ Hs) as Hso. rewrite Hst in Hso. destruct (sv_owner s) as [| | | |[|h batch]|] eqn:Ho; try done.
  - exists SvTake. eexists. split; [done|]. cbn [sv_step owner_step]. by rewrite Ho.
  - exists SvTake. eexists. split; [done|]. cbn [sv_step owner_step]. by rewrite Ho.
  - destruct (finished s h) eqn:Hf.
    + exists SvJoin. eexists. split; [done|]. cbn [sv_step owner_step]. rewrite Ho. by rewrite option_guard_True by done.
    + apply (unfinished_steps s h); try done. apply (so_handles _ Hs). right. rewrite Ho. by left.
Qed.
End safe.

(** ** The rate of the broadcasts *)

(** Up to a time, at most one broadcast per interval is sent, however the rounds of the
    loop are delayed: missed slots are not made up for. *)
Lemma broadcast_rate `{ByteOrder} c rs m b until : 0 < bc_interval c -> Forall (fun r => bt_now r <= until) rs ->
  let n := Z.of_nat (length (broadcast_rounds c rs m b)) in n = 0 \/ (n - 1) * bc_interval c <= until - bl_next b.
Proof.
  intros Hi Hr. revert m b. induction Hr as [|r rs Hn _ IH]; intros m b; [by left|]. cbn [broadcast_rounds]. unfold broadcast_round.
  destruct (Z.leb_spec (bl_next b) (bt_now r)); [|apply IH]. right. cbv beta iota zeta. rewrite length_app, Nat2Z.inj_add. change (Z.of_nat (length (option_list (Some ?x)))) with 1.
  destruct (IH (advance_to (bt_lock r) m) (mkBroadcastLoop (Z.max (bl_next b + bc_interval c) (bt_done r)) (bl_warned b || negb (bt_ok r)))) as [Hz|Hz];
    cbn zeta in Hz; cbn [bl_next] in Hz; [rewrite Hz in *; lia|nia].
Qed.

(** ** Runs of a server *)
Module HostDemo.
Definition single : SimServerConfig := SimServerConfig_new ed2_r331.

(** A client is accepted while the server stops, and everything is joined. *)
Definition stopping : list sv_event :=
  [SvStored; SvStarted; SvPoll; SvClient; SvStop; SvCount; SvSpawn true; SvAccepted; SvTake; SvRegister; SvPoll; SvJoin; SvTake; SvLeave 0; SvRelease 0].

Definition joining : list sv_event := [SvClose 0 5 6; SvJoin; SvTake].

Definition after (es : list sv_event) : Server := default (server_start single) (@sv_run stdlib_byte_order es (server_start single)).

Lemma after_reachable es : is_Some (@sv_run stdlib_byte_order es (server_start single)) -> @reachable stdlib_byte_order single (after es).
Proof. intros [s Hs]. exists es. unfold after. by rewrite Hs. Qed.

Lemma ran_8 : @reachable stdlib_byte_order single (after (take 8 stopping)).
Proof. apply after_reachable. vm_compute. by eexists. Qed.

Lemma ran_stopping : @reachable stdlib_byte_order single (after stopping).
Proof. apply after_reachable. vm_compute. by eexists. Qed.

Lemma ran_joining : @reachable stdlib_byte_order single (after (stopping ++ joining)).
Proof. apply after_reachable. vm_compute. by eexists. Qed.

Lemma clients_are_counted_witness : sv_active (after (take 8 stopping)) = 1%nat /\ connected_count (sv_conns (after (take 8 stopping))) = 1%nat.
Proof.
  refine (conj (eq_trans (proj1 (@clients_are_counted stdlib_byte_order single (after (take 8 stopping)) ran_8)) _) _); vm_compute; reflexivity.
Defined.

Lemma drop_joins_every_thread_witness : sv_owner (after (stopping ++ joining)) = DJoined /\ sv_accept (after (stopping ++ joining)) = AStopped.
Proof.
  assert (Ho : sv_owner (after (stopping ++ joining)) = DJoined) by (vm_compute; reflexivity).
  exact (conj Ho (proj1 (@drop_joins_every_thread stdlib_byte_order single _ ran_joining Ho))).
Defined.

Lemma drop_ends_witness : steps_left (after stopping) = 3%nat /\
  forall es s', forallb progress es = true -> @sv_run stdlib_byte_order es (after stopping) = Some s' -> (length es <= steps_left (after stopping))%nat.
Proof.
  assert (Hs : sv_stop (after stopping) = true) by (vm_compute; reflexivity).
  split; [vm_compute; reflexivity|]. exact (proj1 (@drop_ends stdlib_byte_order single _ ran_stopping Hs)).
Defined.

(** A client that leaves and one that comes and starts to play before the first one's
    thread has stopped the playback. *)
Definition overtaking : list sv_event :=
  [SvStored; SvStarted; SvPoll; SvClient; SvCount; SvSpawn true; SvAccepted; SvRegister; SvLeave 0; SvRelease 0;
   SvPoll; SvClient; SvCount; SvSpawn true; SvUse 1 [EvFeed 5 Demo.stream_bytes]].

(** The last connection that closes stops the playback, by a step of its own after it
    has counted itself out: a client that connects in between, with a single client
    enforced, has its playback stopped while it is connected. *)
Lemma close_can_stop_the_next_client : exists s s',
  @reachable stdlib_byte_order (mkServerConfig ed2_r331 (LOCALHOST, 0) None true true no_faults) s /\
  sv_conns s !! 1%nat = Some CServing /\ m_playback (sv_model s) = PLAYBACK_PLAYING /\
  @sv_step stdlib_byte_order (SvClose 0 6 6) s = Some s' /\ sv_conns s' !! 1%nat = Some CServing /\ m_playback (sv_model s') = PLAYBACK_IDLE.
Proof.
  set (c := mkServerConfig ed2_r331 (LOCALHOST, 0) None true true no_faults).
  destruct (@sv_run stdlib_byte_order overtaking (server_start c)) as [s|] eqn:Hr; [|vm_compute in Hr; done].
  destruct (@sv_step stdlib_byte_order (SvClose 0 6 6) s) as [s'|] eqn:Hs; [|vm_compute in Hr; injection Hr as <-; vm_compute in Hs; done].
  exists s, s'. split; [by exists overtaking|]. vm_compute in Hr. injection Hr as <-. vm_compute in Hs. by injection Hs as <-.
Qed.
End HostDemo.
