(* ===== verification/LaserCube.v ===== *)
(** * LaserCube network: wire formats, profiles and pacing

    Models the leaf files of [src/src/protocols/lasercube_network/]: the point and
    packet layouts ([protocol.rs], [packetizer.rs]), commands ([command.rs]),
    acknowledgements ([ack.rs]), the full-info status ([status.rs]), connection
    profiles ([profiles.rs]), the pacing arithmetic ([pacing.rs]) and the rate and
    capability helpers of [mod.rs].  An IP address is an opaque [Z]; texts are
    byte lists, before any decoding. *)

From S2P Require Import Prelude Floats Presentation Point Backend Bytes.

(** ** Constants *)
Definition CMD_GET_FULL_INFO : Z := 0x77.
Definition CMD_ENABLE_BUFFER_SIZE_RESPONSE : Z := 0x78.
Definition CMD_SET_OUTPUT : Z := 0x80.
Definition CMD_SET_RATE : Z := 0x82.
Definition CMD_GET_RINGBUFFER_EMPTY : Z := 0x8A.
Definition CMD_SET_DAC_BUFFER_THRESHOLD : Z := 0xA0.
Definition CMD_SAMPLE_DATA : Z := 0xA9.

Definition DEFAULT_POINT_RATE : Z := 30000.
Definition DEFAULT_BUFFER_CAPACITY : Z := 6000.
Definition DATA_HEADER_SIZE : nat := 4.
Definition POINT_SIZE_BYTES : nat := 10.
Definition MAX_UDP_SAMPLES_PER_PACKET : nat := 140.

(** ** Points and packets *)
Record CubePoint := mkCubePoint { cube_x : Z; cube_y : Z; cube_r : Z; cube_g : Z; cube_b : Z }.

(** The intensity dimmer, folded into a channel: a product of two 16-bit numbers
    in 32 bits. *)
Definition dim (intensity c : Z) : Z := wrapu 16 (wrapu 32 (c * intensity) / 65535).

Definition cube_point_of (p : LaserPoint) : CubePoint :=
  mkCubePoint (coord_to_u12 (lp_x p)) (coord_to_u12_inverted (lp_y p))
    (color_to_u12 (dim (lp_intensity p) (lp_r p))) (color_to_u12 (dim (lp_intensity p) (lp_g p)))
    (color_to_u12 (dim (lp_intensity p) (lp_b p))).

Section wire.
Context `{ByteOrder}.

Definition write_cube_point (p : CubePoint) : list Z :=
  write_u16 (cube_x p) ++ write_u16 (cube_y p) ++ write_u16 (cube_r p) ++ write_u16 (cube_g p) ++ write_u16 (cube_b p).

Definition encode_sample_packet (packet_sequence transfer_sequence : Z) (points : list CubePoint) : io_result (list Z) :=
  if decide (MAX_UDP_SAMPLES_PER_PACKET < length points)%nat then IoErr InvalidInput
  else IoOk ([CMD_SAMPLE_DATA; 0; packet_sequence; transfer_sequence] ++ mjoin (write_cube_point <$> points)).

(** ** Commands *)
Definition get_full_info : list Z := [CMD_GET_FULL_INFO].

Definition enable_buffer_size_response (enable : bool) : list Z := [CMD_ENABLE_BUFFER_SIZE_RESPONSE; Z.b2z enable].

Definition set_output (enable : bool) : list Z := [CMD_SET_OUTPUT; Z.b2z enable].

Definition set_rate (rate : Z) : list Z := CMD_SET_RATE :: write_u32 rate.

Definition set_dac_buffer_threshold (threshold : Z) : list Z := CMD_SET_DAC_BUFFER_THRESHOLD :: write_u32 threshold.

(** ** Acknowledgements *)
Inductive AckSource :=
  | AckCommand
  | AckData.

#[export] Instance AckSource_eq_dec : EqDecision AckSource.
Proof using. solve_decision. Defined.

Record BufferAck := mkAck { ack_source : AckSource; packet_sequence : option Z; free_space : Z }.

Definition parse_ack (buffer : list Z) (source : AckSource) : io_result BufferAck :=
  if decide (length buffer < 4)%nat then IoErr InvalidData
  else if negb (buffer !!! 0%nat =? CMD_GET_RINGBUFFER_EMPTY) then IoErr InvalidData
  else if bool_decide (source = AckCommand) && negb (buffer !!! 1%nat =? 0) then IoErr InvalidData
  else IoOk (mkAck source (if bool_decide (source = AckData) then Some (buffer !!! 1%nat) else None) (le_at 2 2 buffer)).

Definition parse_command_ack (buffer : list Z) : io_result BufferAck := parse_ack buffer AckCommand.

Definition parse_data_ack (buffer : list Z) : io_result BufferAck := parse_ack buffer AckData.
End wire.

(** ** Profiles *)
Inductive ConnectionType :=
  | EthernetServer
  | WifiServer
  | EthernetClient
  | WifiClient
  | UnknownConnection (raw : Z).

Definition from_status_byte (raw : Z) : ConnectionType :=
  if raw =? 0 then EthernetServer
  else if raw =? 1 then WifiServer
  else if raw =? 2 then EthernetClient
  else if raw =? 3 then WifiClient
  else UnknownConnection raw.

Inductive ProfileSource :=
  | DesktopNetworkDefault
  | UnknownConservative.

Record ConnectionProfile := mkProfile {
  profile_source : ProfileSource;
  profile_connection : ConnectionType;
  remote_buffer_cutoff : Z;
  wait_buffer_sleep : Z;
  max_udp_samples_per_packet : Z;
  profile_buffer_total : Z;
}.

Definition unknown_conservative (buffer_total : Z) : ConnectionProfile :=
  mkProfile UnknownConservative (UnknownConnection 0) (Z.min 1800 buffer_total) (millis 6) 80 buffer_total.

Definition desktop (c : ConnectionType) (cutoff sleep_ms samples buffer_total : Z) : ConnectionProfile :=
  mkProfile DesktopNetworkDefault c (Z.min cutoff buffer_total) (millis sleep_ms) samples buffer_total.

Definition for_connection (c : ConnectionType) (buffer_total : Z) : ConnectionProfile :=
  match c with
  | WifiServer => desktop c 2000 4 140 buffer_total
  | EthernetServer | EthernetClient | WifiClient => desktop c 1800 6 80 buffer_total
  | UnknownConnection _ => unknown_conservative buffer_total
  end.

(** ** Status *)
Record LaserCubeNetworkStatus := mkCubeStatus {
  ip : Z;
  reported_ip : option (list Z);
  payload_version : Z;
  firmware_major : Z;
  firmware_minor : Z;
  output_enabled : bool;
  interlock_enabled : bool;
  temperature_warning : bool;
  over_temperature : bool;
  packet_errors : Z;
  status_point_rate : Z;
  point_rate_max : Z;
  buffer_free : Z;
  buffer_max : Z;
  battery_percent : Z;
  temperature_c : Z;
  raw_connection_type : Z;
  connection_type : ConnectionType;
  serial_number : list Z;
  model_number : Z;
  model_name : list Z;
}.

Definition minimal (addr : Z) : LaserCubeNetworkStatus :=
  mkCubeStatus addr None 0 0 0 false false false false 0 0 30000 DEFAULT_BUFFER_CAPACITY DEFAULT_BUFFER_CAPACITY
    0 0 0 (UnknownConnection 0) [] 0 [].

Definition hex_digit (n : Z) : Z := if n <? 10 then 48 + n else 55 + n.

Definition hex_upper (bytes : list Z) : list Z :=
  mjoin ((fun b => [hex_digit (Z.shiftr b 4); hex_digit (Z.land b 15)]) <$> bytes).

(** The bytes before the first zero. *)
Fixpoint until_nul (bytes : list Z) : list Z :=
  match bytes with
  | [] => []
  | b :: bytes => if b =? 0 then [] else b :: until_nul bytes
  end.

Definition flag (flags mask : Z) : bool := negb (Z.land flags mask =? 0).

Definition parse_status `{ByteOrder} (buffer : list Z) (source_ip : Z) : io_result LaserCubeNetworkStatus :=
  if decide (length buffer < 64)%nat then IoErr InvalidData
  else if negb (buffer !!! 0%nat =? CMD_GET_FULL_INFO) then IoErr InvalidData
  else if negb (buffer !!! 1%nat =? 0) then IoErr InvalidData
  else if negb (buffer !!! 2%nat =? 0) then IoErr InvalidData
  else
    let major := buffer !!! 3%nat in
    let minor := buffer !!! 4%nat in
    let flags := buffer !!! 5%nat in
    let new_flag_layout := (0 <? major) || (13 <=? minor) in
    let '(interlock, warning, over, errors) :=
      if new_flag_layout then (flag flags 2, flag flags 4, flag flags 8, Z.land (Z.shiftr flags 4) 15)
      else (flag flags 8, flag flags 16, flag flags 32, 0) in
    IoOk (mkCubeStatus source_ip
      (Some [buffer !!! 32%nat; buffer !!! 33%nat; buffer !!! 34%nat; buffer !!! 35%nat])
      (buffer !!! 2%nat) major minor (flag flags 1) interlock warning over errors
      (le_at 4 10 buffer) (le_at 4 14 buffer) (le_at 2 19 buffer) (le_at 2 21 buffer)
      (buffer !!! 23%nat) (wraps 8 (buffer !!! 24%nat)) (buffer !!! 25%nat) (from_status_byte (buffer !!! 25%nat))
      (hex_upper (take 6 (drop 26 buffer))) (buffer !!! 37%nat) (until_nul (take 26 (drop 38 buffer)))).

Definition is_plugged_in (s : LaserCubeNetworkStatus) : bool := battery_percent s =? 255.

Definition battery_level (s : LaserCubeNetworkStatus) : F32.t :=
  if 100 <? battery_percent s then f1 else F32.div (F32.of_int (battery_percent s)) (F32.of_int 100).

Definition threshold_supported (s : LaserCubeNetworkStatus) : bool :=
  (1 <? firmware_major s) || ((firmware_major s =? 1) && (23 <? firmware_minor s)) || (10 <=? model_number s).

(** ** Rates and capabilities *)
Definition resolved_point_rate_max (s : LaserCubeNetworkStatus) : Z :=
  if 0 <? point_rate_max s then point_rate_max s else DEFAULT_POINT_RATE.

Definition clamp_point_rate (s : LaserCubeNetworkStatus) (rate : Z) : Z :=
  Z.min (Z.max rate 1) (resolved_point_rate_max s).

Definition capabilities_for_profile_and_rate (p : ConnectionProfile) (rate_max : Z) : DacCapabilities :=
  mkCaps 1 rate_max (max_udp_samples_per_packet p) NetworkFifo.

Definition capabilities_for_profile (p : ConnectionProfile) : DacCapabilities :=
  capabilities_for_profile_and_rate p DEFAULT_POINT_RATE.

Definition capabilities_for_status (p : ConnectionProfile) (s : LaserCubeNetworkStatus) : DacCapabilities :=
  capabilities_for_profile_and_rate p (resolved_point_rate_max s).

Definition default_capabilities : DacCapabilities := capabilities_for_profile (unknown_conservative DEFAULT_BUFFER_CAPACITY).

(** ** Pacing *)
Record PacerInputs := mkPacer {
  queue_len : Z;
  pacer_free : Z;
  pacer_total : Z;
  pacer_cutoff : Z;
  per_tick_packet_budget : Z;
}.

Definition send_budget (i : PacerInputs) : Z :=
  let device_target := Z.min (pacer_cutoff i) (pacer_total i) in
  let device_buffered := sat_sub (pacer_total i) (pacer_free i) in
  let remote_budget := sat_sub device_target device_buffered in
  Z.min (Z.min (queue_len i) remote_budget) (per_tick_packet_budget i).

(** [None]: [Duration::from_secs_f64] panicked. *)
Definition packet_interval (packet_samples point_rate : Z) : option Z :=
  if (packet_samples =? 0) || (point_rate =? 0) then Some 0
  else from_secs_f64 (F64.div (F64.of_int packet_samples) (F64.of_int point_rate)).

(** ** Lemmas *)

Lemma dim_eq intensity c : in_u 16 intensity -> in_u 16 c -> dim intensity c = c * intensity / 65535.
Proof.
  unfold in_u, umax, dim, wrapu. intros Hi Hc. rewrite (Z.mod_small (c * intensity)) by nia.
  apply Z.mod_small. split; [apply Z.div_pos; nia|apply Z.div_lt_upper_bound; nia].
Qed.

Lemma dim_bounds intensity c : in_u 16 intensity -> in_u 16 c -> 0 <= dim intensity c <= c.
Proof.
  intros Hi Hc. rewrite dim_eq by done. unfold in_u, umax in *.
  split; [apply Z.div_pos; nia|apply Z.div_le_upper_bound; nia].
Qed.

Lemma dim_dark c : in_u 16 c -> dim 0 c = 0.
Proof. intros Hc. rewrite dim_eq by (done || (unfold in_u, umax; lia)). by rewrite Z.mul_0_r. Qed.

Lemma color_to_u12_mono a b : a <= b -> color_to_u12 a <= color_to_u12 b.
Proof. intros Hab. unfold color_to_u12. rewrite !Z.shiftr_div_pow2 by lia. apply Z.div_le_mono; lia. Qed.

Lemma color_to_u12_range c : in_u 16 c -> 0 <= color_to_u12 c <= 4095.
Proof.
  unfold in_u, umax, color_to_u12. intros Hc. rewrite Z.shiftr_div_pow2 by lia.
  split; [apply Z.div_pos; lia|]. enough (c / 2 ^ 4 < 4096) by lia. apply Z.div_lt_upper_bound; lia.
Qed.

(** A dimmed 12-bit channel: in range and never brighter than the channel. *)
Lemma dimmed_channel intensity c :
  in_u 16 intensity -> in_u 16 c -> 0 <= color_to_u12 (dim intensity c) <= color_to_u12 c /\ color_to_u12 c <= 4095.
Proof.
  intros Hi Hc. pose proof (dim_bounds intensity c Hi Hc) as Hd.
  assert (in_u 16 (dim intensity c)) as Hu by (unfold in_u, umax in *; lia).
  pose proof (color_to_u12_range _ Hu). pose proof (color_to_u12_range _ Hc).
  pose proof (color_to_u12_mono (dim intensity c) c ltac:(lia)). lia.
Qed.

(** Every field of a wire point is a 12-bit number. *)
Definition cube_point_wf (p : CubePoint) : Prop :=
  0 <= cube_x p <= 4095 /\ 0 <= cube_y p <= 4095 /\ 0 <= cube_r p <= 4095 /\ 0 <= cube_g p <= 4095 /\ 0 <= cube_b p <= 4095.

Lemma cube_point_of_wf p : point_wf p -> cube_point_wf (cube_point_of p).
Proof.
  intros (Hx & Hy & Hr & Hg & Hb & Hi). unfold cube_point_wf, cube_point_of. cbn [cube_x cube_y cube_r cube_g cube_b].
  pose proof (coord_to_u12_range _ Hx). pose proof (coord_to_u12_inverted_range _ Hy).
  pose proof (dimmed_channel _ _ Hi Hr). pose proof (dimmed_channel _ _ Hi Hg). pose proof (dimmed_channel _ _ Hi Hb). lia.
Qed.

Section packets.
Context `{ByteOrder}.

(** The reference reading of a packet's payload. *)
Definition read_cube_point : reader CubePoint :=
  x ← read_u16; y ← read_u16; r ← read_u16; g ← read_u16; b ← read_u16; mret (mkCubePoint x y r g b).

Fixpoint read_cube_points (n : nat) : reader (list CubePoint) :=
  match n with
  | O => mret []
  | S n => p ← read_cube_point; ps ← read_cube_points n; mret (p :: ps)
  end.

Lemma cube_point_round p rest :
  cube_point_wf p -> read_cube_point (write_cube_point p ++ rest) = IoOk (p, rest).
Proof.
  intros (? & ? & ? & ? & ?). unfold read_cube_point, write_cube_point.
  assert (0 <= cube_x p < 2 ^ 16) by lia. assert (0 <= cube_y p < 2 ^ 16) by lia.
  assert (0 <= cube_r p < 2 ^ 16) by lia. assert (0 <= cube_g p < 2 ^ 16) by lia. assert (0 <= cube_b p < 2 ^ 16) by lia.
  read_fields. by destruct p.
Qed.

Lemma cube_points_round pts rest :
  Forall cube_point_wf pts -> read_cube_points (length pts) (mjoin (write_cube_point <$> pts) ++ rest) = IoOk (pts, rest).
Proof.
  induction 1 as [|p pts Hp _ IH]; [done|]. cbn [length read_cube_points]. rewrite fmap_cons.
  change (mjoin (?x :: ?xs)) with (x ++ mjoin xs). rewrite <- app_assoc. unfold mbind, reader_bind.
  rewrite cube_point_round by done. by rewrite IH.
Qed.

Lemma cube_payload_length pts : length (mjoin (write_cube_point <$> pts)) = (POINT_SIZE_BYTES * length pts)%nat.
Proof.
  induction pts as [|p pts IH]; [done|]. rewrite fmap_cons. change (mjoin (?x :: ?xs)) with (x ++ mjoin xs).
  rewrite length_app, IH. unfold write_cube_point, write_u16. rewrite !length_app, !write_le_length.
  unfold POINT_SIZE_BYTES. simpl length. lia.
Qed.

(** LaserCube packets carry their points: converting laser points and
    encoding them fails exactly when there are more than 140; otherwise the
    packet is the header (command, zero, both sequence numbers) and ten bytes per
    point, at most 1404 bytes, whose payload reads back as the converted points.
    Every field is a 12-bit number, no channel is brighter than the undimmed one,
    and intensity zero is dark. *)
Theorem cube_packet_carries_points (lps : list LaserPoint) seq transfer :
  Forall point_wf lps ->
  Forall (fun p => cube_point_wf (cube_point_of p) /\
    (cube_r (cube_point_of p) <= color_to_u12 (lp_r p) /\ cube_g (cube_point_of p) <= color_to_u12 (lp_g p) /\
     cube_b (cube_point_of p) <= color_to_u12 (lp_b p)) /\
    (lp_intensity p = 0 -> cube_r (cube_point_of p) = 0 /\ cube_g (cube_point_of p) = 0 /\ cube_b (cube_point_of p) = 0)) lps /\
  match encode_sample_packet seq transfer (cube_point_of <$> lps) with
  | IoErr e => e = InvalidInput /\ (MAX_UDP_SAMPLES_PER_PACKET < length lps)%nat
  | IoOk bs => (length lps <= MAX_UDP_SAMPLES_PER_PACKET)%nat /\
      length bs = (DATA_HEADER_SIZE + POINT_SIZE_BYTES * length lps)%nat /\ (length bs <= 1404)%nat /\
      exists payload, bs = CMD_SAMPLE_DATA :: 0 :: seq :: transfer :: payload /\
        read_cube_points (length lps) payload = IoOk (cube_point_of <$> lps, [])
  end.
Proof.
  intros Hwf. split.
  - eapply Forall_impl; [exact Hwf|]. intros p Hp. split; [by apply cube_point_of_wf|].
    destruct Hp as (_ & _ & Hr & Hg & Hb & Hi). unfold cube_point_of. cbn [cube_r cube_g cube_b].
    pose proof (dimmed_channel _ _ Hi Hr). pose proof (dimmed_channel _ _ Hi Hg). pose proof (dimmed_channel _ _ Hi Hb).
    split; [lia|]. intros ->. by rewrite !dim_dark.
  - unfold encode_sample_packet. rewrite length_fmap. case_decide as Hlen; [done|].
    assert (Hbytes : length (mjoin (write_cube_point <$> (cube_point_of <$> lps))) = (POINT_SIZE_BYTES * length lps)%nat)
      by (by rewrite cube_payload_length, length_fmap).
    split; [lia|]. rewrite length_app, Hbytes. unfold MAX_UDP_SAMPLES_PER_PACKET, POINT_SIZE_BYTES, DATA_HEADER_SIZE in *.
    split; [simpl length; lia|]. split; [simpl length; lia|]. eexists. split; [reflexivity|].
    rewrite <- (app_nil_r (mjoin _)), <- (length_fmap cube_point_of lps). apply cube_points_round.
    apply Forall_fmap. eapply Forall_impl; [exact Hwf|]. intros p. apply cube_point_of_wf.
Qed.
End packets.

Lemma cube_packet_carries_points_witness :
  encode_sample_packet 7 7 (cube_point_of <$> [default_point]) = IoOk [169; 0; 7; 7; 0; 8; 0; 8; 0; 0; 0; 0; 0; 0] /\
  match encode_sample_packet 7 7 (cube_point_of <$> [default_point]) with
  | IoErr _ => False
  | IoOk bs => length bs = 14%nat
  end.
Proof.
  split; [vm_compute; reflexivity|].
  destruct (@cube_packet_carries_points stdlib_byte_order [default_point] 7 7) as [_ Hp].
  { constructor; [|constructor]. vm_compute. repeat split; congruence. }
  destruct (encode_sample_packet 7 7 (cube_point_of <$> [default_point])) as [bs|e].
  - destruct Hp as (_ & Hl & _). exact Hl.
  - destruct Hp as [_ Hl]. unfold MAX_UDP_SAMPLES_PER_PACKET in Hl. simpl in Hl. lia.
Defined.
