(* ===== verification/CubeTransport.v ===== *)
(** * LaserCube network: the transport worker

    Models [src/src/protocols/lasercube_network/transport.rs] and
    [transport/{state,worker,handle}.rs]: the state shared by the backend and the
    worker thread, the handle's calls and the worker's loop.

    The worker runs in a monad over [Cube], the whole of what the two threads
    share together with the worker's own fields.  Before each access to shared
    state ([tick]) a block of the backend thread's micro-steps happens; a call of
    the handle is two micro-steps, so the worker can run between a generation bump
    and the message that announces it, or between a reservation and its send.
    Quantifying over the list of blocks quantifies over the interleavings.  Socket
    results are oracle lists.  Logging is left out; [CubeBackend] models how
    the transport is set up. *)

From S2P Require Import Prelude Floats Presentation Point Backend Bytes Estimators LaserCube.

(** ** Constants *)
Definition COMMAND_REPEAT_COUNT : nat := 2.
Definition POINT_QUEUE_CAPACITY : nat := 128.
Definition MAX_ACK_DRAIN_PER_LOOP : nat := 32.
Definition MAX_CONTROL_DRAIN_PER_LOOP : nat := 32.
Definition MAX_IDLE_SLEEP : Z := millis 1.
Definition FULL_INFO_POLL_INACTIVE : Z := millis 250.
Definition FULL_INFO_POLL_ACTIVE : Z := millis 2500.
Definition COMMS_STALE_TIMEOUT : Z := millis 6000.
Definition BUSY_WAIT_THRESHOLD : Z := micros 500.

(** ** Shared state *)
Record TransportState := mkState {
  ts_profile : ConnectionProfile;
  ts_connection_type : ConnectionType;
  ts_status : LaserCubeNetworkStatus;
  host_queue_len : Z;
  host_queue_capacity : Z;
  free_estimate : Z;
  buffer_total : Z;
  point_rate : Z;
  last_estimate : Z;
  packets_sent : Z;
  samples_sent : Z;
  acks_received : Z;
  command_successes : Z;
  command_failures : Z;
  send_errors : Z;
  last_data_ack_sequence : option Z;
  last_ack_free_space : option Z;
  last_ack_rtt : option Z;
  ts_packet_errors : Z;
  last_ack : option Z;
  last_full_info : option Z;
  last_comms : option Z;
  connected : bool;
}.

(** Field updates. *)
Definition set_host_queue (n : Z) (s : TransportState) : TransportState :=
  mkState (ts_profile s) (ts_connection_type s) (ts_status s) n (host_queue_capacity s) (free_estimate s)
    (buffer_total s) (point_rate s) (last_estimate s) (packets_sent s) (samples_sent s) (acks_received s)
    (command_successes s) (command_failures s) (send_errors s) (last_data_ack_sequence s) (last_ack_free_space s)
    (last_ack_rtt s) (ts_packet_errors s) (last_ack s) (last_full_info s) (last_comms s) (connected s).

Definition set_connected (b : bool) (s : TransportState) : TransportState :=
  mkState (ts_profile s) (ts_connection_type s) (ts_status s) (host_queue_len s) (host_queue_capacity s)
    (free_estimate s) (buffer_total s) (point_rate s) (last_estimate s) (packets_sent s) (samples_sent s)
    (acks_received s) (command_successes s) (command_failures s) (send_errors s) (last_data_ack_sequence s)
    (last_ack_free_space s) (last_ack_rtt s) (ts_packet_errors s) (last_ack s) (last_full_info s) (last_comms s) b.

Definition set_estimate (free : Z) (now : Z) (s : TransportState) : TransportState :=
  mkState (ts_profile s) (ts_connection_type s) (ts_status s) (host_queue_len s) (host_queue_capacity s) free
    (buffer_total s) (point_rate s) now (packets_sent s) (samples_sent s) (acks_received s) (command_successes s)
    (command_failures s) (send_errors s) (last_data_ack_sequence s) (last_ack_free_space s) (last_ack_rtt s)
    (ts_packet_errors s) (last_ack s) (last_full_info s) (last_comms s) (connected s).

Definition set_rates (rate : Z) (st : LaserCubeNetworkStatus) (s : TransportState) : TransportState :=
  mkState (ts_profile s) (ts_connection_type s) st (host_queue_len s) (host_queue_capacity s) (free_estimate s)
    (buffer_total s) rate (last_estimate s) (packets_sent s) (samples_sent s) (acks_received s)
    (command_successes s) (command_failures s) (send_errors s) (last_data_ack_sequence s) (last_ack_free_space s)
    (last_ack_rtt s) (ts_packet_errors s) (last_ack s) (last_full_info s) (last_comms s) (connected s).

Definition set_status (st : LaserCubeNetworkStatus) (s : TransportState) : TransportState :=
  mkState (ts_profile s) (ts_connection_type s) st (host_queue_len s) (host_queue_capacity s) (free_estimate s)
    (buffer_total s) (point_rate s) (last_estimate s) (packets_sent s) (samples_sent s) (acks_received s)
    (command_successes s) (command_failures s) (send_errors s) (last_data_ack_sequence s) (last_ack_free_space s)
    (last_ack_rtt s) (ts_packet_errors s) (last_ack s) (last_full_info s) (last_comms s) (connected s).

Definition set_comms (now : Z) (s : TransportState) : TransportState :=
  mkState (ts_profile s) (ts_connection_type s) (ts_status s) (host_queue_len s) (host_queue_capacity s)
    (free_estimate s) (buffer_total s) (point_rate s) (last_estimate s) (packets_sent s) (samples_sent s)
    (acks_received s) (command_successes s) (command_failures s) (send_errors s) (last_data_ack_sequence s)
    (last_ack_free_space s) (last_ack_rtt s) (ts_packet_errors s) (last_ack s) (last_full_info s) (Some now)
    (connected s).

Definition set_rtt (rtt : option Z) (s : TransportState) : TransportState :=
  mkState (ts_profile s) (ts_connection_type s) (ts_status s) (host_queue_len s) (host_queue_capacity s)
    (free_estimate s) (buffer_total s) (point_rate s) (last_estimate s) (packets_sent s) (samples_sent s)
    (acks_received s) (command_successes s) (command_failures s) (send_errors s) (last_data_ack_sequence s)
    (last_ack_free_space s) (match rtt with Some _ => rtt | None => last_ack_rtt s end) (ts_packet_errors s)
    (last_ack s) (last_full_info s) (last_comms s) (connected s).

Definition set_ack (now : Z) (free : Z) (seq : option Z) (s : TransportState) : TransportState :=
  mkState (ts_profile s) (ts_connection_type s) (ts_status s) (host_queue_len s) (host_queue_capacity s)
    (free_estimate s) (buffer_total s) (point_rate s) (last_estimate s) (packets_sent s) (samples_sent s)
    (acks_received s) (command_successes s) (command_failures s) (send_errors s)
    (match seq with Some _ => seq | None => last_data_ack_sequence s end) (Some free) (last_ack_rtt s)
    (ts_packet_errors s) (Some now) (last_full_info s) (Some now) (connected s).

Definition add_acks (n : Z) (s : TransportState) : TransportState :=
  mkState (ts_profile s) (ts_connection_type s) (ts_status s) (host_queue_len s) (host_queue_capacity s)
    (free_estimate s) (buffer_total s) (point_rate s) (last_estimate s) (packets_sent s) (samples_sent s)
    (sat_add 64 (acks_received s) n) (command_successes s) (command_failures s) (send_errors s)
    (last_data_ack_sequence s) (last_ack_free_space s) (last_ack_rtt s) (ts_packet_errors s) (last_ack s)
    (last_full_info s) (last_comms s) (connected s).

Definition count_response (ok : bool) (s : TransportState) : TransportState :=
  mkState (ts_profile s) (ts_connection_type s) (ts_status s) (host_queue_len s) (host_queue_capacity s)
    (free_estimate s) (buffer_total s) (point_rate s) (last_estimate s) (packets_sent s) (samples_sent s)
    (acks_received s) (if ok then sat_add 64 (command_successes s) 1 else command_successes s)
    (if ok then command_failures s else sat_add 64 (command_failures s) 1) (send_errors s)
    (last_data_ack_sequence s) (last_ack_free_space s) (last_ack_rtt s) (ts_packet_errors s) (last_ack s)
    (last_full_info s) (last_comms s) (connected s).

Definition count_send_error  (s : TransportState) : TransportState :=
  mkState (ts_profile s) (ts_connection_type s) (ts_status s) (host_queue_len s) (host_queue_capacity s)
    (free_estimate s) (buffer_total s) (point_rate s) (last_estimate s) (packets_sent s) (samples_sent s)
    (acks_received s) (command_successes s) (command_failures s) (sat_add 64 (send_errors s) 1)
    (last_data_ack_sequence s) (last_ack_free_space s) (last_ack_rtt s) (ts_packet_errors s) (last_ack s)
    (last_full_info s) (last_comms s) (connected s).

Definition count_packet (n : Z) (s : TransportState) : TransportState :=
  mkState (ts_profile s) (ts_connection_type s) (ts_status s) (host_queue_len s) (host_queue_capacity s)
    (free_estimate s) (buffer_total s) (point_rate s) (last_estimate s) (sat_add 64 (packets_sent s) 1)
    (sat_add 64 (samples_sent s) n) (acks_received s) (command_successes s) (command_failures s) (send_errors s)
    (last_data_ack_sequence s) (last_ack_free_space s) (last_ack_rtt s) (ts_packet_errors s) (last_ack s)
    (last_full_info s) (last_comms s) (connected s).

Definition with_output (b : bool) (s : LaserCubeNetworkStatus) : LaserCubeNetworkStatus :=
  mkCubeStatus (ip s) (reported_ip s) (payload_version s) (firmware_major s) (firmware_minor s) b
    (interlock_enabled s) (temperature_warning s) (over_temperature s) (packet_errors s) (status_point_rate s)
    (point_rate_max s) (buffer_free s) (buffer_max s) (battery_percent s) (temperature_c s) (raw_connection_type s)
    (connection_type s) (serial_number s) (model_number s) (model_name s).

Definition with_rate (rate : Z) (s : LaserCubeNetworkStatus) : LaserCubeNetworkStatus :=
  mkCubeStatus (ip s) (reported_ip s) (payload_version s) (firmware_major s) (firmware_minor s) (output_enabled s)
    (interlock_enabled s) (temperature_warning s) (over_temperature s) (packet_errors s) rate (point_rate_max s)
    (buffer_free s) (buffer_max s) (battery_percent s) (temperature_c s) (raw_connection_type s) (connection_type s)
    (serial_number s) (model_number s) (model_name s).

(** ** State operations ([state.rs]) *)

Definition buffer_total_from_max (buffer_max : Z) : Z := if 0 <? buffer_max then buffer_max else DEFAULT_BUFFER_CAPACITY.

Definition new_state (now : Z) (status : LaserCubeNetworkStatus) (profile : ConnectionProfile) : TransportState :=
  let total := buffer_total_from_max (buffer_max status) in
  mkState profile (connection_type status) status 0 (Z.max (total * 2) (max_udp_samples_per_packet profile * 8))
    (Z.min (buffer_free status) (buffer_max status)) total
    (if 0 <? status_point_rate status then clamp_point_rate status (status_point_rate status)
     else clamp_point_rate status DEFAULT_POINT_RATE)
    now 0 0 0 0 0 0 None None None (packet_errors status) None (Some now) (Some now) true.

Definition disconnected_state (now : Z) (profile : ConnectionProfile) : TransportState :=
  mkState profile (UnknownConnection 0) (minimal 0) 0 0 (profile_buffer_total profile) (profile_buffer_total profile)
    DEFAULT_POINT_RATE now 0 0 0 0 0 0 None None None 0 None None None false.

(** [None]: the host queue is full. *)
Definition reserve_host_points (n : Z) (s : TransportState) : option TransportState :=
  if host_queue_capacity s <? sat_add 64 (host_queue_len s) n then None
  else Some (set_host_queue (host_queue_len s + n) s).

Definition release_host_points (n : Z) (s : TransportState) : TransportState :=
  set_host_queue (sat_sub (host_queue_len s) n) s.

Definition clear_host_queue (s : TransportState) : TransportState := set_host_queue 0 s.

Definition mark_disconnected (s : TransportState) : TransportState := set_connected false s.

Definition communication_stale (s : TransportState) (now : Z) : bool :=
  match last_comms s with
  | Some t => COMMS_STALE_TIMEOUT <? sat_sub now t
  | None => connected s
  end.

Definition is_usable (now : Z) (s : TransportState) : bool := connected s && negb (communication_stale s now).

Definition decayed_free (s : TransportState) (now : Z) : Z :=
  Z.min (sat_add 64 (free_estimate s) (as_usize (decayed now (last_estimate s) (point_rate s)))) (buffer_total s).

Definition estimated_fullness (now : Z) (s : TransportState) : Z :=
  sat_add 64 (sat_sub (buffer_total s) (decayed_free s now)) (host_queue_len s).

Definition apply_status (status : LaserCubeNetworkStatus) (now : Z) (s : TransportState) : TransportState :=
  let total := buffer_total_from_max (buffer_max status) in
  mkState (ts_profile s) (connection_type status) status (host_queue_len s) (host_queue_capacity s)
    (Z.min (buffer_free status) total) total
    (if 0 <? status_point_rate status then clamp_point_rate status (status_point_rate status) else point_rate s)
    now (packets_sent s) (samples_sent s) (acks_received s) (command_successes s) (command_failures s) (send_errors s)
    (last_data_ack_sequence s) (last_ack_free_space s) (last_ack_rtt s) (packet_errors status) (last_ack s)
    (Some now) (Some now) (connected s).

(** ** Messages, the backend's micro-steps and the trace *)

Inductive PriorityCommand :=
  | SetOutput (enabled : bool) (generation : Z)
  | StopOutput (generation : Z)
  | Shutdown (generation : Z).

(** [TransportCommand::Enqueue] with its uncommitted reservation. *)
Record chunk := mkChunk { chunk_generation : Z; chunk_rate : Z; chunk_points : list CubePoint }.

(** A call whose second half is still to come. *)
Inductive pending :=
  | NoPending
  | PendPriority (cmd : PriorityCommand)
  | PendEnqueue (rate : Z) (points : list CubePoint).

Inductive call :=
  | CallEnqueue (rate : Z) (points : list CubePoint)
  | CallSetOutput (enabled : bool)
  | CallStopOutput
  | CallShutdown.

(** A micro-step of the backend thread: start a call (after finishing the one
    under way), finish it, drop the handle, or let time pass. *)
Inductive hop :=
  | HCall (k : call)
  | HContinue
  | HDrop
  | HTime (dt : Z).

(** What is recorded: command datagrams, sample packets (with the worker's active
    generation), the worker's generation checks, and the handle's output requests,
    generation bumps and accepted chunks. *)
Inductive event :=
  | EvCommand (bytes : list Z) (ok : bool)
  | EvPacket (generation : Z) (points : list CubePoint) (bytes : list Z) (ok : bool)
  | EvCheck (generation : Z)
  | EvRequest (enabled : bool)
  | EvBump (generation : Z)
  | EvAccepted (generation : Z) (points : list CubePoint).

Inductive CommunicationError :=
  | Io (e : io_error)
  | Protocol (msg : list Z)
  | WorkerStopped
  | QueueFull.

(** ** The worker *)
Record TransportWorker := mkWorker {
  w_profile : ConnectionProfile;
  w_ip : Z;
  w_queue : list CubePoint;
  active_generation : Z;
  w_packet_sequence : Z;
  transfer_sequence : Z;
  packet_send_times : list (option Z);
  packet_sample_counts : list Z;
  current_rate : Z;
  w_output_enabled : bool;
  next_send_due : Z;
  next_full_info_due : Z;
  running : bool;
}.

Definition set_queue (q : list CubePoint) (s : TransportWorker) : TransportWorker :=
  mkWorker (w_profile s) (w_ip s) q (active_generation s) (w_packet_sequence s) (transfer_sequence s)
    (packet_send_times s) (packet_sample_counts s) (current_rate s) (w_output_enabled s) (next_send_due s)
    (next_full_info_due s) (running s).

Definition set_active (g : Z) (s : TransportWorker) : TransportWorker :=
  mkWorker (w_profile s) (w_ip s) (w_queue s) g (w_packet_sequence s) (transfer_sequence s) (packet_send_times s)
    (packet_sample_counts s) (current_rate s) (w_output_enabled s) (next_send_due s) (next_full_info_due s)
    (running s).

Definition set_slots (times : list (option Z)) (counts : list Z) (s : TransportWorker) : TransportWorker :=
  mkWorker (w_profile s) (w_ip s) (w_queue s) (active_generation s) (w_packet_sequence s) (transfer_sequence s)
    times counts (current_rate s) (w_output_enabled s) (next_send_due s) (next_full_info_due s) (running s).

Definition set_current_rate (rate : Z) (s : TransportWorker) : TransportWorker :=
  mkWorker (w_profile s) (w_ip s) (w_queue s) (active_generation s) (w_packet_sequence s) (transfer_sequence s)
    (packet_send_times s) (packet_sample_counts s) rate (w_output_enabled s) (next_send_due s)
    (next_full_info_due s) (running s).

Definition set_intent (b : bool) (s : TransportWorker) : TransportWorker :=
  mkWorker (w_profile s) (w_ip s) (w_queue s) (active_generation s) (w_packet_sequence s) (transfer_sequence s)
    (packet_send_times s) (packet_sample_counts s) (current_rate s) b (next_send_due s) (next_full_info_due s)
    (running s).

Definition set_send_due (t : Z) (s : TransportWorker) : TransportWorker :=
  mkWorker (w_profile s) (w_ip s) (w_queue s) (active_generation s) (w_packet_sequence s) (transfer_sequence s)
    (packet_send_times s) (packet_sample_counts s) (current_rate s) (w_output_enabled s) t (next_full_info_due s)
    (running s).

Definition set_full_info_due (t : Z) (s : TransportWorker) : TransportWorker :=
  mkWorker (w_profile s) (w_ip s) (w_queue s) (active_generation s) (w_packet_sequence s) (transfer_sequence s)
    (packet_send_times s) (packet_sample_counts s) (current_rate s) (w_output_enabled s) (next_send_due s) t
    (running s).

Definition set_running (b : bool) (s : TransportWorker) : TransportWorker :=
  mkWorker (w_profile s) (w_ip s) (w_queue s) (active_generation s) (w_packet_sequence s) (transfer_sequence s)
    (packet_send_times s) (packet_sample_counts s) (current_rate s) (w_output_enabled s) (next_send_due s)
    (next_full_info_due s) b.

Definition advance_sequences  (s : TransportWorker) : TransportWorker :=
  mkWorker (w_profile s) (w_ip s) (w_queue s) (active_generation s) (wrapu 8 (w_packet_sequence s + 1))
    (wrapu 8 (transfer_sequence s + 1)) (packet_send_times s) (packet_sample_counts s) (current_rate s)
    (w_output_enabled s) (next_send_due s) (next_full_info_due s) (running s).

(** ** What the two threads share *)
Record Cube := mkCube {
  c_generation : Z;
  c_pending : pending;
  c_priority : list PriorityCommand;
  c_channel : list chunk;
  c_tx_alive : bool;
  c_rx_alive : bool;
  c_state : TransportState;
  c_worker : TransportWorker;
  c_clock : Z;
  c_hops : list (list hop);
  c_cmd_in : list (option (list Z));
  c_data_in : list (option (list Z));
  c_send_ok : list bool;
  c_trace : list event;
}.

Definition upd_generation (g : Z) (s : Cube) : Cube :=
  mkCube g (c_pending s) (c_priority s) (c_channel s) (c_tx_alive s) (c_rx_alive s) (c_state s) (c_worker s)
    (c_clock s) (c_hops s) (c_cmd_in s) (c_data_in s) (c_send_ok s) (c_trace s).

Definition upd_pending (p : pending) (s : Cube) : Cube :=
  mkCube (c_generation s) p (c_priority s) (c_channel s) (c_tx_alive s) (c_rx_alive s) (c_state s) (c_worker s)
    (c_clock s) (c_hops s) (c_cmd_in s) (c_data_in s) (c_send_ok s) (c_trace s).

Definition upd_priority (q : list PriorityCommand) (s : Cube) : Cube :=
  mkCube (c_generation s) (c_pending s) q (c_channel s) (c_tx_alive s) (c_rx_alive s) (c_state s) (c_worker s)
    (c_clock s) (c_hops s) (c_cmd_in s) (c_data_in s) (c_send_ok s) (c_trace s).

Definition upd_channel (q : list chunk) (s : Cube) : Cube :=
  mkCube (c_generation s) (c_pending s) (c_priority s) q (c_tx_alive s) (c_rx_alive s) (c_state s) (c_worker s)
    (c_clock s) (c_hops s) (c_cmd_in s) (c_data_in s) (c_send_ok s) (c_trace s).

Definition upd_tx (b : bool) (s : Cube) : Cube :=
  mkCube (c_generation s) (c_pending s) (c_priority s) (c_channel s) b (c_rx_alive s) (c_state s) (c_worker s)
    (c_clock s) (c_hops s) (c_cmd_in s) (c_data_in s) (c_send_ok s) (c_trace s).

Definition upd_rx (b : bool) (s : Cube) : Cube :=
  mkCube (c_generation s) (c_pending s) (c_priority s) (c_channel s) (c_tx_alive s) b (c_state s) (c_worker s)
    (c_clock s) (c_hops s) (c_cmd_in s) (c_data_in s) (c_send_ok s) (c_trace s).

Definition upd_state (f : TransportState -> TransportState) (s : Cube) : Cube :=
  mkCube (c_generation s) (c_pending s) (c_priority s) (c_channel s) (c_tx_alive s) (c_rx_alive s) (f (c_state s))
    (c_worker s) (c_clock s) (c_hops s) (c_cmd_in s) (c_data_in s) (c_send_ok s) (c_trace s).

Definition upd_worker (f : TransportWorker -> TransportWorker) (s : Cube) : Cube :=
  mkCube (c_generation s) (c_pending s) (c_priority s) (c_channel s) (c_tx_alive s) (c_rx_alive s) (c_state s)
    (f (c_worker s)) (c_clock s) (c_hops s) (c_cmd_in s) (c_data_in s) (c_send_ok s) (c_trace s).

Definition upd_clock (t : Z) (s : Cube) : Cube :=
  mkCube (c_generation s) (c_pending s) (c_priority s) (c_channel s) (c_tx_alive s) (c_rx_alive s) (c_state s)
    (c_worker s) t (c_hops s) (c_cmd_in s) (c_data_in s) (c_send_ok s) (c_trace s).

Definition upd_hops (h : list (list hop)) (s : Cube) : Cube :=
  mkCube (c_generation s) (c_pending s) (c_priority s) (c_channel s) (c_tx_alive s) (c_rx_alive s) (c_state s)
    (c_worker s) (c_clock s) h (c_cmd_in s) (c_data_in s) (c_send_ok s) (c_trace s).

Definition upd_cmd_in (l : list (option (list Z))) (s : Cube) : Cube :=
  mkCube (c_generation s) (c_pending s) (c_priority s) (c_channel s) (c_tx_alive s) (c_rx_alive s) (c_state s)
    (c_worker s) (c_clock s) (c_hops s) l (c_data_in s) (c_send_ok s) (c_trace s).

Definition upd_data_in (l : list (option (list Z))) (s : Cube) : Cube :=
  mkCube (c_generation s) (c_pending s) (c_priority s) (c_channel s) (c_tx_alive s) (c_rx_alive s) (c_state s)
    (c_worker s) (c_clock s) (c_hops s) (c_cmd_in s) l (c_send_ok s) (c_trace s).

Definition upd_send_ok (l : list bool) (s : Cube) : Cube :=
  mkCube (c_generation s) (c_pending s) (c_priority s) (c_channel s) (c_tx_alive s) (c_rx_alive s) (c_state s)
    (c_worker s) (c_clock s) (c_hops s) (c_cmd_in s) (c_data_in s) l (c_trace s).

Definition emit (e : event) (s : Cube) : Cube :=
  mkCube (c_generation s) (c_pending s) (c_priority s) (c_channel s) (c_tx_alive s) (c_rx_alive s) (c_state s)
    (c_worker s) (c_clock s) (c_hops s) (c_cmd_in s) (c_data_in s) (c_send_ok s) (c_trace s ++ [e]).

(** ** The handle's calls ([handle.rs]) *)

Definition points_len (points : list CubePoint) : Z := Z.of_nat (length points).

(** The second half of the call under way: the send into a channel.  A message
    that cannot be sent is dropped, and with it its reservation. *)
Definition finish_call (c : Cube) : Cube * option CommunicationError :=
  let c0 := upd_pending NoPending c in
  match c_pending c with
  | NoPending => (c, None)
  | PendPriority cmd =>
      if c_rx_alive c then (upd_priority (c_priority c ++ [cmd]) c0, None) else (c0, Some WorkerStopped)
  | PendEnqueue rate points =>
      if negb (c_rx_alive c) then (upd_state (release_host_points (points_len points)) c0, Some WorkerStopped)
      else if decide (POINT_QUEUE_CAPACITY <= length (c_channel c))%nat then
        (upd_state (release_host_points (points_len points)) c0, Some QueueFull)
      else (emit (EvAccepted (c_generation c) points)
              (upd_channel (c_channel c ++ [mkChunk (c_generation c) rate points]) c0), None)
  end.

(** [generation.fetch_add(1) + 1], and the message to send. *)
Definition bump (msg : Z -> PriorityCommand) (c : Cube) : Cube :=
  let g := wrapu 64 (c_generation c + 1) in
  emit (EvBump g) (emit (EvRequest false) (upd_pending (PendPriority (msg g)) (upd_generation g c))).

(** The first half of a call. *)
Definition start_call (k : call) (c : Cube) : Cube * option CommunicationError :=
  match k with
  | CallEnqueue rate points =>
      match reserve_host_points (points_len points) (c_state c) with
      | None => (c, Some QueueFull)
      | Some s => (upd_pending (PendEnqueue rate points) (upd_state (fun _ => s) c), None)
      end
  | CallSetOutput true =>
      (emit (EvRequest true) (upd_pending (PendPriority (SetOutput true (c_generation c))) c), None)
  | CallSetOutput false => (bump (SetOutput false) c, None)
  | CallStopOutput => (bump StopOutput c, None)
  | CallShutdown => (bump Shutdown c, None)
  end.

(** A whole call without the worker in between: [enqueue], [set_output],
    [stop_output] and the message of [shutdown]. *)
Definition whole_call (k : call) (c : Cube) : Cube * option CommunicationError :=
  match start_call k c with
  | (c, Some e) => (c, Some e)
  | (c, None) => finish_call c
  end.

(** Start a call once the one under way is finished; none after the drop. *)
Definition next_call (k : call) (c : Cube) : Cube := if c_tx_alive c then (start_call k (finish_call c).1).1 else c.

(** Dropping the handle shuts the worker down first. *)
Definition hop_step (h : hop) (c : Cube) : Cube :=
  match h with
  | HCall k => next_call k c
  | HContinue => (finish_call c).1
  | HDrop => upd_tx false (finish_call (next_call CallShutdown c)).1
  | HTime dt => upd_clock (c_clock c + Z.max 0 dt) c
  end.

Definition interfere (hs : list hop) (c : Cube) : Cube := foldl (fun c h => hop_step h c) c hs.

Definition tick (c : Cube) : Cube :=
  match c_hops c with
  | [] => c
  | hs :: rest => interfere hs (upd_hops rest c)
  end.

(** ** The worker's monad *)
Inductive outcome (A : Type) :=
  | Done (a : A) (c : Cube)
  | Panicked (c : Cube)
  | OutOfFuel (c : Cube).
Arguments Done {A} a c.
Arguments Panicked {A} c.
Arguments OutOfFuel {A} c.

Definition M (A : Type) : Type := Cube -> outcome A.

#[export] Instance M_ret : MRet M := fun A a c => Done a c.

#[export] Instance M_bind : MBind M := fun A B k m c =>
  match m c with
  | Done a c => k a c
  | Panicked c => Panicked c
  | OutOfFuel c => OutOfFuel c
  end.

Notation "m ;;; k" := (mbind (fun _ => k) m) (at level 100, k at level 200, right associativity) : rust_scope.

(** Accesses to the worker's own fields. *)
Definition gets {A} (f : TransportWorker -> A) : M A := fun c => Done (f (c_worker c)) c.
Definition puts (f : TransportWorker -> TransportWorker) : M unit := fun c => Done tt (upd_worker f c).
Definition of_option {A} (o : option A) : M A := fun c => match o with Some a => Done a c | None => Panicked c end.

(** Accesses to what is shared. *)
Definition locked {A} (f : TransportState -> A) : M A := fun c => let c := tick c in Done (f (c_state c)) c.
Definition lock_put (f : TransportState -> TransportState) : M unit := fun c => Done tt (upd_state f (tick c)).
Definition now_ : M Z := fun c => let c := tick c in Done (c_clock c) c.
Definition sleep (d : Z) : M unit := fun c => let c := tick c in Done tt (upd_clock (c_clock c + Z.max 0 d) c).
Definition load_generation : M Z := fun c => let c := tick c in Done (c_generation c) c.

(** The generation check before a burst of packets. *)
Definition check_generation : M bool := fun c =>
  let c := tick c in
  let g := active_generation (c_worker c) in
  Done (g =? c_generation c) (emit (EvCheck g) c).

Inductive received (A : Type) :=
  | Got (a : A)
  | Empty
  | Disconnected.
Arguments Got {A} a.
Arguments Empty {A}.
Arguments Disconnected {A}.

Definition try_recv_priority : M (received PriorityCommand) := fun c =>
  let c := tick c in
  match c_priority c with
  | cmd :: rest => Done (Got cmd) (upd_priority rest c)
  | [] => Done (if c_tx_alive c then Empty else Disconnected) c
  end.

Definition try_recv_chunk : M (received chunk) := fun c =>
  let c := tick c in
  match c_channel c with
  | k :: rest => Done (Got k) (upd_channel rest c)
  | [] => Done (if c_tx_alive c then Empty else Disconnected) c
  end.

(** Sockets: the next oracle result, success when the list is used up; nothing to
    receive when the list of datagrams is used up. *)
Definition next_ok (c : Cube) : bool := default true (head (c_send_ok c)).

Definition send_command (bytes : list Z) : M bool := fun c =>
  let c := tick c in
  let ok := next_ok c in
  Done ok (emit (EvCommand bytes ok) (upd_send_ok (tail (c_send_ok c)) c)).

Definition send_data (points : list CubePoint) (bytes : list Z) : M bool := fun c =>
  let c := tick c in
  let ok := next_ok c in
  Done ok (emit (EvPacket (active_generation (c_worker c)) points bytes ok) (upd_send_ok (tail (c_send_ok c)) c)).

(** The receive buffer holds 1500 bytes. *)
Definition datagram (d : list Z) : list Z := wrapu 8 <$> take 1500 d.

Definition recv_command : M (option (list Z)) := fun c =>
  let c := tick c in
  match c_cmd_in c with
  | [] => Done None c
  | d :: rest => Done (datagram <$> d) (upd_cmd_in rest c)
  end.

Definition recv_data : M (option (list Z)) := fun c =>
  let c := tick c in
  match c_data_in c with
  | [] => Done None c
  | d :: rest => Done (datagram <$> d) (upd_data_in rest c)
  end.

(** ** The worker's operations ([transport.rs], [worker.rs]) *)
Section worker.
Context `{ByteOrder}.

(** [send_repeated]: stops at the first error. *)
Fixpoint send_times (n : nat) (cmd : list Z) : M bool :=
  match n with
  | O => mret true
  | S n => ok ← send_command cmd; if (ok : bool) then send_times n cmd else mret false
  end.

Definition send_repeated (cmd : list Z) : M bool := send_times COMMAND_REPEAT_COUNT cmd.

Definition startup_commands (status : LaserCubeNetworkStatus) (profile : ConnectionProfile) : list (list Z) :=
  [set_output false; enable_buffer_size_response true; set_rate (clamp_point_rate status DEFAULT_POINT_RATE)] ++
  (if threshold_supported status && (remote_buffer_cutoff profile <? buffer_max status)
   then [set_dac_buffer_threshold (wrapu 32 (remote_buffer_cutoff profile))] else []).

Definition full_info_poll_period (enabled : bool) : Z := if enabled then FULL_INFO_POLL_ACTIVE else FULL_INFO_POLL_INACTIVE.

Definition new_worker (now device_ip : Z) (status : LaserCubeNetworkStatus) (profile : ConnectionProfile) : TransportWorker :=
  mkWorker profile device_ip [] 0 0 0 (replicate 256 None) (replicate 256 0)
    (clamp_point_rate status DEFAULT_POINT_RATE) false now (now + FULL_INFO_POLL_INACTIVE) true.

Definition clear_pending_points : M unit := puts (set_queue []);;; lock_put clear_host_queue.

Definition record_output_enabled (enabled : bool) : M unit :=
  lock_put (fun s => set_status (with_output enabled (ts_status s)) s).

(** The common part of every way to turn the output off. *)
Definition output_off (generation : Z) : M unit :=
  puts (set_active generation);;;
  clear_pending_points;;;
  puts (set_intent false);;;
  record_output_enabled false;;;
  send_repeated (set_output false);;;
  mret tt.

Definition set_output_command (enabled : bool) (generation : Z) : M unit :=
  puts (set_active generation);;;
  (if enabled then mret tt else clear_pending_points);;;
  puts (set_intent enabled);;;
  now ← now_;
  puts (set_full_info_due (now + full_info_poll_period enabled));;;
  record_output_enabled enabled;;;
  send_repeated (set_output enabled);;;
  mret tt.

Fixpoint priority_loop (n : nat) : M unit :=
  match n with
  | O => mret tt
  | S n =>
      r ← try_recv_priority;
      match r with
      | Got (SetOutput enabled generation) => set_output_command enabled generation;;; priority_loop n
      | Got (StopOutput generation) => output_off generation;;; priority_loop n
      | Got (Shutdown generation) => output_off generation;;; puts (set_running false)
      | Disconnected => g ← load_generation; output_off g;;; puts (set_running false)
      | Empty => mret tt
      end
  end.

Definition process_priority_commands : M unit := priority_loop MAX_CONTROL_DRAIN_PER_LOOP.

Definition worker_set_rate (rate : Z) : M bool :=
  rate ← locked (fun s => clamp_point_rate (ts_status s) rate);
  ok ← send_repeated (set_rate rate);
  if (ok : bool) then
    puts (set_current_rate rate);;;
    lock_put (fun s => set_rates rate (with_rate rate (ts_status s)) s);;;
    mret true
  else mret false.

(** Drop a chunk with its reservation. *)
Definition discard (k : chunk) : M unit := lock_put (release_host_points (points_len (chunk_points k))).

Definition accept_chunk (k : chunk) : M unit :=
  rate ← gets current_rate;
  (if negb (chunk_rate k =? rate) then worker_set_rate (chunk_rate k);;; mret tt else mret tt);;;
  puts (fun w => set_queue (w_queue w ++ chunk_points k) w).

Definition process_chunk (k : chunk) : M unit :=
  active ← gets active_generation;
  if negb (chunk_generation k =? active) then discard k
  else
    g ← load_generation;
    if negb (chunk_generation k =? g) then discard k else accept_chunk k.

Fixpoint command_loop (n : nat) : M unit :=
  match n with
  | O => mret tt
  | S n =>
      r ← try_recv_chunk;
      match r with
      | Got k => process_chunk k;;; command_loop n
      | Disconnected => clear_pending_points;;; puts (set_running false)
      | Empty => mret tt
      end
  end.

Definition process_commands : M unit := command_loop MAX_CONTROL_DRAIN_PER_LOOP.

(** ** Acknowledgements *)

(** Is [candidate] strictly newer than [last] under u8 wraparound? *)
Definition seq_newer (last candidate : Z) : bool := 0 <? wraps 8 (wrapu 8 (candidate - last)).

Definition in_flight_samples (counts : list Z) : Z := foldr Z.add 0 counts.

(** [while s != sequence]: at most 255 rounds. *)
Fixpoint release_slots (fuel : nat) (s sequence : Z) (times : list (option Z)) (counts : list Z) :
    option (list (option Z) * list Z) :=
  if s =? sequence then Some (times, counts)
  else
    match fuel with
    | O => None
    | S fuel =>
        release_slots fuel (wrapu 8 (s + 1)) sequence (<[Z.to_nat s := None]> times) (<[Z.to_nat s := 0]> counts)
    end.

Definition apply_estimate (now free in_flight : Z) (seq : option Z) (s : TransportState) : TransportState :=
  set_ack now free seq (set_estimate (Z.min (sat_sub free in_flight) (buffer_total s)) now s).

Definition apply_data_ack (now free sequence : Z) : M unit :=
  prev ← locked last_data_ack_sequence;
  times ← gets packet_send_times;
  counts ← gets packet_sample_counts;
  let i := Z.to_nat sequence in
  let rtt := sat_sub now <$> mjoin (times !! i) in
  let times := <[i := None]> times in
  let counts := <[i := 0]> counts in
  puts (set_slots times counts);;;
  match prev with
  | Some p =>
      if negb (seq_newer p sequence) then lock_put (fun s => set_rtt rtt (set_comms now s))
      else
        slots ← of_option (release_slots 256 (wrapu 8 (p + 1)) sequence times counts);
        puts (set_slots slots.1 slots.2);;;
        lock_put (fun s => set_rtt rtt (apply_estimate now free (in_flight_samples slots.2) (Some sequence) s))
  | None =>
      slots ← of_option (release_slots 256 0 sequence times counts);
      puts (set_slots slots.1 slots.2);;;
      lock_put (fun s => set_rtt rtt (apply_estimate now free (in_flight_samples slots.2) (Some sequence) s))
  end.

Definition apply_command_ack (now free : Z) : M unit :=
  counts ← gets packet_sample_counts;
  lock_put (apply_estimate now free (in_flight_samples counts) None).

Definition apply_ack (now : Z) (a : BufferAck) : M unit :=
  match packet_sequence a with
  | Some sequence => apply_data_ack now (free_space a) sequence
  | None => apply_command_ack now (free_space a)
  end.

Definition reconcile_output_enable (reported : bool) : M unit :=
  intent ← gets w_output_enabled;
  if eqb reported intent then mret tt else send_repeated (set_output intent);;; mret tt.

Definition record_command_response (now : Z) (buffer : list Z) : M unit :=
  if decide (length buffer < 2)%nat then mret tt
  else lock_put (fun s => set_comms now (count_response (buffer !!! 1%nat =? 0) s)).

(** One datagram of the command socket; the number of acknowledgements. *)
Definition command_datagram (now : Z) (d : list Z) : M Z :=
  if bool_decide (head d = Some CMD_GET_FULL_INFO) then
    device_ip ← gets w_ip;
    match parse_status d device_ip with
    | IoOk status =>
        lock_put (apply_status status now);;;
        reconcile_output_enable (output_enabled status);;;
        mret 0
    | IoErr _ => mret 0
    end
  else
    match parse_command_ack d with
    | IoOk a => apply_ack now a;;; mret 1
    | IoErr _ => record_command_response now d;;; mret 0
    end.

Fixpoint drain_command (n : nat) (now acks : Z) : M Z :=
  match n with
  | O => mret acks
  | S n =>
      r ← recv_command;
      match r with
      | Some d => k ← command_datagram now d; drain_command n now (acks + k)
      | None => mret acks
      end
  end.

Fixpoint drain_data (n : nat) (now acks : Z) : M Z :=
  match n with
  | O => mret acks
  | S n =>
      r ← recv_data;
      match r with
      | Some d =>
          match parse_data_ack d with
          | IoOk a => apply_ack now a;;; drain_data n now (acks + 1)
          | IoErr _ => drain_data n now acks
          end
      | None => mret acks
      end
  end.

Definition drain_acks (now : Z) : M unit :=
  acks ← drain_command MAX_ACK_DRAIN_PER_LOOP now 0;
  acks ← drain_data MAX_ACK_DRAIN_PER_LOOP now acks;
  if 0 <? acks then lock_put (add_acks acks) else mret tt.

Definition decay_free (now : Z) (s : TransportState) : TransportState :=
  let drained := as_usize (decayed now (last_estimate s) (point_rate s)) in
  if 0 <? drained then set_estimate (Z.min (sat_add 64 (free_estimate s) drained) (buffer_total s)) now s else s.

Definition decay_free_estimate (now : Z) : M unit := lock_put (decay_free now).

(** ** Sending *)

Definition should_continue_topup (free_before total cutoff sent : Z) : bool :=
  sat_add 64 (sat_sub total free_before) sent <? cutoff.

Definition record_send (now sent : Z) (s : TransportState) : TransportState :=
  count_packet sent
    (set_host_queue (sat_sub (host_queue_len s) sent) (set_estimate (sat_sub (free_estimate s) sent) now s)).

(** The packet went out: fill its slot, account for it, advance. *)
Definition packet_sent (now : Z) (before : TransportState) (points : list CubePoint) : M bool :=
  let sent := points_len points in
  puts (fun w => set_slots (<[Z.to_nat (w_packet_sequence w) := Some now]> (packet_send_times w))
                   (<[Z.to_nat (w_packet_sequence w) := wrapu 16 sent]> (packet_sample_counts w)) w);;;
  lock_put (record_send now sent);;;
  puts advance_sequences;;;
  if should_continue_topup (free_estimate before) (buffer_total before) (remote_buffer_cutoff (ts_profile before)) sent then
    puts (set_send_due now);;; mret true
  else
    rate ← gets current_rate;
    d ← of_option (packet_interval sent rate);
    puts (set_send_due (now + d));;;
    mret false.

Definition send_failed (now : Z) (points : list CubePoint) : M bool :=
  lock_put count_send_error;;;
  puts (fun w => set_send_due (now + wait_buffer_sleep (w_profile w)) (set_queue (points ++ w_queue w) w));;;
  mret false.

Definition packet_budget (queued : Z) (s : TransportState) : Z :=
  send_budget (mkPacer queued (free_estimate s) (buffer_total s) (remote_buffer_cutoff (ts_profile s))
    (max_udp_samples_per_packet (ts_profile s))).

Definition send_one_packet (now : Z) : M bool :=
  queue ← gets w_queue;
  before ← locked (fun s => s);
  let queued := points_len queue in
  let budget := packet_budget queued before in
  let intended := Z.min (max_udp_samples_per_packet (ts_profile before)) queued in
  if intended =? 0 then mret false
  else if budget <? intended then
    puts (fun w => set_send_due (now + wait_buffer_sleep (w_profile w)) w);;; mret false
  else
    let points := take (Z.to_nat intended) queue in
    puts (set_queue (drop (Z.to_nat intended) queue));;;
    sequence ← gets w_packet_sequence;
    transfer ← gets transfer_sequence;
    match encode_sample_packet sequence transfer points with
    | IoOk bytes => ok ← send_data points bytes; if (ok : bool) then packet_sent now before points else send_failed now points
    | IoErr _ => send_failed now points
    end.

(** [while now >= next_send_due && !queue.is_empty()]: every round but the last
    sends at least one point, so the queue bounds the rounds. *)
Fixpoint send_loop (fuel : nat) (now : Z) : M unit :=
  due ← gets next_send_due;
  queue ← gets w_queue;
  if (due <=? now) && bool_decide (queue <> []) then
    match fuel with
    | O => OutOfFuel
    | S fuel => more ← send_one_packet now; if (more : bool) then send_loop fuel now else mret tt
    end
  else mret tt.

Definition try_send_due_packet (now : Z) : M unit :=
  current ← check_generation;
  if (current : bool) then queue ← gets w_queue; send_loop (length queue) now else mret tt.

Definition poll_full_info_if_due (now : Z) : M unit :=
  due ← gets next_full_info_due;
  if now <? due then mret tt
  else
    enabled ← gets w_output_enabled;
    puts (set_full_info_due (now + full_info_poll_period enabled));;;
    ok ← send_command get_full_info;
    if (ok : bool) then mret tt else lock_put count_send_error.

(** ** The loop *)

Definition next_wake (now : Z) (w : TransportWorker) : Z :=
  if bool_decide (w_queue w = []) then now + wait_buffer_sleep (w_profile w) else Z.max (next_send_due w) now.

(** The busy wait has no bound of its own: [fuel] is a parameter. *)
Fixpoint sleep_until_precise (fuel : nat) (deadline : Z) : M unit :=
  match fuel with
  | O => OutOfFuel
  | S fuel =>
      now ← now_;
      on ← gets running;
      if (deadline <=? now) || negb on then mret tt
      else
        process_priority_commands;;;
        on ← gets running;
        if negb on then mret tt
        else
          now ← now_;
          if deadline <=? now then mret tt
          else
            let remaining := sat_sub deadline now in
            (if BUSY_WAIT_THRESHOLD <? remaining then sleep (Z.min (sat_sub remaining BUSY_WAIT_THRESHOLD) MAX_IDLE_SLEEP)
             else mret tt);;;
            sleep_until_precise fuel deadline
  end.

Definition iteration (spin : nat) : M unit :=
  now ← now_;
  process_priority_commands;;;
  on ← gets running;
  if negb on then mret tt
  else
    process_commands;;;
    process_priority_commands;;;
    on ← gets running;
    if negb on then mret tt
    else
      drain_acks now;;;
      decay_free_estimate now;;;
      poll_full_info_if_due now;;;
      try_send_due_packet now;;;
      deadline ← gets (next_wake now);
      sleep_until_precise spin deadline.

Fixpoint worker_loop (fuel spin : nat) : M unit :=
  on ← gets running;
  if negb on then mret tt
  else
    match fuel with
    | O => OutOfFuel
    | S fuel => iteration spin;;; worker_loop fuel spin
    end.

Definition drop_receivers : M unit := fun c => Done tt (upd_rx false (tick c)).

Definition worker_run (fuel spin : nat) : M unit :=
  worker_loop fuel spin;;;
  send_repeated (set_output false);;;
  lock_put mark_disconnected;;;
  drop_receivers.
End worker.

(** A freshly connected transport. *)
Definition new_cube (now device_ip : Z) (status : LaserCubeNetworkStatus) (profile : ConnectionProfile)
    (hops : list (list hop)) (cmd_in data_in : list (option (list Z))) (send_ok : list bool) : Cube :=
  mkCube 0 NoPending [] [] true true (new_state now status profile) (new_worker now device_ip status profile) now
    hops cmd_in data_in send_ok [].
