(* ===== verification/CubeFacts.v ===== *)
(** * LaserCube network: what the transport guarantees

    Theorems about [CubeTransport]: which points reach the device and under which
    generation, that output commands follow the requests, the bounds of the
    shared estimates, pacing, and the accounting of acknowledgements. *)

From S2P Require Import Prelude Floats Presentation Point Backend Bytes Estimators LaserCube CubeTransport.

(** ** Specifications of worker programs

    [spec R P m Q]: from a state in [P], [m] ends in [Q] of its result; where it
    panics or runs out of fuel, [R] holds. *)
Definition spec {A} (R P : Cube -> Prop) (m : M A) (Q : A -> Cube -> Prop) : Prop :=
  forall c, P c -> match m c with Done a c' => Q a c' | Panicked c' | OutOfFuel c' => R c' end.

Lemma spec_ret {A} R P (a : A) Q : (forall c, P c -> Q a c) -> spec R P (mret a) Q.
Proof. intros HQ c Hc. by apply HQ. Qed.

Lemma spec_bind {A B} R P (m : M A) (k : A -> M B) Q Q' :
  spec R P m Q -> (forall a, spec R (Q a) (k a) Q') -> spec R P (m ≫= k) Q'.
Proof.
  intros Hm Hk c Hc. specialize (Hm c Hc). unfold mbind, M_bind. destruct (m c) as [a c'|c'|c']; [|done..].
  by apply Hk.
Qed.

Lemma spec_conseq {A} (R P P' : Cube -> Prop) (m : M A) (Q Q' : A -> Cube -> Prop) :
  spec R P m Q -> (forall c, P' c -> P c) -> (forall a c, Q a c -> Q' a c) -> spec R P' m Q'.
Proof. intros Hm HP HQ c Hc. specialize (Hm c (HP c Hc)). destruct (m c); auto. Qed.

Lemma bind_done {A B} (m : M A) (k : A -> M B) c a c' : m c = Done a c' -> (m ≫= k) c = k a c'.
Proof. unfold mbind, M_bind. by intros ->. Qed.

(** ** The other thread leaves the worker and the estimates alone *)

Lemma finish_call_worker c : c_worker (finish_call c).1 = c_worker c.
Proof.
  unfold finish_call. destruct (c_pending c); [done|by destruct (c_rx_alive c)|].
  destruct (negb (c_rx_alive c)); [done|]. by case_decide.
Qed.

Lemma start_call_worker k c : c_worker (start_call k c).1 = c_worker c.
Proof. destruct k as [rate pts|[]| |]; simpl; [by destruct (reserve_host_points _ _)|done..]. Qed.

Lemma next_call_worker k c : c_worker (next_call k c) = c_worker c.
Proof. unfold next_call. destruct (c_tx_alive c); [|done]. by rewrite start_call_worker, finish_call_worker. Qed.

Lemma hop_worker h c : c_worker (hop_step h c) = c_worker c.
Proof.
  destruct h as [k| | |dt]; simpl; [apply next_call_worker|apply finish_call_worker| |done].
  by rewrite finish_call_worker, next_call_worker.
Qed.

(** Induction over the blocks of the other thread. *)
Lemma tick_ind (P : Cube -> Prop) c :
  (forall h c, P c -> P (hop_step h c)) -> (forall hs c, P c -> P (upd_hops hs c)) -> P c -> P (tick c).
Proof.
  intros Hh Hu HP. unfold tick. destruct (c_hops c) as [|hs rest]; [done|].
  unfold interfere. generalize (Hu rest c HP). generalize (upd_hops rest c). clear -Hh.
  induction hs as [|h hs IH]; intros c Hc; [done|]. simpl. apply IH. by apply Hh.
Qed.

Lemma tick_worker c : c_worker (tick c) = c_worker c.
Proof.
  apply (tick_ind (fun c' => c_worker c' = c_worker c)); [|done|done].
  intros h c' Hc. by rewrite hop_worker.
Qed.

(** The estimates of the state: everything but the host queue counter. *)
Definition same_estimates (s s' : TransportState) : Prop :=
  free_estimate s' = free_estimate s /\ buffer_total s' = buffer_total s /\ point_rate s' = point_rate s /\
  ts_profile s' = ts_profile s /\ last_data_ack_sequence s' = last_data_ack_sequence s /\
  host_queue_capacity s' = host_queue_capacity s /\ connected s' = connected s.

Lemma finish_call_estimates c : same_estimates (c_state c) (c_state (finish_call c).1).
Proof.
  unfold finish_call. destruct (c_pending c); [done|by destruct (c_rx_alive c)|].
  destruct (negb (c_rx_alive c)); [done|]. by case_decide.
Qed.

Lemma start_call_estimates k c : same_estimates (c_state c) (c_state (start_call k c).1).
Proof.
  destruct k as [rate pts|[]| |]; simpl; [|done..]. unfold reserve_host_points. by destruct (_ <? _).
Qed.

Lemma same_estimates_trans s1 s2 s3 : same_estimates s1 s2 -> same_estimates s2 s3 -> same_estimates s1 s3.
Proof. unfold same_estimates. intuition congruence. Qed.

Lemma next_call_estimates k c : same_estimates (c_state c) (c_state (next_call k c)).
Proof.
  unfold next_call. destruct (c_tx_alive c); [|done].
  eapply same_estimates_trans; [apply finish_call_estimates|apply start_call_estimates].
Qed.

Lemma hop_estimates h c : same_estimates (c_state c) (c_state (hop_step h c)).
Proof.
  destruct h as [k| | |dt]; simpl; [apply next_call_estimates|apply finish_call_estimates| |done].
  eapply same_estimates_trans; [apply next_call_estimates|apply finish_call_estimates].
Qed.

Lemma tick_estimates c : same_estimates (c_state c) (c_state (tick c)).
Proof.
  apply (tick_ind (fun c' => same_estimates (c_state c) (c_state c'))); [|done|done].
  intros h c' Hc. eapply same_estimates_trans; [exact Hc|apply hop_estimates].
Qed.

(** ** Bounds of the shared state *)
Record state_wf (s : TransportState) : Prop := {
  wf_host : 0 <= host_queue_len s <= host_queue_capacity s;
  wf_free : 0 <= free_estimate s <= buffer_total s;
  wf_total : 0 < buffer_total s <= 65535;
  wf_rate : 1 <= point_rate s;
}.

(** State updates that keep the bounds and the capacity. *)
Definition sound (f : TransportState -> TransportState) : Prop :=
  (forall s, state_wf s -> state_wf (f s)) /\ forall s, host_queue_capacity (f s) = host_queue_capacity s.

Lemma release_sound n : 0 <= n -> sound (release_host_points n).
Proof. intros Hn. split; [|done]. intros s []. split; simpl; try done. unfold sat_sub. lia. Qed.

Lemma reserve_wf n s s' : 0 <= n -> reserve_host_points n s = Some s' -> state_wf s -> host_queue_capacity s < umax 64 -> state_wf s'.
Proof.
  unfold reserve_host_points. intros Hn Hr Hs Hc. destruct (Z.ltb_spec (host_queue_capacity s) (sat_add 64 (host_queue_len s) n)); [done|].
  injection Hr as <-. destruct Hs. split; simpl; try done. unfold sat_add, umax in *. lia.
Qed.

Lemma points_len_nonneg pts : 0 <= points_len pts.
Proof. unfold points_len. lia. Qed.

#[local] Hint Resolve points_len_nonneg release_sound : lasers.

(** With a capacity below the largest machine word. *)
Definition bounded (c : Cube) : Prop := state_wf (c_state c) /\ host_queue_capacity (c_state c) < umax 64.

Lemma finish_call_bounded c : bounded c -> bounded (finish_call c).1.
Proof.
  intros [Hs Hc]. unfold finish_call. destruct (c_pending c) as [|cmd|rate pts]; [done|by destruct (c_rx_alive c)|].
  assert (Hr : state_wf (release_host_points (points_len pts) (c_state c))) by (apply release_sound; auto with lasers).
  destruct (negb (c_rx_alive c)); [by split|]. by case_decide; split.
Qed.

Lemma start_call_bounded k c : bounded c -> bounded (start_call k c).1.
Proof.
  intros [Hs Hc]. destruct k as [rate pts|[]| |]; simpl; try by split.
  destruct (reserve_host_points _ _) as [s|] eqn:Hr; [|by split]. split; simpl.
  - by apply (reserve_wf _ _ _ (points_len_nonneg pts) Hr).
  - unfold reserve_host_points in Hr. destruct (_ <? _); [done|]. by injection Hr as <-.
Qed.

Lemma hop_bounded h c : bounded c -> bounded (hop_step h c).
Proof.
  intros Hc. assert (Hn : forall k, bounded (next_call k c)).
  { intros k. unfold next_call. destruct (c_tx_alive c); [|done]. by apply start_call_bounded, finish_call_bounded. }
  destruct h as [k| | |dt]; simpl; [done|by apply finish_call_bounded|by apply (finish_call_bounded (next_call CallShutdown c))|done].
Qed.

Lemma tick_bounded c : bounded c -> bounded (tick c).
Proof. apply tick_ind; [apply hop_bounded|done]. Qed.

(** ** Programs that only touch what they are entitled to

    A predicate is [stable] when the other thread, sound state updates, worker
    fields other than the queue, the active generation and the intent, and command
    datagrams in line with the intent all keep it.  A [quiet] program keeps every
    stable predicate. *)
Definition minor (f : TransportWorker -> TransportWorker) : Prop := forall w,
  w_queue (f w) = w_queue w /\ active_generation (f w) = active_generation w /\ w_output_enabled (f w) = w_output_enabled w.

Record stable (P : Cube -> Prop) : Prop := {
  st_tick c : P c -> P (tick c);
  st_state f c : sound f -> P c -> P (upd_state f c);
  st_worker f c : minor f -> P c -> P (upd_worker f c);
  st_command bs ok c :
    (forall b, bs = set_output b -> b = w_output_enabled (c_worker c)) -> P c -> P (emit (EvCommand bs ok) c);
  st_clock t c : P c -> P (upd_clock t c);
  st_send_ok l c : P c -> P (upd_send_ok l c);
  st_cmd_in l c : P c -> P (upd_cmd_in l c);
  st_data_in l c : P c -> P (upd_data_in l c);
}.

Definition quiet {A} (m : M A) (Q : A -> Prop) : Prop :=
  forall P, stable P -> spec P P m (fun a c => Q a /\ P c).

Definition anything {A} : A -> Prop := fun _ => True.

Lemma quiet_ret {A} (a : A) (Q : A -> Prop) : Q a -> quiet (mret a) Q.
Proof. intros HQ P HP c Hc. by split. Qed.

Lemma quiet_bind {A B} (m : M A) (k : A -> M B) Q Q' :
  quiet m Q -> (forall a, Q a -> quiet (k a) Q') -> quiet (m ≫= k) Q'.
Proof.
  intros Hm Hk P HP. eapply spec_bind; [apply Hm, HP|]. intros a c [Ha Hc]. by apply (Hk a Ha P HP).
Qed.

Lemma quiet_any {A} (m : M A) Q : quiet m Q -> quiet m anything.
Proof. intros Hm P HP. eapply spec_conseq; [by apply Hm|done|]. intros a c [_ Hc]. by split. Qed.

Lemma quiet_gets {A} (f : TransportWorker -> A) : quiet (gets f) anything.
Proof. intros P HP c Hc. by split. Qed.

Lemma quiet_puts f : minor f -> quiet (puts f) anything.
Proof. intros Hf P HP c Hc. split; [done|]. by apply st_worker. Qed.

Lemma quiet_locked {A} (f : TransportState -> A) (Q : A -> Prop) : (forall s, Q (f s)) -> quiet (locked f) Q.
Proof. intros HQ P HP c Hc. split; [apply HQ|]. by apply st_tick. Qed.

Lemma quiet_lock_put f : sound f -> quiet (lock_put f) anything.
Proof. intros Hf P HP c Hc. split; [done|]. by apply st_state, st_tick. Qed.

Lemma quiet_now : quiet now_ anything.
Proof. intros P HP c Hc. split; [done|]. by apply st_tick. Qed.

Lemma quiet_sleep d : quiet (sleep d) anything.
Proof. intros P HP c Hc. split; [done|]. by apply st_clock, st_tick. Qed.

Lemma quiet_load : quiet load_generation anything.
Proof. intros P HP c Hc. split; [done|]. by apply st_tick. Qed.

Lemma quiet_of_option {A} (o : option A) : quiet (of_option o) anything.
Proof. intros P HP c Hc. by destruct o. Qed.

(** Datagrams are bytes. *)
Definition are_bytes (d : list Z) : Prop := Forall (fun b => 0 <= b < 256) d.

Lemma datagram_bytes d : are_bytes (datagram d).
Proof. unfold datagram, are_bytes. apply Forall_fmap, Forall_true. intros b. apply Z.mod_pos_bound. lia. Qed.

Definition received_bytes (r : option (list Z)) : Prop := match r with Some d => are_bytes d | None => True end.

Lemma quiet_recv_command : quiet recv_command received_bytes.
Proof.
  intros P HP c Hc. apply (st_tick P HP) in Hc. unfold recv_command. destruct (c_cmd_in (tick c)) as [|d rest]; [done|].
  split; [|by apply st_cmd_in]. destruct d as [d|]; [apply datagram_bytes|done].
Qed.

Lemma quiet_recv_data : quiet recv_data received_bytes.
Proof.
  intros P HP c Hc. apply (st_tick P HP) in Hc. unfold recv_data. destruct (c_data_in (tick c)) as [|d rest]; [done|].
  split; [|by apply st_data_in]. destruct d as [d|]; [apply datagram_bytes|done].
Qed.

(** A command that is no output command. *)
Lemma quiet_send_command bs : (forall b, bs <> set_output b) -> quiet (send_command bs) anything.
Proof.
  intros Hbs P HP c Hc. apply (st_tick P HP) in Hc. split; [done|]. apply st_command; [done| |by apply st_send_ok].
  intros b Hb. by destruct (Hbs b).
Qed.

Lemma quiet_send_repeated bs : (forall b, bs <> set_output b) -> quiet (send_repeated bs) anything.
Proof.
  intros Hbs. unfold send_repeated. induction COMMAND_REPEAT_COUNT as [|n IH]; simpl; [by apply quiet_ret|].
  eapply quiet_bind; [by apply quiet_send_command|]. intros [] _; [done|by apply quiet_ret].
Qed.

(** Restating the intent is quiet. *)
Lemma stable_intent P b : stable P -> stable (fun c => P c /\ w_output_enabled (c_worker c) = b).
Proof.
  intros HP. split; [|intros f c|intros f c Hf [Hc Hb]|..]; intros; destruct_and?;
    try (split; [by apply HP|]); [by rewrite tick_worker|done| |done..].
  simpl. by destruct (Hf (c_worker c)) as (_ & _ & ->).
Qed.

Lemma send_output_stable P b n : stable P ->
  let P' := fun c => P c /\ w_output_enabled (c_worker c) = b in
  spec P' P' (send_times n (set_output b)) (fun _ => P').
Proof.
  intros HP P'. assert (HP' : stable P') by (by apply stable_intent).
  induction n as [|n IH]; simpl; [by apply spec_ret|]. eapply spec_bind with (Q := fun _ => P').
  - intros c Hc. apply (st_tick _ HP') in Hc.
    change (P' (emit (EvCommand (set_output b) (next_ok (tick c))) (upd_send_ok (tail (c_send_ok (tick c))) (tick c)))).
    apply (st_command P' HP'); [|by apply (st_send_ok P' HP')]. intros b' Hb. destruct Hc as [_ Hi]. simpl. rewrite Hi. unfold set_output in Hb. by destruct b, b'.
  - intros []; [done|by apply spec_ret].
Qed.

Lemma quiet_reconcile reported : quiet (reconcile_output_enable reported) anything.
Proof.
  intros P HP. unfold reconcile_output_enable.
  eapply spec_bind with (Q := fun b c => P c /\ w_output_enabled (c_worker c) = b); [by intros c Hc|].
  intros b. destruct (eqb reported b); [apply spec_ret; intros c [Hc _]; by split|].
  assert (Hs := send_output_stable P b COMMAND_REPEAT_COUNT HP).
  intros c Hc. specialize (Hs c Hc). unfold mbind, M_bind, send_repeated.
  destruct (send_times _ _ c) as [a c'|c'|c']; destruct Hs; by repeat split.
Qed.

(** One step of a quietness proof. *)
Ltac quiet_step :=
  first [apply quiet_ret; done | apply quiet_gets | apply quiet_now | apply quiet_sleep | apply quiet_load
        |apply quiet_of_option | apply quiet_reconcile | apply quiet_recv_command | apply quiet_recv_data
        |apply quiet_puts; by intros ? | apply quiet_lock_put
        |eapply quiet_bind; [|intros ? ?]].
Ltac quieten := repeat quiet_step.

(** ** Sound state updates *)

(** An update of fields without bounds. *)
Ltac sound_trivial := split; [by intros s []; split|done].

Lemma estimate_sound free in_flight now seq : sound (apply_estimate now free in_flight seq).
Proof. split; [|done]. intros s []. split; simpl; try done. unfold sat_sub. lia. Qed.

Lemma rtt_sound rtt f : sound f -> sound (fun s => set_rtt rtt (f s)).
Proof.
  intros [Hf Hc]. split; [|intros s; apply Hc]. intros s Hs. by destruct (Hf s Hs).
Qed.

Lemma clear_sound : sound clear_host_queue.
Proof. split; [|done]. intros s []. split; simpl; try done. lia. Qed.

Lemma clamp_positive st rate : 1 <= clamp_point_rate st rate.
Proof. unfold clamp_point_rate, resolved_point_rate_max, DEFAULT_POINT_RATE. destruct (Z.ltb_spec 0 (point_rate_max st)); lia. Qed.

Lemma rates_sound rate : 1 <= rate -> sound (fun s => set_rates rate (with_rate rate (ts_status s)) s).
Proof. intros Hr. split; [|done]. intros s []. by split. Qed.

Lemma decay_sound now : sound (decay_free now).
Proof.
  split; [|intros s; unfold decay_free; by destruct (_ <? _)]. intros s Hs. unfold decay_free.
  destruct (Z.ltb_spec 0 (as_usize (decayed now (last_estimate s) (point_rate s)))); [|done].
  destruct Hs. split; simpl; try done. unfold sat_add, umax. lia.
Qed.

Lemma total_from_max_range m : m < 2 ^ 16 -> 0 < buffer_total_from_max m <= 65535.
Proof. unfold buffer_total_from_max, DEFAULT_BUFFER_CAPACITY. intros. destruct (Z.ltb_spec 0 m); lia. Qed.

Lemma status_sound st now : 0 <= buffer_free st -> buffer_max st < 2 ^ 16 -> sound (apply_status st now).
Proof.
  intros Hf Hm. split; [|done]. intros s []. pose proof (total_from_max_range _ Hm).
  split; simpl; try done; try lia. pose proof (clamp_positive st (status_point_rate st)). by destruct (0 <? status_point_rate st).
Qed.

Lemma record_send_sound now sent : 0 <= sent -> sound (record_send now sent).
Proof. intros Hn. split; [|done]. intros s []. split; simpl; try done; unfold sat_sub; lia. Qed.

(** ** Quiet operations *)
Section quiet_operations.
Context `{ByteOrder}.

Lemma le_at_range n i bs : are_bytes bs -> 0 <= le_at n i bs < 256 ^ Z.of_nat n.
Proof.
  intros Hb. unfold le_at. rewrite read_le_spec. case_decide as Hl; [|split; [done|apply Z.pow_pos_nonneg; lia]].
  pose proof (le_value_range (take n (drop i bs))) as Hr.
  rewrite length_take, Nat.min_l in Hr by done. apply Hr. by apply Forall_take, Forall_drop.
Qed.

Lemma parse_status_range d addr st :
  are_bytes d -> parse_status d addr = IoOk st -> 0 <= buffer_free st /\ buffer_max st < 2 ^ 16.
Proof.
  intros Hb. unfold parse_status. case_decide; [done|].
  destruct (negb (d !!! 0%nat =? _)); [done|]. destruct (negb (d !!! 1%nat =? 0)); [done|].
  destruct (negb (d !!! 2%nat =? 0)); [done|].
  pose proof (le_at_range 2 19 d Hb). pose proof (le_at_range 2 21 d Hb).
  destruct ((0 <? d !!! 3%nat) || (13 <=? d !!! 4%nat)); intros [= <-]; cbn [buffer_free buffer_max]; lia.
Qed.

Lemma quiet_set_rate rate : quiet (worker_set_rate rate) anything.
Proof.
  unfold worker_set_rate. eapply quiet_bind; [apply (quiet_locked _ (fun r => 1 <= r)); intros s; apply clamp_positive|].
  intros r Hr. eapply quiet_bind; [by apply quiet_send_repeated|]. intros [] _; quieten; by apply rates_sound || done.
Qed.

Lemma quiet_discard k : quiet (discard k) anything.
Proof. apply quiet_lock_put. auto with lasers. Qed.

Lemma quiet_data_ack now free sequence : quiet (apply_data_ack now free sequence) anything.
Proof.
  unfold apply_data_ack. eapply quiet_bind; [by apply (quiet_locked _ anything)|]. intros prev _.
  eapply quiet_bind; [apply quiet_gets|]. intros times _. eapply quiet_bind; [apply quiet_gets|]. intros counts _.
  eapply quiet_bind; [by apply quiet_puts|]. intros [] _.
  destruct prev as [p|]; [destruct (negb (seq_newer p sequence))|]; quieten; apply rtt_sound;
    apply estimate_sound || sound_trivial.
Qed.

Lemma quiet_apply_ack now a : quiet (apply_ack now a) anything.
Proof.
  unfold apply_ack. destruct (packet_sequence a); [apply quiet_data_ack|].
  unfold apply_command_ack. quieten. apply estimate_sound.
Qed.

Lemma quiet_command_datagram now d : are_bytes d -> quiet (command_datagram now d) anything.
Proof.
  intros Hb. unfold command_datagram. destruct (bool_decide _).
  - eapply quiet_bind; [apply quiet_gets|]. intros addr _. destruct (parse_status d addr) as [st|e] eqn:Hp; [|by apply quiet_ret].
    destruct (parse_status_range _ _ _ Hb Hp). quieten. by apply status_sound.
  - destruct (parse_command_ack d) as [a|e]; (apply (quiet_bind _ _ anything); [|intros ? _; by apply quiet_ret]);
      [apply quiet_apply_ack|]. unfold record_command_response. case_decide; [by apply quiet_ret|].
    apply quiet_lock_put. sound_trivial.
Qed.

Lemma quiet_drain_command n now : forall acks, quiet (drain_command n now acks) anything.
Proof.
  induction n as [|n IH]; intros acks; simpl; [by apply quiet_ret|].
  eapply quiet_bind; [apply quiet_recv_command|]. intros [d|] Hd; [|by apply quiet_ret].
  eapply quiet_bind; [by apply quiet_command_datagram|]. intros k _. apply IH.
Qed.

Lemma quiet_drain_data n now : forall acks, quiet (drain_data n now acks) anything.
Proof.
  induction n as [|n IH]; intros acks; simpl; [by apply quiet_ret|].
  eapply quiet_bind; [apply quiet_recv_data|]. intros [d|] Hd; [|by apply quiet_ret].
  destruct (parse_data_ack d); [|apply IH]. eapply quiet_bind; [apply quiet_apply_ack|]. intros ? _. apply IH.
Qed.

Lemma quiet_drain_acks now : quiet (drain_acks now) anything.
Proof.
  unfold drain_acks. eapply quiet_bind; [apply quiet_drain_command|]. intros acks _.
  eapply quiet_bind; [apply quiet_drain_data|]. intros acks' _. destruct (_ <? _); quieten. sound_trivial.
Qed.

Lemma quiet_decay now : quiet (decay_free_estimate now) anything.
Proof. apply quiet_lock_put, decay_sound. Qed.

Lemma quiet_poll now : quiet (poll_full_info_if_due now) anything.
Proof.
  unfold poll_full_info_if_due. eapply quiet_bind; [apply quiet_gets|]. intros due _. destruct (_ <? _); [by apply quiet_ret|].
  eapply quiet_bind; [apply quiet_gets|]. intros b _. eapply quiet_bind; [by apply quiet_puts|]. intros ? _.
  eapply quiet_bind; [by apply quiet_send_command|]. intros [] _; quieten. sound_trivial.
Qed.

Lemma quiet_packet_sent now before pts : quiet (packet_sent now before pts) anything.
Proof.
  unfold packet_sent. eapply quiet_bind; [by apply quiet_puts|]. intros ? _.
  eapply quiet_bind; [apply quiet_lock_put, record_send_sound, points_len_nonneg|]. intros ? _.
  eapply quiet_bind; [by apply quiet_puts|]. intros ? _. destruct (should_continue_topup _ _ _ _); quieten.
Qed.
End quiet_operations.

(** ** The loop

    What the priority commands, the chunks and the sends keep, the loop keeps. *)
Section loop.
Context `{ByteOrder}.

Definition keeps {A} (P : Cube -> Prop) (m : M A) : Prop := spec P P m (fun _ => P).

Lemma keeps_seq {A B} P (m : M A) (k : A -> M B) : keeps P m -> (forall a, keeps P (k a)) -> keeps P (m ≫= k).
Proof. apply spec_bind. Qed.

Lemma keeps_ret {A} P (a : A) : keeps P (mret a).
Proof. by apply spec_ret. Qed.

Lemma keeps_quiet {A} P (m : M A) Q : stable P -> quiet m Q -> keeps P m.
Proof. intros HP Hm. eapply spec_conseq; [by apply Hm|done|]. by intros a c [_ Hc]. Qed.

Lemma keeps_gets {A} P (f : TransportWorker -> A) : keeps P (gets f).
Proof. by intros c Hc. Qed.

Record loop_ok (P : Cube -> Prop) : Prop := {
  lo_stable : stable P;
  lo_priority n : keeps P (priority_loop n);
  lo_commands n : keeps P (command_loop n);
  lo_send now : keeps P (try_send_due_packet now);
  lo_running b : keeps P (puts (set_running b));
}.

Lemma sleep_keeps P fuel : loop_ok P -> forall deadline, keeps P (sleep_until_precise fuel deadline).
Proof.
  intros HP. assert (HS := lo_stable P HP). induction fuel as [|fuel IH]; intros deadline; simpl; [by intros c Hc|].
  apply keeps_seq; [by eapply keeps_quiet, quiet_now|]. intros now. apply keeps_seq; [apply keeps_gets|]. intros on.
  destruct (_ || _); [apply keeps_ret|]. apply keeps_seq; [by apply lo_priority|]. intros ?.
  apply keeps_seq; [apply keeps_gets|]. intros on'. destruct (negb on'); [apply keeps_ret|].
  apply keeps_seq; [by eapply keeps_quiet, quiet_now|]. intros now'. destruct (_ <=? _); [apply keeps_ret|].
  apply keeps_seq; [destruct (_ <? _); [by eapply keeps_quiet, quiet_sleep|apply keeps_ret]|]. intros ?. apply IH.
Qed.

Lemma iteration_keeps P spin : loop_ok P -> keeps P (iteration spin).
Proof.
  intros HP. assert (HS := lo_stable P HP). unfold iteration, process_priority_commands, process_commands.
  apply keeps_seq; [by eapply keeps_quiet, quiet_now|]. intros now.
  apply keeps_seq; [by apply lo_priority|]. intros ?. apply keeps_seq; [apply keeps_gets|]. intros on.
  destruct (negb on); [apply keeps_ret|]. apply keeps_seq; [by apply lo_commands|]. intros ?.
  apply keeps_seq; [by apply lo_priority|]. intros ?. apply keeps_seq; [apply keeps_gets|]. intros on'.
  destruct (negb on'); [apply keeps_ret|].
  apply keeps_seq; [by eapply keeps_quiet, quiet_drain_acks|]. intros ?.
  apply keeps_seq; [by eapply keeps_quiet, quiet_decay|]. intros ?.
  apply keeps_seq; [by eapply keeps_quiet, quiet_poll|]. intros ?.
  apply keeps_seq; [by apply lo_send|]. intros ?. apply keeps_seq; [apply keeps_gets|]. intros deadline.
  by apply sleep_keeps.
Qed.

Lemma worker_loop_keeps P spin fuel : loop_ok P -> keeps P (worker_loop fuel spin).
Proof.
  intros HP. induction fuel as [|fuel IH]; simpl; (apply keeps_seq; [apply keeps_gets|]; intros on);
    (destruct (negb on); [apply keeps_ret|]); [by intros c Hc|].
  apply keeps_seq; [by apply iteration_keeps|]. intros ?. apply IH.
Qed.

(** ** Predicates that do not look at the worker, the channels or the trace *)
Record loose (P : Cube -> Prop) : Prop := {
  ls_tick c : P c -> P (tick c);
  ls_state f c : sound f -> P c -> P (upd_state f c);
  ls_other c c' : c_state c' = c_state c -> P c -> P c';
}.

Lemma loose_stable P : loose P -> stable P.
Proof.
  intros HP. split; [apply ls_tick, HP|apply ls_state, HP|..]; intros; by apply (ls_other P HP c).
Qed.

Lemma loose_keeps_other {A} P (m : M A) :
  loose P -> (forall c, exists a c', m c = Done a c' /\ c_state c' = c_state (tick c)) -> keeps P m.
Proof.
  intros HP Hm c Hc. destruct (Hm c) as (a & c' & -> & Hs). eapply (ls_other P HP); [exact Hs|]. by apply ls_tick.
Qed.

Lemma loose_puts P f : loose P -> keeps P (puts f).
Proof. intros HP c Hc. by apply (ls_other P HP c). Qed.

Lemma loose_send_command P bs : loose P -> keeps P (send_command bs).
Proof. intros HP. apply loose_keeps_other; [done|]. intros c. unfold send_command. eauto. Qed.

Lemma loose_send_repeated P bs : loose P -> keeps P (send_repeated bs).
Proof.
  intros HP. unfold send_repeated. induction COMMAND_REPEAT_COUNT as [|n IH]; simpl; [apply keeps_ret|].
  apply keeps_seq; [by apply loose_send_command|]. intros []; [done|apply keeps_ret].
Qed.

Ltac loose_step :=
  first [apply keeps_ret | apply keeps_gets | apply loose_puts; assumption | apply loose_send_repeated; assumption
        |eapply keeps_quiet; [by apply loose_stable|first [apply quiet_lock_put | apply quiet_now | apply quiet_load]]
        |apply keeps_seq; [|intros ?]].

Lemma output_sound b : sound (fun s => set_status (with_output b (ts_status s)) s).
Proof. sound_trivial. Qed.

Lemma loose_output_off P g : loose P -> keeps P (output_off g).
Proof.
  intros HP. unfold output_off, clear_pending_points, record_output_enabled.
  repeat loose_step; apply clear_sound || apply output_sound.
Qed.

Lemma loose_set_output P b g : loose P -> keeps P (set_output_command b g).
Proof.
  intros HP. unfold set_output_command, clear_pending_points, record_output_enabled.
  destruct b; repeat loose_step; apply clear_sound || apply output_sound.
Qed.

Lemma loose_priority P n : loose P -> keeps P (priority_loop n).
Proof.
  intros HP. induction n as [|n IH]; simpl; [apply keeps_ret|]. apply keeps_seq.
  { apply loose_keeps_other; [done|]. intros c. unfold try_recv_priority. destruct (c_priority (tick c)); eauto. }
  intros [[b g|g|g]| |].
  - apply keeps_seq; [by apply loose_set_output|]. intros ?. exact IH.
  - apply keeps_seq; [by apply loose_output_off|]. intros ?. exact IH.
  - apply keeps_seq; [by apply loose_output_off|]. intros ?. by apply loose_puts.
  - apply keeps_ret.
  - apply keeps_seq; [by eapply keeps_quiet, quiet_load; apply loose_stable|]. intros g.
    apply keeps_seq; [by apply loose_output_off|]. intros ?. by apply loose_puts.
Qed.

(** Predicates that may look at the intent and at the output commands, but not at
    the queue or the packets. *)
Record mild (P : Cube -> Prop) : Prop := {
  ml_stable : stable P;
  ml_worker f c : (forall w, w_output_enabled (f w) = w_output_enabled w) -> P c -> P (upd_worker f c);
  ml_emit e c : match e with EvCheck _ | EvPacket _ _ _ _ => True | _ => False end -> P c -> P (emit e c);
  ml_channel q c : P c -> P (upd_channel q c);
}.

Lemma loose_mild P : loose P -> mild P.
Proof. intros HP. split; [by apply loose_stable|..]; intros; by apply (ls_other P HP c). Qed.

Lemma mild_puts P f : mild P -> (forall w, w_output_enabled (f w) = w_output_enabled w) -> keeps P (puts f).
Proof. intros HP Hf c Hc. exact (ml_worker P HP f c Hf Hc). Qed.

Lemma mild_commands P n : mild P -> keeps P (command_loop n).
Proof.
  intros HP. assert (HS := ml_stable P HP). induction n as [|n IH]; simpl; [apply keeps_ret|]. apply keeps_seq.
  { intros c Hc. apply (st_tick P HS) in Hc. unfold try_recv_chunk. destruct (c_channel (tick c)) as [|k rest]; [done|exact (ml_channel P HP rest _ Hc)]. }
  intros [k| |]; [|apply keeps_ret|].
  - apply keeps_seq; [|intros ?; exact IH]. unfold process_chunk. apply keeps_seq; [apply keeps_gets|]. intros active.
    destruct (negb _); [by eapply keeps_quiet, quiet_discard|]. apply keeps_seq; [by eapply keeps_quiet, quiet_load|].
    intros g. destruct (negb _); [by eapply keeps_quiet, quiet_discard|]. unfold accept_chunk.
    apply keeps_seq; [apply keeps_gets|]. intros rate. apply keeps_seq; [|intros ?; by apply mild_puts].
    destruct (negb _); [|apply keeps_ret]. apply keeps_seq; [by eapply keeps_quiet, quiet_set_rate|]. intros ?. apply keeps_ret.
  - apply keeps_seq; [|intros ?; by apply mild_puts]. unfold clear_pending_points.
    apply keeps_seq; [by apply mild_puts|]. intros ?. by eapply keeps_quiet, quiet_lock_put, clear_sound.
Qed.

Lemma mild_send_one P now : mild P -> keeps P (send_one_packet now).
Proof.
  intros HP. assert (HS := ml_stable P HP). unfold send_one_packet. apply keeps_seq; [apply keeps_gets|]. intros queue.
  apply keeps_seq; [by eapply keeps_quiet, (quiet_locked _ anything)|]. intros before.
  destruct (_ =? 0); [apply keeps_ret|].
  destruct (_ <? _); [apply keeps_seq; [by apply mild_puts|]; intros ?; apply keeps_ret|].
  do 3 (apply keeps_seq; [apply keeps_gets || by apply mild_puts|]; intros ?).
  assert (Hfail : forall pts, keeps P (send_failed now pts)).
  { intros pts. unfold send_failed. apply keeps_seq; [eapply keeps_quiet, quiet_lock_put; [done|sound_trivial]|]. intros ?.
    apply keeps_seq; [by apply mild_puts|]. intros ?. apply keeps_ret. }
  destruct (encode_sample_packet _ _ _) as [bytes|e]; [|apply Hfail]. apply keeps_seq.
  { intros c Hc. apply (st_tick P HS) in Hc. refine (ml_emit P HP (EvPacket _ _ _ _) _ I _). exact (st_send_ok P HS _ _ Hc). }
  intros []; [by eapply keeps_quiet, quiet_packet_sent|apply Hfail].
Qed.

Lemma mild_send P now : mild P -> keeps P (try_send_due_packet now).
Proof.
  intros HP. unfold try_send_due_packet. apply keeps_seq.
  { intros c Hc. refine (ml_emit P HP (EvCheck _) _ I _). by apply st_tick; [apply ml_stable|]. }
  intros []; [|apply keeps_ret]. apply keeps_seq; [apply keeps_gets|]. intros queue.
  induction (length queue) as [|fuel IH]; simpl; (apply keeps_seq; [apply keeps_gets|]; intros due);
    (apply keeps_seq; [apply keeps_gets|]; intros q); (destruct (_ && _); [|apply keeps_ret]); [by intros c Hc|].
  apply keeps_seq; [by apply mild_send_one|]. intros []; [exact IH|apply keeps_ret].
Qed.

Lemma loose_loop_ok P : loose P -> loop_ok P.
Proof.
  intros HP. assert (HM := loose_mild P HP).
  split; [by apply loose_stable|intros; by apply loose_priority|intros; by apply mild_commands|intros; by apply mild_send
         |intros; by apply loose_puts].
Qed.

Lemma bounded_loose : loose bounded.
Proof.
  split; [apply tick_bounded| |].
  - intros f c [Hf Hc] [Hs Hb]. split; simpl; [by apply Hf|]. by rewrite Hc.
  - intros c c' Hs. unfold bounded. by rewrite Hs.
Qed.
End loop.

(** The state in which a run stands, however it ended. *)
Definition final {A} (o : outcome A) : Cube := match o with Done _ c | Panicked c | OutOfFuel c => c end.

Lemma keeps_final {A} P (m : M A) c : keeps P m -> P c -> P (final (m c)).
Proof. intros Hm Hc. specialize (Hm c Hc). by destruct (m c). Qed.

(** What a status report can say, and the packet size a profile can ask for. *)
Definition status_ok (s : LaserCubeNetworkStatus) : Prop := 0 <= buffer_free s /\ 0 <= buffer_max s < 2 ^ 16.
Definition profile_ok (p : ConnectionProfile) : Prop := 0 <= max_udp_samples_per_packet p <= 140.

Lemma new_state_bounded now status profile :
  status_ok status -> profile_ok profile ->
  state_wf (new_state now status profile) /\ host_queue_capacity (new_state now status profile) < umax 64.
Proof.
  intros [Hf Hm] Hp. unfold profile_ok in Hp. pose proof (total_from_max_range (buffer_max status) ltac:(lia)) as Ht.
  split; [|simpl; unfold umax; lia]. split; simpl; [lia| |done|].
  - unfold buffer_total_from_max in *. destruct (Z.ltb_spec 0 (buffer_max status)); lia.
  - pose proof (clamp_positive status). by destruct (0 <? status_point_rate status).
Qed.

Section bounds.
Context `{ByteOrder}.

Lemma loose_run P fuel spin : loose P -> (forall c, P c -> P (upd_state mark_disconnected c)) -> keeps P (worker_run fuel spin).
Proof.
  intros HP Hd. unfold worker_run. apply keeps_seq; [by apply worker_loop_keeps, loose_loop_ok|]. intros ?.
  apply keeps_seq; [by apply loose_send_repeated|]. intros ?. apply keeps_seq.
  { intros c Hc. by apply Hd, ls_tick. }
  intros ?. apply loose_keeps_other; [done|]. intros c. unfold drop_receivers. eauto.
Qed.

(** The shared estimates stay in their ranges: at every point of a worker's
    life, under every interleaving with the backend's calls and every sequence of
    datagrams and socket failures, the host queue counter is within its capacity,
    the free estimate within the device's buffer, the buffer size is a positive
    16-bit number and the rate is positive. *)
Theorem transport_state_bounds now device_ip status profile hops cmd_in data_in send_ok fuel spin :
  status_ok status -> profile_ok profile ->
  let c := final (worker_run fuel spin (new_cube now device_ip status profile hops cmd_in data_in send_ok)) in
  0 <= host_queue_len (c_state c) <= host_queue_capacity (c_state c) /\
  0 <= free_estimate (c_state c) <= buffer_total (c_state c) /\
  0 < buffer_total (c_state c) <= 65535 /\ 1 <= point_rate (c_state c).
Proof.
  intros Hs Hp c. assert (Hb : bounded c).
  { apply keeps_final; [|by apply new_state_bounded]. apply loose_run; [apply bounded_loose|].
    intros c' [Hs' Hc']. by split; [destruct Hs'|]. }
  by destruct Hb as [[] _].
Qed.
End bounds.

Module Demo.
Definition status : LaserCubeNetworkStatus := minimal 1.
Definition profile : ConnectionProfile := unknown_conservative 6000.
Definition dot : CubePoint := mkCubePoint 2047 2047 0 0 0.
(** Enable the output and enqueue, then disable it and enqueue again. *)
Definition hops : list (list hop) :=
  [[HCall (CallSetOutput true); HCall (CallEnqueue 30000 (replicate 200 dot))]; []; [HContinue; HTime 1000000]; [];
   [HTime 1000000]; []; []; []; []; []; []; []; []; []; []; [HCall (CallSetOutput false); HTime 20000000];
   [HCall (CallEnqueue 30000 (replicate 100 dot))]; [HContinue]; [HCall CallShutdown; HTime 1000000]; [HContinue]].
End Demo.

Lemma transport_state_bounds_witness :
  let c := final (worker_run 5 20 (new_cube 0 1 Demo.status Demo.profile Demo.hops [] [] [])) in
  0 <= host_queue_len (c_state c) <= host_queue_capacity (c_state c).
Proof.
  destruct (@transport_state_bounds stdlib_byte_order 0 1 Demo.status Demo.profile Demo.hops [] [] [] 5 20) as [Hh _].
  - vm_compute. repeat split; congruence.
  - vm_compute. split; congruence.
  - exact Hh.
Defined.

(** ** Which points reach the device *)

(** Points of the accepted chunks, and of the packets sent, of a generation. *)
Definition accepted_in (g : Z) (e : event) : list CubePoint :=
  match e with EvAccepted g' pts => if g' =? g then pts else [] | _ => [] end.
Definition accepted (g : Z) (tr : list event) : list CubePoint := tr ≫= accepted_in g.

Definition sent_in (g : Z) (e : event) : list CubePoint :=
  match e with EvPacket g' pts _ true => if g' =? g then pts else [] | _ => [] end.
Definition sent (g : Z) (tr : list event) : list CubePoint := tr ≫= sent_in g.

(** The chunks of a generation still in the channel. *)
Definition in_channel (g : Z) (ch : list chunk) : list CubePoint :=
  ch ≫= fun k => if chunk_generation k =? g then chunk_points k else [].

(** Reading a trace: the handle's generation, the generation the worker's last
    check found current, and whether every packet so far was sent under it. *)
Record view := mkView { v_generation : Z; v_checked : option Z; v_fresh : bool }.

Definition view_step (v : view) (e : event) : view :=
  match e with
  | EvBump g => mkView g (v_checked v) (v_fresh v)
  | EvCheck g => mkView (v_generation v) (if g =? v_generation v then Some g else None) (v_fresh v)
  | EvPacket g _ _ _ => mkView (v_generation v) (v_checked v) (v_fresh v && bool_decide (v_checked v = Some g))
  | _ => v
  end.

Definition view_of (tr : list event) : view := foldl view_step (mkView 0 None true) tr.

Lemma view_snoc tr e : view_of (tr ++ [e]) = view_step (view_of tr) e.
Proof. unfold view_of. by rewrite foldl_app. Qed.

Lemma accepted_snoc g tr e : accepted g (tr ++ [e]) = accepted g tr ++ accepted_in g e.
Proof. unfold accepted. by rewrite bind_app, bind_singleton. Qed.

Lemma sent_snoc g tr e : sent g (tr ++ [e]) = sent g tr ++ sent_in g e.
Proof. unfold sent. by rewrite bind_app, bind_singleton. Qed.

Lemma in_channel_snoc g ch k :
  in_channel g (ch ++ [k]) = in_channel g ch ++ (if chunk_generation k =? g then chunk_points k else []).
Proof. unfold in_channel. by rewrite bind_app, bind_singleton. Qed.

(** The priority messages on their way, and that processing them one by one
    brings the worker from generation [a] to the handle's [g]: only the messages
    that also clear the queue change it. *)
Definition on_the_way (c : Cube) : list PriorityCommand :=
  c_priority c ++ match c_pending c with PendPriority cmd => [cmd] | _ => [] end.

Fixpoint leads (a : Z) (ms : list PriorityCommand) (g : Z) : Prop :=
  match ms with
  | [] => a = g
  | SetOutput true g' :: ms => g' = a /\ leads a ms g
  | (SetOutput false g' | StopOutput g' | Shutdown g') :: ms => leads g' ms g
  end.

Lemma leads_enable a ms g : leads a ms g -> leads a (ms ++ [SetOutput true g]) g.
Proof.
  revert a. induction ms as [|m ms IH]; intros a; simpl; [by intros ->|].
  destruct m as [[]?|?|?]; try apply IH. intros [-> Hl]. split; [done|]. by apply IH.
Qed.

Lemma leads_disable (msg : Z -> PriorityCommand) a ms g g' :
  (msg = SetOutput false \/ msg = StopOutput \/ msg = Shutdown) -> leads a ms g -> leads a (ms ++ [msg g']) g'.
Proof.
  intros Hm. revert a. induction ms as [|m ms IH]; intros a; simpl; [by destruct Hm as [->|[->| ->]]|].
  destruct m as [[]?|?|?]; try apply IH. intros [-> Hl]. split; [done|]. by apply IH.
Qed.

(** The points at hand: [front] taken from the queue, [held] a chunk of generation
    [hg] taken from the channel. *)
Definition of_gen (g a : Z) (pts : list CubePoint) : list CubePoint := if a =? g then pts else [].

Record flow (front : list CubePoint) (hg : Z) (held : list CubePoint) (c : Cube) : Prop := {
  fl_points g :
    sent g (c_trace c) ++ of_gen g (active_generation (c_worker c)) (front ++ w_queue (c_worker c)) ++
      of_gen g hg held ++ in_channel g (c_channel c) `sublist_of` accepted g (c_trace c);
  fl_leads : leads (active_generation (c_worker c)) (on_the_way c) (c_generation c);
  fl_rx : c_rx_alive c = true;
  fl_tx : c_tx_alive c = false -> c_pending c = NoPending;
  fl_generation : v_generation (view_of (c_trace c)) = c_generation c;
  fl_fresh : v_fresh (view_of (c_trace c)) = true;
}.

(** An update that changes nothing [flow] looks at. *)
Lemma flow_same front hg held c c' :
  flow front hg held c -> c_trace c' = c_trace c -> c_channel c' = c_channel c -> c_priority c' = c_priority c ->
  c_pending c' = c_pending c -> c_generation c' = c_generation c -> c_rx_alive c' = c_rx_alive c ->
  c_tx_alive c' = c_tx_alive c -> w_queue (c_worker c') = w_queue (c_worker c) ->
  active_generation (c_worker c') = active_generation (c_worker c) -> flow front hg held c'.
Proof.
  intros [] Ht Hc Hp Hpe Hg Hr Hx Hq Ha. unfold on_the_way in *. split; unfold on_the_way; rewrite ?Ht, ?Hc, ?Hp, ?Hpe, ?Hg, ?Hr, ?Hx, ?Hq, ?Ha; auto.
Qed.

Lemma finish_call_pending c : c_pending (finish_call c).1 = NoPending.
Proof.
  unfold finish_call. destruct (c_pending c) eqn:Hp; [done|by destruct (c_rx_alive c)|].
  destruct (negb (c_rx_alive c)); [done|]. by case_decide.
Qed.

Lemma finish_call_tx c : c_tx_alive (finish_call c).1 = c_tx_alive c.
Proof.
  unfold finish_call. destruct (c_pending c); [done|by destruct (c_rx_alive c)|].
  destruct (negb (c_rx_alive c)); [done|]. by case_decide.
Qed.

Lemma flow_emit front hg held c e :
  (forall g, accepted_in g e = [] /\ sent_in g e = []) -> view_step (view_of (c_trace c)) e = view_of (c_trace c) ->
  flow front hg held c -> flow front hg held (emit e c).
Proof.
  intros He Hv []. split; unfold on_the_way in *; cbn [emit c_trace c_worker c_channel c_priority c_pending c_generation c_rx_alive c_tx_alive];
    rewrite ?view_snoc, ?Hv; auto.
  intros g. destruct (He g) as [Ha Hs]. rewrite accepted_snoc, sent_snoc, Ha, Hs, !app_nil_r. auto.
Qed.

Lemma flow_finish front hg held c : flow front hg held c -> flow front hg held (finish_call c).1.
Proof.
  intros Hf. pose proof Hf as [Hp Hl Hr Hx Hg Hv]. unfold finish_call, on_the_way in *.
  destruct (c_pending c) as [|cmd|rate pts] eqn:Hpe; [done| |].
  - rewrite Hr. split; unfold on_the_way; simpl; auto. by rewrite app_nil_r.
  - rewrite Hr. simpl. case_decide; [split; unfold on_the_way; simpl; auto|].
    split; unfold on_the_way; simpl; rewrite ?view_snoc; auto.
    intros g. rewrite accepted_snoc, sent_snoc, in_channel_snoc. simpl. rewrite app_nil_r, !app_assoc.
    apply sublist_app; [rewrite <- !app_assoc; apply Hp|done].
Qed.

Lemma flow_start front hg held k c :
  flow front hg held c -> c_pending c = NoPending -> c_tx_alive c = true -> flow front hg held (start_call k c).1.
Proof.
  intros Hf Hpe Htx. pose proof Hf as [Hp Hl Hr Hx Hg Hv]. unfold on_the_way in Hl. rewrite Hpe, app_nil_r in Hl.
  assert (Hbump : forall msg, (msg = SetOutput false \/ msg = StopOutput \/ msg = Shutdown) -> flow front hg held (bump msg c)).
  { intros msg Hm. unfold bump. split; unfold on_the_way; simpl; rewrite ?view_snoc; simpl; auto; [|by eapply leads_disable|by rewrite Htx].
    intros g. rewrite !accepted_snoc, !sent_snoc. simpl. rewrite !app_nil_r. apply Hp. }
  destruct k as [rate pts|[]| |]; simpl; [|apply flow_emit; [done|done|]|apply Hbump; auto..].
  - destruct (reserve_host_points _ _); [|done]. split; unfold on_the_way; simpl; rewrite ?app_nil_r; auto. by rewrite Htx.
  - split; unfold on_the_way; simpl; auto; [by apply leads_enable|by rewrite Htx].
Qed.

Lemma flow_next front hg held k c : flow front hg held c -> flow front hg held (next_call k c).
Proof.
  intros Hf. unfold next_call. destruct (c_tx_alive c) eqn:Htx; [|done].
  apply flow_start; [by apply flow_finish|apply finish_call_pending|by rewrite finish_call_tx].
Qed.

Lemma flow_hop front hg held h c : flow front hg held c -> flow front hg held (hop_step h c).
Proof.
  intros Hf. destruct h as [k| | |dt]; simpl; [by apply flow_next|by apply flow_finish| |by eapply flow_same].
  pose proof (flow_finish _ _ _ _ (flow_next _ _ _ CallShutdown _ Hf)) as [Hp Hl Hr Hx Hg Hv].
  split; unfold on_the_way; simpl; auto. intros _. apply finish_call_pending.
Qed.

Lemma flow_tick front hg held c : flow front hg held c -> flow front hg held (tick c).
Proof. apply tick_ind; [apply flow_hop|]. intros hs c' Hf. by eapply flow_same. Qed.

Lemma flow_stable front hg held : stable (flow front hg held).
Proof.
  split; [apply flow_tick|..]; intros; try by eapply flow_same.
  - destruct (H (c_worker c)) as (Hq & Ha & _). by eapply flow_same.
  - by apply flow_emit.
Qed.

(** The worker's last check: the other thread does not change it. *)
Definition checked (c : Cube) : option Z := v_checked (view_of (c_trace c)).

Lemma hop_checked h c : checked (hop_step h c) = checked c.
Proof.
  assert (Hfin : forall c, checked (finish_call c).1 = checked c).
  { intros c'. unfold finish_call, checked. destruct (c_pending c'); [done|by destruct (c_rx_alive c')|].
    destruct (negb (c_rx_alive c')); [done|]. case_decide; [done|]. simpl. by rewrite view_snoc. }
  assert (Hst : forall k c, checked (start_call k c).1 = checked c).
  { intros k c'. unfold checked. destruct k as [rate pts|[]| |]; simpl; [by destruct (reserve_host_points _ _)|..];
      by rewrite !view_snoc. }
  assert (Hn : forall k c, checked (next_call k c) = checked c).
  { intros k c'. unfold next_call. destruct (c_tx_alive c'); [|done]. by rewrite Hst, Hfin. }
  destruct h as [k| | |dt]; simpl; [apply Hn|apply Hfin| |done]. unfold checked in *. simpl. by rewrite Hfin, Hn.
Qed.

(** [flow] within a burst of packets: the check found the active generation. *)
Definition bursting front (c : Cube) : Prop :=
  flow front 0 [] c /\ checked c = Some (active_generation (c_worker c)).

Lemma bursting_stable front : stable (bursting front).
Proof.
  pose proof (flow_stable front 0 []) as HF. split; intros *; try (intros [Hf Hk]; split; [by apply HF|done]).
  - intros [Hf Hk]. split; [by apply HF|]. rewrite tick_worker.
    apply (tick_ind (fun c' => checked c' = Some (active_generation (c_worker c)))); [|done|done].
    intros h c' Hc. by rewrite hop_checked.
  - intros Hs [Hf Hk]. split; [by apply HF|done].
  - intros Hm [Hf Hk]. split; [by apply HF|]. simpl. by destruct (Hm (c_worker c)) as (_ & -> & _).
  - intros Hs [Hf Hk]. split; [by apply HF|]. unfold checked. simpl. by rewrite view_snoc.
Qed.

Section flow_of_the_worker.
Context `{ByteOrder}.

Lemma flow_send_repeated front hg held bs : keeps (flow front hg held) (send_repeated bs).
Proof.
  unfold send_repeated. induction COMMAND_REPEAT_COUNT as [|n IH]; simpl; [apply keeps_ret|].
  apply keeps_seq; [|intros []; [done|apply keeps_ret]]. intros c Hc. apply flow_tick in Hc. unfold send_command.
  apply flow_emit; [done|done|]. by eapply flow_same.
Qed.

Lemma flow_puts front hg held f :
  (forall w, w_queue (f w) = w_queue w /\ active_generation (f w) = active_generation w) -> keeps (flow front hg held) (puts f).
Proof. intros Hf c Hc. destruct (Hf (c_worker c)) as [Hq Ha]. by eapply flow_same. Qed.

(** The parts of the two output commands after their updates of the worker. *)
Definition off_rest : M unit :=
  lock_put clear_host_queue;;; puts (set_intent false);;; record_output_enabled false;;; send_repeated (set_output false);;; mret tt.

Definition on_rest (enabled : bool) : M unit :=
  puts (set_intent enabled);;;
  now ← now_;
  puts (set_full_info_due (now + full_info_poll_period enabled));;;
  record_output_enabled enabled;;; send_repeated (set_output enabled);;; mret tt.

Lemma output_off_run g c : output_off g c = off_rest (upd_worker (set_queue []) (upd_worker (set_active g) c)).
Proof. unfold output_off, off_rest, clear_pending_points, mbind, M_bind, puts. reflexivity. Qed.

Lemma set_output_false_run g c :
  set_output_command false g c =
  (lock_put clear_host_queue;;; on_rest false) (upd_worker (set_queue []) (upd_worker (set_active g) c)).
Proof. unfold set_output_command, on_rest, clear_pending_points, mbind, M_bind, puts. reflexivity. Qed.

Lemma set_output_true_run g c : set_output_command true g c = on_rest true (upd_worker (set_active g) c).
Proof. unfold set_output_command, on_rest, mbind, M_bind, puts. reflexivity. Qed.

Lemma flow_on_rest b : keeps (flow [] 0 []) (on_rest b).
Proof.
  assert (HS := flow_stable [] 0 []). unfold on_rest, record_output_enabled.
  apply keeps_seq; [by apply flow_puts|]. intros ?. apply keeps_seq; [by eapply keeps_quiet, quiet_now|]. intros now.
  apply keeps_seq; [by apply flow_puts|]. intros ?.
  apply keeps_seq; [eapply keeps_quiet, quiet_lock_put, output_sound; done|]. intros ?.
  apply keeps_seq; [apply flow_send_repeated|]. intros ?. apply keeps_ret.
Qed.

Lemma flow_clear : keeps (flow [] 0 []) (lock_put clear_host_queue).
Proof. eapply keeps_quiet, quiet_lock_put, clear_sound. apply flow_stable. Qed.

Lemma flow_off_rest : keeps (flow [] 0 []) off_rest.
Proof.
  unfold off_rest, record_output_enabled. apply keeps_seq; [apply flow_clear|]. intros ?.
  apply keeps_seq; [by apply flow_puts|]. intros ?.
  apply keeps_seq; [eapply keeps_quiet, quiet_lock_put, output_sound; apply flow_stable|]. intros ?.
  apply keeps_seq; [apply flow_send_repeated|]. intros ?. apply keeps_ret.
Qed.

(** Emptying the queue for a new generation. *)
Lemma flow_new_generation c g rest :
  flow [] 0 [] c -> leads g (rest ++ match c_pending c with PendPriority cmd => [cmd] | _ => [] end) (c_generation c) ->
  flow [] 0 [] (upd_worker (set_queue []) (upd_worker (set_active g) (upd_priority rest c))).
Proof.
  intros [Hp _ Hr Hx Hg Hv] Hl. split; unfold on_the_way; simpl; auto. intros g'. specialize (Hp g').
  etransitivity; [|exact Hp]. apply sublist_app; [done|]. apply sublist_app; [|done].
  unfold of_gen. destruct (g =? g'); apply sublist_nil_l.
Qed.

(** After the drop of the handle nothing more is sent. *)
Definition silent (c0 c : Cube) : Prop :=
  c_tx_alive c = false /\ c_pending c = NoPending /\ c_priority c = c_priority c0 /\ c_generation c = c_generation c0.

Lemma silent_tick c : c_tx_alive c = false -> c_pending c = NoPending -> silent c (tick c).
Proof.
  intros Htx Hpe. apply (tick_ind (silent c)); [|done|done]. intros h c' (Ht & Hp & Hq & Hg).
  assert (Hf : (finish_call c').1 = c') by (unfold finish_call; by rewrite Hp).
  destruct h as [k| | |dt]; simpl; unfold next_call; rewrite ?Ht, ?Hf; done.
Qed.

Lemma flow_disconnected c :
  flow [] 0 [] c -> c_priority c = [] -> c_tx_alive c = false ->
  flow [] 0 [] (upd_worker (set_queue []) (upd_worker (set_active (c_generation (tick c))) (tick c))).
Proof.
  intros Hc Hp Htx. pose proof (fl_tx _ _ _ _ Hc Htx) as Hpe. destruct (silent_tick c Htx Hpe) as (_ & Hpe' & Hp' & Hg').
  rewrite Hp in Hp'. pose proof (flow_new_generation (tick c) (c_generation (tick c)) []) as Hnew.
  rewrite Hpe' in Hnew. specialize (Hnew (flow_tick _ _ _ _ Hc) eq_refl). by eapply flow_same.
Qed.

Lemma keeps_run {A} P (m : M A) c : keeps P m -> P c -> match m c with Done _ c' | Panicked c' | OutOfFuel c' => P c' end.
Proof. intros Hm. apply Hm. Qed.

(** [keeps] of a program whose first part is a known computation. *)
Definition ends {A} (P : Cube -> Prop) (o : outcome A) : Prop :=
  match o with Done _ c' | Panicked c' | OutOfFuel c' => P c' end.

Lemma ends_bind {A B} P (m : M A) (k : A -> M B) c :
  ends P (m c) -> (forall a, keeps P (k a)) -> ends P ((m ≫= k) c).
Proof. intros Hm Hk. unfold mbind, M_bind. destruct (m c) as [a c'|c'|c']; [by apply Hk|done..]. Qed.

Lemma flow_output_off g c :
  flow [] 0 [] (upd_worker (set_queue []) (upd_worker (set_active g) c)) -> ends (flow [] 0 []) (output_off g c).
Proof. intros Hc. rewrite output_off_run. by apply flow_off_rest. Qed.

Lemma flow_set_output (b : bool) g c :
  (if b then flow [] 0 [] (upd_worker (set_active g) c)
   else flow [] 0 [] (upd_worker (set_queue []) (upd_worker (set_active g) c))) ->
  ends (flow [] 0 []) (set_output_command b g c).
Proof.
  intros Hc. destruct b; [rewrite set_output_true_run; by apply flow_on_rest|]. rewrite set_output_false_run.
  apply (keeps_seq (flow [] 0 []) (lock_put clear_host_queue)); [apply flow_clear|intros ?; apply flow_on_rest|done].
Qed.

Lemma try_recv_priority_cases c :
  (exists m rest, c_priority (tick c) = m :: rest /\ try_recv_priority c = Done (Got m) (upd_priority rest (tick c))) \/
  (c_priority (tick c) = [] /\ c_tx_alive (tick c) = true /\ try_recv_priority c = Done Empty (tick c)) \/
  (c_priority (tick c) = [] /\ c_tx_alive (tick c) = false /\ try_recv_priority c = Done Disconnected (tick c)).
Proof.
  unfold try_recv_priority. destruct (c_priority (tick c)) as [|m rest]; [|left; eauto].
  right. destruct (c_tx_alive (tick c)); auto.
Qed.

Lemma flow_message n c m rest :
  keeps (flow [] 0 []) (priority_loop n) -> flow [] 0 [] (tick c) -> c_priority (tick c) = m :: rest ->
  ends (flow [] 0 []) (match m with
    | SetOutput enabled generation => set_output_command enabled generation;;; priority_loop n
    | StopOutput generation => output_off generation;;; priority_loop n
    | Shutdown generation => output_off generation;;; puts (set_running false) end (upd_priority rest (tick c))).
Proof.
  intros IH Hc Hp. assert (Hstop : keeps (flow [] 0 []) (puts (set_running false))) by (by apply flow_puts).
  pose proof (fl_leads _ _ _ _ Hc) as Hl. unfold on_the_way in Hl. rewrite Hp in Hl.
  destruct m as [b g|g|g]; cbn [app leads] in Hl; (apply (ends_bind (flow [] 0 [])); [|by intros []]).
  - apply flow_set_output. destruct b; [|by apply flow_new_generation]. destruct Hl as [-> Hl].
    destruct Hc. split; unfold on_the_way; simpl; auto.
  - by apply flow_output_off, flow_new_generation.
  - by apply flow_output_off, flow_new_generation.
Qed.

Lemma flow_hang_up c :
  flow [] 0 [] (tick c) -> c_priority (tick c) = [] -> c_tx_alive (tick c) = false ->
  ends (flow [] 0 []) ((g ← load_generation; output_off g;;; puts (set_running false)) (tick c)).
Proof.
  intros Hc Hp Htx. assert (Hstop : keeps (flow [] 0 []) (puts (set_running false))) by (by apply flow_puts).
  assert (Hload : load_generation (tick c) = Done (c_generation (tick (tick c))) (tick (tick c))) by reflexivity.
  rewrite (bind_done _ _ _ _ _ Hload). apply (ends_bind (flow [] 0 [])); [|by intros []].
  by apply flow_output_off, flow_disconnected.
Qed.

(** One round of the priority loop, after the receive. *)
Definition priority_round (n : nat) (r : received PriorityCommand) : M unit :=
  match r with
  | Got m =>
      match m with
      | SetOutput enabled generation => set_output_command enabled generation;;; priority_loop n
      | StopOutput generation => output_off generation;;; priority_loop n
      | Shutdown generation => output_off generation;;; puts (set_running false)
      end
  | Disconnected => g ← load_generation; output_off g;;; puts (set_running false)
  | Empty => mret tt
  end.

Lemma priority_loop_S n : priority_loop (S n) = try_recv_priority ≫= priority_round n.
Proof. reflexivity. Qed.

Lemma flow_round n c :
  keeps (flow [] 0 []) (priority_loop n) -> flow [] 0 [] (tick c) ->
  ends (flow [] 0 []) ((try_recv_priority ≫= priority_round n) c).
Proof.
  intros IH Hc. destruct (try_recv_priority_cases c) as [(m & rest & Hp & Hr)|[(Hp & Htx & Hr)|(Hp & Htx & Hr)]];
    rewrite (bind_done _ _ _ _ _ Hr).
  - exact (flow_message n c m rest IH Hc Hp).
  - exact Hc.
  - exact (flow_hang_up c Hc Hp Htx).
Qed.

Lemma flow_priority n : keeps (flow [] 0 []) (priority_loop n).
Proof.
  induction n as [|n IH]; [apply keeps_ret|]. rewrite priority_loop_S. intros c Hc.
  apply flow_round; [done|by apply flow_tick].
Qed.

(** Weakening: fewer points at hand. *)
Lemma flow_drop front hg held front' hg' held' c :
  (forall g, of_gen g (active_generation (c_worker c)) front' `sublist_of` of_gen g (active_generation (c_worker c)) front) ->
  (forall g, of_gen g hg' held' `sublist_of` of_gen g hg held) ->
  flow front hg held c -> flow front' hg' held' c.
Proof.
  intros Hf Hh []. split; auto. intros g. etransitivity; [|by apply fl_points0].
  apply sublist_app; [done|]. apply sublist_app; [|by apply sublist_app].
  specialize (Hf g). unfold of_gen in *. destruct (_ =? g); [by apply sublist_app|done].
Qed.

Lemma of_gen_nil g a : of_gen g a [] = [].
Proof. unfold of_gen. by destruct (a =? g). Qed.

Lemma flow_forget hg held c : flow [] hg held c -> flow [] 0 [] c.
Proof. apply flow_drop; [done|]. intros g. rewrite of_gen_nil. apply sublist_nil_l. Qed.

(** The active generation is the worker's own. *)
Lemma stable_active P a : stable P -> stable (fun c => P c /\ active_generation (c_worker c) = a).
Proof.
  intros HP. split; [|intros f c|intros f c Hf [Hc Hb]|..]; intros; destruct_and?;
    try (split; [by apply HP|]); [by rewrite tick_worker|done| |done..].
  simpl. by destruct (Hf (c_worker c)) as (_ & -> & _).
Qed.

Lemma flow_accept k c :
  flow [] (chunk_generation k) (chunk_points k) c -> active_generation (c_worker c) = chunk_generation k ->
  flow [] 0 [] (upd_worker (fun w => set_queue (w_queue w ++ chunk_points k) w) c).
Proof.
  intros [Hp Hl Hr Hx Hg Hv] Ha. split; auto. intros g. specialize (Hp g). rewrite of_gen_nil. simpl in *.
  rewrite Ha in *. unfold of_gen in *. destruct (chunk_generation k =? g); simpl in *; [|done]. by rewrite <- app_assoc.
Qed.

Lemma flow_accept_chunk k :
  spec (flow [] 0 []) (fun c => flow [] (chunk_generation k) (chunk_points k) c /\ active_generation (c_worker c) = chunk_generation k)
    (accept_chunk k) (fun _ => flow [] 0 []).
Proof.
  set (P := fun c => flow [] (chunk_generation k) (chunk_points k) c /\ active_generation (c_worker c) = chunk_generation k).
  assert (HS : stable P) by (apply stable_active, flow_stable).
  assert (Hweak : forall c, P c -> flow [] 0 [] c) by (intros c [Hc _]; by eapply flow_forget).
  unfold accept_chunk. eapply spec_bind with (Q := fun _ => P); [by intros c Hc|]. intros rate.
  eapply spec_bind with (Q := fun _ => P); [|intros ? c [Hc Ha]; by apply flow_accept].
  intros c Hc. destruct (negb _); [|done].
  pose proof (quiet_bind _ (fun _ => mret tt) _ anything (quiet_set_rate (chunk_rate k)) (fun _ _ => quiet_ret tt _ I) P HS c Hc) as Hm.
  destruct ((worker_set_rate _;;; _) c) as [a c'|c'|c']; [by destruct Hm|by apply Hweak..].
Qed.

Lemma flow_process_chunk k :
  spec (flow [] 0 []) (flow [] (chunk_generation k) (chunk_points k)) (process_chunk k) (fun _ => flow [] 0 []).
Proof.
  set (P := flow [] (chunk_generation k) (chunk_points k)). assert (HS : stable P) by apply flow_stable.
  assert (Hdiscard : forall P', (forall c, P' c -> P c) -> spec (flow [] 0 []) P' (discard k) (fun _ => flow [] 0 [])).
  { intros P' HP' c Hc. pose proof (quiet_discard k P HS c (HP' c Hc)) as Hm.
    destruct (discard k c) as [a c'|c'|c']; [by eapply flow_forget, Hm|by eapply flow_forget..]. }
  unfold process_chunk. eapply spec_bind with (Q := fun a c => P c /\ active_generation (c_worker c) = a); [by intros c Hc|].
  intros a. destruct (Z.eqb_spec (chunk_generation k) a) as [<-|]; [|apply Hdiscard; by intros c []]. simpl.
  set (P2 := fun c => P c /\ active_generation (c_worker c) = chunk_generation k).
  eapply spec_bind with (Q := fun _ => P2).
  - intros c Hc. by apply (st_tick P2 (stable_active _ _ HS)).
  - intros g. destruct (negb _); [apply Hdiscard; by intros c []|apply flow_accept_chunk].
Qed.

Lemma flow_pop_chunk k rest c :
  flow [] 0 [] c -> c_channel c = k :: rest -> flow [] (chunk_generation k) (chunk_points k) (upd_channel rest c).
Proof.
  intros [Hp Hl Hr Hx Hg Hv] Hk. split; auto. intros g. specialize (Hp g). rewrite Hk, of_gen_nil in Hp. done.
Qed.

Lemma flow_clear_pending : keeps (flow [] 0 []) clear_pending_points.
Proof.
  unfold clear_pending_points. apply keeps_seq; [|intros ?; apply flow_clear]. intros c [Hp Hl Hr Hx Hg Hv].
  split; auto. intros g. specialize (Hp g). etransitivity; [|exact Hp]. apply sublist_app; [done|].
  apply sublist_app; [|done]. simpl. rewrite of_gen_nil. apply sublist_nil_l.
Qed.

Lemma flow_commands n : keeps (flow [] 0 []) (command_loop n).
Proof.
  induction n as [|n IH]; [apply keeps_ret|]. cbn [command_loop].
  eapply spec_bind with (Q := fun r c => match r with Got k => flow [] (chunk_generation k) (chunk_points k) c | _ => flow [] 0 [] c end).
  - intros c Hc. apply flow_tick in Hc. unfold try_recv_chunk.
    destruct (c_channel (tick c)) as [|k rest] eqn:Hk; [by destruct (c_tx_alive (tick c))|by apply flow_pop_chunk].
  - intros [k| |]; [|apply keeps_ret|].
    + eapply spec_bind; [apply flow_process_chunk|]. intros ?. exact IH.
    + apply keeps_seq; [apply flow_clear_pending|]. intros ?. by apply flow_puts.
Qed.

(** ** Bursts of packets *)

Lemma stable_queue P q : stable P -> stable (fun c => P c /\ w_queue (c_worker c) = q).
Proof.
  intros HP. split; [|intros f c|intros f c Hf [Hc Hb]|..]; intros; destruct_and?;
    try (split; [by apply HP|]); [by rewrite tick_worker|done| |done..].
  simpl. by destruct (Hf (c_worker c)) as (-> & _ & _).
Qed.

Lemma burst_take n c q :
  bursting [] c -> w_queue (c_worker c) = q -> bursting (take n q) (upd_worker (set_queue (drop n q)) c).
Proof.
  intros [[Hp Hl Hr Hx Hg Hv] Hk] Hq. split; [|done]. split; auto. intros g. specialize (Hp g). simpl in *.
  by rewrite take_drop, <- Hq.
Qed.

Lemma burst_return pts t c :
  bursting pts c -> bursting [] (upd_worker (fun w => set_send_due t (set_queue (pts ++ w_queue w) w)) c).
Proof. intros [[Hp Hl Hr Hx Hg Hv] Hk]. split; [|done]. split; auto. Qed.

Lemma burst_packet pts bytes (ok : bool) c :
  bursting pts c -> bursting (if ok then [] else pts) (emit (EvPacket (active_generation (c_worker c)) pts bytes ok) c).
Proof.
  intros [[Hp Hl Hr Hx Hg Hv] Hk]. unfold checked in *. split; [split; auto|].
  - intros g. specialize (Hp g). simpl. rewrite accepted_snoc, sent_snoc. cbn [accepted_in sent_in]. rewrite app_nil_r.
    destruct ok; [|by rewrite app_nil_r]. unfold of_gen in *. simpl. destruct (_ =? g); [|by rewrite app_nil_r].
    by rewrite <- !app_assoc in *.
  - simpl. by rewrite view_snoc.
  - simpl. rewrite view_snoc. simpl. rewrite Hv, bool_decide_eq_true_2; done.
  - unfold checked. simpl. by rewrite view_snoc.
Qed.

Lemma burst_send_data pts bytes :
  spec (flow [] 0 []) (bursting pts) (send_data pts bytes) (fun ok : bool => bursting (if ok then [] else pts)).
Proof.
  intros c Hc. apply (st_tick _ (bursting_stable pts)) in Hc. unfold send_data.
  assert (Hc' : bursting pts (upd_send_ok (tail (c_send_ok (tick c))) (tick c))) by (by apply (st_send_ok _ (bursting_stable pts))).
  apply (burst_packet pts bytes (next_ok (tick c)) _ Hc').
Qed.

Lemma burst_flow front c : bursting front c -> flow [] 0 [] c.
Proof. intros [Hc _]. revert Hc. apply flow_drop; intros g; rewrite ?of_gen_nil; [apply sublist_nil_l|done]. Qed.

Lemma burst_send_failed now pts : spec (flow [] 0 []) (bursting pts) (send_failed now pts) (fun _ => bursting []).
Proof.
  assert (HS := bursting_stable pts). unfold send_failed. eapply spec_bind with (Q := fun _ => bursting pts).
  - intros c Hc. apply (st_state _ HS); [sound_trivial|by apply (st_tick _ HS)].
  - intros ?. eapply spec_bind with (Q := fun _ => bursting []); [|intros ?; by apply spec_ret].
    intros c Hc. by apply (burst_return pts (now + wait_buffer_sleep (w_profile (c_worker c)))).
Qed.

Lemma burst_packet_sent now before pts :
  spec (flow [] 0 []) (bursting []) (packet_sent now before pts) (fun _ => bursting []).
Proof.
  intros c Hc. pose proof (quiet_packet_sent now before pts _ (bursting_stable []) c Hc) as Hm.
  destruct (packet_sent _ _ _ c) as [a c'|c'|c']; [apply Hm|by eapply burst_flow..].
Qed.

Lemma burst_send_one now : spec (flow [] 0 []) (bursting []) (send_one_packet now) (fun _ => bursting []).
Proof.
  unfold send_one_packet. eapply spec_bind with (Q := fun q c => bursting [] c /\ w_queue (c_worker c) = q); [by intros c Hc|].
  intros q. set (P := fun c => bursting [] c /\ w_queue (c_worker c) = q).
  assert (HS : stable P) by (apply stable_queue, bursting_stable).
  eapply spec_bind with (Q := fun _ => P); [intros c Hc; by apply (st_tick _ HS)|]. intros before.
  destruct (_ =? 0); [apply spec_ret; by intros c []|]. destruct (_ <? _).
  { eapply spec_bind with (Q := fun _ => P); [intros c Hc; by apply (st_worker _ HS)|]. intros ?. apply spec_ret. by intros c []. }
  set (n := Z.to_nat _). eapply spec_bind with (Q := fun _ => bursting (take n q)).
  { intros c [Hc Hq]. by apply burst_take. }
  intros ?. eapply spec_bind with (Q := fun _ => bursting (take n q)); [by intros c Hc|]. intros sequence.
  eapply spec_bind with (Q := fun _ => bursting (take n q)); [by intros c Hc|]. intros transfer.
  destruct (encode_sample_packet _ _ _) as [bytes|e]; [|apply burst_send_failed].
  eapply spec_bind; [apply burst_send_data|]. intros []; [apply burst_packet_sent|apply burst_send_failed].
Qed.

Lemma burst_loop fuel now : spec (flow [] 0 []) (bursting []) (send_loop fuel now) (fun _ => flow [] 0 []).
Proof.
  assert (Hend : forall c, bursting [] c -> flow [] 0 [] c) by (intros c; apply burst_flow).
  induction fuel as [|fuel IH]; cbn [send_loop];
    (eapply spec_bind with (Q := fun _ => bursting []); [by intros c Hc|]; intros due);
    (eapply spec_bind with (Q := fun _ => bursting []); [by intros c Hc|]; intros q);
    (destruct (_ && _); [|by apply spec_ret]); [intros c Hc; by apply Hend|].
  eapply spec_bind; [apply burst_send_one|]. intros []; [exact IH|by apply spec_ret].
Qed.

Lemma flow_check c :
  flow [] 0 [] c -> flow [] 0 [] (emit (EvCheck (active_generation (c_worker c))) c) /\
  ((active_generation (c_worker c) =? c_generation c) = true ->
   checked (emit (EvCheck (active_generation (c_worker c))) c) = Some (active_generation (c_worker c))).
Proof.
  intros [Hp Hl Hr Hx Hg Hv]. split.
  - split; auto; simpl; rewrite ?view_snoc; auto. intros g. rewrite accepted_snoc, sent_snoc. simpl. rewrite !app_nil_r. apply Hp.
  - unfold checked. simpl. rewrite view_snoc. simpl. by rewrite Hg; intros ->.
Qed.

Lemma flow_send now : keeps (flow [] 0 []) (try_send_due_packet now).
Proof.
  unfold try_send_due_packet. eapply spec_bind with (Q := fun (b : bool) c => if b then bursting [] c else flow [] 0 [] c).
  - intros c Hc. apply flow_tick in Hc. destruct (flow_check _ Hc) as [Hf Hk]. unfold check_generation.
    destruct (_ =? _); [split; [done|by apply Hk]|done].
  - intros []; [|apply keeps_ret]. eapply spec_bind with (Q := fun _ => bursting []); [by intros c Hc|].
    intros q. apply burst_loop.
Qed.

Lemma flow_loop_ok : loop_ok (flow [] 0 []).
Proof.
  split; [apply flow_stable|apply flow_priority|apply flow_commands|apply flow_send|intros b; by apply flow_puts].
Qed.

(** What holds of the trace even after the worker is gone. *)
Definition delivered (c : Cube) : Prop :=
  v_fresh (view_of (c_trace c)) = true /\ forall g, sent g (c_trace c) `sublist_of` accepted g (c_trace c).

Lemma flow_delivered front hg held c : flow front hg held c -> delivered c.
Proof.
  intros [Hp _ _ _ _ Hv]. split; [done|]. intros g. etransitivity; [|apply Hp]. apply sublist_inserts_r. done.
Qed.
End flow_of_the_worker.

(** C10. Only current points are sent: at every point of a worker's life, under
    every interleaving with the backend's calls, every packet was sent under the
    generation that was current when the worker checked it for that burst, and
    the points sent in a generation are, in order and without repetition, points
    of the chunks accepted in that generation.  So nothing accepted before an
    output-off call reaches the device in a burst that starts after it. *)
Theorem only_current_points_are_sent `{ByteOrder} now device_ip status profile hops cmd_in data_in send_ok fuel spin :
  let tr := c_trace (final (worker_run fuel spin (new_cube now device_ip status profile hops cmd_in data_in send_ok))) in
  v_fresh (view_of tr) = true /\ forall g, sent g tr `sublist_of` accepted g tr.
Proof.
  assert (Hm : spec delivered (flow [] 0 []) (worker_run fuel spin) (fun _ => delivered)).
  { assert (HR : forall c, flow [] 0 [] c -> delivered c) by (intros c; apply flow_delivered).
    assert (Hk : forall A (m : M A), keeps (flow [] 0 []) m -> spec delivered (flow [] 0 []) m (fun _ => flow [] 0 [])).
    { intros A m Hm c Hc. specialize (Hm c Hc). destruct (m c); auto. }
    unfold worker_run. eapply spec_bind; [apply Hk, worker_loop_keeps, flow_loop_ok|]. intros ?.
    eapply spec_bind; [apply Hk, flow_send_repeated|]. intros ?. eapply spec_bind with (Q := fun _ => flow [] 0 []).
    - intros c Hc. apply flow_tick in Hc. by eapply flow_same.
    - intros ? c Hc. apply flow_tick in Hc. by apply HR in Hc. }
  specialize (Hm (new_cube now device_ip status profile hops cmd_in data_in send_ok)).
  assert (H0 : flow [] 0 [] (new_cube now device_ip status profile hops cmd_in data_in send_ok)).
  { split; try done. intros g. simpl. rewrite !of_gen_nil. done. }
  specialize (Hm H0). by destruct (worker_run _ _ _) as [? c|c|c].
Qed.

(** ** Output commands follow the requests *)

(** The last output state requested by the backend, and the last one commanded. *)
Definition requested (tr : list event) : bool :=
  foldl (fun b e => match e with EvRequest b' => b' | _ => b end) false tr.

Definition output_of (bytes : list Z) : option bool :=
  if decide (bytes = set_output true) then Some true else if decide (bytes = set_output false) then Some false else None.

Definition commanded_step (b : bool) (e : event) : bool :=
  match e with EvCommand bytes _ => default b (output_of bytes) | _ => b end.
Definition commanded (tr : list event) : bool := foldl commanded_step false tr.

(** The output state after the messages on their way. *)
Definition intent_after (ms : list PriorityCommand) (b : bool) : bool :=
  foldl (fun _ m => match m with SetOutput e _ => e | _ => false end) b ms.

Lemma requested_snoc tr e : requested (tr ++ [e]) = match e with EvRequest b => b | _ => requested tr end.
Proof. unfold requested. rewrite foldl_app. by destruct e. Qed.

Lemma commanded_snoc tr e : commanded (tr ++ [e]) = commanded_step (commanded tr) e.
Proof. unfold commanded. by rewrite foldl_app. Qed.

Lemma intent_after_snoc ms m b : intent_after (ms ++ [m]) b = match m with SetOutput e _ => e | _ => false end.
Proof. unfold intent_after. by rewrite foldl_app. Qed.

(** [wants b]: processing the messages on their way from intent [b] gives the
    request. *)
Record wants (b : bool) (c : Cube) : Prop := {
  wa_intent : intent_after (on_the_way c) b = requested (c_trace c);
  wa_rx : c_rx_alive c = true;
  wa_tx : c_tx_alive c = false -> c_pending c = NoPending /\ requested (c_trace c) = false;
}.

(** Updates [wants] does not see. *)
Lemma wants_same b c c' :
  wants b c -> requested (c_trace c') = requested (c_trace c) -> c_priority c' = c_priority c -> c_pending c' = c_pending c ->
  c_rx_alive c' = c_rx_alive c -> c_tx_alive c' = c_tx_alive c -> wants b c'.
Proof.
  intros [] Ht Hp Hpe Hr Hx. unfold on_the_way in *. split; unfold on_the_way; rewrite ?Ht, ?Hp, ?Hpe, ?Hr, ?Hx; auto.
Qed.

Lemma wants_finish b c : wants b c -> wants b (finish_call c).1.
Proof.
  intros Hw. pose proof Hw as [Hi Hr Hx]. unfold finish_call, on_the_way in *.
  destruct (c_pending c) as [|cmd|rate pts] eqn:Hpe; [done| |].
  - rewrite Hr. split; unfold on_the_way; simpl; auto; [by rewrite app_nil_r|]. intros Htx. by destruct (Hx Htx).
  - rewrite Hr. simpl. case_decide; split; unfold on_the_way; simpl; rewrite ?requested_snoc; auto;
      intros Htx; by destruct (Hx Htx).
Qed.

Lemma wants_start b k c : wants b c -> c_pending c = NoPending -> c_tx_alive c = true -> wants b (start_call k c).1.
Proof.
  intros [Hi Hr Hx] Hpe Htx. unfold on_the_way in Hi. rewrite Hpe, app_nil_r in Hi.
  destruct k as [rate pts|[]| |]; simpl; [destruct (reserve_host_points _ _)|..]; unfold bump;
    (split; unfold on_the_way; simpl; rewrite ?Hpe, ?Htx, ?requested_snoc, ?app_nil_r, ?intent_after_snoc; done).
Qed.

Lemma wants_next b k c : wants b c -> wants b (next_call k c).
Proof.
  intros Hw. unfold next_call. destruct (c_tx_alive c) eqn:Htx; [|done].
  apply wants_start; [by apply wants_finish|apply finish_call_pending|by rewrite finish_call_tx].
Qed.

Lemma finish_call_requested c : requested (c_trace (finish_call c).1) = requested (c_trace c).
Proof.
  unfold finish_call. destruct (c_pending c); [done|by destruct (c_rx_alive c)|].
  destruct (negb (c_rx_alive c)); [done|]. case_decide; [done|]. simpl. by rewrite requested_snoc.
Qed.

Lemma wants_hop b h c : wants b c -> wants b (hop_step h c).
Proof.
  intros Hw. destruct h as [k| | |dt]; simpl; [by apply wants_next|by apply wants_finish| |by eapply wants_same].
  pose proof (wants_finish _ _ (wants_next _ CallShutdown _ Hw)) as [Hi Hr Hx]. split; auto. simpl. intros _.
  split; [apply finish_call_pending|]. rewrite finish_call_requested. unfold next_call.
  destruct (c_tx_alive c) eqn:Htx; [|by destruct (wa_tx _ _ Hw Htx)]. simpl. by rewrite !requested_snoc.
Qed.

Lemma wants_tick b c : wants b c -> wants b (tick c).
Proof. apply tick_ind; [apply wants_hop|]. intros hs c' Hf. by eapply wants_same. Qed.

Lemma commanded_tick c : commanded (c_trace (tick c)) = commanded (c_trace c).
Proof.
  apply (tick_ind (fun c' => commanded (c_trace c') = commanded (c_trace c))); [|done|done]. intros h c' <-.
  assert (Hfin : forall c, commanded (c_trace (finish_call c).1) = commanded (c_trace c)).
  { intros c2. unfold finish_call. destruct (c_pending c2); [done|by destruct (c_rx_alive c2)|].
    destruct (negb (c_rx_alive c2)); [done|]. case_decide; [done|]. simpl. by rewrite commanded_snoc. }
  assert (Hn : forall k c, commanded (c_trace (next_call k c)) = commanded (c_trace c)).
  { intros k c2. unfold next_call. destruct (c_tx_alive c2); [|done]. rewrite <- (Hfin c2).
    destruct k as [rate pts|[]| |]; simpl; [by destruct (reserve_host_points _ _)|..]; by rewrite !commanded_snoc. }
  destruct h as [k| | |dt]; simpl; [apply Hn|apply Hfin|by rewrite Hfin, Hn|done].
Qed.

(** At rest: the last output command is the intent, and the intent is the request
    as far as it has arrived. *)
Definition follows (c : Cube) : Prop :=
  wants (w_output_enabled (c_worker c)) c /\ commanded (c_trace c) = w_output_enabled (c_worker c).

Lemma output_of_set b : output_of (set_output b) = Some b.
Proof. by destruct b. Qed.

Lemma output_of_Some bytes b : output_of bytes = Some b -> bytes = set_output b.
Proof. unfold output_of. by repeat case_decide; intros [= <-]. Qed.

Lemma follows_command bytes ok c :
  (forall b, bytes = set_output b -> b = w_output_enabled (c_worker c)) -> follows c -> follows (emit (EvCommand bytes ok) c).
Proof.
  intros Hb [Hw Hk]. split; [eapply wants_same; [exact Hw|simpl; by rewrite requested_snoc|done..]|].
  simpl. rewrite commanded_snoc. simpl. destruct (output_of bytes) as [b|] eqn:Ho; [|done].
  simpl. by apply Hb, output_of_Some.
Qed.

Lemma follows_mild : mild follows.
Proof.
  split; [split|..].
  - intros c [Hw Hk]. split; rewrite tick_worker; [by apply wants_tick|by rewrite commanded_tick].
  - intros f c _ [Hw Hk]. split; [by eapply wants_same|done].
  - intros f c Hf [Hw Hk]. destruct (Hf (c_worker c)) as (_ & _ & Hi). split; simpl; rewrite Hi; [by eapply wants_same|done].
  - apply follows_command.
  - intros t c [Hw Hk]. split; [by eapply wants_same|done].
  - intros l c [Hw Hk]. split; [by eapply wants_same|done].
  - intros l c [Hw Hk]. split; [by eapply wants_same|done].
  - intros l c [Hw Hk]. split; [by eapply wants_same|done].
  - intros f c Hf [Hw Hk]. split; simpl; rewrite Hf; [by eapply wants_same|done].
  - intros e c He [Hw Hk]. split; simpl; [|rewrite commanded_snoc; by destruct e].
    eapply wants_same; [exact Hw|simpl; rewrite requested_snoc; by destruct e|done..].
  - intros q c [Hw Hk]. split; [by eapply wants_same|done].
Qed.

Section following.
Context `{ByteOrder}.

Lemma wants_stable b : stable (wants b).
Proof.
  split; [apply wants_tick|..]; intros; try by eapply wants_same.
  eapply wants_same; [done|simpl; by rewrite requested_snoc|done..].
Qed.

(** About to command [b]. *)
Definition turning (b : bool) (c : Cube) : Prop := wants b c /\ w_output_enabled (c_worker c) = b.

Lemma turning_stable b : stable (turning b).
Proof. apply stable_intent, wants_stable. Qed.

Lemma turning_commanded b ok c : turning b c -> follows (emit (EvCommand (set_output b) ok) c).
Proof.
  intros [Hw Hi]. split; simpl; rewrite Hi.
  - eapply wants_same; [exact Hw|simpl; by rewrite requested_snoc|done..].
  - rewrite commanded_snoc. unfold commanded_step. by rewrite output_of_set.
Qed.

Lemma send_output_follows b : spec follows (turning b) (send_repeated (set_output b)) (fun _ => follows).
Proof.
  set (P := fun c => follows c /\ w_output_enabled (c_worker c) = b).
  unfold send_repeated, COMMAND_REPEAT_COUNT. cbn [send_times]. eapply spec_bind with (Q := fun _ => P).
  - intros c Hc. apply (st_tick _ (turning_stable b)) in Hc.
    assert (Hc' : turning b (upd_send_ok (tail (c_send_ok (tick c))) (tick c))) by (by apply (st_send_ok _ (turning_stable b))).
    split; [by apply turning_commanded|]. apply Hc.
  - intros []; [|apply spec_ret; by intros c []].
    intros c Hc. pose proof (send_output_stable follows b 1 (ml_stable _ follows_mild) c Hc) as Hs.
    change (send_command _ ≫= _) with (send_times 1 (set_output b)).
    destruct (send_times 1 (set_output b) c) as [a c'|c'|c']; apply Hs.
Qed.

(** The end of both output commands. *)
Lemma command_follows b :
  spec follows (turning b) (record_output_enabled b;;; send_repeated (set_output b);;; mret tt) (fun _ => follows).
Proof.
  eapply spec_bind with (Q := fun _ => turning b).
  - intros c Hc. apply (st_state _ (turning_stable b)); [apply output_sound|by apply (st_tick _ (turning_stable b))].
  - intros ?. eapply spec_bind; [apply send_output_follows|]. intros ?. by apply spec_ret.
Qed.

Lemma set_intent_turning b : spec follows (wants b) (puts (set_intent b)) (fun _ => turning b).
Proof. intros c Hw. split; [by eapply wants_same|done]. Qed.

Lemma clear_wants b : spec follows (wants b) (lock_put clear_host_queue) (fun _ => wants b).
Proof. intros c Hw. apply (st_state _ (wants_stable b)); [apply clear_sound|by apply wants_tick]. Qed.

Lemma off_rest_follows : spec follows (wants false) off_rest (fun _ => follows).
Proof.
  unfold off_rest. eapply spec_bind; [apply clear_wants|]. intros ?.
  eapply spec_bind; [apply set_intent_turning|]. intros ?. apply command_follows.
Qed.

Lemma on_rest_follows b : spec follows (wants b) (on_rest b) (fun _ => follows).
Proof.
  unfold on_rest. eapply spec_bind; [apply set_intent_turning|]. intros ?.
  eapply spec_bind with (Q := fun _ => turning b); [intros c Hc; by apply (st_tick _ (turning_stable b))|]. intros now.
  eapply spec_bind with (Q := fun _ => turning b); [intros c Hc; by apply (st_worker _ (turning_stable b))|]. intros ?.
  apply command_follows.
Qed.

Lemma follows_output_off g c : wants false c -> ends follows (output_off g c).
Proof. intros Hw. rewrite output_off_run. apply off_rest_follows. by eapply wants_same. Qed.

Lemma follows_set_output b g c : wants b c -> ends follows (set_output_command b g c).
Proof.
  intros Hw. destruct b; [rewrite set_output_true_run; apply on_rest_follows; by eapply wants_same|].
  rewrite set_output_false_run. apply (spec_bind follows (wants false) (lock_put clear_host_queue) _ (fun _ => wants false));
    [apply clear_wants|intros ?; apply on_rest_follows|by eapply wants_same].
Qed.

Lemma wants_pop m rest b c :
  wants b c -> c_priority c = m :: rest ->
  wants (match m with SetOutput e _ => e | _ => false end) (upd_priority rest c).
Proof. intros [Hi Hr Hx] Hp. unfold on_the_way in Hi. rewrite Hp in Hi. by split. Qed.

Lemma follows_message n c m rest :
  keeps follows (priority_loop n) -> follows (tick c) -> c_priority (tick c) = m :: rest ->
  ends follows (priority_round n (Got m) (upd_priority rest (tick c))).
Proof.
  intros IH [Hw _] Hp. assert (Hstop : keeps follows (puts (set_running false))) by (by apply mild_puts; [apply follows_mild|]).
  pose proof (wants_pop _ _ _ _ Hw Hp) as Hw'.
  destruct m as [b g|g|g]; simpl; (apply (ends_bind follows); [|by intros []]);
    [by apply follows_set_output|by apply follows_output_off..].
Qed.

Lemma follows_hang_up n c :
  follows (tick c) -> c_tx_alive (tick c) = false -> c_priority (tick c) = [] ->
  ends follows (priority_round n Disconnected (tick c)).
Proof.
  intros [Hw _] Htx Hp. assert (Hstop : keeps follows (puts (set_running false))) by (by apply mild_puts; [apply follows_mild|]).
  assert (Hload : load_generation (tick c) = Done (c_generation (tick (tick c))) (tick (tick c))) by reflexivity.
  unfold priority_round. rewrite (bind_done _ _ _ _ _ Hload). apply (ends_bind follows); [|by intros []].
  apply follows_output_off, wants_tick. destruct Hw as [Hi Hr Hx]. destruct (Hx Htx) as [Hpe Hrq].
  split; auto. unfold on_the_way in *. by rewrite Hp, Hpe in *.
Qed.

Lemma follows_round n c :
  keeps follows (priority_loop n) -> follows (tick c) -> ends follows ((try_recv_priority ≫= priority_round n) c).
Proof.
  intros IH Hc. destruct (try_recv_priority_cases c) as [(m & rest & Hp & Hr)|[(Hp & Htx & Hr)|(Hp & Htx & Hr)]];
    rewrite (bind_done _ _ _ _ _ Hr).
  - exact (follows_message n c m rest IH Hc Hp).
  - exact Hc.
  - exact (follows_hang_up n c Hc Htx Hp).
Qed.

Lemma follows_priority n : keeps follows (priority_loop n).
Proof.
  induction n as [|n IH]; [apply keeps_ret|]. rewrite priority_loop_S. intros c Hc.
  apply follows_round; [done|by apply (st_tick _ (ml_stable _ follows_mild))].
Qed.

Lemma follows_loop_ok : loop_ok follows.
Proof.
  pose proof follows_mild. split; [by apply ml_stable|apply follows_priority|intros; by apply mild_commands|intros; by apply mild_send
    |intros; by apply mild_puts].
Qed.

(** The end of a run: the output is commanded off and the state disconnected. *)
Definition dark_end (c : Cube) : Prop := commanded (c_trace c) = false.

Lemma send_off_times n : spec (fun _ => True) dark_end (send_times n (set_output false)) (fun _ => dark_end).
Proof.
  induction n as [|n IH]; simpl; [by apply spec_ret|]. eapply spec_bind with (Q := fun _ => dark_end).
  - intros c Hc. unfold dark_end. simpl. by rewrite commanded_snoc.
  - intros []; [exact IH|by apply spec_ret].
Qed.

Lemma send_off : spec (fun _ => True) (fun _ => True) (send_repeated (set_output false)) (fun _ => dark_end).
Proof.
  unfold send_repeated, COMMAND_REPEAT_COUNT. cbn [send_times]. eapply spec_bind with (Q := fun _ => dark_end).
  - intros c _. unfold dark_end. simpl. by rewrite commanded_snoc.
  - intros []; [apply (send_off_times 1)|by apply spec_ret].
Qed.

Lemma run_end fuel spin :
  spec (fun _ => True) (fun _ => True) (worker_run fuel spin) (fun _ c => dark_end c /\ connected (c_state c) = false).
Proof.
  unfold worker_run. eapply spec_bind with (Q := fun _ _ => True); [by intros c _; destruct (worker_loop fuel spin c)|].
  intros ?. eapply spec_bind; [apply send_off|]. intros ?.
  eapply spec_bind with (Q := fun _ c => dark_end c /\ connected (c_state c) = false).
  - intros c Hc. unfold dark_end in *. simpl. by rewrite commanded_tick.
  - intros ? c [Hc Hk]. unfold dark_end in *. simpl. rewrite commanded_tick. split; [done|].
    destruct (tick_estimates c) as (_ & _ & _ & _ & _ & _ & ->). done.
Qed.

(** The output follows the requests: wherever the worker's loop stands, the
    last output command it sent (twice, unless a send failed) is its intent, and
    once no output message is on its way that is the last state requested;
    reports of a device that disagrees only make the worker repeat it.  A worker
    that ends commands the output off and leaves the state disconnected. *)
Theorem output_follows_requests now device_ip status profile hops cmd_in data_in send_ok fuel spin :
  let c0 := new_cube now device_ip status profile hops cmd_in data_in send_ok in
  let c := final (worker_loop fuel spin c0) in
  commanded (c_trace c) = w_output_enabled (c_worker c) /\
  (on_the_way c = [] -> commanded (c_trace c) = requested (c_trace c)) /\
  match worker_run fuel spin c0 with
  | Done _ c => commanded (c_trace c) = false /\ connected (c_state c) = false
  | _ => True
  end.
Proof.
  intros c0 c. assert (Hf : follows c) by (apply keeps_final; [by apply worker_loop_keeps, follows_loop_ok|done]).
  destruct Hf as [[Hi _ _] Hk]. split; [done|]. split.
  - intros Hn. rewrite Hn in Hi. rewrite Hk. exact Hi.
  - pose proof (run_end fuel spin c0 I) as Hr. by destruct (worker_run fuel spin c0).
Qed.
End following.

(** ** Pacing *)
Section pacing.
Context `{ByteOrder}.

(** What one attempt to send does: nothing, or one packet from the head of the
    queue, after which the device is estimated to hold no more than the cutoff. *)
Definition paced (s s' : TransportState) (queue queue' : list CubePoint) (more : bool) : Prop :=
  ts_profile s' = ts_profile s /\ buffer_total s' = buffer_total s /\
  ((queue' = queue /\ free_estimate s' = free_estimate s /\ more = false) \/
   (exists pts, queue = pts ++ queue' /\ pts <> [] /\
     points_len pts = Z.min (max_udp_samples_per_packet (ts_profile s)) (points_len queue) /\
     free_estimate s' = free_estimate s - points_len pts /\
     buffer_total s - free_estimate s' <= Z.min (remote_buffer_cutoff (ts_profile s)) (buffer_total s) /\
     (more = true -> buffer_total s - free_estimate s' < remote_buffer_cutoff (ts_profile s)))).

Definition estimate_wf (s : TransportState) : Prop := 0 <= free_estimate s <= buffer_total s /\ buffer_total s <= 65535.

(** Within the budget, the packet fits under the cutoff. *)
Lemma budget_fits queued s n :
  estimate_wf s -> 0 < n -> n <= packet_budget queued s ->
  buffer_total s - (free_estimate s - n) <= Z.min (remote_buffer_cutoff (ts_profile s)) (buffer_total s).
Proof.
  intros [Hf _] Hn. unfold packet_budget, send_budget, sat_sub. cbn [queue_len pacer_free pacer_total pacer_cutoff per_tick_packet_budget].
  lia.
Qed.

(** The result of a program, with [Q] on normal ends, and the only panic. *)
Definition result_of {A} (rate : Z) (Q : A -> Cube -> Prop) (o : outcome A) : Prop :=
  match o with Done a c => Q a c | Panicked _ => exists n, packet_interval n rate = None | OutOfFuel _ => False end.

Lemma packet_sent_result now before pts c queue :
  same_estimates (c_state c) before -> estimate_wf before -> 0 < points_len pts <= packet_budget (points_len queue) before ->
  result_of (current_rate (c_worker c))
    (fun more c' => w_queue (c_worker c') = w_queue (c_worker c) /\ ts_profile (c_state c') = ts_profile before /\
       buffer_total (c_state c') = buffer_total before /\ free_estimate (c_state c') = free_estimate before - points_len pts /\
       (more = true -> buffer_total before - free_estimate (c_state c') < remote_buffer_cutoff (ts_profile before)))
    (packet_sent now before pts c).
Proof.
  intros Hsame Hwf Hn. pose proof (budget_fits _ _ _ Hwf (proj1 Hn) (proj2 Hn)) as Hfit. unfold packet_sent.
  set (c1 := upd_worker (fun w => set_slots (<[Z.to_nat (w_packet_sequence w) := Some now]> (packet_send_times w))
    (<[Z.to_nat (w_packet_sequence w) := wrapu 16 (points_len pts)]> (packet_sample_counts w)) w) c).
  rewrite (bind_done (puts _) _ c tt c1 eq_refl).
  set (c2 := upd_state (record_send now (points_len pts)) (tick c1)). rewrite (bind_done (lock_put _) _ c1 tt c2 eq_refl).
  rewrite (bind_done (puts _) _ c2 tt (upd_worker advance_sequences c2) eq_refl).
  pose proof (tick_estimates c1) as (Hf & Ht & _ & Hp & _). destruct Hsame as (Hf0 & Ht0 & _ & Hp0 & _).
  pose proof (tick_worker c1) as Hw. simpl in Hf, Ht, Hp.
  assert (Hfree : free_estimate (c_state c2) = free_estimate before - points_len pts).
  { simpl. rewrite Hf, <- Hf0. unfold sat_sub. destruct Hwf. lia. }
  assert (Htotal : buffer_total (c_state c2) = buffer_total before) by (simpl; congruence).
  assert (Hprof : ts_profile (c_state c2) = ts_profile before) by (simpl; congruence).
  assert (Hq : w_queue (c_worker c2) = w_queue (c_worker c)) by (simpl; by rewrite Hw).
  assert (Hrate : current_rate (c_worker c2) = current_rate (c_worker c)) by (simpl; by rewrite Hw).
  destruct (should_continue_topup _ _ _ _) eqn:Htop.
  - unfold result_of. simpl. split; [done|]. split; [done|]. split; [done|]. split; [done|]. intros _.
    unfold should_continue_topup, sat_sub, sat_add in Htop. apply Z.ltb_lt in Htop. simpl in Hfree.
    destruct Hwf. unfold umax in Htop. lia.
  - rewrite (bind_done (gets current_rate) _ _ _ _ eq_refl). cbn [upd_worker c_worker advance_sequences current_rate].
    rewrite Hrate. destruct (packet_interval (points_len pts) (current_rate (c_worker c))) as [d|] eqn:Hd.
    + rewrite (bind_done (of_option (Some d)) _ _ d _ eq_refl). unfold result_of. simpl. done.
    + unfold result_of. simpl. eauto.
Qed.

Lemma send_failed_result now pts c rate :
  result_of rate (fun more c' => more = false /\ w_queue (c_worker c') = pts ++ w_queue (c_worker c) /\
    same_estimates (c_state c) (c_state c')) (send_failed now pts c).
Proof.
  unfold send_failed. rewrite (bind_done (lock_put _) _ c tt _ eq_refl).
  rewrite (bind_done (puts _) _ _ tt _ eq_refl). unfold result_of. simpl. rewrite tick_worker.
  split; [done|]. split; [done|]. apply (tick_estimates c).
Qed.

Lemma points_len_take n l : 0 <= n <= points_len l -> points_len (take (Z.to_nat n) l) = n.
Proof. unfold points_len. intros Hn. rewrite length_take. lia. Qed.

Lemma paced_nothing s s' queue : same_estimates s s' -> paced s s' queue queue false.
Proof. intros (Hf & Ht & _ & Hp & _). split; [done|]. split; [done|]. by left. Qed.

Lemma send_one_result now c :
  estimate_wf (c_state c) -> profile_ok (ts_profile (c_state c)) ->
  result_of (current_rate (c_worker c))
    (fun more c' => paced (c_state c) (c_state c') (w_queue (c_worker c)) (w_queue (c_worker c')) more) (send_one_packet now c).
Proof.
  intros Hwf Hprof. unfold send_one_packet. rewrite (bind_done (gets w_queue) _ c _ c eq_refl).
  rewrite (bind_done (locked _) _ c (c_state (tick c)) (tick c) eq_refl).
  pose proof (tick_estimates c) as Hsame. pose proof (tick_worker c) as Hw. set (before := c_state (tick c)) in *.
  set (queue := w_queue (c_worker c)) in *. pose proof Hsame as (Hf & Ht & _ & Hp & _).
  assert (Hwfb : estimate_wf before) by (unfold estimate_wf in *; by rewrite Hf, Ht).
  rewrite Hp. set (intended := Z.min (max_udp_samples_per_packet (ts_profile (c_state c))) (points_len queue)).
  destruct (Z.eqb_spec intended 0) as [|Hne]; [simpl; rewrite Hw; by apply paced_nothing|].
  destruct (Z.ltb_spec (packet_budget (points_len queue) before) intended) as [|Hfits].
  { rewrite (bind_done (puts _) _ _ tt _ eq_refl). simpl. rewrite Hw. by apply paced_nothing. }
  assert (Hint : 0 < intended <= points_len queue) by (pose proof (points_len_nonneg queue); unfold profile_ok in Hprof; subst intended; lia).
  set (pts := take (Z.to_nat intended) queue). set (rest := drop (Z.to_nat intended) queue).
  assert (Hlen : points_len pts = intended) by (apply points_len_take; lia).
  set (c1 := upd_worker (set_queue rest) (tick c)). rewrite (bind_done (puts _) _ (tick c) tt c1 eq_refl).
  rewrite (bind_done (gets w_packet_sequence) _ c1 _ c1 eq_refl), (bind_done (gets transfer_sequence) _ c1 _ c1 eq_refl).
  assert (Hrate : current_rate (c_worker c1) = current_rate (c_worker c)) by (simpl; by rewrite Hw).
  assert (Hfail : forall c2, c_worker c2 = c_worker c1 -> same_estimates (c_state c) (c_state c2) ->
    result_of (current_rate (c_worker c)) (fun more c' => paced (c_state c) (c_state c') queue (w_queue (c_worker c')) more) (send_failed now pts c2)).
  { intros c2 Hw2 Hs2. pose proof (send_failed_result now pts c2 (current_rate (c_worker c))) as Hr.
    destruct (send_failed now pts c2) as [more c3|c3|c3]; [|done..]. destruct Hr as (-> & Hq & He). simpl. rewrite Hq, Hw2. simpl.
    unfold pts, rest. rewrite take_drop. apply paced_nothing. by eapply same_estimates_trans. }
  destruct (encode_sample_packet _ _ _) as [bytes|e]; [|by apply Hfail].
  set (c2 := emit (EvPacket (active_generation (c_worker (tick c1))) pts bytes (next_ok (tick c1))) (upd_send_ok (tail (c_send_ok (tick c1))) (tick c1))).
  rewrite (bind_done (send_data pts bytes) _ c1 (next_ok (tick c1)) c2 eq_refl).
  assert (Hw2 : c_worker c2 = c_worker c1) by apply tick_worker.
  assert (Hs2 : same_estimates (c_state c1) (c_state c2)) by apply (tick_estimates c1).
  destruct (next_ok (tick c1)); [|apply Hfail; [done|by eapply same_estimates_trans]].
  assert (Hback : same_estimates (c_state c2) before) by (destruct Hs2 as (? & ? & ? & ? & ? & ? & ?); repeat split; symmetry; done).
  pose proof (packet_sent_result now before pts c2 queue Hback Hwfb ltac:(lia)) as Hr. rewrite Hw2, Hrate in Hr.
  destruct (packet_sent now before pts c2) as [more c3|c3|c3]; [|done..].
  destruct Hr as (Hq & Hp3 & Ht3 & Hf3 & Hmore). simpl. split; [congruence|]. split; [congruence|]. right. exists pts.
  rewrite Hq. simpl. unfold pts at 1, rest. rewrite take_drop. split; [done|]. split; [intros Hnil; rewrite Hnil in Hlen; change (points_len []) with 0 in Hlen; lia|].
  pose proof (budget_fits (points_len queue) before (points_len pts) Hwfb ltac:(lia) ltac:(lia)) as Hcut.
  rewrite Hf, Ht, Hp in *. split; [done|]. split; [done|]. split; [|done]. by rewrite Hf3.
Qed.

Lemma send_loop_fuel now fuel : forall c,
  estimate_wf (c_state c) -> profile_ok (ts_profile (c_state c)) -> (length (w_queue (c_worker c)) <= fuel)%nat ->
  forall c', send_loop fuel now c <> OutOfFuel c'.
Proof.
  induction fuel as [|fuel IH]; intros c Hwf Hprof Hlen c'; cbn [send_loop];
    rewrite (bind_done (gets next_send_due) _ c _ c eq_refl), (bind_done (gets w_queue) _ c _ c eq_refl).
  - destruct (w_queue (c_worker c)); [|simpl in Hlen; lia]. by rewrite andb_false_r.
  - destruct (_ && _); [|done]. pose proof (send_one_result now c Hwf Hprof) as Hr.
    unfold mbind, M_bind. destruct (send_one_packet now c) as [more c1|c1|c1]; [|done..].
    destruct more; [|done]. destruct Hr as (Hp & Ht & [(_ & _ & ?)|(pts & Hq & Hne & _ & Hf & Hcut & _)]); [done|].
    apply IH; [|by rewrite Hp|].
    + unfold estimate_wf in *. pose proof (points_len_nonneg pts). rewrite Ht. lia.
    + rewrite Hq, length_app in Hlen. destruct pts; [done|]. simpl in Hlen. lia.
Qed.

(** Packets are paced: one attempt to send either leaves the queue and the
    estimate alone, or sends a non-empty packet from the head of the queue, full
    sized unless the queue is shorter, lowers the free estimate by its points and
    leaves the device estimated at or below the remote cutoff; the burst goes on
    only below it, and always ends. *)
Theorem packets_respect_cutoff now c :
  0 <= free_estimate (c_state c) <= buffer_total (c_state c) -> buffer_total (c_state c) <= 65535 ->
  profile_ok (ts_profile (c_state c)) ->
  result_of (current_rate (c_worker c))
    (fun more c' => paced (c_state c) (c_state c') (w_queue (c_worker c)) (w_queue (c_worker c')) more) (send_one_packet now c) /\
  forall c', try_send_due_packet now c <> OutOfFuel c'.
Proof.
  intros Hf Ht Hp. split; [by apply send_one_result|]. intros c'. unfold try_send_due_packet.
  set (c1 := emit (EvCheck (active_generation (c_worker (tick c)))) (tick c)).
  rewrite (bind_done check_generation _ c (active_generation (c_worker (tick c)) =? c_generation (tick c)) c1 eq_refl).
  destruct (_ =? _); [|done]. rewrite (bind_done (gets w_queue) _ c1 _ c1 eq_refl).
  destruct (tick_estimates c) as (Hf' & Ht' & _ & Hp' & _).
  apply send_loop_fuel; [|by simpl; rewrite Hp'|done]. unfold estimate_wf. simpl. by rewrite Hf', Ht'.
Qed.
End pacing.

Lemma packets_respect_cutoff_witness :
  let c := upd_worker (set_queue (replicate 200 Demo.dot)) (new_cube 0 1 Demo.status Demo.profile [] [] [] []) in
  exists more c', send_one_packet 0 c = Done more c' /\
    paced (c_state c) (c_state c') (w_queue (c_worker c)) (w_queue (c_worker c')) more /\ length (w_queue (c_worker c')) = 120%nat.
Proof.
  intros c. destruct (@packets_respect_cutoff stdlib_byte_order 0 c) as [Hr _].
  - vm_compute. split; congruence.
  - vm_compute. congruence.
  - vm_compute. split; congruence.
  - assert (Hlen : match send_one_packet 0 c with Done _ c' => length (w_queue (c_worker c')) = 120%nat | _ => False end)
      by (vm_compute; reflexivity).
    destruct (send_one_packet 0 c) as [more c'|c'|c']; [|done..]. exists more, c'. split; [done|]. split; [exact Hr|exact Hlen].
Defined.

(** ** Acknowledgements *)

(** Sequence arithmetic modulo 256. *)
Ltac mod_lia := unfold wrapu, wraps in *; Z.to_euclidean_division_equations; lia.

Lemma seq_newer_spec p q : 0 <= p < 256 -> 0 <= q < 256 -> seq_newer p q = true <-> 1 <= (q - p) mod 256 <= 127.
Proof.
  intros Hp Hq. unfold seq_newer. rewrite Z.ltb_lt. change (2 ^ 8) with 256.
  unfold wraps, wrapu. change (2 ^ 8) with 256. change (2 ^ (8 - 1)) with 128. mod_lia.
Qed.

(** Releasing the slots from [s] up to [sequence], wrapping around. *)
Lemma release_slots_spec fuel : forall s q times counts,
  0 <= s < 256 -> 0 <= q < 256 -> length counts = 256%nat -> (q - s) mod 256 <= Z.of_nat fuel ->
  exists times' counts', release_slots fuel s q times counts = Some (times', counts') /\
    forall i, 0 <= i < 256 ->
      counts' !! Z.to_nat i = if decide ((i - s) mod 256 < (q - s) mod 256) then Some 0 else counts !! Z.to_nat i.
Proof.
  induction fuel as [|fuel IH]; intros s q times counts Hs Hq Hl Hfuel; cbn [release_slots];
    (destruct (Z.eqb_spec s q) as [<-|Hne];
     [do 2 eexists; split; [reflexivity|]; intros i Hi; rewrite decide_False; [done|]; rewrite Z.sub_diag, Z.mod_0_l by lia; mod_lia|]).
  { exfalso. mod_lia. }
  destruct (IH (wrapu 8 (s + 1)) q (<[Z.to_nat s := None]> times) (<[Z.to_nat s := 0]> counts)) as (times' & counts' & -> & Hc).
  - unfold wrapu. change (2 ^ 8) with 256. mod_lia.
  - done.
  - by rewrite length_insert.
  - unfold wrapu. change (2 ^ 8) with 256. mod_lia.
  - do 2 eexists. split; [reflexivity|]. intros i Hi. rewrite (Hc i Hi). unfold wrapu. change (2 ^ 8) with 256.
    destruct (decide (i = s)) as [->|His].
    + rewrite (decide_True (P := (s - s) mod 256 < _)) by mod_lia. case_decide; [done|]. apply list_lookup_insert_eq. lia.
    + rewrite list_lookup_insert_ne by lia. destruct (decide ((i - s) mod 256 < (q - s) mod 256)) as [Hin|Hout].
      * rewrite decide_True by mod_lia. done.
      * rewrite decide_False by mod_lia. done.
Qed.

(** The sequence numbers after [p] up to [q]. *)
Definition in_window (p q i : Z) : Prop := 0 < (i - p) mod 256 <= (q - p) mod 256.
#[local] Instance in_window_dec p q i : Decision (in_window p q i).
Proof. unfold in_window. apply _. Defined.

Section acks.
Context `{ByteOrder}.

(** The end of an accepted acknowledgement. *)
Lemma apply_released now free q rtt slots c :
  (puts (set_slots slots.1 slots.2);;;
   lock_put (fun s => set_rtt rtt (apply_estimate now free (in_flight_samples slots.2) (Some q) s))) c =
  Done tt (upd_state (fun s => set_rtt rtt (apply_estimate now free (in_flight_samples slots.2) (Some q) s))
    (tick (upd_worker (set_slots slots.1 slots.2) c))).
Proof. by rewrite (bind_done (puts _) _ c tt _ eq_refl). Qed.

(** An acknowledgement counts exactly what is still in flight: of the packets
    outstanding, those after the last acknowledged sequence number up to the new
    one (in wrap-around order) are released and only the samples of the others are
    subtracted from the free space the device reports; an acknowledgement that is
    not newer releases its own slot and changes no estimate.  The walk over the
    slots always ends. *)
Theorem data_ack_accounting now free p q c :
  length (packet_sample_counts (c_worker c)) = 256%nat -> 0 <= p < 256 -> 0 <= q < 256 ->
  last_data_ack_sequence (c_state c) = Some p ->
  exists c', apply_data_ack now free q c = Done tt c' /\
    let counts := packet_sample_counts (c_worker c) in
    let counts' := packet_sample_counts (c_worker c') in
    if decide (1 <= (q - p) mod 256 <= 127) then
      (forall i, 0 <= i < 256 -> counts' !! Z.to_nat i = if decide (in_window p q i) then Some 0 else counts !! Z.to_nat i) /\
      free_estimate (c_state c') = Z.min (sat_sub free (in_flight_samples counts')) (buffer_total (c_state c)) /\
      last_data_ack_sequence (c_state c') = Some q
    else
      counts' = <[Z.to_nat q := 0]> counts /\ free_estimate (c_state c') = free_estimate (c_state c) /\
      last_data_ack_sequence (c_state c') = Some p.
Proof.
  intros Hl Hp Hq Hlast. unfold apply_data_ack. pose proof (tick_estimates c) as (Hf & Ht & _ & _ & Hs & _).
  pose proof (tick_worker c) as Hw.
  rewrite (bind_done (locked _) _ c (Some p) (tick c)) by (unfold locked; by rewrite Hs, Hlast).
  rewrite (bind_done (gets packet_send_times) _ _ _ _ eq_refl), (bind_done (gets packet_sample_counts) _ _ _ _ eq_refl).
  rewrite Hw. set (times := <[_ := None]> _). set (counts := <[_ := 0]> _). set (rtt := sat_sub now <$> _).
  set (c1 := upd_worker (set_slots times counts) (tick c)). rewrite (bind_done (puts _) _ (tick c) tt c1 eq_refl).
  pose proof (seq_newer_spec p q Hp Hq) as Hnewer. pose proof (tick_worker c1) as Hw1.
  pose proof (tick_estimates c1) as (Hf1 & Ht1 & _ & _ & Hs1 & _). simpl in Hf1, Ht1, Hs1.
  case_decide as Hd.
  - rewrite (proj2 Hnewer Hd). cbn [negb].
    destruct (release_slots_spec 256 (wrapu 8 (p + 1)) q times counts) as (times' & counts' & Hrel & Hc);
      [mod_lia|done|unfold counts; by rewrite length_insert|mod_lia|].
    rewrite Hrel, (bind_done (of_option (Some (times', counts'))) _ c1 (times', counts') c1 eq_refl), apply_released. eexists. split; [reflexivity|].
    set (c2 := upd_worker (set_slots (times', counts').1 (times', counts').2) c1).
    pose proof (tick_worker c2) as Hw2. pose proof (tick_estimates c2) as (_ & Ht2 & _ & _ & _ & _).
    cbn [upd_state c_worker c_state set_rtt apply_estimate set_ack set_estimate free_estimate last_data_ack_sequence].
    rewrite Hw2, Ht2. cbn. split; [|split; [by rewrite Ht|done]].
    intros i Hi. rewrite (Hc i Hi). unfold counts. destruct (decide (in_window p q i)) as [Hin|Hout]; unfold in_window in *.
    + destruct (decide (i = q)) as [->|Hiq].
      * rewrite decide_False by mod_lia. apply list_lookup_insert_eq. lia.
      * rewrite decide_True by mod_lia. done.
    + rewrite decide_False by mod_lia. apply list_lookup_insert_ne. intros Heq. apply Hout. assert (i = q) by lia. subst. mod_lia.
  - destruct (seq_newer p q); [exfalso; by apply Hd, Hnewer|]. cbn [negb]. eexists. split; [reflexivity|].
    cbn [upd_state c_worker c_state set_rtt set_comms free_estimate last_data_ack_sequence]. rewrite Hw1, Hf1, Hs1. cbn.
    by rewrite Hf, Hs.
Qed.
End acks.

Lemma data_ack_accounting_witness :
  let counts := <[254%nat := 80]> (<[255%nat := 80]> (<[0%nat := 70]> (<[1%nat := 60]> (replicate 256 0)))) in
  let c := upd_state (set_ack 0 5000 (Some 253))
    (upd_worker (set_slots (replicate 256 None) counts) (new_cube 0 1 Demo.status Demo.profile [] [] [] [])) in
  exists c', apply_data_ack 9 4000 255 c = Done tt c' /\ free_estimate (c_state c') = 3870.
Proof.
  intros counts c. destruct (data_ack_accounting 9 4000 253 255 c) as (c' & Hrun & _);
    [reflexivity|lia|lia|reflexivity|].
  exists c'. split; [exact Hrun|]. vm_compute in Hrun. injection Hrun as <-. vm_compute. reflexivity.
Defined.

(** ** The host queue counter and output-off *)

(** The output is turned off and the next chunk enqueued before the worker looks
    at its messages. *)
Definition off_then_enqueue : list (list hop) :=
  [[HCall (CallSetOutput false); HCall (CallEnqueue 30000 (replicate 100 Demo.dot)); HContinue]].

(** Turning the output off forgets reservations: a chunk enqueued after the
    call but before the worker processes it is accepted and queued for the
    device, yet the worker's clearing of the counter has already dropped its
    reservation, so the host queue counter and the fullness estimate report an
    empty queue while points are waiting. *)
Theorem output_off_forgets_reservations :
  exists c, (process_priority_commands;;; process_commands)
      (new_cube 0 1 Demo.status Demo.profile off_then_enqueue [] [] []) = Done tt c /\
    length (accepted (active_generation (c_worker c)) (c_trace c)) = 100%nat /\
    length (w_queue (c_worker c)) = 100%nat /\
    host_queue_len (c_state c) = 0 /\ estimated_fullness 0 (c_state c) = 0.
Proof. eexists. split; [vm_compute; reflexivity|]. vm_compute. done. Qed.
