(* ===== verification/IdnProtocol.v ===== *)
(** * The IDN protocol: messages and points

    Models [src/src/protocols/idn/protocol.rs]: the constants, the message and
    point structs, their traits [WriteToBytes], [ReadFromBytes], [SizeBytes] and
    [Point] as classes, the conversions from laser points and the channel
    descriptors.  [WireFormat] is what the structs promise their users: writing
    round-trips, has the stated size, and a successful read consumed exactly the
    encoding of its result. *)

From S2P Require Import Prelude Floats Point Bytes Utf8.

(** ** Constants *)
Definition IDN_PORT : Z := 7255.
Definition MAX_UDP_PAYLOAD : nat := 1454.
Definition IDNCMD_PING_REQUEST : Z := 0x08.
Definition IDNCMD_PING_RESPONSE : Z := 0x09.
Definition IDNCMD_GROUP_REQUEST : Z := 0x0C.
Definition IDNCMD_GROUP_RESPONSE : Z := 0x0D.
Definition IDNCMD_SCAN_REQUEST : Z := 0x10.
Definition IDNCMD_SCAN_RESPONSE : Z := 0x11.
Definition IDNCMD_SERVICEMAP_REQUEST : Z := 0x12.
Definition IDNCMD_SERVICEMAP_RESPONSE : Z := 0x13.
Definition IDNCMD_SERVICE_PARAMS_REQUEST : Z := 0x20.
Definition IDNCMD_SERVICE_PARAMS_RESPONSE : Z := 0x21.
Definition IDNCMD_UNIT_PARAMS_REQUEST : Z := 0x22.
Definition IDNCMD_UNIT_PARAMS_RESPONSE : Z := 0x23.
Definition IDNCMD_RT_CNLMSG : Z := 0x40.
Definition IDNCMD_RT_CNLMSG_ACKREQ : Z := 0x41.
Definition IDNCMD_RT_CNLMSG_CLOSE : Z := 0x44.
Definition IDNCMD_RT_CNLMSG_CLOSE_ACKREQ : Z := 0x45.
Definition IDNCMD_RT_ACKNOWLEDGE : Z := 0x47.
Definition IDNMSK_PKTFLAGS_GROUP : Z := 0x0F.
Definition IDNFLG_SCAN_STATUS_MALFUNCTION : Z := 0x80.
Definition IDNFLG_SCAN_STATUS_OFFLINE : Z := 0x40.
Definition IDNFLG_SCAN_STATUS_EXCLUDED : Z := 0x20.
Definition IDNFLG_SCAN_STATUS_OCCUPIED : Z := 0x10.
Definition IDNFLG_SCAN_STATUS_REALTIME : Z := 0x01.
Definition IDNVAL_GROUPOP_GETMASK : Z := 0x01.
Definition IDNVAL_GROUPOP_SETMASK : Z := 0x02.
Definition IDNVAL_STYPE_UART : Z := 0x04.
Definition IDNVAL_STYPE_DMX512 : Z := 0x05.
Definition IDNVAL_STYPE_LAPRO : Z := 0x80.
Definition IDNVAL_RTACK_ERR_NOT_CONNECTED : Z := 0xEB.
Definition IDNVAL_RTACK_ERR_OCCUPIED : Z := 0xEC.
Definition IDNVAL_RTACK_ERR_EXCLUDED : Z := 0xED.
Definition IDNVAL_RTACK_ERR_INVALID_PAYLOAD : Z := 0xEE.
Definition IDNVAL_RTACK_ERR_PROCESSING_ERROR : Z := 0xEF.
Definition IDNFLG_SERVICEMAP_DSID : Z := 0x01.
Definition IDNFLG_CONTENTID_CHANNELMSG : Z := 0x8000.
Definition IDNFLG_CONTENTID_CONFIG_LSTFRG : Z := 0x4000.
Definition IDNMSK_CONTENTID_CHANNELID : Z := 0x3F00.
Definition IDNMSK_CONTENTID_CNKTYPE : Z := 0x00FF.
Definition IDNVAL_CNKTYPE_VOID : Z := 0x00.
Definition IDNVAL_CNKTYPE_LPGRF_WAVE : Z := 0x01.
Definition IDNVAL_CNKTYPE_LPGRF_FRAME : Z := 0x02.
Definition IDNVAL_CNKTYPE_LPGRF_FRAME_FIRST : Z := 0x03.
Definition IDNVAL_CNKTYPE_LPGRF_FRAME_SEQUEL : Z := 0xC0.
Definition IDNFLG_CHNCFG_ROUTING : Z := 0x01.
Definition IDNFLG_CHNCFG_CLOSE : Z := 0x02.
Definition IDNVAL_SMOD_VOID : Z := 0x00.
Definition IDNVAL_SMOD_LPGRF_CONTINUOUS : Z := 0x01.
Definition IDNVAL_SMOD_LPGRF_DISCRETE : Z := 0x02.
Definition XYRGBI_SAMPLE_SIZE : nat := 8.
Definition XYRGB_HIGHRES_SAMPLE_SIZE : nat := 10.
Definition EXTENDED_SAMPLE_SIZE : nat := 20.

(** ** Structs *)

(** IDN packet header, in front of every packet. *)
Record PacketHeader := mkPacketHeader {
  ph_command : Z;
  ph_flags : Z;
  ph_sequence : Z;
}.

(** The answer to a scan request. *)
Record ScanResponse := mkScanResponse {
  sr_struct_size : Z;
  sr_protocol_version : Z;
  sr_status : Z;
  sr_reserved : Z;
  sr_unit_id : list Z;
  sr_hostname : list Z;
}.

(** The header of a service map. *)
Record ServiceMapResponseHeader := mkServiceMapResponseHeader {
  sm_struct_size : Z;
  sm_entry_size : Z;
  sm_relay_entry_count : Z;
  sm_service_entry_count : Z;
}.

(** A relay or service of a service map. *)
Record ServiceMapEntry := mkServiceMapEntry {
  se_service_id : Z;
  se_service_type : Z;
  se_flags : Z;
  se_relay_number : Z;
  se_name : list Z;
}.

(** The header of a channel message. *)
Record ChannelMessageHeader := mkChannelMessageHeader {
  cm_total_size : Z;
  cm_content_id : Z;
  cm_timestamp : Z;
}.

(** The header of a channel configuration. *)
Record ChannelConfigHeader := mkChannelConfigHeader {
  cc_word_count : Z;
  cc_flags : Z;
  cc_service_id : Z;
  cc_service_mode : Z;
}.

(** Flags and duration of a sample chunk. *)
Record SampleChunkHeader := mkSampleChunkHeader {
  sc_flags_duration : Z;
}.

(** The acknowledgement of a real-time message. *)
Record AcknowledgeResponse := mkAcknowledgeResponse {
  ack_struct_size : Z;
  ack_result_code : Z;
  ack_input_event_flags : Z;
  ack_pipeline_event_flags : Z;
  ack_status_flags : Z;
  ack_link_quality : Z;
  ack_latency_us : Z;
}.

(** A client-group request. *)
Record GroupRequest := mkGroupRequest {
  gq_struct_size : Z;
  gq_op_code : Z;
  gq_group_mask : Z;
  gq_auth_code : list Z;
}.

(** A client-group response. *)
Record GroupResponse := mkGroupResponse {
  gr_struct_size : Z;
  gr_op_code : Z;
  gr_group_mask : Z;
}.

(** A parameter get request. *)
Record ParameterGetRequest := mkParameterGetRequest {
  pg_service_id : Z;
  pg_reserved : Z;
  pg_param_id : Z;
}.

(** A parameter response. *)
Record ParameterResponse := mkParameterResponse {
  pr_service_id : Z;
  pr_result_code : Z;
  pr_param_id : Z;
  pr_value : Z;
}.

(** A parameter set request. *)
Record ParameterSetRequest := mkParameterSetRequest {
  ps_service_id : Z;
  ps_reserved : Z;
  ps_param_id : Z;
  ps_value : Z;
}.

(** The 8-byte point. *)
Record PointXyrgbi := mkPointXyrgbi {
  px_x : Z;
  px_y : Z;
  px_r : Z;
  px_g : Z;
  px_b : Z;
  px_i : Z;
}.

(** The 10-byte point. *)
Record PointXyrgbHighRes := mkPointXyrgbHighRes {
  hp_x : Z;
  hp_y : Z;
  hp_r : Z;
  hp_g : Z;
  hp_b : Z;
}.

(** The 20-byte point. *)
Record PointExtended := mkPointExtended {
  xp_x : Z;
  xp_y : Z;
  xp_r : Z;
  xp_g : Z;
  xp_b : Z;
  xp_i : Z;
  xp_u1 : Z;
  xp_u2 : Z;
  xp_u3 : Z;
  xp_u4 : Z;
}.

(** ** The traits *)

(** Writing into a [Vec<u8>] cannot fail: a writer is its bytes. *)
Class WriteToBytes (P : Type) := write_to_bytes : P -> list Z.

Class ReadFromBytes (P : Type) := read_from_bytes : reader P.

Class SizeBytes (P : Type) := SIZE_BYTES : nat.
Arguments SIZE_BYTES P {_}.

(** [null_terminated_str]: the text before the first zero byte, empty when it is
    not UTF-8. *)
Fixpoint before_nul (bs : list Z) : list Z :=
  match bs with
  | [] => []
  | b :: bs => if b =? 0 then [] else b :: before_nul bs
  end.

Definition null_terminated_str (bs : list Z) : str := default [] (from_utf8 (before_nul bs)).

Definition hostname_str (m : ScanResponse) : str := null_terminated_str (sr_hostname m).

Definition name_str (m : ServiceMapEntry) : str := null_terminated_str (se_name m).

(** ** Accessors and constructors *)

(** [SampleChunkHeader::new], [flags] and [duration_us]. *)
Definition SampleChunkHeader_new (flags duration_us : Z) : SampleChunkHeader :=
  mkSampleChunkHeader (Z.lor (wrapu 32 (Z.shiftl flags 24)) (Z.land duration_us 0x00FFFFFF)).

Definition sc_flags (m : SampleChunkHeader) : Z := wrapu 8 (Z.shiftr (sc_flags_duration m) 24).

Definition sc_duration_us (m : SampleChunkHeader) : Z := Z.land (sc_flags_duration m) 0x00FFFFFF.

Definition ack_is_success (m : AcknowledgeResponse) : bool := 0 <=? ack_result_code m.

(** [latency]: nanoseconds. *)
Definition ack_latency (m : AcknowledgeResponse) : Z := ack_latency_us m * 1000.

Definition GroupRequest_get : GroupRequest := mkGroupRequest 16 IDNVAL_GROUPOP_GETMASK 0 (replicate 12 0).

Definition GroupRequest_set (mask : Z) : GroupRequest := mkGroupRequest 16 IDNVAL_GROUPOP_SETMASK mask (replicate 12 0).

Definition GroupRequest_set_with_auth (mask : Z) (auth : list Z) : GroupRequest :=
  let len := Nat.min (length auth) 12 in
  mkGroupRequest 16 IDNVAL_GROUPOP_SETMASK mask (take len auth ++ replicate (12 - len) 0).

Definition gr_is_success (m : GroupResponse) : bool := 0 <=? gr_op_code m.

Definition is_group_enabled (m : GroupResponse) (group : Z) : bool :=
  if 15 <? group then false else negb (Z.land (gr_group_mask m) (Z.shiftl 1 group) =? 0).

Definition enabled_groups (m : GroupResponse) : list Z :=
  filter (fun g => is_group_enabled m g = true) (seqZ 0 16).

Definition pr_is_success (m : ParameterResponse) : bool := 0 <=? pr_result_code m.

Definition is_relay (m : ServiceMapEntry) : bool := se_service_id m =? 0.

(** ** Points from laser points *)

Definition xyrgbi_of (p : LaserPoint) : PointXyrgbi :=
  mkPointXyrgbi (coord_to_i16_inverted (lp_x p)) (coord_to_i16_inverted (lp_y p))
    (color_to_u8 (lp_r p)) (color_to_u8 (lp_g p)) (color_to_u8 (lp_b p)) (color_to_u8 (lp_intensity p)).

(** The dimmer is premultiplied; the product is computed in 32 bits. *)
Definition dim (intensity c : Z) : Z := wrapu 16 (wrapu 32 (c * intensity) / 65535).

Definition high_res_of (p : LaserPoint) : PointXyrgbHighRes :=
  mkPointXyrgbHighRes (coord_to_i16_inverted (lp_x p)) (coord_to_i16_inverted (lp_y p))
    (dim (lp_intensity p) (lp_r p)) (dim (lp_intensity p) (lp_g p)) (dim (lp_intensity p) (lp_b p)).

Definition extended_of (p : LaserPoint) : PointExtended :=
  mkPointExtended (coord_to_i16_inverted (lp_x p)) (coord_to_i16_inverted (lp_y p))
    (lp_r p) (lp_g p) (lp_b p) (lp_intensity p) 0 0 0 0.

(** ** Channel descriptors *)

Definition XYRGBI : list Z := [0x4200; 0x4010; 0x4210; 0x4010; 0x527E; 0x5214; 0x51CC; 0x5C10].

Definition XYRGB_HIGHRES : list Z :=
  [0x4200; 0x4010; 0x4210; 0x4010; 0x527E; 0x4010; 0x5214; 0x4010; 0x51CC; 0x4010].

Definition EXTENDED : list Z :=
  [0x4200; 0x4010; 0x4210; 0x4010; 0x527E; 0x4010; 0x5214; 0x4010; 0x51CC; 0x4010;
   0x5C10; 0x4010; 0x51BD; 0x4010; 0x5241; 0x4010; 0x51E8; 0x4010; 0x4201; 0x4010].

(** ** Writers and readers *)
Section messages.
Context `{ByteOrder}.

#[export] Instance PacketHeader_write : WriteToBytes PacketHeader := fun m =>
  write_u8 (ph_command m) ++ write_u8 (ph_flags m) ++ write_u16_be (ph_sequence m).

#[export] Instance ScanResponse_write : WriteToBytes ScanResponse := fun m =>
  write_u8 (sr_struct_size m) ++ write_u8 (sr_protocol_version m) ++ write_u8 (sr_status m) ++
  write_u8 (sr_reserved m) ++ write_array (sr_unit_id m) ++ write_array (sr_hostname m).

#[export] Instance ServiceMapResponseHeader_write : WriteToBytes ServiceMapResponseHeader := fun m =>
  write_u8 (sm_struct_size m) ++ write_u8 (sm_entry_size m) ++ write_u8 (sm_relay_entry_count m) ++
  write_u8 (sm_service_entry_count m).

#[export] Instance ServiceMapEntry_write : WriteToBytes ServiceMapEntry := fun m =>
  write_u8 (se_service_id m) ++ write_u8 (se_service_type m) ++ write_u8 (se_flags m) ++
  write_u8 (se_relay_number m) ++ write_array (se_name m).

#[export] Instance ChannelMessageHeader_write : WriteToBytes ChannelMessageHeader := fun m =>
  write_u16_be (cm_total_size m) ++ write_u16_be (cm_content_id m) ++ write_u32_be (cm_timestamp m).

#[export] Instance ChannelConfigHeader_write : WriteToBytes ChannelConfigHeader := fun m =>
  write_u8 (cc_word_count m) ++ write_u8 (cc_flags m) ++ write_u8 (cc_service_id m) ++
  write_u8 (cc_service_mode m).

#[export] Instance SampleChunkHeader_write : WriteToBytes SampleChunkHeader := fun m =>
  write_u32_be (sc_flags_duration m).

#[export] Instance AcknowledgeResponse_write : WriteToBytes AcknowledgeResponse := fun m =>
  write_u8 (ack_struct_size m) ++ write_i8 (ack_result_code m) ++ write_u16_be (ack_input_event_flags m) ++
  write_u16_be (ack_pipeline_event_flags m) ++ write_u8 (ack_status_flags m) ++ write_u8 (ack_link_quality m) ++
  write_u16_be (ack_latency_us m).

#[export] Instance GroupRequest_write : WriteToBytes GroupRequest := fun m =>
  write_u8 (gq_struct_size m) ++ write_i8 (gq_op_code m) ++ write_u16_be (gq_group_mask m) ++
  write_array (gq_auth_code m).

#[export] Instance GroupResponse_write : WriteToBytes GroupResponse := fun m =>
  write_u8 (gr_struct_size m) ++ write_i8 (gr_op_code m) ++ write_u16_be (gr_group_mask m).

#[export] Instance ParameterGetRequest_write : WriteToBytes ParameterGetRequest := fun m =>
  write_u8 (pg_service_id m) ++ write_u8 (pg_reserved m) ++ write_u16_be (pg_param_id m).

#[export] Instance ParameterResponse_write : WriteToBytes ParameterResponse := fun m =>
  write_u8 (pr_service_id m) ++ write_i8 (pr_result_code m) ++ write_u16_be (pr_param_id m) ++
  write_u32_be (pr_value m).

#[export] Instance ParameterSetRequest_write : WriteToBytes ParameterSetRequest := fun m =>
  write_u8 (ps_service_id m) ++ write_u8 (ps_reserved m) ++ write_u16_be (ps_param_id m) ++
  write_u32_be (ps_value m).

#[export] Instance PointXyrgbi_write : WriteToBytes PointXyrgbi := fun m =>
  write_i16_be (px_x m) ++ write_i16_be (px_y m) ++ write_u8 (px_r m) ++ write_u8 (px_g m) ++
  write_u8 (px_b m) ++ write_u8 (px_i m).

#[export] Instance PointXyrgbHighRes_write : WriteToBytes PointXyrgbHighRes := fun m =>
  write_i16_be (hp_x m) ++ write_i16_be (hp_y m) ++ write_u16_be (hp_r m) ++ write_u16_be (hp_g m) ++
  write_u16_be (hp_b m).

#[export] Instance PointExtended_write : WriteToBytes PointExtended := fun m =>
  write_i16_be (xp_x m) ++ write_i16_be (xp_y m) ++ write_u16_be (xp_r m) ++ write_u16_be (xp_g m) ++
  write_u16_be (xp_b m) ++ write_u16_be (xp_i m) ++ write_u16_be (xp_u1 m) ++ write_u16_be (xp_u2 m) ++
  write_u16_be (xp_u3 m) ++ write_u16_be (xp_u4 m).

#[export] Instance PacketHeader_read : ReadFromBytes PacketHeader :=
  command_ ← read_u8; flags_ ← read_u8; sequence_ ← read_u16_be;
  mret (mkPacketHeader command_ flags_ sequence_).

#[export] Instance PacketHeader_size : SizeBytes PacketHeader := 4%nat.

#[export] Instance ScanResponse_read : ReadFromBytes ScanResponse :=
  struct_size_ ← read_u8; protocol_version_ ← read_u8; status_ ← read_u8; reserved_ ← read_u8;
  unit_id_ ← (read_array 16); hostname_ ← (read_array 20);
  mret (mkScanResponse struct_size_ protocol_version_ status_ reserved_ unit_id_ hostname_).

#[export] Instance ScanResponse_size : SizeBytes ScanResponse := 40%nat.

#[export] Instance ServiceMapResponseHeader_read : ReadFromBytes ServiceMapResponseHeader :=
  struct_size_ ← read_u8; entry_size_ ← read_u8; relay_entry_count_ ← read_u8; service_entry_count_ ← read_u8;
  mret (mkServiceMapResponseHeader struct_size_ entry_size_ relay_entry_count_ service_entry_count_).

#[export] Instance ServiceMapResponseHeader_size : SizeBytes ServiceMapResponseHeader := 4%nat.

#[export] Instance ServiceMapEntry_read : ReadFromBytes ServiceMapEntry :=
  service_id_ ← read_u8; service_type_ ← read_u8; flags_ ← read_u8; relay_number_ ← read_u8;
  name_ ← (read_array 20);
  mret (mkServiceMapEntry service_id_ service_type_ flags_ relay_number_ name_).

#[export] Instance ServiceMapEntry_size : SizeBytes ServiceMapEntry := 24%nat.

#[export] Instance ChannelMessageHeader_read : ReadFromBytes ChannelMessageHeader :=
  total_size_ ← read_u16_be; content_id_ ← read_u16_be; timestamp_ ← read_u32_be;
  mret (mkChannelMessageHeader total_size_ content_id_ timestamp_).

#[export] Instance ChannelMessageHeader_size : SizeBytes ChannelMessageHeader := 8%nat.

#[export] Instance ChannelConfigHeader_read : ReadFromBytes ChannelConfigHeader :=
  word_count_ ← read_u8; flags_ ← read_u8; service_id_ ← read_u8; service_mode_ ← read_u8;
  mret (mkChannelConfigHeader word_count_ flags_ service_id_ service_mode_).

#[export] Instance ChannelConfigHeader_size : SizeBytes ChannelConfigHeader := 4%nat.

#[export] Instance SampleChunkHeader_read : ReadFromBytes SampleChunkHeader :=
  flags_duration_ ← read_u32_be;
  mret (mkSampleChunkHeader flags_duration_).

#[export] Instance SampleChunkHeader_size : SizeBytes SampleChunkHeader := 4%nat.

#[export] Instance AcknowledgeResponse_read : ReadFromBytes AcknowledgeResponse :=
  struct_size_ ← read_u8; result_code_ ← read_i8; input_event_flags_ ← read_u16_be;
  pipeline_event_flags_ ← read_u16_be; status_flags_ ← read_u8; link_quality_ ← read_u8;
  latency_us_ ← read_u16_be;
  mret (mkAcknowledgeResponse struct_size_ result_code_ input_event_flags_ pipeline_event_flags_ status_flags_ link_quality_ latency_us_).

#[export] Instance AcknowledgeResponse_size : SizeBytes AcknowledgeResponse := 10%nat.

#[export] Instance GroupRequest_read : ReadFromBytes GroupRequest :=
  struct_size_ ← read_u8; op_code_ ← read_i8; group_mask_ ← read_u16_be; auth_code_ ← (read_array 12);
  mret (mkGroupRequest struct_size_ op_code_ group_mask_ auth_code_).

#[export] Instance GroupRequest_size : SizeBytes GroupRequest := 16%nat.

#[export] Instance GroupResponse_read : ReadFromBytes GroupResponse :=
  struct_size_ ← read_u8; op_code_ ← read_i8; group_mask_ ← read_u16_be;
  mret (mkGroupResponse struct_size_ op_code_ group_mask_).

#[export] Instance GroupResponse_size : SizeBytes GroupResponse := 4%nat.

#[export] Instance ParameterGetRequest_read : ReadFromBytes ParameterGetRequest :=
  service_id_ ← read_u8; reserved_ ← read_u8; param_id_ ← read_u16_be;
  mret (mkParameterGetRequest service_id_ reserved_ param_id_).

#[export] Instance ParameterGetRequest_size : SizeBytes ParameterGetRequest := 4%nat.

#[export] Instance ParameterResponse_read : ReadFromBytes ParameterResponse :=
  service_id_ ← read_u8; result_code_ ← read_i8; param_id_ ← read_u16_be; value_ ← read_u32_be;
  mret (mkParameterResponse service_id_ result_code_ param_id_ value_).

#[export] Instance ParameterResponse_size : SizeBytes ParameterResponse := 8%nat.

#[export] Instance ParameterSetRequest_read : ReadFromBytes ParameterSetRequest :=
  service_id_ ← read_u8; reserved_ ← read_u8; param_id_ ← read_u16_be; value_ ← read_u32_be;
  mret (mkParameterSetRequest service_id_ reserved_ param_id_ value_).

#[export] Instance ParameterSetRequest_size : SizeBytes ParameterSetRequest := 8%nat.

#[export] Instance PointXyrgbi_read : ReadFromBytes PointXyrgbi :=
  x_ ← read_i16_be; y_ ← read_i16_be; r_ ← read_u8; g_ ← read_u8; b_ ← read_u8; i_ ← read_u8;
  mret (mkPointXyrgbi x_ y_ r_ g_ b_ i_).

#[export] Instance PointXyrgbi_size : SizeBytes PointXyrgbi := 8%nat.

#[export] Instance PointXyrgbHighRes_read : ReadFromBytes PointXyrgbHighRes :=
  x_ ← read_i16_be; y_ ← read_i16_be; r_ ← read_u16_be; g_ ← read_u16_be; b_ ← read_u16_be;
  mret (mkPointXyrgbHighRes x_ y_ r_ g_ b_).

#[export] Instance PointXyrgbHighRes_size : SizeBytes PointXyrgbHighRes := 10%nat.

#[export] Instance PointExtended_read : ReadFromBytes PointExtended :=
  x_ ← read_i16_be; y_ ← read_i16_be; r_ ← read_u16_be; g_ ← read_u16_be; b_ ← read_u16_be; i_ ← read_u16_be;
  u1_ ← read_u16_be; u2_ ← read_u16_be; u3_ ← read_u16_be; u4_ ← read_u16_be;
  mret (mkPointExtended x_ y_ r_ g_ b_ i_ u1_ u2_ u3_ u4_).

#[export] Instance PointExtended_size : SizeBytes PointExtended := 20%nat.

(** ** The [Point] trait *)

(** Its default [encode_batch_into]: [write_to_bytes] of each point in turn. *)
Definition default_encode_batch {P} `{WriteToBytes P} (points : list P) (buf : list Z) : list Z :=
  foldl (fun buf p => buf ++ write_to_bytes p) buf points.

(** [PointXyrgbi::encode_batch]. *)
Definition encode_batch (points : list PointXyrgbi) (buf : list Z) : list Z :=
  foldl (fun buf p =>
    let xb := be_bytes 2 (wrapu 16 (px_x p)) in
    let yb := be_bytes 2 (wrapu 16 (px_y p)) in
    buf ++ xb ++ yb ++ [px_r p; px_g p; px_b p; px_i p]) buf points.

Class IdnPoint (P : Type) := {
  #[global] point_write :: WriteToBytes P;
  #[global] point_read :: ReadFromBytes P;
  #[global] point_size :: SizeBytes P;
  point_x : P -> Z;
  point_y : P -> Z;
  encode_batch_into : list P -> list Z -> list Z;
}.

#[export] Instance PointXyrgbi_point : IdnPoint PointXyrgbi :=
  {| point_x := px_x; point_y := px_y; encode_batch_into := encode_batch |}.

#[export] Instance PointXyrgbHighRes_point : IdnPoint PointXyrgbHighRes :=
  {| point_x := hp_x; point_y := hp_y; encode_batch_into := default_encode_batch |}.

#[export] Instance PointExtended_point : IdnPoint PointExtended :=
  {| point_x := xp_x; point_y := xp_y; encode_batch_into := default_encode_batch |}.

(** ** Fields in range *)

Definition ph_wf (m : PacketHeader) : Prop :=
  0 <= ph_command m < 2 ^ 8 /\ 0 <= ph_flags m < 2 ^ 8 /\ 0 <= ph_sequence m < 2 ^ 16.

Definition sr_wf (m : ScanResponse) : Prop :=
  0 <= sr_struct_size m < 2 ^ 8 /\ 0 <= sr_protocol_version m < 2 ^ 8 /\ 0 <= sr_status m < 2 ^ 8 /\
  0 <= sr_reserved m < 2 ^ 8 /\ (length (sr_unit_id m) = 16%nat /\ bytes (sr_unit_id m)) /\
  (length (sr_hostname m) = 20%nat /\ bytes (sr_hostname m)).

Definition sm_wf (m : ServiceMapResponseHeader) : Prop :=
  0 <= sm_struct_size m < 2 ^ 8 /\ 0 <= sm_entry_size m < 2 ^ 8 /\ 0 <= sm_relay_entry_count m < 2 ^ 8 /\
  0 <= sm_service_entry_count m < 2 ^ 8.

Definition se_wf (m : ServiceMapEntry) : Prop :=
  0 <= se_service_id m < 2 ^ 8 /\ 0 <= se_service_type m < 2 ^ 8 /\ 0 <= se_flags m < 2 ^ 8 /\
  0 <= se_relay_number m < 2 ^ 8 /\ (length (se_name m) = 20%nat /\ bytes (se_name m)).

Definition cm_wf (m : ChannelMessageHeader) : Prop :=
  0 <= cm_total_size m < 2 ^ 16 /\ 0 <= cm_content_id m < 2 ^ 16 /\ 0 <= cm_timestamp m < 2 ^ 32.

Definition cc_wf (m : ChannelConfigHeader) : Prop :=
  0 <= cc_word_count m < 2 ^ 8 /\ 0 <= cc_flags m < 2 ^ 8 /\ 0 <= cc_service_id m < 2 ^ 8 /\
  0 <= cc_service_mode m < 2 ^ 8.

Definition sc_wf (m : SampleChunkHeader) : Prop :=
  0 <= sc_flags_duration m < 2 ^ 32.

Definition ack_wf (m : AcknowledgeResponse) : Prop :=
  0 <= ack_struct_size m < 2 ^ 8 /\ in_s 8 (ack_result_code m) /\ 0 <= ack_input_event_flags m < 2 ^ 16 /\
  0 <= ack_pipeline_event_flags m < 2 ^ 16 /\ 0 <= ack_status_flags m < 2 ^ 8 /\
  0 <= ack_link_quality m < 2 ^ 8 /\ 0 <= ack_latency_us m < 2 ^ 16.

Definition gq_wf (m : GroupRequest) : Prop :=
  0 <= gq_struct_size m < 2 ^ 8 /\ in_s 8 (gq_op_code m) /\ 0 <= gq_group_mask m < 2 ^ 16 /\
  (length (gq_auth_code m) = 12%nat /\ bytes (gq_auth_code m)).

Definition gr_wf (m : GroupResponse) : Prop :=
  0 <= gr_struct_size m < 2 ^ 8 /\ in_s 8 (gr_op_code m) /\ 0 <= gr_group_mask m < 2 ^ 16.

Definition pg_wf (m : ParameterGetRequest) : Prop :=
  0 <= pg_service_id m < 2 ^ 8 /\ 0 <= pg_reserved m < 2 ^ 8 /\ 0 <= pg_param_id m < 2 ^ 16.

Definition pr_wf (m : ParameterResponse) : Prop :=
  0 <= pr_service_id m < 2 ^ 8 /\ in_s 8 (pr_result_code m) /\ 0 <= pr_param_id m < 2 ^ 16 /\
  0 <= pr_value m < 2 ^ 32.

Definition ps_wf (m : ParameterSetRequest) : Prop :=
  0 <= ps_service_id m < 2 ^ 8 /\ 0 <= ps_reserved m < 2 ^ 8 /\ 0 <= ps_param_id m < 2 ^ 16 /\
  0 <= ps_value m < 2 ^ 32.

Definition px_wf (m : PointXyrgbi) : Prop :=
  in_s 16 (px_x m) /\ in_s 16 (px_y m) /\ 0 <= px_r m < 2 ^ 8 /\ 0 <= px_g m < 2 ^ 8 /\ 0 <= px_b m < 2 ^ 8 /\
  0 <= px_i m < 2 ^ 8.

Definition hp_wf (m : PointXyrgbHighRes) : Prop :=
  in_s 16 (hp_x m) /\ in_s 16 (hp_y m) /\ 0 <= hp_r m < 2 ^ 16 /\ 0 <= hp_g m < 2 ^ 16 /\ 0 <= hp_b m < 2 ^ 16.

Definition xp_wf (m : PointExtended) : Prop :=
  in_s 16 (xp_x m) /\ in_s 16 (xp_y m) /\ 0 <= xp_r m < 2 ^ 16 /\ 0 <= xp_g m < 2 ^ 16 /\ 0 <= xp_b m < 2 ^ 16 /\
  0 <= xp_i m < 2 ^ 16 /\ 0 <= xp_u1 m < 2 ^ 16 /\ 0 <= xp_u2 m < 2 ^ 16 /\ 0 <= xp_u3 m < 2 ^ 16 /\
  0 <= xp_u4 m < 2 ^ 16.

(** ** The contract of the wire structs *)

Class WireFormat (P : Type) `{WriteToBytes P, ReadFromBytes P, SizeBytes P} := {
  wire_wf : P -> Prop;
  wire_round p rest : wire_wf p -> read_from_bytes (write_to_bytes p ++ rest) = IoOk (p, rest);
  wire_length p : wire_wf p -> length (write_to_bytes p) = SIZE_BYTES P;
  wire_sound bs p rest :
    bytes bs -> read_from_bytes bs = IoOk (p, rest) -> wire_wf p /\ bs = write_to_bytes p ++ rest /\ bytes rest;
}.

(** The laws of a struct follow from its field list: read the fields back, add up
    their lengths, invert the reads. *)
Ltac law_round write read wf :=
  let m := fresh "m" in intros m rest; destruct m; unfold wf; cbn; intros; destruct_and?;
  cbv [write_to_bytes read_from_bytes write read]; cbn -[read_array write_array]; read_fields; reflexivity.
Ltac law_length write wf :=
  let m := fresh "m" in intros m; destruct m; unfold wf; cbn; intros; destruct_and?;
  cbv [write_to_bytes write]; cbn -[write_array]; autorewrite with wire_lengths;
  repeat match goal with Hl : length _ = _ |- _ => rewrite Hl end; reflexivity.
Ltac law_sound write read wf :=
  let Hb := fresh "Hb" in let Hr := fresh "Hr" in intros bs m rest Hb Hr; cbv [read_from_bytes read] in Hr;
  invert_reads Hr; injection Hr as <- <-; split; [unfold wf; cbn; tauto|]; split; [|assumption];
  cbv [write_to_bytes write]; cbn -[write_array]; rewrite <- ?app_assoc; reflexivity.

#[export] Instance PacketHeader_format : WireFormat PacketHeader.
Proof. refine {| wire_wf := ph_wf |}; [law_round PacketHeader_write PacketHeader_read ph_wf|law_length PacketHeader_write ph_wf|law_sound PacketHeader_write PacketHeader_read ph_wf]. Defined.

#[export] Instance ScanResponse_format : WireFormat ScanResponse.
Proof. refine {| wire_wf := sr_wf |}; [law_round ScanResponse_write ScanResponse_read sr_wf|law_length ScanResponse_write sr_wf|law_sound ScanResponse_write ScanResponse_read sr_wf]. Defined.

#[export] Instance ServiceMapResponseHeader_format : WireFormat ServiceMapResponseHeader.
Proof. refine {| wire_wf := sm_wf |}; [law_round ServiceMapResponseHeader_write ServiceMapResponseHeader_read sm_wf|law_length ServiceMapResponseHeader_write sm_wf|law_sound ServiceMapResponseHeader_write ServiceMapResponseHeader_read sm_wf]. Defined.

#[export] Instance ServiceMapEntry_format : WireFormat ServiceMapEntry.
Proof. refine {| wire_wf := se_wf |}; [law_round ServiceMapEntry_write ServiceMapEntry_read se_wf|law_length ServiceMapEntry_write se_wf|law_sound ServiceMapEntry_write ServiceMapEntry_read se_wf]. Defined.

#[export] Instance ChannelMessageHeader_format : WireFormat ChannelMessageHeader.
Proof. refine {| wire_wf := cm_wf |}; [law_round ChannelMessageHeader_write ChannelMessageHeader_read cm_wf|law_length ChannelMessageHeader_write cm_wf|law_sound ChannelMessageHeader_write ChannelMessageHeader_read cm_wf]. Defined.

#[export] Instance ChannelConfigHeader_format : WireFormat ChannelConfigHeader.
Proof. refine {| wire_wf := cc_wf |}; [law_round ChannelConfigHeader_write ChannelConfigHeader_read cc_wf|law_length ChannelConfigHeader_write cc_wf|law_sound ChannelConfigHeader_write ChannelConfigHeader_read cc_wf]. Defined.

#[export] Instance SampleChunkHeader_format : WireFormat SampleChunkHeader.
Proof. refine {| wire_wf := sc_wf |}; [law_round SampleChunkHeader_write SampleChunkHeader_read sc_wf|law_length SampleChunkHeader_write sc_wf|law_sound SampleChunkHeader_write SampleChunkHeader_read sc_wf]. Defined.

#[export] Instance AcknowledgeResponse_format : WireFormat AcknowledgeResponse.
Proof. refine {| wire_wf := ack_wf |}; [law_round AcknowledgeResponse_write AcknowledgeResponse_read ack_wf|law_length AcknowledgeResponse_write ack_wf|law_sound AcknowledgeResponse_write AcknowledgeResponse_read ack_wf]. Defined.

#[export] Instance GroupRequest_format : WireFormat GroupRequest.
Proof. refine {| wire_wf := gq_wf |}; [law_round GroupRequest_write GroupRequest_read gq_wf|law_length GroupRequest_write gq_wf|law_sound GroupRequest_write GroupRequest_read gq_wf]. Defined.

#[export] Instance GroupResponse_format : WireFormat GroupResponse.
Proof. refine {| wire_wf := gr_wf |}; [law_round GroupResponse_write GroupResponse_read gr_wf|law_length GroupResponse_write gr_wf|law_sound GroupResponse_write GroupResponse_read gr_wf]. Defined.

#[export] Instance ParameterGetRequest_format : WireFormat ParameterGetRequest.
Proof. refine {| wire_wf := pg_wf |}; [law_round ParameterGetRequest_write ParameterGetRequest_read pg_wf|law_length ParameterGetRequest_write pg_wf|law_sound ParameterGetRequest_write ParameterGetRequest_read pg_wf]. Defined.

#[export] Instance ParameterResponse_format : WireFormat ParameterResponse.
Proof. refine {| wire_wf := pr_wf |}; [law_round ParameterResponse_write ParameterResponse_read pr_wf|law_length ParameterResponse_write pr_wf|law_sound ParameterResponse_write ParameterResponse_read pr_wf]. Defined.

#[export] Instance ParameterSetRequest_format : WireFormat ParameterSetRequest.
Proof. refine {| wire_wf := ps_wf |}; [law_round ParameterSetRequest_write ParameterSetRequest_read ps_wf|law_length ParameterSetRequest_write ps_wf|law_sound ParameterSetRequest_write ParameterSetRequest_read ps_wf]. Defined.

#[export] Instance PointXyrgbi_format : WireFormat PointXyrgbi.
Proof. refine {| wire_wf := px_wf |}; [law_round PointXyrgbi_write PointXyrgbi_read px_wf|law_length PointXyrgbi_write px_wf|law_sound PointXyrgbi_write PointXyrgbi_read px_wf]. Defined.

#[export] Instance PointXyrgbHighRes_format : WireFormat PointXyrgbHighRes.
Proof. refine {| wire_wf := hp_wf |}; [law_round PointXyrgbHighRes_write PointXyrgbHighRes_read hp_wf|law_length PointXyrgbHighRes_write hp_wf|law_sound PointXyrgbHighRes_write PointXyrgbHighRes_read hp_wf]. Defined.

#[export] Instance PointExtended_format : WireFormat PointExtended.
Proof. refine {| wire_wf := xp_wf |}; [law_round PointExtended_write PointExtended_read xp_wf|law_length PointExtended_write xp_wf|law_sound PointExtended_write PointExtended_read xp_wf]. Defined.

(** ** The contract of the point types *)

(** [encode_batch_into] appends the encodings in order, whichever way a point type
    implements it. *)
Class PointLaws (P : Type) `{!IdnPoint P} := {
  #[global] point_format :: WireFormat P;
  encode_batch_spec (points : list P) buf :
    Forall wire_wf points -> encode_batch_into points buf = buf ++ mjoin (write_to_bytes <$> points);
}.

Lemma default_encode_batch_spec {P} `{WriteToBytes P} (points : list P) buf :
  default_encode_batch points buf = buf ++ mjoin (write_to_bytes <$> points).
Proof.
  revert buf. induction points as [|p points IH]; intros buf; [by rewrite app_nil_r|].
  unfold default_encode_batch in *. cbn [foldl]. rewrite IH, fmap_cons.
  change (mjoin (?x :: ?xs)) with (x ++ mjoin xs). by rewrite app_assoc.
Qed.

Lemma encode_batch_default points buf :
  Forall px_wf points -> encode_batch points buf = default_encode_batch points buf.
Proof.
  intros Hp. revert buf. induction Hp as [|p points Hp _ IH]; intros buf; [done|].
  unfold encode_batch, default_encode_batch in *. cbn [foldl]. rewrite IH. f_equal. f_equal.
  destruct Hp as (_ & _ & Hr & Hg & Hb & Hi). unfold write_to_bytes, PointXyrgbi_write, write_i16_be.
  rewrite !write_be_spec, !write_u8_byte by done. done.
Qed.

#[export] Instance PointXyrgbi_laws : PointLaws PointXyrgbi.
Proof.
  econstructor. intros points buf Hp.
  change (encode_batch_into points buf) with (encode_batch points buf).
  rewrite encode_batch_default by done. apply default_encode_batch_spec.
Defined.

#[export] Instance PointXyrgbHighRes_laws : PointLaws PointXyrgbHighRes.
Proof. econstructor. intros points buf _. apply default_encode_batch_spec. Defined.

#[export] Instance PointExtended_laws : PointLaws PointExtended.
Proof. econstructor. intros points buf _. apply default_encode_batch_spec. Defined.

Lemma points_length {P} `{PointLaws P} (points : list P) :
  Forall wire_wf points -> length (mjoin (write_to_bytes <$> points)) = (length points * SIZE_BYTES P)%nat.
Proof.
  induction 1 as [|p points Hp _ IH]; [done|]. rewrite fmap_cons. change (mjoin (?x :: ?xs)) with (x ++ mjoin xs).
  rewrite length_app, IH, wire_length by done. simpl. done.
Qed.

(** ** Conversions stay in range *)

Lemma i16_inverted_in v : F32.valid v = true -> in_s 16 (coord_to_i16_inverted v).
Proof. intros Hv. pose proof (coord_to_i16_inverted_range v Hv). unfold in_s. lia. Qed.

Lemma xyrgbi_of_wf p : point_wf p -> px_wf (xyrgbi_of p).
Proof.
  intros (Hx & Hy & Hr & Hg & Hb & Hi). unfold px_wf, xyrgbi_of. cbn.
  auto 10 using color_to_u8_range, i16_inverted_in.
Qed.

Lemma dim_range i c : 0 <= dim i c < 2 ^ 16.
Proof. unfold dim, wrapu. apply Z.mod_pos_bound. lia. Qed.

Lemma high_res_of_wf p : point_wf p -> hp_wf (high_res_of p).
Proof.
  intros (Hx & Hy & _). unfold hp_wf, high_res_of. cbn. auto 10 using dim_range, i16_inverted_in.
Qed.

Lemma extended_of_wf p : point_wf p -> xp_wf (extended_of p).
Proof.
  intros (Hx & Hy & Hr & Hg & Hb & Hi). 
  pose proof (coord_to_i16_inverted_range _ Hx). pose proof (coord_to_i16_inverted_range _ Hy).
  unfold in_u, umax in *. unfold xp_wf, in_s, extended_of. cbn. lia.
Qed.

(** ** Sample chunk headers *)

Lemma land_ones_24 v : Z.land v 0x00FFFFFF = v mod 2 ^ 24.
Proof. exact (Z.land_ones v 24 ltac:(lia)). Qed.

Lemma chunk_header_value flags duration :
  0 <= flags < 2 ^ 8 -> 0 <= duration < 2 ^ 24 ->
  sc_flags_duration (SampleChunkHeader_new flags duration) = flags * 2 ^ 24 + duration.
Proof.
  intros Hf Hd. unfold SampleChunkHeader_new, wrapu. cbn [sc_flags_duration].
  rewrite land_ones_24, Z.shiftl_mul_pow2, !Z.mod_small by lia. by apply lor_disjoint.
Qed.

Lemma chunk_header_wf flags duration :
  0 <= flags < 2 ^ 8 -> 0 <= duration < 2 ^ 24 -> sc_wf (SampleChunkHeader_new flags duration).
Proof. intros Hf Hd. unfold sc_wf. rewrite chunk_header_value by done. change (2 ^ 24) with 16777216 in *. lia. Qed.

Lemma chunk_header_flags flags duration :
  0 <= flags < 2 ^ 8 -> 0 <= duration < 2 ^ 24 -> sc_flags (SampleChunkHeader_new flags duration) = flags.
Proof.
  intros Hf Hd. unfold sc_flags, wrapu. rewrite chunk_header_value, Z.shiftr_div_pow2 by lia.
  rewrite Z.div_add_l, (Z.div_small duration), Z.add_0_r by lia. by apply Z.mod_small.
Qed.

Lemma chunk_header_duration flags duration :
  0 <= flags < 2 ^ 8 -> 0 <= duration < 2 ^ 24 -> sc_duration_us (SampleChunkHeader_new flags duration) = duration.
Proof.
  intros Hf Hd. unfold sc_duration_us. rewrite chunk_header_value, land_ones_24 by done.
  rewrite Z.add_comm, Z_mod_plus_full. by apply Z.mod_small.
Qed.

(** ** The names of the wire structs *)
Inductive wire_type :=
  | TPacketHeader
  | TScanResponse
  | TServiceMapResponseHeader
  | TServiceMapEntry
  | TChannelMessageHeader
  | TChannelConfigHeader
  | TSampleChunkHeader
  | TAcknowledgeResponse
  | TGroupRequest
  | TGroupResponse
  | TParameterGetRequest
  | TParameterResponse
  | TParameterSetRequest
  | TPointXyrgbi
  | TPointXyrgbHighRes
  | TPointExtended.

Definition message (t : wire_type) : Type :=
  match t with
  | TPacketHeader => PacketHeader
  | TScanResponse => ScanResponse
  | TServiceMapResponseHeader => ServiceMapResponseHeader
  | TServiceMapEntry => ServiceMapEntry
  | TChannelMessageHeader => ChannelMessageHeader
  | TChannelConfigHeader => ChannelConfigHeader
  | TSampleChunkHeader => SampleChunkHeader
  | TAcknowledgeResponse => AcknowledgeResponse
  | TGroupRequest => GroupRequest
  | TGroupResponse => GroupResponse
  | TParameterGetRequest => ParameterGetRequest
  | TParameterResponse => ParameterResponse
  | TParameterSetRequest => ParameterSetRequest
  | TPointXyrgbi => PointXyrgbi
  | TPointXyrgbHighRes => PointXyrgbHighRes
  | TPointExtended => PointExtended
  end.

#[local] Instance message_write t : WriteToBytes (message t) := match t with
  | TPacketHeader => PacketHeader_write
  | TScanResponse => ScanResponse_write
  | TServiceMapResponseHeader => ServiceMapResponseHeader_write
  | TServiceMapEntry => ServiceMapEntry_write
  | TChannelMessageHeader => ChannelMessageHeader_write
  | TChannelConfigHeader => ChannelConfigHeader_write
  | TSampleChunkHeader => SampleChunkHeader_write
  | TAcknowledgeResponse => AcknowledgeResponse_write
  | TGroupRequest => GroupRequest_write
  | TGroupResponse => GroupResponse_write
  | TParameterGetRequest => ParameterGetRequest_write
  | TParameterResponse => ParameterResponse_write
  | TParameterSetRequest => ParameterSetRequest_write
  | TPointXyrgbi => PointXyrgbi_write
  | TPointXyrgbHighRes => PointXyrgbHighRes_write
  | TPointExtended => PointExtended_write
  end.

#[local] Instance message_read t : ReadFromBytes (message t) := match t with
  | TPacketHeader => PacketHeader_read
  | TScanResponse => ScanResponse_read
  | TServiceMapResponseHeader => ServiceMapResponseHeader_read
  | TServiceMapEntry => ServiceMapEntry_read
  | TChannelMessageHeader => ChannelMessageHeader_read
  | TChannelConfigHeader => ChannelConfigHeader_read
  | TSampleChunkHeader => SampleChunkHeader_read
  | TAcknowledgeResponse => AcknowledgeResponse_read
  | TGroupRequest => GroupRequest_read
  | TGroupResponse => GroupResponse_read
  | TParameterGetRequest => ParameterGetRequest_read
  | TParameterResponse => ParameterResponse_read
  | TParameterSetRequest => ParameterSetRequest_read
  | TPointXyrgbi => PointXyrgbi_read
  | TPointXyrgbHighRes => PointXyrgbHighRes_read
  | TPointExtended => PointExtended_read
  end.

#[local] Instance message_size t : SizeBytes (message t) := match t with
  | TPacketHeader => PacketHeader_size
  | TScanResponse => ScanResponse_size
  | TServiceMapResponseHeader => ServiceMapResponseHeader_size
  | TServiceMapEntry => ServiceMapEntry_size
  | TChannelMessageHeader => ChannelMessageHeader_size
  | TChannelConfigHeader => ChannelConfigHeader_size
  | TSampleChunkHeader => SampleChunkHeader_size
  | TAcknowledgeResponse => AcknowledgeResponse_size
  | TGroupRequest => GroupRequest_size
  | TGroupResponse => GroupResponse_size
  | TParameterGetRequest => ParameterGetRequest_size
  | TParameterResponse => ParameterResponse_size
  | TParameterSetRequest => ParameterSetRequest_size
  | TPointXyrgbi => PointXyrgbi_size
  | TPointXyrgbHighRes => PointXyrgbHighRes_size
  | TPointExtended => PointExtended_size
  end.

#[local] Instance message_format t : WireFormat (message t).
Proof. destruct t; apply _. Defined.

(** ** Theorems *)

(** Every IDN message and point type has one wire form: a value with fields in
    range is written in exactly [SIZE_BYTES] bytes and read back unchanged, with
    whatever follows left over; and conversely, bytes that read successfully are
    exactly the encoding of the value read, whose fields are in range. *)
Theorem idn_wire_types_round_trip t (m : message t) bs rest :
  (wire_wf m ->
   length (write_to_bytes m) = SIZE_BYTES (message t) /\
   read_from_bytes (write_to_bytes m ++ rest) = IoOk (m, rest)) /\
  (bytes bs -> read_from_bytes bs = IoOk (m, rest) -> wire_wf m /\ bs = write_to_bytes m ++ rest).
Proof.
  split; [intros Hm; split; [by apply wire_length|by apply wire_round]|].
  intros Hb Hr. destruct (wire_sound _ _ _ Hb Hr) as (Hm & He & _). by split.
Qed.

(** The batch encoders are equivalent to point-by-point writing: for each point
    type, including the hand-unrolled [PointXyrgbi::encode_batch], encoding the
    conversions of laser points into a buffer appends what [write_to_bytes] of
    each point in turn would append, [SIZE_BYTES] per point. *)
Theorem batch_encoding_is_pointwise (points : list LaserPoint) buf :
  Forall point_wf points ->
  encode_batch (xyrgbi_of <$> points) buf = default_encode_batch (xyrgbi_of <$> points) buf /\
  encode_batch_into (xyrgbi_of <$> points) buf = buf ++ mjoin (write_to_bytes <$> (xyrgbi_of <$> points)) /\
  encode_batch_into (high_res_of <$> points) buf = buf ++ mjoin (write_to_bytes <$> (high_res_of <$> points)) /\
  encode_batch_into (extended_of <$> points) buf = buf ++ mjoin (write_to_bytes <$> (extended_of <$> points)) /\
  length (encode_batch_into (xyrgbi_of <$> points) buf) = (length buf + length points * XYRGBI_SAMPLE_SIZE)%nat.
Proof.
  intros Hp.
  assert (Hx : Forall px_wf (xyrgbi_of <$> points)) by (apply Forall_fmap; by eapply Forall_impl, xyrgbi_of_wf).
  split; [by apply encode_batch_default|].
  split; [by apply (@encode_batch_spec PointXyrgbi _ PointXyrgbi_laws)|].
  split; [apply (@encode_batch_spec PointXyrgbHighRes _ PointXyrgbHighRes_laws), Forall_fmap; by eapply Forall_impl, high_res_of_wf|].
  split; [apply (@encode_batch_spec PointExtended _ PointExtended_laws), Forall_fmap; by eapply Forall_impl, extended_of_wf|].
  rewrite (@encode_batch_spec PointXyrgbi _ PointXyrgbi_laws), length_app, (@points_length PointXyrgbi _ PointXyrgbi_laws), length_fmap by done. done.
Qed.
End messages.

(** ** Witnesses *)
Module Demo.
Definition ack : AcknowledgeResponse := mkAcknowledgeResponse 10 (-21) 1 2 3 255 1234.
Definition lit : LaserPoint := mkLaserPoint f1 fm1 65535 0 257 65535.
End Demo.

Lemma idn_wire_types_round_trip_witness :
  read_from_bytes (write_to_bytes (Demo.ack : message TAcknowledgeResponse) ++ [9]) = IoOk (Demo.ack : message TAcknowledgeResponse, [9]) /\
  write_to_bytes Demo.ack = [10; 235; 0; 1; 0; 2; 3; 255; 4; 210].
Proof.
  split; [|vm_compute; reflexivity].
  destruct (@idn_wire_types_round_trip stdlib_byte_order TAcknowledgeResponse Demo.ack [] [9]) as [Hr _].
  apply Hr. vm_compute. repeat split; congruence.
Defined.

Lemma batch_encoding_is_pointwise_witness :
  encode_batch (xyrgbi_of <$> [Demo.lit; default_point]) [7] = default_encode_batch (xyrgbi_of <$> [Demo.lit; default_point]) [7] /\
  encode_batch (xyrgbi_of <$> [Demo.lit]) [7] = [7; 128; 1; 127; 255; 255; 0; 1; 255].
Proof.
  split; [|vm_compute; reflexivity].
  destruct (@batch_encoding_is_pointwise stdlib_byte_order [Demo.lit; default_point] [7]) as [Hb _]; [|exact Hb].
  repeat constructor; vm_compute; congruence.
Defined.
