(* ===== verification/IdnTypes.v ===== *)
(** * IDN servers, services and errors

    Models [src/src/protocols/idn/error.rs] and [src/src/protocols/idn/dac/mod.rs]:
    the error layers with the meaning of acknowledgement codes, service types,
    the descriptions of servers, relays and services, and socket addresses. *)

From stdpp Require Import gmap countable.
From S2P Require Import Prelude Bytes Utf8 IdnProtocol.

#[local] Open Scope Z_scope.

(** ** Addresses *)

Inductive IpAddr :=
  | V4 (addr : Z)
  | V6 (addr : Z).

Record SocketAddr := mkAddr {
  addr_ip : IpAddr;
  addr_port : Z;
}.

#[export] Instance IpAddr_eq_dec : EqDecision IpAddr.
Proof. solve_decision. Defined.

#[export] Instance IpAddr_countable : Countable IpAddr.
Proof.
  refine (inj_countable' (fun a => match a with V4 z => inl z | V6 z => inr z end)
    (fun s => match s with inl z => V4 z | inr z => V6 z end) _). by intros [].
Defined.

#[export] Instance SocketAddr_eq_dec : EqDecision SocketAddr.
Proof. solve_decision. Defined.

#[export] Instance SocketAddr_countable : Countable SocketAddr.
Proof. refine (inj_countable' (fun a => (addr_ip a, addr_port a)) (fun p => mkAddr p.1 p.2) _). by intros []. Defined.

Definition is_ipv4 (a : SocketAddr) : bool := match addr_ip a with V4 _ => true | V6 _ => false end.

(** ** Errors *)

(** The [io::ErrorKind]s that are told apart. *)
Inductive IoKind :=
  | KWouldBlock
  | KTimedOut
  | KNotFound
  | KInvalidData
  | KUnexpectedEof
  | KOther (code : Z).

Inductive ProtocolError :=
  | InvalidPacketHeader
  | UnknownCommand (cmd : Z)
  | UnknownServiceType (t : Z)
  | PacketTooLarge
  | InvalidScanResponse
  | InvalidServiceMapResponse
  | BufferTooSmall
  | InvalidPointFormat
  | InvalidScanSpeed
  | SequenceMismatch (expected actual : Z).

Inductive ResponseError :=
  | Timeout
  | UnexpectedResponse
  | NotConnected
  | Occupied
  | Excluded
  | InvalidPayload
  | GenericError
  | UnknownAckCode (code : Z).

Inductive CommunicationError :=
  | CommIo (e : IoKind)
  | CommProtocol (e : ProtocolError)
  | CommResponse (e : ResponseError).

#[export] Instance IoKind_eq_dec : EqDecision IoKind.
Proof. solve_decision. Defined.

#[export] Instance ProtocolError_eq_dec : EqDecision ProtocolError.
Proof. solve_decision. Defined.

#[export] Instance ResponseError_eq_dec : EqDecision ResponseError.
Proof. solve_decision. Defined.

#[export] Instance CommunicationError_eq_dec : EqDecision CommunicationError.
Proof. solve_decision. Defined.

(** The errors of the readers as [io::Error]s, and [From<io::Error>]. *)
Definition kind_of_read (e : io_error) : IoKind :=
  match e with UnexpectedEof => KUnexpectedEof | InvalidData => KInvalidData | InvalidInput => KOther 0 end.

(** [ResponseError::from_ack_code]; [code as u8] reinterprets the sign bit. *)
Definition from_ack_code (code : Z) : option ResponseError :=
  if 0 <=? code then None
  else Some (
    let u := wrapu 8 code in
    if u =? IDNVAL_RTACK_ERR_NOT_CONNECTED then NotConnected
    else if u =? IDNVAL_RTACK_ERR_OCCUPIED then Occupied
    else if u =? IDNVAL_RTACK_ERR_EXCLUDED then Excluded
    else if u =? IDNVAL_RTACK_ERR_INVALID_PAYLOAD then InvalidPayload
    else if u =? IDNVAL_RTACK_ERR_PROCESSING_ERROR then GenericError
    else UnknownAckCode code).

(** ** Services *)

Inductive ServiceType :=
  | LaserProjector
  | Uart
  | Dmx512
  | UnknownService (v : Z).

#[export] Instance ServiceType_eq_dec : EqDecision ServiceType.
Proof. solve_decision. Defined.

Definition service_type_of_u8 (value : Z) : ServiceType :=
  if (0x80 <=? value) && (value <=? 0xBF) then LaserProjector
  else if value =? IDNVAL_STYPE_UART then Uart
  else if value =? IDNVAL_STYPE_DMX512 then Dmx512
  else UnknownService value.

Definition u8_of_service_type (t : ServiceType) : Z :=
  match t with
  | LaserProjector => IDNVAL_STYPE_LAPRO
  | Uart => IDNVAL_STYPE_UART
  | Dmx512 => IDNVAL_STYPE_DMX512
  | UnknownService v => v
  end.

Record RelayInfo := mkRelayInfo {
  ri_relay_number : Z;
  ri_name : str;
  ri_address : option SocketAddr;
}.

Definition RelayInfo_from_entry (entry : ServiceMapEntry) : RelayInfo :=
  mkRelayInfo (se_relay_number entry) (name_str entry) None.

Record ServiceInfo := mkServiceInfo {
  si_service_id : Z;
  si_service_type : ServiceType;
  si_name : str;
  si_flags : Z;
  si_relay_number : Z;
}.

Definition ServiceInfo_from_entry (entry : ServiceMapEntry) : ServiceInfo :=
  mkServiceInfo (se_service_id entry) (service_type_of_u8 (se_service_type entry)) (name_str entry)
    (se_flags entry) (se_relay_number entry).

Definition is_laser_projector (s : ServiceInfo) : bool := bool_decide (si_service_type s = LaserProjector).

Definition is_default (s : ServiceInfo) : bool := negb (Z.land (si_flags s) IDNFLG_SERVICEMAP_DSID =? 0).

(** ** Servers *)

Record ServerInfo := mkServerInfo {
  sv_unit_id : list Z;
  sv_hostname : str;
  sv_protocol_version : Z * Z;
  sv_status : Z;
  sv_addresses : list SocketAddr;
  sv_relays : list RelayInfo;
  sv_services : list ServiceInfo;
}.

Definition ServerInfo_new (unit_id : list Z) (hostname : str) (version : Z * Z) (status : Z) : ServerInfo :=
  mkServerInfo unit_id hostname version status [] [] [].

Definition primary_address (s : ServerInfo) : option SocketAddr := head (sv_addresses s).

Definition find_laser_projector (s : ServerInfo) : option ServiceInfo := List.find is_laser_projector (sv_services s).

Definition find_service (s : ServerInfo) (service_id : Z) : option ServiceInfo :=
  List.find (fun i => si_service_id i =? service_id) (sv_services s).

(** The status predicates test one flag each. *)
Definition status_flag (s : ServerInfo) (flag : Z) : bool := negb (Z.land (sv_status s) flag =? 0).
Definition has_malfunction (s : ServerInfo) : bool := status_flag s IDNFLG_SCAN_STATUS_MALFUNCTION.
Definition is_offline (s : ServerInfo) : bool := status_flag s IDNFLG_SCAN_STATUS_OFFLINE.
Definition is_occupied (s : ServerInfo) : bool := status_flag s IDNFLG_SCAN_STATUS_OCCUPIED.
Definition is_excluded (s : ServerInfo) : bool := status_flag s IDNFLG_SCAN_STATUS_EXCLUDED.
Definition supports_realtime (s : ServerInfo) : bool := status_flag s IDNFLG_SCAN_STATUS_REALTIME.

(** [Addressed]: a server with the service streamed to. *)
Record Addressed := mkAddressed {
  ad_server : ServerInfo;
  ad_service : ServiceInfo;
  ad_address : SocketAddr;
}.

Definition service_id (a : Addressed) : Z := si_service_id (ad_service a).

(** ** Lemmas *)

(** An acknowledgement byte above [0x7F] is an error, every other one success. *)
Lemma ack_byte_error b : 0 <= b < 2 ^ 8 -> from_ack_code (wraps 8 b) = None <-> b < 0x80.
Proof.
  intros Hb. unfold from_ack_code, wraps. change (2 ^ (8 - 1)) with 128. change (2 ^ 8) with 256 in *.
  destruct (Z.leb_spec 0 ((b + 128) mod 256 - 128)); split; try done; Z.to_euclidean_division_equations; lia.
Qed.

Lemma service_type_round t :
  match t with UnknownService v => service_type_of_u8 v = UnknownService v | _ => True end ->
  service_type_of_u8 (u8_of_service_type t) = t.
Proof. by destruct t. Qed.
