(* ===== verification/IdnStream.v ===== *)
(** * The IDN stream

    Models [src/src/protocols/idn/dac/stream.rs]: the streaming connection to an
    IDN server.  A [Stream] is the struct's fields, [Net] what surrounds it: the
    clock (each reading may come after some time), the outcome of later sends,
    the datagrams later receives deliver and the datagrams sent so far.  The
    operations run in a state-and-error monad; an error keeps the state changes
    made before it.  Arithmetic on [u64] values wraps. *)

From S2P Require Import Prelude Bytes IdnProtocol IdnTypes.

(** ** Formats and constants *)

Inductive FrameMode :=
  | Wave
  | Frame.

Inductive PointFormat :=
  | Xyrgbi
  | XyrgbHighRes
  | Extended.

#[export] Instance FrameMode_eq_dec : EqDecision FrameMode.
Proof. solve_decision. Defined.

#[export] Instance PointFormat_eq_dec : EqDecision PointFormat.
Proof. solve_decision. Defined.

Definition size_bytes (f : PointFormat) : nat :=
  match f with
  | Xyrgbi => XYRGBI_SAMPLE_SIZE
  | XyrgbHighRes => XYRGB_HIGHRES_SAMPLE_SIZE
  | Extended => EXTENDED_SAMPLE_SIZE
  end.

Definition descriptors (f : PointFormat) : list Z :=
  match f with Xyrgbi => XYRGBI | XyrgbHighRes => XYRGB_HIGHRES | Extended => EXTENDED end.

Definition word_count (f : PointFormat) : Z := wrapu 8 (Z.of_nat (length (descriptors f)) / 2).

(** Durations in nanoseconds, as in the rest of the development. *)
Definition LINK_TIMEOUT : Z := 1000000000.
Definition KEEPALIVE_INTERVAL : Z := 500000000.
Definition MIN_SAMPLES_PER_FRAME : nat := 20.
Definition CONFIG_REFRESH_INTERVAL : Z := 200000000.
Definition STARTUP_LEAD_US : Z := 30000.
Definition REANCHOR_MIN_GAP_US : Z := 50000.

(** ** State *)

Record Stream := mkStream {
  s_dac : Addressed;
  s_client_group : Z;
  s_sequence : Z;
  s_timestamp_anchor_us : Z;
  s_points_since_anchor : Z;
  s_anchor_pps : Z;
  s_last_chunk_duration_us : Z;
  s_scan_speed : Z;
  s_point_format : PointFormat;
  s_service_data_match : Z;
  s_last_config_time : option Z;
  s_previous_format : option PointFormat;
  s_frame_count : Z;
  s_packet_buffer : list Z;
  s_recv_buffer : list Z;
  s_last_send_time : option Z;
  s_last_data_send_time : option Z;
  s_connect_time : Z;
  s_frame_mode : FrameMode;
  s_closed : bool;
}.

(** What surrounds the stream. *)
Inductive recv_event :=
  | Datagram (bs : list Z)
  | RecvError (e : IoKind).

Record Net := mkNet {
  net_now : Z;
  net_ticks : list N;
  net_sends : list (option IoKind);
  net_recvs : list recv_event;
  net_sent : list (list Z);
}.

(** Field updates. *)
Definition set_sequence (v : Z) (s : Stream) : Stream :=
  mkStream (s_dac s) (s_client_group s) v (s_timestamp_anchor_us s) (s_points_since_anchor s) (s_anchor_pps s)
    (s_last_chunk_duration_us s) (s_scan_speed s) (s_point_format s) (s_service_data_match s)
    (s_last_config_time s) (s_previous_format s) (s_frame_count s) (s_packet_buffer s) (s_recv_buffer s)
    (s_last_send_time s) (s_last_data_send_time s) (s_connect_time s) (s_frame_mode s) (s_closed s).
Definition set_timestamp_anchor_us (v : Z) (s : Stream) : Stream :=
  mkStream (s_dac s) (s_client_group s) (s_sequence s) v (s_points_since_anchor s) (s_anchor_pps s)
    (s_last_chunk_duration_us s) (s_scan_speed s) (s_point_format s) (s_service_data_match s)
    (s_last_config_time s) (s_previous_format s) (s_frame_count s) (s_packet_buffer s) (s_recv_buffer s)
    (s_last_send_time s) (s_last_data_send_time s) (s_connect_time s) (s_frame_mode s) (s_closed s).
Definition set_points_since_anchor (v : Z) (s : Stream) : Stream :=
  mkStream (s_dac s) (s_client_group s) (s_sequence s) (s_timestamp_anchor_us s) v (s_anchor_pps s)
    (s_last_chunk_duration_us s) (s_scan_speed s) (s_point_format s) (s_service_data_match s)
    (s_last_config_time s) (s_previous_format s) (s_frame_count s) (s_packet_buffer s) (s_recv_buffer s)
    (s_last_send_time s) (s_last_data_send_time s) (s_connect_time s) (s_frame_mode s) (s_closed s).
Definition set_anchor_pps (v : Z) (s : Stream) : Stream :=
  mkStream (s_dac s) (s_client_group s) (s_sequence s) (s_timestamp_anchor_us s) (s_points_since_anchor s) v
    (s_last_chunk_duration_us s) (s_scan_speed s) (s_point_format s) (s_service_data_match s)
    (s_last_config_time s) (s_previous_format s) (s_frame_count s) (s_packet_buffer s) (s_recv_buffer s)
    (s_last_send_time s) (s_last_data_send_time s) (s_connect_time s) (s_frame_mode s) (s_closed s).
Definition set_last_chunk_duration_us (v : Z) (s : Stream) : Stream :=
  mkStream (s_dac s) (s_client_group s) (s_sequence s) (s_timestamp_anchor_us s) (s_points_since_anchor s)
    (s_anchor_pps s) v (s_scan_speed s) (s_point_format s) (s_service_data_match s) (s_last_config_time s)
    (s_previous_format s) (s_frame_count s) (s_packet_buffer s) (s_recv_buffer s) (s_last_send_time s)
    (s_last_data_send_time s) (s_connect_time s) (s_frame_mode s) (s_closed s).
Definition set_scan_speed (v : Z) (s : Stream) : Stream :=
  mkStream (s_dac s) (s_client_group s) (s_sequence s) (s_timestamp_anchor_us s) (s_points_since_anchor s)
    (s_anchor_pps s) (s_last_chunk_duration_us s) v (s_point_format s) (s_service_data_match s)
    (s_last_config_time s) (s_previous_format s) (s_frame_count s) (s_packet_buffer s) (s_recv_buffer s)
    (s_last_send_time s) (s_last_data_send_time s) (s_connect_time s) (s_frame_mode s) (s_closed s).
Definition set_point_format (v : PointFormat) (s : Stream) : Stream :=
  mkStream (s_dac s) (s_client_group s) (s_sequence s) (s_timestamp_anchor_us s) (s_points_since_anchor s)
    (s_anchor_pps s) (s_last_chunk_duration_us s) (s_scan_speed s) v (s_service_data_match s)
    (s_last_config_time s) (s_previous_format s) (s_frame_count s) (s_packet_buffer s) (s_recv_buffer s)
    (s_last_send_time s) (s_last_data_send_time s) (s_connect_time s) (s_frame_mode s) (s_closed s).
Definition set_service_data_match (v : Z) (s : Stream) : Stream :=
  mkStream (s_dac s) (s_client_group s) (s_sequence s) (s_timestamp_anchor_us s) (s_points_since_anchor s)
    (s_anchor_pps s) (s_last_chunk_duration_us s) (s_scan_speed s) (s_point_format s) v (s_last_config_time s)
    (s_previous_format s) (s_frame_count s) (s_packet_buffer s) (s_recv_buffer s) (s_last_send_time s)
    (s_last_data_send_time s) (s_connect_time s) (s_frame_mode s) (s_closed s).
Definition set_last_config_time (v : option Z) (s : Stream) : Stream :=
  mkStream (s_dac s) (s_client_group s) (s_sequence s) (s_timestamp_anchor_us s) (s_points_since_anchor s)
    (s_anchor_pps s) (s_last_chunk_duration_us s) (s_scan_speed s) (s_point_format s) (s_service_data_match s) v
    (s_previous_format s) (s_frame_count s) (s_packet_buffer s) (s_recv_buffer s) (s_last_send_time s)
    (s_last_data_send_time s) (s_connect_time s) (s_frame_mode s) (s_closed s).
Definition set_previous_format (v : option PointFormat) (s : Stream) : Stream :=
  mkStream (s_dac s) (s_client_group s) (s_sequence s) (s_timestamp_anchor_us s) (s_points_since_anchor s)
    (s_anchor_pps s) (s_last_chunk_duration_us s) (s_scan_speed s) (s_point_format s) (s_service_data_match s)
    (s_last_config_time s) v (s_frame_count s) (s_packet_buffer s) (s_recv_buffer s) (s_last_send_time s)
    (s_last_data_send_time s) (s_connect_time s) (s_frame_mode s) (s_closed s).
Definition set_frame_count (v : Z) (s : Stream) : Stream :=
  mkStream (s_dac s) (s_client_group s) (s_sequence s) (s_timestamp_anchor_us s) (s_points_since_anchor s)
    (s_anchor_pps s) (s_last_chunk_duration_us s) (s_scan_speed s) (s_point_format s) (s_service_data_match s)
    (s_last_config_time s) (s_previous_format s) v (s_packet_buffer s) (s_recv_buffer s) (s_last_send_time s)
    (s_last_data_send_time s) (s_connect_time s) (s_frame_mode s) (s_closed s).
Definition set_packet_buffer (v : list Z) (s : Stream) : Stream :=
  mkStream (s_dac s) (s_client_group s) (s_sequence s) (s_timestamp_anchor_us s) (s_points_since_anchor s)
    (s_anchor_pps s) (s_last_chunk_duration_us s) (s_scan_speed s) (s_point_format s) (s_service_data_match s)
    (s_last_config_time s) (s_previous_format s) (s_frame_count s) v (s_recv_buffer s) (s_last_send_time s)
    (s_last_data_send_time s) (s_connect_time s) (s_frame_mode s) (s_closed s).
Definition set_recv_buffer (v : list Z) (s : Stream) : Stream :=
  mkStream (s_dac s) (s_client_group s) (s_sequence s) (s_timestamp_anchor_us s) (s_points_since_anchor s)
    (s_anchor_pps s) (s_last_chunk_duration_us s) (s_scan_speed s) (s_point_format s) (s_service_data_match s)
    (s_last_config_time s) (s_previous_format s) (s_frame_count s) (s_packet_buffer s) v (s_last_send_time s)
    (s_last_data_send_time s) (s_connect_time s) (s_frame_mode s) (s_closed s).
Definition set_last_send_time (v : option Z) (s : Stream) : Stream :=
  mkStream (s_dac s) (s_client_group s) (s_sequence s) (s_timestamp_anchor_us s) (s_points_since_anchor s)
    (s_anchor_pps s) (s_last_chunk_duration_us s) (s_scan_speed s) (s_point_format s) (s_service_data_match s)
    (s_last_config_time s) (s_previous_format s) (s_frame_count s) (s_packet_buffer s) (s_recv_buffer s) v
    (s_last_data_send_time s) (s_connect_time s) (s_frame_mode s) (s_closed s).
Definition set_last_data_send_time (v : option Z) (s : Stream) : Stream :=
  mkStream (s_dac s) (s_client_group s) (s_sequence s) (s_timestamp_anchor_us s) (s_points_since_anchor s)
    (s_anchor_pps s) (s_last_chunk_duration_us s) (s_scan_speed s) (s_point_format s) (s_service_data_match s)
    (s_last_config_time s) (s_previous_format s) (s_frame_count s) (s_packet_buffer s) (s_recv_buffer s)
    (s_last_send_time s) v (s_connect_time s) (s_frame_mode s) (s_closed s).
Definition set_frame_mode (v : FrameMode) (s : Stream) : Stream :=
  mkStream (s_dac s) (s_client_group s) (s_sequence s) (s_timestamp_anchor_us s) (s_points_since_anchor s)
    (s_anchor_pps s) (s_last_chunk_duration_us s) (s_scan_speed s) (s_point_format s) (s_service_data_match s)
    (s_last_config_time s) (s_previous_format s) (s_frame_count s) (s_packet_buffer s) (s_recv_buffer s)
    (s_last_send_time s) (s_last_data_send_time s) (s_connect_time s) v (s_closed s).
Definition set_closed (v : bool) (s : Stream) : Stream :=
  mkStream (s_dac s) (s_client_group s) (s_sequence s) (s_timestamp_anchor_us s) (s_points_since_anchor s)
    (s_anchor_pps s) (s_last_chunk_duration_us s) (s_scan_speed s) (s_point_format s) (s_service_data_match s)
    (s_last_config_time s) (s_previous_format s) (s_frame_count s) (s_packet_buffer s) (s_recv_buffer s)
    (s_last_send_time s) (s_last_data_send_time s) (s_connect_time s) (s_frame_mode s) v.

(** ** The monad *)

Inductive res (A : Type) :=
  | ROk (a : A)
  | RErr (e : CommunicationError).
Arguments ROk {A} a.
Arguments RErr {A} e.

Definition M (A : Type) : Type := Stream * Net -> res A * (Stream * Net).

#[export] Instance M_ret : MRet M := fun A a w => (ROk a, w).

#[export] Instance M_bind : MBind M := fun A B k m w =>
  match m w with (ROk a, w) => k a w | (RErr e, w) => (RErr e, w) end.

Definition throw {A} (e : CommunicationError) : M A := fun w => (RErr e, w).

Definition get : M Stream := fun w => (ROk w.1, w).

Definition modify (f : Stream -> Stream) : M unit := fun w => (ROk tt, (f w.1, w.2)).

(** [Instant::now()]. *)
Definition now : M Z := fun '(s, n) =>
  match net_ticks n with
  | [] => (ROk (net_now n), (s, n))
  | t :: ts => let v := net_now n + Z.of_N t in
               (ROk v, (s, mkNet v ts (net_sends n) (net_recvs n) (net_sent n)))
  end.

(** [socket.send]: the datagram is out unless the send fails. *)
Definition send (bs : list Z) : M unit := fun '(s, n) =>
  match net_sends n with
  | Some e :: rest => (RErr (CommIo e), (s, mkNet (net_now n) (net_ticks n) rest (net_recvs n) (net_sent n)))
  | sends => (ROk tt, (s, mkNet (net_now n) (net_ticks n) (tail sends) (net_recvs n) (net_sent n ++ [bs])))
  end.

(** [socket.recv(&mut buf)] of a [cap]-byte buffer: a datagram is cut to the
    buffer; with nothing more to come the read timeout expires. *)
Definition recv (cap : nat) : M (list Z) := fun '(s, n) =>
  match net_recvs n with
  | Datagram bs :: rest => (ROk (take cap bs), (s, mkNet (net_now n) (net_ticks n) (net_sends n) rest (net_sent n)))
  | RecvError e :: rest => (RErr (CommIo e), (s, mkNet (net_now n) (net_ticks n) (net_sends n) rest (net_sent n)))
  | [] => (RErr (CommIo KWouldBlock), (s, n))
  end.

(** [now - t] of a monotone clock, and its microseconds as a [u64]. *)
Definition duration_since (now t : Z) : Z := Z.max 0 (now - t).

Definition micros_u64 (d : Z) : Z := wrapu 64 (d / 1000).

Definition elapsed (t : Z) : M Z := v ← now; mret (duration_since v t).

(** ** The stream *)
Section stream.
Context `{ByteOrder}.

(** [packet_buffer.clear()], [packet_buffer.write_bytes(m)] and sending it. *)
Definition clear_packet : M unit := modify (set_packet_buffer []).

Definition write_bytes {P} `{WriteToBytes P} (m : P) : M unit :=
  modify (fun s => set_packet_buffer (s_packet_buffer s ++ write_to_bytes m) s).

Definition send_packet : M unit := s ← get; send (s_packet_buffer s).

(** [connect_with_group] after the socket calls. *)
Definition new_stream (dac : Addressed) (client_group connect_time : Z) : Stream :=
  mkStream dac (Z.land client_group 0x0F) 0 0 0 30000 0 30000 Xyrgbi 0 None None 0 [] (replicate 64 0) None None
    connect_time Wave false.

(** The lookups of [connect_with_group]: the server needs an address and the
    service. *)
Definition connect_with_group (server : ServerInfo) (id client_group connect_time : Z) : Stream + IoKind :=
  match primary_address server with
  | None => inr KNotFound
  | Some address =>
      match find_service server id with
      | None => inr KNotFound
      | Some service => inl (new_stream (mkAddressed server service address) client_group connect_time)
      end
  end.

Definition connect (server : ServerInfo) (id connect_time : Z) : Stream + IoKind :=
  connect_with_group server id 0 connect_time.

Definition needs_config (frame_count : Z) (previous : option PointFormat) (format : PointFormat)
    (last_config_time : option Z) (now : Z) : bool :=
  (frame_count =? 0) || negb (bool_decide (previous = Some format)) ||
  match last_config_time with
  | None => true
  | Some t => CONFIG_REFRESH_INTERVAL <=? duration_since now t
  end.

(** The exact accumulator: the time of the point number [points] after the anchor. *)
Definition timestamp_at (s : Stream) (points : Z) : Z :=
  wrapu 64 (s_timestamp_anchor_us s + wrapu 64 (points * 1000000) / Z.max 1 (s_anchor_pps s)).

Definition current_timestamp_us (s : Stream) : Z := timestamp_at s (s_points_since_anchor s).

Definition channel_id (s : Stream) : Z := Z.shiftl (Z.land (sat_sub (service_id (s_dac s)) 1) 0x3F) 8.

Definition sdm_flags (s : Stream) : Z := wrapu 8 (Z.shiftl (Z.lor (Z.land (s_service_data_match s) 1) 2) 4).

Definition chunk_type (s : Stream) (is_first is_only : bool) : Z :=
  match s_frame_mode s with
  | Wave => IDNVAL_CNKTYPE_LPGRF_WAVE
  | Frame => if is_only then IDNVAL_CNKTYPE_LPGRF_FRAME
             else if is_first then IDNVAL_CNKTYPE_LPGRF_FRAME_FIRST else IDNVAL_CNKTYPE_LPGRF_FRAME_SEQUEL
  end.

Definition next_sequence : M Z :=
  s ← get; modify (set_sequence (wrapu 16 (s_sequence s + 1)));; mret (s_sequence s).

(** The 32-bit timestamp of a header. *)
Definition wire_timestamp (t : Z) : Z := Z.land t 0xFFFFFFFF.

(** [needs_keepalive] and [send_keepalive]. *)
Definition needs_keepalive : M bool :=
  s ← get;
  match s_last_send_time s with
  | Some last => d ← elapsed last; mret (KEEPALIVE_INTERVAL <=? d)
  | None => mret (0 <? s_frame_count s)
  end.

Definition send_keepalive : M unit :=
  s ← get;
  let content_id := Z.lor (Z.lor IDNFLG_CONTENTID_CHANNELMSG (channel_id s)) IDNVAL_CNKTYPE_VOID in
  let timestamp := current_timestamp_us s in
  clear_packet;;
  seq ← next_sequence;
  write_bytes (mkPacketHeader IDNCMD_RT_CNLMSG (s_client_group s) seq);;
  write_bytes (mkChannelMessageHeader (wrapu 16 (Z.of_nat (SIZE_BYTES ChannelMessageHeader))) content_id (wire_timestamp timestamp));;
  send_packet;;
  t ← now;
  modify (set_last_send_time (Some t)).

(** [write_config]: the header and the descriptors, high byte first. *)
Definition write_config (id t : Z) : M unit :=
  s ← get;
  let flags := Z.lor IDNFLG_CHNCFG_ROUTING (sdm_flags s) in
  let mode := match s_frame_mode s with Wave => IDNVAL_SMOD_LPGRF_CONTINUOUS | Frame => IDNVAL_SMOD_LPGRF_DISCRETE end in
  write_bytes (mkChannelConfigHeader (word_count (s_point_format s)) flags id mode);;
  modify (fun s => set_packet_buffer
    (s_packet_buffer s ++ mjoin ((fun d => [Z.shiftr d 8; wrapu 8 d]) <$> descriptors (s_point_format s))) s);;
  modify (set_last_config_time (Some t));;
  modify (fun s => set_previous_format (Some (s_point_format s)) s).

(** The bytes of a configuration. *)
Definition config_bytes (f : PointFormat) : nat := SIZE_BYTES ChannelConfigHeader + length (descriptors f) * 2.

(** [pad_points]. *)
Definition pad_points {P} (points : list P) : list P :=
  match last points with
  | None => []
  | Some p => points ++ replicate (MIN_SAMPLES_PER_FRAME - length points) p
  end.

(** Start a new anchor at [t]. *)
Definition anchor_at (t : Z) (s : Stream) : Stream :=
  set_anchor_pps (Z.max 1 (s_scan_speed s)) (set_points_since_anchor 0 (set_timestamp_anchor_us t s)).

(** The anchoring of [prepare_points]: the first frame, a long gap, a rate change. *)
Definition reanchor_gap (elapsed_us : Z) : M unit :=
  s ← get;
  match s_last_data_send_time s with
  | None => mret tt
  | Some last =>
      gap ← elapsed last;
      let threshold := Z.max (wrapu 64 (2 * s_last_chunk_duration_us s)) REANCHOR_MIN_GAP_US in
      if threshold <? micros_u64 gap then modify (anchor_at elapsed_us) else mret tt
  end.

Definition reanchor_rate : M unit :=
  s ← get;
  if s_anchor_pps s =? Z.max 1 (s_scan_speed s) then mret tt
  else modify (fun s => anchor_at (current_timestamp_us s) s).

Definition prepare_points {P} (points : list P) : M (list P) :=
  let points := if decide (length points < MIN_SAMPLES_PER_FRAME)%nat then pad_points points else points in
  s ← get;
  if s_scan_speed s =? 0 then throw (CommProtocol InvalidScanSpeed)
  else
    (if bool_decide (s_previous_format s = Some (s_point_format s)) then mret tt
     else modify (fun s => set_service_data_match (wrapu 8 (s_service_data_match s + 1)) s));;
    e ← elapsed (s_connect_time s);
    let elapsed_us := micros_u64 e in
    (if s_frame_count s =? 0 then modify (anchor_at (sat_sub elapsed_us STARTUP_LEAD_US))
     else reanchor_gap elapsed_us;; reanchor_rate);;
    mret points.

(** [div_ceil]. *)
Definition div_ceil (a b : nat) : nat := ((a + b - 1) / b)%nat.

(** The microseconds from the current point to the one [n] points later, as a
    24-bit duration. *)
Definition chunk_duration (s : Stream) (n : Z) : Z :=
  let points_after := wrapu 64 (s_points_since_anchor s + n) in
  Z.min (wrapu 64 (timestamp_at s points_after - current_timestamp_us s)) 0x00FFFFFF.

(** The accumulator after [n] more points. *)
Definition advance_points (n : Z) (duration : Z) (s : Stream) : Stream :=
  set_last_chunk_duration_us duration (set_points_since_anchor (wrapu 64 (s_points_since_anchor s + n)) s).

Definition mark_sent (t : Z) (s : Stream) : Stream := set_last_data_send_time (Some t) (set_last_send_time (Some t) s).

Definition count_frame (s : Stream) : Stream := set_frame_count (wrapu 64 (s_frame_count s + 1)) s.

(** ** Responses *)

(** [recv_into_buffer]: would-block and timeouts are one error. *)
Definition recv_into_buffer : M nat := fun w =>
  match recv 64 w with
  | (ROk bs, w) => (ROk (length bs), (set_recv_buffer (bs ++ drop (length bs) (s_recv_buffer w.1)) w.1, w.2))
  | (RErr (CommIo (KWouldBlock | KTimedOut)), w) => (RErr (CommResponse Timeout), w)
  | (RErr e, w) => (RErr e, w)
  end.

(** Read a value off the front of a slice of the receive buffer. *)
Definition lift_read {A} (r : io_result (A * list Z)) : M (A * list Z) :=
  match r with IoOk v => mret v | IoErr e => throw (CommIo (kind_of_read e)) end.

(** The loop of [recv_matching]: every round takes one datagram off the socket, so
    the fuel is what can still arrive and one round to find nothing there. *)
Fixpoint recv_matching_loop (fuel : nat) (deadline expected_cmd expected_seq : Z) : M nat :=
  match fuel with
  | O => throw (CommResponse Timeout)
  | S fuel =>
      t ← now;
      if sat_sub deadline t =? 0 then throw (CommResponse Timeout)
      else
        len ← recv_into_buffer;
        if decide (len < SIZE_BYTES PacketHeader)%nat then recv_matching_loop fuel deadline expected_cmd expected_seq
        else
          s ← get;
          match read_from_bytes (P:=PacketHeader) (take len (s_recv_buffer s)) with
          | IoErr _ => recv_matching_loop fuel deadline expected_cmd expected_seq
          | IoOk (h, _) =>
              if negb (ph_command h =? expected_cmd) || negb (ph_sequence h =? expected_seq)
              then recv_matching_loop fuel deadline expected_cmd expected_seq
              else mret len
          end
  end.

Definition recv_matching (timeout expected_cmd expected_seq : Z) : M nat := fun w =>
  (t ← now; recv_matching_loop (S (length (net_recvs w.2))) (t + timeout) expected_cmd expected_seq) w.

Definition recv_response_header (timeout expected_cmd expected_seq : Z) : M PacketHeader :=
  len ← recv_matching timeout expected_cmd expected_seq;
  s ← get;
  '(h, _) ← lift_read (read_from_bytes (take len (s_recv_buffer s)));
  mret h.

Definition recv_response (T : Type) `{ReadFromBytes T, SizeBytes T} (timeout expected_cmd expected_seq : Z) : M T :=
  len ← recv_matching timeout expected_cmd expected_seq;
  if decide (len < SIZE_BYTES PacketHeader + SIZE_BYTES T)%nat then throw (CommProtocol BufferTooSmall)
  else
    s ← get;
    '(_, rest) ← lift_read (read_from_bytes (P:=PacketHeader) (take len (s_recv_buffer s)));
    '(r, _) ← lift_read (read_from_bytes rest);
    mret r.

Definition recv_acknowledge (timeout expected_seq : Z) : M AcknowledgeResponse :=
  ack ← recv_response AcknowledgeResponse timeout IDNCMD_RT_ACKNOWLEDGE expected_seq;
  match from_ack_code (ack_result_code ack) with
  | Some e => throw (CommResponse e)
  | None => mret ack
  end.

(** ** Requests *)

Definition send_request (command : Z) (body : list Z) : M Z :=
  clear_packet;;
  seq ← next_sequence;
  s ← get;
  write_bytes (mkPacketHeader command (s_client_group s) seq);;
  modify (fun s => set_packet_buffer (s_packet_buffer s ++ body) s);;
  send_packet;;
  t ← now;
  modify (set_last_send_time (Some t));;
  mret seq.

Definition ping (timeout : Z) : M Z :=
  start ← now;
  seq ← send_request IDNCMD_PING_REQUEST [];
  recv_response_header timeout IDNCMD_PING_RESPONSE seq;;
  elapsed start.

Definition get_client_group_mask (timeout : Z) : M GroupResponse :=
  seq ← send_request IDNCMD_GROUP_REQUEST (write_to_bytes GroupRequest_get);
  recv_response GroupResponse timeout IDNCMD_GROUP_RESPONSE seq.

Definition set_client_group_mask (mask timeout : Z) : M GroupResponse :=
  seq ← send_request IDNCMD_GROUP_REQUEST (write_to_bytes (GroupRequest_set mask));
  recv_response GroupResponse timeout IDNCMD_GROUP_RESPONSE seq.

Definition param_commands (id : Z) : Z * Z :=
  if id =? 0 then (IDNCMD_UNIT_PARAMS_REQUEST, IDNCMD_UNIT_PARAMS_RESPONSE)
  else (IDNCMD_SERVICE_PARAMS_REQUEST, IDNCMD_SERVICE_PARAMS_RESPONSE).

Definition check_parameter_response (r : ParameterResponse) : M unit :=
  if pr_is_success r then mret tt
  else match from_ack_code (pr_result_code r) with Some e => throw (CommResponse e) | None => mret tt end.

Definition get_parameter (id param_id timeout : Z) : M ParameterResponse :=
  let '(request_cmd, response_cmd) := param_commands id in
  seq ← send_request request_cmd (write_to_bytes (mkParameterGetRequest id 0 param_id));
  r ← recv_response ParameterResponse timeout response_cmd seq;
  check_parameter_response r;;
  mret r.

Definition set_parameter (id param_id value timeout : Z) : M ParameterResponse :=
  let '(request_cmd, response_cmd) := param_commands id in
  seq ← send_request request_cmd (write_to_bytes (mkParameterSetRequest id 0 param_id value));
  r ← recv_response ParameterResponse timeout response_cmd seq;
  check_parameter_response r;;
  mret r.


(** ** Wave mode *)
Section points.
Context {P : Type} `{!IdnPoint P}.
Implicit Types points : list P.

Definition encode_points points : M unit :=
  modify (fun s => set_packet_buffer (encode_batch_into points (s_packet_buffer s)) s).

Definition build_and_send_first_packet points (command : Z) : M (Z * nat) :=
  t ← now;
  s ← get;
  let cfg := needs_config (s_frame_count s) (s_previous_format s) (s_point_format s) (s_last_config_time s) t in
  let content_id := Z.lor IDNFLG_CONTENTID_CHANNELMSG (channel_id s) in
  let content_id := if cfg then Z.lor content_id IDNFLG_CONTENTID_CONFIG_LSTFRG else content_id in
  let config_size := if cfg then config_bytes (s_point_format s) else 0%nat in
  let header_size := (SIZE_BYTES PacketHeader + SIZE_BYTES ChannelMessageHeader + config_size + SIZE_BYTES SampleChunkHeader)%nat in
  let max_points_per_packet := ((MAX_UDP_PAYLOAD - header_size) / SIZE_BYTES P)%nat in
  let num_packets := div_ceil (length points) max_points_per_packet in
  let points_to_send := (length points / num_packets)%nat in
  let ts_start := current_timestamp_us s in
  let duration_us := chunk_duration s (Z.of_nat points_to_send) in
  let is_only := (num_packets =? 1)%nat in
  let cnk_type := chunk_type s true is_only in
  clear_packet;;
  seq ← next_sequence;
  write_bytes (mkPacketHeader command (s_client_group s) seq);;
  let msg_size := (SIZE_BYTES ChannelMessageHeader + config_size + SIZE_BYTES SampleChunkHeader + points_to_send * SIZE_BYTES P)%nat in
  write_bytes (mkChannelMessageHeader (wrapu 16 (Z.of_nat msg_size)) (Z.lor content_id cnk_type) (wire_timestamp ts_start));;
  (if cfg then write_config (service_id (s_dac s)) t else mret tt);;
  write_bytes (SampleChunkHeader_new (sdm_flags s) duration_us);;
  encode_points (take points_to_send points);;
  send_packet;;
  modify (mark_sent t);;
  modify (advance_points (Z.of_nat points_to_send) duration_us);;
  modify count_frame;;
  mret (seq, points_to_send).

(** [write_frame_continuation]; each call sends at least one point, so the number of
    points bounds the recursion. *)
Fixpoint write_frame_continuation (fuel : nat) points : M unit :=
  match points, fuel with
  | [], _ => mret tt
  | _, O => mret tt
  | _, S fuel =>
      s ← get;
      let content_id := Z.lor IDNFLG_CONTENTID_CHANNELMSG (channel_id s) in
      let header_size := (SIZE_BYTES PacketHeader + SIZE_BYTES ChannelMessageHeader + SIZE_BYTES SampleChunkHeader)%nat in
      let max_points_per_packet := ((MAX_UDP_PAYLOAD - header_size) / SIZE_BYTES P)%nat in
      let num_packets := div_ceil (length points) max_points_per_packet in
      let points_to_send := (length points / num_packets)%nat in
      let ts_start := current_timestamp_us s in
      let duration_us := chunk_duration s (Z.of_nat points_to_send) in
      clear_packet;;
      seq ← next_sequence;
      write_bytes (mkPacketHeader IDNCMD_RT_CNLMSG (s_client_group s) seq);;
      let msg_size := (SIZE_BYTES ChannelMessageHeader + SIZE_BYTES SampleChunkHeader + points_to_send * SIZE_BYTES P)%nat in
      let cnk_type := chunk_type s false false in
      write_bytes (mkChannelMessageHeader (wrapu 16 (Z.of_nat msg_size)) (Z.lor content_id cnk_type) (wire_timestamp ts_start));;
      write_bytes (SampleChunkHeader_new (sdm_flags s) duration_us);;
      encode_points (take points_to_send points);;
      t ← now;
      send_packet;;
      modify (mark_sent t);;
      modify (advance_points (Z.of_nat points_to_send) duration_us);;
      if decide (points_to_send < length points)%nat then write_frame_continuation fuel (drop points_to_send points)
      else mret tt
  end.

(** ** Frame mode *)

Definition send_frame_fragment points (index num_fragments : nat) (cfg : bool) (ts_start frame_duration_us t first_command : Z) : M unit :=
  s ← get;
  let is_first := (index =? 0)%nat in
  let is_last := (index =? num_fragments - 1)%nat in
  let is_single := (num_fragments =? 1)%nat in
  let write_cfg := cfg && is_first in
  let timestamp_us := wrapu 64 (ts_start + Z.of_nat index) in
  let cnk_type := if is_single then IDNVAL_CNKTYPE_LPGRF_FRAME
    else if is_first then IDNVAL_CNKTYPE_LPGRF_FRAME_FIRST else IDNVAL_CNKTYPE_LPGRF_FRAME_SEQUEL in
  let content_id := Z.lor (Z.lor IDNFLG_CONTENTID_CHANNELMSG (channel_id s)) cnk_type in
  let content_id := if write_cfg then Z.lor content_id IDNFLG_CONTENTID_CONFIG_LSTFRG else content_id in
  let content_id := if is_last && negb is_single then Z.lor content_id IDNFLG_CONTENTID_CONFIG_LSTFRG else content_id in
  let has_chunk_header := is_first in
  let config_size := if write_cfg then config_bytes (s_point_format s) else 0%nat in
  let chunk_header_size := if has_chunk_header then SIZE_BYTES SampleChunkHeader else 0%nat in
  let msg_size := (SIZE_BYTES ChannelMessageHeader + config_size + chunk_header_size + length points * SIZE_BYTES P)%nat in
  clear_packet;;
  seq ← next_sequence;
  write_bytes (mkPacketHeader (if is_first then first_command else IDNCMD_RT_CNLMSG) (s_client_group s) seq);;
  write_bytes (mkChannelMessageHeader (wrapu 16 (Z.of_nat msg_size)) content_id (wire_timestamp timestamp_us));;
  (if write_cfg then write_config (service_id (s_dac s)) t else mret tt);;
  (if has_chunk_header then write_bytes (SampleChunkHeader_new (sdm_flags s) frame_duration_us) else mret tt);;
  encode_points points;;
  send_packet.

(** The loop over [0..num_packets]; [rem] fragments take one point more. *)
Fixpoint send_fragments (n : nat) (i num_packets base rem offset : nat) points (cfg : bool)
    (ts_start duration t first_command : Z) : M unit :=
  match n with
  | O => mret tt
  | S n =>
      let count := (base + if (i <? rem)%nat then 1 else 0)%nat in
      send_frame_fragment (take count (drop offset points)) i num_packets cfg ts_start duration t first_command;;
      send_fragments n (S i) num_packets base rem (offset + count) points cfg ts_start duration t first_command
  end.

Definition write_frame_fragmented points (first_command : Z) : M Z :=
  t ← now;
  s ← get;
  let cfg := needs_config (s_frame_count s) (s_previous_format s) (s_point_format s) (s_last_config_time s) t in
  let config_size := if cfg then config_bytes (s_point_format s) else 0%nat in
  let ts_start := current_timestamp_us s in
  let total_points := Z.of_nat (length points) in
  let frame_duration_us := chunk_duration s total_points in
  let first_header := (SIZE_BYTES PacketHeader + SIZE_BYTES ChannelMessageHeader + config_size + SIZE_BYTES SampleChunkHeader)%nat in
  let max_first := Nat.max 1 ((MAX_UDP_PAYLOAD - first_header) / SIZE_BYTES P) in
  let num_packets := Nat.max 1 (div_ceil (length points) max_first) in
  let base := (length points / num_packets)%nat in
  let rem := (length points mod num_packets)%nat in
  let first_seq := s_sequence s in
  send_fragments num_packets 0 num_packets base rem 0 points cfg ts_start frame_duration_us t first_command;;
  modify (advance_points total_points frame_duration_us);;
  modify (mark_sent t);;
  modify count_frame;;
  mret first_seq.

(** [write_frame]. *)
Definition write_frame points : M unit :=
  match points with
  | [] => mret tt
  | _ =>
      points ← prepare_points points;
      s ← get;
      match s_frame_mode s with
      | Wave =>
          '(_, points_to_send) ← build_and_send_first_packet points IDNCMD_RT_CNLMSG;
          if decide (points_to_send < length points)%nat
          then write_frame_continuation (length points) (drop points_to_send points) else mret tt
      | Frame => write_frame_fragmented points IDNCMD_RT_CNLMSG;; mret tt
      end
  end.

(** [write_frame_with_ack]. *)
Definition write_frame_with_ack points (timeout : Z) : M AcknowledgeResponse :=
  match points with
  | [] => throw (CommProtocol BufferTooSmall)
  | _ =>
      points ← prepare_points points;
      s ← get;
      match s_frame_mode s with
      | Frame =>
          ack_seq ← write_frame_fragmented points IDNCMD_RT_CNLMSG_ACKREQ;
          recv_acknowledge timeout ack_seq
      | Wave =>
          '(ack_seq, points_to_send) ← build_and_send_first_packet points IDNCMD_RT_CNLMSG_ACKREQ;
          ack ← recv_acknowledge timeout ack_seq;
          (if decide (points_to_send < length points)%nat
           then write_frame_continuation (length points) (drop points_to_send points) else mret tt);;
          mret ack
      end
  end.
End points.


(** ** Closing *)

Definition send_channel_close : M unit :=
  s ← get;
  clear_packet;;
  seq ← next_sequence;
  write_bytes (mkPacketHeader IDNCMD_RT_CNLMSG (s_client_group s) seq);;
  let content_id := Z.lor (Z.lor (Z.lor IDNFLG_CONTENTID_CHANNELMSG IDNFLG_CONTENTID_CONFIG_LSTFRG) (channel_id s)) IDNVAL_CNKTYPE_VOID in
  let msg_size := (SIZE_BYTES ChannelMessageHeader + SIZE_BYTES ChannelConfigHeader)%nat in
  write_bytes (mkChannelMessageHeader (wrapu 16 (Z.of_nat msg_size)) content_id (wire_timestamp (current_timestamp_us s)));;
  write_bytes (mkChannelConfigHeader 0 IDNFLG_CHNCFG_CLOSE (service_id (s_dac s)) 0);;
  send_packet.

Definition send_session_close (command : Z) : M Z :=
  clear_packet;;
  seq ← next_sequence;
  s ← get;
  write_bytes (mkPacketHeader command (s_client_group s) seq);;
  send_packet;;
  mret seq.

Definition close : M unit :=
  s ← get;
  if s_closed s then mret tt
  else
    modify (set_closed true);;
    send_channel_close;;
    send_session_close IDNCMD_RT_CNLMSG_CLOSE;;
    mret tt.

Definition close_with_ack (timeout : Z) : M AcknowledgeResponse :=
  modify (set_closed true);;
  send_channel_close;;
  seq ← send_session_close IDNCMD_RT_CNLMSG_CLOSE_ACKREQ;
  recv_acknowledge timeout seq.

(** [Drop]: close, ignoring errors. *)
Definition drop_stream (w : Stream * Net) : Stream * Net := (close w).2.
End stream.

(** ** Waiting for a response *)
Section responses.
Context `{ByteOrder}.

(** A datagram (cut to the receive buffer) answers the request when it has a header
    with the command and the sequence number. *)
Definition matches (cmd seq : Z) (d : list Z) : bool :=
  if decide (length (take 64 d) < SIZE_BYTES PacketHeader)%nat then false
  else match read_from_bytes (P:=PacketHeader) (take 64 d) with
       | IoOk (h, _) => (ph_command h =? cmd) && (ph_sequence h =? seq)
       | IoErr _ => false
       end.

Definition unrelated (cmd seq : Z) (e : recv_event) : Prop := exists d, e = Datagram d /\ matches cmd seq d = false.

Definition is_timeout (k : IoKind) : bool := match k with KWouldBlock | KTimedOut => true | _ => false end.

(** How waiting can end. *)
Definition wait_outcome (cmd seq : Z) (n : Net) (r : res nat) (w : Stream * Net) : Prop :=
  match r with
  | ROk len => exists skip d, net_recvs n = skip ++ Datagram d :: net_recvs w.2 /\ Forall (unrelated cmd seq) skip /\
      matches cmd seq d = true /\ len = length (take 64 d) /\ take len (s_recv_buffer w.1) = take 64 d
  | RErr e => e = CommResponse Timeout \/ exists k, e = CommIo k /\ is_timeout k = false /\ RecvError k ∈ net_recvs n
  end.

Lemma now_keeps s n : exists t n', now (s, n) = (ROk t, (s, n')) /\ net_recvs n' = net_recvs n /\
  (net_ticks n = [] -> t = net_now n /\ n' = n).
Proof. unfold now. destruct (net_ticks n); eexists _, _; split; try reflexivity; by split. Qed.

(** One datagram into the buffer. *)
Definition buffered (d : list Z) (s : Stream) : Stream := set_recv_buffer (take 64 d ++ drop (length (take 64 d)) (s_recv_buffer s)) s.

Lemma recv_buffered s n d rest : net_recvs n = Datagram d :: rest ->
  exists n', recv_into_buffer (s, n) = (ROk (length (take 64 d)), (buffered d s, n')) /\ net_recvs n' = rest /\
    net_now n' = net_now n /\ net_ticks n' = net_ticks n.
Proof. intros Hr. unfold recv_into_buffer, recv. rewrite Hr. cbn. eexists. split; [reflexivity|]. done. Qed.

Lemma buffered_front d s : take (length (take 64 d)) (s_recv_buffer (buffered d s)) = take 64 d.
Proof. unfold buffered. cbn [s_recv_buffer set_recv_buffer]. by rewrite take_app_length'. Qed.

(** One round on a datagram: accepted or dropped. *)
Lemma round_datagram fuel deadline cmd seq s n d rest :
  net_recvs n = Datagram d :: rest -> exists t n1, now (s, n) = (ROk t, (s, n1)) /\ (net_ticks n = [] -> t = net_now n /\ n1 = n) /\
  ((sat_sub deadline t =? 0) = false ->
   exists n2, net_recvs n2 = rest /\ net_ticks n2 = net_ticks n1 /\ net_now n2 = net_now n1 /\
   recv_matching_loop (S fuel) deadline cmd seq (s, n) =
     if matches cmd seq d then (ROk (length (take 64 d)), (buffered d s, n2))
     else recv_matching_loop fuel deadline cmd seq (buffered d s, n2)).
Proof.
  intros Hr. destruct (now_keeps s n) as (t & n1 & Hn & Hn1 & Hticks). exists t, n1. split; [done|]. split; [done|]. intros Hd.
  destruct (recv_buffered s n1 d rest) as (n2 & Hb & Hr2 & Hnow2 & Ht2); [by rewrite Hn1|]. exists n2. split; [done|]. split; [done|]. split; [done|].
  cbn [recv_matching_loop]. unfold mbind at 1, M_bind at 1. rewrite Hn, Hd. unfold mbind at 1, M_bind at 1. rewrite Hb.
  unfold matches. case_decide; [done|]. unfold mbind at 1, M_bind at 1, get. cbn [fst]. rewrite buffered_front.
  destruct (read_from_bytes (take 64 d)) as [[h r]|e]; [|done].
  by destruct (ph_command h =? cmd), (ph_sequence h =? seq).
Qed.

Lemma recv_matching_loop_sound cmd seq deadline fuel : forall s n,
  wait_outcome cmd seq n (recv_matching_loop fuel deadline cmd seq (s, n)).1 (recv_matching_loop fuel deadline cmd seq (s, n)).2.
Proof.
  induction fuel as [|fuel IH]; intros s n; [by left|].
  destruct (net_recvs n) as [|[d|k] rest] eqn:Hr.
  - cbn [recv_matching_loop]. destruct (now_keeps s n) as (t & n1 & Hn & Hn1 & _). unfold mbind at 1 4, M_bind at 1 4. rewrite Hn.
    destruct (_ =? 0); [by left|]. unfold mbind, M_bind, recv_into_buffer, recv. rewrite Hn1, Hr. by left.
  - destruct (round_datagram fuel deadline cmd seq s n d rest Hr) as (t & n1 & Hn & _ & Hround).
    destruct (sat_sub deadline t =? 0) eqn:Hz.
    { cbn [recv_matching_loop]. unfold mbind, M_bind. rewrite Hn, Hz. by left. }
    destruct (Hround eq_refl) as (n2 & Hr2 & _ & _ & ->). destruct (matches cmd seq d) eqn:Hm.
    + cbn [fst snd wait_outcome]. exists [], d. rewrite Hr, Hr2, buffered_front. by split_and!.
    + specialize (IH (buffered d s) n2). destruct (recv_matching_loop fuel deadline cmd seq (buffered d s, n2)) as [r w]. cbn [fst snd] in *.
      unfold wait_outcome in *. rewrite Hr2 in IH. rewrite Hr. destruct r as [len|e].
      * destruct IH as (skip & d' & -> & Hs & Hm' & Hl & Hb). exists (Datagram d :: skip), d'. split; [done|].
        split; [constructor; [by exists d|done]|]. done.
      * destruct IH as [->|(k & -> & Ht & Hin)]; [by left|right]. exists k. split; [done|]. split; [done|]. by apply list_elem_of_further.
  - cbn [recv_matching_loop]. destruct (now_keeps s n) as (t & n1 & Hn & Hn1 & _). unfold mbind at 1 4, M_bind at 1 4. rewrite Hn.
    destruct (_ =? 0); [by left|]. unfold mbind, M_bind, recv_into_buffer, recv. rewrite Hn1, Hr. unfold wait_outcome. rewrite Hr.
    destruct k; try (by left); right; eexists; (split; [reflexivity|]); (split; [done|]); by apply list_elem_of_here.
Qed.

Lemma recv_matching_loop_complete cmd seq deadline skip : forall fuel s n d rest,
  net_recvs n = skip ++ Datagram d :: rest -> Forall (unrelated cmd seq) skip -> matches cmd seq d = true ->
  (length skip < fuel)%nat -> net_ticks n = [] -> net_now n < deadline ->
  exists s' n', recv_matching_loop fuel deadline cmd seq (s, n) = (ROk (length (take 64 d)), (s', n')) /\
    take (length (take 64 d)) (s_recv_buffer s') = take 64 d /\ net_recvs n' = rest.
Proof.
  induction skip as [|e skip IH]; intros fuel s n d rest Hr Hs Hm Hf Ht Hd; (destruct fuel as [|fuel]; [simpl in Hf; lia|]).
  - destruct (round_datagram fuel deadline cmd seq s n d rest Hr) as (t & n1 & Hn & Hticks & Hround).
    destruct (Hticks Ht) as [-> ->]. destruct Hround as (n2 & Hr2 & _ & _ & ->); [unfold sat_sub; lia|]. rewrite Hm.
    exists (buffered d s), n2. split; [done|]. split; [apply buffered_front|done].
  - apply Forall_cons in Hs as [(d' & -> & Hm') Hs].
    destruct (round_datagram fuel deadline cmd seq s n d' (skip ++ Datagram d :: rest) Hr) as (t & n1 & Hn & Hticks & Hround).
    destruct (Hticks Ht) as [-> ->]. destruct Hround as (n2 & Hr2 & Ht2 & Hn2 & ->); [unfold sat_sub; lia|]. rewrite Hm'.
    apply (IH fuel (buffered d' s) n2 d rest); try done; [simpl in Hf; lia|congruence|congruence].
Qed.

Lemma matching_datagram h body cmd seq :
  ph_wf h -> ph_command h = cmd -> ph_sequence h = seq -> matches cmd seq (write_to_bytes h ++ body) = true.
Proof.
  intros Hw Hc Hq. assert (Hl : length (write_to_bytes h) = 4%nat) by by apply (wire_length h).
  unfold matches. rewrite take_app, take_ge, Hl by lia.
  rewrite decide_False by (rewrite length_app, Hl; change (SIZE_BYTES PacketHeader) with 4%nat; lia).
  rewrite wire_round by done. by rewrite Hc, Hq, !Z.eqb_refl.
Qed.

Lemma run_bind {A B} (m : M A) (k : A -> M B) w a w' : m w = (ROk a, w') -> (m ≫= k) w = k a w'.
Proof. intros Hm. unfold mbind, M_bind. by rewrite Hm. Qed.

Lemma bind_inv {A B} (m : M A) (k : A -> M B) w b w' :
  (m ≫= k) w = (ROk b, w') -> exists a w1, m w = (ROk a, w1) /\ k a w1 = (ROk b, w').
Proof. unfold mbind, M_bind. destruct (m w) as [[a|e] w1]; [|done]. intros Hk. by exists a, w1. Qed.

(** ** Theorems *)

(** The outcome of waiting for an acknowledgement: replies to other requests are
    discarded, and the first datagram with the acknowledge command and the expected
    sequence number decides: a non-negative result code is success with exactly the
    fields sent, a negative one the response error of its code.  Conversely success
    means such a datagram arrived and its code was not negative. *)
Theorem acknowledgement_outcome h a extra skip rest timeout s n :
  ph_wf h -> ph_command h = IDNCMD_RT_ACKNOWLEDGE -> ack_wf a -> (length extra <= 50)%nat ->
  net_recvs n = skip ++ Datagram (write_to_bytes h ++ write_to_bytes a ++ extra) :: rest ->
  Forall (unrelated IDNCMD_RT_ACKNOWLEDGE (ph_sequence h)) skip -> net_ticks n = [] -> 0 < timeout ->
  (exists w', recv_acknowledge timeout (ph_sequence h) (s, n) =
     (match from_ack_code (ack_result_code a) with Some e => RErr (CommResponse e) | None => ROk a end, w') /\
   net_recvs w'.2 = rest) /\
  forall seq' a' w', recv_acknowledge timeout seq' (s, n) = (ROk a', w') ->
    0 <= ack_result_code a' /\ exists d, Datagram d ∈ net_recvs n /\ matches IDNCMD_RT_ACKNOWLEDGE seq' d = true.
Proof.
  intros Hh Hcmd Ha Hx Hr Hs Ht Hto. split.
  - set (d := write_to_bytes h ++ write_to_bytes a ++ extra) in *.
    assert (Hlh : length (write_to_bytes h) = 4%nat) by by apply (wire_length h).
    assert (Hla : length (write_to_bytes a) = 10%nat) by by apply (wire_length a).
    assert (Htake : take 64 d = d) by (apply take_ge; unfold d; rewrite !length_app; lia).
    destruct (recv_matching_loop_complete IDNCMD_RT_ACKNOWLEDGE (ph_sequence h) (net_now n + timeout) skip
      (S (length (net_recvs n))) s n d rest) as (s' & n' & Hrun & Hbuf & Hrest); try done; try lia.
    { by apply matching_datagram. }
    { rewrite Hr, length_app. simpl. lia. }
    rewrite Htake in *. exists (s', n'). split; [|done]. unfold recv_acknowledge, recv_response.
    assert (Hnow : now (s, n) = (ROk (net_now n), (s, n))) by (unfold now; by rewrite Ht).
    assert (Hmatch : recv_matching timeout IDNCMD_RT_ACKNOWLEDGE (ph_sequence h) (s, n) = (ROk (length d), (s', n')))
      by (unfold recv_matching; by rewrite (run_bind _ _ _ _ _ Hnow)).
    unfold mbind at 1, M_bind at 1. rewrite (run_bind _ _ _ _ _ Hmatch).
    rewrite decide_False by (unfold d; rewrite !length_app; change (SIZE_BYTES PacketHeader) with 4%nat; change (SIZE_BYTES AcknowledgeResponse) with 10%nat; lia).
    unfold get, mbind, M_bind. cbn [fst]. rewrite Hbuf. unfold d. rewrite wire_round by done. cbn [lift_read].
    unfold mret at 1, M_ret at 1. cbv beta iota. rewrite wire_round by done. cbn [lift_read]. unfold mret, M_ret. cbv beta iota.
    by destruct (from_ack_code (ack_result_code a)).
  - intros seq' a' w' Hok. unfold recv_acknowledge in Hok. apply bind_inv in Hok as (r & w1 & Hresp & Hk).
    assert (Hr' : from_ack_code (ack_result_code r) = None /\ r = a').
    { destruct (from_ack_code (ack_result_code r)); [done|]. by injection Hk as -> ->. }
    destruct Hr' as [Hcode ->]. split; [unfold from_ack_code in Hcode; destruct (Z.leb_spec 0 (ack_result_code a')); done|].
    unfold recv_response in Hresp. apply bind_inv in Hresp as (len & w2 & Hmatch & _). unfold recv_matching in Hmatch.
    apply bind_inv in Hmatch as (t & [s1 n1] & Hn & Hloop).
    pose proof (now_keeps s n) as (t' & n1' & Hn' & Hrecvs & _). rewrite Hn in Hn'. injection Hn' as <- -> ->.
    pose proof (recv_matching_loop_sound IDNCMD_RT_ACKNOWLEDGE seq' (t + timeout) (S (length (net_recvs (s, n).2))) s n1') as Hsound.
    rewrite Hloop in Hsound. destruct Hsound as (sk & d' & He & _ & Hm & _). exists d'. split; [|done].
    rewrite <- Hrecvs, He. apply elem_of_app. right. apply list_elem_of_here.
Qed.
End responses.

(** ** Witnesses *)
Lemma acknowledgement_outcome_witness :
  let h := mkPacketHeader IDNCMD_RT_ACKNOWLEDGE 0 7 in
  let a := mkAcknowledgeResponse 10 (-20) 0 0 0 255 12 in
  let stale := write_to_bytes (mkPacketHeader IDNCMD_PING_RESPONSE 0 7) in
  let server := ServerInfo_new [] [] (1, 0) 0 in
  let s := new_stream (mkAddressed server (mkServiceInfo 1 LaserProjector [] 0 0) (mkAddr (V4 0) 7255)) 0 0 in
  let n := mkNet 0 [] [] [Datagram stale; Datagram (write_to_bytes h ++ write_to_bytes a ++ [])] [] in
  exists w', recv_acknowledge 100 7 (s, n) = (RErr (CommResponse Occupied), w') /\ net_recvs w'.2 = [].
Proof.
  intros h a stale server s n.
  destruct (@acknowledgement_outcome stdlib_byte_order h a [] [Datagram stale] [] 100 s n) as [Hr _]; [..|exact Hr].
  - vm_compute. repeat split; congruence.
  - reflexivity.
  - vm_compute. repeat split; congruence.
  - simpl. lia.
  - reflexivity.
  - apply Forall_singleton. exists stale. split; [reflexivity|vm_compute; reflexivity].
  - reflexivity.
  - lia.
Defined.
