(* ===== verification/Receiver.v ===== *)
(** * The IDN receiver: parser, responses and server

    Models [src/src/receiver/]: the channel-message parser with its cached
    channel configurations ([parser.rs]), the response packets
    ([packet_builder.rs]), the advertised configuration ([config.rs]), the
    behaviour hooks ([behavior.rs]) and the server's loop ([server.rs]). *)

From stdpp Require Import gmap countable.
From S2P Require Import Prelude Floats Point Bytes Utf8 IdnProtocol IdnTypes.

#[local] Open Scope Z_scope.

(** ** Parsed data *)

Definition IDNMSK_CHNCFG_SDM : Z := 0x30.
Definition IDNMSK_CHUNKFLAGS_SCM : Z := 0x30.
Definition DESC_X : Z := 0x4200.
Definition DESC_Y : Z := 0x4210.
Definition DESC_RED_638 : Z := 0x527E.
Definition DESC_GREEN_532 : Z := 0x5214.
Definition DESC_BLUE_460 : Z := 0x51CC.
Definition DESC_INTENSITY : Z := 0x5C10.
Definition DESC_USER_1 : Z := 0x51BD.
Definition DESC_USER_2 : Z := 0x5241.
Definition DESC_USER_3 : Z := 0x51E8.
Definition DESC_X_PRIME : Z := 0x4201.
Definition DESC_PRECISION_16BIT : Z := 0x4010.

Record ReceivedPoint := mkReceived {
  rp_x : F32.t;
  rp_y : F32.t;
  rp_r : F32.t;
  rp_g : F32.t;
  rp_b : F32.t;
}.

Inductive SampleFormat :=
  | FmtXy
  | FmtXyrgb
  | FmtXyrgbi
  | FmtXyrgbHighRes
  | FmtExtended.

Inductive ChunkType :=
  | CkVoid
  | CkWave
  | CkFrame
  | CkFrameFirst
  | CkFrameSequel
  | CkOther (b : Z).

#[export] Instance SampleFormat_eq_dec : EqDecision SampleFormat.
Proof. solve_decision. Defined.

#[export] Instance ChunkType_eq_dec : EqDecision ChunkType.
Proof. solve_decision. Defined.

(** [ChunkType::from_byte]. *)
Definition chunk_type_of_byte (value : Z) : ChunkType :=
  if value =? IDNVAL_CNKTYPE_VOID then CkVoid
  else if value =? IDNVAL_CNKTYPE_LPGRF_WAVE then CkWave
  else if value =? IDNVAL_CNKTYPE_LPGRF_FRAME then CkFrame
  else if value =? IDNVAL_CNKTYPE_LPGRF_FRAME_FIRST then CkFrameFirst
  else if value =? IDNVAL_CNKTYPE_LPGRF_FRAME_SEQUEL then CkFrameSequel
  else CkOther value.

Definition sample_size (f : SampleFormat) : nat :=
  match f with FmtXy => 4 | FmtXyrgb => 7 | FmtXyrgbi => 8 | FmtXyrgbHighRes => 10 | FmtExtended => 20 end.

Record ParserChannelKey := mkKey {
  key_source_addr : SocketAddr;
  key_channel_id : Z;
}.

#[export] Instance ParserChannelKey_eq_dec : EqDecision ParserChannelKey.
Proof. solve_decision. Defined.

#[export] Instance ParserChannelKey_countable : Countable ParserChannelKey.
Proof. refine (inj_countable' (fun k => (key_source_addr k, key_channel_id k)) (fun p => mkKey p.1 p.2) _). by intros []. Defined.

Record ChannelState := mkChannelState {
  cs_format : SampleFormat;
  cs_service_data_match : Z;
  cs_service_mode : Z;
}.

Inductive StateUpdate :=
  | NoUpdate
  | Store (s : ChannelState)
  | Remove.

Record ChunkMetadata := mkMetadata {
  md_sequence : Z;
  md_content_id : Z;
  md_channel_id : Z;
  md_chunk_type : ChunkType;
  md_config_or_last_fragment : bool;
  md_has_config : bool;
  md_is_last_fragment : bool;
  md_timestamp_us_u32 : Z;
  md_total_size : nat;
}.

Record ChannelConfig := mkConfig {
  cfg_flags : Z;
  cfg_service_mode : Z;
  cfg_format : option SampleFormat;
}.

Definition has_routing (c : ChannelConfig) : bool := negb (Z.land (cfg_flags c) IDNFLG_CHNCFG_ROUTING =? 0).

Definition closes_channel (c : ChannelConfig) : bool := negb (Z.land (cfg_flags c) IDNFLG_CHNCFG_CLOSE =? 0).

Definition service_data_match (c : ChannelConfig) : Z := Z.land (cfg_flags c) IDNMSK_CHNCFG_SDM.

Record ParsedChunk := mkChunk {
  pc_sequence : Z;
  pc_content_id : Z;
  pc_channel_id : Z;
  pc_chunk_type : ChunkType;
  pc_config_or_last_fragment : bool;
  pc_has_config : bool;
  pc_is_last_fragment : bool;
  pc_timestamp_us_u32 : Z;
  pc_duration_us : Z;
  pc_format : SampleFormat;
  pc_points : list ReceivedPoint;
}.

Record ParsedPacket := mkParsed {
  pp_chunk : option ParsedChunk;
  pp_state_update : StateUpdate;
}.

(** ** The parser *)

(** [parse_metadata]. *)
Definition byte_at (data : list Z) (i : nat) : Z := default 0 (data !! i).

Definition parse_metadata (data : list Z) : option ChunkMetadata :=
  if decide (length data < 12)%nat then None
  else
    let total_size := be_value [byte_at data 4; byte_at data 5] in
    if negb ((8 <=? total_size) && (total_size <=? 0xFF00)) then None
    else
      let packet_len := (4 + Z.to_nat total_size)%nat in
      if decide (length data < packet_len)%nat then None
      else
        let sequence := be_value [byte_at data 2; byte_at data 3] in
        let content_id := be_value [byte_at data 6; byte_at data 7] in
        if Z.land content_id IDNFLG_CONTENTID_CHANNELMSG =? 0 then None
        else
          let timestamp := be_value [byte_at data 8; byte_at data 9; byte_at data 10; byte_at data 11] in
          let lstfrg := negb (Z.land content_id IDNFLG_CONTENTID_CONFIG_LSTFRG =? 0) in
          let channel_id := wrapu 8 (Z.shiftr (Z.land content_id IDNMSK_CONTENTID_CHANNELID) 8) in
          let chunk_type_byte := wrapu 8 (Z.land content_id IDNMSK_CONTENTID_CNKTYPE) in
          let chunk_type := chunk_type_of_byte chunk_type_byte in
          Some (mkMetadata sequence content_id channel_id chunk_type lstfrg
            (lstfrg && (chunk_type_byte <? 0xC0))
            match chunk_type with CkFrame => true | CkFrameSequel => lstfrg | _ => false end
            timestamp (Z.to_nat total_size)).

(** [classify_format]: the channels with their widths, then the known signatures.
    Each round passes at least one descriptor, so their number is enough fuel. *)
Fixpoint channels (fuel : nat) (ds : list Z) : option (list (Z * nat)) :=
  match ds, fuel with
  | [], _ => Some []
  | _, O => None
  | desc :: rest, S fuel =>
      if Z.land desc 0xF000 =? 0x0000 then channels fuel (drop (Z.to_nat (Z.land desc 0x000F)) rest)
      else if Z.land desc 0xFF00 =? 0x1000 then Some []
      else if Z.land desc 0xF000 =? 0x1000 then channels fuel rest
      else if desc =? DESC_PRECISION_16BIT then None
      else if bool_decide (head rest = Some DESC_PRECISION_16BIT)
      then cs ← channels fuel (tail rest); Some ((desc, 2%nat) :: cs)
      else cs ← channels fuel rest; Some ((desc, 1%nat) :: cs)
  end.

Definition classify_format (ds : list Z) : option SampleFormat :=
  cs ← channels (length ds) ds;
  let ids := fst <$> cs in
  let total_bytes := sum_list (snd <$> cs) in
  if decide (ids = [DESC_X; DESC_Y] /\ total_bytes = 4%nat) then Some FmtXy
  else if decide (ids = [DESC_X; DESC_Y; DESC_RED_638; DESC_GREEN_532; DESC_BLUE_460] /\ total_bytes = 7%nat) then Some FmtXyrgb
  else if decide (ids = [DESC_X; DESC_Y; DESC_RED_638; DESC_GREEN_532; DESC_BLUE_460] /\ total_bytes = 10%nat) then Some FmtXyrgbHighRes
  else if decide (ids = [DESC_X; DESC_Y; DESC_RED_638; DESC_GREEN_532; DESC_BLUE_460; DESC_INTENSITY] /\ total_bytes = 8%nat)
  then Some FmtXyrgbi
  else if decide (ids = [DESC_X; DESC_Y; DESC_RED_638; DESC_GREEN_532; DESC_BLUE_460; DESC_INTENSITY;
                         DESC_USER_1; DESC_USER_2; DESC_USER_3; DESC_X_PRIME] /\ total_bytes = 20%nat) then Some FmtExtended
  else None.

Definition state_update_for_config (config : option ChannelConfig) (state : option ChannelState) (close_after_message : bool)
    : StateUpdate :=
  if close_after_message then Remove
  else if match config with Some c => has_routing c | None => false end
  then match state with None => Remove | Some s => Store s end
  else NoUpdate.

Definition service_mode_accepts_chunk (service_mode : Z) (t : ChunkType) : bool :=
  match t with
  | CkWave => service_mode =? IDNVAL_SMOD_LPGRF_CONTINUOUS
  | CkFrame | CkFrameFirst | CkFrameSequel => service_mode =? IDNVAL_SMOD_LPGRF_DISCRETE
  | _ => false
  end.

(** [normalize_i16_coordinate] and the channel values. *)
Definition normalize_i16_coordinate (value : Z) : F32.t :=
  if value =? -32768 then fm1 else F32.div (F32.of_int value) (F32.of_int 32767).

Definition of_u8 (v : Z) : F32.t := F32.div (F32.of_int v) (F32.of_int 255).

Definition of_u16 (v : Z) : F32.t := F32.div (F32.of_int v) (F32.of_int 65535).

Section parser.
Context `{ByteOrder}.

(** [.ok()]. *)
Definition ok {A} (r : io_result A) : option A := match r with IoOk a => Some a | IoErr _ => None end.

(** The [n] descriptors of a configuration. *)
Fixpoint read_descriptors (n : nat) : reader (list Z) :=
  match n with
  | O => mret []
  | S n => d ← read_u16_be; ds ← read_descriptors n; mret (d :: ds)
  end.

(** [parse_channel_config]. *)
Definition parse_channel_config : reader ChannelConfig :=
  word_count ← read_u8; flags ← read_u8; _ ← read_u8; service_mode ← read_u8;
  ds ← read_descriptors (Z.to_nat word_count * 2);
  mret (mkConfig flags service_mode
    (if negb (Z.land flags IDNFLG_CHNCFG_ROUTING =? 0) && negb (service_mode =? IDNVAL_SMOD_VOID)
     then classify_format ds else None)).

(** One sample: the colours of a format after its coordinates. *)
Definition read_colors (f : SampleFormat) : reader (F32.t * F32.t * F32.t) :=
  match f with
  | FmtXy => mret (f0, f0, f0)
  | FmtXyrgb => r ← read_u8; g ← read_u8; b ← read_u8; mret (of_u8 r, of_u8 g, of_u8 b)
  | FmtXyrgbi =>
      r ← read_u8; g ← read_u8; b ← read_u8; i ← read_u8;
      mret (F32.mul (of_u8 r) (of_u8 i), F32.mul (of_u8 g) (of_u8 i), F32.mul (of_u8 b) (of_u8 i))
  | FmtXyrgbHighRes => r ← read_u16_be; g ← read_u16_be; b ← read_u16_be; mret (of_u16 r, of_u16 g, of_u16 b)
  | FmtExtended =>
      r ← read_u16_be; g ← read_u16_be; b ← read_u16_be; i ← read_u16_be;
      _ ← read_u16_be; _ ← read_u16_be; _ ← read_u16_be; _ ← read_u16_be;
      mret (F32.mul (of_u16 r) (of_u16 i), F32.mul (of_u16 g) (of_u16 i), F32.mul (of_u16 b) (of_u16 i))
  end.

Definition read_sample (f : SampleFormat) : reader ReceivedPoint :=
  raw_x ← read_i16_be; raw_y ← read_i16_be;
  '(r, g, b) ← read_colors f;
  mret (mkReceived (normalize_i16_coordinate raw_x) (normalize_i16_coordinate raw_y) r g b).

Fixpoint read_samples (f : SampleFormat) (n : nat) : reader (list ReceivedPoint) :=
  match n with
  | O => mret []
  | S n => p ← read_sample f; ps ← read_samples f n; mret (p :: ps)
  end.

(** The state a message is decoded with: a routing configuration replaces the
    cached one, and an unusable one ends the parse with a removal ([inr]). *)
Definition message_state (config : option ChannelConfig) (cached : option ChannelState) : option ChannelState + ParsedPacket :=
  match config with
  | Some c =>
      if has_routing c then
        match cfg_format c with
        | Some f => if negb (cfg_service_mode c =? IDNVAL_SMOD_VOID)
                    then inl (Some (mkChannelState f (service_data_match c) (cfg_service_mode c)))
                    else inr (mkParsed None Remove)
        | None => inr (mkParsed None Remove)
        end
      else inl cached
  | None => inl cached
  end.

(** The sample chunk: [inr] is a service-data mismatch; [None] a truncated header. *)
Definition chunk_duration_of (t : ChunkType) (state : ChannelState) (cursor : list Z) : option ((Z * list Z) + ParsedPacket) :=
  if decide (t = CkFrameSequel) then Some (inl (0, cursor))
  else
    '(flags_duration, cursor) ← ok (read_u32_be cursor);
    let chunk_flags := wrapu 8 (Z.shiftr flags_duration 24) in
    if negb (Z.land chunk_flags IDNMSK_CHUNKFLAGS_SCM =? cs_service_data_match state) then Some (inr (mkParsed None Remove))
    else Some (inl (Z.land flags_duration 0x00FFFFFF, cursor)).

(** The samples after the headers, and the finished packet. *)
Definition parse_samples (md : ChunkMetadata) (config : option ChannelConfig) (state : ChannelState) (close : bool)
    (duration_us : Z) (cursor : list Z) : option ParsedPacket :=
  let size := sample_size (cs_format state) in
  if negb (length cursor mod size =? 0)%nat then None
  else
    '(points, _) ← ok (read_samples (cs_format state) (length cursor / size) cursor);
    Some (mkParsed
      (Some (mkChunk (md_sequence md) (md_content_id md) (md_channel_id md) (md_chunk_type md)
        (md_config_or_last_fragment md) (md_has_config md) (md_is_last_fragment md)
        (md_timestamp_us_u32 md) duration_us (cs_format state) points))
      (state_update_for_config config (Some state) close)).

(** [parse_frame_data_with_metadata]. *)
Definition parse_frame_data_with_metadata (data : list Z) (md : ChunkMetadata) (cached : option ChannelState) : option ParsedPacket :=
  let data := take (4 + md_total_size md) data in
  let cursor := drop 12 data in
  '(config, cursor) ← (if md_has_config md
                       then '(c, rest) ← ok (parse_channel_config cursor); Some (Some c, rest)
                       else Some (None, cursor));
  let close := match config with Some c => closes_channel c | None => false end in
  match message_state config cached with
  | inr p => Some p
  | inl state =>
      if decide (md_chunk_type md = CkVoid) then Some (mkParsed None (state_update_for_config config state close))
      else
        state ← state;
        if negb (service_mode_accepts_chunk (cs_service_mode state) (md_chunk_type md))
        then Some (mkParsed None (state_update_for_config config (Some state) close))
        else
          r ← chunk_duration_of (md_chunk_type md) state cursor;
          match r with
          | inr p => Some p
          | inl (duration_us, cursor) => parse_samples md config state close duration_us cursor
          end
  end.

(** [FrameParser]: the cached configurations, and parsing with them. *)
Definition FrameParser : Type := gmap ParserChannelKey ChannelState.

Definition FrameParser_new : FrameParser := ∅.

Definition apply_update (key : ParserChannelKey) (u : StateUpdate) (p : FrameParser) : FrameParser :=
  match u with NoUpdate => p | Store s => <[key := s]> p | Remove => delete key p end.

Definition parser_parse (p : FrameParser) (source_addr : SocketAddr) (data : list Z) : FrameParser * option ParsedChunk :=
  match parse_metadata data with
  | None => (p, None)
  | Some md =>
      let key := mkKey source_addr (md_channel_id md) in
      match parse_frame_data_with_metadata data md (p !! key) with
      | None => (p, None)
      | Some parsed => (apply_update key (pp_state_update parsed) p, pp_chunk parsed)
      end
  end.

(** The stateless [parse_frame_data]. *)
Definition parse_frame_data (data : list Z) : option ParsedChunk :=
  md ← parse_metadata data;
  parsed ← parse_frame_data_with_metadata data md None;
  pp_chunk parsed.
End parser.

(** ** The received values are normalized *)

(** Not below zero. *)
Definition nonneg (x : F32.t) : Prop := match x with SpecFloat.S754_finite s _ _ => s = false | _ => True end.

Lemma round_aux_sign sx m e l :
  match SpecFloat.binary_round_aux 24 128 sx m e l with SpecFloat.S754_finite s _ _ => s = sx | _ => True end.
Proof.
  unfold SpecFloat.binary_round_aux.
  destruct (SpecFloat.shr_fexp 24 128 m e l) as [mrs e'].
  destruct (SpecFloat.shr_fexp 24 128 _ e' SpecFloat.loc_Exact) as [mrs' e''].
  destruct (SpecFloat.shr_m mrs'); try done. by destruct (_ <=? _).
Qed.

Lemma of_int_nonneg v : 0 <= v -> nonneg (F32.of_int v).
Proof.
  intros Hv. unfold nonneg, F32.of_int, of_int, SpecFloat.binary_normalize. destruct v as [|p|p]; [done| |lia].
  unfold SpecFloat.binary_round. destruct (SpecFloat.shl_align p 0 _) as [mz ez]. apply round_aux_sign.
Qed.

Lemma div_nonneg x y : nonneg x -> nonneg y -> nonneg (F32.div x y).
Proof.
  destruct x as [| | |sx mx ex], y as [| | |sy my ey]; try done. cbn [nonneg]. intros -> ->. unfold nonneg, F32.div, SpecFloat.SFdiv.
  destruct (SpecFloat.SFdiv_core_binary 24 128 _ _ _ _) as [[q e] l]. apply round_aux_sign.
Qed.

Lemma mul_nonneg x y : nonneg x -> nonneg y -> nonneg (F32.mul x y).
Proof. destruct x as [| | |sx mx ex], y as [| | |sy my ey]; try done. cbn [nonneg]. intros -> ->. apply round_aux_sign. Qed.

(** A quotient of integers at most one in magnitude. *)
Lemma ratio_bounded v B my ey :
  0 < B < 2 ^ 24 -> - B <= v <= B -> F32.of_int B = SpecFloat.S754_finite false my ey -> dle B 0 (Zpos my) ey ->
  f32_bounded (F32.div (F32.of_int v) (F32.of_int B)) 1 0.
Proof.
  intros HB Hv He Hd. rewrite He.
  assert (Hb : f32_bounded (F32.of_int v) B 0).
  { apply (normalize_bounded 24 128 eq_refl); [|by apply rep_small]. unfold dle. change (0 - Z.min 0 0) with 0. rewrite Z.pow_0_r. lia. }
  destruct Hb as [Hval Hm]. apply (div_bounded 24 128 eq_refl); [done| |by apply rep_small].
  rewrite Z.mul_1_l, Z.add_0_l. destruct (F32.of_int v); try done. simpl in Hm |- *. by eapply dle_trans.
Qed.

Lemma of_u8_unit v : 0 <= v < 2 ^ 8 -> f32_bounded (of_u8 v) 1 0 /\ nonneg (of_u8 v).
Proof.
  intros Hv. split; [|apply div_nonneg; apply of_int_nonneg; lia].
  eapply ratio_bounded; [lia|lia|vm_compute; reflexivity|vm_compute; congruence].
Qed.

Lemma of_u16_unit v : 0 <= v < 2 ^ 16 -> f32_bounded (of_u16 v) 1 0 /\ nonneg (of_u16 v).
Proof.
  intros Hv. split; [|apply div_nonneg; apply of_int_nonneg; lia].
  eapply ratio_bounded; [lia|lia|vm_compute; reflexivity|vm_compute; congruence].
Qed.

Lemma mul_unit x y : f32_bounded x 1 0 /\ nonneg x -> f32_bounded y 1 0 /\ nonneg y -> f32_bounded (F32.mul x y) 1 0 /\ nonneg (F32.mul x y).
Proof.
  intros [Hx Hnx] [Hy Hny]. split; [|by apply mul_nonneg].
  apply (mul_bounded 24 128 eq_refl eq_refl _ _ 1 0 1 0); [done|done|by apply rep_small|]. apply dle_refl.
Qed.

Lemma normalize_bounded_1 v : in_s 16 v -> f32_bounded (normalize_i16_coordinate v) 1 0.
Proof.
  intros Hv. unfold normalize_i16_coordinate, in_s in *. destruct (Z.eqb_spec v (-32768)); [apply fm1_bounded|].
  eapply ratio_bounded; [lia|lia|vm_compute; reflexivity|vm_compute; congruence].
Qed.

Definition normalized (p : ReceivedPoint) : Prop :=
  f32_bounded (rp_x p) 1 0 /\ f32_bounded (rp_y p) 1 0 /\
  (f32_bounded (rp_r p) 1 0 /\ nonneg (rp_r p)) /\ (f32_bounded (rp_g p) 1 0 /\ nonneg (rp_g p)) /\
  (f32_bounded (rp_b p) 1 0 /\ nonneg (rp_b p)).

Section facts.
Context `{ByteOrder}.

Lemma read_colors_unit f bs r g b rest :
  bytes bs -> read_colors f bs = IoOk ((r, g, b), rest) ->
  ((f32_bounded r 1 0 /\ nonneg r) /\ (f32_bounded g 1 0 /\ nonneg g) /\ (f32_bounded b 1 0 /\ nonneg b)) /\ bytes rest.
Proof.
  intros Hb Hr. destruct f; cbn [read_colors] in Hr.
  - injection Hr as <- <- <- <-. split; [|done]. pose proof f0_bounded. by repeat split.
  - invert_reads Hr. injection Hr as <- <- <- <-. split; [|done]. auto using of_u8_unit.
  - invert_reads Hr. injection Hr as <- <- <- <-. split; [|done]. auto using of_u8_unit, mul_unit.
  - invert_reads Hr. injection Hr as <- <- <- <-. split; [|done]. auto using of_u16_unit.
  - invert_reads Hr. injection Hr as <- <- <- <-. split; [|done]. auto using of_u16_unit, mul_unit.
Qed.

Lemma read_sample_normalized f bs p rest : bytes bs -> read_sample f bs = IoOk (p, rest) -> normalized p /\ bytes rest.
Proof.
  intros Hb Hr. unfold read_sample in Hr.
  apply bind_ok in Hr as (x & m1 & (Hx & -> & H1)%read_i16_be_sound & Hr); [|done].
  apply bind_ok in Hr as (y & m2 & (Hy & -> & H2)%read_i16_be_sound & Hr); [|done].
  apply bind_ok in Hr as ([[r g] b] & m3 & Hc & Hr). injection Hr as <- <-.
  apply read_colors_unit in Hc as [(Hrr & Hg & Hbb) Hm]; [|done]. split; [|done]. unfold normalized. cbn.
  auto using normalize_bounded_1.
Qed.

Lemma read_samples_normalized f n bs ps rest :
  bytes bs -> read_samples f n bs = IoOk (ps, rest) -> Forall normalized ps /\ length ps = n.
Proof.
  revert bs ps. induction n as [|n IH]; intros bs ps Hb Hr; cbn [read_samples] in Hr; [by injection Hr as <- <-|].
  apply bind_ok in Hr as (p & m1 & (Hp & H1)%read_sample_normalized & Hr); [|done].
  apply bind_ok in Hr as (qs & m2 & Hq & Hr). injection Hr as <- <-. apply IH in Hq as [Hq Hl]; [|done].
  split; [by constructor|simpl; lia].
Qed.

(** ** The parser *)

(** A usable channel state: a real service mode and masked match bits. *)
Definition state_ok (st : ChannelState) : Prop :=
  cs_service_mode st <> IDNVAL_SMOD_VOID /\ Z.land (cs_service_data_match st) IDNMSK_CHNCFG_SDM = cs_service_data_match st.

Definition update_ok (u : StateUpdate) : Prop := match u with Store st => state_ok st | _ => True end.

(** The configuration a message carries, if any. *)
Definition received_config (data : list Z) (md : ChunkMetadata) : option ChannelConfig :=
  if md_has_config md then
    match parse_channel_config (drop 12 (take (4 + md_total_size md) data)) with IoOk (c, _) => Some c | IoErr _ => None end
  else None.

(** [st] is the configuration a message is under: what its own routing
    configuration says, or else what is cached for its channel. *)
Definition governs (data : list Z) (md : ChunkMetadata) (cached : option ChannelState) (st : ChannelState) : Prop :=
  match received_config data md with
  | Some c =>
      if has_routing c
      then cfg_format c = Some (cs_format st) /\ cfg_service_mode c = cs_service_mode st /\ service_data_match c = cs_service_data_match st
      else cached = Some st
  | None => cached = Some st
  end.

(** A chunk decoded out of a message, under the configuration that governs it. *)
Definition chunk_ok (data : list Z) (md : ChunkMetadata) (cached : option ChannelState) (c : ParsedChunk) : Prop :=
  Forall normalized (pc_points c) /\ (length (pc_points c) * sample_size (pc_format c) <= length data)%nat /\
  pc_channel_id c = md_channel_id md /\ pc_chunk_type c = md_chunk_type md /\
  exists st, governs data md cached st /\ state_ok st /\ pc_format c = cs_format st /\
    service_mode_accepts_chunk (cs_service_mode st) (pc_chunk_type c) = true.

Definition parsed_ok (data : list Z) (md : ChunkMetadata) (cached : option ChannelState) (pp : ParsedPacket) : Prop :=
  update_ok (pp_state_update pp) /\ forall c, pp_chunk pp = Some c -> chunk_ok data md cached c.

Lemma bytes_sub l (data : list Z) i : bytes data -> bytes (drop i (take l data)).
Proof. intros. by apply Forall_drop, Forall_take. Qed.

Lemma read_descriptors_bytes n bs ds rest : bytes bs -> read_descriptors n bs = IoOk (ds, rest) -> bytes rest /\ (length rest <= length bs)%nat.
Proof.
  revert bs ds. induction n as [|n IH]; intros bs ds Hb Hr; cbn [read_descriptors] in Hr; [by injection Hr as <- <-|].
  apply bind_ok in Hr as (d & m1 & (Hd & -> & H1)%read_u16_be_sound & Hr); [|done].
  apply bind_ok in Hr as (l & m2 & Hl & Hr). injection Hr as <- <-. apply IH in Hl as [Hl Hle]; [|done].
  split; [done|]. rewrite length_app. lia.
Qed.

Lemma parse_config_bytes bs c rest : bytes bs -> parse_channel_config bs = IoOk (c, rest) -> bytes rest /\ (length rest <= length bs)%nat.
Proof.
  intros Hb Hr. unfold parse_channel_config in Hr.
  do 4 (apply bind_ok in Hr as (? & ? & (? & -> & ?)%read_u8_sound & Hr); [|assumption]).
  apply bind_ok in Hr as (ds & m & Hd & Hr). injection Hr as _ <-. apply read_descriptors_bytes in Hd as [Hd Hl]; [|done].
  split; [done|]. rewrite !length_app. lia.
Qed.

Lemma message_state_ok config cached :
  (forall st, cached = Some st -> state_ok st) ->
  match message_state config cached with
  | inl (Some st) => state_ok st
  | inl None => True
  | inr pp => pp = mkParsed None Remove
  end.
Proof.
  intros Hc. unfold message_state. destruct config as [c|]; [destruct (has_routing c)|].
  - destruct (cfg_format c) as [f|]; [|done]. destruct (Z.eqb_spec (cfg_service_mode c) IDNVAL_SMOD_VOID); [done|].
    split; [done|]. cbn. unfold service_data_match. by rewrite <- Z.land_assoc.
  - destruct cached as [st|]; [by apply Hc|done].
  - destruct cached as [st|]; [by apply Hc|done].
Qed.

Lemma update_for_config_ok config st close : state_ok st -> update_ok (state_update_for_config config (Some st) close).
Proof. intros Hs. unfold state_update_for_config. destruct close; [done|]. destruct config as [c|]; [|done]. by destruct (has_routing c). Qed.

Lemma parse_samples_ok data cached md config st close duration cursor pp :
  governs data md cached st -> state_ok st -> bytes cursor -> (length cursor <= length data)%nat ->
  service_mode_accepts_chunk (cs_service_mode st) (md_chunk_type md) = true ->
  parse_samples md config st close duration cursor = Some pp -> parsed_ok data md cached pp.
Proof.
  intros Hg Hs Hb Hl Hacc. unfold parse_samples. destruct (negb _); [done|].
  destruct (read_samples _ _ cursor) as [[points rest]|e] eqn:Hr; [|done]. cbn. intros [= <-].
  apply read_samples_normalized in Hr as [Hn Hlen]; [|done]. split; [by apply update_for_config_ok|]. intros c [= <-].
  split; [done|]. split; [|split; [done|split; [done|by exists st]]]. cbn. rewrite Hlen, Nat.mul_comm. etrans; [apply Nat.Div0.mul_div_le|done].
Qed.

(** Decoding takes the state that governs the message. *)
Lemma message_state_governs data md cached config rest st :
  (if md_has_config md then '(c, rest) ← ok (parse_channel_config (drop 12 (take (4 + md_total_size md) data))); Some (Some c, rest)
   else Some (None, drop 12 (take (4 + md_total_size md) data))) = Some (config, rest) ->
  message_state config cached = inl (Some st) -> governs data md cached st.
Proof.
  intros Hc Hm. assert (Hr : received_config data md = config).
  { unfold received_config. destruct (md_has_config md); [|by injection Hc as <- _]. destruct (parse_channel_config _) as [[c r]|]; [|done]. by injection Hc as <- _. }
  unfold governs. rewrite Hr. unfold message_state in Hm. destruct config as [c|]; [|by injection Hm]. destruct (has_routing c); [|by injection Hm].
  destruct (cfg_format c) as [f|]; [|done]. destruct (negb _); [|done]. by injection Hm as <-.
Qed.

Lemma parse_frame_ok data md cached pp :
  bytes data -> (forall st, cached = Some st -> state_ok st) ->
  parse_frame_data_with_metadata data md cached = Some pp -> parsed_ok data md cached pp.
Proof.
  intros Hb Hc. unfold parse_frame_data_with_metadata. cbv zeta.
  pose proof (message_state_governs data md cached) as Hgov. set (cursor := drop 12 _) in *.
  assert (Hcur : bytes cursor /\ (length cursor <= length data)%nat).
  { split; [by apply bytes_sub|]. unfold cursor. rewrite length_drop, length_take. lia. }
  clearbody cursor. destruct Hcur as [Hcb Hcl].
  assert (Hcfg : forall config rest,
    (if md_has_config md then '(c, rest) ← ok (parse_channel_config cursor); Some (Some c, rest) else Some (None, cursor)) = Some (config, rest) ->
    bytes rest /\ (length rest <= length data)%nat).
  { intros config rest. destruct (md_has_config md); [|by intros [= <- <-]].
    destruct (parse_channel_config cursor) as [[c r]|] eqn:Hp; [|done]. cbn. intros [= <- <-].
    apply parse_config_bytes in Hp as [? ?]; [split; [done|lia]|done]. }
  destruct (if md_has_config md then _ else _) as [[config rest]|] eqn:Hcase; [|done].
  destruct (Hcfg _ _ eq_refl) as [Hrb Hrl]. cbn [mbind option_bind]. specialize (fun st => Hgov config rest st eq_refl).
  pose proof (message_state_ok config cached Hc) as Hms. destruct (message_state config cached) as [st|p]; [|intros [= <-]; by subst p].
  case_decide; [intros [= <-]; split; [|done]; destruct st as [st|]; [by apply update_for_config_ok|];
    cbn; unfold state_update_for_config; destruct config as [c|]; [destruct (closes_channel c), (has_routing c)|]; done|].
  destruct st as [st|]; [|done]. cbn [mbind option_bind].
  destruct (service_mode_accepts_chunk _ _) eqn:Hacc; cbn [negb]; [|intros [= <-]; split; [by apply update_for_config_ok|done]].
  destruct (chunk_duration_of (md_chunk_type md) st rest) as [[[duration cur]|p]|] eqn:Hd; [| |done]; cbn [mbind option_bind].
  - assert (Hcur : bytes cur /\ (length cur <= length data)%nat).
    { unfold chunk_duration_of in Hd. case_decide; [by injection Hd as <- <-|].
      destruct (read_u32_be rest) as [[v r]|] eqn:Hr; [|done]. apply read_u32_be_sound in Hr as (_ & -> & Hrr); [|done].
      cbn in Hd. destruct (negb _); [done|]. injection Hd as <- <-. split; [done|]. rewrite length_app in Hrl. lia. }
    destruct Hcur. apply parse_samples_ok; try done. by apply Hgov.
  - intros [= <-]. unfold chunk_duration_of in Hd. case_decide; [done|]. destruct (ok (read_u32_be rest)) as [[v r]|]; [|done].
    cbn in Hd. destruct (negb _); [|done]. by injection Hd as <-.
Qed.

Definition parser_ok (p : FrameParser) : Prop := map_Forall (fun _ st => state_ok st) p.

Lemma parser_keeps_ok p src data : parser_ok p -> bytes data -> parser_ok (parser_parse p src data).1.
Proof.
  intros Hp Hb. unfold parser_parse. destruct (parse_metadata data) as [md|] eqn:Hmd; [|done].
  destruct (parse_frame_data_with_metadata data md (p !! _)) as [pp|] eqn:Hpp; [|done].
  assert (Hok : parsed_ok data md (p !! mkKey src (md_channel_id md)) pp) by (eapply parse_frame_ok; [done| |exact Hpp]; intros st; apply Hp).
  destruct Hok as [Hu _]. cbn [fst].
  destruct (pp_state_update pp) as [|st|]; cbn [apply_update]; [done|by apply map_Forall_insert_2|by apply map_Forall_delete].
Qed.

(** C14. The receiver's parser is safe on every input: whatever bytes arrive from
    whatever source, the cached channel states stay usable (a real service mode,
    masked match bits) and no other source's or channel's state is touched.  A chunk
    is only produced under the configuration that governs its message, the one in the
    message itself or else the one cached for its source and channel, whose service
    mode accepts the message's chunk type; it has that configuration's format, no more
    samples than bytes received, and every point normalized: coordinates within
    [-1, 1] and colours within [0, 1]. *)
Theorem parser_safe p src data :
  parser_ok p -> bytes data ->
  let '(p', c) := parser_parse p src data in
  parser_ok p' /\
  (forall key, key_source_addr key <> src \/ (forall md, parse_metadata data = Some md -> key_channel_id key <> md_channel_id md) ->
     p' !! key = p !! key) /\
  (forall c', c = Some c' -> exists md, parse_metadata data = Some md /\ chunk_ok data md (p !! mkKey src (md_channel_id md)) c').
Proof.
  intros Hp Hb. pose proof (parser_keeps_ok p src data Hp Hb) as Hkeep. unfold parser_parse in *.
  destruct (parse_metadata data) as [md|] eqn:Hmd; [|by split_and!]. set (key0 := mkKey src (md_channel_id md)) in *.
  destruct (parse_frame_data_with_metadata data md (p !! key0)) as [pp|] eqn:Hpp; [|by split_and!].
  assert (Hok : parsed_ok data md (p !! mkKey src (md_channel_id md)) pp) by (eapply parse_frame_ok; [done| |exact Hpp]; intros st; apply Hp).
  split; [exact Hkeep|]. split; [|intros c' Hc'; exists md; split; [done|]; by apply Hok].
  intros key Hk. assert (Hne : key0 <> key) by (intros <-; destruct Hk as [Hk|Hk]; [done|]; by apply (Hk md)).
  destruct (pp_state_update pp) as [|st|]; cbn [apply_update];
    [done|by apply (lookup_insert_ne (M:=gmap ParserChannelKey))|by apply (lookup_delete_ne (M:=gmap ParserChannelKey))].
Qed.
End facts.

(** ** Witnesses *)
Module Demo.
(** A wave message with a configuration for two 16-bit coordinates, one sample. *)
Definition data : list Z :=
  [0x40; 0; 0; 5; 0; 28; 0xC0; 0x01; 0; 0; 0; 9; 2; 1; 1; 1; 0x42; 0; 0x40; 0x10; 0x42; 0x10; 0x40; 0x10; 0; 0; 0; 100; 0x7F; 0xFF; 0x80; 0].
Definition src : SocketAddr := mkAddr (V4 1) 9.
End Demo.

Lemma parser_safe_witness :
  parser_ok (parser_parse ∅ Demo.src Demo.data).1 /\
  exists c, (parser_parse ∅ Demo.src Demo.data).2 = Some c /\ pc_points c = [mkReceived f1 fm1 f0 f0 f0] /\
    exists md, parse_metadata Demo.data = Some md /\ chunk_ok Demo.data md None c.
Proof.
  assert (Hb : bytes Demo.data) by (apply Forall_forall; intros b Hb; apply list_elem_of_In in Hb; simpl in Hb; lia).
  pose proof (@parser_safe stdlib_byte_order ∅ Demo.src Demo.data (map_Forall_empty _) Hb) as Hs.
  destruct (parser_parse ∅ Demo.src Demo.data) as [p' c] eqn:He. destruct Hs as (Hp & _ & Hc). split; [exact Hp|].
  vm_compute in He. injection He as _ Hc'. eexists. split; [symmetry; exact Hc'|]. split; [vm_compute; reflexivity|].
  apply Hc. symmetry. exact Hc'.
Defined.
