(* ===== verification/IdnLink.v ===== *)
(** * From an IDN stream to the receiver's parser

    The composition of [IdnStream] and [Receiver]: the datagrams a stream sends,
    delivered to the receiver's parser, decode to the points written, in order.
    [Receivable] is what the two sides agree on for a point type. *)

From stdpp Require Import gmap.
From S2P Require Import Prelude Floats Point Bytes IdnProtocol IdnTypes IdnStream Receiver.

#[local] Open Scope Z_scope.

(** ** What the two sides agree on *)
Section receivable.
Context `{ByteOrder}.

Class Receivable (P : Type) `{PointLaws P} := {
  stream_format : PointFormat;
  sample_format : SampleFormat;
  received : P -> ReceivedPoint;
  receivable_stream_size : size_bytes stream_format = SIZE_BYTES P;
  receivable_sample_size : sample_size sample_format = SIZE_BYTES P;
  receivable_descriptors : classify_format (descriptors stream_format) = Some sample_format;
  receivable_sample p rest :
    wire_wf p -> read_sample sample_format (write_to_bytes p ++ rest) = IoOk (received p, rest);
}.
Arguments stream_format P {_ _ _}.
Arguments sample_format P {_ _ _}.

Definition received_xyrgbi (p : PointXyrgbi) : ReceivedPoint :=
  mkReceived (normalize_i16_coordinate (px_x p)) (normalize_i16_coordinate (px_y p))
    (F32.mul (of_u8 (px_r p)) (of_u8 (px_i p))) (F32.mul (of_u8 (px_g p)) (of_u8 (px_i p)))
    (F32.mul (of_u8 (px_b p)) (of_u8 (px_i p))).

Definition received_high_res (p : PointXyrgbHighRes) : ReceivedPoint :=
  mkReceived (normalize_i16_coordinate (hp_x p)) (normalize_i16_coordinate (hp_y p))
    (of_u16 (hp_r p)) (of_u16 (hp_g p)) (of_u16 (hp_b p)).

Definition received_extended (p : PointExtended) : ReceivedPoint :=
  mkReceived (normalize_i16_coordinate (xp_x p)) (normalize_i16_coordinate (xp_y p))
    (F32.mul (of_u16 (xp_r p)) (of_u16 (xp_i p))) (F32.mul (of_u16 (xp_g p)) (of_u16 (xp_i p)))
    (F32.mul (of_u16 (xp_b p)) (of_u16 (xp_i p))).

(** Read a sample back field by field. *)
Ltac sample_back :=
  cbv [write_to_bytes PointXyrgbi_write PointXyrgbHighRes_write PointExtended_write read_sample read_colors]; cbn; read_fields; reflexivity.

#[export] Instance PointXyrgbi_receivable : Receivable PointXyrgbi.
Proof.
  refine {| stream_format := Xyrgbi; sample_format := FmtXyrgbi; received := received_xyrgbi |}; [done..|].
  intros [] rest (? & ? & ? & ? & ? & ?). cbn in *. sample_back.
Defined.

#[export] Instance PointXyrgbHighRes_receivable : Receivable PointXyrgbHighRes.
Proof.
  refine {| stream_format := XyrgbHighRes; sample_format := FmtXyrgbHighRes; received := received_high_res |}; [done..|].
  intros [] rest (? & ? & ? & ? & ?). cbn in *. sample_back.
Defined.

#[export] Instance PointExtended_receivable : Receivable PointExtended.
Proof.
  refine {| stream_format := Extended; sample_format := FmtExtended; received := received_extended |}; [done..|].
  intros [] rest (? & ? & ? & ? & ? & ? & ? & ? & ? & ?). cbn in *. sample_back.
Defined.

(** ** Parsing what was written *)

Lemma read_u16_be_cons a b rest : read_u16_be (a :: b :: rest) = IoOk (be_value [a; b], rest).
Proof. unfold read_u16_be, read_uint_be. rewrite read_be_spec. by rewrite decide_True by (simpl; lia). Qed.

Lemma read_descriptors_write ds rest :
  Forall (fun d => 0 <= d < 2 ^ 16) ds ->
  read_descriptors (length ds) (mjoin ((fun d => [Z.shiftr d 8; wrapu 8 d]) <$> ds) ++ rest) = IoOk (ds, rest).
Proof.
  induction 1 as [|d ds Hd _ IH]; [done|]. cbn [length read_descriptors]. rewrite fmap_cons.
  change (mjoin (?x :: ?xs)) with (x ++ mjoin xs). cbn [app].
  unfold mbind, reader_bind. rewrite read_u16_be_cons. cbv beta iota. rewrite IH. cbv beta iota. unfold mret, reader_ret.
  do 3 f_equal. unfold be_value, wrapu. cbn. rewrite Z.shiftr_div_pow2 by lia. Z.to_euclidean_division_equations; lia.
Qed.

Lemma read_samples_write {P} `{Receivable P} (points : list P) rest :
  Forall wire_wf points ->
  read_samples (sample_format P) (length points) (mjoin (write_to_bytes <$> points) ++ rest) = IoOk (received <$> points, rest).
Proof.
  induction 1 as [|p points Hp _ IH]; [done|]. cbn [length read_samples]. rewrite fmap_cons.
  change (mjoin (?x :: ?xs)) with (x ++ mjoin xs). rewrite <- app_assoc.
  unfold mbind, reader_bind. rewrite receivable_sample by done. cbv beta iota. by rewrite IH.
Qed.

(** The content id of a data message and its parts. *)
Definition content (lst : bool) (channel type : Z) : Z :=
  Z.lor (Z.lor (Z.lor 0x8000 (Z.shiftl channel 8)) type) (if lst then 0x4000 else 0).

Definition types : list Z := [IDNVAL_CNKTYPE_VOID; IDNVAL_CNKTYPE_LPGRF_WAVE; IDNVAL_CNKTYPE_LPGRF_FRAME;
  IDNVAL_CNKTYPE_LPGRF_FRAME_FIRST; IDNVAL_CNKTYPE_LPGRF_FRAME_SEQUEL].

Definition content_parts_ok (lst : bool) (channel type : Z) : bool :=
  let c := content lst channel type in
  (0 <=? c) && (c <? 65536) && negb (Z.land c IDNFLG_CONTENTID_CHANNELMSG =? 0) &&
  eqb (negb (Z.land c IDNFLG_CONTENTID_CONFIG_LSTFRG =? 0)) lst &&
  (wrapu 8 (Z.shiftr (Z.land c IDNMSK_CONTENTID_CHANNELID) 8) =? channel) &&
  (wrapu 8 (Z.land c IDNMSK_CONTENTID_CNKTYPE) =? type).

(** There are few enough channels and types to try them all. *)
Lemma content_parts_all :
  forallb (fun l => forallb (fun t => forallb (fun c => content_parts_ok l c t) (seqZ 0 64)) types) [true; false] = true.
Proof. vm_compute. reflexivity. Qed.

Lemma content_parts lst channel type :
  0 <= channel < 64 -> type ∈ types ->
  let c := content lst channel type in
  0 <= c < 2 ^ 16 /\ (Z.land c IDNFLG_CONTENTID_CHANNELMSG =? 0) = false /\
  negb (Z.land c IDNFLG_CONTENTID_CONFIG_LSTFRG =? 0) = lst /\
  wrapu 8 (Z.shiftr (Z.land c IDNMSK_CONTENTID_CHANNELID) 8) = channel /\
  wrapu 8 (Z.land c IDNMSK_CONTENTID_CNKTYPE) = type.
Proof.
  intros Hc Ht. pose proof content_parts_all as Ha. rewrite forallb_forall in Ha.
  specialize (Ha lst ltac:(destruct lst; simpl; tauto)). rewrite forallb_forall in Ha.
  specialize (Ha type ltac:(by apply list_elem_of_In)). rewrite forallb_forall in Ha.
  specialize (Ha channel ltac:(apply list_elem_of_In, elem_of_seqZ; lia)).
  unfold content_parts_ok in Ha. cbv zeta. repeat rewrite andb_true_iff in Ha.
  destruct Ha as (((((H1 & H2) & H3) & H4) & H5) & H6).
  apply Z.leb_le in H1. apply Z.ltb_lt in H2. apply negb_true_iff in H3. apply eqb_prop in H4.
  apply Z.eqb_eq in H5. apply Z.eqb_eq in H6. repeat split; try done; lia.
Qed.
End receivable.
Arguments stream_format {_} P {_ _ _}.
Arguments sample_format {_} P {_ _ _}.

(** ** Packets *)
Section packets.
Context `{ByteOrder} {P : Type} {IP : IdnPoint P} {LP : PointLaws P} {RP : Receivable P}.

Definition packet (h : PacketHeader) (m : ChannelMessageHeader) (body : list Z) : list Z :=
  write_to_bytes h ++ write_to_bytes m ++ body.

Definition mode_of (m : FrameMode) : Z :=
  match m with Wave => IDNVAL_SMOD_LPGRF_CONTINUOUS | Frame => IDNVAL_SMOD_LPGRF_DISCRETE end.

(** The configuration of a format, as [write_config] lays it out. *)
Definition config_wire (f : PointFormat) (sdm id mode : Z) : list Z :=
  write_to_bytes (mkChannelConfigHeader (word_count f) (Z.lor IDNFLG_CHNCFG_ROUTING sdm) id mode) ++
  mjoin ((fun d => [Z.shiftr d 8; wrapu 8 d]) <$> descriptors f).

(** A data message: the optional configuration, the chunk header of all but the
    sequels, the samples. *)
Definition data_body (f : PointFormat) (cfg : bool) (sdm id mode duration : Z) (sequel : bool) (points : list P) : list Z :=
  (if cfg then config_wire f sdm id mode else []) ++
  (if sequel then [] else write_to_bytes (SampleChunkHeader_new sdm duration)) ++
  mjoin (write_to_bytes <$> points).

Lemma be2 v : 0 <= v < 2 ^ 16 -> exists a b, write_u16_be v = [a; b] /\ be_value [a; b] = v.
Proof.
  intros Hv. unfold write_u16_be. rewrite write_be_spec. pose proof (be_bytes_length 2 v) as Hl.
  pose proof (be_value_bytes 2 v) as Hb. destruct (be_bytes 2 v) as [|a [|b [|]]]; try discriminate Hl.
  exists a, b. split; [done|]. rewrite Hb. by apply Z.mod_small.
Qed.

Lemma be4 v : 0 <= v < 2 ^ 32 -> exists a b c d, write_u32_be v = [a; b; c; d] /\ be_value [a; b; c; d] = v.
Proof.
  intros Hv. unfold write_u32_be. rewrite write_be_spec. pose proof (be_bytes_length 4 v) as Hl.
  pose proof (be_value_bytes 4 v) as Hb. destruct (be_bytes 4 v) as [|a [|b [|c [|d [|]]]]]; try discriminate Hl.
  exists a, b, c, d. split; [done|]. rewrite Hb. by apply Z.mod_small.
Qed.

(** The metadata of a packet. *)
Definition metadata (h : PacketHeader) (lst : bool) (channel type ts : Z) (size : nat) : ChunkMetadata :=
  mkMetadata (ph_sequence h) (content lst channel type) channel (chunk_type_of_byte type) lst (lst && (type <? 0xC0))
    match chunk_type_of_byte type with CkFrame => true | CkFrameSequel => lst | _ => false end ts size.

Lemma parse_metadata_packet h lst channel type ts body :
  ph_wf h -> 0 <= channel < 64 -> type ∈ types -> 0 <= ts < 2 ^ 32 -> 8 + Z.of_nat (length body) <= 0xFF00 ->
  parse_metadata (packet h (mkChannelMessageHeader (8 + Z.of_nat (length body)) (content lst channel type) ts) body) =
    Some (metadata h lst channel type ts (8 + length body)).
Proof.
  intros (Hcmd & Hfl & Hseq) Hch Hty Hts Hlen.
  destruct (content_parts lst channel type Hch Hty) as (Hr & Hmsg & Hlst & Hcid & Htype).
  destruct (be2 (ph_sequence h) Hseq) as (q1 & q2 & Hq & Hqv).
  destruct (be2 (8 + Z.of_nat (length body)) ltac:(lia)) as (t1 & t2 & Ht & Htv).
  destruct (be2 _ Hr) as (c1 & c2 & Hc & Hcv). destruct (be4 ts Hts) as (s1 & s2 & s3 & s4 & Hs & Hsv).
  unfold packet, write_to_bytes, PacketHeader_write, ChannelMessageHeader_write.
  cbn [cm_total_size cm_content_id cm_timestamp]. rewrite Hq, Ht, Hc, Hs, !write_u8_byte by done.
  unfold parse_metadata. cbn [app length]. rewrite decide_False by lia. unfold byte_at. cbn [lookup list_lookup default id].
  rewrite Htv, Hqv, Hcv, Hsv. destruct (Z.leb_spec 8 (8 + Z.of_nat (length body))); [|lia].
  destruct (Z.leb_spec (8 + Z.of_nat (length body)) 0xFF00); [|lia]. cbn [andb negb].
  rewrite decide_False by lia. rewrite Hmsg, Hlst, Hcid, Htype. unfold metadata. do 2 f_equal. lia.
Qed.

(** What follows the headers of a packet is its body. *)
Lemma packet_body h m body : ph_wf h -> cm_wf m -> drop 12 (take (4 + (8 + length body)) (packet h m body)) = body.
Proof.
  intros Hh Hm. unfold packet. rewrite app_assoc. set (front := _ ++ write_to_bytes m).
  assert (Hf : length front = 12%nat) by (unfold front; rewrite length_app, !wire_length by done; done).
  rewrite take_ge by (rewrite length_app; lia). by rewrite drop_app_length'.
Qed.

Lemma word_count_descriptors f : (Z.to_nat (word_count f) * 2)%nat = length (descriptors f).
Proof. by destruct f. Qed.

Lemma descriptors_u16 f : Forall (fun d => 0 <= d < 2 ^ 16) (descriptors f).
Proof. destruct f; repeat constructor; done. Qed.

Definition sdm_ok (sdm : Z) : Prop := sdm = 0x20 \/ sdm = 0x30.

Lemma parse_config_wire f sdm id mode rest :
  sdm_ok sdm -> 0 <= id < 2 ^ 8 -> mode = IDNVAL_SMOD_LPGRF_CONTINUOUS \/ mode = IDNVAL_SMOD_LPGRF_DISCRETE ->
  parse_channel_config (config_wire f sdm id mode ++ rest) =
    IoOk (mkConfig (Z.lor IDNFLG_CHNCFG_ROUTING sdm) mode (classify_format (descriptors f)), rest).
Proof.
  intros Hs Hi Hm. unfold config_wire, write_to_bytes, ChannelConfigHeader_write, parse_channel_config.
  cbn [cc_word_count cc_flags cc_service_id cc_service_mode].
  assert (0 <= word_count f < 2 ^ 8) by by destruct f.
  assert (0 <= Z.lor IDNFLG_CHNCFG_ROUTING sdm < 2 ^ 8) by by destruct Hs as [->| ->].
  assert (0 <= mode < 2 ^ 8) by by destruct Hm as [->| ->].
  read_fields. rewrite word_count_descriptors, read_descriptors_write by apply descriptors_u16.
  cbv beta iota. unfold mret, reader_ret. by destruct Hs as [->| ->], Hm as [->| ->].
Qed.

Lemma classify_receivable f : f = stream_format P -> classify_format (descriptors f) = Some (sample_format P).
Proof. intros ->. apply receivable_descriptors. Qed.

(** Samples after their headers. *)
Lemma parse_samples_write md config st close duration (points : list P) :
  Forall wire_wf points -> cs_format st = sample_format P -> (0 < SIZE_BYTES P)%nat ->
  parse_samples md config st close duration (mjoin (write_to_bytes <$> points)) =
    Some (mkParsed (Some (mkChunk (md_sequence md) (md_content_id md) (md_channel_id md) (md_chunk_type md)
      (md_config_or_last_fragment md) (md_has_config md) (md_is_last_fragment md) (md_timestamp_us_u32 md) duration
      (sample_format P) (received <$> points))) (state_update_for_config config (Some st) close)).
Proof.
  intros Hp Hf Hs. unfold parse_samples. rewrite Hf, receivable_sample_size, points_length by done.
  rewrite Nat.Div0.mod_mul, Nat.div_mul by lia. cbn [Nat.eqb negb].
  pose proof (read_samples_write points [] Hp) as Hr. rewrite app_nil_r in Hr. rewrite Hr. done.
Qed.

Lemma chunk_duration_write t st sdm duration rest :
  sdm_ok sdm -> cs_service_data_match st = sdm -> 0 <= duration < 2 ^ 24 -> t <> CkFrameSequel ->
  chunk_duration_of t st (write_to_bytes (SampleChunkHeader_new sdm duration) ++ rest) = Some (inl (duration, rest)).
Proof.
  intros Hs Hst Hd Ht. assert (0 <= sdm < 2 ^ 8) by by destruct Hs as [->| ->].
  unfold chunk_duration_of. rewrite decide_False by done.
  pose proof (chunk_header_wf sdm duration ltac:(done) Hd) as Hw.
  pose proof (chunk_header_flags sdm duration ltac:(done) Hd) as Hf.
  pose proof (chunk_header_duration sdm duration ltac:(done) Hd) as Hdu.
  unfold write_to_bytes, SampleChunkHeader_write. unfold sc_flags, sc_duration_us, sc_wf in *.
  generalize dependent (sc_flags_duration (SampleChunkHeader_new sdm duration)). intros v Hv Hf Hdu.
  rewrite read_u32_be_write by done. cbn [ok mbind option_bind]. rewrite Hf, Hdu, Hst.
  replace (Z.land sdm IDNMSK_CHUNKFLAGS_SCM) with sdm by (by destruct Hs as [->| ->]). by rewrite Z.eqb_refl.
Qed.

(** The chunk a data packet decodes to. *)
Definition chunk_of (h : PacketHeader) (lst : bool) (channel type ts duration : Z) (size : nat) (points : list P) : ParsedChunk :=
  let md := metadata h lst channel type ts size in
  mkChunk (md_sequence md) (md_content_id md) (md_channel_id md) (md_chunk_type md) (md_config_or_last_fragment md)
    (md_has_config md) (md_is_last_fragment md) ts duration (sample_format P) (received <$> points).

Definition is_sequel (type : Z) : bool := bool_decide (chunk_type_of_byte type = CkFrameSequel).

Lemma parse_data_packet h lst channel type ts cfg sdm id mode duration (points : list P) cached :
  let body := data_body (stream_format P) cfg sdm id mode duration (is_sequel type) points in
  let st := mkChannelState (sample_format P) sdm mode in
  ph_wf h -> 0 <= channel < 64 -> type ∈ types -> 0 <= ts < 2 ^ 32 -> 8 + Z.of_nat (length body) <= 0xFF00 ->
  sdm_ok sdm -> 0 <= id < 2 ^ 8 -> 0 <= duration < 2 ^ 24 -> Forall wire_wf points -> (0 < SIZE_BYTES P)%nat ->
  mode = IDNVAL_SMOD_LPGRF_CONTINUOUS \/ mode = IDNVAL_SMOD_LPGRF_DISCRETE ->
  service_mode_accepts_chunk mode (chunk_type_of_byte type) = true ->
  lst && (type <? 0xC0) = cfg -> cfg = true \/ cached = Some st ->
  parse_frame_data_with_metadata
    (packet h (mkChannelMessageHeader (8 + Z.of_nat (length body)) (content lst channel type) ts) body)
    (metadata h lst channel type ts (8 + length body)) cached =
  Some (mkParsed (Some (chunk_of h lst channel type ts (if is_sequel type then 0 else duration) (8 + length body) points))
    (if cfg then Store st else NoUpdate)).
Proof.
  intros body st Hh Hch Hty Hts Hlen Hsdm Hid Hdur Hp Hsz Hm Hacc Hcfg Hcached.
  unfold parse_frame_data_with_metadata. cbn [md_total_size metadata md_has_config md_chunk_type].
  destruct (content_parts lst channel type Hch Hty) as (Hr & _).
  rewrite packet_body by (done || (unfold cm_wf; cbn; lia)). rewrite Hcfg.
  assert (Hvoid : chunk_type_of_byte type <> CkVoid) by by intros Hv; rewrite Hv in Hacc.
  set (tail := (if is_sequel type then [] else write_to_bytes (SampleChunkHeader_new sdm duration)) ++ mjoin (write_to_bytes <$> points)).
  assert (Hstep : forall config close, state_update_for_config config (Some st) close = (if cfg then Store st else NoUpdate) ->
    (r ← chunk_duration_of (chunk_type_of_byte type) st tail;
     match r with
     | inr p => Some p
     | inl (duration_us, cursor) => parse_samples (metadata h lst channel type ts (8 + length body)) config st close duration_us cursor
     end) = Some (mkParsed (Some (chunk_of h lst channel type ts (if is_sequel type then 0 else duration) (8 + length body) points))
              (if cfg then Store st else NoUpdate))).
  { intros config close Hu. unfold tail, is_sequel. case_bool_decide as Hseq.
    - unfold chunk_duration_of. rewrite decide_True by done. cbn [app mbind option_bind].
      rewrite parse_samples_write by done. by rewrite Hu.
    - rewrite chunk_duration_write by done. cbn [mbind option_bind]. rewrite parse_samples_write by done. by rewrite Hu. }
  destruct cfg.
  - unfold body, data_body. fold tail. rewrite parse_config_wire by done. cbn [ok mbind option_bind].
    rewrite classify_receivable by done. cbn [message_state].
    assert (Hroute : has_routing (mkConfig (Z.lor IDNFLG_CHNCFG_ROUTING sdm) mode (Some (sample_format P))) = true)
      by (destruct Hsdm as [->| ->]; reflexivity).
    assert (Hclose : closes_channel (mkConfig (Z.lor IDNFLG_CHNCFG_ROUTING sdm) mode (Some (sample_format P))) = false)
      by (destruct Hsdm as [->| ->]; reflexivity).
    assert (Hmatch : service_data_match (mkConfig (Z.lor IDNFLG_CHNCFG_ROUTING sdm) mode (Some (sample_format P))) = sdm)
      by (destruct Hsdm as [->| ->]; reflexivity).
    rewrite Hroute, Hclose, Hmatch. cbn [cfg_format cfg_service_mode].
    replace (negb (mode =? IDNVAL_SMOD_VOID)) with true by (destruct Hm as [->| ->]; reflexivity).
    rewrite decide_False by done. fold st. cbn [mbind option_bind cs_service_mode st]. rewrite Hacc. cbn [negb].
    apply Hstep. unfold state_update_for_config. by rewrite Hroute.
  - destruct Hcached as [|Hcached]; [done|]. cbn [mbind option_bind message_state]. rewrite decide_False by done.
    rewrite Hcached. cbn [mbind option_bind cs_service_mode st]. rewrite Hacc. cbn [negb].
    unfold body, data_body. cbn [app]. fold tail. by apply Hstep.
Qed.
End packets.

(** ** Sharing points out to packets *)

Lemma div_ceil_bounds len max : (0 < max)%nat -> (0 < len)%nat ->
  (1 <= div_ceil len max <= len /\ len <= div_ceil len max * max)%nat.
Proof.
  intros Hm Hl. unfold div_ceil.
  pose proof (Nat.div_mod (len + max - 1) max ltac:(lia)). pose proof (Nat.mod_upper_bound (len + max - 1) max ltac:(lia)).
  assert ((len + max - 1) / max <= len)%nat by (apply Nat.Div0.div_le_upper_bound; nia). nia.
Qed.

(** Dividing the points evenly over the packets needed puts between one and the
    maximum in each. *)
Lemma even_share len max : (0 < max)%nat -> (0 < len)%nat -> (1 <= len / div_ceil len max <= Nat.min len max)%nat.
Proof.
  intros Hm Hl. pose proof (div_ceil_bounds len max Hm Hl) as [Hn Hc]. set (num := div_ceil len max) in *.
  assert (len / num <= max)%nat by (apply Nat.Div0.div_le_upper_bound; lia).
  assert (len / num <= len)%nat by (apply Nat.Div0.div_le_upper_bound; nia).
  assert (1 <= len / num)%nat by (apply Nat.div_le_lower_bound; lia). lia.
Qed.

(** The share does not depend on being first when all fits one packet. *)
Lemma share_small len max : (0 < len <= max)%nat -> (len / div_ceil len max = len)%nat.
Proof.
  intros Hl. assert (div_ceil len max = 1)%nat as ->; [|apply Nat.div_1_r].
  unfold div_ceil. symmetry. apply Nat.div_unique with (r := (len - 1)%nat); lia.
Qed.

(** ** Runs of the stream *)
Section runs.
Context `{ByteOrder} {P : Type} {IP : IdnPoint P} {LP : PointLaws P} {RP : Receivable P}.
Implicit Types (s : Stream) (n : Net) (points : list P).

(** Later sends succeed. *)
Definition healthy n : Prop := Forall (eq None) (net_sends n).

(** Fields in the range of their types. *)
Definition stream_ok s : Prop :=
  0 <= s_client_group s < 2 ^ 8 /\ 0 <= s_sequence s < 2 ^ 16 /\ 0 <= service_id (s_dac s) < 2 ^ 8.

(** The stream's format is the point type's. *)
Definition formatted s : Prop := s_point_format s = stream_format P.

(** What one frame leaves alone. *)
Definition same_session s s' : Prop :=
  s_dac s' = s_dac s /\ s_client_group s' = s_client_group s /\ s_scan_speed s' = s_scan_speed s /\
  s_point_format s' = s_point_format s /\ s_frame_mode s' = s_frame_mode s /\
  s_service_data_match s' = s_service_data_match s /\ s_timestamp_anchor_us s' = s_timestamp_anchor_us s /\
  s_anchor_pps s' = s_anchor_pps s.

Definition chan s : Z := Z.land (sat_sub (service_id (s_dac s)) 1) 0x3F.

Lemma now_run s n : exists t n', now (s, n) = (ROk t, (s, n')) /\ net_sent n' = net_sent n /\ net_sends n' = net_sends n /\
  net_recvs n' = net_recvs n /\ net_now n <= t /\ net_now n' = t.
Proof.
  unfold now. destruct (net_ticks n) as [|t ts]; eexists _, _; (split; [reflexivity|]); cbn; repeat split; lia.
Qed.

Lemma send_run s n bs : healthy n ->
  exists n', send bs (s, n) = (ROk tt, (s, n')) /\ net_sent n' = net_sent n ++ [bs] /\ healthy n' /\ net_recvs n' = net_recvs n.
Proof.
  unfold healthy, send. destruct (net_sends n) as [|o rest] eqn:He; [|destruct o as [e|]].
  - intros _. eexists. split; [reflexivity|]. cbn. by repeat split.
  - intros Hh. apply Forall_cons in Hh as [? _]. done.
  - intros Hh. apply Forall_cons in Hh as [_ Hh]. eexists. split; [reflexivity|]. cbn. by repeat split.
Qed.

Lemma chan_range s : 0 <= chan s < 64.
Proof. unfold chan. change 0x3F with (Z.ones 6). rewrite Z.land_ones by lia. apply Z.mod_pos_bound. lia. Qed.

Lemma sdm_flags_ok s : sdm_ok (sdm_flags s).
Proof.
  unfold sdm_flags, sdm_ok. rewrite (Z.land_ones (s_service_data_match s) 1 ltac:(lia) : Z.land _ 1 = _ mod 2).
  pose proof (Z.mod_pos_bound (s_service_data_match s) 2 ltac:(lia)).
  assert (s_service_data_match s mod 2 = 0 \/ s_service_data_match s mod 2 = 1) as [-> | ->] by lia; [left|right]; reflexivity.
Qed.

Lemma wire_timestamp_range t : 0 <= wire_timestamp t < 2 ^ 32.
Proof. unfold wire_timestamp. change 0xFFFFFFFF with (Z.ones 32). rewrite Z.land_ones by lia. apply Z.mod_pos_bound. lia. Qed.

Lemma chunk_duration_range s k : 0 <= chunk_duration s k < 2 ^ 24.
Proof. unfold chunk_duration. pose proof (Z.mod_pos_bound (timestamp_at s (wrapu 64 (s_points_since_anchor s + k)) - current_timestamp_us s) (2 ^ 64) ltac:(lia)). unfold wrapu in *. lia. Qed.

Lemma next_seq_range v : 0 <= wrapu 16 v < 2 ^ 16.
Proof. apply Z.mod_pos_bound. lia. Qed.

(** Sizes: three formats only. *)
Lemma sample_size_cases : SIZE_BYTES P = 8%nat \/ SIZE_BYTES P = 10%nat \/ SIZE_BYTES P = 20%nat.
Proof. rewrite <- receivable_stream_size. destruct (stream_format P); cbn; auto. Qed.

Lemma config_wire_length f sdm id mode :
  sdm_ok sdm -> 0 <= id < 2 ^ 8 -> 0 <= mode < 2 ^ 8 -> length (config_wire f sdm id mode) = config_bytes f.
Proof.
  intros Hs Hi Hm. unfold config_wire, config_bytes. assert (0 <= word_count f < 2 ^ 8) by by destruct f.
  assert (0 <= Z.lor IDNFLG_CHNCFG_ROUTING sdm < 2 ^ 8) by by destruct Hs as [->| ->].
  rewrite length_app, (wire_length (mkChannelConfigHeader _ _ _ _)) by (unfold wire_wf; cbn; unfold cc_wf; cbn; auto).
  f_equal. by destruct f.
Qed.

Lemma data_body_length f cfg sdm id mode duration sequel points :
  sdm_ok sdm -> 0 <= id < 2 ^ 8 -> 0 <= mode < 2 ^ 8 -> 0 <= duration < 2 ^ 24 -> Forall wire_wf points ->
  length (data_body f cfg sdm id mode duration sequel points) =
    ((if cfg then config_bytes f else 0) + (if sequel then 0 else 4) + length points * SIZE_BYTES P)%nat.
Proof.
  intros Hs Hi Hm Hd Hp. unfold data_body. rewrite !length_app, points_length by done.
  assert (0 <= sdm < 2 ^ 8) by by destruct Hs as [->| ->].
  destruct cfg, sequel; rewrite ?config_wire_length, ?wire_length by (done || by apply chunk_header_wf); cbn; lia.
Qed.

(** Points per packet, with or without a configuration. *)
Definition capacity (cfg : bool) : nat :=
  ((MAX_UDP_PAYLOAD - (SIZE_BYTES PacketHeader + SIZE_BYTES ChannelMessageHeader +
     (if cfg then config_bytes (stream_format P) else 0) + SIZE_BYTES SampleChunkHeader)) / SIZE_BYTES P)%nat.

Lemma capacity_bounds cfg :
  (1 <= capacity cfg /\ 16 + (if cfg then config_bytes (stream_format P) else 0) + capacity cfg * SIZE_BYTES P <= MAX_UDP_PAYLOAD)%nat.
Proof.
  unfold capacity. rewrite <- receivable_stream_size.
  destruct cfg, (stream_format P); split; apply Nat.leb_le; vm_compute; reflexivity.
Qed.

(** What distinguishes the data packets of one session. *)
Record Sent := mkSent {
  snt_seq : Z;
  snt_command : Z;
  snt_cfg : bool;
  snt_lst : bool;
  snt_type : Z;
  snt_ts : Z;
  snt_duration : Z;
  snt_points : list P;
}.

(** The wire form of a data packet of the stream. *)
Definition body_of s (d : Sent) : list Z :=
  data_body (stream_format P) (snt_cfg d) (sdm_flags s) (service_id (s_dac s)) (mode_of (s_frame_mode s)) (snt_duration d)
    (is_sequel (snt_type d)) (snt_points d).

Definition wire s (d : Sent) : list Z :=
  packet (mkPacketHeader (snt_command d) (s_client_group s) (snt_seq d))
    (mkChannelMessageHeader (8 + Z.of_nat (length (body_of s d))) (content (snt_lst d) (chan s) (snt_type d)) (wire_timestamp (snt_ts d)))
    (body_of s d).

Lemma wire_same_session s s' d : same_session s s' -> wire s' d = wire s d.
Proof.
  intros (Hd & Hg & _ & _ & Hm & Hs & _). unfold wire, body_of, chan, sdm_flags. by rewrite Hd, Hg, Hm, Hs.
Qed.

Lemma same_session_trans s1 s2 s3 : same_session s1 s2 -> same_session s2 s3 -> same_session s1 s3.
Proof. unfold same_session. intros (? & ? & ? & ? & ? & ? & ? & ?) (? & ? & ? & ? & ? & ? & ? & ?). by repeat split; etrans. Qed.

Lemma content_first (cfg : bool) s type :
  Z.lor (if cfg then Z.lor (Z.lor IDNFLG_CONTENTID_CHANNELMSG (channel_id s)) IDNFLG_CONTENTID_CONFIG_LSTFRG
         else Z.lor IDNFLG_CONTENTID_CHANNELMSG (channel_id s)) type = content cfg (chan s) type.
Proof.
  unfold content, channel_id, chan, IDNFLG_CONTENTID_CHANNELMSG, IDNFLG_CONTENTID_CONFIG_LSTFRG.
  destruct cfg; [|by rewrite Z.lor_0_r]. by rewrite <- !Z.lor_assoc, (Z.lor_comm 0x4000 type).
Qed.

Definition cfg_at s t : bool :=
  needs_config (s_frame_count s) (s_previous_format s) (s_point_format s) (s_last_config_time s) t.

(** [write_config], when asked for. *)
Definition configured (cfg : bool) (id t : Z) s : Stream :=
  if cfg then set_previous_format (Some (s_point_format s)) (set_last_config_time (Some t)
    (set_packet_buffer (s_packet_buffer s ++ config_wire (s_point_format s) (sdm_flags s) id (mode_of (s_frame_mode s))) s))
  else s.

Lemma config_run (cfg : bool) id t s n :
  (if cfg then write_config id t else mret tt) (s, n) = (ROk tt, (configured cfg id t s, n)).
Proof. destruct cfg; [|done]. unfold configured, config_wire. rewrite app_assoc. reflexivity. Qed.

(** The bytes of a packet built field by field. *)
Lemma packet_bytes s (cfg lst : bool) id command type ts duration points (size : nat) :
  stream_ok s -> Forall wire_wf points -> (size <= 1450)%nat -> 0 <= duration < 2 ^ 24 -> id = service_id (s_dac s) ->
  size = (8 + (if cfg then config_bytes (stream_format P) else 0) + (if is_sequel type then 0 else 4) + length points * SIZE_BYTES P)%nat ->
  encode_batch_into points
    ((((write_to_bytes (mkPacketHeader command (s_client_group s) (s_sequence s)) ++
       write_to_bytes (mkChannelMessageHeader (wrapu 16 (Z.of_nat size)) (content lst (chan s) type) (wire_timestamp ts))) ++
      (if cfg then config_wire (stream_format P) (sdm_flags s) id (mode_of (s_frame_mode s)) else [])) ++
     (if is_sequel type then [] else write_to_bytes (SampleChunkHeader_new (sdm_flags s) duration)))) =
  wire s (mkSent (s_sequence s) command cfg lst type ts duration points).
Proof.
  intros (Hg & Hq & Hi) Hp Hs Hd -> Hsize. rewrite encode_batch_spec by done. unfold wire, packet, body_of. cbn [snt_seq snt_command snt_cfg snt_lst snt_type snt_ts snt_duration snt_points].
  rewrite data_body_length by (done || apply sdm_flags_ok || (by destruct (s_frame_mode s))).
  assert (wrapu 16 (Z.of_nat size) = 8 + Z.of_nat (size - 8)) as -> by (unfold wrapu; rewrite Z.mod_small; lia).
  replace (size - 8)%nat with ((if cfg then config_bytes (stream_format P) else 0) + (if is_sequel type then 0 else 4) + length points * SIZE_BYTES P)%nat by lia.
  unfold data_body. by rewrite <- !app_assoc.
Qed.

(** Run the pure steps of the monad. *)
Ltac pure_steps :=
  cbv beta zeta iota delta [mbind M_bind mret M_ret get modify clear_packet write_bytes encode_points
    next_sequence send_packet];
  cbn [fst snd s_packet_buffer s_sequence s_dac s_client_group s_frame_mode s_service_data_match s_point_format
    set_packet_buffer set_sequence].

Lemma configured_buffer (cfg : bool) id t s :
  s_packet_buffer (configured cfg id t s) =
    s_packet_buffer s ++ (if cfg then config_wire (s_point_format s) (sdm_flags s) id (mode_of (s_frame_mode s)) else []).
Proof. destruct cfg; [done|]. by rewrite app_nil_r. Qed.

(** The send at the end of a packet, and the state it leaves. *)
Ltac finish_send Hh Ht :=
  match goal with |- context[send ?bs (?s, ?n)] =>
    let Hrun := fresh "Hrun" in
    destruct (send_run s n bs Hh) as (n3 & Hrun & Hs3 & Hh3 & Hrecvs3); rewrite Hrun
  end; cbv beta iota zeta; cbn [fst snd] in *; eexists _, _; try (split; [exact Ht|]); split; [reflexivity|].

Lemma first_packet_run s n points command :
  healthy n -> formatted s -> (0 < length points)%nat -> Forall wire_wf points -> stream_ok s ->
  exists t s' n', net_now n <= t /\
    let cfg := cfg_at s t in
    let num := div_ceil (length points) (capacity cfg) in
    let k := (length points / num)%nat in
    let duration := chunk_duration s (Z.of_nat k) in
    build_and_send_first_packet points command (s, n) = (ROk (s_sequence s, k), (s', n')) /\
    net_sent n' = net_sent n ++ [wire s (mkSent (s_sequence s) command cfg cfg (chunk_type s true (num =? 1)%nat) (current_timestamp_us s) duration (take k points))] /\
    healthy n' /\ same_session s s' /\ s_sequence s' = wrapu 16 (s_sequence s + 1) /\
    s_points_since_anchor s' = wrapu 64 (s_points_since_anchor s + Z.of_nat k) /\
    s_previous_format s' = (if cfg then Some (s_point_format s) else s_previous_format s) /\
    s_frame_count s' = wrapu 64 (s_frame_count s + 1).
Proof.
  intros Hh Hf Hl Hp Hok. destruct (now_run s n) as (t & n1 & Hn & Hsent & Hsends & _ & Ht & _).
  assert (Hh1 : healthy n1) by (unfold healthy; by rewrite Hsends).
  exists t. unfold build_and_send_first_packet. rewrite (run_bind _ _ _ _ _ Hn).
  unfold mbind at 1, M_bind at 1, get. cbn [fst]. unfold formatted in Hf.
  fold (cfg_at s t). set (cfg := cfg_at s t). rewrite Hf. fold (capacity cfg).
  pose proof (capacity_bounds cfg) as [Hc1 Hc2]. pose proof (even_share (length points) (capacity cfg) ltac:(lia) Hl) as Hk.
  set (num := div_ceil (length points) (capacity cfg)) in *. set (k := (length points / num)%nat) in *.
  pose proof (chunk_duration_range s (Z.of_nat k)) as Hd. set (duration := chunk_duration s (Z.of_nat k)) in *.
  assert (Hty : is_sequel (chunk_type s true (num =? 1)%nat) = false)
    by (unfold chunk_type; destruct (s_frame_mode s), (num =? 1)%nat; reflexivity).
  set (type := chunk_type s true (num =? 1)%nat) in *.
  pure_steps. rewrite config_run, content_first. finish_send Hh1 Ht.
  split; [|split; [done|]; unfold configured; destruct cfg; repeat split; exact (f_equal Some Hf)].
  rewrite Hs3, Hsent, configured_buffer. cbn [fst s_packet_buffer set_packet_buffer app]. do 2 f_equal.
  erewrite <- packet_bytes; [rewrite Hty, <- Hf; reflexivity|done|by apply Forall_take|..|done|done|].
  - rewrite Hf. pose proof (Nat.mul_le_mono_r k (capacity cfg) (SIZE_BYTES P) ltac:(lia)).
    change (SIZE_BYTES ChannelMessageHeader) with 8%nat. change (SIZE_BYTES SampleChunkHeader) with 4%nat. unfold MAX_UDP_PAYLOAD in *. lia.
  - rewrite Hf, Hty, length_take_le by lia. reflexivity.
Qed.

(** The points of consecutive chunks and their times: each chunk starts where the
    accumulator stands and lasts to the next one. *)
Fixpoint timed s (from : Z) (ds : list Sent) : Prop :=
  match ds with
  | [] => True
  | d :: ds =>
      let next := wrapu 64 (from + Z.of_nat (length (snt_points d))) in
      snt_ts d = timestamp_at s from /\
      snt_duration d = Z.min (wrapu 64 (timestamp_at s next - timestamp_at s from)) 0x00FFFFFF /\
      timed s next ds
  end.

Lemma timestamp_same_session s s' v : same_session s s' -> timestamp_at s' v = timestamp_at s v.
Proof. intros (_ & _ & _ & _ & _ & _ & Ha & Hp). unfold timestamp_at. by rewrite Ha, Hp. Qed.

Lemma timed_same_session s s' v ds : same_session s s' -> timed s' v ds -> timed s v ds.
Proof.
  intros Hs. revert v. induction ds as [|d ds IH]; intros v; [done|]. cbn [timed].
  rewrite !(timestamp_same_session s s') by done. intros (? & ? & ?). split; [done|]. split; [done|]. by apply IH.
Qed.

Lemma stream_ok_session s s' : stream_ok s -> same_session s s' -> 0 <= s_sequence s' < 2 ^ 16 -> stream_ok s'.
Proof. intros (Hg & _ & Hi) (Hd & Hc & _) Hq. unfold stream_ok. by rewrite Hd, Hc. Qed.

(** One packet of a continuation. *)
Lemma continuation_step fuel s n points :
  healthy n -> formatted s -> Forall wire_wf points -> stream_ok s -> s_frame_mode s = Wave -> (0 < length points)%nat ->
  let k := (length points / div_ceil (length points) (capacity false))%nat in
  let d := mkSent (s_sequence s) IDNCMD_RT_CNLMSG false false IDNVAL_CNKTYPE_LPGRF_WAVE (current_timestamp_us s)
    (chunk_duration s (Z.of_nat k)) (take k points) in
  exists s' n',
    write_frame_continuation (S fuel) points (s, n) =
      (if decide (k < length points)%nat then write_frame_continuation fuel (drop k points) else mret tt) (s', n') /\
    net_sent n' = net_sent n ++ [wire s d] /\ healthy n' /\ same_session s s' /\ stream_ok s' /\
    s_points_since_anchor s' = wrapu 64 (s_points_since_anchor s + Z.of_nat k) /\
    s_previous_format s' = s_previous_format s /\ s_frame_count s' = s_frame_count s.
Proof.
  intros Hh Hf Hp Hok Hm Hl k d. pose proof (capacity_bounds false) as [Hc1 Hc2].
  pose proof (even_share (length points) (capacity false) ltac:(lia) Hl) as Hk. fold k in Hk.
  pose proof (chunk_duration_range s (Z.of_nat k)) as Hd.
  destruct points as [|p0 l]; [simpl in Hl; lia|]. cbn [write_frame_continuation]. set (points := p0 :: l) in *. clearbody points.
  unfold mbind at 1, M_bind at 1, get. cbn [fst].
  change ((MAX_UDP_PAYLOAD - (SIZE_BYTES PacketHeader + SIZE_BYTES ChannelMessageHeader + SIZE_BYTES SampleChunkHeader)) / SIZE_BYTES P)%nat
    with (capacity false). fold k. set (duration := chunk_duration s (Z.of_nat k)) in *.
  replace (chunk_type s false false) with IDNVAL_CNKTYPE_LPGRF_WAVE by (unfold chunk_type; by rewrite Hm).
  pure_steps.
  match goal with |- context[now (?s1, _)] => destruct (now_run s1 n) as (t & n1 & Hn & Hsent & Hsends & _); rewrite Hn end.
  assert (Hh1 : healthy n1) by (unfold healthy; by rewrite Hsends). cbv beta iota zeta. cbn [fst snd].
  change (Z.lor (Z.lor IDNFLG_CONTENTID_CHANNELMSG (channel_id s)) ?ty) with
    (Z.lor (if false then Z.lor (Z.lor IDNFLG_CONTENTID_CHANNELMSG (channel_id s)) IDNFLG_CONTENTID_CONFIG_LSTFRG
            else Z.lor IDNFLG_CONTENTID_CHANNELMSG (channel_id s)) ty).
  rewrite content_first. finish_send Hh1 I.
  split; [|split; [done|]; split; [by repeat split|]; split; [|by repeat split]; eapply stream_ok_session; [exact Hok|by repeat split|apply next_seq_range]].
  rewrite Hs3, Hsent. cbn [fst s_packet_buffer set_packet_buffer app]. do 2 f_equal.
  unfold d. erewrite <- packet_bytes; [cbn [is_sequel]; rewrite app_nil_r; reflexivity|done|by apply Forall_take|..|done|done|].
  - pose proof (Nat.mul_le_mono_r k (capacity false) (SIZE_BYTES P) ltac:(lia)).
    change (SIZE_BYTES ChannelMessageHeader) with 8%nat. change (SIZE_BYTES SampleChunkHeader) with 4%nat. unfold MAX_UDP_PAYLOAD in *. lia.
  - rewrite length_take_le by lia. reflexivity.
Qed.

(** What every packet of a continuation looks like. *)
Definition wave_sent (d : Sent) : Prop :=
  snt_cfg d = false /\ snt_lst d = false /\ snt_type d = IDNVAL_CNKTYPE_LPGRF_WAVE /\
  0 <= snt_command d < 2 ^ 8 /\ 0 <= snt_seq d < 2 ^ 16 /\ 0 <= snt_duration d < 2 ^ 24 /\
  Forall wire_wf (snt_points d) /\ (length (snt_points d) <= capacity false)%nat.

Lemma continuation_run fuel : forall s n points,
  healthy n -> formatted s -> Forall wire_wf points -> stream_ok s -> s_frame_mode s = Wave -> (length points <= fuel)%nat ->
  exists ds s' n',
    write_frame_continuation fuel points (s, n) = (ROk tt, (s', n')) /\
    net_sent n' = net_sent n ++ (wire s <$> ds) /\ mjoin (snt_points <$> ds) = points /\ timed s (s_points_since_anchor s) ds /\
    Forall wave_sent ds /\
    healthy n' /\ same_session s s' /\ stream_ok s' /\ s_previous_format s' = s_previous_format s /\ s_frame_count s' = s_frame_count s.
Proof.
  induction fuel as [|fuel IH]; intros s n points Hh Hf Hp Hok Hm Hl.
  { destruct points; [|simpl in Hl; lia]. exists [], s, n. cbn. rewrite app_nil_r. split_and!; try done; try constructor; done. }
  destruct (decide (length points = 0)%nat) as [Hz|Hz].
  { destruct points; [|done]. exists [], s, n. cbn. rewrite app_nil_r. split_and!; try done; try constructor; done. }
  destruct (continuation_step fuel s n points Hh Hf Hp Hok Hm ltac:(lia)) as (s1 & n1 & Hrun & Hsent & Hh1 & Hs1 & Hok1 & Hps & Hpf & Hfc).
  pose proof (capacity_bounds false) as [Hc1 _].
  pose proof (even_share (length points) (capacity false) ltac:(lia) ltac:(lia)) as Hk. cbv zeta in *.
  pose proof (chunk_duration_range s (Z.of_nat (length points / div_ceil (length points) (capacity false)))) as Hd.
  set (k := (length points / div_ceil (length points) (capacity false))%nat) in *.
  set (d := mkSent _ _ _ _ _ _ _ _) in *.
  assert (Hsd : wave_sent d).
  { destruct Hok as (_ & Hq & _). unfold wave_sent, d. cbn. rewrite length_take_le by lia.
    split_and!; try done; [lia..|by apply Forall_take|lia]. }
  assert (Htd : forall ds, timed s1 (s_points_since_anchor s1) ds -> timed s (s_points_since_anchor s) (d :: ds)).
  { intros ds Hds. cbn [timed]. subst d. cbn [snt_ts snt_duration snt_points]. rewrite length_take_le by lia.
    split; [done|]. split; [done|]. rewrite <- Hps. by eapply timed_same_session. }
  rewrite Hrun. case_decide as Hlt.
  - destruct (IH s1 n1 (drop k points)) as (ds & s2 & n2 & Hr2 & Hsent2 & Hpt2 & Ht2 & Hall2 & Hh2 & Hs2 & Hok2 & Hpf2 & Hfc2); try done.
    + unfold formatted. by destruct Hs1 as (_ & _ & _ & -> & _).
    + by apply Forall_drop.
    + by destruct Hs1 as (_ & _ & _ & _ & -> & _).
    + rewrite length_drop. lia.
    + exists (d :: ds), s2, n2. split; [done|]. split.
      { rewrite Hsent2, Hsent, <- app_assoc. f_equal. cbn. f_equal. apply list_fmap_ext. intros i d' _. by apply wire_same_session. }
      split; [change (take k points ++ mjoin (snt_points <$> ds) = points); by rewrite Hpt2, take_drop|].
      split; [by apply Htd|]. split; [by constructor|]. split; [done|].
      split; [by eapply same_session_trans|]. split; [done|]. by rewrite Hpf2, Hfc2.
  - exists [d], s1, n1. split; [done|]. split; [done|].
    split; [cbn; rewrite app_nil_r; apply take_ge; lia|]. split; [by apply Htd|]. split; [by apply Forall_singleton|]. done.
Qed.

(** ** Frame mode *)

Lemma content_fragment (w l : bool) s type :
  (let c := Z.lor (Z.lor IDNFLG_CONTENTID_CHANNELMSG (channel_id s)) type in
   let c := if w then Z.lor c IDNFLG_CONTENTID_CONFIG_LSTFRG else c in
   if l then Z.lor c IDNFLG_CONTENTID_CONFIG_LSTFRG else c) = content (w || l) (chan s) type.
Proof.
  unfold content, channel_id, chan, IDNFLG_CONTENTID_CHANNELMSG, IDNFLG_CONTENTID_CONFIG_LSTFRG.
  destruct w, l; cbn [orb]; rewrite ?Z.lor_0_r; try done. by rewrite <- Z.lor_assoc, Z.lor_diag.
Qed.

(** Fragment [i] of [num]. *)
Definition fragment_type (i num : nat) : Z :=
  if (num =? 1)%nat then IDNVAL_CNKTYPE_LPGRF_FRAME
  else if (i =? 0)%nat then IDNVAL_CNKTYPE_LPGRF_FRAME_FIRST else IDNVAL_CNKTYPE_LPGRF_FRAME_SEQUEL.

Definition fragment_of s (i num : nat) (cfg : bool) (ts duration command : Z) points : Sent :=
  let w := cfg && (i =? 0)%nat in
  mkSent (s_sequence s) (if (i =? 0)%nat then command else IDNCMD_RT_CNLMSG) w
    (w || ((i =? num - 1)%nat && negb (num =? 1)%nat)) (fragment_type i num) (wrapu 64 (ts + Z.of_nat i)) duration points.

Lemma fragment_is_sequel i num : (i < num)%nat -> is_sequel (fragment_type i num) = negb (i =? 0)%nat.
Proof.
  intros Hi. unfold fragment_type. destruct (Nat.eqb_spec num 1), (Nat.eqb_spec i 0); try lia; reflexivity.
Qed.

Lemma fragment_run s n points i num (cfg : bool) ts duration t command :
  healthy n -> formatted s -> Forall wire_wf points -> stream_ok s -> (i < num)%nat -> 0 <= duration < 2 ^ 24 ->
  (length points <= capacity cfg)%nat ->
  exists s' n',
    send_frame_fragment points i num cfg ts duration t command (s, n) = (ROk tt, (s', n')) /\
    net_sent n' = net_sent n ++ [wire s (fragment_of s i num cfg ts duration command points)] /\
    healthy n' /\ same_session s s' /\ stream_ok s' /\ s_points_since_anchor s' = s_points_since_anchor s /\
    s_previous_format s' = (if cfg && (i =? 0)%nat then Some (s_point_format s) else s_previous_format s) /\
    s_frame_count s' = s_frame_count s.
Proof.
  intros Hh Hf Hp Hok Hi Hd Hlen. unfold formatted in Hf. pose proof (capacity_bounds cfg) as [Hc1 Hc2].
  unfold send_frame_fragment. unfold mbind at 1, M_bind at 1, get. cbn [fst].
  fold (fragment_type i num). rewrite content_fragment, Hf. set (w := cfg && (i =? 0)%nat).
  assert (Hhdr : forall (s1 : Stream) (n1 : Net),
    (if (i =? 0)%nat then write_bytes (SampleChunkHeader_new (sdm_flags s) duration) else mret tt) (s1, n1) =
    (ROk tt, (set_packet_buffer (s_packet_buffer s1 ++ if is_sequel (fragment_type i num) then []
       else write_to_bytes (SampleChunkHeader_new (sdm_flags s) duration)) s1, n1))).
  { intros s1 n1. rewrite fragment_is_sequel by done. destruct (i =? 0)%nat; [done|]. cbn [negb]. rewrite app_nil_r. by destruct s1. }
  pure_steps. rewrite config_run, Hhdr. finish_send Hh I.
  split; [|split; [done|]; split; [by unfold configured; destruct w|]; split;
    [eapply stream_ok_session; [exact Hok|by unfold configured; destruct w|unfold configured; destruct w; apply next_seq_range]|];
    unfold configured; destruct w; repeat split; exact (f_equal Some Hf)].
  rewrite Hs3, configured_buffer. cbn [fst s_packet_buffer set_packet_buffer app]. do 2 f_equal.
  unfold fragment_of. fold w. erewrite <- packet_bytes; [rewrite <- Hf; reflexivity|done|done|..|done|done|].
  - pose proof (Nat.mul_le_mono_r (length points) (capacity cfg) (SIZE_BYTES P) ltac:(lia)).
    change (SIZE_BYTES ChannelMessageHeader) with 8%nat. change (SIZE_BYTES SampleChunkHeader) with 4%nat. unfold MAX_UDP_PAYLOAD in *.
    rewrite Hf. unfold w. destruct cfg, (i =? 0)%nat; cbn [andb]; lia.
  - rewrite Hf, fragment_is_sequel by done. change (SIZE_BYTES ChannelMessageHeader) with 8%nat.
    change (SIZE_BYTES SampleChunkHeader) with 4%nat. by destruct (i =? 0)%nat.
Qed.

(** The fragments [i], [i + 1], ... of a frame of [num]. *)
Fixpoint fragments (i num : nat) (cfg : bool) (ts duration command : Z) (ds : list Sent) : Prop :=
  match ds with
  | [] => i = num
  | d :: ds =>
      let w := cfg && (i =? 0)%nat in
      (i < num)%nat /\ 0 <= snt_seq d < 2 ^ 16 /\ snt_command d = (if (i =? 0)%nat then command else IDNCMD_RT_CNLMSG) /\
      snt_cfg d = w /\ snt_lst d = w || ((i =? num - 1)%nat && negb (num =? 1)%nat) /\
      snt_type d = fragment_type i num /\ snt_ts d = wrapu 64 (ts + Z.of_nat i) /\ snt_duration d = duration /\
      Forall wire_wf (snt_points d) /\ (length (snt_points d) <= capacity cfg)%nat /\
      fragments (S i) num cfg ts duration command ds
  end.

(** The points of the fragments before fragment [i]. *)
Definition offset_of (base rem i : nat) : nat := (i * base + Nat.min i rem)%nat.

Lemma offset_of_S base rem i : offset_of base rem (S i) = (offset_of base rem i + (base + if (i <? rem)%nat then 1 else 0))%nat.
Proof. unfold offset_of. destruct (Nat.ltb_spec i rem); lia. Qed.

Lemma fragments_run k : forall i s n points num base rem (cfg : bool) ts duration t command,
  healthy n -> formatted s -> Forall wire_wf points -> stream_ok s -> (i + k = num)%nat -> 0 <= duration < 2 ^ 24 ->
  length points = (num * base + rem)%nat -> (rem < num)%nat -> (base + (if (0 <? rem)%nat then 1 else 0) <= capacity cfg)%nat ->
  exists ds s' n',
    send_fragments k i num base rem (offset_of base rem i) points cfg ts duration t command (s, n) = (ROk tt, (s', n')) /\
    net_sent n' = net_sent n ++ (wire s <$> ds) /\ mjoin (snt_points <$> ds) = drop (offset_of base rem i) points /\
    fragments i num cfg ts duration command ds /\
    healthy n' /\ same_session s s' /\ stream_ok s' /\ s_points_since_anchor s' = s_points_since_anchor s /\
    s_previous_format s' = (if cfg && (i =? 0)%nat && (0 <? k)%nat then Some (s_point_format s) else s_previous_format s) /\
    s_frame_count s' = s_frame_count s.
Proof.
  induction k as [|k IH]; intros i s n points num base rem cfg ts duration t command Hh Hf Hp Hok Hik Hd Hlen Hrem Hcap.
  { exists [], s, n. cbn. rewrite app_nil_r, andb_false_r.
    assert (offset_of base rem i = length points) as -> by (unfold offset_of; nia). rewrite drop_all.
    split_and!; try done. lia. }
  set (o := offset_of base rem i). set (count := (base + if (i <? rem)%nat then 1 else 0)%nat).
  assert (Hcount : (o + count <= length points)%nat).
  { unfold count, o. rewrite <- offset_of_S. unfold offset_of. nia. }
  assert (Hclen : length (take count (drop o points)) = count) by (rewrite length_take, length_drop; lia).
  destruct (fragment_run s n (take count (drop o points)) i num cfg ts duration t command) as
    (s1 & n1 & Hrun & Hsent & Hh1 & Hs1 & Hok1 & Hps1 & Hpf1 & Hfc1); try done; [by apply Forall_take, Forall_drop|lia| |].
  { rewrite Hclen. unfold count. destruct (Nat.ltb_spec i rem), (Nat.ltb_spec 0 rem); lia. }
  destruct (IH (S i) s1 n1 points num base rem cfg ts duration t command) as
    (ds & s2 & n2 & Hr2 & Hsent2 & Hpt2 & Hfr2 & Hh2 & Hs2 & Hok2 & Hps2 & Hpf2 & Hfc2); try done; [|lia|].
  { unfold formatted. by destruct Hs1 as (_ & _ & _ & -> & _). }
  set (d := fragment_of s i num cfg ts duration command (take count (drop o points))) in *.
  exists (d :: ds), s2, n2. split.
  { cbn [send_fragments]. fold count. rewrite (run_bind _ _ _ _ _ Hrun). unfold o, count. by rewrite <- offset_of_S. }
  split. { rewrite Hsent2, Hsent, <- app_assoc. f_equal. cbn. f_equal. apply list_fmap_ext. intros j d' _. by apply wire_same_session. }
  split.
  { change (take count (drop o points) ++ mjoin (snt_points <$> ds) = drop o points).
    rewrite Hpt2, offset_of_S. fold o count. rewrite <- drop_drop. apply take_drop. }
  split.
  { cbn [fragments]. destruct Hok as (_ & Hq & _). unfold d, fragment_of. cbn [snt_seq snt_command snt_cfg snt_lst snt_type snt_ts snt_duration snt_points].
    split_and!; try done; try lia; [by apply Forall_take, Forall_drop|].
    rewrite Hclen. unfold count. destruct (Nat.ltb_spec i rem), (Nat.ltb_spec 0 rem); lia. }
  split; [done|]. split; [by eapply same_session_trans|]. split; [done|]. split; [by rewrite Hps2|]. split; [|by rewrite Hfc2].
  rewrite Hpf2, Hpf1. cbn [Nat.eqb]. rewrite andb_false_r. cbn [andb]. by rewrite andb_true_r.
Qed.

(** ** Preparing a frame *)

Definition padded points : list P :=
  if decide (length points < MIN_SAMPLES_PER_FRAME)%nat then pad_points points else points.

Lemma last_is_Some points : (0 < length points)%nat -> exists p, last points = Some p /\ p ∈ points.
Proof.
  intros Hl. destruct points as [|q l] using rev_ind; [simpl in Hl; lia|]. exists q. rewrite last_snoc.
  split; [done|]. apply elem_of_app. right. by apply list_elem_of_singleton.
Qed.

Lemma padded_wf points : (0 < length points)%nat -> Forall wire_wf points -> Forall wire_wf (padded points) /\ (20 <= length (padded points))%nat.
Proof.
  intros Hl Hp. unfold padded. case_decide as Hs; [|unfold MIN_SAMPLES_PER_FRAME in *; split; [done|lia]].
  unfold pad_points. destruct (last_is_Some points Hl) as (q & -> & Hq).
  rewrite length_app, length_replicate. unfold MIN_SAMPLES_PER_FRAME in *. split; [|lia].
  apply Forall_app_2; [done|]. apply Forall_replicate. by eapply Forall_forall.
Qed.

(** The parts of the stream the receiver's state depends on. *)
Definition same_channel s s' : Prop :=
  s_dac s' = s_dac s /\ s_client_group s' = s_client_group s /\ s_scan_speed s' = s_scan_speed s /\
  s_point_format s' = s_point_format s /\ s_frame_mode s' = s_frame_mode s.

Lemma same_session_channel s s' : same_session s s' -> same_channel s s'.
Proof. unfold same_session, same_channel. tauto. Qed.

(** A step that keeps the channel, the network log and the frame bookkeeping. *)
Definition anchor_step s n s' n' : Prop :=
  same_channel s s' /\ s_sequence s' = s_sequence s /\ s_previous_format s' = s_previous_format s /\
  s_frame_count s' = s_frame_count s /\ s_service_data_match s' = s_service_data_match s /\
  s_last_config_time s' = s_last_config_time s /\
  net_sent n' = net_sent n /\ net_sends n' = net_sends n /\ net_now n <= net_now n'.

Lemma anchor_step_refl s n : anchor_step s n s n.
Proof. repeat split; lia. Qed.

Lemma anchor_step_trans s1 n1 s2 n2 s3 n3 : anchor_step s1 n1 s2 n2 -> anchor_step s2 n2 s3 n3 -> anchor_step s1 n1 s3 n3.
Proof.
  intros ((? & ? & ? & ? & ?) & ? & ? & ? & ? & ? & ? & ? & ?) ((? & ? & ? & ? & ?) & ? & ? & ? & ? & ? & ? & ? & ?).
  repeat split; congruence || lia.
Qed.

Lemma elapsed_run s n c t n' : now (s, n) = (ROk t, (s, n')) -> elapsed c (s, n) = (ROk (duration_since t c), (s, n')).
Proof. intros Hn. unfold elapsed. by rewrite (run_bind _ _ _ _ _ Hn). Qed.

Lemma reanchor_gap_run s n us : exists s' n', reanchor_gap us (s, n) = (ROk tt, (s', n')) /\ anchor_step s n s' n'.
Proof.
  unfold reanchor_gap. unfold mbind at 1, M_bind at 1, get. cbn [fst].
  destruct (s_last_data_send_time s) as [last|]; [|exists s, n; split; [done|apply anchor_step_refl]].
  destruct (now_run s n) as (t & n1 & Hn & Hsent & Hsends & _ & Ht & Hnow).
  rewrite (run_bind _ _ _ _ _ (elapsed_run s n last t n1 Hn)).
  destruct (_ <? _); [exists (anchor_at us s), n1|exists s, n1]; (split; [done|]); repeat split; done || lia.
Qed.

Lemma reanchor_rate_run s n : exists s', reanchor_rate (s, n) = (ROk tt, (s', n)) /\ anchor_step s n s' n.
Proof.
  unfold reanchor_rate. unfold mbind, M_bind, get. cbn [fst].
  destruct (_ =? _); [exists s; split; [done|apply anchor_step_refl]|]. eexists. split; [reflexivity|]. repeat split; done || lia.
Qed.

(** The receiver holds what the stream's next data needs, unless the stream is
    about to send its configuration. *)
Definition state_of s : ChannelState := mkChannelState (sample_format P) (sdm_flags s) (mode_of (s_frame_mode s)).

Definition linked s n (cached : option ChannelState) : Prop :=
  forall t, net_now n <= t -> cfg_at s t = false -> cached = Some (state_of s).

Lemma cfg_off s t : cfg_at s t = false ->
  s_frame_count s <> 0 /\ s_previous_format s = Some (s_point_format s) /\
  forall t0, s_last_config_time s = Some t0 -> duration_since t t0 < CONFIG_REFRESH_INTERVAL.
Proof.
  unfold cfg_at, needs_config. destruct (Z.eqb_spec (s_frame_count s) 0); [done|]. case_bool_decide; [|done]. cbn [orb negb].
  destruct (s_last_config_time s) as [t1|]; [|done]. intros Hle. split; [done|]. split; [done|]. intros t0 [= <-].
  by apply Z.leb_gt in Hle.
Qed.

(** The three ways to be in step: nothing sent yet, a configuration is due, or
    the receiver has the current one. *)
Lemma linked_intro s n cached :
  s_frame_count s = 0 \/ (exists t0, s_last_config_time s = Some t0 /\ t0 + CONFIG_REFRESH_INTERVAL <= net_now n) \/
  cached = Some (state_of s) -> linked s n cached.
Proof.
  intros [Hz|[(t0 & Ht0 & Hle)|Hc]] t Ht Hoff; [by destruct (cfg_off _ _ Hoff)| |done].
  destruct (cfg_off _ _ Hoff) as (_ & _ & Hd). specialize (Hd t0 Ht0). unfold duration_since in Hd. lia.
Qed.

Lemma prepare_run s n points cached :
  s_scan_speed s <> 0 -> linked s n cached ->
  exists s' n', prepare_points points (s, n) = (ROk (padded points), (s', n')) /\
    same_channel s s' /\ s_sequence s' = s_sequence s /\ linked s' n' cached /\ net_sent n' = net_sent n /\ net_sends n' = net_sends n.
Proof.
  intros Hsp Hlk. unfold prepare_points. fold (padded points). unfold mbind at 1, M_bind at 1, get. cbn [fst].
  destruct (Z.eqb_spec (s_scan_speed s) 0); [done|].
  set (s1 := if bool_decide (s_previous_format s = Some (s_point_format s)) then s
             else set_service_data_match (wrapu 8 (s_service_data_match s + 1)) s).
  assert (H1 : (if bool_decide (s_previous_format s = Some (s_point_format s)) then mret tt
     else modify (fun s => set_service_data_match (wrapu 8 (s_service_data_match s + 1)) s)) (s, n) = (ROk tt, (s1, n)))
    by (unfold s1; by case_bool_decide).
  rewrite (run_bind _ _ _ _ _ H1). destruct (now_run s1 n) as (t & n1 & Hn & Hsent & Hsends & _ & Ht & Hnow).
  rewrite (run_bind _ _ _ _ _ (elapsed_run s1 n (s_connect_time s) t n1 Hn)). set (us := micros_u64 _).
  assert (Hanchor : exists s2 n2, (if s_frame_count s =? 0 then modify (anchor_at (sat_sub us STARTUP_LEAD_US))
     else reanchor_gap us;; reanchor_rate) (s1, n1) = (ROk tt, (s2, n2)) /\ anchor_step s1 n1 s2 n2).
  { destruct (_ =? _); [eexists _, _; split; [reflexivity|]; repeat split; done || lia|].
    destruct (reanchor_gap_run s1 n1 us) as (s2 & n2 & Hg & Hs2). rewrite (run_bind _ _ _ _ _ Hg).
    destruct (reanchor_rate_run s2 n2) as (s3 & Hr & Hs3). exists s3, n2. split; [done|by eapply anchor_step_trans]. }
  destruct Hanchor as (s2 & n2 & Ha & (Hch & Hsq & Hpf & Hfc & Hsd & Hlc & Hns & Hnse & Hnow2)). rewrite (run_bind _ _ _ _ _ Ha).
  exists s2, n2. split; [done|].
  assert (Hc1 : same_channel s s1) by (unfold s1; by case_bool_decide).
  assert (Hf1 : s_frame_count s1 = s_frame_count s) by (unfold s1; by case_bool_decide).
  assert (Hp1 : s_previous_format s1 = s_previous_format s) by (unfold s1; by case_bool_decide).
  assert (Hq1 : s_sequence s1 = s_sequence s) by (unfold s1; by case_bool_decide).
  destruct Hc1 as (D1 & G1 & S1 & F1 & M1), Hch as (D2 & G2 & S2 & F2 & M2).
  split; [repeat split; congruence|]. split; [congruence|]. split; [|split; congruence].
  assert (Hl1 : s_last_config_time s1 = s_last_config_time s) by (unfold s1; by case_bool_decide).
  intros t' Ht' Hoff. destruct (cfg_off _ _ Hoff) as (_ & Hprev & _). rewrite Hpf, Hp1, F2, F1 in Hprev.
  rewrite (Hlk t' ltac:(lia)).
  - unfold state_of. do 2 f_equal; [|congruence]. unfold sdm_flags. rewrite Hsd. unfold s1. by rewrite bool_decide_true.
  - revert Hoff. unfold cfg_at. by rewrite Hfc, Hf1, Hpf, Hp1, F2, F1, Hlc, Hl1.
Qed.

(** ** Feeding the receiver *)

Fixpoint feed (p : FrameParser) (src : SocketAddr) (pkts : list (list Z)) : FrameParser * list (option ParsedChunk) :=
  match pkts with
  | [] => (p, [])
  | pkt :: pkts =>
      let '(p, c) := parser_parse p src pkt in
      let '(p, cs) := feed p src pkts in (p, c :: cs)
  end.

Lemma feed_app p src a b :
  feed p src (a ++ b) = let '(p, cs) := feed p src a in let '(p, cs') := feed p src b in (p, cs ++ cs').
Proof.
  revert p. induction a as [|x a IH]; intros p; cbn [app feed]; [by destruct (feed p src b)|].
  destruct (parser_parse p src x) as [p1 c]. rewrite IH. destruct (feed p1 src a) as [p2 cs]. by destruct (feed p2 src b).
Qed.

(** A packet the receiver accepts in the stream's mode. *)
Definition good s (d : Sent) : Prop :=
  snt_type d ∈ types /\ service_mode_accepts_chunk (mode_of (s_frame_mode s)) (chunk_type_of_byte (snt_type d)) = true /\
  snt_lst d && (snt_type d <? 0xC0) = snt_cfg d /\
  0 <= snt_command d < 2 ^ 8 /\ 0 <= snt_seq d < 2 ^ 16 /\ 0 <= snt_duration d < 2 ^ 24 /\
  Forall wire_wf (snt_points d) /\
  (16 + (if snt_cfg d then config_bytes (stream_format P) else 0) + length (snt_points d) * SIZE_BYTES P <= MAX_UDP_PAYLOAD)%nat.

Definition key_of s (src : SocketAddr) : ParserChannelKey := mkKey src (chan s).

(** The chunk a packet becomes. *)
Definition chunk s (d : Sent) : ParsedChunk :=
  chunk_of (mkPacketHeader (snt_command d) (s_client_group s) (snt_seq d)) (snt_lst d) (chan s) (snt_type d)
    (wire_timestamp (snt_ts d)) (if is_sequel (snt_type d) then 0 else snt_duration d) (8 + length (body_of s d)) (snt_points d).

Lemma mode_of_cases m : mode_of m = IDNVAL_SMOD_LPGRF_CONTINUOUS \/ mode_of m = IDNVAL_SMOD_LPGRF_DISCRETE.
Proof. destruct m; auto. Qed.

Lemma body_of_length s d : stream_ok s -> good s d ->
  (length (body_of s d) = (if snt_cfg d then config_bytes (stream_format P) else 0) + (if is_sequel (snt_type d) then 0 else 4) +
    length (snt_points d) * SIZE_BYTES P)%nat.
Proof.
  intros (_ & _ & Hi) (_ & _ & _ & _ & _ & Hd & Hp & _). unfold body_of.
  apply data_body_length; try done; [apply sdm_flags_ok|by destruct (s_frame_mode s)].
Qed.

Lemma wire_length_bound s d : stream_ok s -> good s d -> (length (wire s d) <= MAX_UDP_PAYLOAD)%nat.
Proof.
  intros Hok Hg. pose proof (body_of_length s d Hok Hg) as Hb. pose proof Hg as (Hty & _ & _ & Hc & Hq & _ & _ & Hsz).
  destruct Hok as (Hgr & _ & _). destruct (content_parts (snt_lst d) (chan s) (snt_type d) (chan_range s) Hty) as (Hcr & _).
  unfold wire, packet. pose proof (wire_timestamp_range (snt_ts d)).
  assert (Hsmall : Z.of_nat (length (body_of s d)) <= 1454).
  { rewrite Hb. unfold MAX_UDP_PAYLOAD in Hsz. destruct (is_sequel _); lia. }
  rewrite !length_app, (wire_length (mkPacketHeader _ _ _)), (wire_length (mkChannelMessageHeader _ _ _)).
  - change (SIZE_BYTES PacketHeader) with 4%nat. change (SIZE_BYTES ChannelMessageHeader) with 8%nat.
    rewrite Hb. destruct (is_sequel _); lia.
  - unfold wire_wf. cbn. unfold cm_wf. cbn. lia.
  - unfold wire_wf. cbn. unfold ph_wf. cbn. auto.
Qed.

Lemma sample_size_pos : (0 < SIZE_BYTES P)%nat.
Proof. destruct sample_size_cases as [->|[->| ->]]; lia. Qed.

Lemma parse_wire s d p src :
  stream_ok s -> good s d -> snt_cfg d = true \/ p !! key_of s src = Some (state_of s) ->
  parser_parse p src (wire s d) = ((if snt_cfg d then <[key_of s src := state_of s]> p else p), Some (chunk s d)).
Proof.
  intros Hok Hg Hc. pose proof (body_of_length s d Hok Hg) as Hb.
  pose proof Hg as (Hty & Hacc & Hlst & Hcmd & Hq & Hd & Hp & Hsz). pose proof Hok as (Hgr & _ & Hi).
  assert (Hsmall : 8 + Z.of_nat (length (body_of s d)) <= 0xFF00).
  { rewrite Hb. unfold MAX_UDP_PAYLOAD in Hsz. destruct (is_sequel _); lia. }
  unfold parser_parse, wire. rewrite parse_metadata_packet by (done || apply chan_range || apply wire_timestamp_range).
  cbn [md_channel_id metadata]. fold (key_of s src).
  pose proof (parse_data_packet (mkPacketHeader (snt_command d) (s_client_group s) (snt_seq d)) (snt_lst d) (chan s) (snt_type d)
    (wire_timestamp (snt_ts d)) (snt_cfg d) (sdm_flags s) (service_id (s_dac s)) (mode_of (s_frame_mode s)) (snt_duration d)
    (snt_points d) (p !! key_of s src)) as Hpd.
  cbv zeta in Hpd. fold (body_of s d) (state_of s) in Hpd.
  rewrite Hpd; try done; try apply chan_range; try apply wire_timestamp_range; try apply sdm_flags_ok; try apply sample_size_pos;
    try apply mode_of_cases.
  cbn [pp_state_update pp_chunk]. by destruct (snt_cfg d).
Qed.

Lemma feed_wires s src ds : forall p,
  stream_ok s -> Forall (good s) ds -> p !! key_of s src = Some (state_of s) ->
  exists p', feed p src (wire s <$> ds) = (p', Some ∘ chunk s <$> ds) /\ p' !! key_of s src = Some (state_of s).
Proof.
  induction ds as [|d ds IH]; intros p Hok Hg Hp; [by exists p|]. apply Forall_cons in Hg as [Hd Hg].
  rewrite fmap_cons. cbn [feed]. rewrite parse_wire by auto.
  destruct (IH (if snt_cfg d then <[key_of s src := state_of s]> p else p) Hok Hg) as (p' & -> & Hp').
  { destruct (snt_cfg d); [apply lookup_insert_eq|done]. }
  by exists p'.
Qed.

(** The first packet carries the configuration or the receiver already has it. *)
Lemma feed_session s src ds p :
  stream_ok s -> Forall (good s) ds -> ds <> [] ->
  (forall d, head ds = Some d -> snt_cfg d = true \/ p !! key_of s src = Some (state_of s)) ->
  exists p', feed p src (wire s <$> ds) = (p', Some ∘ chunk s <$> ds) /\ p' !! key_of s src = Some (state_of s).
Proof.
  intros Hok Hg Hne Hh. destruct ds as [|d ds]; [done|]. specialize (Hh d eq_refl). apply Forall_cons in Hg as [Hd Hg].
  rewrite fmap_cons. cbn [feed]. rewrite parse_wire by done.
  destruct (feed_wires s src ds (if snt_cfg d then <[key_of s src := state_of s]> p else p) Hok Hg) as (p' & -> & Hp').
  { destruct (snt_cfg d); [apply lookup_insert_eq|]. by destruct Hh. }
  by exists p'.
Qed.

Lemma chunk_points s ds : mjoin (pc_points <$> (chunk s <$> ds)) = received <$> mjoin (snt_points <$> ds).
Proof.
  induction ds as [|d ds IH]; [done|]. rewrite !fmap_cons. change (mjoin (?x :: ?xs)) with (x ++ mjoin xs).
  by rewrite IH, fmap_app.
Qed.

(** ** One frame *)

Lemma wave_type_in : IDNVAL_CNKTYPE_LPGRF_WAVE ∈ types.
Proof. apply list_elem_of_In. simpl. tauto. Qed.

Lemma fragment_type_in i num : fragment_type i num ∈ types.
Proof. apply list_elem_of_In. unfold fragment_type. destruct (num =? 1)%nat, (i =? 0)%nat; simpl; tauto. Qed.

Lemma wave_sent_good s d : s_frame_mode s = Wave -> wave_sent d -> good s d.
Proof.
  intros Hm (Hc & Hl & Ht & Hcmd & Hq & Hd & Hp & Hlen). pose proof (capacity_bounds false) as [_ Hb].
  pose proof (Nat.mul_le_mono_r _ _ (SIZE_BYTES P) Hlen). unfold good. rewrite Hm, Hc, Hl, Ht.
  split; [apply wave_type_in|]. split_and!; try done; lia.
Qed.

Lemma fragments_good s num cfg ts duration command ds : forall i,
  s_frame_mode s = Frame -> 0 <= duration < 2 ^ 24 -> 0 <= command < 2 ^ 8 ->
  fragments i num cfg ts duration command ds -> Forall (good s) ds.
Proof.
  induction ds as [|d ds IH]; intros i Hm Hd Hcmd; [done|]. cbn [fragments].
  intros (Hi & Hq & Hc & Hcf & Hl & Ht & Hts & Hdu & Hp & Hlen & Hrest). constructor; [|by eapply IH].
  pose proof (capacity_bounds cfg) as [_ Hb]. pose proof (Nat.mul_le_mono_r _ _ (SIZE_BYTES P) Hlen).
  unfold good. rewrite Hm, Hc, Hcf, Hl, Ht, Hdu. split; [apply fragment_type_in|].
  split; [unfold fragment_type; by destruct (num =? 1)%nat, (i =? 0)%nat|].
  split; [unfold fragment_type; destruct (Nat.eqb_spec num 1), (Nat.eqb_spec i 0), (Nat.eqb_spec i (num - 1)), cfg; try lia; reflexivity|].
  split; [destruct (i =? 0)%nat; done|]. split; [done|]. split; [done|]. split; [done|].
  destruct cfg, (i =? 0)%nat; cbn [andb]; lia.
Qed.

(** In frame mode the last chunk, and only it, completes the frame. *)
Lemma fragments_boundary s num cfg ts duration command ds : forall i,
  fragments i num cfg ts duration command ds -> (i < num)%nat ->
  pc_is_last_fragment <$> (chunk s <$> ds) = replicate (num - i - 1) false ++ [true].
Proof.
  induction ds as [|d ds IH]; intros i; cbn [fragments]; [lia|].
  intros (Hi & _ & _ & _ & Hl & Ht & _ & _ & _ & _ & Hrest) _. rewrite !fmap_cons.
  unfold chunk at 1, chunk_of. cbn [metadata md_is_last_fragment pc_is_last_fragment]. rewrite Hl, Ht.
  destruct (decide (S i < num)%nat) as [Hlt|Hge].
  - rewrite (IH (S i) Hrest Hlt). replace (num - i - 1)%nat with (S (num - S i - 1)) by lia. cbn [replicate app]. f_equal.
    unfold fragment_type. destruct (Nat.eqb_spec num 1), (Nat.eqb_spec i 0), (Nat.eqb_spec i (num - 1)); try lia; try reflexivity.
    by rewrite andb_false_r.
  - destruct ds as [|d' ds]; [|cbn [fragments] in Hrest; lia]. replace (num - i - 1)%nat with 0%nat by lia. cbn.
    unfold fragment_type. destruct (Nat.eqb_spec num 1), (Nat.eqb_spec i 0), (Nat.eqb_spec i (num - 1)); try lia; try reflexivity.
    by rewrite andb_false_r.
Qed.

(** The kinds of the chunks of a frame in [n] fragments. *)
Definition frame_types (n : nat) : list ChunkType := if (n =? 1)%nat then [CkFrame] else CkFrameFirst :: replicate (n - 1) CkFrameSequel.

Lemma fragments_types s num cfg ts duration command ds : (0 < num)%nat -> forall i,
  fragments i num cfg ts duration command ds -> pc_chunk_type <$> (chunk s <$> ds) = drop i (frame_types num).
Proof.
  assert (Hlen : forall k : nat, (0 < k)%nat -> length (frame_types k) = k).
  { intros k Hk. unfold frame_types. destruct (Nat.eqb_spec k 1); [by subst|]. cbn [length]. rewrite length_replicate. lia. }
  intros Hnum. induction ds as [|d ds IH]; intros i; cbn [fragments].
  { intros ->. rewrite drop_ge; [done|]. by rewrite Hlen. }
  intros (Hi & _ & _ & _ & _ & Ht & _ & _ & _ & _ & Hrest). rewrite !fmap_cons, (IH _ Hrest).
  assert (Hty : frame_types num !! i = Some (chunk_type_of_byte (fragment_type i num))).
  { unfold frame_types, fragment_type. destruct (Nat.eqb_spec num 1); [by replace i with 0%nat by lia|].
    destruct (Nat.eqb_spec i 0) as [->|Hi0]; [done|]. destruct i as [|i]; [done|]. cbn. apply lookup_replicate_2. lia. }
  rewrite (drop_S _ _ _ Hty). f_equal. unfold chunk, chunk_of. cbn [metadata md_chunk_type pc_chunk_type]. by rewrite Ht.
Qed.

Lemma fragmented_run s n points command :
  healthy n -> formatted s -> Forall wire_wf points -> stream_ok s -> (0 < length points)%nat -> 0 <= command < 2 ^ 8 ->
  exists t ds num s' n', net_now n <= t /\
    let duration := chunk_duration s (Z.of_nat (length points)) in
    write_frame_fragmented points command (s, n) = (ROk (s_sequence s), (s', n')) /\
    net_sent n' = net_sent n ++ (wire s <$> ds) /\ mjoin (snt_points <$> ds) = points /\ (0 < num)%nat /\
    fragments 0 num (cfg_at s t) (current_timestamp_us s) duration command ds /\
    healthy n' /\ same_session s s' /\ stream_ok s' /\
    s_points_since_anchor s' = wrapu 64 (s_points_since_anchor s + Z.of_nat (length points)) /\
    s_previous_format s' = (if cfg_at s t then Some (s_point_format s) else s_previous_format s) /\
    s_frame_count s' = wrapu 64 (s_frame_count s + 1).
Proof.
  intros Hh Hf Hp Hok Hl Hcmd. destruct (now_run s n) as (t & n1 & Hn & Hsent & Hsends & _ & Ht & _).
  assert (Hh1 : healthy n1) by (unfold healthy; by rewrite Hsends).
  unfold write_frame_fragmented. rewrite (run_bind _ _ _ _ _ Hn). unfold mbind at 1, M_bind at 1, get. cbn [fst].
  fold (cfg_at s t). set (cfg := cfg_at s t). unfold formatted in Hf. rewrite Hf. fold (capacity cfg).
  pose proof (capacity_bounds cfg) as [Hc1 _]. rewrite (Nat.max_r 1 (capacity cfg)) by lia.
  pose proof (div_ceil_bounds (length points) (capacity cfg) ltac:(lia) Hl) as [Hnum Hcap].
  set (num := Nat.max 1 (div_ceil (length points) (capacity cfg))).
  assert (Hnum1 : num = div_ceil (length points) (capacity cfg)) by (unfold num; lia).
  pose proof (chunk_duration_range s (Z.of_nat (length points))) as Hd.
  set (duration := chunk_duration s (Z.of_nat (length points))) in *.
  pose proof (Nat.div_mod (length points) num ltac:(lia)) as Hdm.
  pose proof (Nat.mod_upper_bound (length points) num ltac:(lia)) as Hmod.
  destruct (fragments_run num 0 s n1 points num (length points / num) (length points mod num) cfg (current_timestamp_us s) duration t command)
    as (ds & s2 & n2 & Hr2 & Hsent2 & Hpt2 & Hfr2 & Hh2 & Hs2 & Hok2 & Hps2 & Hpf2 & Hfc2); try done.
  { destruct (Nat.ltb_spec 0 (length points mod num)); nia. }
  change (offset_of (length points / num) (length points mod num) 0) with 0%nat in Hr2, Hpt2.
  rewrite (run_bind _ _ _ _ _ Hr2). exists t, ds, num. eexists _, _. split; [exact Ht|]. split; [reflexivity|]. fold cfg. rewrite andb_true_r in Hpf2.
  assert ((0 <? num)%nat = true) as Hpos by (apply Nat.ltb_lt; lia). rewrite Hpos, andb_true_r in Hpf2.
  split; [by rewrite <- Hsent|]. split; [done|]. split; [lia|]. split; [done|]. split; [done|].
  split; [by destruct Hs2 as (? & ? & ? & ? & ? & ? & ? & ?)|]. split; [done|].
  cbn. rewrite Hps2, Hpf2, Hfc2, Hf. by split_and!.
Qed.

(** The shape of one frame's packets: independent wave chunks, or the fragments of
    one frame. *)
Definition shaped s (mode : FrameMode) (ds : list Sent) : Prop :=
  match mode with
  | Wave => Forall (fun d => snt_type d = IDNVAL_CNKTYPE_LPGRF_WAVE) ds /\ timed s (s_points_since_anchor s) ds
  | Frame => exists num cfg duration, (0 < num)%nat /\ fragments 0 num cfg (current_timestamp_us s) duration IDNCMD_RT_CNLMSG ds
  end.

(** What a successful [write_frame] did: from the prepared stream [s1] it sent the
    packets [ds]. *)
Record frame_sent s n points (cached : option ChannelState) s1 (ds : list Sent) s' n' : Prop := {
  fs_run : write_frame points (s, n) = (ROk tt, (s', n'));
  fs_prepared : same_channel s s1 /\ stream_ok s1;
  fs_sent : net_sent n' = net_sent n ++ (wire s1 <$> ds);
  fs_good : Forall (good s1) ds;
  fs_config : forall d, head ds = Some d -> snt_cfg d = true \/ cached = Some (state_of s1);
  fs_points : mjoin (snt_points <$> ds) = padded points;
  fs_shape : shaped s1 (s_frame_mode s) ds;
  fs_after : same_session s1 s' /\ stream_ok s' /\ healthy n';
}.

Lemma head_config s1 n1 cached t d0 ds :
  linked s1 n1 cached -> net_now n1 <= t -> snt_cfg d0 = cfg_at s1 t -> forall d, head (d0 :: ds) = Some d -> snt_cfg d = true \/ cached = Some (state_of s1).
Proof.
  intros Hlk Ht Hc d [= <-]. rewrite Hc. destruct (cfg_at s1 t) eqn:He; [by left|]. right. by apply (Hlk t).
Qed.

Lemma frame_run s n points cached :
  healthy n -> formatted s -> stream_ok s -> Forall wire_wf points -> (0 < length points)%nat -> s_scan_speed s <> 0 -> linked s n cached ->
  exists s1 ds s' n', frame_sent s n points cached s1 ds s' n'.
Proof.
  intros Hh Hf Hok Hp Hl Hsp Hlk. destruct (prepare_run s n points cached Hsp Hlk) as (s1 & n1 & Hprep & Hch & Hq1 & Hlk1 & Hns & Hnse).
  destruct (padded_wf points Hl Hp) as [Hpw Hpl]. pose proof Hch as (D & G & _ & F & Mo).
  assert (Hh1 : healthy n1) by (unfold healthy; by rewrite Hnse). assert (Hf1 : formatted s1) by (unfold formatted; by rewrite F).
  assert (Hok1 : stream_ok s1) by (unfold stream_ok in *; by rewrite D, G, Hq1).
  assert (Hwf : forall s2 n2, (s ← get;
      match s_frame_mode s with
      | Wave => '(_, k) ← build_and_send_first_packet (padded points) IDNCMD_RT_CNLMSG;
          if decide (k < length (padded points))%nat then write_frame_continuation (length (padded points)) (drop k (padded points)) else mret tt
      | Frame => write_frame_fragmented (padded points) IDNCMD_RT_CNLMSG;; mret tt
      end) (s1, n1) = (ROk tt, (s2, n2)) -> write_frame points (s, n) = (ROk tt, (s2, n2))).
  { intros s2 n2 Hr. unfold write_frame. destruct points; [simpl in Hl; lia|]. by rewrite (run_bind _ _ _ _ _ Hprep). }
  unfold mbind at 1, M_bind at 1, get in Hwf. cbn [fst] in Hwf. rewrite Mo in Hwf. destruct (s_frame_mode s) eqn:Hm.
  - destruct (first_packet_run s1 n1 (padded points) IDNCMD_RT_CNLMSG Hh1 Hf1 ltac:(lia) Hpw Hok1) as
      (t & s2 & n2 & Ht & Hr & Hs2 & Hh2 & Hss2 & Hq2 & Hps2 & Hpf2 & Hfc2). cbv zeta in *.
    pose proof (capacity_bounds (cfg_at s1 t)) as [Hc1 Hc2].
    pose proof (even_share (length (padded points)) (capacity (cfg_at s1 t)) ltac:(lia) ltac:(lia)) as Hk.
    set (k := (length (padded points) / div_ceil (length (padded points)) (capacity (cfg_at s1 t)))%nat) in *.
    assert (Hty : chunk_type s1 true (div_ceil (length (padded points)) (capacity (cfg_at s1 t)) =? 1)%nat = IDNVAL_CNKTYPE_LPGRF_WAVE)
      by (unfold chunk_type; by rewrite Mo).
    rewrite Hty in Hs2. set (d0 := mkSent _ _ _ _ _ _ _ _) in Hs2.
    assert (Hok2 : stream_ok s2) by (eapply stream_ok_session; [exact Hok1|exact Hss2|rewrite Hq2; apply next_seq_range]).
    assert (Hg0 : good s1 d0).
    { pose proof (Nat.mul_le_mono_r k (capacity (cfg_at s1 t)) (SIZE_BYTES P) ltac:(lia)). destruct Hok1 as (_ & Hqq & _).
      unfold good, d0. cbn [snt_type snt_lst snt_cfg snt_command snt_seq snt_duration snt_points]. rewrite Mo, length_take_le by lia.
      split; [apply wave_type_in|]. split; [done|]. split; [by destruct (cfg_at s1 t)|]. split; [done|]. split; [done|].
      split; [apply chunk_duration_range|]. split; [by apply Forall_take|lia]. }
    destruct (continuation_run (length (padded points)) s2 n2 (drop k (padded points))) as
      (ds & s3 & n3 & Hr3 & Hs3 & Hpt3 & Ht3 & Hall3 & Hh3 & Hss3 & Hok3 & _); try done.
    { unfold formatted. by destruct Hss2 as (_ & _ & _ & -> & _). }
    { by apply Forall_drop. }
    { by destruct Hss2 as (_ & _ & _ & _ & -> & _). }
    { rewrite length_drop. lia. }
    exists s1, (d0 :: ds), s3, n3. split.
    + apply Hwf. rewrite (run_bind _ _ _ _ _ Hr). case_decide; [done|].
      rewrite drop_ge in Hr3 by lia. destruct (length (padded points)) in Hr3; cbn in Hr3; exact Hr3.
    + done.
    + rewrite Hs3, Hs2, Hns, <- app_assoc. f_equal. cbn. f_equal. apply list_fmap_ext. intros j d' _. by apply wire_same_session.
    + constructor; [done|]. eapply Forall_impl; [exact Hall3|]. intros d Hd. by apply wave_sent_good.
    + by apply (head_config s1 n1 cached t).
    + change (take k (padded points) ++ mjoin (snt_points <$> ds) = padded points). by rewrite Hpt3, take_drop.
    + rewrite Hm. split; [constructor; [done|]; eapply Forall_impl; [exact Hall3|]; intros d (_ & _ & Htd & _); exact Htd|].
      cbn [timed]. unfold d0. cbn [snt_ts snt_duration snt_points]. rewrite length_take_le by lia. split; [done|]. split; [done|].
      rewrite <- Hps2. by eapply timed_same_session.
    + split; [by eapply same_session_trans|done].
  - destruct (fragmented_run s1 n1 (padded points) IDNCMD_RT_CNLMSG Hh1 Hf1 Hpw Hok1 ltac:(lia) ltac:(done)) as
      (t & ds & num & s2 & n2 & Ht & Hr & Hs2 & Hpt & Hnum & Hfr & Hh2 & Hss2 & Hok2 & _). cbv zeta in *.
    exists s1, ds, s2, n2. split.
    + apply Hwf. by rewrite (run_bind _ _ _ _ _ Hr).
    + done.
    + by rewrite Hs2, Hns.
    + eapply fragments_good; [done|apply chunk_duration_range| |exact Hfr]. done.
    + destruct ds as [|d0 ds]; [done|]. cbn [fragments] in Hfr. destruct Hfr as (_ & _ & _ & Hc & _). rewrite andb_true_r in Hc.
      by apply (head_config s1 n1 cached t).
    + done.
    + rewrite Hm. eexists num, _, _. split; [done|exact Hfr].
    + done.
Qed.

(** Consecutive wave chunks, as received: each starts where the previous one ends. *)
Fixpoint tiles (cs : list ParsedChunk) : Prop :=
  match cs with
  | c1 :: rest =>
      match rest with
      | c2 :: _ => pc_duration_us c1 < 0x00FFFFFF ->
          pc_timestamp_us_u32 c2 = wrapu 32 (pc_timestamp_us_u32 c1 + pc_duration_us c1)
      | [] => True
      end /\ tiles rest
  | [] => True
  end.

(** How the chunks of one frame end, by mode. *)
Definition framed (mode : FrameMode) (cs : list ParsedChunk) : Prop :=
  match mode with
  | Wave => Forall (fun c => pc_chunk_type c = CkWave /\ pc_is_last_fragment c = false) cs
  | Frame => pc_is_last_fragment <$> cs = replicate (length cs - 1) false ++ [true] /\ pc_chunk_type <$> cs = frame_types (length cs)
  end.

Lemma wire_timestamp_mod t : wire_timestamp t = wrapu 32 t.
Proof. exact (Z.land_ones t 32 ltac:(lia)). Qed.

Lemma timed_tiles s1 ds : forall from, Forall (fun d => snt_type d = IDNVAL_CNKTYPE_LPGRF_WAVE) ds -> timed s1 from ds -> tiles (chunk s1 <$> ds).
Proof.
  induction ds as [|d ds IH]; intros from Hw; [done|]. apply Forall_cons in Hw as [Hd Hw]. cbn [timed]. intros (Hts & Hdu & Hrest).
  rewrite fmap_cons. cbn [tiles]. split; [|by eapply IH]. destruct ds as [|d2 ds]; [done|]. rewrite fmap_cons.
  destruct Hrest as (Hts2 & _). unfold chunk, chunk_of. cbn [pc_duration_us pc_timestamp_us_u32]. rewrite Hd.
  replace (is_sequel IDNVAL_CNKTYPE_LPGRF_WAVE) with false by reflexivity. intros Hcap.
  set (next := wrapu 64 (from + Z.of_nat (length (snt_points d)))) in *. rewrite !wire_timestamp_mod, Hts, Hts2.
  rewrite Hdu in Hcap. rewrite Hdu, Z.min_l by lia.
  set (a := timestamp_at s1 next). set (b := timestamp_at s1 from).
  unfold wrapu. rewrite Zplus_mod_idemp_l, <- Zplus_mod_idemp_r, Z.mod_mod_divide, Zplus_mod_idemp_r by by exists (2 ^ 32).
  f_equal. lia.
Qed.

(** ** A session of frames *)

Fixpoint write_frames (frames : list (list P)) : M unit :=
  match frames with
  | [] => mret tt
  | f :: fs => write_frame f;; write_frames fs
  end.

Lemma fragments_length num cfg ts duration command ds : forall i,
  fragments i num cfg ts duration command ds -> (i + length ds)%nat = num.
Proof.
  induction ds as [|d ds IH]; intros i; cbn [fragments length]; [lia|]. intros (_ & _ & _ & _ & _ & _ & _ & _ & _ & _ & Hr).
  specialize (IH _ Hr). lia.
Qed.

Lemma shaped_framed s1 mode ds : shaped s1 mode ds -> framed mode (chunk s1 <$> ds).
Proof.
  destruct mode; cbn [shaped framed].
  - intros [Hw _]. induction Hw as [|d ds Hd _ IH]; [done|]. constructor; [|done]. unfold chunk, chunk_of. cbn. by rewrite Hd.
  - intros (num & cfg & duration & Hnum & Hf). pose proof (fragments_length _ _ _ _ _ _ _ Hf) as Hl.
    rewrite (fragments_boundary _ _ _ _ _ _ _ 0 Hf) by lia. assert (Hpos : (0 < num)%nat) by lia. rewrite (fragments_types _ _ _ _ _ _ _ Hpos 0 Hf), length_fmap. split; [do 2 f_equal; lia|].
    cbn [drop]. by replace (length ds) with num by (simpl in Hl; lia).
Qed.

Lemma session_run frames : forall s n p src,
  healthy n -> formatted s -> stream_ok s -> s_scan_speed s <> 0 -> linked s n (p !! key_of s src) ->
  Forall (fun f => (0 < length f)%nat /\ Forall wire_wf f) frames ->
  exists s' n' pkts css p',
    write_frames frames (s, n) = (ROk tt, (s', n')) /\ net_sent n' = net_sent n ++ pkts /\
    feed p src pkts = (p', Some <$> mjoin css) /\
    Forall2 (fun f cs => mjoin (pc_points <$> cs) = received <$> padded f /\ framed (s_frame_mode s) cs /\
      (s_frame_mode s = Wave -> tiles cs)) frames css /\
    Forall (fun b => (length b <= MAX_UDP_PAYLOAD)%nat) pkts.
Proof.
  induction frames as [|f frames IH]; intros s n p src Hh Hf Hok Hsp Hlk Hall.
  { exists s, n, [], [], p. rewrite app_nil_r. by split_and!. }
  apply Forall_cons in Hall as [[Hl Hp] Hall].
  destruct (frame_run s n f (p !! key_of s src) Hh Hf Hok Hp Hl Hsp Hlk) as (s1 & ds & s2 & n2 & Hfs).
  destruct Hfs as [Hrun [Hch Hok1] Hsent Hgood Hcfg Hpts Hshape (Hss & Hok2 & Hh2)].
  pose proof Hch as (D & G & Sp & F & Mo). assert (Hkey : key_of s1 src = key_of s src) by (unfold key_of, chan; by rewrite D).
  destruct (padded_wf f Hl Hp) as [_ Hpl].
  assert (Hne : ds <> []) by (intros ->; cbn in Hpts; rewrite <- Hpts in Hpl; simpl in Hpl; lia).
  destruct (feed_session s1 src ds p Hok1 Hgood Hne) as (p1 & Hfeed & Hp1); [by rewrite Hkey|].
  pose proof (same_session_channel _ _ Hss) as (D2 & G2 & Sp2 & F2 & Mo2).
  assert (Hkey2 : key_of s2 src = key_of s1 src) by (unfold key_of, chan; by rewrite D2).
  destruct (IH s2 n2 p1 src) as (s3 & n3 & pkts & css & p2 & Hr3 & Hs3 & Hf3 & Hc3 & Hm3); try done.
  { unfold formatted. by rewrite F2, F. }
  { congruence. }
  { apply linked_intro. right. right. rewrite Hkey2, Hp1. unfold state_of, sdm_flags. destruct Hss as (_ & _ & _ & _ & -> & -> & _). done. }
  exists s3, n3, ((wire s1 <$> ds) ++ pkts), ((chunk s1 <$> ds) :: css), p2. rewrite Mo2, Mo in Hc3.
  split; [cbn [write_frames]; by rewrite (run_bind _ _ _ _ _ Hrun)|]. split; [by rewrite Hs3, Hsent, app_assoc|].
  split. { rewrite feed_app, Hfeed, Hf3. change (mjoin (?x :: ?xs)) with (x ++ mjoin xs). by rewrite fmap_app, <- list_fmap_compose. }
  split.
  - constructor; [|done]. rewrite chunk_points, Hpts. split; [done|]. split; [by apply shaped_framed|].
    intros Hw. rewrite Hw in Hshape. destruct Hshape as [Hw1 Ht]. by eapply timed_tiles.
  - apply Forall_app_2; [|done]. apply Forall_fmap. eapply Forall_impl; [exact Hgood|]. intros d. by apply wire_length_bound.
Qed.

(** ** Theorems *)

(** The stream and the receiver are in step for a channel: nothing was sent yet, the
    configuration is due to be sent again, or the receiver holds the current one. *)
Definition in_step s n (p : FrameParser) (src : SocketAddr) : Prop :=
  s_frame_count s = 0 \/ (exists t0, s_last_config_time s = Some t0 /\ t0 + CONFIG_REFRESH_INTERVAL <= net_now n) \/
  p !! key_of s src = Some (state_of s).

(** C4. Frames written to an IDN stream reach the receiver intact: for any point
    format and either frame mode, the datagrams of any sequence of frames, delivered
    to the receiver's parser, all decode, and the points of each frame's chunks are
    exactly the frame's points (padded to the minimum) in order; in frame mode the
    last chunk of each frame and no other completes it, and a frame is one chunk or a
    first fragment and its sequels, in wave mode all are wave chunks.  It is enough that the stream starts fresh, that its configuration is due
    again (so a lost configuration is made up for after the refresh interval), or that
    the receiver has it. *)
Theorem frames_reach_receiver frames s n p src :
  healthy n -> formatted s -> stream_ok s -> s_scan_speed s <> 0 -> in_step s n p src ->
  Forall (fun f => (0 < length f)%nat /\ Forall wire_wf f) frames ->
  exists s' n' pkts css p',
    write_frames frames (s, n) = (ROk tt, (s', n')) /\ net_sent n' = net_sent n ++ pkts /\
    feed p src pkts = (p', Some <$> mjoin css) /\
    Forall2 (fun f cs => mjoin (pc_points <$> cs) = received <$> padded f /\ framed (s_frame_mode s) cs) frames css.
Proof.
  intros Hh Hf Hok Hsp Hstep Hall.
  destruct (session_run frames s n p src Hh Hf Hok Hsp (linked_intro _ _ _ Hstep) Hall) as (s' & n' & pkts & css & p' & Hr & Hs & Hfeed & Hc & _).
  exists s', n', pkts, css, p'. split_and!; try done. eapply Forall2_impl; [exact Hc|]. intros f cs (Hp & Hfr & _). by split.
Qed.

(** IDN packets respect the network and the clock: every datagram of a session
    fits the UDP payload limit, and in wave mode each chunk's timestamp is the
    previous one's plus its duration (modulo 2^32, unless the duration hit its 24-bit
    cap), so no rounding drift accumulates within a frame. *)
Theorem datagrams_fit_and_tile frames s n p src :
  healthy n -> formatted s -> stream_ok s -> s_scan_speed s <> 0 -> in_step s n p src ->
  Forall (fun f => (0 < length f)%nat /\ Forall wire_wf f) frames ->
  exists s' n' pkts css p',
    write_frames frames (s, n) = (ROk tt, (s', n')) /\ net_sent n' = net_sent n ++ pkts /\
    feed p src pkts = (p', Some <$> mjoin css) /\
    Forall (fun b => (length b <= MAX_UDP_PAYLOAD)%nat) pkts /\ length css = length frames /\
    (s_frame_mode s = Wave -> Forall tiles css).
Proof.
  intros Hh Hf Hok Hsp Hstep Hall.
  destruct (session_run frames s n p src Hh Hf Hok Hsp (linked_intro _ _ _ Hstep) Hall) as (s' & n' & pkts & css & p' & Hr & Hs & Hfeed & Hc & Hm).
  exists s', n', pkts, css, p'. split_and!; try done; [by symmetry; eapply Forall2_length|].
  intros Hw. eapply Forall2_Forall_r; [exact Hc|]. apply Forall_true. intros f cs (_ & _ & Ht). by apply Ht.
Qed.
End runs.

(** ** Witnesses *)
Module Demo.
Definition src : SocketAddr := mkAddr (V4 0x7F000001) 50000.
Definition service : ServiceInfo := mkServiceInfo 1 LaserProjector [] 0 0.
Definition server : ServerInfo := mkServerInfo (replicate 16 1) [] (1, 0) 1 [src] [] [service].
Definition stream : Stream := new_stream (mkAddressed server service src) 0 0.
Definition net : Net := mkNet 1000000000 [5%N; 7%N] [] [] [].
Definition point (v : Z) : PointXyrgbi := mkPointXyrgbi v (- v) 255 0 v 255.
Definition frames : list (list PointXyrgbi) := [point <$> seqZ 0 2; point <$> seqZ 0 250].
End Demo.

Lemma demo_points_wf n : 0 <= n <= 256 -> Forall wire_wf (Demo.point <$> seqZ 0 n).
Proof.
  intros Hn. apply Forall_fmap, Forall_forall. intros v Hv%elem_of_seqZ.
  unfold compose, wire_wf, Demo.point. cbn. unfold px_wf, in_s. cbn. lia.
Qed.

Lemma demo_frames_wf : Forall (fun f => (0 < length f)%nat /\ Forall wire_wf f) Demo.frames.
Proof.
  apply Forall_cons; split; [|apply Forall_singleton]; (split; [apply Nat.ltb_lt; vm_compute; reflexivity|]).
  - by apply (demo_points_wf 2).
  - by apply demo_points_wf.
Qed.

Lemma frames_reach_receiver_witness :
  exists s' n' pkts css p',
    write_frames Demo.frames (Demo.stream, Demo.net) = (ROk tt, (s', n')) /\ net_sent n' = [] ++ pkts /\
    feed ∅ Demo.src pkts = (p', Some <$> mjoin css) /\
    Forall2 (fun f cs => mjoin (pc_points <$> cs) = received <$> padded f /\ framed Wave cs) Demo.frames css.
Proof.
  refine (@frames_reach_receiver stdlib_byte_order PointXyrgbi _ _ _ Demo.frames Demo.stream Demo.net ∅ Demo.src _ _ _ _ _ demo_frames_wf).
  - constructor.
  - reflexivity.
  - vm_compute. repeat split; congruence.
  - vm_compute. congruence.
  - left. reflexivity.
Defined.

Lemma datagrams_fit_and_tile_witness :
  exists s' n' pkts css p',
    write_frames Demo.frames (Demo.stream, Demo.net) = (ROk tt, (s', n')) /\ net_sent n' = [] ++ pkts /\
    feed ∅ Demo.src pkts = (p', Some <$> mjoin css) /\
    Forall (fun b => (length b <= MAX_UDP_PAYLOAD)%nat) pkts /\ length css = 2%nat /\
    (s_frame_mode Demo.stream = Wave -> Forall tiles css).
Proof.
  refine (@datagrams_fit_and_tile stdlib_byte_order PointXyrgbi _ _ _ Demo.frames Demo.stream Demo.net ∅ Demo.src _ _ _ _ _ demo_frames_wf).
  - constructor.
  - reflexivity.
  - vm_compute. repeat split; congruence.
  - vm_compute. congruence.
  - left. reflexivity.
Defined.
