(* ===== verification/IdnServer.v ===== *)
(** * The IDN receiver server

    Models the responses of [src/src/receiver/packet_builder.rs], the advertised
    configuration of [config.rs], the hooks of [behavior.rs] and one iteration of
    the loop of [server.rs].  The socket is an event per iteration; the clock its
    readings; [ServerBehavior] is a class, so the theorems hold for any behaviour. *)

From stdpp Require Import gmap.
From S2P Require Import Prelude Bytes Utf8 IdnProtocol IdnTypes Receiver.

#[local] Open Scope Z_scope.

(** ** Names *)

Fixpoint take_while {A} (f : A -> bool) (l : list A) : list A :=
  match l with
  | [] => []
  | x :: l => if f x then x :: take_while f l else []
  end.

(** [floor_char_boundary]. *)
Definition floor_char_boundary (s : str) (max : nat) : nat :=
  if decide (length (as_bytes s) <= max)%nat then length (as_bytes s)
  else default 0%nat (last (take_while (fun i => (i <=? max)%nat) (char_indices s))).

(** [copy_padded_name]: the slices are in range, see [floor_boundary_le]. *)
Definition copy_padded_name (N : nat) (s : str) : list Z :=
  let end_ := floor_char_boundary s N in
  take end_ (as_bytes s) ++ replicate (N - end_) 0.

(** ** Configuration *)

Record Service := mkService {
  srv_service_id : Z;
  srv_service_type : Z;
  srv_name : str;
  srv_flags : Z;
  srv_relay_number : Z;
}.

Definition laser_projector (id : Z) (name : str) : Service := mkService id IDNVAL_STYPE_LAPRO name 0 0.

Definition dmx512 (id : Z) (name : str) : Service := mkService id IDNVAL_STYPE_DMX512 name 0 0.

Definition with_relay (n : Z) (s : Service) : Service :=
  mkService (srv_service_id s) (srv_service_type s) (srv_name s) (srv_flags s) n.

Definition with_dsid (s : Service) : Service :=
  mkService (srv_service_id s) (srv_service_type s) (srv_name s) (Z.lor (srv_flags s) IDNFLG_SERVICEMAP_DSID) (srv_relay_number s).

Record Relay := mkRelay {
  rel_relay_number : Z;
  rel_name : str;
}.

Record ServerConfig := mkServerConfig {
  conf_hostname : str;
  conf_unit_id : list Z;
  conf_protocol_version : Z;
  conf_services : list Service;
  conf_relays : list Relay;
  conf_bind_address : SocketAddr;
  conf_read_timeout : Z;
  conf_link_timeout : Z;
  conf_force_disconnect_window : Z;
}.

(** The unit id made from a hostname: length, category, the first 14 bytes. *)
Definition unit_id_of (hostname : str) : list Z :=
  let bs := as_bytes hostname in
  let id_len := Nat.min (length bs) 14 in
  wrapu 8 (Z.of_nat (id_len + 1)) :: 0x7F :: take id_len bs ++ replicate (14 - id_len) 0.

Definition ServerConfig_new (hostname : str) : ServerConfig :=
  mkServerConfig hostname (unit_id_of hostname) 0x10
    [laser_projector 1 [76; 97; 115; 101; 114; 49]] [] (mkAddr (V4 0x7F000001) 0) 100000000 1000000000 3000000000.

Definition with_protocol_version (major minor : Z) (c : ServerConfig) : ServerConfig :=
  mkServerConfig (conf_hostname c) (conf_unit_id c) (Z.lor (wrapu 8 (Z.shiftl major 4)) (Z.land minor 0x0F)) (conf_services c)
    (conf_relays c) (conf_bind_address c) (conf_read_timeout c) (conf_link_timeout c) (conf_force_disconnect_window c).

Definition with_bind_address (a : SocketAddr) (c : ServerConfig) : ServerConfig :=
  mkServerConfig (conf_hostname c) (conf_unit_id c) (conf_protocol_version c) (conf_services c) (conf_relays c) a
    (conf_read_timeout c) (conf_link_timeout c) (conf_force_disconnect_window c).

Definition new_on_standard_port (hostname : str) : ServerConfig :=
  with_bind_address (mkAddr (V4 0) IDN_PORT) (ServerConfig_new hostname).

(** ** Response packets *)

Definition header_bytes (command flags sequence : Z) : list Z := command :: flags :: be_bytes 2 sequence.

Definition build_scan_response (flags sequence : Z) (unit_id : list Z) (hostname : str) (protocol_version status : Z) : list Z :=
  header_bytes IDNCMD_SCAN_RESPONSE flags sequence ++ [40; protocol_version; status; 0x00] ++ unit_id ++ copy_padded_name 20 hostname.

Definition relay_entry (r : Relay) : list Z := [0; 0; 0; rel_relay_number r] ++ copy_padded_name 20 (rel_name r).

Definition service_entry (s : Service) : list Z :=
  [srv_service_id s; srv_service_type s; srv_flags s; srv_relay_number s] ++ copy_padded_name 20 (srv_name s).

Definition build_servicemap_response (flags sequence : Z) (services : list Service) (relays : list Relay) : list Z :=
  let relay_count := wrapu 8 (Z.of_nat (length relays)) in
  let service_count := wrapu 8 (Z.of_nat (length services)) in
  header_bytes IDNCMD_SERVICEMAP_RESPONSE flags sequence ++ [4; 24; relay_count; service_count] ++
  mjoin (relay_entry <$> relays) ++ mjoin (service_entry <$> services).

Definition build_ping_response (flags sequence : Z) (payload : list Z) : list Z :=
  header_bytes IDNCMD_PING_RESPONSE flags sequence ++ payload.

Definition build_ack_response_full (flags sequence result_code link_quality latency_us : Z) : list Z :=
  header_bytes IDNCMD_RT_ACKNOWLEDGE flags sequence ++ [12; result_code; 0; 0; 0; 0; 0; link_quality] ++ be_bytes 4 latency_us.

Definition build_ack_response (flags sequence result_code : Z) : list Z :=
  build_ack_response_full flags sequence result_code 0xFF 0.

Definition build_parameter_response (flags sequence response_cmd result_code service_id param_id value : Z) : list Z :=
  header_bytes response_cmd flags sequence ++ [service_id; wrapu 8 result_code] ++ be_bytes 2 param_id ++ be_bytes 4 value.

(** ** Behaviour *)

(** [ReceivedChunk]: a parsed chunk with its source. *)
Record ReceivedChunk := mkReceivedChunk {
  rc_source_addr : SocketAddr;
  rc_chunk : ParsedChunk;
}.

Class ServerBehavior (B : Type) := {
  on_packet_received : list Z -> B -> B;
  on_frame_received : list Z -> B -> B;
  on_points_received : list ReceivedPoint -> B -> B;
  on_chunk_received : ReceivedChunk -> B -> B;
  should_respond : B -> Z -> bool;
  get_status_byte : B -> Z;
  get_ack_result_code : B -> Z;
  get_simulated_latency : B -> Z;
  on_client_connected : SocketAddr -> B -> B;
  on_client_disconnected : B -> B;
  should_force_disconnect : B -> B * bool;
  behavior_is_occupied : B -> bool;
  behavior_is_excluded : B -> bool;
}.

(** The default [on_chunk_received] forwards the points. *)
Definition default_on_chunk_received {B} (on_points : list ReceivedPoint -> B -> B) (c : ReceivedChunk) (b : B) : B :=
  on_points (pc_points (rc_chunk c)) b.

#[export] Instance SimpleBehavior : ServerBehavior unit := {
  on_packet_received _ b := b;
  on_frame_received _ b := b;
  on_points_received _ b := b;
  on_chunk_received := default_on_chunk_received (fun _ b => b);
  should_respond _ _ := true;
  get_status_byte _ := IDNFLG_SCAN_STATUS_REALTIME;
  get_ack_result_code _ := 0x00;
  get_simulated_latency _ := 0;
  on_client_connected _ b := b;
  on_client_disconnected b := b;
  should_force_disconnect b := (b, false);
  behavior_is_occupied _ := false;
  behavior_is_excluded _ := false;
}.

(** ** The server *)

Inductive server_recv :=
  | Packet (data : list Z) (src : SocketAddr)
  | NoPacket
  | SocketError.

(** The clock readings of one iteration, in program order. *)
Record Readings := mkReadings {
  at_force : Z;
  at_window : Z;
  at_link : Z;
  at_activity : Z;
}.

Section server.
Context `{ByteOrder} {B : Type} `{!ServerBehavior B}.

Record IdnServer := mkServer {
  sv_config : ServerConfig;
  sv_behavior : B;
  sv_last_client_ip : option IpAddr;
  sv_last_client_addr : option SocketAddr;
  sv_last_activity : option Z;
  sv_disconnected_client : option (IpAddr * Z);
  sv_parser : FrameParser;
}.

Definition server_new (config : ServerConfig) (b : B) : IdnServer := mkServer config b None None None None FrameParser_new.

Definition set_behavior (b : B) (s : IdnServer) : IdnServer :=
  mkServer (sv_config s) b (sv_last_client_ip s) (sv_last_client_addr s) (sv_last_activity s) (sv_disconnected_client s) (sv_parser s).

Definition set_disconnected (d : option (IpAddr * Z)) (s : IdnServer) : IdnServer :=
  mkServer (sv_config s) (sv_behavior s) (sv_last_client_ip s) (sv_last_client_addr s) (sv_last_activity s) d (sv_parser s).

(** The end of a client's session: the client is forgotten, the parser reset. *)
Definition end_session (s : IdnServer) : IdnServer :=
  mkServer (sv_config s) (on_client_disconnected (sv_behavior s)) None None None (sv_disconnected_client s) FrameParser_new.

(** The checks at the top of an iteration.  The forced disconnect clears
    [last_client_addr] inside the arguments of its log message, which are only
    evaluated when that level is enabled ([logged]). *)
Definition force_check (r : Readings) (logged : bool) (s : IdnServer) : IdnServer :=
  let '(b, force) := should_force_disconnect (sv_behavior s) in
  let s := set_behavior b s in
  if force then
    match sv_last_client_ip s with
    | Some ip =>
        mkServer (sv_config s) (on_client_disconnected (sv_behavior s)) None (if logged then None else sv_last_client_addr s) None
          (Some (ip, at_force r)) FrameParser_new
    | None => s
    end
  else s.

Definition window_check (r : Readings) (s : IdnServer) : IdnServer :=
  match sv_disconnected_client s with
  | Some (_, t) => if conf_force_disconnect_window (sv_config s) <? Z.max 0 (at_window r - t) then set_disconnected None s else s
  | None => s
  end.

Definition link_check (r : Readings) (s : IdnServer) : IdnServer :=
  match sv_last_activity s with
  | Some t =>
      if (conf_link_timeout (sv_config s) <? Z.max 0 (at_link r - t)) && bool_decide (sv_last_client_ip s <> None)
      then end_session s else s
  | None => s
  end.

(** The real-time message branch after the refusals. *)
Definition accept_message (r : Readings) (command flags sequence : Z) (data : list Z) (src : SocketAddr) (s : IdnServer)
    : IdnServer * list (list Z) :=
  let s := if decide (sv_last_client_ip s = Some (addr_ip src)) then s
           else mkServer (sv_config s) (on_client_connected src (sv_behavior s)) (Some (addr_ip src)) (Some src)
                  (sv_last_activity s) (sv_disconnected_client s) (sv_parser s) in
  let '(parser, chunk) := parser_parse (sv_parser s) src data in
  let b := on_frame_received data (sv_behavior s) in
  let b := match chunk with Some c => on_chunk_received (mkReceivedChunk src c) b | None => b end in
  let s := mkServer (sv_config s) b (sv_last_client_ip s) (sv_last_client_addr s) (Some (at_activity r)) (sv_disconnected_client s) parser in
  (s, if command =? IDNCMD_RT_CNLMSG_ACKREQ then [build_ack_response flags sequence (get_ack_result_code (sv_behavior s))] else []).

Definition handle_message (r : Readings) (command flags sequence : Z) (data : list Z) (src : SocketAddr) (s : IdnServer)
    : IdnServer * list (list Z) :=
  let refuse code := if command =? IDNCMD_RT_CNLMSG_ACKREQ then [build_ack_response flags sequence code] else [] in
  if behavior_is_excluded (sv_behavior s) then (s, refuse IDNVAL_RTACK_ERR_EXCLUDED)
  else if behavior_is_occupied (sv_behavior s) && bool_decide (sv_last_client_ip s <> None) &&
          negb (bool_decide (sv_last_client_ip s = Some (addr_ip src)))
  then (s, refuse IDNVAL_RTACK_ERR_OCCUPIED)
  else accept_message r command flags sequence data src s.

Definition handle_close (src : SocketAddr) (s : IdnServer) : IdnServer :=
  if decide (sv_last_client_ip s = Some (addr_ip src)) then end_session s else s.

(** The parameter requests read their fields as far as the packet goes. *)
Definition handle_params (response_cmd flags sequence : Z) (data : list Z) : list Z :=
  let id := if decide (4 < length data)%nat then byte_at data 4 else 0 in
  let param_id := if decide (7 < length data)%nat then be_value [byte_at data 6; byte_at data 7] else 0 in
  build_parameter_response flags sequence response_cmd 0 id param_id 0x12345678.

(** The dispatch on the command of a packet of at least four bytes. *)
Definition dispatch (r : Readings) (data : list Z) (src : SocketAddr) (s : IdnServer) : IdnServer * list (list Z) :=
  let command := byte_at data 0 in
  let flags := byte_at data 1 in
  let sequence := be_value [byte_at data 2; byte_at data 3] in
  let c := sv_config s in
  if negb (should_respond (sv_behavior s) command) then (s, [])
  else if command =? IDNCMD_SCAN_REQUEST
  then (s, [build_scan_response flags sequence (conf_unit_id c) (conf_hostname c) (conf_protocol_version c) (get_status_byte (sv_behavior s))])
  else if command =? IDNCMD_SERVICEMAP_REQUEST
  then (s, [build_servicemap_response flags sequence (conf_services c) (conf_relays c)])
  else if command =? IDNCMD_PING_REQUEST then (s, [build_ping_response flags sequence (drop 4 data)])
  else if (command =? IDNCMD_RT_CNLMSG) || (command =? IDNCMD_RT_CNLMSG_ACKREQ)
  then handle_message r command flags sequence data src s
  else if command =? IDNCMD_RT_CNLMSG_CLOSE then (handle_close src s, [])
  else if command =? IDNCMD_RT_CNLMSG_CLOSE_ACKREQ
  then let s := handle_close src s in (s, [build_ack_response flags sequence (get_ack_result_code (sv_behavior s))])
  else if command =? IDNCMD_UNIT_PARAMS_REQUEST then (s, [handle_params IDNCMD_UNIT_PARAMS_RESPONSE flags sequence data])
  else if command =? IDNCMD_SERVICE_PARAMS_REQUEST then (s, [handle_params IDNCMD_SERVICE_PARAMS_RESPONSE flags sequence data])
  else (s, []).

(** One iteration of [run]: the new server, whether the loop goes on, and the
    datagrams sent back to the source. *)
Definition iterate (r : Readings) (logged : bool) (e : server_recv) (s : IdnServer) : IdnServer * bool * list (list Z) :=
  let s := link_check r (window_check r (force_check r logged s)) in
  match e with
  | NoPacket => (s, true, [])
  | SocketError => (s, false, [])
  | Packet data src =>
      if decide (length data < 4)%nat then (s, true, [])
      else if match sv_disconnected_client s with Some (ip, _) => bool_decide (addr_ip src = ip) | None => false end then (s, true, [])
      else
        let s := set_behavior (on_packet_received data (sv_behavior s)) s in
        let '(s, out) := dispatch r data src s in (s, true, out)
  end.

(** The servers reachable by iterations of the loop. *)
Inductive reachable (config : ServerConfig) (b0 : B) : IdnServer -> Prop :=
  | reach_new : reachable config b0 (server_new config b0)
  | reach_step r logged e s s' go out :
      reachable config b0 s -> match e with Packet data _ => bytes data | _ => True end -> iterate r logged e s = (s', go, out) -> reachable config b0 s'.
End server.
Arguments IdnServer B : clear implicits.

(** ** Names on the wire *)

(** The longest prefix of a string that fits in [n] bytes. *)
Fixpoint fit (n : nat) (s : str) : str :=
  match s with
  | [] => []
  | c :: s => if (length (encode_char c) <=? n)%nat then c :: fit (n - length (encode_char c)) s else []
  end.

Lemma fit_all n s : (length (as_bytes s) <= n)%nat -> fit n s = s.
Proof.
  revert n. induction s as [|c s IH]; intros n Hl; [done|]. rewrite as_bytes_cons, length_app in Hl. cbn [fit].
  destruct (Nat.leb_spec (length (encode_char c)) n); [|lia]. rewrite IH by lia. done.
Qed.

Lemma fit_prefix n s : fit n s `prefix_of` s.
Proof.
  revert n. induction s as [|c s IH]; intros n; [done|]. cbn [fit]. destruct (_ <=? _)%nat; [by apply prefix_cons|apply prefix_nil].
Qed.

Lemma fit_length n s : (length (as_bytes (fit n s)) <= n)%nat.
Proof.
  revert n. induction s as [|c s IH]; intros n; cbn [fit]; [simpl; lia|].
  destruct (Nat.leb_spec (length (encode_char c)) n); [|simpl; lia]. rewrite as_bytes_cons, length_app.
  specialize (IH (n - length (encode_char c))%nat). lia.
Qed.

Lemma floor_boundary_walk max s : forall start, (start <= max)%nat -> (max < start + length (as_bytes s))%nat ->
  last (take_while (fun i => (i <=? max)%nat) (char_offsets start s)) = Some (start + length (as_bytes (fit (max - start) s)))%nat.
Proof.
  induction s as [|c s IH]; intros start Hs Hl; [simpl in Hl; lia|]. rewrite as_bytes_cons, length_app in Hl.
  cbn [char_offsets take_while fit]. destruct (Nat.leb_spec start max); [|lia].
  destruct (Nat.leb_spec (length (encode_char c)) (max - start)) as [Hc|Hc].
  - rewrite as_bytes_cons, length_app. specialize (IH (start + length (encode_char c))%nat ltac:(lia) ltac:(lia)).
    destruct (take_while _ (char_offsets (start + length (encode_char c)) s)) as [|i l]; [done|].
    change (last (start :: i :: l)) with (last (i :: l)). rewrite IH.
    replace (max - (start + length (encode_char c)))%nat with (max - start - length (encode_char c))%nat by lia. f_equal. lia.
  - destruct s as [|c' s]; [|cbn [char_offsets take_while]; destruct (Nat.leb_spec (start + length (encode_char c)) max); [lia|]];
      cbn; f_equal; lia.
Qed.

Lemma floor_boundary_fit s max : floor_char_boundary s max = length (as_bytes (fit max s)).
Proof.
  unfold floor_char_boundary. case_decide; [by rewrite fit_all|]. unfold char_indices.
  rewrite floor_boundary_walk by lia. by rewrite Nat.sub_0_r.
Qed.

Lemma floor_boundary_le s max : (floor_char_boundary s max <= length (as_bytes s))%nat /\ (floor_char_boundary s max <= max)%nat.
Proof.
  rewrite floor_boundary_fit. split; [|apply fit_length]. destruct (fit_prefix max s) as (t & Ht). rewrite Ht at 2.
  rewrite as_bytes_app, length_app. lia.
Qed.

Lemma copy_padded_fit N s : copy_padded_name N s = as_bytes (fit N s) ++ replicate (N - length (as_bytes (fit N s))) 0.
Proof.
  unfold copy_padded_name. rewrite floor_boundary_fit. f_equal. destruct (fit_prefix N s) as (t & Ht). rewrite Ht at 2.
  rewrite as_bytes_app. by rewrite take_app_length.
Qed.

Lemma copy_padded_length N s : length (copy_padded_name N s) = N.
Proof. rewrite copy_padded_fit, length_app, length_replicate. pose proof (fit_length N s). lia. Qed.

Lemma is_str_fit n s : is_str s -> is_str (fit n s).
Proof. intros Hs. destruct (fit_prefix n s) as (t & Ht). rewrite Ht in Hs. by apply Forall_app in Hs as [? _]. Qed.

Lemma copy_padded_bytes N s : is_str s -> bytes (copy_padded_name N s).
Proof.
  intros Hs. rewrite copy_padded_fit. apply Forall_app_2; [by apply as_bytes_bytes, is_str_fit|]. apply Forall_replicate. lia.
Qed.

Lemma before_nul_app bs rest : Forall (fun b => b <> 0) bs -> (rest = [] \/ head rest = Some 0) -> before_nul (bs ++ rest) = bs.
Proof.
  intros Hn Hr. induction Hn as [|b bs Hb _ IH]; cbn [app before_nul].
  - destruct Hr as [->|Hr]; [done|]. destruct rest as [|r rest]; [done|]. injection Hr as ->. done.
  - destruct (Z.eqb_spec b 0); [done|]. by rewrite IH.
Qed.

(** A name without NUL is read back as its longest prefix that fits. *)
Lemma padded_name_read N s : is_str s -> Forall (fun c => c <> 0) s -> null_terminated_str (copy_padded_name N s) = fit N s.
Proof.
  intros Hs Hn. unfold null_terminated_str. rewrite copy_padded_fit, before_nul_app.
  - by rewrite from_utf8_as_bytes by by apply is_str_fit.
  - apply as_bytes_nonzero; [by apply is_str_fit|]. destruct (fit_prefix N s) as (t & Ht). rewrite Ht in Hn. by apply Forall_app in Hn as [? _].
  - destruct (N - length (as_bytes (fit N s)))%nat; [by left|by right].
Qed.

(** ** The server's invariant *)
Section facts.
Context `{ByteOrder} {B : Type} `{!ServerBehavior B}.
Implicit Types s : IdnServer B.

(** Without a client there is no activity and no channel configuration. *)
Definition session_ok s : Prop :=
  parser_ok (sv_parser s) /\ (sv_last_client_ip s = None -> sv_parser s = ∅ /\ sv_last_activity s = None).

Lemma parser_ok_empty : parser_ok FrameParser_new.
Proof. apply map_Forall_empty. Qed.

Lemma end_session_ok s : session_ok (end_session s).
Proof. split; [apply parser_ok_empty|done]. Qed.

Lemma checks_ok r logged s : session_ok s -> session_ok (link_check r (window_check r (force_check r logged s))).
Proof.
  intros Hs. assert (Hf : session_ok (force_check r logged s)).
  { unfold force_check. destruct (should_force_disconnect (sv_behavior s)) as [b force]. destruct force; [|exact Hs].
    cbn [sv_last_client_ip set_behavior]. destruct (sv_last_client_ip s) eqn:Hip; [split; [apply parser_ok_empty|done]|].
    destruct Hs as [Hp Hs]. split; [exact Hp|]. intros _. by apply Hs. }
  revert Hf. generalize (force_check r logged s). clear s Hs. intros s Hs.
  assert (Hw : session_ok (window_check r s)) by (unfold window_check; destruct (sv_disconnected_client s) as [[]|]; [destruct (_ <? _)|]; exact Hs).
  revert Hw. generalize (window_check r s). clear s Hs. intros s Hs. unfold link_check.
  destruct (sv_last_activity s); [|exact Hs]. destruct (_ && _); [apply end_session_ok|exact Hs].
Qed.

Lemma accept_ok r command flags sequence data src s :
  bytes data -> session_ok s -> session_ok (accept_message r command flags sequence data src s).1.
Proof.
  intros Hb [Hp _]. unfold accept_message. set (s1 := if decide _ then s else _).
  assert (Hp1 : sv_parser s1 = sv_parser s /\ sv_last_client_ip s1 = Some (addr_ip src)) by (unfold s1; by case_decide).
  destruct Hp1 as [-> Hip]. pose proof (parser_keeps_ok (sv_parser s) src data Hp Hb) as Hsafe.
  destruct (parser_parse (sv_parser s) src data) as [p c]. cbn [fst]. split; [exact Hsafe|]. cbn [sv_last_client_ip]. by rewrite Hip.
Qed.

Lemma dispatch_ok r data src s : bytes data -> session_ok s -> session_ok (dispatch r data src s).1.
Proof.
  intros Hb Hs. unfold dispatch.
  assert (Hclose : session_ok (handle_close src s)) by (unfold handle_close; case_decide; [apply end_session_ok|done]).
  repeat (destruct (negb _) || destruct (_ =? _) || destruct (_ || _)); try exact Hs; try exact Hclose;
    unfold handle_message; (destruct (behavior_is_excluded _); [exact Hs|]; destruct (_ && _ && _); [exact Hs|by apply accept_ok]).
Qed.

Lemma iterate_ok r logged e s : match e with Packet data _ => bytes data | _ => True end ->
  session_ok s -> session_ok (iterate r logged e s).1.1.
Proof.
  intros Hb Hs. unfold iterate. pose proof (checks_ok r logged s Hs) as Hc. revert Hc.
  generalize (link_check r (window_check r (force_check r logged s))). clear s Hs. intros s Hs.
  destruct e as [data src| |]; [|exact Hs|exact Hs]. case_decide; [exact Hs|].
  destruct (match sv_disconnected_client s with Some (ip, _) => bool_decide (addr_ip src = ip) | None => false end); [exact Hs|].
  pose proof (dispatch_ok r data src (set_behavior (on_packet_received data (sv_behavior s)) s) Hb Hs) as Hd.
  by destruct (dispatch r data src _) as [s' out].
Qed.

(** C12. Receiver sessions do not leak: in every server state reachable by any
    sequence of packets, timeouts, closes and forced disconnects, when no client is
    connected the parser holds no channel configuration and no activity is recorded,
    so a new client always starts unconfigured; and every cached configuration is a
    usable one. *)
Theorem sessions_do_not_leak config b0 s :
  reachable config b0 s ->
  (sv_last_client_ip s = None -> sv_parser s = ∅ /\ sv_last_activity s = None) /\ parser_ok (sv_parser s).
Proof.
  intros Hr. assert (Hs : session_ok s); [|by destruct Hs].
  induction Hr as [|r logged e s s' go out _ IH Hb Hi]; [split; [apply parser_ok_empty|done]|].
  pose proof (iterate_ok r logged e s Hb IH) as Hk. by rewrite Hi in Hk.
Qed.

(** The front of a response: its command, then the request's flags and sequence. *)
Definition echoes (data : list Z) (o : list Z) : Prop := exists cmd, take 3 (drop 1 o) = take 3 (drop 1 data) /\ head o = Some cmd.

Lemma header_echo data cmd rest :
  (4 <= length data)%nat -> bytes data ->
  echoes data (header_bytes cmd (byte_at data 1) (be_value [byte_at data 2; byte_at data 3]) ++ rest).
Proof.
  intros Hl Hb. destruct data as [|d0 [|d1 [|d2 [|d3 data]]]]; try (simpl in Hl; lia). exists cmd. split; [|done].
  do 4 (apply Forall_cons in Hb as [? Hb]). unfold byte_at, header_bytes, be_bytes, be_value. cbn.
  do 2 f_equal; [|f_equal]; Z.to_euclidean_division_equations; lia.
Qed.

Definition answers (data : list Z) (out : list (list Z)) : Prop := out = [] \/ exists o, out = [o] /\ echoes data o.

Lemma answer_one data cmd rest :
  (4 <= length data)%nat -> bytes data ->
  answers data [header_bytes cmd (byte_at data 1) (be_value [byte_at data 2; byte_at data 3]) ++ rest].
Proof. intros. right. eexists. split; [done|]. by apply header_echo. Qed.

Lemma answer_if data cmd rest (c : bool) :
  (4 <= length data)%nat -> bytes data ->
  answers data (if c then [header_bytes cmd (byte_at data 1) (be_value [byte_at data 2; byte_at data 3]) ++ rest] else []).
Proof. intros. destruct c; [by apply answer_one|by left]. Qed.

Lemma dispatch_answers r data src s : (4 <= length data)%nat -> bytes data -> answers data (dispatch r data src s).2.
Proof.
  intros Hl Hb. unfold dispatch. destruct (negb _); [by left|].
  do 3 (destruct (_ =? _); [by apply answer_one|]).
  destruct (_ || _).
  { unfold handle_message. destruct (behavior_is_excluded _); [by apply answer_if|]. destruct (_ && _ && _); [by apply answer_if|].
    unfold accept_message. destruct (parser_parse _ src data) as [p c]. by apply answer_if. }
  destruct (_ =? _); [by left|]. do 3 (destruct (_ =? _); [by apply answer_one|]). by left.
Qed.

(** A client of another address is turned away. *)
Definition turned_away (src : SocketAddr) s : Prop :=
  exists ip, sv_last_client_ip s = Some ip /\ ip <> addr_ip src /\ behavior_is_occupied (sv_behavior s) = true.

(** The receiver answers politely: each packet gets at most one datagram back,
    with the request's own flags and sequence number; packets shorter than a header
    get none.  While the server reports itself occupied, a real-time message from an
    address other than the connected client's changes neither client, nor parser, nor
    last activity, and when an acknowledgement was requested it is refused as
    occupied, or as excluded when real-time messages are excluded altogether. *)
Theorem server_responses r data src s :
  bytes data -> (4 <= length data)%nat ->
  answers data (dispatch r data src s).2 /\
  (turned_away src s -> byte_at data 0 = IDNCMD_RT_CNLMSG \/ byte_at data 0 = IDNCMD_RT_CNLMSG_ACKREQ ->
   (dispatch r data src s).1 = s /\
   (should_respond (sv_behavior s) (byte_at data 0) = true -> byte_at data 0 = IDNCMD_RT_CNLMSG_ACKREQ ->
    (dispatch r data src s).2 = [build_ack_response (byte_at data 1) (be_value [byte_at data 2; byte_at data 3])
      (if behavior_is_excluded (sv_behavior s) then IDNVAL_RTACK_ERR_EXCLUDED else IDNVAL_RTACK_ERR_OCCUPIED)])).
Proof.
  intros Hb Hl. split; [by apply dispatch_answers|]. intros (ip & Hip & Hne & Hocc) Hcmd. unfold dispatch, handle_message.
  rewrite Hocc, Hip. rewrite (bool_decide_true (Some ip <> None)), (bool_decide_false (Some ip = Some (addr_ip src))) by congruence.
  destruct (should_respond _ _); cbn [negb andb]; [|by split].
  destruct Hcmd as [-> | ->]; cbn; (destruct (behavior_is_excluded _); split; done).
Qed.

Lemma be_halves v : be_bytes 4 v = be_bytes 2 (v / 2 ^ 16) ++ be_bytes 2 (v mod 2 ^ 16).
Proof.
  unfold be_bytes. cbn [le_bytes rev app].
  repeat (apply (f_equal2 cons); [Z.to_euclidean_division_equations; lia|]). done.
Qed.

(** Acknowledgements as the client reads them: whatever result code, quality and
    latency the receiver acknowledges with, the client's parser finds the struct size
    12, the code reinterpreted as signed (an error exactly from 0x80 up), the link
    quality, and as latency only the upper half of the 32-bit latency, whose lower
    half it leaves unread. *)
Theorem acknowledgement_as_read flags sequence code quality latency :
  0 <= code < 2 ^ 8 -> 0 <= quality < 2 ^ 8 -> 0 <= latency < 2 ^ 32 ->
  exists ack, read_from_bytes (drop 4 (build_ack_response_full flags sequence code quality latency)) =
    IoOk (ack, be_bytes 2 (latency mod 2 ^ 16)) /\
  ack_struct_size ack = 12 /\ ack_result_code ack = wraps 8 code /\ ack_link_quality ack = quality /\
  ack_latency_us ack = latency / 2 ^ 16 /\ (ack_is_success ack = true <-> code < 0x80).
Proof.
  intros Hc Hq Hl. exists (mkAcknowledgeResponse 12 (wraps 8 code) 0 0 0 quality (latency / 2 ^ 16)).
  assert (Hbytes : drop 4 (build_ack_response_full flags sequence code quality latency) =
    write_to_bytes (mkAcknowledgeResponse 12 (wraps 8 code) 0 0 0 quality (latency / 2 ^ 16)) ++ be_bytes 2 (latency mod 2 ^ 16)).
  { unfold write_to_bytes, AcknowledgeResponse_write, write_i8, write_u16_be.
    cbn [ack_struct_size ack_result_code ack_input_event_flags ack_pipeline_event_flags ack_status_flags ack_link_quality ack_latency_us].
    rewrite wrapu_wraps, !write_u8_byte, !write_be_spec by lia. unfold build_ack_response_full. by rewrite be_halves. }
  rewrite Hbytes, wire_round; [|].
  - split; [done|]. cbn. split; [done|]. split; [done|]. split; [done|]. split; [done|].
    unfold ack_is_success. cbn. rewrite Z.leb_le. unfold wraps. change (2 ^ (8 - 1)) with 128. change (2 ^ 8) with 256 in *.
    split; intros; Z.to_euclidean_division_equations; lia.
  - unfold wire_wf. cbn. unfold ack_wf. cbn. pose proof (wraps_range 8 code ltac:(lia)).
    split_and!; try lia; try apply H0. all: Z.to_euclidean_division_equations; lia.
Qed.
End facts.

(** ** Witnesses *)
Module Demo.
Definition client : SocketAddr := mkAddr (V4 0x0A000001) 4000.
Definition other : SocketAddr := mkAddr (V4 0x0A000002) 4000.
Definition start : IdnServer unit := server_new (ServerConfig_new [104; 111]) tt.
Definition times : Readings := mkReadings 0 0 0 7.
(** A behaviour that is always occupied. *)
Definition occupied_behavior : ServerBehavior unit := {|
  on_packet_received _ b := b; on_frame_received _ b := b; on_points_received _ b := b; on_chunk_received _ b := b;
  should_respond _ _ := true; get_status_byte _ := 0; get_ack_result_code _ := 0; get_simulated_latency _ := 0;
  on_client_connected _ b := b; on_client_disconnected b := b; should_force_disconnect b := (b, false);
  behavior_is_occupied _ := true; behavior_is_excluded _ := false |}.
Definition busy : IdnServer unit := mkServer (ServerConfig_new [104; 111]) tt (Some (V4 0x0A000001)) (Some client) (Some 5) None ∅.
End Demo.

(** A client configures a channel and then closes its session; the server it leaves
    behind has no client, and no trace of the configuration. *)
Lemma sessions_do_not_leak_witness :
  let s := (iterate Demo.times false (Packet Receiver.Demo.data Demo.client) Demo.start).1.1 in
  let s' := (iterate Demo.times false (Packet [IDNCMD_RT_CNLMSG_CLOSE; 0; 0; 1] Demo.client) s).1.1 in
  sv_last_client_ip s = Some (addr_ip Demo.client) /\ size (sv_parser s) = 1%nat /\
  sv_last_client_ip s' = None /\ sv_parser s' = ∅ /\ sv_last_activity s' = None.
Proof.
  intros s s'.
  assert (Hr : reachable (ServerConfig_new [104; 111]) tt s').
  { apply (reach_step _ _ Demo.times false (Packet [IDNCMD_RT_CNLMSG_CLOSE; 0; 0; 1] Demo.client) s s' true []).
    - apply (reach_step _ _ Demo.times false (Packet Receiver.Demo.data Demo.client) Demo.start s true []).
      + apply reach_new.
      + apply Forall_forall. intros b Hb. apply list_elem_of_In in Hb. simpl in Hb. lia.
      + vm_compute. reflexivity.
    - apply Forall_forall. intros b Hb. apply list_elem_of_In in Hb. simpl in Hb. unfold IDNCMD_RT_CNLMSG_CLOSE in Hb. lia.
    - vm_compute. reflexivity. }
  assert (Hnone : sv_last_client_ip s' = None) by (vm_compute; reflexivity).
  destruct (@sessions_do_not_leak stdlib_byte_order unit SimpleBehavior (ServerConfig_new [104; 111]) tt s' Hr) as [Hleak _].
  split; [vm_compute; reflexivity|]. split; [vm_compute; reflexivity|]. split; [exact Hnone|]. exact (Hleak Hnone).
Defined.

Lemma server_responses_witness :
  (@dispatch stdlib_byte_order unit Demo.occupied_behavior Demo.times [0x41; 0; 0; 9] Demo.other Demo.busy).2 =
    [build_ack_response 0 9 IDNVAL_RTACK_ERR_OCCUPIED].
Proof.
  destruct (@server_responses stdlib_byte_order unit Demo.occupied_behavior Demo.times [0x41; 0; 0; 9] Demo.other Demo.busy) as [_ Hr].
  - repeat constructor; lia.
  - simpl. lia.
  - destruct Hr as [_ Hr]; [|by right|].
    + exists (V4 0x0A000001). split; [done|]. split; [done|reflexivity].
    + apply Hr; reflexivity.
Defined.

Lemma acknowledgement_as_read_witness :
  exists ack, read_from_bytes (drop 4 (build_ack_response_full 0 5 0xEC 200 150)) = IoOk (ack, be_bytes 2 150) /\
  ack_result_code ack = -20 /\ ack_latency_us ack = 0.
Proof.
  destruct (@acknowledgement_as_read stdlib_byte_order 0 5 0xEC 200 150) as (ack & Hr & _ & Hc & _ & Hl & _); [lia|lia|lia|].
  exists ack. split; [exact Hr|]. split; [exact Hc|exact Hl].
Defined.
