(* ===== verification/SimTools.v ===== *)
(** * The simulator programs

    Models what the simulators under [src/tools/] compute besides drawing: of
    [idn-simulator], the adapter of [protocol_handler.rs], the timestamp unwrapping and
    the frame assembly of [timing.rs], the behaviour of [server.rs] with the settings it
    reads and its choice of a port, and the line of [persistence_buffer.rs]; of
    [etherdream-simulator], the history of [sim.rs].  The frame assembly is composed
    with the IDN stream and the receiver's parser. *)

From stdpp Require Import gmap.
From S2P Require Import Prelude Floats Point Bytes Utf8 IdnProtocol IdnTypes IdnStream Receiver IdnLink IdnServer.

#[local] Open Scope Z_scope.

(** ** Chunks for the screen *)

Record RenderPoint := mkRender {
  rn_x : F32.t;
  rn_y : F32.t;
  rn_r : F32.t;
  rn_g : F32.t;
  rn_b : F32.t;
  rn_intensity : F32.t;
}.

Definition render_point (p : ReceivedPoint) : RenderPoint := mkRender (rp_x p) (rp_y p) (rp_r p) (rp_g p) (rp_b p) (F32.of_int 1).

(** The tool's [ParsedChunk]. *)
Record ScreenChunk := mkScreen {
  sk_chunk_type : ChunkType;
  sk_is_last_fragment : bool;
  sk_timestamp_us_u32 : Z;
  sk_duration_us : Z;
  sk_points : list RenderPoint;
}.

Definition parsed_chunk_from_received (c : ParsedChunk) : ScreenChunk :=
  mkScreen (pc_chunk_type c) (pc_is_last_fragment c) (pc_timestamp_us_u32 c) (pc_duration_us c) (render_point <$> pc_points c).

(** ** Timestamps *)

Record TimestampUnwrapper := mkUnwrapper {
  tu_last : option Z;
  tu_base : Z;
}.

Definition unwrapper_new : TimestampUnwrapper := mkUnwrapper None 0.

Definition unwrap (ts : Z) (u : TimestampUnwrapper) : Z * TimestampUnwrapper :=
  let base := match tu_last u with
    | Some last => if (ts <? last) && (2 ^ 31 <? last - ts) then tu_base u + 2 ^ 32 else tu_base u
    | None => tu_base u
    end in
  (base + ts, mkUnwrapper (Some ts) base).

Definition unwrapper_reset (_ : TimestampUnwrapper) : TimestampUnwrapper := unwrapper_new.

Fixpoint unwrap_all (tss : list Z) (u : TimestampUnwrapper) : list Z :=
  match tss with
  | [] => []
  | ts :: tss => let '(t, u) := unwrap ts u in t :: unwrap_all tss u
  end.

(** ** Assembling frames *)

Definition MAX_PENDING_POINTS : Z := 2 ^ 20.

Definition extend_points (c : ScreenChunk) (ps : list RenderPoint) : ScreenChunk :=
  mkScreen (sk_chunk_type c) (sk_is_last_fragment c) (sk_timestamp_us_u32 c) (sk_duration_us c) (sk_points c ++ ps).

(** [FrameAssembler::push] on its pending frame. *)
Definition push (c : ScreenChunk) (pending : option ScreenChunk) : list ScreenChunk * option ScreenChunk :=
  match sk_chunk_type c with
  | CkFrameSequel =>
      match pending with
      | None => ([], None)
      | Some frame =>
          let frame := extend_points frame (sk_points c) in
          if sk_is_last_fragment c || (MAX_PENDING_POINTS <=? Z.of_nat (length (sk_points frame))) then ([frame], None) else ([], Some frame)
      end
  | CkFrameFirst => (option_list pending, Some c)
  | _ => (option_list pending ++ [c], None)
  end.

Fixpoint push_all (cs : list ScreenChunk) (pending : option ScreenChunk) : list ScreenChunk * option ScreenChunk :=
  match cs with
  | [] => ([], pending)
  | c :: cs =>
      let '(ready, pending) := push c pending in
      let '(rest, pending) := push_all cs pending in
      (ready ++ rest, pending)
  end.

(** ** The simulator's server *)

(** The settings the server reads; those of the drawing are left out. *)
Record SimulatorSettings := mkSettings {
  set_status_malfunction : bool;
  set_status_offline : bool;
  set_status_excluded : bool;
  set_status_occupied : bool;
  set_link_timeout_ms : Z;
  set_simulated_latency_ms : Z;
  set_force_disconnect : bool;
  set_ack_error_code : Z;
}.

Definition default_settings : SimulatorSettings := mkSettings false false false false 1000 0 false 0.

Record SettingsSnapshot := mkSnapshot {
  snap_status_offline : bool;
  snap_status_malfunction : bool;
  snap_status_excluded : bool;
  snap_status_occupied : bool;
  snap_ack_error_code : Z;
  snap_simulated_latency_ms : Z;
}.

Definition from_settings (s : SimulatorSettings) : SettingsSnapshot :=
  mkSnapshot (set_status_offline s) (set_status_malfunction s) (set_status_excluded s) (set_status_occupied s)
    (set_ack_error_code s) (set_simulated_latency_ms s).

Inductive ServerEvent :=
  | Started (port : Z)
  | Chunk (c : ScreenChunk)
  | ClientConnected (addr : SocketAddr)
  | ClientDisconnected.

(** The settings are shared with the window; the events go to it. *)
Record SimulatorBehavior := mkBehavior {
  sb_settings : SimulatorSettings;
  sb_snapshot : SettingsSnapshot;
  sb_events : list ServerEvent;
}.

Definition behavior_new (s : SimulatorSettings) : SimulatorBehavior := mkBehavior s (from_settings s) [].

Definition emit (e : ServerEvent) (b : SimulatorBehavior) : SimulatorBehavior := mkBehavior (sb_settings b) (sb_snapshot b) (sb_events b ++ [e]).

Definition clear_force_disconnect (s : SimulatorSettings) : SimulatorSettings :=
  mkSettings (set_status_malfunction s) (set_status_offline s) (set_status_excluded s) (set_status_occupied s) (set_link_timeout_ms s)
    (set_simulated_latency_ms s) false (set_ack_error_code s).

Definition status_byte (n : SettingsSnapshot) : Z :=
  let status := IDNFLG_SCAN_STATUS_REALTIME in
  let status := if snap_status_malfunction n then Z.lor status IDNFLG_SCAN_STATUS_MALFUNCTION else status in
  let status := if snap_status_offline n then Z.lor status IDNFLG_SCAN_STATUS_OFFLINE else status in
  let status := if snap_status_excluded n then Z.lor status IDNFLG_SCAN_STATUS_EXCLUDED else status in
  if snap_status_occupied n then Z.lor status IDNFLG_SCAN_STATUS_OCCUPIED else status.

#[export] Instance simulator_behavior : ServerBehavior SimulatorBehavior := {
  on_packet_received _ b := mkBehavior (sb_settings b) (from_settings (sb_settings b)) (sb_events b);
  on_frame_received _ b := b;
  on_points_received _ b := b;
  on_chunk_received c b := emit (Chunk (parsed_chunk_from_received (rc_chunk c))) b;
  should_respond b _ := negb (snap_status_offline (sb_snapshot b));
  get_status_byte b := status_byte (sb_snapshot b);
  get_ack_result_code b := snap_ack_error_code (sb_snapshot b);
  get_simulated_latency b := snap_simulated_latency_ms (sb_snapshot b) * 1000000;
  on_client_connected addr b := emit (ClientConnected addr) b;
  on_client_disconnected b := emit ClientDisconnected b;
  should_force_disconnect b :=
    (mkBehavior (clear_force_disconnect (sb_settings b)) (sb_snapshot b) (sb_events b), set_force_disconnect (sb_settings b));
  behavior_is_occupied b := snap_status_occupied (sb_snapshot b);
  behavior_is_excluded b := snap_status_excluded (sb_snapshot b);
}.

(** *** The choice of a port *)

Inductive bind_outcome :=
  | BindOk
  | BindInUse
  | BindErr.

(** What [run_server] gets: a server on a port under a unit id, an error (of the last
    port tried), or the panic of an overflowing port. *)
Inductive served :=
  | ServedOn (port : Z) (unit_id : list Z)
  | NotServed
  | PortOverflow.

Definition MAX_PORT_ATTEMPTS : nat := 100.

Definition port_unit_id (base : list Z) (port : Z) : list Z := <[15%nat := wrapu 8 port]> (<[14%nat := wrapu 8 (Z.shiftr port 8)]> base).

(** The attempts from [offset] on; [bind] answers for the socket. *)
Fixpoint try_ports (attempts : nat) (offset : Z) (base : list Z) (first : Z) (bind : Z -> bind_outcome) : served :=
  match attempts with
  | O => NotServed
  | S attempts =>
      let port := first + offset in
      if 2 ^ 16 <=? port then PortOverflow
      else
        match bind port with
        | BindOk => ServedOn port (port_unit_id base port)
        | BindInUse => try_ports attempts (offset + 1) base first bind
        | BindErr => NotServed
        end
  end.

Definition choose_port (base : list Z) (first : Z) (bind : Z -> bind_outcome) : served := try_ports MAX_PORT_ATTEMPTS 0 base first bind.

(** ** Lines *)

(** The loop of [deposit_line]: the pixels it visits.  The coordinates are those of
    pixels, so the sums stay far within 32 bits, see [norm_coord_small]. *)
Fixpoint line_loop (fuel : nat) (x1 y1 dx dy sx sy err x y : Z) : option (list (Z * Z)) :=
  match fuel with
  | O => None
  | S fuel =>
      if (x =? x1) && (y =? y1) then Some [(x, y)]
      else
        let e2 := 2 * err in
        let '(err', x') := if - dy <? e2 then (err - dy, x + sx) else (err, x) in
        let '(err'', y') := if e2 <? dx then (err' + dx, y + sy) else (err', y) in
        path ← line_loop fuel x1 y1 dx dy sx sy err'' x' y';
        Some ((x, y) :: path)
  end.

Definition direction (a b : Z) : Z := if a <? b then 1 else -1.

(** The pixels of [deposit_line]; its loop needs one round per pixel. *)
Definition line_pixels (p q : Z * Z) : option (list (Z * Z)) :=
  let '(x0, y0) := p in
  let '(x1, y1) := q in
  let dx := Z.abs (x1 - x0) in
  let dy := Z.abs (y1 - y0) in
  line_loop (S (Z.to_nat (Z.max dx dy))) x1 y1 dx dy (direction x0 x1) (direction y0 y1) (dx - dy) x0 y0.

(** The divisor the energy of a line is shared by. *)
Definition line_steps (p q : Z * Z) : Z := Z.max (Z.abs (q.1 - p.1)) (Z.abs (q.2 - p.2)) + 1.

(** ** The persistence buffer *)

Record PersistenceBuffer := mkPersistence {
  pb_data : list F32.t;
  pb_width : nat;
  pb_height : nat;
}.

Definition f_zero : F32.t := F32.of_int 0.

Definition BUFFER_RESOLUTION : nat := 1024.

Definition buffer_new (width height : nat) : PersistenceBuffer := mkPersistence (replicate (width * height * 3) f_zero) width height.

Definition buffer_clear (b : PersistenceBuffer) : PersistenceBuffer := mkPersistence (replicate (length (pb_data b)) f_zero) (pb_width b) (pb_height b).

Definition apply_decay (factor : F32.t) (b : PersistenceBuffer) : PersistenceBuffer :=
  mkPersistence ((fun v => F32.mul v factor) <$> pb_data b) (pb_width b) (pb_height b).

(** [self.data[i] += v]; [None] is the panic of an index out of range. *)
Definition add_at (i : nat) (v : F32.t) (data : list F32.t) : option (list F32.t) := old ← data !! i; Some (<[i := F32.add old v]> data).

Definition deposit (x y : nat) (r g bl : F32.t) (b : PersistenceBuffer) : option PersistenceBuffer :=
  if (x <? pb_width b)%nat && (y <? pb_height b)%nat then
    let idx := ((y * pb_width b + x) * 3)%nat in
    data ← add_at idx r (pb_data b);
    data ← add_at (idx + 1) g data;
    data ← add_at (idx + 2) bl data;
    Some (mkPersistence data (pb_width b) (pb_height b))
  else Some b.

Fixpoint deposit_pixels (path : list (Z * Z)) (r g bl : F32.t) (b : PersistenceBuffer) : option PersistenceBuffer :=
  match path with
  | [] => Some b
  | (x, y) :: path =>
      b ← (if (0 <=? x) && (0 <=? y) then deposit (Z.to_nat x) (Z.to_nat y) r g bl b else Some b);
      deposit_pixels path r g bl b
  end.

Definition deposit_line (p q : Z * Z) (r g bl : F32.t) (b : PersistenceBuffer) : option PersistenceBuffer :=
  let steps := F32.add (F32.of_int (Z.max (Z.abs (q.1 - p.1)) (Z.abs (q.2 - p.2)))) (F32.of_int 1) in
  path ← line_pixels p q;
  deposit_pixels path (F32.div r steps) (F32.div g steps) (F32.div bl steps) b.

Definition as_i32 : F32.t -> Z := cast_int (- 2 ^ 31) (2 ^ 31 - 1).

(** One coordinate of [norm_to_pixel] on a side of [size] pixels. *)
Definition norm_coord (v : F32.t) (size : nat) : Z :=
  as_i32 (F32.mul (F32.mul (F32.add v f1) (F32.of_dyadic 1 (-1))) (F32.of_int (Z.of_nat (size - 1)))).

Definition norm_to_pixel (x y : F32.t) (invert_y : bool) (b : PersistenceBuffer) : Z * Z :=
  (norm_coord x (pb_width b), norm_coord (if invert_y then y else SpecFloat.SFopp y) (pb_height b)).

(** ** The Ether Dream simulator's history *)

Definition HISTORY : nat := 100 * 1000.

(** One round of the draining thread. *)
Definition drain_round {A} (played history : list A) : list A :=
  if bool_decide (played = []) then history
  else let h := history ++ played in drop (length h - HISTORY) h.

Definition recent {A} (n : nat) (history : list A) : list A := drop (length history - n) history.

(** ** Timestamps are recovered *)

Lemma unwrap_all_recovers times : forall u t0, tu_last u = Some (wrapu 32 t0) -> tu_base u = t0 - wrapu 32 t0 -> 0 <= t0 ->
  (forall i a b, (t0 :: times) !! i = Some a -> (t0 :: times) !! S i = Some b -> a <= b < a + 2 ^ 31) ->
  unwrap_all (wrapu 32 <$> times) u = times.
Proof.
  induction times as [|t times IH]; intros u t0 Hl Hb H0 Hstep; [done|]. cbn [fmap list_fmap unwrap_all].
  destruct (Hstep 0%nat t0 t eq_refl eq_refl) as [Hle Hlt].
  assert (Hu : unwrap (wrapu 32 t) u = (t, mkUnwrapper (Some (wrapu 32 t)) (t - wrapu 32 t))).
  { unfold unwrap. rewrite Hl, Hb. unfold wrapu in *. change (2 ^ 31) with 2147483648 in *. change (2 ^ 32) with 4294967296 in *.
    pose proof (Z.mod_pos_bound t 4294967296 ltac:(lia)). pose proof (Z.mod_pos_bound t0 4294967296 ltac:(lia)).
    pose proof (Z.div_mod t 4294967296 ltac:(lia)). pose proof (Z.div_mod t0 4294967296 ltac:(lia)).
    assert (Hq : t / 4294967296 = t0 / 4294967296 \/ t / 4294967296 = t0 / 4294967296 + 1).
    { pose proof (Z.div_add t0 1 4294967296 ltac:(lia)). assert (t0 / 4294967296 <= t / 4294967296) by (apply Z.div_le_mono; lia).
      assert (t / 4294967296 <= (t0 + 1 * 4294967296) / 4294967296) by (apply Z.div_le_mono; lia). lia. }
    destruct (Z.ltb_spec (t mod 4294967296) (t0 mod 4294967296)), (Z.ltb_spec 2147483648 (t0 mod 4294967296 - t mod 4294967296)); cbn [andb]; f_equal; try lia; f_equal; lia. }
  rewrite Hu. f_equal. apply (IH _ t); [done..|lia|]. intros i a b Ha Hb'. apply (Hstep (S i)); done.
Qed.

(** The unwrapped timestamps of a stream are its times: for times that start in the
    first period, never go back and never jump by half a period, the 32-bit timestamps
    of the wire are unwrapped to exactly the times, over any number of wraps. *)
Theorem timestamps_are_recovered t0 times :
  0 <= t0 < 2 ^ 32 -> (forall i a b, (t0 :: times) !! i = Some a -> (t0 :: times) !! S i = Some b -> a <= b < a + 2 ^ 31) ->
  unwrap_all (wrapu 32 <$> (t0 :: times)) unwrapper_new = t0 :: times.
Proof.
  intros H0 Hstep. cbn [fmap list_fmap unwrap_all]. unfold unwrap at 1. cbn [tu_last tu_base unwrapper_new]. assert (Hw : wrapu 32 t0 = t0) by (apply Z.mod_small; lia).
  rewrite !Hw. f_equal. apply (unwrap_all_recovers times _ t0); cbn [tu_last tu_base]; [by rewrite Hw|by rewrite Hw; lia|lia|done].
Qed.

(** A datagram that is overtaken across a wrap leaves the clock a period ahead for
    good: the times are 1 ms before the wrap, 0.5 ms after it, 0.5 ms before it again
    and 1.5 ms after it. *)
Lemma overtaken_wrap_drifts :
  let times := [2 ^ 32 - 1000; 2 ^ 32 + 500; 2 ^ 32 - 500; 2 ^ 32 + 1500] in
  unwrap_all (wrapu 32 <$> times) unwrapper_new = [2 ^ 32 - 1000; 2 ^ 32 + 500; 2 * 2 ^ 32 - 500; 2 * 2 ^ 32 + 1500].
Proof. reflexivity. Qed.

(** ** Frames are assembled *)

(** The frame of a list of fragments. *)
Definition assembled (cs : list ScreenChunk) : option ScreenChunk :=
  c ← head cs;
  Some (mkScreen (sk_chunk_type c) (sk_is_last_fragment c) (sk_timestamp_us_u32 c) (sk_duration_us c) (mjoin (sk_points <$> cs))).

(** The fragments of one frame, as the receiver delivers them. *)
Definition whole_frame (cs : list ScreenChunk) : Prop :=
  sk_is_last_fragment <$> cs = replicate (length cs - 1) false ++ [true] /\ sk_chunk_type <$> cs = frame_types (length cs) /\
  Z.of_nat (length (mjoin (sk_points <$> cs))) < MAX_PENDING_POINTS.

Lemma push_sequels cs : forall frame, sk_chunk_type <$> cs = replicate (length cs) CkFrameSequel ->
  sk_is_last_fragment <$> cs = replicate (length cs - 1) false ++ [true] ->
  Z.of_nat (length (sk_points frame) + length (mjoin (sk_points <$> cs))) < MAX_PENDING_POINTS ->
  push_all cs (Some frame) = ([extend_points frame (mjoin (sk_points <$> cs))], None).
Proof.
  induction cs as [|c cs IH]; intros frame Ht Hl Hn; [done|]. cbn [fmap list_fmap length replicate] in Ht. injection Ht as Hc Ht. cbn [push_all]. unfold push.
  rewrite Hc. change (mjoin (sk_points <$> (c :: cs))) with (sk_points c ++ mjoin (sk_points <$> cs)) in *. rewrite length_app in Hn.
  assert (Hm : (MAX_PENDING_POINTS <=? Z.of_nat (length (sk_points (extend_points frame (sk_points c))))) = false).
  { apply Z.leb_gt. cbn [extend_points sk_points]. rewrite length_app. lia. }
  rewrite Hm, orb_false_r. destruct cs as [|c' cs].
  - cbn in Hl. injection Hl as ->. cbn [push_all app]. f_equal. f_equal. unfold extend_points. f_equal. by rewrite app_nil_r.
  - cbn [length] in Hl. replace (S (S (length cs)) - 1)%nat with (S (S (length cs) - 1)) in Hl by lia. cbn [replicate app fmap list_fmap] in Hl.
    injection Hl as -> Hl. rewrite IH; [|done|done|cbn [extend_points sk_points]; rewrite length_app; lia].
    cbn [app]. f_equal. f_equal. unfold extend_points. cbn. by rewrite <- app_assoc.
Qed.

Lemma push_frame cs : whole_frame cs -> push_all cs None = (option_list (assembled cs), None).
Proof.
  intros (Hl & Ht & Hn). unfold frame_types in Ht. destruct cs as [|c [|c' cs]]; [done| |].
  - cbn in Ht. injection Ht as Ht. cbn [push_all]. unfold push. rewrite Ht. cbn. f_equal. f_equal. rewrite app_nil_r. by destruct c.
  - cbn [length Nat.eqb] in Ht. cbn [fmap list_fmap] in Ht. injection Ht as Hc Hc' Ht.
    change (mjoin (sk_points <$> (c :: c' :: cs))) with (sk_points c ++ mjoin (sk_points <$> (c' :: cs))) in Hn.
    change (push_all (c :: c' :: cs) None) with (let '(ready, pending) := push c None in let '(rest, pending) := push_all (c' :: cs) pending in (ready ++ rest, pending)).
    assert (Hp0 : push c None = ([], Some c)) by (unfold push; by rewrite Hc). rewrite Hp0.
    rewrite push_sequels; [done|cbn [fmap list_fmap length replicate]; by f_equal| |by rewrite length_app in Hn; lia].
    cbn [length] in Hl. replace (S (S (length cs)) - 1)%nat with (S (S (length cs) - 1)) in Hl by lia. cbn [replicate app fmap list_fmap] in Hl.
    injection Hl as _ Hl. exact Hl.
Qed.

Lemma push_all_app cs1 cs2 p : push_all (cs1 ++ cs2) p = (let '(r1, p1) := push_all cs1 p in let '(r2, p2) := push_all cs2 p1 in (r1 ++ r2, p2)).
Proof.
  revert p. induction cs1 as [|c cs1 IH]; intros p; cbn [app push_all]; [by destruct (push_all cs2 p)|]. destruct (push c p) as [r p1]. rewrite IH.
  destruct (push_all cs1 p1) as [r1 p2]. destruct (push_all cs2 p2) as [r2 p3]. by rewrite app_assoc.
Qed.

Lemma push_frames css : Forall whole_frame css -> push_all (mjoin css) None = (omap assembled css, None).
Proof.
  induction 1 as [|cs css Hcs _ IH]; [done|]. change (mjoin (cs :: css)) with (cs ++ mjoin css). rewrite push_all_app, push_frame by done. rewrite IH. cbn.
  destruct cs as [|c cs]; [|done]. by destruct Hcs as (Hl & _).
Qed.

Section screen.
Context `{ByteOrder} {P : Type} {IP : IdnPoint P} {LP : PointLaws P} {RP : Receivable P}.

Definition screen_of (cs : list ParsedChunk) : list ScreenChunk := parsed_chunk_from_received <$> cs.

Lemma framed_whole (f : list P) cs : framed Frame cs -> mjoin (pc_points <$> cs) = received <$> padded f -> Z.of_nat (length (padded f)) < MAX_PENDING_POINTS ->
  whole_frame (parsed_chunk_from_received <$> cs) /\ mjoin (sk_points <$> (parsed_chunk_from_received <$> cs)) = render_point <$> (received <$> padded f).
Proof.
  intros [Hl Ht] Hp Hn. assert (Hj : mjoin (sk_points <$> (parsed_chunk_from_received <$> cs)) = render_point <$> mjoin (pc_points <$> cs)).
  { clear. induction cs as [|c cs IH]; [done|]. rewrite !fmap_cons. change (mjoin (?x :: ?xs)) with (x ++ mjoin xs). by rewrite fmap_app, <- IH. }
  rewrite Hj, Hp. split; [|done]. unfold whole_frame. rewrite <- !list_fmap_compose, !length_fmap. split; [exact Hl|]. split; [exact Ht|].
  rewrite list_fmap_compose, Hj, Hp, !length_fmap. exact Hn.
Qed.

(** C40. The frames written to an IDN stream in frame mode are the frames the simulator
    shows: whatever the fragmentation, the chunks its receiver parses are assembled to
    one chunk per frame, in order, with the frame's points (padded to the minimum), and
    nothing is left pending. *)
Theorem frames_reach_the_screen (frames : list (list P)) s n p src :
  healthy n -> formatted (P := P) s -> stream_ok s -> s_scan_speed s <> 0 -> in_step (P := P) s n p src -> s_frame_mode s = Frame ->
  Forall (fun f => (0 < length f)%nat /\ Forall wire_wf f) frames -> Forall (fun f => Z.of_nat (length (padded f)) < MAX_PENDING_POINTS) frames ->
  exists s' n' pkts cs p' shown,
    write_frames frames (s, n) = (ROk tt, (s', n')) /\ net_sent n' = net_sent n ++ pkts /\
    feed p src pkts = (p', Some <$> cs) /\
    push_all (parsed_chunk_from_received <$> cs) None = (shown, None) /\
    sk_points <$> shown = (fun f => render_point <$> (received <$> padded f)) <$> frames.
Proof.
  intros Hh Hf Hok Hsp Hstep Hm Hall Hsmall.
  destruct (session_run frames s n p src Hh Hf Hok Hsp (linked_intro _ _ _ Hstep) Hall) as (s' & n' & pkts & css & p' & Hr & Hs & Hfeed & Hc & _).
  exists s', n', pkts, (mjoin css), p', (omap assembled (screen_of <$> css)). rewrite Hm in Hc.
  assert (Hw : Forall whole_frame (screen_of <$> css) /\
    sk_points <$> omap assembled (screen_of <$> css) = (fun f => render_point <$> (received <$> padded f)) <$> frames).
  { clear -Hc Hsmall. induction Hc as [|f cs frames css (Hp & Hfr & _) _ IH]; [done|]. apply Forall_cons in Hsmall as [Hn Hsmall].
    destruct (IH Hsmall) as [IH1 IH2]. destruct (framed_whole f cs Hfr Hp Hn) as [Hw Hj]. rewrite !fmap_cons. split; [by constructor|].
    rewrite <- IH2, <- Hj. destruct cs as [|c cs]; [by destruct Hfr|]. done. }
  split; [done|]. split; [done|]. split; [done|]. split; [|apply Hw].
  assert (Hjoin : parsed_chunk_from_received <$> mjoin css = mjoin (screen_of <$> css)).
  { clear. induction css as [|cs css IH]; [done|]. change (mjoin (cs :: css)) with (cs ++ mjoin css). by rewrite fmap_app, IH. }
  rewrite Hjoin. apply push_frames, Hw.
Qed.
End screen.

(** ** Lines are connected and end where they should *)

(** Consecutive pixels touch. *)
Fixpoint touching (path : list (Z * Z)) : Prop :=
  match path with
  | p :: rest =>
      match rest with
      | q :: _ => Z.abs (q.1 - p.1) <= 1 /\ Z.abs (q.2 - p.2) <= 1
      | [] => True
      end /\ touching rest
  | [] => True
  end.

Definition drawn (p q : Z * Z) (n : nat) (path : list (Z * Z)) : Prop :=
  length path = S n /\ head path = Some p /\ last path = Some q /\ touching path.

(** When the line is at least as wide as high, [x] moves in every round: after [i]
    rounds and [j] moves of [y], the error is [dx - dy - i * dy + j * dx]. *)
Lemma wide_line k : forall fuel i j x0 y0 dx dy sx sy, (k < fuel)%nat -> 0 <= dy <= dx -> 0 < dx -> Z.abs sx = 1 -> Z.abs sy = 1 -> i + Z.of_nat k = dx -> 0 <= i ->
  - dy < 2 * (dx - dy - i * dy + j * dx) < 3 * dx - 2 * dy ->
  exists path, line_loop fuel (x0 + sx * dx) (y0 + sy * dy) dx dy sx sy (dx - dy - i * dy + j * dx) (x0 + sx * i) (y0 + sy * j) = Some path /\
    drawn (x0 + sx * i, y0 + sy * j) (x0 + sx * dx, y0 + sy * dy) k path.
Proof.
  induction k as [|k IH]; intros [|fuel] i j x0 y0 dx dy sx sy Hf Hd Hdx Hsx Hsy Hi Hi0 Hinv; try lia; cbn [line_loop].
  - assert (i = dx) as -> by lia. assert (j = dy) as -> by nia. rewrite !Z.eqb_refl. cbn [andb]. eexists. split; [done|]. by split_and!.
  - assert (Hx : (x0 + sx * i =? x0 + sx * dx) = false) by (apply Z.eqb_neq; nia). rewrite Hx. cbn [andb].
    destruct (Z.ltb_spec (- dy) (2 * (dx - dy - i * dy + j * dx))); [|lia].
    assert (Hgo : forall j', (j' = j \/ j' = j + 1) -> - dy < 2 * (dx - dy - (i + 1) * dy + j' * dx) < 3 * dx - 2 * dy ->
      exists path, (p ← line_loop fuel (x0 + sx * dx) (y0 + sy * dy) dx dy sx sy (dx - dy - (i + 1) * dy + j' * dx) (x0 + sx * (i + 1)) (y0 + sy * j'); Some ((x0 + sx * i, y0 + sy * j) :: p)) = Some path /\
        drawn (x0 + sx * i, y0 + sy * j) (x0 + sx * dx, y0 + sy * dy) (S k) path).
    { intros j' Hj Hinv'. destruct (IH fuel (i + 1) j' x0 y0 dx dy sx sy ltac:(lia) Hd Hdx Hsx Hsy ltac:(lia) ltac:(lia) Hinv') as (path & -> & Hlen & Hh & Hl & Ht).
      eexists. split; [reflexivity|]. destruct path as [|q path]; [done|]. injection Hh as ->. split; [by rewrite <- Hlen|]. split; [done|]. split; [done|].
      cbn [touching]. split; [|done]. cbn [fst snd]. split; nia. }
    destruct (Z.ltb_spec (2 * (dx - dy - i * dy + j * dx)) dx).
    + specialize (Hgo (j + 1) ltac:(by right) ltac:(nia)).
      replace (dx - dy - i * dy + j * dx - dy + dx) with (dx - dy - (i + 1) * dy + (j + 1) * dx) by ring. replace (x0 + sx * i + sx) with (x0 + sx * (i + 1)) by ring.
      replace (y0 + sy * j + sy) with (y0 + sy * (j + 1)) by ring. exact Hgo.
    + specialize (Hgo j ltac:(by left) ltac:(nia)). replace (dx - dy - i * dy + j * dx - dy) with (dx - dy - (i + 1) * dy + j * dx) by ring.
      replace (x0 + sx * i + sx) with (x0 + sx * (i + 1)) by ring. exact Hgo.
Qed.

Definition swap (p : Z * Z) : Z * Z := (p.2, p.1).

(** Mirroring the line mirrors its pixels. *)
Lemma line_loop_swap fuel : forall x1 y1 dx dy sx sy err x y,
  line_loop fuel x1 y1 dx dy sx sy err x y = (fun path : list (Z * Z) => swap <$> path) <$> line_loop fuel y1 x1 dy dx sy sx (- err) y x.
Proof.
  induction fuel as [|fuel IH]; intros x1 y1 dx dy sx sy err x y; [done|]. cbn [line_loop]. rewrite (andb_comm (y =? y1)).
  destruct ((x =? x1) && (y =? y1)); [done|].
  replace (- dx <? 2 * - err) with (2 * err <? dx) by (apply Bool.eq_iff_eq_true; rewrite !Z.ltb_lt; lia).
  replace (2 * - err <? dy) with (- dy <? 2 * err) by (apply Bool.eq_iff_eq_true; rewrite !Z.ltb_lt; lia).
  destruct (- dy <? 2 * err), (2 * err <? dx); rewrite IH.
  1: replace (- (err - dy + dx)) with (- err - dx + dy) by ring.
  2: replace (- (err - dy)) with (- err + dy) by ring.
  3: replace (- (err + dx)) with (- err - dx) by ring.
  all: by destruct (line_loop fuel _ _ _ _ _ _ _ _ _).
Qed.

Lemma drawn_swap p q n path : drawn p q n path -> drawn (swap p) (swap q) n (swap <$> path).
Proof.
  intros (Hn & Hh & Hl & Ht). split; [by rewrite length_fmap|]. split; [by destruct path; [|injection Hh as ->]|]. split; [by rewrite fmap_last, Hl|].
  clear -Ht. induction path as [|a path IH]; [done|]. destruct Ht as [Ha Ht]. split; [|by apply IH]. destruct path as [|b path]; [done|]. cbn in *. lia.
Qed.

Lemma direction_spec a b : b = a + direction a b * Z.abs (b - a) /\ Z.abs (direction a b) = 1.
Proof. unfold direction. destruct (Z.ltb_spec a b); lia. Qed.

Lemma line_drawn p q : exists path, line_pixels p q = Some path /\ drawn p q (Z.to_nat (line_steps p q - 1)) path.
Proof.
  destruct p as [x0 y0], q as [x1 y1]. unfold line_pixels, line_steps. cbn [fst snd]. rewrite Z.add_simpl_r.
  destruct (direction_spec x0 x1) as [Hx Hsx], (direction_spec y0 y1) as [Hy Hsy]. set (sx := direction x0 x1) in *. set (sy := direction y0 y1) in *.
  set (dx := Z.abs (x1 - x0)) in *. set (dy := Z.abs (y1 - y0)) in *. rewrite Hx, Hy.
  destruct (Z.le_gt_cases dy dx) as [Hle|Hgt].
  - rewrite Z.max_l by done. destruct (Z.eq_dec dx 0) as [Hz|Hnz].
    + assert (dy = 0) as -> by lia. rewrite Hz. cbn [Z.to_nat line_loop]. rewrite !Z.mul_0_r, !Z.add_0_r, !Z.eqb_refl. eexists. split; [reflexivity|].
      split; [done|]. split; [done|]. split; [done|]. split; [done|]. done.
    + destruct (wide_line (Z.to_nat dx) (S (Z.to_nat dx)) 0 0 x0 y0 dx dy sx sy) as (path & Hp & Hd); try lia.
      exists path. replace (x0 + sx * 0) with x0 in Hp, Hd by ring. replace (y0 + sy * 0) with y0 in Hp, Hd by ring.
      replace (dx - dy - 0 * dy + 0 * dx) with (dx - dy) in Hp by ring. exact (conj Hp Hd).
  - rewrite Z.max_r by lia. destruct (wide_line (Z.to_nat dy) (S (Z.to_nat dy)) 0 0 y0 x0 dy dx sy sx) as (path & Hp & Hd); try lia.
    exists (swap <$> path). replace (x0 + sx * 0) with x0 in Hp, Hd by ring. replace (y0 + sy * 0) with y0 in Hp, Hd by ring.
    replace (dy - dx - 0 * dx + 0 * dy) with (- (dx - dy)) in Hp by ring.
    split; [rewrite line_loop_swap, Hp; reflexivity|]. exact (drawn_swap _ _ _ _ Hd).
Qed.

(** A line is drawn completely: the loop ends for any two pixels, and visits as many
    pixels as the energy is shared by, from the first to the second, each touching the
    one before. *)
Theorem line_is_drawn p q : exists path, line_pixels p q = Some path /\ drawn p q (Z.to_nat (line_steps p q - 1)) path.
Proof. apply line_drawn. Qed.

(** ** The buffer *)

Definition buffer_ok (b : PersistenceBuffer) : Prop := length (pb_data b) = (pb_width b * pb_height b * 3)%nat.

Lemma add_at_ok i v data : (i < length data)%nat -> exists data', add_at i v data = Some data' /\ length data' = length data.
Proof. intros Hi. apply lookup_lt_is_Some in Hi as [old Ho]. unfold add_at. rewrite Ho. eexists. split; [done|]. apply length_insert. Qed.

Lemma deposit_ok x y r g bl b : buffer_ok b -> exists b', deposit x y r g bl b = Some b' /\ buffer_ok b' /\ pb_width b' = pb_width b /\ pb_height b' = pb_height b.
Proof.
  intros Hb. unfold deposit. destruct (Nat.ltb_spec x (pb_width b)), (Nat.ltb_spec y (pb_height b)); cbn [andb]; try (by exists b).
  cbv zeta. assert (Hlt : ((y * pb_width b + x) * 3 + 2 < length (pb_data b))%nat) by (rewrite Hb; nia).
  destruct (add_at_ok ((y * pb_width b + x) * 3) r (pb_data b)) as (d1 & -> & H1); [lia|]. cbn [mbind option_bind].
  destruct (add_at_ok ((y * pb_width b + x) * 3 + 1) g d1) as (d2 & -> & H2); [lia|]. cbn [mbind option_bind].
  destruct (add_at_ok ((y * pb_width b + x) * 3 + 2) bl d2) as (d3 & -> & H3); [lia|]. cbn [mbind option_bind].
  eexists. split; [done|]. split; [|done]. unfold buffer_ok in *. cbn. lia.
Qed.

(** Drawing never fails: between any two pixels, on screen or off it, a line is drawn
    completely and the buffer keeps its size. *)
Lemma deposit_line_ok p q r g bl b : buffer_ok b -> exists b', deposit_line p q r g bl b = Some b' /\ buffer_ok b' /\ pb_width b' = pb_width b /\ pb_height b' = pb_height b.
Proof.
  intros Hb. unfold deposit_line. destruct (line_drawn p q) as (path & -> & _). cbn [mbind option_bind]. cbv zeta. set (r' := F32.div r _). set (g' := F32.div g _). set (bl' := F32.div bl _).
  clearbody r' g' bl'. revert b Hb. induction path as [|[x y] path IH]; intros b Hb; [by exists b|]. cbn [deposit_pixels].
  assert (Hd : exists b1, (if (0 <=? x) && (0 <=? y) then deposit (Z.to_nat x) (Z.to_nat y) r' g' bl' b else Some b) = Some b1 /\ buffer_ok b1 /\
    pb_width b1 = pb_width b /\ pb_height b1 = pb_height b) by (destruct (_ && _); [by apply deposit_ok|by exists b]).
  destruct Hd as (b1 & -> & H1 & Hw1 & Hh1). cbn [mbind option_bind]. destruct (IH b1 H1) as (b2 & Hr & H2 & Hw2 & Hh2). exists b2. split_and!; try done; congruence.
Qed.

(** A received point is on the screen or at most its size away from it, so that the
    sums of the line are far within 32 bits: its coordinates are normalized. *)
Lemma norm_coord_small v size : f32_bounded v 1 0 -> 1 < Z.of_nat size <= 2 ^ 23 -> - Z.of_nat (size - 1) <= norm_coord v size <= Z.of_nat (size - 1).
Proof.
  intros Hv Hs. unfold norm_coord, as_i32. set (B := Z.of_nat (size - 1)). assert (HB : 0 < B < 2 ^ 23) by lia. apply cast_int_bound; [lia|lia|].
  assert (H2 : f32_bounded (F32.add v f1) 2 0) by (apply (add_bounded 24 128 eq_refl v f1 1 1 0); [lia|lia|done|apply f1_bounded|by apply rep_small]).
  assert (Hh : f32_bounded (F32.mul (F32.add v f1) (F32.of_dyadic 1 (-1))) 1 0).
  { apply (mul_bounded 24 128 eq_refl eq_refl _ _ 2 0 1 (-1)); [done|literal_bound|by apply rep_small|]. by vm_compute. }
  assert (Hb : f32_bounded (F32.of_int B) B 0).
  { apply (normalize_bounded 24 128 eq_refl); [|apply rep_small; lia]. unfold dle. change (0 - Z.min 0 0) with 0. rewrite Z.pow_0_r. lia. }
  refine (proj2 (mul_bounded 24 128 eq_refl eq_refl _ _ 1 0 B 0 B 0 Hh Hb _ _)); [apply rep_small; lia|]. rewrite Z.mul_1_l. apply dle_refl.
Qed.

(** ** The server's status and port *)

(** What a client reads in the status of a simulator is what its window is set to. *)
Lemma status_reads_back s :
  let n := from_settings s in
  let info := mkServerInfo [] [] (1, 0) (status_byte n) [] [] [] in
  has_malfunction info = set_status_malfunction s /\ is_offline info = set_status_offline s /\
  is_excluded info = set_status_excluded s /\ is_occupied info = set_status_occupied s.
Proof. destruct s as [m o e c ? ? ? ?]. by destruct m, o, e, c. Qed.

(** Simulators on different ports have different unit ids, so a scan keeps them
    apart. *)
Lemma port_unit_ids_differ base p q : length base = 16%nat -> 0 <= p < 2 ^ 16 -> 0 <= q < 2 ^ 16 -> port_unit_id base p = port_unit_id base q -> p = q.
Proof.
  intros Hl Hp Hq Heq. unfold port_unit_id in Heq.
  assert (H15 : wrapu 8 p = wrapu 8 q).
  { assert (Hx := f_equal (lookup 15%nat) Heq). rewrite !list_lookup_insert_eq in Hx by (rewrite length_insert; lia). by injection Hx. }
  assert (H14 : wrapu 8 (Z.shiftr p 8) = wrapu 8 (Z.shiftr q 8)).
  { assert (Hx := f_equal (lookup 14%nat) Heq). rewrite !(list_lookup_insert_ne _ 15 14) in Hx by lia. rewrite !list_lookup_insert_eq in Hx by lia. by injection Hx. }
  unfold wrapu in *. rewrite !Z.shiftr_div_pow2 in H14 by lia. rewrite !(Z.mod_small (_ / _)) in H14 by (split; [apply Z.div_pos; lia|apply Z.div_lt_upper_bound; lia]).
  rewrite (Z.div_mod p (2 ^ 8)), (Z.div_mod q (2 ^ 8)) by lia. congruence.
Qed.

(** The first port that can be bound is taken, within a hundred attempts. *)
Lemma first_free_port base first bind k : (k < MAX_PORT_ATTEMPTS)%nat -> first + Z.of_nat k < 2 ^ 16 ->
  (forall i, (i < k)%nat -> bind (first + Z.of_nat i) = BindInUse) -> bind (first + Z.of_nat k) = BindOk ->
  choose_port base first bind = ServedOn (first + Z.of_nat k) (port_unit_id base (first + Z.of_nat k)).
Proof.
  intros Hk Hmax Hused Hok. unfold choose_port. revert Hk. generalize MAX_PORT_ATTEMPTS as n. intros n Hn.
  assert (Hgo : forall m off, (off + m = k)%nat -> (m < n)%nat -> forall a, (m < a)%nat ->
    try_ports a (Z.of_nat off) base first bind = ServedOn (first + Z.of_nat k) (port_unit_id base (first + Z.of_nat k))).
  { induction m as [|m IH]; intros off Ho Hm a Ha; (destruct a as [|a]; [lia|]); cbn [try_ports].
    - replace off with k by lia. destruct (Z.leb_spec (2 ^ 16) (first + Z.of_nat k)); [lia|]. by rewrite Hok.
    - destruct (Z.leb_spec (2 ^ 16) (first + Z.of_nat off)); [lia|]. rewrite Hused by lia.
      replace (Z.of_nat off + 1) with (Z.of_nat (S off)) by lia. apply IH; lia. }
  exact (Hgo k 0%nat ltac:(lia) Hn n Hn).
Qed.

(** ** The history holds the latest points *)

Lemma history_keeps_latest {A} (runs : list (list A)) :
  let all := mjoin runs in foldl (fun h played => drain_round played h) [] runs = drop (length all - HISTORY) all.
Proof.
  intros all. unfold all. clear all. induction runs as [|played runs IH] using rev_ind; [done|]. rewrite foldl_app. cbn [foldl]. rewrite IH, join_app. cbn [mjoin list_join app].
  rewrite app_nil_r. unfold drain_round. case_bool_decide as Hp; [by rewrite Hp, app_nil_r|]. cbv zeta. set (all := mjoin runs). generalize HISTORY as H0. intros N.
  rewrite <- (drop_app_le all played (length all - N)) by lia. rewrite drop_drop, length_drop, !length_app. f_equal. lia.
Qed.

(** ** A run *)

Definition frame_stream : Stream := set_frame_mode Frame IdnLink.Demo.stream.

Lemma frames_reach_the_screen_witness :
  exists s' n' pkts cs p' shown,
    write_frames IdnLink.Demo.frames (frame_stream, IdnLink.Demo.net) = (ROk tt, (s', n')) /\ net_sent n' = [] ++ pkts /\
    feed ∅ IdnLink.Demo.src pkts = (p', Some <$> cs) /\
    push_all (parsed_chunk_from_received <$> cs) None = (shown, None) /\
    sk_points <$> shown = (fun f => render_point <$> (received <$> padded f)) <$> IdnLink.Demo.frames.
Proof.
  refine (@frames_reach_the_screen stdlib_byte_order PointXyrgbi _ _ _ IdnLink.Demo.frames frame_stream IdnLink.Demo.net ∅ IdnLink.Demo.src _ _ _ _ _ _ demo_frames_wf _).
  - constructor.
  - reflexivity.
  - vm_compute. repeat split; congruence.
  - vm_compute. congruence.
  - left. reflexivity.
  - reflexivity.
  - repeat constructor.
Defined.

Lemma timestamps_are_recovered_witness :
  unwrap_all (wrapu 32 <$> [2 ^ 32 - 1000; 2 ^ 32 + 500; 2 ^ 32 + 2000]) unwrapper_new = [2 ^ 32 - 1000; 2 ^ 32 + 500; 2 ^ 32 + 2000].
Proof.
  refine (timestamps_are_recovered (2 ^ 32 - 1000) [2 ^ 32 + 500; 2 ^ 32 + 2000] _ _); [lia|].
  intros [|[|[|i]]] a b Ha Hb; cbn in Ha, Hb; simplify_eq; lia.
Defined.
