(* ===== verification/Discovery.v ===== *)
(** * Device discovery

    Models [src/src/discovery.rs], the device filter and default capabilities of
    [src/src/device.rs], the opened [Dac] of [src/src/stream/mod.rs] with its
    [ReconnectTarget], and the crate's entry points in [src/src/lib.rs].  A
    discoverer is a trait object: the registry is a list of values of one type
    with the operations of the class [Discoverer], whose connect data are opaque.
    A Rust [String] is its UTF-8 bytes, so an identifier is a [string]; free-form
    names that are cut at characters are [str]. *)

From Stdlib Require Import Ascii.
From stdpp Require Import gmap countable strings.
From S2P Require Import Prelude Floats Point Presentation Session Backend Utf8 IdnTypes LaserCube.

#[local] Open Scope Z_scope.
#[local] Open Scope rust_scope.

(** ** The device filter *)

#[export] Instance DacType_eq_dec : EqDecision DacType.
Proof. solve_decision. Defined.

#[export] Instance DacType_countable : Countable DacType.
Proof.
  refine (inj_countable'
    (fun t => match t with Helios => inl 0%nat | EtherDream => inl 1%nat | Idn => inl 2%nat | LaserCubeNetwork => inl 3%nat
      | LaserCubeUsb => inl 4%nat | Oscilloscope => inl 5%nat | Avb => inl 6%nat | Custom n => inr n end)
    (fun s => match s with inl 0%nat => Helios | inl 1%nat => EtherDream | inl 2%nat => Idn | inl 3%nat => LaserCubeNetwork
      | inl 4%nat => LaserCubeUsb | inl 5%nat => Oscilloscope | inl _ => Avb | inr n => Custom n end) _).
  by intros [].
Defined.

(** [DacType::all] with every feature. *)
Definition all_types : list DacType := [Helios; EtherDream; Idn; LaserCubeNetwork; LaserCubeUsb; Avb; Oscilloscope].

Definition EnabledDacTypes : Type := gset DacType.

Definition enabled_all : EnabledDacTypes := list_to_set all_types.

Definition enabled_none : EnabledDacTypes := ∅.

Definition is_enabled (e : EnabledDacTypes) (t : DacType) : bool := bool_decide (t ∈ e).

Definition enable (t : DacType) (e : EnabledDacTypes) : EnabledDacTypes := {[t]} ∪ e.

Definition disable (t : DacType) (e : EnabledDacTypes) : EnabledDacTypes := e ∖ {[t]}.

Definition without (e : EnabledDacTypes) (t : DacType) : EnabledDacTypes := e ∖ {[t]}.

Definition none_enabled (e : EnabledDacTypes) : bool := bool_decide (e = ∅).

Definition enabled_from (ts : list DacType) : EnabledDacTypes := list_to_set ts.

Definition extend_enabled (ts : list DacType) (e : EnabledDacTypes) : EnabledDacTypes := list_to_set ts ∪ e.

Definition display_name (t : DacType) : string :=
  match t with
  | Helios => "Helios"
  | EtherDream => "Ether Dream"
  | Idn => "IDN"
  | LaserCubeNetwork => "LaserCube Network"
  | LaserCubeUsb => "LaserCube USB (LaserDock)"
  | Oscilloscope => "Oscilloscope"
  | Avb => "AVB Audio Device"
  | Custom name => name
  end.

Definition description (t : DacType) : string :=
  match t with
  | Helios => "USB laser DAC"
  | EtherDream => "Network laser DAC"
  | Idn => "ILDA Digital Network laser DAC"
  | LaserCubeNetwork => "LaserCube network DAC"
  | LaserCubeUsb => "USB laser DAC"
  | Oscilloscope => "Oscilloscope XY output via stereo audio"
  | Avb => "AVB audio network output"
  | Custom _ => "Custom DAC"
  end.

(** Enabling one after the other from the empty set is collecting them; only their
    members are enabled. *)
Lemma extend_enables ts e t : is_enabled (extend_enabled ts e) t = is_enabled e t || bool_decide (t ∈ ts).
Proof. unfold is_enabled, extend_enabled. rewrite <- bool_decide_or. apply bool_decide_ext. set_solver. Qed.

Lemma enabled_from_fold ts : enabled_from ts = foldr enable enabled_none ts.
Proof. induction ts as [|t ts IH]; [done|]. cbn [foldr]. rewrite <- IH. done. Qed.

(** ** Default capabilities *)

Definition helios_capabilities : DacCapabilities := mkCaps 7 65535 4095 UsbFrameSwap.

Definition ether_dream_capabilities : DacCapabilities := mkCaps 1 100000 1799 NetworkFifo.

Definition idn_capabilities : DacCapabilities := mkCaps 1 100000 179 UdpTimed.

Definition lasercube_usb_capabilities : DacCapabilities := mkCaps 1 35000 4096 BlockingFifo.

Definition avb_capabilities : DacCapabilities := mkCaps 1 100000 4096 NetworkFifo.

Definition caps_for_dac_type (t : DacType) : DacCapabilities :=
  match t with
  | Helios => helios_capabilities
  | EtherDream => ether_dream_capabilities
  | Idn => idn_capabilities
  | LaserCubeNetwork => LaserCube.default_capabilities
  | LaserCubeUsb => lasercube_usb_capabilities
  | Oscilloscope => default_caps
  | Avb => avb_capabilities
  | Custom _ => default_caps
  end.

(** A Rust [String] from its characters: the UTF-8 bytes. *)
Definition text (s : str) : string := String.string_of_list_ascii ((fun b => Ascii.ascii_of_N (Z.to_N b)) <$> as_bytes s).

(** ** Discovered devices *)

Record DiscoveredDeviceInfo := mkDiscovered {
  di_dac_type : DacType;
  di_stable_id : string;
  di_legacy_ids : list string;
  di_name : string;
  di_ip_address : option IpAddr;
  di_mac_address : option (list Z);
  di_hostname : option string;
  di_usb_address : option string;
  di_hardware_name : option string;
  di_device_index : option Z;
}.

Definition DiscoveredDeviceInfo_new (t : DacType) (stable_id name : string) : DiscoveredDeviceInfo :=
  mkDiscovered t stable_id [] name None None None None None None.

Definition with_ip (ip : IpAddr) (i : DiscoveredDeviceInfo) : DiscoveredDeviceInfo :=
  mkDiscovered (di_dac_type i) (di_stable_id i) (di_legacy_ids i) (di_name i) (Some ip) (di_mac_address i) (di_hostname i)
    (di_usb_address i) (di_hardware_name i) (di_device_index i).

Definition with_mac (mac : list Z) (i : DiscoveredDeviceInfo) : DiscoveredDeviceInfo :=
  mkDiscovered (di_dac_type i) (di_stable_id i) (di_legacy_ids i) (di_name i) (di_ip_address i) (Some mac) (di_hostname i)
    (di_usb_address i) (di_hardware_name i) (di_device_index i).

Definition with_hostname (h : string) (i : DiscoveredDeviceInfo) : DiscoveredDeviceInfo :=
  mkDiscovered (di_dac_type i) (di_stable_id i) (di_legacy_ids i) (di_name i) (di_ip_address i) (di_mac_address i) (Some h)
    (di_usb_address i) (di_hardware_name i) (di_device_index i).

Definition with_usb_address (a : string) (i : DiscoveredDeviceInfo) : DiscoveredDeviceInfo :=
  mkDiscovered (di_dac_type i) (di_stable_id i) (di_legacy_ids i) (di_name i) (di_ip_address i) (di_mac_address i) (di_hostname i)
    (Some a) (di_hardware_name i) (di_device_index i).

Definition with_hardware_name (n : string) (i : DiscoveredDeviceInfo) : DiscoveredDeviceInfo :=
  mkDiscovered (di_dac_type i) (di_stable_id i) (di_legacy_ids i) (di_name i) (di_ip_address i) (di_mac_address i) (di_hostname i)
    (di_usb_address i) (Some n) (di_device_index i).

Definition with_device_index (x : Z) (i : DiscoveredDeviceInfo) : DiscoveredDeviceInfo :=
  mkDiscovered (di_dac_type i) (di_stable_id i) (di_legacy_ids i) (di_name i) (di_ip_address i) (di_mac_address i) (di_hostname i)
    (di_usb_address i) (di_hardware_name i) (Some x).

Definition with_legacy_id (id : string) (i : DiscoveredDeviceInfo) : DiscoveredDeviceInfo :=
  mkDiscovered (di_dac_type i) (di_stable_id i) (di_legacy_ids i ++ [id]) (di_name i) (di_ip_address i) (di_mac_address i)
    (di_hostname i) (di_usb_address i) (di_hardware_name i) (di_device_index i).

(** [PartialEq]: identity is the stable id alone. *)
Definition same_device (a b : DiscoveredDeviceInfo) : bool := bool_decide (di_stable_id a = di_stable_id b).

Record DiscoveredDevice (Op : Type) := mkDevice {
  dd_info : DiscoveredDeviceInfo;
  dd_caps : DacCapabilities;
  dd_discoverer_index : option nat;
  dd_connect_data : Op;
}.
Arguments mkDevice {Op}.
Arguments dd_info {Op}.
Arguments dd_caps {Op}.
Arguments dd_discoverer_index {Op}.
Arguments dd_connect_data {Op}.

Definition DiscoveredDevice_new {Op} (info : DiscoveredDeviceInfo) (data : Op) : DiscoveredDevice Op :=
  mkDevice info (caps_for_dac_type (di_dac_type info)) None data.

Definition with_caps {Op} (c : DacCapabilities) (d : DiscoveredDevice Op) : DiscoveredDevice Op :=
  mkDevice (dd_info d) c (dd_discoverer_index d) (dd_connect_data d).

Definition tag_index {Op} (idx : nat) (d : DiscoveredDevice Op) : DiscoveredDevice Op :=
  mkDevice (dd_info d) (dd_caps d) (Some idx) (dd_connect_data d).

Definition dac_info {Op} (d : DiscoveredDevice Op) : DacInfo :=
  mkInfo (di_stable_id (dd_info d)) (di_name (dd_info d)) (di_dac_type (dd_info d)) (dd_caps d).

(** ** Slugs *)

(** [char::is_whitespace]: the Unicode property [White_Space]. *)
Definition is_whitespace (c : Z) : bool :=
  ((9 <=? c) && (c <=? 13)) || (c =? 32) || (c =? 0x85) || (c =? 0xA0) || (c =? 0x1680) ||
  ((0x2000 <=? c) && (c <=? 0x200A)) || (c =? 0x2028) || (c =? 0x2029) || (c =? 0x202F) || (c =? 0x205F) || (c =? 0x3000).

(** [split_whitespace]: the maximal runs of other characters. *)
Fixpoint words (s : str) (word : str) : list str :=
  match s with
  | [] => if decide (word = []) then [] else [word]
  | c :: s => if is_whitespace c then (if decide (word = []) then words s [] else word :: words s []) else words s (word ++ [c])
  end.

Definition split_whitespace (s : str) : list str := words s [].

(** [join(" ")]. *)
Fixpoint join_spaces (ws : list str) : str :=
  match ws with
  | [] => []
  | [w] => w
  | w :: ws => w ++ [32] ++ join_spaces ws
  end.

(** Drop the characters of [p] at the front; [trim] and [trim_matches] do at both ends. *)
Fixpoint drop_while (p : Z -> bool) (s : str) : str :=
  match s with
  | [] => []
  | c :: s' => if p c then drop_while p s' else s
  end.

Definition trim_both (p : Z -> bool) (s : str) : str := reverse (drop_while p (reverse (drop_while p s))).

Definition to_ascii_lowercase (c : Z) : Z := if (65 <=? c) && (c <=? 90) then c + 32 else c.

(** [avb::normalize_device_name], and the first half of [slugify_device_id]. *)
Definition normalize_device_name (name : str) : str :=
  to_ascii_lowercase <$> trim_both is_whitespace (join_spaces (split_whitespace name)).

Definition is_ascii_alphanumeric (c : Z) : bool :=
  ((48 <=? c) && (c <=? 57)) || ((65 <=? c) && (c <=? 90)) || ((97 <=? c) && (c <=? 122)).

(** The loop: other characters become dashes, never two in a row. *)
Fixpoint slug_loop (s : str) (prev_dash : bool) : str :=
  match s with
  | [] => []
  | ch :: s =>
      if is_ascii_alphanumeric ch then ch :: slug_loop s false
      else if negb prev_dash then 45 :: slug_loop s true
      else slug_loop s prev_dash
  end.

Definition slugify_device_id (name : str) : str :=
  trim_both (Z.eqb 45) (slug_loop (normalize_device_name name) false).

(** ** The registry *)

(** [Discoverer]; [BackendKind] is the type [K] of connected backends. *)
Class Discoverer (D Op K : Type) := {
  disc_dac_type : D -> DacType;
  disc_prefix : D -> string;
  disc_scan : D -> D * list (DiscoveredDevice Op);
  disc_connect : Op -> D -> D * result K;
}.

(** [str::split_once(':')]. *)
Fixpoint split_once (s : string) : option (string * string) :=
  match s with
  | EmptyString => None
  | String c s =>
      if decide (c = ":"%char) then Some (EmptyString, s)
      else '(p, r) ← split_once s; Some (String c p, r)
  end.

Section registry.
Context {D Op FB SB : Type} `{!FifoBackend FB} `{!FrameSwapBackend SB} `{!Discoverer D Op (BackendKind FB SB)}.

(** [DacDiscovery]. *)
Definition DacDiscovery : Type := list D.

(** [ReconnectTarget] and [Dac]. *)
Record ReconnectTarget := mkTarget {
  rt_device_id : string;
  rt_discovery_factory : option (unit -> DacDiscovery);
}.

Record Dac := mkDac {
  dac_dac_info : DacInfo;
  dac_backend : option (BackendKind FB SB);
  dac_reconnect_target : option ReconnectTarget;
}.

Definition Dac_new (info : DacInfo) (k : BackendKind FB SB) : Dac := mkDac info (Some k) None.

Definition with_discovery_factory (factory : unit -> DacDiscovery) (d : Dac) : Dac :=
  mkDac (dac_dac_info d) (dac_backend d)
    (Some match dac_reconnect_target d with
          | Some t => mkTarget (rt_device_id t) (Some factory)
          | None => mkTarget (info_id (dac_dac_info d)) (Some factory)
          end).

(** [register]; it panics on an empty or duplicate prefix. *)
Definition register (d : D) (r : list D) : option (list D) :=
  assert! negb (bool_decide (disc_prefix d = ""%string)) ;;
  if existsb (fun o => bool_decide (disc_prefix o = disc_prefix d)) r then panic
  else Some (r ++ [d]).

(** [scan_one], with the bounds check of the index. *)
Definition scan_one (idx : nat) (r : list D) : option (list D * list (DiscoveredDevice Op)) :=
  d ← r !! idx;
  let '(d, devices) := disc_scan d in
  Some (<[idx := d]> r, tag_index idx <$> devices).

(** [scan]: the indices from [idx] on, [n] of them. *)
Fixpoint scan_from (n idx : nat) (r : list D) : option (list D * list (DiscoveredDevice Op)) :=
  match n with
  | O => Some (r, [])
  | S n =>
      '(r, devices) ← scan_one idx r;
      '(r, rest) ← scan_from n (S idx) r;
      Some (r, devices ++ rest)
  end.

Definition scan (r : list D) : option (list D * list (DiscoveredDevice Op)) := scan_from (length r) 0 r.

Definition registry_connect (device : DiscoveredDevice Op) (r : list D) : list D * result (BackendKind FB SB) :=
  match dd_discoverer_index device with
  | None => (r, Err (ErrInvalidConfig "DiscoveredDevice has no discoverer_index"))
  | Some idx =>
      match r !! idx with
      | None => (r, Err (ErrInvalidConfig ("discoverer for " +:+ di_stable_id (dd_info device) +:+ " not found in registry")))
      | Some d => let '(d, res) := disc_connect (dd_connect_data device) d in (<[idx := d]> r, res)
      end
  end.

Definition open_discovered (device : DiscoveredDevice Op) (r : list D) : list D * result Dac :=
  let info := dac_info device in
  let '(r, res) := registry_connect device r in
  match res with
  | Err e => (r, Err e)
  | Ok k =>
      let info := mkInfo (info_id info) (info_name info) (info_kind info) (caps k) in
      (r, Ok (mkDac info (Some k) (Some (mkTarget (info_id info) None))))
  end.

(** [open_by_id]. *)
Definition answers_to (id : string) (d : DiscoveredDevice Op) : bool :=
  bool_decide (di_stable_id (dd_info d) = id) || existsb (fun l => bool_decide (l = id)) (di_legacy_ids (dd_info d)).

Definition position (prefix : string) (r : list D) : option nat :=
  fst <$> list_find (fun d => disc_prefix d = prefix) r.

Definition open_matching (id : string) (discovered : list (DiscoveredDevice Op)) (r : list D) : list D * result Dac :=
  match List.find (answers_to id) discovered with
  | None => (r, Err (ErrDisconnected ("DAC not found: " +:+ id)))
  | Some device => open_discovered device r
  end.

Definition open_by_id (id : string) (r : list D) : option (list D * result Dac) :=
  let '(id_prefix, has_prefix) := match split_once id with Some (p, _) => (p, true) | None => (""%string, false) end in
  match position id_prefix r, has_prefix with
  | Some idx, _ => '(r, discovered) ← scan_one idx r; Some (open_matching id discovered r)
  | None, true => Some (r, Err (ErrDisconnected ("DAC not found: " +:+ id +:+ " (no discoverer registered for prefix)")))
  | None, false => '(r, discovered) ← scan r; Some (open_matching id discovered r)
  end.

(** ** The crate's entry points

    The built-in discoverers; a USB controller that does not initialize is
    [None]. *)
Context (builtin : DacType -> option D).

Definition register_enabled (enabled : EnabledDacTypes) (t : DacType) (r : list D) : option (list D) :=
  if is_enabled enabled t then match builtin t with Some d => register d r | None => Some r end else Some r.

Definition register_builtins (enabled : EnabledDacTypes) (r : list D) : option (list D) :=
  r ← register_enabled enabled Helios r;
  r ← register_enabled enabled EtherDream r;
  r ← register_enabled enabled Idn r;
  r ← register_enabled enabled LaserCubeNetwork r;
  r ← register_enabled enabled LaserCubeUsb r;
  r ← register_enabled enabled Oscilloscope r;
  register_enabled enabled Avb r.

Definition DacDiscovery_new (enabled : EnabledDacTypes) : option (list D) := register_builtins enabled [].

Definition list_devices_filtered (enabled : EnabledDacTypes) : option (list DacInfo) :=
  r ← DacDiscovery_new enabled;
  '(_, devices) ← scan r;
  Some ((dac_info <$> (devices : list (DiscoveredDevice Op))) : list DacInfo).

Definition list_devices : option (list DacInfo) := list_devices_filtered enabled_all.

Definition open_device (id : string) : option (list D * result Dac) :=
  r ← DacDiscovery_new enabled_all;
  open_by_id id r.

Definition open_device_with (id : string) (factory : unit -> list D) : option (list D * result Dac) :=
  '(r, res) ← open_by_id id (factory tt);
  Some (r, match res with Ok d => Ok (with_discovery_factory factory d) | Err e => Err e end).

(** [ReconnectTarget::open_device]. *)
Definition reopen (t : ReconnectTarget) : option (list D * result Dac) :=
  r ← match rt_discovery_factory t with Some factory => Some (factory tt) | None => DacDiscovery_new enabled_all end;
  open_by_id (rt_device_id t) r.
End registry.
Arguments Dac D FB SB : clear implicits.
Arguments ReconnectTarget D : clear implicits.

(** The stable-id prefixes of the built-in discoverers. *)
Definition builtin_prefix (t : DacType) : string :=
  match t with
  | Helios => "helios"
  | EtherDream => "etherdream"
  | Idn => "idn"
  | LaserCubeNetwork => "lasercube-network"
  | LaserCubeUsb => "lasercube-usb"
  | Oscilloscope => "oscilloscope"
  | Avb => "avb"
  | Custom n => n
  end.

(** ** Slugs are canonical *)

Section slugs.
Implicit Types s t a b : list Z.

Lemma words_plain s w : Forall (fun c => is_whitespace c = false) s -> words s w = if decide (w ++ s = []) then [] else [w ++ s].
Proof.
  intros Hs. revert w. induction Hs as [|c s Hc _ IH]; intros w; cbn [words].
  - by rewrite app_nil_r.
  - rewrite Hc, IH, <- app_assoc. done.
Qed.

Lemma drop_while_suffix p s : drop_while p s `suffix_of` s.
Proof. induction s as [|c s IH]; [done|]. cbn [drop_while]. destruct (p c); [by apply suffix_cons_r|done]. Qed.

Lemma drop_while_head p s : match head (drop_while p s) with Some c => p c = false | None => True end.
Proof. induction s as [|c s IH]; [done|]. cbn [drop_while]. by destruct (p c) eqn:Hp. Qed.

Lemma drop_while_id p s : match head s with Some c => p c = false | None => True end -> drop_while p s = s.
Proof. destruct s as [|c s]; [done|]. cbn. by intros ->. Qed.

Lemma last_head_reverse s : last s = head (reverse s).
Proof. destruct s as [|c s _] using rev_ind; [done|]. by rewrite last_snoc, reverse_snoc. Qed.

(** Trimming keeps a middle part whose ends are not trimmed. *)
Lemma trim_both_spec p s :
  (exists a b, s = a ++ trim_both p s ++ b) /\
  match head (trim_both p s) with Some c => p c = false | None => True end /\
  match last (trim_both p s) with Some c => p c = false | None => True end.
Proof.
  unfold trim_both. set (t := drop_while p s). set (u := drop_while p (reverse t)).
  destruct (drop_while_suffix p s) as (a & Ha). destruct (drop_while_suffix p (reverse t)) as (b & Hb). fold t in Ha. fold u in Hb.
  assert (Ht : t = reverse u ++ reverse b) by (by rewrite <- reverse_app, <- Hb, reverse_involutive).
  split_and!.
  - exists a, (reverse b). by rewrite <- Ht.
  - pose proof (drop_while_head p s) as Hh. fold t in Hh. rewrite Ht in Hh. by destruct (reverse u).
  - rewrite last_head_reverse, reverse_involutive. apply drop_while_head.
Qed.

Lemma trim_both_id p s :
  match head s with Some c => p c = false | None => True end ->
  match last s with Some c => p c = false | None => True end -> trim_both p s = s.
Proof.
  intros Hh Hl. unfold trim_both. rewrite (drop_while_id p s Hh). rewrite last_head_reverse in Hl.
  by rewrite drop_while_id, reverse_involutive.
Qed.

(** A slug: lower-case letters, digits and single inner dashes. *)
Definition slug_char (c : Z) : Prop := 48 <= c <= 57 \/ 97 <= c <= 122 \/ c = 45.

Definition no_double s : Prop := forall i, ~ (s !! i = Some 45 /\ s !! S i = Some 45).

Definition is_slug s : Prop := Forall slug_char s /\ no_double s /\ head s <> Some 45 /\ last s <> Some 45.

Lemma no_double_cons c s : no_double s -> (c = 45 -> head s <> Some 45) -> no_double (c :: s).
Proof.
  intros Hs Hc [|i] [H1 H2].
  - cbn in H1, H2. injection H1 as ->. apply (Hc eq_refl). by destruct s.
  - by apply (Hs i).
Qed.

Lemma lookup_app_add a t i : (a ++ t) !! (length a + i)%nat = t !! i.
Proof. rewrite lookup_app_r by lia. f_equal. lia. Qed.

Lemma no_double_infix a t b : no_double (a ++ t ++ b) -> no_double t.
Proof.
  intros Hn i [H1 H2]. apply (Hn (length a + i)%nat). rewrite <- Nat.add_succ_r, !lookup_app_add.
  split; (rewrite lookup_app_l; [done|by eapply lookup_lt_Some]).
Qed.

Lemma alphanumeric_slug c : is_ascii_alphanumeric (to_ascii_lowercase c) = true -> slug_char (to_ascii_lowercase c) /\ to_ascii_lowercase c <> 45.
Proof.
  unfold to_ascii_lowercase. destruct ((65 <=? c) && (c <=? 90)) eqn:Hu.
  - rewrite andb_true_iff, !Z.leb_le in Hu. unfold slug_char. lia.
  - rewrite andb_false_iff, !Z.leb_gt in Hu. unfold is_ascii_alphanumeric, slug_char.
    rewrite !orb_true_iff, !andb_true_iff, !Z.leb_le. lia.
Qed.

Lemma slug_loop_spec s (b : bool) :
  Forall slug_char (slug_loop (to_ascii_lowercase <$> s) b) /\ no_double (slug_loop (to_ascii_lowercase <$> s) b) /\
  (b = true -> head (slug_loop (to_ascii_lowercase <$> s) b) <> Some 45).
Proof.
  revert b. induction s as [|c s IH]; intros b; [split_and!; [constructor|by intros i []|done]|]. cbn [fmap list_fmap slug_loop].
  destruct (is_ascii_alphanumeric (to_ascii_lowercase c)) eqn:Ha.
  - destruct (IH false) as (H1 & H2 & _). apply alphanumeric_slug in Ha as [Hs Hn]. split_and!; [by constructor|by apply no_double_cons|].
    intros _ [=]. done.
  - destruct b; [apply (IH true)|]. destruct (IH true) as (H1 & H2 & H3).
    split_and!; [constructor; [unfold slug_char; lia|done]|by apply no_double_cons; auto|done].
Qed.

Lemma slugify_is_slug name : is_slug (slugify_device_id name).
Proof.
  unfold slugify_device_id, normalize_device_name.
  destruct (slug_loop_spec (trim_both is_whitespace (join_spaces (split_whitespace name))) false) as (H1 & H2 & _).
  set (l := slug_loop _ _) in *. destruct (trim_both_spec (Z.eqb 45) l) as ((a & b & Hab) & Hh & Hl).
  rewrite Hab in H1, H2. rewrite !Forall_app in H1. split_and!; [by destruct H1 as (_ & ? & _)|by eapply no_double_infix| |].
  - intros He. rewrite He in Hh. done.
  - intros He. rewrite He in Hl. done.
Qed.

Lemma slug_char_plain c : slug_char c -> is_whitespace c = false /\ to_ascii_lowercase c = c /\ (is_ascii_alphanumeric c = false -> c = 45).
Proof.
  intros Hc. unfold slug_char in Hc. split_and!.
  - unfold is_whitespace. rewrite !orb_false_iff, !andb_false_iff, !Z.eqb_neq, !Z.leb_gt. lia.
  - unfold to_ascii_lowercase. destruct (Z.leb_spec 65 c), (Z.leb_spec c 90); cbn; lia.
  - unfold is_ascii_alphanumeric. rewrite !orb_false_iff, !andb_false_iff, !Z.leb_gt. lia.
Qed.

Lemma slug_loop_id s (b : bool) : Forall slug_char s -> no_double s -> (b = true -> head s <> Some 45) -> slug_loop s b = s.
Proof.
  intros Hs. revert b. induction Hs as [|c s Hc Hs IH]; intros b Hn Hb; [done|]. cbn [slug_loop].
  assert (Hn' : no_double s) by (intros i Hi; by apply (Hn (S i))). destruct (slug_char_plain c Hc) as (_ & _ & Hd).
  destruct (is_ascii_alphanumeric c) eqn:Ha; [by rewrite IH|]. rewrite (Hd eq_refl) in *.
  destruct b; [by destruct Hb|]. cbn [negb]. rewrite IH; [done|done|]. intros _ He. apply (Hn 0%nat). by destruct s.
Qed.

Lemma slugify_id s : is_slug s -> slugify_device_id s = s.
Proof.
  intros (Hs & Hn & Hh & Hl). unfold slugify_device_id, normalize_device_name.
  assert (Hw : Forall (fun c => is_whitespace c = false) s) by (eapply Forall_impl; [exact Hs|]; intros c Hc; by apply slug_char_plain).
  assert (Hj : join_spaces (split_whitespace s) = s).
  { unfold split_whitespace. rewrite words_plain by done. cbn [app]. by case_decide. }
  rewrite Hj. rewrite (trim_both_id is_whitespace).
  - assert (Hm : to_ascii_lowercase <$> s = s).
    { clear -Hs. induction Hs as [|c s Hc _ IH]; [done|]. cbn. rewrite IH. f_equal. by apply slug_char_plain. }
    rewrite Hm, slug_loop_id by done. apply trim_both_id.
    + destruct (head s) as [c|]; [|done]. apply Z.eqb_neq. intros <-. done.
    + destruct (last s) as [c|]; [|done]. apply Z.eqb_neq. intros <-. done.
  - destruct s as [|c s]; [done|]. by inversion Hw.
  - destruct (last s) as [c|] eqn:He; [|done]. apply last_Some_elem_of in He. by eapply Forall_forall in Hw.
Qed.
End slugs.

(** The id segment made from a device name consists of lower-case letters,
    digits and single dashes between them, whatever the name; a name that already
    has this shape is its own slug, so slugging twice changes nothing. *)
Theorem slug_canonical (name : str) :
  is_slug (slugify_device_id name) /\ (is_slug name -> slugify_device_id name = name) /\
  slugify_device_id (slugify_device_id name) = slugify_device_id name.
Proof. pose proof (slugify_is_slug name). split_and!; [done|apply slugify_id|by apply slugify_id]. Qed.

(** ** Routing *)

(** A discoverer does not change its prefix. *)
Class DiscovererLaws (D Op K : Type) `{!Discoverer D Op K} := {
  scan_prefix (d : D) : disc_prefix (disc_scan d).1 = disc_prefix d;
  connect_prefix (data : Op) (d : D) : disc_prefix (disc_connect data d).1 = disc_prefix d;
}.

Lemma split_once_app p rest : split_once p = None -> split_once (p +:+ String ":" rest) = Some (p, rest).
Proof.
  induction p as [|c p IH]; [done|]. change (String c p +:+ String ":" rest) with (String c (p +:+ String ":" rest)).
  cbn [split_once]. case_decide; [done|]. destruct (split_once p) as [[? ?]|]; [done|]. intros _. by rewrite IH.
Qed.

Lemma split_once_sound s p rest : split_once s = Some (p, rest) -> s = p +:+ String ":" rest /\ split_once p = None.
Proof.
  revert p. induction s as [|c s IH]; intros p Hs; [done|]. cbn [split_once] in Hs. case_decide as Hc.
  - injection Hs as <- <-. by rewrite Hc.
  - destruct (split_once s) as [[p' r']|] eqn:He; [|done]. injection Hs as <- <-. destruct (IH p' eq_refl) as [-> Hp].
    split; [done|]. cbn [split_once]. rewrite decide_False by done. by rewrite Hp.
Qed.

Lemma surjective_pairing_eq {A B} (p : A * B) : Some p = Some (p.1, p.2).
Proof. by destruct p. Qed.

Section routing.
Context {D Op FB SB : Type} `{!FifoBackend FB} `{!FrameSwapBackend SB} `{!Discoverer D Op (BackendKind FB SB)}
  `{!DiscovererLaws D Op (BackendKind FB SB)}.
Implicit Types (r : list D) (d : D) (id : string).

Definition prefixes r : list string := disc_prefix <$> r.

(** The registry's invariant: prefixes are unique and not empty. *)
Definition registry_ok r : Prop := NoDup (prefixes r) /\ (""%string ∉ prefixes r).

Lemma register_spec d r :
  match register d r with
  | Some r' => r' = r ++ [d] /\ disc_prefix d <> ""%string /\ disc_prefix d ∉ prefixes r
  | None => disc_prefix d = ""%string \/ disc_prefix d ∈ prefixes r
  end.
Proof.
  unfold register. case_bool_decide as He; cbn [negb]; [by left|].
  destruct (existsb _ r) eqn:Hx.
  - right. apply existsb_exists in Hx as (o & Ho & Hp). apply bool_decide_eq_true in Hp. rewrite <- Hp.
    apply list_elem_of_fmap. exists o. split; [done|]. by apply list_elem_of_In.
  - split_and!; [done|done|]. intros (o & Hp & Ho)%list_elem_of_fmap. apply not_true_iff_false in Hx. apply Hx, existsb_exists.
    exists o. split; [by apply list_elem_of_In|by apply bool_decide_eq_true].
Qed.

Lemma register_ok d r r' : registry_ok r -> register d r = Some r' -> registry_ok r'.
Proof.
  intros [Hn He] Hr. pose proof (register_spec d r) as Hs. rewrite Hr in Hs. destruct Hs as (-> & Hd & Hi).
  unfold registry_ok, prefixes in *. rewrite fmap_app. cbn. split.
  - apply NoDup_app. split_and!; [done| |apply NoDup_singleton]. intros p Hp ->%list_elem_of_singleton. done.
  - rewrite elem_of_app, list_elem_of_singleton. intros [|]; [done|]. by apply Hd.
Qed.

(** Replacing a discoverer by its successor keeps the prefixes. *)
Lemma prefixes_insert i d d' r : r !! i = Some d -> disc_prefix d' = disc_prefix d -> prefixes (<[i := d']> r) = prefixes r.
Proof.
  intros Hi Hp. unfold prefixes. rewrite list_fmap_insert, Hp. apply list_insert_id. by rewrite list_lookup_fmap, Hi.
Qed.

Lemma connect_prefixes dev r : prefixes (registry_connect dev r).1 = prefixes r.
Proof.
  unfold registry_connect. destruct (dd_discoverer_index dev) as [i|]; [|done]. destruct (r !! i) as [d|] eqn:Hi; [|done].
  pose proof (connect_prefix (dd_connect_data dev) d) as Hp. destruct (disc_connect _ d) as [d' res]. by apply (prefixes_insert i d).
Qed.

Lemma open_prefixes dev r : prefixes (open_discovered dev r).1 = prefixes r.
Proof.
  unfold open_discovered. pose proof (connect_prefixes dev r) as Hp. destruct (registry_connect dev r) as [r' []]; exact Hp.
Qed.

Lemma open_matching_prefixes id devs r : prefixes (open_matching id devs r).1 = prefixes r.
Proof. unfold open_matching. destruct (List.find _ devs); [apply open_prefixes|done]. Qed.

(** A scan from [idx] on: every discoverer there is scanned once. *)
Lemma scan_from_spec pre suf :
  scan_from (length suf) (length pre) (pre ++ suf) =
    Some (pre ++ ((fun d => (disc_scan d).1) <$> suf),
          mjoin (imap (fun i d => tag_index (length pre + i) <$> (disc_scan d).2) suf)).
Proof.
  revert pre. induction suf as [|d suf IH]; intros pre; [done|]. cbn [length scan_from].
  unfold scan_one. rewrite list_lookup_middle by done. cbn [mbind option_bind].
  destruct (disc_scan d) as [d' devs] eqn:Hd. cbn [mbind option_bind].
  rewrite insert_app_r_alt, Nat.sub_diag by lia. cbn [insert list_insert].
  specialize (IH (pre ++ [d'])). rewrite length_app, <- !app_assoc in IH. cbn [length app] in IH.
  replace (length pre + 1)%nat with (S (length pre)) in IH by lia. rewrite IH. cbn [mbind option_bind].
  cbn [fmap list_fmap imap mjoin list_join]. rewrite Hd, Nat.add_0_r. cbn [fst snd]. do 3 f_equal.
  f_equal. apply imap_ext. intros i x _. cbn. f_equal. f_equal. lia.
Qed.

Lemma scan_spec r :
  scan r = Some ((fun d => (disc_scan d).1) <$> r, mjoin (imap (fun i d => tag_index i <$> (disc_scan d).2) r)).
Proof. exact (scan_from_spec [] r). Qed.

Lemma scanned_prefixes r : prefixes ((fun d => (disc_scan d).1) <$> r) = prefixes r.
Proof. unfold prefixes. rewrite <- list_fmap_compose. apply list_fmap_ext. intros. apply scan_prefix. Qed.

(** ** Opening by id, specified

    An id with a prefix concerns the discoverer of that prefix, an id without one
    every discoverer; the first device that answers is opened. *)
Definition concerns id d : bool := match split_once id with Some (p, _) => bool_decide (disc_prefix d = p) | None => true end.

Definition offers id r : list (nat * D * DiscoveredDevice Op) :=
  mjoin (imap (fun i d => if concerns id d then (fun dev => (i, d, dev)) <$> (disc_scan d).2 else []) r).

Definition opened_as (dev : DiscoveredDevice Op) (k : BackendKind FB SB) : Dac D FB SB :=
  let i := dd_info dev in
  mkDac (mkInfo (di_stable_id i) (di_name i) (di_dac_type i) (caps k)) (Some k) (Some (mkTarget (di_stable_id i) None)).

Definition opening id r : result (Dac D FB SB) -> Prop := fun res =>
  match List.find (fun o => answers_to id o.2) (offers id r) with
  | None => exists msg, res = Err (ErrDisconnected msg)
  | Some (_, d, dev) =>
      res = match (disc_connect (dd_connect_data dev) (disc_scan d).1).2 with Ok k => Ok (opened_as dev k) | Err e => Err e end
  end.

(** Opening a tagged device goes to the discoverer it came from. *)
Lemma open_tagged i d r (dev : DiscoveredDevice Op) : r !! i = Some d ->
  (open_discovered (tag_index i dev) r).2 =
    match (disc_connect (dd_connect_data dev) d).2 with Ok k => Ok (opened_as dev k) | Err e => Err e end /\
  forall j, j <> i -> (open_discovered (tag_index i dev) r).1 !! j = r !! j.
Proof.
  intros Hi. unfold open_discovered, registry_connect. cbn [dd_discoverer_index tag_index dd_connect_data]. rewrite Hi.
  destruct (disc_connect (dd_connect_data dev) d) as [d' [k|e]]; (split; [done|]); intros j Hj; cbn; by apply list_lookup_insert_ne.
Qed.

Lemma find_tagged id (tag : DiscoveredDevice Op -> DiscoveredDevice Op) {X} (f : DiscoveredDevice Op -> X) (g : X -> DiscoveredDevice Op) devs :
  (forall dev, answers_to id (tag dev) = answers_to id dev) -> (forall dev, g (f dev) = dev) ->
  List.find (answers_to id) (tag <$> devs) = tag <$> (g <$> List.find (fun o => answers_to id (g o)) (f <$> devs)).
Proof.
  intros Ht Hg. induction devs as [|dev devs IH]; [done|]. cbn. rewrite Ht, Hg. destruct (answers_to id dev); [by cbn; rewrite Hg|done].
Qed.

Lemma find_app {A} (f : A -> bool) (l k : list A) : List.find f (l ++ k) = match List.find f l with Some x => Some x | None => List.find f k end.
Proof. induction l as [|x l IH]; [done|]. cbn. by destruct (f x). Qed.

(** The devices of a scan, searched with their discoverers. *)
Lemma find_scanned id r (c : D -> bool) k :
  (forall i d, r !! i = Some d -> c d = true) ->
  List.find (answers_to id) (mjoin (imap (fun i d => tag_index (k + i) <$> (disc_scan d).2) r)) =
    (fun o : nat * D * DiscoveredDevice Op => tag_index o.1.1 o.2) <$>
      List.find (fun o => answers_to id o.2)
        (mjoin (imap (fun i d => if c d then (fun dev => ((k + i)%nat, d, dev)) <$> (disc_scan d).2 else []) r)).
Proof.
  revert k. induction r as [|d r IH]; intros k Hc; [done|]. cbn [imap mjoin list_join]. rewrite (Hc 0%nat d eq_refl).
  rewrite !find_app, (find_tagged id (tag_index (k + 0)) (fun dev => ((k + 0)%nat, d, dev)) snd) by done.
  destruct (List.find _ ((fun dev => _) <$> _)) as [[[i x] dev]|] eqn:Hf; cbn [fmap option_fmap option_map].
  - assert (Hi : i = (k + 0)%nat).
    { apply List.find_some in Hf as [Hin _]. apply list_elem_of_In, list_elem_of_fmap in Hin as (? & [= -> _ _] & _). done. }
    by rewrite Hi.
  - specialize (IH (S k) (fun i d => Hc (S i) d)).
    assert (Hs : forall A (f g : nat -> D -> A), (forall i x, f (S i) x = g i x) -> imap (f ∘ S) r = imap g r)
      by (intros A f g Hfg; apply imap_ext; intros; apply Hfg).
    rewrite (Hs _ _ (fun i d => tag_index (S k + i) <$> (disc_scan d).2)) by (intros; by rewrite Nat.add_succ_r).
    rewrite (Hs _ _ (fun i d => if c d then (fun dev => ((S k + i)%nat, d, dev)) <$> (disc_scan d).2 else []))
      by (intros; by rewrite Nat.add_succ_r). exact IH.
Qed.

Lemma offered_at id r i d dev : List.find (fun o => answers_to id o.2) (offers id r) = Some (i, d, dev) ->
  r !! i = Some d /\ concerns id d = true /\ dev ∈ (disc_scan d).2 /\ answers_to id dev = true.
Proof.
  intros [Hin Ha]%List.find_some. split_and!; [| | |done]; apply list_elem_of_In, list_elem_of_join in Hin as (l & Hin & Hl);
    apply elem_of_lookup_imap in Hl as (j & x & -> & Hx); destruct (concerns id x) eqn:Hc; try by apply not_elem_of_nil in Hin.
  all: apply list_elem_of_fmap in Hin as (y & [= -> -> ->] & Hy); done.
Qed.

Lemma join_none {A} (f : nat -> D -> list A) r : (forall i d, r !! i = Some d -> f i d = []) -> mjoin (imap f r) = [].
Proof.
  revert f. induction r as [|d r IH]; intros f Hf; [done|]. cbn. rewrite (Hf 0%nat d eq_refl). apply (IH (f ∘ S)). intros i x Hx. by apply Hf.
Qed.

Lemma offers_single id idx d rest r : registry_ok r -> r !! idx = Some d -> split_once id = Some (disc_prefix d, rest) ->
  offers id r = (fun dev => (idx, d, dev)) <$> (disc_scan d).2.
Proof.
  intros [Hn _] Hi Hs.
  assert (Hother : forall j x, r !! j = Some x -> j <> idx -> concerns id x = false).
  { intros j x Hj Hne. unfold concerns. rewrite Hs. apply bool_decide_eq_false. intros Hp. apply Hne.
    eapply (NoDup_lookup _ j idx (disc_prefix d) Hn); unfold prefixes; rewrite list_lookup_fmap; [by rewrite Hj, <- Hp|by rewrite Hi]. }
  unfold offers. rewrite <- (take_drop_middle r idx d Hi) at 1. rewrite imap_app, join_app. cbn [imap mjoin list_join].
  assert (Hl : length (take idx r) = idx) by (rewrite length_take; apply lookup_lt_Some in Hi; lia).
  rewrite join_none, join_none.
  - rewrite Hl, Nat.add_0_r, app_nil_r. unfold concerns. by rewrite Hs, bool_decide_true.
  - intros j x Hj. cbn. rewrite lookup_drop in Hj. rewrite (Hother _ _ Hj) by lia. done.
  - intros j x Hj. rewrite lookup_take_Some in Hj. destruct Hj as [Hj Hlt]. rewrite (Hother _ _ Hj) by lia. done.
Qed.

Lemma position_spec p r : match position p r with
  | Some i => exists d, r !! i = Some d /\ disc_prefix d = p
  | None => p ∉ prefixes r end.
Proof.
  unfold position. destruct (list_find _ r) as [[i d]|] eqn:Hf; cbn.
  - apply list_find_Some in Hf as (Hi & Hp & _). by exists d.
  - intros (d & -> & Hd)%list_elem_of_fmap. apply list_find_None in Hf. by eapply Forall_forall in Hf.
Qed.

Lemma open_matching_opening id r r1 devs :
  List.find (answers_to id) devs = (fun o : nat * D * DiscoveredDevice Op => tag_index o.1.1 o.2) <$> List.find (fun o => answers_to id o.2) (offers id r) ->
  (forall i d, r !! i = Some d -> concerns id d = true -> r1 !! i = Some (disc_scan d).1) ->
  opening id r (open_matching id devs r1).2 /\
  (forall j d, r !! j = Some d -> concerns id d = false -> (open_matching id devs r1).1 !! j = r1 !! j).
Proof.
  intros Hf Hr. unfold opening, open_matching. rewrite Hf.
  destruct (List.find _ (offers id r)) as [[[i d] dev]|] eqn:Ho; cbn [fmap option_fmap option_map fst snd]; [|by eauto].
  apply offered_at in Ho as (Hi & Hc & _ & _). destruct (open_tagged i _ r1 dev (Hr i d Hi Hc)) as [-> Hkeep]. split; [done|].
  intros j x Hj Hx. apply Hkeep. intros ->. rewrite Hi in Hj. injection Hj as ->. by rewrite Hc in Hx.
Qed.

Lemma open_by_id_spec id r : registry_ok r ->
  exists r' res, open_by_id id r = Some (r', res) /\ opening id r res /\ prefixes r' = prefixes r /\
    (forall j d, r !! j = Some d -> concerns id d = false -> r' !! j = Some d).
Proof.
  intros Hok. unfold open_by_id. destruct (split_once id) as [[p rest]|] eqn:Hs.
  - pose proof (position_spec p r) as Hp. destruct (position p r) as [idx|].
    + destruct Hp as (d & Hi & <-). unfold scan_one. rewrite Hi. cbn [mbind option_bind].
      destruct (disc_scan d) as [d1 devs] eqn:Hd. cbn [mbind option_bind]. do 2 eexists. split; [apply surjective_pairing_eq|].
      destruct (open_matching_opening id r (<[idx := d1]> r) (tag_index idx <$> devs)) as [Ho Hk].
      { rewrite (offers_single id idx d rest r Hok Hi Hs), Hd. cbn [snd].
        rewrite (find_tagged id (tag_index idx) (fun dev => (idx, d, dev)) snd) by done.
        destruct (List.find _ _) as [[[i x] dev]|] eqn:Hf; [|done]. apply List.find_some in Hf as [Hin _].
        apply list_elem_of_In, list_elem_of_fmap in Hin as (? & [= -> _ _] & _). done. }
      { intros i x Hx Hc. assert (Hp : disc_prefix x = disc_prefix d) by (unfold concerns in Hc; rewrite Hs in Hc; by apply bool_decide_eq_true in Hc).
        assert (i = idx) as ->.
        { destruct Hok as [Hn _]. eapply (NoDup_lookup _ i idx (disc_prefix d) Hn); unfold prefixes; rewrite list_lookup_fmap;
            [by rewrite Hx, <- Hp|by rewrite Hi]. }
        rewrite Hi in Hx. injection Hx as <-. rewrite list_lookup_insert_eq by (by eapply lookup_lt_Some). by rewrite Hd. }
      split_and!; [done| |].
      * rewrite open_matching_prefixes. apply (prefixes_insert idx d); [done|]. pose proof (scan_prefix d) as Hsp. by rewrite Hd in Hsp.
      * intros j x Hj Hc. rewrite (Hk j x Hj Hc). rewrite list_lookup_insert_ne; [done|]. intros ->. rewrite Hi in Hj. injection Hj as ->.
        unfold concerns in Hc. by rewrite Hs, bool_decide_true in Hc.
    + do 2 eexists. split; [done|]. split_and!; [|done|done]. unfold opening, offers. rewrite join_none; [by eexists|].
      intros i d Hi. unfold concerns. rewrite Hs. rewrite bool_decide_false; [done|]. intros <-. apply Hp. apply list_elem_of_fmap.
      exists d. split; [done|]. by eapply list_elem_of_lookup_2.
  - pose proof (position_spec ""%string r) as Hp. destruct (position ""%string r) as [idx|].
    { destruct Hp as (d & Hi & Hp). destruct Hok as [_ He]. destruct He. rewrite <- Hp. apply list_elem_of_fmap. exists d.
      split; [done|]. by eapply list_elem_of_lookup_2. }
    rewrite scan_spec. cbn [mbind option_bind]. do 2 eexists. split; [apply surjective_pairing_eq|].
    destruct (open_matching_opening id r ((fun d => (disc_scan d).1) <$> r) (mjoin (imap (fun i d => tag_index i <$> (disc_scan d).2) r))) as [Ho Hk].
    { unfold offers. apply (find_scanned id r (concerns id) 0). intros i d _. unfold concerns. by rewrite Hs. }
    { intros i d Hi _. by rewrite list_lookup_fmap, Hi. }
    split_and!; [done|by rewrite open_matching_prefixes, scanned_prefixes|]. intros j d _ Hc. unfold concerns in Hc. by rewrite Hs in Hc.
Qed.

(** C17. Opening a device by id refines its specification.  In a registry with
    unique, non-empty prefixes [open_by_id] never panics: an id [prefix:rest] asks
    only the discoverer of that prefix (every other one is left untouched, and an
    unknown prefix is refused without a scan), an id without prefix asks all of
    them; the first device whose stable id or legacy id is the one asked for is
    connected by the discoverer that found it, with that device's own connect
    data; the opened [Dac] carries the live capabilities of the backend and the
    device's current stable id as its reconnect target; when nothing answers the
    call reports a disconnected device.  The registry keeps its prefixes. *)
Theorem open_by_id_refines id r : registry_ok r ->
  exists r' res, open_by_id id r = Some (r', res) /\ opening id r res /\ registry_ok r' /\
    (forall j d, r !! j = Some d -> concerns id d = false -> r' !! j = Some d).
Proof.
  intros Hok. destruct (open_by_id_spec id r Hok) as (r' & res & H1 & H2 & H3 & H4). exists r', res.
  split_and!; [done|done| |done]. unfold registry_ok. by rewrite H3.
Qed.

Lemma scanned_device r r' devs dev : scan r = Some (r', devs) -> dev ∈ devs ->
  exists i d dev0, r !! i = Some d /\ dev0 ∈ (disc_scan d).2 /\ dev = tag_index i dev0 /\ r' = (fun d => (disc_scan d).1) <$> r.
Proof.
  rewrite scan_spec. intros [= <- <-] (l & Hin & Hl)%list_elem_of_join. apply elem_of_lookup_imap in Hl as (i & d & -> & Hi).
  apply list_elem_of_fmap in Hin as (dev0 & -> & Hd). by exists i, d, dev0.
Qed.

Lemma position_unique r i d : registry_ok r -> r !! i = Some d -> position (disc_prefix d) r = Some i.
Proof.
  intros [Hn _] Hi. pose proof (position_spec (disc_prefix d) r) as Hp. destruct (position _ r) as [j|].
  - destruct Hp as (x & Hj & Hx). f_equal. eapply (NoDup_lookup _ j i (disc_prefix d) Hn); unfold prefixes; rewrite list_lookup_fmap;
      [by rewrite Hj, <- Hx|by rewrite Hi].
  - destruct Hp. apply list_elem_of_fmap. exists d. split; [done|]. by eapply list_elem_of_lookup_2.
Qed.

(** Every discoverer puts its own prefix in front of its devices' stable ids. *)
Definition namespaced r : Prop := forall d dev, d ∈ r -> dev ∈ (disc_scan d).2 ->
  exists rest, di_stable_id (dd_info dev) = disc_prefix d +:+ String ":" rest.

(** Where the prefixes contain no colon, the stable ids of a scan are a
    collision-free name space: two devices that compare equal come from the same
    discoverer, and the prefix [open_by_id] reads off a device's stable id leads
    back to the very discoverer that found the device. *)
Theorem stable_ids_lead_back r r' devs :
  registry_ok r -> namespaced r -> Forall (fun d => split_once (disc_prefix d) = None) r -> scan r = Some (r', devs) ->
  (forall a b, a ∈ devs -> b ∈ devs -> same_device (dd_info a) (dd_info b) = true -> dd_discoverer_index a = dd_discoverer_index b) /\
  (forall a, a ∈ devs -> exists p rest, split_once (di_stable_id (dd_info a)) = Some (p, rest) /\ position p r' = dd_discoverer_index a).
Proof.
  intros Hok Hns Hfree Hscan.
  assert (Hback : forall a, a ∈ devs ->
    exists p rest, split_once (di_stable_id (dd_info a)) = Some (p, rest) /\ position p r' = dd_discoverer_index a).
  { intros a Ha. destruct (scanned_device _ _ _ _ Hscan Ha) as (i & d & dev & Hi & Hd & -> & ->).
    assert (Hin : d ∈ r) by (by eapply list_elem_of_lookup_2). destruct (Hns d dev Hin Hd) as (rest & Hid).
    rewrite Forall_forall in Hfree. exists (disc_prefix d), rest. cbn [dd_info tag_index dd_discoverer_index].
    rewrite Hid. split; [by apply split_once_app, Hfree|].
    rewrite <- (scan_prefix d). apply position_unique; [|by rewrite list_lookup_fmap, Hi].
    unfold registry_ok. by rewrite scanned_prefixes. }
  split; [|done]. intros a b Ha Hb Hs. unfold same_device in Hs. apply bool_decide_eq_true in Hs.
  destruct (Hback a Ha) as (p & rest & Hp & <-), (Hback b Hb) as (p' & rest' & Hp' & <-). rewrite Hs, Hp' in Hp. by injection Hp as -> ->.
Qed.

(** The registry of the built-in discoverers. *)
Lemma register_enabled_ok (builtin : DacType -> option D) enabled t ts r :
  (forall t d, builtin t = Some d -> disc_prefix d = builtin_prefix t) ->
  builtin_prefix t <> ""%string -> builtin_prefix t ∉ builtin_prefix <$> ts ->
  registry_ok r -> prefixes r ⊆ builtin_prefix <$> ts ->
  exists r', register_enabled builtin enabled t r = Some r' /\ registry_ok r' /\ prefixes r' ⊆ builtin_prefix <$> (t :: ts).
Proof.
  intros Hb Hne Hnew Hok Hsub. unfold register_enabled.
  assert (prefixes r ⊆ builtin_prefix <$> (t :: ts)) by (intros p Hp; apply list_elem_of_further; by apply Hsub).
  destruct (is_enabled enabled t); [|by exists r]. destruct (builtin t) as [d|] eqn:Hd; [|by exists r].
  pose proof (register_spec d r) as Hs. rewrite (Hb t d Hd) in Hs. destruct (register d r) as [r'|] eqn:Hr.
  - exists r'. split_and!; [done|by eapply register_ok|]. destruct Hs as (-> & _ & _). unfold prefixes. rewrite fmap_app. cbn.
    rewrite (Hb t d Hd). intros p [Hp|Hp]%elem_of_app; [by apply list_elem_of_further, Hsub|]. apply list_elem_of_singleton in Hp as ->. apply list_elem_of_here.
  - destruct Hs as [|Hin]; [done|]. by apply Hsub in Hin.
Qed.

(** Building the default registry never panics: whatever types are enabled
    and whatever USB controllers fail to start, the built-in prefixes are distinct,
    not empty and free of colons. *)
Theorem builtins_register (builtin : DacType -> option D) enabled :
  (forall t d, builtin t = Some d -> disc_prefix d = builtin_prefix t) ->
  exists r, DacDiscovery_new builtin enabled = Some r /\ registry_ok r /\ Forall (fun d => split_once (disc_prefix d) = None) r.
Proof.
  intros Hb. unfold DacDiscovery_new, register_builtins.
  assert (Hstep : forall t ts r, builtin_prefix t <> ""%string -> builtin_prefix t ∉ builtin_prefix <$> ts -> registry_ok r ->
    prefixes r ⊆ builtin_prefix <$> ts -> exists r', register_enabled builtin enabled t r = Some r' /\ registry_ok r' /\
    prefixes r' ⊆ builtin_prefix <$> (t :: ts)) by (intros; by apply register_enabled_ok).
  assert (Hok : registry_ok (@nil D)) by (split; [apply NoDup_nil_2|apply not_elem_of_nil]).
  assert (Hsub : prefixes (@nil D) ⊆ builtin_prefix <$> []) by done.
  generalize (@nil D) Hok Hsub. clear Hok Hsub. intros r Hok Hsub.
  repeat match goal with
  | Hs : prefixes ?q ⊆ builtin_prefix <$> ?ts |- context[register_enabled builtin enabled ?t ?q] =>
      let q' := fresh "q" in let E := fresh "E" in let Ho := fresh "Ho" in let Hs' := fresh "Hs" in
      destruct (Hstep t ts q ltac:(done) ltac:(apply (bool_decide_unpack _); vm_compute; exact I) ltac:(assumption) Hs) as (q' & E & Ho & Hs');
      rewrite E; clear E Hs; cbn [mbind option_bind]
  end.
  eexists. split; [done|]. split; [done|]. apply Forall_forall. intros d Hd.
  match goal with Hsub : prefixes ?r ⊆ _ |- _ => assert (Hp : disc_prefix d ∈ prefixes r) by (by apply list_elem_of_fmap_2); apply Hsub in Hp end.
  revert Hp. generalize (disc_prefix d). cbn. intros pre Hp.
  repeat (apply elem_of_cons in Hp as [->|Hp]; [done|]). by apply not_elem_of_nil in Hp.
Qed.
End routing.

(** ** Concrete registries *)
Module Demo.

(** A discoverer that finds the listed ids and connects a counter. *)
Record Fake := mkFake {
  fake_prefix : string;
  fake_ids : list string;
  fake_scans : nat;
}.

#[export] Instance counter_dac : DacBackend nat := {
  backend_caps _ := default_caps;
  backend_connect b := (S b, Ok tt);
  backend_disconnect b := (0%nat, Ok tt);
  backend_is_connected b := bool_decide (b <> 0)%nat;
  backend_stop b := (b, Ok tt);
  backend_set_shutter _ b := (b, Ok tt);
}.

#[export] Instance counter_fifo : FifoBackend nat := {
  fifo_dac := counter_dac;
  try_write_points _ _ b := (b, Ok Written);
  needs_clock _ := false;
  estimated_fullness _ _ _ := 0;
  fifo_target_buffer_ceiling _ := None;
  fifo_reset_device_buffer b := (b, Ok tt);
}.

#[export] Instance counter_swap : FrameSwapBackend nat := {
  frame_dac := counter_dac;
  swap_frame_capacity _ := 4095%nat;
  swap_is_ready_for_frame b := (b, true);
  write_frame _ _ b := (b, Ok Written);
  swap_write_frame_after_ready _ _ b := (b, Ok Written);
}.

#[export] Instance fake_discoverer : Discoverer Fake nat (BackendKind nat nat) := {
  disc_dac_type d := Custom (fake_prefix d);
  disc_prefix d := fake_prefix d;
  disc_scan d :=
    (mkFake (fake_prefix d) (fake_ids d) (S (fake_scans d)),
     imap (fun i id => DiscoveredDevice_new (DiscoveredDeviceInfo_new (Custom (fake_prefix d)) id id) i) (fake_ids d));
  disc_connect n d := (d, Ok (Fifo (S n)));
}.

#[export] Instance fake_laws : DiscovererLaws Fake nat (BackendKind nat nat).
Proof. by split. Qed.

Definition alpha : Fake := mkFake "alpha" ["alpha:1"; "alpha:2"] 0.
Definition beta : Fake := mkFake "beta" ["beta:1"] 0.

Lemma alpha_beta_ok : registry_ok [alpha; beta].
Proof. split; apply (bool_decide_unpack _); vm_compute; exact I. Qed.

Lemma slug_canonical_witness :
  is_slug [109; 111] /\ slugify_device_id [77; 111; 116; 117; 32; 32; 40; 65; 86; 66; 41] = [109; 111; 116; 117; 45; 97; 118; 98] /\
  slugify_device_id [109; 111] = [109; 111].
Proof.
  assert (Hs : is_slug [109; 111]).
  { split_and!; [repeat constructor; unfold slug_char; lia| |done|done]. intros [|[|i]] []; done. }
  split_and!; [done|vm_compute; reflexivity|].
  destruct (slug_canonical [109; 111]) as (_ & Hid & _). exact (Hid Hs).
Defined.

Lemma open_by_id_refines_witness :
  registry_ok [alpha; beta] /\
  exists r' res, open_by_id "alpha:2" [alpha; beta] = Some (r', res) /\ opening "alpha:2" [alpha; beta] res /\
    (exists d, res = Ok d /\ info_id (dac_dac_info d) = "alpha:2"%string) /\ r' !! 1%nat = Some beta.
Proof.
  split; [apply alpha_beta_ok|].
  destruct (open_by_id_refines "alpha:2" [alpha; beta] alpha_beta_ok) as (r' & res & H1 & H2 & _ & H4). exists r', res.
  split_and!; [done|done| |by apply (H4 1%nat beta)]. vm_compute in H1. injection H1 as <- <-. by eexists.
Defined.

Lemma stable_ids_lead_back_witness :
  namespaced [alpha; beta] /\
  forall r' devs, scan [alpha; beta] = Some (r', devs) ->
  forall a b, a ∈ devs -> b ∈ devs -> same_device (dd_info a) (dd_info b) = true -> dd_discoverer_index a = dd_discoverer_index b.
Proof.
  assert (Hns : namespaced [alpha; beta]).
  { intros d dev Hd Hdev. repeat (apply elem_of_cons in Hd as [->|Hd]); [| |by apply not_elem_of_nil in Hd]; cbn in Hdev;
      repeat (apply elem_of_cons in Hdev as [->|Hdev]); try (by apply not_elem_of_nil in Hdev); by eexists. }
  split; [done|]. intros r' devs Hs. apply (stable_ids_lead_back [alpha; beta] r' devs alpha_beta_ok Hns); [by repeat constructor|done].
Defined.

(** Every built-in but Helios, whose controller did not start. *)
Definition fake_builtin (t : DacType) : option Fake :=
  match t with Custom _ | Helios => None | _ => Some (mkFake (builtin_prefix t) [] 0) end.

Lemma builtins_register_witness :
  exists r, DacDiscovery_new fake_builtin enabled_all = Some r /\
    registry_ok r /\ length r = 6%nat.
Proof.
  assert (Hb : forall t (d : Fake), fake_builtin t = Some d -> disc_prefix d = builtin_prefix t) by (intros [] d [= <-]; done).
  destruct (builtins_register fake_builtin enabled_all Hb) as (r & H1 & H2 & _). exists r. split_and!; [done|done|].
  vm_compute in H1. by injection H1 as <-.
Defined.

(** The name space is not collision-free once a prefix contains a colon:
    the registry accepts the prefixes [lan] and [lan:east], each discoverer
    namespaces its device, and yet a scan finds two devices of different
    discoverers that compare equal; the device of [lan:east] is never the one
    opened by its own stable id. *)
Theorem colon_prefix_collides :
  let lan := mkFake "lan" ["lan:east:7"] 0 in
  let east := mkFake "lan:east" ["lan:east:7"] 0 in
  (r ← register lan []; register east r) = Some [lan; east] /\ namespaced [lan; east] /\
  (exists r' a b, scan [lan; east] = Some (r', [a; b]) /\ same_device (dd_info a) (dd_info b) = true /\
    dd_discoverer_index a = Some 0%nat /\ dd_discoverer_index b = Some 1%nat) /\
  (forall r' res, open_by_id "lan:east:7" [lan; east] = Some (r', res) -> r' !! 1%nat = Some east).
Proof.
  split_and!.
  - vm_compute. done.
  - intros d dev Hd Hdev. repeat (apply elem_of_cons in Hd as [->|Hd]); [| |by apply not_elem_of_nil in Hd]; cbn in Hdev;
      repeat (apply elem_of_cons in Hdev as [->|Hdev]); try (by apply not_elem_of_nil in Hdev); by eexists.
  - by do 3 eexists.
  - intros r' res Ho. vm_compute in Ho. by injection Ho as <- <-.
Qed.
End Demo.
