(* ===== verification/EtherBackend.v ===== *)
(** * The Ether Dream backend

    Models [src/src/protocols/ether_dream/backend.rs]: the backend that drives a
    stream through emergency stops, warmups, preparing, writing, beginning and
    rate changes, reacting only to what the DAC reports.  A write runs in a monad
    over the backend's fields, its stream and the socket, with early returns. *)

From stdpp Require Import gmap strings.
From S2P Require Import Prelude Floats Point Presentation Session Backend Estimators Bytes EtherDream EtherModel EtherStream EtherLink Discovery.

#[local] Open Scope Z_scope.

Definition WARMUP_PING_INTERVAL : Z := 100000000.
Definition ESTOP_RETRY_INTERVAL : Z := 1000000000.
Definition CONNECT_TIMEOUT : Z := 5000000000.
Definition TARGET_CEILING_PERCENT : Z := 80.
Definition MIN_BEGIN_THRESHOLD : Z := 16.

(** ** Arithmetic *)

Definition caps_for (capacity max_rate : Z) : DacCapabilities :=
  let caps := ether_dream_capabilities in
  mkCaps (pps_min caps) (if 0 <? max_rate then max_rate else pps_max caps)
    (if 0 <? capacity then capacity else max_points_per_chunk caps) (output_model caps).

Definition effective_max_rate (advertised : Z) : Z := if advertised =? 0 then SYNTHETIC_MAX_POINT_RATE else advertised.

Definition effective_capacity (advertised : Z) : Z := if advertised =? 0 then SYNTHETIC_BUFFER_CAPACITY else advertised.

(** [v.clamp(lo, hi)]. *)
Definition clamp (v lo hi : Z) : Z := Z.min (Z.max v lo) hi.

Definition clamp_rate (pps max_rate : Z) : Z :=
  let rate := if pps =? 0 then max_rate / 16 else pps in
  clamp rate 1 (Z.max max_rate 1).

Definition begin_threshold (point_rate capacity : Z) : Z :=
  let ten_ms := point_rate / 100 in
  let ceiling := clamp (capacity / 2) 1 1700 in
  wrapu 16 (clamp ten_ms (Z.min MIN_BEGIN_THRESHOLD ceiling) ceiling).

(** [decay_fullness]; [now] is the clock when [elapsed] reads it. *)
Definition decay_fullness (now raw capacity : Z) (anchor : option Z) (point_rate : Z) (playing : bool) : Z :=
  let raw := Z.min raw capacity in
  if negb playing then raw
  else
    match anchor with
    | Some last_time => sat_sub raw (as_u16 (fmin (decayed now last_time point_rate) (F64.of_int (umax 16))))
    | None => raw
    end.

(** ** The estimator *)

Record DacRateEstimator := mkRateEstimator {
  dr_inner : StatusDecay.StatusDecayEstimator;
  dr_playing_rate : Z;
}.

Definition default_estimator : DacRateEstimator := mkRateEstimator StatusDecay.new 0.

Definition rate_record_status (now : Z) (status : Status) (e : DacRateEstimator) : DacRateEstimator :=
  let idle := bool_decide (sd_playback status = Idle) in
  let rate := if bool_decide (sd_playback status = Playing) then sd_point_rate status else 0 in
  let inner := StatusDecay.set_playing (negb idle) (dr_inner e) in
  let fullness := if idle then 0 else sd_buffer_fullness status in
  mkRateEstimator (StatusDecay.record_status now fullness inner) rate.

Definition rate_estimated_fullness (now pps : Z) (e : DacRateEstimator) : Z :=
  StatusDecay.read_at now (if 0 <? dr_playing_rate e then dr_playing_rate e else pps) (dr_inner e).

(** ** Errors *)

Definition estopped (status : Status) : bool := negb (bool_decide (sd_light_engine status = LeReady)).

Definition nak_command (e : CommunicationError) : option Z :=
  match e with CommResponse r (KindNak _) => Some (response_command r) | _ => None end.

Definition nak_of (e : CommunicationError) : option Nak :=
  match e with CommResponse _ (KindNak nak) => Some nak | _ => None end.

(** ** The backend *)

Record EtherDreamBackend (P : Type) := mkEther {
  eb_broadcast : option DacBroadcast;
  eb_stream : option (Stream * Net P);
  eb_caps : DacCapabilities;
  eb_last_status_received : option Z;
  eb_last_point_rate : Z;
  eb_last_ping_time : option Z;
  eb_last_estop_attempt : option Z;
  eb_estimator : DacRateEstimator;
  eb_firmware_version : option (list Z);
  eb_skip_version_query : bool;
}.
Arguments mkEther {P}.
Arguments eb_broadcast {P}.
Arguments eb_stream {P}.
Arguments eb_caps {P}.
Arguments eb_last_status_received {P}.
Arguments eb_last_point_rate {P}.
Arguments eb_last_ping_time {P}.
Arguments eb_last_estop_attempt {P}.
Arguments eb_estimator {P}.
Arguments eb_firmware_version {P}.
Arguments eb_skip_version_query {P}.

Definition ether_eta {P} (b : EtherDreamBackend P) : EtherDreamBackend P :=
  mkEther (eb_broadcast b) (eb_stream b) (eb_caps b) (eb_last_status_received b) (eb_last_point_rate b) (eb_last_ping_time b)
    (eb_last_estop_attempt b) (eb_estimator b) (eb_firmware_version b) (eb_skip_version_query b).

(** [update_field] for a type with a parameter. *)
Ltac update_ether proj v b :=
  let t := eval cbv beta delta [ether_eta] in (ether_eta b) in
  let t := eval pattern (proj b) in t in
  match t with ?f _ => let u := eval cbv beta in (f v) in exact u end.

Section backend.
Context `{ByteOrder} {P : Type} `{!Peer P}.
Implicit Types b : EtherDreamBackend P.

Definition set_stream (v : option (Stream * Net P)) b : EtherDreamBackend P := ltac:(update_ether (@eb_stream P) v b).
Definition set_caps (v : DacCapabilities) b : EtherDreamBackend P := ltac:(update_ether (@eb_caps P) v b).
Definition set_last_status_received (v : option Z) b : EtherDreamBackend P := ltac:(update_ether (@eb_last_status_received P) v b).
Definition set_last_point_rate (v : Z) b : EtherDreamBackend P := ltac:(update_ether (@eb_last_point_rate P) v b).
Definition set_last_ping_time (v : option Z) b : EtherDreamBackend P := ltac:(update_ether (@eb_last_ping_time P) v b).
Definition set_last_estop_attempt (v : option Z) b : EtherDreamBackend P := ltac:(update_ether (@eb_last_estop_attempt P) v b).
Definition set_estimator (v : DacRateEstimator) b : EtherDreamBackend P := ltac:(update_ether (@eb_estimator P) v b).
Definition set_firmware_version (v : option (list Z)) b : EtherDreamBackend P := ltac:(update_ether (@eb_firmware_version P) v b).
Definition set_skip_version_query (v : bool) b : EtherDreamBackend P := ltac:(update_ether (@eb_skip_version_query P) v b).

Definition with_address (broadcast : option DacBroadcast) : EtherDreamBackend P :=
  let '(capacity, max_rate) :=
    match broadcast with Some b => (buffer_capacity b, max_point_rate b) | None => (SYNTHETIC_BUFFER_CAPACITY, SYNTHETIC_MAX_POINT_RATE) end in
  mkEther broadcast None (caps_for capacity max_rate) None 0 None None default_estimator None false.

(** ** The monad of a write *)

Definition W (A : Type) : Type := EtherDreamBackend P * (Stream * Net P) -> (A + result WriteOutcome) * (EtherDreamBackend P * (Stream * Net P)).

#[local] Instance W_ret : MRet W := fun A a w => (inl a, w).

#[local] Instance W_bind : MBind W := fun A B k m w =>
  match m w with (inl a, w) => k a w | (inr r, w) => (inr r, w) end.

(** [return r]. *)
Definition return_ {A} (r : result WriteOutcome) : W A := fun w => (inr r, w).

Definition would_block {A} : W A := return_ (Ok WouldBlock).

Definition fatal {A} (e : CommunicationError) : W A := return_ (Err (ErrBackend "ether dream")).

Definition instant : W Z := fun '(b, (s, n)) => let '(t, n) := clock n in (inl t, (b, (s, n))).

Definition modify (f : EtherDreamBackend P -> EtherDreamBackend P) : W unit := fun '(b, sn) => (inl tt, (f b, sn)).

Definition backend_ : W (EtherDreamBackend P) := fun '(b, sn) => (inl b, (b, sn)).

Definition stream_ : W Stream := fun '(b, (s, n)) => (inl s, (b, (s, n))).

Definition status_ : W Status := s ← stream_; mret (ad_status (es_dac s)).

(** [stream.queue_commands()...submit()]. *)
Definition submit_ (build : Stream -> Stream) : W (option CommunicationError) := fun '(b, (s, n)) =>
  let '(r, s, n) := submit (build (queue_commands s)) n in (inl r, (b, (s, n))).

(** The reply's status becomes the anchor of admission, and of the estimate. *)
Definition note_received : W unit := s ← stream_; modify (set_last_status_received (Some (es_status_received_at s))).

Definition note_status : W unit :=
  note_received;;
  s ← stream_;
  modify (fun b => set_estimator (rate_record_status (es_status_sent_at s) (ad_status (es_dac s)) (eb_estimator b)) b).

(** ** Writing *)

Definition interval_due (last : option Z) (now interval : Z) : bool :=
  match last with None => true | Some t => interval <=? sat_sub now t end.

(** The emergency-stop branch: it falls through when the engine is ready again. *)
Definition clear_estop : W unit :=
  now ← instant;
  b ← backend_;
  if negb (interval_due (eb_last_estop_attempt b) now ESTOP_RETRY_INTERVAL) then would_block
  else
    modify (set_last_estop_attempt (Some now));;
    r ← submit_ queue_clear_emergency_stop;
    status ← status_;
    match r with
    | None => mret tt
    | Some e =>
        match nak_of e with
        | Some NakStopCondition => if bool_decide (sd_light_engine status = LeEmergencyStop) then would_block else mret tt
        | _ => fatal e
        end
    end;;
    r ← submit_ queue_ping;
    match r with Some e => fatal e | None => mret tt end;;
    status ← status_;
    if bool_decide (sd_light_engine status = LeEmergencyStop) then would_block
    else
      note_status;;
      if estopped status then would_block else mret tt.

Definition await_warmup : W unit :=
  now ← instant;
  b ← backend_;
  if interval_due (eb_last_ping_time b) now WARMUP_PING_INTERVAL then
    modify (set_last_ping_time (Some now));;
    r ← submit_ queue_ping;
    match r with Some e => fatal e | None => note_received end;;
    would_block
  else would_block.

Definition check_light_engine : W unit :=
  status ← status_;
  match sd_light_engine status with
  | LeEmergencyStop => clear_estop
  | LeWarmup | LeCooldown => await_warmup
  | LeReady => mret tt
  end.

(** (a) The fullness admission counts with: an idle DAC is prepared first. *)
Definition admission_fullness (capacity : Z) : W Z :=
  status ← status_;
  if bool_decide (sd_playback status = Idle) then
    r ← submit_ queue_prepare_stream;
    match r with
    | None => note_received;; mret 0
    | Some e => match nak_of e with Some _ => note_status;; would_block | None => fatal e end
    end
  else
    b ← backend_;
    let rate := if 0 <? sd_point_rate status then sd_point_rate status else eb_last_point_rate b in
    let playing := bool_decide (sd_playback status = Playing) in
    now ← (match eb_last_status_received b with Some _ => if playing then instant else mret 0 | None => mret 0 end);
    mret (decay_fullness now (sd_buffer_fullness status) capacity (eb_last_status_received b) rate playing).

(** No room: a prepared stream is begun so that it drains. *)
Definition no_room (point_rate : Z) : W bool :=
  status ← status_;
  if bool_decide (sd_playback status = Prepared) && (0 <? sd_buffer_fullness status) then
    r ← submit_ (queue_begin 0 point_rate);
    match r with
    | Some e => match nak_of e with Some _ => mret tt | None => fatal e end
    | None => mret tt
    end;;
    modify (set_last_point_rate point_rate);;
    note_status;;
    would_block
  else would_block.

(** The data, with the rate switch behind it while playing. *)
Definition send_data (point_rate : Z) (points : list LaserPoint) : W (option CommunicationError) :=
  status ← status_;
  if bool_decide (sd_playback status = Playing) && negb (sd_point_rate status =? point_rate)
  then submit_ (fun s => queue_update 0 point_rate (queue_data (dac_point_of <$> points) s))
  else submit_ (queue_data (dac_point_of <$> points)).

(** What a send result means: [true] to try the pass again. *)
Definition judge_send (retried : bool) (r : option CommunicationError) : W bool :=
  match r with
  | None => mret false
  | Some e =>
      if bool_decide (nak_command e = Some (start_byte (Update 0 0))) then mret false
      else
        status ← status_;
        match nak_of e with
        | Some NakFull | Some NakInvalid =>
            note_received;;
            if bool_decide (sd_playback status = Idle) && negb retried then mret true
            else note_status;; would_block
        | Some NakStopCondition => if estopped status then note_status;; would_block else fatal e
        | None => fatal e
        end
  end.

(** Begin once enough is buffered: [true] to try the pass again. *)
Definition begin_if_filled (retried : bool) (point_rate threshold : Z) : W bool :=
  status ← status_;
  if bool_decide (sd_playback status = Prepared) && (threshold <=? sd_buffer_fullness status) then
    r ← submit_ (queue_begin 0 point_rate);
    status ← status_;
    match r with
    | None => mret tt
    | Some e =>
        match nak_of e with
        | Some NakInvalid => mret tt
        | Some NakStopCondition => if estopped status then mret tt else fatal e
        | _ => fatal e
        end
    end;;
    mret (bool_decide (sd_playback status = Idle) && negb retried)
  else mret false.

(** One pass of the write loop: [true] means [retried = true; continue]. *)
Definition write_pass (retried : bool) (capacity point_rate threshold : Z) (points : list LaserPoint) : W bool :=
  fullness ← admission_fullness capacity;
  let available := sat_sub capacity fullness in
  if available <? Z.of_nat (length points) then no_room point_rate
  else
    r ← send_data point_rate points;
    again ← judge_send retried r;
    if (again : bool) then mret true
    else
      status ← status_;
      if bool_decide (sd_playback status = Idle) && negb retried then mret true
      else begin_if_filled retried point_rate threshold.

(** [write_points] once there is a stream and something to write; the loop runs a
    second pass at most. *)
Definition write_body (pps : Z) (points : list LaserPoint) : W unit :=
  check_light_engine;;
  s ← stream_;
  let max_rate := effective_max_rate (ad_max_point_rate (es_dac s)) in
  let point_rate := clamp_rate pps max_rate in
  let capacity := effective_capacity (ad_buffer_capacity (es_dac s)) in
  let threshold := begin_threshold point_rate capacity in
  _ ← instant;
  again ← write_pass false capacity point_rate threshold points;
  (if (again : bool) then _ ← write_pass true capacity point_rate threshold points; mret tt else mret tt);;
  modify (set_last_point_rate point_rate);;
  note_status;;
  return_ (Ok Written).

Definition write_points (pps : Z) (points : list LaserPoint) b : EtherDreamBackend P * result WriteOutcome :=
  match eb_stream b with
  | None => (b, Err (ErrDisconnected "Not connected"))
  | Some sn =>
      match points with
      | [] => (b, Ok WouldBlock)
      | _ =>
          match write_body pps points (b, sn) with
          | (inr r, (b, sn)) => (set_stream (Some sn) b, r)
          | (inl _, (b, sn)) => (set_stream (Some sn) b, Ok Written)
          end
      end
  end.

(** [try_write_points]: an error drops the link. *)
Definition ed_try_write_points (pps : Z) (points : list LaserPoint) b : EtherDreamBackend P * result WriteOutcome :=
  match write_points pps points b with
  | (b, Err e) => (set_stream None b, Err e)
  | r => r
  end.

Definition target_buffer_ceiling b : Z :=
  let capacity :=
    match eb_stream b with
    | Some (s, _) => effective_capacity (ad_buffer_capacity (es_dac s))
    | None => max_points_per_chunk (eb_caps b)
    end in
  capacity * TARGET_CEILING_PERCENT / 100.

(** ** Connecting and stopping *)

(** [connect]; [opened i] is the [i]-th TCP connection attempt. *)
Definition ed_connect (now : Z) (opened : nat -> Z -> Net P + tcp_error) b : EtherDreamBackend P * result unit :=
  match connect_to (eb_broadcast b) (opened 0%nat) now with
  | inr e => (b, Err (ErrBackend "connect"))
  | inl (s, n) =>
      let b := set_firmware_version None (set_last_estop_attempt None (set_last_ping_time None (set_last_point_rate 0 (set_estimator default_estimator b)))) in
      let finish s n b :=
        (set_stream (Some (s, n)) (set_last_status_received (Some (es_status_received_at s))
           (set_caps (caps_for (ad_buffer_capacity (es_dac s)) (ad_max_point_rate (es_dac s))) b)), Ok tt) in
      if eb_skip_version_query b then finish s n b
      else
        match query_version s n with
        | (inl (Some version), s, n) => finish s n (set_firmware_version (Some version) b)
        | (inl None, s, n) => finish s n (set_skip_version_query true b)
        | (inr _, _, n) =>
            let b := set_skip_version_query true b in
            match connect_to (eb_broadcast b) (opened 1%nat) (n_now n) with
            | inr e => (b, Err (ErrBackend "connect"))
            | inl (s, n) => finish s n b
            end
        end
  end.

(** [disconnect]: the stop is sent unless the DAC is idle already, then the connection
    is closed, as the second component leaves it. *)
Definition disconnect_stop (sn : Stream * Net P) : Stream * Net P :=
  let '(s, n) := sn in
  if bool_decide (sd_playback (ad_status (es_dac s)) = Idle) then (s, n)
  else let '(_, s, n) := submit (queue_stop (queue_commands s)) n in (s, n).

Definition ed_disconnect b : EtherDreamBackend P * option (Stream * Net P) * result unit :=
  (set_stream None b, disconnect_stop <$> eb_stream b, Ok tt).

Definition ed_is_connected b : bool := bool_decide (is_Some (eb_stream b)).

Definition ed_stop b : EtherDreamBackend P * result unit :=
  match eb_stream b with
  | None => (b, Ok tt)
  | Some (s, n) =>
      let '(r, s, n) := submit (queue_stop (queue_commands s)) n in
      let finish :=
        (set_estimator (rate_record_status (es_status_sent_at s) (ad_status (es_dac s)) (eb_estimator b))
           (set_last_status_received (Some (es_status_received_at s)) (set_stream (Some (s, n)) b)), Ok tt) in
      match r with
      | None => finish
      | Some e => if bool_decide (nak_of e = Some NakInvalid) then finish else (set_stream None b, Err (ErrBackend "stop"))
      end
  end.
End backend.
