(* ===== verification/EtherDrive.v ===== *)
(** * Driving an Ether Dream

    Composes [EtherBackend] with the simulator through [EtherLink]: what a write,
    a stop and a connect of the backend do to the DAC at the other end, on every
    firmware, at every point rate and whatever time passes between commands. *)

From stdpp Require Import gmap strings.
From S2P Require Import Prelude Floats Point Presentation Session Backend Estimators Bytes EtherDream EtherModel EtherStream EtherLink EtherBackend.

#[local] Open Scope Z_scope.

(** ** The DAC over time *)

(** No rate change is queued, and the points played are not ahead of time. *)
Record steady (m : EtherDreamModel) : Prop := {
  st_queue : m_rate_queue m = [];
  st_pace : m_playback m = PLAYBACK_PLAYING -> m_seg_start m <= m_now m /\ m_seg_played m <= due (m_now m) m;
}.

(** From [m] to [m'] the DAC took exactly the points [taken] into its ring, none was
    turned away for lack of room, and points left the ring at its front. *)
Definition evolves (m : EtherDreamModel) (taken : list DacPoint) (m' : EtherDreamModel) : Prop :=
  m_accepted_total m' = m_accepted_total m + Z.of_nat (length taken) /\ m_overfull_writes m' = m_overfull_writes m /\
  exists k, m_ring m' = drop k (m_ring m ++ taken).

Lemma evolves_refl m : evolves m [] m.
Proof. unfold evolves. rewrite app_nil_r. split_and!; [cbn; lia|done|by exists 0%nat]. Qed.

Lemma evolves_trans m xs m1 ys m2 : evolves m xs m1 -> evolves m1 ys m2 -> evolves m (xs ++ ys) m2.
Proof.
  intros (Ha & Ho & j & Hr) (Ha' & Ho' & k & Hr'). unfold evolves. split_and!; [rewrite length_app; lia|congruence|].
  rewrite Hr', Hr, app_assoc. destruct (Nat.le_gt_cases j (length (m_ring m ++ xs))) as [Hj|Hj].
  - exists (j + k)%nat. by rewrite <- (drop_app_le (m_ring m ++ xs) ys j), drop_drop.
  - exists (length (m_ring m ++ xs) + k)%nat. rewrite <- drop_drop, drop_app_length. by rewrite (drop_ge (m_ring m ++ xs) j) by lia.
Qed.

(** Nothing about the points changed but, possibly, an emptied ring. *)
Lemma evolves_same m m' : m_accepted_total m' = m_accepted_total m -> m_overfull_writes m' = m_overfull_writes m ->
  m_ring m' = m_ring m \/ m_ring m' = [] -> evolves m [] m'.
Proof.
  intros Ha Ho Hr. unfold evolves. rewrite app_nil_r. split_and!; [cbn; lia|done|].
  destruct Hr as [->| ->]; [by exists 0%nat|exists (length (m_ring m)); by rewrite drop_all].
Qed.

(** A point plays; without queued rates the segment goes on. *)
Lemma play_point_steady point rest m : m_rate_queue m = [] ->
  let m' := play_point point rest m in
  m_ring m' = rest /\ m_rate_queue m' = [] /\ m_playback m' = m_playback m /\ m_seg_start m' = m_seg_start m /\ m_seg_rate m' = m_seg_rate m /\
  m_seg_played m' = m_seg_played m + 1 /\ m_accepted_total m' = m_accepted_total m /\ m_overfull_writes m' = m_overfull_writes m /\
  m_light_engine m' = m_light_engine m.
Proof. intros Hq. unfold play_point. destruct (m_record_output _); destruct (negb _); model_fields; by rewrite ?Hq. Qed.

(** Playing up to [t]: as many points as are due, or an underflow. *)
Lemma play_loop_drains f t m : m_rate_queue m = [] -> m_playback m = PLAYBACK_PLAYING -> (length (m_ring m) < f)%nat ->
  let m' := play_loop f t m in
  let k := Z.to_nat (due t m - m_seg_played m) in
  m_rate_queue m' = [] /\ m_accepted_total m' = m_accepted_total m /\ m_overfull_writes m' = m_overfull_writes m /\
  m_light_engine m' = m_light_engine m /\
  (m_ring m' = [] /\ m_playback m' = PLAYBACK_IDLE \/
   m_ring m' = drop k (m_ring m) /\ (k <= length (m_ring m))%nat /\ m_playback m' = PLAYBACK_PLAYING /\
   m_seg_start m' = m_seg_start m /\ m_seg_rate m' = m_seg_rate m /\ m_seg_played m' = m_seg_played m + Z.of_nat k).
Proof.
  revert m. induction f as [|f IH]; intros m Hq Hp Hf; [lia|]. cbn zeta. cbn [play_loop]. rewrite Hp. cbn [negb Z.eqb PLAYBACK_PLAYING Pos.eqb].
  destruct (Z.leb_spec (due t m) (m_seg_played m)) as [Hd|Hd].
  { split_and!; try done. right. rewrite Z2Nat.nonpos by lia. cbn. split_and!; try done; lia. }
  destruct (m_ring m) as [|p rest] eqn:Hr; [split_and!; try done; by left|].
  pose proof (play_point_steady p rest m Hq) as Hpp. set (m1 := play_point p rest m) in *. clearbody m1. cbv zeta in Hpp.
  destruct Hpp as (H1 & H2 & H3 & H4 & H5 & H6 & H7 & H8 & H9).
  specialize (IH m1 H2 ltac:(by rewrite H3) ltac:(rewrite H1; cbn in Hf; lia)). cbv zeta in IH. rewrite H1, H4, H5, H6, H7, H8, H9 in IH.
  assert (Hdue : due t m1 = due t m) by (unfold due; by rewrite H4, H5). rewrite Hdue in IH.
  assert (Hk : Z.to_nat (due t m - m_seg_played m) = S (Z.to_nat (due t m - (m_seg_played m + 1)))) by lia. rewrite Hk. cbn [drop length].
  destruct IH as (? & ? & ? & ? & [?|(? & ? & ? & ? & ? & ?)]); split_and!; try done; [by left|right]. split_and!; try done; lia.
Qed.

(** How many points are due for certain after a while. *)
Lemma due_elapsed t m : model_ok m -> m_playback m = PLAYBACK_PLAYING -> steady m -> m_now m <= t < 2 ^ 61 ->
  (t - m_now m) * m_seg_rate m / NANOS_PER_SEC <= due t m - m_seg_played m /\ m_seg_played m <= due t m.
Proof.
  intros Hm Hp [_ Hs] Ht. destruct (Hs Hp) as [Hstart Hplayed]. pose proof (ok_clock _ Hm). pose proof (profile_rate _ (ok_profile _ Hm)) as Hmax.
  assert (Hr : rate_ok (m_profile m) (m_seg_rate m)) by (destruct (ok_playback _ Hm) as [Hi|[[Hi|[_ ?]] _]]; [by rewrite Hp in Hi..|done]).
  unfold rate_ok in Hr. unfold due in *. set (r := m_seg_rate m) in *. set (s := m_seg_start m) in *.
  assert (Hle : forall u, s <= u <= t -> wrapu 64 (sat_sub u s * r / NANOS_PER_SEC) = (u - s) * r / NANOS_PER_SEC).
  { intros u Hu. unfold sat_sub. rewrite Z.max_r by lia. unfold wrapu. apply Z.mod_small. split; [apply Z.div_pos; [nia|done]|].
    apply Z.div_lt_upper_bound; [done|]. assert ((u - s) * r <= 2 ^ 61 * 2 ^ 32) by nia. unfold NANOS_PER_SEC. lia. }
  rewrite !Hle in * by lia. set (now := m_now m) in *.
  assert ((now - s) * r / NANOS_PER_SEC + (t - now) * r / NANOS_PER_SEC <= (t - s) * r / NANOS_PER_SEC).
  { replace ((t - s) * r) with ((now - s) * r + (t - now) * r) by lia. unfold NANOS_PER_SEC.
    set (a := (now - s) * r). set (b := (t - now) * r). clearbody a b. apply Z.div_le_lower_bound; [done|].
    pose proof (Z.mul_div_le a 1000000000 ltac:(done)). pose proof (Z.mul_div_le b 1000000000 ltac:(done)). lia. }
  pose proof (Z.div_pos ((t - now) * r) NANOS_PER_SEC ltac:(nia) ltac:(done)). lia.
Qed.

Lemma due_set_now t v m : due t (set_now v m) = due t m.
Proof. done. Qed.

(** What passing time does: an idle or prepared stream stays as it is, a playing one
    plays on, draining at least the points of the elapsed time, or underflows. *)
Record passed (t : Z) (m m' : EtherDreamModel) : Prop := {
  ps_steady : steady m';
  ps_evolves : evolves m [] m';
  ps_now : m_now m' = Z.max t (m_now m);
  ps_engine : m_light_engine m = LIGHT_ENGINE_READY -> m_light_engine m' = LIGHT_ENGINE_READY;
  ps_waiting : m_playback m <> PLAYBACK_PLAYING -> m_playback m' = m_playback m /\ m_ring m' = m_ring m;
  ps_playing : m_playback m = PLAYBACK_PLAYING -> m_playback m' = PLAYBACK_IDLE \/
    m_playback m' = PLAYBACK_PLAYING /\ m_seg_rate m' = m_seg_rate m /\
    Z.of_nat (length (m_ring m')) + Z.max 0 (t - m_now m) * m_seg_rate m / NANOS_PER_SEC <= Z.of_nat (length (m_ring m));
}.

Lemma advance_passed t m : model_ok m -> steady m -> t < 2 ^ 61 -> passed t m (advance_to t m).
Proof.
  intros Hm Hs Ht. destruct (Z.le_gt_cases t (m_now m)) as [Hn|Hn].
  { assert (Hid : advance_to t m = m) by (unfold advance_to; by destruct (Z.leb_spec t (m_now m)); [|lia]). rewrite Hid.
    split; [done|apply evolves_refl|lia|done..|]. intros Hp. right. rewrite Z.max_l by lia. cbn. rewrite Z.add_0_r. split_and!; done || lia. }
  destruct (Z.eq_dec (m_playback m) PLAYBACK_PLAYING) as [Hp|Hp].
  - rewrite advance_playing by done. pose proof (play_loop_drains (S (length (m_ring m))) t m (st_queue _ Hs) Hp ltac:(lia)) as Hd. cbv zeta in Hd.
    destruct (due_elapsed t m Hm Hp Hs ltac:(lia)) as [Hdrain Hdue]. destruct (st_pace _ Hs Hp) as [Hst _].
    set (m' := play_loop (S (length (m_ring m))) t m) in *. clearbody m'. destruct Hd as (Hq & Ha & Ho & Hl & Hcase).
    assert (Hnow : m_now (set_now t m') = Z.max t (m_now m)) by (model_fields; lia).
    destruct Hcase as [[Hr Hi]|(Hr & Hk & Hpl & Hss & Hsr & Hsp)].
    + split; [|by apply evolves_same; auto|done|by intros; model_fields; congruence|done|by left]. split; model_fields; [done|]. by rewrite Hi.
    + split; [| |done|by intros; model_fields; congruence|done|].
      * split; model_fields; [done|]. intros _. rewrite due_set_now. split; [lia|].
        assert (Hde : due t m' = due t m) by (unfold due; by rewrite Hss, Hsr). rewrite Hde, Hsp. lia.
      * unfold evolves. split_and!; model_fields; [cbn; lia|done|]. rewrite app_nil_r. by eexists.
      * intros _. right. model_fields. split_and!; [done|done|]. rewrite Hr, length_drop, Z.max_r by lia. lia.
  - rewrite advance_not_playing by done. unfold end_warmup. model_fields. destruct Hs as [Hq Hpace].
    assert (Hcase : forall m', m_rate_queue m' = m_rate_queue m -> m_playback m' = m_playback m -> m_ring m' = m_ring m -> m_now m' = t ->
      m_accepted_total m' = m_accepted_total m -> m_overfull_writes m' = m_overfull_writes m -> (m_light_engine m = LIGHT_ENGINE_READY -> m_light_engine m' = LIGHT_ENGINE_READY) -> passed t m m').
    { intros m' H1 H2 H3 H4 H5 H6 H7. split; [split; [congruence|by rewrite H2]|by apply evolves_same; auto|lia|done|done|done]. }
    destruct (m_warmup_until m) as [u|]; [destruct (u <=? t)|]; by apply Hcase.
Qed.

(** ** Commands on the DAC *)

(** After a command: what it took, at the same instant, and the engine still ready. *)
Record done_with (m : EtherDreamModel) (taken : list DacPoint) (m' : EtherDreamModel) : Prop := {
  dn_steady : steady m';
  dn_evolves : evolves m taken m';
  dn_now : m_now m' = m_now m;
  dn_engine : m_light_engine m = LIGHT_ENGINE_READY -> m_light_engine m' = LIGHT_ENGINE_READY;
}.

Lemma noted_ack m : noted ACK m = m.
Proof. done. Qed.

(** Counting refusals changes nothing else. *)
Lemma noted_done code m taken m' : done_with m taken m' -> done_with m taken (noted code m').
Proof. unfold noted. destruct (negb _); [|done]. by intros [[] [? []] ? ?]. Qed.

Lemma noted_playback code m : m_playback (noted code m) = m_playback m.
Proof. unfold noted. by destruct (negb _). Qed.

Lemma done_refl m : steady m -> done_with m [] m.
Proof. intros. by split; [|apply evolves_refl|..]. Qed.

(** A segment started now. *)
Lemma steady_started rate m m' : m_rate_queue m' = [] -> m_seg_start m' = m_now m -> m_seg_played m' = 0 -> m_now m' = m_now m -> 0 <= rate -> m_seg_rate m' = rate -> steady m'.
Proof.
  intros Hq Hs Hp Hn Hr Hrate. split; [done|]. intros _. rewrite Hs, Hn, Hp. split; [lia|]. unfold due. rewrite Hs, Hrate. unfold sat_sub. rewrite Z.sub_diag. done.
Qed.

Lemma exec_prepare m : steady m -> m_playback m = PLAYBACK_IDLE -> m_light_engine m = LIGHT_ENGINE_READY ->
  exists m', exec PrepareStream m = (ACK, m') /\ done_with m [] m' /\ m_playback m' = PLAYBACK_PREPARED /\ m_ring m' = [].
Proof.
  intros Hs Hp Hl. unfold exec. cbn [exec_effect]. rewrite Hp, Hl. cbn. eexists. split; [done|]. split; [|done].
  split; model_fields; [by split|apply evolves_same; model_fields; auto|done|done].
Qed.

Lemma exec_begin lwm rate m : steady m -> m_playback m = PLAYBACK_PREPARED -> 0 <= rate ->
  exists m', exec (Begin lwm rate) m = (ACK, m') /\ done_with m [] m' /\ m_playback m' = PLAYBACK_PLAYING.
Proof.
  intros Hs Hp Hr. unfold exec. cbn [exec_effect]. rewrite Hp. cbn. eexists. split; [done|]. split; [|done].
  split; [|by apply evolves_same; model_fields; auto|done|done]. apply (steady_started rate m); model_fields; try done. apply Hs.
Qed.

Lemma exec_update lwm rate m : steady m -> 0 <= rate ->
  exists m', exec (Update lwm rate) m = (ACK, m') /\ done_with m [] m' /\ m_playback m' = m_playback m.
Proof.
  intros Hs Hr. unfold exec. cbn [exec_effect]. eexists. split; [done|]. rewrite noted_ack.
  destruct (m_playback m =? PLAYBACK_PLAYING); [|split; [by apply done_refl|done]]. split; [|done].
  split; [|by apply evolves_same; model_fields; auto|done|done]. apply (steady_started rate m); model_fields; try done. apply Hs.
Qed.

Lemma exec_ping m : exec Ping m = (ACK, m).
Proof. done. Qed.

Lemma exec_clear m : steady m ->
  exists code m', exec ClearEmergencyStop m = (code, m') /\ done_with m [] m' /\ m_playback m' = m_playback m /\ (code = ACK \/ code = NAK_STOP_CONDITION).
Proof.
  intros Hs. unfold exec. cbn [exec_effect]. destruct (negb (m_interlock_ok m)).
  { do 2 eexists. split; [done|]. split; [by apply noted_done, done_refl|]. split; [by rewrite noted_playback|by right]. }
  set (m1 := if m_light_engine m =? LIGHT_ENGINE_EMERGENCY_STOP then _ else m).
  assert (H1 : done_with m [] m1 /\ m_playback m1 = m_playback m).
  { unfold m1. destruct (Z.eqb_spec (m_light_engine m) LIGHT_ENGINE_EMERGENCY_STOP) as [He|_]; [|by split; [apply done_refl|]].
    destruct (estop_clear_immediate (m_profile m)); (split; [|done]); destruct Hs; (split; [by split|by apply evolves_same; model_fields; auto|done|by rewrite He]). }
  clearbody m1. destruct H1 as [H1 H2]. do 2 eexists. split; [done|]. split; [by apply noted_done|]. rewrite noted_playback. split; [done|]. destruct (negb _); auto.
Qed.

Lemma exec_stop m : steady m ->
  exists code m', exec StopCmd m = (code, m') /\ done_with m [] m' /\ m_playback m' = PLAYBACK_IDLE /\ (code = ACK \/ code = NAK_INVALID).
Proof.
  intros Hs. unfold exec. cbn [exec_effect]. destruct (Z.eqb_spec (m_playback m) PLAYBACK_IDLE) as [Hi|_].
  { do 2 eexists. split; [done|]. split; [by apply noted_done, done_refl|]. rewrite noted_playback. split; [done|]. destruct (stop_while_idle_naks _); auto. }
  do 2 eexists. split; [done|]. rewrite noted_ack. unfold clear_unless_stale. model_fields.
  destruct (negb _); (split; [|by auto]); (split; [by split|by apply evolves_same; model_fields; auto|done|done]).
Qed.

Lemma exec_data_idle pts m : steady m -> m_playback m = PLAYBACK_IDLE ->
  exists code m', exec (Data pts) m = (code, m') /\ done_with m [] m' /\ m_playback m' = PLAYBACK_IDLE /\ (code = ACK \/ code = NAK_INVALID).
Proof.
  intros Hs Hp. unfold exec. cbn [exec_effect]. unfold exec_data. rewrite Hp. change (PLAYBACK_IDLE =? PLAYBACK_IDLE) with true. cbv iota.
  case_decide; do 2 eexists; (split; [done|]); (split; [by apply noted_done, done_refl|]); rewrite noted_playback; (split; [done|]); [auto|].
  destruct (data_while_idle_nak_invalid _); auto.
Qed.

Lemma exec_data_room pts m : steady m -> m_playback m <> PLAYBACK_IDLE -> pts <> [] ->
  Z.of_nat (length (m_ring m)) + Z.of_nat (length pts) <= fw_ring_points (m_profile m) ->
  exists m', exec (Data pts) m = (ACK, m') /\ done_with m pts m' /\ m_playback m' = m_playback m.
Proof.
  intros [Hq Hpace] Hp Hne Hroom. unfold exec. cbn [exec_effect]. unfold exec_data. rewrite decide_False by (by destruct pts).
  destruct (Z.eqb_spec (m_playback m) PLAYBACK_IDLE); [done|]. rewrite decide_False by lia. unfold write_outcome. rewrite decide_True by lia.
  eexists. split; [done|]. rewrite noted_ack, (take_ge pts) by done. split; [|done].
  split; [by split| |done|done]. unfold evolves. model_fields. split_and!; [done|done|by exists 0%nat].
Qed.

Section drive.
Context `{ByteOrder}.

Abbreviation link := (Stream * Net SimPeer)%type.

Definition dac_of (sn : link) : EtherDreamModel := net_model sn.2.

Definition status_of (sn : link) : Status := ad_status (es_dac sn.1).

Definition capacity_of (sn : link) : Z := effective_capacity (ad_buffer_capacity (es_dac sn.1)).

Definition max_rate_of (sn : link) : Z := effective_max_rate (ad_max_point_rate (es_dac sn.1)).

(** Between calls: linked, with the status the DAC last had, on a clock that does
    not run out of 64-bit nanoseconds, and a capacity the ring has. *)
Record synced (sn : link) : Prop := {
  sy_linked : linked sn.1 sn.2;
  sy_status : status_from (model_status (dac_of sn)) = inl (status_of sn);
  sy_steady : steady (dac_of sn);
  sy_now : m_now (dac_of sn) <= n_now sn.2;
  sy_time : horizon sn.2 < 2 ^ 61;
  sy_capacity : 1 <= capacity_of sn <= fw_ring_points (m_profile (dac_of sn));
}.

Lemma synced_ok sn : synced sn -> model_ok (dac_of sn).
Proof. intros Hs. apply (lk_model _ _ (sy_linked _ Hs)). Qed.

Lemma playback_to_from v pb : playback_from v = Some pb -> playback_to pb = v.
Proof.
  unfold playback_from. destruct (Z.eqb_spec v PLAYBACK_IDLE) as [->|]; [by intros [= <-]|].
  destruct (Z.eqb_spec v PLAYBACK_PREPARED) as [->|]; [by intros [= <-]|]. destruct (Z.eqb_spec v PLAYBACK_PLAYING) as [->|]; [by intros [= <-]|done].
Qed.

Lemma light_engine_to_from v le : light_engine_from v = Some le -> light_engine_to le = v.
Proof.
  unfold light_engine_from. destruct (Z.eqb_spec v LIGHT_ENGINE_READY) as [->|]; [by intros [= <-]|]. destruct (Z.eqb_spec v LIGHT_ENGINE_WARMUP) as [->|]; [by intros [= <-]|].
  destruct (Z.eqb_spec v LIGHT_ENGINE_COOLDOWN) as [->|]; [by intros [= <-]|]. destruct (Z.eqb_spec v LIGHT_ENGINE_EMERGENCY_STOP) as [->|]; [by intros [= <-]|done].
Qed.

(** The cached status is the DAC's own. *)
Lemma synced_status sn : synced sn ->
  playback_to (sd_playback (status_of sn)) = m_playback (dac_of sn) /\ light_engine_to (sd_light_engine (status_of sn)) = m_light_engine (dac_of sn) /\
  sd_buffer_fullness (status_of sn) = Z.of_nat (length (m_ring (dac_of sn))) /\
  sd_point_rate (status_of sn) = (if m_playback (dac_of sn) =? PLAYBACK_PLAYING then m_seg_rate (dac_of sn) else 0).
Proof.
  intros Hs. pose proof (synced_ok sn Hs) as Hm. pose proof (sy_status _ Hs) as Hst. unfold status_from, model_status in Hst.
  cbn [st_light_engine_state st_playback_state st_source] in Hst. pose proof (ok_ring _ Hm). pose proof (profile_ring _ (ok_profile _ Hm)).
  destruct (light_engine_from (m_light_engine (dac_of sn))) as [le|] eqn:Hl; [|done].
  destruct (playback_from (m_playback (dac_of sn))) as [pb|] eqn:Hp; [|done].
  change (data_source_from SOURCE_NETWORK_STREAMING _) with (Some NetworkStreaming) in Hst. injection Hst as <-.
  cbn [sd_playback sd_light_engine sd_buffer_fullness sd_point_rate st_buffer_fullness st_point_rate]. split_and!.
  - by apply playback_to_from.
  - by apply light_engine_to_from.
  - unfold umax. lia.
  - done.
Qed.

(** Commands executed one after another as time passes, with their responses. *)
Inductive served : list Command -> Z -> EtherDreamModel -> list DacResponse -> Z -> EtherDreamModel -> Prop :=
  | served_nil t m : served [] t m [] t m
  | served_cons c cs t t1 m code m1 resps t' m' : t <= t1 < 2 ^ 61 -> passed t1 m (advance_to t1 m) -> model_ok (advance_to t1 m) ->
      m_profile (advance_to t1 m) = m_profile m -> exec c (advance_to t1 m) = (code, m1) ->
      served cs t1 m1 resps t' m' -> served (c :: cs) t m (respond code (start_byte c) m1 :: resps) t' m'.

(** What a submission keeps. *)
Record follows (sn sn' : link) : Prop := {
  fo_later : later sn.2 sn'.2;
  fo_received : es_status_received_at sn'.1 = n_now sn'.2;
  fo_capacity : capacity_of sn' = capacity_of sn;
  fo_rate : max_rate_of sn' = max_rate_of sn;
  fo_profile : m_profile (dac_of sn') = m_profile (dac_of sn);
}.

Lemma advance_now t m : m_now (advance_to t m) = Z.max t (m_now m).
Proof. apply advance_keeps. Qed.

(** The commands the backend sends. *)
Definition client_command (c : Command) : bool :=
  match c with PrepareStream | Begin _ _ | Update _ _ | Data _ | StopCmd | ClearEmergencyStop | Ping => true | _ => false end.

Lemma exec_keeps p c m : client_command c = true -> sendable p c -> steady m -> steady (exec c m).2 /\ m_now (exec c m).2 = m_now m.
Proof.
  intros Hc (_ & _ & Hr) Hs. assert (Hsame : forall code x, steady x -> m_now x = m_now m -> steady (noted code x) /\ m_now (noted code x) = m_now m).
  { intros code x [] Hx. unfold noted. destruct (negb _); (split; [by split|done]). }
  pose proof Hs as [Hq Hpace]. destruct c; try done.
  - unfold exec. cbn [exec_effect]. destruct (_ || _); cbn [snd]; [by apply Hsame|]. apply Hsame; [by split|done].
  - destruct (Hr _ eq_refl) as [Hr1 _]. unfold exec. cbn [exec_effect].
    destruct (m_playback m =? PLAYBACK_PLAYING); [cbn [snd]; apply Hsame; [|done]; apply (steady_started point_rate m); model_fields; try done; lia|].
    destruct (m_playback m =? PLAYBACK_PREPARED); [cbn [snd]; apply Hsame; [|done]; apply (steady_started point_rate m); model_fields; try done; lia|by apply Hsame].
  - destruct (Hr _ eq_refl) as [Hr1 _]. destruct (exec_update low_water_mark point_rate m Hs ltac:(lia)) as (m' & -> & [] & _). done.
  - unfold exec. cbn [exec_effect]. unfold exec_data. case_decide; [by apply Hsame|]. destruct (_ =? _); [by apply Hsame|].
    destruct (write_outcome _ _ _) as [count code]. cbn [snd]. apply Hsame; case_decide; first [done|by split].
  - destruct (exec_stop m Hs) as (code & m' & -> & [] & _). done.
  - destruct (exec_clear m Hs) as (code & m' & -> & [] & _). done.
Qed.

Lemma run_served cs n : serviceable (net_model n) -> steady (net_model n) -> m_now (net_model n) <= n_now n -> horizon n < 2 ^ 61 ->
  Forall (sendable (m_profile (net_model n))) cs -> Forall (fun c => client_command c = true) cs ->
  exists t', served cs (n_now n) (net_model n) (run_commands cs n).1 t' (net_model (run_commands cs n).2) /\
    steady (net_model (run_commands cs n).2) /\ m_now (net_model (run_commands cs n).2) <= n_now (run_commands cs n).2.
Proof.
  revert n. induction cs as [|c cs IH]; intros n Hm Hs Hnow Hh Hc Hcc; cbn [run_commands].
  { exists (n_now n). split; [constructor|done]. }
  apply Forall_cons in Hc as [Hc Hcs], Hcc as [Hcc Hccs]. destruct (clock_keeps n) as (_ & Hpe1 & _). destruct (clock_later n) as [Hlat1 _].
  destruct (clock n) as [t0 n1]. cbn [snd] in Hpe1, Hlat1. pose proof (horizon_after n1) as Hh1.
  assert (Ht : n_now n <= n_now n1 < 2 ^ 61) by (destruct Hlat1; lia).
  assert (Hnm : net_model n1 = net_model n) by (unfold net_model; by rewrite Hpe1).
  pose proof (advance_passed (n_now n1) _ (svc_ok _ Hm) Hs ltac:(lia)) as Hpass.
  destruct (advance_keeps (n_now n1) (net_model n)) as (_ & _ & Hp & _). pose proof (advance_serviceable (n_now n1) _ Hm) as Ha.
  assert (Hc' : sendable (m_profile (advance_to (n_now n1) (net_model n))) c) by (by rewrite Hp).
  destruct (exec_ok c _ Hc' Ha) as (Hx & Hpx & _). destruct (exec_keeps _ c _ Hcc Hc' (ps_steady _ _ _ Hpass)) as [Hst1 Hst2].
  unfold post. rewrite Hnm. destruct (exec c (advance_to (n_now n1) (net_model n))) as [code m1] eqn:He. cbn [fst snd] in *.
  set (n2 := mkNet (n_now n1) (n_ticks n1) _ _). assert (Hh2 : horizon n2 < 2 ^ 61) by (destruct Hlat1 as [_ Hl]; change (horizon n2) with (horizon n1); lia).
  change m1 with (net_model n2) in Hx, Hpx, Hst1, Hst2. rewrite advance_now in Hst2.
  destruct (IH n2 Hx Hst1 ltac:(cbn [n_now n2]; lia) Hh2) as (t' & Hserved & Hend); [by rewrite Hpx, Hp|done|].
  destruct (run_commands cs n2) as [resps n3]. exists t'. split; [|exact Hend]. cbn [fst snd] in *.
  apply (served_cons c cs (n_now n) (n_now n1) (net_model n) code (net_model n2) resps); [done|done|apply Ha|done|exact He|exact Hserved].
Qed.

(** Submitting the backend's commands. *)
Lemma submit_served cs build s n : synced (s, n) -> cs <> [] ->
  wire_command (es_point_buffer (build (queue_commands s))) <$> es_command_buffer (build (queue_commands s)) = cs ->
  es_dac (build (queue_commands s)) = es_dac s -> Forall (sendable (m_profile (net_model n))) cs -> Forall (fun c => client_command c = true) cs ->
  exists resps t' s' n', submit (build (queue_commands s)) n = (first_nak resps, s', n') /\
    served cs (n_now n) (dac_of (s, n)) resps t' (dac_of (s', n')) /\ synced (s', n') /\ follows (s, n) (s', n').
Proof.
  intros Hs Hne Hw Hd Hc Hcc. set (s0 := build (queue_commands s)) in *. pose proof (sy_linked _ Hs) as Hl. cbn [fst snd] in Hl.
  assert (Hl0 : linked s0 n) by (destruct Hl as [? ? ? ?]; split; [done..|by rewrite Hd]).
  assert (Hsend : Forall (fun q => sendable (m_profile (net_model n)) (wire_command (es_point_buffer s0) q)) (es_command_buffer s0)) by (rewrite <- Hw in Hc; rewrite Forall_fmap in Hc; exact Hc).
  assert (Hne0 : es_command_buffer s0 <> []) by (intros He; rewrite He in Hw; by subst cs).
  pose proof (submit_ok s0 n Hl0 Hne0 Hsend) as Hsub. rewrite Hw in Hsub.
  destruct (run_served cs n (lk_model _ _ Hl) (sy_steady _ Hs) (sy_now _ Hs) (sy_time _ Hs) Hc Hcc) as (t' & Hserved & Hst & Hnow).
  pose proof (run_commands_later cs n) as Hlat1. destruct (run_commands cs n) as [resps n1]. cbn [fst snd] in *.
  destruct Hsub as (s' & n' & Hrun & Hlk & Hpeer & Hlat & Hrecv & _ & Hcap & Hrate & Hprof & Hsync).
  assert (Hm' : net_model n' = net_model n1) by (unfold net_model; by rewrite Hpeer). exists resps, t', s', n'. split; [exact Hrun|].
  assert (Hlater : later n n') by (by eapply later_trans). rewrite Hd in *. unfold dac_of. cbn [snd]. rewrite Hm'. split; [exact Hserved|]. split.
  - split; unfold dac_of, status_of, capacity_of; cbn [fst snd]; rewrite ?Hcap, ?Hprof; [done|done|by rewrite Hm'|rewrite Hm'; destruct Hlat; lia| |apply (sy_capacity _ Hs)].
    pose proof (sy_time _ Hs). destruct Hlater. cbn [snd] in *. lia.
  - split; unfold capacity_of, max_rate_of, dac_of in *; cbn [fst snd] in *; [done|done|by rewrite Hcap|by rewrite Hrate|done].
Qed.

(** One command. *)
Lemma served_one c t m resps t' m' : served [c] t m resps t' m' ->
  exists t1 code, t <= t1 < 2 ^ 61 /\ passed t1 m (advance_to t1 m) /\ model_ok (advance_to t1 m) /\ m_profile (advance_to t1 m) = m_profile m /\
    exec c (advance_to t1 m) = (code, m') /\ resps = [respond code (start_byte c) m'].
Proof. intros Hs. inversion Hs; subst. match goal with Hn : served [] _ _ _ _ _ |- _ => inversion Hn; subst end. by do 2 eexists. Qed.

(** ** Writing: the monad's rules *)

Abbreviation state := (EtherDreamBackend SimPeer * link)%type.

#[local] Existing Instance W_ret.
#[local] Existing Instance W_bind.

(** [c] ends in [Q], or returns early in [R]. *)
Definition wp {A} (c : W A) (Q : A -> state -> Prop) (R : result WriteOutcome -> state -> Prop) (w : state) : Prop :=
  match c w with (inl a, w') => Q a w' | (inr r, w') => R r w' end.

Lemma wp_bind {A B} (c : W A) (k : A -> W B) Q R w : wp c (fun a w' => wp (k a) Q R w') R w -> wp (W_bind A B k c) Q R w.
Proof. unfold wp, W_bind. by destruct (c w) as [[a|r] w']. Qed.

Lemma wp_ret {A} (a : A) (Q : A -> state -> Prop) R w : Q a w -> wp (W_ret A a) Q R w.
Proof. done. Qed.

Lemma wp_mono {A} (c : W A) (Q Q' : A -> state -> Prop) (R R' : result WriteOutcome -> state -> Prop) w :
  wp c Q R w -> (forall a w', Q a w' -> Q' a w') -> (forall r w', R r w' -> R' r w') -> wp c Q' R' w.
Proof. unfold wp. destruct (c w) as [[a|r] w']; auto. Qed.

Lemma wp_block {A} (Q : A -> state -> Prop) (R : result WriteOutcome -> state -> Prop) w : R (Ok WouldBlock) w -> wp would_block Q R w.
Proof. done. Qed.

Lemma wp_status (Q : Status -> state -> Prop) R w : Q (status_of w.2) w -> wp status_ Q R w.
Proof. by destruct w as [b [s n]]. Qed.

Lemma wp_backend (Q : EtherDreamBackend SimPeer -> state -> Prop) R w : Q w.1 w -> wp backend_ Q R w.
Proof. by destruct w as [b [s n]]. Qed.

Lemma wp_stream (Q : Stream -> state -> Prop) R w : Q w.2.1 w -> wp stream_ Q R w.
Proof. by destruct w as [b [s n]]. Qed.

Lemma wp_modify f (Q : unit -> state -> Prop) R w : Q tt (f w.1, w.2) -> wp (modify f) Q R w.
Proof. by destruct w as [b [s n]]. Qed.

(** Reading the clock changes nothing else. *)
Definition same_but_time (sn sn' : link) : Prop := sn'.1 = sn.1 /\ n_peer sn'.2 = n_peer sn.2 /\ later sn.2 sn'.2.

Lemma wp_instant (Q : Z -> state -> Prop) R w : synced w.2 ->
  (forall sn', synced sn' -> same_but_time w.2 sn' -> Q (n_now sn'.2) (w.1, sn')) -> wp instant Q R w.
Proof.
  destruct w as [b [s n]]. intros Hs HQ. unfold wp, instant. destruct (clock_keeps n) as (Hp & Hpe & _). destruct (clock_later n) as [Hl Ht].
  destruct (clock n) as [t n']. cbn [fst snd] in *. rewrite Ht. apply (HQ (s, n')); [|done].
  destruct Hs as [[] Hst Hsteady Hnow Htime Hcap]. unfold dac_of, status_of, capacity_of, net_model in *. cbn [fst snd] in *.
  split; unfold dac_of, status_of, capacity_of, net_model; cbn [fst snd]; rewrite ?Hpe; try done; [|destruct Hl; lia..].
  split; unfold net_model in *; rewrite ?Hpe, ?Hp; done.
Qed.

Lemma wp_submit cs build (Q : option CommunicationError -> state -> Prop) R w : synced w.2 -> cs <> [] ->
  wire_command (es_point_buffer (build (queue_commands w.2.1))) <$> es_command_buffer (build (queue_commands w.2.1)) = cs ->
  es_dac (build (queue_commands w.2.1)) = es_dac w.2.1 -> Forall (sendable (m_profile (dac_of w.2))) cs -> Forall (fun c => client_command c = true) cs ->
  (forall resps t' sn', served cs (n_now w.2.2) (dac_of w.2) resps t' (dac_of sn') -> synced sn' -> follows w.2 sn' -> Q (first_nak resps) (w.1, sn')) ->
  wp (submit_ build) Q R w.
Proof.
  destruct w as [b [s n]]. cbn [fst snd]. intros Hs Hne Hw Hd Hc Hcc HQ. unfold wp, submit_.
  destruct (submit_served cs build s n Hs Hne Hw Hd Hc Hcc) as (resps & t' & s' & n' & -> & Hserved & Hs' & Hf). by apply (HQ resps t' (s', n')).
Qed.

(** The admission's anchor is not earlier than the DAC's time while it plays. *)
Definition anchored (w : state) : Prop :=
  sd_playback (status_of w.2) = Playing -> exists t, eb_last_status_received w.1 = Some t /\ m_now (dac_of w.2) <= t.

Lemma wp_note_received (Q : unit -> state -> Prop) R w :
  Q tt (set_last_status_received (Some (es_status_received_at w.2.1)) w.1, w.2) -> wp note_received Q R w.
Proof. intros HQ. unfold note_received. apply wp_bind, wp_stream, wp_modify. exact HQ. Qed.

Lemma wp_note_status (Q : unit -> state -> Prop) R w :
  (forall b', eb_last_status_received b' = Some (es_status_received_at w.2.1) -> Q tt (b', w.2)) -> wp note_status Q R w.
Proof. intros HQ. unfold note_status. apply wp_bind, wp_note_received, wp_bind, wp_stream, wp_modify. by apply HQ. Qed.

(** Once the status of a submission is noted, the anchor holds. *)
Lemma noted_anchored b sn sn' : synced sn' -> follows sn sn' -> eb_last_status_received b = Some (es_status_received_at sn'.1) -> anchored (b, sn').
Proof. intros Hs Hf Hb _. cbn. exists (es_status_received_at sn'.1). split; [done|]. rewrite (fo_received _ _ Hf). apply (sy_now _ Hs). Qed.

(** ** The phases of a write *)

Definition is_ready (sn : link) : Prop := sd_light_engine (status_of sn) = LeReady.

Lemma engine_dac sn le : synced sn -> sd_light_engine (status_of sn) = le <-> m_light_engine (dac_of sn) = light_engine_to le.
Proof. intros Hs. destruct (synced_status sn Hs) as (_ & Hl & _). rewrite <- Hl. split; [by intros ->|]. by destruct (sd_light_engine (status_of sn)), le. Qed.

Lemma playback_dac sn pb : synced sn -> sd_playback (status_of sn) = pb <-> m_playback (dac_of sn) = playback_to pb.
Proof. intros Hs. destruct (synced_status sn Hs) as (Hp & _). rewrite <- Hp. split; [by intros ->|]. by destruct (sd_playback (status_of sn)), pb. Qed.

(** A DAC that is not ready is idle. *)
Lemma unready_idle sn : synced sn -> sd_light_engine (status_of sn) <> LeReady -> sd_playback (status_of sn) = Idle.
Proof.
  intros Hs Hl. apply playback_dac; [done|]. rewrite (engine_dac sn LeReady Hs) in Hl. destruct (ok_playback _ (synced_ok sn Hs)) as [|[_ Hr]]; [done|]. by rewrite Hr in Hl.
Qed.

(** From one state of the link to a later one: the points taken meanwhile. *)
Record moved (sn : link) (taken : list DacPoint) (sn' : link) : Prop := {
  mv_evolves : evolves (dac_of sn) taken (dac_of sn');
  mv_capacity : capacity_of sn' = capacity_of sn;
  mv_rate : max_rate_of sn' = max_rate_of sn;
  mv_profile : m_profile (dac_of sn') = m_profile (dac_of sn);
}.

Lemma moved_refl sn : moved sn [] sn.
Proof. split; [apply evolves_refl|done..]. Qed.

Lemma moved_trans sn xs sn1 ys sn2 : moved sn xs sn1 -> moved sn1 ys sn2 -> moved sn (xs ++ ys) sn2.
Proof. intros [] []. split; [by eapply evolves_trans|congruence..]. Qed.

Lemma moved_after sn sn1 sn2 : moved sn [] sn1 -> moved sn1 [] sn2 -> moved sn [] sn2.
Proof. apply (moved_trans sn [] sn1 [] sn2). Qed.

Lemma moved_follows sn taken sn' : follows sn sn' -> evolves (dac_of sn) taken (dac_of sn') -> moved sn taken sn'.
Proof. intros [] He. by split. Qed.

Lemma moved_time sn sn' : same_but_time sn sn' -> moved sn [] sn' /\ status_of sn' = status_of sn /\ dac_of sn' = dac_of sn.
Proof.
  intros (H1 & H2 & _). assert (Hd : dac_of sn' = dac_of sn) by (unfold dac_of, net_model; by rewrite H2). unfold status_of. rewrite H1. split; [|done].
  split; unfold capacity_of, max_rate_of; rewrite ?Hd, ?H1; [apply evolves_refl|done..].
Qed.

(** A command that passes time and then has its effect. *)
Lemma passed_then t m m1 taken m2 : passed t m m1 -> done_with m1 taken m2 -> evolves m taken m2.
Proof. intros Hp Hd. exact (evolves_trans _ _ _ _ _ (ps_evolves _ _ _ Hp) (dn_evolves _ _ _ Hd)). Qed.

Lemma sendable_simple p c : command_wf c -> command_rate c = None -> c <> Version -> sendable p c.
Proof. intros Hw Hr Hv. split; [done|]. split; [done|]. intros rate Hx. congruence. Qed.

Lemma nak_none code byte m : code = ACK -> nak_in (respond code byte m) = None.
Proof. by intros ->. Qed.

Lemma first_nak_one resp : first_nak [resp] = nak_in resp.
Proof. unfold first_nak. cbn. by destruct (nak_in resp). Qed.

(** A ping refreshes the status. *)
Lemma wp_ping (Q : option CommunicationError -> state -> Prop) R w : synced w.2 ->
  (forall sn', synced sn' -> follows w.2 sn' -> moved w.2 [] sn' -> (is_ready w.2 -> is_ready sn') ->
    (sd_playback (status_of w.2) = Idle -> sd_playback (status_of sn') = Idle) -> Q None (w.1, sn')) ->
  wp (submit_ queue_ping) Q R w.
Proof.
  intros Hs HQ. apply (wp_submit [Ping]); [done|done|by destruct w as [b [s n]]|by destruct w as [b [s n]]|apply Forall_singleton; by apply sendable_simple|by apply Forall_singleton|].
  intros resps t' sn' Hserved Hs' Hf. apply served_one in Hserved as (t1 & code & Ht & Hpass & _ & _ & Hex & ->). rewrite exec_ping in Hex. injection Hex as <- Hm'.
  rewrite first_nak_one. apply HQ; [done|done|apply moved_follows; [done|rewrite <- Hm'; apply (ps_evolves _ _ _ Hpass)]| |].
  - unfold is_ready. rewrite !engine_dac by done. rewrite <- Hm'. apply (ps_engine _ _ _ Hpass).
  - rewrite !playback_dac by done. rewrite <- Hm'. intros Hi. cbn in Hi. destruct (ps_waiting _ _ _ Hpass) as [-> _]; [by rewrite Hi|done].
Qed.

(** Clearing an emergency stop is acknowledged or refused with its own code. *)
Lemma wp_clear (Q : option CommunicationError -> state -> Prop) R w : synced w.2 -> sd_playback (status_of w.2) = Idle ->
  (forall r sn', synced sn' -> follows w.2 sn' -> moved w.2 [] sn' -> sd_playback (status_of sn') = Idle ->
    r = None \/ (exists e, r = Some e /\ nak_of e = Some NakStopCondition) -> Q r (w.1, sn')) ->
  wp (submit_ queue_clear_emergency_stop) Q R w.
Proof.
  intros Hs Hi HQ. apply (wp_submit [ClearEmergencyStop]); [done|done|by destruct w as [b [s n]]|by destruct w as [b [s n]]|apply Forall_singleton; by apply sendable_simple|by apply Forall_singleton|].
  intros resps t' sn' Hserved Hs' Hf. apply served_one in Hserved as (t1 & code & Ht & Hpass & _ & _ & Hex & ->).
  destruct (exec_clear (advance_to t1 (dac_of w.2)) (ps_steady _ _ _ Hpass)) as (code' & m' & Hx & Hd & Hp & Hcode). rewrite Hx in Hex. injection Hex as -> Hm'.
  rewrite first_nak_one. apply HQ; [done|done|apply moved_follows; [done|rewrite <- Hm'; by eapply passed_then]| |].
  - rewrite playback_dac in * by done. rewrite <- Hm', Hp. destruct (ps_waiting _ _ _ Hpass) as [-> _]; [by rewrite Hi|done].
  - destruct Hcode as [->| ->]; [by left|right]. by eexists.
Qed.

Definition blocked (sn : link) (r : result WriteOutcome) (w : state) : Prop :=
  r = Ok WouldBlock /\ synced w.2 /\ anchored w /\ moved sn [] w.2.

Lemma idle_anchored b sn : sd_playback (status_of sn) = Idle -> anchored (b, sn).
Proof. intros Hi Hp. cbn in Hp. congruence. Qed.

(** Clearing an emergency stop falls through only when the engine is ready. *)
Lemma wp_clear_estop b sn : synced sn -> sd_playback (status_of sn) = Idle ->
  wp clear_estop (fun _ w' => synced w'.2 /\ moved sn [] w'.2 /\ is_ready w'.2 /\ sd_playback (status_of w'.2) = Idle) (blocked sn) (b, sn).
Proof.
  intros Hs Hi. unfold clear_estop. apply wp_bind, wp_instant; [done|]. intros sn1 Hs1 Ht1. destruct (moved_time _ _ Ht1) as (Hm1 & Hst1 & _). cbn [fst snd] in *.
  assert (Hi1 : sd_playback (status_of sn1) = Idle) by congruence. apply wp_bind, wp_backend. destruct (negb _).
  { apply wp_block. split_and!; [done|done|by apply idle_anchored|done]. }
  apply wp_bind, wp_modify, wp_bind, wp_clear; [done|done|]. cbn [fst snd]. intros r sn2 Hs2 Hf2 Hm2 Hi2 Hr. assert (Hm02 : moved sn [] sn2) by (by eapply moved_after).
  apply wp_bind, wp_status. cbn [fst snd]. apply wp_bind.
  assert (Hrest : wp (r0 ← submit_ queue_ping; match r0 with Some e => fatal e | None => W_ret unit tt end;; status ← status_;
      if bool_decide (sd_light_engine status = LeEmergencyStop) then would_block else note_status;; (if estopped status then would_block else W_ret unit tt))
    (fun _ w' => synced w'.2 /\ moved sn [] w'.2 /\ is_ready w'.2 /\ sd_playback (status_of w'.2) = Idle) (blocked sn)
    (set_last_estop_attempt (Some (n_now sn1.2)) b, sn2)).
  { apply wp_bind, wp_ping; [done|]. cbn [fst snd]. intros sn3 Hs3 Hf3 Hm3 _ Hi3. specialize (Hi3 Hi2). assert (Hm03 : moved sn [] sn3) by (by eapply moved_after).
    apply wp_bind, wp_ret, wp_bind, wp_status. cbn [fst snd]. case_bool_decide.
    { apply wp_block. split_and!; [done|done|by apply idle_anchored|done]. }
    apply wp_bind, wp_note_status. intros b' Hb'. cbn [fst snd]. unfold estopped. case_bool_decide; cbn [negb].
    - by apply wp_ret.
    - apply wp_block. split_and!; [done|done|by apply idle_anchored|done]. }
  destruct Hr as [->|(e & -> & He)]; [by apply wp_ret|]. rewrite He. case_bool_decide; [|by apply wp_ret].
  apply wp_block. split_and!; [done|done|by apply idle_anchored|done].
Qed.

Lemma wp_check_light_engine b sn : synced sn -> anchored (b, sn) ->
  wp check_light_engine (fun _ w' => synced w'.2 /\ anchored w' /\ moved sn [] w'.2 /\ is_ready w'.2 /\ (w' = (b, sn) \/ sd_playback (status_of w'.2) = Idle /\ ~ is_ready sn))
    (fun r w' => blocked sn r w' /\ ~ is_ready sn) (b, sn).
Proof.
  intros Hs Ha. unfold check_light_engine. apply wp_bind, wp_status. cbn [snd]. unfold is_ready at 2 3.
  assert (Hwarm : sd_light_engine (status_of sn) <> LeReady -> wp await_warmup (fun _ w' => synced w'.2 /\ anchored w' /\ moved sn [] w'.2 /\ is_ready w'.2 /\ (w' = (b, sn) \/ sd_playback (status_of w'.2) = Idle /\ sd_light_engine (status_of sn) <> LeReady))
    (fun r w' => blocked sn r w' /\ sd_light_engine (status_of sn) <> LeReady) (b, sn)).
  { intros Hne. pose proof (unready_idle sn Hs Hne) as Hi. unfold await_warmup. apply wp_bind, wp_instant; [done|]. intros sn1 Hs1 Ht1.
    destruct (moved_time _ _ Ht1) as (Hm1 & Hst1 & _). cbn [fst snd] in *. assert (Hi1 : sd_playback (status_of sn1) = Idle) by congruence.
    apply wp_bind, wp_backend. destruct (interval_due _ _ _).
    - apply wp_bind, wp_modify, wp_bind, wp_ping; [done|]. cbn [fst snd]. intros sn2 Hs2 Hf2 Hm2 _ Hi2. apply wp_bind, wp_note_received. cbn [fst snd].
      apply wp_block. split; [|done]. split_and!; [done|done|apply idle_anchored; by apply Hi2|by eapply moved_after].
    - apply wp_block. split; [|done]. split_and!; [done|done|by apply idle_anchored|done]. }
  destruct (sd_light_engine (status_of sn)) eqn:He; [|by apply Hwarm|by apply Hwarm|].
  - apply wp_ret. split_and!; [done|done|apply moved_refl|done|by left].
  - eapply wp_mono; [apply wp_clear_estop; [done|apply unready_idle; congruence]|..].
    + intros [] [b' sn'] (H1 & H2 & H3 & H4). cbn [snd] in *. split_and!; [done|by apply idle_anchored|done|done|by right].
    + intros r w' Hw. done.
Qed.

(** ** Admission *)

(** Whenever the chunk's data reaches the DAC, what is left after [fullness] fits,
    unless the DAC has gone idle. *)
Definition roomy (fullness : Z) (sn : link) : Prop :=
  0 <= fullness <= capacity_of sn /\
  forall t, n_now sn.2 <= t < 2 ^ 61 -> m_playback (advance_to t (dac_of sn)) = PLAYBACK_IDLE \/
    Z.of_nat (length (m_ring (advance_to t (dac_of sn)))) + (capacity_of sn - fullness) <= fw_ring_points (m_profile (dac_of sn)).

Lemma dac_passed t sn : synced sn -> t < 2 ^ 61 -> passed t (dac_of sn) (advance_to t (dac_of sn)).
Proof. intros Hs Ht. apply advance_passed; [by apply synced_ok|apply Hs|done]. Qed.

(** A stream that is not playing keeps its ring. *)
Lemma roomy_waiting sn fullness : synced sn -> sd_playback (status_of sn) = Prepared ->
  fullness = Z.min (Z.of_nat (length (m_ring (dac_of sn)))) (capacity_of sn) -> roomy fullness sn.
Proof.
  intros Hs Hp ->. pose proof (sy_capacity _ Hs). pose proof (ok_ring _ (synced_ok _ Hs)). split; [lia|]. intros t Ht. right.
  rewrite playback_dac in Hp by done. destruct (ps_waiting _ _ _ (dac_passed t sn Hs ltac:(lia))) as [_ ->]; [by rewrite Hp|]. lia.
Qed.

(** While it plays, the decay from the time the reply arrived never counts a point
    as gone that is still there. *)
Lemma roomy_playing sn anchor : synced sn -> sd_playback (status_of sn) = Playing -> m_now (dac_of sn) <= anchor ->
  roomy (decay_fullness (n_now sn.2) (sd_buffer_fullness (status_of sn)) (capacity_of sn) (Some anchor) (sd_point_rate (status_of sn)) true) sn.
Proof.
  intros Hs Hp Ha. pose proof (synced_ok _ Hs) as Hm. pose proof (sy_capacity _ Hs) as Hcap. pose proof (ok_ring _ Hm) as Hring.
  destruct (synced_status sn Hs) as (_ & _ & -> & ->). rewrite playback_dac in Hp by done. rewrite Hp. cbn [Z.eqb playback_to PLAYBACK_PLAYING Pos.eqb].
  unfold decay_fullness. cbn [negb]. pose proof (profile_rate _ (ok_profile _ Hm)) as Hmax.
  assert (Hr : rate_ok (m_profile (dac_of sn)) (m_seg_rate (dac_of sn))) by (destruct (ok_playback _ Hm) as [Hi|[[Hi|[_ ?]] _]]; [by rewrite Hp in Hi..|done]).
  unfold rate_ok in Hr. set (m := dac_of sn) in *. set (now := n_now sn.2) in *.
  pose proof (decayed_not_ahead now anchor (m_seg_rate m) ltac:(lia)) as Hc. set (c := as_u16 _) in *.
  assert (Hc0 : 0 <= c) by (apply cast_int_range; lia). clearbody c.
  unfold roomy. set (f := sat_sub _ c). assert (Hf : f = Z.max 0 (Z.min (Z.of_nat (length (m_ring m))) (capacity_of sn) - c)) by done. clearbody f. split; [lia|]. intros t Ht.
  destruct (ps_playing _ _ _ (dac_passed t sn Hs ltac:(lia))) as [|(_ & _ & Hd)]; [done|by left|right].
  assert (Hmono : sat_sub now anchor * m_seg_rate m / NANOS_PER_SEC <= Z.max 0 (t - m_now m) * m_seg_rate m / NANOS_PER_SEC).
  { apply Z.div_le_mono; [done|]. apply Z.mul_le_mono_nonneg_r; [lia|]. unfold sat_sub. lia. }
  fold m in Hd. set (drained := Z.max 0 (t - m_now m) * m_seg_rate m / NANOS_PER_SEC) in *. set (claimed := sat_sub now anchor * m_seg_rate m / NANOS_PER_SEC) in *.
  fold m. clearbody drained claimed. lia.
Qed.

(** What admission leaves: a prepared or playing stream, with room. *)
Definition admitted (sn : link) (fullness : Z) (w : state) : Prop :=
  synced w.2 /\ anchored w /\ moved sn [] w.2 /\ is_ready w.2 /\ roomy fullness w.2 /\
  (sd_playback (status_of sn) = Idle /\ sd_playback (status_of w.2) = Prepared /\ fullness = 0 \/
   sd_playback (status_of sn) <> Idle /\ status_of w.2 = status_of sn /\
   (sd_playback (status_of sn) = Prepared -> fullness = Z.min (sd_buffer_fullness (status_of sn)) (capacity_of sn))).

Lemma wp_admission b sn R : synced sn -> anchored (b, sn) -> is_ready sn -> wp (admission_fullness (capacity_of sn)) (admitted sn) R (b, sn).
Proof.
  intros Hs Ha Hr. unfold admission_fullness. apply wp_bind, wp_status. cbn [snd]. case_bool_decide as Hi.
  - apply wp_bind, (wp_submit [PrepareStream]); cbn [fst snd]; [done|done|by destruct sn|by destruct sn|apply Forall_singleton; by apply sendable_simple|by apply Forall_singleton|].
    intros resps t' sn' Hserved Hs' Hf. apply served_one in Hserved as (t1 & code & Ht & Hpass & _ & _ & Hex & ->). unfold is_ready in Hr.
    pose proof Hi as Hid. rewrite playback_dac in Hid by done. rewrite engine_dac in Hr by done. destruct (ps_waiting _ _ _ Hpass) as [Hp1 _]; [by rewrite Hid|].
    destruct (exec_prepare (advance_to t1 (dac_of sn)) (ps_steady _ _ _ Hpass)) as (m' & Hx & Hd & Hp & Hring); [by rewrite Hp1, Hid|by apply (ps_engine _ _ _ Hpass)|].
    rewrite Hx in Hex. injection Hex as <- Hm'. rewrite first_nak_one, nak_none by done. apply wp_bind, wp_note_received. cbn [fst snd]. apply wp_ret.
    assert (Hprep : sd_playback (status_of sn') = Prepared) by (rewrite playback_dac by done; by rewrite <- Hm'). pose proof (sy_capacity _ Hs').
    split_and!; cbn [fst snd]; [done|by apply (noted_anchored _ sn)|apply moved_follows; [done|rewrite <- Hm'; by eapply passed_then]| | |left; split_and!; done].
    + unfold is_ready. rewrite engine_dac by done. rewrite <- Hm'. by apply (dn_engine _ _ _ Hd), (ps_engine _ _ _ Hpass).
    + apply roomy_waiting; [done|done|]. rewrite <- Hm', Hring. cbn [length]. lia.
  - apply wp_bind, wp_backend. cbn [fst snd]. destruct (sd_playback (status_of sn)) eqn:Hpb; [done|..].
    + rewrite bool_decide_eq_false_2 by done. destruct (synced_status sn Hs) as (_ & _ & Hfull & _). apply wp_bind.
      assert (Hok : admitted sn (Z.min (sd_buffer_fullness (status_of sn)) (capacity_of sn)) (b, sn)).
      { split_and!; cbn [fst snd]; [done|done|apply moved_refl|done| |right; by rewrite Hpb]. apply roomy_waiting; [done|done|]. by rewrite Hfull. }
      destruct (eb_last_status_received b); by apply wp_ret, wp_ret.
    + destruct Ha as (anchor & Ha & Hle); [done|]. cbn [fst snd] in *. rewrite Ha. apply wp_bind. rewrite bool_decide_eq_true_2 by done.
      apply wp_instant; [done|]. intros sn1 Hs1 Ht1. destruct (moved_time _ _ Ht1) as (Hm1 & Hst1 & Hd1). cbn [fst snd] in *. apply wp_ret.
      assert (Hrate : (if 0 <? sd_point_rate (status_of sn) then sd_point_rate (status_of sn) else eb_last_point_rate b) = sd_point_rate (status_of sn)).
      { destruct (Z.ltb_spec 0 (sd_point_rate (status_of sn))) as [|Hle0]; [done|exfalso]. destruct (synced_status sn Hs) as (_ & _ & _ & Hrt). rewrite Hrt in Hle0.
        rewrite playback_dac in Hpb by done. rewrite Hpb in Hle0. cbn in Hle0. pose proof (synced_ok _ Hs) as Hm.
        destruct (ok_playback _ Hm) as [Hx|[[Hx|[_ [Hx _]]] _]]; [by rewrite Hpb in Hx..|lia]. }
      rewrite Hrate. split_and!; cbn [fst snd]; [done| |done|unfold is_ready; by rewrite Hst1| |right; split_and!; [congruence|done|congruence]].
      * intros _. exists anchor. cbn [fst snd]. by rewrite Hd1.
      * rewrite <- Hst1, <- (mv_capacity _ _ _ Hm1). apply roomy_playing; [done|congruence|by rewrite Hd1].
Qed.

(** ** Sending *)

(** A rate the DAC takes. *)
Definition sendable_rate (sn : link) (rate : Z) : Prop := rate_ok (m_profile (dac_of sn)) rate.

Lemma sendable_begin sn rate : synced sn -> sendable_rate sn rate ->
  sendable (m_profile (dac_of sn)) (Begin 0 rate) /\ sendable (m_profile (dac_of sn)) (Update 0 rate).
Proof.
  intros Hs Hr. pose proof (profile_rate _ (ok_profile _ (synced_ok _ Hs))). unfold sendable_rate, rate_ok in *.
  split; (split; [cbn; lia|]); (split; [done|]); intros r [= <-]; unfold rate_ok; lia.
Qed.

(** Beginning a prepared stream starts it. *)
Lemma wp_begin rate (Q : option CommunicationError -> state -> Prop) R w : synced w.2 -> is_ready w.2 -> sendable_rate w.2 rate ->
  sd_playback (status_of w.2) = Prepared ->
  (forall sn', synced sn' -> follows w.2 sn' -> moved w.2 [] sn' -> is_ready sn' -> sd_playback (status_of sn') = Playing -> Q None (w.1, sn')) ->
  wp (submit_ (queue_begin 0 rate)) Q R w.
Proof.
  intros Hs Hr Hrate Hp HQ. destruct (sendable_begin _ _ Hs Hrate) as [Hb _].
  apply (wp_submit [Begin 0 rate]); [done|done|by destruct w as [b [s n]]|by destruct w as [b [s n]]|by apply Forall_singleton|by apply Forall_singleton|].
  intros resps t' sn' Hserved Hs' Hf. apply served_one in Hserved as (t1 & code & Ht & Hpass & _ & _ & Hex & ->).
  unfold is_ready in *. rewrite playback_dac in Hp by done. rewrite engine_dac in Hr by done. destruct (ps_waiting _ _ _ Hpass) as [Hp1 _]; [by rewrite Hp|].
  unfold sendable_rate, rate_ok in Hrate.
  destruct (exec_begin 0 rate (advance_to t1 (dac_of w.2)) (ps_steady _ _ _ Hpass)) as (m' & Hx & Hd & Hpl); [by rewrite Hp1, Hp|lia|].
  rewrite Hx in Hex. injection Hex as <- Hm'. rewrite first_nak_one, nak_none by done.
  apply HQ; [done|done|apply moved_follows; [done|rewrite <- Hm'; by eapply passed_then]| |].
  - rewrite engine_dac by done. rewrite <- Hm'. by apply (dn_engine _ _ _ Hd), (ps_engine _ _ _ Hpass).
  - rewrite playback_dac by done. by rewrite <- Hm'.
Qed.

(** A refused chunk, and why: it is larger than the ring, or the DAC plays. *)
Definition refused (sn : link) (len : Z) (r : result WriteOutcome) (w : state) : Prop :=
  blocked sn r w /\ is_ready w.2 /\ (len <= capacity_of sn -> sd_playback (status_of sn) <> Idle /\ sd_playback (status_of w.2) = Playing).

Lemma wp_no_room {Q : bool -> state -> Prop} sn rate fullness len w : admitted sn fullness w -> sendable_rate sn rate -> capacity_of sn - fullness < len ->
  wp (no_room rate) Q (refused sn len) w.
Proof.
  destruct w as [b sn1]. intros (Hs & Ha & Hm & Hr & Hroom & Hcase) Hrate Hlen. unfold no_room. cbn [fst snd] in *. apply wp_bind, wp_status. cbn [snd].
  case_bool_decide as Hp; cbn [andb].
  - destruct (Z.ltb_spec 0 (sd_buffer_fullness (status_of sn1))) as [Hfull|Hempty].
    + apply wp_bind, wp_begin; cbn [fst snd]; [done|done|unfold sendable_rate; by rewrite (mv_profile _ _ _ Hm)|done|]. intros sn2 Hs2 Hf2 Hm2 Hr2 Hp2. cbn [fst snd].
      apply wp_bind, wp_ret, wp_bind, wp_modify, wp_bind, wp_note_status. intros b' Hb'. cbn [fst snd] in *. apply wp_block.
      split; [split_and!; [done|done|by apply (noted_anchored _ sn1)|by eapply moved_after]|]. split; [done|]. intros Hle. split; [|done].
      destruct Hcase as [(_ & _ & ->)|[? _]]; [lia|done].
    + apply wp_block. split; [by split_and!|]. split; [done|]. intros Hle. exfalso.
      destruct Hcase as [(_ & _ & ->)|(_ & Hst & Hf)]; [lia|]. rewrite Hst in *. rewrite (Hf Hp) in Hlen. lia.
  - apply wp_block. split; [by split_and!|]. split; [done|]. intros Hle. cbn [snd].
    destruct Hcase as [(_ & ? & _)|(Hi & Hst & _)]; [done|]. split; [done|]. rewrite Hst in *. by destruct (sd_playback (status_of sn)).
Qed.

(** The queue of a data command, alone or with a rate switch behind it. *)
Lemma queue_data_wire pts s : Z.of_nat (length pts) < 2 ^ 16 ->
  let s1 := queue_data pts (queue_commands s) in
  wire_command (es_point_buffer s1) <$> es_command_buffer s1 = [Data pts] /\ es_dac s1 = es_dac s.
Proof.
  intros Hl. unfold queue_data. cbn [es_point_buffer queue_commands set_point_buffer set_command_buffer length app]. rewrite decide_False by (unfold umax; lia).
  unfold push_command. cbn. rewrite Nat.sub_0_r, firstn_all. done.
Qed.

(** The chunk's data at the DAC: taken whole, or dropped because the DAC ran dry. *)
Lemma data_arrives sn fullness pts t code m' : synced sn -> sd_playback (status_of sn) <> Idle -> roomy fullness sn ->
  pts <> [] -> Z.of_nat (length pts) <= capacity_of sn - fullness -> n_now sn.2 <= t < 2 ^ 61 -> passed t (dac_of sn) (advance_to t (dac_of sn)) ->
  m_profile (advance_to t (dac_of sn)) = m_profile (dac_of sn) -> exec (Data pts) (advance_to t (dac_of sn)) = (code, m') ->
  code = ACK /\ done_with (advance_to t (dac_of sn)) pts m' /\ m_playback m' = m_playback (advance_to t (dac_of sn)) /\ m_playback m' <> PLAYBACK_IDLE \/
  sd_playback (status_of sn) = Playing /\ done_with (advance_to t (dac_of sn)) [] m' /\ m_playback m' = PLAYBACK_IDLE /\ (code = ACK \/ code = NAK_INVALID).
Proof.
  intros Hs Hni [_ Hroom] Hne Hlen Ht Hpass Hprof Hex. destruct (Z.eq_dec (m_playback (advance_to t (dac_of sn))) PLAYBACK_IDLE) as [Hi|Hi].
  - right. destruct (exec_data_idle pts _ (ps_steady _ _ _ Hpass) Hi) as (code' & m1 & Hx & Hd & Hp & Hc). rewrite Hx in Hex. injection Hex as -> ->.
    split_and!; [|done|done|done]. apply playback_dac; [done|]. destruct (Z.eq_dec (m_playback (dac_of sn)) PLAYBACK_PLAYING) as [|Hnp]; [done|].
    destruct (ps_waiting _ _ _ Hpass Hnp) as [Hw _]. rewrite playback_dac in Hni by done. by rewrite <- Hw, Hi in Hni.
  - left. destruct (exec_data_room pts _ (ps_steady _ _ _ Hpass) Hi Hne) as (m1 & Hx & Hd & Hp).
    { destruct (Hroom t Ht) as [|Hfit]; [done|]. rewrite Hprof. lia. }
    rewrite Hx in Hex. injection Hex as <- <-. by rewrite Hp.
Qed.

Definition sent (sn : link) (pts : list DacPoint) (switching : bool) (r : option CommunicationError) (w : state) : Prop :=
  synced w.2 /\ is_ready w.2 /\ follows sn w.2 /\
  (r = None /\ moved sn pts w.2 /\ (sd_playback (status_of sn) = Prepared -> sd_playback (status_of w.2) = Prepared) /\
     (sd_playback (status_of w.2) = Idle -> switching = true) \/
   sd_playback (status_of sn) = Playing /\ moved sn [] w.2 /\ sd_playback (status_of w.2) = Idle /\
     (r = None \/ exists e, r = Some e /\ nak_of e = Some NakInvalid /\ nak_command e = Some 100)).

Definition switches (sn : link) (rate : Z) : bool := bool_decide (sd_playback (status_of sn) = Playing) && negb (sd_point_rate (status_of sn) =? rate).

Lemma sendable_data sn pts : Forall dac_point_wf pts -> Z.of_nat (length pts) < 2 ^ 16 -> sendable (m_profile (dac_of sn)) (Data pts).
Proof. intros Hw Hl. apply sendable_simple; [by split|done|done]. Qed.

Lemma wp_send_data b sn fullness rate points (R : result WriteOutcome -> state -> Prop) : synced sn -> is_ready sn -> sendable_rate sn rate -> sd_playback (status_of sn) <> Idle ->
  roomy fullness sn -> points <> [] -> Forall point_wf points -> Z.of_nat (length points) < 2 ^ 16 -> Z.of_nat (length points) <= capacity_of sn - fullness ->
  wp (send_data rate points) (sent sn (dac_point_of <$> points) (switches sn rate)) R (b, sn).
Proof.
  intros Hs Hr Hrate Hni Hroom Hne Hwf Hl16 Hlen. unfold send_data. apply wp_bind, wp_status. cbn [snd]. fold (switches sn rate).
  set (pts := dac_point_of <$> points). assert (Hpl : length pts = length points) by apply length_fmap.
  assert (Hpne : pts <> []) by (by destruct points). assert (Hpwf : Forall dac_point_wf pts) by (apply Forall_fmap; eapply Forall_impl; [exact Hwf|]; apply dac_point_of_wf).
  rewrite <- Hpl in Hl16, Hlen. clearbody pts. pose proof (sendable_data sn pts Hpwf Hl16) as Hsd. destruct (sendable_begin _ _ Hs Hrate) as [_ Hsu].
  destruct (queue_data_wire pts sn.1 Hl16) as [Hw Hd]. unfold sendable_rate, rate_ok in Hrate.
  unfold is_ready in Hr. rewrite engine_dac in Hr by done. destruct (switches sn rate) eqn:Hsw.
  - apply (wp_submit [Data pts; Update 0 rate]); cbn [fst snd]; [done|done| |by rewrite <- Hd|by repeat (constructor; [done|])|by repeat constructor|].
    { unfold queue_update, push_command. cbn [es_point_buffer es_command_buffer set_command_buffer]. by rewrite fmap_app, Hw. }
    intros resps t' sn' Hserved Hs' Hf. inversion Hserved as [|? ? ? t1 ? code m1 resps1 ? ? Ht1 Hp1 Hok1 Hpr1 Hx1 Hs1]; subst.
    destruct (data_arrives sn fullness pts t1 code m1) as [(-> & Hd1 & Hpl1 & Hni1)|(Hpb & Hd1 & Hi1 & Hcode)]; try done;
      apply served_one in Hs1 as (t2 & code2 & Ht2 & Hp2 & _ & _ & Hx2 & ->);
      destruct (exec_update 0 rate (advance_to t2 m1) (ps_steady _ _ _ Hp2) ltac:(lia)) as (m2 & Hx & Hd2 & Hpb2); rewrite Hx in Hx2; injection Hx2 as <- Hm2;
      (assert (Hready : is_ready sn') by (unfold is_ready; rewrite engine_dac by done; rewrite <- Hm2;
         by apply (dn_engine _ _ _ Hd2), (ps_engine _ _ _ Hp2), (dn_engine _ _ _ Hd1), (ps_engine _ _ _ Hp1)));
      (split; [done|split; [done|split; [done|]]]); cbn [fst snd].
    + left. split; [done|]. split.
      { apply moved_follows; [done|]. rewrite <- Hm2, <- (app_nil_r pts). eapply evolves_trans; [by eapply passed_then|by eapply passed_then]. }
      split; [|done]. unfold switches in Hsw. case_bool_decide as Hplay; [|done]. by rewrite Hplay.
    + right. split; [done|]. split.
      { apply moved_follows; [done|]. rewrite <- Hm2. apply (evolves_trans _ [] m1 []); by eapply passed_then. }
      split.
      { apply playback_dac; [done|]. rewrite <- Hm2, Hpb2. destruct (ps_waiting _ _ _ Hp2) as [-> _]; [by rewrite Hi1|done]. }
      destruct Hcode as [->| ->]; [by left|right]. eexists. split_and!; reflexivity.
  - apply (wp_submit [Data pts]); cbn [fst snd]; [done|done|exact Hw|exact Hd|by apply Forall_singleton|by apply Forall_singleton|].
    intros resps t' sn' Hserved Hs' Hf. apply served_one in Hserved as (t1 & code & Ht1 & Hp1 & _ & Hpr1 & Hx1 & ->). rewrite first_nak_one.
    destruct (data_arrives sn fullness pts t1 code (dac_of sn')) as [(-> & Hd1 & Hpl1 & Hni1)|(Hpb & Hd1 & Hi1 & Hcode)]; try done;
      (assert (Hready : is_ready sn') by (unfold is_ready; rewrite engine_dac by done; by apply (dn_engine _ _ _ Hd1), (ps_engine _ _ _ Hp1)));
      (split; [done|split; [done|split; [done|]]]); cbn [fst snd].
    + left. split; [done|]. split; [apply moved_follows; [done|by eapply passed_then]|]. split.
      * rewrite !playback_dac by done. intros Hprep. rewrite Hpl1. by destruct (ps_waiting _ _ _ Hp1) as [-> _]; [rewrite Hprep|].
      * rewrite playback_dac by done. intros Hi. by rewrite Hi in Hni1.
    + right. split; [done|]. split; [apply moved_follows; [done|by eapply passed_then]|]. split; [by apply playback_dac|].
      destruct Hcode as [->| ->]; [by left|right]. eexists. split_and!; reflexivity.
Qed.

(** ** A pass, and a write *)

(** A pass ends with the chunk in the ring, or asks for another one on a DAC that ran
    dry; the chunk can only have been taken before that if a rate switch followed it. *)
Definition passed_on (sn : link) (pts : list DacPoint) (rate : Z) (retried again : bool) (w : state) : Prop :=
  synced w.2 /\ is_ready w.2 /\ (exists sn0, follows sn0 w.2) /\
  if again then
    retried = false /\ sd_playback (status_of sn) = Playing /\ sd_playback (status_of w.2) = Idle /\ Z.of_nat (length pts) <= capacity_of sn /\
    exists taken, moved sn taken w.2 /\ (taken = [] \/ taken = pts /\ switches sn rate = true)
  else moved sn pts w.2.

Lemma wp_judge sn pts switching retried r w (R : result WriteOutcome -> state -> Prop) : sent sn pts switching r w -> (retried = true -> sd_playback (status_of sn) <> Playing) ->
  wp (judge_send retried r) (fun again w' => w'.2 = w.2 /\ (again = true -> retried = false /\ sd_playback (status_of sn) = Playing /\ sd_playback (status_of w.2) = Idle /\ moved sn [] w.2) /\
    (again = false -> r = None)) R w.
Proof.
  destruct w as [b sn1]. intros (Hs & Hr & Hf & Hcase) Hret. cbn [fst snd] in *. unfold judge_send.
  destruct Hcase as [(-> & _)|(Hp & Hm & Hi & [->|(e & -> & Hn & Hc)])]; [by apply wp_ret|by apply wp_ret|].
  rewrite Hc, Hn. rewrite bool_decide_eq_false_2 by done. apply wp_bind, wp_status. cbn [snd]. rewrite Hi. apply wp_bind, wp_note_received. cbn [fst snd].
  rewrite bool_decide_eq_true_2 by done. destruct retried; [by destruct Hret|]. by apply wp_ret.
Qed.

Lemma wp_begin_if_filled retried rate threshold (Q : bool -> state -> Prop) R w : synced w.2 -> is_ready w.2 -> sendable_rate w.2 rate ->
  (exists sn0, follows sn0 w.2) -> (forall sn', synced sn' -> is_ready sn' -> (exists sn0, follows sn0 sn') -> moved w.2 [] sn' -> Q false (w.1, sn')) ->
  wp (begin_if_filled retried rate threshold) Q R w.
Proof.
  intros Hs Hr Hrate Hf HQ. unfold begin_if_filled. apply wp_bind, wp_status. case_bool_decide as Hp; cbn [andb].
  - destruct (_ <=? _).
    + apply wp_bind, wp_begin; [done..|]. intros sn' Hs' Hf' Hm' Hr' Hp'. apply wp_bind, wp_status. cbn [snd]. apply wp_bind, wp_ret, wp_ret.
      rewrite Hp'. rewrite bool_decide_eq_false_2 by done. cbn [andb]. apply HQ; [done|done|by eexists|done].
    + apply wp_ret. destruct w. apply HQ; [done..|apply moved_refl].
  - apply wp_ret. destruct w. apply HQ; [done..|apply moved_refl].
Qed.

Lemma wp_pass b sn retried rate threshold points : synced sn -> anchored (b, sn) -> is_ready sn -> sendable_rate sn rate ->
  points <> [] -> Forall point_wf points -> Z.of_nat (length points) < 2 ^ 16 -> (retried = true -> sd_playback (status_of sn) = Idle) ->
  wp (write_pass retried (capacity_of sn) rate threshold points) (passed_on sn (dac_point_of <$> points) rate retried)
    (refused sn (Z.of_nat (length points))) (b, sn).
Proof.
  intros Hs Ha Hr Hrate Hne Hwf Hl16 Hret. unfold write_pass. apply wp_bind. eapply wp_mono; [by apply wp_admission| |intros r w' Hw; exact Hw].
  intros fullness w1 Hadm. pose proof Hadm as (Hs1 & Ha1 & Hm1 & Hr1 & Hroom1 & Hcase1). pose proof (proj1 Hroom1) as Hfull. rewrite (mv_capacity _ _ _ Hm1) in Hfull.
  unfold sat_sub. rewrite Z.max_r by lia. destruct (Z.ltb_spec (capacity_of sn - fullness) (Z.of_nat (length points))) as [Hlt|Hge].
  { by eapply wp_no_room. }
  destruct w1 as [b1 sn1]. cbn [fst snd] in *. assert (Hrate1 : sendable_rate sn1 rate) by (unfold sendable_rate; by rewrite (mv_profile _ _ _ Hm1)).
  set (pts := dac_point_of <$> points). assert (Hpl : length pts = length points) by apply length_fmap.
  apply wp_bind. eapply wp_mono; [apply (wp_send_data b1 sn1 fullness rate points); try done| |intros r w' Hw; exact Hw].
  { destruct Hcase1 as [(_ & -> & _)|(Hi & -> & _)]; done. }
  { by rewrite (mv_capacity _ _ _ Hm1). }
  intros r w2 Hsent. apply wp_bind. eapply wp_mono; [eapply wp_judge; [exact Hsent|]| |intros r' w' Hw; exact Hw].
  { intros Ht. destruct Hcase1 as [(_ & -> & _)|(Hi & _)]; [done|]. by destruct Hi; apply Hret. }
  destruct Hsent as (Hs2 & Hr2 & Hf2 & Hcase2).
  assert (Hagain : retried = false -> sd_playback (status_of sn1) = Playing -> sd_playback (status_of w2.2) = Idle -> forall taken, moved sn1 taken w2.2 ->
    (taken = [] \/ taken = pts /\ switches sn1 rate = true) -> forall b2, passed_on sn pts rate retried true (b2, w2.2)).
  { intros Hnr Hp Hi taken Hmv Htk b2. destruct Hcase1 as [(_ & Hx & _)|(_ & Hst & _)]; [congruence|].
    split_and!; cbn [fst snd]; [done|done|by eexists|done|congruence|done|rewrite Hpl; lia|]. exists taken. split; [by apply (moved_trans sn [] sn1)|].
    unfold switches in *. by rewrite <- Hst. }
  intros again [b3 sn3] (Heq & Htrue & Hfalse). cbn [snd] in Heq. subst sn3. destruct again.
  { apply wp_ret. destruct Htrue as (? & ? & ? & ?); [done|]. apply (Hagain ltac:(done) ltac:(done) ltac:(done) []); auto. }
  apply wp_bind, wp_status. cbn [snd]. case_bool_decide as Hi2; cbn [andb].
  - destruct retried; cbn [negb].
    + exfalso. destruct Hcase1 as [(_ & Hprep & _)|(Hi & _)]; [|by destruct Hi; apply Hret].
      destruct Hcase2 as [(_ & _ & Hx & _)|(Hx & _)]; [by rewrite Hx in Hi2|congruence].
    + apply wp_ret. destruct Hcase2 as [(_ & Hmv & Hx & Hsw)|(Hpl1 & Hmv & _)]; [|apply (Hagain eq_refl Hpl1 Hi2 []); auto].
      apply (Hagain ltac:(done)) with (taken := pts); [|done|done|right; auto]. destruct (sd_playback (status_of sn1)) eqn:Hpb; [|by rewrite Hx in Hi2|done].
      destruct Hcase1 as [(_ & ? & _)|(Hni & Hst & _)]; [congruence|]. by rewrite <- Hst in Hni.
  - destruct Hcase2 as [(_ & Hmv & _)|(_ & _ & ? & _)]; [|done].
    apply wp_begin_if_filled; cbn [fst snd]; [done|done|unfold sendable_rate; by rewrite (mv_profile _ _ _ Hmv)|by eexists|].
    intros sn3 Hs3 Hr3 Hf3 Hm3. split_and!; cbn [fst snd]; [done..|]. rewrite <- (app_nil_r pts). eapply moved_trans; [|exact Hm3]. by apply (moved_trans sn [] sn1).
Qed.

(** The rates the backend asks for are never zero and never above the DAC's limit. *)
Lemma clamp_rate_ok pps max : 1 <= max -> 1 <= clamp_rate pps max <= max.
Proof. intros Hm. unfold clamp_rate, clamp. lia. Qed.

Lemma chunk_rate_ok sn pps : synced sn -> sendable_rate sn (clamp_rate pps (max_rate_of sn)).
Proof.
  intros Hs. destruct (lk_rate _ _ (sy_linked _ Hs)) as [Hr Hpos]. unfold sendable_rate, rate_ok, max_rate_of, effective_max_rate.
  destruct (Z.eqb_spec (ad_max_point_rate (es_dac sn.1)) 0); [lia|]. pose proof (clamp_rate_ok pps (ad_max_point_rate (es_dac sn.1)) ltac:(lia)).
  unfold dac_of. rewrite <- Hr. lia.
Qed.

(** What a write does: nothing is taken, or the whole chunk is. *)
Definition wrote (sn : link) (pps : Z) (points : list LaserPoint) (r : result WriteOutcome) (w : state) : Prop :=
  synced w.2 /\ anchored w /\
  (r = Ok WouldBlock /\ moved sn [] w.2 /\
     (is_ready sn -> Z.of_nat (length points) <= capacity_of sn -> sd_playback (status_of sn) <> Idle /\ sd_playback (status_of w.2) = Playing) \/
   r = Ok Written /\ exists taken, moved sn taken w.2 /\
     (taken = (dac_point_of <$> points) \/
      taken = (dac_point_of <$> points) ++ (dac_point_of <$> points) /\ switches sn (clamp_rate pps (max_rate_of sn)) = true)).

Lemma switches_idle sn rate : sd_playback (status_of sn) = Idle -> switches sn rate = false.
Proof. intros Hi. unfold switches. by rewrite Hi. Qed.

(** The end of a successful write. *)
Lemma wp_written sn pps rate points taken w : synced w.2 -> (exists sn0, follows sn0 w.2) -> moved sn taken w.2 ->
  (taken = (dac_point_of <$> points) \/
   taken = (dac_point_of <$> points) ++ (dac_point_of <$> points) /\ switches sn (clamp_rate pps (max_rate_of sn)) = true) ->
  wp (modify (set_last_point_rate rate);; note_status;; return_ (Ok Written) : W unit) (fun _ _ => False) (wrote sn pps points) w.
Proof.
  intros Hs [sn0 Hf] Hm Ht. apply wp_bind, wp_modify, wp_bind, wp_note_status. intros b' Hb'. cbn [fst snd] in *. unfold wp, return_.
  split; [done|]. split; [by apply (noted_anchored _ sn0)|]. right. split; [done|]. by exists taken.
Qed.

Lemma wp_write_body b sn pps points : synced sn -> anchored (b, sn) -> points <> [] -> Forall point_wf points -> Z.of_nat (length points) < 2 ^ 16 ->
  wp (write_body pps points) (fun _ _ => False) (wrote sn pps points) (b, sn).
Proof.
  intros Hs Ha Hne Hwf Hl16. unfold write_body. apply wp_bind. eapply wp_mono; [by apply wp_check_light_engine| |].
  2:{ intros r w' [(-> & H1 & H2 & H3) Hnr]. split; [done|]. split; [done|]. left. split; [done|]. split; [done|]. by intros ?%Hnr. }
  intros [] [b1 sn1] (Hs1 & Ha1 & Hm1 & Hr1 & Hsame). cbn [fst snd] in *. apply wp_bind, wp_stream. cbn [snd fst]. apply wp_bind, wp_instant; [done|].
  intros sn2 Hs2 Ht2. cbn [fst snd] in *. destruct (moved_time _ _ Ht2) as (Hm2 & Hst2 & Hd2).
  set (rate := clamp_rate pps (effective_max_rate (ad_max_point_rate (es_dac sn1.1)))). set (thr := begin_threshold _ _).
  assert (Hrate : rate = clamp_rate pps (max_rate_of sn)) by (unfold rate; fold (max_rate_of sn1); by rewrite (mv_rate _ _ _ Hm1)).
  assert (Hrate2 : sendable_rate sn2 rate) by (rewrite Hrate, <- (mv_rate _ _ _ Hm1), <- (mv_rate _ _ _ Hm2); by apply chunk_rate_ok).
  assert (Hcap : effective_capacity (ad_buffer_capacity (es_dac sn1.1)) = capacity_of sn2) by (fold (capacity_of sn1); by rewrite (mv_capacity _ _ _ Hm2)). rewrite Hcap.
  assert (Ha2 : anchored (b1, sn2)) by (unfold anchored in *; cbn [fst snd] in *; by rewrite Hst2, Hd2).
  assert (Hr2 : is_ready sn2) by (unfold is_ready; by rewrite Hst2). assert (Hm02 : moved sn [] sn2) by (by eapply moved_after). clearbody rate thr.
  set (pts := dac_point_of <$> points). assert (Hpl : length pts = length points) by apply length_fmap.
  assert (Hready : is_ready sn -> status_of sn2 = status_of sn) by (intros Hx; destruct Hsame as [[= _ ->]|[_ []]]; done).
  apply wp_bind. eapply wp_mono; [by apply wp_pass| |].
  2:{ intros r w' ((-> & H1 & H2 & H3) & _ & Hwhy). split; [done|]. split; [done|]. left. split; [done|]. split; [by eapply moved_after|].
      intros Hx Hle. rewrite <- (Hready Hx). apply Hwhy. by rewrite (mv_capacity _ _ _ Hm02). }
  intros again [b3 sn3] (Hs3 & Hr3 & Hf3 & Hcase). cbn [fst snd] in *. destruct again.
  - destruct Hcase as (_ & Hplay & Hi3 & Hle & taken & Hm3 & Htaken). apply wp_bind, wp_bind.
    assert (Hcap3 : capacity_of sn2 = capacity_of sn3) by (symmetry; apply Hm3). rewrite Hcap3.
    eapply wp_mono; [apply wp_pass; try done; [by apply idle_anchored|unfold sendable_rate; by rewrite (mv_profile _ _ _ Hm3)]| |].
    + intros again [b4 sn4] (Hs4 & Hr4 & Hf4 & Hc4). cbn [fst snd] in *. apply wp_ret. destruct again; [by destruct Hc4|].
      assert (Hsw : switches sn2 rate = true -> switches sn (clamp_rate pps (max_rate_of sn)) = true).
      { rewrite <- Hrate. unfold switches. rewrite Hst2. destruct Hsame as [[= _ ->]|[Hi _]]; [done|]. by rewrite Hi. }
      apply (wp_written _ _ _ _ (taken ++ pts)); cbn [fst snd]; [done|done|apply (moved_trans sn [] sn2); [done|]; by eapply moved_trans|].
      destruct Htaken as [->|[-> Hx]]; [by left|right; auto].
    + intros r w' ((-> & _) & _ & Hwhy). destruct Hwhy as [Hx _]; [|done]. rewrite <- Hcap3. rewrite length_fmap in Hle. exact Hle.
  - apply wp_bind, wp_ret. apply (wp_written _ _ _ _ pts); cbn [fst snd]; [done|done|by apply (moved_trans sn [] sn2)|by left].
Qed.

(** ** The backend's calls *)

(** A connected backend with its DAC. *)
Definition driven (b : EtherDreamBackend SimPeer) (sn : link) : Prop := eb_stream b = Some sn /\ synced sn /\ anchored (b, sn).

Lemma driven_set b sn : synced sn -> anchored (b, sn) -> driven (set_stream (Some sn) b) sn.
Proof. intros Hs Ha. split; [done|]. split; [done|]. exact Ha. Qed.

Lemma write_ok b sn pps points : driven b sn -> points <> [] -> Forall point_wf points -> Z.of_nat (length points) < 2 ^ 16 ->
  exists b' sn' o, ed_try_write_points pps points b = (b', Ok o) /\ driven b' sn' /\ wrote sn pps points (Ok o) (b', sn').
Proof.
  intros (Hb & Hs & Ha) Hne Hwf Hl. unfold ed_try_write_points, write_points. rewrite Hb. destruct points as [|p points]; [done|].
  pose proof (wp_write_body b sn pps (p :: points) Hs Ha Hne Hwf Hl) as Hwp. unfold wp in Hwp.
  destruct (write_body pps (p :: points) (b, sn)) as [[[]|r] [b' sn']]; [done|]. pose proof Hwp as (Hs' & Ha' & Hcase). cbn [fst snd] in Hs', Ha'.
  exists (set_stream (Some sn') b'), sn'.
  destruct Hcase as [(-> & Hx)|(-> & Hx)]; eexists; (split; [done|]); (split; [by apply driven_set|]); (split; [done|]); (split; [done|]); [by left|by right].
Qed.

(** A stop leaves the DAC idle; nothing more is taken. *)
Lemma stop_ok b sn : driven b sn ->
  exists b' sn', ed_stop b = (b', Ok tt) /\ driven b' sn' /\ moved sn [] sn' /\ sd_playback (status_of sn') = Idle /\
    exists t e, eb_estimator b' = rate_record_status t (status_of sn') e.
Proof.
  intros (Hb & Hs & Ha). unfold ed_stop. rewrite Hb. destruct sn as [s n].
  destruct (submit_served [StopCmd] queue_stop s n Hs) as (resps & t' & s' & n' & -> & Hserved & Hs' & Hf);
    [done|done|done|apply Forall_singleton; by apply sendable_simple|by apply Forall_singleton|].
  apply served_one in Hserved as (t1 & code & Ht & Hpass & _ & _ & Hex & ->). rewrite first_nak_one.
  destruct (exec_stop _ (ps_steady _ _ _ Hpass)) as (code' & m' & Hx & Hd & Hp & Hcode). rewrite Hx in Hex. injection Hex as -> Hm'.
  assert (Hidle : sd_playback (status_of (s', n')) = Idle) by (apply playback_dac; [done|]; by rewrite <- Hm').
  assert (Hmv : moved (s, n) [] (s', n')) by (apply moved_follows; [done|]; rewrite <- Hm'; by eapply passed_then).
  destruct Hcode as [->| ->]; cbn [nak_in respond response nak_from]; do 2 eexists; (split; [reflexivity|]);
    (split; [split; [done|split; [done|by apply idle_anchored]]|]); (split; [done|]); (split; [done|]); by do 2 eexists.
Qed.

(** ** Connecting *)

(** The version query at the DAC. *)
Lemma feed_version now v m : serviceable m -> fw_version_string (m_profile m) = Some v ->
  feed now [118] m = Some ([VersionReply (version_bytes v)], advance_to now m).
Proof.
  intros Hs Hv. destruct (advance_keeps now m) as (_ & _ & Hp & _). pose proof (advance_serviceable now m Hs) as Ha.
  unfold feed, process, process_with. rewrite (svc_input _ Hs). cbn [app].
  assert (Hset : forall x, m_input x = [] -> set_input [] x = x) by (intros [] Hx0; cbn in *; by subst). rewrite Hset by apply Hs.
  rewrite (svc_awake _ Ha), process_loop_eq. unfold process_round, injection. rewrite (svc_inject _ Ha). cbn [mbind option_bind].
  assert (Hst : step [118] (advance_to now m) = Some (Done 1 (VersionReply (version_bytes v)) (advance_to now m))) by (unfold step; cbn; by rewrite Hp, Hv).
  rewrite Hst. cbn [mbind option_bind answer]. rewrite (svc_record _ Ha). cbn [mbind option_bind ends app length].
  change (drop 1 [118]) with (@nil Z). rewrite process_loop_eq. unfold process_round, injection. cbn [mbind option_bind step]. by rewrite Hset by apply Ha.
Qed.

(** A build string that cannot be taken for a refusal. *)
Definition version_clear (v : String.string) : Prop :=
  bool_decide (is_Some (nak_from (version_bytes v !!! 0%nat))) && (version_bytes v !!! 1%nat =? 118) = false.

Lemma version_bytes_length v : length (version_bytes v) = VERSION_RESPONSE_SIZE.
Proof. unfold version_bytes, VERSION_RESPONSE_SIZE. rewrite length_app, length_replicate, length_take. lia. Qed.

(** The version query reads the build string and leaves the link quiet. *)
Lemma query_version_ok s n v : linked s n -> fw_version_string (m_profile (net_model n)) = Some v -> version_clear v ->
  exists n' t, query_version s n = (inl (Some (decode_response (version_bytes v))), s, n') /\ delivers (n_pending n') [] /\
    n_peer n' = mkSim (advance_to t (net_model n)) (sim_cut (n_peer n)) /\ n_now n <= t <= n_now n' /\ later n n'.
Proof.
  intros [Hpend Hcut Hsvc _] Hv Hclear. unfold query_version. destruct (clock_keeps n) as (Hp1 & Hpe1 & _). destruct (clock_later n) as [Hl1 _].
  destruct (clock n) as [t1 n1]. cbn [snd] in *. unfold send_command. cbn [write_command]. rewrite write_u8_byte by done. unfold write_all. cbn [peer_receive sim_peer start_byte].
  rewrite Hpe1. fold (net_model n). rewrite (feed_version (n_now n1) v) by done. cbn [fmap list_fmap reply_bytes existsb option_fmap option_map orb].
  change (mjoin [?x]) with (x ++ []). rewrite !app_nil_r.
  set (n2 := mkNet (n_now n1) (n_ticks n1) _ _). set (vb := version_bytes v) in *. assert (Hvl : length vb = 32%nat) by apply version_bytes_length.
  assert (Hd2 : delivers (n_pending n2) (take 22 vb ++ drop 22 vb)) by (rewrite take_drop; cbn [n_pending n2]; rewrite Hp1; by apply (delivers_app _ _ []))   .
  unfold read_exact_with_budget. destruct (clock_keeps n2) as (Hp3 & Hpe3 & _). destruct (clock_later n2) as [Hl3 _]. destruct (clock n2) as [t3 n3]. cbn [snd] in *.
  destruct (read_exact_delivers (read_fuel response_size VERSION_BUDGET n3) response_size t3 VERSION_BUDGET [] n3 (take 22 vb) (drop 22 vb)) as (p4 & -> & Hd4);
    [by rewrite Hp3|rewrite length_take; unfold response_size, status_size; lia|unfold read_fuel; lia|]. cbn [app].
  assert (Hfront : forall i, (i < 22)%nat -> take 22 vb !!! i = vb !!! i) by (intros i Hi; by rewrite !list_lookup_total_alt, lookup_take_lt by lia).
  rewrite !Hfront by lia. unfold version_clear in Hclear. fold vb in Hclear. rewrite Hclear.
  destruct (clock_keeps (set_pending p4 n3)) as (Hp5 & Hpe5 & _). destruct (clock_later (set_pending p4 n3)) as [Hl5 _].
  destruct (clock (set_pending p4 n3)) as [t5 n5]. cbn [snd] in *.
  destruct (read_exact_delivers (read_fuel (VERSION_RESPONSE_SIZE - response_size) VERSION_BUDGET n5) (VERSION_RESPONSE_SIZE - response_size) t5 VERSION_BUDGET [] n5 (drop 22 vb) []) as (p6 & -> & Hd6);
    [rewrite Hp5; cbn [n_pending set_pending]; by rewrite app_nil_r|rewrite length_drop; unfold VERSION_RESPONSE_SIZE, response_size, status_size; lia|unfold read_fuel; lia|].
  cbn [app]. rewrite take_drop. exists (set_pending p6 n5), (n_now n1). split; [done|]. split; [done|].
  assert (Hl35 : later n3 n5) by exact Hl5. assert (Hl15 : later n1 n5) by (eapply later_trans; [|exact Hl35]; exact Hl3).
  split; [change (n_peer (set_pending p6 n5)) with (n_peer n5); rewrite Hpe5; change (n_peer (set_pending p4 n3)) with (n_peer n3); by rewrite Hpe3|].
  split; [destruct Hl1, Hl15; cbn [n_now set_pending]; lia|]. apply (later_trans _ n1); [done|exact Hl15].
Qed.

(** A DAC that waits: nobody streams to it. *)
Record waiting (m : EtherDreamModel) : Prop := {
  wa_service : serviceable m;
  wa_steady : steady m;
  wa_playback : m_playback m <> PLAYBACK_PLAYING;
  wa_warmup : m_warmup_until m = None;
  wa_capacity : 1 <= fw_buffer_capacity (m_profile m) <= fw_ring_points (m_profile m);
  wa_rate : 0 < fw_max_point_rate (m_profile m);
}.

(** Time passes over it without a trace. *)
Lemma waiting_advance t m : waiting m -> model_status (advance_to t m) = model_status m /\ evolves m [] (advance_to t m) /\ steady (advance_to t m).
Proof.
  intros []. unfold advance_to. destruct (Z.leb_spec t (m_now m)); [split; [done|split; [apply evolves_refl|done]]|].
  unfold end_warmup. model_fields. rewrite wa_warmup0. rewrite play_loop_idle by done. destruct wa_steady0. split; [done|]. split; [by apply evolves_same; auto|by split].
Qed.

(** The socket of a new connection to it: its hello is on the way. *)
Definition greets (m : EtherDreamModel) (now : Z) (n : Net SimPeer) : Prop :=
  net_model n = m /\ n_pending n = sim_cut (n_peer n) (write_response (hello m)) /\ (forall bs, delivers (sim_cut (n_peer n) bs) bs) /\
  m_now m <= now <= n_now n /\ horizon n < 2 ^ 61.

Lemma from_broadcast_model m : model_ok m -> exists st, status_from (model_status m) = inl st /\
  from_broadcast (model_broadcast m) = inl (mkDac (fw_mac_address (m_profile m)) (fw_hw_revision (m_profile m)) (fw_sw_revision (m_profile m))
    (fw_buffer_capacity (m_profile m)) (fw_max_point_rate (m_profile m)) st).
Proof.
  intros Hm. destruct (status_from_model m Hm) as [st Hst]. exists st. split; [done|]. unfold from_broadcast, model_broadcast. cbn [bc_status]. by rewrite Hst.
Qed.

(** Connecting to it. *)
Lemma connect_inner_ok m now n opened : waiting m -> greets m now n -> opened now = inl n ->
  exists s n', connect_inner (model_broadcast m) opened now = inl (s, n') /\ linked s n' /\ n_peer n' = n_peer n /\ later n n' /\
    es_status_received_at s = n_now n' /\ status_from (model_status m) = inl (ad_status (es_dac s)) /\ es_dac s = with_status (ad_status (es_dac s))
      (mkDac (fw_mac_address (m_profile m)) (fw_hw_revision (m_profile m)) (fw_sw_revision (m_profile m)) (fw_buffer_capacity (m_profile m)) (fw_max_point_rate (m_profile m)) (ad_status (es_dac s))).
Proof.
  intros Hw (Hm & Hpend & Hcut & Hnow & Hh) Ho. unfold connect_inner. destruct (from_broadcast_model m (svc_ok _ (wa_service _ Hw))) as (st & Hst & ->). rewrite Ho.
  assert (Hreply : dac_reply (hello m)) by (split; [by left|]; split; [done|]; by exists m; split; [apply Hw|]).
  set (d := mkDac _ _ _ _ _ st). destruct (recv_response_ok (hello m) [] d n Hreply) as (st' & p' & Hst' & Hrecv & Hd'); [by rewrite Hpend, app_nil_r|].
  change (start_byte Ping) with (response_command (hello m)). rewrite Hrecv. change (nak_in (hello m)) with (@None CommunicationError). cbv iota.
  assert (Hpeer : n_peer (set_pending p' (clock n).2) = n_peer n) by apply clock_keeps.
  assert (Hlat : later n (set_pending p' (clock n).2)) by apply (clock_later n).
  set (n1 := set_pending p' (clock n).2) in *. assert (Hp1 : n_pending n1 = p') by done. clearbody n1.
  destruct (clock_keeps n1) as (Hp2 & Hpe2 & _). destruct (clock_later n1) as [Hl2 Ht2]. destruct (clock n1) as [t2 n2]. cbn [fst snd] in *.
  cbn [response_status hello respond] in Hst'. rewrite Hst' in Hst. injection Hst as ->. do 2 eexists. split; [reflexivity|]. cbn [es_dac es_status_received_at].
  assert (Hm2 : net_model n2 = m) by (unfold net_model; rewrite Hpe2, Hpeer; exact Hm).
  split; [|split; [congruence|split; [by eapply later_trans|split; [done|split; [done|done]]]]].
  split; [by rewrite Hp2, Hp1|by rewrite Hpe2, Hpeer|rewrite Hm2; apply Hw|rewrite Hm2; cbn; split; [done|apply Hw]].
Qed.

Lemma connect_ok b m now n opened v : waiting m -> greets m now n -> opened 0%nat now = inl n -> eb_broadcast b = Some (model_broadcast m) ->
  fw_version_string (m_profile m) = Some v -> version_clear v ->
  exists b' sn, ed_connect now opened b = (b', Ok tt) /\ driven b' sn /\ evolves m [] (dac_of sn) /\ m_profile (dac_of sn) = m_profile m /\
    (eb_skip_version_query b = false -> eb_firmware_version b' = Some (decode_response (version_bytes v))).
Proof.
  intros Hw Hg Ho Hb Hv Hclear. pose proof Hg as (Hm & _ & Hcut & Hnow & Hh). unfold ed_connect, connect_to. rewrite Hb. change (default synthetic_broadcast (Some (model_broadcast m))) with (model_broadcast m).
  destruct (connect_inner_ok m now n (opened 0%nat) Hw Hg Ho) as (s & n1 & -> & Hl & Hpe & Hlat & Hrecv & Hst & Hdac).
  assert (Hm1 : net_model n1 = m) by (unfold net_model; rewrite Hpe; exact Hm).
  assert (Hplay : sd_playback (ad_status (es_dac s)) <> Playing).
  { unfold status_from, model_status in Hst. cbn [st_light_engine_state st_playback_state] in Hst. destruct (light_engine_from _); [|done].
    destruct (playback_from (m_playback m)) as [pb|] eqn:Hp; [|done]. apply playback_to_from in Hp. pose proof (wa_playback _ Hw) as Hnp.
    injection Hst as Hst. rewrite <- Hst. cbn. intros ->. by rewrite <- Hp in Hnp. }
  (* a link at a DAC that has waited for a while *)
  assert (Hend : forall n2 m2, linked s n2 -> net_model n2 = m2 -> later n1 n2 -> m_now m2 <= n_now n2 -> (exists t, m2 = advance_to t m) -> synced (s, n2) /\ evolves m [] m2 /\ m_profile m2 = m_profile m).
  { intros n2 m2 Hl2 Hm2 Hlat2 Hnow2 (t & ->). destruct (waiting_advance t m Hw) as (Hs2 & He2 & Hst2). destruct (advance_keeps t m) as (_ & _ & Hp2 & _).
    split; [|done]. split; unfold dac_of, status_of, capacity_of, effective_capacity; cbn [fst snd]; rewrite ?Hm2; [done|by rewrite Hs2|done|done|destruct Hlat, Hlat2; lia|].
    rewrite Hp2. rewrite Hdac. cbn. pose proof (wa_capacity _ Hw). destruct (Z.eqb_spec (fw_buffer_capacity (m_profile m)) 0); lia. }
  cbn [eb_skip_version_query set_firmware_version set_last_estop_attempt set_last_ping_time set_last_point_rate set_estimator].
  destruct (eb_skip_version_query b) eqn:Hskip.
  - destruct (Hend n1 m Hl Hm1) as (Hs & He & Hp); [by split|destruct Hlat; lia|exists (m_now m); unfold advance_to; by rewrite Z.leb_refl|].
    do 2 eexists. split; [reflexivity|]. split; [by apply driven_set; [|intros ?]|]. unfold dac_of. cbn [snd]. rewrite Hm1. done.
  - destruct (query_version_ok s n1 v Hl) as (n2 & t & -> & Hd2 & Hpe2 & Ht2 & Hlat2); [by rewrite Hm1|done|].
    assert (Hm2 : net_model n2 = advance_to t m) by (unfold net_model; rewrite Hpe2; cbn; by rewrite Hm1).
    destruct (advance_keeps t m) as (_ & _ & Hp2 & Hn2).
    destruct (Hend n2 (advance_to t m)) as (Hs & He & Hp); [|done|done|rewrite Hn2; destruct Hlat, Hlat2; lia|by exists t|].
    { destruct Hl as [_ Hcut1 Hsvc1 Hrate1]. split; [done|rewrite Hpe2; exact Hcut1|rewrite Hm2; by apply advance_serviceable, Hw|rewrite Hm2, Hp2, <- Hm1; exact Hrate1]. }
    do 2 eexists. split; [reflexivity|]. split; [by apply driven_set; [|intros ?]|]. unfold dac_of. cbn [snd]. rewrite Hm2. done.
Qed.

(** ** Sessions *)

Inductive call :=
  | CallWrite (pps : Z) (points : list LaserPoint)
  | CallStop.

(** A call, and whether it succeeded. *)
Definition run_call (c : call) (b : EtherDreamBackend SimPeer) : EtherDreamBackend SimPeer * bool :=
  match c with
  | CallWrite pps points => let '(b, r) := ed_try_write_points pps points b in (b, match r with Ok _ => true | Err _ => false end)
  | CallStop => let '(b, r) := ed_stop b in (b, match r with Ok _ => true | Err _ => false end)
  end.

Fixpoint run_calls (cs : list call) (b : EtherDreamBackend SimPeer) : EtherDreamBackend SimPeer * bool :=
  match cs with
  | [] => (b, true)
  | c :: cs => let '(b, ok) := run_call c b in let '(b, oks) := run_calls cs b in (b, ok && oks)
  end.

Definition call_ok (c : call) : Prop :=
  match c with CallWrite _ points => Forall point_wf points /\ Z.of_nat (length points) < 2 ^ 16 | CallStop => True end.

Lemma run_call_ok c b sn : driven b sn -> call_ok c ->
  exists b' sn' taken, run_call c b = (b', true) /\ driven b' sn' /\ moved sn taken sn'.
Proof.
  intros Hd Hc. destruct c as [pps points|]; cbn [run_call].
  - destruct (decide (points = [])) as [->|Hne].
    { exists b, sn, []. unfold ed_try_write_points, write_points. pose proof Hd as [-> _]. split; [done|]. split; [done|apply moved_refl]. }
    destruct Hc as [Hwf Hl]. destruct (write_ok b sn pps points Hd Hne Hwf Hl) as (b' & sn' & o & -> & Hd' & _ & _ & [(_ & Hm & _)|(_ & taken & Hm & _)]).
    + by exists b', sn', [].
    + by exists b', sn', taken.
  - destruct (stop_ok b sn Hd) as (b' & sn' & -> & Hd' & Hm & _). by exists b', sn', [].
Qed.

Lemma run_calls_ok cs b sn : driven b sn -> Forall call_ok cs ->
  exists b' sn' taken, run_calls cs b = (b', true) /\ driven b' sn' /\ moved sn taken sn'.
Proof.
  revert b sn. induction cs as [|c cs IH]; intros b sn Hd Hcs; [exists b, sn, []; split; [done|split; [done|apply moved_refl]]|].
  apply Forall_cons in Hcs as [Hc Hcs]. destruct (run_call_ok c b sn Hd Hc) as (b1 & sn1 & xs & Hr & Hd1 & Hm1).
  destruct (IH b1 sn1 Hd1 Hcs) as (b2 & sn2 & ys & Hrs & Hd2 & Hm2). exists b2, sn2, (xs ++ ys). cbn [run_calls]. rewrite Hr, Hrs. split; [done|]. split; [done|]. by eapply moved_trans.
Qed.

(** C3. Writing is all or nothing: against a DAC of any firmware, at any rate and with any
    delays, a write never errs and never overfills the ring.  It reports [WouldBlock]
    exactly when the DAC took no point of the chunk; when it reports [Written] the
    DAC took the whole chunk, in order and once - or, if a rate switch was sent with
    it and the DAC ran dry in between, once more on a fresh stream.  On a ready DAC a
    chunk the ring can hold is refused only while the DAC is playing, so that room
    is being made; an idle one always takes it, whatever stale fullness it reports. *)
Theorem write_takes_all_or_nothing b sn pps points : driven b sn -> points <> [] -> Forall point_wf points -> Z.of_nat (length points) < 2 ^ 16 ->
  exists b' sn' o, ed_try_write_points pps points b = (b', Ok o) /\ driven b' sn' /\ m_overfull_writes (dac_of sn') = m_overfull_writes (dac_of sn) /\
    match o with
    | WouldBlock => evolves (dac_of sn) [] (dac_of sn') /\
        (is_ready sn -> Z.of_nat (length points) <= capacity_of sn -> sd_playback (status_of sn) <> Idle /\ sd_playback (status_of sn') = Playing)
    | Written => exists taken, evolves (dac_of sn) taken (dac_of sn') /\
        (taken = (dac_point_of <$> points) \/
         taken = (dac_point_of <$> points) ++ (dac_point_of <$> points) /\ switches sn (clamp_rate pps (max_rate_of sn)) = true)
    end.
Proof.
  intros Hd Hne Hwf Hl. destruct (write_ok b sn pps points Hd Hne Hwf Hl) as (b' & sn' & o & Hw & Hd' & _ & _ & Hcase). exists b', sn', o.
  split; [done|]. split; [done|]. destruct Hcase as [([= ->] & Hm & Hwhy)|([= ->] & taken & Hm & Htk)]; (split; [apply Hm|]).
  - split; [apply Hm|done].
  - exists taken. split; [apply Hm|done].
Qed.

(** C19. A whole session: connecting to a waiting DAC of any known firmware that
    tells its version and then
    writing and stopping in any order succeeds at every call; the DAC never hangs,
    is never overfilled, and stays in step with the client to the end. *)
Theorem session_never_errs b m now n opened v cs : waiting m -> greets m now n -> opened 0%nat now = inl n -> eb_broadcast b = Some (model_broadcast m) ->
  fw_version_string (m_profile m) = Some v -> version_clear v -> Forall call_ok cs ->
  exists b1 b2 sn taken, ed_connect now opened b = (b1, Ok tt) /\ run_calls cs b1 = (b2, true) /\ eb_stream b2 = Some sn /\ synced sn /\
    m_hung (dac_of sn) = false /\ evolves m taken (dac_of sn).
Proof.
  intros Hw Hg Ho Hb Hv Hc Hcs. destruct (connect_ok b m now n opened v Hw Hg Ho Hb Hv Hc) as (b1 & sn1 & Hconn & Hd1 & He1 & _).
  destruct (run_calls_ok cs b1 sn1 Hd1 Hcs) as (b2 & sn2 & taken & Hrun & Hd2 & Hm2). exists b1, b2, sn2, taken.
  split; [done|]. split; [done|]. destruct Hd2 as (Hs2 & Hsy2 & _). split; [done|]. split; [done|]. split; [apply (svc_awake _ (lk_model _ _ (sy_linked _ Hsy2)))|].
  exact (evolves_trans _ _ _ _ _ He1 (mv_evolves _ _ _ Hm2)).
Qed.

(** Stopping empties the way for the next stream: the stop is accepted on every
    firmware, also when the DAC is idle already, and leaves it idle; the client's
    fullness estimate is zero from then on. *)
Theorem stop_idles b sn now pps : driven b sn ->
  exists b' sn', ed_stop b = (b', Ok tt) /\ driven b' sn' /\ m_playback (dac_of sn') = PLAYBACK_IDLE /\ evolves (dac_of sn) [] (dac_of sn') /\
    rate_estimated_fullness now pps (eb_estimator b') = 0.
Proof.
  intros Hd. destruct (stop_ok b sn Hd) as (b' & sn' & Hstop & Hd' & Hm & Hi & t & e & He). exists b', sn'. split; [done|]. split; [done|].
  split; [apply (playback_dac sn' Idle); [apply Hd'|done]|]. split; [apply Hm|]. rewrite He. unfold rate_record_status, rate_estimated_fullness.
  rewrite Hi. by rewrite bool_decide_eq_true_2.
Qed.
End drive.

Module Demo.
Import EtherLink.Demo.

(** A booted DAC, and the socket of a connection to it. *)
Definition booted : EtherDreamModel := model_new ed2_r331.

Definition fresh (ticks : list N) : Net SimPeer := mkNet 1000 ticks (whole (@write_response stdlib_byte_order (hello booted))) (mkSim booted whole).

Definition backend : EtherDreamBackend SimPeer := with_address (Some (model_broadcast booted)).

Definition blank (n : nat) : list LaserPoint := replicate n default_point.

Lemma default_wf : point_wf default_point.
Proof. repeat split; (vm_compute; discriminate) || reflexivity. Qed.

Lemma blank_wf n : Forall point_wf (blank n).
Proof. apply Forall_replicate, default_wf. Qed.

Lemma booted_waiting : waiting booted.
Proof. split; [split; [apply model_new_ok, EtherModel.Demo.ed2_ok|done..]|by split|done|done|by vm_compute|done]. Qed.

Lemma fresh_greets : @greets stdlib_byte_order booted 1000 (fresh [5%N; 7%N]).
Proof. split; [done|]. split; [done|]. split; [intros bs; apply whole_delivers|]. vm_compute. repeat split; congruence. Qed.

Definition attached : EtherDreamBackend SimPeer := set_stream (Some (stream [], socket)) backend.

Lemma attached_driven : driven attached (stream [], socket).
Proof.
  split; [done|]. split; [|done]. split; [apply socket_linked|by vm_compute|by split|by vm_compute|by vm_compute|by vm_compute].
Qed.

Lemma write_takes_all_or_nothing_witness :
  exists b' sn' o, @ed_try_write_points stdlib_byte_order _ _ 30000 (blank 400) attached = (b', Ok o) /\ m_overfull_writes (dac_of sn') = 0.
Proof.
  destruct (@write_takes_all_or_nothing stdlib_byte_order attached (stream [], socket) 30000 (blank 400) attached_driven ltac:(discriminate) (blank_wf 400) eq_refl)
    as (b' & sn' & o & Hw & _ & Ho & _).
  exists b', sn', o. split; [exact Hw|exact Ho].
Defined.

Lemma session_never_errs_witness :
  exists b1 b2, @ed_connect stdlib_byte_order _ _ 1000 (fun _ _ => inl (fresh [5%N; 7%N])) backend = (b1, Ok tt) /\
    @run_calls stdlib_byte_order [CallWrite 1000 (blank 16); CallWrite 2000 (blank 1); CallStop; CallStop] b1 = (b2, true).
Proof.
  destruct (@session_never_errs stdlib_byte_order backend booted 1000 (fresh [5%N; 7%N]) (fun _ _ => inl (fresh [5%N; 7%N])) "r331-ed4bef5"
    [CallWrite 1000 (blank 16); CallWrite 2000 (blank 1); CallStop; CallStop] booted_waiting fresh_greets eq_refl eq_refl eq_refl eq_refl) as (b1 & b2 & sn & taken & Hc & Hr & _).
  - constructor; [split; [apply blank_wf|reflexivity]|]. constructor; [split; [apply blank_wf|reflexivity]|]. constructor; [exact I|]. constructor; [exact I|constructor].
  - exists b1, b2. split; [exact Hc|exact Hr].
Defined.

Lemma stop_idles_witness :
  exists b' sn', @ed_stop stdlib_byte_order _ _ attached = (b', Ok tt) /\ m_playback (dac_of sn') = PLAYBACK_IDLE.
Proof.
  destruct (@stop_idles stdlib_byte_order attached (stream [], socket) 0 0 attached_driven) as (b' & sn' & Hs & _ & Hp & _). exists b', sn'. split; [exact Hs|exact Hp].
Defined.

(** A chunk taken twice: the DAC plays the chunk and runs dry between the data and the
    rate switch sent behind it, and the idle status makes the write send it again. *)
Definition late_switch : list N := replicate 18 1000%N ++ [1000000000%N].

Example rate_switch_can_repeat_chunk :
  let '(b, _) := @ed_connect stdlib_byte_order _ _ 1000 (fun _ _ => inl (fresh late_switch)) backend in
  let '(b, _) := @ed_try_write_points stdlib_byte_order _ _ 1000 (blank 16) b in
  let '(b, r) := @ed_try_write_points stdlib_byte_order _ _ 2000 (blank 1) b in
  r = Ok Written /\ ((fun sn => m_accepted_total (dac_of sn)) <$> eb_stream b) = Some 18.
Proof. by vm_compute. Qed.
End Demo.
