(* ===== verification/IdnScan.v ===== *)
(** * Scanning for IDN servers

    Models [src/src/protocols/idn/mod.rs] (the server scanner: broadcast scan
    requests, the polling loop, the book of servers and addresses, service-map
    queries) and [src/src/protocols/idn/discovery.rs] (stable ids and the devices
    made from the servers found).

    The sockets are scripts of what the successive reads return; an exhausted
    script has no more data, and socket options always succeed.  A read that
    finds nothing takes its read timeout.  The clock is in nanoseconds and
    advances by the next tick, of any size, at every reading.  [HashMap] iterates
    in an arbitrary [order] of the keys. *)

From Stdlib Require Import Ascii.
From stdpp Require Import gmap strings pretty.
From S2P Require Import Prelude Bytes Utf8 Backend IdnProtocol IdnTypes IdnStream Receiver IdnServer Discovery.

#[local] Open Scope Z_scope.
#[local] Open Scope rust_scope.

(** ** The scanner and its sockets *)

Definition DEFAULT_CLIENT_GROUP : Z := 0.
Definition SCAN_BURSTS : Z := 3.
Definition SERVICEMAP_ATTEMPTS : nat := 3.
Definition SERVICEMAP_TIMEOUT : Z := 400000000.

(** The result of one read of a socket. *)
Inductive poll :=
  | Got (data : list Z) (src : SocketAddr)
  | NoData
  | PollErr (e : IoKind).

(** A [BroadcastEndpoint] with what its socket will read. *)
Record Endpoint := mkEndpoint {
  ep_broadcast_addr : SocketAddr;
  ep_reads : list poll;
}.

Record ServerScanner := mkScanner {
  sn_endpoints : list Endpoint;
  sn_unicast : list poll;
  sn_client_group : Z;
  sn_sequence : Z;
  sn_now : Z;
  sn_ticks : list N;
  sn_sends : list (option IoKind);
  sn_sent : list (list Z * SocketAddr);
}.

(** [NetworkInterface::broadcast_address]. *)
Definition broadcast_address (ip mask : Z) : Z := Z.lor ip (Z.lxor mask 0xFFFFFFFF).

Definition limited_broadcast : SocketAddr := mkAddr (V4 0xFFFFFFFF) IDN_PORT.

(** [ServerScanner::new] over the interfaces whose socket could be bound. *)
Definition scanner_new (client_group : Z) (interfaces : list (Z * Z * list poll)) (unicast : list poll)
    (now : Z) (ticks : list N) (sends : list (option IoKind)) : ServerScanner :=
  mkScanner ((fun '(ip, mask, reads) => mkEndpoint (mkAddr (V4 (broadcast_address ip mask)) IDN_PORT) reads) <$> interfaces)
    unicast (Z.land client_group IDNMSK_PKTFLAGS_GROUP) 0 now ticks sends [].

(** ** The scanner's monad *)

Definition Scan (A : Type) : Type := ServerScanner -> A * ServerScanner.

#[export] Instance Scan_ret : MRet Scan := fun A a s => (a, s).

#[export] Instance Scan_bind : MBind Scan := fun A B k m s => let '(a, s) := m s in k a s.

Definition clock (d : Z) : Scan Z := fun s =>
  let v := sn_now s + d + match sn_ticks s with t :: _ => Z.of_N t | [] => 0 end in
  (v, mkScanner (sn_endpoints s) (sn_unicast s) (sn_client_group s) (sn_sequence s) v (tail (sn_ticks s)) (sn_sends s) (sn_sent s)).

(** [start.elapsed()] and [thread::sleep]. *)
Definition since (start : Z) : Scan Z := v ← clock 0; mret (duration_since v start).

Definition scan_sleep (d : Z) : Scan unit := _ ← clock d; mret tt.

(** [socket.send_to]. *)
Definition send_to (bs : list Z) (dest : SocketAddr) : Scan (unit + IoKind) := fun s =>
  match sn_sends s with
  | Some e :: rest =>
      (inr e, mkScanner (sn_endpoints s) (sn_unicast s) (sn_client_group s) (sn_sequence s) (sn_now s) (sn_ticks s) rest (sn_sent s))
  | sends =>
      (inl tt, mkScanner (sn_endpoints s) (sn_unicast s) (sn_client_group s) (sn_sequence s) (sn_now s) (sn_ticks s) (tail sends)
        (sn_sent s ++ [(bs, dest)]))
  end.

(** [recv_from] into a 1500-byte buffer. *)
Definition cut (p : poll) : poll := match p with Got bs src => Got (take 1500 bs) src | p => p end.

Definition recv_unicast : Scan poll := fun s =>
  (match sn_unicast s with p :: _ => cut p | [] => NoData end,
   mkScanner (sn_endpoints s) (tail (sn_unicast s)) (sn_client_group s) (sn_sequence s) (sn_now s) (sn_ticks s) (sn_sends s) (sn_sent s)).

Definition recv_endpoint (i : nat) : Scan poll := fun s =>
  match sn_endpoints s !! i with
  | None => (NoData, s)
  | Some e =>
      (match ep_reads e with p :: _ => cut p | [] => NoData end,
       mkScanner (<[i := mkEndpoint (ep_broadcast_addr e) (tail (ep_reads e))]> (sn_endpoints s)) (sn_unicast s)
         (sn_client_group s) (sn_sequence s) (sn_now s) (sn_ticks s) (sn_sends s) (sn_sent s))
  end.

Definition scan_sequence : Scan Z := fun s =>
  (sn_sequence s,
   mkScanner (sn_endpoints s) (sn_unicast s) (sn_client_group s) (wrapu 16 (sn_sequence s + 1)) (sn_now s) (sn_ticks s) (sn_sends s) (sn_sent s)).

Definition scan_group : Scan Z := fun s => (sn_client_group s, s).

(** ** Servers and service maps *)

Abbreviation Servers := (gmap (list Z) ServerInfo).
Abbreviation Units := (gmap SocketAddr (list Z)).

Section scan.
Context `{ByteOrder}.

Definition request (command group sequence : Z) : list Z := write_to_bytes (mkPacketHeader command group sequence).

Definition process_scan_response (data : list Z) (src : SocketAddr) : option (ScanResponse * SocketAddr) :=
  if decide (length data < SIZE_BYTES PacketHeader + SIZE_BYTES ScanResponse)%nat then None
  else
    '(header, cursor) ← ok (read_from_bytes data : io_result (PacketHeader * list Z));
    if negb (ph_command header =? IDNCMD_SCAN_RESPONSE) then None
    else
      '(response, _) ← ok (read_from_bytes cursor : io_result (ScanResponse * list Z));
      if negb (is_ipv4 src) then None else Some (response, src).

Definition push_address (a : SocketAddr) (s : ServerInfo) : ServerInfo :=
  if bool_decide (a ∈ sv_addresses s) then s
  else mkServerInfo (sv_unit_id s) (sv_hostname s) (sv_protocol_version s) (sv_status s) (sv_addresses s ++ [a]) (sv_relays s) (sv_services s).

Definition server_of (response : ScanResponse) : ServerInfo :=
  ServerInfo_new (sr_unit_id response) (hostname_str response)
    (Z.shiftr (sr_protocol_version response) 4, Z.land (sr_protocol_version response) 0x0F) (sr_status response).

Definition record_server (response : ScanResponse) (src : SocketAddr) (b : Servers * Units) : Servers * Units :=
  let '(servers, units) := b in
  match units !! src with
  | Some unit =>
      match servers !! unit with
      | Some server => (<[unit := push_address src server]> servers, units)
      | None => (servers, units)
      end
  | None =>
      let unit := sr_unit_id response in
      let server := match servers !! unit with Some s => s | None => server_of response end in
      (<[unit := push_address src server]> servers, <[src := unit]> units)
  end.

(** [parse_service_map_entries]: [count] entries of [entry_size] bytes each. *)
Fixpoint parse_service_map_entries {T} (count entry_size : nat) (convert : ServiceMapEntry -> T) (cursor : list Z)
    : (list T * list Z) + IoKind :=
  match count with
  | O => inl ([], cursor)
  | S count =>
      if decide (length cursor < entry_size)%nat then inl ([], cursor)
      else
        let read := Nat.min entry_size (SIZE_BYTES ServiceMapEntry) in
        let entry_buf := take read cursor ++ replicate (SIZE_BYTES ServiceMapEntry - read) 0 in
        match (read_from_bytes entry_buf : io_result (ServiceMapEntry * list Z)) with
        | IoErr e => inr (kind_of_read e)
        | IoOk (entry, _) =>
            match parse_service_map_entries count entry_size convert (drop entry_size cursor) with
            | inr e => inr e
            | inl (rest, cursor) => inl (convert entry :: rest, cursor)
            end
        end
  end.

(** The body of a matching response, after its packet header. *)
Definition read_service_map (cursor : list Z) : (list RelayInfo * list ServiceInfo) + IoKind :=
  match (read_from_bytes cursor : io_result (ServiceMapResponseHeader * list Z)) with
  | IoErr e => inr (kind_of_read e)
  | IoOk (map_header, cursor) =>
      let header_extra := (Z.to_nat (sm_struct_size map_header) - SIZE_BYTES ServiceMapResponseHeader)%nat in
      let cursor := if decide (0 < header_extra /\ header_extra <= length cursor)%nat then drop header_extra cursor else cursor in
      let entry_size := Z.to_nat (sm_entry_size map_header) in
      match parse_service_map_entries (Z.to_nat (sm_relay_entry_count map_header)) entry_size RelayInfo_from_entry cursor with
      | inr e => inr e
      | inl (relays, cursor) =>
          match parse_service_map_entries (Z.to_nat (sm_service_entry_count map_header)) entry_size ServiceInfo_from_entry cursor with
          | inr e => inr e
          | inl (services, _) => inl (relays, services)
          end
      end
  end.

(** One datagram of [recv_service_map]: [None] is [continue]. *)
Definition match_service_map (expected_seq : Z) (data : list Z) : option ((list RelayInfo * list ServiceInfo) + IoKind) :=
  if decide (length data < SIZE_BYTES PacketHeader + SIZE_BYTES ServiceMapResponseHeader)%nat then None
  else
    '(header, cursor) ← ok (read_from_bytes data : io_result (PacketHeader * list Z));
    if negb (ph_command header =? IDNCMD_SERVICEMAP_RESPONSE) || negb (ph_sequence header =? expected_seq) then None
    else Some (read_service_map cursor).

(** [recv_service_map]; every round takes a read, so the script's length is
    enough fuel. *)
Fixpoint recv_service_map_loop (fuel : nat) (expected_seq deadline : Z) : Scan ((list RelayInfo * list ServiceInfo) + IoKind) :=
  match fuel with
  | O => mret (inr KTimedOut)
  | S fuel =>
      t ← clock 0;
      if sat_sub deadline t =? 0 then mret (inr KTimedOut)
      else
        p ← recv_unicast;
        match p with
        | NoData => mret (inr KTimedOut)
        | PollErr e => mret (inr match e with KWouldBlock | KTimedOut => KTimedOut | e => e end)
        | Got data _ =>
            match match_service_map expected_seq data with
            | None => recv_service_map_loop fuel expected_seq deadline
            | Some r => mret r
            end
        end
  end.

Definition recv_service_map (expected_seq : Z) : Scan ((list RelayInfo * list ServiceInfo) + IoKind) := fun s =>
  (t ← clock 0; recv_service_map_loop (S (length (sn_unicast s))) expected_seq (t + SERVICEMAP_TIMEOUT)) s.

(** [drain_unicast_socket]. *)
Fixpoint drain (reads : list poll) : list poll :=
  match reads with
  | Got _ _ :: reads => drain reads
  | _ :: reads => reads
  | [] => []
  end.

Definition drain_unicast_socket : Scan unit := fun s =>
  (tt, mkScanner (sn_endpoints s) (drain (sn_unicast s)) (sn_client_group s) (sn_sequence s) (sn_now s) (sn_ticks s) (sn_sends s) (sn_sent s)).

Definition with_services (relays : list RelayInfo) (services : list ServiceInfo) (s : ServerInfo) : ServerInfo :=
  mkServerInfo (sv_unit_id s) (sv_hostname s) (sv_protocol_version s) (sv_status s) (sv_addresses s) relays services.

(** [query_service_map]: the server as it is left, and the result. *)
Fixpoint query_attempts (attempts : nat) (last_err : IoKind) (server : ServerInfo) (addr : SocketAddr) : Scan (ServerInfo * (unit + IoKind)) :=
  match attempts with
  | O => mret (server, inr last_err)
  | S attempts =>
      drain_unicast_socket;;
      seq ← scan_sequence;
      group ← scan_group;
      sent ← send_to (request IDNCMD_SERVICEMAP_REQUEST group seq) addr;
      match sent with
      | inr e => mret (server, inr e)
      | inl _ =>
          r ← recv_service_map seq;
          match r with
          | inl (relays, services) => mret (with_services relays services server, inl tt)
          | inr e => query_attempts attempts e server addr
          end
      end
  end.

Definition query_service_map (server : ServerInfo) (addr : SocketAddr) : Scan (ServerInfo * (unit + IoKind)) :=
  query_attempts SERVICEMAP_ATTEMPTS KTimedOut server addr.

(** ** The scans *)

(** [send_broadcast_scan]: both broadcasts on every endpoint, then the fallback
    socket; failed sends are ignored. *)
Fixpoint send_all (packet : list Z) (dests : list SocketAddr) : Scan unit :=
  match dests with
  | [] => mret tt
  | d :: dests => _ ← send_to packet d; send_all packet dests
  end.

Definition scan_destinations (s : ServerScanner) : list SocketAddr :=
  mjoin ((fun e => [ep_broadcast_addr e; limited_broadcast]) <$> sn_endpoints s) ++ [limited_broadcast].

Definition send_broadcast_scan : Scan unit :=
  seq ← scan_sequence;
  group ← scan_group;
  dests ← (fun s => (scan_destinations s, s));
  send_all (request IDNCMD_SCAN_REQUEST group seq) dests.

Definition send_scan_to (addr : SocketAddr) : Scan (unit + IoKind) :=
  seq ← scan_sequence;
  group ← scan_group;
  send_to (request IDNCMD_SCAN_REQUEST group seq) addr.

(** What one read adds to the book, and whether it was a datagram. *)
Definition take_poll (p : poll) (b : Servers * Units) : (Servers * Units) * bool :=
  match p with
  | Got data src =>
      (match process_scan_response data src with Some (response, src) => record_server response src b | None => b end, true)
  | _ => (b, false)
  end.

(** Poll the endpoints from [i] on, [n] of them. *)
Fixpoint poll_endpoints (n i : nat) (b : Servers * Units) (any : bool) : Scan ((Servers * Units) * bool) :=
  match n with
  | O => mret (b, any)
  | S n =>
      p ← recv_endpoint i;
      let '(b, got) := take_poll p b in
      poll_endpoints n (S i) b (any || got)
  end.

(** The burst at the top of a round. *)
Definition burst (start timeout next_burst : Z) (send : Scan unit) : Scan Z :=
  if next_burst <? SCAN_BURSTS then
    e ← since start;
    if timeout / SCAN_BURSTS * next_burst <=? e then send;; mret (next_burst + 1) else mret next_burst
  else mret next_burst.

(** The polling loop of [scan]: a round without data sleeps five milliseconds,
    any other takes a read of some script. *)
Fixpoint scan_loop (fuel : nat) (start timeout next_burst : Z) (b : Servers * Units) : Scan (option (Servers * Units)) :=
  match fuel with
  | O => mret None
  | S fuel =>
      e ← since start;
      if timeout <=? e then mret (Some b)
      else
        next_burst ← burst start timeout next_burst send_broadcast_scan;
        n ← (fun s => (length (sn_endpoints s), s));
        r ← poll_endpoints n 0 b false;
        p ← recv_unicast;
        let '(b, got) := take_poll p (r.1 : Servers * Units) in
        (if negb (r.2 || got) then scan_sleep 5000000 else mret tt);;
        scan_loop fuel start timeout next_burst b
  end.

(** The reads the scripts still hold. *)
Definition pending (s : ServerScanner) : nat :=
  (sum_list ((fun e => length (ep_reads e)) <$> sn_endpoints s) + length (sn_unicast s))%nat.

Section ordered.
Context (order : Servers -> list (list Z)).

(** [servers.values_mut()]: each server with an address is queried. *)
Fixpoint query_all (units : list (list Z)) (servers : Servers) : Scan Servers :=
  match units with
  | [] => mret servers
  | unit :: units =>
      match servers !! unit with
      | None => query_all units servers
      | Some server =>
          match head (sv_addresses server) with
          | None => query_all units servers
          | Some addr => r ← query_service_map server addr; query_all units (<[unit := r.1]> servers)
          end
      end
  end.

(** [servers.into_values()]. *)
Definition into_values (servers : Servers) : list ServerInfo := omap (fun unit => servers !! unit) (order servers).

Definition scan_for_servers_in (timeout : Z) : Scan (option (list ServerInfo)) := fun s =>
  (start ← clock 0;
   send_broadcast_scan;;
   r ← scan_loop (S (pending s + Z.to_nat (timeout / 5000000 + 1))) start timeout 1 (∅, ∅);
   match r with
   | None => mret None
   | Some (servers, _) => servers ← query_all (order servers) servers; mret (Some (into_values servers))
   end) s.

(** [recv_scan_response_with_port]. *)
Definition recv_scan_response_with_port : Scan ((ScanResponse * SocketAddr) + IoKind) :=
  p ← recv_unicast;
  match p with
  | NoData => scan_sleep 100000000;; mret (inr KWouldBlock)
  | PollErr e => mret (inr e)
  | Got data src =>
      mret (if decide (length data < SIZE_BYTES PacketHeader + SIZE_BYTES ScanResponse)%nat then inr KInvalidData
            else match (read_from_bytes data : io_result (PacketHeader * list Z)) with
                 | IoErr e => inr (kind_of_read e)
                 | IoOk (header, cursor) =>
                     if negb (ph_command header =? IDNCMD_SCAN_RESPONSE) then inr KInvalidData
                     else match (read_from_bytes cursor : io_result (ScanResponse * list Z)) with
                          | IoErr e => inr (kind_of_read e)
                          | IoOk (response, _) => inl (response, src)
                          end
                 end)
  end.

(** [scan_address]; a read that finds nothing waits for its 100 milliseconds. *)
Fixpoint scan_address_loop (fuel : nat) (start timeout next_burst : Z) (addr : SocketAddr) (b : Servers * Units)
    : Scan (option (Servers * Units)) :=
  match fuel with
  | O => mret None
  | S fuel =>
      e ← since start;
      if timeout <=? e then mret (Some b)
      else
        next_burst ← burst start timeout next_burst (_ ← send_scan_to addr; mret tt);
        r ← recv_scan_response_with_port;
        scan_address_loop fuel start timeout next_burst addr
          match r with inl (response, src) => record_server response src b | inr _ => b end
  end.

Definition scan_address (addr : SocketAddr) (timeout : Z) : Scan (option (list ServerInfo + IoKind)) := fun s =>
  (start ← clock 0;
   sent ← send_scan_to addr;
   match sent with
   | inr e => mret (Some (inr e))
   | inl _ =>
       r ← scan_address_loop (S (length (sn_unicast s) + Z.to_nat (timeout / 100000000 + 1))) start timeout 1 addr (∅, ∅);
       match r with
       | None => mret None
       | Some (servers, _) => servers ← query_all (order servers) servers; mret (Some (inl (into_values servers)))
       end
   end) s.
End ordered.
End scan.

(** ** Devices *)

Definition hex_digit (d : Z) : Ascii.ascii := Ascii.ascii_of_N (Z.to_N (if d <? 10 then 48 + d else 87 + d)).

(** [unit_id_hex]: two lower-case digits per byte. *)
Fixpoint unit_id_hex (unit_id : list Z) : string :=
  match unit_id with
  | [] => ""
  | b :: bs => String (hex_digit (b / 16)) (String (hex_digit (b mod 16)) (unit_id_hex bs))
  end.

Definition idn_prefix : string := "idn".

Definition format_stable_id (unit_id : list Z) (service_id : Z) : string :=
  idn_prefix +:+ ":" +:+ unit_id_hex unit_id +:+ ":" +:+ pretty (Z.to_N service_id).

(** [IpAddr::to_string]: dotted decimals; IPv6 in groups of hexadecimal digits
    with the longest run of zero groups elided, mapped addresses dotted. *)
Definition octet (ip : Z) (i : Z) : string := pretty (Z.to_N (Z.land (Z.shiftr ip (8 * i)) 255)).

Definition v4_string (ip : Z) : string := octet ip 3 +:+ "." +:+ octet ip 2 +:+ "." +:+ octet ip 1 +:+ "." +:+ octet ip 0.

Definition hex_string (v : Z) : string :=
  let digits := (fun i => Z.land (Z.shiftr v (4 * i)) 15) <$> [3; 2; 1; 0] in
  let fix strip ds := match ds with d :: ((_ :: _) as rest) => if d =? 0 then strip rest else ds | _ => ds end in
  foldr (fun d s => String (hex_digit d) s) EmptyString (strip digits).

Definition segments (ip : Z) : list Z := (fun i => Z.land (Z.shiftr ip (16 * i)) 0xFFFF) <$> [7; 6; 5; 4; 3; 2; 1; 0].

Fixpoint groups (segs : list Z) : string :=
  match segs with
  | [] => ""
  | [g] => hex_string g
  | g :: segs => hex_string g +:+ ":" +:+ groups segs
  end.

(** The first longest run of zero groups, as its start and length. *)
Fixpoint longest_zeros (segs : list Z) (at_ : nat) (cur best : nat * nat) : nat * nat :=
  match segs with
  | [] => best
  | g :: segs =>
      if g =? 0 then
        let cur := if decide (cur.2 = 0)%nat then (at_, 1%nat) else (cur.1, S cur.2) in
        longest_zeros segs (S at_) cur (if decide (best.2 < cur.2)%nat then cur else best)
      else longest_zeros segs (S at_) (0%nat, 0%nat) best
  end.

Definition v6_string (ip : Z) : string :=
  let segs := segments ip in
  if decide (Z.shiftr ip 32 = 0xFFFF) then "::ffff:" +:+ v4_string (Z.land ip 0xFFFFFFFF)
  else
    let '(start, len) := longest_zeros segs 0 (0%nat, 0%nat) (0%nat, 0%nat) in
    if decide (1 < len)%nat then groups (take start segs) +:+ "::" +:+ groups (drop (start + len) segs) else groups segs.

Definition ip_to_string (ip : IpAddr) : string := match ip with V4 a => v4_string a | V6 a => v6_string a end.

(** [ConnectData]. *)
Definition ConnectData : Type := ServerInfo * ServiceInfo.

Definition service_device (server : ServerInfo) (multi_service : bool) (service : ServiceInfo) : DiscoveredDevice ConnectData :=
  let ip_address := addr_ip <$> head (sv_addresses server) in
  let hostname := text (sv_hostname server) in
  let stable_id := format_stable_id (sv_unit_id server) (si_service_id service) in
  let base_name := match ip_address with Some ip => ip_to_string ip | None => hostname end in
  let name := if multi_service then base_name +:+ " (" +:+ text (si_name service) +:+ ")" else base_name in
  let info := with_hostname hostname (with_legacy_id (idn_prefix +:+ ":" +:+ hostname) (DiscoveredDeviceInfo_new Idn stable_id name)) in
  let info := match ip_address with Some ip => with_ip ip info | None => info end in
  DiscoveredDevice_new info (server, service).

(** One device per laser-projector service. *)
Definition server_devices (server : ServerInfo) : list (DiscoveredDevice ConnectData) :=
  let laser_services := List.filter is_laser_projector (sv_services server) in
  service_device server (bool_decide (1 < length laser_services)%nat) <$> laser_services.

Definition servers_to_devices (servers : list ServerInfo) : list (DiscoveredDevice ConnectData) := mjoin (server_devices <$> servers).

Example v4_text : ip_to_string (V4 0xC0A80132) = "192.168.1.50"%string.
Proof. reflexivity. Qed.

Example v6_text : ip_to_string (V6 0xFE800000000000000001000000000A0B) = "fe80::1:0:0:a0b"%string.
Proof. reflexivity. Qed.

Example stable_id_text :
  format_stable_id [0x01; 0x02; 0x03; 0x04; 0x05; 0x06; 0x07; 0x08; 0x09; 0x0a; 0x0b; 0x0c; 0x0d; 0x0e; 0x0f; 0x10] 1 =
  "idn:0102030405060708090a0b0c0d0e0f10:1"%string.
Proof. reflexivity. Qed.

(** ** The book of servers *)

(** Servers and addresses agree: every server is filed under its unit id, has at
    least one address, each once and each IPv4 where [v4] is asked for; and the
    addresses of a server are those filed under its unit id. *)
Definition book_ok (ok_addr : SocketAddr -> bool) (b : Servers * Units) : Prop :=
  (forall u s, b.1 !! u = Some s ->
    sv_unit_id s = u /\ sv_addresses s <> [] /\ NoDup (sv_addresses s) /\
    forall a, a ∈ sv_addresses s -> ok_addr a = true /\ b.2 !! a = Some u) /\
  (forall a u, b.2 !! a = Some u -> exists s, b.1 !! u = Some s /\ a ∈ sv_addresses s).

Lemma push_address_known a s : a ∈ sv_addresses s -> push_address a s = s.
Proof. intros Ha. unfold push_address. by rewrite bool_decide_true. Qed.

Lemma push_address_spec a s : sv_addresses (push_address a s) = (if bool_decide (a ∈ sv_addresses s) then sv_addresses s else sv_addresses s ++ [a])
  /\ sv_unit_id (push_address a s) = sv_unit_id s.
Proof. unfold push_address. by case_bool_decide. Qed.

Lemma record_server_ok v response src b : v src = true -> book_ok v b -> book_ok v (record_server response src b).
Proof.
  intros Hv. destruct b as [servers units]. intros [Hs Hu]. cbn [fst snd] in Hs, Hu. unfold record_server.
  destruct (units !! src) as [unit|] eqn:Hsrc.
  - destruct (Hu src unit Hsrc) as (s & Hsu & Hin). rewrite Hsu, push_address_known by done.
    rewrite insert_id by done. by split.
  - set (unit := sr_unit_id response).
    set (server := match servers !! unit with Some s => s | None => server_of response end).
    assert (Hnew : sv_unit_id server = unit /\ NoDup (sv_addresses server) /\ (src ∉ sv_addresses server) /\
      forall a, a ∈ sv_addresses server -> v a = true /\ units !! a = Some unit /\ servers !! unit = Some server).
    { unfold server. destruct (servers !! unit) as [s|] eqn:Hsu.
      - destruct (Hs unit s Hsu) as (H1 & H2 & H3 & H4). split_and!; [done|done| |intros a Ha; destruct (H4 a Ha); done].
        intros Ha. apply H4 in Ha as [_ Ha]. by rewrite Hsrc in Ha.
      - split_and!; [done|apply NoDup_nil_2|apply not_elem_of_nil|]. intros a Ha. by apply not_elem_of_nil in Ha. }
    destruct Hnew as (Hid & Hnd & Hnin & Hold).
    destruct (push_address_spec src server) as [Ha Hi]. rewrite bool_decide_false in Ha by done. set (s' := push_address src server) in *.
    split; cbn [fst snd].
    + intros u s Hlk. destruct (decide (u = unit)) as [->|Hne].
      * rewrite lookup_insert_eq in Hlk. injection Hlk as <-. rewrite Ha, Hi. split_and!; [done|by destruct (sv_addresses server)| |].
        -- apply NoDup_app. split_and!; [done| |apply NoDup_singleton]. intros a Ha1 Ha2%list_elem_of_singleton. by subst.
        -- intros a [Ha1|Ha1]%elem_of_app.
           ++ destruct (Hold a Ha1) as (? & ? & _). split; [done|]. rewrite lookup_insert_ne by (intros <-; done). done.
           ++ apply list_elem_of_singleton in Ha1 as ->. by rewrite lookup_insert_eq.
      * rewrite lookup_insert_ne in Hlk by done. destruct (Hs u s Hlk) as (H1 & H2 & H3 & H4). split_and!; [done|done|done|].
        intros a Ha1. destruct (H4 a Ha1) as [? Hlu]. split; [done|]. rewrite lookup_insert_ne; [done|]. intros <-. by rewrite Hsrc in Hlu.
    + intros a u Hlk. destruct (decide (a = src)) as [->|Hne].
      * rewrite lookup_insert_eq in Hlk. injection Hlk as <-. exists s'. rewrite lookup_insert_eq, Ha. split; [done|].
        apply elem_of_app. right. by apply list_elem_of_singleton.
      * rewrite lookup_insert_ne in Hlk by done. destruct (Hu a u Hlk) as (s & Hsu & Hin). destruct (decide (u = unit)) as [->|Hnu].
        -- exists s'. rewrite lookup_insert_eq, Ha. split; [done|]. apply elem_of_app. left. unfold server. by rewrite Hsu.
        -- exists s. by rewrite lookup_insert_ne.
Qed.

Lemma book_ok_empty v : book_ok v (∅, ∅).
Proof. split; [intros u s Hl|intros a u Hl]; cbn [fst snd] in Hl; by rewrite lookup_empty in Hl. Qed.

Lemma process_ipv4 `{ByteOrder} data src response src' : process_scan_response data src = Some (response, src') -> src' = src /\ is_ipv4 src = true.
Proof.
  unfold process_scan_response. case_decide; [done|]. destruct (read_from_bytes data) as [[header cursor]|]; cbn; [|done].
  destruct (negb _); [done|]. destruct (read_from_bytes cursor) as [[resp ?]|]; cbn; [|done].
  destruct (is_ipv4 src); cbn; [|done]. by intros [= -> ->].
Qed.

Lemma take_poll_ok `{ByteOrder} p b : book_ok is_ipv4 b -> book_ok is_ipv4 (take_poll p b).1.
Proof.
  intros Hb. destruct p as [data src| |]; [|done|done]. unfold take_poll. destruct (process_scan_response data src) as [[r a]|] eqn:Hp; [|done].
  apply process_ipv4 in Hp as [-> Hv]. by apply record_server_ok.
Qed.

(** ** The scan ends *)

(** Time goes on and the scripts only shrink; the endpoints stay. *)
Definition later (s s' : ServerScanner) : Prop :=
  sn_now s <= sn_now s' /\ (pending s' <= pending s)%nat /\ length (sn_endpoints s') = length (sn_endpoints s).

#[export] Instance later_preorder : PreOrder later.
Proof. split; [intros s; unfold later; lia|intros a b c; unfold later; lia]. Qed.

Definition goes_on {A} (m : Scan A) : Prop := forall s, later s (m s).2.

Lemma goes_on_ret {A} (a : A) : goes_on (mret a).
Proof. intros s. reflexivity. Qed.

Lemma goes_on_bind {A B} (m : Scan A) (k : A -> Scan B) : goes_on m -> (forall a, goes_on (k a)) -> goes_on (m ≫= k).
Proof.
  intros Hm Hk s. specialize (Hm s). unfold mbind, Scan_bind. destruct (m s) as [a s1]. etransitivity; [exact Hm|apply Hk].
Qed.

Lemma scan_run_bind {A B} (m : Scan A) (k : A -> Scan B) s : (m ≫= k) s = k (m s).1 (m s).2.
Proof. unfold mbind, Scan_bind. by destruct (m s). Qed.

Create HintDb scans.
#[export] Hint Resolve goes_on_ret goes_on_bind : scans.

Lemma goes_on_clock d : 0 <= d -> goes_on (clock d).
Proof. intros Hd s. unfold later. cbn. split_and!; [destruct (sn_ticks s); lia|done|done]. Qed.

Lemma goes_on_since start : goes_on (since start).
Proof. apply goes_on_bind; [by apply goes_on_clock|intros; apply goes_on_ret]. Qed.

Lemma goes_on_sleep d : 0 <= d -> goes_on (scan_sleep d).
Proof. intros. apply goes_on_bind; [by apply goes_on_clock|intros; apply goes_on_ret]. Qed.

Lemma goes_on_send bs dest : goes_on (send_to bs dest).
Proof. intros s. unfold send_to. destruct (sn_sends s) as [|[e|] rest]; unfold later, pending; cbn; lia. Qed.

Lemma goes_on_sequence : goes_on scan_sequence.
Proof. intros s. unfold later, pending; cbn; lia. Qed.

Lemma goes_on_group : goes_on scan_group.
Proof. intros s. reflexivity. Qed.

Lemma goes_on_get {A} (f : ServerScanner -> A) : goes_on (fun s => (f s, s)).
Proof. intros s. reflexivity. Qed.

#[export] Hint Resolve goes_on_since goes_on_send goes_on_sequence goes_on_group goes_on_get : scans.
#[export] Hint Extern 2 (goes_on (clock _)) => (apply goes_on_clock; lia) : scans.
#[export] Hint Extern 2 (goes_on (scan_sleep _)) => (apply goes_on_sleep; lia) : scans.

Lemma goes_on_send_all packet dests : goes_on (send_all packet dests).
Proof. induction dests; cbn [send_all]; eauto with scans. Qed.
#[export] Hint Resolve goes_on_send_all : scans.

Lemma goes_on_unicast s : later s (recv_unicast s).2 /\
  match (recv_unicast s).1 with Got _ _ => (pending (recv_unicast s).2 < pending s)%nat | _ => True end.
Proof.
  unfold later, recv_unicast, pending. cbn. destruct (sn_unicast s) as [|[data src| |e] rest]; cbn; lia.
Qed.

Lemma sum_list_insert i (x y : nat) l : l !! i = Some x -> (sum_list (<[i := y]> l) + x = sum_list l + y)%nat.
Proof. revert i. induction l as [|z l IH]; intros [|i] Hi; [done|done|injection Hi as ->; cbn; lia|].
  change (z + sum_list (<[i := y]> l) + x = z + sum_list l + y)%nat. specialize (IH i Hi). lia.
Qed.

Lemma goes_on_endpoint i s : later s (recv_endpoint i s).2 /\
  match (recv_endpoint i s).1 with Got _ _ => (pending (recv_endpoint i s).2 < pending s)%nat | _ => True end.
Proof.
  unfold recv_endpoint. destruct (sn_endpoints s !! i) as [e|] eqn:He; [|by split]. unfold later, pending. cbn.
  rewrite length_insert, list_fmap_insert. cbn [ep_reads].
  assert (Hs := sum_list_insert i (length (ep_reads e)) (length (tail (ep_reads e))) ((fun e => length (ep_reads e)) <$> sn_endpoints s)).
  rewrite list_lookup_fmap, He in Hs. specialize (Hs eq_refl). destruct (ep_reads e) as [|[data src| |k] rest]; cbn in *; lia.
Qed.

Section ends.
Context `{ByteOrder}.

Lemma goes_on_broadcast : goes_on send_broadcast_scan.
Proof. unfold send_broadcast_scan. eauto 6 with scans. Qed.

Lemma goes_on_burst start timeout n send : goes_on send -> goes_on (burst start timeout n send).
Proof. intros Hs. unfold burst. destruct (_ <? _); [|eauto with scans]. apply goes_on_bind; [eauto with scans|]. intros e. destruct (_ <=? _); eauto with scans. Qed.

(** A round over the endpoints: the book stays in order, and a datagram was
    taken off some script. *)
Lemma poll_endpoints_spec n : forall i b any s, book_ok is_ipv4 b ->
  let r := poll_endpoints n i b any s in
  later s r.2 /\ book_ok is_ipv4 r.1.1 /\ (r.1.2 = true -> any = true \/ (pending r.2 < pending s)%nat).
Proof.
  induction n as [|n IH]; intros i b any s Hb; cbn [poll_endpoints]; [by split_and!; [reflexivity| |left]|].
  rewrite scan_run_bind. destruct (goes_on_endpoint i s) as [Hl Hg]. destruct (recv_endpoint i s) as [p s1]. cbn [fst snd] in *.
  pose proof (take_poll_ok p b Hb) as Hb1. destruct (take_poll p b) as [b1 got] eqn:Ht. cbn [fst] in Hb1.
  specialize (IH (S i) b1 (any || got) s1 Hb1). destruct (poll_endpoints n (S i) b1 (any || got) s1) as [[b2 any2] s2]. cbn [fst snd] in *.
  destruct IH as (H1 & H2 & H3). split_and!; [by etransitivity|done|]. intros Ha. destruct (H3 Ha) as [Hor|Hlt].
  - apply orb_true_iff in Hor as [->|Hgot]; [by left|]. right. destruct p; [|by injection Ht as _ <-|by injection Ht as _ <-].
    destruct H1 as (_ & H1 & _). cbn in Hg. lia.
  - right. destruct Hl as (_ & Hl & _). lia.
Qed.

(** *** What was heard *)

(** The scripts of all the sockets. *)
Definition scripts (s : ServerScanner) : list (list poll) := sn_unicast s :: (ep_reads <$> sn_endpoints s).

(** [a] answers with the scan response [r] in a read. *)
Definition answer (p : poll) (a : SocketAddr) (r : ScanResponse) : Prop :=
  exists data, p = Got data a /\ process_scan_response data a = Some (r, a).

(** [a] answered with [r] in one of the first [n] reads of some socket. *)
Definition heard_in (n : nat) (s : ServerScanner) (a : SocketAddr) (r : ScanResponse) : Prop :=
  exists script p, script ∈ scripts s /\ p ∈ take n script /\ answer (cut p) a r.

(** What a reply says about its server. *)
Definition told (s : ServerInfo) : list Z * str * (Z * Z) * Z := (sv_unit_id s, sv_hostname s, sv_protocol_version s, sv_status s).

(** The book holds exactly the addresses that answered, and each server as one of
    its addresses described it. *)
Definition book_of (K : SocketAddr -> ScanResponse -> Prop) (b : Servers * Units) : Prop :=
  (forall a, is_Some (b.2 !! a) <-> exists r, K a r) /\
  (forall u sv, b.1 !! u = Some sv -> exists a r, K a r /\ a ∈ sv_addresses sv /\ told sv = told (server_of r)).

Lemma book_of_iff K K' b : (forall a r, K a r <-> K' a r) -> book_of K b -> book_of K' b.
Proof.
  intros He [H1 H2]. split.
  - intros a. rewrite H1. split; intros (r & Hr); exists r; by apply He.
  - intros u sv Hu. destruct (H2 u sv Hu) as (a & r & Hr & Ht). exists a, r. split; [by apply He|done].
Qed.

Lemma told_push a s : told (push_address a s) = told s /\ (forall b, b ∈ sv_addresses s -> b ∈ sv_addresses (push_address a s)) /\ a ∈ sv_addresses (push_address a s).
Proof.
  unfold push_address. case_bool_decide; [done|]. cbn. split; [done|]. split; [intros b Hb; apply elem_of_app; by left|].
  apply elem_of_app. right. by apply list_elem_of_singleton.
Qed.

Lemma book_of_record K b a r : book_ok is_ipv4 b -> book_of K b -> book_of (fun a' r' => K a' r' \/ a' = a /\ r' = r) (record_server r a b).
Proof.
  destruct b as [servers units]. intros [Hs Hu] [H1 H2].
  assert (Hold : forall u sv, servers !! u = Some sv -> exists a' r', (K a' r' \/ a' = a /\ r' = r) /\ a' ∈ sv_addresses sv /\ told sv = told (server_of r')).
  { intros u sv Hsv. destruct (H2 u sv Hsv) as (a' & r' & ? & ?). exists a', r'. auto. }
  unfold record_server. cbn [fst snd] in *. destruct (units !! a) as [u|] eqn:Ha.
  - destruct (Hu a u Ha) as (sv & Hsv & Hin). rewrite Hsv. split; cbn [fst snd].
    + intros a'. rewrite H1. split; [intros (r' & Hr'); exists r'; by left|]. intros (r' & [Hr'|[-> ->]]); [by exists r'|]. apply H1. by rewrite Ha.
    + intros u' sv' Hl. destruct (decide (u' = u)) as [->|Hne]; [|rewrite lookup_insert_ne in Hl by done; by apply (Hold u')].
      rewrite lookup_insert_eq in Hl. injection Hl as <-. destruct (H2 u sv Hsv) as (a' & r' & Hh & Hin' & Ht).
      destruct (told_push a sv) as (Hp & Hk & _). exists a', r'. rewrite Hp. auto.
  - set (server := match servers !! sr_unit_id r with Some s => s | None => server_of r end). split; cbn [fst snd].
    + intros a'. destruct (decide (a' = a)) as [->|Hne]; [rewrite lookup_insert_eq; split; [intros _; exists r; by right|done]|].
      rewrite lookup_insert_ne by done. rewrite H1. split; intros (r' & Hr'); exists r'; [by left|]. by destruct Hr' as [?|[? _]].
    + intros u' sv' Hl. destruct (decide (u' = sr_unit_id r)) as [->|Hne]; [|rewrite lookup_insert_ne in Hl by done; by apply (Hold u')].
      rewrite lookup_insert_eq in Hl. injection Hl as <-. destruct (told_push a server) as (Hp & Hk & Hin). rewrite Hp. unfold server in *.
      destruct (servers !! sr_unit_id r) as [sv|] eqn:Hsv; [|exists a, r; auto].
      destruct (H2 _ sv Hsv) as (a' & r' & Hh & Hin' & Ht). exists a', r'. auto.
Qed.

Lemma book_of_poll K p b : book_ok is_ipv4 b -> book_of K b -> book_of (fun a r => K a r \/ answer p a r) (take_poll p b).1.
Proof.
  intros Hb Hh.
  assert (Hnone : (forall a r, ~ answer p a r) -> book_of (fun a r => K a r \/ answer p a r) b).
  { intros Hn. eapply book_of_iff; [|exact Hh]. intros a r. split; [by left|]. intros [?|Ha]; [done|]. by destruct (Hn a r). }
  destruct p as [data src| |k]; [|by apply Hnone; intros a r (data & ? & _)..]. cbn [take_poll fst].
  destruct (process_scan_response data src) as [[r a]|] eqn:Hp.
  - pose proof (process_ipv4 _ _ _ _ Hp) as [-> _]. eapply book_of_iff; [|by apply book_of_record]. intros a' r'.
    split; (intros [?|Ha]; [by left|right]); [destruct Ha as [-> ->]; by exists data|].
    destruct Ha as (data' & [= <- <-] & Hp'). rewrite Hp in Hp'. by injection Hp' as <-.
  - apply Hnone. intros a r (data' & [= <- <-] & Hp'). by rewrite Hp in Hp'.
Qed.

(** Steps that read no socket and take no time of their own. *)
Definition aside {A} (m : Scan A) : Prop := forall s, scripts (m s).2 = scripts s /\ length (sn_endpoints (m s).2) = length (sn_endpoints s) /\
  (sn_ticks s = [] -> sn_ticks (m s).2 = [] /\ sn_now (m s).2 = sn_now s).

Lemma aside_ret {A} (a : A) : aside (mret a).
Proof. by intros s. Qed.

Lemma aside_bind {A B} (m : Scan A) (k : A -> Scan B) : aside m -> (forall a, aside (k a)) -> aside (m ≫= k).
Proof.
  intros Hm Hk s. rewrite scan_run_bind. destruct (Hm s) as (H1 & H2 & H3), (Hk (m s).1 (m s).2) as (H4 & H5 & H6).
  split; [congruence|]. split; [congruence|]. intros Ht. destruct (H3 Ht) as [Ht' <-]. by apply H6.
Qed.

Lemma aside_clock : aside (clock 0).
Proof. intros s. unfold clock. cbn. split; [done|]. split; [done|]. intros ->. cbn. split; [done|lia]. Qed.

Lemma aside_send bs dest : aside (send_to bs dest).
Proof. intros s. unfold send_to. by destruct (sn_sends s) as [|[e|] rest]. Qed.

Lemma aside_sequence : aside scan_sequence.
Proof. by intros s. Qed.

Lemma aside_get {A} (f : ServerScanner -> A) : aside (fun s => (f s, s)).
Proof. by intros s. Qed.

#[local] Hint Resolve aside_ret aside_bind aside_clock aside_send aside_sequence aside_get : scans.

Lemma aside_send_all packet dests : aside (send_all packet dests).
Proof. induction dests; cbn [send_all]; eauto with scans. Qed.
#[local] Hint Resolve aside_send_all : scans.

Lemma aside_broadcast : aside send_broadcast_scan.
Proof. unfold send_broadcast_scan, scan_group. eauto 6 with scans. Qed.
#[local] Hint Resolve aside_broadcast : scans.

Lemma aside_since start : aside (since start).
Proof. unfold since. eauto with scans. Qed.
#[local] Hint Resolve aside_since : scans.

Lemma aside_burst start timeout n : aside (burst start timeout n send_broadcast_scan).
Proof. unfold burst. destruct (_ <? _); [|eauto with scans]. apply aside_bind; [eauto with scans|]. intros e. destruct (_ <=? _); eauto with scans. Qed.

(** The next read of a script. *)
Lemma next_read (script : list poll) K b : book_ok is_ipv4 b -> book_of K b ->
  book_of (fun a r => K a r \/ exists p, p ∈ take 1 script /\ answer (cut p) a r)
    (take_poll match script with p :: _ => cut p | [] => NoData end b).1.
Proof.
  intros Hb Hh. eapply book_of_iff; [|by apply book_of_poll]. intros a r. destruct script as [|p script]; cbn [take].
  - split; [intros [?|(data & ? & _)]; [by left|done]|intros [?|(p & Hp & _)]; [by left|by apply not_elem_of_nil in Hp]].
  - split; (intros [?|Hex]; [by left|right]); [exists p; split; [by apply list_elem_of_singleton|done]|].
    destruct Hex as (q & ->%list_elem_of_singleton & ?). done.
Qed.

Lemma poll_endpoints_heard n : forall i K b any s, book_ok is_ipv4 b -> book_of K b -> (i + n = length (sn_endpoints s))%nat ->
  let r := poll_endpoints n i b any s in
  book_of (fun a r => K a r \/ exists script p, script ∈ drop i (ep_reads <$> sn_endpoints s) /\ p ∈ take 1 script /\ answer (cut p) a r) r.1.1 /\
  ep_reads <$> sn_endpoints r.2 = take i (ep_reads <$> sn_endpoints s) ++ (tail <$> drop i (ep_reads <$> sn_endpoints s)) /\
  sn_unicast r.2 = sn_unicast s /\ sn_ticks r.2 = sn_ticks s /\ sn_now r.2 = sn_now s.
Proof.
  induction n as [|n IH]; intros i K b any s Hb Hh Hi; cbn [poll_endpoints].
  - rewrite drop_ge, take_ge by (rewrite length_fmap; lia). cbn. split; [|by rewrite app_nil_r].
    eapply book_of_iff; [|exact Hh]. intros a r. split; [by left|]. intros [?|(script & p & Hs & _)]; [done|by apply not_elem_of_nil in Hs].
  - rewrite scan_run_bind. unfold recv_endpoint. destruct (lookup_lt_is_Some_2 (sn_endpoints s) i ltac:(lia)) as [e He]. rewrite He. cbn [fst snd].
    pose proof (next_read (ep_reads e) K b Hb Hh) as Hn. set (p := match ep_reads e with p :: _ => cut p | [] => NoData end) in *.
    pose proof (take_poll_ok p b Hb) as Hb1. destruct (take_poll p b) as [b1 got]. cbn [fst snd] in *. set (s1 := mkScanner _ _ _ _ _ _ _ _).
    destruct (IH (S i) _ b1 (any || got) s1 Hb1 Hn) as (H1 & H2 & H3 & H4 & H5); [unfold s1; cbn; rewrite length_insert; lia|].
    assert (Hre : ep_reads <$> sn_endpoints s1 = <[i := tail (ep_reads e)]> (ep_reads <$> sn_endpoints s)) by (unfold s1; cbn; by rewrite list_fmap_insert).
    assert (Hl : (ep_reads <$> sn_endpoints s) !! i = Some (ep_reads e)) by (by rewrite list_lookup_fmap, He).
    assert (Hlt : (i < length (ep_reads <$> sn_endpoints s))%nat) by (by apply lookup_lt_Some in Hl).
    rewrite Hre in H1, H2. rewrite drop_insert_lt in H1 by lia. rewrite drop_insert_lt in H2 by lia.
    split; [|split; [|done]].
    + eapply book_of_iff; [|exact H1]. intros a r. rewrite (drop_S _ _ _ Hl). split.
      * intros [[?|(q & Hq & Ha)]|(script & q & Hs & Hq & Ha)]; [by left| |]; right.
        -- exists (ep_reads e), q. split; [apply list_elem_of_here|done].
        -- exists script, q. split; [by apply list_elem_of_further|done].
      * intros [?|(script & q & Hs & Hq & Ha)]; [by left; left|]. apply elem_of_cons in Hs as [->|Hs]; [left; right; by exists q|].
        right. by exists script, q.
    + rewrite H2, (drop_S _ _ _ Hl). rewrite (take_S_r _ _ (tail (ep_reads e))) by (by apply list_lookup_insert_eq).
      rewrite take_insert_ge by lia. rewrite <- app_assoc. done.
Qed.

Lemma heard_one n s s' a r : scripts s' = tail <$> scripts s ->
  heard_in (S n) s a r <-> heard_in 1 s a r \/ heard_in n s' a r.
Proof.
  intros He. unfold heard_in. rewrite He. split.
  - intros (script & p & Hs & Hp & Ha). destruct script as [|q script]; [by apply not_elem_of_nil in Hp|]. cbn [take] in Hp.
    apply elem_of_cons in Hp as [->|Hp]; [left|right].
    + exists (q :: script), q. split; [done|]. split; [by apply list_elem_of_singleton|done].
    + exists script, p. split; [|done]. apply list_elem_of_fmap. by exists (q :: script).
  - intros [(script & p & Hs & Hp & Ha)|(script & p & Hs & Hp & Ha)].
    + exists script, p. split; [done|]. split; [|done]. destruct script as [|q script]; [done|]. cbn [take] in *.
      apply list_elem_of_singleton in Hp as ->. apply list_elem_of_here.
    + apply list_elem_of_fmap in Hs as ([|q script'] & -> & Hs); [cbn in Hp; rewrite take_nil in Hp; by apply not_elem_of_nil in Hp|].
      exists (q :: script'), p. split; [done|]. split; [by apply list_elem_of_further|done].
Qed.

(** The rounds a scan can still take. *)
Definition rounds_left (start timeout : Z) (s : ServerScanner) : nat :=
  let rem := timeout - (sn_now s - start) in
  (pending s + if (0 <? rem)%Z then Z.to_nat (rem / 5000000 + 1) else 0)%nat.

Lemma rounds_left_later start timeout s s' : later s s' -> (rounds_left start timeout s' <= rounds_left start timeout s)%nat.
Proof.
  intros (H1 & H2 & _). unfold rounds_left.
  destruct (Z.ltb_spec 0 (timeout - (sn_now s' - start))), (Z.ltb_spec 0 (timeout - (sn_now s - start))); try lia.
  assert ((timeout - (sn_now s' - start)) / 5000000 <= (timeout - (sn_now s - start)) / 5000000) by (apply Z.div_le_mono; lia). lia.
Qed.

Lemma rounds_left_read start timeout s s' : later s s' -> (pending s' < pending s)%nat -> (rounds_left start timeout s' < rounds_left start timeout s)%nat.
Proof.
  intros (H1 & H2 & _) Hp. unfold rounds_left.
  destruct (Z.ltb_spec 0 (timeout - (sn_now s' - start))), (Z.ltb_spec 0 (timeout - (sn_now s - start))); try lia.
  assert ((timeout - (sn_now s' - start)) / 5000000 <= (timeout - (sn_now s - start)) / 5000000) by (apply Z.div_le_mono; lia). lia.
Qed.

Lemma rounds_left_sleep start timeout s s' : later s s' -> sn_now s - start < timeout -> sn_now s + 5000000 <= sn_now s' ->
  (rounds_left start timeout s' < rounds_left start timeout s)%nat.
Proof.
  intros (H1 & H2 & _) Hr Hs. unfold rounds_left.
  destruct (Z.ltb_spec 0 (timeout - (sn_now s - start))); [|lia].
  assert (0 <= (timeout - (sn_now s - start)) / 5000000) by (apply Z.div_pos; lia).
  destruct (Z.ltb_spec 0 (timeout - (sn_now s' - start))); [|lia].
  assert (0 <= (timeout - (sn_now s' - start)) / 5000000) by (apply Z.div_pos; lia).
  assert ((timeout - (sn_now s' - start)) / 5000000 + 1 <= (timeout - (sn_now s - start)) / 5000000).
  { rewrite <- Z.div_add by done. apply Z.div_le_mono; lia. }
  lia.
Qed.

Lemma sleep_advances d s : sn_now s + d <= sn_now (scan_sleep d s).2.
Proof. unfold scan_sleep. rewrite scan_run_bind. cbn. destruct (sn_ticks s); lia. Qed.

(** One round over all the sockets reads the next datagram of each. *)
Lemma round_heard K b s : book_ok is_ipv4 b -> book_of K b ->
  let r := poll_endpoints (length (sn_endpoints s)) 0 b false s in
  let u := recv_unicast r.2 in
  book_ok is_ipv4 (take_poll u.1 r.1.1).1 /\ book_of (fun a x => K a x \/ heard_in 1 s a x) (take_poll u.1 r.1.1).1 /\
  scripts u.2 = tail <$> scripts s /\ sn_ticks u.2 = sn_ticks s /\ sn_now u.2 = sn_now s.
Proof.
  intros Hb Hk r u. destruct (poll_endpoints_spec (length (sn_endpoints s)) 0 b false s Hb) as (_ & Hb1 & _).
  destruct (poll_endpoints_heard (length (sn_endpoints s)) 0 K b false s Hb Hk eq_refl) as (Hk1 & He & Hu & Ht & Hn). fold r in Hb1, Hk1, He, Hu, Ht, Hn.
  pose proof (next_read (sn_unicast r.2) _ _ Hb1 Hk1) as Hk2. split; [by apply take_poll_ok|]. split.
  - eapply book_of_iff; [|exact Hk2]. intros a x. rewrite Hu, drop_0. unfold heard_in, scripts. split.
    + intros [[?|(script & p & Hs & Hp)]|(p & Hp)]; [by left|right; exists script, p; split; [by apply list_elem_of_further|done]|].
      right. exists (sn_unicast s), p. split; [apply list_elem_of_here|done].
    + intros [?|(script & p & Hs & Hp)]; [by left; left|]. apply elem_of_cons in Hs as [->|Hs]; [right; by exists p|left; right; by exists script, p].
  - unfold u, scripts. cbn. rewrite He, drop_0, Hu. done.
Qed.

(** The loop ends, after [n] rounds: the book then holds what the first [n] reads
    of every socket told; and when only sleeping takes time, the rounds last for the
    whole timeout. *)
Lemma scan_loop_ends fuel : forall start timeout nb K b s, book_ok is_ipv4 b -> book_of K b -> (rounds_left start timeout s < fuel)%nat ->
  exists n b' s', scan_loop fuel start timeout nb b s = (Some b', s') /\ book_ok is_ipv4 b' /\
    book_of (fun a r => K a r \/ heard_in n s a r) b' /\ (sn_ticks s = [] -> start <= sn_now s -> timeout <= sn_now s - start + 5000000 * Z.of_nat n).
Proof.
  induction fuel as [|fuel IH]; intros start timeout nb K b s Hb Hk Hf; [lia|]. cbn [scan_loop]. rewrite scan_run_bind.
  pose proof (goes_on_since start s) as H1. pose proof (aside_since start s) as (A1 & _ & T1).
  assert (He : (since start s).1 = duration_since (sn_now (since start s).2) start) by (unfold since; rewrite scan_run_bind; done).
  destruct (since start s) as [e s1]. cbn [fst snd] in *. destruct (Z.leb_spec timeout e).
  { exists 0%nat, b, s1. split; [done|]. split; [done|]. split.
    - eapply book_of_iff; [|exact Hk]. intros a r. split; [by left|]. intros [?|(script & p & _ & Hp & _)]; [done|by apply not_elem_of_nil in Hp].
    - intros Ht Hle. destruct (T1 Ht) as [_ Hn]. unfold duration_since in He. lia. }
  rewrite scan_run_bind. pose proof (goes_on_burst start timeout nb _ goes_on_broadcast s1) as H2. pose proof (aside_burst start timeout nb s1) as (A2 & _ & T2).
  destruct (burst _ _ _ _ s1) as [n' s2]. cbn [fst snd] in *. rewrite scan_run_bind. cbn [fst snd]. rewrite scan_run_bind.
  destruct (poll_endpoints_spec (length (sn_endpoints s2)) 0 b false s2 Hb) as (H3 & Hb3 & Hg3).
  pose proof (round_heard K b s2 Hb Hk) as (Hb4 & Hk4 & A4 & T4 & N4).
  destruct (poll_endpoints _ 0 b false s2) as [[b3 any] s3]. cbn [fst snd] in *. rewrite scan_run_bind.
  destruct (goes_on_unicast s3) as [H4 Hg4]. destruct (recv_unicast s3) as [p s4]. cbn [fst snd] in *.
  destruct (take_poll p b3) as [b4 got] eqn:Ht. cbn [fst] in Hb4, Hk4. rewrite scan_run_bind.
  assert (H24 : later s1 s4) by (etransitivity; [exact H2|etransitivity; eassumption]).
  match goal with |- context[(if negb (any || got) then ?x else ?y) s4] => set (s5 := ((if negb (any || got) then x else y) s4).2) end.
  assert (H5 : later s4 s5) by (unfold s5; destruct (negb _); [apply goes_on_sleep; lia|apply goes_on_ret]).
  assert (A5 : scripts s5 = scripts s4 /\ (sn_ticks s4 = [] -> sn_ticks s5 = [] /\ sn_now s5 <= sn_now s4 + 5000000)).
  { unfold s5. destruct (negb _); [|split; [done|cbn; intros Hq; split; [done|lia]]]. unfold scan_sleep, clock. rewrite scan_run_bind. cbn.
    split; [done|]. intros ->. cbn. split; [done|lia]. }
  assert (H05 : later s s5) by (etransitivity; [exact H1|etransitivity; eassumption]).
  assert (Hlt : (rounds_left start timeout s5 < rounds_left start timeout s)%nat).
  { destruct (any || got) eqn:Hor.
    - assert (Hp : (pending s4 < pending s1)%nat).
      { destruct H2 as (_ & H2 & _), H3 as (_ & H3 & _), H4 as (_ & H4 & _). apply orb_true_iff in Hor as [-> | ->].
        - destruct (Hg3 eq_refl) as [|]; [done|]. lia.
        - destruct p; [|by injection Ht|by injection Ht]. cbn in Hg4. lia. }
      apply rounds_left_read; [done|]. destruct H1 as (_ & H1 & _), H5 as (_ & H5 & _). lia.
    - eapply Nat.lt_le_trans; [|apply (rounds_left_later start timeout s s1 H1)]. apply rounds_left_sleep; [by etransitivity| |].
      + unfold duration_since in He. lia.
      + unfold s5. cbn [negb]. pose proof (sleep_advances 5000000 s4). destruct H24 as (H24 & _). lia. }
  destruct (IH start timeout n' _ b4 s5 Hb4 Hk4 ltac:(lia)) as (n & b' & s' & Hrun & Hb' & Hk' & Hn). exists (S n), b', s'.
  split; [exact Hrun|]. split; [done|]. split.
  - eapply book_of_iff; [|exact Hk']. intros a r. rewrite (heard_one n s s5); [|destruct A5 as [-> _]; rewrite A4, A2, A1; done].
    assert (Heq : heard_in 1 s2 a r <-> heard_in 1 s a r) by (unfold heard_in; by rewrite A2, A1). tauto.
  - intros Hq Hle. destruct (T1 Hq) as [Hq1 N1], (T2 Hq1) as [Hq2 N2]. destruct A5 as [_ T5]. rewrite Hq2 in T4. destruct (T5 T4) as [Hq5 N5]. destruct H05 as (H05 & _). specialize (Hn Hq5 ltac:(lia)). lia.
Qed.
End ends.

(** ** What a scan returns *)
Section result.
Context `{ByteOrder}.

(** A service-map query changes nothing but the relays and services. *)
Definition identity (s : ServerInfo) : list Z * str * (Z * Z) * Z * list SocketAddr :=
  (sv_unit_id s, sv_hostname s, sv_protocol_version s, sv_status s, sv_addresses s).

Lemma query_identity n : forall e server addr s, identity (query_attempts n e server addr s).1.1 = identity server.
Proof.
  induction n as [|n IH]; intros e server addr s; [done|]. cbn [query_attempts]. rewrite !scan_run_bind.
  destruct (send_to _ addr _) as [[u|k] s4]; cbn [fst snd]; [|done]. rewrite scan_run_bind.
  destruct (recv_service_map _ _) as [[[relays services]|k] s5]; [done|apply IH].
Qed.

Lemma query_all_identity units : forall (servers : Servers) s, identity <$> (query_all units servers s).1 = identity <$> servers.
Proof.
  induction units as [|u units IH]; intros servers s; [done|]. cbn [query_all]. destruct (servers !! u) as [server|] eqn:Hu; [|apply IH].
  destruct (head (sv_addresses server)) as [addr|]; [|apply IH]. rewrite scan_run_bind, IH, fmap_insert.
  unfold query_service_map. rewrite query_identity. apply insert_id. by rewrite lookup_fmap, Hu.
Qed.

Lemma omap_lookup_ids (m : Servers) (ks : list (list Z)) : (forall u, u ∈ ks -> is_Some (m !! u)) -> (forall u s, m !! u = Some s -> sv_unit_id s = u) ->
  sv_unit_id <$> omap (fun u => m !! u) ks = ks.
Proof.
  intros Hk Hm. induction ks as [|u ks IH]; [done|]. cbn. destruct (Hk u (list_elem_of_here _ _)) as [s Hs]. rewrite Hs. cbn.
  rewrite (Hm u s Hs), IH; [done|]. intros v Hv. apply Hk. by apply list_elem_of_further.
Qed.

(** C15. A network scan always ends, whatever the sockets deliver and however the
    clock advances, and returns exactly the servers that answered while it listened:
    it reads every socket [n] times; each IPv4 address that sent a valid scan response
    in those reads is listed, with one server and once, and no other address is; and
    every server listed has an address of its own and the unit id, host name, version
    and status that one of its addresses reported.  The unit ids are distinct, for
    every iteration order of the hash maps.  When only sleeping takes time, the
    sockets are read for the whole timeout, at least once every five milliseconds. *)
Theorem scan_finds_each_server_once (order : Servers -> list (list Z)) timeout s :
  (forall m, order m ≡ₚ (map_to_list m).*1) ->
  exists n l s', scan_for_servers_in order timeout s = (Some l, s') /\ NoDup (sv_unit_id <$> l) /\
    (forall a r, heard_in n s a r -> exists sv, sv ∈ l /\ a ∈ sv_addresses sv) /\
    (forall sv, sv ∈ l -> sv_addresses sv <> [] /\ NoDup (sv_addresses sv) /\
       (forall a, a ∈ sv_addresses sv -> is_ipv4 a = true /\ exists r, heard_in n s a r) /\
       exists a r, a ∈ sv_addresses sv /\ heard_in n s a r /\ told sv = told (server_of r)) /\
    (forall sv sv' a, sv ∈ l -> sv' ∈ l -> a ∈ sv_addresses sv -> a ∈ sv_addresses sv' -> sv = sv') /\
    (sn_ticks s = [] -> timeout <= 5000000 * Z.of_nat n).
Proof.
  intros Horder. unfold scan_for_servers_in. rewrite scan_run_bind. pose proof (goes_on_clock 0 ltac:(lia) s) as H1.
  pose proof (aside_clock s) as (A1 & _ & T1).
  assert (Hst : (clock 0 s).1 = sn_now (clock 0 s).2) by done. destruct (clock 0 s) as [start s1]. cbn [fst snd] in *.
  rewrite scan_run_bind. pose proof (goes_on_broadcast s1) as H2. pose proof (aside_broadcast s1) as (A2 & _ & T2). destruct (send_broadcast_scan s1) as [[] s2]. cbn [fst snd] in *.
  rewrite scan_run_bind.
  assert (Hfuel : (rounds_left start timeout s2 < S (pending s + Z.to_nat (timeout / 5000000 + 1)))%nat).
  { eapply Nat.le_lt_trans; [apply (rounds_left_later _ _ s1 s2 H2)|]. unfold rounds_left. subst start. rewrite Z.sub_diag, Z.sub_0_r.
    destruct H1 as (_ & H1 & _). destruct (Z.ltb_spec 0 timeout); lia. }
  assert (Hnone : book_of (fun _ _ => False) (∅ : Servers, ∅ : Units)).
  { split; [intros a|intros u sv Hl]; cbn [fst snd] in *; [|by rewrite lookup_empty in Hl]. rewrite lookup_empty. split; [by intros [? ?]|naive_solver]. }
  destruct (scan_loop_ends _ start timeout 1 _ (∅, ∅) s2 (book_ok_empty _) Hnone Hfuel) as (n & [servers units] & s3 & -> & [Hb Hu] & [Hdom Htold] & Hlong).
  cbn [fst snd] in *. rewrite scan_run_bind. pose proof (query_all_identity (order servers) servers s3) as Hid.
  destruct (query_all (order servers) servers s3) as [m s4]. cbn [fst snd] in *.
  assert (Hh : forall a r, (False \/ heard_in n s2 a r) <-> heard_in n s a r).
  { intros a r. unfold heard_in. rewrite A2, A1. tauto. }
  assert (Hm : forall u sv, m !! u = Some sv -> sv_unit_id sv = u /\ sv_addresses sv <> [] /\ NoDup (sv_addresses sv) /\
    (forall a, a ∈ sv_addresses sv -> is_ipv4 a = true /\ units !! a = Some u) /\
    exists a r, a ∈ sv_addresses sv /\ heard_in n s a r /\ told sv = told (server_of r)).
  { intros u sv Hlk. assert (Hi : (identity <$> servers) !! u = Some (identity sv)) by (by rewrite <- Hid, lookup_fmap, Hlk).
    rewrite lookup_fmap in Hi. destruct (servers !! u) as [sv0|] eqn:H0; [|done]. injection Hi as Hi1 Hi2 Hi3 Hi4 Hi5.
    unfold told. rewrite <- Hi1, <- Hi2, <- Hi3, <- Hi4, <- Hi5. destruct (Hb u sv0 H0) as (? & ? & ? & ?). split_and!; try done.
    destruct (Htold u sv0 H0) as (a & r & Hr & Hin & Ht). exists a, r. split; [done|]. split; [by apply Hh|done]. }
  assert (Hin : forall sv, sv ∈ into_values order m -> m !! sv_unit_id sv = Some sv).
  { intros sv (u & _ & Hlk)%list_elem_of_omap. destruct (Hm u sv Hlk) as (-> & _). done. }
  assert (Hall : forall u sv, m !! u = Some sv -> sv ∈ into_values order m).
  { intros u sv Hlk. apply list_elem_of_omap. exists u. split; [|done]. rewrite Horder. apply list_elem_of_fmap. exists (u, sv). split; [done|].
    by apply elem_of_map_to_list. }
  exists n. do 2 eexists. split; [done|]. split; [|split; [|split; [|split]]].
  - unfold into_values. rewrite omap_lookup_ids; [|intros u Hk|intros u sv Hlk; by apply Hm].
    + rewrite Horder. apply NoDup_fst_map_to_list.
    + rewrite Horder in Hk. apply list_elem_of_fmap in Hk as ([k v] & -> & Hk). apply elem_of_map_to_list in Hk. by exists v.
  - intros a r Hr. destruct (proj2 (Hdom a)) as [u Ha]; [exists r; by apply Hh|]. destruct (Hu a u Ha) as (sv0 & H0 & Hin0).
    assert (Hi : (identity <$> m) !! u = Some (identity sv0)) by (by rewrite Hid, lookup_fmap, H0).
    rewrite lookup_fmap in Hi. destruct (m !! u) as [sv|] eqn:Hlk; [|done]. injection Hi as _ _ _ _ Hi5. exists sv. split; [by eapply Hall|]. by rewrite Hi5.
  - intros sv Hsv. destruct (Hm _ sv (Hin sv Hsv)) as (_ & ? & ? & H4 & H5). split_and!; [done|done| |done]. intros a Ha. destruct (H4 a Ha) as [Hv Hua].
    split; [done|]. destruct (proj1 (Hdom a)) as [r Hr]; [by rewrite Hua|]. exists r. by apply Hh.
  - intros sv sv' a Hsv Hsv' Ha Ha'. destruct (Hm _ sv (Hin sv Hsv)) as (_ & _ & _ & H4 & _), (Hm _ sv' (Hin sv' Hsv')) as (_ & _ & _ & H4' & _).
    destruct (H4 a Ha) as [_ Hu1], (H4' a Ha') as [_ Hu2]. rewrite Hu1 in Hu2. injection Hu2 as Hu2.
    pose proof (Hin sv Hsv) as E1. pose proof (Hin sv' Hsv') as E2. rewrite <- Hu2, E1 in E2. by injection E2.
  - intros Ht. destruct (T1 Ht) as [Ht1 _], (T2 Ht1) as [Ht2 N2]. specialize (Hlong Ht2 ltac:(lia)). lia.
Qed.
End result.

(** ** What the scanner learns of a server *)

Definition is_byte (b : Z) : Prop := 0 <= b < 2 ^ 8.

(** A name without NUL characters. *)
Definition name_ok (s : str) : Prop := is_str s /\ Forall (fun c => c <> 0) s.

Definition relay_ok (r : Relay) : Prop := is_byte (rel_relay_number r) /\ name_ok (rel_name r).

Definition service_ok (s : Service) : Prop :=
  is_byte (srv_service_id s) /\ is_byte (srv_service_type s) /\ is_byte (srv_flags s) /\ is_byte (srv_relay_number s) /\ name_ok (srv_name s).

(** A configuration whose service map fits in the scanner's buffer. *)
Definition config_ok (c : ServerConfig) : Prop :=
  name_ok (conf_hostname c) /\ length (conf_unit_id c) = 16%nat /\ bytes (conf_unit_id c) /\ is_byte (conf_protocol_version c) /\
  Forall service_ok (conf_services c) /\ Forall relay_ok (conf_relays c) /\ (length (conf_relays c) + length (conf_services c) <= 62)%nat.

(** The relays and services as they are seen: names cut to 20 bytes. *)
Definition relay_seen (r : Relay) : RelayInfo := mkRelayInfo (rel_relay_number r) (fit 20 (rel_name r)) None.

Definition service_seen (s : Service) : ServiceInfo :=
  mkServiceInfo (srv_service_id s) (service_type_of_u8 (srv_service_type s)) (fit 20 (srv_name s)) (srv_flags s) (srv_relay_number s).

Section learns.
Context `{ByteOrder}.

Definition relay_as_entry (r : Relay) : ServiceMapEntry := mkServiceMapEntry 0 0 0 (rel_relay_number r) (copy_padded_name 20 (rel_name r)).

Definition service_as_entry (s : Service) : ServiceMapEntry :=
  mkServiceMapEntry (srv_service_id s) (srv_service_type s) (srv_flags s) (srv_relay_number s) (copy_padded_name 20 (srv_name s)).

Lemma header_written command flags sequence : is_byte command -> is_byte flags -> 0 <= sequence < 2 ^ 16 ->
  header_bytes command flags sequence = write_to_bytes (mkPacketHeader command flags sequence).
Proof.
  intros Hc Hf Hs. unfold header_bytes, write_to_bytes, PacketHeader_write, write_u16_be. cbn [ph_command ph_flags ph_sequence].
  by rewrite !write_u8_byte, write_be_spec.
Qed.

Lemma padded_written s : name_ok s -> write_array (copy_padded_name 20 s) = copy_padded_name 20 s.
Proof. intros [Hs _]. by apply write_array_bytes, copy_padded_bytes. Qed.

Lemma relay_entry_written r : relay_ok r -> relay_entry r = write_to_bytes (relay_as_entry r) /\ se_wf (relay_as_entry r).
Proof.
  intros [Hn Hs]. unfold relay_entry, write_to_bytes, ServiceMapEntry_write, relay_as_entry.
  cbn [se_service_id se_service_type se_flags se_relay_number se_name]. rewrite !write_u8_byte, padded_written by done. split; [done|].
  unfold se_wf, is_byte in *. cbn. split_and!; try lia; [apply copy_padded_length|by apply copy_padded_bytes, Hs].
Qed.

Lemma service_entry_written s : service_ok s -> service_entry s = write_to_bytes (service_as_entry s) /\ se_wf (service_as_entry s).
Proof.
  intros (H1 & H2 & H3 & H4 & Hs). unfold service_entry, write_to_bytes, ServiceMapEntry_write, service_as_entry.
  cbn [se_service_id se_service_type se_flags se_relay_number se_name]. rewrite !write_u8_byte, padded_written by done. split; [done|].
  unfold se_wf, is_byte in *. cbn. split_and!; try lia; [apply copy_padded_length|by apply copy_padded_bytes, Hs].
Qed.

Lemma entries_parsed {T} (convert : ServiceMapEntry -> T) es rest : Forall se_wf es ->
  parse_service_map_entries (length es) 24 convert (mjoin (write_to_bytes <$> es) ++ rest) = inl (convert <$> es, rest).
Proof.
  induction 1 as [|e es He Hes IH]; [done|]. cbn [length parse_service_map_entries].
  assert (Hl : length (write_to_bytes e) = 24%nat) by (by apply (wire_length (P := ServiceMapEntry))).
  change (mjoin (write_to_bytes <$> e :: es)) with (write_to_bytes e ++ mjoin (write_to_bytes <$> es)). rewrite <- app_assoc.
  rewrite decide_False by (rewrite length_app; lia).
  change (Nat.min 24 (SIZE_BYTES ServiceMapEntry)) with 24%nat. rewrite take_app_length' by done.
  rewrite (wire_round e) by done. rewrite drop_app_length' by done. by rewrite IH.
Qed.

Lemma entries_written {X} (f : X -> list Z) (g : X -> ServiceMapEntry) xs :
  Forall (fun x => f x = write_to_bytes (g x) /\ se_wf (g x)) xs ->
  mjoin (f <$> xs) = mjoin (write_to_bytes <$> (g <$> xs)) /\ Forall se_wf (g <$> xs).
Proof.
  induction 1 as [|x xs [E W] _ [IH IHf]]; [by split|]. rewrite !fmap_cons. change (mjoin (?y :: ?ys)) with (y ++ mjoin ys).
  rewrite E, IH. split; [done|by constructor].
Qed.

Lemma entries_length es : Forall se_wf es -> length (mjoin (write_to_bytes <$> es)) = (24 * length es)%nat.
Proof.
  induction 1 as [|e es He _ IH]; [done|]. rewrite fmap_cons. change (mjoin (?y :: ?ys)) with (y ++ mjoin ys).
  rewrite length_app, IH, (wire_length e) by done. change (SIZE_BYTES ServiceMapEntry) with 24%nat. cbn [length]. lia.
Qed.

(** The server's map is what the scanner reads out of it. *)
Lemma service_map_read group sequence services relays :
  is_byte group -> 0 <= sequence < 2 ^ 16 -> Forall service_ok services -> Forall relay_ok relays ->
  (length relays + length services <= 62)%nat ->
  match_service_map sequence (take 1500 (build_servicemap_response group sequence services relays)) =
    Some (inl (relay_seen <$> relays, service_seen <$> services)).
Proof.
  intros Hg Hs Hsv Hrl Hlen.
  destruct (entries_written relay_entry relay_as_entry relays) as [Hr Hrw]; [by eapply Forall_impl, relay_entry_written|].
  destruct (entries_written service_entry service_as_entry services) as [Hv Hvw]; [by eapply Forall_impl, service_entry_written|].
  unfold build_servicemap_response. rewrite Hr, Hv, header_written by (done || unfold is_byte; vm_compute; intuition congruence).
  assert (Hmap : [4; 24; wrapu 8 (Z.of_nat (length relays)); wrapu 8 (Z.of_nat (length services))] =
    write_to_bytes (mkServiceMapResponseHeader 4 24 (Z.of_nat (length relays)) (Z.of_nat (length services)))).
  { unfold write_to_bytes, ServiceMapResponseHeader_write. cbn [sm_struct_size sm_entry_size sm_relay_entry_count sm_service_entry_count].
    rewrite !write_u8_byte by lia. unfold wrapu. rewrite !Z.mod_small by lia. done. }
  rewrite Hmap. set (hdr := mkPacketHeader _ _ _). set (mh := mkServiceMapResponseHeader _ _ _ _).
  assert (Hhdr : ph_wf hdr) by (unfold ph_wf, hdr, is_byte in *; cbn [ph_command ph_flags ph_sequence]; change IDNCMD_SERVICEMAP_RESPONSE with 19; lia).
  assert (Hmh : sm_wf mh) by (unfold sm_wf, mh; cbn; lia).
  rewrite take_ge by (rewrite !length_app, !entries_length, (wire_length hdr), (wire_length mh), !length_fmap by done;
    change (SIZE_BYTES PacketHeader) with 4%nat; change (SIZE_BYTES ServiceMapResponseHeader) with 4%nat; lia).
  unfold match_service_map. rewrite decide_False by (rewrite !length_app, (wire_length hdr), (wire_length mh) by done; lia).
  rewrite (wire_round hdr) by done. cbn [ok mbind option_bind]. rewrite !Z.eqb_refl. cbn [negb orb].
  unfold read_service_map. rewrite (wire_round mh) by done. cbn [sm_struct_size sm_entry_size sm_relay_entry_count sm_service_entry_count mh].
  change (Z.to_nat 4 - SIZE_BYTES ServiceMapResponseHeader)%nat with 0%nat. rewrite decide_False by lia.
  rewrite !Nat2Z.id. change (Z.to_nat 24) with 24%nat. rewrite <- (length_fmap relay_as_entry relays) at 1. rewrite entries_parsed by done.
  rewrite <- (length_fmap service_as_entry services) at 1. rewrite <- (app_nil_r (mjoin _)), entries_parsed by done.
  do 3 f_equal; rewrite <- list_fmap_compose; apply list_fmap_ext; intros i x Hx.
  - apply Forall_lookup_1 with (1 := Hrl) in Hx as [_ [Hn1 Hn2]]. 
    change (mkRelayInfo (rel_relay_number x) (null_terminated_str (copy_padded_name 20 (rel_name x))) None = relay_seen x).
    by rewrite padded_name_read.
  - apply Forall_lookup_1 with (1 := Hsv) in Hx as (_ & _ & _ & _ & [Hn1 Hn2]). 
    change (mkServiceInfo (srv_service_id x) (service_type_of_u8 (srv_service_type x)) (null_terminated_str (copy_padded_name 20 (srv_name x)))
      (srv_flags x) (srv_relay_number x) = service_seen x). by rewrite padded_name_read.
Qed.

Definition scan_response_of (c : ServerConfig) (status : Z) : ScanResponse :=
  mkScanResponse 40 (conf_protocol_version c) status 0 (conf_unit_id c) (copy_padded_name 20 (conf_hostname c)).

Lemma scan_response_read group sequence c status addr :
  config_ok c -> is_byte group -> 0 <= sequence < 2 ^ 16 -> is_byte status -> is_ipv4 addr = true ->
  process_scan_response (take 1500 (build_scan_response group sequence (conf_unit_id c) (conf_hostname c) (conf_protocol_version c) status)) addr =
    Some (scan_response_of c status, addr).
Proof.
  intros ([Hn Hn0] & Hul & Hub & Hpv & _) Hg Hs Hst Hip. unfold build_scan_response.
  rewrite header_written by (done || unfold is_byte; vm_compute; intuition congruence).
  assert (Hw : [40; conf_protocol_version c; status; 0] ++ conf_unit_id c ++ copy_padded_name 20 (conf_hostname c) =
    write_to_bytes (scan_response_of c status)).
  { unfold write_to_bytes, ScanResponse_write, scan_response_of. cbn [sr_struct_size sr_protocol_version sr_status sr_reserved sr_unit_id sr_hostname].
    rewrite !write_u8_byte, !write_array_bytes by (done || by apply copy_padded_bytes). done. }
  change (?x ++ [40; ?v; ?t; 0] ++ ?u ++ ?w) with (x ++ ([40; v; t; 0] ++ u ++ w)). rewrite Hw. set (hdr := mkPacketHeader _ _ _).
  assert (Hhdr : ph_wf hdr) by (unfold ph_wf, hdr, is_byte in *; cbn [ph_command ph_flags ph_sequence]; change IDNCMD_SCAN_RESPONSE with 17; lia).
  assert (Hr : sr_wf (scan_response_of c status)).
  { unfold sr_wf, is_byte in *. cbn [sr_struct_size sr_protocol_version sr_status sr_reserved sr_unit_id sr_hostname scan_response_of].
    split_and!; try lia; [done|apply copy_padded_length|by apply copy_padded_bytes]. }
  rewrite take_ge by (rewrite length_app, (wire_length hdr), (wire_length (scan_response_of c status)) by done; vm_compute; lia).
  unfold process_scan_response. rewrite decide_False by (rewrite length_app, (wire_length hdr), (wire_length (scan_response_of c status)) by done; lia).
  rewrite (wire_round hdr) by done. cbn [ok mbind option_bind]. rewrite Z.eqb_refl. cbn [negb].
  rewrite <- (app_nil_r (write_to_bytes (scan_response_of c status))), (wire_round (scan_response_of c status)) by done.
  cbn [ok mbind option_bind]. by rewrite Hip.
Qed.

(** A request on the wire. *)
Lemma request_bytes command group sequence : is_byte command -> is_byte group -> 0 <= sequence < 2 ^ 16 ->
  let data := request command group sequence in
  byte_at data 0 = command /\ byte_at data 1 = group /\ be_value [byte_at data 2; byte_at data 3] = sequence.
Proof.
  intros Hc Hg Hs. unfold request. rewrite <- header_written by done. unfold header_bytes, byte_at. cbn [lookup list_lookup].
  split_and!; [done|done|]. transitivity (be_value (be_bytes 2 sequence)); [done|]. rewrite be_value_bytes. by apply Z.mod_small.
Qed.

(** Datagrams that do not answer the request are passed over. *)
Definition stray (sequence : Z) (p : poll) : Prop := match p with Got data _ => match_service_map sequence (take 1500 data) = None | _ => False end.

Definition total_ticks (s : ServerScanner) : Z := foldr (fun t acc => Z.of_N t + acc) 0 (sn_ticks s).

Lemma total_ticks_nonneg s : 0 <= total_ticks s.
Proof. unfold total_ticks. induction (sn_ticks s); cbn; lia. Qed.

Lemma clock_budget s : (clock 0 s).1 + total_ticks (clock 0 s).2 = sn_now s + total_ticks s /\ sn_now (clock 0 s).2 = (clock 0 s).1.
Proof. unfold clock, total_ticks. cbn. destruct (sn_ticks s); cbn; lia. Qed.

Lemma recv_loop_finds sequence deadline src rest reply r strays : Forall (stray sequence) strays ->
  match_service_map sequence (take 1500 reply) = Some r ->
  forall fuel s, sn_unicast s = strays ++ Got reply src :: rest -> (length strays < fuel)%nat -> sn_now s + total_ticks s < deadline ->
  (recv_service_map_loop fuel sequence deadline s).1 = r.
Proof.
  intros Hst Hr. induction Hst as [|p strays Hp _ IH]; intros [|fuel] s Hu Hf Ht; try (cbn in Hf; lia);
    cbn [recv_service_map_loop]; rewrite scan_run_bind; destruct (clock_budget s) as [Hb Hn];
    pose proof (total_ticks_nonneg (clock 0 s).2); (rewrite (proj2 (Z.eqb_neq _ _)) by (unfold sat_sub; lia));
    rewrite scan_run_bind; unfold recv_unicast at 1; cbn [sn_unicast clock fst snd]; rewrite Hu; cbn [app cut].
  - by rewrite Hr.
  - destruct p as [data a| |]; [|done|done]. cbn [stray] in Hp. cbn [cut]. rewrite Hp. apply IH; [done|cbn in Hf; lia|].
    unfold total_ticks in *. cbn in *. lia.
Qed.

Lemma recv_service_map_finds sequence src rest reply r strays s : Forall (stray sequence) strays ->
  match_service_map sequence (take 1500 reply) = Some r -> sn_unicast s = strays ++ Got reply src :: rest ->
  total_ticks s < SERVICEMAP_TIMEOUT -> (recv_service_map sequence s).1 = r.
Proof.
  intros Hst Hr Hu Ht. unfold recv_service_map. rewrite scan_run_bind. destruct (clock_budget s) as [Hb Hn].
  eapply recv_loop_finds; [exact Hst|exact Hr|by cbn|rewrite Hu, length_app; cbn; lia|].
  assert (sn_now s <= (clock 0 s).1) by (cbn; destruct (sn_ticks s); lia). lia.
Qed.

(** C16. Discovery reads a server's configuration off the wire.  The server answers a
    scan request and a service-map request with one datagram each and is left
    unchanged.  The scanner reads the first as exactly the server's unit id, status
    and protocol version, with the hostname cut to its longest prefix of whole
    characters within 20 bytes; and from the second, however many unrelated
    datagrams arrive before it within the 400 ms, exactly the configured relays and
    services in order, ids, flags and service types intact, names cut likewise - for
    up to 62 entries, the most that fit in the scanner's buffer. *)
Theorem discovery_reads_config {B} `{!ServerBehavior B} r client addr group sequence (sv : IdnServer B) :
  let c := sv_config sv in
  config_ok c -> is_byte group -> 0 <= sequence < 2 ^ 16 -> is_byte (get_status_byte (sv_behavior sv)) -> is_ipv4 addr = true ->
  should_respond (sv_behavior sv) IDNCMD_SCAN_REQUEST = true -> should_respond (sv_behavior sv) IDNCMD_SERVICEMAP_REQUEST = true ->
  (exists reply response, dispatch r (request IDNCMD_SCAN_REQUEST group sequence) client sv = (sv, [reply]) /\
    process_scan_response (take 1500 reply) addr = Some (response, addr) /\
    server_of response = ServerInfo_new (conf_unit_id c) (fit 20 (conf_hostname c))
      (Z.shiftr (conf_protocol_version c) 4, Z.land (conf_protocol_version c) 0x0F) (get_status_byte (sv_behavior sv))) /\
  (exists reply, dispatch r (request IDNCMD_SERVICEMAP_REQUEST group sequence) client sv = (sv, [reply]) /\
    forall s strays rest, Forall (stray sequence) strays -> sn_unicast s = strays ++ Got reply addr :: rest ->
      total_ticks s < SERVICEMAP_TIMEOUT ->
      (recv_service_map sequence s).1 = inl (relay_seen <$> conf_relays c, service_seen <$> conf_services c)).
Proof.
  intros c Hc Hg Hs Hst Hip Hr1 Hr2. split.
  - destruct (request_bytes IDNCMD_SCAN_REQUEST group sequence) as (B0 & B1 & B2); [by split; vm_compute|done|done|].
    exists (build_scan_response group sequence (conf_unit_id c) (conf_hostname c) (conf_protocol_version c) (get_status_byte (sv_behavior sv))),
      (scan_response_of c (get_status_byte (sv_behavior sv))). split_and!.
    + unfold dispatch. by rewrite B0, B1, B2, Hr1.
    + by apply scan_response_read.
    + destruct Hc as ([Hn1 Hn2] & _). unfold server_of, hostname_str. cbn [scan_response_of sr_unit_id sr_hostname sr_protocol_version sr_status].
      by rewrite padded_name_read.
  - destruct (request_bytes IDNCMD_SERVICEMAP_REQUEST group sequence) as (B0 & B1 & B2); [by split; vm_compute|done|done|].
    exists (build_servicemap_response group sequence (conf_services c) (conf_relays c)). split.
    + unfold dispatch. by rewrite B0, B1, B2, Hr2.
    + intros s strays rest Hstr Hu Ht. destruct Hc as (_ & _ & _ & _ & Hsv & Hrl & Hlen).
      eapply recv_service_map_finds with (1 := Hstr) (3 := Hu); [by apply service_map_read|exact Ht].
Qed.
End learns.

(** ** Stable ids *)
Section ids.

Lemma append_split a b x y : String.length a = String.length b -> a +:+ x = b +:+ y -> a = b /\ x = y.
Proof.
  revert b. induction a as [|c a IH]; intros [|d b] Hl Ha; try done.
  change (String c a +:+ x) with (String c (a +:+ x)) in Ha. change (String d b +:+ y) with (String d (b +:+ y)) in Ha.
  injection Ha as -> Ha. injection Hl as Hl. destruct (IH b Hl Ha) as [-> ->]. done.
Qed.

Lemma append_length a b : String.length (a +:+ b) = (String.length a + String.length b)%nat.
Proof. induction a as [|c a IH]; [done|]. change (String c a +:+ b) with (String c (a +:+ b)). cbn [String.length]. by rewrite IH. Qed.

Lemma hex_length bs : String.length (unit_id_hex bs) = (2 * length bs)%nat.
Proof. induction bs as [|b bs IH]; [done|]. cbn [unit_id_hex String.length length]. rewrite IH. lia. Qed.

Lemma hex_digit_inj a b : 0 <= a < 16 -> 0 <= b < 16 -> hex_digit a = hex_digit b -> a = b.
Proof.
  intros Ha Hb He. assert (Hc : forall d, 0 <= d < 16 -> (if d <? 10 then 48 + d else 87 + d) < 256 /\ 0 <= (if d <? 10 then 48 + d else 87 + d))
    by (intros d Hd; destruct (d <? 10); lia).
  unfold hex_digit in He. apply (f_equal Ascii.N_of_ascii) in He. pose proof (Hc a Ha). pose proof (Hc b Hb).
  rewrite !Ascii.N_ascii_embedding in He by lia. apply Z2N.inj in He; [|lia|lia]. destruct (Z.ltb_spec a 10), (Z.ltb_spec b 10); lia.
Qed.

Lemma hex_inj xs ys : bytes xs -> bytes ys -> length xs = length ys -> unit_id_hex xs = unit_id_hex ys -> xs = ys.
Proof.
  intros Hx. revert ys. induction Hx as [|x xs Hx _ IH]; intros [|y ys] Hy Hl He; try done.
  apply Forall_cons in Hy as [Hy Hys]. injection Hl as Hl. cbn [unit_id_hex] in He. injection He as H1 H2 H3.
  apply hex_digit_inj in H1; [|split; [apply Z.div_pos|apply Z.div_lt_upper_bound]; lia..].
  apply hex_digit_inj in H2; [|apply Z.mod_pos_bound; lia..]. rewrite (IH ys Hys Hl H3). f_equal.
  rewrite (Z.div_mod x 16), (Z.div_mod y 16) by done. congruence.
Qed.

(** The stable id determines the unit and the service. *)
Lemma stable_id_inj u v i j : bytes u -> bytes v -> length u = length v -> 0 <= i -> 0 <= j ->
  format_stable_id u i = format_stable_id v j -> u = v /\ i = j.
Proof.
  intros Hu Hv Hl Hi Hj He. unfold format_stable_id in He. apply append_split in He as [_ He]; [|done]. apply append_split in He as [_ He]; [|done].
  apply append_split in He as [Hh He]; [|by rewrite !hex_length, Hl]. apply append_split in He as [_ He]; [|done].
  split; [by apply hex_inj|]. apply (inj pretty) in He. lia.
Qed.

Lemma stable_id_long u i : length u = 16%nat -> (37 <= String.length (format_stable_id u i))%nat.
Proof. intros Hu. unfold format_stable_id. rewrite !append_length, hex_length, Hu. cbn. lia. Qed.

Lemma text_length s : String.length (text s) = length (as_bytes s).
Proof. unfold text. induction (as_bytes s) as [|b bs IH]; [done|]. cbn. by rewrite IH. Qed.

(** A server as a scan leaves it: a 16-byte unit id, a hostname of at most 20
    bytes, byte-sized service ids, each once. *)
Definition scanned_ok (sv : ServerInfo) : Prop :=
  length (sv_unit_id sv) = 16%nat /\ bytes (sv_unit_id sv) /\ (length (as_bytes (sv_hostname sv)) <= 20)%nat /\
  Forall (fun i => 0 <= si_service_id i) (sv_services sv) /\ NoDup (si_service_id <$> sv_services sv).

Lemma device_stable_id sv m i : di_stable_id (dd_info (service_device sv m i)) = format_stable_id (sv_unit_id sv) (si_service_id i).
Proof. unfold service_device. by destruct (head (sv_addresses sv)). Qed.

Lemma device_legacy sv m i : di_legacy_ids (dd_info (service_device sv m i)) = [idn_prefix +:+ ":" +:+ text (sv_hostname sv)].
Proof. unfold service_device. by destruct (head (sv_addresses sv)). Qed.

Lemma server_devices_elem sv dev : dev ∈ server_devices sv ->
  exists i m, dev = service_device sv m i /\ i ∈ sv_services sv /\ is_laser_projector i = true.
Proof.
  intros (i & -> & Hi)%list_elem_of_fmap. exists i. eexists. split; [done|]. apply list_elem_of_In, filter_In in Hi as [Hi Hl].
  split; [by apply list_elem_of_In|done].
Qed.

Lemma filter_ids_nodup (l : list ServiceInfo) f : NoDup (si_service_id <$> l) -> NoDup (si_service_id <$> List.filter f l).
Proof.
  intros Hn. eapply sublist_NoDup; [exact Hn|]. clear Hn. apply (fmap_sublist si_service_id).
  induction l as [|x l IH]; [done|]. cbn. destruct (f x); [by apply sublist_skip|by apply sublist_cons].
Qed.

Lemma server_ids_nodup sv : scanned_ok sv -> NoDup ((fun d => di_stable_id (dd_info d)) <$> server_devices sv).
Proof.
  intros (Hl & Hb & _ & Hp & Hn). unfold server_devices. rewrite <- list_fmap_compose.
  rewrite (list_fmap_ext _ (format_stable_id (sv_unit_id sv) ∘ si_service_id)) by (intros; apply device_stable_id).
  rewrite list_fmap_compose. apply (NoDup_fmap_2_strong (format_stable_id (sv_unit_id sv))); [|by apply filter_ids_nodup].
  assert (Hpos : forall x, x ∈ si_service_id <$> List.filter is_laser_projector (sv_services sv) -> 0 <= x).
  { intros x (i & -> & Hi)%list_elem_of_fmap. apply list_elem_of_In, filter_In in Hi as [Hi%list_elem_of_In _]. by eapply Forall_forall in Hp. }
  intros i j Hi Hj He. apply stable_id_inj in He; [by destruct He|done|done|done|by apply Hpos|by apply Hpos].
Qed.

(** The devices made from a scan have distinct identities: over servers with
    distinct unit ids, whose services have distinct numbers, the stable ids of all
    devices are pairwise different, one per laser-projector service; every one is in
    the [idn:] name space; and no device's stable id is mistaken for a legacy id of
    any of them, so a saved id opens the device it was saved for. *)
Theorem idn_devices_have_distinct_ids servers :
  Forall scanned_ok servers -> NoDup (sv_unit_id <$> servers) ->
  NoDup ((fun d => di_stable_id (dd_info d)) <$> servers_to_devices servers) /\
  length (servers_to_devices servers) = sum_list ((fun sv => length (List.filter is_laser_projector (sv_services sv))) <$> servers) /\
  (forall d, d ∈ servers_to_devices servers -> exists rest, di_stable_id (dd_info d) = idn_prefix +:+ String ":" rest) /\
  (forall d d', d ∈ servers_to_devices servers -> d' ∈ servers_to_devices servers -> di_stable_id (dd_info d) ∉ di_legacy_ids (dd_info d')).
Proof.
  intros Hok Hn.
  assert (Hin : forall d, d ∈ servers_to_devices servers -> exists sv m i, sv ∈ servers /\ scanned_ok sv /\ i ∈ sv_services sv /\ d = service_device sv m i).
  { intros d (l & Hd & Hl)%list_elem_of_join. apply list_elem_of_fmap in Hl as (sv & -> & Hsv).
    apply server_devices_elem in Hd as (i & m & -> & Hi & _). exists sv, m, i. rewrite Forall_forall in Hok. auto. }
  split_and!.
  - clear Hin. unfold servers_to_devices. induction servers as [|sv servers IH]; [constructor|].
    apply Forall_cons in Hok as [Hsv Hok]. cbn [fmap list_fmap] in Hn. apply NoDup_cons in Hn as [Hnew Hn].
    rewrite fmap_cons. change (mjoin (?y :: ?ys)) with (y ++ mjoin ys). rewrite fmap_app. apply NoDup_app.
    split_and!; [by apply server_ids_nodup| |by apply IH].
    intros id (d & -> & Hd)%list_elem_of_fmap (d' & He & Hd')%list_elem_of_fmap.
    apply server_devices_elem in Hd as (i & m & -> & Hi & _). apply list_elem_of_join in Hd' as (l & Hd' & Hl).
    apply list_elem_of_fmap in Hl as (sv' & -> & Hsv'). apply server_devices_elem in Hd' as (i' & m' & -> & Hi' & _).
    rewrite !device_stable_id in He. rewrite Forall_forall in Hok. destruct (Hok sv' Hsv') as (Hl' & Hb' & _ & Hp' & _), Hsv as (Hl & Hb & _ & Hp & _).
    rewrite Forall_forall in Hp, Hp'. apply stable_id_inj in He as [He _]; [|done|done|lia|by apply Hp|by apply Hp'].
    apply Hnew. rewrite He. by apply list_elem_of_fmap_2.
  - clear. unfold servers_to_devices. induction servers as [|sv servers IH]; [done|]. rewrite !fmap_cons.
    change (mjoin (?y :: ?ys)) with (y ++ mjoin ys). rewrite length_app, IH. unfold server_devices. by rewrite length_fmap.
  - intros d Hd. destruct (Hin d Hd) as (sv & m & i & _ & _ & _ & ->). rewrite device_stable_id. by eexists.
  - intros d d' Hd Hd'. destruct (Hin d Hd) as (sv & m & i & _ & (Hl & _) & _ & ->), (Hin d' Hd') as (sv' & m' & i' & _ & (_ & _ & Hh & _) & _ & ->).
    rewrite device_stable_id, device_legacy, list_elem_of_singleton. intros He. apply (f_equal String.length) in He.
    pose proof (stable_id_long (sv_unit_id sv) (si_service_id i) Hl) as Hlong. rewrite He, !append_length, text_length in Hlong.
    change (String.length idn_prefix) with 3%nat in Hlong. change (String.length ":") with 1%nat in Hlong. lia.
Qed.
End ids.

(** ** Witnesses *)
Module Demo.
(** A receiver configuration with two laser services, and where it is heard. *)
Definition twin_config : ServerConfig :=
  let c := ServerConfig_new [104; 111; 115; 116] in
  mkServerConfig (conf_hostname c) (conf_unit_id c) (conf_protocol_version c) [laser_projector 1 [76]; with_dsid (laser_projector 2 [82])]
    [mkRelay 3 [114]] (conf_bind_address c) (conf_read_timeout c) (conf_link_timeout c) (conf_force_disconnect_window c).

Definition twin : IdnServer unit := server_new twin_config tt.

Definition at_ (port : Z) : SocketAddr := mkAddr (V4 0xC0A80114) port.

Definition scan_reply : list Z :=
  build_scan_response 0 0 (conf_unit_id twin_config) (conf_hostname twin_config) (conf_protocol_version twin_config) 1.

(** The same unit answers twice, from two ports, amid noise. *)
Definition heard : ServerScanner :=
  scanner_new 0 [(0xC0A80101, 0xFFFFFF00, [Got scan_reply (at_ 7255)])] [Got [1; 2] (at_ 9); Got scan_reply (at_ 7256); NoData] 100 [] [].

Definition reply_read (a : SocketAddr) : ScanResponse :=
  match @process_scan_response stdlib_byte_order scan_reply a with Some (r, _) => r | None => mkScanResponse 0 0 0 0 [] [] end.

Lemma reply_processed port : @process_scan_response stdlib_byte_order scan_reply (at_ port) = Some (reply_read (at_ port), at_ port).
Proof. vm_compute. reflexivity. Qed.

Lemma both_heard n : (2 <= n)%nat ->
  @heard_in stdlib_byte_order n heard (at_ 7255) (reply_read (at_ 7255)) /\ @heard_in stdlib_byte_order n heard (at_ 7256) (reply_read (at_ 7256)).
Proof.
  intros Hn. destruct n as [|[|n]]; [lia|lia|]. split.
  - exists [Got scan_reply (at_ 7255)], (Got scan_reply (at_ 7255)). split; [by apply list_elem_of_further, list_elem_of_here|].
    split; [apply list_elem_of_here|]. exists scan_reply. by split; [|apply reply_processed].
  - exists [Got [1; 2] (at_ 9); Got scan_reply (at_ 7256); NoData], (Got scan_reply (at_ 7256)). split; [apply list_elem_of_here|].
    split; [apply list_elem_of_further, list_elem_of_here|]. exists scan_reply. by split; [|apply reply_processed].
Qed.

Lemma scan_lists_one : (length <$> (@scan_for_servers_in stdlib_byte_order (fun m => (map_to_list m).*1) 10000000 heard).1) = Some 1%nat.
Proof. vm_compute. reflexivity. Qed.

(** A scan of ten milliseconds hears the unit at both its ports, and lists it once
    with both addresses. *)
Lemma scan_finds_each_server_once_witness :
  (forall m : Servers, (map_to_list m).*1 ≡ₚ (map_to_list m).*1) /\
  exists l s' sv, @scan_for_servers_in stdlib_byte_order (fun m => (map_to_list m).*1) 10000000 heard = (Some l, s') /\
    l = [sv] /\ at_ 7255 ∈ sv_addresses sv /\ at_ 7256 ∈ sv_addresses sv.
Proof.
  split; [done|].
  destruct (@scan_finds_each_server_once stdlib_byte_order (fun m => (map_to_list m).*1) 10000000 heard (fun m => reflexivity _))
    as (n & l & s' & Hrun & _ & Hall & _ & _ & Hlong). specialize (Hlong eq_refl).
  destruct (both_heard n ltac:(lia)) as [H1 H2]. destruct (Hall _ _ H1) as (sv & Hin & Ha), (Hall _ _ H2) as (sv' & Hin' & Ha').
  pose proof scan_lists_one as Hl. rewrite Hrun in Hl. destruct l as [|x [|y l]]; [discriminate Hl| |discriminate Hl].
  apply list_elem_of_singleton in Hin as ->. apply list_elem_of_singleton in Hin' as ->. exists [x], s', x. split; [exact Hrun|]. split; [reflexivity|]. split; [exact Ha|exact Ha'].
Defined.

Lemma twin_config_ok : config_ok twin_config.
Proof.
  unfold config_ok, twin_config, service_ok, relay_ok, name_ok, is_byte, is_str, bytes. cbn -[Z.pow].
  split_and!; try lia; try done; repeat (constructor; cbn -[Z.pow]); try lia; try done.
Qed.

Lemma discovery_reads_config_witness :
  config_ok (sv_config twin) /\
  exists reply, dispatch (mkReadings 0 0 0 0) (request IDNCMD_SERVICEMAP_REQUEST 0 7) (at_ 5000) twin = (twin, [reply]) /\
    (recv_service_map 7 (mkScanner [] [Got [19; 0; 0; 6; 4; 24; 0; 0] (at_ 1); Got reply (at_ 7255)] 0 8 0 [3%N; 5%N] [] [])).1 =
      inl ([mkRelayInfo 3 [114] None], [mkServiceInfo 1 LaserProjector [76] 0 0; mkServiceInfo 2 LaserProjector [82] 1 0]).
Proof.
  split; [apply twin_config_ok|].
  destruct (@discovery_reads_config stdlib_byte_order unit SimpleBehavior (mkReadings 0 0 0 0) (at_ 5000) (at_ 7255) 0 7 twin twin_config_ok)
    as (_ & reply & Hd & Hread); [unfold is_byte; lia|lia|unfold is_byte; vm_compute; intuition congruence|done|done|done|].
  exists reply. split; [done|].
  rewrite (Hread _ [Got [19; 0; 0; 6; 4; 24; 0; 0] (at_ 1)] []); [vm_compute; reflexivity|by repeat constructor|done|vm_compute; reflexivity].
Defined.

Lemma idn_devices_have_distinct_ids_witness :
  let sv := mkServerInfo (conf_unit_id twin_config) [104] (1, 0) 1 [at_ 7255] [] [service_seen (laser_projector 1 [76]); service_seen (laser_projector 2 [82])] in
  Forall scanned_ok [sv] /\ NoDup ((fun d => di_stable_id (dd_info d)) <$> servers_to_devices [sv]) /\ length (servers_to_devices [sv]) = 2%nat.
Proof.
  intros sv.
  assert (Hok : Forall scanned_ok [sv]).
  { constructor; [|done]. unfold scanned_ok, sv, bytes. cbn -[Z.pow].
    split_and!; try lia; try done; apply (bool_decide_unpack _); vm_compute; exact I. }
  destruct (idn_devices_have_distinct_ids [sv] Hok ltac:(apply NoDup_singleton)) as (H1 & H2 & _). split_and!; [done|done|].
  rewrite H2. vm_compute. reflexivity.
Defined.
End Demo.
