(* ===== verification/EtherScan.v ===== *)
(** * Ether Dream: discovery

    Models the broadcast receiver of [src/src/protocols/ether_dream/mod.rs] and the
    discoverer of [discovery.rs].  The socket is a script of what its successive
    reads give and how long each takes; an exhausted script times out.  The theorems
    end with the simulated DACs: what they announce is found, and offered with the
    capabilities the backend then has. *)

From stdpp Require Import gmap strings.
From S2P Require Import Prelude Floats Point Presentation Session Backend Bytes Utf8 EtherDream EtherModel EtherStream EtherBackend Discovery IdnTypes IdnScan.

#[local] Open Scope Z_scope.

(** ** Receiving broadcasts *)

Definition BUFFER_LEN : nat := 36.

(** What a read of the socket gives: a datagram, nothing within the timeout, or an
    error. *)
Inductive heard :=
  | Heard (data : list Z) (src : IpAddr)
  | Quiet
  | Broken.

Section scan.
Context `{ByteOrder}.

(** [next_broadcast]: the buffer takes 36 bytes of a datagram; a shorter one is an
    error. *)
Definition next_broadcast (r : heard) : option (DacBroadcast * IpAddr) :=
  match r with
  | Heard data src =>
      let bytes := wrapu 8 <$> take BUFFER_LEN data in
      if decide (length bytes < BUFFER_LEN)%nat then None
      else match read_broadcast bytes with IoOk (b, _) => Some (b, src) | IoErr _ => None end
  | Quiet | Broken => None
  end.
End scan.

(** ** Devices *)

Definition ED_PREFIX : string := "etherdream".

(** [format_mac]: two lower-case digits per byte, with colons between. *)
Fixpoint format_mac (mac : list Z) : string :=
  match mac with
  | [] => ""
  | [b] => unit_id_hex [b]
  | b :: bs => unit_id_hex [b] +:+ ":" +:+ format_mac bs
  end.

Record ConnectData := mkConnectData {
  cd_broadcast : DacBroadcast;
  cd_ip : IpAddr;
}.

Definition discovered_device (b : DacBroadcast) (ip : IpAddr) : DiscoveredDevice ConnectData :=
  let stable_id := ED_PREFIX +:+ ":" +:+ format_mac (mac_address b) in
  let info := with_mac (mac_address b) (with_ip ip (DiscoveredDeviceInfo_new EtherDream stable_id (ip_to_string ip))) in
  with_caps (caps_for (buffer_capacity b) (max_point_rate b)) (DiscoveredDevice_new info (mkConnectData b ip)).

(** [EtherDreamDiscoverer::connect], with the check of [BackendKind::fifo]. *)
Definition ether_connect {P} (data : ConnectData) : result (EtherDreamBackend P) :=
  let b := with_address (Some (cd_broadcast data)) in
  if bool_decide (output_model (eb_caps b) = UsbFrameSwap) then Err (ErrInvalidConfig "backend kind disagrees with output model") else Ok b.

(** ** The scan *)

Definition SCAN_TIMEOUT : Z := 1500000000.
Definition READ_TIMEOUT : Z := 200000000.

Section scanning.
Context `{ByteOrder}.

(** The loop of [scan]; each read comes with the time it takes. *)
Fixpoint scan_until (fuel : nat) (deadline now : Z) (reads : list (N * heard)) (seen : gset (list Z)) (found : list (DiscoveredDevice ConnectData)) :
    option (list (DiscoveredDevice ConnectData)) :=
  match fuel with
  | O => None
  | S fuel =>
      if now <? deadline then
        let '(dt, r) := match reads with [] => (READ_TIMEOUT, Quiet) | (dt, r) :: _ => (Z.of_N dt, r) end in
        match next_broadcast r with
        | None => scan_until fuel deadline (now + dt) (tail reads) seen found
        | Some (b, src) =>
            if bool_decide (mac_address b ∈ seen) then scan_until fuel deadline (now + dt) (tail reads) seen found
            else scan_until fuel deadline (now + dt) (tail reads) ({[mac_address b]} ∪ seen) (found ++ [discovered_device b src])
        end
      else Some found
  end.

(** [scan]; [None]: the socket could not be set up. *)
Definition ether_scan (now : Z) (reads : option (list (N * heard))) : option (list (DiscoveredDevice ConnectData)) :=
  match reads with
  | None => Some []
  | Some reads => scan_until (length reads + Z.to_nat (SCAN_TIMEOUT / READ_TIMEOUT) + 2) (now + SCAN_TIMEOUT) now reads ∅ []
  end.
End scanning.

(** ** What a scan lists *)

(** The reads that begin before the time is up. *)
Fixpoint window (left : Z) (reads : list (N * heard)) : list heard :=
  match reads with
  | [] => []
  | (dt, r) :: reads => if 0 <? left then r :: window (left - Z.of_N dt) reads else []
  end.

(** The time some reads take. *)
Fixpoint total_time (reads : list (N * heard)) : Z := match reads with [] => 0 | (dt, _) :: reads => Z.of_N dt + total_time reads end.

Section facts.
Context `{ByteOrder}.

(** The first broadcast of each DAC. *)
Fixpoint first_of_each (seen : gset (list Z)) (bs : list (DacBroadcast * IpAddr)) : list (DacBroadcast * IpAddr) :=
  match bs with
  | [] => []
  | (b, src) :: bs => if bool_decide (mac_address b ∈ seen) then first_of_each seen bs else (b, src) :: first_of_each ({[mac_address b]} ∪ seen) bs
  end.

Lemma window_empty left reads : left <= 0 -> window left reads = [].
Proof. destruct reads as [|[dt r] reads]; [done|]. intros Hl. simpl. destruct (Z.ltb_spec 0 left); [lia|done]. Qed.

Lemma scan_until_spec fuel deadline now reads seen found :
  (length reads + Z.to_nat (1 + (deadline - now) / READ_TIMEOUT) < fuel)%nat ->
  scan_until fuel deadline now reads seen found =
    Some (found ++ (uncurry discovered_device <$> first_of_each seen (omap next_broadcast (window (deadline - now) reads)))).
Proof.
  revert now reads seen found. induction fuel as [|fuel IH]; intros now reads seen found Hf; [lia|]. cbn [scan_until].
  destruct (Z.ltb_spec now deadline) as [Hn|Hn]; [|by rewrite window_empty, app_nil_r by lia].
  assert (Hq : 0 <= (deadline - now) / READ_TIMEOUT) by (apply Z.div_pos; unfold READ_TIMEOUT; lia).
  assert (Hmono : forall dt, 0 <= dt -> (deadline - (now + dt)) / READ_TIMEOUT <= (deadline - now) / READ_TIMEOUT)
    by (intros dt Hdt; apply Z.div_le_mono; unfold READ_TIMEOUT; lia).
  destruct reads as [|[dt r] reads]; cbn [tail window length] in *.
  - rewrite IH; [done|]. simpl. replace (deadline - (now + READ_TIMEOUT)) with ((deadline - now) + (-1) * READ_TIMEOUT) by lia.
    rewrite Z.div_add by (unfold READ_TIMEOUT; lia). lia.
  - specialize (Hmono (Z.of_N dt) ltac:(lia)).
    assert (Hf' : (length reads + Z.to_nat (1 + (deadline - (now + Z.of_N dt)) / READ_TIMEOUT) < fuel)%nat) by lia.
    destruct (Z.ltb_spec 0 (deadline - now)) as [_|?]; [|lia]. replace (deadline - now - Z.of_N dt) with (deadline - (now + Z.of_N dt)) by lia.
    cbn [omap list_omap]. destruct (next_broadcast r) as [[b src]|]; [|by apply IH]. cbn [first_of_each].
    destruct (bool_decide (mac_address b ∈ seen)); rewrite IH by done; [done|]. by rewrite <- app_assoc.
Qed.

Lemma first_of_each_macs seen bs :
  NoDup ((mac_address ∘ fst) <$> first_of_each seen bs) /\ (forall x, x ∈ first_of_each seen bs -> x ∈ bs /\ mac_address x.1 ∉ seen) /\
  (forall x, x ∈ bs -> mac_address x.1 ∈ seen \/ mac_address x.1 ∈ (mac_address ∘ fst) <$> first_of_each seen bs).
Proof.
  revert seen. induction bs as [|[b src] bs IH]; intros seen; cbn [first_of_each].
  { split; [constructor|]. split; intros x Hx; by apply not_elem_of_nil in Hx. }
  case_bool_decide as Hs.
  - destruct (IH seen) as (Hn & Hsub & Hall). split; [done|]. split.
    + intros x Hx. destruct (Hsub x Hx). split; [by right|done].
    + intros x [->|Hx]%elem_of_cons; [by left|by apply Hall].
  - destruct (IH ({[mac_address b]} ∪ seen)) as (Hn & Hsub & Hall). rewrite fmap_cons. split; [|split].
    + apply NoDup_cons. split; [|done]. intros (x & Hm & Hx)%list_elem_of_fmap. destruct (Hsub x Hx) as [_ Hns]. simpl in *. set_solver.
    + intros x [->|Hx]%elem_of_cons; [split; [by left|done]|]. destruct (Hsub x Hx). split; [by right|set_solver].
    + intros x [->|Hx]%elem_of_cons; [right; by left|]. destruct (Hall x Hx) as [Hx'|Hx']; [|right; by right].
      apply elem_of_union in Hx' as [Hx'%elem_of_singleton|Hx']; [|by left]. right. simpl. rewrite Hx'. by left.
Qed.

(** A decoded broadcast has a MAC address of six bytes. *)
Lemma broadcast_mac bs b rest : bytes bs -> read_broadcast bs = IoOk (b, rest) -> bytes (mac_address b) /\ length (mac_address b) = 6%nat.
Proof.
  intros Hb Hr. unfold read_broadcast in Hr.
  apply bind_ok in Hr as (m0 & r0 & (H0 & -> & Hb0)%read_u8_sound & Hr); [|done].
  apply bind_ok in Hr as (m1 & r1 & (H1 & -> & Hb1)%read_u8_sound & Hr); [|done].
  apply bind_ok in Hr as (m2 & r2 & (H2 & -> & Hb2)%read_u8_sound & Hr); [|done].
  apply bind_ok in Hr as (m3 & r3 & (H3 & -> & Hb3)%read_u8_sound & Hr); [|done].
  apply bind_ok in Hr as (m4 & r4 & (H4 & -> & Hb4)%read_u8_sound & Hr); [|done].
  apply bind_ok in Hr as (m5 & r5 & (H5 & -> & Hb5)%read_u8_sound & Hr); [|done].
  repeat (apply bind_ok in Hr as (? & ? & _ & Hr)). injection Hr as <- _. simpl. split; [|done]. repeat constructor; lia.
Qed.

Lemma next_broadcast_mac r b src : next_broadcast r = Some (b, src) -> bytes (mac_address b) /\ length (mac_address b) = 6%nat.
Proof.
  destruct r as [data ip| |]; [|done..]. cbn [next_broadcast]. case_decide; [done|]. destruct (read_broadcast _) as [[b' rest]|] eqn:Hr; [|done].
  intros [= <- <-]. eapply broadcast_mac; [|exact Hr]. apply Forall_fmap, Forall_true. intros x. unfold wrapu. simpl. apply Z.mod_pos_bound. lia.
Qed.

Lemma format_mac_inj xs ys : bytes xs -> bytes ys -> length xs = length ys -> format_mac xs = format_mac ys -> xs = ys.
Proof.
  intros Hx. revert ys. induction Hx as [|x xs Hx Hxs IH]; intros [|y ys] Hy Hl He; try done.
  apply Forall_cons in Hy as [Hy Hys]. injection Hl as Hl.
  assert (Hone : unit_id_hex [x] = unit_id_hex [y] -> x = y).
  { intros Hh. apply hex_inj in Hh; [by injection Hh|repeat constructor; lia..|done]. }
  destruct xs as [|x' xs], ys as [|y' ys]; try done; [by rewrite (Hone He)|].
  change (unit_id_hex [x] +:+ ":" +:+ format_mac (x' :: xs) = unit_id_hex [y] +:+ ":" +:+ format_mac (y' :: ys)) in He.
  apply append_split in He as [Hh He]; [|done]. apply append_split in He as [_ He]; [|done]. rewrite (Hone Hh). f_equal. by apply IH.
Qed.

Lemma NoDup_fmap_via {A B C} (f : A -> B) (g : A -> C) l :
  (forall x y, x ∈ l -> y ∈ l -> f x = f y -> g x = g y) -> NoDup (g <$> l) -> NoDup (f <$> l).
Proof.
  induction l as [|a l IH]; intros Hfg Hn; [constructor|]. rewrite fmap_cons. rewrite (fmap_cons g) in Hn. apply NoDup_cons in Hn as [Ha Hn]. apply NoDup_cons. split.
  - intros (x & He & Hx)%list_elem_of_fmap. apply Ha. apply list_elem_of_fmap. exists x. split; [|done]. apply Hfg; [by left|by right|done].
  - apply IH; [|done]. intros x y Hx Hy. apply Hfg; by right.
Qed.

Lemma ether_scan_spec now reads :
  let bs := omap next_broadcast (window SCAN_TIMEOUT reads) in
  exists devs, ether_scan now (Some reads) = Some devs /\
    NoDup ((di_stable_id ∘ dd_info) <$> devs) /\
    devs = uncurry discovered_device <$> first_of_each ∅ bs /\
    (forall b src, (b, src) ∈ bs -> exists dev, dev ∈ devs /\ di_stable_id (dd_info dev) = ED_PREFIX +:+ ":" +:+ format_mac (mac_address b)).
Proof.
  intros bs. eexists. split.
  { unfold ether_scan. rewrite scan_until_spec; [reflexivity|]. replace (now + SCAN_TIMEOUT - now) with SCAN_TIMEOUT by lia.
    change (1 + SCAN_TIMEOUT / READ_TIMEOUT) with 8. change (SCAN_TIMEOUT / READ_TIMEOUT) with 7. lia. }
  replace (now + SCAN_TIMEOUT - now) with SCAN_TIMEOUT by lia. rewrite app_nil_l. fold bs. destruct (first_of_each_macs ∅ bs) as (Hn & Hsub & Hall).
  assert (Hmac : forall x, x ∈ bs -> bytes (mac_address x.1) /\ length (mac_address x.1) = 6%nat).
  { intros [b src] (r & _ & Hr)%list_elem_of_omap. by eapply next_broadcast_mac. }
  split; [|split; [done|]].
  - rewrite <- list_fmap_compose. apply (NoDup_fmap_via _ (mac_address ∘ fst)); [|done]. intros [b src] [b' src'] Hx Hy He. simpl in He |- *.
    apply append_split in He as [_ He]; [|done]. apply append_split in He as [_ He]; [|done].
    destruct (Hmac _ (proj1 (Hsub _ Hx))) as [Hb Hl], (Hmac _ (proj1 (Hsub _ Hy))) as [Hb' Hl']. simpl in *. apply format_mac_inj; congruence || done.
  - intros b src Hin. destruct (Hall _ Hin) as [Hbad|([b' src'] & Hm & Hx)%list_elem_of_fmap]; [by apply not_elem_of_empty in Hbad|].
    exists (discovered_device b' src'). simpl in *. split; [|by rewrite Hm]. apply list_elem_of_fmap. by exists (b', src').
Qed.

(** A scan ends within its window and lists every DAC whose broadcast was read in
    it exactly once, as its first broadcast says, under an id that no other listed
    DAC has; anything else it reads is passed over. *)
Theorem ether_scan_lists_each_once now reads :
  let bs := omap next_broadcast (window SCAN_TIMEOUT reads) in
  exists devs, ether_scan now (Some reads) = Some devs /\
    NoDup ((di_stable_id ∘ dd_info) <$> devs) /\
    devs = uncurry discovered_device <$> first_of_each ∅ bs /\
    (forall b src, (b, src) ∈ bs -> exists dev, dev ∈ devs /\ di_stable_id (dd_info dev) = ED_PREFIX +:+ ":" +:+ format_mac (mac_address b)).
Proof. apply ether_scan_spec. Qed.

(** ** Simulated DACs are found *)

Lemma write_broadcast_bytes b : bytes (write_broadcast b).
Proof.
  assert (Hw : forall n v, bytes (write_le n v)) by (intros n v; rewrite write_le_spec; apply le_bytes_byte).
  unfold write_broadcast, write_status, write_u8, write_u16, write_u32. repeat (apply Forall_app; split; [try apply Hw|]); try apply Hw.
  induction (mac_address b) as [|x xs IH]; [constructor|]. simpl. apply Forall_app. split; [apply Hw|exact IH].
Qed.

Lemma wrapu_bytes bs : bytes bs -> wrapu 8 <$> bs = bs.
Proof. induction 1 as [|x xs Hx _ IH]; [done|]. rewrite fmap_cons, IH. f_equal. unfold wrapu. by rewrite Z.mod_small. Qed.

Lemma write_broadcast_length b : length (mac_address b) = 6%nat -> length (write_broadcast b) = BUFFER_LEN.
Proof.
  intros Hl. unfold write_broadcast. rewrite !length_app, status_bytes_length. unfold write_u16, write_u32. rewrite !write_le_length.
  destruct b as [mac hw sw cap rate st]. simpl in *. destruct mac as [|m0 [|m1 [|m2 [|m3 [|m4 [|m5 [|]]]]]]]; try discriminate Hl. simpl. unfold write_u8.
  by rewrite !length_app, !write_le_length.
Qed.

Lemma heard_broadcast b src : broadcast_wf b -> next_broadcast (Heard (write_broadcast b) src) = Some (b, src).
Proof.
  intros Hb. assert (Hl : length (write_broadcast b) = BUFFER_LEN) by (apply write_broadcast_length, Hb).
  assert (Hid : wrapu 8 <$> take BUFFER_LEN (write_broadcast b) = write_broadcast b).
  { rewrite take_ge by lia. apply wrapu_bytes, write_broadcast_bytes. }
  cbn [next_broadcast]. rewrite Hid. case_decide; [lia|]. rewrite <- (app_nil_r (write_broadcast b)), broadcast_round by done. done.
Qed.

Lemma first_of_each_first seen pre b src post :
  mac_address b ∉ seen -> (forall x, x ∈ pre -> mac_address x.1 <> mac_address b) -> (b, src) ∈ first_of_each seen (pre ++ (b, src) :: post).
Proof.
  revert seen. induction pre as [|[b' src'] pre IH]; intros seen Hs Hpre; cbn [app first_of_each].
  - rewrite bool_decide_false by done. by left.
  - assert (Hne : mac_address b' <> mac_address b) by (apply (Hpre (b', src')); by left).
    assert (Hrest : forall x, x ∈ pre -> mac_address x.1 <> mac_address b) by (intros x Hx; apply Hpre; by right).
    case_bool_decide; [by apply IH|]. right. apply IH; [|done]. set_solver.
Qed.

Lemma total_time_nonneg reads : 0 <= total_time reads.
Proof. induction reads as [|[dt r] reads IH]; cbn [total_time]; lia. Qed.

Lemma window_app left pre dt r post : total_time pre < left -> 0 < left ->
  exists rest, window left (pre ++ (dt, r) :: post) = (snd <$> pre) ++ r :: rest.
Proof.
  revert left. induction pre as [|[d x] pre IH]; intros left Ht Hl; cbn [app window].
  - destruct (Z.ltb_spec 0 left); [by eexists|lia].
  - destruct (Z.ltb_spec 0 left); [|lia]. cbn [total_time] in Ht. pose proof (total_time_nonneg pre). destruct (IH (left - Z.of_N d)) as [rest Hr]; [lia..|]. rewrite Hr. by exists rest.
Qed.

Lemma all_profiles_announce p es m rs :
  p ∈ all_profiles -> Forall event_ok es -> sim_run es (model_new p) = Some (rs, m) ->
  broadcast_wf (model_broadcast m) /\ mac_address (model_broadcast m) = fw_mac_address p /\
  caps_for (buffer_capacity (model_broadcast m)) (max_point_rate (model_broadcast m)) = mkCaps 1 (fw_max_point_rate p) (fw_buffer_capacity p) NetworkFifo.
Proof.
  intros Hp He Hr. assert (Hok : profile_ok p) by (unfold all_profiles in Hp; set_unfold in Hp; destruct_or! Hp; try subst p; by split).
  assert (H0 : settled (model_new p)) by (split; [by apply model_new_ok|by split; [constructor|]]).
  destruct (sim_run_ok es (model_new p) H0 He) as (rs' & m' & Hr' & (Hm & _) & Hpr). rewrite Hr in Hr'. injection Hr' as <- <-.
  change (m_profile (model_new p)) with p in Hpr. unfold model_broadcast. rewrite Hpr. pose proof (model_status_wf m Hm) as Hst.
  unfold all_profiles in Hp. set_unfold in Hp. destruct_or! Hp; try subst p; (split; [split_and!; try done; repeat constructor; lia|done]).
Qed.

(** C39. A DAC of any known firmware, in whatever state its clients brought it, is found
    when its announcement is the first with its MAC address that a scan reads, and is
    offered under that address with the ring and the rate its firmware has; and
    connecting to it gives a backend with exactly the capabilities the scan
    reported. *)
Theorem simulated_dac_is_found p es rs m now pre dt src post :
  p ∈ all_profiles -> Forall event_ok es -> sim_run es (model_new p) = Some (rs, m) ->
  total_time pre < SCAN_TIMEOUT ->
  (forall b a, (b, a) ∈ omap next_broadcast (snd <$> pre) -> mac_address b <> fw_mac_address p) ->
  exists devs dev, ether_scan now (Some (pre ++ (dt, Heard (write_broadcast (model_broadcast m)) src) :: post)) = Some devs /\ dev ∈ devs /\
    di_stable_id (dd_info dev) = ED_PREFIX +:+ ":" +:+ format_mac (fw_mac_address p) /\ di_ip_address (dd_info dev) = Some src /\
    dd_caps dev = mkCaps 1 (fw_max_point_rate p) (fw_buffer_capacity p) NetworkFifo /\
    forall P, exists b : EtherDreamBackend P, ether_connect (dd_connect_data dev) = Ok b /\ eb_caps b = dd_caps dev /\ eb_broadcast b = Some (model_broadcast m).
Proof.
  intros Hp He Hr Ht Hpre. destruct (all_profiles_announce p es m rs Hp He Hr) as (Hwf & Hmac & Hcaps).
  set (b := model_broadcast m) in *. set (reads := pre ++ (dt, Heard (write_broadcast b) src) :: post).
  destruct (ether_scan_spec now reads) as (devs & Hs & _ & Hd & _). exists devs, (discovered_device b src). split; [done|].
  destruct (window_app SCAN_TIMEOUT pre dt (Heard (write_broadcast b) src) post Ht ltac:(done)) as [rest Hw].
  split; [|split; [by rewrite <- Hmac|]].
  - rewrite Hd. apply list_elem_of_fmap. exists (b, src). split; [done|]. unfold reads. rewrite Hw, omap_app. cbn [omap list_omap]. rewrite heard_broadcast by done.
    apply first_of_each_first; [apply not_elem_of_empty|]. intros [b' a] Hx. cbn [fst]. rewrite Hmac. by eapply Hpre.
  - split; [done|]. split; [done|]. intros P. exists (with_address (Some b)). split; [|by split].
    unfold ether_connect. change (output_model (eb_caps _)) with (output_model (caps_for (buffer_capacity b) (max_point_rate b))). by rewrite Hcaps.
Qed.
End facts.

(** ** Firmware versions *)

(** The build string a simulated DAC answers with identifies its firmware, for
    every known one. *)
Lemma version_identifies_firmware p : p ∈ all_profiles ->
  exists v, fw_version_string p = Some v /\ identify (text (decode_response (version_bytes v))) = Some p.
Proof.
  intros Hp. unfold all_profiles in Hp. set_unfold in Hp. destruct_or! Hp; try subst p; (eexists; split; [reflexivity|vm_compute; reflexivity]).
Qed.

Module ScanDemo.
(** A stray datagram, then the announcement of an idle Ether Dream 2. *)
Definition src : IpAddr := V4 0xC0A80132.
Definition stray : list (N * heard) := [(1000000%N, Heard [1; 2; 3] src); (200000000%N, Quiet)].
End ScanDemo.

Lemma simulated_dac_is_found_witness :
  exists devs dev,
    @ether_scan stdlib_byte_order 0 (Some (ScanDemo.stray ++ (300000000%N, Heard (@write_broadcast stdlib_byte_order (model_broadcast (model_new ed2_r331))) ScanDemo.src) :: [])) = Some devs /\
    dev ∈ devs /\ di_stable_id (dd_info dev) = "etherdream:02:ed:00:00:00:02" /\ dd_caps dev = mkCaps 1 100000 3899 NetworkFifo.
Proof.
  destruct (@simulated_dac_is_found stdlib_byte_order ed2_r331 [] [] (model_new ed2_r331) 0 ScanDemo.stray 300000000%N ScanDemo.src []) as (devs & dev & Hs & Hin & Hid & _ & Hc & _).
  - right; left.
  - constructor.
  - reflexivity.
  - vm_compute. reflexivity.
  - intros b a Hb. vm_compute in Hb. by apply not_elem_of_nil in Hb.
  - exists devs, dev. split; [exact Hs|]. split; [exact Hin|]. split; [exact Hid|exact Hc].
Defined.
