(* ===== verification/EtherReplay.v ===== *)
(** * Ether Dream: replaying captures of real hardware

    Models [src/src/protocols/ether_dream/replay.rs]: the events of a capture, and the
    comparison of the simulator with what the hardware answered.  A failed assertion
    of the replay is [None]. *)

From stdpp Require Import gmap strings.
From S2P Require Import Prelude Floats Point Presentation Bytes EtherDream EtherModel.

#[local] Open Scope Z_scope.

(** ** Captured events *)

Record TraceEvent := mkEvent {
  ev_seq : Z;
  ev_phase : string;
  ev_op : string;
  ev_req : string;
  ev_resp : string;
  ev_status : string;
  ev_n : Z;
  ev_t_us : Z;
  ev_dur_us : option Z;
  ev_note : string;
}.

Definition hex_digit (a : Ascii.ascii) : option Z :=
  let n := Z.of_N (Ascii.N_of_ascii a) in
  if (48 <=? n) && (n <=? 57) then Some (n - 48)
  else if (97 <=? n) && (n <=? 102) then Some (n - 87)
  else if (65 <=? n) && (n <=? 70) then Some (n - 55)
  else None.

(** [u8::from_str_radix] of two characters; the first may be a plus sign. *)
Definition hex_byte (a b : Ascii.ascii) : option Z :=
  if (Ascii.N_of_ascii a =? 43)%N then hex_digit b
  else hi ← hex_digit a; lo ← hex_digit b; Some (16 * hi + lo).

Fixpoint hex (s : string) : option (list Z) :=
  match s with
  | "" => Some []
  | String a (String b s) => v ← hex_byte a b; vs ← hex s; Some (v :: vs)
  | String _ "" => None
  end%string.

Section replaying.
Context `{ByteOrder}.

(** [TraceEvent::request]: elided points are zero bytes. *)
Definition request (e : TraceEvent) : option (list Z) :=
  req ← hex (ev_req e);
  guard (Z.of_nat (length req) <= ev_n e);;
  Some (req ++ replicate (Z.to_nat (ev_n e) - length req) 0).

Definition event_response (e : TraceEvent) : option DacResponse :=
  raw ← hex (ev_resp e);
  guard (length raw = response_size);;
  match read_response raw with IoOk (r, _) => Some r | IoErr _ => None end.

Definition find_event (op : string) (es : list TraceEvent) : option TraceEvent := snd <$> list_find (fun e => ev_op e = op) es.

(** [connection]: the events of connection [n], counted by hellos. *)
Fixpoint connection_from (conn n : nat) (es : list TraceEvent) : list TraceEvent :=
  match es with
  | [] => []
  | e :: es =>
      let conn := if bool_decide (ev_op e = "hello") then S conn else conn in
      if (conn =? n)%nat then e :: connection_from conn n es else connection_from conn n es
  end.

Definition connection (n : nat) (es : list TraceEvent) : list TraceEvent := connection_from 0 n es.

Definition is_idle (e : TraceEvent) : option bool :=
  r ← event_response e;
  Some (st_playback_state (response_status r) =? PLAYBACK_IDLE).

(** ** Comparing *)

(** Points played in about 1.5 ms, and a little slack. *)
Definition playback_tolerance (st : DacStatus) : Z :=
  if st_playback_state st =? PLAYBACK_PLAYING then st_point_rate st * 3 / 2000 + 2 else 0.

Definition assert_status (got want : DacStatus) (tol : Z) : bool :=
  let close a b := Z.abs (a - b) <=? tol in
  (st_light_engine_state got =? st_light_engine_state want) && (st_playback_state got =? st_playback_state want) &&
  (st_source got =? st_source want) && (st_light_engine_flags got =? st_light_engine_flags want) &&
  (st_playback_flags got =? st_playback_flags want) && (st_source_flags got =? st_source_flags want) &&
  (st_point_rate got =? st_point_rate want) &&
  close (st_buffer_fullness got) (st_buffer_fullness want) && close (st_point_count got) (st_point_count want).

Record ReplayState := mkReplay {
  rp_model : EtherDreamModel;
  rp_compared : nat;
  rp_stale_tol : Z;
  rp_carried_tol : Z;
  rp_prev_end : Z;
  rp_prepared : bool;
}.

Definition contains (sub s : string) : bool := bool_decide (is_Some (String.index 0 sub s)).

(** Events that never reached the hardware, got no answer, or reflect what an earlier
    session left. *)
Definition skipped (prepared : bool) (e : TraceEvent) : bool :=
  negb prepared || bool_decide (ev_op e = "hello") || bool_decide (ev_phase e = "pre") ||
  bool_decide (ev_status e ∈ ["timeout"; "closed"; "blocked"; "synthesized"]).

(** A response that is compared. *)
Definition judge_response (e : TraceEvent) (got : DacResponse) (s : ReplayState) : option ReplayState :=
  want ← event_response e;
  guard (response got = response want /\ response_command got = response_command want);;
  let wst := response_status want in
  let carried := if bool_decide (ev_op e = "update") then Z.max (rp_carried_tol s) (rp_stale_tol s) else rp_carried_tol s in
  let tol := Z.max (Z.max (playback_tolerance wst) (rp_stale_tol s)) carried in
  guard (assert_status (response_status got) wst tol = true);;
  let '(stale, carried) :=
    if st_playback_state wst =? PLAYBACK_PLAYING then (playback_tolerance wst, carried)
    else if bool_decide (ev_op e = "prepare") then (0, 0)
    else (rp_stale_tol s, carried) in
  Some (mkReplay (rp_model s) (S (rp_compared s)) stale carried (rp_prev_end s) (rp_prepared s)).

(** One event of [replay]. *)
Definition replay_event (e : TraceEvent) (s : ReplayState) : option ReplayState :=
  let prepared := rp_prepared s || bool_decide (ev_op e = "prepare") in
  let s := mkReplay (rp_model s) (rp_compared s) (rp_stale_tol s) (rp_carried_tol s) (rp_prev_end s) prepared in
  if skipped prepared e then Some s
  else
    let half := default 0 (ev_dur_us e) / 2 in
    guard (half <= ev_t_us e);;
    let now := Z.max (ev_t_us e - half) (rp_prev_end s) * 1000 in
    req ← request e;
    '(replies, m) ← feed now req (rp_model s);
    let s := mkReplay m (rp_compared s) (rp_stale_tol s) (rp_carried_tol s) (ev_t_us e) prepared in
    let next := mkReplay m (S (rp_compared s)) (rp_stale_tol s) (rp_carried_tol s) (ev_t_us e) prepared in
    if contains "UNEXPLAINED" (ev_note e) then Some s
    else if bool_decide (ev_op e = "version") then
      want ← hex (ev_resp e);
      match replies with
      | [VersionReply got] => guard (got = want);; Some next
      | _ => None
      end
    else if bool_decide (ev_status e = "reset") then
      match replies with [Reset] => Some next | _ => None end
    else
      match replies with
      | [Response got] => judge_response e got s
      | _ => None
      end.

Fixpoint replay_events (es : list TraceEvent) (s : ReplayState) : option ReplayState :=
  match es with
  | [] => Some s
  | e :: es => s ← replay_event e s; replay_events es s
  end.

(** The preset with the idle flags of the boot a capture comes from. *)
Definition with_flags (flags : Z) (p : FirmwareProfile) : FirmwareProfile :=
  mkProfile (fw_name p) (fw_provenance p) (fw_mac_address p) (fw_hw_revision p) (fw_sw_revision p) (fw_buffer_capacity p) (fw_max_point_rate p)
    (fw_version_string p) flags (fw_ring_points p) (naks_full p) (begin_while_idle_acked p) (stop_while_idle_naks p)
    (stale_fullness_until_prepare p) (estop_clear_immediate p) (unknown_command_resets_tcp p)
    (data_partial_write_then_nak_invalid p) (data_while_idle_nak_invalid p) (enforce_single_client p)
    (rate_nak_consumes_one_byte p) (zero_rate_hangs p) (close_stops_playback p) (light_engine_flags_mirror_state p).

Definition replay (es : list TraceEvent) (flags : Z) : option nat :=
  s ← replay_events es (mkReplay (model_new (with_flags flags ed2_r331)) 0 0 0 0 false);
  Some (rp_compared s).
End replaying.

(** Idle flags of the two boots the captures come from. *)
Definition FLAGS_FIRST_BOOT : Z := 0x5f31.
Definition FLAGS_SECOND_BOOT : Z := 0x7731.

(** ** Evaluating a replay *)

(** Byte order functions that look no further than they read. *)
Fixpoint split_exact (n : nat) (bs : list Z) : option (list Z * list Z) :=
  match n, bs with
  | O, _ => Some ([], bs)
  | S _, [] => None
  | S n, b :: bs => '(front, rest) ← split_exact n bs; Some (b :: front, rest)
  end.

Lemma split_exact_spec n bs : split_exact n bs = if decide (n <= length bs)%nat then Some (take n bs, drop n bs) else None.
Proof.
  revert bs. induction n as [|n IH]; intros bs; [by destruct bs|]. destruct bs as [|b bs]; [done|]. cbn [split_exact]. rewrite IH. simpl length.
  repeat case_decide; try done; lia.
Qed.

Definition quick_byte_order : ByteOrder.
Proof.
  refine {| write_le := le_bytes; write_be := be_bytes;
    read_le n bs := '(front, rest) ← split_exact n bs; Some (le_value front, rest);
    read_be n bs := '(front, rest) ← split_exact n bs; Some (be_value front, rest) |}; intros; try done; rewrite split_exact_spec; by case_decide.
Defined.
