(* ===== verification/EtherCaptures.v ===== *)
(** * Ether Dream: captures of real hardware

    The captures of an Ether Dream 2 (firmware r331-ed4bef5) under
    [src/tests/fixtures/ether_dream/] that
    [src/src/protocols/ether_dream/replay.rs] replays, one event per line of the file;
    notes about elided payloads are left out.  [model_replays_captures] replays
    them against the model of the firmware, as a test of the model. *)

From stdpp Require Import gmap strings.
From S2P Require Import Prelude Floats Point Presentation Bytes Utf8 EtherDream EtherModel EtherStream Discovery EtherReplay.

#[local] Open Scope Z_scope.

Definition IDENTITY : list TraceEvent := [
  mkEvent 1 "connect" "hello" "" "613f000000000000315f000029050000000000000000" "ok" 0 700 None "raw bytes; idle DAC reporting a stale fullness of 1321";
  mkEvent 2 "identity" "ping" "3f" "613f000000000000315f000029050000000000000000" "ok" 1 1200 None "raw bytes";
  mkEvent 3 "identity" "version" "76" "723333312d656434626566350000000000000000000000000000000000000000" "ok" 1 1700 None "raw bytes; 32-byte NUL-padded build string, no 'a' prefix"].

Definition HW_IDENTITY : list TraceEvent := [
  mkEvent 1 "identity" "hello" "" "613f0000000000003177000078050000000000000000" "ok" 0 1933 (Some 718) "";
  mkEvent 2 "identity" "ping" "3f" "613f0000000000003177000078050000000000000000" "ok" 1 4283 (Some 591) "";
  mkEvent 3 "identity" "version" "76" "723333312d656434626566350000000000000000000000000000000000000000" "ok" 1 4820 (Some 431) "";
  mkEvent 4 "identity" "ping" "3f" "613f0000000000003177000078050000000000000000" "ok" 1 5355 (Some 422) "connection still in sync after 'v'"].

Definition HW_BROADCAST : list TraceEvent := [
  mkEvent 1 "broadcast" "broadcast" "" "d880390000000a0002003b0fa08601000000000000003377000000000000000000000000" "ok" 0 1 (Some 0) "UDP broadcast on port 7654, re-encoded from the parsed frame; the device-specific half of the MAC address is zeroed"].

Definition HWCHECK_DISCOVERY : list TraceEvent := [
  mkEvent 1 "broadcast_discovery" "broadcast" "" "d880390000000a0002003b0fa0860100000000000000317700007e050000000000000000" "ok" 0 544962 (Some 0) "UDP broadcast on port 7654, re-encoded from the parsed frame, MAC device half zeroed"].

Definition LIFECYCLE : list TraceEvent := [
  mkEvent 1 "connect" "hello" "" "613f000000000000315f0000b2050000000000000000" "ok" 0 700 None "stale fullness from an earlier session";
  mkEvent 2 "stream" "prepare" "70" "6170000001000000315f000000000000000000000000" "ok" 1 1100 None "";
  mkEvent 3 "stream" "data" "64f401" "6164000001000000315f0000f4010000000000000000" "ok" 9003 2500 None "";
  mkEvent 4 "stream" "begin" "62000030750000" "6162000002000000315f0000f4013075000000000000" "ok" 7 3000 None "";
  mkEvent 5 "stream" "ping" "3f" "613f000002000000315f00004e0130750000a6000000" "ok" 1 8500 None "";
  mkEvent 6 "stream" "ping" "3f" "613f000002000000315f0000a700307500004d010000" "ok" 1 14000 None "";
  mkEvent 7 "stream" "ping" "3f" "613f000000000000335f000000000000000000000000" "ok" 1 19700 None "";
  mkEvent 8 "stream" "ping" "3f" "613f000000000000335f000000000000000000000000" "ok" 1 25100 None "";
  mkEvent 9 "stream" "data" "64e803" "4964000000000000335f000000000000000000000000" "ok" 18003 30200 None "DAC already underflowed";
  mkEvent 10 "stream" "data" "640707" "4964000000000000335f000000000000000000000000" "ok" 32385 36400 None "DAC idle";
  mkEvent 11 "stream" "data" "640707" "4964000000000000335f000000000000000000000000" "ok" 32385 42700 None "DAC idle";
  mkEvent 12 "stream" "ping" "3f" "613f000000000000335f000000000000000000000000" "ok" 1 55400 None "";
  mkEvent 13 "stream" "ping" "3f" "613f000000000000335f000000000000000000000000" "ok" 1 66900 None "";
  mkEvent 14 "stream" "ping" "3f" "613f000000000000335f000000000000000000000000" "ok" 1 78200 None "";
  mkEvent 15 "stream" "ping" "3f" "613f000000000000335f000000000000000000000000" "ok" 1 91400 None "";
  mkEvent 16 "stream" "ping" "3f" "613f000000000000335f000000000000000000000000" "ok" 1 104400 None "";
  mkEvent 17 "stream" "ping" "3f" "613f000000000000335f000000000000000000000000" "ok" 1 117600 None "";
  mkEvent 18 "stream" "ping" "3f" "613f000000000000335f000000000000000000000000" "ok" 1 270500 None "after a 150 ms pause";
  mkEvent 19 "stream" "data" "646400" "4964000000000000335f000000000000000000000000" "ok" 1803 273800 None "data while idle";
  mkEvent 20 "stream" "begin" "62000030750000" "6162000000000000335f000000000000000000000000" "ok" 7 274300 None "begin while idle is ACKed and ignored";
  mkEvent 21 "stream" "prepare" "70" "6170000001000000315f000000000000000000000000" "ok" 1 274800 None "";
  mkEvent 22 "stream" "data" "642c01" "6164000001000000315f00002c010000000000000000" "ok" 5403 275900 None "";
  mkEvent 23 "stream" "begin" "62000030750000" "6162000002000000315f00002c013075000000000000" "ok" 7 276400 None "";
  mkEvent 24 "stream" "update" "750000204e0000" "6175000002000000315f00001e01204e00000e000000" "ok" 7 276700 None "";
  mkEvent 25 "stream" "point_rate" "71a8610000" "6171000002000000315f00001801204e000014000000" "ok" 5 277100 None "queued; no control bit follows";
  mkEvent 26 "stream" "stop" "73" "6173000000000000315f000011010000000000000000" "ok" 1 277500 None "fullness is kept after stop";
  mkEvent 27 "stream" "stop" "73" "4973000000000000315f000011010000000000000000" "ok" 1 278000 None "stop while idle is NAK-Invalid";
  mkEvent 28 "stream" "ping" "3f" "613f000000000000315f000011010000000000000000" "ok" 1 278300 None "";
  mkEvent 29 "stream" "begin" "62000030750000" "6162000000000000315f000011010000000000000000" "ok" 7 278700 None "ACKed, playback stays idle";
  mkEvent 30 "stream" "data" "640a00" "4964000000000000315f000011010000000000000000" "ok" 183 287100 None "data while idle";
  mkEvent 31 "stream" "estop" "00" "6100000300000300355f000011010000000000000000" "ok" 1 289100 None "";
  mkEvent 32 "stream" "ping" "3f" "613f000300000300355f000011010000000000000000" "ok" 1 289700 None "";
  mkEvent 33 "stream" "data" "640a00" "4964000300000300355f000011010000000000000000" "ok" 183 292600 None "";
  mkEvent 34 "stream" "clear_estop" "63" "6163000000000000355f000011010000000000000000" "ok" 1 293100 None "ready immediately; e-stop playback flag stays until prepare";
  mkEvent 35 "stream" "ping" "3f" "613f000000000000355f000011010000000000000000" "ok" 1 293400 None "";
  mkEvent 36 "stream" "unknown" "7a" "" "reset" 1 294000 None "unknown command 'z': the DAC resets the TCP connection; time approximate"].

Definition CAPACITY : list TraceEvent := [
  mkEvent 1 "connect" "hello" "" "613f000000000000355f000011010000000000000000" "ok" 0 500 None "stale fullness and sticky e-stop flag from the previous session";
  mkEvent 2 "connect" "hello" "" "613f000000000000355f000011010000000000000000" "ok" 0 1500 None "second concurrent connection is accepted";
  mkEvent 3 "pre" "ping" "3f" "613f000000000000355f000011010000000000000000" "ok" 1 1800 None "first connection still works";
  mkEvent 4 "stream" "prepare" "70" "6170000001000000315f000000000000000000000000" "ok" 1 3200 None "";
  mkEvent 5 "stream" "data" "640000" "6164000001000000315f000000000000000000000000" "ok" 3 3600 None "";
  mkEvent 6 "stream" "data" "64e803" "6164000001000000315f0000e8030000000000000000" "ok" 18003 5400 None "";
  mkEvent 7 "stream" "data" "64bc02" "6164000001000000315f0000a4060000000000000000" "ok" 12603 6700 None "";
  mkEvent 8 "stream" "data" "643200" "6164000001000000315f0000d6060000000000000000" "ok" 903 7000 None "";
  mkEvent 9 "stream" "data" "640a00" "6164000001000000315f0000e0060000000000000000" "ok" 183 7200 None "";
  mkEvent 10 "stream" "data" "640a00" "6164000001000000315f0000ea060000000000000000" "ok" 183 7500 None "";
  mkEvent 11 "stream" "data" "640a00" "6164000001000000315f0000f4060000000000000000" "ok" 183 7800 None "";
  mkEvent 12 "stream" "data" "640a00" "6164000001000000315f0000fe060000000000000000" "ok" 183 8000 None "";
  mkEvent 13 "stream" "data" "640a00" "6164000001000000315f000008070000000000000000" "ok" 183 8200 None "";
  mkEvent 14 "stream" "data" "640a00" "6164000001000000315f000012070000000000000000" "ok" 183 8500 None "";
  mkEvent 15 "stream" "data" "640a00" "6164000001000000315f00001c070000000000000000" "ok" 183 8800 None "";
  mkEvent 16 "stream" "data" "640a00" "6164000001000000315f000026070000000000000000" "ok" 183 9100 None "";
  mkEvent 17 "stream" "data" "640a00" "6164000001000000315f000030070000000000000000" "ok" 183 9500 None "";
  mkEvent 18 "stream" "data" "640a00" "6164000001000000315f00003a070000000000000000" "ok" 183 9800 None "";
  mkEvent 19 "stream" "data" "640a00" "6164000001000000315f000044070000000000000000" "ok" 183 10200 None "";
  mkEvent 20 "stream" "data" "640a00" "6164000001000000315f00004e070000000000000000" "ok" 183 10300 None "";
  mkEvent 21 "stream" "data" "640100" "6164000001000000315f00004f070000000000000000" "ok" 21 10700 None "no NAK happened; label from the probe script";
  mkEvent 22 "stream" "data" "64d007" "6164000001000000315f00001f0f0000000000000000" "ok" 36003 14000 None "accepted beyond the advertised 1799: ring holds 3871";
  mkEvent 23 "stream" "ping" "3f" "613f000001000000315f00001f0f0000000000000000" "ok" 1 14400 None "";
  mkEvent 24 "stream" "begin" "626400e8030000" "6162000002000000315f00001f0fe803000000000000" "ok" 7 14800 None "";
  mkEvent 25 "stream" "point_rate" "71d0070000" "6171000002000000315f00001f0fe803000000000000" "ok" 5 15100 None "";
  mkEvent 26 "stream" "ping" "3f" "613f000002000000315f0000ea0ee803000035000000" "ok" 1 67900 None "a queued rate without a control bit is not applied";
  mkEvent 27 "stream" "stop" "73" "6173000000000000315f0000ea0e0000000000000000" "ok" 1 68200 None "";
  mkEvent 28 "stream" "prepare" "70" "6170000001000000315f000000000000000000000000" "ok" 1 68400 None "";
  mkEvent 29 "stream" "data" "641400008000000000000000000000000000000000000000000000000000000000000000000000000000000000000000000000000000000000000000000000000000000000000000000000000000000000000000000000000000000000000000000000000000000000000000000000000000000000000000000000000000000000000000000000000000000000000000000000000000000000000000000000000000000000000000000000000000000000000000000000000000000000000000000000000000000000000000000000000000000000000000000000000000000000000000000000000000000000000000000000000000000000000000000000000000000000000000000000000000000000000000000000000000000000000000000000000000000000000000000000000000000000000000000000000000000000000000000000000000000000000000000000000000000000000000000000000000000000000000000000" "6164000001000000315f000014000000000000000000" "ok" 363 68800 None "first point carries the rate-change control bit";
  mkEvent 30 "stream" "point_rate" "71d0070000" "6171000001000000315f000014000000000000000000" "ok" 5 68900 None "";
  mkEvent 31 "stream" "begin" "620000e8030000" "6162000002000000315f00001400e803000000000000" "ok" 7 69100 None "";
  mkEvent 32 "stream" "ping" "3f" "613f000000000000335f000000000000000000000000" "ok" 1 75700 None "UNEXPLAINED: 20 points drained within ~6.6 ms; excluded from model conformance";
  mkEvent 33 "stream" "ping" "3f" "613f000000000000335f000000000000000000000000" "ok" 1 111100 None "";
  mkEvent 34 "stream" "unsolicited_wait" "" "" "timeout" 0 3111100 None "3 s idle wait: the DAC sends nothing unsolicited";
  mkEvent 35 "stream" "ping" "3f" "613f000000000000335f000000000000000000000000" "ok" 1 3113100 None "";
  mkEvent 36 "stream" "prepare" "70" "6170000001000000315f000000000000000000000000" "ok" 1 3113600 None "";
  mkEvent 37 "stream" "data" "646400" "6164000001000000315f000064000000000000000000" "ok" 1803 3114100 None "";
  mkEvent 38 "stream" "begin" "62000030750000" "6162000002000000315f000064003075000000000000" "ok" 7 3114600 None "";
  mkEvent 39 "stream" "data" "646400" "4964000000000000335f000000000000000000000000" "ok" 1803 3130300 None "underflow detected only through the data NAK";
  mkEvent 40 "stream" "prepare" "70" "6170000001000000315f000000000000000000000000" "ok" 1 3130700 None "";
  mkEvent 41 "stream" "data" "64a406" "6164000001000000315f0000a4060000000000000000" "ok" 30603 3133700 None "";
  mkEvent 42 "stream" "begin" "62000030750000" "6162000002000000315f0000a4063075000000000000" "ok" 7 3134200 None "";
  mkEvent 43 "stream" "data" "64c800" "6164000002000000315f00005207307500001a000000" "ok" 3603 3135000 None "accepted past 1799";
  mkEvent 44 "stream" "data" "643200" "6164000002000000315f000075073075000029000000" "ok" 903 3135500 None "";
  mkEvent 45 "stream" "stop" "73" "6173000000000000315f00006a070000000000000000" "ok" 1 3135900 None "";
  mkEvent 46 "stream" "ping" "3f" "613f000000000000315f00006a070000000000000000" "ok" 1 3136300 None "";
  mkEvent 47 "connect" "hello" "" "613f000000000000315f00006a070000000000000000" "ok" 0 3138500 None "new connection; stale fullness after stop";
  mkEvent 48 "reconnect" "estop" "ff" "61ff000300000300355f00006a070000000000000000" "ok" 1 3140300 None "0xff is an alias for e-stop";
  mkEvent 49 "reconnect" "clear_estop" "63" "6163000000000000355f00006a070000000000000000" "ok" 1 3140700 None "";
  mkEvent 50 "reconnect" "prepare" "70" "6170000001000000315f000000000000000000000000" "ok" 1 3141000 None "";
  mkEvent 51 "reconnect" "ping" "3f" "613f000001000000315f000000000000000000000000" "ok" 1 3141200 None "";
  mkEvent 52 "reconnect" "stop" "73" "6173000000000000315f000000000000000000000000" "ok" 1 3141400 None "";
  mkEvent 53 "reconnect" "partial_wait" "" "" "timeout" 0 5641400 None "half of a 10-point data command sent; no reply within 2.5 s";
  mkEvent 54 "reconnect" "data" "640a00" "4964000000000000315f000000000000000000000000" "ok" 183 5643000 None "first half sent, 2.5 s pause with no reply, then the rest; NAK because the DAC is idle"].

Definition HW_LIFECYCLE : list TraceEvent := [
  mkEvent 1 "lifecycle" "hello" "" "613f0000000000003177000078050000000000000000" "ok" 0 1488 (Some 646) "";
  mkEvent 2 "lifecycle" "prepare" "70" "61700000010000003177000000000000000000000000" "ok" 1 1983 (Some 375) "";
  mkEvent 3 "lifecycle" "data" "64f401" "616400000100000031770000f4010000000000000000" "ok" 9003 4472 (Some 1421) "";
  mkEvent 4 "lifecycle" "begin" "62000030750000" "616200000200000031770000f4013075000000000000" "ok" 7 4983 (Some 375) "";
  mkEvent 5 "lifecycle" "ping" "3f" "613f000002000000317700004f0130750000a5000000" "ok" 1 10567 (Some 506) "";
  mkEvent 6 "lifecycle" "ping" "3f" "613f00000200000031770000a4003075000050010000" "ok" 1 16271 (Some 528) "";
  mkEvent 7 "lifecycle" "ping" "3f" "613f0000000000003377000000000000000000000000" "ok" 1 21982 (Some 548) "";
  mkEvent 8 "lifecycle" "ping" "3f" "613f0000000000003377000000000000000000000000" "ok" 1 27242 (Some 479) "";
  mkEvent 9 "lifecycle" "ping" "3f" "613f0000000000003377000000000000000000000000" "ok" 1 32897 (Some 517) "";
  mkEvent 10 "lifecycle" "ping" "3f" "613f0000000000003377000000000000000000000000" "ok" 1 38531 (Some 458) "";
  mkEvent 11 "lifecycle" "data" "646400" "49640000000000003377000000000000000000000000" "ok" 1803 41893 (Some 3175) "after underflow";
  mkEvent 12 "lifecycle" "begin" "62000030750000" "61620000000000003377000000000000000000000000" "ok" 7 42414 (Some 406) "begin while idle";
  mkEvent 13 "lifecycle" "prepare" "70" "61700000010000003177000000000000000000000000" "ok" 1 42909 (Some 390) "";
  mkEvent 14 "lifecycle" "data" "642c01" "6164000001000000317700002c010000000000000000" "ok" 5403 44458 (Some 895) "";
  mkEvent 15 "lifecycle" "begin" "62000030750000" "6162000002000000317700002c013075000000000000" "ok" 7 44873 (Some 297) "";
  mkEvent 16 "lifecycle" "update" "750000204e0000" "6175000002000000317700002301204e000009000000" "ok" 7 45367 (Some 443) "";
  mkEvent 17 "lifecycle" "point_rate" "71a8610000" "6171000002000000317700001701204e000015000000" "ok" 5 45854 (Some 382) "";
  mkEvent 18 "lifecycle" "stop" "73" "6173000000000000317700000e010000000000000000" "ok" 1 46334 (Some 387) "";
  mkEvent 19 "lifecycle" "stop" "73" "4973000000000000317700000e010000000000000000" "ok" 1 46794 (Some 365) "stop while idle";
  mkEvent 20 "lifecycle" "data" "640a00" "4964000000000000317700000e010000000000000000" "ok" 183 52600 (Some 5659) "data while idle";
  mkEvent 21 "lifecycle" "estop" "00" "6100000300000300357700000e010000000000000000" "ok" 1 54529 (Some 1868) "";
  mkEvent 22 "lifecycle" "ping" "3f" "613f000300000300357700000e010000000000000000" "ok" 1 54992 (Some 383) "";
  mkEvent 23 "lifecycle" "clear_estop" "63" "6163000000000000357700000e010000000000000000" "ok" 1 55411 (Some 364) "";
  mkEvent 24 "lifecycle" "ping" "3f" "613f000000000000357700000e010000000000000000" "ok" 1 55855 (Some 358) "";
  mkEvent 25 "lifecycle" "prepare" "70" "61700000010000003177000000000000000000000000" "ok" 1 56322 (Some 413) "clears the sticky flags";
  mkEvent 26 "lifecycle" "stop" "73" "61730000000000003177000000000000000000000000" "ok" 1 56781 (Some 359) ""].

Definition HW_CAPACITY : list TraceEvent := [
  mkEvent 1 "capacity" "hello" "" "613f0000000000003177000000000000000000000000" "ok" 0 1638 (Some 640) "";
  mkEvent 2 "capacity" "prepare" "70" "61700000010000003177000000000000000000000000" "ok" 1 2116 (Some 378) "";
  mkEvent 3 "capacity" "data" "64e803" "616400000100000031770000e8030000000000000000" "ok" 18003 6222 (Some 2177) "";
  mkEvent 4 "capacity" "data" "64530b" "6164000001000000317700003b0f0000000000000000" "ok" 52185 17030 (Some 5425) "";
  mkEvent 5 "capacity" "data" "646400" "4964000001000000317700003b0f0000000000000000" "ok" 1803 20445 (Some 3033) "beyond advertised capacity";
  mkEvent 6 "capacity" "ping" "3f" "613f000001000000317700003b0f0000000000000000" "ok" 1 20935 (Some 378) "";
  mkEvent 7 "capacity" "begin" "620000e8030000" "6162000002000000317700003b0fe803000000000000" "ok" 7 21393 (Some 362) "";
  mkEvent 8 "capacity" "ping" "3f" "613f00000200000031770000040fe803000037000000" "ok" 1 76897 (Some 768) "50 ms at 1 kpps";
  mkEvent 9 "capacity" "stop" "73" "617300000000000031770000030f0000000000000000" "ok" 1 77499 (Some 445) ""].

Definition HW_DRAIN : list TraceEvent := [
  mkEvent 1 "drain" "hello" "" "613f00000000000031770000030f0000000000000000" "ok" 0 1676 (Some 705) "";
  mkEvent 2 "drain" "prepare" "70" "61700000010000003177000000000000000000000000" "ok" 1 2186 (Some 406) "";
  mkEvent 3 "drain" "data" "64dc05" "616400000100000031770000dc050000000000000000" "ok" 27003 8176 (Some 3125) "";
  mkEvent 4 "drain" "begin" "62000030750000" "616200000200000031770000dc053075000000000000" "ok" 7 8654 (Some 360) "";
  mkEvent 5 "drain" "ping" "3f" "613f0000020000003177000086053075000056000000" "ok" 1 11768 (Some 481) "";
  mkEvent 6 "drain" "ping" "3f" "613f00000200000031770000290530750000b3000000" "ok" 1 14842 (Some 435) "";
  mkEvent 7 "drain" "ping" "3f" "613f00000200000031770000cd04307500000f010000" "ok" 1 17909 (Some 419) "";
  mkEvent 8 "drain" "ping" "3f" "613f000002000000317700007104307500006b010000" "ok" 1 21005 (Some 475) "";
  mkEvent 9 "drain" "ping" "3f" "613f00000200000031770000150430750000c7010000" "ok" 1 24056 (Some 432) "";
  mkEvent 10 "drain" "ping" "3f" "613f00000200000031770000b8033075000024020000" "ok" 1 27178 (Some 494) "";
  mkEvent 11 "drain" "ping" "3f" "613f000002000000317700005c033075000080020000" "ok" 1 30231 (Some 427) "";
  mkEvent 12 "drain" "ping" "3f" "613f00000200000031770000fe0230750000de020000" "ok" 1 33355 (Some 484) "";
  mkEvent 13 "drain" "ping" "3f" "613f00000200000031770000a102307500003b030000" "ok" 1 36458 (Some 475) "";
  mkEvent 14 "drain" "ping" "3f" "613f000002000000317700005202307500008a030000" "ok" 1 39077 (Some 435) "";
  mkEvent 15 "drain" "ping" "3f" "613f00000200000031770000f70130750000e5030000" "ok" 1 42107 (Some 409) "";
  mkEvent 16 "drain" "ping" "3f" "613f000002000000317700009b013075000041040000" "ok" 1 45178 (Some 435) "";
  mkEvent 17 "drain" "ping" "3f" "613f000002000000317700003f01307500009d040000" "ok" 1 48267 (Some 422) "";
  mkEvent 18 "drain" "ping" "3f" "613f00000200000031770000e20030750000fa040000" "ok" 1 51447 (Some 532) "";
  mkEvent 19 "drain" "ping" "3f" "613f0000020000003177000083003075000059050000" "ok" 1 54530 (Some 456) "";
  mkEvent 20 "drain" "ping" "3f" "613f00000200000031770000280030750000b4050000" "ok" 1 57563 (Some 412) "";
  mkEvent 21 "drain" "ping" "3f" "613f0000000000003377000000000000000000000000" "ok" 1 60692 (Some 496) "";
  mkEvent 22 "drain" "prepare" "70" "61700000010000003177000000000000000000000000" "ok" 1 61320 (Some 387) "";
  mkEvent 23 "drain" "data" "648403" "61640000010000003177000084030000000000000000" "ok" 16203 65078 (Some 1994) "";
  mkEvent 24 "drain" "begin" "62000030750000" "61620000020000003177000084033075000000000000" "ok" 7 65564 (Some 366) "";
  mkEvent 25 "drain" "data" "642c01" "616400000200000031770000100330750000a0010000" "ok" 5403 79410 (Some 1006) "";
  mkEvent 26 "drain" "data" "642c01" "61640000020000003177000094023075000048030000" "ok" 5403 93679 (Some 1261) "";
  mkEvent 27 "drain" "data" "642c01" "6164000002000000317700002f0230750000d9040000" "ok" 5403 107022 (Some 1287) "";
  mkEvent 28 "drain" "data" "642c01" "616400000200000031770000cb013075000069060000" "ok" 5403 120383 (Some 1379) "";
  mkEvent 29 "drain" "data" "642c01" "616400000200000031770000810130750000df070000" "ok" 5403 132803 (Some 1251) "";
  mkEvent 30 "drain" "data" "642c01" "61640000020000003177000024013075000068090000" "ok" 5403 145933 (Some 1250) "";
  mkEvent 31 "drain" "data" "642c01" "49640000000000003377000000000000000000000000" "ok" 5403 162817 (Some 3652) "";
  mkEvent 32 "drain" "data" "642c01" "49640000000000003377000000000000000000000000" "ok" 5403 177668 (Some 3867) "";
  mkEvent 33 "drain" "data" "642c01" "49640000000000003377000000000000000000000000" "ok" 5403 194155 (Some 3869) "";
  mkEvent 34 "drain" "data" "642c01" "49640000000000003377000000000000000000000000" "ok" 5403 210905 (Some 3535) "";
  mkEvent 35 "drain" "data" "642c01" "49640000000000003377000000000000000000000000" "ok" 5403 227742 (Some 3619) "";
  mkEvent 36 "drain" "data" "642c01" "49640000000000003377000000000000000000000000" "ok" 5403 244283 (Some 3644) "";
  mkEvent 37 "drain" "data" "642c01" "49640000000000003377000000000000000000000000" "ok" 5403 260838 (Some 3687) "";
  mkEvent 38 "drain" "data" "642c01" "49640000000000003377000000000000000000000000" "ok" 5403 277576 (Some 3504) "";
  mkEvent 39 "drain" "data" "642c01" "49640000000000003377000000000000000000000000" "ok" 5403 292872 (Some 3719) "";
  mkEvent 40 "drain" "data" "642c01" "49640000000000003377000000000000000000000000" "ok" 5403 309495 (Some 3581) "";
  mkEvent 41 "drain" "data" "642c01" "49640000000000003377000000000000000000000000" "ok" 5403 325075 (Some 3501) "";
  mkEvent 42 "drain" "data" "642c01" "49640000000000003377000000000000000000000000" "ok" 5403 339892 (Some 3633) "";
  mkEvent 43 "drain" "data" "642c01" "49640000000000003377000000000000000000000000" "ok" 5403 356695 (Some 5854) "";
  mkEvent 44 "drain" "data" "642c01" "49640000000000003377000000000000000000000000" "ok" 5403 373313 (Some 4085) "";
  mkEvent 45 "drain" "stop" "73" "49730000000000003377000000000000000000000000" "ok" 1 373789 (Some 435) ""].

Definition HWCHECK_CLAMP : list TraceEvent := [
  mkEvent 1 "clamp_guard" "hello" "" "613f000000000000317700003b0f0000000000000000" "ok" 0 60011 (Some 824) "";
  mkEvent 2 "clamp_guard" "hello" "" "613f000000000000317700003b0f0000000000000000" "ok" 0 121234 (Some 645) "";
  mkEvent 3 "clamp_guard" "version" "76" "723333312d656434626566350000000000000000000000000000000000000000" "ok" 1 121673 (Some 271) "";
  mkEvent 4 "clamp_guard" "prepare" "70" "61700000010000003177000000000000000000000000" "ok" 1 122832 (Some 276) "";
  mkEvent 5 "clamp_guard" "data" "64b004" "616400000100000031770000b0040000000000000000" "ok" 21603 125683 (Some 2245) "";
  mkEvent 6 "clamp_guard" "begin" "6200006a180000" "616200000200000031770000b0046a18000000000000" "ok" 7 126066 (Some 250) "";
  mkEvent 7 "clamp_guard" "update" "750000a0860100" "" "blocked" 7 126188 (Some 0) "rate 100000 outside 1000..=30000; not sent: refused by the safety interlock";
  mkEvent 8 "clamp_guard" "stop" "73" "617300000000000031770000ae040000000000000000" "ok" 1 126452 (Some 250) "interlock: stop before closing; injected by the proxy, reply not forwarded";
  mkEvent 9 "clamp_guard" "hello" "" "613f00000000000031770000ae040000000000000000" "ok" 0 504482 (Some 713) ""].

Definition HWCHECK_FULL_CHUNK : list TraceEvent := [
  mkEvent 1 "full_capacity_chunk" "hello" "" "613f000000000000317700002d000000000000000000" "ok" 0 75567 (Some 1030) "";
  mkEvent 2 "full_capacity_chunk" "version" "76" "723333312d656434626566350000000000000000000000000000000000000000" "ok" 1 76376 (Some 450) "";
  mkEvent 3 "full_capacity_chunk" "prepare" "70" "61700000010000003177000000000000000000000000" "ok" 1 77254 (Some 397) "";
  mkEvent 4 "full_capacity_chunk" "data" "643b0f" "6164000001000000317700003b0f0000000000000000" "ok" 70185 86639 (Some 7312) "";
  mkEvent 5 "full_capacity_chunk" "begin" "620000e8030000" "6162000002000000317700003b0fe803000000000000" "ok" 7 87195 (Some 355) "";
  mkEvent 6 "full_capacity_chunk" "stop" "73" "6173000000000000317700003b0f0000000000000000" "ok" 1 87693 (Some 345) "";
  mkEvent 7 "full_capacity_chunk" "prepare" "70" "61700000010000003177000000000000000000000000" "ok" 1 88172 (Some 356) "";
  mkEvent 8 "full_capacity_chunk" "data" "640a00" "6164000001000000317700000a000000000000000000" "ok" 183 88609 (Some 309) "";
  mkEvent 9 "full_capacity_chunk" "data" "64310f" "6164000001000000317700003b0f0000000000000000" "ok" 70005 96756 (Some 6562) "another client fills the ring; injected by the proxy, reply not forwarded";
  mkEvent 10 "full_capacity_chunk" "data" "640100" "4964000001000000317700003b0f0000000000000000" "ok" 21 102190 (Some 2807) "";
  mkEvent 11 "full_capacity_chunk" "begin" "620000e8030000" "6162000002000000317700003b0fe803000000000000" "ok" 7 102651 (Some 298) "";
  mkEvent 12 "full_capacity_chunk" "stop" "73" "6173000000000000317700003b0f0000000000000000" "ok" 1 103111 (Some 381) "cleanup: stop; injected by the proxy, reply not forwarded";
  mkEvent 13 "full_capacity_chunk" "stop" "73" "4973000000000000317700003b0f0000000000000000" "ok" 1 106234 (Some 403) "";
  mkEvent 14 "full_capacity_chunk" "hello" "" "613f000000000000317700003b0f0000000000000000" "ok" 0 512627 (Some 894) ""].

Definition HWCHECK_PARTIAL_ROOM : list TraceEvent := [
  mkEvent 1 "partial_room" "hello" "" "613f0000000000003177000058050000000000000000" "ok" 0 63045 (Some 640) "";
  mkEvent 2 "partial_room" "prepare" "70" "61700000010000003177000000000000000000000000" "ok" 1 63768 (Some 307) "";
  mkEvent 3 "partial_room" "data" "64090f" "616400000100000031770000090f0000000000000000" "ok" 69285 71930 (Some 6351) "";
  mkEvent 4 "partial_room" "ping" "3f" "613f00000100000031770000090f0000000000000000" "ok" 1 72358 (Some 306) "";
  mkEvent 5 "partial_room" "data" "646400" "4964000001000000317700003b0f0000000000000000" "ok" 1803 75361 (Some 2839) "";
  mkEvent 6 "partial_room" "ping" "3f" "613f000001000000317700003b0f0000000000000000" "ok" 1 75801 (Some 340) "";
  mkEvent 7 "partial_room" "begin" "620000e8030000" "6162000002000000317700003b0fe803000000000000" "ok" 7 76251 (Some 351) "";
  mkEvent 8 "partial_room" "stop" "73" "6173000000000000317700003b0f0000000000000000" "ok" 1 76681 (Some 335) "";
  mkEvent 9 "partial_room" "hello" "" "613f000000000000317700003b0f0000000000000000" "ok" 0 472438 (Some 732) ""].

Definition HWCHECK_STALE : list TraceEvent := [
  mkEvent 1 "stale_full_reconnect" "hello" "" "613f000000000000317700007e050000000000000000" "ok" 0 54218 (Some 713) "";
  mkEvent 2 "stale_full_reconnect" "prepare" "70" "61700000010000003177000000000000000000000000" "ok" 1 54722 (Some 342) "";
  mkEvent 3 "stale_full_reconnect" "data" "64e803" "616400000100000031770000e8030000000000000000" "ok" 18003 57886 (Some 2107) "";
  mkEvent 4 "stale_full_reconnect" "data" "64530b" "6164000001000000317700003b0f0000000000000000" "ok" 52185 64476 (Some 5072) "";
  mkEvent 5 "stale_full_reconnect" "begin" "620000e8030000" "6162000002000000317700003b0fe803000000000000" "ok" 7 65025 (Some 402) "";
  mkEvent 6 "stale_full_reconnect" "stop" "73" "6173000000000000317700003b0f0000000000000000" "ok" 1 65479 (Some 310) "";
  mkEvent 7 "stale_full_reconnect" "hello" "" "613f000000000000317700003b0f0000000000000000" "ok" 0 132116 (Some 726) "";
  mkEvent 8 "stale_full_reconnect" "version" "76" "723333312d656434626566350000000000000000000000000000000000000000" "ok" 1 132639 (Some 351) "";
  mkEvent 9 "stale_full_reconnect" "prepare" "70" "61700000010000003177000000000000000000000000" "ok" 1 134310 (Some 345) "";
  mkEvent 10 "stale_full_reconnect" "data" "643200" "61640000010000003177000032000000000000000000" "ok" 903 134937 (Some 470) "";
  mkEvent 11 "stale_full_reconnect" "begin" "620000e8030000" "6162000002000000317700003200e803000000000000" "ok" 7 135359 (Some 305) "";
  mkEvent 12 "stale_full_reconnect" "data" "641000" "6164000002000000317700003100e803000011000000" "ok" 291 152761 (Some 366) "";
  mkEvent 13 "stale_full_reconnect" "data" "641000" "6164000002000000317700003100e803000021000000" "ok" 291 169029 (Some 461) "";
  mkEvent 14 "stale_full_reconnect" "data" "641000" "6164000002000000317700003100e803000031000000" "ok" 291 185337 (Some 435) "";
  mkEvent 15 "stale_full_reconnect" "data" "641000" "6164000002000000317700003000e803000042000000" "ok" 291 201481 (Some 469) "";
  mkEvent 16 "stale_full_reconnect" "data" "641000" "6164000002000000317700003100e803000051000000" "ok" 291 216480 (Some 418) "";
  mkEvent 17 "stale_full_reconnect" "data" "641000" "6164000002000000317700003100e803000061000000" "ok" 291 232773 (Some 465) "";
  mkEvent 18 "stale_full_reconnect" "data" "641000" "6164000002000000317700003100e803000071000000" "ok" 291 249128 (Some 501) "";
  mkEvent 19 "stale_full_reconnect" "data" "641000" "6164000002000000317700003000e803000082000000" "ok" 291 265378 (Some 423) "";
  mkEvent 20 "stale_full_reconnect" "data" "641000" "6164000002000000317700003200e803000090000000" "ok" 291 280062 (Some 351) "";
  mkEvent 21 "stale_full_reconnect" "data" "641000" "6164000002000000317700003000e8030000a2000000" "ok" 291 297610 (Some 452) "";
  mkEvent 22 "stale_full_reconnect" "data" "641000" "6164000002000000317700003100e8030000b1000000" "ok" 291 312786 (Some 492) "";
  mkEvent 23 "stale_full_reconnect" "data" "641000" "6164000002000000317700003100e8030000c1000000" "ok" 291 328981 (Some 340) "";
  mkEvent 24 "stale_full_reconnect" "data" "641000" "6164000002000000317700003100e8030000d1000000" "ok" 291 344998 (Some 351) "";
  mkEvent 25 "stale_full_reconnect" "data" "641000" "6164000002000000317700003100e8030000e1000000" "ok" 291 361201 (Some 470) "";
  mkEvent 26 "stale_full_reconnect" "data" "641000" "6164000002000000317700003000e8030000f2000000" "ok" 291 377555 (Some 461) "";
  mkEvent 27 "stale_full_reconnect" "data" "641000" "6164000002000000317700003100e803000001010000" "ok" 291 392561 (Some 438) "";
  mkEvent 28 "stale_full_reconnect" "data" "641000" "6164000002000000317700003100e803000011010000" "ok" 291 408798 (Some 406) "";
  mkEvent 29 "stale_full_reconnect" "data" "641000" "6164000002000000317700003100e803000021010000" "ok" 291 425098 (Some 477) "";
  mkEvent 30 "stale_full_reconnect" "data" "641000" "6164000002000000317700003000e803000032010000" "ok" 291 441343 (Some 377) "";
  mkEvent 31 "stale_full_reconnect" "data" "641000" "6164000002000000317700003200e803000040010000" "ok" 291 456167 (Some 294) "";
  mkEvent 32 "stale_full_reconnect" "data" "641000" "6164000002000000317700003000e803000052010000" "ok" 291 473509 (Some 309) "";
  mkEvent 33 "stale_full_reconnect" "data" "641000" "6164000002000000317700003100e803000061010000" "ok" 291 488360 (Some 279) "";
  mkEvent 34 "stale_full_reconnect" "data" "641000" "6164000002000000317700003100e803000071010000" "ok" 291 504424 (Some 280) "";
  mkEvent 35 "stale_full_reconnect" "data" "641000" "6164000002000000317700003100e803000081010000" "ok" 291 520450 (Some 267) "";
  mkEvent 36 "stale_full_reconnect" "data" "641000" "6164000002000000317700003100e803000091010000" "ok" 291 536626 (Some 282) "";
  mkEvent 37 "stale_full_reconnect" "data" "641000" "6164000002000000317700003100e8030000a1010000" "ok" 291 552713 (Some 305) "";
  mkEvent 38 "stale_full_reconnect" "data" "641000" "6164000002000000317700003100e8030000b1010000" "ok" 291 568864 (Some 305) "";
  mkEvent 39 "stale_full_reconnect" "data" "641000" "6164000002000000317700003100e8030000c1010000" "ok" 291 584989 (Some 307) "";
  mkEvent 40 "stale_full_reconnect" "data" "641000" "6164000002000000317700003100e8030000d1010000" "ok" 291 601081 (Some 300) "";
  mkEvent 41 "stale_full_reconnect" "data" "641000" "6164000002000000317700003100e8030000e1010000" "ok" 291 617201 (Some 292) "";
  mkEvent 42 "stale_full_reconnect" "data" "641000" "6164000002000000317700003100e8030000f1010000" "ok" 291 633148 (Some 281) "";
  mkEvent 43 "stale_full_reconnect" "data" "641000" "6164000002000000317700003100e803000001020000" "ok" 291 649260 (Some 299) "";
  mkEvent 44 "stale_full_reconnect" "data" "641000" "6164000002000000317700003000e803000012020000" "ok" 291 665320 (Some 285) "";
  mkEvent 45 "stale_full_reconnect" "data" "641000" "6164000002000000317700003200e803000020020000" "ok" 291 679891 (Some 296) "";
  mkEvent 46 "stale_full_reconnect" "data" "641000" "6164000002000000317700003100e803000031020000" "ok" 291 697242 (Some 280) "";
  mkEvent 47 "stale_full_reconnect" "data" "641000" "6164000002000000317700003100e803000041020000" "ok" 291 713267 (Some 290) "";
  mkEvent 48 "stale_full_reconnect" "data" "641000" "6164000002000000317700003000e803000052020000" "ok" 291 729389 (Some 346) "";
  mkEvent 49 "stale_full_reconnect" "data" "641000" "6164000002000000317700003100e803000061020000" "ok" 291 744293 (Some 283) "";
  mkEvent 50 "stale_full_reconnect" "data" "641000" "6164000002000000317700003100e803000071020000" "ok" 291 760347 (Some 288) "";
  mkEvent 51 "stale_full_reconnect" "data" "641000" "6164000002000000317700003100e803000081020000" "ok" 291 776528 (Some 244) "";
  mkEvent 52 "stale_full_reconnect" "data" "641000" "6164000002000000317700003100e803000091020000" "ok" 291 792621 (Some 315) "";
  mkEvent 53 "stale_full_reconnect" "data" "641000" "6164000002000000317700003100e8030000a1020000" "ok" 291 808761 (Some 290) "";
  mkEvent 54 "stale_full_reconnect" "data" "641000" "6164000002000000317700003100e8030000b1020000" "ok" 291 824885 (Some 348) "";
  mkEvent 55 "stale_full_reconnect" "data" "641000" "6164000002000000317700003100e8030000c1020000" "ok" 291 841032 (Some 292) "";
  mkEvent 56 "stale_full_reconnect" "data" "641000" "6164000002000000317700003100e8030000d1020000" "ok" 291 857053 (Some 262) "";
  mkEvent 57 "stale_full_reconnect" "data" "641000" "6164000002000000317700003100e8030000e1020000" "ok" 291 873086 (Some 276) "";
  mkEvent 58 "stale_full_reconnect" "data" "641000" "6164000002000000317700003100e8030000f1020000" "ok" 291 889181 (Some 314) "";
  mkEvent 59 "stale_full_reconnect" "data" "641000" "6164000002000000317700003100e803000001030000" "ok" 291 905300 (Some 298) "";
  mkEvent 60 "stale_full_reconnect" "data" "641000" "6164000002000000317700003000e803000012030000" "ok" 291 921360 (Some 289) "";
  mkEvent 61 "stale_full_reconnect" "data" "641000" "6164000002000000317700003200e803000020030000" "ok" 291 936131 (Some 285) "";
  mkEvent 62 "stale_full_reconnect" "data" "641000" "6164000002000000317700003100e803000031030000" "ok" 291 953250 (Some 287) "";
  mkEvent 63 "stale_full_reconnect" "data" "641000" "6164000002000000317700003000e803000042030000" "ok" 291 969307 (Some 289) "";
  mkEvent 64 "stale_full_reconnect" "data" "641000" "6164000002000000317700003200e803000050030000" "ok" 291 984097 (Some 276) "";
  mkEvent 65 "stale_full_reconnect" "data" "641000" "6164000002000000317700003000e803000062030000" "ok" 291 1001511 (Some 297) "";
  mkEvent 66 "stale_full_reconnect" "data" "641000" "6164000002000000317700003100e803000071030000" "ok" 291 1016351 (Some 308) "";
  mkEvent 67 "stale_full_reconnect" "data" "641000" "6164000002000000317700003100e803000081030000" "ok" 291 1032397 (Some 274) "";
  mkEvent 68 "stale_full_reconnect" "data" "641000" "6164000002000000317700003100e803000091030000" "ok" 291 1048452 (Some 286) "";
  mkEvent 69 "stale_full_reconnect" "data" "641000" "6164000002000000317700003100e8030000a1030000" "ok" 291 1064553 (Some 288) "";
  mkEvent 70 "stale_full_reconnect" "data" "641000" "6164000002000000317700003100e8030000b1030000" "ok" 291 1080725 (Some 415) "";
  mkEvent 71 "stale_full_reconnect" "data" "641000" "6164000002000000317700003100e8030000c1030000" "ok" 291 1096932 (Some 383) "";
  mkEvent 72 "stale_full_reconnect" "data" "641000" "6164000002000000317700003100e8030000d1030000" "ok" 291 1113114 (Some 395) "";
  mkEvent 73 "stale_full_reconnect" "data" "641000" "6164000002000000317700003100e8030000e1030000" "ok" 291 1129261 (Some 433) "";
  mkEvent 74 "stale_full_reconnect" "data" "641000" "6164000002000000317700003000e8030000f2030000" "ok" 291 1145611 (Some 499) "";
  mkEvent 75 "stale_full_reconnect" "data" "641000" "6164000002000000317700003100e803000001040000" "ok" 291 1160790 (Some 481) "";
  mkEvent 76 "stale_full_reconnect" "data" "641000" "6164000002000000317700003100e803000011040000" "ok" 291 1177146 (Some 520) "";
  mkEvent 77 "stale_full_reconnect" "data" "641000" "6164000002000000317700003100e803000021040000" "ok" 291 1193292 (Some 490) "";
  mkEvent 78 "stale_full_reconnect" "data" "641000" "6164000002000000317700003000e803000032040000" "ok" 291 1209674 (Some 521) "";
  mkEvent 79 "stale_full_reconnect" "data" "641000" "6164000002000000317700003100e803000041040000" "ok" 291 1224758 (Some 502) "";
  mkEvent 80 "stale_full_reconnect" "data" "641000" "6164000002000000317700003100e803000051040000" "ok" 291 1241036 (Some 471) "";
  mkEvent 81 "stale_full_reconnect" "data" "641000" "6164000002000000317700003100e803000061040000" "ok" 291 1257363 (Some 379) "";
  mkEvent 82 "stale_full_reconnect" "data" "641000" "6164000002000000317700003000e803000072040000" "ok" 291 1273524 (Some 489) "";
  mkEvent 83 "stale_full_reconnect" "data" "641000" "6164000002000000317700003100e803000081040000" "ok" 291 1288655 (Some 545) "";
  mkEvent 84 "stale_full_reconnect" "data" "641000" "6164000002000000317700003100e803000091040000" "ok" 291 1305009 (Some 468) "";
  mkEvent 85 "stale_full_reconnect" "data" "641000" "6164000002000000317700003100e8030000a1040000" "ok" 291 1321287 (Some 462) "";
  mkEvent 86 "stale_full_reconnect" "data" "641000" "6164000002000000317700003000e8030000b2040000" "ok" 291 1337559 (Some 449) "";
  mkEvent 87 "stale_full_reconnect" "data" "641000" "6164000002000000317700003100e8030000c1040000" "ok" 291 1352605 (Some 472) "";
  mkEvent 88 "stale_full_reconnect" "data" "641000" "6164000002000000317700003100e8030000d1040000" "ok" 291 1368963 (Some 453) "";
  mkEvent 89 "stale_full_reconnect" "data" "641000" "6164000002000000317700003100e8030000e1040000" "ok" 291 1385271 (Some 504) "";
  mkEvent 90 "stale_full_reconnect" "data" "641000" "6164000002000000317700003000e8030000f2040000" "ok" 291 1401693 (Some 459) "";
  mkEvent 91 "stale_full_reconnect" "data" "641000" "6164000002000000317700003100e803000001050000" "ok" 291 1416908 (Some 459) "";
  mkEvent 92 "stale_full_reconnect" "data" "641000" "6164000002000000317700003100e803000011050000" "ok" 291 1433256 (Some 493) "";
  mkEvent 93 "stale_full_reconnect" "data" "641000" "6164000002000000317700003000e803000022050000" "ok" 291 1449583 (Some 467) "";
  mkEvent 94 "stale_full_reconnect" "data" "641000" "6164000002000000317700003100e803000031050000" "ok" 291 1464572 (Some 422) "";
  mkEvent 95 "stale_full_reconnect" "data" "641000" "6164000002000000317700003100e803000041050000" "ok" 291 1480918 (Some 494) "";
  mkEvent 96 "stale_full_reconnect" "data" "641000" "6164000002000000317700003100e803000051050000" "ok" 291 1497118 (Some 356) "";
  mkEvent 97 "stale_full_reconnect" "data" "641000" "6164000002000000317700003000e803000062050000" "ok" 291 1513427 (Some 390) "";
  mkEvent 98 "stale_full_reconnect" "data" "641000" "6164000002000000317700003100e803000071050000" "ok" 291 1528484 (Some 476) "";
  mkEvent 99 "stale_full_reconnect" "data" "641000" "6164000002000000317700003100e803000081050000" "ok" 291 1544431 (Some 400) "";
  mkEvent 100 "stale_full_reconnect" "data" "641000" "6164000002000000317700003100e803000091050000" "ok" 291 1560643 (Some 426) "";
  mkEvent 101 "stale_full_reconnect" "data" "641000" "6164000002000000317700003100e8030000a1050000" "ok" 291 1576840 (Some 372) "";
  mkEvent 102 "stale_full_reconnect" "data" "641000" "6164000002000000317700003100e8030000b1050000" "ok" 291 1593114 (Some 424) "";
  mkEvent 103 "stale_full_reconnect" "data" "641000" "6164000002000000317700003100e8030000c1050000" "ok" 291 1609408 (Some 476) "";
  mkEvent 104 "stale_full_reconnect" "data" "641000" "6164000002000000317700003000e8030000d2050000" "ok" 291 1625757 (Some 511) "";
  mkEvent 105 "stale_full_reconnect" "hello" "" "613f0000000000003177000023000000000000000000" "ok" 0 2008047 (Some 771) ""].

Definition HWCHECK_STEADY_UNDERFLOW : list TraceEvent := [
  mkEvent 7141 "steady_stream_60s" "data" "649700" "616400000200000031770000c80530750000519f1100" "ok" 2721 38560812 (Some 483) "";
  mkEvent 7142 "steady_stream_60s" "data" "649700" "616400000200000031770000c90530750000e79f1100" "ok" 2721 38565812 (Some 486) "";
  mkEvent 7143 "steady_stream_60s" "data" "64a500" "616400000200000031770000c705307500008ea01100" "ok" 2973 38571517 (Some 683) "";
  mkEvent 7144 "steady_stream_60s" "data" "649600" "616400000200000031770000c3053075000028a11100" "ok" 2703 38576521 (Some 518) "";
  mkEvent 7145 "steady_stream_60s" "data" "64a200" "616400000200000031770000c80530750000c5a11100" "ok" 2919 38581846 (Some 593) "";
  mkEvent 7146 "steady_stream_60s" "data" "649800" "616400000200000031770000c605307500005fa21100" "ok" 2739 38586902 (Some 512) "";
  mkEvent 7147 "steady_stream_60s" "data" "64a300" "616400000200000031770000c7053075000001a31100" "ok" 2937 38592346 (Some 593) "";
  mkEvent 7148 "steady_stream_60s" "data" "64a300" "616400000200000031770000c50530750000a6a31100" "ok" 2937 38597823 (Some 589) "";
  mkEvent 7149 "steady_stream_60s" "data" "64a200" "616400000200000031770000c6053075000047a41100" "ok" 2919 38603177 (Some 551) "";
  mkEvent 7150 "steady_stream_60s" "data" "64a300" "616400000200000031770000c70530750000e9a41100" "ok" 2937 38608594 (Some 572) "";
  mkEvent 7151 "steady_stream_60s" "data" "64a100" "616400000200000031770000c605307500008ba51100" "ok" 2901 38614060 (Some 626) "";
  mkEvent 7152 "steady_stream_60s" "data" "649900" "616400000200000031770000c3053075000027a61100" "ok" 2757 38619237 (Some 607) "";
  mkEvent 7153 "steady_stream_60s" "data" "649600" "6164000002000000317700007c053075000004a71100" "ok" 2703 38626788 (Some 1757) "";
  mkEvent 7154 "steady_stream_60s" "data" "64a300" "616400000200000031770000bd053075000066a71100" "ok" 2937 38629965 (Some 724) "";
  mkEvent 7155 "steady_stream_60s" "data" "649b00" "616400000200000031770000bf0530750000ffa71100" "ok" 2793 38634898 (Some 573) "";
  mkEvent 7156 "steady_stream_60s" "data" "649f00" "616400000200000031770000c5053075000098a81100" "ok" 2865 38639996 (Some 552) "";
  mkEvent 7157 "steady_stream_60s" "data" "64a300" "616400000200000031770000c405307500003ca91100" "ok" 2937 38645695 (Some 830) "";
  mkEvent 7158 "steady_stream_60s" "data" "64a200" "616400000200000031770000bf0530750000e3a91100" "ok" 2919 38651013 (Some 517) "";
  mkEvent 7159 "steady_stream_60s" "data" "64a100" "616400000200000031770000c805307500007baa1100" "ok" 2901 38656063 (Some 484) "";
  mkEvent 7160 "steady_stream_60s" "data" "649d00" "616400000200000031770000c7053075000019ab1100" "ok" 2829 38661427 (Some 585) "";
  mkEvent 7161 "steady_stream_60s" "data" "64a300" "616400000200000031770000c40530750000bfab1100" "ok" 2937 38666934 (Some 596) "";
  mkEvent 7162 "steady_stream_60s" "data" "64a200" "616400000200000031770000c605307500005fac1100" "ok" 2919 38672251 (Some 543) "";
  mkEvent 7163 "steady_stream_60s" "data" "649600" "616400000200000031770000c60530750000f5ac1100" "ok" 2703 38677240 (Some 534) "";
  mkEvent 7164 "steady_stream_60s" "data" "64a300" "616400000200000031770000c5053075000099ad1100" "ok" 2937 38682824 (Some 697) "";
  mkEvent 7165 "steady_stream_60s" "data" "64a300" "616400000200000031770000c1053075000040ae1100" "ok" 2937 38688394 (Some 683) "";
  mkEvent 7166 "steady_stream_60s" "data" "64a300" "616400000200000031770000c10530750000e3ae1100" "ok" 2937 38693921 (Some 808) "";
  mkEvent 7167 "steady_stream_60s" "data" "64a100" "616400000200000031770000bf053075000086af1100" "ok" 2901 38699251 (Some 665) "";
  mkEvent 7168 "steady_stream_60s" "data" "64a100" "616400000200000031770000c3053075000023b01100" "ok" 2901 38704328 (Some 499) "";
  mkEvent 7169 "steady_stream_60s" "data" "64a200" "616400000200000031770000c70530750000c1b01100" "ok" 2919 38709777 (Some 720) "";
  mkEvent 7170 "steady_stream_60s" "data" "64a300" "616400000200000031770000c005307500006bb11100" "ok" 2937 38715510 (Some 795) "";
  mkEvent 7171 "steady_stream_60s" "data" "649700" "49640000000000003377000000000000000000000000" "ok" 2721 38804562 (Some 2958) "";
  mkEvent 7172 "steady_stream_60s" "prepare" "70" "61700000010000003177000000000000000000000000" "ok" 1 38804963 (Some 283) "";
  mkEvent 7173 "steady_stream_60s" "data" "649700" "61640000010000003177000097000000000000000000" "ok" 2721 38805573 (Some 455) "";
  mkEvent 7174 "steady_stream_60s" "data" "644505" "616400000100000031770000dc050000000000000000" "ok" 24285 38808813 (Some 2485) "";
  mkEvent 7175 "steady_stream_60s" "begin" "62000030750000" "616200000200000031770000dc053075000000000000" "ok" 7 38809148 (Some 238) "";
  mkEvent 7176 "steady_stream_60s" "data" "64a300" "616400000200000031770000c60530750000b9000000" "ok" 2937 38815421 (Some 673) "";
  mkEvent 7177 "steady_stream_60s" "data" "649b00" "616400000200000031770000c3053075000057010000" "ok" 2793 38820625 (Some 572) "";
  mkEvent 7178 "steady_stream_60s" "data" "64a300" "616400000200000031770000c40530750000f9010000" "ok" 2937 38826003 (Some 606) "";
  mkEvent 7179 "steady_stream_60s" "data" "649800" "616400000200000031770000c705307500008e020000" "ok" 2739 38830950 (Some 515) "";
  mkEvent 7180 "steady_stream_60s" "data" "64a300" "616400000200000031770000c6053075000032030000" "ok" 2937 38836462 (Some 607) "";
  mkEvent 7181 "steady_stream_60s" "data" "649800" "616400000200000031770000c60530750000ca030000" "ok" 2739 38841525 (Some 551) "";
  mkEvent 7182 "steady_stream_60s" "data" "64a300" "616400000200000031770000c505307500006e040000" "ok" 2937 38846989 (Some 605) "";
  mkEvent 7183 "steady_stream_60s" "data" "64a100" "616400000200000031770000c605307500000e050000" "ok" 2901 38852234 (Some 487) "";
  mkEvent 7184 "steady_stream_60s" "data" "649b00" "616400000200000031770000c90530750000a6050000" "ok" 2793 38857333 (Some 508) "";
  mkEvent 7185 "steady_stream_60s" "data" "649700" "616400000200000031770000c905307500003d060000" "ok" 2721 38862382 (Some 493) "";
  mkEvent 7186 "steady_stream_60s" "data" "649700" "616400000200000031770000c80530750000d5060000" "ok" 2721 38867433 (Some 494) "";
  mkEvent 7187 "steady_stream_60s" "data" "64a200" "616400000200000031770000c7053075000078070000" "ok" 2919 38872885 (Some 540) "";
  mkEvent 7188 "steady_stream_60s" "data" "649600" "616400000200000031770000c805307500000d080000" "ok" 2703 38877886 (Some 527) "";
  mkEvent 7189 "steady_stream_60s" "data" "649700" "616400000200000031770000c70530750000a5080000" "ok" 2721 38882942 (Some 524) "";
  mkEvent 7190 "steady_stream_60s" "data" "64a500" "616400000200000031770000c505307500004c090000" "ok" 2973 38888597 (Some 684) "";
  mkEvent 7191 "steady_stream_60s" "data" "649900" "616400000200000031770000c50530750000e5090000" "ok" 2757 38893601 (Some 523) "";
  mkEvent 7192 "steady_stream_60s" "data" "649600" "616400000200000031770000c605307500007a0a0000" "ok" 2703 38898568 (Some 533) "";
  mkEvent 7193 "steady_stream_60s" "data" "649700" "616400000200000031770000c805307500000f0b0000" "ok" 2721 38903513 (Some 498) "";
  mkEvent 7194 "steady_stream_60s" "data" "64a400" "616400000200000031770000c60530750000b50b0000" "ok" 2955 38909113 (Some 622) "";
  mkEvent 7195 "steady_stream_60s" "data" "649600" "616400000200000031770000c605307500004b0c0000" "ok" 2703 38914060 (Some 524) "";
  mkEvent 7196 "steady_stream_60s" "data" "649900" "616400000200000031770000c80530750000e20c0000" "ok" 2757 38919179 (Some 601) "";
  mkEvent 7197 "steady_stream_60s" "data" "649800" "616400000200000031770000c405307500007e0d0000" "ok" 2739 38924353 (Some 588) "";
  mkEvent 7198 "steady_stream_60s" "data" "64a400" "616400000200000031770000c30530750000230e0000" "ok" 2955 38929835 (Some 625) "";
  mkEvent 7199 "steady_stream_60s" "data" "64a200" "616400000200000031770000c50530750000c30e0000" "ok" 2919 38935252 (Some 676) "";
  mkEvent 7200 "steady_stream_60s" "data" "649d00" "616400000200000031770000c20530750000630f0000" "ok" 2829 38940474 (Some 551) "";
  mkEvent 7201 "steady_stream_60s" "data" "649900" "616400000200000031770000c60530750000f80f0000" "ok" 2757 38945464 (Some 559) "";
  mkEvent 7202 "steady_stream_60s" "data" "649b00" "616400000200000031770000c5053075000094100000" "ok" 2793 38950624 (Some 526) "";
  mkEvent 7203 "steady_stream_60s" "data" "649b00" "616400000200000031770000c705307500002d110000" "ok" 2793 38955717 (Some 537) "";
  mkEvent 7204 "steady_stream_60s" "data" "649600" "616400000200000031770000c70530750000c3110000" "ok" 2703 38960715 (Some 529) "";
  mkEvent 7205 "steady_stream_60s" "data" "649d00" "616400000200000031770000c5053075000062120000" "ok" 2829 38965986 (Some 518) "";
  mkEvent 7206 "steady_stream_60s" "data" "649700" "616400000200000031770000c90530750000f5120000" "ok" 2721 38970932 (Some 511) "";
  mkEvent 7207 "steady_stream_60s" "data" "64a500" "616400000200000031770000c605307500009d130000" "ok" 2973 38976578 (Some 603) "";
  mkEvent 7208 "steady_stream_60s" "data" "649d00" "616400000200000031770000c405307500003c140000" "ok" 2829 38981803 (Some 507) "";
  mkEvent 7209 "steady_stream_60s" "data" "649600" "616400000200000031770000c80530750000ce140000" "ok" 2703 38986673 (Some 504) "";
  mkEvent 7210 "steady_stream_60s" "data" "649f00" "616400000200000031770000c705307500006e150000" "ok" 2865 38992036 (Some 553) ""].

Definition HWCHECK_UNDERFLOW : list TraceEvent := [
  mkEvent 1 "underflow_recovery" "hello" "" "613f000000000000317700003b0f0000000000000000" "ok" 0 79293 (Some 1023) "";
  mkEvent 2 "underflow_recovery" "version" "76" "723333312d656434626566350000000000000000000000000000000000000000" "ok" 1 80361 (Some 449) "";
  mkEvent 3 "underflow_recovery" "prepare" "70" "61700000010000003177000000000000000000000000" "ok" 1 81392 (Some 400) "";
  mkEvent 4 "underflow_recovery" "data" "643200" "61640000010000003177000032000000000000000000" "ok" 903 81898 (Some 348) "";
  mkEvent 5 "underflow_recovery" "begin" "620000e8030000" "6162000002000000317700003200e803000000000000" "ok" 7 82386 (Some 347) "";
  mkEvent 6 "underflow_recovery" "data" "641000" "6164000002000000317700003100e803000011000000" "ok" 291 99632 (Some 535) "";
  mkEvent 7 "underflow_recovery" "data" "641100" "6164000002000000317700003100e803000022000000" "ok" 309 116702 (Some 393) "";
  mkEvent 8 "underflow_recovery" "data" "641100" "6164000002000000317700003100e803000033000000" "ok" 309 133702 (Some 349) "";
  mkEvent 9 "underflow_recovery" "data" "641100" "6164000002000000317700003100e803000044000000" "ok" 309 150750 (Some 409) "";
  mkEvent 10 "underflow_recovery" "data" "641100" "6164000002000000317700003100e803000055000000" "ok" 309 168016 (Some 497) "";
  mkEvent 11 "underflow_recovery" "data" "641100" "6164000002000000317700003100e803000066000000" "ok" 309 185226 (Some 476) "";
  mkEvent 12 "underflow_recovery" "data" "641100" "6164000002000000317700003000e803000078000000" "ok" 309 202439 (Some 496) "";
  mkEvent 13 "underflow_recovery" "data" "641100" "6164000002000000317700003200e803000087000000" "ok" 309 218302 (Some 567) "";
  mkEvent 14 "underflow_recovery" "data" "641000" "6164000002000000317700003000e803000099000000" "ok" 291 235276 (Some 448) "";
  mkEvent 15 "underflow_recovery" "data" "641100" "6164000002000000317700003200e8030000a8000000" "ok" 309 251164 (Some 476) "";
  mkEvent 16 "underflow_recovery" "data" "641100" "6164000002000000317700003100e8030000ba000000" "ok" 309 269182 (Some 530) "";
  mkEvent 17 "underflow_recovery" "data" "641000" "6164000002000000317700003000e8030000cb000000" "ok" 291 285903 (Some 533) "";
  mkEvent 18 "underflow_recovery" "data" "641100" "6164000002000000317700003000e8030000dc000000" "ok" 309 302297 (Some 567) "";
  mkEvent 19 "underflow_recovery" "data" "641000" "6164000002000000317700003100e8030000eb000000" "ok" 291 318255 (Some 557) "";
  mkEvent 20 "underflow_recovery" "data" "641000" "6164000002000000317700003000e8030000fc000000" "ok" 291 335126 (Some 535) "";
  mkEvent 21 "underflow_recovery" "data" "641000" "6164000002000000317700003000e80300000c010000" "ok" 291 351064 (Some 592) "";
  mkEvent 22 "underflow_recovery" "data" "641000" "6164000002000000317700003000e80300001c010000" "ok" 291 366881 (Some 536) "";
  mkEvent 23 "underflow_recovery" "data" "641100" "6164000002000000317700003100e80300002c010000" "ok" 309 382901 (Some 535) "";
  mkEvent 24 "underflow_recovery" "data" "641000" "6164000002000000317700003000e80300003d010000" "ok" 291 399468 (Some 511) "";
  mkEvent 25 "underflow_recovery" "data" "641100" "6164000002000000317700003100e80300004d010000" "ok" 309 415428 (Some 520) "";
  mkEvent 26 "underflow_recovery" "data" "641000" "6164000002000000317700003100e80300005d010000" "ok" 291 432273 (Some 568) "";
  mkEvent 27 "underflow_recovery" "data" "641100" "6164000002000000317700003000e80300006f010000" "ok" 309 449368 (Some 554) "";
  mkEvent 28 "underflow_recovery" "data" "641100" "6164000002000000317700003100e80300007f010000" "ok" 309 465446 (Some 550) "";
  mkEvent 29 "underflow_recovery" "data" "641000" "6164000002000000317700003100e80300008f010000" "ok" 291 481555 (Some 622) "";
  mkEvent 30 "underflow_recovery" "data" "641000" "6164000002000000317700003000e8030000a0010000" "ok" 291 498297 (Some 568) "";
  mkEvent 31 "underflow_recovery" "data" "641100" "6164000002000000317700003100e8030000b0010000" "ok" 309 514319 (Some 567) "";
  mkEvent 32 "underflow_recovery" "data" "641100" "6164000002000000317700003100e8030000c1010000" "ok" 309 531928 (Some 507) "";
  mkEvent 33 "underflow_recovery" "data" "641100" "6164000002000000317700003100e8030000d2010000" "ok" 309 549169 (Some 729) "";
  mkEvent 34 "underflow_recovery" "data" "641100" "6164000002000000317700003000e8030000e4010000" "ok" 309 566764 (Some 625) "";
  mkEvent 35 "underflow_recovery" "data" "641000" "6164000002000000317700003000e8030000f4010000" "ok" 291 582759 (Some 572) "";
  mkEvent 36 "underflow_recovery" "data" "641100" "6164000002000000317700003100e803000004020000" "ok" 309 599168 (Some 574) "";
  mkEvent 37 "underflow_recovery" "data" "641000" "6164000002000000317700003000e803000015020000" "ok" 291 616545 (Some 972) "";
  mkEvent 38 "underflow_recovery" "data" "641100" "6164000002000000317700003000e803000026020000" "ok" 309 632499 (Some 475) "";
  mkEvent 39 "underflow_recovery" "data" "641000" "6164000002000000317700003000e803000036020000" "ok" 291 648408 (Some 603) "";
  mkEvent 40 "underflow_recovery" "data" "641100" "6164000002000000317700003100e803000046020000" "ok" 309 664484 (Some 491) "";
  mkEvent 41 "underflow_recovery" "data" "641100" "6164000002000000317700003100e803000057020000" "ok" 309 681490 (Some 429) "";
  mkEvent 42 "underflow_recovery" "data" "641000" "6164000002000000317700003100e803000067020000" "ok" 291 697378 (Some 518) "";
  mkEvent 43 "underflow_recovery" "data" "641000" "6164000002000000317700003000e803000078020000" "ok" 291 714359 (Some 713) "";
  mkEvent 44 "underflow_recovery" "data" "641100" "6164000002000000317700003100e803000088020000" "ok" 309 730571 (Some 697) "";
  mkEvent 45 "underflow_recovery" "data" "641100" "6164000002000000317700003100e803000099020000" "ok" 309 748101 (Some 639) "";
  mkEvent 46 "underflow_recovery" "data" "641100" "6164000002000000317700003000e8030000ab020000" "ok" 309 765313 (Some 448) "";
  mkEvent 47 "underflow_recovery" "data" "641000" "6164000002000000317700003100e8030000ba020000" "ok" 291 780530 (Some 490) "";
  mkEvent 48 "underflow_recovery" "data" "641000" "6164000002000000317700003200e8030000c9020000" "ok" 291 796019 (Some 313) "";
  mkEvent 49 "underflow_recovery" "data" "641000" "6164000002000000317700003100e8030000da020000" "ok" 291 813025 (Some 369) "";
  mkEvent 50 "underflow_recovery" "data" "641000" "6164000002000000317700003000e8030000eb020000" "ok" 291 829394 (Some 470) "";
  mkEvent 51 "underflow_recovery" "data" "641100" "6164000002000000317700003200e8030000fa020000" "ok" 309 845089 (Some 504) "";
  mkEvent 52 "underflow_recovery" "data" "641100" "6164000002000000317700003100e80300000c030000" "ok" 309 863210 (Some 478) "";
  mkEvent 53 "underflow_recovery" "data" "641000" "6164000002000000317700003100e80300001c030000" "ok" 291 878795 (Some 435) "";
  mkEvent 54 "underflow_recovery" "data" "641000" "6164000002000000317700003100e80300002c030000" "ok" 291 894990 (Some 427) "";
  mkEvent 55 "underflow_recovery" "data" "641100" "6164000002000000317700003100e80300003d030000" "ok" 309 911597 (Some 412) "";
  mkEvent 56 "underflow_recovery" "data" "641100" "6164000002000000317700003100e80300004e030000" "ok" 309 928696 (Some 445) "";
  mkEvent 57 "underflow_recovery" "data" "641100" "6164000002000000317700003100e80300005f030000" "ok" 309 945393 (Some 431) "";
  mkEvent 58 "underflow_recovery" "data" "641000" "6164000002000000317700003100e80300006f030000" "ok" 291 961946 (Some 439) "";
  mkEvent 59 "underflow_recovery" "data" "641100" "6164000002000000317700003100e803000080030000" "ok" 309 979003 (Some 417) "";
  mkEvent 60 "underflow_recovery" "data" "641100" "6164000002000000317700003100e803000091030000" "ok" 309 996134 (Some 475) "";
  mkEvent 61 "underflow_recovery" "data" "641100" "6164000002000000317700003100e8030000a2030000" "ok" 309 1013218 (Some 425) "";
  mkEvent 62 "underflow_recovery" "data" "641000" "6164000002000000317700003000e8030000b3030000" "ok" 291 1029235 (Some 324) "";
  mkEvent 63 "underflow_recovery" "data" "641100" "6164000002000000317700003200e8030000c2030000" "ok" 309 1045017 (Some 534) "";
  mkEvent 64 "underflow_recovery" "data" "641000" "6164000002000000317700003000e8030000d4030000" "ok" 291 1062508 (Some 658) "";
  mkEvent 65 "underflow_recovery" "data" "641000" "6164000002000000317700003100e8030000e3030000" "ok" 291 1078192 (Some 475) "";
  mkEvent 66 "underflow_recovery" "data" "641100" "49640000000000003377000000000000000000000000" "ok" 309 1491025 (Some 2861) "";
  mkEvent 67 "underflow_recovery" "prepare" "70" "61700000010000003177000000000000000000000000" "ok" 1 1491557 (Some 348) "";
  mkEvent 68 "underflow_recovery" "data" "641100" "61640000010000003177000011000000000000000000" "ok" 309 1492031 (Some 356) "";
  mkEvent 69 "underflow_recovery" "begin" "620000e8030000" "6162000002000000317700001100e803000000000000" "ok" 7 1492522 (Some 372) "";
  mkEvent 70 "underflow_recovery" "data" "642100" "6164000002000000317700003200e803000000000000" "ok" 597 1492984 (Some 329) "";
  mkEvent 71 "underflow_recovery" "data" "641000" "6164000002000000317700003100e803000011000000" "ok" 291 1510141 (Some 494) "";
  mkEvent 72 "underflow_recovery" "data" "641100" "6164000002000000317700003100e803000022000000" "ok" 309 1527265 (Some 469) "";
  mkEvent 73 "underflow_recovery" "data" "641100" "6164000002000000317700003100e803000033000000" "ok" 309 1544184 (Some 472) "";
  mkEvent 74 "underflow_recovery" "data" "641100" "6164000002000000317700003100e803000044000000" "ok" 309 1561316 (Some 479) "";
  mkEvent 75 "underflow_recovery" "data" "641100" "6164000002000000317700003100e803000055000000" "ok" 309 1578531 (Some 520) "";
  mkEvent 76 "underflow_recovery" "data" "641100" "6164000002000000317700003000e803000067000000" "ok" 309 1595704 (Some 473) "";
  mkEvent 77 "underflow_recovery" "data" "641000" "6164000002000000317700003100e803000076000000" "ok" 291 1611465 (Some 530) "";
  mkEvent 78 "underflow_recovery" "data" "641100" "6164000002000000317700003000e803000088000000" "ok" 309 1628762 (Some 554) "";
  mkEvent 79 "underflow_recovery" "data" "641100" "6164000002000000317700003200e803000097000000" "ok" 309 1644571 (Some 560) "";
  mkEvent 80 "underflow_recovery" "data" "641100" "6164000002000000317700003100e8030000a9000000" "ok" 309 1662386 (Some 464) "";
  mkEvent 81 "underflow_recovery" "data" "641100" "6164000002000000317700003100e8030000ba000000" "ok" 309 1679125 (Some 410) "";
  mkEvent 82 "underflow_recovery" "data" "641100" "6164000002000000317700003100e8030000cb000000" "ok" 309 1696130 (Some 639) "";
  mkEvent 83 "underflow_recovery" "data" "641100" "6164000002000000317700003000e8030000dd000000" "ok" 309 1714117 (Some 679) "";
  mkEvent 84 "underflow_recovery" "data" "641100" "6164000002000000317700003000e8030000ee000000" "ok" 309 1730895 (Some 836) "";
  mkEvent 85 "underflow_recovery" "data" "641000" "6164000002000000317700003000e8030000fe000000" "ok" 291 1747056 (Some 590) "";
  mkEvent 86 "underflow_recovery" "data" "641100" "6164000002000000317700003100e80300000e010000" "ok" 309 1763060 (Some 478) "";
  mkEvent 87 "underflow_recovery" "data" "641100" "6164000002000000317700003100e80300001f010000" "ok" 309 1780015 (Some 440) "";
  mkEvent 88 "underflow_recovery" "data" "641000" "6164000002000000317700003000e803000030010000" "ok" 291 1796856 (Some 722) "";
  mkEvent 89 "underflow_recovery" "data" "641100" "6164000002000000317700003100e803000040010000" "ok" 309 1812978 (Some 409) "";
  mkEvent 90 "underflow_recovery" "data" "641100" "6164000002000000317700003100e803000051010000" "ok" 309 1830096 (Some 510) "";
  mkEvent 91 "underflow_recovery" "data" "641000" "6164000002000000317700003000e803000062010000" "ok" 291 1846749 (Some 533) "";
  mkEvent 92 "underflow_recovery" "data" "641000" "6164000002000000317700003100e803000071010000" "ok" 291 1861719 (Some 487) "";
  mkEvent 93 "underflow_recovery" "data" "641100" "6164000002000000317700003100e803000082010000" "ok" 309 1878913 (Some 442) "";
  mkEvent 94 "underflow_recovery" "data" "641100" "6164000002000000317700003100e803000093010000" "ok" 309 1895989 (Some 383) "";
  mkEvent 95 "underflow_recovery" "data" "641100" "6164000002000000317700003100e8030000a4010000" "ok" 309 1913066 (Some 430) "";
  mkEvent 96 "underflow_recovery" "data" "641000" "6164000002000000317700003100e8030000b4010000" "ok" 291 1929326 (Some 484) "";
  mkEvent 97 "underflow_recovery" "data" "641100" "6164000002000000317700003100e8030000c5010000" "ok" 309 1946340 (Some 590) "";
  mkEvent 98 "underflow_recovery" "data" "641100" "6164000002000000317700003100e8030000d6010000" "ok" 309 1963492 (Some 548) "";
  mkEvent 99 "underflow_recovery" "data" "641000" "6164000002000000317700003000e8030000e7010000" "ok" 291 1979918 (Some 563) "";
  mkEvent 100 "underflow_recovery" "data" "641100" "6164000002000000317700003100e8030000f7010000" "ok" 309 1996378 (Some 921) "";
  mkEvent 101 "underflow_recovery" "data" "641000" "6164000002000000317700003000e803000008020000" "ok" 291 2013180 (Some 576) "";
  mkEvent 102 "underflow_recovery" "data" "641100" "6164000002000000317700003100e803000018020000" "ok" 309 2030074 (Some 1197) "";
  mkEvent 103 "underflow_recovery" "data" "641400" "6164000002000000317700003000e80300002d020000" "ok" 363 2050184 (Some 429) "";
  mkEvent 104 "underflow_recovery" "data" "641100" "6164000002000000317700003100e80300003d020000" "ok" 309 2066233 (Some 685) "";
  mkEvent 105 "underflow_recovery" "data" "641100" "6164000002000000317700003100e80300004e020000" "ok" 309 2083528 (Some 511) "";
  mkEvent 106 "underflow_recovery" "data" "641100" "6164000002000000317700003100e80300005f020000" "ok" 309 2100251 (Some 366) "";
  mkEvent 107 "underflow_recovery" "data" "641100" "6164000002000000317700003100e803000070020000" "ok" 309 2117416 (Some 382) "";
  mkEvent 108 "underflow_recovery" "data" "641100" "6164000002000000317700003000e803000082020000" "ok" 309 2134951 (Some 622) "";
  mkEvent 109 "underflow_recovery" "data" "641100" "6164000002000000317700003100e803000092020000" "ok" 309 2151056 (Some 507) "";
  mkEvent 110 "underflow_recovery" "data" "641100" "6164000002000000317700003100e8030000a3020000" "ok" 309 2168252 (Some 561) "";
  mkEvent 111 "underflow_recovery" "data" "641100" "6164000002000000317700003100e8030000b4020000" "ok" 309 2185501 (Some 536) "";
  mkEvent 112 "underflow_recovery" "data" "641000" "6164000002000000317700003000e8030000c5020000" "ok" 291 2201940 (Some 451) "";
  mkEvent 113 "underflow_recovery" "data" "641000" "6164000002000000317700003000e8030000d5020000" "ok" 291 2217830 (Some 651) "";
  mkEvent 114 "underflow_recovery" "data" "641100" "6164000002000000317700003100e8030000e5020000" "ok" 309 2234076 (Some 505) "";
  mkEvent 115 "underflow_recovery" "data" "641000" "6164000002000000317700003000e8030000f6020000" "ok" 291 2250838 (Some 534) "";
  mkEvent 116 "underflow_recovery" "data" "641000" "6164000002000000317700003000e803000006030000" "ok" 291 2266636 (Some 581) "";
  mkEvent 117 "underflow_recovery" "data" "641100" "6164000002000000317700003100e803000016030000" "ok" 309 2283062 (Some 513) "";
  mkEvent 118 "underflow_recovery" "data" "641000" "6164000002000000317700003100e803000026030000" "ok" 291 2299061 (Some 592) "";
  mkEvent 119 "underflow_recovery" "data" "641100" "6164000002000000317700003100e803000037030000" "ok" 309 2316438 (Some 586) "";
  mkEvent 120 "underflow_recovery" "data" "641000" "6164000002000000317700003000e803000048030000" "ok" 291 2333064 (Some 514) "";
  mkEvent 121 "underflow_recovery" "data" "641100" "6164000002000000317700003100e803000058030000" "ok" 309 2349410 (Some 644) "";
  mkEvent 122 "underflow_recovery" "data" "641000" "6164000002000000317700003000e803000069030000" "ok" 291 2366518 (Some 616) "";
  mkEvent 123 "underflow_recovery" "data" "641100" "6164000002000000317700003100e803000079030000" "ok" 309 2382553 (Some 529) "";
  mkEvent 124 "underflow_recovery" "data" "641100" "6164000002000000317700003000e80300008b030000" "ok" 309 2399955 (Some 535) "";
  mkEvent 125 "underflow_recovery" "data" "641100" "6164000002000000317700003100e80300009b030000" "ok" 309 2415951 (Some 448) "";
  mkEvent 126 "underflow_recovery" "data" "641100" "6164000002000000317700003100e8030000ac030000" "ok" 309 2433075 (Some 446) "";
  mkEvent 127 "underflow_recovery" "data" "641000" "6164000002000000317700003000e8030000bd030000" "ok" 291 2449977 (Some 812) "";
  mkEvent 128 "underflow_recovery" "data" "641100" "6164000002000000317700003100e8030000cd030000" "ok" 309 2466252 (Some 461) "";
  mkEvent 129 "underflow_recovery" "data" "641100" "6164000002000000317700003000e8030000df030000" "ok" 309 2483557 (Some 498) "";
  mkEvent 130 "underflow_recovery" "data" "641100" "6164000002000000317700003200e8030000ee030000" "ok" 309 2499489 (Some 513) "";
  mkEvent 131 "underflow_recovery" "data" "641000" "6164000002000000317700003000e803000000040000" "ok" 291 2516727 (Some 505) "";
  mkEvent 132 "underflow_recovery" "data" "641100" "6164000002000000317700003100e803000010040000" "ok" 309 2533050 (Some 638) "";
  mkEvent 133 "underflow_recovery" "data" "641000" "6164000002000000317700003000e803000021040000" "ok" 291 2549690 (Some 548) "";
  mkEvent 134 "underflow_recovery" "data" "641100" "6164000002000000317700003100e803000031040000" "ok" 309 2565939 (Some 460) "";
  mkEvent 135 "underflow_recovery" "data" "641000" "6164000002000000317700003100e803000041040000" "ok" 291 2582435 (Some 549) "";
  mkEvent 136 "underflow_recovery" "data" "641000" "6164000002000000317700003100e803000051040000" "ok" 291 2598523 (Some 723) "";
  mkEvent 137 "underflow_recovery" "data" "641100" "6164000002000000317700003000e803000063040000" "ok" 309 2615946 (Some 596) "";
  mkEvent 138 "underflow_recovery" "data" "641000" "6164000002000000317700003000e803000073040000" "ok" 291 2631656 (Some 481) "";
  mkEvent 139 "underflow_recovery" "data" "641100" "6164000002000000317700003200e803000082040000" "ok" 309 2647435 (Some 537) "";
  mkEvent 140 "underflow_recovery" "data" "641000" "6164000002000000317700003000e803000094040000" "ok" 291 2664713 (Some 503) "";
  mkEvent 141 "underflow_recovery" "data" "641100" "6164000002000000317700003200e8030000a3040000" "ok" 309 2680488 (Some 425) "";
  mkEvent 142 "underflow_recovery" "stop" "73" "6173000000000000317700001f000000000000000000" "ok" 1 2698912 (Some 585) "";
  mkEvent 143 "underflow_recovery" "hello" "" "613f000000000000317700001f000000000000000000" "ok" 0 3073508 (Some 793) ""].

Definition HWCHECK_ESTOP : list TraceEvent := [
  mkEvent 1 "estop_recovery" "hello" "" "613f000000000000317700001f000000000000000000" "ok" 0 77561 (Some 1147) "";
  mkEvent 2 "estop_recovery" "version" "76" "723333312d656434626566350000000000000000000000000000000000000000" "ok" 1 78541 (Some 402) "";
  mkEvent 3 "estop_recovery" "prepare" "70" "61700000010000003177000000000000000000000000" "ok" 1 79466 (Some 365) "";
  mkEvent 4 "estop_recovery" "data" "643200" "61640000010000003177000032000000000000000000" "ok" 903 79982 (Some 374) "";
  mkEvent 5 "estop_recovery" "begin" "620000e8030000" "6162000002000000317700003200e803000000000000" "ok" 7 80420 (Some 314) "";
  mkEvent 6 "estop_recovery" "data" "641000" "6164000002000000317700003100e803000011000000" "ok" 291 97479 (Some 421) "";
  mkEvent 7 "estop_recovery" "data" "641100" "6164000002000000317700003100e803000022000000" "ok" 309 114584 (Some 429) "";
  mkEvent 8 "estop_recovery" "data" "641100" "6164000002000000317700003100e803000033000000" "ok" 309 131737 (Some 502) "";
  mkEvent 9 "estop_recovery" "data" "641000" "6164000002000000317700003100e803000043000000" "ok" 291 147708 (Some 442) "";
  mkEvent 10 "estop_recovery" "data" "641100" "6164000002000000317700003100e803000054000000" "ok" 309 164876 (Some 443) "";
  mkEvent 11 "estop_recovery" "data" "641000" "6164000002000000317700003100e803000064000000" "ok" 291 180774 (Some 629) "";
  mkEvent 12 "estop_recovery" "data" "641100" "6164000002000000317700003100e803000075000000" "ok" 309 198143 (Some 588) "";
  mkEvent 13 "estop_recovery" "data" "641100" "6164000002000000317700003100e803000086000000" "ok" 309 215044 (Some 571) "";
  mkEvent 14 "estop_recovery" "data" "641000" "6164000002000000317700003000e803000097000000" "ok" 291 231672 (Some 505) "";
  mkEvent 15 "estop_recovery" "data" "641100" "6164000002000000317700003100e8030000a7000000" "ok" 309 247619 (Some 635) "";
  mkEvent 16 "estop_recovery" "data" "641000" "6164000002000000317700003100e8030000b7000000" "ok" 291 264277 (Some 503) "";
  mkEvent 17 "estop_recovery" "data" "641000" "6164000002000000317700003000e8030000c8000000" "ok" 291 280476 (Some 443) "";
  mkEvent 18 "estop_recovery" "data" "641100" "6164000002000000317700003100e8030000d8000000" "ok" 309 296410 (Some 487) "";
  mkEvent 19 "estop_recovery" "data" "641000" "6164000002000000317700003100e8030000e8000000" "ok" 291 312965 (Some 492) "";
  mkEvent 20 "estop_recovery" "data" "641100" "6164000002000000317700003100e8030000f9000000" "ok" 309 330344 (Some 669) "";
  mkEvent 21 "estop_recovery" "data" "641000" "6164000002000000317700003100e803000009010000" "ok" 291 346427 (Some 531) "";
  mkEvent 22 "estop_recovery" "data" "641000" "6164000002000000317700003000e80300001a010000" "ok" 291 363096 (Some 533) "";
  mkEvent 23 "estop_recovery" "data" "641100" "6164000002000000317700003100e80300002a010000" "ok" 309 379380 (Some 558) "";
  mkEvent 24 "estop_recovery" "data" "641100" "6164000002000000317700003000e80300003c010000" "ok" 309 396833 (Some 527) "";
  mkEvent 25 "estop_recovery" "data" "641100" "6164000002000000317700003100e80300004c010000" "ok" 309 413135 (Some 543) "";
  mkEvent 26 "estop_recovery" "data" "641100" "6164000002000000317700003000e80300005e010000" "ok" 309 430593 (Some 528) "";
  mkEvent 27 "estop_recovery" "data" "641100" "6164000002000000317700003100e80300006e010000" "ok" 309 446686 (Some 585) "";
  mkEvent 28 "estop_recovery" "data" "641000" "6164000002000000317700003100e80300007e010000" "ok" 291 462706 (Some 542) "";
  mkEvent 29 "estop_recovery" "data" "641100" "6164000002000000317700003100e80300008f010000" "ok" 309 479959 (Some 477) "";
  mkEvent 30 "estop_recovery" "data" "641000" "6164000002000000317700003000e8030000a0010000" "ok" 291 496682 (Some 634) "";
  mkEvent 31 "estop_recovery" "data" "641000" "6164000002000000317700003100e8030000af010000" "ok" 291 512451 (Some 548) "";
  mkEvent 32 "estop_recovery" "data" "641000" "6164000002000000317700002f00e8030000c1010000" "ok" 291 530069 (Some 624) "";
  mkEvent 33 "estop_recovery" "data" "641000" "6164000002000000317700003000e8030000d0010000" "ok" 291 544801 (Some 633) "";
  mkEvent 34 "estop_recovery" "data" "641100" "6164000002000000317700003100e8030000e0010000" "ok" 309 560765 (Some 494) "";
  mkEvent 35 "estop_recovery" "data" "641100" "6164000002000000317700003100e8030000f1010000" "ok" 309 577895 (Some 605) "";
  mkEvent 36 "estop_recovery" "data" "641100" "6164000002000000317700003100e803000002020000" "ok" 309 595258 (Some 491) "";
  mkEvent 37 "estop_recovery" "data" "641100" "6164000002000000317700003000e803000014020000" "ok" 309 612486 (Some 397) "";
  mkEvent 38 "estop_recovery" "data" "641100" "6164000002000000317700003100e803000024020000" "ok" 309 628526 (Some 562) "";
  mkEvent 39 "estop_recovery" "data" "641000" "6164000002000000317700003100e803000034020000" "ok" 291 645047 (Some 679) "";
  mkEvent 40 "estop_recovery" "data" "641100" "6164000002000000317700003100e803000045020000" "ok" 309 662135 (Some 545) "";
  mkEvent 41 "estop_recovery" "data" "641100" "6164000002000000317700003000e803000057020000" "ok" 309 679555 (Some 488) "";
  mkEvent 42 "estop_recovery" "data" "641100" "6164000002000000317700003100e803000067020000" "ok" 309 695633 (Some 529) "";
  mkEvent 43 "estop_recovery" "data" "641000" "6164000002000000317700003100e803000077020000" "ok" 291 712301 (Some 550) "";
  mkEvent 44 "estop_recovery" "data" "641000" "6164000002000000317700003000e803000088020000" "ok" 291 729085 (Some 602) "";
  mkEvent 45 "estop_recovery" "data" "641000" "6164000002000000317700003000e803000098020000" "ok" 291 744685 (Some 575) "";
  mkEvent 46 "estop_recovery" "data" "641100" "6164000002000000317700003100e8030000a8020000" "ok" 309 761388 (Some 805) "";
  mkEvent 47 "estop_recovery" "data" "641000" "6164000002000000317700002f00e8030000ba020000" "ok" 291 778525 (Some 568) "";
  mkEvent 48 "estop_recovery" "data" "641000" "6164000002000000317700003100e8030000c8020000" "ok" 291 793433 (Some 522) "";
  mkEvent 49 "estop_recovery" "data" "641100" "6164000002000000317700003000e8030000da020000" "ok" 309 810895 (Some 709) "";
  mkEvent 50 "estop_recovery" "data" "641100" "6164000002000000317700003100e8030000ea020000" "ok" 309 827448 (Some 553) "";
  mkEvent 51 "estop_recovery" "data" "641100" "6164000002000000317700003000e8030000fc020000" "ok" 309 845277 (Some 686) "";
  mkEvent 52 "estop_recovery" "data" "641000" "6164000002000000317700003000e80300000c030000" "ok" 291 861156 (Some 620) "";
  mkEvent 53 "estop_recovery" "data" "641100" "6164000002000000317700003000e80300001d030000" "ok" 309 877525 (Some 529) "";
  mkEvent 54 "estop_recovery" "data" "641100" "6164000002000000317700003100e80300002d030000" "ok" 309 893676 (Some 684) "";
  mkEvent 55 "estop_recovery" "data" "641000" "6164000002000000317700003100e80300003d030000" "ok" 291 910056 (Some 707) "";
  mkEvent 56 "estop_recovery" "data" "641100" "6164000002000000317700003000e80300004f030000" "ok" 309 927866 (Some 753) "";
  mkEvent 57 "estop_recovery" "data" "641100" "6164000002000000317700003100e80300005f030000" "ok" 309 944073 (Some 659) "";
  mkEvent 58 "estop_recovery" "data" "641100" "6164000002000000317700003000e803000071030000" "ok" 309 962221 (Some 820) "";
  mkEvent 59 "estop_recovery" "data" "641100" "6164000002000000317700003000e803000082030000" "ok" 309 978804 (Some 805) "";
  mkEvent 60 "estop_recovery" "data" "641100" "6164000002000000317700003100e803000092030000" "ok" 309 994988 (Some 605) "";
  mkEvent 61 "estop_recovery" "data" "641000" "6164000002000000317700003000e8030000a3030000" "ok" 291 1011777 (Some 579) "";
  mkEvent 62 "estop_recovery" "data" "641000" "6164000002000000317700003000e8030000b3030000" "ok" 291 1027537 (Some 479) "";
  mkEvent 63 "estop_recovery" "data" "641100" "6164000002000000317700003100e8030000c3030000" "ok" 309 1043960 (Some 545) "";
  mkEvent 64 "estop_recovery" "data" "641000" "6164000002000000317700003000e8030000d4030000" "ok" 291 1060645 (Some 559) "";
  mkEvent 65 "estop_recovery" "data" "641000" "6164000002000000317700003000e8030000e4030000" "ok" 291 1076632 (Some 601) "";
  mkEvent 66 "estop_recovery" "estop" "00" "61000003000003003577000029000000000000000000" "ok" 1 1085151 (Some 2078) "e-stop; injected by the proxy, reply not forwarded";
  mkEvent 67 "estop_recovery" "data" "641100" "49640003000003003577000029000000000000000000" "synthesized" 309 1092214 (Some 32) "not sent: DAC in e-stop; NAK synthesized from the last real status";
  mkEvent 68 "estop_recovery" "prepare" "70" "49700003000003003577000029000000000000000000" "synthesized" 1 1092533 (Some 22) "not sent: DAC in e-stop; NAK synthesized from the last real status";
  mkEvent 69 "estop_recovery" "clear_estop" "63" "61630000000000003577000029000000000000000000" "ok" 1 1093491 (Some 530) "";
  mkEvent 70 "estop_recovery" "estop" "00" "61000003000003003577000029000000000000000000" "ok" 1 1095715 (Some 2123) "re-engage e-stop; injected by the proxy, reply not forwarded";
  mkEvent 71 "estop_recovery" "ping" "3f" "613f0003000003003577000029000000000000000000" "ok" 1 1095884 (Some 2063) "";
  mkEvent 72 "estop_recovery" "clear_estop" "63" "61630000000000003577000029000000000000000000" "ok" 1 2093591 (Some 519) "";
  mkEvent 73 "estop_recovery" "ping" "3f" "613f0000000000003577000029000000000000000000" "ok" 1 2094057 (Some 341) "";
  mkEvent 74 "estop_recovery" "prepare" "70" "61700000010000003177000000000000000000000000" "ok" 1 2094527 (Some 369) "";
  mkEvent 75 "estop_recovery" "data" "641100" "61640000010000003177000011000000000000000000" "ok" 309 2094997 (Some 371) "";
  mkEvent 76 "estop_recovery" "begin" "620000e8030000" "6162000002000000317700001100e803000000000000" "ok" 7 2095376 (Some 264) "";
  mkEvent 77 "estop_recovery" "data" "642100" "6164000002000000317700003200e803000000000000" "ok" 597 2095809 (Some 335) "";
  mkEvent 78 "estop_recovery" "data" "641000" "6164000002000000317700003100e803000011000000" "ok" 291 2112544 (Some 471) "";
  mkEvent 79 "estop_recovery" "data" "641100" "6164000002000000317700003200e803000021000000" "ok" 309 2129333 (Some 506) "";
  mkEvent 80 "estop_recovery" "data" "641000" "6164000002000000317700003000e803000033000000" "ok" 291 2146400 (Some 432) "";
  mkEvent 81 "estop_recovery" "data" "641000" "6164000002000000317700003100e803000042000000" "ok" 291 2161934 (Some 345) "";
  mkEvent 82 "estop_recovery" "data" "641100" "6164000002000000317700003100e803000053000000" "ok" 309 2179014 (Some 439) "";
  mkEvent 83 "estop_recovery" "data" "641000" "6164000002000000317700003000e803000064000000" "ok" 291 2195783 (Some 609) "";
  mkEvent 84 "estop_recovery" "data" "641100" "6164000002000000317700003100e803000074000000" "ok" 309 2211558 (Some 529) "";
  mkEvent 85 "estop_recovery" "data" "641100" "6164000002000000317700003100e803000085000000" "ok" 309 2228647 (Some 386) "";
  mkEvent 86 "estop_recovery" "data" "641100" "6164000002000000317700003100e803000096000000" "ok" 309 2245899 (Some 556) "";
  mkEvent 87 "estop_recovery" "data" "641000" "6164000002000000317700003100e8030000a6000000" "ok" 291 2261801 (Some 626) "";
  mkEvent 88 "estop_recovery" "data" "641000" "6164000002000000317700003100e8030000b6000000" "ok" 291 2278237 (Some 561) "";
  mkEvent 89 "estop_recovery" "data" "641100" "6164000002000000317700003100e8030000c7000000" "ok" 309 2295155 (Some 450) "";
  mkEvent 90 "estop_recovery" "data" "641000" "6164000002000000317700003000e8030000d8000000" "ok" 291 2311811 (Some 441) "";
  mkEvent 91 "estop_recovery" "data" "641100" "6164000002000000317700003100e8030000e8000000" "ok" 309 2328063 (Some 470) "";
  mkEvent 92 "estop_recovery" "data" "641000" "6164000002000000317700003100e8030000f8000000" "ok" 291 2344015 (Some 547) "";
  mkEvent 93 "estop_recovery" "data" "641000" "6164000002000000317700003000e803000009010000" "ok" 291 2360964 (Some 584) "";
  mkEvent 94 "estop_recovery" "data" "641100" "6164000002000000317700003100e803000019010000" "ok" 309 2377217 (Some 544) "";
  mkEvent 95 "estop_recovery" "data" "641000" "6164000002000000317700003000e80300002a010000" "ok" 291 2394092 (Some 546) "";
  mkEvent 96 "estop_recovery" "data" "641100" "6164000002000000317700003000e80300003b010000" "ok" 309 2410510 (Some 529) "";
  mkEvent 97 "estop_recovery" "data" "641100" "6164000002000000317700003100e80300004b010000" "ok" 309 2426963 (Some 547) "";
  mkEvent 98 "estop_recovery" "data" "641000" "6164000002000000317700003000e80300005c010000" "ok" 291 2443721 (Some 519) "";
  mkEvent 99 "estop_recovery" "data" "641100" "6164000002000000317700003100e80300006c010000" "ok" 309 2460087 (Some 514) "";
  mkEvent 100 "estop_recovery" "data" "641000" "6164000002000000317700003100e80300007c010000" "ok" 291 2476057 (Some 522) "";
  mkEvent 101 "estop_recovery" "data" "641000" "6164000002000000317700003000e80300008d010000" "ok" 291 2492752 (Some 551) "";
  mkEvent 102 "estop_recovery" "data" "641100" "6164000002000000317700003100e80300009d010000" "ok" 309 2508862 (Some 464) "";
  mkEvent 103 "estop_recovery" "data" "641000" "6164000002000000317700003000e8030000ae010000" "ok" 291 2525707 (Some 546) "";
  mkEvent 104 "estop_recovery" "data" "641000" "6164000002000000317700003000e8030000be010000" "ok" 291 2541425 (Some 508) "";
  mkEvent 105 "estop_recovery" "data" "641100" "6164000002000000317700003100e8030000ce010000" "ok" 309 2557404 (Some 535) "";
  mkEvent 106 "estop_recovery" "data" "641000" "6164000002000000317700003100e8030000de010000" "ok" 291 2574099 (Some 551) "";
  mkEvent 107 "estop_recovery" "data" "641000" "6164000002000000317700003000e8030000ef010000" "ok" 291 2590624 (Some 554) "";
  mkEvent 108 "estop_recovery" "data" "641100" "6164000002000000317700003100e8030000ff010000" "ok" 309 2607083 (Some 533) "";
  mkEvent 109 "estop_recovery" "data" "641000" "6164000002000000317700003100e80300000f020000" "ok" 291 2623198 (Some 649) "";
  mkEvent 110 "estop_recovery" "data" "641000" "6164000002000000317700003000e803000020020000" "ok" 291 2639863 (Some 565) "";
  mkEvent 111 "estop_recovery" "data" "641100" "6164000002000000317700003100e803000030020000" "ok" 309 2656383 (Some 547) "";
  mkEvent 112 "estop_recovery" "data" "641100" "6164000002000000317700003000e803000042020000" "ok" 309 2673796 (Some 544) "";
  mkEvent 113 "estop_recovery" "data" "641100" "6164000002000000317700003100e803000052020000" "ok" 309 2689680 (Some 475) "";
  mkEvent 114 "estop_recovery" "data" "641000" "6164000002000000317700003100e803000062020000" "ok" 291 2706118 (Some 526) "";
  mkEvent 115 "estop_recovery" "data" "641000" "6164000002000000317700003100e803000072020000" "ok" 291 2722048 (Some 519) "";
  mkEvent 116 "estop_recovery" "data" "641000" "6164000002000000317700003000e803000083020000" "ok" 291 2738838 (Some 652) "";
  mkEvent 117 "estop_recovery" "data" "641100" "6164000002000000317700003100e803000093020000" "ok" 309 2755392 (Some 581) "";
  mkEvent 118 "estop_recovery" "data" "641100" "6164000002000000317700003000e8030000a5020000" "ok" 309 2773386 (Some 746) "";
  mkEvent 119 "estop_recovery" "data" "641100" "6164000002000000317700003000e8030000b6020000" "ok" 309 2789521 (Some 606) "";
  mkEvent 120 "estop_recovery" "data" "641000" "6164000002000000317700003000e8030000c6020000" "ok" 291 2805449 (Some 557) "";
  mkEvent 121 "estop_recovery" "data" "641100" "6164000002000000317700003100e8030000d6020000" "ok" 309 2821602 (Some 526) "";
  mkEvent 122 "estop_recovery" "data" "641100" "6164000002000000317700003100e8030000e7020000" "ok" 309 2839126 (Some 553) "";
  mkEvent 123 "estop_recovery" "data" "641000" "6164000002000000317700003000e8030000f8020000" "ok" 291 2856050 (Some 518) "";
  mkEvent 124 "estop_recovery" "data" "641100" "6164000002000000317700003100e803000008030000" "ok" 309 2872226 (Some 509) "";
  mkEvent 125 "estop_recovery" "data" "641100" "6164000002000000317700003000e80300001a030000" "ok" 309 2889717 (Some 581) "";
  mkEvent 126 "estop_recovery" "data" "641000" "6164000002000000317700003000e80300002a030000" "ok" 291 2905599 (Some 627) "";
  mkEvent 127 "estop_recovery" "data" "641100" "6164000002000000317700003100e80300003a030000" "ok" 309 2921650 (Some 389) "";
  mkEvent 128 "estop_recovery" "data" "641100" "6164000002000000317700003100e80300004b030000" "ok" 309 2939060 (Some 561) "";
  mkEvent 129 "estop_recovery" "data" "641000" "6164000002000000317700003000e80300005c030000" "ok" 291 2956011 (Some 572) "";
  mkEvent 130 "estop_recovery" "data" "641000" "6164000002000000317700003000e80300006c030000" "ok" 291 2972068 (Some 606) "";
  mkEvent 131 "estop_recovery" "data" "641100" "6164000002000000317700003100e80300007c030000" "ok" 309 2988414 (Some 705) "";
  mkEvent 132 "estop_recovery" "data" "641100" "6164000002000000317700003000e80300008e030000" "ok" 309 3006227 (Some 730) "";
  mkEvent 133 "estop_recovery" "data" "641100" "6164000002000000317700003000e80300009f030000" "ok" 309 3022570 (Some 603) "";
  mkEvent 134 "estop_recovery" "data" "641100" "6164000002000000317700003100e8030000af030000" "ok" 309 3039387 (Some 831) "";
  mkEvent 135 "estop_recovery" "data" "641000" "6164000002000000317700003000e8030000c0030000" "ok" 291 3056365 (Some 667) "";
  mkEvent 136 "estop_recovery" "data" "641100" "6164000002000000317700003000e8030000d1030000" "ok" 309 3072660 (Some 542) "";
  mkEvent 137 "estop_recovery" "data" "641100" "6164000002000000317700003100e8030000e1030000" "ok" 309 3088713 (Some 636) "";
  mkEvent 138 "estop_recovery" "data" "641100" "6164000002000000317700003100e8030000f2030000" "ok" 309 3106288 (Some 689) "";
  mkEvent 139 "estop_recovery" "data" "641100" "6164000002000000317700003000e803000004040000" "ok" 309 3123634 (Some 602) "";
  mkEvent 140 "estop_recovery" "data" "641100" "6164000002000000317700003100e803000014040000" "ok" 309 3139497 (Some 541) "";
  mkEvent 141 "estop_recovery" "data" "641100" "6164000002000000317700003100e803000025040000" "ok" 309 3156746 (Some 586) "";
  mkEvent 142 "estop_recovery" "data" "641000" "6164000002000000317700003000e803000036040000" "ok" 291 3173456 (Some 438) "";
  mkEvent 143 "estop_recovery" "data" "641100" "6164000002000000317700003100e803000046040000" "ok" 309 3189396 (Some 538) "";
  mkEvent 144 "estop_recovery" "data" "641100" "6164000002000000317700003100e803000057040000" "ok" 309 3206599 (Some 474) "";
  mkEvent 145 "estop_recovery" "data" "641100" "6164000002000000317700003100e803000068040000" "ok" 309 3223705 (Some 509) "";
  mkEvent 146 "estop_recovery" "data" "641000" "6164000002000000317700003000e803000079040000" "ok" 291 3240532 (Some 557) "";
  mkEvent 147 "estop_recovery" "data" "641100" "6164000002000000317700003100e803000089040000" "ok" 309 3256914 (Some 492) "";
  mkEvent 148 "estop_recovery" "data" "641000" "6164000002000000317700003000e80300009a040000" "ok" 291 3273702 (Some 645) "";
  mkEvent 149 "estop_recovery" "data" "641000" "6164000002000000317700003000e8030000aa040000" "ok" 291 3289607 (Some 597) "";
  mkEvent 150 "estop_recovery" "data" "641000" "6164000002000000317700003100e8030000b9040000" "ok" 291 3304998 (Some 403) "";
  mkEvent 151 "estop_recovery" "data" "641100" "6164000002000000317700003100e8030000ca040000" "ok" 309 3322345 (Some 579) "";
  mkEvent 152 "estop_recovery" "data" "641100" "6164000002000000317700003000e8030000dc040000" "ok" 309 3339734 (Some 591) "";
  mkEvent 153 "estop_recovery" "data" "641100" "6164000002000000317700003100e8030000ec040000" "ok" 309 3355544 (Some 535) "";
  mkEvent 154 "estop_recovery" "data" "641100" "6164000002000000317700003100e8030000fd040000" "ok" 309 3372814 (Some 460) "";
  mkEvent 155 "estop_recovery" "data" "641000" "6164000002000000317700003000e80300000e050000" "ok" 291 3389436 (Some 463) "";
  mkEvent 156 "estop_recovery" "data" "641100" "6164000002000000317700003100e80300001e050000" "ok" 309 3405689 (Some 521) "";
  mkEvent 157 "estop_recovery" "data" "641000" "6164000002000000317700003100e80300002e050000" "ok" 291 3422427 (Some 619) "";
  mkEvent 158 "estop_recovery" "data" "641100" "6164000002000000317700003000e803000040050000" "ok" 309 3439448 (Some 474) "";
  mkEvent 159 "estop_recovery" "data" "641000" "6164000002000000317700003100e80300004f050000" "ok" 291 3455285 (Some 469) "";
  mkEvent 160 "estop_recovery" "data" "641100" "6164000002000000317700003000e803000061050000" "ok" 309 3472735 (Some 540) "";
  mkEvent 161 "estop_recovery" "data" "641100" "6164000002000000317700003100e803000071050000" "ok" 309 3488910 (Some 539) "";
  mkEvent 162 "estop_recovery" "data" "641000" "6164000002000000317700003000e803000082050000" "ok" 291 3505885 (Some 554) "";
  mkEvent 163 "estop_recovery" "data" "641100" "6164000002000000317700003100e803000092050000" "ok" 309 3521845 (Some 527) "";
  mkEvent 164 "estop_recovery" "data" "641100" "6164000002000000317700003100e8030000a3050000" "ok" 309 3541045 (Some 2197) "";
  mkEvent 165 "estop_recovery" "data" "641000" "6164000002000000317700002e00e8030000b6050000" "ok" 291 3558272 (Some 538) "";
  mkEvent 166 "estop_recovery" "data" "641100" "6164000002000000317700003000e8030000c5050000" "ok" 309 3572537 (Some 527) "";
  mkEvent 167 "estop_recovery" "data" "641100" "6164000002000000317700003100e8030000d5050000" "ok" 309 3588810 (Some 550) "";
  mkEvent 168 "estop_recovery" "data" "641100" "6164000002000000317700003100e8030000e6050000" "ok" 309 3606322 (Some 514) "";
  mkEvent 169 "estop_recovery" "data" "641100" "6164000002000000317700003000e8030000f8050000" "ok" 309 3623718 (Some 574) "";
  mkEvent 170 "estop_recovery" "data" "641100" "6164000002000000317700003100e803000008060000" "ok" 309 3639479 (Some 490) "";
  mkEvent 171 "estop_recovery" "data" "641100" "6164000002000000317700003100e803000019060000" "ok" 309 3656691 (Some 493) "";
  mkEvent 172 "estop_recovery" "data" "641100" "6164000002000000317700003100e80300002a060000" "ok" 309 3673888 (Some 509) "";
  mkEvent 173 "estop_recovery" "data" "641100" "6164000002000000317700003100e80300003b060000" "ok" 309 3691001 (Some 435) "";
  mkEvent 174 "estop_recovery" "data" "641000" "6164000002000000317700003100e80300004b060000" "ok" 291 3706691 (Some 502) "";
  mkEvent 175 "estop_recovery" "data" "641100" "6164000002000000317700003100e80300005c060000" "ok" 309 3723629 (Some 493) "";
  mkEvent 176 "estop_recovery" "data" "641100" "6164000002000000317700003100e80300006d060000" "ok" 309 3740822 (Some 503) "";
  mkEvent 177 "estop_recovery" "data" "641100" "6164000002000000317700003100e80300007e060000" "ok" 309 3757921 (Some 370) "";
  mkEvent 178 "estop_recovery" "data" "641100" "6164000002000000317700003100e80300008f060000" "ok" 309 3775252 (Some 604) "";
  mkEvent 179 "estop_recovery" "data" "641100" "6164000002000000317700003100e8030000a0060000" "ok" 309 3792464 (Some 498) "";
  mkEvent 180 "estop_recovery" "data" "641100" "6164000002000000317700003000e8030000b2060000" "ok" 309 3809541 (Some 419) "";
  mkEvent 181 "estop_recovery" "data" "641100" "6164000002000000317700003200e8030000c1060000" "ok" 309 3825194 (Some 473) "";
  mkEvent 182 "estop_recovery" "data" "641000" "6164000002000000317700003100e8030000d2060000" "ok" 291 3842180 (Some 437) "";
  mkEvent 183 "estop_recovery" "data" "641100" "6164000002000000317700003100e8030000e3060000" "ok" 309 3859287 (Some 451) "";
  mkEvent 184 "estop_recovery" "data" "641100" "6164000002000000317700003100e8030000f4060000" "ok" 309 3876400 (Some 434) "";
  mkEvent 185 "estop_recovery" "data" "641000" "6164000002000000317700003000e803000005070000" "ok" 291 3892918 (Some 479) "";
  mkEvent 186 "estop_recovery" "data" "641000" "6164000002000000317700003000e803000015070000" "ok" 291 3908610 (Some 524) "";
  mkEvent 187 "estop_recovery" "data" "641100" "6164000002000000317700003200e803000024070000" "ok" 309 3924214 (Some 415) "";
  mkEvent 188 "estop_recovery" "data" "641000" "6164000002000000317700003100e803000035070000" "ok" 291 3941419 (Some 504) "";
  mkEvent 189 "estop_recovery" "data" "641100" "6164000002000000317700003000e803000047070000" "ok" 309 3958665 (Some 522) "";
  mkEvent 190 "estop_recovery" "data" "641100" "6164000002000000317700003100e803000057070000" "ok" 309 3974386 (Some 411) "";
  mkEvent 191 "estop_recovery" "data" "641000" "6164000002000000317700003100e803000067070000" "ok" 291 3990710 (Some 462) "";
  mkEvent 192 "estop_recovery" "data" "641000" "6164000002000000317700003100e803000077070000" "ok" 291 4007185 (Some 481) "";
  mkEvent 193 "estop_recovery" "data" "641000" "6164000002000000317700003000e803000088070000" "ok" 291 4024015 (Some 551) "";
  mkEvent 194 "estop_recovery" "data" "641100" "6164000002000000317700003100e803000098070000" "ok" 309 4040200 (Some 577) "";
  mkEvent 195 "estop_recovery" "data" "641100" "6164000002000000317700003000e8030000aa070000" "ok" 309 4058290 (Some 1193) "";
  mkEvent 196 "estop_recovery" "data" "641000" "6164000002000000317700003000e8030000ba070000" "ok" 291 4074011 (Some 509) "";
  mkEvent 197 "estop_recovery" "data" "641100" "6164000002000000317700003100e8030000ca070000" "ok" 309 4089987 (Some 470) "";
  mkEvent 198 "estop_recovery" "stop" "73" "6173000000000000317700002d000000000000000000" "ok" 1 4093795 (Some 427) "";
  mkEvent 199 "estop_recovery" "hello" "" "613f000000000000317700002d000000000000000000" "ok" 0 4495029 (Some 796) ""].

Definition HWCHECK_RATE_UP_BEFORE_FIX : list TraceEvent := [
  mkEvent 1 "rate_change" "hello" "" "613f000000000000317700002d000000000000000000" "ok" 0 56594 (Some 1045) "";
  mkEvent 2 "rate_change" "version" "76" "723333312d656434626566350000000000000000000000000000000000000000" "ok" 1 57617 (Some 456) "";
  mkEvent 3 "rate_change" "prepare" "70" "61700000010000003177000000000000000000000000" "ok" 1 58851 (Some 393) "";
  mkEvent 4 "rate_change" "data" "643200" "61640000010000003177000032000000000000000000" "ok" 903 59392 (Some 392) "";
  mkEvent 5 "rate_change" "begin" "620000e8030000" "6162000002000000317700003200e803000000000000" "ok" 7 59869 (Some 347) "";
  mkEvent 6 "rate_change" "data" "641100" "6164000002000000317700003200e803000011000000" "ok" 309 77724 (Some 470) "";
  mkEvent 7 "rate_change" "data" "641000" "6164000002000000317700003000e803000023000000" "ok" 291 94870 (Some 476) "";
  mkEvent 8 "rate_change" "data" "641100" "6164000002000000317700003200e803000032000000" "ok" 309 110651 (Some 542) "";
  mkEvent 9 "rate_change" "data" "641000" "6164000002000000317700003100e803000043000000" "ok" 291 127835 (Some 498) "";
  mkEvent 10 "rate_change" "data" "641100" "6164000002000000317700003000e803000055000000" "ok" 309 145103 (Some 551) "";
  mkEvent 11 "rate_change" "data" "641000" "6164000002000000317700003100e803000064000000" "ok" 291 160799 (Some 481) "";
  mkEvent 12 "rate_change" "data" "641100" "6164000002000000317700003100e803000075000000" "ok" 309 177652 (Some 515) "";
  mkEvent 13 "rate_change" "data" "641100" "6164000002000000317700003000e803000087000000" "ok" 309 194811 (Some 432) "";
  mkEvent 14 "rate_change" "data" "641000" "6164000002000000317700003100e803000096000000" "ok" 291 210413 (Some 394) "";
  mkEvent 15 "rate_change" "data" "641100" "6164000002000000317700003100e8030000a7000000" "ok" 309 227506 (Some 396) "";
  mkEvent 16 "rate_change" "data" "641000" "6164000002000000317700003000e8030000b8000000" "ok" 291 244103 (Some 456) "";
  mkEvent 17 "rate_change" "data" "641000" "6164000002000000317700003100e8030000c7000000" "ok" 291 259613 (Some 575) "";
  mkEvent 18 "rate_change" "data" "641100" "6164000002000000317700003100e8030000d8000000" "ok" 309 276875 (Some 581) "";
  mkEvent 19 "rate_change" "data" "641000" "6164000002000000317700003000e8030000e9000000" "ok" 291 293474 (Some 424) "";
  mkEvent 20 "rate_change" "data" "641100" "6164000002000000317700003100e8030000f9000000" "ok" 309 309159 (Some 401) "";
  mkEvent 21 "rate_change" "data" "641100" "6164000002000000317700003100e80300000a010000" "ok" 309 326072 (Some 562) "";
  mkEvent 22 "rate_change" "data" "641000" "6164000002000000317700003100e80300001a010000" "ok" 291 342731 (Some 575) "";
  mkEvent 23 "rate_change" "data" "641000" "6164000002000000317700003000e80300002b010000" "ok" 291 359737 (Some 863) "";
  mkEvent 24 "rate_change" "data" "641000" "6164000002000000317700003100e80300003a010000" "ok" 291 374643 (Some 387) "";
  mkEvent 25 "rate_change" "data" "641100" "6164000002000000317700003100e80300004b010000" "ok" 309 391368 (Some 419) "";
  mkEvent 26 "rate_change" "data" "641100" "6164000002000000317700003100e80300005c010000" "ok" 309 408094 (Some 438) "";
  mkEvent 27 "rate_change" "data" "641100" "6164000002000000317700003100e80300006d010000" "ok" 309 425245 (Some 401) "";
  mkEvent 28 "rate_change" "data" "641000" "6164000002000000317700003100e80300007d010000" "ok" 291 440862 (Some 388) "";
  mkEvent 29 "rate_change" "data" "641000" "6164000002000000317700003100e80300008d010000" "ok" 291 457261 (Some 398) "";
  mkEvent 30 "rate_change" "data" "641000" "6164000002000000317700003000e80300009e010000" "ok" 291 473785 (Some 408) "";
  mkEvent 31 "rate_change" "data" "641100" "6164000002000000317700003200e8030000ad010000" "ok" 309 489693 (Some 422) "";
  mkEvent 32 "rate_change" "data" "641100" "6164000002000000317700003100e8030000bf010000" "ok" 309 507418 (Some 402) "";
  mkEvent 33 "rate_change" "data" "641100" "6164000002000000317700003100e8030000d0010000" "ok" 309 524601 (Some 400) "";
  mkEvent 34 "rate_change" "data" "641100" "6164000002000000317700003100e8030000e1010000" "ok" 309 541382 (Some 414) "";
  mkEvent 35 "rate_change" "data" "641000" "6164000002000000317700003000e8030000f2010000" "ok" 291 557913 (Some 418) "";
  mkEvent 36 "rate_change" "data" "641100" "6164000002000000317700003200e803000001020000" "ok" 309 573560 (Some 394) "";
  mkEvent 37 "rate_change" "data" "641000" "6164000002000000317700003100e803000012020000" "ok" 291 590514 (Some 388) "";
  mkEvent 38 "rate_change" "data" "641000" "6164000002000000317700003000e803000023020000" "ok" 291 606798 (Some 385) "";
  mkEvent 39 "rate_change" "data" "641100" "6164000002000000317700003200e803000032020000" "ok" 309 622507 (Some 415) "";
  mkEvent 40 "rate_change" "data" "641000" "6164000002000000317700003100e803000043020000" "ok" 291 639737 (Some 401) "";
  mkEvent 41 "rate_change" "data" "641100" "6164000002000000317700003100e803000054020000" "ok" 309 656586 (Some 379) "";
  mkEvent 42 "rate_change" "data" "641100" "6164000002000000317700003100e803000065020000" "ok" 309 673350 (Some 403) "";
  mkEvent 43 "rate_change" "data" "641000" "6164000002000000317700003100e803000075020000" "ok" 291 689736 (Some 408) "";
  mkEvent 44 "rate_change" "data" "641000" "6164000002000000317700003000e803000086020000" "ok" 291 705896 (Some 374) "";
  mkEvent 45 "rate_change" "data" "641000" "6164000002000000317700003100e803000095020000" "ok" 291 721438 (Some 381) "";
  mkEvent 46 "rate_change" "data" "641000" "6164000002000000317700003100e8030000a5020000" "ok" 291 737700 (Some 396) "";
  mkEvent 47 "rate_change" "data" "641000" "6164000002000000317700003000e8030000b6020000" "ok" 291 754087 (Some 423) "";
  mkEvent 48 "rate_change" "data" "641100" "6164000002000000317700003100e8030000c6020000" "ok" 309 769955 (Some 415) "";
  mkEvent 49 "rate_change" "data" "641100" "6164000002000000317700003100e8030000d7020000" "ok" 309 786932 (Some 402) "";
  mkEvent 50 "rate_change" "data" "641100" "6164000002000000317700003100e8030000e8020000" "ok" 309 803869 (Some 387) "";
  mkEvent 51 "rate_change" "data" "641000" "6164000002000000317700003100e8030000f8020000" "ok" 291 820333 (Some 401) "";
  mkEvent 52 "rate_change" "data" "641100" "6164000002000000317700003100e803000009030000" "ok" 309 837428 (Some 462) "";
  mkEvent 53 "rate_change" "data" "641000" "6164000002000000317700003100e803000019030000" "ok" 291 853193 (Some 427) "";
  mkEvent 54 "rate_change" "data" "641000" "6164000002000000317700003000e80300002a030000" "ok" 291 870008 (Some 756) "";
  mkEvent 55 "rate_change" "data" "641000" "6164000002000000317700003100e803000039030000" "ok" 291 885720 (Some 413) "";
  mkEvent 56 "rate_change" "data" "641000" "6164000002000000317700003000e80300004a030000" "ok" 291 902326 (Some 672) "";
  mkEvent 57 "rate_change" "data" "641100" "6164000002000000317700003000e80300005b030000" "ok" 309 919011 (Some 728) "";
  mkEvent 58 "rate_change" "data" "641100" "6164000002000000317700003100e80300006b030000" "ok" 309 935291 (Some 584) "";
  mkEvent 59 "rate_change" "data" "641000" "6164000002000000317700003000e80300007c030000" "ok" 291 951887 (Some 441) "";
  mkEvent 60 "rate_change" "data" "641100" "6164000002000000317700003200e80300008b030000" "ok" 309 967652 (Some 403) "";
  mkEvent 61 "rate_change" "data" "641100" "6164000002000000317700003100e80300009d030000" "ok" 309 985707 (Some 438) "";
  mkEvent 62 "rate_change" "data" "641000" "6164000002000000317700003000e8030000ae030000" "ok" 291 1002717 (Some 831) "";
  mkEvent 63 "rate_change" "data" "641100" "6164000002000000317700003000e8030000bf030000" "ok" 309 1019422 (Some 662) "";
  mkEvent 64 "rate_change" "data" "641100" "6164000002000000317700003100e8030000cf030000" "ok" 309 1035677 (Some 711) "";
  mkEvent 65 "rate_change" "data" "641100" "6164000002000000317700003000e8030000e1030000" "ok" 309 1053231 (Some 596) "";
  mkEvent 66 "rate_change" "data" "641100" "6164000002000000317700003100e8030000f1030000" "ok" 309 1069716 (Some 605) "";
  mkEvent 67 "rate_change" "data" "641100" "6164000002000000317700003000e803000003040000" "ok" 309 1087201 (Some 550) "";
  mkEvent 68 "rate_change" "data" "641100" "6164000002000000317700003100e803000013040000" "ok" 309 1103664 (Some 656) "";
  mkEvent 69 "rate_change" "data" "641000" "6164000002000000317700003000e803000024040000" "ok" 291 1120413 (Some 607) "";
  mkEvent 70 "rate_change" "data" "641100" "6164000002000000317700003000e803000035040000" "ok" 309 1137067 (Some 625) "";
  mkEvent 71 "rate_change" "data" "641100" "6164000002000000317700003100e803000045040000" "ok" 309 1153176 (Some 585) "";
  mkEvent 72 "rate_change" "data" "641100" "6164000002000000317700003100e803000056040000" "ok" 309 1170188 (Some 574) "";
  mkEvent 73 "rate_change" "data" "641100" "6164000002000000317700003100e803000067040000" "ok" 309 1187230 (Some 572) "";
  mkEvent 74 "rate_change" "data" "641000" "6164000002000000317700003000e803000078040000" "ok" 291 1204698 (Some 569) "";
  mkEvent 75 "rate_change" "data" "641100" "6164000002000000317700003000e803000089040000" "ok" 309 1220970 (Some 607) "";
  mkEvent 76 "rate_change" "data" "641100" "6164000002000000317700003100e803000099040000" "ok" 309 1237738 (Some 701) "";
  mkEvent 77 "rate_change" "data" "641000" "6164000002000000317700003000e8030000aa040000" "ok" 291 1254684 (Some 640) "";
  mkEvent 78 "rate_change" "data" "641100" "6164000002000000317700003000e8030000bb040000" "ok" 309 1270918 (Some 593) "";
  mkEvent 79 "rate_change" "data" "641100" "6164000002000000317700003100e8030000cb040000" "ok" 309 1287123 (Some 456) "";
  mkEvent 80 "rate_change" "data" "641100" "6164000002000000317700003100e8030000dc040000" "ok" 309 1304498 (Some 698) "";
  mkEvent 81 "rate_change" "data" "641100" "6164000002000000317700003000e8030000ee040000" "ok" 309 1322020 (Some 597) "";
  mkEvent 82 "rate_change" "data" "641100" "6164000002000000317700003100e8030000fe040000" "ok" 309 1338416 (Some 750) "";
  mkEvent 83 "rate_change" "data" "641100" "6164000002000000317700003000e803000010050000" "ok" 309 1356145 (Some 769) "";
  mkEvent 84 "rate_change" "data" "641100" "6164000002000000317700003100e803000020050000" "ok" 309 1372618 (Some 724) "";
  mkEvent 85 "rate_change" "data" "641100" "6164000002000000317700003000e803000032050000" "ok" 309 1390167 (Some 524) "";
  mkEvent 86 "rate_change" "data" "641100" "6164000002000000317700003100e803000042050000" "ok" 309 1406148 (Some 531) "";
  mkEvent 87 "rate_change" "data" "641000" "6164000002000000317700003100e803000052050000" "ok" 291 1422805 (Some 619) "";
  mkEvent 88 "rate_change" "data" "641100" "6164000002000000317700003000e803000064050000" "ok" 309 1440161 (Some 631) "";
  mkEvent 89 "rate_change" "data" "641100" "6164000002000000317700003100e803000074050000" "ok" 309 1456972 (Some 711) "";
  mkEvent 90 "rate_change" "data" "641000" "6164000002000000317700003000e803000085050000" "ok" 291 1473868 (Some 598) "";
  mkEvent 91 "rate_change" "data" "641000" "6164000002000000317700003000e803000095050000" "ok" 291 1489383 (Some 444) "";
  mkEvent 92 "rate_change" "data" "641000" "6164000002000000317700003100e8030000a4050000" "ok" 291 1504897 (Some 570) "";
  mkEvent 93 "rate_change" "data" "641000" "6164000002000000317700003000e8030000b5050000" "ok" 291 1520996 (Some 578) "";
  mkEvent 94 "rate_change" "data" "641100" "6164000002000000317700003100e8030000c5050000" "ok" 309 1537567 (Some 600) "";
  mkEvent 95 "rate_change" "data" "641000" "6164000002000000317700003000e8030000d6050000" "ok" 291 1554503 (Some 605) "";
  mkEvent 96 "rate_change" "update" "750000204e0000" "6175000002000000317700002100204e0000e5050000" "ok" 7 1569052 (Some 521) "";
  mkEvent 97 "rate_change" "data" "64c503" "49640000000000003377000000000000000000000000" "ok" 17373 1575181 (Some 4524) "";
  mkEvent 98 "rate_change" "prepare" "70" "61700000010000003177000000000000000000000000" "ok" 1 1575657 (Some 285) "";
  mkEvent 99 "rate_change" "data" "64c503" "616400000100000031770000c5030000000000000000" "ok" 17373 1579510 (Some 2172) "";
  mkEvent 100 "rate_change" "begin" "620000204e0000" "616200000200000031770000c503204e000000000000" "ok" 7 1580253 (Some 433) "";
  mkEvent 101 "rate_change" "data" "646a00" "616400000200000031770000cb03204e000064000000" "ok" 1911 1585434 (Some 847) "";
  mkEvent 102 "rate_change" "data" "646a00" "616400000200000031770000c603204e0000d3000000" "ok" 1911 1590858 (Some 730) "";
  mkEvent 103 "rate_change" "data" "646800" "616400000200000031770000d103204e000030010000" "ok" 1875 1595471 (Some 669) "";
  mkEvent 104 "rate_change" "data" "646c00" "616400000200000031770000cc03204e0000a1010000" "ok" 1947 1601120 (Some 712) "";
  mkEvent 105 "rate_change" "data" "646a00" "616400000200000031770000ca03204e00000d020000" "ok" 1911 1606563 (Some 731) "";
  mkEvent 106 "rate_change" "data" "646900" "616400000200000031770000c503204e00007b020000" "ok" 1893 1612042 (Some 707) "";
  mkEvent 107 "rate_change" "data" "646600" "616400000200000031770000cd03204e0000d9020000" "ok" 1839 1616758 (Some 718) "";
  mkEvent 108 "rate_change" "data" "646a00" "616400000200000031770000ca03204e000046030000" "ok" 1911 1622224 (Some 797) "";
  mkEvent 109 "rate_change" "data" "646900" "616400000200000031770000c903204e0000b0030000" "ok" 1893 1627584 (Some 858) "";
  mkEvent 110 "rate_change" "data" "646e00" "616400000200000031770000c603204e000021040000" "ok" 1983 1633151 (Some 734) "";
  mkEvent 111 "rate_change" "data" "646800" "616400000200000031770000cb03204e000084040000" "ok" 1875 1638111 (Some 738) "";
  mkEvent 112 "rate_change" "data" "646b00" "616400000200000031770000ca03204e0000f0040000" "ok" 1929 1643497 (Some 723) "";
  mkEvent 113 "rate_change" "data" "646d00" "616400000200000031770000cb03204e00005c050000" "ok" 1965 1648919 (Some 744) "";
  mkEvent 114 "rate_change" "data" "646b00" "616400000200000031770000cb03204e0000c7050000" "ok" 1929 1654541 (Some 1004) "";
  mkEvent 115 "rate_change" "data" "646b00" "616400000200000031770000c603204e000037060000" "ok" 1929 1659877 (Some 742) "";
  mkEvent 116 "rate_change" "data" "646700" "616400000200000031770000c903204e00009b060000" "ok" 1857 1664917 (Some 801) "";
  mkEvent 117 "rate_change" "data" "646900" "616400000200000031770000c803204e000005070000" "ok" 1893 1670122 (Some 722) "";
  mkEvent 118 "rate_change" "data" "646800" "616400000200000031770000cd03204e000068070000" "ok" 1875 1675143 (Some 757) "";
  mkEvent 119 "rate_change" "data" "646a00" "616400000200000031770000c903204e0000d6070000" "ok" 1911 1680589 (Some 744) "";
  mkEvent 120 "rate_change" "data" "646600" "616400000200000031770000cc03204e000039080000" "ok" 1839 1685566 (Some 705) "";
  mkEvent 121 "rate_change" "data" "646a00" "616400000200000031770000ca03204e0000a5080000" "ok" 1911 1690954 (Some 748) "";
  mkEvent 122 "rate_change" "data" "646900" "616400000200000031770000cb03204e00000d090000" "ok" 1893 1696175 (Some 743) ""].

(** A capture, the idle flags of its boot and how many of its events are compared at least. *)
Definition captures : list (list TraceEvent * Z * nat) := [
  (LIFECYCLE, FLAGS_FIRST_BOOT, 30%nat);
  (CAPACITY, FLAGS_FIRST_BOOT, 40%nat);
  (HW_LIFECYCLE, FLAGS_SECOND_BOOT, 24%nat);
  (HW_CAPACITY, FLAGS_SECOND_BOOT, 8%nat);
  (HW_DRAIN, FLAGS_SECOND_BOOT, 44%nat);
  (HWCHECK_CLAMP, FLAGS_SECOND_BOOT, 3%nat);
  (HWCHECK_FULL_CHUNK, FLAGS_SECOND_BOOT, 11%nat);
  (HWCHECK_PARTIAL_ROOM, FLAGS_SECOND_BOOT, 6%nat);
  (HWCHECK_STALE, FLAGS_SECOND_BOOT, 100%nat);
  (HWCHECK_STEADY_UNDERFLOW, FLAGS_SECOND_BOOT, 30%nat);
  (HWCHECK_UNDERFLOW, FLAGS_SECOND_BOOT, 100%nat);
  (HWCHECK_ESTOP, FLAGS_SECOND_BOOT, 100%nat);
  (HWCHECK_RATE_UP_BEFORE_FIX, FLAGS_SECOND_BOOT, 100%nat)].

(** ** Conformance *)

Definition conforms : list TraceEvent * Z * nat -> bool :=
  fun '(es, flags, least) => match @replay quick_byte_order es flags with Some n => (least <=? n)%nat | None => false end.

(** Validation of the model: every capture, fed to the simulator at the times the
    commands were sent, replays without a mismatch and with at least the stated number
    of replies compared.  A compared reply has the same code, command, states, flags and
    rate, is a reset where the hardware reset, and has a fullness and point count within
    what the hardware plays in 1.5 ms.  As in the source, hellos, what comes before the
    first prepare, timeouts and unexplained events are not compared. *)
Lemma model_replays_captures :
  Forall (fun '(es, flags, least) => exists n, @replay quick_byte_order es flags = Some n /\ (least <= n)%nat) captures.
Proof.
  assert (Hall : forallb conforms captures = true) by (vm_compute; reflexivity).
  apply Forall_forall. intros [[es flags] least] Hin. apply list_elem_of_In in Hin. rewrite forallb_forall in Hall. specialize (Hall _ Hin). cbn [conforms] in Hall.
  destruct (replay es flags) as [n|]; [|done]. exists n. split; [done|]. by apply Nat.leb_le.
Qed.

(** The broadcasts heard from the hardware. *)
Definition captured_broadcast (es : list TraceEvent) : option DacBroadcast :=
  e ← find_event "broadcast" es;
  raw ← hex (ev_resp e);
  guard (length raw = broadcast_size);;
  match @read_broadcast quick_byte_order raw with IoOk (b, _) => Some b | IoErr _ => None end.

(** The build string the hardware answered. *)
Definition captured_version (es : list TraceEvent) : option string :=
  e ← find_event "version" es;
  raw ← hex (ev_resp e);
  guard (length raw = 32%nat);;
  Some (text (decode_response raw)).

Definition captured_hello (es : list TraceEvent) : option DacResponse := e ← find_event "hello" es; @event_response quick_byte_order e.

(** What the hardware says of itself is the preset: its version identifies it, its
    broadcasts carry its revisions, ring and rate, its hello is an acknowledged ping
    with the flags of the preset. *)
Lemma captures_identify_preset :
  Forall (fun es => (v ← captured_version es; identify v) = Some ed2_r331) [IDENTITY; HW_IDENTITY] /\
  Forall (fun es => (fun b => (hw_revision b, sw_revision b, buffer_capacity b, max_point_rate b)) <$> captured_broadcast es =
    Some (fw_hw_revision ed2_r331, fw_sw_revision ed2_r331, fw_buffer_capacity ed2_r331, fw_max_point_rate ed2_r331)) [HW_BROADCAST; HWCHECK_DISCOVERY] /\
  ((fun r => (response r, response_command r, st_playback_flags (response_status r), st_buffer_fullness (response_status r))) <$> captured_hello IDENTITY) =
    Some (ACK, 63, fw_always_set_playback_flags ed2_r331, 1321).
Proof. split; [|split]; [repeat constructor; vm_compute; reflexivity..|vm_compute; reflexivity]. Qed.
