(* ===== verification/IdnBackend.v ===== *)
(** * The IDN backend and its worker

    Models [src/src/protocols/idn/backend.rs]: chunks converted to the wire
    format, the pool of conversion buffers, the worker thread that owns the
    stream (command queue, stop handling, keepalives, liveness checks) and the
    backend that feeds it through a bounded channel.

    The two threads share the channel and the connected flag.  A [System] holds
    both; the backend's calls and the worker's steps, each of which touches the
    shared state once, interleave in any order.  What the worker does is
    recorded in a log, against which its behaviour is specified. *)

From stdpp Require Import gmap strings.
From S2P Require Import Prelude Floats Point Presentation Session Backend Estimators Bytes Utf8 IdnProtocol IdnTypes IdnStream Discovery.

#[local] Open Scope Z_scope.

Definition IDN_WORKER_QUEUE_CAPACITY : nat := 8.
Definition ACK_CHECK_INTERVAL : Z := 500000000.
Definition ACK_TIMEOUT : Z := 100000000.
Definition MAX_CONSECUTIVE_ACK_MISSES : Z := 4.
Definition CONNECT_PING_TIMEOUT : Z := 300000000.
Definition CONNECT_PING_RETRIES : nat := 2.

(** ** Chunks *)

Inductive ChunkPoints :=
  | CpXyrgbi (v : list PointXyrgbi)
  | CpHighRes (v : list PointXyrgbHighRes)
  | CpExtended (v : list PointExtended).

Definition chunk_len (c : ChunkPoints) : nat :=
  match c with CpXyrgbi v => length v | CpHighRes v => length v | CpExtended v => length v end.

Record QueuedChunk := mkQueued {
  qc_pps : Z;
  qc_points : ChunkPoints;
}.

(** [ChunkBufferPool]: the buffers waiting to be reused, oldest first. *)
Record ChunkBufferPool := mkPool {
  pool_xyrgbi : list (list PointXyrgbi);
  pool_high_res : list (list PointXyrgbHighRes);
  pool_extended : list (list PointExtended);
}.

Definition POOL_CAPACITY : nat := 16.

Definition pool_new : ChunkBufferPool := mkPool [] [] [].

(** [ArrayQueue::pop().unwrap_or_default()] and [push], which refuses when full. *)
Definition pop_buffer {A} (q : list (list A)) : list A * list (list A) := match q with b :: q => (b, q) | [] => ([], []) end.

Definition push_buffer {A} (b : list A) (q : list (list A)) : list (list A) :=
  if decide (length q < POOL_CAPACITY)%nat then q ++ [b] else q.

(** [recycle]: the cleared buffer goes back, the chunk keeps an empty one. *)
Definition recycle (c : ChunkPoints) (p : ChunkBufferPool) : ChunkBufferPool :=
  match c with
  | CpXyrgbi _ => mkPool (push_buffer [] (pool_xyrgbi p)) (pool_high_res p) (pool_extended p)
  | CpHighRes _ => mkPool (pool_xyrgbi p) (push_buffer [] (pool_high_res p)) (pool_extended p)
  | CpExtended _ => mkPool (pool_xyrgbi p) (pool_high_res p) (push_buffer [] (pool_extended p))
  end.

(** The points in a format, and the dark chunk a stop sends. *)
Definition convert (f : PointFormat) (points : list LaserPoint) : ChunkPoints :=
  match f with
  | Xyrgbi => CpXyrgbi (xyrgbi_of <$> points)
  | XyrgbHighRes => CpHighRes (high_res_of <$> points)
  | Extended => CpExtended (extended_of <$> points)
  end.

(** [build_chunk]: a pooled buffer, cleared and filled with the converted points. *)
Definition build_chunk (c : DacCapabilities) (f : PointFormat) (pps : Z) (points : list LaserPoint) (pool : ChunkBufferPool)
    : QueuedChunk * ChunkBufferPool :=
  let pps := Z.min (Z.max pps (Z.max (pps_min c) 1)) (pps_max c) in
  match f with
  | Xyrgbi =>
      let '(buf, q) := pop_buffer (pool_xyrgbi pool) in
      let buf := take 0 buf in
      (mkQueued pps (CpXyrgbi (buf ++ (xyrgbi_of <$> points))), mkPool q (pool_high_res pool) (pool_extended pool))
  | XyrgbHighRes =>
      let '(buf, q) := pop_buffer (pool_high_res pool) in
      let buf := take 0 buf in
      (mkQueued pps (CpHighRes (buf ++ (high_res_of <$> points))), mkPool (pool_xyrgbi pool) q (pool_extended pool))
  | Extended =>
      let '(buf, q) := pop_buffer (pool_extended pool) in
      let buf := take 0 buf in
      (mkQueued pps (CpExtended (buf ++ (extended_of <$> points))), mkPool (pool_xyrgbi pool) (pool_high_res pool) q)
  end.

Definition blank_chunk (pps : Z) (f : PointFormat) : QueuedChunk :=
  mkQueued pps
    match f with
    | Xyrgbi => CpXyrgbi (replicate 10 (mkPointXyrgbi 0 0 0 0 0 0))
    | XyrgbHighRes => CpHighRes (replicate 10 (mkPointXyrgbHighRes 0 0 0 0 0))
    | Extended => CpExtended (replicate 10 (mkPointExtended 0 0 0 0 0 0 0 0 0 0))
    end.

Definition max_points_per_chunk_for (f : PointFormat) : nat :=
  let header := (SIZE_BYTES PacketHeader + SIZE_BYTES ChannelMessageHeader + SIZE_BYTES SampleChunkHeader)%nat in
  ((MAX_UDP_PAYLOAD - header) / size_bytes f)%nat.

(** ** The worker *)

Inductive WorkerCommand :=
  | CmdChunk (c : QueuedChunk)
  | CmdStop
  | CmdShutdown.

(** [WorkerStream]: what the worker does with its stream. *)
Class WorkerStream (S : Type) := {
  ws_scan_speed : S -> Z;
  ws_set_scan_speed : Z -> S -> S;
  ws_needs_keepalive : S -> S * bool;
  ws_send_keepalive : S -> S * bool;
  ws_write_frame : ChunkPoints -> S -> S * bool;
  ws_write_frame_with_ack : ChunkPoints -> Z -> S -> S * bool;
  ws_ping : Z -> S -> S * bool;
  ws_close : S -> S;
}.

(** [impl WorkerStream for stream::Stream]: the stream with its socket. *)
Definition is_ok {A} (r : res A) : bool := match r with ROk _ => true | RErr _ => false end.

Definition run_ok {A} (m : M A) (w : Stream * Net) : (Stream * Net) * bool := let '(r, w) := m w in (w, is_ok r).

#[export] Instance stream_worker `{ByteOrder} : WorkerStream (Stream * Net) := {
  ws_scan_speed w := s_scan_speed w.1;
  ws_set_scan_speed pps w := (set_scan_speed pps w.1, w.2);
  ws_needs_keepalive w := let '(r, w) := needs_keepalive w in (w, match r with ROk b => b | RErr _ => false end);
  ws_send_keepalive w := run_ok send_keepalive w;
  ws_write_frame c w :=
    match c with CpXyrgbi v => run_ok (IdnStream.write_frame v) w | CpHighRes v => run_ok (IdnStream.write_frame v) w
    | CpExtended v => run_ok (IdnStream.write_frame v) w end;
  ws_write_frame_with_ack c t w :=
    match c with CpXyrgbi v => run_ok (write_frame_with_ack v t) w | CpHighRes v => run_ok (write_frame_with_ack v t) w
    | CpExtended v => run_ok (write_frame_with_ack v t) w end;
  ws_ping t w := run_ok (ping t) w;
  ws_close w := (run_ok close w).1;
}.

Definition liveness_check_due (last_ack_check : option Z) (misses now : Z) : bool :=
  (0 <? misses) || match last_ack_check with None => true | Some t => ACK_CHECK_INTERVAL <=? duration_since now t end.

(** [handle_worker_command]: the queue, and whether the worker goes on. *)
Definition handle_worker_command (cmd : WorkerCommand) (queue : list QueuedChunk) (last_pps : Z) (f : PointFormat) : list QueuedChunk * bool :=
  match cmd with
  | CmdChunk chunk => (queue ++ [chunk], true)
  | CmdStop => ([blank_chunk last_pps f], true)
  | CmdShutdown => (queue, false)
  end.

(** What the worker did, oldest first. *)
Inductive wevent :=
  | EvTake (cmd : WorkerCommand)
  | EvFrame (c : QueuedChunk) (ok : bool)
  | EvFrameAck (c : QueuedChunk) (ok : bool)
  | EvKeepalive (ok : bool)
  | EvPing (ok : bool)
  | EvSenderGone
  | EvUnset
  | EvClosed.

(** Where the worker is: taking commands without waiting, sending the front of
    the queue, waiting for a command, leaving, gone. *)
Inductive wpc := AtDrain | AtPop | AtWait | AtLeave | AtClose | Gone.

Section worker.
Context {S : Type} `{!WorkerStream S}.

Record Worker := mkWorker {
  wk_stream : S;
  wk_queue : list QueuedChunk;
  wk_last_pps : Z;
  wk_last_ack_check : option Z;
  wk_misses : Z;
}.

Definition worker_start (stream : S) : Worker := mkWorker stream [] (ws_scan_speed stream) None 0.

(** A command is handled: the worker goes back to draining, or leaves. *)
Definition take_command (f : PointFormat) (cmd : WorkerCommand) (w : Worker) : Worker * wpc :=
  let '(q, go) := handle_worker_command cmd (wk_queue w) (wk_last_pps w) f in
  (mkWorker (wk_stream w) q (wk_last_pps w) (wk_last_ack_check w) (wk_misses w), if go then AtDrain else AtLeave).

(** The result of a liveness check. *)
Definition count_check (alive : bool) (w : Worker) : Worker * wpc :=
  if alive then (mkWorker (wk_stream w) (wk_queue w) (wk_last_pps w) (wk_last_ack_check w) 0, AtDrain)
  else
    let misses := wk_misses w + 1 in
    (mkWorker (wk_stream w) (wk_queue w) (wk_last_pps w) (wk_last_ack_check w) misses,
     if MAX_CONSECUTIVE_ACK_MISSES <=? misses then AtLeave else AtDrain).

(** The front of the queue is sent at time [now]; a worker that goes on gives the
    buffer back. *)
Definition send_front (now : Z) (chunk : QueuedChunk) (rest : list QueuedChunk) (w : Worker) : Worker * wpc * list wevent :=
  let stream := ws_set_scan_speed (qc_pps chunk) (wk_stream w) in
  if liveness_check_due (wk_last_ack_check w) (wk_misses w) now then
    let '(stream, ok) := ws_write_frame_with_ack (qc_points chunk) ACK_TIMEOUT stream in
    (count_check ok (mkWorker stream rest (qc_pps chunk) (Some now) (wk_misses w)), [EvFrameAck chunk ok])
  else
    let '(stream, ok) := ws_write_frame (qc_points chunk) stream in
    (mkWorker stream rest (qc_pps chunk) (wk_last_ack_check w) (wk_misses w), if ok then AtDrain else AtLeave, [EvFrame chunk ok]).

(** Nothing came within the keepalive interval. *)
Definition idle_probe (now : Z) (w : Worker) : Worker * wpc * list wevent :=
  if liveness_check_due (wk_last_ack_check w) (wk_misses w) now then
    let '(stream, ok) := ws_ping ACK_TIMEOUT (wk_stream w) in
    (count_check ok (mkWorker stream (wk_queue w) (wk_last_pps w) (Some now) (wk_misses w)), [EvPing ok])
  else (w, AtDrain, []).

Definition idle (now : Z) (w : Worker) : Worker * wpc * list wevent :=
  let '(stream, needed) := ws_needs_keepalive (wk_stream w) in
  let set_stream s := mkWorker s (wk_queue w) (wk_last_pps w) (wk_last_ack_check w) (wk_misses w) in
  if needed then
    let '(stream, ok) := ws_send_keepalive stream in
    if ok then let '(w, pc, evs) := idle_probe now (set_stream stream) in (w, pc, EvKeepalive true :: evs)
    else (set_stream stream, AtLeave, [EvKeepalive false])
  else idle_probe now (set_stream stream).
End worker.
Arguments Worker S : clear implicits.

(** ** The backend and the worker together *)

(** [WorkerRuntime], with the receiving side the worker owns: the channel, whether
    the sender still exists, the connected flag, the worker and what it did, and
    every command the channel ever accepted. *)
Record Runtime (S : Type) := mkRuntime {
  rt_format : PointFormat;
  rt_channel : list WorkerCommand;
  rt_sender : bool;
  rt_connected : bool;
  rt_worker : Worker S;
  rt_pc : wpc;
  rt_log : list wevent;
  rt_accepted : list WorkerCommand;
}.
Arguments mkRuntime {S}.
Arguments rt_format {S}.
Arguments rt_channel {S}.
Arguments rt_sender {S}.
Arguments rt_connected {S}.
Arguments rt_worker {S}.
Arguments rt_pc {S}.
Arguments rt_log {S}.
Arguments rt_accepted {S}.

(** [IdnBackend]; [be_joining] while [disconnect] waits for the worker. *)
Record IdnBackend (S : Type) := mkBackend {
  be_server : ServerInfo;
  be_service : ServiceInfo;
  be_runtime : option (Runtime S);
  be_caps : DacCapabilities;
  be_pool : ChunkBufferPool;
  be_estimator : SoftwareDecay.SoftwareDecayEstimator;
  be_point_format : PointFormat;
  be_joining : bool;
}.
Arguments mkBackend {S}.
Arguments be_server {S}.
Arguments be_service {S}.
Arguments be_runtime {S}.
Arguments be_caps {S}.
Arguments be_pool {S}.
Arguments be_estimator {S}.
Arguments be_point_format {S}.
Arguments be_joining {S}.

Section system.
Context {S : Type} `{!WorkerStream S}.
Implicit Types (b : IdnBackend S) (rt : Runtime S).

Definition IdnBackend_new (server : ServerInfo) (service : ServiceInfo) (now : Z) : IdnBackend S :=
  mkBackend server service None idn_capabilities pool_new (SoftwareDecay.new now) Xyrgbi false.

Definition be_set_point_format (f : PointFormat) b : IdnBackend S :=
  let c := be_caps b in
  mkBackend (be_server b) (be_service b) (be_runtime b)
    (mkCaps (pps_min c) (pps_max c) (Z.of_nat (max_points_per_chunk_for f)) (output_model c)) (be_pool b) (be_estimator b) f (be_joining b).

Definition set_runtime (r : option (Runtime S)) b : IdnBackend S :=
  mkBackend (be_server b) (be_service b) r (be_caps b) (be_pool b) (be_estimator b) (be_point_format b) (be_joining b).

Definition set_pool (p : ChunkBufferPool) b : IdnBackend S :=
  mkBackend (be_server b) (be_service b) (be_runtime b) (be_caps b) p (be_estimator b) (be_point_format b) (be_joining b).

Definition set_estimator (e : SoftwareDecay.SoftwareDecayEstimator) b : IdnBackend S :=
  mkBackend (be_server b) (be_service b) (be_runtime b) (be_caps b) (be_pool b) e (be_point_format b) (be_joining b).

Definition set_joining (j : bool) b : IdnBackend S :=
  mkBackend (be_server b) (be_service b) (be_runtime b) (be_caps b) (be_pool b) (be_estimator b) (be_point_format b) j.

Definition be_is_connected b : bool := match be_runtime b with Some rt => rt_connected rt | None => false end.

(** [tx.try_send] and [tx.send]: the receiver is gone with the worker. *)
Inductive sent :=
  | Accepted (rt : Runtime S)
  | ChannelFull
  | ReceiverGone.

Definition with_channel (c a : list WorkerCommand) rt : Runtime S :=
  mkRuntime (rt_format rt) c (rt_sender rt) (rt_connected rt) (rt_worker rt) (rt_pc rt) (rt_log rt) a.

Definition try_send (cmd : WorkerCommand) rt : sent :=
  match rt_pc rt with
  | Gone => ReceiverGone
  | _ => if decide (length (rt_channel rt) < IDN_WORKER_QUEUE_CAPACITY)%nat then 
         Accepted (with_channel (rt_channel rt ++ [cmd]) (rt_accepted rt ++ [cmd]) rt) else ChannelFull
  end.

(** [FifoBackend::try_write_points]; [None] is a panic of the estimator. *)
Definition be_try_write_points (now pps : Z) (points : list LaserPoint) b : option (IdnBackend S * result WriteOutcome) :=
  match be_runtime b with
  | None => Some (b, Err (ErrDisconnected "Not connected"))
  | Some rt =>
      if negb (rt_connected rt) then Some (b, Err (ErrDisconnected "IDN sender thread disconnected"))
      else
        let '(chunk, pool) := build_chunk (be_caps b) (be_point_format b) pps points (be_pool b) in
        let b := set_pool pool b in
        match try_send (CmdChunk chunk) rt with
        | Accepted rt =>
            e ← SoftwareDecay.record_send now (Z.of_nat (length points)) pps (be_estimator b);
            Some (set_estimator e (set_runtime (Some rt) b), Ok Written)
        | ChannelFull => Some (b, Ok WouldBlock)
        | ReceiverGone => Some (b, Err (ErrDisconnected "IDN sender thread disconnected"))
        end
  end.

(** A blocking [send] whose result is ignored: [None] while the channel is full. *)
Definition send_ignored (cmd : WorkerCommand) rt : option (Runtime S) :=
  match try_send cmd rt with Accepted rt => Some rt | ChannelFull => None | ReceiverGone => Some rt end.

(** [DacBackend::stop]. *)
Definition be_stop (now : Z) b : option (IdnBackend S) :=
  let finish b := set_estimator (SoftwareDecay.reset now (be_estimator b)) b in
  match be_runtime b with
  | None => Some (finish b)
  | Some rt => rt ← send_ignored CmdStop rt; Some (finish (set_runtime (Some rt) b))
  end.

(** [DacBackend::disconnect]: shut the worker down, then wait for it. *)
Definition be_disconnect_send (now : Z) b : option (IdnBackend S) :=
  match be_runtime b with
  | None => Some (set_estimator (SoftwareDecay.reset now (be_estimator b)) b)
  | Some rt => rt ← send_ignored CmdShutdown rt; Some (set_joining true (set_runtime (Some rt) b))
  end.

Definition be_disconnect_join (now : Z) b : option (IdnBackend S) :=
  match be_runtime b with
  | Some rt =>
      match rt_pc rt with
      | Gone => Some (set_joining false (set_runtime None (set_estimator (SoftwareDecay.reset now (be_estimator b)) b)))
      | _ => None
      end
  | None => None
  end.

(** The reachability check of [connect]: pings until one is answered. *)
Fixpoint ping_retries (n : nat) (s : S) : S * bool :=
  let '(s, ok) := ws_ping CONNECT_PING_TIMEOUT s in
  if ok then (s, true) else match n with O => (s, false) | Datatypes.S n => ping_retries n s end.

(** [DacBackend::connect]; [opened] is the stream of [stream::connect] set up in
    wave mode with the point format, or why there is none. *)
Definition be_connect (now : Z) (opened : S + IoKind) b : IdnBackend S * result unit :=
  match be_runtime b with
  | Some _ => (b, Ok tt)
  | None =>
      match opened with
      | inr _ => (b, Err (ErrBackend "stream::connect"))
      | inl stream =>
          let '(stream, reachable) := ping_retries CONNECT_PING_RETRIES stream in
          if negb reachable then (b, Err (ErrDisconnected "IDN server did not respond to ping at connect"))
          else
            (set_runtime (Some (mkRuntime (be_point_format b) [] true true (worker_start stream) AtDrain [] []))
               (set_estimator (SoftwareDecay.reset now (be_estimator b)) b), Ok tt)
      end
  end.

(** ** The worker's steps *)

Definition advance (w : Worker S) (pc : wpc) (evs : list wevent) rt : Runtime S :=
  mkRuntime (rt_format rt) (rt_channel rt) (rt_sender rt) (rt_connected rt) w pc (rt_log rt ++ evs) (rt_accepted rt).

Definition take_from_channel rt (none : option (Runtime S)) : option (Runtime S) :=
  match rt_channel rt with
  | cmd :: rest => let '(w, pc) := take_command (rt_format rt) cmd (rt_worker rt) in
                   Some (advance w pc [EvTake cmd] (with_channel rest (rt_accepted rt) rt))
  | [] => if rt_sender rt then none else Some (advance (rt_worker rt) AtLeave [EvSenderGone] rt)
  end.

(** One step of [worker_loop], and the buffer it gives back to the pool. *)
Definition worker_step (now : Z) rt : option (Runtime S * option ChunkPoints) :=
  let keep r := (r, None) in
  match rt_pc rt with
  | AtDrain => keep <$> take_from_channel rt (Some (advance (rt_worker rt) AtPop [] rt))
  | AtPop =>
      match wk_queue (rt_worker rt) with
      | [] => Some (keep (advance (rt_worker rt) AtWait [] rt))
      | chunk :: rest =>
          let '(w, pc, evs) := send_front now chunk rest (rt_worker rt) in
          Some (advance w pc evs rt, match pc with AtDrain => Some (qc_points chunk) | _ => None end)
      end
  | AtWait =>
      keep <$> take_from_channel rt
        (let '(w, pc, evs) := idle now (rt_worker rt) in Some (advance w pc evs rt))
  | AtLeave => Some (keep (mkRuntime (rt_format rt) (rt_channel rt) (rt_sender rt) false (rt_worker rt) AtClose (rt_log rt ++ [EvUnset]) (rt_accepted rt)))
  | AtClose =>
      let w := rt_worker rt in
      let w := mkWorker (ws_close (wk_stream w)) (wk_queue w) (wk_last_pps w) (wk_last_ack_check w) (wk_misses w) in
      Some (keep (advance w Gone [EvClosed] rt))
  | Gone => None
  end.

(** ** Interleavings *)

Inductive step : IdnBackend S -> IdnBackend S -> Prop :=
  | step_write now pps points b b' r :
      be_joining b = false -> be_try_write_points now pps points b = Some (b', r) -> step b b'
  | step_stop now b b' : be_joining b = false -> be_stop now b = Some b' -> step b b'
  | step_disconnect now b b' : be_joining b = false -> be_disconnect_send now b = Some b' -> step b b'
  | step_join now b b' : be_joining b = true -> be_disconnect_join now b = Some b' -> step b b'
  | step_connect now opened b b' r : be_joining b = false -> be_connect now opened b = (b', r) -> step b b'
  | step_set_format f b : be_joining b = false -> step b (be_set_point_format f b)
  | step_drop b rt : be_joining b = false -> be_runtime b = Some rt ->
      step b (set_joining true (set_runtime (Some (mkRuntime (rt_format rt) (rt_channel rt) false (rt_connected rt) (rt_worker rt) (rt_pc rt) (rt_log rt) (rt_accepted rt))) b))
  | step_worker now b rt rt' buf :
      be_runtime b = Some rt -> worker_step now rt = Some (rt', buf) ->
      step b (set_runtime (Some rt') (set_pool (match buf with Some c => recycle c (be_pool b) | None => be_pool b end) b)).

Definition reaches : IdnBackend S -> IdnBackend S -> Prop := rtc step.
End system.

(** ** What the worker sends *)

Definition taken (e : wevent) : option WorkerCommand := match e with EvTake c => Some c | _ => None end.

Definition chunk_in (c : WorkerCommand) : option QueuedChunk := match c with CmdChunk c => Some c | _ => None end.

Definition frame_in (e : wevent) : option QueuedChunk := match e with EvFrame c _ | EvFrameAck c _ => Some c | _ => None end.

Definition check_in (e : wevent) : option bool := match e with EvFrameAck _ ok | EvPing ok => Some ok | _ => None end.

Definition takes (l : list wevent) : list WorkerCommand := omap taken l.

Definition chunks (l : list WorkerCommand) : list QueuedChunk := omap chunk_in l.

Definition frames (l : list wevent) : list QueuedChunk := omap frame_in l.

(** The failed checks at the end of a log. *)
Definition trailing_misses (l : list wevent) : Z := foldl (fun n (ok : bool) => if ok then 0 else n + 1) 0 (omap check_in l).

Definition running (pc : wpc) : bool := match pc with AtDrain | AtPop | AtWait => true | _ => false end.

(** An event after which the worker leaves by itself. *)
Definition fatal (e : wevent) : bool :=
  match e with EvTake CmdShutdown | EvSenderGone | EvFrame _ false | EvKeepalive false => true | _ => false end.

(** Every point of a chunk is dark. *)
Definition dark_chunk (c : ChunkPoints) : Prop :=
  match c with
  | CpXyrgbi v => Forall (fun p => px_r p = 0 /\ px_g p = 0 /\ px_b p = 0 /\ px_i p = 0) v
  | CpHighRes v => Forall (fun p => hp_r p = 0 /\ hp_g p = 0 /\ hp_b p = 0) v
  | CpExtended v => Forall (fun p => xp_r p = 0 /\ xp_g p = 0 /\ xp_b p = 0 /\ xp_i p = 0) v
  end.

Section facts.
Context {S : Type} `{!WorkerStream S}.
Implicit Types (b : IdnBackend S) (rt : Runtime S).

(** The queue is what was taken since the last stop, the blank chunk first, less
    what was sent since. *)
Definition queue_ok (f : PointFormat) (log : list wevent) (q : list QueuedChunk) : Prop :=
  (CmdStop ∉ takes log -> frames log ++ q = chunks (takes log)) /\
  (forall pre post, log = pre ++ EvTake CmdStop :: post -> CmdStop ∉ takes post ->
    exists pps, frames post ++ q = blank_chunk pps f :: chunks (takes post)).

Lemma snoc_split {A} (l pre post : list A) x y : l ++ [x] = pre ++ y :: post ->
  (post = [] /\ pre = l /\ x = y) \/ exists post', post = post' ++ [x] /\ l = pre ++ y :: post'.
Proof.
  destruct post as [|z post _] using rev_ind; intros He.
  - left. apply app_inj_tail in He as [-> ->]. done.
  - right. exists post. rewrite app_comm_cons, app_assoc in He. apply app_inj_tail in He as [-> ->]. done.
Qed.

(** An event that neither takes a chunk or stop nor sends. *)
Definition quiet (e : wevent) : Prop := frame_in e = None /\ match taken e with Some c => chunk_in c = None /\ c <> CmdStop | None => True end.

Lemma takes_app l k : takes (l ++ k) = takes l ++ takes k.
Proof. apply omap_app. Qed.

Lemma frames_app l k : frames (l ++ k) = frames l ++ frames k.
Proof. apply omap_app. Qed.

Lemma chunks_app l k : chunks (l ++ k) = chunks l ++ chunks k.
Proof. apply omap_app. Qed.


(** A log grows by an event that leaves the queue as it should. *)
Lemma queue_ok_snoc f log q e q' : e <> EvTake CmdStop ->
  (forall xs ys, xs ++ q = ys -> (xs ++ frames [e]) ++ q' = ys ++ chunks (takes [e])) ->
  queue_ok f log q -> queue_ok f (log ++ [e]) q'.
Proof.
  intros He Hq [H1 H2]. split.
  - rewrite takes_app, frames_app, chunks_app, not_elem_of_app. intros [Hn _]. by apply Hq, H1.
  - intros pre post Hl Hn. apply snoc_split in Hl as [(_ & _ & ->)|(post' & -> & ->)]; [done|].
    rewrite takes_app, not_elem_of_app in Hn. destruct Hn as [Hn _]. destruct (H2 pre post' eq_refl Hn) as (pps & Hp).
    exists pps. rewrite frames_app, takes_app, chunks_app, (Hq _ _ Hp). done.
Qed.

Lemma queue_ok_stop f log pps : queue_ok f (log ++ [EvTake CmdStop]) [blank_chunk pps f].
Proof.
  split.
  - rewrite takes_app. intros Hn. destruct Hn. apply elem_of_app. right. by apply list_elem_of_singleton.
  - intros pre post Hl Hn. apply snoc_split in Hl as [(-> & -> & _)|(post' & -> & ->)]; [by exists pps|].
    destruct Hn. rewrite takes_app. apply elem_of_app. right. by apply list_elem_of_singleton.
Qed.

Lemma trailing_snoc log e : trailing_misses (log ++ [e]) =
  match check_in e with Some true => 0 | Some false => trailing_misses log + 1 | None => trailing_misses log end.
Proof. unfold trailing_misses. rewrite omap_app, foldl_app. cbn. by destruct (check_in e) as [[]|]. Qed.

Definition left_for_cause (log : list wevent) : Prop := trailing_misses log = MAX_CONSECUTIVE_ACK_MISSES \/ exists e, e ∈ log /\ fatal e = true.

(** The invariant of a worker and its channel. *)
Record rt_ok rt : Prop := {
  ok_queue : queue_ok (rt_format rt) (rt_log rt) (wk_queue (rt_worker rt));
  ok_accepted : rt_accepted rt = takes (rt_log rt) ++ rt_channel rt;
  ok_capacity : (length (rt_channel rt) <= IDN_WORKER_QUEUE_CAPACITY)%nat;
  ok_misses : wk_misses (rt_worker rt) = trailing_misses (rt_log rt) /\ 0 <= trailing_misses (rt_log rt);
  ok_running : if running (rt_pc rt)
    then trailing_misses (rt_log rt) < MAX_CONSECUTIVE_ACK_MISSES /\ Forall (fun e => fatal e = false) (rt_log rt) /\ rt_connected rt = true
    else trailing_misses (rt_log rt) <= MAX_CONSECUTIVE_ACK_MISSES /\ left_for_cause (rt_log rt) /\
      (rt_connected rt = true <-> rt_pc rt = AtLeave);
}.

(** The worker does something recorded as one event. *)
Lemma rt_ok_event rt w pc e c : rt_ok rt -> running (rt_pc rt) = true ->
  rt_channel rt = takes [e] ++ c ->
  queue_ok (rt_format rt) (rt_log rt ++ [e]) (wk_queue w) ->
  wk_misses w = match check_in e with Some true => 0 | Some false => wk_misses (rt_worker rt) + 1 | None => wk_misses (rt_worker rt) end ->
  (running pc = true /\ fatal e = false /\ wk_misses w < MAX_CONSECUTIVE_ACK_MISSES \/
   pc = AtLeave /\ (fatal e = true \/ wk_misses w = MAX_CONSECUTIVE_ACK_MISSES)) ->
  rt_ok (advance w pc [e] (with_channel c (rt_accepted rt) rt)).
Proof.
  intros Hok Hrun Hc Hq Hm Hpc. destruct Hok as [_ Ha Hcap [Hm1 Hm2] Hr]. rewrite Hrun in Hr. destruct Hr as (Hlt & Hnf & Hcon).
  assert (Ht : wk_misses w = trailing_misses (rt_log rt ++ [e])) by (rewrite trailing_snoc, <- Hm1; exact Hm).
  split; cbn [advance with_channel rt_format rt_log rt_worker rt_accepted rt_channel rt_pc rt_connected].
  - exact Hq.
  - by rewrite Ha, Hc, takes_app, app_assoc.
  - rewrite Hc, length_app in Hcap. lia.
  - split; [done|]. rewrite <- Ht. rewrite Hm. destruct (check_in e) as [[]|]; lia.
  - rewrite <- Ht. destruct Hpc as [(Hp & Hf & Hl)|(-> & Hx)].
    + rewrite Hp. split_and!; [done|apply Forall_app_2; [done|by constructor]|done].
    + cbn [running]. split_and!; [|destruct Hx as [Hx|Hx]|by rewrite Hcon].
      * destruct Hx as [Hx|Hx]; [|lia]. rewrite Hm. destruct (check_in e) as [[]|] eqn:Hci; [done| |lia].
        unfold MAX_CONSECUTIVE_ACK_MISSES in *. lia.
      * right. exists e. split; [|done]. apply elem_of_app. right. by apply list_elem_of_singleton.
      * left. by rewrite <- Ht.
Qed.

Lemma rt_ok_silent rt w pc : rt_ok rt -> running (rt_pc rt) = true -> running pc = true ->
  wk_queue w = wk_queue (rt_worker rt) -> wk_misses w = wk_misses (rt_worker rt) -> rt_ok (advance w pc [] rt).
Proof.
  intros [Hq Ha Hcap Hm Hr] Hrun Hpc Hw1 Hw2. rewrite Hrun in Hr.
  split; cbn [advance rt_format rt_log rt_worker rt_accepted rt_channel rt_pc rt_connected]; rewrite ?app_nil_r, ?Hw1, ?Hw2, ?Hpc; done.
Qed.

Lemma with_channel_same rt : with_channel (rt_channel rt) (rt_accepted rt) rt = rt.
Proof. by destruct rt. Qed.

(** The same when the channel is left alone. *)
Lemma rt_ok_event_same rt w pc e : rt_ok rt -> running (rt_pc rt) = true -> taken e = None ->
  queue_ok (rt_format rt) (rt_log rt ++ [e]) (wk_queue w) ->
  wk_misses w = match check_in e with Some true => 0 | Some false => wk_misses (rt_worker rt) + 1 | None => wk_misses (rt_worker rt) end ->
  (running pc = true /\ fatal e = false /\ wk_misses w < MAX_CONSECUTIVE_ACK_MISSES \/
   pc = AtLeave /\ (fatal e = true \/ wk_misses w = MAX_CONSECUTIVE_ACK_MISSES)) ->
  rt_ok (advance w pc [e] rt).
Proof.
  intros Hok Hrun Ht Hq Hm Hpc. rewrite <- (with_channel_same rt). apply rt_ok_event; try done. unfold takes. cbn. by rewrite Ht.
Qed.

(** Events that change no queue. *)
Lemma queue_ok_quiet f log q e : quiet e -> queue_ok f log q -> queue_ok f (log ++ [e]) q.
Proof.
  intros [Hf Ht]. apply queue_ok_snoc.
  - intros ->. cbn in Ht. by destruct Ht.
  - intros xs ys <-. unfold frames, takes, chunks. cbn. rewrite Hf. cbn. rewrite app_nil_r.
    destruct (taken e) as [c|]; cbn; [|by rewrite app_nil_r]. destruct Ht as [-> _]. cbn. by rewrite app_nil_r.
Qed.

Lemma queue_ok_sent f log c q e : frame_in e = Some c -> queue_ok f log (c :: q) -> queue_ok f (log ++ [e]) q.
Proof.
  intros Hf. apply queue_ok_snoc.
  - by intros ->.
  - intros xs ys <-. destruct e; try done; cbn in Hf; injection Hf as ->; unfold frames, takes, chunks; cbn; by rewrite app_nil_r, <- app_assoc.
Qed.

Lemma take_from_channel_ok rt none rt' : rt_ok rt -> running (rt_pc rt) = true ->
  (forall r, none = Some r -> rt_ok r) -> take_from_channel rt none = Some rt' -> rt_ok rt'.
Proof.
  intros Hok Hrun Hnone. unfold take_from_channel. destruct (rt_channel rt) as [|cmd rest] eqn:Hc.
  - destruct (rt_sender rt); [by apply Hnone|]. intros [= <-]. apply rt_ok_event_same; try done.
    + apply queue_ok_quiet; [by split|apply Hok].
    + right. split; [done|by left].
  - unfold take_command, handle_worker_command. destruct Hok as [Hq Ha Hcap Hm Hr] eqn:He. clear He.
    assert (Hlt : wk_misses (rt_worker rt) < MAX_CONSECUTIVE_ACK_MISSES) by (rewrite Hrun in Hr; destruct Hm as [-> _], Hr; done).
    destruct cmd as [chunk| |]; intros [= <-]; apply rt_ok_event; try done; cbn [wk_queue wk_misses].
    + eapply queue_ok_snoc; [done| |exact Hq]. intros xs ys <-. unfold frames, takes, chunks. cbn. by rewrite app_nil_r, app_assoc.
    + by left.
    + apply queue_ok_stop.
    + by left.
    + apply queue_ok_quiet; [by split|done].
    + right. split; [done|by left].
Qed.

(** The outcome of a liveness check is recorded and counted. *)
Lemma count_check_ok rt w e (ok : bool) : rt_ok rt -> running (rt_pc rt) = true -> taken e = None -> check_in e = Some ok -> fatal e = false ->
  queue_ok (rt_format rt) (rt_log rt ++ [e]) (wk_queue w) -> wk_misses w = wk_misses (rt_worker rt) ->
  rt_ok (advance (count_check ok w).1 (count_check ok w).2 [e] rt).
Proof.
  intros Hok Hrun Ht Hci Hf Hq Hm. pose proof Hok as [_ _ _ [Hm1 Hm2] Hr]. rewrite Hrun in Hr. destruct Hr as (Hlt & _ & _).
  apply rt_ok_event_same; try done; unfold count_check; destruct ok; cbn; rewrite ?Hci, ?Hm; try done.
  - left. split_and!; [done|done|by vm_compute].
  - destruct (Z.leb_spec MAX_CONSECUTIVE_ACK_MISSES (wk_misses (rt_worker rt) + 1)).
    + right. split; [done|]. right. cbn. unfold MAX_CONSECUTIVE_ACK_MISSES in *. lia.
    + left. split_and!; [done|done|]. cbn. lia.
Qed.

Lemma send_front_ok rt now chunk rest w pc evs : rt_ok rt -> running (rt_pc rt) = true -> wk_queue (rt_worker rt) = chunk :: rest ->
  send_front now chunk rest (rt_worker rt) = (w, pc, evs) -> rt_ok (advance w pc evs rt).
Proof.
  intros Hok Hrun Hq. pose proof Hok as [Hqok _ _ [Hm1 Hm2] Hr]. rewrite Hrun in Hr. destruct Hr as (Hlt & _ & _). rewrite Hq in Hqok.
  unfold send_front. destruct (liveness_check_due _ _ now).
  - destruct (ws_write_frame_with_ack _ _ _) as [stream ok]. set (w0 := mkWorker stream rest _ _ _).
    destruct (count_check ok w0) as [w1 pc1] eqn:Hc. intros [= <- <- <-].
    pose proof (count_check_ok rt w0 (EvFrameAck chunk ok) ok Hok Hrun eq_refl eq_refl eq_refl) as Hcc. rewrite Hc in Hcc. apply Hcc; [|done].
    by eapply queue_ok_sent.
  - destruct (ws_write_frame _ _) as [stream ok]. intros [= <- <- <-]. apply rt_ok_event_same; try done; cbn [wk_queue wk_misses].
    + by eapply queue_ok_sent.
    + destruct ok; [left|right]; cbn; [|by split; [|left]]. split_and!; [done|done|]. by rewrite Hm1.
Qed.

Lemma idle_probe_ok rt now w w' pc evs : rt_ok rt -> running (rt_pc rt) = true ->
  wk_queue w = wk_queue (rt_worker rt) -> wk_misses w = wk_misses (rt_worker rt) ->
  idle_probe now w = (w', pc, evs) -> rt_ok (advance w' pc evs rt).
Proof.
  intros Hok Hrun Hq Hm. unfold idle_probe. destruct (liveness_check_due _ _ now); [|intros [= <- <- <-]; by apply rt_ok_silent].
  destruct (ws_ping _ _) as [stream ok]. set (w0 := mkWorker stream _ _ _ _).
  destruct (count_check ok w0) as [w1 pc1] eqn:Hc. intros [= <- <- <-].
  pose proof (count_check_ok rt w0 (EvPing ok) ok Hok Hrun eq_refl eq_refl eq_refl) as Hcc. rewrite Hc in Hcc. apply Hcc; [|done].
  apply queue_ok_quiet; [by split|]. cbn. rewrite Hq. apply Hok.
Qed.

Lemma advance_two rt w w1 pc pc1 e evs : advance w pc evs (advance w1 pc1 [e] rt) = advance w pc (e :: evs) rt.
Proof. unfold advance. cbn. by rewrite <- app_assoc. Qed.

Lemma idle_ok rt now w pc evs : rt_ok rt -> running (rt_pc rt) = true -> idle now (rt_worker rt) = (w, pc, evs) -> rt_ok (advance w pc evs rt).
Proof.
  intros Hok Hrun. unfold idle. destruct (ws_needs_keepalive _) as [stream []]; [|by apply idle_probe_ok].
  destruct (ws_send_keepalive stream) as [stream' ok]. set (w0 := mkWorker stream' _ _ _ _).
  assert (Hlt : wk_misses (rt_worker rt) < MAX_CONSECUTIVE_ACK_MISSES)
    by (destruct Hok as [_ _ _ [-> _] Hr]; rewrite Hrun in Hr; by destruct Hr).
  assert (Hq : queue_ok (rt_format rt) (rt_log rt ++ [EvKeepalive ok]) (wk_queue w0)) by (apply queue_ok_quiet; [by split|apply Hok]).
  destruct ok.
  - destruct (idle_probe now w0) as [[w1 pc1] evs1] eqn:Hp. intros [= <- <- <-]. rewrite <- (advance_two rt w1 w0 pc1 AtDrain).
    eapply idle_probe_ok; [| | | |exact Hp]; [|done|done|done]. apply rt_ok_event_same; try done. by left.
  - intros [= <- <- <-]. apply rt_ok_event_same; try done. right. split; [done|by left].
Qed.

Lemma quiet_tail rt e (con : bool) w pc : rt_ok rt -> running (rt_pc rt) = false -> quiet e -> taken e = None -> check_in e = None ->
  wk_queue w = wk_queue (rt_worker rt) -> wk_misses w = wk_misses (rt_worker rt) -> running pc = false -> (con = true <-> pc = AtLeave) ->
  rt_ok (mkRuntime (rt_format rt) (rt_channel rt) (rt_sender rt) con w pc (rt_log rt ++ [e]) (rt_accepted rt)).
Proof.
  intros [Hq Ha Hcap Hm Hr] Hrun He Ht Hci Hw1 Hw2 Hpc Hcon. rewrite Hrun in Hr. destruct Hr as (Hle & Hcause & _).
  assert (Hts : trailing_misses (rt_log rt ++ [e]) = trailing_misses (rt_log rt)) by (by rewrite trailing_snoc, Hci).
  split; cbn [rt_format rt_log rt_worker rt_accepted rt_channel rt_pc rt_connected]; rewrite ?Hw1, ?Hw2, ?Hts; try done.
  - by apply queue_ok_quiet.
  - rewrite Ha, takes_app. unfold takes at 3. cbn. rewrite Ht. by rewrite app_nil_r.
  - rewrite Hpc. split_and!; [done| |done]. destruct Hcause as [Hc|(x & Hx & Hf)]; [left; by rewrite Hts|].
    right. exists x. split; [|done]. apply elem_of_app. by left.
Qed.

Lemma worker_step_ok now rt rt' buf : rt_ok rt -> worker_step now rt = Some (rt', buf) -> rt_ok rt'.
Proof.
  intros Hok. unfold worker_step. destruct (rt_pc rt) eqn:Hpc.
  - intros (r & Hr & [= -> _])%fmap_Some_1. eapply take_from_channel_ok; [exact Hok|by rewrite Hpc| |exact Hr].
    intros r0 [= <-]. apply rt_ok_silent; [done|by rewrite Hpc|done|done|done].
  - destruct (wk_queue (rt_worker rt)) as [|chunk rest] eqn:Hq.
    + intros [= <- _]. apply rt_ok_silent; [done|by rewrite Hpc|done|done|done].
    + destruct (send_front now chunk rest (rt_worker rt)) as [[w pc] evs] eqn:Hs. intros [= <- _].
      eapply send_front_ok; [done|by rewrite Hpc|exact Hq|exact Hs].
  - intros (r & Hr & [= -> _])%fmap_Some_1. eapply take_from_channel_ok; [exact Hok|by rewrite Hpc| |exact Hr].
    intros r0. destruct (idle now (rt_worker rt)) as [[w pc] evs] eqn:Hi. intros [= <-]. eapply idle_ok; [done|by rewrite Hpc|exact Hi].
  - intros [= <- _]. apply quiet_tail; try done. by rewrite Hpc.
  - intros [= <- _]. unfold advance. apply quiet_tail; try done; rewrite ?Hpc; try done.
    destruct Hok as [_ _ _ _ Hr]. rewrite Hpc in Hr. destruct Hr as (_ & _ & Hr). split; [intros Hc; apply Hr in Hc; done|done].
  - done.
Qed.

(** ** The backend's calls keep the invariant *)

Definition be_ok b : Prop := match be_runtime b with Some rt => rt_ok rt | None => True end.

Lemma try_send_accepted cmd rt rt' : try_send cmd rt = Accepted rt' ->
  rt' = with_channel (rt_channel rt ++ [cmd]) (rt_accepted rt ++ [cmd]) rt /\ (length (rt_channel rt) < IDN_WORKER_QUEUE_CAPACITY)%nat.
Proof. unfold try_send. intros Ht. destruct (rt_pc rt); try done; (case_decide; [|done]); by injection Ht as <-. Qed.

Lemma try_send_ok cmd rt rt' : rt_ok rt -> try_send cmd rt = Accepted rt' -> rt_ok rt'.
Proof.
  intros [Hq Ha Hcap Hm Hr] [-> Hl]%try_send_accepted.
  split; cbn [with_channel rt_format rt_log rt_worker rt_accepted rt_channel rt_pc rt_connected]; try done.
  - by rewrite Ha, app_assoc.
  - rewrite length_app. cbn. lia.
Qed.

Lemma send_ignored_ok cmd rt rt' : rt_ok rt -> send_ignored cmd rt = Some rt' -> rt_ok rt'.
Proof.
  intros Hok. unfold send_ignored. destruct (try_send cmd rt) as [r| |] eqn:Ht; [|done|]; intros [= <-]; [by eapply try_send_ok|done].
Qed.

Lemma rt_ok_start f s : rt_ok (mkRuntime f [] true true (worker_start s) AtDrain [] []).
Proof.
  split; cbn; try done; try lia. split; [done|]. intros [|x pre] post He; done.
Qed.

Lemma step_ok b b' : step b b' -> be_ok b -> be_ok b'.
Proof.
  unfold be_ok. intros Hs Hok. destruct Hs as [now pps points b b' r _ Hw|now b b' _ Hw|now b b' _ Hw|now b b' _ Hw|now opened b b' r _ Hw|f b _|b rt _ Hr|now b rt rt' buf Hr Hw].
  - unfold be_try_write_points in Hw. destruct (be_runtime b) as [rt|] eqn:Hr; [|injection Hw as <- _; by rewrite Hr].
    destruct (rt_connected rt); cbn [negb] in Hw; [|injection Hw as <- _; by rewrite Hr].
    destruct (build_chunk _ _ _ _ _) as [chunk pool]. destruct (try_send (CmdChunk chunk) rt) as [rt'| |] eqn:Ht.
    + destruct (SoftwareDecay.record_send _ _ _ _); [|done]. injection Hw as <- _. cbn. by eapply try_send_ok.
    + injection Hw as <- _. cbn. by rewrite Hr.
    + injection Hw as <- _. cbn. by rewrite Hr.
  - unfold be_stop in Hw. destruct (be_runtime b) as [rt|] eqn:Hr; [|injection Hw as <-; cbn; by rewrite Hr].
    destruct (send_ignored CmdStop rt) as [rt'|] eqn:Ht; [|done]. injection Hw as <-. cbn. by eapply send_ignored_ok.
  - unfold be_disconnect_send in Hw. destruct (be_runtime b) as [rt|] eqn:Hr; [|injection Hw as <-; cbn; by rewrite Hr].
    destruct (send_ignored CmdShutdown rt) as [rt'|] eqn:Ht; [|done]. injection Hw as <-. cbn. by eapply send_ignored_ok.
  - unfold be_disconnect_join in Hw. destruct (be_runtime b) as [rt|]; [|done]. destruct (rt_pc rt); try done. by injection Hw as <-.
  - unfold be_connect in Hw. destruct (be_runtime b) as [rt|] eqn:Hr; [injection Hw as <- _; by rewrite Hr|].
    destruct opened as [stream|]; [|injection Hw as <- _; by rewrite Hr]. destruct (ping_retries _ stream) as [stream' []]; cbn in Hw;
      injection Hw as <- _; cbn; [apply rt_ok_start|by rewrite Hr].
  - done.
  - cbn. rewrite Hr in Hok. destruct Hok as [Hq Ha Hcap Hm Hrun]. by split.
  - cbn. rewrite Hr in Hok. by eapply worker_step_ok.
Qed.

Lemma reaches_ok b b' : reaches b b' -> be_ok b -> be_ok b'.
Proof. induction 1; [done|]. intros. eauto using step_ok. Qed.

Lemma blank_chunk_dark pps f : dark_chunk (qc_points (blank_chunk pps f)) /\ chunk_len (qc_points (blank_chunk pps f)) = 10%nat.
Proof. destruct f; (split; [|done]); cbn; repeat (constructor; [done|]); constructor. Qed.

(** C8. The worker plays the command stream.  In every interleaving of the backend's
    calls with the worker, commands are taken in the order the backend sent them, none
    lost or repeated, with at most 8 waiting; what the worker has sent since it took
    the last stop, followed by its queue, is the dark chunk of that stop and then
    exactly the chunks accepted after it, in order - so no chunk accepted before a
    stop is sent after the stop was taken, and the first thing sent is dark; and
    without a stop the frames sent are the accepted chunks in order. *)
Theorem idn_worker_plays_commands server service now b rt :
  reaches (IdnBackend_new server service now) b -> be_runtime b = Some rt ->
  rt_accepted rt = takes (rt_log rt) ++ rt_channel rt /\ (length (rt_channel rt) <= IDN_WORKER_QUEUE_CAPACITY)%nat /\
  (CmdStop ∉ takes (rt_log rt) -> frames (rt_log rt) ++ wk_queue (rt_worker rt) = chunks (takes (rt_log rt))) /\
  (forall pre post, rt_log rt = pre ++ EvTake CmdStop :: post -> CmdStop ∉ takes post ->
    exists pps, dark_chunk (qc_points (blank_chunk pps (rt_format rt))) /\
      frames post ++ wk_queue (rt_worker rt) = blank_chunk pps (rt_format rt) :: chunks (takes post)).
Proof.
  intros Hr Hrt. apply reaches_ok in Hr; [|done]. unfold be_ok in Hr. rewrite Hrt in Hr. destruct Hr as [[Hq1 Hq2] Ha Hcap _ _].
  split_and!; [done|done|done|]. intros pre post Hl Hn. destruct (Hq2 pre post Hl Hn) as (pps & Hp). exists pps.
  split; [apply blank_chunk_dark|done].
Qed.

(** Liveness detection.  In every interleaving a worker that is still running has
    missed fewer than four liveness checks in a row and has had no failed send; four
    misses in a row make it leave, and it leaves for no other reason than four misses,
    a failed send, a shutdown or a dropped backend.  The backend counts as connected
    exactly until the leaving worker withdraws the flag. *)
Theorem idn_worker_leaves_for_cause server service now b rt :
  reaches (IdnBackend_new server service now) b -> be_runtime b = Some rt ->
  trailing_misses (rt_log rt) <= MAX_CONSECUTIVE_ACK_MISSES /\
  (running (rt_pc rt) = true -> trailing_misses (rt_log rt) < MAX_CONSECUTIVE_ACK_MISSES /\ Forall (fun e => fatal e = false) (rt_log rt) /\
    be_is_connected b = true) /\
  (running (rt_pc rt) = false -> left_for_cause (rt_log rt)) /\
  (be_is_connected b = false <-> rt_pc rt = AtClose \/ rt_pc rt = Gone).
Proof.
  intros Hr Hrt. apply reaches_ok in Hr; [|done]. unfold be_ok in Hr. rewrite Hrt in Hr. destruct Hr as [_ _ _ _ Hrun].
  unfold be_is_connected. rewrite Hrt. destruct (running (rt_pc rt)) eqn:Hpc.
  - destruct Hrun as (H1 & H2 & H3). split_and!; [lia|done|done|]. rewrite H3. split; [done|]. by intros [Hp|Hp]; rewrite Hp in Hpc.
  - destruct Hrun as (H1 & H2 & H3). split_and!; [done|done|done|]. rewrite <- not_true_iff_false, H3. clear - Hpc.
    destruct (rt_pc rt); cbn in Hpc; split; intros Hx; try done; try (by left); try (by right); by destruct Hx.
Qed.

(** The pool does not show in a chunk. *)
Lemma build_chunk_spec c f pps points pool :
  (build_chunk c f pps points pool).1 = mkQueued (Z.min (Z.max pps (Z.max (pps_min c) 1)) (pps_max c)) (convert f points).
Proof. unfold build_chunk. destruct f; by destruct (pop_buffer _). Qed.

(** Writing points, on every branch: accepted points are converted to the selected
    format at the clamped rate and appended to the channel, nothing else of the
    connection changes; a full channel is back-pressure that loses nothing and leaves
    the estimate alone; and an error is always a disconnection, returned exactly when
    there is no worker, its flag is withdrawn or it is gone. *)
Theorem idn_write_outcome now pps points b b' r :
  be_try_write_points now pps points b = Some (b', r) ->
  let chunk := mkQueued (Z.min (Z.max pps (Z.max (pps_min (be_caps b)) 1)) (pps_max (be_caps b))) (convert (be_point_format b) points) in
  match r with
  | Ok Written => exists rt, be_runtime b = Some rt /\ rt_connected rt = true /\
      (length (rt_channel rt) < IDN_WORKER_QUEUE_CAPACITY)%nat /\
      be_runtime b' = Some (with_channel (rt_channel rt ++ [CmdChunk chunk]) (rt_accepted rt ++ [CmdChunk chunk]) rt) /\
      SoftwareDecay.record_send now (Z.of_nat (length points)) pps (be_estimator b) = Some (be_estimator b')
  | Ok WouldBlock => be_runtime b' = be_runtime b /\ be_estimator b' = be_estimator b /\
      exists rt, be_runtime b = Some rt /\ (IDN_WORKER_QUEUE_CAPACITY <= length (rt_channel rt))%nat
  | Err e => is_disconnected e = true /\ be_runtime b' = be_runtime b /\ be_estimator b' = be_estimator b /\
      (be_is_connected b = false \/ exists rt, be_runtime b = Some rt /\ rt_pc rt = Gone)
  end.
Proof.
  unfold be_try_write_points, be_is_connected. destruct (be_runtime b) as [rt|] eqn:Hr; [|intros [= <- <-]; rewrite Hr; auto].
  destruct (rt_connected rt) eqn:Hc; cbn [negb]; [|intros [= <- <-]; rewrite Hr; auto].
  pose proof (build_chunk_spec (be_caps b) (be_point_format b) pps points (be_pool b)) as Hb.
  destruct (build_chunk _ _ _ _ _) as [chunk pool]. cbn [fst] in Hb. subst chunk.
  destruct (try_send _ rt) as [rt'| |] eqn:Ht.
  - destruct (SoftwareDecay.record_send _ _ _ _) as [e|] eqn:He; [|done]. intros [= <- <-]. exists rt.
    by apply try_send_accepted in Ht as [-> ?].
  - intros [= <- <-]. split_and!; [done|done|]. exists rt. split; [done|].
    unfold try_send in Ht. destruct (rt_pc rt); try done; (case_decide; [done|lia]).
  - intros [= <- <-]. split_and!; [done|done|done|]. right. exists rt. split; [done|].
    unfold try_send in Ht. destruct (rt_pc rt); try done; by case_decide.
Qed.

(** Connecting a backend whose worker has died does not reconnect it: [connect]
    sees the stale runtime and reports success, the backend stays disconnected, and
    every write fails. *)
Theorem idn_connect_keeps_dead_worker now opened b rt : be_runtime b = Some rt -> rt_connected rt = false ->
  be_connect now opened b = (b, Ok tt) /\ be_is_connected b = false /\
  forall t pps points, exists e, be_try_write_points t pps points b = Some (b, Err e) /\ is_disconnected e = true.
Proof.
  intros Hr Hc. unfold be_connect, be_is_connected, be_try_write_points. rewrite Hr, Hc. split_and!; [done|done|]. intros. by eexists.
Qed.

(** Changing the format of a live connection takes effect with the next write: the
    accepted chunk is in the new format, while the worker keeps the format it was
    started with. *)
Lemma format_change_is_immediate f now pps points b b' rt :
  be_runtime b = Some rt -> be_try_write_points now pps points (be_set_point_format f b) = Some (b', Ok Written) ->
  exists c rt', be_runtime b' = Some rt' /\ rt_accepted rt' = rt_accepted rt ++ [CmdChunk c] /\ qc_points c = convert f points /\
    rt_format rt' = rt_format rt.
Proof.
  intros Hr. unfold be_try_write_points. cbn. rewrite Hr. destruct (rt_connected rt); [|done]. cbn [negb].
  pose proof (build_chunk_spec (be_caps (be_set_point_format f b)) f pps points (be_pool b)) as Hb. cbn in Hb.
  destruct (build_chunk _ _ _ _ _) as [chunk pool]. cbn [fst] in Hb. destruct (try_send _ rt) as [rt'| |] eqn:Ht; [|done|done].
  apply try_send_accepted in Ht as [-> _]. destruct (SoftwareDecay.record_send _ _ _ _); [|done]. intros [= <-].
  exists chunk. eexists. split; [done|]. by rewrite Hb.
Qed.

(** The advertised chunk size fills one datagram, and no more points would fit. *)
Lemma chunk_fits_datagram f :
  let header := (SIZE_BYTES PacketHeader + SIZE_BYTES ChannelMessageHeader + SIZE_BYTES SampleChunkHeader)%nat in
  (header + max_points_per_chunk_for f * size_bytes f <= MAX_UDP_PAYLOAD /\
   MAX_UDP_PAYLOAD < header + (1 + max_points_per_chunk_for f) * size_bytes f)%nat.
Proof. destruct f; vm_compute; lia. Qed.
End facts.

(** ** Runs *)

(** A device that answers liveness checks as scripted, then always. *)
Module Demo.
Record FakeStream := mkFake {
  fk_scan_speed : Z;
  fk_answers : list bool;
}.

Definition answer (s : FakeStream) : FakeStream * bool :=
  match fk_answers s with a :: r => (mkFake (fk_scan_speed s) r, a) | [] => (s, true) end.

#[local] Instance fake_worker : WorkerStream FakeStream := {
  ws_scan_speed := fk_scan_speed;
  ws_set_scan_speed pps s := mkFake pps (fk_answers s);
  ws_needs_keepalive s := (s, false);
  ws_send_keepalive s := (s, true);
  ws_write_frame _ s := (s, true);
  ws_write_frame_with_ack _ _ s := answer s;
  ws_ping _ s := answer s;
  ws_close s := s;
}.

Inductive action :=
  | AWrite (now pps : Z) (points : list LaserPoint)
  | AStop (now : Z)
  | AConnect (now : Z) (s : FakeStream)
  | AWorker (now : Z).

Definition act (a : action) (b : IdnBackend FakeStream) : option (IdnBackend FakeStream) :=
  if be_joining b then None else
  match a with
  | AWrite now pps points => fst <$> be_try_write_points now pps points b
  | AStop now => be_stop now b
  | AConnect now s => Some (be_connect now (inl s) b).1
  | AWorker now =>
      rt ← be_runtime b;
      '(rt', buf) ← worker_step now rt;
      Some (set_runtime (Some rt') (set_pool (match buf with Some c => recycle c (be_pool b) | None => be_pool b end) b))
  end.

Fixpoint play (l : list action) (b : IdnBackend FakeStream) : option (IdnBackend FakeStream) :=
  match l with [] => Some b | a :: l => b' ← act a b; play l b' end.

Lemma act_step a b b' : act a b = Some b' -> step b b'.
Proof.
  unfold act. destruct (be_joining b) eqn:Hj; [done|]. destruct a as [now pps points|now|now s|now].
  - intros ([b0 r] & Hw & [= ->])%fmap_Some_1. by eapply step_write.
  - by apply step_stop.
  - intros [= <-]. destruct (be_connect now (inl s) b) as [b0 r] eqn:Hc. by eapply step_connect.
  - intros (rt & Hr & ([rt' buf] & Hw & [= <-])%bind_Some)%bind_Some. by eapply step_worker.
Qed.

Lemma play_reaches l b b' : play l b = Some b' -> reaches b b'.
Proof.
  revert b. induction l as [|a l IH]; cbn; intros b.
  - intros [= <-]. constructor.
  - intros (b1 & Ha & Hp)%bind_Some. eapply rtc_l; [by eapply act_step|by apply IH].
Qed.

Definition fresh : IdnBackend FakeStream :=
  IdnBackend_new (ServerInfo_new [] [] (1, 0) 0) (mkServiceInfo 1 LaserProjector [] 0 0) 0.

(** Two writes the worker takes, a stop before it sends them, and another write. *)
Definition session : list action :=
  [AConnect 0 (mkFake 30000 []); AWrite 1 30000 [blanked (F32.of_int 0) (F32.of_int 0)]; AWrite 2 30000 [blanked (F32.of_int 0) (F32.of_int 0)];
   AWorker 3; AWorker 4; AStop 5; AWorker 6; AWorker 7; AWorker 8; AWorker 9; AWrite 10 30000 []].

(** The same connection with a device that stops answering. *)
Definition death : list action :=
  [AConnect 0 (mkFake 30000 [true; false; false; false; false])] ++ mjoin (replicate 4 [AWorker 1; AWorker 1; AWorker 1]) ++ [AWorker 2; AWorker 2].

Definition at_end (l : list action) : IdnBackend FakeStream := default fresh (play l fresh).

Lemma at_end_reaches l : is_Some (play l fresh) -> reaches fresh (at_end l).
Proof. unfold at_end. intros [b Hb]. rewrite Hb. by apply (play_reaches l). Qed.

Lemma idn_worker_plays_commands_witness :
  exists rt, be_runtime (at_end session) = Some rt /\ length (rt_accepted rt) = 4%nat /\
    rt_accepted rt = takes (rt_log rt) ++ rt_channel rt /\ length (frames (rt_log rt)) = 1%nat.
Proof.
  destruct (be_runtime (at_end session)) as [rt|] eqn:Hrt; [|by vm_compute in Hrt].
  pose proof (idn_worker_plays_commands _ _ _ (at_end session) rt (at_end_reaches session ltac:(vm_compute; eauto)) Hrt) as (Ha & _).
  exists rt. split; [done|]. split; [|split; [exact Ha|]]; vm_compute in Hrt; by injection Hrt as <-.
Defined.

Lemma idn_worker_leaves_for_cause_witness :
  exists rt, be_runtime (at_end death) = Some rt /\ rt_pc rt = Gone /\ left_for_cause (rt_log rt) /\ be_is_connected (at_end death) = false.
Proof.
  destruct (be_runtime (at_end death)) as [rt|] eqn:Hrt; [|by vm_compute in Hrt].
  pose proof (idn_worker_leaves_for_cause _ _ _ (at_end death) rt (at_end_reaches death ltac:(vm_compute; eauto)) Hrt) as (_ & _ & Hl & Hc).
  assert (Hp : rt_pc rt = Gone) by (vm_compute in Hrt; by injection Hrt as <-). exists rt.
  split; [done|]. split; [done|]. split; [apply Hl; by rewrite Hp|apply Hc; by right].
Defined.

Lemma idn_write_outcome_witness :
  exists b' rt, be_try_write_points 9 30000 [blanked (F32.of_int 0) (F32.of_int 0)] (at_end session) = Some (b', Ok Written) /\
    be_runtime (at_end session) = Some rt /\ (length (rt_channel rt) < IDN_WORKER_QUEUE_CAPACITY)%nat.
Proof.
  destruct (be_try_write_points 9 30000 [blanked (F32.of_int 0) (F32.of_int 0)] (at_end session)) as [[b' r]|] eqn:Hw; [|by vm_compute in Hw].
  pose proof (idn_write_outcome _ _ _ _ _ _ Hw) as Ho.
  assert (Hr : r = Ok Written) by (vm_compute in Hw; by injection Hw as _ <-). subst r. destruct Ho as (rt & H1 & _ & H2 & _). exists b', rt. split; [reflexivity|]. split; [exact H1|exact H2].
Defined.

Lemma idn_connect_keeps_dead_worker_witness :
  reaches fresh (at_end death) /\ be_connect 3 (inl (mkFake 30000 [])) (at_end death) = (at_end death, Ok tt) /\ be_is_connected (at_end death) = false.
Proof.
  split; [apply at_end_reaches; vm_compute; eauto|].
  destruct (be_runtime (at_end death)) as [rt|] eqn:Hrt; [|by vm_compute in Hrt].
  assert (Hc : rt_connected rt = false) by (vm_compute in Hrt; by injection Hrt as <-).
  destruct (idn_connect_keeps_dead_worker 3 (inl (mkFake 30000 [])) (at_end death) rt Hrt Hc) as (H1 & H2 & _). exact (conj H1 H2).
Defined.
End Demo.
