(* ===== verification/CubeBackend.v ===== *)
(** * LaserCube network: connection, backend and discovery

    Models the connection set-up of
    [src/src/protocols/lasercube_network/transport/handle.rs], the backend of
    [backend.rs] and the discoverer of [discovery.rs].  The transport is the [Cube]
    of [CubeTransport], whose worker runs between the backend's calls.  Sockets are
    scripts of what their successive reads give; an exhausted script has no more
    data. *)

From stdpp Require Import gmap strings pretty.
From S2P Require Import Prelude Floats Presentation Point Session Backend Bytes Utf8 IdnTypes Estimators LaserCube CubeTransport Discovery IdnScan.

#[local] Open Scope Z_scope.

Definition CMD_PORT : Z := 45457.
Definition DATA_PORT : Z := 45458.
Definition ALIVE_PORT : Z := 45456.
Definition CMD_ALIVE : Z := 0x27.

Record AddressedDevice := mkAddressed {
  ad_source_ip : Z;
  ad_status : LaserCubeNetworkStatus;
  ad_profile : ConnectionProfile;
  ad_cmd_port : Z;
  ad_data_port : Z;
}.

(** ** Connecting *)

(** One read of the command socket. *)
Inductive reply :=
  | Reply (data : list Z)
  | NoReply
  | ReadFailed (e : io_error).

Definition CONNECT_HANDSHAKE_RETRIES : nat := 2.

(** The reads of one attempt; [None]: nothing came within the timeout. *)
Fixpoint await_full_info (reads : list reply) : option (option CommunicationError) * list reply :=
  match reads with
  | [] => (None, [])
  | NoReply :: reads => (None, reads)
  | ReadFailed e :: reads => (Some (Some (Io e)), reads)
  | Reply data :: reads =>
      match datagram data with
      | b :: _ => if b =? CMD_GET_FULL_INFO then (Some None, reads) else await_full_info reads
      | [] => await_full_info reads
      end
  end.

Definition no_handshake : CommunicationError := Protocol [].

(** The attempts; [sends] is whether each request could be sent.  The requests
    sent, the error if any, and the reads left. *)
Fixpoint handshake (attempts : nat) (sends : list (option io_error)) (reads : list reply) : nat * option CommunicationError * list reply :=
  match attempts with
  | O => (0%nat, Some no_handshake, reads)
  | S attempts =>
      match head sends with
      | Some (Some e) => (0%nat, Some (Io e), reads)
      | _ =>
          match await_full_info reads with
          | (Some r, reads) => (1%nat, r, reads)
          | (None, reads) => let '(n, r, reads) := handshake attempts (tl sends) reads in (S n, r, reads)
          end
      end
  end.

Definition verify_reachable (sends : list (option io_error)) (reads : list reply) : nat * option CommunicationError * list reply :=
  handshake (S CONNECT_HANDSHAKE_RETRIES) sends reads.

(** What connecting meets: the first error of the socket set-up and of the start-up
    commands, the handshake's sends and reads, an error of the socket options after
    it, and whether the thread could be spawned. *)
Record connect_io := mkConnectIo {
  ci_setup : option io_error;
  ci_startup : option io_error;
  ci_sends : list (option io_error);
  ci_reads : list reply;
  ci_options : option io_error;
  ci_spawn : option (list Z);
}.

(** [TransportHandle::connect]: the transport, or the error. *)
Definition transport_connect (now : Z) (cio : connect_io) (hops : list (list hop)) (cmd_in data_in : list (option (list Z))) (send_ok : list bool)
    (device : AddressedDevice) : Cube + CommunicationError :=
  match ci_setup cio, ci_startup cio with
  | Some e, _ => inr (Io e)
  | None, Some e => inr (Io e)
  | None, None =>
      match verify_reachable (ci_sends cio) (ci_reads cio) with
      | (_, Some e, _) => inr e
      | (_, None, _) =>
          match ci_options cio, ci_spawn cio with
          | Some e, _ => inr (Io e)
          | None, Some msg => inr (Protocol msg)
          | None, None => inl (new_cube now (ad_source_ip device) (ad_status device) (ad_profile device) hops cmd_in data_in send_ok)
          end
      end
  end.

(** [TransportHandle::shutdown], as the caller sees it: the worker is told and
    joined, and the transport is marked. *)
Definition transport_shutdown (c : Cube) : Cube := upd_state mark_disconnected (whole_call CallShutdown c).1.

Definition handle_usable (c : Cube) : bool := is_usable (c_clock c) (c_state c).

(** ** The backend *)

Record LaserCubeNetworkBackend := mkNet {
  nb_addressed : AddressedDevice;
  nb_transport : option Cube;
  nb_caps : DacCapabilities;
  nb_fallback : TransportState;
}.

(** [LaserCubeNetworkBackend::new], at [now]. *)
Definition net_new (now : Z) (d : AddressedDevice) : LaserCubeNetworkBackend :=
  mkNet d None (capabilities_for_status (ad_profile d) (ad_status d)) (disconnected_state now (ad_profile d)).

Definition net_default (now : Z) : LaserCubeNetworkBackend :=
  net_new now (mkAddressed 0 (minimal 0) (unknown_conservative DEFAULT_BUFFER_CAPACITY) CMD_PORT DATA_PORT).

Definition set_transport (t : option Cube) (b : LaserCubeNetworkBackend) : LaserCubeNetworkBackend := mkNet (nb_addressed b) t (nb_caps b) (nb_fallback b).

Definition message (e : CommunicationError) : string :=
  match e with
  | Io _ => "I/O error"
  | Protocol _ => "protocol error"
  | WorkerStopped => "worker stopped"
  | QueueFull => "host queue full"
  end.

Definition backend_err (e : CommunicationError) : Error := ErrBackend (message e).

(** [connect], with the transport that would be made; the transport it retires
    comes with the result. *)
Definition connect (made : Cube + CommunicationError) (b : LaserCubeNetworkBackend) : LaserCubeNetworkBackend * result unit * option Cube :=
  match nb_transport b with
  | Some existing =>
      if handle_usable existing then (b, Ok tt, None)
      else
        match made with
        | inl c => (set_transport (Some c) b, Ok tt, Some (transport_shutdown existing))
        | inr e => (set_transport None b, Err (backend_err e), Some (transport_shutdown existing))
        end
  | None =>
      match made with
      | inl c => (set_transport (Some c) b, Ok tt, None)
      | inr e => (b, Err (backend_err e), None)
      end
  end.

Definition disconnect (b : LaserCubeNetworkBackend) : LaserCubeNetworkBackend * result unit * option Cube :=
  (set_transport None b, Ok tt, transport_shutdown <$> nb_transport b).

Definition is_connected (b : LaserCubeNetworkBackend) : bool := match nb_transport b with Some c => handle_usable c | None => false end.

(** A command of the handle. *)
Definition on_transport (k : call) (b : LaserCubeNetworkBackend) : LaserCubeNetworkBackend * result unit :=
  match nb_transport b with
  | None => (b, Ok tt)
  | Some c => let '(c, e) := whole_call k c in (set_transport (Some c) b, match e with None => Ok tt | Some e => Err (backend_err e) end)
  end.

Definition stop (b : LaserCubeNetworkBackend) : LaserCubeNetworkBackend * result unit := on_transport CallStopOutput b.

Definition set_shutter (open : bool) (b : LaserCubeNetworkBackend) : LaserCubeNetworkBackend * result unit := on_transport (CallSetOutput open) b.

Definition try_write_points (pps : Z) (points : list LaserPoint) (b : LaserCubeNetworkBackend) : LaserCubeNetworkBackend * result WriteOutcome :=
  match nb_transport b with
  | None => (b, Err (ErrDisconnected "LaserCube network backend is not connected"))
  | Some c =>
      if negb (handle_usable c) then (b, Err (ErrDisconnected "LaserCube network communication timed out"))
      else
        let '(c, e) := whole_call (CallEnqueue pps (cube_point_of <$> points)) c in
        (set_transport (Some c) b,
         match e with None => Ok Written | Some QueueFull => Ok WouldBlock | Some e => Err (backend_err e) end)
  end.

(** The estimator: the transport's, or the one made with the backend. *)
Definition backend_fullness (now : Z) (b : LaserCubeNetworkBackend) : Z :=
  estimated_fullness now (match nb_transport b with Some c => c_state c | None => nb_fallback b end).

Record LaserCubeNetworkDiagnostics := mkDiagnostics {
  dg_state : TransportState;
  dg_communication_stale : bool;
  dg_device_free_estimate : Z;
  dg_device_buffered_estimate : Z;
  dg_last_ack_age : option Z;
  dg_last_full_info_age : option Z;
  dg_last_comms_age : option Z;
}.

Definition age (now : Z) (t : option Z) : option Z := sat_sub now <$> t.

(** The fields copied as they are come with the state. *)
Definition state_diagnostics (now : Z) (s : TransportState) : LaserCubeNetworkDiagnostics :=
  let free := decayed_free s now in
  mkDiagnostics s (communication_stale s now) free (sat_sub (buffer_total s) free)
    (age now (last_ack s)) (age now (last_full_info s)) (age now (last_comms s)).

Definition diagnostics (now : Z) (b : LaserCubeNetworkBackend) : option LaserCubeNetworkDiagnostics :=
  (fun c => state_diagnostics now (c_state c)) <$> nb_transport b.

(** ** Discovery *)

(** One read of a discovery socket. *)
Inductive dg_read :=
  | DgGot (data : list Z) (src : Z)
  | DgNone
  | DgReset
  | DgErr.

Inductive ReceiveSocket :=
  | Main
  | Interface (index : nat).

(** [DiscoverDacs]: what the sockets will read, the interfaces with their address,
    the addresses found; and, as records, the datagrams taken and the unicast
    requests sent. *)
Record DiscoverDacs := mkDiscover {
  sd_main : list dg_read;
  sd_interfaces : list (Z * list dg_read);
  sd_passive : option (list dg_read);
  sd_seen : gset Z;
  sd_taken : list (list Z * Z);
  sd_requests : list (ReceiveSocket * Z);
}.

Definition set_main (l : list dg_read) (s : DiscoverDacs) : DiscoverDacs := mkDiscover l (sd_interfaces s) (sd_passive s) (sd_seen s) (sd_taken s) (sd_requests s).

Definition set_interfaces (l : list (Z * list dg_read)) (s : DiscoverDacs) : DiscoverDacs := mkDiscover (sd_main s) l (sd_passive s) (sd_seen s) (sd_taken s) (sd_requests s).

Definition set_passive (l : option (list dg_read)) (s : DiscoverDacs) : DiscoverDacs := mkDiscover (sd_main s) (sd_interfaces s) l (sd_seen s) (sd_taken s) (sd_requests s).

Definition add_seen (a : Z) (s : DiscoverDacs) : DiscoverDacs := mkDiscover (sd_main s) (sd_interfaces s) (sd_passive s) ({[a]} ∪ sd_seen s) (sd_taken s) (sd_requests s).

Definition add_taken (d : list Z * Z) (s : DiscoverDacs) : DiscoverDacs := mkDiscover (sd_main s) (sd_interfaces s) (sd_passive s) (sd_seen s) (sd_taken s ++ [d]) (sd_requests s).

Definition send_full_info (rs : ReceiveSocket) (a : Z) (s : DiscoverDacs) : DiscoverDacs := mkDiscover (sd_main s) (sd_interfaces s) (sd_passive s) (sd_seen s) (sd_taken s) (sd_requests s ++ [(rs, a)]).

(** The socket a discovery request leaves from. *)
Inductive request_socket :=
  | FromMain
  | FromPassive
  | FromInterface (index : nat).

Definition BROADCAST : Z := 0xFFFFFFFF.

(** A request for the full information and one for a sign of life, twice. *)
Definition twice_both (cmd_from alive_from : request_socket) (dest : Z) : list (request_socket * list Z * Z * Z) :=
  let both := [(cmd_from, get_full_info, dest, CMD_PORT); (alive_from, [CMD_ALIVE], dest, ALIVE_PORT)] in both ++ both.

(** The requests of [send_discovery_broadcasts], in order: socket, datagram, address
    and port.  [interfaces] are addresses with their netmask; [sockets] the
    per-interface sockets that could be made.  Failures to send are ignored. *)
Definition send_discovery_broadcasts (passive : bool) (interfaces : list (Z * Z)) (sockets : nat) : list (request_socket * list Z * Z * Z) :=
  let alive := if passive then FromPassive else FromMain in
  ('(ip, mask) ← interfaces; twice_both FromMain alive (broadcast_address ip mask)) ++
  twice_both FromMain alive BROADCAST ++
  (i ← seq 0 sockets; twice_both (FromInterface i) (FromInterface i) BROADCAST).

Definition is_local_ip (s : DiscoverDacs) (a : Z) : bool := bool_decide (a ∈ (sd_interfaces s).*1).

(** Read each interface socket once, in order, until one has a datagram. *)
Fixpoint poll_interfaces (index : nat) (ifs : list (Z * list dg_read)) : list (Z * list dg_read) * option (list Z * Z * ReceiveSocket) :=
  match ifs with
  | [] => ([], None)
  | (a, DgGot d src :: reads) :: ifs => ((a, reads) :: ifs, Some (d, src, Interface index))
  | (a, reads) :: ifs => let '(ifs, r) := poll_interfaces (S index) ifs in ((a, tl reads) :: ifs, r)
  end.

(** The passive listener, skipping this host's own datagrams. *)
Fixpoint poll_passive (local : Z -> bool) (reads : list dg_read) : list dg_read * option (list Z * Z * ReceiveSocket) :=
  match reads with
  | [] => ([], None)
  | DgGot d src :: reads => if local src then poll_passive local reads else (reads, Some (d, src, Main))
  | _ :: reads => (reads, None)
  end.

Definition recv_passive (s : DiscoverDacs) : DiscoverDacs * option (list Z * Z * ReceiveSocket) :=
  match sd_passive s with
  | None => (s, None)
  | Some reads => let '(reads, r) := poll_passive (is_local_ip s) reads in (set_passive (Some reads) s, r)
  end.

Definition recv_interface (s : DiscoverDacs) : DiscoverDacs * option (list Z * Z * ReceiveSocket) :=
  let '(ifs, r) := poll_interfaces 0 (sd_interfaces s) in
  let s := set_interfaces ifs s in
  match r with Some d => (s, Some d) | None => recv_passive s end.

(** What [recv_any] or the retry after its timeout gives. *)
Inductive recv_outcome :=
  | Received (data : list Z) (src : Z) (rs : ReceiveSocket)
  | TimedOut
  | Ignored
  | RecvErr.

Definition recv_any (s : DiscoverDacs) : DiscoverDacs * recv_outcome :=
  match recv_interface s with
  | (s, Some (d, src, rs)) => (s, Received d src rs)
  | (s, None) =>
      match sd_main s with
      | [] => (s, TimedOut)
      | DgNone :: reads => (set_main reads s, TimedOut)
      | DgGot d src :: reads => (set_main reads s, Received d src Main)
      | DgReset :: reads => (set_main reads s, Ignored)
      | DgErr :: reads => (set_main reads s, RecvErr)
      end
  end.

(** The receiving half of a round of [next_device]: after a timeout the interfaces
    are polled once more. *)
Definition recv_round (s : DiscoverDacs) : DiscoverDacs * recv_outcome :=
  match recv_any s with
  | (s, TimedOut) =>
      match recv_interface s with
      | (s, Some (d, src, rs)) => (s, Received d src rs)
      | (s, None) => (s, TimedOut)
      end
  | r => r
  end.

Definition is_alive_response (d : list Z) : bool := bool_decide (d = [CMD_ALIVE; 0]).

Section discovery.
Context `{ByteOrder}.

Inductive scan_result :=
  | Found (d : AddressedDevice)
  | ScanTimedOut
  | ScanFailed
  | ScanFuel.

Definition addressed_from (src : Z) (st : LaserCubeNetworkStatus) : AddressedDevice :=
  mkAddressed src st (for_connection (connection_type st) (buffer_max st)) CMD_PORT DATA_PORT.

Fixpoint next_device_loop (fuel : nat) (s : DiscoverDacs) : DiscoverDacs * scan_result :=
  match fuel with
  | O => (s, ScanFuel)
  | S fuel =>
      match recv_round s with
      | (s, TimedOut) => (s, ScanTimedOut)
      | (s, RecvErr) => (s, ScanFailed)
      | (s, Ignored) => next_device_loop fuel s
      | (s, Received raw src rs) =>
          let d := datagram raw in
          let s := add_taken (d, src) s in
          if is_alive_response d then
            next_device_loop fuel (if bool_decide (src ∈ sd_seen s) then s else send_full_info rs src s)
          else if bool_decide (src ∈ sd_seen s) then next_device_loop fuel s
          else
            match parse_status d src with
            | IoErr _ => next_device_loop fuel s
            | IoOk st => (add_seen src s, Found (addressed_from src st))
            end
      end
  end.

(** The reads still to come.  The loop of [next_device] has no deadline: it goes on
    while datagrams keep arriving that lead to no new device.  Each round takes one
    read, so the reads to come are enough fuel. *)
Definition reads_left (s : DiscoverDacs) : nat :=
  length (sd_main s) + sum_list_with (fun '(_, reads) => length reads) (sd_interfaces s) + length (default [] (sd_passive s)).

Definition next_device (s : DiscoverDacs) : DiscoverDacs * scan_result := next_device_loop (S (reads_left s)) s.

(** The ten rounds of [scan]; [None]: the inner loop ran out of fuel. *)
Fixpoint scan_rounds (rounds : nat) (s : DiscoverDacs) : option (DiscoverDacs * list AddressedDevice) :=
  match rounds with
  | O => Some (s, [])
  | S rounds =>
      match next_device s with
      | (s, Found d) => '(s, ds) ← scan_rounds rounds s; Some (s, d :: ds)
      | (s, ScanTimedOut) => Some (s, [])
      | (s, ScanFailed) => scan_rounds rounds s
      | (_, ScanFuel) => None
      end
  end.

Definition SCAN_ROUNDS : nat := 10.
End discovery.

(** ** Devices *)

Definition PREFIX : string := "lasercube-network".

Definition format_stable_id_ip (a : Z) : string := PREFIX +:+ ":" +:+ v4_string a.

(** The serial is upper-case hexadecimal: trimming leaves it as it is. *)
Definition stable_id_for (st : LaserCubeNetworkStatus) : string :=
  let serial := trim_both is_whitespace (serial_number st) in
  if bool_decide (serial <> []) && existsb (fun b => negb (b =? 48)) serial then PREFIX +:+ ":" +:+ text serial
  else format_stable_id_ip (LaserCube.ip st).

Definition device_name (st : LaserCubeNetworkStatus) (a : Z) : string :=
  match model_name st with
  | [] => "LaserCube " +:+ v4_string a
  | name => text (from_utf8_lossy name) +:+ " " +:+ v4_string a
  end.

Definition build_device_info (st : LaserCubeNetworkStatus) (a : Z) : DiscoveredDeviceInfo :=
  let legacy_id := format_stable_id_ip a in
  let info := with_hardware_name (text (serial_number st))
    (with_ip (V4 a) (DiscoveredDeviceInfo_new LaserCubeNetwork (stable_id_for st) (device_name st a))) in
  if decide (di_stable_id info = legacy_id) then info else with_legacy_id legacy_id info.

Definition discovered (d : AddressedDevice) : DiscoveredDevice AddressedDevice :=
  with_caps (capabilities_for_status (ad_profile d) (ad_status d)) (DiscoveredDevice_new (build_device_info (ad_status d) (ad_source_ip d)) d).

(** [LaserCubeNetworkDiscoverer::scan]; [None]: the sockets could not be set up. *)
Definition net_scan `{ByteOrder} (s : option DiscoverDacs) : option (list (DiscoveredDevice AddressedDevice)) :=
  match s with
  | None => Some []
  | Some s => match scan_rounds SCAN_ROUNDS s with Some (_, ds) => Some (discovered <$> ds) | None => None end
  end.

Definition net_connect (now : Z) (d : AddressedDevice) : LaserCubeNetworkBackend := net_new now d.

(** ** Writes *)

Lemma reserve_release n (s s' : TransportState) : 0 <= host_queue_len s -> 0 <= n -> reserve_host_points n s = Some s' ->
  s' = set_host_queue (host_queue_len s + n) s /\ release_host_points n s' = s.
Proof.
  unfold reserve_host_points. destruct (_ <? _); [done|]. intros Hq Hn [= <-]. split; [done|]. unfold release_host_points, sat_sub. simpl.
  rewrite Z.max_r by lia. replace (host_queue_len s + n - n) with (host_queue_len s) by lia. by destruct s.
Qed.

Lemma set_transport_same b c : nb_transport b = Some c -> set_transport (Some c) b = b.
Proof. destruct b. simpl. by intros ->. Qed.

(** The chunk in the channel, and its points counted. *)
Definition accepted (pps : Z) (points : list CubePoint) (c : Cube) : Cube :=
  emit (EvAccepted (c_generation c) points)
    (upd_channel (c_channel c ++ [mkChunk (c_generation c) pps points])
      (upd_state (set_host_queue (host_queue_len (c_state c) + points_len points)) c)).

(** A write to the LaserCube either appends exactly the converted chunk, under the
    current generation and counted against the host queue, or changes nothing:
    back-pressure when the queue or the channel is full, a disconnection without a
    live transport, and an error only when the worker is gone. *)
Theorem net_write_outcome pps points b :
  (forall c, nb_transport b = Some c -> c_pending c = NoPending /\ 0 <= host_queue_len (c_state c) /\
     host_queue_len (c_state c) + Z.of_nat (length points) < umax 64) ->
  let pts := cube_point_of <$> points in
  match nb_transport b, (try_write_points pps points b).2 with
  | Some c, Ok Written =>
      handle_usable c = true /\ host_queue_len (c_state c) + points_len pts <= host_queue_capacity (c_state c) /\
      (length (c_channel c) < POINT_QUEUE_CAPACITY)%nat /\ (try_write_points pps points b).1 = set_transport (Some (accepted pps pts c)) b
  | Some c, Ok WouldBlock =>
      (try_write_points pps points b).1 = b /\
      (host_queue_capacity (c_state c) < host_queue_len (c_state c) + points_len pts \/ (POINT_QUEUE_CAPACITY <= length (c_channel c))%nat)
  | Some c, Err e =>
      (try_write_points pps points b).1 = b /\
      (handle_usable c = false /\ is_disconnected e = true \/ c_rx_alive c = false /\ e = backend_err WorkerStopped)
  | None, r => (try_write_points pps points b).1 = b /\ exists e, r = Err e /\ is_disconnected e = true
  end.
Proof.
  intros Hc pts. unfold try_write_points. destruct (nb_transport b) as [c|] eqn:Hb; [|split; [done|by eexists]].
  destruct (Hc c eq_refl) as (Hp & Hq & Hm). destruct (handle_usable c) eqn:Hu; simpl; [|split; [done|]; by left].
  assert (Hn : 0 <= points_len pts) by (unfold points_len; lia). assert (Hlen : points_len pts = Z.of_nat (length points)) by (unfold points_len, pts; by rewrite length_fmap).
  fold pts. unfold whole_call, start_call. destruct (reserve_host_points (points_len pts) (c_state c)) as [s|] eqn:Hr.
  2: { simpl. rewrite set_transport_same by done. split; [done|]. left. revert Hr. unfold reserve_host_points, sat_add.
    rewrite Z.min_r by (rewrite Hlen; lia). by destruct (Z.ltb_spec (host_queue_capacity (c_state c)) (host_queue_len (c_state c) + points_len pts)). }
  destruct (reserve_release _ _ _ Hq Hn Hr) as [Hs Hrel].
  assert (Hroom : host_queue_len (c_state c) + points_len pts <= host_queue_capacity (c_state c)).
  { revert Hr. unfold reserve_host_points, sat_add. rewrite Z.min_r by (rewrite Hlen; lia).
    destruct (Z.ltb_spec (host_queue_capacity (c_state c)) (host_queue_len (c_state c) + points_len pts)); [done|lia]. }
  assert (Hback : upd_state (release_host_points (points_len pts)) (upd_pending NoPending (upd_pending (PendEnqueue pps pts) (upd_state (fun _ => s) c))) = c).
  { unfold upd_state, upd_pending. simpl. rewrite Hrel. destruct c. simpl in Hp. by subst. }
  unfold finish_call. simpl c_pending. cbn [c_rx_alive c_channel upd_pending upd_state]. destruct (c_rx_alive c) eqn:Hrx; cbn [negb].
  - case_decide as Hfull.
    + simpl. rewrite Hback, set_transport_same by done. split; [done|by right].
    + simpl. split; [done|]. split; [done|]. split; [simpl in Hfull; lia|]. f_equal. f_equal. unfold accepted, emit, upd_channel, upd_state, upd_pending. simpl.
      rewrite Hs. destruct c. simpl in *. by subst.
  - simpl. rewrite Hback, set_transport_same by done. split; [done|by right].
Qed.

Module NetDemo.
Definition device : AddressedDevice := mkAddressed 1 (minimal 1) (unknown_conservative 6000) CMD_PORT DATA_PORT.
Definition transport : Cube := new_cube 0 1 (minimal 1) (unknown_conservative 6000) [] [] [] [].
Definition backend : LaserCubeNetworkBackend := set_transport (Some transport) (net_new 0 device).
Definition dot : LaserPoint := mkLaserPoint f1 f1 65535 0 0 65535.
(** The device answers the second request, after an unrelated datagram. *)
Definition io : connect_io := mkConnectIo None None [None; None; None] [NoReply; Reply [CMD_ALIVE; 0]; Reply [CMD_GET_FULL_INFO]] None None.
End NetDemo.

Lemma net_write_outcome_witness :
  (try_write_points 30000 [NetDemo.dot] NetDemo.backend).2 = Ok Written /\
  (try_write_points 30000 [NetDemo.dot] NetDemo.backend).1 =
    set_transport (Some (accepted 30000 (cube_point_of <$> [NetDemo.dot]) NetDemo.transport)) NetDemo.backend.
Proof.
  assert (Hw : (try_write_points 30000 [NetDemo.dot] NetDemo.backend).2 = Ok Written) by (vm_compute; reflexivity).
  split; [exact Hw|].
  pose proof (net_write_outcome 30000 [NetDemo.dot] NetDemo.backend) as Hn. rewrite Hw in Hn.
  refine (proj2 (proj2 (proj2 (Hn _)))). intros c [= <-]. vm_compute. repeat split; congruence.
Defined.

(** Without a transport the device is reported empty, whatever the time. *)
Lemma fallback_reports_empty now t d : 0 <= profile_buffer_total (ad_profile d) <= umax 64 -> backend_fullness now (net_new t d) = 0.
Proof.
  intros Ht. unfold backend_fullness, estimated_fullness, decayed_free. simpl. set (x := as_usize _).
  assert (Hx : 0 <= x) by (apply (cast_int_range 0 (umax 64)); unfold umax; lia). unfold sat_add, sat_sub, umax in *. lia.
Qed.

(** ** Connecting *)

Lemma new_cube_usable now a st p hops ci di so : handle_usable (new_cube now a st p hops ci di so) = true.
Proof.
  unfold handle_usable, is_usable, communication_stale. simpl. unfold sat_sub. by rewrite Z.sub_diag.
Qed.

Definition is_full_info (r : reply) : bool :=
  match r with Reply data => match datagram data with b :: _ => b =? CMD_GET_FULL_INFO | [] => false end | _ => false end.

Lemma await_spec reads :
  match await_full_info reads with
  | (Some None, rest) => exists pre r, reads = pre ++ r :: rest /\ is_full_info r = true
  | (Some (Some e), rest) => exists pre k, reads = pre ++ ReadFailed k :: rest /\ e = Io k
  | (None, rest) => suffix rest reads
  end.
Proof.
  induction reads as [|r reads IH]; simpl; [done|]. destruct r as [data| |e]; [|by exists [NoReply]|by exists [], e].
  assert (Hskip : match await_full_info reads with
    | (Some None, rest) => exists pre r, Reply data :: reads = pre ++ r :: rest /\ is_full_info r = true
    | (Some (Some e), rest) => exists pre k, Reply data :: reads = pre ++ ReadFailed k :: rest /\ e = Io k
    | (None, rest) => suffix rest (Reply data :: reads)
    end).
  { destruct (await_full_info reads) as [[[e|]|] rest].
    - destruct IH as (pre & k & -> & ->). by exists (Reply data :: pre), k.
    - destruct IH as (pre & r & -> & Hr). by exists (Reply data :: pre), r.
    - by apply suffix_cons_r. }
  destruct (datagram data) as [|b bs] eqn:Hd; [done|]. destruct (b =? CMD_GET_FULL_INFO) eqn:Hb; [|done].
  exists [], (Reply data). split; [done|]. unfold is_full_info. by rewrite Hd.
Qed.

Lemma handshake_spec attempts sends reads :
  let '(n, r, rest) := handshake attempts sends reads in
  (n <= attempts)%nat /\ (r = None -> (0 < n)%nat /\ existsb is_full_info reads = true) /\ suffix rest reads.
Proof.
  revert sends reads. induction attempts as [|k IH]; intros sends reads; simpl; [by split_and!|].
  assert (Hgo : let '(n, r, rest) := match await_full_info reads with
      | (Some r, reads) => (1%nat, r, reads)
      | (None, reads) => let '(n, r, reads) := handshake k (tl sends) reads in (S n, r, reads)
      end in (n <= S k)%nat /\ (r = None -> (0 < n)%nat /\ existsb is_full_info reads = true) /\ suffix rest reads).
  { pose proof (await_spec reads) as Ha. destruct (await_full_info reads) as [[[e|]|] rest].
    - destruct Ha as (pre & k' & -> & ->). split; [lia|]. split; [done|]. exists (pre ++ [ReadFailed k']). by rewrite <- app_assoc.
    - destruct Ha as (pre & r & -> & Hr). split; [lia|]. split.
      + intros _. split; [lia|]. rewrite existsb_app. simpl. rewrite Hr. by rewrite orb_true_r.
      + exists (pre ++ [r]). by rewrite <- app_assoc.
    - specialize (IH (tl sends) rest). destruct (handshake k (tl sends) rest) as [[n r] rest']. destruct IH as (Hn & Hr & Hs).
      split; [lia|]. split; [|by etrans]. intros Hnone. destruct (Hr Hnone) as [_ He]. split; [lia|].
      destruct Ha as [pre ->]. by rewrite existsb_app, He, orb_true_r. }
  destruct (head sends) as [[e|]|]; [split; [lia|by split]|exact Hgo|exact Hgo].
Qed.

(** Unrelated datagrams never end an attempt: any number of them is read within the
    first one. *)
Lemma chatter_never_times_out k data reads sends attempts :
  is_full_info (Reply data) = false -> head sends = Some None ->
  handshake (S attempts) sends (replicate k (Reply data) ++ reads) = handshake (S attempts) sends reads.
Proof.
  intros Hd Hs. assert (Ha : await_full_info (replicate k (Reply data) ++ reads) = await_full_info reads).
  { induction k as [|k IH]; simpl; [done|]. rewrite IH. unfold is_full_info in Hd. destruct (datagram data) as [|b bs]; [done|]. by rewrite Hd. }
  simpl. by rewrite Hs, Ha.
Qed.

(** C33. Connecting leaves a live transport or none.  A usable transport is kept as it
    is.  A stale one is always shut down (its generation moves on, so nothing it still
    holds is current, and it is marked disconnected), whether or not a new one can be
    made; then the new transport takes its place, or none does and the error is
    reported.  A transport is only made when the device answered the handshake, after
    at most three requests; and the call succeeds exactly when the backend is connected
    afterwards. *)
Theorem net_connect_outcome now cio hops ci di so b :
  (forall c, nb_transport b = Some c -> 0 <= c_generation c < umax 64) ->
  let made := transport_connect now cio hops ci di so (nb_addressed b) in
  let '(b', r, retired) := connect made b in
  (r = Ok tt <-> is_connected b' = true) /\
  (is_connected b = true -> b' = b /\ retired = None) /\
  (is_connected b = false ->
     match made with
     | inl c => r = Ok tt /\ nb_transport b' = Some c /\
         existsb is_full_info (ci_reads cio) = true /\ (0 < (verify_reachable (ci_sends cio) (ci_reads cio)).1.1 <= 3)%nat
     | inr e => r = Err (backend_err e) /\ nb_transport b' = None
     end /\
     match nb_transport b with
     | Some old => exists c, retired = Some c /\ c_generation c = c_generation old + 1 /\ connected (c_state c) = false
     | None => retired = None
     end).
Proof.
  intros Hg made. assert (Hmade : match made with
    | inl c => handle_usable c = true /\ existsb is_full_info (ci_reads cio) = true /\ (0 < (verify_reachable (ci_sends cio) (ci_reads cio)).1.1 <= 3)%nat
    | inr _ => True
    end).
  { unfold made, transport_connect. destruct (ci_setup cio), (ci_startup cio); try done.
    pose proof (handshake_spec (S CONNECT_HANDSHAKE_RETRIES) (ci_sends cio) (ci_reads cio)) as Hh. unfold verify_reachable.
    destruct (handshake _ _ _) as [[n [e|]] rest]; [done|]. destruct Hh as (Hn & Hr & _). destruct (Hr eq_refl) as [H0 He].
    destruct (ci_options cio), (ci_spawn cio); try done. split; [apply new_cube_usable|]. simpl. unfold CONNECT_HANDSHAKE_RETRIES in Hn. split; [done|lia]. }
  assert (Hdown : forall c, nb_transport b = Some c -> c_generation (transport_shutdown c) = c_generation c + 1 /\ connected (c_state (transport_shutdown c)) = false).
  { intros c Hc. specialize (Hg c Hc). unfold umax in Hg. unfold transport_shutdown, whole_call, start_call, bump, finish_call. simpl.
    destruct (c_rx_alive c); simpl; unfold wrapu; rewrite Z.mod_small by lia; done. }
  unfold connect. destruct (nb_transport b) as [old|] eqn:Hb.
  - destruct (handle_usable old) eqn:Hu; [unfold is_connected; rewrite Hb, Hu; by split_and!|].
    assert (Hnc : is_connected b = false) by (unfold is_connected; by rewrite Hb).
    assert (Hold : exists c, Some (transport_shutdown old) = Some c /\ c_generation c = c_generation old + 1 /\ connected (c_state c) = false).
    { eexists. split; [done|]. by apply Hdown. }
    destruct made as [c|e]; simpl; rewrite Hnc; (split; [|split; [done|]]).
    + unfold is_connected. simpl. by destruct Hmade as [-> _].
    + intros _. split; [|done]. by destruct Hmade as [_ ?].
    + unfold is_connected. done.
    + intros _. by split.
  - assert (Hnc : is_connected b = false) by (unfold is_connected; by rewrite Hb).
    destruct made as [c|e]; simpl; rewrite Hnc; (split; [|split; [done|]]).
    + unfold is_connected. simpl. by destruct Hmade as [-> _].
    + intros _. split; [|done]. by destruct Hmade as [_ ?].
    + done.
    + intros _. by split.
Qed.

(** A transport that went down while it held a chunk is shut down and replaced. *)
Lemma net_connect_outcome_witness :
  let stale := upd_state mark_disconnected (accepted 30000 [] NetDemo.transport) in
  let b := set_transport (Some stale) (net_new 0 NetDemo.device) in
  let made := transport_connect 0 NetDemo.io [] [] [] [] NetDemo.device in
  is_connected b = false /\ length (c_channel stale) = 1%nat /\ (connect made b).1.2 = Ok tt /\
  exists c c', made = inl c /\ nb_transport (connect made b).1.1 = Some c /\ (connect made b).2 = Some c' /\ c_generation c' = 1.
Proof.
  cbv zeta. set (stale := upd_state _ _). set (b := set_transport _ _). set (made := transport_connect _ _ _ _ _ _ _).
  assert (Hg : forall c, nb_transport b = Some c -> 0 <= c_generation c < umax 64) by (intros c [= <-]; vm_compute; split; congruence).
  pose proof (net_connect_outcome 0 NetDemo.io [] [] [] [] b Hg) as Hn. cbv zeta in Hn. change (nb_addressed b) with NetDemo.device in Hn. fold made in Hn.
  assert (Hnc : is_connected b = false) by (vm_compute; reflexivity).
  assert (Hm : exists c, made = inl c) by (vm_compute; eexists; reflexivity). destruct Hm as [c Hm]. rewrite Hm in Hn |- *.
  destruct (connect (inl c) b) as [[b' r] retired]. destruct Hn as (_ & _ & Hn). destruct (Hn Hnc) as [(Hr & Ht & _) (c' & Hc & Hgen & _)].
  split; [exact Hnc|]. split; [vm_compute; reflexivity|]. split; [exact Hr|]. exists c, c'. split; [reflexivity|]. split; [exact Ht|]. split; [exact Hc|].
  rewrite Hgen. vm_compute. reflexivity.
Defined.

(** ** A scan *)

Lemma poll_interfaces_left i ifs :
  let left := sum_list_with (fun '(_, reads) => length reads) in
  let '(ifs', r) := poll_interfaces i ifs in
  (left ifs' + (match r with Some _ => 1 | None => 0 end) <= left ifs)%nat.
Proof.
  revert i. induction ifs as [|[a reads] ifs IH]; intros i; simpl; [done|]. destruct reads as [|[d src| | |] reads]; simpl; [|lia|..];
    specialize (IH (S i)); simpl in IH; destruct (poll_interfaces (S i) ifs) as [ifs' r]; simpl; lia.
Qed.

Lemma poll_passive_left local reads : let '(reads', r) := poll_passive local reads in (length reads' + (match r with Some _ => 1 | None => 0 end) <= length reads)%nat.
Proof.
  induction reads as [|[d src| | |] reads IH]; simpl; try lia. destruct (local src); simpl; [|lia]. destruct (poll_passive local reads); simpl in *; lia.
Qed.

(** Receiving only consumes what is to be read. *)
Definition same_records (s s' : DiscoverDacs) : Prop := sd_seen s' = sd_seen s /\ sd_taken s' = sd_taken s.

Lemma recv_interface_left s :
  let '(s', r) := recv_interface s in (reads_left s' + (match r with Some _ => 1 | None => 0 end) <= reads_left s)%nat /\ same_records s s'.
Proof.
  unfold recv_interface. pose proof (poll_interfaces_left 0 (sd_interfaces s)) as Hi. simpl in Hi.
  destruct (poll_interfaces 0 (sd_interfaces s)) as [ifs r]. destruct r as [d|]; [split; [unfold reads_left; simpl; lia|done]|].
  unfold recv_passive. simpl. destruct (sd_passive s) as [reads|] eqn:Hp; [|split; [unfold reads_left; simpl; rewrite Hp; simpl; lia|done]].
  pose proof (poll_passive_left (is_local_ip (set_interfaces ifs s)) reads) as Hl. destruct (poll_passive _ reads) as [reads' r].
  split; [|done]. unfold reads_left. simpl. rewrite Hp. simpl. lia.
Qed.

Lemma recv_round_left s :
  let '(s', r) := recv_round s in
  (reads_left s' + (match r with TimedOut => 0 | _ => 1 end) <= reads_left s)%nat /\ same_records s s'.
Proof.
  assert (Hany : let '(s', r) := recv_any s in (reads_left s' + (match r with TimedOut => 0 | _ => 1 end) <= reads_left s)%nat /\ same_records s s').
  { unfold recv_any. pose proof (recv_interface_left s) as Hi. destruct (recv_interface s) as [s1 [[[d src] rs]|]]; [done|]. destruct Hi as [Hl Hr].
    destruct (sd_main s1) as [|[d src| | |] reads] eqn:Hm; (split; [|done]); unfold reads_left in *; simpl; rewrite ?Hm in *; simpl in *; lia. }
  unfold recv_round. destruct (recv_any s) as [s1 [d src rs| | |]]; try done. destruct Hany as [Hl [Hr1 Hr2]].
  pose proof (recv_interface_left s1) as Hi. destruct (recv_interface s1) as [s2 [[[d src] rs]|]]; destruct Hi as [Hl2 [Hr3 Hr4]];
    (split; [simpl in *; lia|split; congruence]).
Qed.

(** *** Nothing is lost *)

Definition got (r : dg_read) : list (list Z * Z) := match r with DgGot d src => [(datagram d, src)] | _ => [] end.

(** The datagrams the sockets have to offer; the passive listener's own are not. *)
Definition offered (s : DiscoverDacs) : list (list Z * Z) :=
  (sd_main s ≫= got) ++ (sd_interfaces s ≫= (fun i => i.2 ≫= got)) ++
  filter (fun d => is_local_ip s d.2 = false) (default [] (sd_passive s) ≫= got).

(** No read fails or times out before the datagrams are over. *)
Definition is_got (r : dg_read) : Prop := match r with DgGot _ _ => True | _ => False end.

Definition streaming (s : DiscoverDacs) : Prop :=
  Forall is_got (sd_main s) /\ Forall (fun i => Forall is_got i.2) (sd_interfaces s) /\ Forall is_got (default [] (sd_passive s)).

Definition one (r : option (list Z * Z * ReceiveSocket)) : list (list Z * Z) := match r with Some (d, src, _) => [(datagram d, src)] | None => [] end.

Lemma poll_interfaces_offered i ifs :
  let '(ifs', r) := poll_interfaces i ifs in
  ifs'.*1 = ifs.*1 /\ (ifs ≫= (fun i => i.2 ≫= got)) ≡ₚ one r ++ (ifs' ≫= (fun i => i.2 ≫= got)) /\
  (Forall (fun i => Forall is_got i.2) ifs -> Forall (fun i => Forall is_got i.2) ifs' /\ (r = None -> (ifs' ≫= (fun i => i.2 ≫= got)) = [])).
Proof.
  revert i. induction ifs as [|[a reads] ifs IH]; intros i; [done|]. cbn [poll_interfaces].
  assert (Hskip : match reads with DgGot _ _ :: _ => False | _ => True end ->
    let '(ifs', r) := (let '(ifs, r) := poll_interfaces (S i) ifs in ((a, tl reads) :: ifs, r)) in
    ifs'.*1 = ((a, reads) :: ifs).*1 /\ (((a, reads) :: ifs) ≫= (fun i => i.2 ≫= got)) ≡ₚ one r ++ (ifs' ≫= (fun i => i.2 ≫= got)) /\
    (Forall (fun i => Forall is_got i.2) ((a, reads) :: ifs) -> Forall (fun i => Forall is_got i.2) ifs' /\ (r = None -> (ifs' ≫= (fun i => i.2 ≫= got)) = []))).
  { intros Hr. specialize (IH (S i)). destruct (poll_interfaces (S i) ifs) as [ifs' r]. destruct IH as (H1 & H2 & H3). split; [cbn; by rewrite H1|]. split.
    - assert (Hg : reads ≫= got = tl reads ≫= got) by (destruct reads as [|[] ?]; done). cbn -[got]. unfold mbind in *. rewrite Hg, H2.
      rewrite !app_assoc. apply Permutation_app_tail, Permutation_app_comm.
    - intros [Hf Hfs]%Forall_cons. destruct (H3 Hfs) as [H4 H5]. destruct reads as [|[] reads]; try done; [|by apply Forall_cons in Hf as [? _]..].
      split; [by constructor|]. intros Hn. cbn. by apply H5. }
  destruct reads as [|[d src| | |] reads]; [by apply Hskip| |by apply Hskip..]. split; [done|]. split; [done|].
  intros [Hf Hfs]%Forall_cons. apply Forall_cons in Hf as [_ Hf]. split; [by constructor|done].
Qed.

Lemma poll_passive_offered local reads :
  let '(reads', r) := poll_passive local reads in
  let mine := filter (fun d : list Z * Z => local d.2 = false) in
  mine (reads ≫= got) = one r ++ mine (reads' ≫= got) /\
  (Forall is_got reads -> Forall is_got reads' /\ (r = None -> reads' = [])).
Proof.
  induction reads as [|r reads IH]; [done|]. destruct r as [d src| | |]; cbn [poll_passive]; [|by (split; [done|intros [? _]%Forall_cons])..].
  cbn zeta in *. destruct (local src) eqn:Hl.
  - destruct (poll_passive local reads) as [reads' r]. destruct IH as [H1 H2]. cbn -[filter]. rewrite filter_cons_False by (cbn; by rewrite Hl).
    split; [exact H1|]. intros [_ Hf]%Forall_cons. by apply H2.
  - cbn -[filter]. rewrite filter_cons_True by done. split; [done|]. by intros [_ Hf]%Forall_cons.
Qed.

Lemma recv_interface_offered s :
  let '(s', r) := recv_interface s in
  offered s ≡ₚ one r ++ offered s' /\ sd_main s' = sd_main s /\
  (streaming s -> streaming s' /\ (r = None -> (sd_interfaces s' ≫= (fun i => i.2 ≫= got)) = [] /\ default [] (sd_passive s') = [])).
Proof.
  unfold recv_interface. pose proof (poll_interfaces_offered 0 (sd_interfaces s)) as Hi. destruct (poll_interfaces 0 (sd_interfaces s)) as [ifs r].
  destruct Hi as (H1 & H2 & H3). set (s1 := set_interfaces ifs s).
  assert (Hloc : forall a, is_local_ip s1 a = is_local_ip s a) by (intros a; unfold is_local_ip, s1; simpl; by rewrite H1).
  assert (Hoff : offered s ≡ₚ one r ++ offered s1).
  { unfold offered. rewrite H2. rewrite (list_filter_iff (fun d => is_local_ip s1 d.2 = false) (fun d => is_local_ip s d.2 = false)) by (intros x; by rewrite Hloc).
    unfold s1. simpl. rewrite <- !app_assoc. rewrite !app_assoc. do 2 apply Permutation_app_tail. apply Permutation_app_comm. }
  assert (Hst : streaming s -> streaming s1) by (intros (? & Hfs & ?); destruct (H3 Hfs); split_and!; done).
  destruct r as [d|]; [split; [done|]; split; [done|]; intros Hs; split; [by apply Hst|done]|]. unfold recv_passive.
  destruct (sd_passive s1) as [reads|] eqn:Hp.
  2: { split; [exact Hoff|]. split; [done|]. intros Hs. split; [by apply Hst|]. intros _. rewrite Hp. split; [|done]. destruct Hs as (_ & Hfs & _). by apply H3. }
  pose proof (poll_passive_offered (is_local_ip s1) reads) as Hpp. destruct (poll_passive (is_local_ip s1) reads) as [reads' r].
  destruct Hpp as [H4 H5]. split; [|split; [done|]].
  - rewrite Hoff. unfold offered at 1. rewrite Hp. simpl default. rewrite H4. unfold offered. simpl. rewrite !app_assoc. apply Permutation_app_tail.
    rewrite <- !app_assoc. rewrite (Permutation_app_comm (one r)). by rewrite <- !app_assoc.
  - intros Hs. pose proof (Hst Hs) as (Hm & Hfs & Hps). rewrite Hp in Hps. destruct (H5 Hps) as [H6 H7]. split; [by split_and!|]. intros ->. split; [|by apply H7].
    destruct Hs as (_ & Hfs0 & _). by apply H3.
Qed.

Definition takes (r : recv_outcome) : list (list Z * Z) := match r with Received d src _ => [(datagram d, src)] | _ => [] end.

Lemma recv_round_offered s :
  let '(s', r) := recv_round s in
  offered s ≡ₚ takes r ++ offered s' /\ (streaming s -> streaming s' /\ r <> RecvErr /\ (r = TimedOut -> offered s' = [])).
Proof.
  assert (Hany : let '(s', r) := recv_any s in
    offered s ≡ₚ takes r ++ offered s' /\ (streaming s -> streaming s' /\ r <> RecvErr /\ (r = TimedOut -> sd_main s' = []))).
  { unfold recv_any. pose proof (recv_interface_offered s) as Hi. destruct (recv_interface s) as [s1 [[[d src] rs]|]].
    - destruct Hi as (H1 & H2 & H3). split; [done|]. intros Hs. by split_and!; [apply H3| |].
    - destruct Hi as (H1 & H2 & H3). simpl in H1. assert (Hm : streaming s -> Forall is_got (sd_main s1)) by (intros (? & _); by rewrite H2).
      assert (Hsets : forall r reads, sd_main s1 = r :: reads -> offered s1 = got r ++ offered (set_main reads s1)).
      { intros r reads Hr. unfold offered. rewrite Hr. simpl. by rewrite <- app_assoc. }
      assert (Hst : forall r reads, sd_main s1 = r :: reads -> streaming s -> is_got r /\ streaming (set_main reads s1)).
      { intros r reads Hr Hs. pose proof (Hm Hs) as Hf. rewrite Hr in Hf. apply Forall_cons in Hf as [? ?]. destruct (H3 Hs) as [(_ & ? & ?) _]. by split_and!. }
      destruct (sd_main s1) as [|[d src| | |] reads] eqn:Hr.
      + split; [done|]. intros Hs. split_and!; [by apply H3|done|done].
      + rewrite H1, (Hsets _ _ eq_refl). split; [done|]. intros Hs. destruct (Hst _ _ eq_refl Hs). by split_and!.
      + rewrite H1, (Hsets _ _ eq_refl). split; [done|]. intros Hs. by destruct (Hst _ _ eq_refl Hs).
      + rewrite H1, (Hsets _ _ eq_refl). split; [done|]. intros Hs. by destruct (Hst _ _ eq_refl Hs).
      + rewrite H1, (Hsets _ _ eq_refl). split; [done|]. intros Hs. by destruct (Hst _ _ eq_refl Hs). }
  unfold recv_round. destruct (recv_any s) as [s1 [d src rs| | |]]; destruct Hany as [H1 H2].
  - split; [done|]. intros Hs. destruct (H2 Hs) as (? & ? & _). by split_and!.
  - pose proof (recv_interface_offered s1) as Hi. destruct (recv_interface s1) as [s2 [[[d src] rs]|]]; destruct Hi as (H3 & H4 & H5); simpl in H1; rewrite H1.
    + split; [done|]. intros Hs. destruct (H2 Hs) as (Hs1 & _). by split_and!; [apply H5| |].
    + split; [done|]. intros Hs. destruct (H2 Hs) as (Hs1 & _ & Hm). destruct (H5 Hs1) as [Hs2 He]. split_and!; [done|done|]. intros _.
      destruct (He eq_refl) as [He1 He2]. unfold offered. rewrite H4, Hm, He1, He2 by done. done.
  - split; [done|]. intros Hs. destruct (H2 Hs) as (? & ? & _). by split_and!.
  - split; [done|]. intros Hs. by destruct (H2 Hs) as (_ & ? & _).
Qed.

Section scan_facts.
Context `{ByteOrder}.

(** Every status datagram that was taken came from an address that is listed. *)
Definition all_listed (s : DiscoverDacs) : Prop :=
  forall d a st, (d, a) ∈ sd_taken s -> is_alive_response d = false -> parse_status d a = IoOk st -> a ∈ sd_seen s.

(** A device made from a status datagram of its address. *)
Definition answered (s : DiscoverDacs) (dev : AddressedDevice) : Prop :=
  exists d, (d, ad_source_ip dev) ∈ sd_taken s /\ parse_status d (ad_source_ip dev) = IoOk (ad_status dev) /\
    dev = addressed_from (ad_source_ip dev) (ad_status dev).

Lemma next_device_loop_spec fuel s :
  (reads_left s < fuel)%nat -> all_listed s ->
  let '(s', r) := next_device_loop fuel s in
  r <> ScanFuel /\ all_listed s' /\ sd_taken s ⊆ sd_taken s' /\ (reads_left s' <= reads_left s)%nat /\
  match r with
  | Found dev => ad_source_ip dev ∉ sd_seen s /\ sd_seen s' = {[ad_source_ip dev]} ∪ sd_seen s /\ answered s' dev
  | _ => sd_seen s' = sd_seen s
  end.
Proof.
  revert s. induction fuel as [|fuel IH]; intros s Hf Hl; [lia|]. simpl. pose proof (recv_round_left s) as Hr.
  destruct (recv_round s) as [s1 r]. destruct Hr as [Hleft [Hseen Htaken]].
  assert (Hl1 : all_listed s1) by (unfold all_listed; rewrite Hseen, Htaken; exact Hl).
  destruct r as [raw src rs| | |].
  - set (d := datagram raw). set (s2 := add_taken (d, src) s1). assert (Hsub : sd_taken s ⊆ sd_taken s2) by (simpl; rewrite Htaken; set_solver).
    (* going on with a state that took this datagram and listed nobody *)
    assert (Hgo : forall s3, sd_seen s3 = sd_seen s1 -> sd_taken s3 = sd_taken s2 -> reads_left s3 = reads_left s1 ->
      (is_alive_response d = false -> forall st, parse_status d src = IoOk st -> src ∈ sd_seen s1) ->
      let '(s', r) := next_device_loop fuel s3 in
      r <> ScanFuel /\ all_listed s' /\ sd_taken s ⊆ sd_taken s' /\ (reads_left s' <= reads_left s)%nat /\
      match r with
      | Found dev => ad_source_ip dev ∉ sd_seen s /\ sd_seen s' = {[ad_source_ip dev]} ∪ sd_seen s /\ answered s' dev
      | _ => sd_seen s' = sd_seen s
      end).
    { intros s3 Hs3 Ht3 Hr3 Hd. simpl in Hleft. specialize (IH s3 ltac:(lia)). destruct (next_device_loop fuel s3) as [s' r].
      destruct IH as (H1 & H2 & H3 & H4 & H5).
      - intros d' a st. rewrite Ht3, Hs3. simpl. intros [Hin|Heq]%elem_of_app; [by apply (Hl1 d' a st)|].
        apply list_elem_of_singleton in Heq. injection Heq as -> ->. intros Ha Hp. by eapply Hd.
      - rewrite Hs3, Hseen in H5. split; [done|]. split; [done|]. split; [|split; [lia|done]]. rewrite Ht3 in H3. by etrans. }
    change (sd_seen s2) with (sd_seen s1). destruct (is_alive_response d) eqn:Ha.
    { destruct (bool_decide (src ∈ sd_seen s1)); apply Hgo; done. }
    destruct (bool_decide_reflect (src ∈ sd_seen s1)) as [Hin|Hnin]; [by apply Hgo|].
    destruct (parse_status d src) as [st|e] eqn:Hp; [|apply Hgo; try done; intros _ st Hst; congruence].
    split; [done|]. split.
    + intros d' a st'. simpl. intros [Hin'|Heq]%elem_of_app Ha' Hp'; [apply elem_of_union_r; by eapply Hl1|].
      apply list_elem_of_singleton in Heq. injection Heq as -> ->. set_solver.
    + split; [done|]. split; [change (reads_left (add_seen src s2)) with (reads_left s1); lia|]. simpl. rewrite <- Hseen.
      split; [done|]. split; [done|]. exists d. split; [apply elem_of_app; right; by left|done].
  - split; [done|]. rewrite <- Hseen, <- Htaken. split; [done|]. split; [done|]. split; [lia|done].
  - simpl in Hleft. specialize (IH s1 ltac:(lia) Hl1). destruct (next_device_loop fuel s1) as [s' r]. rewrite <- Hseen, <- Htaken.
    destruct IH as (H1 & H2 & H3 & H4 & H5). split_and!; try done; lia.
  - split; [done|]. rewrite <- Hseen, <- Htaken. split; [done|]. split; [done|]. split; [lia|done].
Qed.

Lemma answered_mono s s' dev : sd_taken s ⊆ sd_taken s' -> answered s dev -> answered s' dev.
Proof. intros Hsub (d & Hin & Hrest). exists d. split; [by apply Hsub|done]. Qed.

Lemma next_device_conserves fuel : forall s, let s' := (next_device_loop fuel s).1 in offered s' ++ sd_taken s' ≡ₚ offered s ++ sd_taken s.
Proof.
  induction fuel as [|fuel IH]; intros s; [done|]. cbn [next_device_loop]. pose proof (recv_round_offered s) as Hr. pose proof (recv_round_left s) as Ht.
  destruct (recv_round s) as [s1 r]. destruct Hr as [Ho _], Ht as [_ [_ Ht]]. rewrite Ho, <- Ht. destruct r as [raw src rs| | |]; [|done|by apply IH|done].
  set (s2 := add_taken (datagram raw, src) s1).
  assert (H2 : offered s2 ++ sd_taken s2 ≡ₚ (takes (Received raw src rs) ++ offered s1) ++ sd_taken s1).
  { change (offered s2) with (offered s1). change (sd_taken s2) with (sd_taken s1 ++ [(datagram raw, src)]). simpl. rewrite app_assoc. symmetry. apply Permutation_cons_append. }
  rewrite <- H2. destruct (is_alive_response _); [destruct (bool_decide _); [apply IH|exact (IH (send_full_info rs src s2))]|]. destruct (bool_decide _); [apply IH|].
  destruct (parse_status _ src); [done|apply IH].
Qed.

Lemma next_device_streams fuel : forall s, streaming s ->
  let '(s', r) := next_device_loop fuel s in streaming s' /\ r <> ScanFailed /\ (r = ScanTimedOut -> offered s' = []).
Proof.
  induction fuel as [|fuel IH]; intros s Hs; [done|]. cbn [next_device_loop]. pose proof (recv_round_offered s) as Hr.
  destruct (recv_round s) as [s1 r]. destruct Hr as [_ Hr]. destruct (Hr Hs) as (Hs1 & Hne & Hto). destruct r as [raw src rs| | |]; [|by split_and!; [| |intros _; apply Hto]|by apply IH|done].
  destruct (is_alive_response _); [destruct (bool_decide _); by apply IH|]. destruct (bool_decide _); [by apply IH|].
  destruct (parse_status _ src); [done|by apply IH].
Qed.

Lemma scan_rounds_spec n s :
  all_listed s ->
  exists s' ds, scan_rounds n s = Some (s', ds) /\
  (length ds <= n)%nat /\ NoDup (ad_source_ip <$> ds) /\ (forall a, a ∈ ad_source_ip <$> ds -> a ∉ sd_seen s) /\
  sd_seen s' = list_to_set (ad_source_ip <$> ds) ∪ sd_seen s /\ Forall (answered s') ds /\ all_listed s' /\ sd_taken s ⊆ sd_taken s' /\
  offered s' ++ sd_taken s' ≡ₚ offered s ++ sd_taken s /\ (streaming s -> (length ds < n)%nat -> offered s' = []).
Proof.
  revert s. induction n as [|n IH]; intros s Hl; simpl.
  - exists s, []. split; [done|]. split; [simpl; lia|]. split; [constructor|]. split; [set_solver|]. split; [set_solver|]. split; [constructor|].
    split_and!; try done. simpl. lia.
  - unfold next_device. pose proof (next_device_loop_spec (S (reads_left s)) s ltac:(lia) Hl) as Hn.
    pose proof (next_device_conserves (S (reads_left s)) s) as Hc. pose proof (next_device_streams (S (reads_left s)) s) as Hb.
    destruct (next_device_loop _ s) as [s1 r]. destruct Hn as (Hfuel & Hl1 & Hsub & _ & Hr). cbn [fst] in Hc. destruct r as [dev| | |]; [| | |done].
    + destruct Hr as (Hnew & Hseen & Hans). destruct (IH s1 Hl1) as (s2 & ds & -> & Hlen & Hnd & Hdis & Hs2 & Hall & Hl2 & Hsub2 & Hc2 & Hb2).
      exists s2, (dev :: ds). simpl. split; [done|]. split; [lia|]. split; [|split; [|split; [|split; [|split; [|split; [|split]]]]]].
      * apply NoDup_cons. split; [|done]. intros Hin. apply (Hdis _ Hin). rewrite Hseen. set_solver.
      * intros a [->|Ha]%elem_of_cons; [done|]. specialize (Hdis a Ha). rewrite Hseen in Hdis. set_solver.
      * rewrite Hs2, Hseen. set_solver.
      * constructor; [by eapply answered_mono|done].
      * done.
      * by etrans.
      * by rewrite Hc2.
      * intros Hs Hlt. apply Hb2; [by apply Hb|lia].
    + exists s1, []. split; [done|]. split; [simpl; lia|]. split; [constructor|]. split; [set_solver|]. split; [rewrite Hr; set_solver|]. split; [constructor|].
      split_and!; try done. intros Hs _. by apply Hb.
    + destruct (IH s1 Hl1) as (s2 & ds & -> & Hlen & Hnd & Hdis & Hs2 & Hall & Hl2 & Hsub2 & Hc2 & Hb2). exists s2, ds.
      rewrite Hr in Hdis, Hs2. split; [done|]. split; [lia|]. split_and!; try done; [by etrans|by rewrite Hc2|]. intros Hs. by destruct (Hb Hs) as (_ & ? & _).
Qed.

(** C34. A scan ends: for every sequence of datagrams, timeouts and errors on its sockets
    (the loop for the next device has no deadline, and ends because the traffic does),
    with at most ten devices of pairwise different addresses, each as its own status
    datagram says.  Every datagram offered to the sockets, other than those this host
    sent to the passive listener itself, was taken or is still unread; of those taken,
    no status datagram is ignored: its sender is listed; and when fewer than ten
    devices were found and no read failed or timed out in between, none is left unread. *)
Theorem net_scan_lists_each_once (main passive : list dg_read) (interfaces : list (Z * list dg_read)) :
  let s0 := mkDiscover main interfaces (Some passive) ∅ [] [] in
  exists s ds, scan_rounds SCAN_ROUNDS s0 = Some (s, ds) /\
  (length ds <= 10)%nat /\ NoDup (ad_source_ip <$> ds) /\ Forall (answered s) ds /\
  offered s0 ≡ₚ sd_taken s ++ offered s /\
  (forall d a st, (d, a) ∈ sd_taken s -> is_alive_response d = false -> parse_status d a = IoOk st -> a ∈ ad_source_ip <$> ds) /\
  (streaming s0 -> (length ds < 10)%nat -> offered s = []).
Proof.
  intros s0. assert (H0 : all_listed s0) by (intros d a st Hin; by apply not_elem_of_nil in Hin).
  destruct (scan_rounds_spec SCAN_ROUNDS s0 H0) as (s & ds & Hrun & Hlen & Hnd & _ & Hseen & Hall & Hl & _ & Hc & Hb). exists s, ds.
  split; [done|]. split; [done|]. split; [done|]. split; [done|]. split; [change (sd_taken s0) with (@nil (list Z * Z)) in Hc; rewrite app_nil_r in Hc; rewrite <- Hc; apply Permutation_app_comm|].
  split; [|done]. intros d a st Hin Ha Hp. specialize (Hl d a st Hin Ha Hp). rewrite Hseen in Hl.
  apply elem_of_union in Hl as [Hl|Hl]; [by apply elem_of_list_to_set in Hl|by apply not_elem_of_empty in Hl].
Qed.
End scan_facts.

(** ** A scan, executed *)
Module ScanDemo.
(** A status datagram, as long as the parser asks for. *)
Definition status : list Z := CMD_GET_FULL_INFO :: 0 :: 0 :: replicate 61 1.
(** A sign of life, the device's status and an unreadable datagram at the main
    socket, another device at an interface, and this host's own request. *)
Definition socket : DiscoverDacs :=
  mkDiscover [DgGot [CMD_ALIVE; 0] 7; DgGot status 7; DgGot [1; 2; 3] 9; DgGot status 7] [(5, [DgGot status 8])]
    (Some [DgGot [CMD_ALIVE] 5]) ∅ [] [].
End ScanDemo.

Lemma scan_demo_run : option_map (fun r => map ad_source_ip r.2) (@scan_rounds stdlib_byte_order SCAN_ROUNDS ScanDemo.socket) = Some [8; 7].
Proof. vm_compute. reflexivity. Qed.

Lemma net_scan_lists_each_once_witness :
  streaming ScanDemo.socket /\
  exists s ds, @scan_rounds stdlib_byte_order SCAN_ROUNDS ScanDemo.socket = Some (s, ds) /\ ad_source_ip <$> ds = [8; 7] /\
    offered s = [] /\ length (sd_taken s) = 5%nat.
Proof.
  assert (Hs : streaming ScanDemo.socket) by (unfold streaming; simpl; repeat constructor).
  split; [exact Hs|].
  destruct (@net_scan_lists_each_once stdlib_byte_order (sd_main ScanDemo.socket) [DgGot [CMD_ALIVE] 5] (sd_interfaces ScanDemo.socket))
    as (s & ds & Hrun & _ & _ & _ & Hc & _ & Hall). change (mkDiscover _ _ _ _ _ _) with ScanDemo.socket in Hrun, Hc, Hall.
  pose proof scan_demo_run as Hd. rewrite Hrun in Hd. injection Hd as Hd. exists s, ds. split; [exact Hrun|]. split; [exact Hd|].
  assert (Hl : (length ds < 10)%nat) by (rewrite <- (length_fmap ad_source_ip ds); change (ad_source_ip <$> ds) with (map ad_source_ip ds); rewrite Hd; simpl; lia).
  specialize (Hall Hs Hl). split; [exact Hall|]. rewrite Hall, app_nil_r in Hc. apply Permutation_length in Hc. rewrite <- Hc. vm_compute. reflexivity.
Defined.
