(* ===== verification/Sessions.v ===== *)
(** * Starting and ending sessions

    Models [src/src/config.rs] (the stream configuration), [Stream] and the
    starting half of [Dac] of [src/src/stream/mod.rs], and
    [src/src/presentation/session.rs]: how a backend is prepared for a session, what
    a refusal leaves behind, the inputs the driver gets and the reconnect
    validators.  The theorems compose this with the driver, from the device that was
    opened to the end of the session. *)

From stdpp Require Import strings.
From S2P Require Import Prelude Floats Point Presentation Engine ColorDelay Session Backend ContentSource SlicePipeline ChunkProducer World OutputModel Driver Discovery.

#[local] Open Scope Z_scope.

(** ** Configuration *)

(** [ReconnectConfig]; the callbacks act only through the control. *)
Record ReconnectConfig := mkReconnect {
  rc_max_retries : option Z;
  rc_backoff : Z;
}.

Definition ReconnectConfig_new : ReconnectConfig := mkReconnect None (NANOS_PER_SEC).

Record StreamConfig := mkStreamConfig {
  sc_pps : Z;
  sc_target_buffer : Z;
  sc_idle_policy : IdlePolicy;
  sc_drain_timeout : Z;
  sc_color_delay : Z;
  sc_startup_blank : Z;
  sc_reconnect : option ReconnectConfig;
}.

Definition DEFAULT_TARGET_BUFFER : Z := millis 20.
Definition NETWORK_DEFAULT_TARGET_BUFFER : Z := millis 50.
Definition ETHER_DREAM_DEFAULT_TARGET_BUFFER : Z := millis 80.
Definition LASERCUBE_NETWORK_DEFAULT_TARGET_BUFFER : Z := millis 120.

Definition default_target_buffer_for (t : DacType) (m : OutputModel) : Z :=
  match t with
  | LaserCubeNetwork => LASERCUBE_NETWORK_DEFAULT_TARGET_BUFFER
  | EtherDream => ETHER_DREAM_DEFAULT_TARGET_BUFFER
  | Custom _ => DEFAULT_TARGET_BUFFER
  | _ => match m with UsbFrameSwap => DEFAULT_TARGET_BUFFER | _ => NETWORK_DEFAULT_TARGET_BUFFER end
  end.

Definition StreamConfig_new (pps : Z) : StreamConfig :=
  mkStreamConfig pps DEFAULT_TARGET_BUFFER Blank NANOS_PER_SEC 0 (millis 1) None.

Definition with_target_buffer (d : Z) (c : StreamConfig) : StreamConfig :=
  mkStreamConfig (sc_pps c) d (sc_idle_policy c) (sc_drain_timeout c) (sc_color_delay c) (sc_startup_blank c) (sc_reconnect c).

Definition with_idle_policy (p : IdlePolicy) (c : StreamConfig) : StreamConfig :=
  mkStreamConfig (sc_pps c) (sc_target_buffer c) p (sc_drain_timeout c) (sc_color_delay c) (sc_startup_blank c) (sc_reconnect c).

Definition with_drain_timeout (d : Z) (c : StreamConfig) : StreamConfig :=
  mkStreamConfig (sc_pps c) (sc_target_buffer c) (sc_idle_policy c) d (sc_color_delay c) (sc_startup_blank c) (sc_reconnect c).

Definition with_color_delay (d : Z) (c : StreamConfig) : StreamConfig :=
  mkStreamConfig (sc_pps c) (sc_target_buffer c) (sc_idle_policy c) (sc_drain_timeout c) d (sc_startup_blank c) (sc_reconnect c).

Definition with_startup_blank (d : Z) (c : StreamConfig) : StreamConfig :=
  mkStreamConfig (sc_pps c) (sc_target_buffer c) (sc_idle_policy c) (sc_drain_timeout c) (sc_color_delay c) d (sc_reconnect c).

Definition with_reconnect (r : ReconnectConfig) (c : StreamConfig) : StreamConfig :=
  mkStreamConfig (sc_pps c) (sc_target_buffer c) (sc_idle_policy c) (sc_drain_timeout c) (sc_color_delay c) (sc_startup_blank c) (Some r).

Definition take_reconnect (c : StreamConfig) : StreamConfig * option ReconnectConfig :=
  (mkStreamConfig (sc_pps c) (sc_target_buffer c) (sc_idle_policy c) (sc_drain_timeout c) (sc_color_delay c) (sc_startup_blank c) None, sc_reconnect c).

(** A duration as the configuration stores it, in units of [unit] nanoseconds, and
    back. *)
Definition serialize_duration (unit d : Z) : Z := Z.min (umax 64) (d / unit).

Definition deserialize_duration (unit v : Z) : Z := v * unit.

(** What comes back of a stored configuration: the reconnect settings are not
    stored. *)
Definition stored (c : StreamConfig) : StreamConfig :=
  let ms d := deserialize_duration (millis 1) (serialize_duration (millis 1) d) in
  let us d := deserialize_duration (micros 1) (serialize_duration (micros 1) d) in
  mkStreamConfig (sc_pps c) (ms (sc_target_buffer c)) (sc_idle_policy c) (ms (sc_drain_timeout c)) (us (sc_color_delay c)) (us (sc_startup_blank c)) None.

(** [FrameSessionConfig], with filters of type [F]. *)
Record FrameSessionConfig (F : Type) := mkFrameConfig {
  fc_pps : Z;
  fc_transition_fn : TransitionFn;
  fc_startup_blank : Z;
  fc_color_delay : Z;
  fc_reconnect : option ReconnectConfig;
  fc_idle_policy : IdlePolicy;
  fc_output_filter : option F;
}.
Arguments mkFrameConfig {F}.
Arguments fc_pps {F}.
Arguments fc_transition_fn {F}.
Arguments fc_startup_blank {F}.
Arguments fc_color_delay {F}.
Arguments fc_reconnect {F}.
Arguments fc_idle_policy {F}.
Arguments fc_output_filter {F}.

Definition FrameSessionConfig_new {F} (pps : Z) : FrameSessionConfig F :=
  mkFrameConfig pps default_transition (millis 1) 0 None Blank None.

Definition frame_with_transition_fn {F} (f : TransitionFn) (c : FrameSessionConfig F) : FrameSessionConfig F :=
  mkFrameConfig (fc_pps c) f (fc_startup_blank c) (fc_color_delay c) (fc_reconnect c) (fc_idle_policy c) (fc_output_filter c).

Definition frame_with_startup_blank {F} (d : Z) (c : FrameSessionConfig F) : FrameSessionConfig F :=
  mkFrameConfig (fc_pps c) (fc_transition_fn c) d (fc_color_delay c) (fc_reconnect c) (fc_idle_policy c) (fc_output_filter c).

Definition frame_with_color_delay {F} (d : Z) (c : FrameSessionConfig F) : FrameSessionConfig F :=
  mkFrameConfig (fc_pps c) (fc_transition_fn c) (fc_startup_blank c) d (fc_reconnect c) (fc_idle_policy c) (fc_output_filter c).

Definition frame_with_reconnect {F} (r : ReconnectConfig) (c : FrameSessionConfig F) : FrameSessionConfig F :=
  mkFrameConfig (fc_pps c) (fc_transition_fn c) (fc_startup_blank c) (fc_color_delay c) (Some r) (fc_idle_policy c) (fc_output_filter c).

Definition frame_with_idle_policy {F} (p : IdlePolicy) (c : FrameSessionConfig F) : FrameSessionConfig F :=
  mkFrameConfig (fc_pps c) (fc_transition_fn c) (fc_startup_blank c) (fc_color_delay c) (fc_reconnect c) p (fc_output_filter c).

Definition frame_with_output_filter {F} (f : F) (c : FrameSessionConfig F) : FrameSessionConfig F :=
  mkFrameConfig (fc_pps c) (fc_transition_fn c) (fc_startup_blank c) (fc_color_delay c) (fc_reconnect c) (fc_idle_policy c) (Some f).

(** ** Metrics of a session *)

Record FrameSessionMetrics := mkMetrics {
  fm_connected : bool;
  fm_origin : Z;
  fm_loop_activity : Z;
  fm_write_success : Z;
}.

Definition now_nanos (now : Z) (m : FrameSessionMetrics) : Z := Z.max 1 (Z.min (umax 64) (sat_sub now (fm_origin m))).

Definition mark_loop_activity (now : Z) (m : FrameSessionMetrics) : FrameSessionMetrics :=
  mkMetrics (fm_connected m) (fm_origin m) (now_nanos now m) (fm_write_success m).

Definition mark_write_success (now : Z) (m : FrameSessionMetrics) : FrameSessionMetrics :=
  mkMetrics (fm_connected m) (fm_origin m) (now_nanos now m) (now_nanos now m).

Definition metrics_set_connected (now : Z) (connected : bool) (m : FrameSessionMetrics) : FrameSessionMetrics :=
  mark_loop_activity now (mkMetrics connected (fm_origin m) (fm_loop_activity m) (fm_write_success m)).

Definition metrics_new (now : Z) (connected : bool) : FrameSessionMetrics := mark_loop_activity now (mkMetrics connected now 0 0).

Definition instant_from_nanos (m : FrameSessionMetrics) (nanos : Z) : option Z := if nanos =? 0 then None else Some (fm_origin m + nanos).

Definition last_loop_activity (m : FrameSessionMetrics) : option Z := instant_from_nanos m (fm_loop_activity m).

Definition last_write_success (m : FrameSessionMetrics) : option Z := instant_from_nanos m (fm_write_success m).

(** ** Preparing a backend *)

(** The commands a backend got before the driver owns it. *)
Inductive start_event :=
  | StConnect (ok : bool)
  | StShutter (open ok : bool)
  | StStop
  | StDisconnect.

(** As the driver's trace has them. *)
Definition to_event (e : start_event) : list event :=
  match e with
  | StConnect _ => []
  | StShutter open ok => [EvShutter open ok]
  | StStop => [EvStop]
  | StDisconnect => [EvDisconnect]
  end.

Definition to_events (tr : list start_event) : list event := tr ≫= to_event.

Section sessions.
Context {D FB SB : Type} `{FifoBackend FB} `{FrameSwapBackend SB}.
Abbreviation Kind := (BackendKind FB SB).
Abbreviation Dac := (Dac D FB SB).

(** A backend being prepared, with its commands so far. *)
Record Prep := mkPrep { p_kind : Kind; p_trace : list start_event }.

Definition p_connect (p : Prep) : Prep * result unit :=
  let '(k, r) := connect (p_kind p) in (mkPrep k (p_trace p ++ [StConnect (is_ok r)]), r).

Definition p_set_shutter (open : bool) (p : Prep) : Prep * result unit :=
  let '(k, r) := set_shutter open (p_kind p) in (mkPrep k (p_trace p ++ [StShutter open (is_ok r)]), r).

Definition p_stop (p : Prep) : Prep * result unit :=
  let '(k, r) := stop_backend (p_kind p) in (mkPrep k (p_trace p ++ [StStop]), r).

Definition p_disconnect (p : Prep) : Prep * result unit :=
  let '(k, r) := disconnect (p_kind p) in (mkPrep k (p_trace p ++ [StDisconnect]), r).

Definition p_close_and_disconnect (p : Prep) : Prep := (p_disconnect (p_set_shutter false p).1).1.

(** A started session or the error it was refused with, and the commands sent. *)
Definition refused {A} (e : Error) (p : Prep) : result A * list start_event := (Err e, p_trace (p_close_and_disconnect p)).

(** [ReconnectPolicy] with its target. *)
Record SessionPolicy := mkSessionPolicy {
  sp_policy : ReconnectPolicy;
  sp_target : ReconnectTarget D;
}.

Definition ReconnectPolicy_new (rc : ReconnectConfig) (t : ReconnectTarget D) : SessionPolicy :=
  mkSessionPolicy (mkPolicy (rc_max_retries rc) (rc_backoff rc)) t.

Definition validate_pps (c : DacCapabilities) (pps : Z) : result unit :=
  if (pps <? pps_min c) || (pps_max c <? pps) then Err (ErrInvalidConfig "PPS is outside device range") else Ok tt.

Definition no_target : Error := ErrInvalidConfig "reconnect requires a reconnect target".

(** ** [Stream] *)

Record Stream := mkStream {
  ss_info : DacInfo;
  ss_backend : option Kind;
  ss_config : StreamConfig;
  ss_control : SessionControl;
  ss_stats : StreamStats;
  ss_reconnect_policy : option SessionPolicy;
  ss_reconnect_target : option (ReconnectTarget D);
}.

Definition with_backend (info : DacInfo) (k : Kind) (cfg : StreamConfig) : Stream :=
  mkStream info (Some k) cfg
    (new_with_pps_bounds (sc_color_delay cfg) (sc_pps cfg) (pps_min (info_caps info)) (pps_max (info_caps info)))
    (mkStats 0 0 0 0) None None.

Definition apply_backend_buffer_defaults (info : DacInfo) (cfg : StreamConfig) : StreamConfig :=
  if sc_target_buffer cfg =? DEFAULT_TARGET_BUFFER
  then with_target_buffer (default_target_buffer_for (info_kind info) (output_model (info_caps info))) cfg
  else cfg.

Definition with_live_caps (info : DacInfo) (k : Kind) : DacInfo := mkInfo (info_id info) (info_name info) (info_kind info) (caps k).

(** The end of [start_stream], on a connected and closed backend. *)
Definition make_stream (cfg : StreamConfig) (rc : option ReconnectConfig) (d : Dac) (p : Prep) : result (Stream * DacInfo) * list start_event :=
  let info := with_live_caps (dac_dac_info d) (p_kind p) in
  let cfg := apply_backend_buffer_defaults info cfg in
  match validate_pps (info_caps info) (sc_pps cfg) with
  | Err e => refused e p
  | Ok _ =>
      let s := with_backend info (p_kind p) cfg in
      let target := dac_reconnect_target d in
      match rc, target with
      | Some rc, Some t => (Ok (mkStream (ss_info s) (ss_backend s) cfg (ss_control s) (ss_stats s) (Some (ReconnectPolicy_new rc t)) None, info), p_trace p)
      | Some _, None => refused no_target p
      | None, t => (Ok (mkStream (ss_info s) (ss_backend s) cfg (ss_control s) (ss_stats s) None t, info), p_trace p)
      end
  end.

Definition start_stream (cfg : StreamConfig) (d : Dac) : result (Stream * DacInfo) * list start_event :=
  let '(cfg, rc) := take_reconnect cfg in
  match dac_backend d with
  | None => (Err (ErrInvalidConfig "device backend has already been used for a stream"), [])
  | Some k =>
      let p := mkPrep k [] in
      match validate_output_model k with
      | Err e => refused e p
      | Ok _ =>
          if is_frame_swap k then refused (ErrInvalidConfig "streaming is not supported on frame-swap DACs") p
          else
            let '(p, r) := if is_connected k then (p, Ok tt) else p_connect p in
            match r with
            | Err e => refused e p
            | Ok _ =>
                let '(p, r) := p_set_shutter false p in
                match r with
                | Err e => refused e p
                | Ok _ => make_stream cfg rc d p
                end
            end
      end
  end.

(** [Stream::shutdown_backend]. *)
Definition shutdown_backend (s : Stream) : Stream * list start_event :=
  let c := (Session.stop (disarm (ss_control s)).1).1 in
  let '(k, tr) := match ss_backend s with
    | None => (None, [])
    | Some k => let p := (p_stop (p_set_shutter false (mkPrep k [])).1).1 in (Some (p_kind p), p_trace p)
    end in
  (mkStream (ss_info s) k (ss_config s) c (ss_stats s) (ss_reconnect_policy s) (ss_reconnect_target s), tr).

Definition stream_stop (s : Stream) : Stream * result unit * list start_event :=
  let '(s, tr) := shutdown_backend s in
  match ss_backend s with
  | None => (s, Ok tt, tr)
  | Some k =>
      let '(p, r) := p_disconnect (mkPrep k tr) in
      (mkStream (ss_info s) (Some (p_kind p)) (ss_config s) (ss_control s) (ss_stats s) (ss_reconnect_policy s) (ss_reconnect_target s), r, p_trace p)
  end.

(** Dropping a stream. *)
Definition stream_drop (s : Stream) : list start_event := (stream_stop s).2.

(** The target a stream can be reopened with, used for reconnecting or not. *)
Definition stream_target (s : Stream) : option (ReconnectTarget D) :=
  match ss_reconnect_target s with Some t => Some t | None => sp_target <$> ss_reconnect_policy s end.

Definition into_dac (s : Stream) : Dac * StreamStats * list start_event :=
  let '(s, tr) := shutdown_backend s in
  (mkDac (ss_info s) (ss_backend s) (stream_target s), ss_stats s, tr).

(** [Stream::status] at [now]: connected, and the points buffered. *)
Definition status (now : Z) (s : Stream) : bool * Z :=
  (match ss_backend s with Some k => is_connected k | None => false end,
   match ss_backend s with
   | Some (Fifo b) => estimated_fullness b now (sc_pps (ss_config s))
   | _ => 0
   end).

(** [Stream::build_reconnect_validator]. *)
Definition build_reconnect_validator (m : OutputModel) (_ : DacInfo) (k : Kind) (pps : Z) : option SessionExit :=
  if is_frame_swap k then Some ExitIncompatibleDevice
  else if bool_decide (output_model (caps k) <> m) then Some ExitIncompatibleDevice
  else match validate_pps (caps k) pps with Err _ => Some ExitIncompatibleDevice | Ok _ => None end.

(** ** The frame session *)

(** [FrameSession::reconnect_validator]. *)
Definition reconnect_validator (m : OutputModel) (info : DacInfo) (k : Kind) (pps : Z) : option SessionExit :=
  if bool_decide (output_model (caps k) <> m) then Some ExitIncompatibleDevice
  else if (pps <? pps_min (info_caps info)) || (pps_max (info_caps info) <? pps) then Some ExitIncompatibleDevice
  else None.

Definition target_buffer_for_backend (t : DacType) (k : Kind) : Z := default_target_buffer_for t (output_model (caps k)).

(** What a started frame session holds; the thread owns the backend. *)
Record FrameSession := mkFrameSession {
  fs_control : SessionControl;
  fs_metrics : FrameSessionMetrics;
  fs_backend : Kind;
  fs_policy : option SessionPolicy;
}.

(** Dropping a session asks its thread to stop, and waits for it. *)
Definition session_drop (s : FrameSession) : FrameSession :=
  mkFrameSession (Session.stop (fs_control s)).1 (fs_metrics s) (fs_backend s) (fs_policy s).

(** [FrameSession::join]: the thread was joined before, panicked, or returned. *)
Definition frame_join (thread : option (option (result SessionExit))) : result SessionExit :=
  match thread with
  | None => Ok ExitStopped
  | Some r => default (Err (ErrDisconnected "thread panicked")) r
  end.

(** [FrameSession::start]; [spawn] is the error of starting the thread, if any. *)
Definition frame_start {F} (now : Z) (spawn : option Error) (cfg : FrameSessionConfig F) (policy : option SessionPolicy) (p : Prep) :
    result FrameSession * list start_event :=
  match validate_output_model (p_kind p) with
  | Err e => refused e p
  | Ok _ =>
      let '(p, r) :=
        if is_connected (p_kind p) then (p, Ok tt)
        else let '(p, r) := p_connect p in match r with Err e => (p, Err e) | Ok _ => p_set_shutter false p end in
      match r with
      | Err e => refused e p
      | Ok _ =>
          match spawn with
          | Some e => refused e p
          | None =>
              (Ok (mkFrameSession
                 (new_with_pps_bounds (fc_color_delay cfg) (fc_pps cfg) (pps_min (caps (p_kind p))) (pps_max (caps (p_kind p))))
                 (metrics_new now (is_connected (p_kind p))) (p_kind p) policy), p_trace p)
          end
      end
  end.

(** The end of [Dac::start_frame_session], on a connected and closed backend. *)
Definition make_frame_session {F} (now : Z) (spawn : option Error) (cfg : FrameSessionConfig F) (d : Dac) (p : Prep) :
    result (FrameSession * DacInfo) * list start_event :=
  match validate_pps (caps (p_kind p)) (fc_pps cfg) with
  | Err e => refused e p
  | Ok _ =>
      let info := with_live_caps (dac_dac_info d) (p_kind p) in
      let go policy :=
        let '(r, tr) := frame_start now spawn cfg policy p in
        (match r with Ok s => Ok (s, info) | Err e => Err e end, tr) in
      match fc_reconnect cfg, dac_reconnect_target d with
      | Some rc, Some t => go (Some (ReconnectPolicy_new rc t))
      | Some _, None => refused no_target p
      | None, _ => go None
      end
  end.

Definition start_frame_session {F} (now : Z) (spawn : option Error) (cfg : FrameSessionConfig F) (d : Dac) :
    result (FrameSession * DacInfo) * list start_event :=
  match dac_backend d with
  | None => (Err (ErrInvalidConfig "device backend has already been used for a session"), [])
  | Some k =>
      let p := mkPrep k [] in
      match validate_output_model k with
      | Err e => refused e p
      | Ok _ =>
          let '(p, r) := if is_connected k then (p, Ok tt) else p_connect p in
          match r with
          | Err e => refused e p
          | Ok _ =>
              let '(p, r) := p_set_shutter false p in
              match r with
              | Err e => refused e p
              | Ok _ => make_frame_session now spawn cfg d p
              end
          end
      end
  end.
End sessions.

Arguments mkPrep {FB SB}.
Arguments Prep : clear implicits.
Arguments Stream : clear implicits.
Arguments FrameSession : clear implicits.
Arguments SessionPolicy : clear implicits.

(** ** Running a session *)

(** A session that never reached the driver, or what the driver did. *)
Inductive ran (FB SB S FS : Type) :=
  | NotDriven (r : result SessionExit) (tr : list start_event)
  | Driven (o : outcome FB SB S FS (result SessionExit)).
Arguments NotDriven {FB SB S FS} r tr.
Arguments Driven {FB SB S FS} o.

Section running.
Context {D FB SB : Type} `{FifoBackend FB} `{FrameSwapBackend SB}.
Context (sentinel_instant : Z) (fuel retries spin : nat).

(** [Stream::run]: other threads' interference [env] and the answers of discovery
    [opens] come from outside; [FS] is the frame source a stream does not have. *)
Definition stream_run {P FS} `{FillFn P} `{FrameContentSource FS} (now : Z) (env : list interference)
    (opens : list (result (DacInfo * option (BackendKind FB SB)))) (producer : P) (tr : list start_event) (s : Stream D FB SB) :
    ran FB SB (ChunkProducer P) FS :=
  match ss_backend s with
  | None => NotDriven (Err (ErrDisconnected "backend already consumed")) tr
  | Some k =>
      if is_frame_swap k then
        NotDriven (Err (ErrInvalidConfig "Stream::run is FIFO-only")) (p_trace (p_close_and_disconnect (mkPrep k tr)))
      else
        let cfg := ss_config s in
        let source := new_producer producer (sc_idle_policy cfg) (sc_startup_blank cfg)
          (Z.to_nat (max_points_per_chunk (info_caps (ss_info s)))) (ss_stats s) in
        Driven (run sentinel_instant fuel retries spin
          (mkConfig (sp_policy <$> ss_reconnect_policy s) (build_reconnect_validator (output_model (info_caps (ss_info s))))
             (sc_target_buffer cfg) (sc_drain_timeout cfg))
          (mkWorld (ss_control s) env now k (SrcFifo source) Closed initial_desired None None opens (to_events tr)))
  end.

(** The presentation pipeline of a frame session on [k]. *)
Definition session_pipeline {F} `{OutputFilter F} (cfg : FrameSessionConfig F) (k : BackendKind FB SB) : SlicePipeline F :=
  let e := new_engine (fc_transition_fn cfg) in
  let e := if is_frame_swap k then set_frame_capacity (frame_capacity k) e else e in
  let capacity := match output_model (caps k) with
    | UsbFrameSwap => default 0%nat (frame_capacity k)
    | _ => Z.to_nat (max_points_per_chunk (caps k))
    end in
  reset_output_filter SessionStart
    (new_pipeline e (fc_color_delay cfg) (fc_output_filter cfg) (fc_idle_policy cfg) capacity (fc_startup_blank cfg)).

(** [FrameSession::run_loop], on the thread; [meanwhile] is what became of the
    device before the thread took it over. *)
Definition frame_run_loop {F} `{OutputFilter F} (now : Z) (env : list interference)
    (opens : list (result (DacInfo * option (BackendKind FB SB)))) (t : DacType) (meanwhile : BackendKind FB SB -> BackendKind FB SB)
    (cfg : FrameSessionConfig F) (tr : list start_event) (s : FrameSession D FB SB) :
    ran FB SB (SlicePipeline F) (SlicePipeline F) :=
  let k := meanwhile (fs_backend s) in
  let pipeline := session_pipeline cfg k in
  let source := if is_frame_swap k then SrcFrame pipeline else SrcFifo pipeline in
  let m := output_model (caps k) in
  let '(p, r) := if is_connected k then (mkPrep k tr, Ok tt) else p_connect (mkPrep k tr) in
  match r with
  | Err e => NotDriven (Err e) (p_trace p)
  | Ok _ =>
      Driven (run sentinel_instant fuel retries spin
        (mkConfig (sp_policy <$> fs_policy s) (reconnect_validator m) (target_buffer_for_backend t (p_kind p)) 0)
        (mkWorld (fs_control s) env now (p_kind p) source Closed initial_desired None (Some None) opens (to_events (p_trace p))))
  end.
End running.

(** ** Starting *)

Definition never_opened (tr : list start_event) : Prop := Forall (fun e => match e with StShutter true _ => False | _ => True end) tr.

(** The backend was closed and disconnected in the end. *)
Definition given_up (tr : list start_event) : Prop := exists tr0 ok, tr = tr0 ++ [StShutter false ok; StDisconnect].

#[local] Instance shutter_event_dec (e : start_event) : Decision (match e with StShutter _ _ => True | _ => False end).
Proof. destruct e; apply _. Defined.

(** How often the shutter was commanded. *)
Definition closings (tr : list start_event) : nat := length (filter (fun e => match e with StShutter _ _ => True | _ => False end) tr).

Section starting.
Context {D FB SB : Type} `{FifoBackend FB} `{FrameSwapBackend SB}.
Implicit Types p : Prep FB SB.

Lemma never_opened_snoc tr e : never_opened tr -> (forall ok, e <> StShutter true ok) -> never_opened (tr ++ [e]).
Proof. intros Ht He. apply Forall_app. split; [done|]. constructor; [|constructor]. destruct e as [|[]| |]; try done. by eapply He. Qed.

Lemma p_connect_trace p : never_opened (p_trace p) -> never_opened (p_trace (p_connect p).1).
Proof. intros Hp. unfold p_connect. destruct (connect (p_kind p)). by apply never_opened_snoc. Qed.

Lemma p_close_trace p :
  never_opened (p_trace p) ->
  let '(p', r) := p_set_shutter false p in never_opened (p_trace p') /\ (r = Ok tt -> last (p_trace p') = Some (StShutter false true)).
Proof.
  intros Hp. unfold p_set_shutter. destruct (set_shutter false (p_kind p)) as [k r]. simpl. split; [by apply never_opened_snoc|].
  intros ->. by rewrite last_snoc.
Qed.

Lemma refused_trace {A} e p : never_opened (p_trace p) ->
  exists tr, @refused FB SB _ _ A e p = (Err e, tr) /\ never_opened tr /\ given_up tr.
Proof.
  intros Hp. unfold refused, p_close_and_disconnect, p_disconnect, p_set_shutter. destruct (set_shutter false (p_kind p)) as [k r].
  simpl. destruct (disconnect k) as [k' r']. simpl. eexists. split; [done|]. split.
  - apply never_opened_snoc; [|done]. by apply never_opened_snoc.
  - exists (p_trace p), (is_ok r). by rewrite <- app_assoc.
Qed.

Lemma p_close_frame_swap p : is_frame_swap (p_kind (p_set_shutter false p).1) = is_frame_swap (p_kind p).
Proof.
  unfold p_set_shutter. pose proof (on_kind_frame_swap (backend_set_shutter false) (backend_set_shutter false) (p_kind p)) as Hf.
  unfold set_shutter. destruct (on_kind _ _ (p_kind p)). exact Hf.
Qed.

Lemma closings_snoc tr e : closings (tr ++ [e]) = (closings tr + match e with StShutter _ _ => 1 | _ => 0 end)%nat.
Proof. unfold closings. rewrite filter_app, length_app. by destruct e. Qed.

Lemma p_connect_closings p : closings (p_trace (p_connect p).1) = closings (p_trace p).
Proof. unfold p_connect. destruct (connect (p_kind p)). simpl. rewrite closings_snoc. lia. Qed.

Lemma p_close_closings p : closings (p_trace (p_set_shutter false p).1) = S (closings (p_trace p)).
Proof. unfold p_set_shutter. destruct (set_shutter false (p_kind p)). simpl. rewrite closings_snoc. lia. Qed.

Lemma connect_frame_swap (k : BackendKind FB SB) : is_frame_swap (connect k).1 = is_frame_swap k.
Proof.
  unfold connect. destruct (validate_output_model k); [|done]. pose proof (on_kind_frame_swap backend_connect backend_connect k) as Hk.
  destruct (on_kind backend_connect backend_connect k) as [k1 [[]|e]]; [|done]. destruct (validate_output_model k1); [done|].
  unfold disconnect. pose proof (on_kind_frame_swap backend_disconnect backend_disconnect k1) as Hd.
  destruct (on_kind backend_disconnect backend_disconnect k1). simpl in *. congruence.
Qed.

Lemma validate_pps_ok c pps : validate_pps c pps = Ok tt <-> pps_min c <= pps <= pps_max c.
Proof.
  unfold validate_pps. destruct (Z.ltb_spec pps (pps_min c)), (Z.ltb_spec (pps_max c) pps); simpl; split; intros; done || lia.
Qed.

(** What starting must leave: the error of a refusal with the device given up, or
    the session with its backend closed. *)
Definition start_post {A} (d : Dac D FB SB) (good : A -> BackendKind FB SB -> list start_event -> Prop) (x : result A * list start_event) : Prop :=
  never_opened x.2 /\
  match x.1 with
  | Err _ => dac_backend d = None /\ x.2 = [] \/ given_up x.2
  | Ok a => exists k, good a k x.2 /\ last x.2 = Some (StShutter false true)
  end.

Lemma start_post_refused {A} d good e p : never_opened (p_trace p) -> start_post (A := A) d good (refused e p).
Proof. intros Hp. destruct (refused_trace (A := A) e p Hp) as (tr & -> & Ht & Hg). split; [done|]. by right. Qed.

(** The steps both ways of starting share: connect unless connected, and close. *)
Lemma prepare_post {A} (d : Dac D FB SB) (good : A -> BackendKind FB SB -> list start_event -> Prop) k (next : Prep FB SB -> result A * list start_event) :
  (forall p, is_frame_swap (p_kind p) = is_frame_swap k -> never_opened (p_trace p) -> last (p_trace p) = Some (StShutter false true) ->
     closings (p_trace p) = 1%nat -> start_post d good (next p)) ->
  start_post d good
    (let '(p, r) := if is_connected k then (mkPrep k [], Ok tt) else p_connect (mkPrep k []) in
     match r with
     | Err e => refused e p
     | Ok _ => let '(p, r) := p_set_shutter false p in match r with Err e => refused e p | Ok _ => next p end
     end).
Proof.
  intros Hnext.
  assert (Hc : forall p (r : result unit), is_frame_swap (p_kind p) = is_frame_swap k -> never_opened (p_trace p) -> closings (p_trace p) = 0%nat -> start_post d good
    (match r with
     | Err e => refused e p
     | Ok _ => let '(p, r) := p_set_shutter false p in match r with Err e => refused e p | Ok _ => next p end
     end)).
  { intros p [[]|e] Hk Hp Hz; [|by apply start_post_refused]. pose proof (p_close_trace p Hp) as Hcl. pose proof (p_close_closings p) as Hcc.
    assert (Hk' : is_frame_swap (p_kind (p_set_shutter false p).1) = is_frame_swap k).
    { rewrite <- Hk. apply p_close_frame_swap. }
    destruct (p_set_shutter false p) as [p' [[]|e]]; destruct Hcl as [Ht Hl]; [|by apply start_post_refused]. simpl in *. apply Hnext; [done..|by apply Hl|lia]. }
  destruct (is_connected k); [apply (Hc (mkPrep k []) (Ok tt)); [done|constructor|done]|]. assert (Hk : is_frame_swap (connect k).1 = is_frame_swap k) by apply connect_frame_swap.
  pose proof (p_connect_trace (mkPrep k []) (Forall_nil_2 _)) as Ht.
  unfold p_connect in *. simpl in *. destruct (connect k) as [k' r]. by apply (Hc (mkPrep k' [StConnect (is_ok r)]) r).
Qed.

(** A session as it should start: on this backend, disarmed, at a rate its device
    supports, and with the reconnect policy that was asked for. *)
Definition starts_at (k : BackendKind FB SB) (pps : Z) (rc : option ReconnectConfig) (d : Dac D FB SB) (info : DacInfo) (c : SessionControl)
    (policy : option (SessionPolicy D)) : Prop :=
  info = with_live_caps (dac_dac_info d) k /\
  control_is_armed c = false /\ desired_state c = initial_desired /\ rate c = mkRate pps (pps_min (caps k)) (pps_max (caps k)) /\ rate_wf c /\
  match rc with
  | Some rc => exists t, dac_reconnect_target d = Some t /\ policy = Some (ReconnectPolicy_new rc t)
  | None => policy = None
  end.

Lemma make_stream_post cfg rc d p :
  never_opened (p_trace p) -> last (p_trace p) = Some (StShutter false true) ->
  start_post d (fun '(s, info) k _ => ss_backend s = Some k /\ is_frame_swap k = is_frame_swap (p_kind p) /\ ss_info s = info /\
    ss_config s = apply_backend_buffer_defaults info cfg /\ ss_stats s = mkStats 0 0 0 0 /\ stream_target s = dac_reconnect_target d /\
    starts_at k (sc_pps cfg) rc d info (ss_control s) (ss_reconnect_policy s)) (make_stream cfg rc d p).
Proof.
  intros Ht Hl. unfold make_stream. set (info := with_live_caps _ _). set (cfg' := apply_backend_buffer_defaults info cfg).
  assert (Hpps : sc_pps cfg' = sc_pps cfg) by (unfold cfg', apply_backend_buffer_defaults; by case_match).
  destruct (validate_pps (info_caps info) (sc_pps cfg')) as [[]|e] eqn:Hv; [|by apply start_post_refused].
  apply validate_pps_ok in Hv.
  assert (Hs : forall pol, match rc with Some rc => exists t, dac_reconnect_target d = Some t /\ pol = Some (ReconnectPolicy_new rc t) | None => pol = None end ->
    starts_at (p_kind p) (sc_pps cfg) rc d info (ss_control (with_backend (D := D) info (p_kind p) cfg')) pol).
  { intros pol Hpol. unfold starts_at. rewrite <- Hpps. split_and!; try done; apply Hv. }
  destruct rc as [rc|].
  - destruct (dac_reconnect_target d) as [t|] eqn:Ht'; [|by apply start_post_refused]. split; [done|]. exists (p_kind p).
    split; [|done]. split_and!; try done. apply Hs. by exists t.
  - split; [done|]. exists (p_kind p). split; [|done]. split_and!; try done; [by unfold stream_target; simpl; destruct (dac_reconnect_target d)|by apply Hs].
Qed.

Lemma make_frame_session_post {F} now spawn (cfg : FrameSessionConfig F) d p :
  never_opened (p_trace p) -> last (p_trace p) = Some (StShutter false true) -> closings (p_trace p) = 1%nat ->
  start_post d (fun '(s, info) k tr => fs_backend s = k /\ is_frame_swap k = is_frame_swap (p_kind p) /\ desired_state (fs_control s) = initial_desired /\
    (closings tr = 1%nat -> starts_at k (fc_pps cfg) (fc_reconnect cfg) d info (fs_control s) (fs_policy s))) (make_frame_session now spawn cfg d p).
Proof.
  intros Ht Hl Hone. unfold make_frame_session. destruct (validate_pps _ _) as [[]|e] eqn:Hv; [|by apply start_post_refused].
  apply validate_pps_ok in Hv. set (info := with_live_caps _ _).
  set (good := fun '(s, info') k tr => _).
  assert (Hgo : forall pol, match fc_reconnect cfg with Some rc => exists t, dac_reconnect_target d = Some t /\ pol = Some (ReconnectPolicy_new rc t) | None => pol = None end ->
    start_post d good (let '(r, tr) := frame_start now spawn cfg pol p in (match r with Ok s => Ok (s, info) | Err e => Err e end, tr))).
  { intros pol Hpol. unfold frame_start.
    assert (Hre : forall e q, never_opened (p_trace q) ->
      start_post d good (let '(r, tr) := @refused FB SB _ _ (FrameSession D FB SB) e q in (match r with Ok s => Ok (s, info) | Err e => Err e end, tr))).
    { intros e q Hq. destruct (refused_trace (A := FrameSession D FB SB) e q Hq) as (tr & -> & Htr & Hg). split; [done|]. by right. }
    destruct (validate_output_model (p_kind p)); [|by apply Hre]. destruct (is_connected (p_kind p)) eqn:Hc.
    { destruct spawn as [e|]; [by apply Hre|]. split; [done|]. exists (p_kind p). split; [|done]. split; [done|]. split; [done|]. split; [done|].
      intros _. unfold starts_at. split; [done|]. split; [done|]. split; [done|]. split; [done|]. split; [exact Hv|exact Hpol]. }
    pose proof (p_connect_trace p Ht) as Hct. pose proof (p_connect_closings p) as Hcc.
    assert (Hkc : is_frame_swap (p_kind (p_connect p).1) = is_frame_swap (p_kind p)).
    { unfold p_connect. pose proof (connect_frame_swap (p_kind p)) as Hf. destruct (connect (p_kind p)). exact Hf. }
    destruct (p_connect p) as [p1 [[]|e]]; [|by apply Hre]. pose proof (p_close_trace p1 Hct) as Hcl. pose proof (p_close_frame_swap p1) as Hk1. pose proof (p_close_closings p1) as Hcc1.
    destruct (p_set_shutter false p1) as [p2 [[]|e]]; destruct Hcl as [Ht2 Hl2]; [|by apply Hre].
    destruct spawn as [e|]; [by apply Hre|]. split; [done|]. exists (p_kind p2). split; [|by apply Hl2]. simpl in *.
    split; [done|]. split; [congruence|]. split; [done|]. lia. }
  destruct (fc_reconnect cfg) as [rc|]; [|by apply Hgo]. destruct (dac_reconnect_target d) as [t|] eqn:Ht'; [|by apply start_post_refused].
  apply Hgo. by exists t.
Qed.

Lemma start_stream_closed cfg d :
  start_post d (fun '(s, info) k _ => ss_backend s = Some k /\ is_frame_swap k = false /\ ss_info s = info /\
    ss_config s = apply_backend_buffer_defaults info (take_reconnect cfg).1 /\ ss_stats s = mkStats 0 0 0 0 /\ stream_target s = dac_reconnect_target d /\
    starts_at k (sc_pps cfg) (sc_reconnect cfg) d info (ss_control s) (ss_reconnect_policy s)) (start_stream cfg d).
Proof.
  unfold start_stream. simpl. destruct (dac_backend d) as [k|] eqn:Hb; [|split; [constructor|by left]].
  destruct (validate_output_model k); [|by apply start_post_refused; constructor].
  destruct (is_frame_swap k) eqn:Hk; [by apply start_post_refused; constructor|]. apply prepare_post. intros p Hkp Ht Hl _.
  destruct (make_stream_post (take_reconnect cfg).1 (sc_reconnect cfg) d p Ht Hl) as [Hn Hr]. split; [exact Hn|]. simpl in *.
  destruct (make_stream _ _ d p).1 as [[s info]|e]; [|exact Hr]. destruct Hr as (k' & (Hs & Hk' & Hrest) & Hl').
  exists k'. split; [|done]. split; [done|]. split; [congruence|done].
Qed.

Lemma start_frame_session_closed {F} now spawn (cfg : FrameSessionConfig F) d :
  start_post d (fun '(s, info) k tr => fs_backend s = k /\ desired_state (fs_control s) = initial_desired /\
    (closings tr = 1%nat -> starts_at k (fc_pps cfg) (fc_reconnect cfg) d info (fs_control s) (fs_policy s)))
    (start_frame_session now spawn cfg d).
Proof.
  unfold start_frame_session. destruct (dac_backend d) as [k|] eqn:Hb; [|split; [constructor|by left]].
  destruct (validate_output_model k); [|by apply start_post_refused; constructor]. apply prepare_post. intros p Hkp Ht Hl Hone.
  destruct (make_frame_session_post now spawn cfg d p Ht Hl Hone) as [Hn Hr]. split; [exact Hn|].
  destruct (make_frame_session now spawn cfg d p).1 as [[s info]|e]; [|exact Hr]. destruct Hr as (k' & (Hs & Hk' & Hrest) & Hl').
  by exists k'.
Qed.

(** C18. Starting a session never opens the shutter: either the session gets a backend
    whose last command was a successful close (after connecting, also when the frame
    session has to connect again), disarmed, at a rate the connected device supports
    and with the reconnect policy that was asked for; or the start is refused with
    the backend closed and disconnected. *)
Theorem sessions_start_closed :
  (forall cfg d,
     start_post d (fun '(s, info) k _ => ss_backend s = Some k /\ is_frame_swap k = false /\ ss_info s = info /\
       ss_config s = apply_backend_buffer_defaults info (take_reconnect cfg).1 /\ ss_stats s = mkStats 0 0 0 0 /\ stream_target s = dac_reconnect_target d /\
       starts_at k (sc_pps cfg) (sc_reconnect cfg) d info (ss_control s) (ss_reconnect_policy s)) (start_stream cfg d)) /\
  (forall F now spawn (cfg : FrameSessionConfig F) d,
     start_post d (fun '(s, info) k tr => fs_backend s = k /\ desired_state (fs_control s) = initial_desired /\
       (closings tr = 1%nat -> starts_at k (fc_pps cfg) (fc_reconnect cfg) d info (fs_control s) (fs_policy s)))
       (start_frame_session now spawn cfg d)).
Proof. split; [intros; apply start_stream_closed|intros; apply start_frame_session_closed]. Qed.
End starting.

(** ** From the start to the end *)

Lemma to_events_snoc tr e : to_events (tr ++ [e]) = to_events tr ++ to_event e.
Proof. unfold to_events. rewrite bind_app. simpl. by rewrite app_nil_r. Qed.

Lemma start_trace_dark tr : never_opened tr -> trace_phase (to_events tr) = Some Unprepared /\ lit (to_events tr) = false.
Proof.
  induction tr as [|e tr IH] using rev_ind; [done|]. intros [Htr He]%Forall_app. apply Forall_cons in He as [He _].
  destruct (IH Htr) as [Hp Hl]. rewrite to_events_snoc.
  assert (Hone : forall e', neutral e' = true -> lit_step false e' = false ->
    trace_phase (to_events tr ++ [e']) = Some Unprepared /\ lit (to_events tr ++ [e']) = false).
  { intros e' Hn Hs. rewrite trace_phase_neutral, lit_snoc by exact Hn. by rewrite Hl. }
  destruct e as [ok|[] ok| |]; simpl in *; [by rewrite app_nil_r|by destruct He|by apply Hone..].
Qed.

(** Everything the device was told, from the start on. *)
Definition events_of {FB SB S FS} (x : ran FB SB S FS) : list event :=
  match x with NotDriven _ tr => to_events tr | Driven o => w_trace (final o) end.

(** A session that was started with [tr], in the surroundings [env], wherever it is
    stopped and however it ends: the start closed the shutter and never opened it;
    after the start every opening was prepared, and there is none unless somebody
    armed the session; and when it ended, the shutter is closed, the device given up
    or reported as disconnected. *)
Definition safe_run {FB SB S FS} (tr : list start_event) (env : list interference) (x : ran FB SB S FS) : Prop :=
  never_opened tr /\ last tr = Some (StShutter false true) /\
  to_events tr `prefix_of` events_of x /\
  trace_phase (events_of x) <> None /\
  (unarmed env -> opens (events_of x) = []) /\
  match x with
  | NotDriven _ _ => lit (events_of x) = false
  | Driven (Ret r w) => r = Ok ExitDisconnected \/ lit (w_trace w) = false
  | Driven _ => True
  end.

Lemma start_opens_nothing tr : never_opened tr -> opens (to_events tr) = [].
Proof.
  induction tr as [|e tr IH] using rev_ind; [done|]. intros [Htr He]%Forall_app. apply Forall_cons in He as [He _].
  rewrite to_events_snoc. unfold opens in *. rewrite filter_app, (IH Htr). by destruct e as [ok|[] ok| |].
Qed.

Lemma to_events_app tr tr' : to_events (tr ++ tr') = to_events tr ++ to_events tr'.
Proof. unfold to_events. apply bind_app. Qed.

Section whole.
Context {D FB SB : Type} `{FifoBackend FB} `{FrameSwapBackend SB}.
Context (sentinel_instant : Z) (fuel retries spin : nat).

Lemma driven_safe {S FS} `{FifoContentSourceLaws S} `{FrameContentSource FS} cfg (w : World FB SB S FS) tr tr' :
  never_opened tr -> last tr = Some (StShutter false true) -> tr `prefix_of` tr' -> never_opened tr' ->
  w_trace w = to_events tr' -> src_ok w -> desired_state (w_ctl w) = initial_desired -> env_ops (w_env w) < 2 ^ 63 ->
  safe_run tr (w_env w) (Driven (run sentinel_instant fuel retries spin cfg w)).
Proof.
  intros Hn0 Hl0 Hpre Hn Htr Hs Hi He. destruct (start_trace_dark tr' Hn) as [Hp Hl].
  assert (Hu : in_u 64 (desired_state (w_ctl w))) by (rewrite Hi; by vm_compute).
  pose proof (run_spec sentinel_instant fuel retries spin cfg w) as Hr. pose proof (run_dark sentinel_instant fuel retries spin cfg w) as Hd.
  pose proof (run_extends sentinel_instant fuel retries spin cfg w Hs) as Hx. pose proof (run_unarmed sentinel_instant fuel retries spin cfg w Hs) as Ho.
  assert (Hb : holds base w) by (split; [|done]; unfold base; rewrite Htr, Hp; done). specialize (Hr Hb).
  assert (Hdark : dark w) by (unfold dark; by rewrite Htr). specialize (Hd Hdark).
  split; [done|]. split; [done|]. split.
  { simpl. etrans; [|exact Hx]. rewrite Htr. destruct Hpre as [more ->]. rewrite to_events_app. by exists (to_events more). }
  split; [simpl; destruct (run sentinel_instant fuel retries spin cfg w); apply Hr|]. split.
  - intros Hun. apply Ho; [unfold control_is_armed; rewrite Hi; by vm_compute|done|]. rewrite Htr. by apply start_opens_nothing.
  - by destruct (run sentinel_instant fuel retries spin cfg w).
Qed.

Lemma new_producer_wf {P} `{FillFnOk P} (pr : P) policy blank n st : producer_wf (new_producer pr policy blank n st).
Proof. split; [apply delay_wf_new|done|simpl; lia..]. Qed.

Lemma session_pipeline_wf {F} `{OutputFilterOk F} (cfg : FrameSessionConfig F) (k : BackendKind FB SB) : pipeline_wf (session_pipeline cfg k).
Proof.
  split; [|apply delay_wf_new|done]. unfold session_pipeline, new_pipeline, reset_output_filter, upd_filter. simpl.
  destruct (is_frame_swap k), (fc_idle_policy cfg); by split.
Qed.
End whole.

(** C2. A session as started by [start_stream] or [start_frame_session] is safe from
    the device that was opened to its end, whatever becomes of the device before the
    thread takes over, whatever discovery answers, and under every interleaving with
    the control handle.  Starting sends no open command, and its last command is a
    close that succeeded.  What follows is only added to that: each opening comes
    after a complete preparation (the source armed, then the device buffer reset), and
    none comes at all unless a control call arms the session.  When the session has
    ended, the last shutter command to its device was a close, or the device was given
    up as lost, except when it ends as disconnected without a reconnect policy. *)
Theorem started_sessions_are_safe {D FB SB P F FS} `{FifoBackend FB} `{FrameSwapBackend SB} `{FillFnOk P} `{OutputFilterOk F} `{FrameContentSource FS}
    sentinel fuel retries spin now env (opens : list (result (DacInfo * option (BackendKind FB SB)))) (d : Dac D FB SB) :
  env_ops env < 2 ^ 63 ->
  (forall cfg s info tr (producer : P), start_stream cfg d = (Ok (s, info), tr) ->
     safe_run tr env (stream_run (FS := FS) sentinel fuel retries spin now env opens producer tr s)) /\
  (forall spawn (cfg : FrameSessionConfig F) t meanwhile s info tr, start_frame_session now spawn cfg d = (Ok (s, info), tr) ->
     safe_run tr env (frame_run_loop sentinel fuel retries spin now env opens t meanwhile cfg tr s)).
Proof.
  intros He. split.
  - intros cfg s info tr producer Hs. destruct (start_stream_closed cfg d) as [Hn Hok]. rewrite Hs in Hn, Hok. simpl in Hn, Hok.
    destruct Hok as (k & (Hk & Hkind & _ & _ & _ & _ & Hst) & Hl). destruct Hst as (_ & _ & Hd & _). unfold stream_run. rewrite Hk, Hkind.
    match goal with |- safe_run tr env (Driven (run _ _ _ _ ?c ?w)) => apply (driven_safe sentinel fuel retries spin c w tr tr) end; try done. apply new_producer_wf.
  - intros spawn cfg t meanwhile s info tr Hs. destruct (start_frame_session_closed now spawn cfg d) as [Hn Hok]. rewrite Hs in Hn, Hok. simpl in Hn, Hok.
    destruct Hok as (k & (Hk & Hd & _) & Hlast). unfold frame_run_loop. set (k0 := meanwhile (fs_backend s)).
    pose proof (p_connect_trace (mkPrep k0 tr) Hn) as Hc.
    assert (Hcp : tr `prefix_of` p_trace (p_connect (mkPrep k0 tr)).1).
    { unfold p_connect. destruct (connect _) as [k' r]. simpl. by apply prefix_app_r. }
    assert (Hrun : forall (p : Prep FB SB) (r : result unit), never_opened (p_trace p) -> tr `prefix_of` p_trace p -> safe_run tr env
      (match r with
       | Err e => NotDriven (Err e) (p_trace p)
       | Ok _ => Driven (run sentinel fuel retries spin
           (mkConfig (sp_policy <$> fs_policy s) (reconnect_validator (output_model (caps k0))) (target_buffer_for_backend t (p_kind p)) 0)
           (mkWorld (fs_control s) env now (p_kind p) (if is_frame_swap k0 then SrcFrame (session_pipeline cfg k0) else SrcFifo (session_pipeline cfg k0))
              Closed initial_desired None (Some None) opens (to_events (p_trace p))))
       end)).
    { intros p [[]|e] Hp Hpre.
      - match goal with |- safe_run tr env (Driven (run _ _ _ _ ?c ?w)) => apply (driven_safe sentinel fuel retries spin c w tr (p_trace p)) end; try done.
        unfold src_ok. simpl. destruct (is_frame_swap k0); [done|]. apply session_pipeline_wf.
      - destruct (start_trace_dark _ Hp) as [Hph Hl]. split; [done|]. split; [done|]. simpl. rewrite Hph.
        split; [destruct Hpre as [more ->]; rewrite to_events_app; by exists (to_events more)|]. split; [done|]. split; [|done].
        intros _. by apply start_opens_nothing. }
    destruct (is_connected k0); [by apply (Hrun (mkPrep k0 tr) (Ok tt))|]. destruct (p_connect (mkPrep k0 tr)) as [p r]. by apply (Hrun p r).
Qed.

(** ** Configuration and hand-over *)

(** A target buffer of 20 ms is replaced by the default of the device, also when it
    was asked for. *)
Lemma explicit_default_is_promoted pps info :
  info_kind info = LaserCubeNetwork ->
  sc_target_buffer (apply_backend_buffer_defaults info (with_target_buffer (millis 20) (StreamConfig_new pps))) = millis 120.
Proof. intros Hk. unfold apply_backend_buffer_defaults. simpl. by rewrite Hk. Qed.

Lemma duration_round_trips unit d : 0 < unit -> 0 <= d -> d / unit <= umax 64 ->
  deserialize_duration unit (serialize_duration unit d) = d - d mod unit.
Proof.
  intros Hu Hd Hm. unfold deserialize_duration, serialize_duration. rewrite Z.min_r by done.
  pose proof (Z.div_mod d unit ltac:(lia)). lia.
Qed.

(** A stored configuration comes back without its reconnect settings, the buffer
    times cut to whole milliseconds and the others to whole microseconds; so storing
    it again changes nothing more. *)
Theorem stored_config_settles c :
  0 <= sc_target_buffer c <= umax 64 -> 0 <= sc_drain_timeout c <= umax 64 -> 0 <= sc_color_delay c <= umax 64 -> 0 <= sc_startup_blank c <= umax 64 ->
  stored c = mkStreamConfig (sc_pps c) (sc_target_buffer c - sc_target_buffer c mod millis 1) (sc_idle_policy c)
    (sc_drain_timeout c - sc_drain_timeout c mod millis 1) (sc_color_delay c - sc_color_delay c mod micros 1)
    (sc_startup_blank c - sc_startup_blank c mod micros 1) None /\
  stored (stored c) = stored c.
Proof.
  intros Ht Hd Hc Hb.
  assert (Hr : forall u d, (u = millis 1 \/ u = micros 1) -> 0 <= d <= umax 64 -> deserialize_duration u (serialize_duration u d) = d - d mod u /\ 0 <= d - d mod u <= umax 64).
  { intros u d Hu Hdd. assert (0 < u) by (unfold millis, micros in Hu; lia). pose proof (Z.mod_pos_bound d u ltac:(lia)). pose proof (Z.div_mod d u ltac:(lia)).
    pose proof (Z.mod_le d u ltac:(lia) ltac:(lia)). split; [|lia]. apply duration_round_trips; [lia..|].
    pose proof (Z.div_le_upper_bound d u (umax 64)). nia. }
  assert (Hst : forall c, 0 <= sc_target_buffer c <= umax 64 -> 0 <= sc_drain_timeout c <= umax 64 -> 0 <= sc_color_delay c <= umax 64 -> 0 <= sc_startup_blank c <= umax 64 ->
    stored c = mkStreamConfig (sc_pps c) (sc_target_buffer c - sc_target_buffer c mod millis 1) (sc_idle_policy c)
      (sc_drain_timeout c - sc_drain_timeout c mod millis 1) (sc_color_delay c - sc_color_delay c mod micros 1)
      (sc_startup_blank c - sc_startup_blank c mod micros 1) None).
  { intros c' H1 H2 H3 H4. unfold stored. f_equal; apply Hr; auto. }
  split; [by apply Hst|]. rewrite (Hst c) by done.
  assert (Hm : forall u d, (u = millis 1 \/ u = micros 1) -> (d - d mod u) mod u = 0).
  { intros u d Hu. assert (0 < u) by (unfold millis, micros in Hu; lia). pose proof (Z.div_mod d u ltac:(lia)).
    replace (d - d mod u) with (d / u * u) by lia. by apply Z.mod_mul; lia. }
  rewrite Hst by (simpl; apply Hr; auto). simpl. rewrite !Hm, !Z.sub_0_r by auto. done.
Qed.

Lemma stored_config_settles_witness :
  let c := with_color_delay 150500 (with_target_buffer 30500000 (StreamConfig_new 30000)) in
  stored c = with_color_delay 150000 (with_target_buffer 30000000 (StreamConfig_new 30000)) /\ stored (stored c) = stored c.
Proof.
  split; [reflexivity|].
  refine (proj2 (stored_config_settles (with_color_delay 150500 (with_target_buffer 30500000 (StreamConfig_new 30000))) _ _ _ _));
    vm_compute; split; congruence.
Defined.

Definition set_control {D FB SB} (c : SessionControl) (s : Stream D FB SB) : Stream D FB SB :=
  mkStream (ss_info s) (ss_backend s) (ss_config s) c (ss_stats s) (ss_reconnect_policy s) (ss_reconnect_target s).

Lemma shutdown_control c : in_u 64 (desired_state c) ->
  let c' := (Session.stop (disarm c).1).1 in control_is_armed c' = false /\ stop_requested c' = true.
Proof.
  intros Hu. destruct (set_armed_word_facts (desired_state c) false Hu) as [_ Ho].
  assert (Ha : desired_is_armed (set_armed_word (desired_state c) false) = false) by (unfold desired_is_armed; rewrite land_armed; by rewrite Ho).
  assert (Hsend : forall m why x, desired_state (send_msg m why x).1 = desired_state x /\ stop_requested (send_msg m why x).1 = stop_requested x)
    by (intros m why x; unfold send_msg; by destruct (receiver_alive x)).
  cbv zeta. unfold control_is_armed, Session.stop, disarm, set_desired_armed.
  split; [rewrite (proj1 (Hsend _ _ _))|by rewrite (proj2 (Hsend _ _ _))]. cbn [desired_state]. by rewrite (proj1 (Hsend _ _ _)).
Qed.

(** A stream that is dropped closes the shutter, stops and lets its device go, in this
    order. *)
Lemma stream_drop_closes {D FB SB} `{FifoBackend FB} `{FrameSwapBackend SB} (s : Stream D FB SB) k : ss_backend s = Some k ->
  exists ok, stream_drop s = [StShutter false ok; StStop; StDisconnect].
Proof.
  intros Hk. unfold stream_drop, stream_stop, shutdown_backend. rewrite Hk. unfold p_stop, p_set_shutter, p_disconnect. cbn [p_kind p_trace app].
  destruct (set_shutter false k) as [k1 r1]. cbn [fst p_kind p_trace]. destruct (stop_backend k1) as [k2 r2]. cbn [fst p_kind p_trace ss_backend].
  destruct (disconnect k2) as [k3 r3]. by exists (is_ok r1).
Qed.

(** Turning a started stream back into a device keeps what is needed to start
    again, whatever was asked of its control meanwhile: the backend, with its shutter
    closed and its output stopped but not disconnected, and the target for reopening
    it, whether or not the stream used that to reconnect; the control is left disarmed
    and stopped. *)
Theorem into_dac_can_start_again {D FB SB} `{FifoBackend FB} `{FrameSwapBackend SB} cfg (d : Dac D FB SB) s info tr c :
  start_stream cfg d = (Ok (s, info), tr) -> in_u 64 (desired_state c) ->
  let s := set_control c s in
  let '(d', st, tr') := into_dac s in
  dac_dac_info d' = info /\ dac_reconnect_target d' = dac_reconnect_target d /\ st = mkStats 0 0 0 0 /\
  (exists k ok, ss_backend s = Some k /\ dac_backend d' = Some (stop_backend (set_shutter false k).1).1 /\ tr' = [StShutter false ok; StStop]) /\
  control_is_armed (ss_control (shutdown_backend s).1) = false /\ stop_requested (ss_control (shutdown_backend s).1) = true.
Proof.
  intros Hs Hu. destruct (start_stream_closed cfg d) as [_ Hok]. rewrite Hs in Hok. simpl in Hok.
  destruct Hok as (k & (Hk & _ & Hi & _ & Hst & Ht & _) & _). destruct (shutdown_control c Hu) as [Ha Hsr].
  cbv zeta. unfold into_dac, shutdown_backend. cbn [set_control ss_backend ss_control]. rewrite Hk. unfold p_stop, p_set_shutter. cbn [p_kind p_trace].
  destruct (set_shutter false k) as [k1 r1] eqn:H1. cbn [fst p_kind p_trace]. destruct (stop_backend k1) as [k2 r2] eqn:H2. cbn.
  split; [done|]. split; [done|]. split; [done|]. split; [|split; [exact Ha|exact Hsr]]. exists k, (is_ok r1). split; [done|]. split; [|done]. f_equal. symmetry. rewrite H1. exact (f_equal fst H2).
Qed.

(** ** Reconnecting and metrics *)

(** Both validators accept the same replacement devices: those of the original
    output model whose range has the current rate. *)
Theorem validators_agree {FB SB} `{FifoBackend FB} `{FrameSwapBackend SB} m info (k : BackendKind FB SB) pps :
  is_frame_swap k = false -> info_caps info = caps k ->
  build_reconnect_validator m info k pps = reconnect_validator m info k pps /\
  (reconnect_validator m info k pps = None <-> output_model (caps k) = m /\ pps_min (caps k) <= pps <= pps_max (caps k)).
Proof.
  intros Hk Hi. unfold build_reconnect_validator, reconnect_validator. rewrite Hk, Hi.
  destruct (bool_decide_reflect (output_model (caps k) <> m)) as [Hm|Hm%dec_stable]; [by split; [|split; [|intros []]]|].
  pose proof (validate_pps_ok (caps k) pps) as Hv. unfold validate_pps in *. destruct ((pps <? pps_min (caps k)) || _); (split; [done|]); split; try done.
  - intros [_ Hp]. by apply Hv in Hp.
  - intros _. split; [done|]. by apply Hv.
Qed.

(** What the thread marks is visible: activity never goes back to unknown, a write
    is also activity, and the times read back are the times marked (of a clock that
    does not run before the origin, to the nanosecond it starts at). *)
Lemma metrics_marks now m : fm_origin m < now -> now - fm_origin m <= umax 64 ->
  last_loop_activity (mark_loop_activity now m) = Some now /\
  last_write_success (mark_write_success now m) = Some now /\ last_loop_activity (mark_write_success now m) = Some now.
Proof.
  intros Ho Hm. unfold last_loop_activity, last_write_success, instant_from_nanos, mark_loop_activity, mark_write_success, now_nanos, sat_sub, umax in *. simpl.
  rewrite Z.max_r by lia. destruct (Z.eqb_spec (Z.min (2 ^ 64 - 1) (Z.max 0 (now - fm_origin m))) 0); [lia|].
  split_and!; f_equal; lia.
Qed.

(** ** Examples *)
Import OutputModel.Demo.
#[local] Existing Instance no_filter.
#[local] Existing Instance no_filter_ok.

Module SessionDemo.
(** A device that is not connected yet, opened by its id. *)
Definition dac : Dac unit demo_device demo_device :=
  mkDac (mkInfo "custom:1" "demo" (Custom "demo") (mkCaps 1000 100000 1000 NetworkFifo)) (Some (Fifo (mkDemo false true [])))
    (Some (mkTarget "custom:1" None)).
Definition config : StreamConfig := with_reconnect ReconnectConfig_new (StreamConfig_new 30000).
(** Armed while it runs, then stopped. *)
Definition env : list interference := mkInterference [CtlArm] None 0 :: replicate 30 (mkInterference [] None 1000000) ++ [mkInterference [CtlStop] None 0].
End SessionDemo.

Lemma started_sessions_are_safe_witness :
  exists s info tr,
    start_stream SessionDemo.config SessionDemo.dac = (Ok (s, info), tr) /\ tr = [StConnect true; StShutter false true] /\
    safe_run tr SessionDemo.env (stream_run (P := bool) (FS := unit) 0 40 1 0 0 SessionDemo.env [] true tr s).
Proof.
  destruct (start_stream SessionDemo.config SessionDemo.dac) as [[[s info]|e] tr] eqn:Hs; [|vm_compute in Hs; discriminate Hs].
  exists s, info, tr. split; [reflexivity|]. split; [vm_compute in Hs; congruence|].
  refine (proj1 (started_sessions_are_safe (P := bool) (F := unit) (FS := unit) 0 40 1 0 0 SessionDemo.env [] SessionDemo.dac _) SessionDemo.config s info tr true Hs).
  vm_compute. reflexivity.
Defined.

Lemma into_dac_can_start_again_witness :
  exists s info tr,
    start_stream SessionDemo.config SessionDemo.dac = (Ok (s, info), tr) /\
    dac_reconnect_target (into_dac (set_control demo_control s)).1.1 = dac_reconnect_target SessionDemo.dac.
Proof.
  destruct (start_stream SessionDemo.config SessionDemo.dac) as [[[s info]|e] tr] eqn:Hs; [|vm_compute in Hs; discriminate Hs].
  exists s, info, tr. split; [reflexivity|].
  pose proof (into_dac_can_start_again SessionDemo.config SessionDemo.dac s info tr demo_control Hs) as Hi. cbv zeta in Hi.
  destruct (into_dac (set_control demo_control s)) as [[d' st] tr'].
  refine (proj1 (proj2 (Hi _))). vm_compute. split; discriminate.
Defined.

Lemma validators_agree_witness :
  let info := mkInfo "custom:1" "demo" (Custom "demo") (mkCaps 1000 100000 1000 NetworkFifo) in
  let k : BackendKind demo_device demo_device := Fifo (mkDemo true false []) in
  build_reconnect_validator NetworkFifo info k 30000 = reconnect_validator NetworkFifo info k 30000.
Proof.
  exact (proj1 (validators_agree NetworkFifo (mkInfo "custom:1" "demo" (Custom "demo") (mkCaps 1000 100000 1000 NetworkFifo))
    (Fifo (mkDemo true false []) : BackendKind demo_device demo_device) 30000 eq_refl eq_refl)).
Defined.
