(* ===== verification/Resample.v ===== *)
(** * The streaming resampler

    Models [src/src/resample.rs]: conversion of a point stream from the user's rate
    to an audio device's, by Catmull-Rom interpolation with the phase and the last
    inputs carried from chunk to chunk.  The reference is the same interpolation
    over the whole history; the theorems show that pruning the history is never
    noticed, that the promised number of outputs appears, and what cutting the
    input into chunks can change. *)

From S2P Require Import Prelude Floats Point.

#[local] Open Scope Z_scope.

(** ** Interpolation *)

Definition f32_half : F32.t := F32.of_dyadic 1 (-1).
Definition f32_1_5 : F32.t := F32.of_dyadic 3 (-1).
Definition f32_2_5 : F32.t := F32.of_dyadic 5 (-1).

Definition catmull_rom (s0 s1 s2 s3 t : F32.t) : F32.t :=
  let c1 := F32.mul f32_half (F32.sub s2 s0) in
  let c2 := F32.sub (F32.add (F32.sub s0 (F32.mul f32_2_5 s1)) (F32.mul f2 s2)) (F32.mul f32_half s3) in
  let c3 := F32.add (F32.mul f32_half (F32.sub s3 s0)) (F32.mul f32_1_5 (F32.sub s1 s2)) in
  F32.add (F32.mul (F32.add (F32.mul (F32.add (F32.mul c3 t) c2) t) c1) t) s1.

Class CatmullInterp (T : Type) := catmull : T -> T -> T -> T -> F32.t -> T.

#[export] Instance catmull_f32 : CatmullInterp F32.t := catmull_rom.

#[export] Instance catmull_pair : CatmullInterp (F32.t * F32.t) := fun s0 s1 s2 s3 t =>
  (catmull_rom s0.1 s1.1 s2.1 s3.1 t, catmull_rom s0.2 s1.2 s2.2 s3.2 t).

(** ** The resampler *)

Record StreamingResampler (T : Type) := mkResampler {
  rs_from_rate : Z;
  rs_to_rate : Z;
  rs_buf : list T;
  rs_buf_start : Z;
  rs_n_in : Z;
  rs_n_out : Z;
}.
Arguments mkResampler {T}.
Arguments rs_from_rate {T}.
Arguments rs_to_rate {T}.
Arguments rs_buf {T}.
Arguments rs_buf_start {T}.
Arguments rs_n_in {T}.
Arguments rs_n_out {T}.

Section resampler.
Context {T : Type} `{!CatmullInterp T}.
Implicit Types r : StreamingResampler T.

(** [None]: the rates were zero. *)
Definition resampler_new (from_rate to_rate : Z) : option (StreamingResampler T) :=
  assert! (0 <? from_rate) && (0 <? to_rate);; Some (mkResampler from_rate to_rate [] 0 0 0).

Definition resampler_reset r : StreamingResampler T := mkResampler (rs_from_rate r) (rs_to_rate r) [] 0 0 0.

Definition set_rates (from_rate to_rate : Z) r : option (StreamingResampler T) :=
  assert! (0 <? from_rate) && (0 <? to_rate);;
  Some (if (from_rate =? rs_from_rate r) && (to_rate =? rs_to_rate r) then r else mkResampler from_rate to_rate [] 0 0 0).

(** A product of two [u64]. *)
Definition mul64 (a b : Z) : Z := wrapu 64 (a * b).

Definition total_emittable r (n_in : Z) : Z :=
  if n_in =? 0 then 0 else mul64 (n_in - 1) (rs_to_rate r) / rs_from_rate r + 1.

Definition pending_output_count r (input_len : nat) : Z := total_emittable r (rs_n_in r + Z.of_nat input_len) - rs_n_out r.

(** [at]: [None] when the index is outside the retained inputs. *)
Definition sample_at r (abs last : Z) : option T :=
  let clamped := wrapu 64 (Z.min (Z.max abs 0) (wraps 64 last)) in
  if clamped <? rs_buf_start r then None else rs_buf r !! Z.to_nat (clamped - rs_buf_start r).

Definition with_buf (buf : list T) (start : Z) r : StreamingResampler T :=
  mkResampler (rs_from_rate r) (rs_to_rate r) buf start (rs_n_in r) (rs_n_out r).

(** The pruning loop; the retained inputs bound its rounds. *)
Fixpoint prune_loop (target : Z) (buf : list T) (start : Z) : list T * Z :=
  match buf with
  | _ :: ((_ :: _) as rest) => if start <? target then prune_loop target rest (start + 1) else (buf, start)
  | _ => (buf, start)
  end.

Definition prune r : StreamingResampler T :=
  let next_idx := mul64 (rs_n_out r) (rs_from_rate r) / rs_to_rate r in
  let '(buf, start) := prune_loop (sat_sub next_idx 1) (rs_buf r) (rs_buf_start r) in with_buf buf start r.

(** One output. *)
Definition emit_one r (last : Z) : option T :=
  let p := mul64 (rs_n_out r) (rs_from_rate r) in
  let idx := wraps 64 (p / rs_to_rate r) in
  let t := F32.div (F32.of_int (p mod rs_to_rate r)) (F32.of_int (rs_to_rate r)) in
  s0 ← sample_at r (idx - 1) last;
  s1 ← sample_at r idx last;
  s2 ← sample_at r (idx + 1) last;
  s3 ← sample_at r (idx + 2) last;
  Some (catmull s0 s1 s2 s3 t).

Definition count_out r : StreamingResampler T :=
  mkResampler (rs_from_rate r) (rs_to_rate r) (rs_buf r) (rs_buf_start r) (rs_n_in r) (rs_n_out r + 1).

Fixpoint emit_loop (fuel : nat) (last : Z) r : option (StreamingResampler T * list T) :=
  match fuel with
  | O => Some (r, [])
  | S fuel =>
      o ← emit_one r last;
      '(r, os) ← emit_loop fuel last (count_out r);
      Some (r, o :: os)
  end.

(** [process], with what it emits. *)
Definition process (input : list T) r : option (StreamingResampler T * list T) :=
  let r := mkResampler (rs_from_rate r) (rs_to_rate r) (rs_buf r ++ input) (rs_buf_start r) (rs_n_in r + Z.of_nat (length input)) (rs_n_out r) in
  if rs_n_in r =? 0 then Some (r, [])
  else
    let target := total_emittable r (rs_n_in r) in
    '(r, os) ← emit_loop (Z.to_nat (target - rs_n_out r)) (rs_n_in r - 1) r;
    Some (prune r, os).

Fixpoint process_all (chunks : list (list T)) r : option (StreamingResampler T * list T) :=
  match chunks with
  | [] => Some (r, [])
  | c :: chunks =>
      '(r, os) ← process c r;
      '(r, os') ← process_all chunks r;
      Some (r, os ++ os')
  end.

(** ** The reference: interpolation over the whole history *)

Definition src_pos (from to n : Z) : Z := n * from / to.

Definition history_at (xs : list T) (abs : Z) : option T := xs !! Z.to_nat (Z.min (Z.max abs 0) (Z.of_nat (length xs) - 1)).

Definition reference (from to : Z) (xs : list T) (n : Z) : option T :=
  let t := F32.div (F32.of_int ((n * from) mod to)) (F32.of_int to) in
  s0 ← history_at xs (src_pos from to n - 1);
  s1 ← history_at xs (src_pos from to n);
  s2 ← history_at xs (src_pos from to n + 1);
  s3 ← history_at xs (src_pos from to n + 2);
  Some (catmull s0 s1 s2 s3 t).

(** How many outputs [m] inputs allow. *)
Definition emittable (from to m : Z) : Z := if m =? 0 then 0 else (m - 1) * to / from + 1.

(** A stream short enough for 64-bit positions: at the rates of an audio device,
    some hundred million years of it. *)
Definition fits (from to m : Z) : Prop := 0 < from /\ 0 < to /\ 0 <= m < 2 ^ 63 /\ m * to + from < 2 ^ 64.

(** The resampler in the middle of a stream [xs]: it has emitted no more than the
    inputs allow and still holds what the next output needs. *)
Record tracks (xs : list T) r : Prop := {
  tr_fits : fits (rs_from_rate r) (rs_to_rate r) (Z.of_nat (length xs));
  tr_n_in : rs_n_in r = Z.of_nat (length xs);
  tr_n_out : 0 <= rs_n_out r <= emittable (rs_from_rate r) (rs_to_rate r) (Z.of_nat (length xs));
  tr_start : 0 <= rs_buf_start r <= Z.max 0 (Z.of_nat (length xs) - 1);
  tr_lag : rs_buf_start r <= Z.max 0 (src_pos (rs_from_rate r) (rs_to_rate r) (rs_n_out r) - 1);
  tr_buf : rs_buf r = drop (Z.to_nat (rs_buf_start r)) xs;
}.

Lemma emittable_bounds from to m : 0 < from -> 0 < to -> 0 < m -> (m - 1) * to < emittable from to m * from <= (m - 1) * to + from.
Proof.
  intros Hf Ht Hm. unfold emittable. destruct (Z.eqb_spec m 0) as [|_]; [lia|].
  pose proof (Z.div_mod ((m - 1) * to) from ltac:(lia)). pose proof (Z.mod_pos_bound ((m - 1) * to) from ltac:(lia)). nia.
Qed.

Lemma total_emittable_eq r m : fits (rs_from_rate r) (rs_to_rate r) m -> total_emittable r m = emittable (rs_from_rate r) (rs_to_rate r) m.
Proof.
  intros (Hf & Ht & Hm & Hb). unfold total_emittable, emittable, mul64, wrapu. destruct (Z.eqb_spec m 0) as [|Hne]; [done|].
  rewrite Z.mod_small by nia. done.
Qed.

(** Before the newest input allows it, no output is due; its position is known. *)
Lemma emittable_pos from to m n : 0 < from -> 0 < to -> 0 <= n < emittable from to m -> 0 < m -> 0 <= src_pos from to n <= m - 1.
Proof.
  intros Hf Ht Hn Hm. unfold src_pos. pose proof (emittable_bounds from to m Hf Ht Hm) as Hb.
  unfold emittable in *. destruct (Z.eqb_spec m 0) as [|_]; [lia|].
  assert (n <= (m - 1) * to / from) by lia.
  assert (n * from <= (m - 1) * to) by (pose proof (Z.mul_div_le ((m - 1) * to) from ltac:(lia)); nia).
  split; [apply Z.div_pos; nia|]. apply Z.lt_succ_r, Z.div_lt_upper_bound; nia.
Qed.

Lemma wraps_small z : 0 <= z < 2 ^ 63 -> wraps 64 z = z.
Proof. intros Hz. unfold wraps. change (64 - 1) with 63. rewrite Z.mod_small by lia. lia. Qed.

Lemma history_some xs abs : xs <> [] -> is_Some (history_at xs abs).
Proof. intros Hx. apply lookup_lt_is_Some_2. destruct xs; [done|]. simpl. lia. Qed.

(** The retained inputs answer like the whole history. *)
Lemma sample_at_history xs r abs :
  tracks xs r -> xs <> [] -> src_pos (rs_from_rate r) (rs_to_rate r) (rs_n_out r) - 1 <= abs ->
  sample_at r abs (rs_n_in r - 1) = history_at xs abs.
Proof.
  intros [(_ & _ & Hm & _) Hi _ Hs Hl Hb] Hx Ha. assert (Hlen : 0 < Z.of_nat (length xs)) by (destruct xs; [done|simpl; lia]).
  unfold sample_at, history_at. rewrite Hi, wraps_small by lia. set (c := Z.min _ _). assert (Hc : 0 <= c < 2 ^ 63 /\ rs_buf_start r <= c) by lia.
  unfold wrapu. rewrite Z.mod_small by lia.
  rewrite (proj2 (Z.ltb_ge _ _)) by lia. rewrite Hb, lookup_drop. f_equal. lia.
Qed.

Lemma emit_one_reference xs r :
  tracks xs r -> rs_n_out r < emittable (rs_from_rate r) (rs_to_rate r) (Z.of_nat (length xs)) ->
  emit_one r (rs_n_in r - 1) = reference (rs_from_rate r) (rs_to_rate r) xs (rs_n_out r) /\ is_Some (emit_one r (rs_n_in r - 1)).
Proof.
  intros Ht Hn. pose proof (tr_n_out _ _ Ht) as Ho. destruct (tr_fits _ _ Ht) as (Hf & Hto & Hm & Hb).
  assert (Hx : xs <> []) by (intros ->; unfold emittable in Hn; simpl in Hn; lia).
  assert (Hlen : 0 < Z.of_nat (length xs)) by (destruct xs; [done|simpl; lia]).
  pose proof (emittable_bounds _ _ _ Hf Hto Hlen) as He.
  unfold emit_one, reference, mul64, wrapu. rewrite (Z.mod_small (_ * _) (2 ^ 64)) by nia.
  fold (src_pos (rs_from_rate r) (rs_to_rate r) (rs_n_out r)).
  pose proof (emittable_pos (rs_from_rate r) (rs_to_rate r) _ (rs_n_out r) Hf Hto ltac:(split; [lia|exact Hn]) Hlen) as Hq.
  rewrite wraps_small by lia. set (q := src_pos _ _ _) in *.
  rewrite !(sample_at_history xs) by (done || (fold q; lia)). split; [done|].
  destruct (history_some xs (q - 1) Hx) as [s0 ->], (history_some xs q Hx) as [s1 ->], (history_some xs (q + 1) Hx) as [s2 ->],
    (history_some xs (q + 2) Hx) as [s3 ->]. by eexists.
Qed.

Lemma src_pos_mono from to a b : 0 < from -> 0 < to -> a <= b -> src_pos from to a <= src_pos from to b.
Proof. intros Hf Ht Hab. apply Z.div_le_mono; nia. Qed.

Lemma count_out_tracks xs r :
  tracks xs r -> rs_n_out r < emittable (rs_from_rate r) (rs_to_rate r) (Z.of_nat (length xs)) -> tracks xs (count_out r).
Proof.
  intros [Hf Hi Ho Hs Hl Hb] Hn. split; simpl; [done|done|lia|done| |done].
  pose proof Hf as (H1 & H2 & _). pose proof (src_pos_mono _ _ (rs_n_out r) (rs_n_out r + 1) H1 H2 ltac:(lia)). lia.
Qed.

(** The loop emits the reference, output by output. *)
Lemma emit_loop_reference fuel xs r :
  tracks xs r -> rs_n_out r + Z.of_nat fuel <= emittable (rs_from_rate r) (rs_to_rate r) (Z.of_nat (length xs)) ->
  exists r' os, emit_loop fuel (rs_n_in r - 1) r = Some (r', os) /\ tracks xs r' /\ length os = fuel /\
    rs_from_rate r' = rs_from_rate r /\ rs_to_rate r' = rs_to_rate r /\ rs_n_out r' = rs_n_out r + Z.of_nat fuel /\
    forall i o, os !! i = Some o -> reference (rs_from_rate r) (rs_to_rate r) xs (rs_n_out r + Z.of_nat i) = Some o.
Proof.
  revert r. induction fuel as [|fuel IH]; intros r Ht Hn.
  - exists r, []. split_and!; try done; try (simpl; lia); intros i o; by rewrite lookup_nil.
  - destruct (emit_one_reference xs r Ht ltac:(lia)) as [Hr [o Ho]].
    destruct (IH (count_out r)) as (r' & os & He & Ht' & Hl & Hf & Hto & Hno & Hos); [apply count_out_tracks; [done|lia]|simpl; lia|].
    cbn [emit_loop]. rewrite Ho. simpl in He. simpl. rewrite He. simpl. exists r', (o :: os).
    split_and!; try done; try (rewrite ?Hno; simpl; lia). intros [|i] o'; simpl.
    + intros [= <-]. rewrite Z.add_0_r. congruence.
    + intros Hi. specialize (Hos i o' Hi). simpl in Hos. rewrite <- Hos. f_equal. lia.
Qed.

(** Pruning keeps a suffix that starts no later than the next output needs. *)
Lemma prune_loop_spec target buf start :
  let '(buf', start') := prune_loop target buf start in
  exists k, start' = start + Z.of_nat k /\ buf' = drop k buf /\ (k = 0%nat \/ start' <= target) /\ (k <= length buf - 1)%nat.
Proof.
  revert start. induction buf as [|x [|y buf] IH]; intros start; [exists 0%nat; simpl; split_and!; [lia|done|by left|lia]..|].
  change (prune_loop target (x :: y :: buf) start)
    with (if start <? target then prune_loop target (y :: buf) (start + 1) else (x :: y :: buf, start)).
  destruct (Z.ltb_spec start target) as [Hlt|Hge].
  - specialize (IH (start + 1)). destruct (prune_loop target (y :: buf) (start + 1)) as [b' s']. destruct IH as (k & -> & -> & Hk & Hle).
    exists (S k). split_and!; [lia|done| |simpl in *; lia]. right. destruct Hk as [->|?]; lia.
  - exists 0%nat. split_and!; [lia|done|by left|lia].
Qed.

Lemma prune_tracks xs r :
  tracks xs r -> rs_n_out r = emittable (rs_from_rate r) (rs_to_rate r) (Z.of_nat (length xs)) -> xs <> [] -> tracks xs (prune r).
Proof.
  intros [Hf Hi Ho Hs Hl Hb] Hn Hx. pose proof Hf as (Hfr & Hto & Hm & Hb1).
  assert (Hlen : 0 < Z.of_nat (length xs)) by (destruct xs; [done|simpl; lia]).
  pose proof (emittable_bounds _ _ _ Hfr Hto Hlen) as He. unfold prune, mul64, wrapu. rewrite Z.mod_small by (rewrite Hn; nia).
  fold (src_pos (rs_from_rate r) (rs_to_rate r) (rs_n_out r)). set (q := src_pos _ _ _) in *.
  pose proof (prune_loop_spec (sat_sub q 1) (rs_buf r) (rs_buf_start r)) as Hp.
  destruct (prune_loop _ _ _) as [buf start]. destruct Hp as (k & -> & -> & Hk & Hle). unfold sat_sub in Hk.
  rewrite Hb, length_drop in Hle. split; simpl; [done|done|done|lia|destruct Hk as [->|?]; fold q; lia|].
  rewrite Hb, drop_drop. f_equal. lia.
Qed.

(** ** A chunk *)

(** [total_emittable] after a chunk, as [pending_output_count] announces it. *)
Lemma pending_eq xs input r :
  tracks xs r -> fits (rs_from_rate r) (rs_to_rate r) (Z.of_nat (length (xs ++ input))) ->
  pending_output_count r (length input) = emittable (rs_from_rate r) (rs_to_rate r) (Z.of_nat (length (xs ++ input))) - rs_n_out r.
Proof.
  intros Ht Hf. unfold pending_output_count. rewrite (tr_n_in _ _ Ht), <- Nat2Z.inj_add, <- length_app. by rewrite total_emittable_eq.
Qed.

Lemma emittable_mono from to a b : 0 < from -> 0 < to -> 0 <= a <= b -> emittable from to a <= emittable from to b.
Proof.
  intros Hf Ht Hab. unfold emittable. destruct (Z.eqb_spec a 0), (Z.eqb_spec b 0); [lia| |lia|].
  - pose proof (Z.div_pos ((b - 1) * to) from ltac:(nia) Hf). lia.
  - pose proof (Z.div_le_mono ((a - 1) * to) ((b - 1) * to) from Hf ltac:(nia)). lia.
Qed.

Lemma extend_tracks xs input r :
  tracks xs r -> fits (rs_from_rate r) (rs_to_rate r) (Z.of_nat (length (xs ++ input))) ->
  tracks (xs ++ input) (mkResampler (rs_from_rate r) (rs_to_rate r) (rs_buf r ++ input) (rs_buf_start r) (rs_n_in r + Z.of_nat (length input)) (rs_n_out r)).
Proof.
  intros [Hf Hi Ho Hs Hl Hb] Hf'. pose proof Hf as (H1 & H2 & _).
  pose proof (emittable_mono (rs_from_rate r) (rs_to_rate r) (Z.of_nat (length xs)) (Z.of_nat (length (xs ++ input))) H1 H2) as Hm.
  rewrite length_app in *. split; simpl; rewrite ?length_app; [done|lia|lia|lia|done|].
  rewrite Hb, drop_app_le by lia. done.
Qed.

(** Processing a chunk never panics, emits what was announced, and each output is
    the reference over everything received so far. *)
Lemma process_reference xs input r :
  tracks xs r -> fits (rs_from_rate r) (rs_to_rate r) (Z.of_nat (length (xs ++ input))) ->
  exists r' os, process input r = Some (r', os) /\ tracks (xs ++ input) r' /\
    rs_from_rate r' = rs_from_rate r /\ rs_to_rate r' = rs_to_rate r /\
    rs_n_out r' = emittable (rs_from_rate r) (rs_to_rate r) (Z.of_nat (length (xs ++ input))) /\
    Z.of_nat (length os) = pending_output_count r (length input) /\
    forall i o, os !! i = Some o -> reference (rs_from_rate r) (rs_to_rate r) (xs ++ input) (rs_n_out r + Z.of_nat i) = Some o.
Proof.
  intros Ht Hf. pose proof (extend_tracks xs input r Ht Hf) as Hx. rewrite (pending_eq xs) by done. unfold process.
  set (r0 := mkResampler _ _ _ _ _ _) in *. pose proof (tr_n_in _ _ Hx) as Hi. pose proof (tr_n_out _ _ Hx) as Ho. simpl in Ho.
  destruct (Z.eqb_spec (rs_n_in r0) 0) as [He|He].
  - exists r0, []. assert (H0 : length (xs ++ input) = 0%nat) by lia.
    assert (Hz : emittable (rs_from_rate r) (rs_to_rate r) (Z.of_nat (length (xs ++ input))) = 0) by (rewrite H0; done).
    rewrite Hz in *. split_and!; try done; try (simpl; lia); intros i o; by rewrite lookup_nil.
  - assert (Hxs : xs ++ input <> []) by (intros Heq; apply He; rewrite Hi, Heq; done).
    assert (Htot : total_emittable r0 (rs_n_in r0) = emittable (rs_from_rate r) (rs_to_rate r) (Z.of_nat (length (xs ++ input))))
      by (rewrite Hi; exact (total_emittable_eq r0 _ Hf)).
    rewrite Htot. change (rs_n_out r0) with (rs_n_out r).
    set (target := emittable _ _ _) in *.
    destruct (emit_loop_reference (Z.to_nat (target - rs_n_out r)) (xs ++ input) r0 Hx) as (r1 & os & -> & Ht1 & Hl & Hf1 & Hto1 & Hno & Hos);
      [simpl; fold target; lia|].
    simpl in Hno, Hf1, Hto1, Hos. simpl. assert (Hd : rs_n_out r1 = target) by lia.
    assert (Hp : tracks (xs ++ input) (prune r1)) by (apply prune_tracks; [done|rewrite Hd, Hf1, Hto1; done|done]).
    assert (Hsame : rs_from_rate (prune r1) = rs_from_rate r1 /\ rs_to_rate (prune r1) = rs_to_rate r1 /\ rs_n_out (prune r1) = rs_n_out r1)
      by (unfold prune; destruct (prune_loop _ _ _); done).
    destruct Hsame as (S1 & S2 & S3). exists (prune r1), os. split_and!; try done; try congruence; lia.
Qed.

(** ** Cutting the input *)

Lemma history_prefix xs m abs : (0 < m <= length xs)%nat -> abs < Z.of_nat m -> history_at (take m xs) abs = history_at xs abs.
Proof.
  intros Hm Ha. unfold history_at. rewrite length_take, Nat.min_l by lia. rewrite lookup_take_lt by lia. f_equal. lia.
Qed.

(** What an output can lose by being emitted early: its two inputs before it are
    the final ones, its successor is too unless the output sits on an input, and
    with two inputs ahead nothing is lost. *)
Definition emitted_early (from to : Z) (xs : list T) (m : nat) (n : Z) (o : T) : Prop :=
  reference from to (take m xs) n = Some o /\
  (src_pos from to n + 2 < Z.of_nat m -> reference from to xs n = Some o) /\
  exists s0 s1 s2 s2' s3 s3' t,
    o = catmull s0 s1 s2 s3 t /\ reference from to xs n = Some (catmull s0 s1 s2' s3' t) /\
    (s2 = s2' \/ ((n * from) mod to = 0)).

Lemma reference_prefix from to xs (m : nat) n o :
  0 < from -> 0 < to -> (0 < m <= length xs)%nat -> 0 <= n < emittable from to (Z.of_nat m) ->
  reference from to (take m xs) n = Some o -> emitted_early from to xs m n o.
Proof.
  intros Hf Ht Hm Hn Ho. split; [done|]. pose proof (emittable_pos from to (Z.of_nat m) n Hf Ht Hn ltac:(lia)) as Hp.
  assert (Hx : xs <> []) by (destruct xs; [simpl in Hm; lia|done]).
  split.
  - intros Hla. rewrite <- Ho. unfold reference. by rewrite !history_prefix by lia.
  - revert Ho. unfold reference. set (q := src_pos from to n) in *. rewrite !(history_prefix xs m (q - 1)), !(history_prefix xs m q) by lia.
    destruct (history_some xs (q - 1) Hx) as [s0 ->], (history_some xs q Hx) as [s1 ->]. simpl.
    destruct (history_at (take m xs) (q + 1)) as [s2|] eqn:H2; [simpl|done]. destruct (history_at (take m xs) (q + 2)) as [s3|] eqn:H3; [simpl|done].
    destruct (history_some xs (q + 1) Hx) as [s2' H2'], (history_some xs (q + 2) Hx) as [s3' H3']. rewrite H2', H3'. simpl. intros [= <-].
    eexists s0, s1, s2, s2', s3, s3', _. split_and!; [done..|]. destruct (Z.eq_dec q (Z.of_nat m - 1)) as [He|He].
    + right. assert (n * from <= (Z.of_nat m - 1) * to).
      { unfold emittable in Hn. destruct (Z.eqb_spec (Z.of_nat m) 0); [lia|].
        pose proof (Z.mul_div_le ((Z.of_nat m - 1) * to) from Hf). nia. }
      unfold q, src_pos in He. pose proof (Z.div_mod (n * from) to ltac:(lia)) as Hd. pose proof (Z.mod_pos_bound (n * from) to Ht). nia.
    + left. rewrite history_prefix in H2 by lia. congruence.
Qed.

Lemma process_all_reference chunks xs r :
  tracks xs r -> rs_n_out r = emittable (rs_from_rate r) (rs_to_rate r) (Z.of_nat (length xs)) ->
  fits (rs_from_rate r) (rs_to_rate r) (Z.of_nat (length (xs ++ mjoin chunks))) ->
  exists r' os, process_all chunks r = Some (r', os) /\
    rs_n_out r + Z.of_nat (length os) = emittable (rs_from_rate r) (rs_to_rate r) (Z.of_nat (length (xs ++ mjoin chunks))) /\
    forall i o, os !! i = Some o -> exists k, let m := length (xs ++ mjoin (take k chunks)) in
      rs_n_out r + Z.of_nat i < emittable (rs_from_rate r) (rs_to_rate r) (Z.of_nat m) /\
      reference (rs_from_rate r) (rs_to_rate r) (take m (xs ++ mjoin chunks)) (rs_n_out r + Z.of_nat i) = Some o.
Proof.
  revert xs r. induction chunks as [|c chunks IH]; intros xs r Ht Hn Hf.
  - exists r, []. simpl. rewrite app_nil_r. split_and!; [done|lia|]. intros i o. by rewrite lookup_nil.
  - change (mjoin (c :: chunks)) with (c ++ mjoin chunks) in *. rewrite app_assoc in *.
    assert (Hfc : fits (rs_from_rate r) (rs_to_rate r) (Z.of_nat (length (xs ++ c)))).
    { destruct Hf as (H1 & H2 & H3 & H4). rewrite length_app in H3, H4. unfold fits. split_and!; nia. }
    destruct (process_reference xs c r Ht Hfc) as (r1 & os & Hp & Ht1 & Hf1 & Hto1 & Hn1 & Hl & Hos).
    rewrite <- Hf1, <- Hto1 in Hn1. destruct (IH (xs ++ c) r1 Ht1 Hn1) as (r2 & os2 & Hp2 & Hl2 & Hos2); [by rewrite Hf1, Hto1|].
    exists r2, (os ++ os2). cbn [process_all]. rewrite Hp. simpl. rewrite Hp2. simpl. split; [done|].
    rewrite (pending_eq xs) in Hl by done. rewrite Hf1, Hto1 in *. rewrite length_app. split; [lia|].
    intros i o Hi. apply lookup_app_Some in Hi as [Hi|[Hle Hi]].
    + exists 1%nat. cbn [take]. replace (mjoin [c]) with c by (simpl; by rewrite app_nil_r). pose proof (lookup_lt_Some _ _ _ Hi).
      split; [lia|]. rewrite take_app_length. by apply Hos.
    + destruct (Hos2 _ _ Hi) as (k & Hk & Hr). exists (S k). cbn [take].
      change (mjoin (c :: take k chunks)) with (c ++ mjoin (take k chunks)). rewrite !app_assoc.
      replace (rs_n_out r + Z.of_nat i) with (rs_n_out r1 + Z.of_nat (i - length os)) by lia. done.
Qed.

(** C30. However a stream is cut into chunks, resampling it never panics; after [m]
    inputs exactly [(m - 1) * to / from + 1] outputs have appeared, so that the
    rates agree to within one input for ever; and every output is the
    interpolation over what had arrived, which is the interpolation over the whole
    stream except for the look-ahead that had not arrived yet. *)
Theorem resampler_streams (from to : Z) (chunks : list (list T)) :
  let xs := mjoin chunks in
  fits from to (Z.of_nat (length xs)) ->
  exists r os, process_all chunks (mkResampler from to [] 0 0 0) = Some (r, os) /\
    Z.of_nat (length os) = emittable from to (Z.of_nat (length xs)) /\
    (xs <> [] -> (Z.of_nat (length xs) - 1) * to < Z.of_nat (length os) * from <= (Z.of_nat (length xs) - 1) * to + from) /\
    forall i o, os !! i = Some o -> exists k, emitted_early from to xs (length (mjoin (take k chunks))) (Z.of_nat i) o.
Proof.
  intros xs Hf. pose proof Hf as (H1 & H2 & H3 & H4). set (r0 := mkResampler from to [] 0 0 0).
  assert (Ht : tracks [] r0) by (split; simpl; rewrite ?drop_nil; try done; try (unfold fits; split_and!; nia); unfold src_pos, emittable; simpl; lia).
  destruct (process_all_reference chunks [] r0 Ht eq_refl Hf) as (r & os & Hp & Hl & Hos). exists r, os. cbn [rs_n_out rs_from_rate rs_to_rate app r0] in Hl, Hos. fold xs in Hl. rewrite Z.add_0_l in Hl. split_and!; [done|done| |].
  - intros Hx. rewrite Hl. apply emittable_bounds; [done|done|]. destruct xs; [done|simpl; lia].
  - intros i o Hi. destruct (Hos i o Hi) as (k & Hk & Hr). exists k. fold xs in Hr. set (m := length (mjoin (take k chunks))) in *.
    assert (Hm : (0 < m)%nat) by (destruct m; [unfold emittable in Hk; simpl in Hk; lia|lia]).
    apply reference_prefix; [done|done| |lia|done]. split; [done|]. unfold m, xs.
    rewrite <- (take_drop k chunks) at 2. rewrite join_app, length_app. lia.
Qed.
End resampler.

(** ** What the outputs are made of *)

Section made_of.
Context {T : Type} `{!CatmullInterp T} (from to : Z).
Implicit Types r : StreamingResampler T.

(** The interpolation positions of a resampler. *)
Definition phase_of (t : F32.t) : Prop := exists k, t = F32.div (F32.of_int (k mod to)) (F32.of_int to).

Lemma sample_at_elem r abs last s : sample_at r abs last = Some s -> s ∈ rs_buf r.
Proof. unfold sample_at. destruct (_ <? _); [done|]. by intros ?%list_elem_of_lookup_2. Qed.

Lemma emit_loop_made_of (Pin Pout : T -> Prop) fuel last r r' os :
  (forall s0 s1 s2 s3 t, Pin s0 -> Pin s1 -> Pin s2 -> Pin s3 -> phase_of t -> Pout (catmull s0 s1 s2 s3 t)) ->
  rs_to_rate r = to -> Forall Pin (rs_buf r) -> emit_loop fuel last r = Some (r', os) ->
  Forall Pout os /\ rs_buf r' = rs_buf r.
Proof.
  intros Hc Hto Hin. revert r r' os Hto Hin. induction fuel as [|fuel IH]; intros r r' os Hto Hin; simpl; [by intros [= <- <-]|].
  destruct (emit_one r last) as [o|] eqn:Ho; simpl; [|done]. destruct (emit_loop fuel last (count_out r)) as [[r1 os1]|] eqn:He; simpl; [|done].
  intros [= <- <-]. destruct (IH (count_out r) r1 os1 Hto Hin He) as [Hos Hb]. split; [|done]. constructor; [|done].
  unfold emit_one in Ho. apply bind_Some in Ho as (s0 & H0 & Ho). apply bind_Some in Ho as (s1 & H1 & Ho).
  apply bind_Some in Ho as (s2 & H2 & Ho). apply bind_Some in Ho as (s3 & H3 & [= <-]). rewrite Forall_forall in Hin.
  apply Hc; try (eapply Hin, sample_at_elem; eassumption). rewrite Hto. by eexists.
Qed.

(** Every output interpolates retained or new inputs, and only those are retained. *)
Lemma process_made_of (Pin Pout : T -> Prop) input r r' os :
  (forall s0 s1 s2 s3 t, Pin s0 -> Pin s1 -> Pin s2 -> Pin s3 -> phase_of t -> Pout (catmull s0 s1 s2 s3 t)) ->
  rs_to_rate r = to -> Forall Pin (rs_buf r) -> Forall Pin input -> process input r = Some (r', os) ->
  Forall Pout os /\ Forall Pin (rs_buf r').
Proof.
  intros Hc Hto Hb Hi. unfold process. set (r0 := mkResampler _ _ _ _ _ _). assert (H0 : Forall Pin (rs_buf r0)) by (by apply Forall_app_2).
  destruct (_ =? 0); [by intros [= <- <-]|]. destruct (emit_loop _ _ r0) as [[r1 os1]|] eqn:He; simpl; [|done]. intros [= <- <-].
  destruct (emit_loop_made_of Pin Pout _ _ r0 r1 os1 Hc Hto H0 He) as [Hos Hb1]. split; [done|].
  unfold prune. pose proof (prune_loop_spec (sat_sub (mul64 (rs_n_out r1) (rs_from_rate r1) / rs_to_rate r1) 1) (rs_buf r1) (rs_buf_start r1)) as Hp.
  destruct (prune_loop _ _ _) as [buf start]. destruct Hp as (k & _ & -> & _). simpl. rewrite Hb1. by apply Forall_drop.
Qed.
End made_of.

(** *** Bounds of an interpolated value *)

Lemma f32_mul_int x y A B : f32_bounded x A 0 -> f32_bounded y B 0 -> 0 < A * B < 2 ^ 24 -> f32_bounded (F32.mul x y) (A * B) 0.
Proof. intros Hx Hy HAB. apply (mul_bounded 24 128 eq_refl eq_refl _ _ A 0 B 0); [done|done|by apply rep_small|apply dle_refl]. Qed.

Lemma f32_add_int x y A B : f32_bounded x A 0 -> f32_bounded y B 0 -> 0 <= A -> 0 <= B -> 0 < A + B < 2 ^ 24 -> f32_bounded (F32.add x y) (A + B) 0.
Proof. intros Hx Hy HA HB HAB. apply (add_bounded 24 128 eq_refl); [done..|by apply rep_small]. Qed.

Lemma f32_sub_int x y A B : f32_bounded x A 0 -> f32_bounded y B 0 -> 0 <= A -> 0 <= B -> 0 < A + B < 2 ^ 24 -> f32_bounded (F32.sub x y) (A + B) 0.
Proof. intros Hx Hy HA HB HAB. apply (sub_bounded 24 128 eq_refl); [done..|by apply rep_small]. Qed.

(** From values in [-1, 1] the spline stays small: it cannot overflow or become
    a NaN. *)
Lemma catmull_rom_bounded s0 s1 s2 s3 t :
  f32_bounded s0 1 0 -> f32_bounded s1 1 0 -> f32_bounded s2 1 0 -> f32_bounded s3 1 0 -> f32_bounded t 1 0 ->
  f32_bounded (catmull_rom s0 s1 s2 s3 t) 16 0.
Proof.
  intros H0 H1 H2 H3 Ht. assert (Hh : f32_bounded f32_half 1 0) by literal_bound. assert (H25 : f32_bounded f32_2_5 3 0) by literal_bound.
  assert (H15 : f32_bounded f32_1_5 2 0) by literal_bound. assert (Hf2 : f32_bounded f2 2 0) by literal_bound. unfold catmull_rom. cbv zeta.
  assert (Hc1 : f32_bounded (F32.mul f32_half (F32.sub s2 s0)) 2 0)
    by (apply (f32_mul_int _ _ 1 2); [done|apply (f32_sub_int _ _ 1 1); (done || lia)|lia]).
  assert (Hc2 : f32_bounded (F32.sub (F32.add (F32.sub s0 (F32.mul f32_2_5 s1)) (F32.mul f2 s2)) (F32.mul f32_half s3)) 7 0).
  { apply (f32_sub_int _ _ 6 1); [|apply (f32_mul_int _ _ 1 1); (done || lia)|lia..].
    apply (f32_add_int _ _ 4 2); [|apply (f32_mul_int _ _ 2 1); (done || lia)|lia..].
    apply (f32_sub_int _ _ 1 3); [done|apply (f32_mul_int _ _ 3 1); (done || lia)|lia..]. }
  assert (Hc3 : f32_bounded (F32.add (F32.mul f32_half (F32.sub s3 s0)) (F32.mul f32_1_5 (F32.sub s1 s2))) 6 0).
  { apply (f32_add_int _ _ 2 4); [apply (f32_mul_int _ _ 1 2)|apply (f32_mul_int _ _ 2 2)|lia..];
      try done; try lia; apply (f32_sub_int _ _ 1 1); (done || lia). }
  set (c1 := F32.mul f32_half (F32.sub s2 s0)) in *. set (c2 := F32.sub _ (F32.mul f32_half s3)) in *. set (c3 := F32.add _ (F32.mul f32_1_5 _)) in *.
  apply (f32_add_int _ _ 15 1); [|done|lia..]. apply (f32_mul_int _ _ 15 1); [|done|lia]. apply (f32_add_int _ _ 13 2); [|done|lia..].
  apply (f32_mul_int _ _ 13 1); [|done|lia]. apply (f32_add_int _ _ 6 7); [|done|lia..]. apply (f32_mul_int _ _ 6 1); [done|done|lia].
Qed.

Lemma catmull_rom_valid s0 s1 s2 s3 t :
  F32.valid s0 = true -> F32.valid s1 = true -> F32.valid s2 = true -> F32.valid s3 = true -> F32.valid t = true ->
  F32.valid (catmull_rom s0 s1 s2 s3 t) = true.
Proof.
  intros H0 H1 H2 H3 Ht. unfold catmull_rom, F32.valid, F32.add, F32.sub, F32.mul in *. cbv zeta.
  repeat (apply add_valid || apply sub_valid || apply mul_valid); done.
Qed.

(** The position between two inputs is in [0, 1]. *)
Lemma phase_bounded to t : 0 < to < 2 ^ 24 -> phase_of to t -> f32_bounded t 1 0.
Proof.
  intros Hto [k ->]. pose proof (Z.mod_pos_bound k to ltac:(lia)) as Hk. destruct to as [|p|p]; [lia| |lia].
  destruct (normalize_exact 24 128 eq_refl eq_refl p false) as (m & e & He & Hle & Hm); [lia|]. unfold F32.of_int, of_int. rewrite He.
  apply (div_bounded 24 128); [done|apply normalize_valid; done| |by apply rep_small]. rewrite Z.mul_1_l, Z.add_0_l, Hm.
  destruct (Z.eq_dec (k mod Zpos p) 0) as [->|Hz]; [done|].
  assert (Hb : f32_bounded (SpecFloat.binary_normalize 24 128 (k mod Zpos p) 0 false) (Zpos p) 0).
  { apply (normalize_bounded 24 128 eq_refl); [|apply rep_small; lia]. unfold dle. rewrite Z.min_id, Z.sub_diag. lia. }
  refine (proj2 (bounded_weaken 24 128 _ (Zpos p) 0 _ _ Hb _)).
  unfold dle. rewrite Z.min_r, Z.sub_diag, Z.sub_0_l by lia. lia.
Qed.

(** ** Example *)

Lemma resampler_streams_witness :
  let chunks := [[f0; f1; fm1]; []; [f1; f1]] in
  exists r os, process_all chunks (mkResampler 2 3 [] 0 0 0) = Some (r, os) /\
    Z.of_nat (length os) = emittable 2 3 5 /\
    (mjoin chunks <> [] -> (5 - 1) * 3 < Z.of_nat (length os) * 2 <= (5 - 1) * 3 + 2) /\
    forall i o, os !! i = Some o -> exists k, emitted_early 2 3 (mjoin chunks) (length (mjoin (take k chunks))) (Z.of_nat i) o.
Proof. exact (resampler_streams 2 3 [[f0; f1; fm1]; []; [f1; f1]] ltac:(unfold fits; simpl; split_and!; lia)). Defined.
