(* ===== verification/AudioSink.v ===== *)
(** * The queue between a producer and an audio callback

    Models [src/src/protocols/audio_sink.rs]: the bounded queue the audio-clocked
    backends share with the real-time callback, and the write path that reserves
    room, resamples a chunk and pushes it.  The callback may run between any two
    pushes: how many points it takes before each push is an argument, so the
    theorems hold for every interleaving. *)

From stdpp Require Import strings.
From S2P Require Import Prelude Floats Point Resample.

#[local] Open Scope Z_scope.

(** The sample formats of the audio host that the backends tell apart. *)
Inductive SampleFormat :=
  | SfF32
  | SfI16
  | SfI32
  | SfOther (name : string).

#[export] Instance SampleFormat_eq_dec : EqDecision SampleFormat.
Proof. solve_decision. Defined.

(** ** The sink *)

Record AudioSinkState (P : Type) := mkSink {
  sk_queue : list P;
  sk_capacity : nat;
  sk_sample_rate : Z;
  sk_last : F32.t * F32.t;
}.
Arguments mkSink {P}.
Arguments sk_queue {P}.
Arguments sk_capacity {P}.
Arguments sk_sample_rate {P}.
Arguments sk_last {P}.

Section sink.
Context {P : Type}.
Implicit Types s : AudioSinkState P.

(** [None]: the queue refuses a capacity of zero. *)
Definition sink_new (capacity : nat) (sample_rate : Z) : option (AudioSinkState P) :=
  assert! bool_decide (0 < capacity)%nat;; Some (mkSink [] capacity sample_rate (f0, f0)).

Definition with_queue (q : list P) s : AudioSinkState P := mkSink q (sk_capacity s) (sk_sample_rate s) (sk_last s).

Definition remaining_capacity s : nat := sk_capacity s - length (sk_queue s).

Definition has_capacity_for s (count : Z) : bool := (count =? 0) || (count <=? Z.of_nat (remaining_capacity s)).

Definition queued_points s : Z := Z.of_nat (length (sk_queue s)).

Definition pop s : option P * AudioSinkState P :=
  match sk_queue s with
  | [] => (None, s)
  | p :: q => (Some p, with_queue q s)
  end.

(** The clearing loop; the queue bounds its rounds. *)
Fixpoint clear_loop (fuel : nat) s : AudioSinkState P :=
  match fuel with
  | O => s
  | S fuel => match pop s with (Some _, s) => clear_loop fuel s | (None, s) => s end
  end.

Definition clear_queue s : AudioSinkState P := clear_loop (S (length (sk_queue s))) s.

(** [None]: the queue was full (the debug assertion; a release build loses the
    point). *)
Definition push_point (p : P) s : option (AudioSinkState P) :=
  assert! bool_decide (length (sk_queue s) < sk_capacity s)%nat;; Some (with_queue (sk_queue s ++ [p]) s).

Definition set_last_output (a b : F32.t) s : AudioSinkState P := mkSink (sk_queue s) (sk_capacity s) (sk_sample_rate s) (a, b).

Definition last_output s : F32.t * F32.t := sk_last s.

(** [n] frames of the callback, with the points it got; [frame] is what a frame of
    the backend's callback does to the sink. *)
Fixpoint take_points (frame : AudioSinkState P -> AudioSinkState P) (n : nat) s : list P * AudioSinkState P :=
  match n with
  | O => ([], s)
  | S n => let '(ps, s') := take_points frame n (frame s) in (option_list (head (sk_queue s)) ++ ps, s')
  end.

(** The resampler's [emit]: pushes, with what the callback took before each. *)
Fixpoint push_all (frame : AudioSinkState P -> AudioSinkState P) (gaps : list nat) (os : list P) s : option (list P * AudioSinkState P) :=
  match os with
  | [] => Some ([], s)
  | o :: os =>
      let '(got, s) := take_points frame (hd 0%nat gaps) s in
      s ← push_point o s;
      '(got', s) ← push_all frame (tl gaps) os s;
      Some (got ++ got', s)
  end.

(** [push_chunk_resampled] of an already converted chunk: what the callback took
    meanwhile, the sink, the scratch buffer and the resampler. *)
Definition push_chunk_resampled `{!CatmullInterp P} (frame : AudioSinkState P -> AudioSinkState P) (gaps : list nat) (chunk : list P)
    (r : StreamingResampler P) s : option (list P * AudioSinkState P * list P * StreamingResampler P) :=
  '(r, os) ← process chunk r;
  '(got, s) ← push_all frame gaps os s;
  Some (got, s, chunk, r).

(** What the write path relies on of a callback: a frame takes the next point, if
    there is one, and leaves the rest. *)
Class PopsOne (frame : AudioSinkState P -> AudioSinkState P) :=
  pops_one : forall s, sk_queue (frame s) = tl (sk_queue s) /\ sk_capacity (frame s) = sk_capacity s /\ sk_sample_rate (frame s) = sk_sample_rate s.

(** ** Lemmas *)

Lemma pop_spec s : option_list (pop s).1 ++ sk_queue (pop s).2 = sk_queue s /\
  sk_capacity (pop s).2 = sk_capacity s /\ sk_sample_rate (pop s).2 = sk_sample_rate s.
Proof. unfold pop. by destruct (sk_queue s) as [|p q] eqn:Hq; simpl; rewrite ?Hq. Qed.

Lemma clear_queue_spec s : clear_queue s = with_queue [] s.
Proof.
  unfold clear_queue. destruct s as [q c rate l]. unfold with_queue. simpl sk_queue. simpl sk_capacity. simpl sk_last.
  induction q as [|p q IH]; [done|]. simpl length. cbn [clear_loop]. unfold pop. simpl. apply IH.
Qed.

Section with_callback.
Context (frame : AudioSinkState P -> AudioSinkState P) `{!PopsOne frame}.

Lemma take_points_spec n s :
  (take_points frame n s).1 = take n (sk_queue s) /\ sk_queue (take_points frame n s).2 = drop n (sk_queue s) /\
  sk_capacity (take_points frame n s).2 = sk_capacity s /\ sk_sample_rate (take_points frame n s).2 = sk_sample_rate s.
Proof.
  revert s. induction n as [|n IH]; intros s; [done|]. cbn [take_points]. specialize (IH (frame s)). destruct (pops_one s) as (Hq & Hc & Hr).
  destruct (take_points frame n (frame s)) as [ps s']. simpl in *. rewrite Hq, Hc, Hr in IH. destruct IH as (-> & Hd & -> & ->).
  destruct (sk_queue s) as [|p q]; simpl in *; [by rewrite take_nil, Hd, drop_nil|by rewrite Hd].
Qed.

(** Room for every push, whatever the callback takes meanwhile: nothing is lost
    and nothing is reordered. *)
Lemma push_all_spec gaps os s :
  (length (sk_queue s) + length os <= sk_capacity s)%nat ->
  exists got s', push_all frame gaps os s = Some (got, s') /\ got ++ sk_queue s' = sk_queue s ++ os /\
    sk_capacity s' = sk_capacity s /\ sk_sample_rate s' = sk_sample_rate s.
Proof.
  revert gaps s. induction os as [|o os IH]; intros gaps s Hc; simpl.
  - exists [], s. by rewrite app_nil_r.
  - destruct (take_points_spec (hd 0%nat gaps) s) as (Hg & Hd & Hcap & Hr). destruct (take_points frame _ s) as [got s1]. simpl in *. subst got.
    assert (Hl : (length (sk_queue s1) <= length (sk_queue s))%nat) by (rewrite Hd, length_drop; lia).
    unfold push_point. rewrite bool_decide_eq_true_2 by lia. simpl.
    destruct (IH (tl gaps) (with_queue (sk_queue s1 ++ [o]) s1)) as (got' & s' & -> & Hg & Hc' & Hr'); [simpl; rewrite length_app; simpl; lia|].
    simpl in *. eexists _, s'. split; [done|]. rewrite <- app_assoc, Hg, Hd, app_assoc, app_assoc, take_drop, <- app_assoc. split; [done|]. split; congruence.
Qed.

(** What is true of the sink and kept by pushes of [Q] points and by the callback
    holds throughout. *)
Lemma push_all_kept (Q : P -> Prop) (I : AudioSinkState P -> Prop) gaps os s got s' :
  (forall s, I s -> I (frame s)) -> (forall p s, Q p -> I s -> I (with_queue (sk_queue s ++ [p]) s)) ->
  Forall Q os -> I s -> push_all frame gaps os s = Some (got, s') -> I s'.
Proof.
  intros Hframe Hpush. revert gaps s got. induction os as [|o os IH]; intros gaps s got Hos HI; simpl; [by intros [= <- <-]|].
  assert (Htake : forall n s, I s -> I (take_points frame n s).2).
  { intros n. induction n as [|n IHn]; intros s0 H0; [done|]. simpl. specialize (IHn (frame s0) (Hframe s0 H0)). by destruct (take_points frame n _). }
  inversion Hos as [|? ? Ho Hos']; subst. specialize (Htake (hd 0%nat gaps) s HI). destruct (take_points frame _ s) as [g1 s1]. simpl in Htake.
  unfold push_point. destruct (bool_decide _); simpl; [|done].
  destruct (push_all frame (tl gaps) os _) as [[g2 s2]|] eqn:He; simpl; [|done]. intros [= <- <-]. eapply IH; [done| |done]. by apply Hpush.
Qed.
End with_callback.
End sink.

Lemma fits_u32 from to m : 0 < from < 2 ^ 32 -> 0 < to < 2 ^ 32 -> 0 <= m < 2 ^ 31 -> fits from to m.
Proof. intros Hf Ht Hm. unfold fits. split_and!; nia. Qed.

Section reserved.
Context {P : Type} `{!CatmullInterp P}.
Implicit Types s : AudioSinkState P.
Implicit Types r : StreamingResampler P.

(** A resampler in the middle of some stream of at most [n] inputs. *)
Definition in_stream (n : Z) r : Prop :=
  exists xs : list P, tracks xs r /\ rs_n_out r = emittable (rs_from_rate r) (rs_to_rate r) (Z.of_nat (length xs)) /\ Z.of_nat (length xs) <= n.

Lemma fresh_in_stream n from to : 0 <= n -> 0 < from < 2 ^ 32 -> 0 < to < 2 ^ 32 -> in_stream n (mkResampler (T := P) from to [] 0 0 0).
Proof.
  intros Hn Hf Ht. exists []. split_and!; [|done|done]. split; simpl; rewrite ?drop_nil; try done.
  by apply fits_u32.
Qed.

Lemma in_stream_weaken n m r : n <= m -> in_stream n r -> in_stream m r.
Proof. intros Hle (xs & Ht & Ho & Hl). exists xs. split_and!; [done|done|lia]. Qed.

Lemma in_stream_rates n r : in_stream n r -> 0 < rs_from_rate r /\ 0 < rs_to_rate r.
Proof. intros (xs & Ht & _). by destruct (tr_fits _ _ Ht) as (? & ? & _). Qed.

Lemma reset_in_stream n r : 0 <= n -> 0 < rs_from_rate r < 2 ^ 32 -> 0 < rs_to_rate r < 2 ^ 32 -> in_stream n (resampler_reset r).
Proof. intros. by apply fresh_in_stream. Qed.

Lemma set_rates_in_stream n from to r :
  in_stream n r -> 0 <= n -> 0 < from < 2 ^ 32 -> 0 < to < 2 ^ 32 ->
  exists r', set_rates from to r = Some r' /\ in_stream n r' /\ rs_from_rate r' = from /\ rs_to_rate r' = to.
Proof.
  intros Hr Hn Hf Ht. unfold set_rates. rewrite !(proj2 (Z.ltb_lt _ _)) by lia. simpl.
  destruct (Z.eqb_spec from (rs_from_rate r)), (Z.eqb_spec to (rs_to_rate r)); simpl; eexists; (split; [done|]); try done;
    (split; [by apply fresh_in_stream|done]).
Qed.

Context (frame : AudioSinkState P -> AudioSinkState P) `{!PopsOne frame}.

(** A chunk that room was reserved for is pushed completely, whatever the
    callback does meanwhile. *)
Lemma reserved_push n gaps chunk r s :
  in_stream n r -> 0 <= n -> n + Z.of_nat (length chunk) < 2 ^ 31 -> rs_from_rate r < 2 ^ 32 -> rs_to_rate r < 2 ^ 32 ->
  (length (sk_queue s) <= sk_capacity s)%nat ->
  has_capacity_for s (pending_output_count r (length chunk)) = true ->
  exists got s' r' os, push_chunk_resampled frame gaps chunk r s = Some (got, s', chunk, r') /\ process chunk r = Some (r', os) /\
    Z.of_nat (length os) = pending_output_count r (length chunk) /\
    got ++ sk_queue s' = sk_queue s ++ os /\ sk_capacity s' = sk_capacity s /\ sk_sample_rate s' = sk_sample_rate s /\
    in_stream (n + Z.of_nat (length chunk)) r' /\ rs_from_rate r' = rs_from_rate r /\ rs_to_rate r' = rs_to_rate r.
Proof.
  intros Hin Hn Hlen Hf Ht Hq Hcap. pose proof (in_stream_rates _ _ Hin) as [Hf0 Ht0]. destruct Hin as (xs & Htr & Ho & Hx).
  destruct (process_reference xs chunk r Htr) as (r' & os & Hp & Htr' & Hf' & Ht' & Hn' & Hl & _);
    [apply fits_u32; [lia|lia|rewrite length_app; lia]|].
  unfold has_capacity_for, remaining_capacity in Hcap. rewrite <- Hl in Hcap.
  assert (Hroom : (length (sk_queue s) + length os <= sk_capacity s)%nat) by (apply orb_true_iff in Hcap as [Hz%Z.eqb_eq|Hz%Z.leb_le]; lia).
  destruct (push_all_spec frame gaps os s Hroom) as (got & s' & Ha & Hg & Hc & Hr).
  unfold push_chunk_resampled. rewrite Hp. simpl. rewrite Ha. simpl. exists got, s', r', os. split_and!; try done.
  exists (xs ++ chunk). rewrite Hf', Ht'. split_and!; [done|done|]. rewrite length_app. lia.
Qed.
End reserved.
