(* ===== verification/Oscilloscope.v ===== *)
(** * The oscilloscope backend

    Models [src/src/protocols/oscilloscope/]: points as stereo samples on an audio
    device in XY mode.  The audio host is a description of what it enumerates; the
    audio callback and the stream's error callback are operations of their own, so
    that a run interleaves them with the backend's. *)

From stdpp Require Import strings.
From S2P Require Import Prelude Floats Point Session Backend Estimators Bytes Utf8 Discovery Resample AudioSink.

#[local] Open Scope Z_scope.

(** ** Configuration *)

Record OscilloscopeConfig := mkOscConfig {
  oc_gain : F32.t;
  oc_dc_offset : F32.t;
  oc_clip : bool;
}.

Definition default_config : OscilloscopeConfig := mkOscConfig f1 f0 true.

Definition buffer_capacity (sample_rate : Z) : Z := Z.max (sample_rate / 10) 4096.

Definition capabilities (sample_rate : Z) : DacCapabilities := mkCaps 1 100000 (buffer_capacity sample_rate) NetworkFifo.

(** ** The runtime state *)

Definition MUTE_RAMP_MS : F32.t := F32.of_int 3.

Record RuntimeState := mkRuntime {
  rt_sink : AudioSinkState (F32.t * F32.t);
  rt_muted : bool;
  rt_connected : bool;
}.

Definition set_sink (s : AudioSinkState (F32.t * F32.t)) (rt : RuntimeState) : RuntimeState := mkRuntime s (rt_muted rt) (rt_connected rt).

Definition set_muted (m : bool) (rt : RuntimeState) : RuntimeState := mkRuntime (rt_sink rt) m (rt_connected rt).

Definition set_rt_connected (c : bool) (rt : RuntimeState) : RuntimeState := mkRuntime (rt_sink rt) (rt_muted rt) c.

Definition runtime_new (capacity : nat) (sample_rate : Z) : option RuntimeState :=
  s ← sink_new capacity sample_rate; Some (mkRuntime s true false).

(** The share of the held value a muted sample gives up. *)
Definition ramp_step (sample_rate : Z) : F32.t :=
  fclamp (F32.div (F32.of_int 1000) (F32.mul MUTE_RAMP_MS (F32.of_int sample_rate))) f0 f1.

Definition ramp (k last : F32.t) : F32.t := F32.add last (F32.mul (F32.sub f0 last) k).

(** [next_output], on the sink. *)
Definition output_frame (muted : bool) (s : AudioSinkState (F32.t * F32.t)) : AudioSinkState (F32.t * F32.t) * (F32.t * F32.t) :=
  let '(queued, s) := pop s in
  let '(last_l, last_r) := last_output s in
  let '(l, r) :=
    if muted then
      let k := ramp_step (sk_sample_rate s) in (ramp k last_l, ramp k last_r)
    else
      match queued with
      | Some (l, r) => (l, r)
      | None => (last_l, last_r)
      end in
  (set_last_output l r s, (l, r)).

Definition callback_frame (muted : bool) (s : AudioSinkState (F32.t * F32.t)) : AudioSinkState (F32.t * F32.t) := (output_frame muted s).1.

Definition next_output (rt : RuntimeState) : RuntimeState * (F32.t * F32.t) :=
  let '(s, out) := output_frame (rt_muted rt) (rt_sink rt) in (set_sink s rt, out).

(** The callbacks over a buffer of [len] interleaved samples; [None]: the last
    frame is cut. *)
Fixpoint fill_output {A} (convert : F32.t -> A) (len : nat) (rt : RuntimeState) : option (RuntimeState * list A) :=
  match len with
  | O => Some (rt, [])
  | S O => None
  | S (S len) =>
      let '(rt, (l, r)) := next_output rt in
      '(rt, out) ← fill_output convert len rt;
      Some (rt, convert l :: convert r :: out)
  end.

Definition fill_f32_output := fill_output (fun v => v).

Definition fill_i16_output := fill_output (fun v => as_i16 (F32.mul v (F32.of_int 32767))).

(** ** The audio host *)

Record SupportedConfig := mkSupported {
  sc_channels : Z;
  sc_min_sample_rate : Z;
  sc_max_sample_rate : Z;
  sc_sample_format : SampleFormat;
}.

(** What the audio host reports of a device, and whether its stream builds and
    starts. *)
Record AudioDevice := mkAudioDevice {
  ad_name : option str;
  ad_configs : string + list SupportedConfig;
  ad_default : option (Z * Z);
  ad_build : SampleFormat -> option string;
  ad_play : option string;
}.

Definition stereo_at (sample_rate : Z) (c : SupportedConfig) : bool :=
  (sc_channels c =? 2) && (sc_min_sample_rate c <=? sample_rate) && (sample_rate <=? sc_max_sample_rate c).

(** [CpalAudioEngine::open_stream]: the format of the stream that now runs. *)
Definition open_stream (output_devices : string + list AudioDevice) (device_name : str) (sample_rate : Z) : result SampleFormat :=
  match output_devices with
  | inl e => Err (ErrBackend ("Failed to enumerate devices: " +:+ e))
  | inr devices =>
      match List.find (fun d => bool_decide (ad_name d = Some device_name)) devices with
      | None => Err (ErrDisconnected ("Audio device '" +:+ text device_name +:+ "' not found"))
      | Some device =>
          match ad_configs device with
          | inl e => Err (ErrBackend ("Failed to get audio configs: " +:+ e))
          | inr configs =>
              match List.find (stereo_at sample_rate) configs with
              | None => Err (ErrInvalidConfig "Audio device doesn't support stereo output at this rate")
              | Some c =>
                  match sc_sample_format c with
                  | (SfF32 | SfI16) as format =>
                      match ad_build device format, ad_play device with
                      | Some e, _ => Err (ErrBackend ("Failed to build audio stream: " +:+ e))
                      | None, Some e => Err (ErrBackend ("Failed to start audio stream: " +:+ e))
                      | None, None => Ok format
                      end
                  | _ => Err (ErrInvalidConfig "Unsupported audio sample format")
                  end
              end
          end
      end
  end.

(** ** The backend *)

Record OscilloscopeBackend := mkOsc {
  ob_device_name : str;
  ob_sample_rate : Z;
  ob_config : OscilloscopeConfig;
  ob_caps : DacCapabilities;
  ob_runtime : option RuntimeState;
  ob_audio_thread : bool;
  ob_sample_buffer : list (F32.t * F32.t);
  ob_source : bool;
  ob_resampler : StreamingResampler (F32.t * F32.t);
}.

Definition osc_new (device_name : str) (sample_rate : Z) : OscilloscopeBackend :=
  mkOsc device_name sample_rate default_config (capabilities sample_rate) None false [] false (mkResampler 1 1 [] 0 0 0).

Definition set_config (c : OscilloscopeConfig) (b : OscilloscopeBackend) : OscilloscopeBackend :=
  mkOsc (ob_device_name b) (ob_sample_rate b) c (ob_caps b) (ob_runtime b) (ob_audio_thread b) (ob_sample_buffer b) (ob_source b) (ob_resampler b).

Definition set_runtime (rt : option RuntimeState) (b : OscilloscopeBackend) : OscilloscopeBackend :=
  mkOsc (ob_device_name b) (ob_sample_rate b) (ob_config b) (ob_caps b) rt (ob_audio_thread b) (ob_sample_buffer b) (ob_source b) (ob_resampler b).

Definition set_link (thread source : bool) (b : OscilloscopeBackend) : OscilloscopeBackend :=
  mkOsc (ob_device_name b) (ob_sample_rate b) (ob_config b) (ob_caps b) (ob_runtime b) thread (ob_sample_buffer b) source (ob_resampler b).

Definition set_sample_buffer (buf : list (F32.t * F32.t)) (b : OscilloscopeBackend) : OscilloscopeBackend :=
  mkOsc (ob_device_name b) (ob_sample_rate b) (ob_config b) (ob_caps b) (ob_runtime b) (ob_audio_thread b) buf (ob_source b) (ob_resampler b).

Definition set_resampler (r : StreamingResampler (F32.t * F32.t)) (b : OscilloscopeBackend) : OscilloscopeBackend :=
  mkOsc (ob_device_name b) (ob_sample_rate b) (ob_config b) (ob_caps b) (ob_runtime b) (ob_audio_thread b) (ob_sample_buffer b) (ob_source b) r.

Definition point_to_samples (c : OscilloscopeConfig) (p : LaserPoint) : F32.t * F32.t :=
  let l := F32.add (F32.mul (lp_x p) (oc_gain c)) (oc_dc_offset c) in
  let r := F32.add (F32.mul (lp_y p) (oc_gain c)) (oc_dc_offset c) in
  if oc_clip c then (fclamp l fm1 f1, fclamp r fm1 f1) else (l, r).

Definition is_connected (b : OscilloscopeBackend) : bool :=
  match ob_runtime b with Some rt => rt_connected rt | None => false end.

(** [connect]: [opened] is what the audio thread got from [open_stream] before the
    five seconds were up.  A failed opening is waited out, and a slow one is told
    to stop and joined. *)
Definition connect (opened : option (result SampleFormat)) (b : OscilloscopeBackend) : option (OscilloscopeBackend * result unit) :=
  if is_connected b then Some (b, Ok tt)
  else
    rt ← runtime_new (Z.to_nat (buffer_capacity (ob_sample_rate b))) (ob_sample_rate b);
    let b := set_resampler (resampler_reset (ob_resampler b)) b in
    match opened with
    | Some (Ok _) => Some (set_link true true (set_runtime (Some (set_rt_connected true rt)) b), Ok tt)
    | Some (Err _) | None => Some (b, Err (ErrBackend "Timeout waiting for oscilloscope connection"))
    end.

Definition disconnect (b : OscilloscopeBackend) : OscilloscopeBackend * result unit :=
  (set_resampler (resampler_reset (ob_resampler b)) (set_link false false (set_runtime None b)), Ok tt).

Definition stop (b : OscilloscopeBackend) : OscilloscopeBackend * result unit :=
  let b := set_runtime (set_muted true <$> ob_runtime b) b in
  (set_resampler (resampler_reset (ob_resampler b)) b, Ok tt).

Definition set_shutter (open : bool) (b : OscilloscopeBackend) : OscilloscopeBackend * result unit :=
  (set_runtime (set_muted (negb open) <$> ob_runtime b) b, Ok tt).

(** [try_write_points]; [gaps] is what the callback takes between the pushes, and
    the points it took come with the result. *)
Definition try_write_points (gaps : list nat) (pps : Z) (points : list LaserPoint) (b : OscilloscopeBackend) :
    option (OscilloscopeBackend * result WriteOutcome * list (F32.t * F32.t)) :=
  match ob_runtime b with
  | None => Some (b, Err (ErrDisconnected "Not connected"), [])
  | Some rt =>
      if negb (rt_connected rt) then Some (b, Err (ErrDisconnected "Not connected"), [])
      else if decide (points = []) then Some (b, Ok Written, [])
      else
        r ← set_rates (Z.max pps 1) (ob_sample_rate b) (ob_resampler b);
        let b := set_resampler r b in
        if negb (has_capacity_for (rt_sink rt) (pending_output_count r (length points))) then Some (b, Ok WouldBlock, [])
        else
          '(got, s, buf, r) ← push_chunk_resampled (callback_frame (rt_muted rt)) gaps (point_to_samples (ob_config b) <$> points) r (rt_sink rt);
          Some (set_resampler r (set_sample_buffer buf (set_runtime (Some (set_sink s rt)) b)), Ok Written, got)
  end.

Definition estimated_fullness (pps : Z) (b : OscilloscopeBackend) : Z :=
  runtime_fullness (assert! ob_source b;; rt ← ob_runtime b; Some (queued_points (rt_sink rt), sk_sample_rate (rt_sink rt))) pps.

(** ** Discovery *)

Definition PREFIX : string := "oscilloscope".

Definition format_stable_id (name : str) : string := PREFIX +:+ ":" +:+ text (slugify_device_id name).

(** [enumerate]: named outputs with a default configuration of two channels or
    more, with their rate. *)
Definition enumerate (output_devices : string + list AudioDevice) : list (str * Z) :=
  match output_devices with
  | inl _ => []
  | inr devices =>
      omap (fun d => name ← ad_name d; '(channels, rate) ← ad_default d; if channels <? 2 then None else Some (name, rate)) devices
  end.

Definition osc_scan (output_devices : string + list AudioDevice) : list (DiscoveredDevice (str * Z)) :=
  (fun '(name, rate) =>
     let info := with_hardware_name (text name) (DiscoveredDeviceInfo_new Oscilloscope (format_stable_id name) (text name)) in
     with_caps (capabilities rate) (DiscoveredDevice_new info (name, rate))) <$> enumerate output_devices.

Definition osc_connect (data : str * Z) : OscilloscopeBackend := osc_new data.1 data.2.

(** ** A connection, with the callbacks interleaved *)

Inductive osc_op :=
  | OpWrite (gaps : list nat) (pps : Z) (points : list LaserPoint)
  | OpCallback (frames : nat)
  | OpShutter (open : bool)
  | OpStop
  | OpStreamError.

(** What leaves the queue in [n] frames of the callback; a muted callback takes it and
    plays something else. *)
Definition taken_by (n : nat) (rt : RuntimeState) : list (F32.t * F32.t) := (take_points (callback_frame (rt_muted rt)) n (rt_sink rt)).1.

(** The samples a write adds to the stream. *)
Definition sent_by (pps : Z) (points : list LaserPoint) (b : OscilloscopeBackend) : list (F32.t * F32.t) :=
  from_option snd [] (r ← set_rates (Z.max pps 1) (ob_sample_rate b) (ob_resampler b); process (point_to_samples (ob_config b) <$> points) r).

(** One operation: the backend, what the device took and what was accepted. *)
Definition osc_step (op : osc_op) (b : OscilloscopeBackend) : option (OscilloscopeBackend * list (F32.t * F32.t) * list (F32.t * F32.t)) :=
  match op with
  | OpWrite gaps pps points =>
      '(b', res, got) ← try_write_points gaps pps points b;
      Some (b', got, match res with Ok Written => if decide (points = []) then [] else sent_by pps points b | _ => [] end)
  | OpCallback frames =>
      match ob_runtime b with
      | None => Some (b, [], [])
      | Some rt =>
          '(rt', _) ← fill_f32_output (2 * frames) rt;
          Some (set_runtime (Some rt') b, taken_by frames rt, [])
      end
  | OpShutter open => Some ((set_shutter open b).1, [], [])
  | OpStop => Some ((stop b).1, [], [])
  | OpStreamError => Some (set_runtime (set_rt_connected false <$> ob_runtime b) b, [], [])
  end.

Fixpoint osc_run (ops : list osc_op) (b : OscilloscopeBackend) : option (OscilloscopeBackend * list (F32.t * F32.t) * list (F32.t * F32.t)) :=
  match ops with
  | [] => Some (b, [], [])
  | op :: ops =>
      '(b, got, sent) ← osc_step op b;
      '(b, got', sent') ← osc_run ops b;
      Some (b, got ++ got', sent ++ sent')
  end.

(** ** Lemmas *)

#[export] Instance callback_pops muted : PopsOne (callback_frame muted).
Proof.
  intros s. unfold callback_frame, output_frame, pop. destruct s as [[|[pl pr] q] c rate [ll lr]], muted; done.
Qed.

Lemma fill_output_spec {A} (convert : F32.t -> A) frames rt :
  exists rt' out, fill_output convert (2 * frames) rt = Some (rt', out) /\ length out = (2 * frames)%nat /\
    taken_by frames rt ++ sk_queue (rt_sink rt') = sk_queue (rt_sink rt) /\
    sk_capacity (rt_sink rt') = sk_capacity (rt_sink rt) /\ rt_connected rt' = rt_connected rt.
Proof.
  revert rt. induction frames as [|n IH]; intros rt; [by exists rt, []|].
  replace (2 * S n)%nat with (S (S (2 * n))) by lia. cbn [fill_output].
  unfold next_output. destruct (callback_pops (rt_muted rt) (rt_sink rt)) as (Hq & Hc & _).
  unfold taken_by. cbn [take_points]. unfold callback_frame at 1 in Hq. unfold callback_frame at 1 in Hc. unfold callback_frame at 2.
  destruct (output_frame (rt_muted rt) (rt_sink rt)) as [s [l r]]. simpl in Hq, Hc. cbv beta iota.
  destruct (IH (set_sink s rt)) as (rt' & out & -> & Hl & Ht & Hc' & Hco). simpl. unfold taken_by in Ht. simpl in Ht, Hc', Hco.
  exists rt', (convert l :: convert r :: out). split; [done|]. split; [simpl; lia|].
  destruct (take_points _ n s) as [ps s']. simpl in *. rewrite <- app_assoc, Ht, Hq. split_and!; [|congruence|done].
  by destruct (sk_queue (rt_sink rt)).
Qed.

(** ** Nothing is lost between the producer and the device *)

Definition queue_of (b : OscilloscopeBackend) : list (F32.t * F32.t) := from_option (fun rt => sk_queue (rt_sink rt)) [] (ob_runtime b).

Definition op_points (op : osc_op) : Z := match op with OpWrite _ _ points => Z.of_nat (length points) | _ => 0 end.

Definition op_rate_ok (op : osc_op) : Prop := match op with OpWrite _ pps _ => in_u 32 pps | _ => True end.

Definition within (sample_rate : Z) (rt : RuntimeState) : Prop :=
  (length (sk_queue (rt_sink rt)) <= sk_capacity (rt_sink rt))%nat /\ sk_capacity (rt_sink rt) = Z.to_nat (buffer_capacity sample_rate).

(** The backend after at most [n] points: a resampler in mid-stream, and a queue
    within its capacity. *)
Record osc_ok (n : Z) (b : OscilloscopeBackend) : Prop := {
  ok_stream : in_stream n (ob_resampler b);
  ok_rates : rs_from_rate (ob_resampler b) < 2 ^ 32 /\ rs_to_rate (ob_resampler b) < 2 ^ 32;
  ok_rate : 0 < ob_sample_rate b < 2 ^ 32;
  ok_queue : forall rt, ob_runtime b = Some rt -> within (ob_sample_rate b) rt;
}.

Lemma osc_ok_runtime n b rt : osc_ok n b -> (forall rt', rt = Some rt' -> within (ob_sample_rate b) rt') -> osc_ok n (set_runtime rt b).
Proof. by intros [Hs Hr Hp _] Hq. Qed.

Lemma osc_ok_resampler n b r : osc_ok n b -> in_stream n r -> rs_from_rate r < 2 ^ 32 -> rs_to_rate r < 2 ^ 32 -> osc_ok n (set_resampler r b).
Proof. by intros [Hs Hr Hp Hq]. Qed.

Lemma osc_ok_weaken n m b : n <= m -> osc_ok n b -> osc_ok m b.
Proof. intros Hle [Hs Hr Hp Hq]. split; try done. by eapply in_stream_weaken. Qed.

(** The step of a write, on every branch. *)
Lemma write_step n gaps pps points b :
  osc_ok n b -> 0 <= n -> in_u 32 pps -> n + Z.of_nat (length points) < 2 ^ 31 ->
  exists b' res got, try_write_points gaps pps points b = Some (b', res, got) /\ osc_ok (n + Z.of_nat (length points)) b' /\
    ob_sample_rate b' = ob_sample_rate b /\
    got ++ queue_of b' = queue_of b ++ match res with Ok Written => if decide (points = []) then [] else sent_by pps points b | _ => [] end.
Proof.
  intros Hok Hn Hp Hlen. unfold try_write_points. assert (Hw : osc_ok (n + Z.of_nat (length points)) b) by (eapply osc_ok_weaken; [|done]; lia).
  destruct (ob_runtime b) as [rt|] eqn:Hrt; [|eexists b, _, []; (split; [done|]); by rewrite app_nil_r].
  destruct (rt_connected rt); simpl; [|eexists b, _, []; (split; [done|]); by rewrite app_nil_r].
  case_decide as Hpt; [eexists b, _, []; (split; [done|]); by rewrite app_nil_r|].
  destruct (set_rates_in_stream n (Z.max pps 1) (ob_sample_rate b) (ob_resampler b)) as (r & Hr & Hin & Hf & Ht);
    [apply Hok|done|unfold in_u, umax in Hp; lia|apply Hok|].
  unfold sent_by. rewrite Hr. simpl. pose proof (ok_rate _ _ Hok) as Hsr.
  assert (Hrates : rs_from_rate r < 2 ^ 32 /\ rs_to_rate r < 2 ^ 32) by (unfold in_u, umax in Hp; lia).
  destruct (has_capacity_for (rt_sink rt) (pending_output_count r (length points))) eqn:Hcap; simpl.
  2: { eexists _, _, []. split; [done|]. rewrite app_nil_r. split; [|done]. apply osc_ok_resampler; [done|by eapply in_stream_weaken; [|done]; lia|apply Hrates..]. }
  set (chunk := point_to_samples (ob_config b) <$> points). assert (Hlc : length chunk = length points) by apply length_fmap.
  destruct (reserved_push (callback_frame (rt_muted rt)) n gaps chunk r (rt_sink rt)) as (got & s & r' & os & -> & Hpr & Hl & Hq & Hc & _ & Hin' & Hf' & Ht');
    [done|done|rewrite Hlc; done|apply Hrates|apply Hrates|by apply (ok_queue _ _ Hok)|by rewrite Hlc|].
  simpl. rewrite Hpr. simpl. eexists _, _, got. split; [done|]. split; [|split; [done|]].
  - apply osc_ok_resampler; [|rewrite Hlc in Hin'; exact Hin'|rewrite Hf'; apply Hrates|rewrite Ht'; apply Hrates]. split; simpl; [by eapply in_stream_weaken; [|done]; lia|apply Hrates|apply Hok|]. intros rt' [= <-]. unfold within. simpl. rewrite Hc.
    unfold has_capacity_for, remaining_capacity in Hcap. rewrite <- Hlc, <- Hl in Hcap. destruct (ok_queue _ _ Hok rt Hrt) as [Hle Hce]. split; [|done].
    assert (length got + length (sk_queue s) = length (sk_queue (rt_sink rt)) + length os)%nat by (rewrite <- !length_app; by f_equal).
    apply orb_true_iff in Hcap as [Hz%Z.eqb_eq|Hz%Z.leb_le]; lia.
  - unfold queue_of. rewrite Hrt. simpl. exact Hq.
Qed.

Lemma osc_step_ok n op b :
  osc_ok n b -> 0 <= n -> op_rate_ok op -> n + op_points op < 2 ^ 31 ->
  exists b' got sent, osc_step op b = Some (b', got, sent) /\ osc_ok (n + op_points op) b' /\ got ++ queue_of b' = queue_of b ++ sent.
Proof.
  intros Hok Hn Hp Hlen. destruct op as [gaps pps points|frames|open| |]; simpl in *; rewrite ?Z.add_0_r.
  - destruct (write_step n gaps pps points b Hok Hn Hp Hlen) as (b' & res & got & -> & Hok' & _ & Hq). simpl. by eexists _, _, _.
  - destruct (ob_runtime b) as [rt|] eqn:Hrt; [|eexists _, [], []; by rewrite app_nil_r].
    destruct (fill_output_spec (fun v => v) frames rt) as (rt' & out & Hf & _ & Hq & Hc & _).
    unfold fill_f32_output. replace (frames + (frames + 0))%nat with (2 * frames)%nat by lia. rewrite Hf. simpl.
    eexists _, _, []. split; [done|]. rewrite app_nil_r. split; [|by unfold queue_of; rewrite Hrt].
    apply osc_ok_runtime; [done|]. intros rt1 [= <-]. destruct (ok_queue _ _ Hok rt Hrt) as [Hle Hce].
    unfold within. rewrite Hc. split; [|done]. rewrite <- Hq, length_app in Hle. lia.
  - eexists _, [], []. split; [done|]. rewrite app_nil_r. split; [|unfold queue_of; simpl; by destruct (ob_runtime b)].
    apply osc_ok_runtime; [done|]. destruct (ob_runtime b) as [rt|] eqn:Hrt; [|done]. intros rt1 [= <-]. exact (ok_queue _ _ Hok rt Hrt).
  - eexists _, [], []. split; [done|]. rewrite app_nil_r. split; [|unfold queue_of; simpl; by destruct (ob_runtime b)].
    pose proof (in_stream_rates _ _ (ok_stream _ _ Hok)). pose proof (ok_rates _ _ Hok).
    apply osc_ok_resampler; [|apply reset_in_stream; simpl; lia|simpl; lia|simpl; lia].
    apply osc_ok_runtime; [done|]. destruct (ob_runtime b) as [rt|] eqn:Hrt; [|done]. intros rt1 [= <-]. exact (ok_queue _ _ Hok rt Hrt).
  - eexists _, [], []. split; [done|]. rewrite app_nil_r. split; [|unfold queue_of; simpl; by destruct (ob_runtime b)].
    apply osc_ok_runtime; [done|]. destruct (ob_runtime b) as [rt|] eqn:Hrt; [|done]. intros rt1 [= <-]. exact (ok_queue _ _ Hok rt Hrt).
Qed.

Definition points_of (ops : list osc_op) : Z := foldr (fun op n => op_points op + n) 0 ops.

Lemma points_of_nonneg ops : 0 <= points_of ops.
Proof. induction ops as [|[] ops IH]; simpl; lia. Qed.

Lemma osc_run_ok ops n b :
  osc_ok n b -> 0 <= n -> Forall op_rate_ok ops -> n + points_of ops < 2 ^ 31 ->
  exists b' got sent, osc_run ops b = Some (b', got, sent) /\ osc_ok (n + points_of ops) b' /\ got ++ queue_of b' = queue_of b ++ sent.
Proof.
  revert n b. induction ops as [|op ops IH]; intros n b Hok Hn Hp Hlen; simpl in *.
  - exists b, [], []. rewrite Z.add_0_r, app_nil_r. done.
  - inversion Hp as [|? ? Hop Hops]; subst. pose proof (points_of_nonneg ops).
    assert (0 <= op_points op) by (destruct op; simpl; lia).
    destruct (osc_step_ok n op b Hok Hn Hop ltac:(lia)) as (b1 & got & sent & -> & Hok1 & Hq). simpl.
    destruct (IH (n + op_points op) b1 Hok1 ltac:(lia) Hops ltac:(lia)) as (b2 & got2 & sent2 & -> & Hok2 & Hq2). simpl.
    eexists _, _, _. split; [done|]. rewrite Z.add_assoc. split; [done|]. by rewrite <- app_assoc, Hq2, !app_assoc, Hq.
Qed.

Lemma osc_step_rate op b b' got sent : osc_step op b = Some (b', got, sent) -> ob_sample_rate b' = ob_sample_rate b.
Proof.
  destruct op as [gaps pps points|frames|open| |]; simpl; try (by intros [= <- _ _]).
  - unfold try_write_points. destruct (ob_runtime b) as [rt|]; [|by intros [= <- _ _]]. destruct (rt_connected rt); simpl; [|by intros [= <- _ _]].
    case_decide; simpl; [by intros [= <- _ _]|]. destruct (set_rates _ _ _) as [r|]; simpl; [|done].
    destruct (has_capacity_for _ _); simpl; [|by intros [= <- _ _]]. destruct (push_chunk_resampled _ _ _ _ _) as [[[[? ?] ?] ?]|]; simpl; [|done].
    by intros [= <- _ _].
  - destruct (ob_runtime b) as [rt|]; [|by intros [= <- _ _]]. destruct (fill_f32_output _ rt) as [[rt' ?]|]; simpl; [|done]. by intros [= <- _ _].
Qed.

Lemma osc_run_rate ops b b' got sent : osc_run ops b = Some (b', got, sent) -> ob_sample_rate b' = ob_sample_rate b.
Proof.
  revert b got sent. induction ops as [|op ops IH]; intros b got sent; simpl; [by intros [= <- _ _]|].
  destruct (osc_step op b) as [[[b1 g1] s1]|] eqn:Hs; simpl; [|done]. destruct (osc_run ops b1) as [[[b2 g2] s2]|] eqn:Hr; simpl; [|done].
  intros [= <- _ _]. apply osc_step_rate in Hs. rewrite <- Hs. by eapply IH.
Qed.

(** C29. From a fresh connection, with fewer than 2^31 points written in all, whatever the producer, the control calls, the audio
    callback (between any two pushes) and the device do: the write path never
    panics and the queue never overflows; and the samples the device has taken,
    followed by those still queued, are exactly the resampled accepted chunks, in
    order. *)
Theorem osc_conveys (name : str) (sample_rate : Z) (cfg : OscilloscopeConfig) (fmt : SampleFormat) (ops : list osc_op) :
  0 < sample_rate < 2 ^ 32 -> Forall op_rate_ok ops -> points_of ops < 2 ^ 31 ->
  exists b0 b got sent,
    connect (Some (Ok fmt)) (set_config cfg (osc_new name sample_rate)) = Some (b0, Ok tt) /\
    osc_run ops b0 = Some (b, got, sent) /\ got ++ queue_of b = sent /\
    Z.of_nat (length (queue_of b)) <= buffer_capacity sample_rate.
Proof.
  intros Hr Hops Hpts. assert (Hcap : 4096 <= buffer_capacity sample_rate) by (unfold buffer_capacity; lia).
  unfold connect. simpl. unfold runtime_new, sink_new. rewrite bool_decide_eq_true_2 by lia. simpl.
  eexists. set (b0 := set_link _ _ _). assert (Hok : osc_ok 0 b0).
  { split; simpl; [by apply fresh_in_stream|lia|done|]. intros rt [= <-]. split; simpl; [lia|done]. }
  destruct (osc_run_ok ops 0 b0 Hok ltac:(lia) Hops ltac:(lia)) as (b & got & sent & Hrun & Hok' & Hq).
  exists b, got, sent. split_and!; [done|done|done|]. unfold queue_of. destruct (ob_runtime b) as [rt|] eqn:Hrt; simpl; [|lia].
  destruct (ok_queue _ _ Hok' rt Hrt) as [Hle Hce]. rewrite (osc_run_rate ops b0 b got sent Hrun) in Hce. simpl in Hce. lia.
Qed.

(** ** Muting *)

Lemma rate_bounded rate : 0 < rate < 2 ^ 32 -> f32_bounded (F32.of_int rate) 1 32 /\ signed false (F32.of_int rate).
Proof.
  intros Hr. destruct rate as [|p|p]; [lia| |lia]. split; [|apply normalize_signed]. apply (normalize_bounded 24 128); [done| |].
  - unfold dle. rewrite Z.min_l by lia. change (Z.abs (Zpos p)) with (Zpos p). lia.
  - by vm_compute.
Qed.

Lemma ramp_step_unit rate : 0 < rate < 2 ^ 32 -> f32_bounded (ramp_step rate) 1 0 /\ signed false (ramp_step rate).
Proof.
  intros Hr. destruct (rate_bounded rate Hr) as [[_ Hm] Hs]. unfold ramp_step. set (x := F32.div _ _).
  assert (Hx : signed false x).
  { subst x. change (F32.of_int 1000) with (SpecFloat.S754_finite false 16384000 (-14)).
    apply (div_signed 24 128 eq_refl false false). by apply (mul_signed 24 128 false false _ _ 3 0 1 32). }
  assert (Hv : F32.valid x = true) by (by apply div_valid). clearbody x. split.
  - apply (clamp_bounded 24 128); [done|done|by destruct x|apply f0_bounded|apply f1_bounded|done].
  - unfold fclamp. destruct (SpecFloat.SFltb x f0), (SpecFloat.SFltb f1 _); done.
Qed.

(** A ramped value stays within any bound the held one respects. *)
Lemma ramp_bounded k last M E :
  f32_bounded k 1 0 -> signed false k -> rep 24 128 M E -> f32_bounded last M E -> f32_bounded (ramp k last) M E.
Proof.
  intros Hk Hs Hrep Hl. unfold ramp. destruct last as [s|s| |s m e]; try (by destruct Hl).
  - destruct k as [sk|sk| |sk mk ek]; try (by destruct Hk); by destruct s, sk.
  - change (F32.sub f0 (SpecFloat.S754_finite s m e)) with (SpecFloat.S754_finite (negb s) m e).
    assert (Ho : f32_bounded (SpecFloat.S754_finite (negb s) m e) M E) by done.
    apply (add_opposite 24 128 eq_refl s); [done| |done|done|].
    + apply (mul_bounded 24 128 eq_refl eq_refl _ _ M E 1 0); [done|done|done|]. rewrite Z.mul_1_r, Z.add_0_r. apply dle_refl.
    + pose proof (mul_signed 24 128 (negb s) false _ _ M E 1 0 (proj2 Ho) (proj2 Hk) eq_refl Hs) as Hx. by rewrite xorb_false_r in Hx.
Qed.

Definition held (M E : Z) (rt : RuntimeState) : Prop :=
  0 < sk_sample_rate (rt_sink rt) < 2 ^ 32 /\ f32_bounded (last_output (rt_sink rt)).1 M E /\ f32_bounded (last_output (rt_sink rt)).2 M E.

Lemma next_output_held M E rt :
  held M E rt -> rep 24 128 M E -> rt_muted rt = true \/ sk_queue (rt_sink rt) = [] ->
  let '(rt', (l, r)) := next_output rt in
  held M E rt' /\ f32_bounded l M E /\ f32_bounded r M E /\ rt_muted rt' = rt_muted rt /\
  (sk_queue (rt_sink rt) = [] -> sk_queue (rt_sink rt') = []) /\
  (rt_muted rt = false -> (l, r) = last_output (rt_sink rt) /\ last_output (rt_sink rt') = (l, r)).
Proof.
  intros (Hr & Hl & Hr') Hrep Hm. destruct (ramp_step_unit _ Hr) as [Hk Hks]. unfold next_output, output_frame, pop.
  destruct rt as [[q c rate [ll lr]] muted con]. unfold held, last_output in *. simpl in *.
  assert (Hgl : f32_bounded (ramp (ramp_step rate) ll) M E) by (by apply ramp_bounded).
  assert (Hgr : f32_bounded (ramp (ramp_step rate) lr) M E) by (by apply ramp_bounded).
  destruct q as [|[pl pr] q], muted; simpl; [by auto 10..|by destruct Hm].
Qed.

(** A muted beam glides: no sample of the callback leaves the box the last output
    was in, whatever is queued, and the box can only shrink.  An unmuted beam with
    nothing queued stays exactly where it was. *)
Theorem osc_holds_or_glides (M E : Z) (frames : nat) rt :
  held M E rt -> rep 24 128 M E -> rt_muted rt = true \/ sk_queue (rt_sink rt) = [] ->
  exists rt' out, fill_f32_output (2 * frames) rt = Some (rt', out) /\ Forall (fun v => f32_bounded v M E) out /\ held M E rt' /\
    (rt_muted rt = false -> out = mjoin (replicate frames [(last_output (rt_sink rt)).1; (last_output (rt_sink rt)).2])).
Proof.
  intros Hh Hrep Hm. revert rt Hh Hm. induction frames as [|n IH]; intros rt Hh Hm; [by exists rt, []|].
  unfold fill_f32_output. replace (2 * S n)%nat with (S (S (2 * n))) by lia. cbn [fill_output].
  pose proof (next_output_held M E rt Hh Hrep Hm) as Hn. destruct (next_output rt) as [rt1 [l r]].
  destruct Hn as (Hh1 & Hl & Hr & Hm1 & Hq & Hu).
  destruct (IH rt1 Hh1) as (rt' & out & Hf & Ho & Hh' & Hu'); [rewrite Hm1; destruct Hm as [Hm|Hm]; [by left|right; by apply Hq]|].
  unfold fill_f32_output in Hf. rewrite Hf. simpl. exists rt', (l :: r :: out). split_and!; [done|by do 2 (constructor; [done|])|done|].
  intros Hun. destruct (Hu Hun) as [Hlast Hlast']. rewrite Hm1 in Hu'. rewrite (Hu' Hun), Hlast'. rewrite <- Hlast. done.
Qed.

(** ** Backpressure *)

(** A write is accepted exactly when the queue has room for all of its samples;
    refused, it changes nothing but the rate of the resampler. *)
Lemma osc_admission n gaps pps points b rt :
  osc_ok n b -> 0 <= n -> in_u 32 pps -> n + Z.of_nat (length points) < 2 ^ 31 -> points <> [] ->
  ob_runtime b = Some rt -> rt_connected rt = true ->
  exists r b' res got, set_rates (Z.max pps 1) (ob_sample_rate b) (ob_resampler b) = Some r /\
    try_write_points gaps pps points b = Some (b', Ok res, got) /\
    (res = Written <-> has_capacity_for (rt_sink rt) (pending_output_count r (length points)) = true) /\
    (res = WouldBlock -> b' = set_resampler r b /\ got = []).
Proof.
  intros Hok Hn Hp Hlen Hpt Hrt Hcon. destruct (write_step n gaps pps points b Hok Hn Hp Hlen) as (b' & res & got & Hw & _).
  revert Hw. unfold try_write_points. rewrite Hrt, Hcon. simpl. rewrite decide_False by done.
  destruct (set_rates_in_stream n (Z.max pps 1) (ob_sample_rate b) (ob_resampler b)) as (r & -> & _);
    [apply Hok|done|unfold in_u, umax in Hp; lia|apply Hok|]. simpl.
  destruct (has_capacity_for _ _) eqn:Hcap; simpl.
  - destruct (push_chunk_resampled _ _ _ _ _) as [[[[? ?] ?] ?]|]; simpl; [|done]. intros _. eexists r, _, Written, _. split_and!; [done|done|rewrite Hcap; by split|done].
  - intros _. eexists r, _, WouldBlock, []. split_and!; [done|done|rewrite Hcap; by split|done].
Qed.

(** A chunk of more samples than the queue holds is refused whatever is queued,
    for ever: nothing the device plays makes room for it. *)
Theorem osc_oversized_never_fits n gaps pps points b rt q :
  osc_ok n b -> 0 <= n -> in_u 32 pps -> n + Z.of_nat (length points) < 2 ^ 31 -> points <> [] ->
  ob_runtime b = Some rt -> rt_connected rt = true -> (length q <= sk_capacity (rt_sink rt))%nat ->
  ob_resampler b = mkResampler (Z.max pps 1) (ob_sample_rate b) [] 0 0 0 ->
  buffer_capacity (ob_sample_rate b) <= (Z.of_nat (length points) - 1) * ob_sample_rate b / Z.max pps 1 ->
  let b := set_runtime (Some (set_sink (with_queue q (rt_sink rt)) rt)) b in
  try_write_points gaps pps points b = Some (b, Ok WouldBlock, []).
Proof.
  intros Hok Hn Hp Hlen Hpt Hrt Hcon Hq Hr Hbig b1. destruct (ok_queue _ _ Hok rt Hrt) as [_ Hcap].
  assert (Hok1 : osc_ok n b1) by (apply osc_ok_runtime; [done|]; intros rt' [= <-]; by split).
  destruct (osc_admission n gaps pps points b1 _ Hok1 Hn Hp Hlen Hpt eq_refl Hcon) as (r & b' & res & got & Hsr & -> & Hiff & Hblock).
  assert (Hsame : r = ob_resampler b).
  { revert Hsr. change (ob_resampler b1) with (ob_resampler b). change (ob_sample_rate b1) with (ob_sample_rate b). rewrite Hr.
    unfold set_rates. simpl. rewrite !Z.eqb_refl. simpl. destruct (_ && _); simpl; [|done]. by intros [= <-]. }
  assert (Hfull : has_capacity_for (rt_sink (set_sink (with_queue q (rt_sink rt)) rt)) (pending_output_count r (length points)) = false).
  { rewrite Hsame. unfold pending_output_count. rewrite Hr. simpl. assert (Hne : (length points <> 0)%nat) by (by destruct points).
    pose proof (ok_rate _ _ Hok) as Hrate. pose proof Hp as Hp'. unfold in_u, umax in Hp'.
    rewrite total_emittable_eq by (simpl; apply fits_u32; lia). simpl. unfold emittable. rewrite (proj2 (Z.eqb_neq _ _)) by lia.
    unfold has_capacity_for, remaining_capacity. simpl. rewrite Hcap. set (x := _ / _) in *.
    assert (Hc0 : 4096 <= buffer_capacity (ob_sample_rate b)) by (unfold buffer_capacity; lia).
    rewrite (proj2 (Z.eqb_neq _ _)) by lia. simpl. apply Z.leb_gt. lia. }
  destruct res; [by rewrite (proj1 Hiff eq_refl) in Hfull|]. destruct (Hblock eq_refl) as [-> ->]. rewrite Hsame. by destruct b.
Qed.

(** ** Examples *)

Definition scope : OscilloscopeBackend := set_config default_config (osc_new [] 48000).

Definition corners : list LaserPoint := (fun x => blanked x f0) <$> [fm1; f1; f1; fm1; f1].

Definition scope_ops : list osc_op :=
  [OpShutter true; OpWrite [0; 0; 1]%nat 24000 corners; OpCallback 4; OpStop; OpCallback 3; OpWrite [] 30000 corners].

Lemma osc_conveys_witness : exists b0 b got sent,
  connect (Some (Ok SfF32)) scope = Some (b0, Ok tt) /\ osc_run scope_ops b0 = Some (b, got, sent) /\ got ++ queue_of b = sent /\
  Z.of_nat (length (queue_of b)) <= buffer_capacity 48000.
Proof. refine (osc_conveys [] 48000 default_config SfF32 scope_ops _ _ _); [lia|by repeat constructor|done]. Defined.

(** A muted scope whose beam was at (0.5, -1). *)
Definition muted_scope : RuntimeState := mkRuntime (mkSink [(f1, f1)] 4096 48000 (f32_half, fm1)) true true.

Lemma osc_holds_or_glides_witness : exists rt' out,
  fill_f32_output 6 muted_scope = Some (rt', out) /\ Forall (fun v => f32_bounded v 1 0) out /\ held 1 0 rt' /\
  (rt_muted muted_scope = false -> out = mjoin (replicate 3 [f32_half; fm1])).
Proof.
  refine (osc_holds_or_glides 1 0 3 muted_scope _ _ _); [|by vm_compute|by left].
  split; [by vm_compute|]. split; (split; [reflexivity|by vm_compute]).
Defined.

(** 4500 points at 30 kpps: 150 ms, within the chunk limit of 4800 points. *)
Definition long_chunk : list LaserPoint := replicate 4500 default_point.

Definition live_scope : OscilloscopeBackend :=
  set_resampler (mkResampler 30000 48000 [] 0 0 0)
    (set_link true true (set_runtime (Some (mkRuntime (mkSink [] 4800 48000 (f0, f0)) false true)) scope)).

Lemma live_scope_ok : osc_ok 0 live_scope.
Proof.
  split; [by apply fresh_in_stream|by vm_compute|by vm_compute|]. intros rt [= <-]. split; [simpl; lia|by vm_compute].
Defined.

Lemma osc_oversized_never_fits_witness :
  Z.of_nat (length long_chunk) <= max_points_per_chunk (capabilities 48000) /\
  try_write_points [] 30000 long_chunk live_scope = Some (live_scope, Ok WouldBlock, []).
Proof.
  split; [by vm_compute|].
  refine (osc_oversized_never_fits 0 [] 30000 long_chunk live_scope (mkRuntime (mkSink [] 4800 48000 (f0, f0)) false true) []
    live_scope_ok _ _ _ _ eq_refl eq_refl _ eq_refl _); [lia|by vm_compute|by vm_compute|done|simpl; lia|by vm_compute].
Defined.

(** With clipping on, the interpolation after the clipping still leaves the range:
    the right half of the square wave peaks at 1.25. *)
Theorem osc_clip_overshoots :
  oc_clip default_config = true /\
  Forall (fun p => f32_bounded (point_to_samples default_config p).1 1 0) corners /\
  exists b0 b got sent, connect (Some (Ok SfF32)) scope = Some (b0, Ok tt) /\
    osc_run [OpShutter true; OpWrite [] 24000 corners] b0 = Some (b, got, sent) /\
    exists rt rt' out v, ob_runtime b = Some rt /\ fill_f32_output 12 rt = Some (rt', out) /\ v ∈ out /\ SpecFloat.SFltb f1 v = true.
Proof.
  split; [done|]. split; [repeat constructor; by vm_compute|]. eexists _, _, _, _. split; [by vm_compute|]. split; [by vm_compute|].
  eexists _, _, _, (F32.of_dyadic 5 (-2)). split; [reflexivity|]. split; [by vm_compute|]. split; [|by vm_compute].
  refine (proj1 (bool_decide_eq_true _) _). by vm_compute.
Qed.
