(* ===== verification/AvbHost.v ===== *)
(** * Sharing the audio host between threads

    Models [HostAccess] of [src/src/protocols/avb/host.rs]: discovery, connections
    and audio workers use one host, in sessions that exclude each other, and an ASIO
    host runs one stream at a time.  Every thread is in one phase of the code it
    runs; a step of the system is a step of any thread.  A driver call may hang: a
    thread may stay in its phase for ever, a wait for the host may time out, and a
    stream is then torn down without a session. *)

From S2P Require Import Prelude.

(** ** State *)

Record HostState := mkHostState {
  hs_busy : bool;
  hs_live_streams : nat;
}.

(** Where a thread is: outside the host; in a session; in one that found the stream
    slot free; with an output started in it; with that output counted; with the
    session ended and the stream running; and in the teardown, with a session or
    without, before the stream is stopped, before it is uncounted, and after. *)
Inductive phase :=
  | Outside
  | InSession
  | SlotFree
  | Started
  | Counted
  | Streaming
  | Closing (session : bool)
  | Stopped (session : bool)
  | Uncounted (session : bool).

Record host_sys := mkSys {
  hy_state : HostState;
  hy_threads : list phase;
}.

Definition set_busy (b : bool) (h : HostState) : HostState := mkHostState b (hs_live_streams h).

Definition set_live (n : nat) (h : HostState) : HostState := mkHostState (hs_busy h) n.

(** [session]: the host when it is free; [None] while it is busy (the caller waits,
    or gives up). *)
Definition session (h : HostState) : option HostState := if hs_busy h then None else Some (set_busy true h).

Definition ensure_stream_slot_free (single_stream : bool) (h : HostState) : bool := negb (single_stream && (0 <? hs_live_streams h)%nat).

Definition session_drop (h : HostState) : HostState := set_busy false h.

(** [SerializedStream::boxed]. *)
Definition boxed (h : HostState) : HostState := set_live (S (hs_live_streams h)) h.

(** [None]: the count went below zero. *)
Definition uncount (h : HostState) : option HostState := match hs_live_streams h with O => None | S n => Some (set_live n h) end.

Definition end_session (held : bool) (h : HostState) : HostState := if held then session_drop h else h.

(** ** Steps *)

(** One thread's step; an error ends its session. *)
Inductive thread_step (single_stream : bool) : HostState -> phase -> HostState -> phase -> Prop :=
  | step_enter h h' : session h = Some h' -> thread_step single_stream h Outside h' InSession
  | step_busy h : session h = None -> thread_step single_stream h Outside h Outside
  | step_slot h : ensure_stream_slot_free single_stream h = true -> thread_step single_stream h InSession h SlotFree
  | step_leave h p : p = InSession \/ p = SlotFree -> thread_step single_stream h p (session_drop h) Outside
  | step_start h : thread_step single_stream h SlotFree h Started
  | step_count h : thread_step single_stream h Started (boxed h) Counted
  | step_opened h : thread_step single_stream h Counted (session_drop h) Streaming
  | step_close h h' : session h = Some h' -> thread_step single_stream h Streaming h' (Closing true)
  | step_close_anyway h : session h = None -> thread_step single_stream h Streaming h (Closing false)
  | step_stop h s : thread_step single_stream h (Closing s) h (Stopped s)
  | step_uncount h h' s : uncount h = Some h' -> thread_step single_stream h (Stopped s) h' (Uncounted s)
  | step_closed h s : thread_step single_stream h (Uncounted s) (end_session s h) Outside.

Inductive host_step (single_stream : bool) : host_sys -> host_sys -> Prop :=
  | host_thread y i p h' p' :
      hy_threads y !! i = Some p -> thread_step single_stream (hy_state y) p h' p' ->
      host_step single_stream y (mkSys h' (<[i := p']> (hy_threads y))).

Definition host_init (threads : nat) : host_sys := mkSys (mkHostState false 0) (replicate threads Outside).

Definition reachable (single_stream : bool) (threads : nat) : host_sys -> Prop := rtc (host_step single_stream) (host_init threads).

(** ** Counting threads *)

Definition holds (p : phase) : nat :=
  match p with InSession | SlotFree | Started | Counted => 1 | Closing s | Stopped s | Uncounted s => if s then 1 else 0 | _ => 0 end.

(** About to open: the slot was found free and nothing is counted yet. *)
Definition opening (p : phase) : nat := match p with SlotFree | Started => 1 | _ => 0 end.

Definition counted (p : phase) : nat := match p with Counted | Streaming | Closing _ | Stopped _ => 1 | _ => 0 end.

(** An output that runs on the driver. *)
Definition running (p : phase) : nat := match p with Started | Counted | Streaming | Closing _ => 1 | _ => 0 end.

Definition total (f : phase -> nat) (y : host_sys) : nat := sum_list_with f (hy_threads y).

Lemma sum_insert (f : phase -> nat) l i p p' : l !! i = Some p -> (sum_list_with f (<[i := p']> l) + f p = sum_list_with f l + f p')%nat.
Proof.
  revert i. induction l as [|q l IH]; intros [|i] Hl; simplify_eq/=; [lia|]. specialize (IH i Hl). lia.
Qed.

Lemma sum_le (f g : phase -> nat) l : (forall p, f p <= g p)%nat -> (sum_list_with f l <= sum_list_with g l)%nat.
Proof. intros Hfg. induction l as [|p l IH]; simpl; [done|]. specialize (Hfg p). lia. Qed.

Lemma sum_one (f g : phase -> nat) l i p : (forall p, f p <= g p)%nat -> l !! i = Some p -> (sum_list_with f l + g p <= sum_list_with g l + f p)%nat.
Proof.
  intros Hfg. revert i. induction l as [|q l IH]; intros [|i] Hl; simplify_eq/=; [pose proof (sum_le f g l Hfg); lia|].
  specialize (IH i Hl). specialize (Hfg q). lia.
Qed.

(** ** The invariant *)

Record host_inv (single_stream : bool) (y : host_sys) : Prop := {
  hi_session : total holds y = if hs_busy (hy_state y) then 1%nat else 0%nat;
  hi_live : total counted y = hs_live_streams (hy_state y);
  hi_single : single_stream = true -> (total opening y + total counted y <= 1)%nat;
}.

Lemma opening_holds p : (opening p <= holds p)%nat.
Proof. destruct p; simpl; lia. Qed.

Lemma host_step_inv single_stream y y' : host_step single_stream y y' -> host_inv single_stream y -> host_inv single_stream y'.
Proof.
  intros [y0 i p h' p' Hi Hs] [Hh Hl Hs1]. unfold total in *.
  pose proof (sum_insert holds _ i p p' Hi) as Eh. pose proof (sum_insert counted _ i p p' Hi) as Ec. pose proof (sum_insert opening _ i p p' Hi) as Eo.
  pose proof (sum_one opening holds _ i p opening_holds Hi) as Ho.
  destruct Hs as [h h' Hen|h Hb|h Hfree|h p Hp|h|h|h|h h' Hen|h Hb|h s|h h' s Hun|h s]; simpl in *;
    try (unfold session in Hen; destruct (hs_busy h) eqn:Hbu; simplify_eq/=);
    try (unfold uncount in Hun; destruct (hs_live_streams h) as [|n] eqn:Hn; simplify_eq/=).
  all: try (destruct Hp as [-> | ->]; simpl in * ).
  all: try (destruct s; simpl in * ).
  all: split; unfold total; simpl; try (destruct (hs_busy h) eqn:Hbz; simpl in *; lia); try lia.
  all: try (intros Hsingle; specialize (Hs1 Hsingle); lia).
  intros ->. unfold ensure_stream_slot_free in Hfree. simpl in Hfree. destruct (Nat.ltb_spec 0 (hs_live_streams h)); [done|].
  destruct (hs_busy h); lia.
Qed.

Lemma init_inv single_stream n : host_inv single_stream (host_init n).
Proof.
  assert (Hz : forall f, f Outside = 0%nat -> sum_list_with f (replicate n Outside) = 0%nat)
    by (intros f Hf; induction n as [|n IH]; simpl; [done|]; by rewrite Hf, IH).
  split; unfold total; simpl; rewrite ?Hz by done; done || lia.
Qed.

Lemma reachable_inv single_stream n y : reachable single_stream n y -> host_inv single_stream y.
Proof.
  intros Hr. unfold reachable in Hr. remember (host_init n) as y0. assert (H0 : host_inv single_stream y0) by (subst; apply init_inv). clear Heqy0.
  induction Hr as [y|y1 y2 y3 Hs _ IH]; [done|]. apply IH. by eapply host_step_inv.
Qed.

(** C32. Whatever the threads of discovery, connections and audio workers do, and
    however calls hang or waits time out: at most one thread is in a session; on a
    host of one stream at most one output runs at any moment, a stream torn down
    without a session included; the stream count never goes below zero; and once
    every thread is done the host is free again, with nothing counted. *)
Theorem host_runs_one_stream (single_stream : bool) (threads : nat) y :
  reachable single_stream threads y ->
  (total holds y <= 1)%nat /\
  (single_stream = true -> (total running y <= 1)%nat) /\
  (forall i s, hy_threads y !! i = Some (Stopped s) -> is_Some (uncount (hy_state y))) /\
  (Forall (fun p => p = Outside) (hy_threads y) -> hy_state y = mkHostState false 0).
Proof.
  intros Hr. destruct (reachable_inv _ _ _ Hr) as [Hh Hl Hs]. split_and!.
  - rewrite Hh. destruct (hs_busy _); lia.
  - intros Hsingle. specialize (Hs Hsingle). unfold total in *.
    assert (Hle : (sum_list_with running (hy_threads y) <= sum_list_with opening (hy_threads y) + sum_list_with counted (hy_threads y))%nat).
    { clear. induction (hy_threads y) as [|p l IH]; simpl; [done|]. destruct p; simpl; lia. }
    lia.
  - intros i s Hi. assert (Hz : forall p, (0 <= counted p)%nat) by (intros; lia).
    pose proof (sum_one (fun _ => 0%nat) counted _ i _ Hz Hi) as Hc. simpl in Hc. unfold total in Hl. unfold uncount.
    destruct (hs_live_streams (hy_state y)); [lia|done].
  - intros Hall. assert (Hz : forall f, f Outside = 0%nat -> total f y = 0%nat).
    { intros f Hf. unfold total. induction Hall as [|p l -> _ IH]; simpl; [done|]. by rewrite Hf, IH. }
    rewrite Hz in Hh, Hl by done. destruct (hy_state y) as [b n]. simpl in *. destruct b; [done|]. by subst n.
Qed.

(** A hung open: a worker starts and counts its stream, then a second connection is
    refused while the first still holds the slot. *)
Definition two_workers : host_sys := mkSys (mkHostState true 1) [Streaming; InSession].

Lemma two_workers_reachable : reachable true 2 two_workers.
Proof.
  assert (Ht : forall y i p h' p' y', hy_threads y !! i = Some p -> thread_step true (hy_state y) p h' p' ->
    y' = mkSys h' (<[i := p']> (hy_threads y)) -> host_step true y y') by (intros; subst; by econstructor).
  eapply rtc_l; [eapply (Ht _ 0%nat); [done|by apply step_enter|done]|]. eapply rtc_l; [eapply (Ht _ 0%nat); [done|by apply step_slot|done]|].
  eapply rtc_l; [eapply (Ht _ 0%nat); [done|by apply step_start|done]|]. eapply rtc_l; [eapply (Ht _ 0%nat); [done|by apply step_count|done]|].
  eapply rtc_l; [eapply (Ht _ 0%nat); [done|by apply step_opened|done]|]. eapply rtc_l; [eapply (Ht _ 1%nat); [done|by apply step_enter|done]|].
  apply rtc_refl.
Defined.

Lemma host_runs_one_stream_witness :
  reachable true 2 two_workers /\ total running two_workers = 1%nat /\ ensure_stream_slot_free true (hy_state two_workers) = false /\
  (total running two_workers <= 1)%nat.
Proof.
  split; [apply two_workers_reachable|]. split; [done|]. split; [done|].
  exact (proj1 (proj2 (host_runs_one_stream true 2 two_workers two_workers_reachable)) eq_refl).
Defined.
