(* ===== verification/Avb.v ===== *)
(** * The AVB backend

    Models [src/src/protocols/avb/]: laser points as five or six channels of an
    audio interface.  The audio host is what it enumerates and whether a stream
    starts; the conversion of a sample to the device's format is a parameter.  The
    audio callback is an operation of its own. *)

From stdpp Require Import gmap strings pretty.
From S2P Require Import Prelude Floats Point Session Backend Estimators Bytes Utf8 Discovery Resample AudioSink.

#[local] Open Scope Z_scope.

Definition MIN_CHANNELS : Z := 5.
Definition CHANNELS_XYRGB : nat := 5.
Definition CHANNELS_XYRGBI : nat := 6.
Definition QUEUE_DURATION_MS : Z := 200.

Definition queue_capacity_for_rate (sample_rate : Z) : Z := sample_rate * QUEUE_DURATION_MS / 1000.

(** ** Data *)

Record AvbSelector := mkSelector {
  sel_name : str;
  sel_duplicate_index : Z;
}.

#[export] Instance AvbSelector_eq_dec : EqDecision AvbSelector.
Proof. solve_decision. Defined.

Record OutputConfigRange := mkRange {
  cr_channels : Z;
  cr_min_sample_rate : Z;
  cr_max_sample_rate : Z;
  cr_sample_format : SampleFormat;
}.

Record SelectedStreamConfig := mkSelected {
  ss_channels : Z;
  ss_sample_rate : Z;
  ss_sample_format : SampleFormat;
}.

Record DeviceRecord (D : Type) := mkRecord {
  dr_name : str;
  dr_device : D;
  dr_ranges : list OutputConfigRange;
  dr_default_channels : option Z;
  dr_default_rate : option Z;
}.
Arguments mkRecord {D}.
Arguments dr_name {D}.
Arguments dr_device {D}.
Arguments dr_ranges {D}.
Arguments dr_default_channels {D}.
Arguments dr_default_rate {D}.

Record DeviceCandidate (D : Type) := mkCandidate {
  cand_selector : AvbSelector;
  cand_device : D;
  cand_ranges : list OutputConfigRange;
  cand_default_rate : option Z;
}.
Arguments mkCandidate {D}.
Arguments cand_selector {D}.
Arguments cand_device {D}.
Arguments cand_ranges {D}.
Arguments cand_default_rate {D}.

Record StreamPoint := mkStreamPoint {
  sp_x : F32.t;
  sp_y : F32.t;
  sp_r : F32.t;
  sp_g : F32.t;
  sp_b : F32.t;
  sp_i : F32.t;
}.

#[export] Instance catmull_stream_point : CatmullInterp StreamPoint := fun s0 s1 s2 s3 t =>
  {| sp_x := fclamp (catmull_rom (sp_x s0) (sp_x s1) (sp_x s2) (sp_x s3) t) fm1 f1;
     sp_y := fclamp (catmull_rom (sp_y s0) (sp_y s1) (sp_y s2) (sp_y s3) t) fm1 f1;
     sp_r := fclamp (catmull_rom (sp_r s0) (sp_r s1) (sp_r s2) (sp_r s3) t) f0 f1;
     sp_g := fclamp (catmull_rom (sp_g s0) (sp_g s1) (sp_g s2) (sp_g s3) t) f0 f1;
     sp_b := fclamp (catmull_rom (sp_b s0) (sp_b s1) (sp_b s2) (sp_b s3) t) f0 f1;
     sp_i := fclamp (catmull_rom (sp_i s0) (sp_i s1) (sp_i s2) (sp_i s3) t) f0 f1 |}.

Definition scale_u16_to_f32 (value : Z) : F32.t := F32.div (F32.of_int value) (F32.of_int 65535).

Definition stream_point_from (p : LaserPoint) : StreamPoint :=
  {| sp_x := fclamp (lp_x p) fm1 f1;
     sp_y := fclamp (lp_y p) fm1 f1;
     sp_r := scale_u16_to_f32 (lp_r p);
     sp_g := scale_u16_to_f32 (lp_g p);
     sp_b := scale_u16_to_f32 (lp_b p);
     sp_i := scale_u16_to_f32 (lp_intensity p) |}.

(** ** The runtime state and the callback *)

Record RuntimeState := mkRuntime {
  rt_sink : AudioSinkState StreamPoint;
  rt_shutter_open : bool;
  rt_stream_failed : bool;
}.

Definition set_sink (s : AudioSinkState StreamPoint) (rt : RuntimeState) : RuntimeState := mkRuntime s (rt_shutter_open rt) (rt_stream_failed rt).

Definition set_shutter_open (open : bool) (rt : RuntimeState) : RuntimeState := mkRuntime (rt_sink rt) open (rt_stream_failed rt).

Definition mark_stream_failed (rt : RuntimeState) : RuntimeState := mkRuntime (rt_sink rt) (rt_shutter_open rt) true.

Definition runtime_new (shutter_open : bool) (sample_rate : Z) : option RuntimeState :=
  s ← sink_new (Z.to_nat (queue_capacity_for_rate sample_rate)) sample_rate; Some (mkRuntime s shutter_open false).

(** The lengths [chunks_mut] cuts a buffer into; [None] for chunks of nothing. *)
Definition chunk_lengths (len n : nat) : option (list nat) :=
  assert! bool_decide (0 < n)%nat;;
  Some (replicate (len / n) n ++ if decide (len mod n = 0)%nat then [] else [(len mod n)%nat]).

(** The point of the next frame: the queue's, or the held position without light. *)
Definition sink_point (s : AudioSinkState StreamPoint) : StreamPoint * AudioSinkState StreamPoint :=
  match pop s with
  | (Some point, s) => (point, set_last_output (sp_x point) (sp_y point) s)
  | (None, s) => let '(x, y) := last_output s in (mkStreamPoint x y f0 f0 f0 f0, s)
  end.

Definition callback_frame (s : AudioSinkState StreamPoint) : AudioSinkState StreamPoint := (sink_point s).2.

Definition next_point (rt : RuntimeState) : StreamPoint * RuntimeState :=
  let '(point, s) := sink_point (rt_sink rt) in (point, set_sink s rt).

Definition frame_values (shutter_open : bool) (frame_len : nat) (point : StreamPoint) : list F32.t :=
  [SpecFloat.SFopp (sp_x point); SpecFloat.SFopp (sp_y point)] ++
  if shutter_open && bool_decide (CHANNELS_XYRGB <= frame_len)%nat then
    if bool_decide (CHANNELS_XYRGBI <= frame_len)%nat then [sp_r point; sp_g point; sp_b point; sp_i point]
    else [F32.mul (sp_r point) (sp_i point); F32.mul (sp_g point) (sp_i point); F32.mul (sp_b point) (sp_i point); f0]
  else [f0; f0; f0; f0].

Section callback.
Context {S : Type} (from_sample : F32.t -> S).

Definition frame_out (shutter_open : bool) (frame_len : nat) (point : StreamPoint) : list S :=
  (fun i => from_sample (default f0 (frame_values shutter_open frame_len point !! i))) <$> seq 0 frame_len.

Fixpoint fill_frames (shutter_open : bool) (frames : list nat) (rt : RuntimeState) : RuntimeState * list (list S) :=
  match frames with
  | [] => (rt, [])
  | frame_len :: frames =>
      let '(point, rt) := next_point rt in
      let '(rt, out) := fill_frames shutter_open frames rt in
      (rt, frame_out shutter_open frame_len point :: out)
  end.

(** [fill_output_buffer_converted]: the frames written to a buffer of [len] samples. *)
Definition fill_output_buffer_converted (len output_channels : nat) (rt : RuntimeState) : option (RuntimeState * list (list S)) :=
  frames ← chunk_lengths len output_channels; Some (fill_frames (rt_shutter_open rt) frames rt).
End callback.

(** ** Enumeration *)

(** An ASCII literal as characters. *)
Definition chars (s : string) : str := (fun a => Z.of_N (Ascii.N_of_ascii a)) <$> String.list_ascii_of_string s.

Definition BLACKLISTED_DEVICE_NAMES : list str := [chars "studio display speakers"].

Definition is_blacklisted_device (name : str) : bool := bool_decide (normalize_device_name name ∈ BLACKLISTED_DEVICE_NAMES).

(** What the host tells of an output device, and how starting a stream on it ends. *)
Record OutputDevice := mkOutputDevice {
  od_name : option str;
  od_ranges : list OutputConfigRange;
  od_default_output : option (Z * Z);
  od_start_output : SelectedStreamConfig -> result unit;
}.

Definition device_record (keep_device : str -> bool) (d : OutputDevice) : option (DeviceRecord (option OutputDevice)) :=
  name ← od_name d;
  Some (mkRecord name (if keep_device name then Some d else None) (od_ranges d) (fst <$> od_default_output d) (snd <$> od_default_output d)).

Definition collect_device_records (output_devices : result (list OutputDevice)) (keep_device : str -> bool) : result (list (DeviceRecord (option OutputDevice))) :=
  match output_devices with
  | Err e => Err e
  | Ok devices => Ok (omap (device_record keep_device) devices)
  end.

Section records.
Context {D : Type}.

Definition supports_required_channels (r : DeviceRecord D) : bool :=
  existsb (fun c => MIN_CHANNELS <=? cr_channels c) (dr_ranges r) ||
  match dr_default_channels r with Some c => MIN_CHANNELS <=? c | None => false end.

(** Rust's string order: bytes, lexicographically. *)
Fixpoint bytes_cmp (a b : list Z) : comparison :=
  match a, b with
  | [], [] => Eq
  | [], _ => Lt
  | _, [] => Gt
  | x :: a, y :: b => match x ?= y with Eq => bytes_cmp a b | c => c end
  end.

Definition name_cmp (a b : str) : comparison :=
  match bytes_cmp (as_bytes (normalize_device_name a)) (as_bytes (normalize_device_name b)) with
  | Eq => bytes_cmp (as_bytes a) (as_bytes b)
  | c => c
  end.

(** [sort_by], a stable sort. *)
Fixpoint insert_record (r : DeviceRecord D) (rs : list (DeviceRecord D)) : list (DeviceRecord D) :=
  match rs with
  | [] => [r]
  | r' :: rs' => match name_cmp (dr_name r) (dr_name r') with Gt => r' :: insert_record r rs' | _ => r :: rs end
  end.

Definition sort_records (rs : list (DeviceRecord D)) : list (DeviceRecord D) := foldr insert_record [] rs.

Fixpoint index_records (per_name_counter : gmap str Z) (rs : list (DeviceRecord D)) : list (DeviceCandidate D) :=
  match rs with
  | [] => []
  | r :: rs =>
      let key := normalize_device_name (dr_name r) in
      let duplicate_index := default 0 (per_name_counter !! key) in
      mkCandidate (mkSelector (dr_name r) duplicate_index) (dr_device r) (dr_ranges r) (dr_default_rate r)
        :: index_records (<[key := Z.min (duplicate_index + 1) 65535]> per_name_counter) rs
  end.

Definition usable_record (r : DeviceRecord D) : bool := negb (is_blacklisted_device (dr_name r)) && supports_required_channels r.

Definition collect_candidates_from_records (rs : list (DeviceRecord D)) : list (DeviceCandidate D) :=
  index_records ∅ (sort_records (List.filter usable_record rs)).
End records.

Definition collect_candidates (output_devices : result (list OutputDevice)) (keep_device : str -> bool) : result (list (DeviceCandidate (option OutputDevice))) :=
  match collect_device_records output_devices keep_device with
  | Err e => Err e
  | Ok rs => Ok (collect_candidates_from_records rs)
  end.

(** ** Choosing a configuration *)

Definition range_contains (rate : Z) (r : OutputConfigRange) : bool := (cr_min_sample_rate r <=? rate) && (rate <=? cr_max_sample_rate r).

(** [min_by_key(|r| r.channels)]: the first of the least. *)
Fixpoint min_channels (rs : list OutputConfigRange) : option OutputConfigRange :=
  match rs with
  | [] => None
  | r :: rs =>
      match min_channels rs with
      | Some r' => Some (if cr_channels r' <? cr_channels r then r' else r)
      | None => Some r
      end
  end.

Definition choose_stream_config (ranges : list OutputConfigRange) (default_rate : option Z) : option (Z * Z) :=
  let qualifying := List.filter (fun r => MIN_CHANNELS <=? cr_channels r) ranges in
  match rate ← default_rate; best ← min_channels (List.filter (range_contains rate) qualifying); Some (cr_channels best, rate) with
  | Some config => Some config
  | None => r ← min_channels qualifying; Some (cr_channels r, cr_max_sample_rate r)
  end.

Definition choose_sample_format (ranges : list OutputConfigRange) (channels sample_rate : Z) : SampleFormat :=
  let matching := List.filter (fun r => (cr_channels r =? channels) && range_contains sample_rate r) ranges in
  let offered f := existsb (fun r => bool_decide (cr_sample_format r = f)) matching in
  if offered SfF32 then SfF32 else if offered SfI16 then SfI16 else if offered SfI32 then SfI32
  else match matching with r :: _ => cr_sample_format r | [] => SfF32 end.

Definition select_stream_config {D} (c : DeviceCandidate D) : result SelectedStreamConfig :=
  match choose_stream_config (cand_ranges c) (cand_default_rate c) with
  | None => Err (ErrBackend "no compatible output config found for AVB device")
  | Some (channels, rate) => Ok (mkSelected channels rate (choose_sample_format (cand_ranges c) channels rate))
  end.

(** ** The engine *)

Record ResolvedConfig := mkResolved {
  rc_config : SelectedStreamConfig;
  rc_same_name_count : option nat;
}.

Definition device_not_found (s : AvbSelector) : Error :=
  ErrDisconnected ("audio device not found: " +:+ text (sel_name s) +:+ " (index " +:+ pretty (Z.to_N (sel_duplicate_index s)) +:+ ")").

Definition same_key (key : str) (name : str) : bool := bool_decide (normalize_device_name name = key).

Definition find_candidate {D} (s : AvbSelector) (cs : list (DeviceCandidate D)) : option (DeviceCandidate D) :=
  List.find (fun c => bool_decide (sel_name (cand_selector c) = sel_name s) && (sel_duplicate_index (cand_selector c) =? sel_duplicate_index s)) cs.

Section engine.
(** What the host enumerates; [access] is what entering a session, and finding the
    stream slot free where that is asked, gave. *)
Context (access : result unit) (output_devices : result (list OutputDevice)).

Definition discover : result (list AvbSelector) :=
  match access with
  | Err e => Err e
  | Ok _ =>
      match collect_candidates output_devices (fun _ => false) with
      | Err e => Err e
      | Ok cs => Ok (cand_selector <$> cs)
      end
  end.

Definition resolve_stream_config (s : AvbSelector) : result ResolvedConfig :=
  match access with
  | Err e => Err e
  | Ok _ =>
      let key := normalize_device_name (sel_name s) in
      match collect_candidates output_devices (same_key key) with
      | Err e => Err e
      | Ok cs =>
          let same_name_count := length (List.filter (fun c => same_key key (sel_name (cand_selector c))) cs) in
          match find_candidate s cs with
          | None => Err (device_not_found s)
          | Some c =>
              match select_stream_config c with
              | Err e => Err e
              | Ok config => Ok (mkResolved config (Some same_name_count))
              end
          end
      end
  end.

Definition select_device (s : AvbSelector) : result OutputDevice :=
  let key := normalize_device_name (sel_name s) in
  match collect_candidates output_devices (same_key key) with
  | Err e => Err e
  | Ok cs => match c ← find_candidate s cs; cand_device c with Some d => Ok d | None => Err (device_not_found s) end
  end.

Definition open_stream (s : AvbSelector) (config : SelectedStreamConfig) : result unit :=
  match access with
  | Err e => Err e
  | Ok _ =>
      match select_device s with
      | Err e => Err e
      | Ok d => od_start_output d config
      end
  end.
End engine.

(** ** The backend *)

(** How the wait for the audio worker ended. *)
Inductive init_outcome :=
  | Reported (r : result unit)
  | WorkerDied
  | InitTimedOut.

Record AvbBackend := mkAvb {
  ab_selector : AvbSelector;
  ab_runtime : option RuntimeState;
  ab_worker : bool;
  ab_caps : DacCapabilities;
  ab_desired_shutter_open : bool;
  ab_source : bool;
  ab_resampler : StreamingResampler StreamPoint;
  ab_resample_scratch : list StreamPoint;
  ab_scan_duplicate_count : option nat;
  ab_warned : bool;
}.

Definition avb_build (s : AvbSelector) : AvbBackend :=
  mkAvb s None false avb_capabilities false false (mkResampler 1 1 [] 0 0 0) [] None false.

Definition from_selector_with_scan_count (s : AvbSelector) (count : nat) : AvbBackend :=
  mkAvb s None false avb_capabilities false false (mkResampler 1 1 [] 0 0 0) [] (Some count) false.

Definition set_runtime (rt : option RuntimeState) (b : AvbBackend) : AvbBackend :=
  mkAvb (ab_selector b) rt (ab_worker b) (ab_caps b) (ab_desired_shutter_open b) (ab_source b) (ab_resampler b) (ab_resample_scratch b)
    (ab_scan_duplicate_count b) (ab_warned b).

Definition set_link (worker source : bool) (b : AvbBackend) : AvbBackend :=
  mkAvb (ab_selector b) (ab_runtime b) worker (ab_caps b) (ab_desired_shutter_open b) source (ab_resampler b) (ab_resample_scratch b)
    (ab_scan_duplicate_count b) (ab_warned b).

Definition set_desired (open : bool) (b : AvbBackend) : AvbBackend :=
  mkAvb (ab_selector b) (ab_runtime b) (ab_worker b) (ab_caps b) open (ab_source b) (ab_resampler b) (ab_resample_scratch b)
    (ab_scan_duplicate_count b) (ab_warned b).

Definition set_resampler (r : StreamingResampler StreamPoint) (b : AvbBackend) : AvbBackend :=
  mkAvb (ab_selector b) (ab_runtime b) (ab_worker b) (ab_caps b) (ab_desired_shutter_open b) (ab_source b) r (ab_resample_scratch b)
    (ab_scan_duplicate_count b) (ab_warned b).

Definition set_scratch (buf : list StreamPoint) (b : AvbBackend) : AvbBackend :=
  mkAvb (ab_selector b) (ab_runtime b) (ab_worker b) (ab_caps b) (ab_desired_shutter_open b) (ab_source b) (ab_resampler b) buf
    (ab_scan_duplicate_count b) (ab_warned b).

Definition set_warned (w : bool) (b : AvbBackend) : AvbBackend :=
  mkAvb (ab_selector b) (ab_runtime b) (ab_worker b) (ab_caps b) (ab_desired_shutter_open b) (ab_source b) (ab_resampler b)
    (ab_resample_scratch b) (ab_scan_duplicate_count b) w.

Definition reset_pps_warning : AvbBackend -> AvbBackend := set_warned false.

Definition is_connected (b : AvbBackend) : bool :=
  match ab_runtime b with Some rt => ab_worker b && negb (rt_stream_failed rt) | None => false end.

Definition device_set_changed (s : AvbSelector) : Error :=
  ErrDisconnected ("audio device not found: " +:+ text (sel_name s) +:+ ": same-named device count changed; rescan required").

(** [connect], with what the engine resolved and how the worker's start went.
    [None]: a queue of no room.  The runtime of a failed stream is replaced at once;
    its worker, which keeps that runtime until the dropped stop channel wakes it, is no
    longer part of the backend. *)
Definition connect (resolved : result ResolvedConfig) (init : init_outcome) (b : AvbBackend) : option (AvbBackend * result unit) :=
  if is_connected b then Some (b, Ok tt)
  else
    match resolved with
    | Err e => Some (b, Err e)
    | Ok resolved =>
        if match ab_scan_duplicate_count b, rc_same_name_count resolved with
           | Some recorded, Some current => negb (Nat.eqb recorded current)
           | _, _ => false
           end
        then Some (b, Err (device_set_changed (ab_selector b)))
        else
          let b := set_resampler (resampler_reset (ab_resampler b)) b in
          rt ← runtime_new (ab_desired_shutter_open b) (ss_sample_rate (rc_config resolved));
          match init with
          | Reported (Ok _) => Some (set_link true true (set_runtime (Some rt) (reset_pps_warning b)), Ok tt)
          | Reported (Err e) => Some (b, Err e)
          | WorkerDied | InitTimedOut => Some (b, Err (ErrBackend "failed to start AVB output stream"))
          end
    end.

(** The worker's last acts: the queue is cleared and the shutter closed. *)
Definition worker_exit (rt : RuntimeState) : RuntimeState := set_shutter_open false (set_sink (clear_queue (rt_sink rt)) rt).

Definition disconnect (b : AvbBackend) : AvbBackend * result unit :=
  (set_resampler (resampler_reset (ab_resampler b)) (set_link false false (set_runtime None b)), Ok tt).

Definition stop (b : AvbBackend) : AvbBackend * result unit :=
  let b := set_desired false b in
  let b := set_runtime ((fun rt => set_sink (clear_queue (rt_sink rt)) (set_shutter_open false rt)) <$> ab_runtime b) b in
  (set_resampler (resampler_reset (ab_resampler b)) b, Ok tt).

Definition set_shutter (open : bool) (b : AvbBackend) : AvbBackend * result unit :=
  let b := set_desired open b in (set_runtime (set_shutter_open open <$> ab_runtime b) b, Ok tt).

(** [try_write_points], with what the callback took between the pushes. *)
Definition try_write_points (gaps : list nat) (pps : Z) (points : list LaserPoint) (b : AvbBackend) :
    option (AvbBackend * result WriteOutcome * list StreamPoint) :=
  match ab_runtime b with
  | None => Some (b, Err (ErrDisconnected "Not connected"), [])
  | Some rt =>
      if rt_stream_failed rt then Some (b, Err (ErrDisconnected "AVB output stream failed"), [])
      else if decide (points = []) then Some (b, Ok Written, [])
      else
        let rate := sk_sample_rate (rt_sink rt) in
        let b := if (rate <? pps) && negb (ab_warned b) then set_warned true b else b in
        r ← set_rates (Z.max pps 1) rate (ab_resampler b);
        let b := set_resampler r b in
        if negb (has_capacity_for (rt_sink rt) (pending_output_count r (length points))) then Some (b, Ok WouldBlock, [])
        else
          '(got, s, buf, r) ← push_chunk_resampled callback_frame gaps (stream_point_from <$> points) r (rt_sink rt);
          Some (set_resampler r (set_scratch buf (set_runtime (Some (set_sink s rt)) b)), Ok Written, got)
  end.

Definition estimated_fullness (pps : Z) (b : AvbBackend) : Z :=
  runtime_fullness (assert! ab_source b;; rt ← ab_runtime b; Some (queued_points (rt_sink rt), sk_sample_rate (rt_sink rt))) pps.

(** ** Discovery *)

Definition PREFIX : string := "avb".

Definition format_stable_id (name : str) (device_index : Z) : string :=
  PREFIX +:+ ":" +:+ text (slugify_device_id name) +:+ ":" +:+ pretty (Z.to_N device_index).

Definition name_counts (selectors : list AvbSelector) : gmap str nat :=
  foldl (fun counts s => let key := normalize_device_name (sel_name s) in <[key := S (default 0%nat (counts !! key))]> counts) ∅ selectors.

Definition discovered (counts : gmap str nat) (s : AvbSelector) : DiscoveredDevice (AvbSelector * nat) :=
  let scan_duplicate_count := default 1%nat (counts !! normalize_device_name (sel_name s)) in
  let stable_id := format_stable_id (sel_name s) (sel_duplicate_index s) in
  let info := with_device_index (sel_duplicate_index s)
    (with_hardware_name (text (sel_name s)) (DiscoveredDeviceInfo_new Avb stable_id (text (sel_name s)))) in
  DiscoveredDevice_new info (s, scan_duplicate_count).

(** [AvbDiscoverer::scan] of what the engine discovered. *)
Definition avb_scan (found : result (list AvbSelector)) : list (DiscoveredDevice (AvbSelector * nat)) :=
  match found with
  | Err _ => []
  | Ok selectors => discovered (name_counts selectors) <$> selectors
  end.

Definition avb_connect (data : AvbSelector * nat) : AvbBackend := from_selector_with_scan_count data.1 data.2.

(** ** The range of what reaches the device *)

(** A coordinate: in [-1, 1], or the NaN a point came with. *)
Definition coord_ok (v : F32.t) : Prop := F32.valid v = true /\ (is_nan v = true \/ f32_bounded v 1 0).

(** A light level: a number in [0, 1]. *)
Definition unit_ok (v : F32.t) : Prop := f32_bounded v 1 0 /\ nonneg v.

Record point_ok (p : StreamPoint) : Prop := {
  po_x : coord_ok (sp_x p);
  po_y : coord_ok (sp_y p);
  po_r : unit_ok (sp_r p);
  po_g : unit_ok (sp_g p);
  po_b : unit_ok (sp_b p);
  po_i : unit_ok (sp_i p);
}.

Lemma clamp_coord v : F32.valid v = true -> coord_ok (fclamp v fm1 f1).
Proof.
  intros Hv. split; [by apply clamp_valid|]. destruct (is_nan v) eqn:Hn; [|right; by apply clamp1_bounded].
  left. by destruct v.
Qed.

Lemma clamp_unit v : f32_bounded v 16 0 -> unit_ok (fclamp v f0 f1).
Proof.
  intros [Hv Hm]. assert (Hn : is_nan v = false) by (by destruct v).
  split; [|by apply clamp_nonneg]. apply (clamp_bounded 24 128); [done|done|done|apply f0_bounded|apply f1_bounded|done].
Qed.

Lemma unit_zero : unit_ok f0.
Proof. split; [apply f0_bounded|by left]. Qed.

Lemma unit_mul u v : unit_ok u -> unit_ok v -> unit_ok (F32.mul u v).
Proof.
  intros [Hu Hun] [Hv Hvn]. split; [apply (f32_mul_int _ _ 1 1); (done || lia)|].
  destruct Hun as [Hun| ->], Hvn as [Hvn| ->].
  - left. apply (mul_signed 24 128 false false _ _ 1 0 1 0); [apply Hu|apply Hv|done|done].
  - destruct u as [s|s| |s m e]; simpl in Hun; subst; try (by destruct Hu); by right.
  - destruct v as [s|s| |s m e]; simpl in Hvn; subst; try (by destruct Hv); by right.
  - by left.
Qed.

Lemma scale_unit v : in_u 16 v -> unit_ok (scale_u16_to_f32 v).
Proof.
  unfold in_u, umax. intros Hv. unfold scale_u16_to_f32.
  destruct (normalize_exact 24 128 eq_refl eq_refl 65535 false) as (m & e & He & Hle & Hm); [lia|].
  unfold F32.of_int at 2. unfold of_int. rewrite He. destruct v as [|p|p]; [split; [by literal_bound|by left]| |lia].
  assert (Hb : f32_bounded (F32.of_int (Zpos p)) 65535 0).
  { apply (normalize_bounded 24 128 eq_refl); [|apply rep_small; lia]. unfold dle. rewrite Z.min_id, Z.sub_diag. lia. }
  split.
  - apply (div_bounded 24 128); [done|apply Hb| |by apply rep_small]. rewrite Z.mul_1_l, Z.add_0_l, Hm.
    refine (proj2 (bounded_weaken 24 128 _ 65535 0 _ _ Hb _)). unfold dle. rewrite Z.min_r, Z.sub_diag, Z.sub_0_l by lia. lia.
  - left. unfold F32.div. destruct (normalize_exact 24 128 eq_refl eq_refl p false) as (m' & e' & He' & _); [lia|].
    unfold F32.of_int, of_int. rewrite He'. by apply (div_signed 24 128 eq_refl false false).
Qed.

Lemma from_point_ok p : point_wf p -> point_ok (stream_point_from p).
Proof. intros (Hx & Hy & Hr & Hg & Hb & Hi). split; simpl; (by apply clamp_coord) || (by apply scale_unit). Qed.

(** Interpolating admissible points gives an admissible point: overshoot is clamped,
    and no NaN appears in a colour. *)
Lemma catmull_point_ok to s0 s1 s2 s3 t :
  0 < to < 2 ^ 24 -> point_ok s0 -> point_ok s1 -> point_ok s2 -> point_ok s3 -> phase_of to t -> point_ok (catmull s0 s1 s2 s3 t).
Proof.
  intros Hto H0 H1 H2 H3 Ht. apply (phase_bounded to) in Ht; [|done].
  split; simpl; (apply clamp_coord, catmull_rom_valid; try apply Ht; (apply H0 || apply H1 || apply H2 || apply H3)) ||
    (apply clamp_unit, catmull_rom_bounded; try apply Ht; (apply H0 || apply H1 || apply H2 || apply H3)).
Qed.

(** ** A session with the callback and the driver interleaved *)

Inductive avb_op :=
  | OpConnect (resolved : result ResolvedConfig) (init : init_outcome)
  | OpDisconnect
  | OpStop
  | OpShutter (open : bool)
  | OpWrite (gaps : list nat) (pps : Z) (points : list LaserPoint)
  | OpCallback (len channels : nat)
  | OpStreamError.

Section session.
Context {S : Type} (from_sample : F32.t -> S).

(** One operation and the frames it sends.  A callback is atomic: it loads the shutter
    once per buffer.  The frames the callback takes during a write ([gaps]) leave the
    queue, and are not among those returned. *)
Definition avb_step (op : avb_op) (b : AvbBackend) : option (AvbBackend * list (list S)) :=
  match op with
  | OpConnect resolved init => '(b, _) ← connect resolved init b; Some (b, [])
  | OpDisconnect => Some ((disconnect b).1, [])
  | OpStop => Some ((stop b).1, [])
  | OpShutter open => Some ((set_shutter open b).1, [])
  | OpWrite gaps pps points => '(b, _, _) ← try_write_points gaps pps points b; Some (b, [])
  | OpCallback len channels =>
      match ab_runtime b with
      | None => Some (b, [])
      | Some rt =>
          '(rt, frames) ← fill_output_buffer_converted from_sample len channels rt;
          Some (set_runtime (Some rt) b, frames)
      end
  | OpStreamError => Some (set_runtime (mark_stream_failed <$> ab_runtime b) b, [])
  end.

(** The frames of every operation, in order. *)
Fixpoint avb_run (ops : list avb_op) (b : AvbBackend) : option (AvbBackend * list (list S)) :=
  match ops with
  | [] => Some (b, [])
  | op :: ops =>
      '(b, frames) ← avb_step op b;
      '(b, frames') ← avb_run ops b;
      Some (b, frames ++ frames')
  end.

(** What the caller last asked of the shutter; a stop closes it. *)
Definition commanded (open : bool) (op : avb_op) : bool :=
  match op with OpShutter o => o | OpStop => false | _ => open end.

(** No light: every channel after the position is at zero. *)
Definition dark_frame (frame : list S) : Prop := forall i v, (2 <= i)%nat -> frame !! i = Some v -> v = from_sample f0.

Definition op_ok (op : avb_op) : Prop :=
  match op with
  | OpConnect (Ok resolved) _ => 0 < ss_sample_rate (rc_config resolved) < 2 ^ 24
  | OpWrite _ _ points => Forall point_wf points
  | _ => True
  end.

(** A frame within range: coordinates, then light levels. *)
Definition frame_ok (frame : list S) : Prop :=
  forall i v, frame !! i = Some v -> exists x, v = from_sample x /\ if decide (i < 2)%nat then coord_ok x else unit_ok x.

(** *** The frames *)

Lemma frame_out_lookup open n point i v :
  frame_out from_sample open n point !! i = Some v -> v = from_sample (default f0 (frame_values open n point !! i)).
Proof. unfold frame_out. rewrite list_lookup_fmap. by intros (j & [-> _]%lookup_seq & ->)%fmap_Some. Qed.

Lemma closed_frame_dark n point : dark_frame (frame_out from_sample false n point).
Proof. intros i v Hi ->%frame_out_lookup. unfold frame_values. simpl. do 6 (destruct i as [|i]; [done || lia|]). done. Qed.

(** A point without light makes a dark frame even with the shutter open. *)
Lemma unlit_frame_dark open n x y : dark_frame (frame_out from_sample open n (mkStreamPoint x y f0 f0 f0 f0)).
Proof.
  intros i v Hi ->%frame_out_lookup. unfold frame_values. destruct open; simpl; [|do 6 (destruct i as [|i]; [done || lia|]); done].
  destruct (bool_decide (CHANNELS_XYRGB ≤ n)%nat), (bool_decide (CHANNELS_XYRGBI ≤ n)%nat); simpl;
    do 6 (destruct i as [|i]; [done || lia|]); done.
Qed.

Lemma opp_coord v : coord_ok v -> coord_ok (SpecFloat.SFopp v).
Proof. intros [Hv [Hn|Hb]]; (split; [by apply opp_valid|]); [left; by destruct v|right; by apply opp_bounded]. Qed.

Lemma frame_out_ok open n point : point_ok point -> frame_ok (frame_out from_sample open n point).
Proof.
  intros [Hx Hy Hr Hg Hb Hi] i v ->%frame_out_lookup. eexists. split; [done|].
  pose proof unit_zero as H0. unfold frame_values.
  destruct open, (bool_decide (CHANNELS_XYRGB ≤ n)%nat), (bool_decide (CHANNELS_XYRGBI ≤ n)%nat); simpl;
    do 2 (destruct i as [|i]; [by apply opp_coord|]); do 4 (destruct i as [|i]; [simpl; auto using unit_mul|]); done.
Qed.

Lemma fill_frames_dark frames rt : Forall dark_frame (fill_frames from_sample false frames rt).2.
Proof.
  revert rt. induction frames as [|n frames IH]; intros rt; simpl; [constructor|]. destruct (next_point rt) as [p rt1].
  specialize (IH rt1). destruct (fill_frames _ _ frames rt1). constructor; [apply closed_frame_dark|done].
Qed.

(** *** Invariants of a session *)

(** The callback sees an open shutter only when the caller wants it open. *)
Definition shutter_inv (b : AvbBackend) : Prop := forall rt, ab_runtime b = Some rt -> rt_shutter_open rt = true -> ab_desired_shutter_open b = true.

Lemma fill_frames_shutter open frames rt : rt_shutter_open (fill_frames from_sample open frames rt).1 = rt_shutter_open rt.
Proof.
  revert rt. induction frames as [|n frames IH]; intros rt; simpl; [done|].
  assert (Hn : rt_shutter_open (next_point rt).2 = rt_shutter_open rt) by (unfold next_point; by destruct (sink_point _)).
  destruct (next_point rt) as [p rt1]. specialize (IH rt1). destruct (fill_frames _ _ frames rt1). simpl in *. congruence.
Qed.

Lemma avb_step_shutter op b b' frames :
  avb_step op b = Some (b', frames) -> shutter_inv b ->
  shutter_inv b' /\ ab_desired_shutter_open b' = commanded (ab_desired_shutter_open b) op /\
  (ab_desired_shutter_open b = false -> Forall dark_frame frames).
Proof.
  destruct op as [resolved init| | |open|gaps pps points|len channels|]; simpl; intros Hs Hb.
  - unfold connect in Hs. destruct (is_connected b); [by simplify_eq/=|]. destruct resolved as [res|e]; [|by simplify_eq/=].
    destruct (match _ with Some _ => _ | None => false end); [by simplify_eq/=|]. unfold runtime_new in Hs. simpl in Hs.
    destruct (sink_new _ _) as [s|]; simpl in Hs; [|done].
    destruct init as [[[]|e]| |]; simplify_eq/=; (split; [|done]); [|done..]. intros rt [= <-]. done.
  - simplify_eq/=. by split.
  - simplify_eq/=. split; [|done]. intros rt. simpl. destruct (ab_runtime b); [|done]. by intros [= <-].
  - simplify_eq/=. split; [|done]. intros rt. simpl. destruct (ab_runtime b); [|done]. by intros [= <-].
  - unfold try_write_points in Hs. destruct (ab_runtime b) as [rt|] eqn:Hrt; [|simplify_eq/=; done].
    destruct (rt_stream_failed rt); [simplify_eq/=; done|]. case_decide; [simplify_eq/=; done|].
    set (b1 := if _ && _ then set_warned true b else b) in Hs.
    assert (H1 : ab_runtime b1 = ab_runtime b /\ ab_desired_shutter_open b1 = ab_desired_shutter_open b) by (unfold b1; by destruct (_ && _)).
    clearbody b1. destruct H1 as [Hrt1 Hd1]. destruct (set_rates _ _ _) as [r|]; simpl in Hs; [|done].
    destruct (has_capacity_for _ _); simpl in Hs.
    + destruct (push_chunk_resampled _ _ _ _ _) as [[[[? ?] ?] ?]|]; simpl in Hs; [|done]. simplify_eq/=.
      split; [|done]. intros rt' [= <-]. simpl. rewrite Hd1. by apply Hb.
    + simplify_eq/=. split; [|done]. intros rt'. simpl. rewrite Hrt1, Hd1. apply Hb.
  - destruct (ab_runtime b) as [rt|] eqn:Hrt; [|simplify_eq/=; done]. unfold fill_output_buffer_converted in Hs.
    destruct (chunk_lengths len channels) as [fl|]; simpl in Hs; [|done].
    pose proof (fill_frames_shutter (rt_shutter_open rt) fl rt) as Hsh.
    assert (Hdark : rt_shutter_open rt = false -> Forall dark_frame (fill_frames from_sample (rt_shutter_open rt) fl rt).2)
      by (intros ->; apply fill_frames_dark).
    destruct (fill_frames _ _ fl rt) as [rt1 out]. simplify_eq/=. split; [|split; [done|]].
    + intros rt' [= <-]. simpl. rewrite Hsh. by apply Hb.
    + intros Hd. apply Hdark. destruct (rt_shutter_open rt) eqn:Ho; [|done]. by rewrite (Hb rt Hrt Ho) in Hd.
  - simplify_eq/=. split; [|done]. intros rt. simpl. destruct (ab_runtime b) as [rt0|] eqn:Hrt; [|done]. intros [= <-]. simpl. by apply Hb.
Qed.

Lemma avb_run_shutter ops b b' frames :
  avb_run ops b = Some (b', frames) -> shutter_inv b ->
  shutter_inv b' /\ ab_desired_shutter_open b' = foldl commanded (ab_desired_shutter_open b) ops.
Proof.
  revert b frames. induction ops as [|op ops IH]; intros b frames; simpl; [by intros [= <- <-]|].
  destruct (avb_step op b) as [[b1 f1]|] eqn:Hs; simpl; [|done]. destruct (avb_run ops b1) as [[b2 f2]|] eqn:Hr; simpl; [|done].
  intros [= <- <-] Hb. destruct (avb_step_shutter _ _ _ _ Hs Hb) as (H1 & H2 & _). rewrite <- H2. by eapply IH.
Qed.

(** C28. Whatever a session does, reconnections and driver failures included, the audio
    callback sends light only while the last thing the caller asked for was an open
    shutter: after a stop, a closed shutter or at the start every frame is dark. *)
Theorem avb_dark_unless_opened (s : AvbSelector) (ops : list avb_op) (len channels : nat) b frames b' out :
  avb_run ops (avb_build s) = Some (b, frames) -> foldl commanded false ops = false ->
  avb_step (OpCallback len channels) b = Some (b', out) -> Forall dark_frame out.
Proof.
  intros Hr Hc Hs. destruct (avb_run_shutter _ _ _ _ Hr) as [Hi Hd]; [done|].
  destruct (avb_step_shutter _ _ _ _ Hs Hi) as (_ & _ & Hdark). apply Hdark. by rewrite Hd.
Qed.
(** *** The range of every frame *)

Definition sink_ok (s : AudioSinkState StreamPoint) : Prop :=
  Forall point_ok (sk_queue s) /\ coord_ok (sk_last s).1 /\ coord_ok (sk_last s).2 /\ 0 < sk_sample_rate s < 2 ^ 24.

Record range_inv (b : AvbBackend) : Prop := {
  ri_buf : Forall point_ok (rs_buf (ab_resampler b));
  ri_sink : forall rt, ab_runtime b = Some rt -> sink_ok (rt_sink rt);
}.

Lemma sink_point_ok s : sink_ok s -> point_ok (sink_point s).1 /\ sink_ok (sink_point s).2.
Proof.
  intros (Hq & Hx & Hy & Hr). unfold sink_point, pop. destruct s as [[|p q] c rate [x y]]; simpl in *.
  - pose proof unit_zero. done.
  - inversion Hq as [|? ? Hp Hq']; subst. split; [done|]. split; [done|]. split; [apply Hp|]. split; [apply Hp|done].
Qed.

Lemma fill_frames_ok open frames rt :
  sink_ok (rt_sink rt) -> Forall frame_ok (fill_frames from_sample open frames rt).2 /\ sink_ok (rt_sink (fill_frames from_sample open frames rt).1).
Proof.
  revert rt. induction frames as [|n frames IH]; intros rt Hs; simpl; [by split|]. unfold next_point.
  destruct (sink_point_ok (rt_sink rt) Hs) as [Hp Hs1]. destruct (sink_point (rt_sink rt)) as [p s]. simpl in *.
  destruct (IH (set_sink s rt) Hs1) as [Hf Hs2]. destruct (fill_frames _ _ frames _) as [rt2 out]. simpl in *.
  split; [|done]. constructor; [by apply frame_out_ok|done].
Qed.

Lemma set_rates_buf (Q : StreamPoint -> Prop) from to (r r' : StreamingResampler StreamPoint) :
  set_rates from to r = Some r' -> Forall Q (rs_buf r) -> Forall Q (rs_buf r') /\ rs_to_rate r' = to.
Proof.
  unfold set_rates. destruct (_ && _); simpl; [|done]. intros [= <-] Hq.
  destruct (Z.eqb_spec from (rs_from_rate r)), (Z.eqb_spec to (rs_to_rate r)); simpl; by auto.
Qed.

Lemma write_range_inv gaps pps points b b' res got :
  try_write_points gaps pps points b = Some (b', res, got) -> Forall point_wf points -> range_inv b -> range_inv b'.
Proof.
  intros Hs Hp Hb. unfold try_write_points in Hs. destruct (ab_runtime b) as [rt|] eqn:Hrt; [|by simplify_eq/=].
  destruct (rt_stream_failed rt); [by simplify_eq/=|]. case_decide; [by simplify_eq/=|].
  set (b1 := if _ && _ then set_warned true b else b) in Hs. pose proof (ri_sink _ Hb rt Hrt) as Hsk.
  assert (H1 : range_inv b1) by (unfold b1; destruct (_ && _); [|done]; split; [apply Hb|simpl; apply Hb]). clearbody b1.
  destruct (set_rates _ _ _) as [r|] eqn:Hr; simpl in Hs; [|done]. apply (set_rates_buf point_ok) in Hr as [Hbuf Hto]; [|apply H1].
  destruct (has_capacity_for _ _); simpl in Hs; [|simplify_eq/=; split; [done|apply H1]].
  unfold push_chunk_resampled in Hs. destruct (process _ r) as [[r1 os]|] eqn:Hpr; simpl in Hs; [|done].
  destruct (push_all _ _ _ _) as [[g s]|] eqn:Hpa; simpl in Hs; [|done]. simplify_eq/=.
  destruct (process_made_of (sk_sample_rate (rt_sink rt)) point_ok point_ok (stream_point_from <$> points) r r1 os) as [Hos Hb1];
    [intros; eapply catmull_point_ok; [|eassumption..]; apply Hsk|done|done| |done|].
  { apply Forall_fmap. eapply Forall_impl; [exact Hp|]. apply from_point_ok. }
  split; [done|]. simpl. intros rt' [= <-]. simpl.
  refine (push_all_kept callback_frame point_ok sink_ok gaps os (rt_sink rt) got s _ _ Hos Hsk Hpa).
  - intros s0 H0. apply (sink_point_ok s0 H0).
  - intros p s0 Hpo (Hq & Hrest). split; [|done]. simpl. apply Forall_app_2; [done|by constructor].
Qed.

Lemma avb_step_range op b b' frames :
  op_ok op -> avb_step op b = Some (b', frames) -> range_inv b -> range_inv b' /\ Forall frame_ok frames.
Proof.
  destruct op as [resolved init| | |open|gaps pps points|len channels|]; simpl; intros Hop Hs Hb.
  - unfold connect in Hs. destruct (is_connected b); [by simplify_eq/=|]. destruct resolved as [res|e]; [|by simplify_eq/=].
    destruct (match _ with Some _ => _ | None => false end); [by simplify_eq/=|]. unfold runtime_new, sink_new in Hs. simpl in Hs.
    destruct (bool_decide _); simpl in Hs; [|done].
    destruct init as [[[]|e]| |]; simplify_eq/=; (split; [|constructor]); (split; [done|]); [|apply Hb..].
    simpl. intros rt [= <-]. split; [constructor|]. assert (coord_ok f0) by (split; [done|right; apply f0_bounded]). done.
  - simplify_eq/=. split; [|constructor]. by split.
  - simplify_eq/=. split; [|constructor]. split; [done|]. simpl. intros rt.
    destruct (ab_runtime b) as [rt0|] eqn:Hrt; simpl; [|done]. intros [= <-]. simpl. rewrite clear_queue_spec.
    destruct (ri_sink _ Hb rt0 Hrt) as (_ & Hrest). by split; [constructor|].
  - simplify_eq/=. split; [|constructor]. split; [apply Hb|]. simpl. intros rt. destruct (ab_runtime b) as [rt0|] eqn:Hrt; simpl; [|done].
    intros [= <-]. exact (ri_sink _ Hb rt0 Hrt).
  - destruct (try_write_points _ _ _ _) as [[[b1 res] got]|] eqn:Hw; simpl in Hs; [|done]. simplify_eq/=. split; [|constructor].
    by eapply write_range_inv.
  - destruct (ab_runtime b) as [rt|] eqn:Hrt; [|by simplify_eq/=]. unfold fill_output_buffer_converted in Hs.
    destruct (chunk_lengths len channels) as [fl|]; simpl in Hs; [|done].
    destruct (fill_frames_ok (rt_shutter_open rt) fl rt (ri_sink _ Hb rt Hrt)) as [Hf Hk].
    destruct (fill_frames _ _ fl rt) as [rt1 out]. simplify_eq/=. split; [|done]. split; [apply Hb|]. simpl. by intros rt' [= <-].
  - simplify_eq/=. split; [|constructor]. split; [apply Hb|]. simpl. intros rt. destruct (ab_runtime b) as [rt0|] eqn:Hrt; simpl; [|done].
    intros [= <-]. exact (ri_sink _ Hb rt0 Hrt).
Qed.

Lemma avb_run_range ops b b' frames :
  Forall op_ok ops -> avb_run ops b = Some (b', frames) -> range_inv b -> Forall frame_ok frames.
Proof.
  revert b frames. induction ops as [|op ops IH]; intros b frames Hops; simpl; [by intros [= <- <-]|]. inversion Hops as [|? ? Hop Hops']; subst.
  destruct (avb_step op b) as [[b1 f1]|] eqn:Hs; simpl; [|done]. destruct (avb_run ops b1) as [[b2 f2]|] eqn:Hr; simpl; [|done].
  intros [= <- <-] Hb. destruct (avb_step_range _ _ _ _ Hop Hs Hb) as [H1 H2]. apply Forall_app_2; [done|]. by eapply IH.
Qed.

(** C31. Every sample the callback sends between the calls of a session, at a sample rate
    below 2^24, is within range: the position channels carry
    a value in [-1, 1] (or the NaN of a malformed point), and every other channel a
    number in [0, 1]; the overshoot of the interpolation never reaches the device,
    alone or through the product with the intensity. *)
Theorem avb_output_in_range (s : AvbSelector) (ops : list avb_op) b frames :
  Forall op_ok ops -> avb_run ops (avb_build s) = Some (b, frames) -> Forall frame_ok frames.
Proof. intros Hops Hr. eapply avb_run_range; [done|done|]. split; [constructor|done]. Qed.
End session.

(** ** A scan's selectors *)

Definition cand_key {D} (c : DeviceCandidate D) : str := normalize_device_name (sel_name (cand_selector c)).

(** A record or candidate without its device handle. *)
Definition strip_record {D} (r : DeviceRecord D) : DeviceRecord () := mkRecord (dr_name r) () (dr_ranges r) (dr_default_channels r) (dr_default_rate r).

Definition strip_candidate {D} (c : DeviceCandidate D) : DeviceCandidate () := mkCandidate (cand_selector c) () (cand_ranges c) (cand_default_rate c).

Section handles.
Context {D : Type}.

Lemma strip_filter (rs : list (DeviceRecord D)) : strip_record <$> List.filter usable_record rs = List.filter usable_record (strip_record <$> rs).
Proof. induction rs as [|r rs IH]; [done|]. simpl. change (usable_record (strip_record r)) with (usable_record r). destruct (usable_record r); [by csimpl; f_equal|done]. Qed.

Lemma strip_insert (r : DeviceRecord D) rs : strip_record <$> insert_record r rs = insert_record (strip_record r) (strip_record <$> rs).
Proof. induction rs as [|r' rs IH]; [done|]. csimpl. simpl. destruct (name_cmp (dr_name r) (dr_name r')); csimpl; [done|done|by f_equal]. Qed.

Lemma strip_sort (rs : list (DeviceRecord D)) : strip_record <$> sort_records rs = sort_records (strip_record <$> rs).
Proof. induction rs as [|r rs IH]; [done|]. csimpl. simpl. by rewrite strip_insert, IH. Qed.

Lemma strip_index m (rs : list (DeviceRecord D)) : strip_candidate <$> index_records m rs = index_records m (strip_record <$> rs).
Proof. revert m. induction rs as [|r rs IH]; intros m; [done|]. csimpl. simpl. f_equal. apply IH. Qed.

Lemma strip_candidates (rs : list (DeviceRecord D)) :
  strip_candidate <$> collect_candidates_from_records rs = collect_candidates_from_records (strip_record <$> rs).
Proof. unfold collect_candidates_from_records. by rewrite strip_index, strip_sort, strip_filter. Qed.

(** Indices count up from the counter, so that no two candidates of a name share one. *)
Lemma index_records_from m (rs : list (DeviceRecord D)) c :
  (forall k i, m !! k = Some i -> 0 <= i /\ i + Z.of_nat (length rs) <= 65535) -> Z.of_nat (length rs) <= 65535 ->
  c ∈ index_records m rs -> default 0 (m !! cand_key c) <= sel_duplicate_index (cand_selector c).
Proof.
  revert m. induction rs as [|r rs IH]; intros m Hm Hl; simpl; [by intros ?%not_elem_of_nil|]. intros [->|Hc]%elem_of_cons; [done|].
  simpl in Hl. set (key := normalize_device_name (dr_name r)) in *. set (i := default 0 (m !! key)) in *.
  assert (Hi : 0 <= i /\ i + Z.of_nat (S (length rs)) <= 65535).
  { unfold i. destruct (m !! key) as [j|] eqn:Hj; simpl; [|lia]. specialize (Hm key j Hj). simpl in Hm. lia. }
  rewrite Z.min_l in Hc by lia. etrans; [|apply (IH (<[key:=i + 1]> m)); [|lia|done]].
  - destruct (decide (cand_key c = key)) as [->|Hne]; [rewrite lookup_insert_eq; fold i; simpl; lia|by rewrite lookup_insert_ne].
  - intros k j. destruct (decide (k = key)) as [->|Hne]; [rewrite lookup_insert_eq; intros [= <-]; lia|].
    rewrite lookup_insert_ne by done. intros Hj%Hm. simpl in Hj. lia.
Qed.

Lemma index_records_nodup m (rs : list (DeviceRecord D)) :
  (forall k i, m !! k = Some i -> 0 <= i /\ i + Z.of_nat (length rs) <= 65535) -> Z.of_nat (length rs) <= 65535 ->
  NoDup ((fun c => (cand_key c, sel_duplicate_index (cand_selector c))) <$> index_records m rs).
Proof.
  revert m. induction rs as [|r rs IH]; intros m Hm Hl; csimpl; [constructor|]. simpl in Hl.
  set (key := normalize_device_name (dr_name r)) in *. set (i := default 0 (m !! key)) in *.
  assert (Hi : 0 <= i /\ i + Z.of_nat (S (length rs)) <= 65535).
  { unfold i. destruct (m !! key) as [j|] eqn:Hj; simpl; [|lia]. specialize (Hm key j Hj). simpl in Hm. lia. }
  rewrite Z.min_l by lia.
  assert (Hm' : forall k j, <[key:=i + 1]> m !! k = Some j -> 0 <= j /\ j + Z.of_nat (length rs) <= 65535).
  { intros k j. destruct (decide (k = key)) as [->|Hne]; [rewrite lookup_insert_eq; intros [= <-]; lia|].
    rewrite lookup_insert_ne by done. intros Hj%Hm. simpl in Hj. lia. }
  constructor; [|apply IH; [done|lia]]. intros (c & Heq & Hc)%list_elem_of_fmap. injection Heq as Hk Hd.
  pose proof (index_records_from (<[key:=i + 1]> m) rs c Hm' ltac:(lia) Hc) as Hge. rewrite <- Hk in Hge. unfold cand_key in Hge. simpl in Hge.
  fold key in Hge. rewrite lookup_insert_eq in Hge. simpl in Hge, Hd. lia.
Qed.

Lemma insert_record_length (r : DeviceRecord D) rs : length (insert_record r rs) = S (length rs).
Proof. induction rs as [|r' rs IH]; [done|]. simpl. destruct (name_cmp _ _); simpl; [done|done|by rewrite IH]. Qed.

Lemma sort_records_length (rs : list (DeviceRecord D)) : length (sort_records rs) = length rs.
Proof. induction rs as [|r rs IH]; [done|]. simpl. by rewrite insert_record_length, IH. Qed.

Lemma candidates_nodup (rs : list (DeviceRecord D)) :
  Z.of_nat (length rs) <= 65535 -> NoDup ((fun c => (cand_key c, sel_duplicate_index (cand_selector c))) <$> collect_candidates_from_records rs).
Proof.
  intros Hl. pose proof (List.filter_length_le usable_record rs). apply index_records_nodup; [by intros k i ?%lookup_empty_Some|].
  rewrite sort_records_length. lia.
Qed.
End handles.

(** The handles a listing keeps do not change what it lists. *)
Lemma records_strip keep keep' (devices : list OutputDevice) : strip_record <$> omap (device_record keep) devices = strip_record <$> omap (device_record keep') devices.
Proof.
  induction devices as [|d ds IH]; [done|].
  assert (Hcons : forall k, omap (device_record k) (d :: ds) = option_list (device_record k d) ++ omap (device_record k) ds)
    by (intros k; simpl; by destruct (device_record k d)).
  rewrite !Hcons, !fmap_app, IH. f_equal. unfold device_record. by destruct (od_name d).
Qed.

Lemma listing_selectors keep devices :
  cand_selector <$> collect_candidates_from_records (omap (device_record keep) devices) =
  cand_selector <$> collect_candidates_from_records (omap (device_record (fun _ => false)) devices).
Proof.
  assert (Hs : forall D (cs : list (DeviceCandidate D)), cand_selector <$> cs = cand_selector <$> (strip_candidate <$> cs))
    by (intros D cs; rewrite <- list_fmap_compose; done).
  rewrite (Hs _ (collect_candidates_from_records (omap (device_record keep) devices))).
  rewrite (Hs _ (collect_candidates_from_records (omap (device_record (fun _ => false)) devices))).
  by rewrite !strip_candidates, (records_strip keep (fun _ => false)).
Qed.

(** Where candidates come from. *)
Lemma index_records_elem {D} m (rs : list (DeviceRecord D)) c :
  c ∈ index_records m rs -> exists r, r ∈ rs /\ sel_name (cand_selector c) = dr_name r /\ cand_device c = dr_device r /\ cand_ranges c = dr_ranges r.
Proof.
  revert m. induction rs as [|r rs IH]; intros m; simpl; [by intros ?%not_elem_of_nil|].
  intros [->|Hc]%elem_of_cons; [exists r; split; [by left|done]|]. destruct (IH _ Hc) as (r' & Hr & Hrest). exists r'. split; [by right|done].
Qed.

Lemma insert_record_elem {D} (r x : DeviceRecord D) rs : x ∈ insert_record r rs -> x = r \/ x ∈ rs.
Proof.
  induction rs as [|r' rs IH]; simpl; [by intros ?%list_elem_of_singleton; left|]. destruct (name_cmp _ _).
  - by intros [?|?]%elem_of_cons; [left|right].
  - by intros [?|?]%elem_of_cons; [left|right].
  - intros [->|Hx]%elem_of_cons; [by right; left|]. destruct (IH Hx); [by left|by right; right].
Qed.

Lemma sort_records_elem {D} (x : DeviceRecord D) rs : x ∈ sort_records rs -> x ∈ rs.
Proof.
  induction rs as [|r rs IH]; simpl; [done|]. intros Hx%insert_record_elem. destruct Hx as [->|Hx]; [by left|right; by apply IH].
Qed.

Lemma candidate_device keep devices c :
  c ∈ collect_candidates_from_records (omap (device_record keep) devices) -> keep (sel_name (cand_selector c)) = true ->
  exists d, d ∈ devices /\ od_name d = Some (sel_name (cand_selector c)) /\ cand_device c = Some d /\ cand_ranges c = od_ranges d.
Proof.
  intros (r & Hr & Hn & Hd & Hg)%index_records_elem Hk. apply sort_records_elem in Hr.
  apply list_elem_of_In in Hr. apply List.filter_In in Hr as [Hr _]. apply list_elem_of_In in Hr.
  apply list_elem_of_omap in Hr as (d & Hin & Hrec). unfold device_record in Hrec. destruct (od_name d) as [n|] eqn:Hname; simpl in Hrec; [|done].
  injection Hrec as <-. simpl in Hn, Hd, Hg. rewrite Hn in Hk. rewrite Hk in Hd. exists d. rewrite Hn. done.
Qed.

Lemma selector_pair {D} (c : DeviceCandidate D) s :
  bool_decide (sel_name (cand_selector c) = sel_name s) && (sel_duplicate_index (cand_selector c) =? sel_duplicate_index s) = true <-> cand_selector c = s.
Proof.
  rewrite andb_true_iff, bool_decide_eq_true, Z.eqb_eq. split; [|by intros ->].
  intros [Hn Hi]. destruct (cand_selector c), s. simpl in *. congruence.
Qed.

(** A selector that is listed is found, at its own place. *)
Lemma find_listed {D} (cs : list (DeviceCandidate D)) i c s :
  NoDup ((fun c => (cand_key c, sel_duplicate_index (cand_selector c))) <$> cs) -> cs !! i = Some c -> cand_selector c = s -> find_candidate s cs = Some c.
Proof.
  intros Hnd Hi Hs. unfold find_candidate. destruct (List.find _ cs) as [c'|] eqn:Hf.
  - apply List.find_some in Hf as [Hin Hp]. apply selector_pair in Hp. apply list_elem_of_In, list_elem_of_lookup in Hin as [j Hj].
    assert (i = j) as <-; [|congruence]. eapply NoDup_lookup; [exact Hnd|by rewrite list_lookup_fmap, Hi|].
    rewrite list_lookup_fmap, Hj. simpl. unfold cand_key. by rewrite Hp, Hs.
  - eapply List.find_none in Hf; [|apply list_elem_of_In, list_elem_of_lookup; by eexists]. rewrite (proj2 (selector_pair c s) Hs) in Hf. done.
Qed.

Lemma name_counts_step (ss : list AvbSelector) key :
  forall m : gmap str nat,
  default 0%nat (foldl (fun counts s => let k := normalize_device_name (sel_name s) in <[k := S (default 0%nat (counts !! k))]> counts) m ss !! key) =
  (default 0%nat (m !! key) + length (List.filter (fun s => same_key key (sel_name s)) ss))%nat.
Proof.
  induction ss as [|s ss IH]; intros m; simpl; [lia|]. rewrite IH. unfold same_key. case_bool_decide as Hk; simpl.
  - rewrite Hk, lookup_insert_eq. simpl. lia.
  - by rewrite lookup_insert_ne.
Qed.

Lemma filter_listing {D} key (cs : list (DeviceCandidate D)) :
  length (List.filter (fun c => same_key key (sel_name (cand_selector c))) cs) = length (List.filter (fun s => same_key key (sel_name s)) (cand_selector <$> cs)).
Proof. induction cs as [|c cs IH]; [done|]. csimpl. simpl. destruct (same_key key (sel_name (cand_selector c))); simpl; by rewrite IH. Qed.

Lemma scan_count ss i s : ss !! i = Some s ->
  default 1%nat (name_counts ss !! normalize_device_name (sel_name s)) =
  length (List.filter (fun s' => same_key (normalize_device_name (sel_name s)) (sel_name s')) ss).
Proof.
  intros Hi. pose proof (name_counts_step ss (normalize_device_name (sel_name s)) ∅) as Hc. change (foldl _ ∅ ss) with (name_counts ss) in Hc.
  rewrite lookup_empty in Hc. cbn [default Nat.add from_option id] in Hc. rewrite <- Hc.
  destruct (name_counts ss !! _) as [n|] eqn:Hn; [done|]. exfalso. cbn [default from_option] in Hc.
  assert (Hin : s ∈ List.filter (fun s' => same_key (normalize_device_name (sel_name s)) (sel_name s')) ss).
  { apply list_elem_of_In, List.filter_In. split; [|by apply bool_decide_eq_true]. apply list_elem_of_In. by eapply list_elem_of_lookup_2. }
  destruct (List.filter _ ss); [by apply not_elem_of_nil in Hin|done].
Qed.

(** While the host enumerates the same devices, every device a scan offered is
    found again, and it is that very device: its selector is unique, resolving and
    opening it pick the candidate at its place in the listing, with the name it was
    listed under; and the guard against a changed device set lets it connect. *)
Theorem avb_scan_resolves (devices : list OutputDevice) sels i s :
  Z.of_nat (length devices) <= 65535 -> discover (Ok tt) (Ok devices) = Ok sels -> sels !! i = Some s ->
  NoDup sels /\
  exists cs c d, collect_candidates (Ok devices) (same_key (normalize_device_name (sel_name s))) = Ok cs /\ cs !! i = Some c /\ cand_selector c = s /\
    d ∈ devices /\ od_name d = Some (sel_name s) /\ cand_ranges c = od_ranges d /\ select_device (Ok devices) s = Ok d /\
    match select_stream_config c with
    | Err e => resolve_stream_config (Ok tt) (Ok devices) s = Err e
    | Ok config =>
        exists resolved, resolve_stream_config (Ok tt) (Ok devices) s = Ok resolved /\ rc_config resolved = config /\
        (5 <= ss_sample_rate config ->
           exists b, connect (Ok resolved) (Reported (Ok tt)) (avb_connect (dd_connect_data (discovered (name_counts sels) s))) = Some (b, Ok tt) /\
             is_connected b = true)
    end.
Proof.
  intros Hl Hd Hi. unfold discover, collect_candidates, collect_device_records in Hd. injection Hd as <-.
  set (key := normalize_device_name (sel_name s)). set (rs := omap (device_record (same_key key)) devices).
  assert (Hlen : forall k, (length (omap (device_record k) devices) <= length devices)%nat).
  { intros k. clear. induction devices as [|d ds IH]; [done|].
    change (omap (device_record k) (d :: ds)) with (match device_record k d with Some r => r :: omap (device_record k) ds | None => omap (device_record k) ds end).
    destruct (device_record k d); cbn [length]; lia. }
  assert (Hnd : forall k, NoDup ((fun c => (cand_key c, sel_duplicate_index (cand_selector c))) <$> collect_candidates_from_records (omap (device_record k) devices)))
    by (intros k; apply candidates_nodup; pose proof (Hlen k); lia).
  split.
  { pose proof (Hnd (fun _ => false)) as Hn. set (cs := collect_candidates_from_records _) in *.
    apply (NoDup_fmap_1 (fun s => (normalize_device_name (sel_name s), sel_duplicate_index s))). by rewrite <- list_fmap_compose. }
  rewrite <- (listing_selectors (same_key key)) in Hi |- *. fold rs in Hi |- *. set (cs := collect_candidates_from_records rs) in *.
  pose proof (scan_count (cand_selector <$> cs) i s Hi) as Hcount. pose proof Hi as Hi'.
  rewrite list_lookup_fmap in Hi'. apply fmap_Some in Hi' as (c & Hc & Hs). symmetry in Hs.
  destruct (candidate_device (same_key key) devices c) as (d & Hin & Hname & Hdev & Hrg);
    [by eapply list_elem_of_lookup_2|rewrite Hs; by apply bool_decide_eq_true|].
  pose proof (find_listed cs i c s (Hnd _) Hc Hs) as Hf. rewrite Hs in Hname.
  exists cs, c, d. split; [done|]. split; [done|]. split; [done|]. split; [done|]. split; [done|]. split; [done|]. split.
  - unfold select_device, collect_candidates, collect_device_records. fold key rs cs. rewrite Hf. simpl. by rewrite Hdev.
  - unfold resolve_stream_config, collect_candidates, collect_device_records. fold key rs cs. rewrite Hf.
    destruct (select_stream_config c) as [config|e]; [|done]. eexists. split; [done|]. split; [done|]. intros Hrate.
    unfold discovered. cbv zeta. rewrite Hcount. unfold connect, avb_connect, from_selector_with_scan_count. simpl. fold key.
    rewrite (filter_listing key cs), Nat.eqb_refl. simpl. unfold runtime_new, sink_new. rewrite bool_decide_eq_true_2; [by eexists|].
    unfold queue_capacity_for_rate, QUEUE_DURATION_MS. enough (1 <= ss_sample_rate config * 200 / 1000) by lia.
    apply Z.div_le_lower_bound; lia.
Qed.

(** ** The chosen configuration *)

Lemma min_channels_spec rs :
  match min_channels rs with
  | None => rs = []
  | Some r => r ∈ rs /\ forall r', r' ∈ rs -> cr_channels r <= cr_channels r'
  end.
Proof.
  induction rs as [|r rs IH]; simpl; [done|]. destruct (min_channels rs) as [r0|].
  - destruct IH as [Hin Hmin]. destruct (Z.ltb_spec (cr_channels r0) (cr_channels r)).
    + split; [by right|]. intros r' [->|Hr']%elem_of_cons; [lia|by apply Hmin].
    + split; [by left|]. intros r' [->|Hr']%elem_of_cons; [lia|]. specialize (Hmin r' Hr'). lia.
  - subst rs. split; [by left|]. intros r' ?%list_elem_of_singleton. by subst.
Qed.

Lemma elem_filter {A} (p : A -> bool) x l : x ∈ List.filter p l <-> x ∈ l /\ p x = true.
Proof. by rewrite !list_elem_of_In, List.filter_In. Qed.

Lemma choose_stream_config_spec ranges default_rate channels rate :
  Forall (fun r => cr_min_sample_rate r <= cr_max_sample_rate r) ranges -> choose_stream_config ranges default_rate = Some (channels, rate) ->
  MIN_CHANNELS <= channels /\ (exists r, r ∈ ranges /\ cr_channels r = channels /\ range_contains rate r = true) /\
  forall r, r ∈ ranges -> MIN_CHANNELS <= cr_channels r -> range_contains rate r = true -> channels <= cr_channels r.
Proof.
  intros Hwf. unfold choose_stream_config. set (q := List.filter _ ranges).
  assert (Hfirst : forall best rt, min_channels (List.filter (range_contains rt) q) = Some best -> (cr_channels best, rt) = (channels, rate) ->
    MIN_CHANNELS <= channels /\ (exists r, r ∈ ranges /\ cr_channels r = channels /\ range_contains rate r = true) /\
    forall r, r ∈ ranges -> MIN_CHANNELS <= cr_channels r -> range_contains rate r = true -> channels <= cr_channels r).
  { intros best rt Hm [= <- <-]. pose proof (min_channels_spec (List.filter (range_contains rt) q)) as Hs. rewrite Hm in Hs. destruct Hs as [Hin Hmin].
    apply elem_filter in Hin as [Hq Hc]. apply elem_filter in Hq as [Hr Hch]. split; [by apply Z.leb_le in Hch|]. split; [by exists best|].
    intros r Hr' Hch' Hc'. apply Hmin, elem_filter. split; [|done]. apply elem_filter. split; [done|by apply Z.leb_le]. }
  assert (Hfall : min_channels q ≫= (fun r => Some (cr_channels r, cr_max_sample_rate r)) = Some (channels, rate) ->
    MIN_CHANNELS <= channels /\ (exists r, r ∈ ranges /\ cr_channels r = channels /\ range_contains rate r = true) /\
    forall r, r ∈ ranges -> MIN_CHANNELS <= cr_channels r -> range_contains rate r = true -> channels <= cr_channels r).
  { intros (best & Hm & [= <- <-])%bind_Some. pose proof (min_channels_spec q) as Hs. rewrite Hm in Hs. destruct Hs as [Hin Hmin].
    apply elem_filter in Hin as [Hr Hch]. split; [by apply Z.leb_le in Hch|]. split.
    - exists best. split; [done|]. split; [done|]. rewrite Forall_forall in Hwf. specialize (Hwf best Hr).
      unfold range_contains. apply andb_true_iff. split; apply Z.leb_le; lia.
    - intros r Hr' Hch' _. apply Hmin, elem_filter. split; [done|by apply Z.leb_le]. }
  destruct default_rate as [rt|]; simpl; [|exact Hfall].
  destruct (min_channels (List.filter (range_contains rt) q)) as [best|] eqn:Hm; simpl; [|exact Hfall]. intros [= Hc Hr]. eapply Hfirst; [done|by f_equal].
Qed.

Lemma choose_sample_format_offered ranges channels rate r :
  r ∈ ranges -> cr_channels r = channels -> range_contains rate r = true ->
  exists r', r' ∈ ranges /\ cr_channels r' = channels /\ range_contains rate r' = true /\ cr_sample_format r' = choose_sample_format ranges channels rate.
Proof.
  intros Hr Hc Hrc. unfold choose_sample_format. set (matching := List.filter _ ranges).
  assert (Hm : forall x, x ∈ matching -> x ∈ ranges /\ cr_channels x = channels /\ range_contains rate x = true).
  { intros x [Hx [Hxc%Z.eqb_eq Hxr]%andb_prop]%elem_filter. done. }
  assert (Hof : forall f, existsb (fun r => bool_decide (cr_sample_format r = f)) matching = true -> exists r', r' ∈ matching /\ cr_sample_format r' = f).
  { intros f [x [Hx Hf%bool_decide_eq_true]]%List.existsb_exists. exists x. split; [by apply list_elem_of_In|done]. }
  assert (Hne : r ∈ matching) by (apply elem_filter; split; [done|]; rewrite Hrc, (proj2 (Z.eqb_eq _ _)) by done; done).
  assert (Hpick : exists x, x ∈ matching /\ cr_sample_format x =
    (if existsb (fun r => bool_decide (cr_sample_format r = SfF32)) matching then SfF32
     else if existsb (fun r => bool_decide (cr_sample_format r = SfI16)) matching then SfI16
     else if existsb (fun r => bool_decide (cr_sample_format r = SfI32)) matching then SfI32
     else match matching with r :: _ => cr_sample_format r | [] => SfF32 end)).
  { destruct (existsb _ matching) eqn:H1; [by apply Hof|]. destruct (existsb (fun r => bool_decide (cr_sample_format r = SfI16)) matching) eqn:H2; [by apply Hof|].
    destruct (existsb (fun r => bool_decide (cr_sample_format r = SfI32)) matching) eqn:H3; [by apply Hof|].
    destruct matching as [|x l]; [by apply not_elem_of_nil in Hne|]. exists x. split; [by left|done]. }
  destruct Hpick as (x & Hx & Hf). destruct (Hm x Hx) as (H1 & H2 & H3). by exists x.
Qed.

(** A configuration that is chosen is one the device offers, channels, rate and
    sample format together, with room for position and colour and with the fewest
    channels any usable range has at that rate. *)
Theorem avb_config_supported {D} (c : DeviceCandidate D) config :
  Forall (fun r => cr_min_sample_rate r <= cr_max_sample_rate r) (cand_ranges c) -> select_stream_config c = Ok config ->
  MIN_CHANNELS <= ss_channels config /\
  (exists r, r ∈ cand_ranges c /\ cr_channels r = ss_channels config /\
     cr_min_sample_rate r <= ss_sample_rate config <= cr_max_sample_rate r /\ cr_sample_format r = ss_sample_format config) /\
  forall r, r ∈ cand_ranges c -> MIN_CHANNELS <= cr_channels r -> cr_min_sample_rate r <= ss_sample_rate config <= cr_max_sample_rate r ->
    ss_channels config <= cr_channels r.
Proof.
  intros Hwf. unfold select_stream_config. destruct (choose_stream_config _ _) as [[channels rate]|] eqn:Hc; [|done]. intros [= <-]. simpl.
  destruct (choose_stream_config_spec _ _ _ _ Hwf Hc) as (Hmin & (r & Hr & Hrc & Hrr) & Hbest). split; [done|].
  assert (Hin : forall r, range_contains rate r = true <-> cr_min_sample_rate r <= rate <= cr_max_sample_rate r).
  { intros x. unfold range_contains. rewrite andb_true_iff, !Z.leb_le. done. }
  split.
  - destruct (choose_sample_format_offered _ _ _ r Hr Hrc Hrr) as (x & Hx & Hxc & Hxr & Hxf). exists x. by rewrite <- Hin.
  - intros x Hx Hxc Hxr. apply Hbest; [done|done|by apply Hin].
Qed.

(** ** Examples *)

Definition motu_range : OutputConfigRange := mkRange 8 44100 96000 SfI32.

Definition motu (name : string) : OutputDevice := mkOutputDevice (Some (chars name)) [mkRange 2 8000 96000 SfF32; motu_range] (Some (8, 48000)) (fun _ => Ok tt).

(** Two interfaces of one name and a loudspeaker. *)
Definition rack : list OutputDevice := [motu "MOTU AVB"; mkOutputDevice (Some (chars "Studio Display Speakers")) [motu_range] None (fun _ => Ok tt); motu "motu  avb"].

Definition motu_selector : AvbSelector := mkSelector (chars "motu  avb") 1.

Lemma avb_scan_resolves_witness :
  discover (Ok tt) (Ok rack) = Ok [mkSelector (chars "MOTU AVB") 0; motu_selector] /\
  resolve_stream_config (Ok tt) (Ok rack) motu_selector = Ok (mkResolved (mkSelected 8 48000 SfI32) (Some 2%nat)) /\
  exists d, select_device (Ok rack) motu_selector = Ok d /\ od_name d = Some (sel_name motu_selector).
Proof.
  split; [by vm_compute|]. split; [by vm_compute|].
  destruct (avb_scan_resolves rack [mkSelector (chars "MOTU AVB") 0; motu_selector] 1 motu_selector) as (_ & cs & c & d & _ & _ & _ & _ & Hn & _ & Hs & _);
    [by vm_compute|by vm_compute|done|]. by exists d.
Defined.

Definition motu_candidate : DeviceCandidate () := mkCandidate motu_selector () [mkRange 2 8000 96000 SfF32; mkRange 16 44100 96000 SfF32; motu_range] (Some 48000).

Lemma avb_config_supported_witness :
  select_stream_config motu_candidate = Ok (mkSelected 8 48000 SfI32) /\
  exists r, r ∈ cand_ranges motu_candidate /\ cr_channels r = 8 /\ cr_min_sample_rate r <= 48000 <= cr_max_sample_rate r /\ cr_sample_format r = SfI32.
Proof.
  split; [by vm_compute|].
  refine (proj1 (proj2 (avb_config_supported motu_candidate (mkSelected 8 48000 SfI32) _ _))); [|by vm_compute]. repeat constructor; simpl; lia.
Defined.

(** A session: connect, light, stop. *)
Definition lit_point : LaserPoint := mkLaserPoint f1 fm1 65535 0 65535 65535.

Definition show : list avb_op :=
  [OpConnect (Ok (mkResolved (mkSelected 5 48000 SfF32) None)) (Reported (Ok tt)); OpShutter true;
   OpWrite [0; 2]%nat 24000 [lit_point; lit_point; lit_point]; OpCallback 10 5; OpStop].

Lemma avb_dark_unless_opened_witness :
  exists b frames b' out, avb_run id show (avb_build motu_selector) = Some (b, frames) /\ Exists (fun f => ~ dark_frame id f) frames /\
    avb_step id (OpCallback 6 6) b = Some (b', out) /\ Forall (dark_frame id) out.
Proof.
  eexists _, _, _, _. split; [by vm_compute|]. split.
  { apply Exists_cons_hd. intros Hd. specialize (Hd 2%nat _ ltac:(lia) eq_refl). by vm_compute in Hd. }
  split; [by vm_compute|]. eapply (avb_dark_unless_opened id motu_selector show 6 6); by vm_compute.
Defined.

Lemma avb_output_in_range_witness :
  exists b frames, avb_run id show (avb_build motu_selector) = Some (b, frames) /\ length frames = 2%nat /\ Forall (frame_ok id) frames.
Proof.
  eexists _, _. split; [by vm_compute|]. split; [done|]. eapply (avb_output_in_range id motu_selector show); [|by vm_compute].
  repeat constructor; by vm_compute.
Defined.

(** Devices whose names differ only in punctuation: two selectors, one stable id. *)
Theorem avb_stable_id_collides :
  let found := discover (Ok tt) (Ok [motu "MOTU-1"; motu "MOTU 1"]) in
  exists a b, avb_scan found = [a; b] /\ dd_connect_data a <> dd_connect_data b /\
    di_stable_id (dd_info a) = "avb:motu-1:0"%string /\ di_stable_id (dd_info b) = "avb:motu-1:0"%string.
Proof. eexists _, _. split; [by vm_compute|]. split; [by vm_compute|]. by vm_compute. Qed.
