(* ===== verification/Usb.v ===== *)
(** * USB transfers

    Models [src/src/protocols/usb_transfer.rs]: the endpoint operations the USB
    backends need, as a class over a handle whose state every transfer threads,
    and the classification of errors.  The USB library itself is a parameter: a
    class for the endpoints of an open handle, one for the devices of a host.  A
    read returns the bytes it received, which are the filled front of the
    caller's buffer.  [Logged] is a handle that records its transfers. *)

From stdpp Require Import strings pretty.
From S2P Require Import Prelude Bytes.

#[local] Open Scope Z_scope.

(** [rusb::Error]: the variants the code names; the others behave alike. *)
Inductive rusb_error :=
  | UsbIo
  | UsbAccess
  | UsbNoDevice
  | UsbTimeout
  | UsbPipe
  | UsbOther (name : string).

#[export] Instance rusb_error_eq_dec : EqDecision rusb_error.
Proof. solve_decision. Defined.

Definition is_fatal_rusb (e : rusb_error) : bool :=
  match e with UsbNoDevice | UsbIo | UsbPipe => true | _ => false end.

(** ** The seam *)

Class UsbEndpoints (H : Type) := {
  write_bulk : Z -> list Z -> Z -> H -> (nat + rusb_error) * H;
  read_bulk : Z -> nat -> Z -> H -> (list Z + rusb_error) * H;
  write_interrupt : Z -> list Z -> Z -> H -> (nat + rusb_error) * H;
  read_interrupt : Z -> nat -> Z -> H -> (list Z + rusb_error) * H;
  clear_halt : Z -> H -> (unit + rusb_error) * H;
  release_interface : Z -> H -> (unit + rusb_error) * H;
}.

(** A read fills at most the buffer it is given, with bytes. *)
Class UsbLaws (H : Type) `{!UsbEndpoints H} := {
  read_bulk_fits ep n t h data h' : read_bulk ep n t h = (inl data, h') -> (length data <= n)%nat /\ bytes data;
  read_interrupt_fits ep n t h data h' : read_interrupt ep n t h = (inl data, h') -> (length data <= n)%nat /\ bytes data;
}.

(** The host: its devices, opening one, and closing a handle, which is what
    dropping it does. *)
Class UsbHost (W D H : Type) := {
  context_new : W -> (unit + rusb_error) * W;
  devices : W -> (list D + rusb_error) * W;
  (** Vendor, product, and whether there is a serial number string. *)
  device_descriptor : D -> (Z * Z * bool) + rusb_error;
  bus_number : D -> Z;
  address : D -> Z;
  port_numbers : D -> list Z + rusb_error;
  dev_open : D -> W -> (H + rusb_error) * W;
  claim_interface : Z -> H -> (unit + rusb_error) * H;
  set_alternate_setting : Z -> Z -> H -> (unit + rusb_error) * H;
  dev_close : H -> W -> W;
  read_languages : Z -> H -> (list Z + rusb_error) * H;
  read_serial_number_string : Z -> Z -> H -> (string + rusb_error) * H;
}.

(** ** Computations over a handle *)

Definition U (S E A : Type) : Type := S -> (A + E) * S.

#[export] Instance U_ret {S E} : MRet (U S E) := fun A a s => (inl a, s).

#[export] Instance U_bind {S E} : MBind (U S E) := fun A B k m s =>
  match m s with (inl a, s) => k a s | (inr e, s) => (inr e, s) end.

Section computations.
Context {S E : Type}.

Definition throw {A} (e : E) : U S E A := fun s => (inr e, s).

(** [m?] through [From]. *)
Definition map_err {A E'} (f : E' -> E) (m : U S E' A) : U S E A := fun s =>
  match m s with (inl a, s) => (inl a, s) | (inr e, s) => (inr (f e), s) end.

(** [let _ = m;]. *)
Definition ignore {A} (m : U S E A) : S -> S := fun s => (m s).2.

(** The computation with its result as a value. *)
Definition attempt {A} (m : U S E A) : U S E (A + E) := fun s => let '(r, s) := m s in (inl r, s).
End computations.

(** ** A handle that records its transfers *)

Inductive xfer :=
  | BulkOut (ep : Z) (data : list Z) (r : nat + rusb_error)
  | BulkIn (ep : Z) (n : nat) (r : list Z + rusb_error)
  | IntOut (ep : Z) (data : list Z) (r : nat + rusb_error)
  | IntIn (ep : Z) (n : nat) (r : list Z + rusb_error)
  | ClearHalt (ep : Z) (r : unit + rusb_error)
  | Release (iface : Z) (r : unit + rusb_error).

Record Logged (H : Type) := mkLogged { base : H; log : list xfer }.
Arguments mkLogged {H}.
Arguments base {H}.
Arguments log {H}.

Definition logging {H A} (ev : A -> xfer) (m : H -> A * H) (h : Logged H) : A * Logged H :=
  let '(r, b) := m (base h) in (r, mkLogged b (log h ++ [ev r])).

#[export] Instance logged_endpoints {H} `{!UsbEndpoints H} : UsbEndpoints (Logged H) := {
  write_bulk ep data t := logging (BulkOut ep data) (write_bulk ep data t);
  read_bulk ep n t := logging (BulkIn ep n) (read_bulk ep n t);
  write_interrupt ep data t := logging (IntOut ep data) (write_interrupt ep data t);
  read_interrupt ep n t := logging (IntIn ep n) (read_interrupt ep n t);
  clear_halt ep := logging (ClearHalt ep) (clear_halt ep);
  release_interface i := logging (Release i) (release_interface i);
}.

Lemma logging_eq {H A} (ev : A -> xfer) (m : H -> A * H) h :
  logging ev m h = ((m (base h)).1, mkLogged (m (base h)).2 (log h ++ [ev (m (base h)).1])).
Proof. unfold logging. by destruct (m (base h)). Qed.

#[export] Instance logged_laws {H} `{!UsbEndpoints H} `{!UsbLaws H} : UsbLaws (Logged H).
Proof.
  split; intros ep n t h data h'; simpl; rewrite logging_eq.
  - destruct (read_bulk _ _ _ _) as [r b] eqn:Hr. intros [= -> _]. by eapply read_bulk_fits.
  - destruct (read_interrupt _ _ _ _) as [r b] eqn:Hr. intros [= -> _]. by eapply read_interrupt_fits.
Qed.

(** ** Where a device is plugged in *)

(** [ports.join(".")]. *)
Fixpoint join_dots (ports : list Z) : string :=
  match ports with
  | [] => ""
  | [p] => pretty (Z.to_N p)
  | p :: ports => pretty (Z.to_N p) +:+ "." +:+ join_dots ports
  end.

(** ** A scripted handle and host

    Writes and reads return what the script says; once it is used up, writes take
    everything and reads time out.  The host hands out scripted handles and counts
    the ones it closed. *)
Module Fake.

Record FakeUsb := mkFake {
  fk_writes : list (nat + rusb_error);
  fk_reads : list (list Z + rusb_error);
}.

Definition next_write (data : list Z) (h : FakeUsb) : (nat + rusb_error) * FakeUsb :=
  match fk_writes h with
  | [] => (inl (length data), h)
  | r :: rs => (r, mkFake rs (fk_reads h))
  end.

Definition next_read (n : nat) (h : FakeUsb) : (list Z + rusb_error) * FakeUsb :=
  match fk_reads h with
  | [] => (inr UsbTimeout, h)
  | inl data :: rs => (inl (take n data), mkFake (fk_writes h) rs)
  | inr e :: rs => (inr e, mkFake (fk_writes h) rs)
  end.

#[export] Instance fake_endpoints : UsbEndpoints FakeUsb := {
  write_bulk _ data _ := next_write data;
  read_bulk _ n _ := next_read n;
  write_interrupt _ data _ := next_write data;
  read_interrupt _ n _ := next_read n;
  clear_halt _ h := (inl tt, h);
  release_interface _ h := (inl tt, h);
}.

Record FakeDevice := mkDevice {
  fd_ids : Z * Z;
  fd_ports : list Z;
  fd_script : FakeUsb;
}.

Record FakeHost := mkHost { fh_devices : list FakeDevice; fh_closed : nat }.

#[export] Instance fake_host : UsbHost FakeHost FakeDevice (Logged FakeUsb) := {
  context_new w := (inl tt, w);
  devices w := (inl (fh_devices w), w);
  device_descriptor d := inl (fd_ids d, true);
  bus_number _ := 1;
  address _ := 9;
  port_numbers d := inl (fd_ports d);
  dev_open d w := (inl (mkLogged (fd_script d) []), w);
  claim_interface _ h := (inl tt, h);
  set_alternate_setting _ _ h := (inl tt, h);
  dev_close _ w := mkHost (fh_devices w) (S (fh_closed w));
  read_languages _ h := (inl [0x409], h);
  read_serial_number_string _ _ h := (inl "LC-1"%string, h);
}.
End Fake.
