(* ===== verification/Helios.v ===== *)
(** * The Helios DAC

    Models [src/src/protocols/helios/frame.rs] (points and frames) and
    [src/src/protocols/helios/native.rs] (finding, opening and talking to a DAC):
    the frame encoder with its transfer-size workaround, bulk writes with one
    recovery from a stalled endpoint, the control round trips and the firmware
    probe.  The loop that drains stale replies is unbounded in the code; its fuel
    is a parameter. *)

From stdpp Require Import strings pretty.
From S2P Require Import Prelude Floats Point Session Backend Bytes Utf8 Usb.

#[local] Open Scope Z_scope.

(** ** Frames *)

Record Coordinate := mkCoordinate { co_x : Z; co_y : Z }.

Record Color := mkColor { co_r : Z; co_g : Z; co_b : Z }.

Record Point := mkPoint {
  pt_coordinate : Coordinate;
  pt_color : Color;
  pt_intensity : Z;
}.

Definition START_IMMEDIATELY : Z := 1.
Definition SINGLE_MODE : Z := 2.
Definition DONT_BLOCK : Z := 4.

Record Frame := mkFrame {
  fr_pps : Z;
  fr_flags : Z;
  fr_points : list Point;
}.

Definition frame_new (pps : Z) (points : list Point) : Frame := mkFrame pps SINGLE_MODE points.

Definition frame_new_with_flags (pps : Z) (points : list Point) (flags : Z) : Frame := mkFrame pps flags points.

(** [From<&LaserPoint> for Point]. *)
Definition point_from (p : LaserPoint) : Point :=
  mkPoint (mkCoordinate (coord_to_u12_inverted (lp_x p)) (coord_to_u12_inverted (lp_y p)))
    (mkColor (color_to_u8 (lp_r p)) (color_to_u8 (lp_g p)) (color_to_u8 (lp_b p)))
    (color_to_u8 (lp_intensity p)).

(** ** Encoding *)

Definition HELIOS_MAX_POINTS : nat := 4095.

Definition adjusted_frame_params (requested_pps : Z) (requested_points : nat) : Z * nat :=
  let n := Z.of_nat requested_points in
  if (45 <=? n) && ((n - 45) mod 64 =? 0) then
    let actual := (requested_points - 1)%nat in
    (wrapu 32 ((requested_pps * Z.of_nat actual + n / 2) / n), actual)
  else (requested_pps, requested_points).

Definition encode_point (p : Point) : list Z :=
  let x := co_x (pt_coordinate p) in
  let y := co_y (pt_coordinate p) in
  [wrapu 8 (Z.shiftr x 4);
   Z.lor (wrapu 8 (Z.shiftl (Z.land x 0x0F) 4)) (wrapu 8 (Z.shiftr y 8));
   wrapu 8 (Z.land y 0xFF);
   co_r (pt_color p); co_g (pt_color p); co_b (pt_color p); pt_intensity p].

(** [encode_frame_into] clears the buffer, so its result is the buffer. *)
Definition encode_frame_into (pps : Z) (points : list Point) (flags : Z) : list Z :=
  let requested := (length points `min` HELIOS_MAX_POINTS)%nat in
  let '(pps_actual, n) := adjusted_frame_params pps requested in
  mjoin (encode_point <$> take n points) ++
  [wrapu 8 (Z.land pps_actual 0xFF); wrapu 8 (Z.shiftr pps_actual 8);
   wrapu 8 (Z.land (Z.of_nat n) 0xFF); wrapu 8 (Z.shiftr (Z.of_nat n) 8); flags].

Definition encode_frame (f : Frame) : list Z := encode_frame_into (fr_pps f) (fr_points f) (fr_flags f).

Definition bulk_transfer_timeout (buffer_len : nat) : Z := millis (8 + Z.shiftr (Z.of_nat buffer_len) 5).

(** ** Errors *)

Inductive HeliosDacError :=
  | DeviceNotOpened
  | UsbError (e : rusb_error)
  | InvalidDeviceResult
  | Utf8Error.

Inductive DeviceStatus := Ready | NotReady.

#[export] Instance HeliosDacError_eq_dec : EqDecision HeliosDacError.
Proof. solve_decision. Defined.

#[export] Instance DeviceStatus_eq_dec : EqDecision DeviceStatus.
Proof. solve_decision. Defined.

Definition SDK_VERSION : Z := 6.
Definition HELIOS_VID : Z := 0x1209.
Definition HELIOS_PID : Z := 0xE500.
Definition ENDPOINT_BULK_OUT : Z := 0x02.
Definition ENDPOINT_INT_OUT : Z := 0x06.
Definition ENDPOINT_INT_IN : Z := 0x83.
Definition INIT_DRAIN_TIMEOUT : Z := millis 5.
Definition INIT_INTERRUPT_TIMEOUT : Z := millis 32.
Definition INIT_FW_OUT_ATTEMPTS : nat := 2.
Definition INIT_FW_IN_ATTEMPTS : nat := 3.
Definition CONTROL_STOP : Z := 0x01.
Definition CONTROL_SET_SHUTTER : Z := 0x02.
Definition CONTROL_GET_STATUS : Z := 0x03.
Definition CONTROL_GET_FIRMWARE_VERSION : Z := 0x04.
Definition CONTROL_GET_NAME : Z := 0x05.
Definition CONTROL_SEND_SDK_VERSION : Z := 0x07.

(** A reply in its 32-byte buffer. *)
Definition padded (data : list Z) : list Z := data ++ replicate (32 - length data) 0.

(** The replies: a firmware version, a status, a name up to its null byte. *)
Definition firmware_reply (data : list Z) : option Z :=
  match data with
  | tag :: b0 :: b1 :: b2 :: b3 :: _ => if tag =? 0x84 then Some (le_value [b0; b1; b2; b3]) else None
  | _ => None
  end.

Definition status_reply (data : list Z) : option DeviceStatus :=
  match data with
  | [tag; v] => if tag =? 0x83 then if v =? 0 then Some NotReady else if v =? 1 then Some Ready else None else None
  | _ => None
  end.

(** [bytes.iter().position(|b| *b == 0)]. *)
Fixpoint null_position (bs : list Z) : option nat :=
  match bs with
  | [] => None
  | b :: bs => if b =? 0 then Some O else S <$> null_position bs
  end.

(** The name's bytes are what the reply's 31 bytes hold before the first zero. *)
Definition name_reply (data : list Z) : option (list Z) :=
  match padded data with
  | tag :: bs => if tag =? 0x85 then Some (take (default 31%nat (null_position bs)) bs) else None
  | [] => None
  end.

(** ** The transfer engine *)

Section comm.
Context {H : Type} `{!UsbEndpoints H}.

(** How many stale replies a drain reads before it is cut off. *)
Variable drain_fuel : nat.

#[local] Abbreviation C := (U H HeliosDacError).

Fixpoint drain (fuel : nat) (h : H) : H :=
  match fuel with
  | O => h
  | S fuel =>
      match read_interrupt ENDPOINT_INT_IN 32 INIT_DRAIN_TIMEOUT h with
      | (inl _, h) => drain fuel h
      | (inr _, h) => h
      end
  end.

Definition drain_stale_responses : C unit := fun h => (inl tt, drain drain_fuel h).

(** The replies to one probe: [n] reads are left; the last error is kept. *)
Fixpoint probe_in (n : nat) (last_err : option rusb_error) (h : H) : (Z + option rusb_error) * H :=
  match n with
  | O => (inr last_err, h)
  | S n =>
      match read_interrupt ENDPOINT_INT_IN 32 INIT_INTERRUPT_TIMEOUT h with
      | (inl data, h) => match firmware_reply data with Some v => (inl v, h) | None => probe_in n last_err h end
      | (inr e, h) => probe_in n (Some e) h
      end
  end.

Fixpoint probe_out (n : nat) (last_err : option rusb_error) (h : H) : (Z + option rusb_error) * H :=
  match n with
  | O => (inr last_err, h)
  | S n =>
      match write_interrupt ENDPOINT_INT_OUT [CONTROL_GET_FIRMWARE_VERSION; 0] INIT_INTERRUPT_TIMEOUT h with
      | (inl sent, h) =>
          if decide (sent = 2%nat) then
            match probe_in INIT_FW_IN_ATTEMPTS last_err h with
            | (inl v, h) => (inl v, h)
            | (inr last_err, h) => probe_out n last_err h
            end
          else probe_out n (Some UsbIo) h
      | (inr e, h) => probe_out n (Some e) h
      end
  end.

Definition probe_firmware_version : C Z := fun h =>
  match probe_out INIT_FW_OUT_ATTEMPTS None h with
  | (inl v, h) => (inl v, h)
  | (inr last_err, h) => (inr (UsbError (default UsbTimeout last_err)), h)
  end.

(** [write_bulk_all]. *)
Definition write_bulk_all (buf : list Z) : C unit := fun h =>
  let timeout := bulk_transfer_timeout (length buf) in
  match write_bulk ENDPOINT_BULK_OUT buf timeout h with
  | (inl n, h) => if decide (n = length buf) then (inl tt, h) else (inr (UsbError UsbIo), h)
  | (inr UsbPipe, h) =>
      match clear_halt ENDPOINT_BULK_OUT h with
      | (inr e, h) => (inr (UsbError e), h)
      | (inl _, h) =>
          match write_bulk ENDPOINT_BULK_OUT buf timeout h with
          | (inr e, h) => (inr (UsbError e), h)
          | (inl n, h) => if decide (n = length buf) then (inl tt, h) else (inr (UsbError UsbIo), h)
          end
      end
  | (inr e, h) => (inr (UsbError e), h)
  end.

Definition comm_write_frame (f : Frame) : C unit := write_bulk_all (encode_frame f).

Definition comm_write_frame_buffer (buf : list Z) : C unit := write_bulk_all buf.

Definition send_control (buffer : list Z) : C unit :=
  n ← map_err UsbError (write_interrupt ENDPOINT_INT_OUT buffer (millis 16));
  if decide (n = length buffer) then mret tt else throw (UsbError UsbIo).

(** [read_response]: what was received; its buffer is [padded]. *)
Definition read_response : C (list Z) := map_err UsbError (read_interrupt ENDPOINT_INT_IN 32 (millis 32)).

Definition call_control (buffer : list Z) : C (list Z) := _ ← send_control buffer; read_response.

(** A reply of the wrong shape: drain and fail. *)
Definition invalid_reply {A} : C A := _ ← drain_stale_responses; throw InvalidDeviceResult.

Definition comm_name : C str :=
  data ← call_control [CONTROL_GET_NAME; 0];
  match name_reply data with
  | Some bs => match from_utf8 bs with Some name => mret name | None => throw Utf8Error end
  | None => invalid_reply
  end.

Definition read_firmware_version : C Z :=
  data ← call_control [CONTROL_GET_FIRMWARE_VERSION; 0];
  match firmware_reply data with Some v => mret v | None => invalid_reply end.

Definition send_sdk_version : C unit := send_control [CONTROL_SEND_SDK_VERSION; SDK_VERSION].

Definition comm_status : C DeviceStatus :=
  data ← call_control [CONTROL_GET_STATUS; 0];
  match status_reply data with Some st => mret st | None => invalid_reply end.

Definition comm_stop : C unit := send_control [CONTROL_STOP; 0].

Definition comm_set_shutter (open : bool) : C unit := send_control [CONTROL_SET_SHUTTER; if open then 1 else 0].
End comm.

(** ** The DAC *)

Record HeliosComm (H : Type) := mkComm { cm_handle : H; cm_firmware_version : option Z }.
Arguments mkComm {H}.
Arguments cm_handle {H}.
Arguments cm_firmware_version {H}.

Inductive HeliosDac (D H : Type) :=
  | Idle (device : D)
  | Open (device : option D) (comm : HeliosComm H).
Arguments Idle {D H}.
Arguments Open {D H}.

Section dac.
Context {W D H : Type} `{!UsbEndpoints H} `{!UsbHost W D H}.
Variable drain_fuel : nat.

(** [HeliosDacController::list_devices]. *)
Definition is_helios (d : D) : bool :=
  match device_descriptor d with
  | inl (vid, pid, _) => (vid =? HELIOS_VID) && (pid =? HELIOS_PID)
  | inr _ => false
  end.

Definition list_devices : U W HeliosDacError (list (HeliosDac D H)) :=
  ds ← map_err UsbError devices; mret (Idle <$> filter (fun d => is_helios d = true) ds).

(** What an opened handle goes through before it is used: claim, alternate
    setting, drain; the 100 ms in between have no effect here. *)
Definition settle : U H HeliosDacError unit :=
  _ ← map_err UsbError (claim_interface 0);
  _ ← map_err UsbError (set_alternate_setting 0 1);
  drain_stale_responses drain_fuel.

Definition init : U H HeliosDacError Z :=
  _ ← settle; fw ← probe_firmware_version; _ ← send_sdk_version; mret fw.

(** The handle goes out of scope, which closes it. *)
Definition closing {A} (h : H) (r : A + HeliosDacError) : U W HeliosDacError A := fun w => (r, dev_close h w).

(** [open]: a handle whose initialisation fails is dropped, which closes it. *)
Definition open (dac : HeliosDac D H) : U W HeliosDacError (HeliosDac D H) :=
  match dac with
  | Idle device =>
      h ← map_err UsbError (dev_open device);
      match init h with
      | (inl fw, h) => mret (Open (Some device) (mkComm h (Some fw)))
      | (inr e, h) => closing h (inr e)
      end
  | Open _ _ => mret dac
  end.

Definition format_usb_location (d : D) : string :=
  let bus := pretty (Z.to_N (bus_number d)) in
  match port_numbers d with
  | inl (p :: ports) => bus +:+ ":" +:+ join_dots (p :: ports)
  | _ => bus +:+ ":" +:+ pretty (Z.to_N (address d))
  end.

Definition usb_location (dac : HeliosDac D H) : string :=
  match dac with
  | Idle d | Open (Some d) _ => format_usb_location d
  | Open None _ => "test:fake"
  end.

Definition device_of (dac : HeliosDac D H) : option D := match dac with Idle d => Some d | Open d _ => d end.

(** [read_name], over a temporary handle that is always closed. *)
Definition read_name (dac : HeliosDac D H) : U W HeliosDacError str :=
  match device_of dac with
  | None => throw DeviceNotOpened
  | Some device =>
      h ← map_err UsbError (dev_open device);
      let '(r, h) := (_ ← settle; comm_name drain_fuel) h in closing h r
  end.

Definition probed_firmware_version (dac : HeliosDac D H) : option Z :=
  match dac with Open _ comm => cm_firmware_version comm | Idle _ => None end.

(** An operation of the open engine ([self.comm()?]). *)
Definition on_comm {A} (m : U H HeliosDacError A) : U (HeliosDac D H) HeliosDacError A := fun dac =>
  match dac with
  | Open d comm => let '(r, h) := m (cm_handle comm) in (r, Open d (mkComm h (cm_firmware_version comm)))
  | Idle _ => (inr DeviceNotOpened, dac)
  end.

Definition dac_write_frame (f : Frame) := on_comm (comm_write_frame f).
Definition write_frame_buffer (buf : list Z) := on_comm (comm_write_frame_buffer buf).
Definition name := on_comm (comm_name drain_fuel).
Definition firmware_version := on_comm (read_firmware_version drain_fuel).
Definition status := on_comm (comm_status drain_fuel).
Definition dac_stop := on_comm comm_stop.
Definition dac_set_shutter (open : bool) := on_comm (comm_set_shutter open).

(** Dropping a DAC closes an open handle; leaking it forgets the handle, an idle
    device drops without effect. *)
Definition drop_dac (dac : HeliosDac D H) (w : W) : W :=
  match dac with Open _ comm => dev_close (cm_handle comm) w | Idle _ => w end.

Definition leak_dac (dac : HeliosDac D H) (w : W) : W := w.
End dac.

(** ** What the device reads

    The firmware's view of a frame: seven bytes per point, then the rate, the
    number of points and the flags. *)

Definition point_ok (p : Point) : Prop :=
  0 <= co_x (pt_coordinate p) <= 4095 /\ 0 <= co_y (pt_coordinate p) <= 4095 /\
  in_u 8 (co_r (pt_color p)) /\ in_u 8 (co_g (pt_color p)) /\ in_u 8 (co_b (pt_color p)) /\ in_u 8 (pt_intensity p).

Fixpoint decode_points (bs : list Z) : option (list Point) :=
  match bs with
  | [] => Some []
  | a :: b :: c :: r :: g :: bl :: i :: bs =>
      cons (mkPoint (mkCoordinate (a * 16 + b / 16) ((b mod 16) * 256 + c)) (mkColor r g bl) i) <$> decode_points bs
  | _ => None
  end.

Definition decode_frame (buf : list Z) : option (Z * list Point * Z) :=
  match drop (length buf - 5) buf with
  | [p0; p1; n0; n1; flags] =>
      points ← decode_points (take (length buf - 5) buf);
      if decide (Z.of_nat (length points) = n0 + 256 * n1) then Some (p0 + 256 * p1, points, flags) else None
  | _ => None
  end.

Lemma adjusted_points pps n : ((adjusted_frame_params pps n).2 <= n)%nat.
Proof. unfold adjusted_frame_params. case_match; simpl; lia. Qed.

(** The workaround gives up at most one point, never the only one. *)
Lemma adjusted_points_ge pps n : (n - 1 <= (adjusted_frame_params pps n).2)%nat /\ ((adjusted_frame_params pps n).2 = 0 <-> n = 0)%nat.
Proof. unfold adjusted_frame_params. case_match eqn:E; simpl; [|lia]. apply andb_true_iff in E as [E _]. lia. Qed.

Lemma adjusted_size pps n : (7 * Z.of_nat (adjusted_frame_params pps n).2 + 5) mod 64 <> 0.
Proof.
  unfold adjusted_frame_params.
  destruct (Z.leb_spec 45 (Z.of_nat n)) as [Hn|Hn]; [destruct (Z.eqb_spec ((Z.of_nat n - 45) mod 64) 0) as [Hm|Hm]|]; simpl;
    intros Hz; Z.to_euclidean_division_equations; lia.
Qed.

(** The rate is rescaled with the points, so that the frame lasts as long. *)
Lemma adjusted_rate pps n :
  in_u 32 pps ->
  let '(rate, actual) := adjusted_frame_params pps n in
  0 <= rate <= pps /\ 2 * Z.abs (rate * Z.of_nat n - pps * Z.of_nat actual) <= Z.of_nat n.
Proof.
  unfold in_u, umax, adjusted_frame_params. intros Hp. destruct (Z.leb_spec 45 (Z.of_nat n)) as [Hn|Hn]; simpl; [|lia].
  destruct (_ =? 0); [|lia]. rewrite Nat2Z.inj_sub by lia. set (m := Z.of_nat n) in *. clearbody m.
  set (num := pps * (m - Z.of_nat 1) + m / 2).
  pose proof (Z.div_mod m 2 ltac:(lia)) as Hd. pose proof (Z.mod_pos_bound m 2 ltac:(lia)) as Hb.
  pose proof (Z.div_mod num m ltac:(lia)) as Hq. pose proof (Z.mod_pos_bound num m ltac:(lia)) as Hr.
  assert (0 <= num) by (unfold num; nia).
  assert (0 <= num / m) by (apply Z.div_pos; lia).
  assert (num / m <= pps) by (apply Z.lt_succ_r, Z.div_lt_upper_bound; unfold num; nia).
  unfold wrapu. rewrite Z.mod_small by lia. split; [lia|]. set (q := num / m) in *. unfold num in *. nia.
Qed.

(** ** The frame the device reads *)

Lemma length_encode_point p : length (encode_point p) = 7%nat.
Proof. done. Qed.

Lemma encode_points_cons p points : mjoin (encode_point <$> p :: points) = encode_point p ++ mjoin (encode_point <$> points).
Proof. done. Qed.

Lemma length_encode_points points : length (mjoin (encode_point <$> points)) = (7 * length points)%nat.
Proof. induction points as [|p points IH]; [done|]. rewrite encode_points_cons, length_app, IH, length_encode_point. simpl. lia. Qed.

Lemma take_adjusted pps (points : list Point) :
  let n := (adjusted_frame_params pps (length points `min` HELIOS_MAX_POINTS)).2 in length (take n points) = n.
Proof. intros n. pose proof (adjusted_points pps (length points `min` HELIOS_MAX_POINTS)). fold n in H. rewrite length_take. lia. Qed.

Lemma length_encode_frame pps points flags :
  length (encode_frame_into pps points flags) = (7 * (adjusted_frame_params pps (length points `min` HELIOS_MAX_POINTS)).2 + 5)%nat.
Proof.
  unfold encode_frame_into. pose proof (take_adjusted pps points) as Ht. simpl in Ht.
  destruct (adjusted_frame_params _ _) as [rate n]. simpl in *. by rewrite length_app, length_encode_points, Ht.
Qed.

(** The packing of two 12-bit coordinates in three bytes. *)
Lemma pack_coordinates x y :
  0 <= x <= 4095 -> 0 <= y <= 4095 ->
  wrapu 8 (Z.shiftr x 4) = x / 16 /\
  Z.lor (wrapu 8 (Z.shiftl (Z.land x 0x0F) 4)) (wrapu 8 (Z.shiftr y 8)) = (x mod 16) * 16 + y / 256 /\
  wrapu 8 (Z.land y 0xFF) = (y mod 256).
Proof.
  intros Hx Hy. unfold wrapu. change 0x0F with (Z.ones 4). change 0xFF with (Z.ones 8).
  rewrite !Z.land_ones, !Z.shiftr_div_pow2, Z.shiftl_mul_pow2 by lia. change (2 ^ 4) with 16. change (2 ^ 8) with 256.
  rewrite !(Z.mod_small (_ / _)), (Z.mod_small (_ * _)), Z.mod_mod by (Z.to_euclidean_division_equations; lia).
  split_and!; [done| |done]. apply (lor_disjoint _ _ 4); [lia|]. Z.to_euclidean_division_equations; lia.
Qed.

Lemma decode_encode_point p bs : point_ok p -> decode_points (encode_point p ++ bs) = cons p <$> decode_points bs.
Proof.
  destruct p as [[x y] [r g b] i]. intros (Hx & Hy & _). simpl in Hx, Hy. unfold encode_point. simpl.
  destruct (pack_coordinates x y Hx Hy) as (-> & -> & ->). do 4 f_equal; Z.to_euclidean_division_equations; lia.
Qed.

Lemma decode_encode_points points : Forall point_ok points -> decode_points (mjoin (encode_point <$> points)) = Some points.
Proof. induction 1 as [|p points Hp _ IH]; [done|]. by rewrite encode_points_cons, decode_encode_point, IH. Qed.

(** Two bytes of a 16-bit value. *)
Lemma split_u16 v : 0 <= v < 65536 -> wrapu 8 (Z.land v 0xFF) + 256 * wrapu 8 (Z.shiftr v 8) = v.
Proof.
  intros Hv. unfold wrapu. change 0xFF with (Z.ones 8). rewrite Z.land_ones, Z.shiftr_div_pow2 by lia.
  change (2 ^ 8) with 256. Z.to_euclidean_division_equations; lia.
Qed.

(** The device reads back the adjusted rate, the points it was given and the flags. *)
Lemma decode_encode_frame pps points flags :
  Forall point_ok points -> 0 <= pps < 65536 ->
  let '(rate, n) := adjusted_frame_params pps (length points `min` HELIOS_MAX_POINTS) in
  decode_frame (encode_frame_into pps points flags) = Some (rate, take n points, flags).
Proof.
  intros Hp Hr. pose proof (take_adjusted pps points) as Ht. pose proof (length_encode_frame pps points flags) as Hl.
  pose proof (adjusted_points pps (length points `min` HELIOS_MAX_POINTS)) as Hn.
  pose proof (adjusted_rate pps (length points `min` HELIOS_MAX_POINTS) ltac:(unfold in_u, umax; lia)) as Ha.
  unfold encode_frame_into in *. destruct (adjusted_frame_params _ _) as [rate n]. cbn [snd] in Ht, Hn, Hl.
  set (body := mjoin (encode_point <$> take n points)) in *.
  assert (Hb : length body = (7 * n)%nat) by (unfold body; by rewrite length_encode_points, Ht).
  unfold decode_frame. rewrite Hl. replace (_ + 5 - 5)%nat with (length body) by lia.
  rewrite drop_app_length, take_app_length. unfold body. rewrite decode_encode_points by (by apply Forall_take). simpl.
  unfold HELIOS_MAX_POINTS in *. rewrite !split_u16, Ht by lia. by rewrite decide_True by lia.
Qed.

Lemma point_from_ok p : point_wf p -> point_ok (point_from p).
Proof.
  intros (Hx & Hy & Hr & Hg & Hb & Hi). unfold point_ok, point_from, in_u, umax. simpl.
  pose proof (coord_to_u12_inverted_range _ Hx). pose proof (coord_to_u12_inverted_range _ Hy).
  pose proof (color_to_u8_range _ Hr). pose proof (color_to_u8_range _ Hg).
  pose proof (color_to_u8_range _ Hb). pose proof (color_to_u8_range _ Hi). lia.
Qed.

(** ** Bulk writes

    How a write of [buf] can go: the transfers it makes and its result.  Only a
    transfer that took the whole buffer succeeds, a stalled endpoint is cleared
    and tried once more. *)
Inductive single_write (buf : list Z) : xfer -> (unit + HeliosDacError) -> Prop :=
  | sw_whole : single_write buf (BulkOut ENDPOINT_BULK_OUT buf (inl (length buf))) (inl tt)
  | sw_short n : n <> length buf -> single_write buf (BulkOut ENDPOINT_BULK_OUT buf (inl n)) (inr (UsbError UsbIo))
  | sw_error e : single_write buf (BulkOut ENDPOINT_BULK_OUT buf (inr e)) (inr (UsbError e)).

Inductive bulk_outcome (buf : list Z) : list xfer -> (unit + HeliosDacError) -> Prop :=
  | bo_once x r : single_write buf x r -> r <> inr (UsbError UsbPipe) -> bulk_outcome buf [x] r
  | bo_stuck e :
      bulk_outcome buf [BulkOut ENDPOINT_BULK_OUT buf (inr UsbPipe); ClearHalt ENDPOINT_BULK_OUT (inr e)] (inr (UsbError e))
  | bo_retry x r :
      single_write buf x r ->
      bulk_outcome buf [BulkOut ENDPOINT_BULK_OUT buf (inr UsbPipe); ClearHalt ENDPOINT_BULK_OUT (inl tt); x] r.

(** The transfer that delivered a frame is the last one. *)
Lemma bulk_outcome_whole buf tail r :
  bulk_outcome buf tail r -> r = inl tt <-> last tail = Some (BulkOut ENDPOINT_BULK_OUT buf (inl (length buf))).
Proof. destruct 1 as [x r Hx _|e|x r Hx]; try destruct Hx; simpl; naive_solver. Qed.

Section transfers.
Context {H : Type} `{!UsbEndpoints H}.

Lemma write_bulk_all_outcome buf (h : Logged H) :
  exists tail, log (write_bulk_all buf h).2 = log h ++ tail /\ bulk_outcome buf tail (write_bulk_all buf h).1.
Proof.
  unfold write_bulk_all. simpl. rewrite logging_eq. destruct (write_bulk _ _ _ _) as [[n|e] b]; simpl.
  - case_decide as Hn; simpl; eexists; (split; [done|]); apply bo_once; try done; subst; by constructor.
  - destruct e; simpl; try (eexists; split; [done|]; apply bo_once; [constructor|done]).
    rewrite logging_eq. destruct (clear_halt _ _) as [[[]|e] b2]; simpl.
    + rewrite logging_eq. simpl. destruct (write_bulk _ _ _ _) as [[n|e] b3]; simpl; [case_decide|]; simpl; eexists;
        rewrite <- !app_assoc; (split; [done|]); apply bo_retry; subst; by constructor.
    + eexists. rewrite <- app_assoc. split; [done|]. constructor.
Qed.

(** A reply fits its buffer, so that indexing the buffer cannot panic. *)
Lemma read_response_padded `{!UsbLaws H} (h : H) data h' : read_response h = (inl data, h') -> length (padded data) = 32%nat.
Proof.
  unfold read_response, map_err. destruct (read_interrupt _ _ _ _) as [[d|e] h1] eqn:Hr; intros [= -> _].
  apply read_interrupt_fits in Hr as [Hl _]. unfold padded. rewrite length_app, length_replicate. lia.
Qed.

(** ** Draining *)

(** Within [n] reads the device has nothing more to say. *)
Fixpoint drains_within (n : nat) (h : H) : Prop :=
  match n with
  | O => False
  | S n =>
      match read_interrupt ENDPOINT_INT_IN 32 INIT_DRAIN_TIMEOUT h with
      | (inl _, h) => drains_within n h
      | (inr _, _) => True
      end
  end.

(** Any fuel that covers the stale replies gives the same state. *)
Lemma drain_enough n fuel h : drains_within n h -> (n <= fuel)%nat -> drain fuel h = drain n h.
Proof.
  revert fuel h. induction n as [|n IH]; intros [|fuel] h Hd Hle; [done..|lia|]. simpl in *.
  destruct (read_interrupt _ _ _ _) as [[d|e] h']; [|done]. apply IH; [done|lia].
Qed.

(** ** The firmware probe *)

Definition is_int_out (x : xfer) : bool := match x with IntOut _ _ _ => true | _ => false end.

(** At most [outs] requests with three reads after each and [reads] more; a
    version is what the last reply said. *)
Definition probe_trace (outs reads : nat) (tail : list xfer) (r : Z + option rusb_error) : Prop :=
  (length tail <= outs * S INIT_FW_IN_ATTEMPTS + reads)%nat /\
  (length (List.filter is_int_out tail) <= outs)%nat /\
  (forall v, r = inl v -> exists data, last tail = Some (IntIn ENDPOINT_INT_IN 32 (inl data)) /\ firmware_reply data = Some v).

Lemma probe_trace_app o1 r1 o2 r2 t1 t2 e r :
  probe_trace o1 r1 t1 (inr e) -> probe_trace o2 r2 t2 r -> probe_trace (o1 + o2) (r1 + r2) (t1 ++ t2) r.
Proof.
  unfold probe_trace. intros (H1 & H2 & _) (H3 & H4 & H5). rewrite List.filter_app, !length_app.
  split_and!; [lia..|]. intros v Hv. destruct (H5 v Hv) as (d & Hd & Hf). exists d. by rewrite last_app, Hd.
Qed.

Lemma probe_trace_read r e : probe_trace 0 1 [IntIn ENDPOINT_INT_IN 32 r] (inr e).
Proof. unfold probe_trace. simpl. split_and!; [lia..|done]. Qed.

Lemma probe_in_trace n last_err (h : Logged H) :
  exists tail, log (probe_in n last_err h).2 = log h ++ tail /\ probe_trace 0 n tail (probe_in n last_err h).1.
Proof.
  revert last_err h. induction n as [|n IH]; intros last_err h; simpl.
  - exists []. by rewrite app_nil_r.
  - rewrite logging_eq. destruct (read_interrupt _ _ _ _) as [[data|e] b]; simpl.
    + destruct (firmware_reply data) as [v|] eqn:Hf; simpl.
      * eexists. split; [done|]. unfold probe_trace. simpl. split_and!; [lia..|]. intros v' [= <-]. eauto.
      * edestruct (IH last_err) as (tail & -> & Ht). simpl. eexists (_ :: tail). rewrite <- app_assoc. split; [done|].
        apply (probe_trace_app 0 1 0 n [_] _ None); [apply probe_trace_read|done].
    + edestruct (IH (Some e)) as (tail & -> & Ht). simpl. eexists (_ :: tail). rewrite <- app_assoc. split; [done|].
      apply (probe_trace_app 0 1 0 n [_] _ None); [apply probe_trace_read|done].
Qed.

Lemma probe_trace_request r t e n : probe_trace 0 n t e -> (n <= INIT_FW_IN_ATTEMPTS)%nat ->
  probe_trace 1 0 (IntOut ENDPOINT_INT_OUT [CONTROL_GET_FIRMWARE_VERSION; 0] r :: t) e.
Proof.
  unfold probe_trace, INIT_FW_IN_ATTEMPTS. simpl. intros (H1 & H2 & H3) Hn. split_and!; [lia..|]. intros v Hv. destruct (H3 v Hv) as (d & Hd & Hf).
  exists d. by destruct t.
Qed.

Lemma probe_out_trace n last_err (h : Logged H) :
  exists tail, log (probe_out n last_err h).2 = log h ++ tail /\ probe_trace n 0 tail (probe_out n last_err h).1.
Proof.
  assert (Hnil : forall e, probe_trace 0 0 [] (inr e)) by (intros e; unfold probe_trace; simpl; split_and!; [lia..|done]).
  revert last_err h. induction n as [|n IH]; intros last_err h; [exists []; by rewrite app_nil_r|].
  cbn [probe_out]. cbn [write_interrupt logged_endpoints]. rewrite logging_eq.
  set (h1 := mkLogged _ _). destruct (write_interrupt _ _ _ _).1 as [sent|e] eqn:Hw; [case_decide|].
  - destruct (probe_in_trace INIT_FW_IN_ATTEMPTS last_err h1) as (t1 & Hl & Ht1).
    destruct (probe_in INIT_FW_IN_ATTEMPTS last_err h1) as [[v|e] h2]; simpl in Hl, Ht1.
    + eexists (_ :: t1). cbn [snd fst]. rewrite Hl. unfold h1. simpl. rewrite <- app_assoc. split; [done|].
      pose proof (probe_trace_request (inl sent) t1 (inl v) _ Ht1 ltac:(done)) as Hp. revert Hp. unfold probe_trace. simpl. 
      intros (Ha & Hb & Hc). split_and!; [lia..|done].
    + destruct (IH e h2) as (t2 & -> & Ht2). eexists ((_ :: t1) ++ t2). rewrite Hl. unfold h1. simpl. rewrite <- !app_assoc. split; [done|].
      apply (probe_trace_app 1 0 n 0 (_ :: t1) t2 e); [|done]. by eapply probe_trace_request.
  - edestruct (IH (Some UsbIo) h1) as (t2 & -> & Ht2). eexists (_ :: t2). unfold h1. simpl. rewrite <- !app_assoc. split; [done|].
    apply (probe_trace_app 1 0 n 0 [_] t2 None); [|done]. eapply probe_trace_request; [apply Hnil|lia].
  - edestruct (IH (Some e) h1) as (t2 & -> & Ht2). eexists (_ :: t2). unfold h1. simpl. rewrite <- !app_assoc. split; [done|].
    apply (probe_trace_app 1 0 n 0 [_] t2 None); [|done]. eapply probe_trace_request; [apply Hnil|lia].
Qed.
End transfers.
