(* ===== verification/HeliosBackend.v ===== *)
(** * The Helios backend

    Models [src/src/protocols/helios/backend.rs] and
    [src/src/protocols/helios/discovery.rs]: connecting (again to the same
    physical port), readiness polls with their error budget, frame writes, and
    what becomes of the USB handle: closed on an orderly disconnect, leaked after a
    fatal error.  A backend's state goes with the host [W] it opens devices on;
    closing a handle is visible there, leaking one is not. *)

From stdpp Require Import strings pretty.
From S2P Require Import Prelude Floats Point Session Backend Bytes Utf8 Usb Discovery Helios.

#[local] Open Scope Z_scope.

Definition STATUS_ERROR_LIMIT : Z := 50.

Record HeliosBackend (D H : Type) := mkHelios {
  hb_dac : option (HeliosDac D H);
  hb_device_index : nat;
  hb_usb_location : option string;
  hb_caps : DacCapabilities;
  hb_status_error_count : Z;
  hb_fatal_disconnect : bool;
  hb_oversize_clamp_count : Z;
  hb_pps_clamp_count : Z;
  hb_point_buffer : list Point;
  hb_frame_buffer : list Z;
}.
Arguments mkHelios {D H}.
Arguments hb_dac {D H}.
Arguments hb_device_index {D H}.
Arguments hb_usb_location {D H}.
Arguments hb_caps {D H}.
Arguments hb_status_error_count {D H}.
Arguments hb_fatal_disconnect {D H}.
Arguments hb_oversize_clamp_count {D H}.
Arguments hb_pps_clamp_count {D H}.
Arguments hb_point_buffer {D H}.
Arguments hb_frame_buffer {D H}.

Definition helios_eta {D H} (b : HeliosBackend D H) : HeliosBackend D H :=
  mkHelios (hb_dac b) (hb_device_index b) (hb_usb_location b) (hb_caps b) (hb_status_error_count b) (hb_fatal_disconnect b)
    (hb_oversize_clamp_count b) (hb_pps_clamp_count b) (hb_point_buffer b) (hb_frame_buffer b).

(** [update_field] for a type with parameters. *)
Ltac update_helios proj v b :=
  let t := eval cbv beta delta [helios_eta] in (helios_eta b) in
  let t := eval pattern (proj b) in t in
  match t with ?f _ => let u := eval cbv beta in (f v) in exact u end.

(** ** Errors *)

Definition is_fatal_usb_error (e : HeliosDacError) : bool := match e with UsbError inner => is_fatal_rusb inner | _ => false end.

Definition is_access_error (e : HeliosDacError) : bool := match e with UsbError UsbAccess => true | _ => false end.

Definition map_err (e : HeliosDacError) : Error :=
  if is_access_error e then ErrPermissionDenied "helios"
  else if is_fatal_usb_error e then ErrDisconnected "USB device error"
  else ErrBackend "helios".

Definition map_err_with_context (context : string) (e : HeliosDacError) : Error :=
  if is_access_error e then ErrPermissionDenied context
  else if is_fatal_usb_error e then ErrDisconnected (context +:+ ": USB device error")
  else ErrBackend context.

Section backend.
Context {W D H : Type} `{!UsbEndpoints H} `{!UsbHost W D H}.
Variable drain_fuel : nat.
Implicit Types (b : HeliosBackend D H) (w : W).

Definition set_dac (v : option (HeliosDac D H)) b : HeliosBackend D H := ltac:(update_helios (@hb_dac D H) v b).
Definition set_usb_location (v : option string) b : HeliosBackend D H := ltac:(update_helios (@hb_usb_location D H) v b).
Definition set_status_error_count (v : Z) b : HeliosBackend D H := ltac:(update_helios (@hb_status_error_count D H) v b).
Definition set_fatal_disconnect (v : bool) b : HeliosBackend D H := ltac:(update_helios (@hb_fatal_disconnect D H) v b).
Definition set_oversize_clamp_count (v : Z) b : HeliosBackend D H := ltac:(update_helios (@hb_oversize_clamp_count D H) v b).
Definition set_pps_clamp_count (v : Z) b : HeliosBackend D H := ltac:(update_helios (@hb_pps_clamp_count D H) v b).
Definition set_point_buffer (v : list Point) b : HeliosBackend D H := ltac:(update_helios (@hb_point_buffer D H) v b).
Definition set_frame_buffer (v : list Z) b : HeliosBackend D H := ltac:(update_helios (@hb_frame_buffer D H) v b).

Definition helios_new (device_index : nat) : HeliosBackend D H :=
  mkHelios None device_index None helios_capabilities 0 false 0 0 [] [].

Definition from_dac (dac : HeliosDac D H) : HeliosBackend D H :=
  mkHelios (Some dac) 0 (Some (usb_location dac)) helios_capabilities 0 false 0 0 [] [].

(** [discover]. *)
Definition enumerate : U W HeliosDacError (list (HeliosDac D H)) :=
  _ ← Usb.map_err UsbError context_new; Helios.list_devices.

Definition discover (w : W) : result (list (HeliosDac D H)) * W :=
  match enumerate w with (inl dacs, w) => (Ok dacs, w) | (inr e, w) => (Err (map_err e), w) end.

(** [close_handle] drops the DAC, [leak_handle] forgets its handle. *)
Definition close_handle b w : HeliosBackend D H * W :=
  (set_dac None b, match hb_dac b with Some dac => drop_dac dac w | None => w end).

Definition leak_handle b w : HeliosBackend D H * W :=
  (set_dac None b, match hb_dac b with Some dac => leak_dac dac w | None => w end).

(** ** Status polls *)

Definition mark_status_ok b : HeliosBackend D H := set_status_error_count 0 b.

Definition mark_status_error b : HeliosBackend D H := set_status_error_count (wrapu 32 (hb_status_error_count b + 1)) b.

Definition on_status_error (e : HeliosDacError) b w : HeliosBackend D H * W :=
  if is_fatal_usb_error e then leak_handle (set_fatal_disconnect true b) w
  else
    let b := mark_status_error b in
    if STATUS_ERROR_LIMIT <=? hb_status_error_count b then close_handle b w else (b, w).

Definition map_err_ctx (context : string) (e : HeliosDacError) b : HeliosBackend D H * Error :=
  (if is_fatal_usb_error e then set_fatal_disconnect true b else b, map_err_with_context context e).

(** ** Frames *)

Definition note_oversize_frame b : HeliosBackend D H := set_oversize_clamp_count (wrapu 32 (hb_oversize_clamp_count b + 1)) b.

Definition clamp_pps (pps : Z) b : HeliosBackend D H * Z :=
  let clamped := Z.min (Z.max pps (pps_min (hb_caps b))) (pps_max (hb_caps b)) in
  (if clamped =? pps then b else set_pps_clamp_count (wrapu 32 (hb_pps_clamp_count b + 1)) b, clamped).

Definition prepare_frame_buffer (pps : Z) (points : list LaserPoint) b : HeliosBackend D H * (Z * nat * nat) :=
  let max_points := Z.to_nat (max_points_per_chunk (hb_caps b)) in
  let '(b, points) :=
    if decide (max_points < length points)%nat then (note_oversize_frame b, take max_points points) else (b, points) in
  let '(b, pps) := clamp_pps pps b in
  let b := set_point_buffer (point_from <$> points) b in
  let b := set_frame_buffer (encode_frame_into pps (hb_point_buffer b) SINGLE_MODE) b in
  (b, (pps, length points, length (hb_frame_buffer b))).

Definition backend_firmware_version b : option Z := dac ← hb_dac b; probed_firmware_version dac.

(** ** [DacBackend] *)

Definition pick_dac (dacs : list (HeliosDac D H)) b : result (HeliosDac D H) :=
  match hb_usb_location b with
  | Some target =>
      match List.find (fun d => bool_decide (usb_location d = target)) dacs with
      | Some dac => Ok dac
      | None => Err (ErrDisconnected "Helios device at USB location not found")
      end
  | None =>
      match dacs !! hb_device_index b with
      | Some dac => Ok dac
      | None => Err (ErrDisconnected "Device index out of range")
      end
  end.

Definition install (dac : HeliosDac D H) b w : (HeliosBackend D H * W) * result unit :=
  match open drain_fuel dac w with
  | (inl opened, w) => ((set_dac (Some opened) (set_usb_location (Some (usb_location opened)) b), w), Ok tt)
  | (inr e, w) => ((b, w), Err (map_err e))
  end.

Definition connect b w : (HeliosBackend D H * W) * result unit :=
  let b := set_fatal_disconnect false (set_status_error_count 0 b) in
  match hb_dac b with
  | Some dac => install dac (set_dac None b) w
  | None =>
      match enumerate w with
      | (inr e, w) => ((b, w), Err (map_err e))
      | (inl dacs, w) => match pick_dac dacs b with Err e => ((b, w), Err e) | Ok dac => install dac b w end
      end
  end.

Definition disconnect b w : (HeliosBackend D H * W) * result unit :=
  (if hb_fatal_disconnect b then leak_handle b w else close_handle b w, Ok tt).

Definition is_connected b : bool := match hb_dac b with Some (Open _ _) => true | _ => false end.

(** A command whose error is mapped with its context. *)
Definition command (context : string) (m : U (HeliosDac D H) HeliosDacError unit) b : HeliosBackend D H * result unit :=
  match hb_dac b with
  | None => (b, Ok tt)
  | Some dac =>
      match m dac with
      | (inl _, dac) => (set_dac (Some dac) b, Ok tt)
      | (inr e, dac) => let '(b, e) := map_err_ctx context e (set_dac (Some dac) b) in (b, Err e)
      end
  end.

Definition stop b : HeliosBackend D H * result unit := command "helios stop" dac_stop b.

Definition set_shutter (open : bool) b : HeliosBackend D H * result unit := command "helios set_shutter" (dac_set_shutter open) b.

(** [Drop]: an open handle is always leaked. *)
Definition drop_backend b w : W := (leak_handle b w).2.

(** ** [FrameSwapBackend] *)

Definition frame_capacity b : nat := Z.to_nat (max_points_per_chunk (hb_caps b)).

Definition is_ready_for_frame b w : (HeliosBackend D H * W) * bool :=
  match hb_dac b with
  | None => ((b, w), false)
  | Some dac =>
      match status drain_fuel dac with
      | (inl Ready, dac) => ((mark_status_ok (set_dac (Some dac) b), w), true)
      | (inl NotReady, dac) => ((mark_status_ok (set_dac (Some dac) b), w), false)
      | (inr e, dac) => (on_status_error e (set_dac (Some dac) b) w, false)
      end
  end.

Definition write_frame_after_ready (pps : Z) (points : list LaserPoint) b : HeliosBackend D H * result WriteOutcome :=
  let '(b, _) := prepare_frame_buffer pps points b in
  match hb_dac b with
  | None => (b, Err (ErrDisconnected "Not connected"))
  | Some dac =>
      match write_frame_buffer (hb_frame_buffer b) dac with
      | (inl _, dac) => (set_dac (Some dac) b, Ok Written)
      | (inr e, dac) =>
          let '(b, e) := map_err_ctx "helios write_frame bulk transfer" e (set_dac (Some dac) b) in (b, Err e)
      end
  end.

Definition write_frame (pps : Z) (points : list LaserPoint) b : HeliosBackend D H * result WriteOutcome :=
  match hb_dac b with
  | None => (b, Err (ErrDisconnected "Not connected"))
  | Some dac =>
      match status drain_fuel dac with
      | (inl Ready, dac) => write_frame_after_ready pps points (set_dac (Some dac) b)
      | (inl NotReady, dac) => (set_dac (Some dac) b, Ok WouldBlock)
      | (inr e, dac) =>
          let '(b, e) := map_err_ctx "helios write_frame status poll" e (set_dac (Some dac) b) in (b, Err e)
      end
  end.

(** The backend with its host, as the session drives it. *)
Definition keep {R} (w : W) (r : HeliosBackend D H * R) : (HeliosBackend D H * W) * R := ((r.1, w), r.2).

Definition helios_dac_backend : DacBackend (HeliosBackend D H * W) := {|
  backend_caps s := hb_caps s.1;
  backend_connect s := connect s.1 s.2;
  backend_disconnect s := disconnect s.1 s.2;
  backend_is_connected s := is_connected s.1;
  backend_stop s := keep s.2 (stop s.1);
  backend_set_shutter o s := keep s.2 (set_shutter o s.1);
|}.

Definition helios_frame_swap : FrameSwapBackend (HeliosBackend D H * W) := {|
  frame_dac := helios_dac_backend;
  swap_frame_capacity s := frame_capacity s.1;
  swap_is_ready_for_frame s := is_ready_for_frame s.1 s.2;
  Backend.write_frame pps points s := keep s.2 (write_frame pps points s.1);
  swap_write_frame_after_ready pps points s := keep s.2 (write_frame_after_ready pps points s.1);
|}.

(** ** Discovery *)

Definition PREFIX : string := "helios".

Definition format_stable_id_from_name (name : str) : string := PREFIX +:+ ":" +:+ text (slugify_device_id name).

Definition format_stable_id_from_location (usb_location : string) : string := PREFIX +:+ ":usb:" +:+ usb_location.

Definition format_display_name (usb_location : string) : string := "Helios DAC (" +:+ usb_location +:+ ")".

Definition format_display_name_with_name (name : str) (usb_location : string) : string :=
  "Helios DAC " +:+ text name +:+ " (" +:+ usb_location +:+ ")".

Definition build_device_info (name : option str) (usb_location : string) : DiscoveredDeviceInfo :=
  let '(stable_id, display_name) :=
    match name with
    | Some n => (format_stable_id_from_name n, format_display_name_with_name n usb_location)
    | None => (format_stable_id_from_location usb_location, format_display_name usb_location)
    end in
  let legacy_id := format_stable_id_from_location usb_location in
  let info := with_usb_address usb_location (DiscoveredDeviceInfo_new Helios stable_id display_name) in
  let info := if decide (di_stable_id info = legacy_id) then info else with_legacy_id legacy_id info in
  match name with Some n => with_hardware_name (text n) info | None => info end.

(** The name a scan uses: trimmed, and not without a slug. *)
Definition usable_name (n : str) : option str :=
  let n := trim_both is_whitespace n in
  match n, slugify_device_id n with [], _ | _, [] => None | _, _ => Some n end.

Definition scan_device (dac : HeliosDac D H) (w : W) : DiscoveredDevice (HeliosDac D H) * W :=
  let '(r, w) := read_name drain_fuel dac w in
  let name := match r with inl n => usable_name n | inr _ => None end in
  (DiscoveredDevice_new (build_device_info name (usb_location dac)) dac, w).

Fixpoint scan_devices (dacs : list (HeliosDac D H)) (w : W) : list (DiscoveredDevice (HeliosDac D H)) * W :=
  match dacs with
  | [] => ([], w)
  | dac :: dacs =>
      let '(d, w) := scan_device dac w in
      let '(ds, w) := scan_devices dacs w in (d :: ds, w)
  end.

(** [scan] and [connect] of the discoverer, whose state is the host. *)
Definition helios_scan (w : W) : W * list (DiscoveredDevice (HeliosDac D H)) :=
  match Helios.list_devices w with
  | (inr _, w) => (w, [])
  | (inl dacs, w) => let '(ds, w) := scan_devices dacs w in (w, ds)
  end.

Definition discoverer_connect {FB} `{!FifoBackend FB} (data : HeliosDac D H) (w : W) : result (BackendKind FB (HeliosBackend D H * W)) :=
  @frame_swap FB (HeliosBackend D H * W) _ helios_frame_swap (from_dac data, w).
End backend.

(** ** Frames reach the device whole *)

(** What a buffer tells the device: the points, converted, but for at most one at
    the end; the clamped rate, scaled so that the frame lasts as long; and a length
    that no transfer of whole 64-byte packets has. *)
Definition frame_on_wire (pps : Z) (points : list LaserPoint) (buf : list Z) : Prop :=
  exists rate n,
    let requested := (length points `min` HELIOS_MAX_POINTS)%nat in
    let clamped := Z.min (Z.max pps 7) 65535 in
    decode_frame buf = Some (rate, point_from <$> take n points, SINGLE_MODE) /\
    (requested - 1 <= n <= requested)%nat /\ 0 <= rate <= clamped /\
    2 * Z.abs (rate * Z.of_nat requested - clamped * Z.of_nat n) <= Z.of_nat requested /\
    Z.of_nat (length buf) mod 64 <> 0.

Lemma encoded_on_wire pps points points' :
  Forall point_wf points -> points' = take HELIOS_MAX_POINTS points ->
  frame_on_wire pps points (encode_frame_into (Z.min (Z.max pps 7) 65535) (point_from <$> points') SINGLE_MODE).
Proof.
  intros Hp ->. set (rate0 := Z.min (Z.max pps 7) 65535). assert (Hr : 0 <= rate0 < 65536) by (unfold rate0; lia).
  set (sent := point_from <$> take HELIOS_MAX_POINTS points).
  assert (Hlen : (length sent `min` HELIOS_MAX_POINTS = length points `min` HELIOS_MAX_POINTS)%nat)
    by (unfold sent; rewrite length_fmap, length_take; lia).
  assert (Hok : Forall point_ok sent) by (apply Forall_fmap, Forall_take; eapply Forall_impl; [done|apply point_from_ok]).
  pose proof (decode_encode_frame rate0 sent SINGLE_MODE Hok Hr) as Hd. pose proof (length_encode_frame rate0 sent SINGLE_MODE) as Hl.
  rewrite Hlen in Hd, Hl. set (req := (length points `min` HELIOS_MAX_POINTS)%nat) in *.
  pose proof (adjusted_points rate0 req) as Ha. destruct (adjusted_points_ge rate0 req) as [Hb _].
  pose proof (adjusted_rate rate0 req ltac:(unfold in_u, umax; lia)) as Hrate. pose proof (adjusted_size rate0 req) as Hs.
  destruct (adjusted_frame_params rate0 req) as [rate n]. cbn [snd] in Ha, Hb, Hs, Hl. exists rate, n. fold req rate0.
  split_and!; [|lia..|rewrite Hl; replace (Z.of_nat _) with (7 * Z.of_nat n + 5) by lia; done].
  rewrite Hd. unfold sent. rewrite <- fmap_take, take_take. rewrite Nat.min_l by (unfold req in Ha; lia). done.
Qed.

Section theorems.
Context {W D H : Type} `{!UsbEndpoints H} `{!UsbHost W D H}.
Variable drain_fuel : nat.
Implicit Types (b : HeliosBackend D H) (w : W).

(** Preparing a frame leaves the connection alone and fills the buffer. *)
Lemma prepare_frame_spec pps points b :
  hb_caps b = helios_capabilities ->
  let b' := (prepare_frame_buffer pps points b).1 in
  hb_dac b' = hb_dac b /\ hb_fatal_disconnect b' = hb_fatal_disconnect b /\ hb_usb_location b' = hb_usb_location b /\
  hb_status_error_count b' = hb_status_error_count b /\ hb_caps b' = hb_caps b /\
  hb_frame_buffer b' = encode_frame_into (Z.min (Z.max pps 7) 65535) (point_from <$> take HELIOS_MAX_POINTS points) SINGLE_MODE.
Proof.
  destruct b. simpl. intros ->. unfold prepare_frame_buffer, clamp_pps. simpl.
  change (Z.to_nat 4095) with HELIOS_MAX_POINTS. case_decide; simpl; case_match; simpl; split_and!; try done.
  all: by rewrite take_ge by lia.
Qed.

(** ** The handle and its location *)

(** The operations a session performs. *)
Inductive helios_op :=
  | OpConnect
  | OpDisconnect
  | OpStop
  | OpShutter (open : bool)
  | OpPoll
  | OpWrite (pps : Z) (points : list LaserPoint)
  | OpWriteReady (pps : Z) (points : list LaserPoint).

#[local] Instance helios_op_eq_dec : EqDecision helios_op.
Proof. solve_decision. Defined.

Definition helios_step (op : helios_op) (s : HeliosBackend D H * W) : HeliosBackend D H * W :=
  match op with
  | OpConnect => (connect drain_fuel s.1 s.2).1
  | OpDisconnect => (disconnect s.1 s.2).1
  | OpStop => ((stop s.1).1, s.2)
  | OpShutter o => ((set_shutter o s.1).1, s.2)
  | OpPoll => (is_ready_for_frame drain_fuel s.1 s.2).1
  | OpWrite pps points => ((write_frame drain_fuel pps points s.1).1, s.2)
  | OpWriteReady pps points => ((write_frame_after_ready pps points s.1).1, s.2)
  end.

Definition helios_run (ops : list helios_op) (s : HeliosBackend D H * W) : HeliosBackend D H * W :=
  foldl (fun s op => helios_step op s) s ops.

(** What an operation other than [connect] does to the connection: it keeps the
    DAC at its device or gives it up, and a fatal mark stays. *)
Record kept b b' : Prop := {
  kept_caps : hb_caps b' = hb_caps b;
  kept_location : hb_usb_location b' = hb_usb_location b;
  kept_dac : forall dac', hb_dac b' = Some dac' -> exists dac, hb_dac b = Some dac /\ device_of dac' = device_of dac /\ usb_location dac' = usb_location dac;
  kept_fatal : hb_fatal_disconnect b = true -> hb_fatal_disconnect b' = true;
}.

Lemma helios_kept_refl b : kept b b.
Proof. split; naive_solver. Qed.

Lemma helios_kept_trans b1 b2 b3 : kept b1 b2 -> kept b2 b3 -> kept b1 b3.
Proof.
  intros [] []. split; [congruence..| |auto]. intros dac' Hd. destruct (kept_dac1 dac' Hd) as (d2 & Hd2 & ? & ?).
  destruct (kept_dac0 d2 Hd2) as (d1 & ? & ? & ?). exists d1. split; [done|]. split; congruence.
Qed.

Lemma on_comm_kept {A} (m : U H HeliosDacError A) (dac : HeliosDac D H) :
  device_of (on_comm m dac).2 = device_of dac /\ usb_location (on_comm m dac).2 = usb_location dac.
Proof. destruct dac as [d|d c]; [done|]. simpl. by destruct (m (cm_handle c)). Qed.

Lemma set_dac_kept {A} (m : U H HeliosDacError A) b dac r dac' :
  hb_dac b = Some dac -> on_comm m dac = (r, dac') -> kept b (set_dac (Some dac') b).
Proof.
  intros Hb Hm. pose proof (on_comm_kept m dac) as [Hd Hl]. rewrite Hm in Hd, Hl.
  split; [done|done| |done]. simpl. intros d [= <-]. eauto.
Qed.

Lemma drop_kept b : kept b (set_dac None b).
Proof. split; done. Qed.

Lemma count_kept n b : kept b (set_status_error_count n b).
Proof. split; [done|done|simpl; naive_solver|done]. Qed.

Lemma fatal_kept b : kept b (set_fatal_disconnect true b).
Proof. split; [done|done|simpl; naive_solver|done]. Qed.

Lemma map_err_kept e b : kept b (if is_fatal_usb_error e then set_fatal_disconnect true b else b).
Proof. destruct (is_fatal_usb_error e); [apply fatal_kept|apply helios_kept_refl]. Qed.

Lemma command_kept c (m : U H HeliosDacError unit) b : kept b (command c (on_comm m) b).1.
Proof.
  unfold command. destruct (hb_dac b) as [dac|] eqn:Hb; [|apply helios_kept_refl].
  destruct (on_comm m dac) as [[[]|e] dac'] eqn:Hm; simpl.
  - by eapply set_dac_kept.
  - eapply helios_kept_trans; [by eapply set_dac_kept|apply map_err_kept].
Qed.

Lemma status_error_kept e b w : kept b (on_status_error e b w).1.
Proof.
  unfold on_status_error, leak_handle, close_handle, mark_status_error. destruct (is_fatal_usb_error e); simpl.
  - eapply helios_kept_trans; [apply fatal_kept|apply drop_kept].
  - case_match; simpl; [|apply count_kept]. eapply helios_kept_trans; [apply count_kept|apply drop_kept].
Qed.

Lemma poll_kept b w : kept b (is_ready_for_frame drain_fuel b w).1.1.
Proof.
  unfold is_ready_for_frame. destruct (hb_dac b) as [dac|] eqn:Hb; [|apply helios_kept_refl].
  destruct (status drain_fuel dac) as [[[]|e] dac'] eqn:Hs; simpl;
    (eapply helios_kept_trans; [by eapply set_dac_kept|]); [apply count_kept..|apply status_error_kept].
Qed.

Lemma prepare_kept pps points b : kept b (prepare_frame_buffer pps points b).1.
Proof.
  unfold prepare_frame_buffer, clamp_pps. case_decide; simpl; case_match; simpl; (split; [done|done|simpl; naive_solver|done]).
Qed.

Lemma write_ready_kept pps points b : kept b (write_frame_after_ready pps points b).1.
Proof.
  unfold write_frame_after_ready. pose proof (prepare_kept pps points b) as Hk.
  destruct (prepare_frame_buffer pps points b) as [b1 ?]. simpl in Hk.
  destruct (hb_dac b1) as [dac|] eqn:Hb; [|done]. eapply helios_kept_trans; [done|].
  destruct (write_frame_buffer _ dac) as [[[]|e] dac'] eqn:Hm; simpl; [by eapply set_dac_kept|].
  eapply helios_kept_trans; [by eapply set_dac_kept|apply map_err_kept].
Qed.

Lemma write_kept pps points b : kept b (write_frame drain_fuel pps points b).1.
Proof.
  unfold write_frame. destruct (hb_dac b) as [dac|] eqn:Hb; [|apply helios_kept_refl].
  destruct (status drain_fuel dac) as [[[]|e] dac'] eqn:Hs; simpl;
    (eapply helios_kept_trans; [by eapply set_dac_kept|]); [apply write_ready_kept|apply helios_kept_refl|apply map_err_kept].
Qed.

Lemma disconnect_kept b w : kept b (disconnect b w).1.1.
Proof. unfold disconnect. destruct (hb_fatal_disconnect b); apply drop_kept. Qed.

Lemma step_kept op b w : op <> OpConnect -> kept b (helios_step op (b, w)).1.
Proof.
  destruct op; simpl; intros Hop; [done|apply disconnect_kept|apply command_kept|apply command_kept|apply poll_kept|apply write_kept|apply write_ready_kept].
Qed.

(** *** The same port *)

Definition located b : Prop := forall dac, hb_dac b = Some dac -> hb_usb_location b = Some (usb_location dac).

Lemma kept_located b b' : kept b b' -> located b -> located b'.
Proof.
  intros [Hc Hl Hd _] Hb dac' Hd'. destruct (Hd dac' Hd') as (dac & Hs & _ & Hu). rewrite Hl, Hu. by apply Hb.
Qed.

Lemma open_location (dac dac' : HeliosDac D H) w w' : open drain_fuel dac w = (inl dac', w') -> usb_location dac' = usb_location dac.
Proof.
  destruct dac as [d|d c]; [|by intros [= -> _]]. unfold open, mbind, U_bind. simpl. unfold Usb.map_err.
  destruct (dev_open d w) as [[h|e] w1]; [|done]. destruct (init drain_fuel h) as [[fw|e] h1]; [|done]. by intros [= <- _].
Qed.

Lemma install_located dac b w :
  hb_dac b = None -> located (install drain_fuel dac b w).1.1 /\
  (hb_usb_location (install drain_fuel dac b w).1.1 = hb_usb_location b \/
   hb_usb_location (install drain_fuel dac b w).1.1 = Some (usb_location dac)).
Proof.
  intros Hb. unfold install. destruct (open drain_fuel dac w) as [[o|e] w1] eqn:Ho; simpl.
  - split; [intros d [= <-]; done|]. right. f_equal. by eapply open_location.
  - split; [|by left]. intros d. by rewrite Hb.
Qed.

Lemma connect_located b w :
  located b -> located (connect drain_fuel b w).1.1 /\
  forall loc, hb_usb_location b = Some loc -> hb_usb_location (connect drain_fuel b w).1.1 = Some loc.
Proof.
  intros Hb. unfold connect. set (b0 := set_fatal_disconnect _ _). change (hb_dac b0) with (hb_dac b).
  destruct (hb_dac b) as [dac|] eqn:Hd.
  - destruct (install_located dac (set_dac None b0) w eq_refl) as [Hl Hu]. split; [done|]. intros loc Hloc.
    pose proof (Hb dac Hd) as Hx. rewrite Hloc in Hx. destruct Hu as [->| ->]; [exact Hloc|by injection Hx as ->].
  - assert (H0 : located b0) by (intros dac; simpl; by rewrite Hd).
    destruct (enumerate w) as [[dacs|e] w1]; [|done]. destruct (pick_dac dacs b0) as [dac|e] eqn:Hp; [|done].
    destruct (install_located dac b0 w1 Hd) as [Hl Hu]. split; [done|]. intros loc Hloc. destruct Hu as [->| ->]; [exact Hloc|].
    revert Hp. unfold pick_dac. change (hb_usb_location b0) with (hb_usb_location b). rewrite Hloc.
    destruct (List.find _ dacs) as [d|] eqn:Hf; [|done]. intros [= ->]. apply List.find_some in Hf as [_ Hf].
    by apply bool_decide_eq_true in Hf as ->.
Qed.

Lemma step_located op b w :
  located b -> located (helios_step op (b, w)).1 /\
  forall loc, hb_usb_location b = Some loc -> hb_usb_location (helios_step op (b, w)).1 = Some loc.
Proof.
  intros Hb. destruct (decide (op = OpConnect)) as [->|Hop]; [by apply connect_located|].
  pose proof (step_kept op b w Hop) as Hk. split; [by eapply kept_located|]. intros loc. by rewrite (kept_location _ _ Hk).
Qed.

Lemma run_located ops b w :
  located b -> located (helios_run ops (b, w)).1 /\
  forall loc, hb_usb_location b = Some loc -> hb_usb_location (helios_run ops (b, w)).1 = Some loc.
Proof.
  revert b w. induction ops as [|op ops IH]; intros b w Hb; [done|]. simpl.
  destruct (step_located op b w Hb) as [H1 H2]. destruct (helios_step op (b, w)) as [b1 w1]. simpl in H1, H2.
  destruct (IH b1 w1 H1) as [H3 H4]. auto.
Qed.

(** Whatever a session does with a backend, connecting again included, once the
    backend knows its port it only ever holds a DAC at that port: with several
    projectors attached it never takes another one. *)
Theorem helios_stays_on_port (ops1 ops2 : list helios_op) b w loc :
  (exists i, b = helios_new i) \/ (exists dac, b = from_dac dac) ->
  hb_usb_location (helios_run ops1 (b, w)).1 = Some loc ->
  let b' := (helios_run (ops1 ++ ops2) (b, w)).1 in
  hb_usb_location b' = Some loc /\ forall dac, hb_dac b' = Some dac -> usb_location dac = loc.
Proof.
  intros Hs Hloc. assert (Hb : located b) by (destruct Hs as [[i ->]|[d ->]]; intros dac; [done|by intros [= <-]]).
  unfold helios_run in *. rewrite foldl_app. destruct (run_located ops1 b w Hb) as [H1 _]. unfold helios_run in H1.
  destruct (foldl _ (b, w) ops1) as [b1 w1]. simpl in Hloc, H1. destruct (run_located ops2 b1 w1 H1) as [H2 H3].
  specialize (H3 loc Hloc). unfold helios_run in H2, H3. split; [done|]. intros dac Hd. specialize (H2 dac Hd). congruence.
Qed.

(** *** Dead handles *)

Definition is_poll (op : helios_op) : bool := match op with OpPoll => true | _ => false end.

Definition polls (ops : list helios_op) : Z := Z.of_nat (length (List.filter is_poll ops)).

(** The error count moves only in polls, by one at most. *)
Lemma status_error_count_step e b w :
  0 <= hb_status_error_count b < STATUS_ERROR_LIMIT -> 0 <= hb_status_error_count (on_status_error e b w).1 <= hb_status_error_count b + 1.
Proof.
  unfold on_status_error, leak_handle, close_handle, mark_status_error, STATUS_ERROR_LIMIT, wrapu. intros Hc.
  destruct (is_fatal_usb_error e); simpl; [lia|]. rewrite Z.mod_small by lia. case_match; simpl; lia.
Qed.

Lemma prepare_count pps points b : hb_status_error_count (prepare_frame_buffer pps points b).1 = hb_status_error_count b.
Proof. unfold prepare_frame_buffer, clamp_pps. case_decide; simpl; by case_match. Qed.

Lemma write_count pps points b : hb_status_error_count (write_frame_after_ready pps points b).1 = hb_status_error_count b.
Proof.
  unfold write_frame_after_ready. rewrite <- (prepare_count pps points b). destruct (prepare_frame_buffer pps points b) as [b1 ?]. simpl.
  destruct (hb_dac b1) as [dac|]; [|done]. destruct (write_frame_buffer _ dac) as [[[]|e] dac']; simpl; [done|].
  by destruct (is_fatal_usb_error e).
Qed.

Lemma step_count op b w :
  op <> OpConnect -> 0 <= hb_status_error_count b < STATUS_ERROR_LIMIT ->
  0 <= hb_status_error_count (helios_step op (b, w)).1 <= hb_status_error_count b + (if is_poll op then 1 else 0).
Proof.
  intros Hop Hc. destruct op; simpl; [done|..].
  - unfold disconnect. destruct (hb_fatal_disconnect b); simpl; lia.
  - unfold stop, command. destruct (hb_dac b) as [dac|]; simpl; [|lia]. destruct (dac_stop dac) as [[[]|e] d]; simpl; [lia|].
    destruct (is_fatal_usb_error e); simpl; lia.
  - unfold set_shutter, command. destruct (hb_dac b) as [dac|]; simpl; [|lia]. destruct (dac_set_shutter _ dac) as [[[]|e] d]; simpl; [lia|].
    destruct (is_fatal_usb_error e); simpl; lia.
  - unfold is_ready_for_frame. destruct (hb_dac b) as [dac|]; simpl; [|lia].
    destruct (status drain_fuel dac) as [[[]|e] d]; simpl; [lia..|]. by apply (status_error_count_step e (set_dac (Some d) b)).
  - unfold write_frame. destruct (hb_dac b) as [dac|]; simpl; [|lia].
    destruct (status drain_fuel dac) as [[[]|e] d]; simpl; [rewrite write_count; simpl; lia|lia|].
    destruct (is_fatal_usb_error e); simpl; lia.
  - rewrite write_count. lia.
Qed.

(** With a fatal error on record, only the fiftieth missed poll would close. *)
Lemma step_no_close op b w :
  op <> OpConnect -> hb_fatal_disconnect b = true -> 0 <= hb_status_error_count b ->
  hb_status_error_count b + (if is_poll op then 1 else 0) < STATUS_ERROR_LIMIT -> (helios_step op (b, w)).2 = w.
Proof.
  intros Hop Hf H0 Hc. destruct op; simpl in *; try done.
  - unfold disconnect. rewrite Hf. unfold leak_handle. simpl. by destruct (hb_dac b).
  - unfold is_ready_for_frame. destruct (hb_dac b) as [dac|]; [|done].
    destruct (status drain_fuel dac) as [[[]|e] d]; simpl; [done..|]. unfold on_status_error, leak_handle, mark_status_error.
    destruct (is_fatal_usb_error e); [done|]. simpl. unfold wrapu, STATUS_ERROR_LIMIT in *. rewrite Z.mod_small by lia.
    by rewrite (proj2 (Z.leb_gt _ _)) by lia.
Qed.

(** Once an operation has reported that the device is gone, its handle is never
    closed: not by stopping, writing, disconnecting or fewer than fifty failed
    polls, and not when the backend is dropped.  Only connecting anew clears the
    mark. *)
Theorem helios_dead_handle_leaked (ops : list helios_op) b w :
  hb_fatal_disconnect b = true -> OpConnect ∉ ops -> 0 <= hb_status_error_count b ->
  hb_status_error_count b + polls ops < STATUS_ERROR_LIMIT ->
  let s := helios_run ops (b, w) in s.2 = w /\ drop_backend s.1 s.2 = w.
Proof.
  intros Hf Hn H0 Hc. assert (Hw : (helios_run ops (b, w)).2 = w).
  - unfold polls in Hc. revert b w Hf Hn H0 Hc. induction ops as [|op ops IH]; intros b w Hf Hn H0 Hc; [done|].
    apply not_elem_of_cons in Hn as [Hop Hn]. simpl in Hc.
    assert (Hlt : hb_status_error_count b + (if is_poll op then 1 else 0) < STATUS_ERROR_LIMIT) by (destruct (is_poll op); simpl in Hc; lia).
    pose proof (step_count op b w ltac:(done) ltac:(destruct (is_poll op); lia)) as Hs. pose proof (step_no_close op b w ltac:(done) Hf H0 Hlt) as Hw.
    pose proof (kept_fatal _ _ (step_kept op b w ltac:(done)) Hf) as Hf'. simpl. destruct (helios_step op (b, w)) as [b1 w1]. simpl in *. subst w1.
    apply IH; [done|done|lia|]. destruct (is_poll op); simpl in Hc; lia.
  - simpl. split; [done|]. unfold drop_backend, leak_handle. simpl. rewrite Hw. by destruct (hb_dac _).
Qed.

(** *** How long a link lives *)

(** What a poll learns, and the abstract link: alive after a number of misses in a
    row, or lost (and then leaked or closed). *)
Inductive poll_event := Answer | Miss | Dead.

Inductive link := Live (misses : Z) | Lost (leaked : bool).

Definition link_step (l : link) (e : poll_event) : link :=
  match l, e with
  | Lost k, _ => Lost k
  | Live _, Answer => Live 0
  | Live n, Miss => if STATUS_ERROR_LIMIT <=? n + 1 then Lost false else Live (n + 1)
  | Live _, Dead => Lost true
  end.

Definition link_of b : link := match hb_dac b with Some _ => Live (hb_status_error_count b) | None => Lost (hb_fatal_disconnect b) end.

Definition poll_event_of b : poll_event :=
  match hb_dac b with
  | None => Answer
  | Some dac => match (status drain_fuel dac).1 with inl _ => Answer | inr e => if is_fatal_usb_error e then Dead else Miss end
  end.

Fixpoint poll_run (k : nat) (s : HeliosBackend D H * W) : list poll_event * (HeliosBackend D H * W) :=
  match k with
  | O => ([], s)
  | S k => let '(es, s') := poll_run k (helios_step OpPoll s) in (poll_event_of s.1 :: es, s')
  end.

(** A link is alive when it is polled within its budget and nothing fatal is known. *)
Definition live_ok b : Prop := hb_dac b = None \/ 0 <= hb_status_error_count b < STATUS_ERROR_LIMIT /\ hb_fatal_disconnect b = false.

(** What the host sees of a lost link: nothing when it was leaked, one close otherwise. *)
Definition world_ok w (l : link) w' : Prop :=
  match l with Lost false => w' = w \/ exists h, w' = dev_close h w | _ => w' = w end.

Lemma poll_step_refines b w :
  live_ok b -> let s := helios_step OpPoll (b, w) in
  live_ok s.1 /\ link_of s.1 = link_step (link_of b) (poll_event_of b) /\
  (hb_dac b <> None -> world_ok w (link_of s.1) s.2) /\ (hb_dac b = None -> s = (b, w)).
Proof.
  intros Hb. simpl. unfold is_ready_for_frame, link_of, poll_event_of. destruct (hb_dac b) as [dac|] eqn:Hd; simpl;
    [|rewrite Hd; split_and!; [by left|done..]].
  destruct Hb as [Hb|[Hc Hf]]; [congruence|]. unfold STATUS_ERROR_LIMIT in *.
  destruct (status drain_fuel dac) as [[[]|e] d]; simpl; [split_and!; try done; right; simpl; unfold STATUS_ERROR_LIMIT; (split; [lia|done])..|].
  unfold on_status_error, leak_handle, close_handle, mark_status_error, wrapu, STATUS_ERROR_LIMIT.
  destruct (is_fatal_usb_error e); simpl; [split_and!; [by left|done..]|]. rewrite Z.mod_small by lia.
  destruct (Z.leb_spec 50 (hb_status_error_count b + 1)); simpl.
  - rewrite Hf. split_and!; [by left|done| |done]. intros _. destruct d as [dv|dv c]; simpl; [by left|right; eauto].
  - split_and!; [|done..]. right. simpl. unfold STATUS_ERROR_LIMIT. split; [lia|done].
Qed.

Lemma link_lost k es : foldl link_step (Lost k) es = Lost k.
Proof. by induction es. Qed.

Lemma poll_run_lost k b w : hb_dac b = None -> (poll_run k (b, w)).2 = (b, w).
Proof.
  revert b w. induction k as [|k IH]; intros b w Hb; [done|]. cbn [poll_run].
  destruct (poll_step_refines b w ltac:(by left)) as (_ & _ & _ & Hs). rewrite (Hs Hb).
  specialize (IH b w Hb). destruct (poll_run k (b, w)). done.
Qed.

Lemma poll_run_refines k b w :
  live_ok b -> hb_dac b <> None -> let '(es, s) := poll_run k (b, w) in
  link_of s.1 = foldl link_step (link_of b) es /\ world_ok w (link_of s.1) s.2.
Proof.
  revert b w. induction k as [|k IH]; intros b w Hb Hn; [simpl; split; [done|]; unfold link_of; by destruct (hb_dac b)|].
  cbn [poll_run]. destruct (poll_step_refines b w Hb) as (Hl & Hr & Hw & _). specialize (Hw Hn).
  destruct (helios_step OpPoll (b, w)) as [b1 w1]. cbn [fst snd] in *.
  destruct (hb_dac b1) as [d|] eqn:Hd.
  - specialize (IH b1 w1 Hl ltac:(congruence)). destruct (poll_run k (b1, w1)) as [es s]. destruct IH as [H1 H2]. simpl. rewrite <- Hr.
    split; [done|]. unfold link_of at 1 in Hw. rewrite Hd in Hw. simpl in Hw. by subst w1.
  - pose proof (poll_run_lost k b1 w1 Hd) as Hp. destruct (poll_run k (b1, w1)) as [es s]. simpl in Hp. subst s. simpl.
    rewrite <- Hr. split; [|done]. unfold link_of. rewrite Hd. by rewrite link_lost.
Qed.

Definition fifty_misses (es : list poll_event) : Prop := exists pre suf, es = pre ++ replicate 50 Miss ++ suf.

(** A run of misses from a live link. *)
Lemma link_misses n m : 0 <= m -> 0 < STATUS_ERROR_LIMIT - m ->
  foldl link_step (Live m) (replicate n Miss) = if decide (m + Z.of_nat n < STATUS_ERROR_LIMIT) then Live (m + Z.of_nat n) else Lost false.
Proof.
  revert m. induction n as [|n IH]; intros m Hm Hl; [simpl; rewrite decide_True by lia; f_equal; lia|]. cbn [replicate foldl link_step].
  destruct (Z.leb_spec STATUS_ERROR_LIMIT (m + 1)).
  - rewrite link_lost, decide_False by lia. done.
  - rewrite IH by lia. case_decide; [rewrite decide_True by lia; f_equal; lia|by rewrite decide_False by lia].
Qed.

(** The state of the link says how the events end. *)
Lemma link_trace es :
  match foldl link_step (Live 0) es with
  | Live n => 0 <= n < STATUS_ERROR_LIMIT /\ (Dead ∉ es) /\ exists pre, es = pre ++ replicate (Z.to_nat n) Miss
  | Lost true => Dead ∈ es
  | Lost false => fifty_misses es
  end.
Proof.
  induction es as [|e es IH] using rev_ind; [simpl; split_and!; [done..|apply not_elem_of_nil|by exists []]|].
  rewrite foldl_app. cbn [foldl]. destruct (foldl link_step (Live 0) es) as [n|[]].
  - destruct IH as (Hn & Hd & pre & Hpre). destruct e; cbn [link_step].
    + split_and!; [done..|set_solver|]. exists (es ++ [Answer]). by rewrite app_nil_r.
    + unfold STATUS_ERROR_LIMIT in *. assert (Hr : es ++ [Miss] = pre ++ replicate (Z.to_nat (n + 1)) Miss).
      { rewrite Hpre, <- app_assoc. f_equal. replace (Z.to_nat (n + 1)) with (Z.to_nat n + 1)%nat by lia. by rewrite replicate_add. }
      destruct (Z.leb_spec 50 (n + 1)); [|split_and!; [lia..|set_solver|by exists pre]].
      exists pre, []. rewrite Hr, app_nil_r. do 2 f_equal. lia.
    + set_solver.
  - set_solver.
  - destruct IH as (pre & suf & ->). exists pre, (suf ++ [e]). by rewrite <- !app_assoc.
Qed.

Lemma link_alive_iff es : (exists n, foldl link_step (Live 0) es = Live n) <-> (Dead ∉ es) /\ ~ fifty_misses es.
Proof.
  pose proof (link_trace es) as Ht. split.
  - intros [n Hn]. rewrite Hn in Ht. destruct Ht as (_ & Hd & _). split; [done|]. intros (pre & suf & ->). revert Hn.
    rewrite !foldl_app. pose proof (link_trace pre) as Hp. destruct (foldl link_step (Live 0) pre) as [m|k]; [|by rewrite !link_lost].
    destruct Hp as (Hm & _). rewrite link_misses by lia. unfold STATUS_ERROR_LIMIT in *. rewrite decide_False by lia. by rewrite link_lost.
  - intros [Hd Hf]. destruct (foldl link_step (Live 0) es) as [n|[]]; [by eexists|done|done].
Qed.

(** C26. A polled link survives exactly as long as no poll reports a fatal error and no
    fifty polls in a row fail: one answer in between starts the count again.  The
    host sees the handle closed only when fifty misses ended it, never after a
    fatal error. *)
Theorem helios_link_lifetime (k : nat) b w :
  hb_dac b <> None -> hb_status_error_count b = 0 -> hb_fatal_disconnect b = false ->
  let '(es, (b', w')) := poll_run k (b, w) in
  (hb_dac b' <> None <-> (Dead ∉ es) /\ ~ fifty_misses es) /\
  (hb_fatal_disconnect b' = true \/ hb_dac b' <> None -> w' = w) /\
  (w' <> w -> fifty_misses es /\ exists h, w' = dev_close h w).
Proof.
  intros Hn Hc Hf. pose proof (poll_run_refines k b w) as Hr. destruct (poll_run k (b, w)) as [es [b' w']].
  destruct Hr as [Hl Hw]; [right; unfold STATUS_ERROR_LIMIT; rewrite Hc; split; [lia|done]|done|]. cbn [fst snd] in *.
  unfold link_of at 2 in Hl. destruct (hb_dac b) as [d|]; [|done]. rewrite Hc in Hl.
  pose proof (link_alive_iff es) as Ha. pose proof (link_trace es) as Ht. rewrite <- Hl in Ha, Ht.
  unfold link_of in Ha, Ht, Hw. destruct (hb_dac b') as [d'|]; cbn [world_ok] in Hw.
  - split_and!; [|done|done]. rewrite <- Ha. split; [by eexists|done].
  - destruct (hb_fatal_disconnect b'); cbn [world_ok] in Hw.
    + split_and!; [|done|done]. rewrite <- Ha. split; [done|by intros [? ?]].
    + split_and!; [rewrite <- Ha; split; [done|by intros [? ?]]|by intros [?|?]|].
      intros Hneq. split; [done|]. destruct Hw as [?|?]; done.
Qed.
End theorems.

(** ** Writing, transfer by transfer *)

Section logged.
Context {W D H : Type} `{!UsbEndpoints H}.
Variable drain_fuel : nat.
Implicit Types (b : HeliosBackend D (Logged H)).

(** C25. Writing a frame to a connected DAC makes one bulk transfer, or three around a
    stall (two when the stall cannot be cleared); what it transfers is a frame the
    device reads as the given points, cut to 4095 and without the last one where the
    transfer would be of whole packets ([frame_on_wire]); it
    reports [Written] exactly when the last transfer took the whole frame, it never
    blocks, and an error that means the device is gone is reported as a
    disconnect and remembered. *)
Theorem helios_write_outcome b pps points d fw (h : Logged H) :
  hb_dac b = Some (Open d (mkComm h fw)) -> hb_caps b = helios_capabilities -> Forall point_wf points ->
  exists buf tail r h',
    let '(b', res) := write_frame_after_ready pps points b in
    frame_on_wire pps points buf /\ hb_dac b' = Some (Open d (mkComm h' fw)) /\ log h' = log h ++ tail /\
    bulk_outcome buf tail r /\
    (res = Ok Written <-> last tail = Some (BulkOut ENDPOINT_BULK_OUT buf (inl (length buf)))) /\
    (forall e, r = inr e -> exists err, res = Err err /\ is_disconnected err = is_fatal_usb_error e /\
      hb_fatal_disconnect b' = hb_fatal_disconnect b || is_fatal_usb_error e).
Proof.
  intros Hd Hc Hp. unfold write_frame_after_ready.
  destruct (prepare_frame_spec pps points b Hc) as (Hd1 & Hf & _ & _ & _ & Hbuf).
  destruct (prepare_frame_buffer pps points b) as [b1 x]. cbn [fst] in *. rewrite Hd1, Hd.
  set (buf := hb_frame_buffer b1) in *. destruct (write_bulk_all_outcome buf h) as (tail & Hlog & Hout).
  pose proof (bulk_outcome_whole _ _ _ Hout) as Hw. unfold write_frame_buffer, on_comm, comm_write_frame_buffer. cbn [cm_handle cm_firmware_version].
  destruct (write_bulk_all buf h) as [r h'] eqn:Hr. cbn [fst snd] in *. exists buf, tail, r, h'.
  assert (Hwire : frame_on_wire pps points buf) by (rewrite Hbuf; by apply encoded_on_wire).
  destruct r as [[]|e]; simpl; split_and!; try done.
  - rewrite <- Hw. split; done.
  - by destruct (is_fatal_usb_error e).
  - rewrite <- Hw. split; done.
  - intros e' [= <-]. eexists. split; [done|]. unfold map_err_with_context. rewrite <- Hf.
    destruct e as [|[]| |]; simpl; by rewrite ?orb_true_r, ?orb_false_r.
Qed.

(** A frame offered to a DAC that says it is busy is not transferred, and the
    caller is told to try again. *)
Lemma helios_busy_blocks b pps points d fw h h' :
  hb_dac b = Some (Open d (mkComm h fw)) -> comm_status drain_fuel h = (inl NotReady, h') ->
  write_frame drain_fuel pps points b = (set_dac (Some (Open d (mkComm h' fw))) b, Ok WouldBlock).
Proof. intros Hd Hs. unfold write_frame, status, on_comm. rewrite Hd. cbn [cm_handle]. by rewrite Hs. Qed.
End logged.

(** ** Identities *)

(** Every device a scan reports belongs to the discoverer's name space, answers to
    the id its port had before names were used, and its name, when it has one, has
    a slug. *)
Lemma build_info_ids name loc :
  let info := build_device_info name loc in
  (exists rest, split_once (di_stable_id info) = Some (PREFIX, rest)) /\
  format_stable_id_from_location loc ∈ di_stable_id info :: di_legacy_ids info /\ di_usb_address info = Some loc.
Proof.
  assert (Hs : forall rest, split_once (PREFIX +:+ ":" +:+ rest) = Some (PREFIX, rest)) by (intros; by apply (split_once_app PREFIX)).
  assert (Hl : format_stable_id_from_location loc = PREFIX +:+ ":" +:+ ("usb:" +:+ loc)) by done.
  unfold build_device_info. destruct name as [n|]; cbn -[format_stable_id_from_name format_stable_id_from_location PREFIX split_once];
    case_decide as Hd; cbn -[format_stable_id_from_name format_stable_id_from_location PREFIX split_once] in *.
  - rewrite Hd. split_and!; [exists ("usb:" +:+ loc); rewrite Hl; apply Hs|apply list_elem_of_here|done].
  - split_and!; [exists (text (slugify_device_id n)); apply Hs|apply list_elem_of_further, list_elem_of_here|done].
  - split_and!; [exists ("usb:" +:+ loc); rewrite Hl; apply Hs|apply list_elem_of_here|done].
  - done.
Qed.

(** ** A session with a scripted DAC *)
Module HeliosDemo.
Import Usb.Fake.

(** The replies of a working device to the firmware probe and to a status poll. *)
Definition firmware_7 : list Z := [0x84; 7; 0; 0; 0].
Definition ready : list Z := [0x83; 1].

(** The first read of a connection is the drain's, which finds nothing. *)
Definition script (rest : list (list Z + rusb_error)) : FakeUsb := mkFake [] (inr UsbTimeout :: inl firmware_7 :: rest).

Definition left_dac : FakeDevice := mkDevice (HELIOS_VID, HELIOS_PID) [2; 3] (script [inl ready]).
Definition right_dac : FakeDevice := mkDevice (HELIOS_VID, HELIOS_PID) [4] (script []).
Definition host : FakeHost := mkHost [right_dac; left_dac] 0.

Definition fresh : HeliosBackend FakeDevice (Logged FakeUsb) := from_dac (Idle left_dac).
Definition stalled : Logged FakeUsb := mkLogged (mkFake [inr UsbPipe] []) [].
Definition connected : HeliosBackend FakeDevice (Logged FakeUsb) := from_dac (Open (Some left_dac) (mkComm stalled (Some 7))).
Definition silent : HeliosBackend FakeDevice (Logged FakeUsb) :=
  from_dac (Open (Some left_dac) (mkComm (mkLogged (mkFake [] []) []) (Some 7))).
Definition points : list LaserPoint := replicate 45 default_point.

Example connects_and_writes :
  (helios_run 4 [OpConnect; OpWrite 30000 points] (fresh, host)).1.(hb_dac) ≫= (fun d => Some (usb_location d)) = Some "1:2.3"%string.
Proof. vm_compute. reflexivity. Qed.

Lemma helios_write_outcome_witness :
  exists buf tail r h',
    let '(b', res) := write_frame_after_ready 30000 points connected in
    frame_on_wire 30000 points buf /\ hb_dac b' = Some (Open (Some left_dac) (mkComm h' (Some 7))) /\ log h' = log stalled ++ tail /\
    bulk_outcome buf tail r /\
    (res = Ok Written <-> last tail = Some (BulkOut ENDPOINT_BULK_OUT buf (inl (length buf)))) /\
    (forall e, r = inr e -> exists err, res = Err err /\ is_disconnected err = is_fatal_usb_error e /\
      hb_fatal_disconnect b' = hb_fatal_disconnect connected || is_fatal_usb_error e).
Proof.
  refine (helios_write_outcome connected 30000 points (Some left_dac) (Some 7) stalled eq_refl eq_refl _).
  apply Forall_replicate. unfold point_wf, in_u, umax. simpl. split_and!; done.
Defined.

Lemma helios_stays_on_port_witness :
  let b' := (helios_run 4 ([OpConnect] ++ [OpDisconnect; OpConnect]) (fresh, host)).1 in
  hb_usb_location b' = Some "1:2.3"%string /\ forall dac, hb_dac b' = Some dac -> usb_location dac = "1:2.3"%string.
Proof.
  refine (helios_stays_on_port 4 [OpConnect] [OpDisconnect; OpConnect] fresh host "1:2.3" (or_intror (ex_intro _ _ eq_refl)) _).
  vm_compute. reflexivity.
Defined.

Lemma helios_dead_handle_leaked_witness :
  let s := helios_run 4 [OpStop; OpPoll; OpDisconnect] (set_fatal_disconnect true connected, host) in
  s.2 = host /\ drop_backend s.1 s.2 = host.
Proof.
  refine (helios_dead_handle_leaked 4 [OpStop; OpPoll; OpDisconnect] (set_fatal_disconnect true connected) host eq_refl _ _ _); [|done..].
  apply not_elem_of_cons; split; [done|]. apply not_elem_of_cons; split; [done|]. apply not_elem_of_cons; split; [done|]. apply not_elem_of_nil.
Defined.

Lemma helios_link_lifetime_witness :
  let '(es, (b', w')) := poll_run 4 60 (silent, host) in
  (hb_dac b' <> None <-> (Dead ∉ es) /\ ~ fifty_misses es) /\
  (hb_fatal_disconnect b' = true \/ hb_dac b' <> None -> w' = host) /\
  (w' <> host -> fifty_misses es /\ exists h, w' = dev_close h host).
Proof. exact (helios_link_lifetime 4 60 silent host ltac:(done) eq_refl eq_refl). Defined.

(** Sixty polls that time out close the handle, once. *)
Example misses_close : fh_closed (poll_run 4 60 (silent, host)).2.2 = 1%nat.
Proof. vm_compute. reflexivity. Qed.

(** Connecting again without disconnecting keeps the dead handle and forgets that
    it was dead, so that the next disconnect closes it. *)
Example reconnect_forgets :
  (helios_run 4 [OpConnect; OpDisconnect] (set_fatal_disconnect true connected, host)).2.(fh_closed) = 1%nat.
Proof. vm_compute. reflexivity. Qed.
End HeliosDemo.
