(* ===== verification/CubeUsb.v ===== *)
(** * The LaserCube USB DAC

    Models [src/src/protocols/lasercube_usb/]: samples ([protocol.rs]), the stream
    with its control round trips, rate programming and chunked data transfers
    ([dac/stream.rs], [dac/mod.rs]), the backend ([backend.rs], [error.rs]) and
    discovery ([mod.rs], [discovery.rs]).  The stream is a computation over its
    handle; a backend's state goes with the host, where closing a handle shows. *)

From stdpp Require Import strings pretty.
From S2P Require Import Prelude Floats Point Presentation Session Backend Estimators Bytes LaserCube Usb Discovery.

#[local] Open Scope Z_scope.

(** ** Samples *)

Definition CONTROL_TIMEOUT : Z := millis 1000.
Definition LASERDOCK_VID : Z := 0x1fc9.
Definition LASERDOCK_PID : Z := 0x04d8.
Definition CONTROL_INTERFACE : Z := 0.
Definition DATA_INTERFACE : Z := 1.
Definition DATA_ALT_SETTING : Z := 1.
Definition ENDPOINT_CONTROL_OUT : Z := 0x01.
Definition ENDPOINT_CONTROL_IN : Z := 0x81.
Definition ENDPOINT_DATA_OUT : Z := 0x03.
Definition CONTROL_PACKET_SIZE : nat := 64.
Definition CMD_SET_OUTPUT : Z := 0x80.
Definition CMD_GET_OUTPUT : Z := 0x81.
Definition CMD_SET_DAC_RATE : Z := 0x82.
Definition CMD_GET_DAC_RATE : Z := 0x83.
Definition CMD_GET_MAX_DAC_RATE : Z := 0x84.
Definition CMD_GET_SAMPLE_ELEMENT_COUNT : Z := 0x85.
Definition CMD_GET_MIN_DAC_VALUE : Z := 0x87.
Definition CMD_GET_MAX_DAC_VALUE : Z := 0x88.
Definition CMD_GET_RINGBUFFER_SAMPLE_COUNT : Z := 0x89.
Definition CMD_GET_RINGBUFFER_EMPTY_SAMPLE_COUNT : Z := 0x8A.
Definition CMD_GET_VERSION_MAJOR : Z := 0x8B.
Definition CMD_GET_VERSION_MINOR : Z := 0x8C.
Definition CMD_CLEAR_RINGBUFFER : Z := 0x8D.
Definition CMD_GET_BULK_PACKET_SAMPLE_COUNT : Z := 0x8E.
Definition CMD_RUNNER_MODE : Z := 0xC0.
Definition RUNNER_MODE_SUB_ENABLE : Z := 0x01.
Definition RUNNER_MODE_SUB_RUN : Z := 0x09.
Definition MAX_COORDINATE_VALUE : Z := 4095.
Definition SAMPLE_SIZE_BYTES : nat := 8.
Definition DATA_TIMEOUT : Z := 0.
Definition DEFAULT_FLIP_X : bool := true.
Definition DEFAULT_FLIP_Y : bool := false.

Record Sample := mkSample { sa_rg : Z; sa_b : Z; sa_x : Z; sa_y : Z }.

Definition sample_new (x y r g b : Z) : Sample :=
  mkSample (Z.lor r (wrapu 16 (Z.shiftl g 8))) b (Z.min x MAX_COORDINATE_VALUE) (Z.min y MAX_COORDINATE_VALUE).

Definition sample_blank : Sample := sample_new 2048 2048 0 0 0.

Definition sample_red (s : Sample) : Z := wrapu 8 (Z.land (sa_rg s) 0xFF).
Definition sample_green (s : Sample) : Z := wrapu 8 (Z.land (Z.shiftr (sa_rg s) 8) 0xFF).
Definition sample_blue (s : Sample) : Z := wrapu 8 (Z.land (sa_b s) 0xFF).

(** The subtraction is of 16-bit numbers; it wraps where the build does not check. *)
Definition flip_x (s : Sample) : Sample := mkSample (sa_rg s) (sa_b s) (wrapu 16 (MAX_COORDINATE_VALUE - sa_x s)) (sa_y s).
Definition flip_y (s : Sample) : Sample := mkSample (sa_rg s) (sa_b s) (sa_x s) (wrapu 16 (MAX_COORDINATE_VALUE - sa_y s)).

Definition sample_bytes (s : Sample) : list Z := le_bytes 2 (sa_rg s) ++ le_bytes 2 (sa_b s) ++ le_bytes 2 (sa_x s) ++ le_bytes 2 (sa_y s).

(** [From<&LaserPoint> for Sample]; the dimmer is the network converter's. *)
Definition sample_from (p : LaserPoint) : Sample :=
  sample_new (coord_to_u12 (lp_x p)) (coord_to_u12 (lp_y p))
    (color_to_u8 (dim (lp_intensity p) (lp_r p))) (color_to_u8 (dim (lp_intensity p) (lp_g p)))
    (color_to_u8 (dim (lp_intensity p) (lp_b p))).

(** ** The device as the stream knows it *)

Inductive UsbError :=
  | ErrUsb (e : rusb_error)
  | ErrDeviceNotOpened
  | ErrInvalidResponse.

#[export] Instance UsbError_eq_dec : EqDecision UsbError.
Proof. solve_decision. Defined.

Inductive DeviceStatus := Unknown | Initialized.

#[export] Instance DeviceStatus_eq_dec : EqDecision DeviceStatus.
Proof. solve_decision. Defined.

Record FirmwareVersion := mkVersion { fv_major : Z; fv_minor : Z }.

Record DeviceInfo := mkDeviceInfo {
  in_firmware_version : FirmwareVersion;
  in_max_dac_rate : Z;
  in_min_dac_value : Z;
  in_max_dac_value : Z;
  in_sample_element_count : Z;
  in_bulk_packet_sample_count : Z;
  in_current_rate : Z;
  in_ringbuffer_capacity : Z;
  in_ringbuffer_free_space : Z;
  in_output_enabled : bool;
}.

Definition info_default : DeviceInfo := mkDeviceInfo (mkVersion 0 0) 0 0 0 0 0 0 0 0 false.

Definition info_eta (i : DeviceInfo) : DeviceInfo :=
  mkDeviceInfo (in_firmware_version i) (in_max_dac_rate i) (in_min_dac_value i) (in_max_dac_value i) (in_sample_element_count i)
    (in_bulk_packet_sample_count i) (in_current_rate i) (in_ringbuffer_capacity i) (in_ringbuffer_free_space i) (in_output_enabled i).

Definition set_firmware_version (v : FirmwareVersion) i := ltac:(update_field info_eta in_firmware_version v i).
Definition set_max_dac_rate (v : Z) i := ltac:(update_field info_eta in_max_dac_rate v i).
Definition set_min_dac_value (v : Z) i := ltac:(update_field info_eta in_min_dac_value v i).
Definition set_max_dac_value (v : Z) i := ltac:(update_field info_eta in_max_dac_value v i).
Definition set_sample_element_count (v : Z) i := ltac:(update_field info_eta in_sample_element_count v i).
Definition set_bulk_packet_sample_count (v : Z) i := ltac:(update_field info_eta in_bulk_packet_sample_count v i).
Definition set_current_rate (v : Z) i := ltac:(update_field info_eta in_current_rate v i).
Definition set_ringbuffer_capacity (v : Z) i := ltac:(update_field info_eta in_ringbuffer_capacity v i).
Definition set_ringbuffer_free_space (v : Z) i := ltac:(update_field info_eta in_ringbuffer_free_space v i).
Definition set_output_enabled (v : bool) i := ltac:(update_field info_eta in_output_enabled v i).

(** ** The stream *)

Record Stream (H : Type) := mkStream {
  st_handle : H;
  st_info : DeviceInfo;
  st_status : DeviceStatus;
  st_flip_x : bool;
  st_flip_y : bool;
  st_send_buffer : list Z;
}.
Arguments mkStream {H}.
Arguments st_handle {H}.
Arguments st_info {H}.
Arguments st_status {H}.
Arguments st_flip_x {H}.
Arguments st_flip_y {H}.
Arguments st_send_buffer {H}.

(** [slice::chunks]: pieces of [n] elements, the last one shorter. *)
Fixpoint chunks_fuel {A} (fuel n : nat) (l : list A) : list (list A) :=
  match fuel, l with
  | S fuel, _ :: _ => take n l :: chunks_fuel fuel n (drop n l)
  | _, _ => []
  end.

Definition chunks {A} (n : nat) (l : list A) : list (list A) := chunks_fuel (length l) n l.

Section stream.
Context {H : Type} `{!UsbEndpoints H}.

#[local] Abbreviation T := (U (Stream H) UsbError).

Definition with_handle (h : H) (s : Stream H) : Stream H :=
  mkStream h (st_info s) (st_status s) (st_flip_x s) (st_flip_y s) (st_send_buffer s).
Definition with_info (i : DeviceInfo) (s : Stream H) : Stream H :=
  mkStream (st_handle s) i (st_status s) (st_flip_x s) (st_flip_y s) (st_send_buffer s).
Definition with_status (v : DeviceStatus) (s : Stream H) : Stream H :=
  mkStream (st_handle s) (st_info s) v (st_flip_x s) (st_flip_y s) (st_send_buffer s).
Definition with_send_buffer (v : list Z) (s : Stream H) : Stream H :=
  mkStream (st_handle s) (st_info s) (st_status s) (st_flip_x s) (st_flip_y s) v.

(** Transfers of the handle, and updates of the device information. *)
Definition transfer {A} (m : H -> (A + rusb_error) * H) : T A := fun s =>
  match m (st_handle s) with (inl a, h) => (inl a, with_handle h s) | (inr e, h) => (inr (ErrUsb e), with_handle h s) end.

Definition update (f : DeviceInfo -> DeviceInfo) : T unit := fun s => (inl tt, with_info (f (st_info s)) s).

Definition get_state : T (Stream H) := fun s => (inl s, s).

(** *** Control round trips *)

Definition send_control (data : list Z) : T nat :=
  n ← transfer (write_bulk ENDPOINT_CONTROL_OUT data CONTROL_TIMEOUT);
  if decide (n = length data) then mret n else throw (ErrUsb UsbIo).

(** The whole 64-byte response. *)
Definition receive_control : T (list Z) :=
  data ← transfer (read_bulk ENDPOINT_CONTROL_IN CONTROL_PACKET_SIZE CONTROL_TIMEOUT);
  if decide (length data = CONTROL_PACKET_SIZE) then mret data else throw ErrInvalidResponse.

Definition byte_at (data : list Z) (i : nat) : Z := default 0 (data !! i).

(** A request whose response's status byte is zero. *)
Definition round_trip (packet : list Z) : T (list Z) :=
  _ ← send_control packet;
  response ← receive_control;
  if byte_at response 1 =? 0 then mret response else throw ErrInvalidResponse.

Definition get_u8 (command : Z) : T Z := response ← round_trip [command]; mret (byte_at response 2).

Definition set_u8 (command value : Z) : T unit := _ ← round_trip [command; value]; mret tt.

Definition get_u32 (command : Z) : T Z :=
  response ← round_trip [command];
  mret (le_value [byte_at response 2; byte_at response 3; byte_at response 4; byte_at response 5]).

Definition set_u32 (command value : Z) : T unit := _ ← round_trip (command :: le_bytes 4 value); mret tt.

(** *** Device state *)

Definition runner_packets : list (list Z) :=
  [[CMD_RUNNER_MODE; RUNNER_MODE_SUB_ENABLE; 1]; [CMD_RUNNER_MODE; RUNNER_MODE_SUB_ENABLE; 0];
   [CMD_RUNNER_MODE; RUNNER_MODE_SUB_RUN; 1]; [CMD_RUNNER_MODE; RUNNER_MODE_SUB_RUN; 0]].

Definition clear_runner_mode (h : H) : H :=
  foldl (fun h packet =>
    let h := (write_bulk ENDPOINT_CONTROL_OUT packet CONTROL_TIMEOUT h).2 in
    (read_bulk ENDPOINT_CONTROL_IN CONTROL_PACKET_SIZE CONTROL_TIMEOUT h).2) h runner_packets.

Definition refresh_device_info : T unit :=
  major ← get_u32 CMD_GET_VERSION_MAJOR;
  minor ← get_u32 CMD_GET_VERSION_MINOR;
  _ ← update (set_firmware_version (mkVersion major minor));
  v ← get_u32 CMD_GET_MAX_DAC_RATE; _ ← update (set_max_dac_rate v);
  v ← get_u32 CMD_GET_MIN_DAC_VALUE; _ ← update (set_min_dac_value v);
  v ← get_u32 CMD_GET_MAX_DAC_VALUE; _ ← update (set_max_dac_value v);
  v ← get_u32 CMD_GET_SAMPLE_ELEMENT_COUNT; _ ← update (set_sample_element_count v);
  v ← get_u32 CMD_GET_BULK_PACKET_SAMPLE_COUNT; _ ← update (set_bulk_packet_sample_count v);
  v ← get_u32 CMD_GET_DAC_RATE; _ ← update (set_current_rate v);
  v ← get_u32 CMD_GET_RINGBUFFER_SAMPLE_COUNT; _ ← update (set_ringbuffer_capacity v);
  v ← get_u32 CMD_GET_RINGBUFFER_EMPTY_SAMPLE_COUNT; _ ← update (set_ringbuffer_free_space v);
  v ← get_u8 CMD_GET_OUTPUT; update (set_output_enabled (v =? 1)).

Definition enable_output : T unit := _ ← set_u8 CMD_SET_OUTPUT 0x01; update (set_output_enabled true).

Definition disable_output : T unit := _ ← set_u8 CMD_SET_OUTPUT 0x00; update (set_output_enabled false).

Definition set_rate (rate : Z) : T unit := _ ← set_u32 CMD_SET_DAC_RATE rate; update (set_current_rate rate).

Definition clear_ringbuffer : T unit :=
  _ ← set_u8 CMD_CLEAR_RINGBUFFER 0x00; update (fun i => set_ringbuffer_free_space (in_ringbuffer_capacity i) i).

Definition ringbuffer_free_space : T Z :=
  space ← get_u32 CMD_GET_RINGBUFFER_EMPTY_SAMPLE_COUNT; _ ← update (set_ringbuffer_free_space space); mret space.

Definition stop : T unit := _ ← disable_output; clear_ringbuffer.

(** *** Data *)

Definition send_data_to_endpoint (data : list Z) : T unit :=
  n ← transfer (write_bulk ENDPOINT_DATA_OUT data DATA_TIMEOUT);
  if decide (n = length data) then mret tt else throw (ErrUsb UsbIo).

Fixpoint send_chunks (cs : list (list Z)) : T unit :=
  match cs with [] => mret tt | c :: cs => _ ← send_data_to_endpoint c; send_chunks cs end.

Definition flipped (fx fy : bool) (s : Sample) : Sample :=
  let s := if fx then flip_x s else s in if fy then flip_y s else s.

Definition encode_samples (fx fy : bool) (samples : list Sample) : list Z := mjoin ((fun s => sample_bytes (flipped fx fy s)) <$> samples).

Definition send_samples (samples : list Sample) : T unit :=
  s ← get_state;
  if decide (st_status s = Initialized) then
    let buffer := encode_samples (st_flip_x s) (st_flip_y s) samples in
    let chunk_bytes := (Z.to_nat (in_bulk_packet_sample_count (st_info s)) * SAMPLE_SIZE_BYTES)%nat in
    _ ← (fun s => (inl tt, with_send_buffer buffer s));
    if decide (chunk_bytes = 0)%nat then send_data_to_endpoint buffer else send_chunks (chunks chunk_bytes buffer)
  else throw ErrDeviceNotOpened.

Definition effective_rate (rate : Z) (i : DeviceInfo) : Z :=
  if 0 <? in_max_dac_rate i then Z.min rate (in_max_dac_rate i) else rate.

Definition write_frame (samples : list Sample) (rate : Z) : T Z :=
  s ← get_state;
  let rate := effective_rate rate (st_info s) in
  _ ← if in_current_rate (st_info s) =? rate then mret tt else set_rate rate;
  _ ← send_samples samples;
  mret rate.
End stream.

(** ** Opening and dropping a stream *)

Section host.
Context {W D H : Type} `{!UsbEndpoints H} `{!UsbHost W D H}.

(** [Drop]: stop and release, whatever they report; then the handle closes. *)
Definition release_all (s : Stream H) : H :=
  let s := ignore stop s in
  let h := (release_interface DATA_INTERFACE (st_handle s)).2 in
  (release_interface CONTROL_INTERFACE h).2.

Definition drop_stream (s : Stream H) (w : W) : W := dev_close (release_all s) w.

Definition claim_all : U H rusb_error unit :=
  _ ← claim_interface CONTROL_INTERFACE;
  _ ← claim_interface DATA_INTERFACE;
  set_alternate_setting DATA_INTERFACE DATA_ALT_SETTING.

Definition new_stream (h : H) : Stream H := mkStream h info_default Unknown DEFAULT_FLIP_X DEFAULT_FLIP_Y [].

(** [Stream::open]. *)
Definition stream_open (device : D) (w : W) : (Stream H + UsbError) * W :=
  match dev_open device w with
  | (inr e, w) => (inr (ErrUsb e), w)
  | (inl h, w) =>
      match claim_all h with
      | (inr e, h) => (inr (ErrUsb e), dev_close h w)
      | (inl _, h) =>
          match refresh_device_info (new_stream (clear_runner_mode h)) with
          | (inr e, s) => (inr e, drop_stream s w)
          | (inl _, s) => (inl (with_status Initialized s), w)
          end
      end
  end.

(** ** Enumeration *)

(** [list_devices]: a descriptor that cannot be read fails the whole list. *)
Fixpoint list_laserdocks (ds : list D) : list D + UsbError :=
  match ds with
  | [] => inl []
  | d :: ds =>
      match device_descriptor d with
      | inr e => inr (ErrUsb e)
      | inl (vid, pid, _) =>
          match list_laserdocks ds with
          | inl rest => inl (if (vid =? LASERDOCK_VID) && (pid =? LASERDOCK_PID) then d :: rest else rest)
          | inr e => inr e
          end
      end
  end.

Definition list_devices (w : W) : (list D + UsbError) * W :=
  match devices w with (inl ds, w) => (list_laserdocks ds, w) | (inr e, w) => (inr (ErrUsb e), w) end.

Definition enumerate (w : W) : (list D + UsbError) * W :=
  match context_new w with (inl _, w) => list_devices w | (inr e, w) => (inr (ErrUsb e), w) end.

Definition discover_devices (w : W) : result (list D) * W :=
  match enumerate w with (inl ds, w) => (Ok ds, w) | (inr _, w) => (Err (ErrBackend "lasercube usb"), w) end.

(** ** The backend *)

Record LaserCubeUsbBackend := mkCubeUsb {
  cu_device : option D;
  cu_stream : option (Stream H);
  cu_caps : DacCapabilities;
  cu_point_buffer : list Sample;
  cu_estimator : SoftwareDecay.SoftwareDecayEstimator;
}.

Implicit Types b : LaserCubeUsbBackend.

Definition cube_usb_new (now : Z) (device : D) : LaserCubeUsbBackend :=
  mkCubeUsb (Some device) None lasercube_usb_capabilities [] (SoftwareDecay.new now).

Definition from_stream (now : Z) (s : Stream H) : LaserCubeUsbBackend :=
  mkCubeUsb None (Some s) lasercube_usb_capabilities [] (SoftwareDecay.new now).

Definition set_device (v : option D) b : LaserCubeUsbBackend := mkCubeUsb v (cu_stream b) (cu_caps b) (cu_point_buffer b) (cu_estimator b).
Definition set_stream (v : option (Stream H)) b : LaserCubeUsbBackend := mkCubeUsb (cu_device b) v (cu_caps b) (cu_point_buffer b) (cu_estimator b).
Definition set_caps (v : DacCapabilities) b : LaserCubeUsbBackend := mkCubeUsb (cu_device b) (cu_stream b) v (cu_point_buffer b) (cu_estimator b).
Definition set_point_buffer (v : list Sample) b : LaserCubeUsbBackend := mkCubeUsb (cu_device b) (cu_stream b) (cu_caps b) v (cu_estimator b).
Definition set_estimator (v : SoftwareDecay.SoftwareDecayEstimator) b : LaserCubeUsbBackend :=
  mkCubeUsb (cu_device b) (cu_stream b) (cu_caps b) (cu_point_buffer b) v.

Inductive StreamErrorClass := Fatal | Transient.

Definition classify_stream_error (e : UsbError) : StreamErrorClass :=
  match e with
  | ErrUsb inner => if is_fatal_rusb inner then Fatal else Transient
  | ErrDeviceNotOpened => Fatal
  | ErrInvalidResponse => Transient
  end.

Definition map_open_error (e : UsbError) : Error :=
  match e with ErrUsb UsbAccess => ErrPermissionDenied "laser-cube usb" | _ => ErrBackend "laser-cube usb" end.

(** [handle_stream_error]: [s] is the stream after the failed operation. *)
Definition handle_stream_error (e : UsbError) (s : Stream H) b (w : W) : (LaserCubeUsbBackend * W) * Error :=
  match classify_stream_error e with
  | Fatal => ((set_stream None b, drop_stream s w), ErrDisconnected "USB device error")
  | Transient => ((set_stream (Some s) b, w), ErrBackend "laser-cube usb")
  end.

(** *** [DacBackend] *)

Definition connect b (w : W) : (LaserCubeUsbBackend * W) * result unit :=
  match cu_stream b, cu_device b with
  | Some _, _ => ((b, w), Ok tt)
  | None, None => ((b, w), Err (ErrDisconnected "No device available"))
  | None, Some device =>
      let b := set_device None b in
      match stream_open device w with
      | (inr e, w) => ((b, w), Err (map_open_error e))
      | (inl s, w) =>
          match enable_output s with
          | (inr e, s) => ((b, drop_stream s w), Err (map_open_error e))
          | (inl _, s) =>
              let rate := in_max_dac_rate (st_info s) in
              let c := cu_caps b in
              let c := if 0 <? rate then mkCaps (pps_min c) rate (max_points_per_chunk c) (output_model c) else c in
              ((set_stream (Some s) (set_caps c b), w), Ok tt)
          end
      end
  end.

Definition disconnect b (w : W) : (LaserCubeUsbBackend * W) * result unit :=
  ((set_stream None b, match cu_stream b with Some s => drop_stream (ignore stop s) w | None => w end), Ok tt).

Definition is_connected b : bool := match cu_stream b with Some _ => true | None => false end.

(** A stream operation whose error is classified. *)
Definition on_stream (m : U (Stream H) UsbError unit) b (w : W) : (LaserCubeUsbBackend * W) * result unit :=
  match cu_stream b with
  | None => ((b, w), Ok tt)
  | Some s =>
      match m s with
      | (inl _, s) => ((set_stream (Some s) b, w), Ok tt)
      | (inr e, s) => let '(bw, e) := handle_stream_error e s b w in (bw, Err e)
      end
  end.

Definition backend_stop b (w : W) := on_stream stop b w.

Definition set_shutter (open : bool) b (w : W) := on_stream (if open then enable_output else disable_output) b w.

(** *** [FifoBackend] *)

(** [now] is the clock when the write returns; [None]: the estimator panicked. *)
Definition try_write_points (now pps : Z) (points : list LaserPoint) b (w : W) : option ((LaserCubeUsbBackend * W) * result WriteOutcome) :=
  match cu_stream b with
  | None => Some ((b, w), Err (ErrDisconnected "Not connected"))
  | Some s =>
      let b := set_point_buffer (sample_from <$> points) b in
      match write_frame (cu_point_buffer b) pps s with
      | (inl effective_pps, s) =>
          e ← SoftwareDecay.record_send now (Z.of_nat (length (cu_point_buffer b))) effective_pps (cu_estimator b);
          Some ((set_estimator e (set_stream (Some s) b), w), Ok Written)
      | (inr e, s) => let '(bw, e) := handle_stream_error e s b w in Some (bw, Err e)
      end
  end.

Definition reset_device_buffer (now : Z) b (w : W) : (LaserCubeUsbBackend * W) * result unit :=
  match cu_stream b with
  | None => ((b, w), Ok tt)
  | Some s =>
      match clear_ringbuffer s with
      | (inl _, s) => ((set_estimator (SoftwareDecay.reset now (cu_estimator b)) (set_stream (Some s) b), w), Ok tt)
      | (inr e, s) => let '(bw, e) := handle_stream_error e s b w in (bw, Err e)
      end
  end.

(** ** Discovery *)

Definition PREFIX : string := "lasercube-usb".

Definition format_stable_id (serial : option string) (usb_address : string) : string :=
  PREFIX +:+ ":" +:+ default usb_address serial.

(** [get_serial_number], over a temporary handle. *)
Definition get_serial_number (device : D) (w : W) : option string * W :=
  match device_descriptor device with
  | inl (_, _, true) =>
      match dev_open device w with
      | (inr _, w) => (None, w)
      | (inl h, w) =>
          match read_languages CONTROL_TIMEOUT h with
          | (inl (lang :: _), h) =>
              match read_serial_number_string lang CONTROL_TIMEOUT h with
              | (inl serial, h) => (Some serial, dev_close h w)
              | (inr _, h) => (None, dev_close h w)
              end
          | (_, h) => (None, dev_close h w)
          end
      end
  | _ => (None, w)
  end.

Definition device_info (serial : option string) (device : D) : DiscoveredDeviceInfo :=
  let usb_address := pretty (Z.to_N (bus_number device)) +:+ ":" +:+ pretty (Z.to_N (address device)) in
  let info := with_usb_address usb_address
    (DiscoveredDeviceInfo_new LaserCubeUsb (format_stable_id serial usb_address) (default usb_address serial)) in
  match serial with Some s => with_hardware_name s info | None => info end.

Fixpoint scan_devices (ds : list D) (w : W) : list (DiscoveredDevice D) * W :=
  match ds with
  | [] => ([], w)
  | device :: ds =>
      let '(serial, w) := get_serial_number device w in
      let '(rest, w) := scan_devices ds w in
      (DiscoveredDevice_new (device_info serial device) device :: rest, w)
  end.

Definition cube_usb_scan (w : W) : W * list (DiscoveredDevice D) :=
  match list_devices w with
  | (inr _, w) => (w, [])
  | (inl ds, w) => let '(found, w) := scan_devices ds w in (w, found)
  end.
End host.
Arguments LaserCubeUsbBackend : clear implicits.
Arguments mkCubeUsb {D H}.
Arguments cu_device {D H}.
Arguments cu_stream {D H}.
Arguments cu_caps {D H}.
Arguments cu_point_buffer {D H}.
Arguments cu_estimator {D H}.

(** ** Chunks *)

Section chunks.
Context {A : Type}.

Lemma chunks_fuel_join fuel n (l : list A) : (0 < n)%nat -> (length l <= fuel)%nat -> mjoin (chunks_fuel fuel n l) = l.
Proof.
  intros Hn. revert l. induction fuel as [|fuel IH]; intros [|x l] Hl; simpl in Hl; [done|lia|done|].
  cbn [chunks_fuel]. change (take n (x :: l) ++ mjoin (chunks_fuel fuel n (drop n (x :: l))) = x :: l).
  rewrite IH by (rewrite length_drop; simpl; lia). apply take_drop.
Qed.

Lemma chunks_join n (l : list A) : (0 < n)%nat -> mjoin (chunks n l) = l.
Proof. intros Hn. by apply chunks_fuel_join. Qed.

(** Chunks are not empty, not too long, and made of whole [k]-element items. *)
Lemma chunks_sizes k n (l : list A) :
  (0 < k)%nat -> (0 < n)%nat -> (k | n)%nat -> (k | length l)%nat -> Forall (fun c => 0 < length c <= n /\ (k | length c))%nat (chunks n l).
Proof.
  intros Hk Hn Hkn. unfold chunks. generalize (length l) at 2 as fuel. intros fuel. revert l.
  induction fuel as [|fuel IH]; intros [|x l] Hl; [by constructor..|]. cbn [chunks_fuel]. constructor.
  - rewrite length_take. split; [simpl; lia|]. by destruct (Nat.min_dec n (length (x :: l))) as [->| ->].
  - apply IH. rewrite length_drop. by apply Nat.divide_sub_r.
Qed.
End chunks.

(** ** Samples on the wire *)

(** What the device makes of eight bytes: red, green, blue, x, y. *)
Fixpoint decode_samples (bs : list Z) : option (list (Z * Z * Z * Z * Z)) :=
  match bs with
  | [] => Some []
  | r :: g :: b :: _ :: x0 :: x1 :: y0 :: y1 :: bs => cons (r, g, b, x0 + 256 * x1, y0 + 256 * y1) <$> decode_samples bs
  | _ => None
  end.

(** A point as the device should show it: the dimmed colours, and x mirrored. *)
Definition device_sample (p : LaserPoint) : Z * Z * Z * Z * Z :=
  (color_to_u8 (dim (lp_intensity p) (lp_r p)), color_to_u8 (dim (lp_intensity p) (lp_g p)), color_to_u8 (dim (lp_intensity p) (lp_b p)),
   MAX_COORDINATE_VALUE - coord_to_u12 (lp_x p), coord_to_u12 (lp_y p)).

Lemma le_bytes_2 v : 0 <= v < 65536 -> exists lo hi, le_bytes 2 v = [lo; hi] /\ lo + 256 * hi = v /\ 0 <= lo < 256 /\ 0 <= hi < 256.
Proof.
  intros Hv. eexists _, _. split; [reflexivity|]. simpl. Z.to_euclidean_division_equations; lia.
Qed.

Lemma rg_bytes r g : 0 <= r < 256 -> 0 <= g < 256 -> le_bytes 2 (Z.lor r (wrapu 16 (Z.shiftl g 8))) = [r; g].
Proof.
  intros Hr Hg. unfold wrapu. rewrite Z.shiftl_mul_pow2, Z.mod_small, Z.lor_comm, (lor_disjoint g r 8) by lia.
  cbn [le_bytes]. change (2 ^ 8) with 256. do 2 f_equal; Z.to_euclidean_division_equations; lia.
Qed.

Lemma dim_u16 intensity c : 0 <= dim intensity c < 65536.
Proof. apply Z.mod_pos_bound. lia. Qed.

(** The mirrored coordinate does not wrap. *)
Lemma flipped_sample p :
  point_wf p -> sample_bytes (flipped DEFAULT_FLIP_X DEFAULT_FLIP_Y (sample_from p)) =
  let '(r, g, b, x, y) := device_sample p in [r; g; b; 0] ++ le_bytes 2 x ++ le_bytes 2 y.
Proof.
  intros (Hx & Hy & _). pose proof (coord_to_u12_range _ Hx). pose proof (coord_to_u12_range _ Hy).
  assert (Hc : forall c, 0 <= color_to_u8 (dim (lp_intensity p) c) < 256)
    by (intros c; apply color_to_u8_range; unfold in_u, umax; pose proof (dim_u16 (lp_intensity p) c); lia).
  unfold sample_bytes, sample_from, sample_new, flipped, flip_x, device_sample, MAX_COORDINATE_VALUE, wrapu. simpl sa_rg. simpl sa_b. simpl sa_x. simpl sa_y.
  rewrite !(Z.min_l _ 4095) by lia. rewrite (Z.mod_small (4095 - _)) by lia. fold (wrapu 16 (Z.shiftl (color_to_u8 (dim (lp_intensity p) (lp_g p))) 8)).
  rewrite rg_bytes by apply Hc. simpl. rewrite (Z.mod_small (color_to_u8 _) 256), Z.div_small by apply Hc. done.
Qed.

Lemma decode_encode_samples points :
  Forall point_wf points ->
  decode_samples (encode_samples DEFAULT_FLIP_X DEFAULT_FLIP_Y (sample_from <$> points)) = Some (device_sample <$> points).
Proof.
  unfold encode_samples. induction 1 as [|p points Hp _ IH]; [done|].
  change (mjoin _) with (sample_bytes (flipped DEFAULT_FLIP_X DEFAULT_FLIP_Y (sample_from p)) ++
    mjoin ((fun s => sample_bytes (flipped DEFAULT_FLIP_X DEFAULT_FLIP_Y s)) <$> (sample_from <$> points))).
  rewrite flipped_sample by done. destruct Hp as (Hx & Hy & _). unfold device_sample at 1.
  destruct (le_bytes_2 (MAX_COORDINATE_VALUE - coord_to_u12 (lp_x p))) as (x0 & x1 & -> & Hx0 & _);
    [pose proof (coord_to_u12_range _ Hx); unfold MAX_COORDINATE_VALUE; lia|].
  destruct (le_bytes_2 (coord_to_u12 (lp_y p))) as (y0 & y1 & -> & Hy0 & _); [pose proof (coord_to_u12_range _ Hy); lia|].
  cbn [app decode_samples]. rewrite IH, Hx0, Hy0. done.
Qed.

Lemma length_encode_samples fx fy samples : length (encode_samples fx fy samples) = (8 * length samples)%nat.
Proof.
  unfold encode_samples. induction samples as [|s samples IH]; [done|].
  change (mjoin _) with (sample_bytes (flipped fx fy s) ++ mjoin ((fun s => sample_bytes (flipped fx fy s)) <$> samples)).
  rewrite length_app, IH. simpl. lia.
Qed.

(** ** Data transfers *)

(** Sending pieces: the transfers made and the result; it stops at the first piece
    that does not go through whole. *)
Inductive stream_outcome : list (list Z) -> list xfer -> unit + UsbError -> Prop :=
  | so_done : stream_outcome [] [] (inl tt)
  | so_more c cs tail r :
      stream_outcome cs tail r -> stream_outcome (c :: cs) (BulkOut ENDPOINT_DATA_OUT c (inl (length c)) :: tail) r
  | so_short c cs n : n <> length c -> stream_outcome (c :: cs) [BulkOut ENDPOINT_DATA_OUT c (inl n)] (inr (ErrUsb UsbIo))
  | so_error c cs e : stream_outcome (c :: cs) [BulkOut ENDPOINT_DATA_OUT c (inr e)] (inr (ErrUsb e)).

(** The bytes the data endpoint took. *)
Definition data_taken (x : xfer) : list Z :=
  match x with BulkOut ep data (inl n) => if decide (ep = ENDPOINT_DATA_OUT) then take n data else [] | _ => [] end.

Definition data_sent (tail : list xfer) : list Z := mjoin (data_taken <$> tail).

Lemma outcome_sent cs tail r : stream_outcome cs tail r -> r = inl tt -> data_sent tail = mjoin cs.
Proof.
  induction 1 as [|c cs tail r _ IH| |]; intros Hr; [done| |done|done].
  change (take (length c) c ++ data_sent tail = c ++ mjoin cs). by rewrite IH, firstn_all.
Qed.

Definition slog {H} (s : Stream (Logged H)) : list xfer := log (st_handle s).

Section logged.
Context {H : Type} `{!UsbEndpoints H}.
Implicit Types s : Stream (Logged H).

Lemma send_data_outcome c cs s :
  exists r0 s', send_data_to_endpoint c s = (r0, s') /\ s' = with_handle (st_handle s') s /\
  exists x, slog s' = slog s ++ [x] /\
    ((r0 = inl tt /\ x = BulkOut ENDPOINT_DATA_OUT c (inl (length c))) \/ (exists e, r0 = inr e /\ stream_outcome (c :: cs) [x] (inr e))).
Proof.
  unfold send_data_to_endpoint, mbind, U_bind, transfer. cbn [write_bulk logged_endpoints]. rewrite logging_eq.
  destruct (write_bulk _ _ _ _) as [[n|e] h]; cbn [fst snd].
  - case_decide as Hn; eexists _, _; (split; [done|]); (split; [done|]); eexists; (split; [done|]).
    + left. by rewrite Hn.
    + right. eexists. split; [done|]. by constructor.
  - eexists _, _; (split; [done|]); (split; [done|]); eexists; (split; [done|]). right. eexists. split; [done|]. constructor.
Qed.

Lemma send_chunks_outcome cs s :
  exists r s' tail, send_chunks cs s = (r, s') /\ s' = with_handle (st_handle s') s /\ slog s' = slog s ++ tail /\ stream_outcome cs tail r.
Proof.
  revert s. induction cs as [|c cs IH]; intros s.
  - eexists _, s, []. split; [done|]. split; [by destruct s|]. split; [by rewrite app_nil_r|constructor].
  - destruct (send_data_outcome c cs s) as (r0 & s1 & H1 & Hf & x & Hl & Hx). cbn [send_chunks].
    unfold mbind, U_bind. rewrite H1. destruct Hx as [[-> ->]|(e & -> & Ho)].
    + destruct (IH s1) as (r & s2 & tail & -> & Hf2 & Hl2 & Ho). eexists r, s2, (_ :: tail). split; [done|].
      split; [rewrite Hf2, Hf; done|]. split; [by rewrite Hl2, Hl, <- app_assoc|by constructor].
    + eexists _, s1, [x]. done.
Qed.

(** The pieces a buffer is sent in. *)
Definition pieces (i : DeviceInfo) (buffer : list Z) : list (list Z) :=
  let n := (Z.to_nat (in_bulk_packet_sample_count i) * SAMPLE_SIZE_BYTES)%nat in
  if decide (n = 0)%nat then [buffer] else chunks n buffer.

(** They make up the buffer, hold whole samples, and fit the device's packets. *)
Lemma pieces_ok i fx fy samples :
  let cs := pieces i (encode_samples fx fy samples) in
  mjoin cs = encode_samples fx fy samples /\
  Forall (fun c => (8 | length c)%nat /\ (0 < in_bulk_packet_sample_count i -> (0 < length c)%nat /\ Z.of_nat (length c) <= 8 * in_bulk_packet_sample_count i)) cs.
Proof.
  assert (Hd : (8 | length (encode_samples fx fy samples))%nat) by (rewrite length_encode_samples; apply Nat.divide_factor_l).
  unfold pieces, SAMPLE_SIZE_BYTES. case_decide as Hn; simpl.
  - split; [by rewrite app_nil_r|]. apply Forall_singleton. split; [done|lia].
  - split; [apply chunks_join; lia|]. eapply Forall_impl; [apply (chunks_sizes 8); [lia|lia|apply Nat.divide_factor_r|exact Hd]|].
    intros c [Hc Hk]. split; [done|]. intros _. lia.
Qed.

Lemma send_samples_outcome samples s :
  st_status s = Initialized ->
  exists r s' tail, send_samples samples s = (r, s') /\ slog s' = slog s ++ tail /\
    stream_outcome (pieces (st_info s) (encode_samples (st_flip_x s) (st_flip_y s) samples)) tail r /\
    s' = with_handle (st_handle s') (with_send_buffer (encode_samples (st_flip_x s) (st_flip_y s) samples) s).
Proof.
  intros Hs. unfold send_samples, get_state, mbind, U_bind, pieces. rewrite decide_True by done.
  set (buf := encode_samples _ _ _). case_decide.
  - destruct (send_data_outcome buf [] (with_send_buffer buf s)) as (r0 & s1 & -> & Hf & x & Hl & Hx).
    exists r0, s1, [x]. split; [done|]. split; [done|]. split; [|done]. destruct Hx as [[-> ->]|(e & -> & Ho)]; [do 2 constructor|done].
  - destruct (send_chunks_outcome (chunks (Z.to_nat (in_bulk_packet_sample_count (st_info s)) * SAMPLE_SIZE_BYTES) buf) (with_send_buffer buf s))
      as (r & s1 & tail & -> & Hf & Hl & Ho). exists r, s1, tail. done.
Qed.

(** ** Control round trips *)

(** A round trip sends its packet first; a success is a whole packet out and a
    whole response in. *)
Lemma round_trip_log packet s :
  exists r s' r0 tail, round_trip packet s = (r, s') /\ s' = with_handle (st_handle s') s /\
    slog s' = slog s ++ BulkOut ENDPOINT_CONTROL_OUT packet r0 :: tail /\
    (forall resp, r = inl resp -> r0 = inl (length packet) /\ tail = [BulkIn ENDPOINT_CONTROL_IN CONTROL_PACKET_SIZE (inl resp)]).
Proof.
  unfold round_trip, send_control, receive_control, mbind, U_bind, transfer. cbn [write_bulk read_bulk logged_endpoints]. rewrite logging_eq.
  destruct (write_bulk _ _ _ _) as [[n|e] h]; cbn [fst snd]; [case_decide as Hn|]; cbn [mret U_ret throw];
    [|by eexists _, _, _, []..].
  rewrite logging_eq. cbn [st_handle with_handle base log]. destruct (read_bulk _ _ _ _) as [[d|e] h2]; cbn [fst snd];
    [case_decide; cbn [mret U_ret throw]; [case_match|]|]; (eexists _, _, _, [_]); (split; [done|]); (split; [done|]);
    (split; [unfold slog; cbn [st_handle with_handle log]; by rewrite <- app_assoc|]); [|done..].
  intros resp [= <-]. by rewrite Hn.
Qed.

Lemma set_rate_log rate s :
  exists r s' tail, set_rate rate s = (r, s') /\ slog s' = slog s ++ tail /\
    st_status s' = st_status s /\ st_flip_x s' = st_flip_x s /\ st_flip_y s' = st_flip_y s /\
    (r = inl tt -> st_info s' = set_current_rate rate (st_info s) /\
      exists resp, tail = [BulkOut ENDPOINT_CONTROL_OUT (CMD_SET_DAC_RATE :: le_bytes 4 rate) (inl 5%nat); BulkIn ENDPOINT_CONTROL_IN CONTROL_PACKET_SIZE (inl resp)]).
Proof.
  unfold set_rate, set_u32, mbind, U_bind.
  destruct (round_trip_log (CMD_SET_DAC_RATE :: le_bytes 4 rate) s) as (r & s1 & r0 & tail & -> & Hf & Hl & Hr).
  destruct r as [resp|e]; cbn [mret U_ret update].
  - destruct (Hr resp eq_refl) as [-> ->]. eexists _, _, _. split; [done|]. split; [exact Hl|]. rewrite Hf. split_and!; [done..|]. intros _. eauto.
  - eexists _, _, _. split; [done|]. split; [exact Hl|]. rewrite Hf. split_and!; done.
Qed.
End logged.

Section backend_theorems.
Context {W D H : Type} `{!UsbEndpoints H} `{!UsbHost W D (Logged H)}.
Implicit Types (b : LaserCubeUsbBackend D (Logged H)) (s : Stream (Logged H)) (w : W).

(** The control transfers before the data: none when the device already runs at
    the rate, one acknowledged request otherwise. *)
Definition rate_request (i : DeviceInfo) (rate : Z) (pre : list xfer) : Prop :=
  if in_current_rate i =? rate then pre = []
  else exists resp, pre =
    [BulkOut ENDPOINT_CONTROL_OUT (CMD_SET_DAC_RATE :: le_bytes 4 rate) (inl 5%nat); BulkIn ENDPOINT_CONTROL_IN CONTROL_PACKET_SIZE (inl resp)].

Lemma rate_step rate s :
  exists r s' pre, (if in_current_rate (st_info s) =? rate then mret tt else set_rate rate) s = (r, s') /\
    st_status s' = st_status s /\ st_flip_x s' = st_flip_x s /\ st_flip_y s' = st_flip_y s /\
    (r = inl tt -> slog s' = slog s ++ pre /\ rate_request (st_info s) rate pre /\ st_info s' = set_current_rate rate (st_info s)).
Proof.
  unfold rate_request. destruct (Z.eqb_spec (in_current_rate (st_info s)) rate) as [He|He].
  - eexists _, s, []. split_and!; [done..|]. intros _. rewrite app_nil_r. split_and!; [done..|]. subst. by destruct (st_info s).
  - destruct (set_rate_log rate s) as (r & s' & tail & -> & Hl & H1 & H2 & H3 & Hr). exists r, s', tail. split_and!; [done..|].
    intros Hok. destruct (Hr Hok) as [Hi Ht]. split_and!; done.
Qed.

(** A written frame: the rate was programmed if it had to be, and every byte of
    the encoded samples was taken, in order. *)
Lemma write_frame_spec samples rate s r s' :
  st_status s = Initialized -> write_frame samples rate s = (inl r, s') ->
  let eff := effective_rate rate (st_info s) in
  r = eff /\ in_current_rate (st_info s') = eff /\ st_status s' = Initialized /\
  exists pre tail, slog s' = slog s ++ pre ++ tail /\ rate_request (st_info s) eff pre /\
    stream_outcome (pieces (st_info s) (encode_samples (st_flip_x s) (st_flip_y s) samples)) tail (inl tt).
Proof.
  intros Hs Hw eff. revert Hw. unfold write_frame, get_state, mbind, U_bind. fold eff.
  destruct (rate_step eff s) as (r1 & s1 & pre & -> & H1 & H2 & H3 & Hr). destruct r1 as [[]|e]; [|done].
  destruct (Hr eq_refl) as (Hl & Hp & Hi).
  destruct (send_samples_outcome samples s1 ltac:(congruence)) as (r2 & s2 & tail & -> & Hl2 & Ho & Hf). destruct r2 as [[]|e]; [|done].
  intros [= <- <-]. split; [done|]. rewrite Hf. cbn [with_handle with_send_buffer st_info st_status]. rewrite Hi.
  split; [done|]. split; [congruence|]. exists pre, tail. split; [by rewrite <- Hf, Hl2, Hl, <- app_assoc|]. split; [done|].
  rewrite H2, H3, Hi in Ho. exact Ho.
Qed.

Lemma handle_error_spec e s b w :
  let '((b', w'), err) := handle_stream_error e s b w in
  cu_estimator b' = cu_estimator b /\ cu_device b' = cu_device b /\
  ((is_disconnected err = true /\ cu_stream b' = None /\ w' = drop_stream s w) \/
   (is_disconnected err = false /\ cu_stream b' = Some s /\ w' = w)).
Proof. unfold handle_stream_error. destruct (classify_stream_error e); simpl; naive_solver. Qed.

(** C27. A write to a connected device either shows the device every point, mirrored in
    x and dimmed, at a rate it was told first unless it ran at it already, and
    records the points at that rate (clamped to the device's maximum, not as
    requested); or it fails without touching the estimate, and gives up the
    stream exactly when it reports a disconnect.  It never asks to try again. *)
Theorem cube_usb_write_outcome b s w now pps points b' w' res :
  cu_stream b = Some s -> st_status s = Initialized -> st_flip_x s = DEFAULT_FLIP_X -> st_flip_y s = DEFAULT_FLIP_Y ->
  Forall point_wf points -> try_write_points now pps points b w = Some ((b', w'), res) ->
  let eff := effective_rate pps (st_info s) in
  match res with
  | Ok Written =>
      exists s' pre tail, cu_stream b' = Some s' /\ w' = w /\ slog s' = slog s ++ pre ++ tail /\ rate_request (st_info s) eff pre /\
        in_current_rate (st_info s') = eff /\ st_status s' = Initialized /\
        decode_samples (data_sent tail) = Some (device_sample <$> points) /\
        SoftwareDecay.record_send now (Z.of_nat (length points)) eff (cu_estimator b) = Some (cu_estimator b')
  | Ok WouldBlock => False
  | Err e =>
      cu_estimator b' = cu_estimator b /\
      (is_disconnected e = true /\ cu_stream b' = None /\ (exists h, w' = dev_close h w) \/
       is_disconnected e = false /\ (exists s', cu_stream b' = Some s') /\ w' = w)
  end.
Proof.
  intros Hb Hs Hfx Hfy Hp. unfold try_write_points. rewrite Hb. cbn [set_point_buffer cu_point_buffer cu_estimator].
  destruct (write_frame (sample_from <$> points) pps s) as [[r|e] s'] eqn:Hw.
  - destruct (write_frame_spec _ _ _ _ _ Hs Hw) as (-> & Hr & Hst & pre & tail & Hl & Hpre & Ho). rewrite length_fmap.
    set (eff := effective_rate pps (st_info s)) in *. destruct (SoftwareDecay.record_send _ _ _ _) as [est|] eqn:He; [|done].
    intros [= <- <- <-]. exists s', pre, tail. split_and!; try done. rewrite (outcome_sent _ _ _ Ho eq_refl), Hfx, Hfy.
    destruct (pieces_ok (st_info s) DEFAULT_FLIP_X DEFAULT_FLIP_Y (sample_from <$> points)) as [-> _]. by apply decode_encode_samples.
  - match goal with |- context [handle_stream_error e s' ?x w] =>
      pose proof (handle_error_spec e s' x w) as Hh; destruct (handle_stream_error e s' x w) as [[b1 w1] err] end.
    intros [= <- <- <-]. destruct Hh as (He & _ & Hc). split; [done|]. destruct Hc as [(H1 & H2 & ->)|(H1 & H2 & ->)]; [left|right]; split_and!; try done; by eexists.
Qed.

(** ** Leaving the device dark *)

(** However it goes, dropping a stream first asks the device to switch its output
    off and last releases both interfaces. *)
Definition darkened (before after : list xfer) : Prop :=
  exists r tail r1 r2, after = before ++ BulkOut ENDPOINT_CONTROL_OUT [CMD_SET_OUTPUT; 0] r :: tail ++ [Release DATA_INTERFACE r1; Release CONTROL_INTERFACE r2].

Lemma stop_log s : exists r tail, slog (ignore stop s) = slog s ++ BulkOut ENDPOINT_CONTROL_OUT [CMD_SET_OUTPUT; 0] r :: tail.
Proof.
  unfold ignore, stop, disable_output, clear_ringbuffer, set_u8, mbind, U_bind.
  destruct (round_trip_log [CMD_SET_OUTPUT; 0x00] s) as (r & s1 & r0 & t1 & -> & Hf & Hl & _). destruct r as [resp|e]; cbn [mret U_ret update].
  - set (s2 := with_info _ s1). change (slog s1) with (slog s2) in Hl. clearbody s2.
    destruct (round_trip_log [CMD_CLEAR_RINGBUFFER; 0x00] s2) as (r & s3 & r3 & t3 & -> & Hf3 & Hl3 & _).
    eexists r0, (t1 ++ BulkOut ENDPOINT_CONTROL_OUT [CMD_CLEAR_RINGBUFFER; 0x00] r3 :: t3).
    destruct r as [resp3|e]; cbn [mret U_ret update snd]; unfold slog in *; cbn [with_info st_handle];
      rewrite Hl3, Hl, <- app_assoc; done.
  - eexists r0, t1. done.
Qed.

Lemma release_all_log s : darkened (slog s) (log (release_all s)).
Proof.
  destruct (stop_log s) as (r & tail & Hl). unfold release_all, darkened. cbn [release_interface logged_endpoints]. rewrite !logging_eq.
  cbn [snd log]. change (log (st_handle (ignore stop s))) with (slog (ignore stop s)). rewrite Hl, <- !app_assoc. by eexists r, tail, _, _.
Qed.

(** A command with an update of the device information only adds transfers. *)
Lemma set_u8_log command value f s : exists mid, slog ((_ ← set_u8 command value; update f) s).2 = slog s ++ mid.
Proof.
  unfold set_u8, mbind, U_bind. destruct (round_trip_log [command; value] s) as (r & s1 & r0 & t1 & -> & Hf & Hl & _).
  destruct r; by eexists.
Qed.

(** So does a write, whether or not it goes through. *)
Lemma write_frame_log samples rate s : exists mid, slog (write_frame samples rate s).2 = slog s ++ mid.
Proof.
  unfold write_frame, get_state, mbind, U_bind. set (eff := effective_rate rate (st_info s)).
  assert (Hrate : exists r s1 mid, (if in_current_rate (st_info s) =? eff then mret tt else set_rate eff) s = (r, s1) /\ slog s1 = slog s ++ mid).
  { destruct (_ =? eff); [exists (inl tt), s, []; by rewrite app_nil_r|]. destruct (set_rate_log eff s) as (r & s1 & mid & -> & Hl & _). by exists r, s1, mid. }
  destruct Hrate as (r & s1 & mid & -> & Hl). destruct r as [[]|e]; [|by exists mid]. destruct (decide (st_status s1 = Initialized)) as [Hs|Hs].
  - destruct (send_samples_outcome samples s1 Hs) as (r & s2 & tail & -> & Hl2 & _). exists (mid ++ tail). destruct r as [[]|e]; by rewrite app_assoc, <- Hl.
  - exists mid. unfold send_samples, get_state, mbind, U_bind. by rewrite decide_False.
Qed.

(** The operations a session performs on the backend; [now] is the clock when the
    call returns. *)
Inductive cube_op :=
  | CuConnect
  | CuDisconnect
  | CuStop
  | CuShutter (open : bool)
  | CuReset (now : Z)
  | CuWrite (now pps : Z) (points : list LaserPoint).

(** [None]: the estimator of a write panicked. *)
Definition cube_step (op : cube_op) b w : option ((LaserCubeUsbBackend D (Logged H) * W) * result unit) :=
  match op with
  | CuConnect => Some (connect b w)
  | CuDisconnect => Some (disconnect b w)
  | CuStop => Some (backend_stop b w)
  | CuShutter o => Some (set_shutter o b w)
  | CuReset now => Some (reset_device_buffer now b w)
  | CuWrite now pps points =>
      match try_write_points now pps points b w with
      | Some (bw, r) => Some (bw, match r with Ok _ => Ok tt | Err e => Err e end)
      | None => None
      end
  end.

(** A connection attempt that failed: the host as it is left.  A handle that was
    opened is closed again, after the device was asked to go dark unless its
    interfaces could not even be claimed. *)
Definition failed_connect b w w' : Prop :=
  match cu_device b with
  | None => w' = w
  | Some d =>
      match dev_open d w with
      | (inr _, w1) => w' = w1
      | (inl h0, w1) => exists h, w' = dev_close h w1 /\ ((exists e, claim_all h0 = (inr e, h)) \/ exists before, darkened before (log h))
      end
  end.

Lemma connect_without_stream b w :
  cu_stream b = None ->
  let '((b', w'), res) := connect b w in
  match cu_stream b' with Some _ => res = Ok tt | None => res <> Ok tt /\ failed_connect b w w' end.
Proof.
  intros Hb. unfold connect, failed_connect, stream_open. rewrite Hb. destruct (cu_device b) as [d|]; [|by rewrite Hb].
  destruct (dev_open d w) as [[h0|e] w1]; [|by cbn; rewrite Hb]. destruct (claim_all h0) as [[u|e] h] eqn:Hc.
  - destruct (refresh_device_info _) as [[u'|e] s]; [|cbn; rewrite Hb; split; [done|]; exists (release_all s); split; [done|]; right; eexists; apply release_all_log].
    destruct (enable_output _) as [[u''|e] s2]; [done|]. cbn. rewrite Hb. split; [done|]. exists (release_all s2). split; [done|]. right. eexists. apply release_all_log.
  - cbn. rewrite Hb. split; [done|]. exists h. split; [done|]. left. by exists e.
Qed.

(** C38. Whenever an operation (a write included) takes away the stream of a connected
    device, the handle is closed after the device was asked to go dark and both
    interfaces were released, and the operation was a disconnect or reports one; an
    operation that keeps the stream closes nothing.  Without a stream only connecting
    reaches the host: it gets a stream, or fails and closes what it opened, again dark
    when the interfaces could be claimed.  A call ends without a result only when the
    estimator panics after a write that went through. *)
Theorem cube_usb_goes_dark op b w :
  match cube_step op b w with
  | None =>
      exists s now pps points r, cu_stream b = Some s /\ op = CuWrite now pps points /\
        (write_frame (sample_from <$> points) pps s).1 = inl r /\ SoftwareDecay.record_send now (Z.of_nat (length points)) r (cu_estimator b) = None
  | Some ((b', w'), res) =>
      match cu_stream b, cu_stream b' with
      | Some s, None =>
          exists h mid, w' = dev_close h w /\ darkened (slog s ++ mid) (log h) /\ (op = CuDisconnect \/ exists msg, res = Err (ErrDisconnected msg))
      | Some _, Some _ => w' = w
      | None, Some _ => op = CuConnect /\ res = Ok tt
      | None, None => match op with CuConnect => res <> Ok tt /\ failed_connect b w w' | _ => w' = w end
      end
  end.
Proof.
  destruct (cu_stream b) as [s|] eqn:Hb.
  2: { destruct op; cbn [cube_step].
    - pose proof (connect_without_stream b w Hb) as Hc. destruct (connect b w) as [[b' w'] res]. by destruct (cu_stream b').
    - unfold disconnect. by rewrite Hb.
    - unfold backend_stop, on_stream. by rewrite Hb, Hb.
    - unfold set_shutter, on_stream. by rewrite Hb, Hb.
    - unfold reset_device_buffer. by rewrite Hb, Hb.
    - unfold try_write_points. by rewrite Hb, Hb. }
  set (good := fun (r : (LaserCubeUsbBackend D (Logged H) * W) * result unit) => let '((b', w'), res) := r in
    match cu_stream b' with
    | None => exists h mid, w' = dev_close h w /\ darkened (slog s ++ mid) (log h) /\ (op = CuDisconnect \/ exists msg, res = Err (ErrDisconnected msg))
    | Some _ => w' = w
    end).
  assert (Herr : forall e s' b0, (exists mid, slog s' = slog s ++ mid) -> good (let '(bw, e) := handle_stream_error e s' b0 w in (bw, Err e))).
  { intros e s' b0 [mid Hl]. unfold handle_stream_error. destruct (classify_stream_error e); cbn [good set_stream cu_stream]; [|done].
    exists (release_all s'), mid. rewrite <- Hl. split; [done|]. split; [apply release_all_log|]. right. by eexists. }
  assert (Hop : forall m, (forall s, exists mid, slog (m s).2 = slog s ++ mid) -> good (on_stream m b w)).
  { intros m Hm. unfold on_stream. rewrite Hb. specialize (Hm s). destruct (m s) as [[[]|e] s']; [done|]. by apply Herr. }
  assert (Hstop : forall s, exists mid, slog (stop s).2 = slog s ++ mid) by (intros s0; destruct (stop_log s0) as (r & tail & Hl); by eexists).
  destruct op; cbn [cube_step].
  - unfold connect. rewrite Hb. by rewrite Hb.
  - unfold disconnect. rewrite Hb. cbn [set_stream cu_stream]. destruct (Hstop s) as [mid Hl]. exists (release_all (ignore stop s)), mid.
    split; [done|]. split; [|by left]. rewrite <- Hl. apply release_all_log.
  - by apply Hop.
  - apply Hop. destruct open; intros; apply set_u8_log.
  - unfold reset_device_buffer. rewrite Hb. pose proof (set_u8_log CMD_CLEAR_RINGBUFFER 0 (fun i => set_ringbuffer_free_space (in_ringbuffer_capacity i) i) s) as Hm.
    change (exists mid, slog (clear_ringbuffer s).2 = slog s ++ mid) in Hm. destruct (clear_ringbuffer s) as [[[]|e] s']; [done|]. by apply Herr.
  - unfold try_write_points. rewrite Hb. cbn [set_point_buffer cu_point_buffer cu_estimator]. pose proof (write_frame_log (sample_from <$> points) pps s) as Hm.
    destruct (write_frame (sample_from <$> points) pps s) as [[r|e] s'] eqn:Hw.
    + rewrite length_fmap. destruct (SoftwareDecay.record_send _ _ _ _) as [est|] eqn:He; [done|]. cbn. exists s, now, pps, points, r. by rewrite Hw.
    + match goal with |- context [handle_stream_error e s' ?x w] => specialize (Herr e s' x Hm); destruct (handle_stream_error e s' x w) as [[b1 w1] err] end. exact Herr.
Qed.

(** A backend that gave its device to a connection attempt has nothing left to
    connect to once that connection is gone, or if it failed: it then answers every
    further attempt with a disconnect, and does not touch the host. *)
Lemma cube_usb_connect_consumes b w :
  cu_stream b = None -> let '((b', w'), res) := connect b w in
  cu_device b' = None /\ (res <> Ok tt -> cu_stream b' = None /\ connect b' w' = ((b', w'), Err (ErrDisconnected "No device available"))).
Proof.
  intros Hb. unfold connect at 1. rewrite Hb. destruct (cu_device b) as [d|] eqn:Hd; [|split; [done|]; intros _; unfold connect; by rewrite Hb, Hd].
  destruct (stream_open d w) as [[s|e] w1]; [destruct (enable_output s) as [[[]|e] s1]|]; (split; [done|]); [done|..];
    intros _; (split; [done|]); unfold connect; cbn [set_device cu_stream cu_device]; by rewrite Hb.
Qed.
End backend_theorems.

(** ** A session with a scripted device *)
Module CubeUsbDemo.
Import Usb.Fake.

Definition reply (value : Z) : list Z := [0; 0] ++ le_bytes 4 value ++ replicate 58 0.

(** A device with packets of two samples whose maximum rate is 30000. *)
Definition info : DeviceInfo := mkDeviceInfo (mkVersion 1 2) 30000 0 4095 3 2 0 8192 8192 true.
Definition stream (script : FakeUsb) : Stream (Logged FakeUsb) :=
  mkStream (mkLogged script []) info Initialized DEFAULT_FLIP_X DEFAULT_FLIP_Y [].
Definition backend (script : FakeUsb) : LaserCubeUsbBackend FakeDevice (Logged FakeUsb) := from_stream 0 (stream script).
Definition good : FakeUsb := mkFake [] [inl (reply 0)].
Definition host : FakeHost := mkHost [] 0.
Definition points : list LaserPoint := replicate 5 default_point.

Definition after : LaserCubeUsbBackend FakeDevice (Logged FakeUsb) :=
  match try_write_points 1000000 40000 points (backend good) host with Some (b, _, _) => b | None => backend good end.

Lemma cube_usb_write_outcome_witness :
  exists s' pre tail, cu_stream after = Some s' /\ host = host /\ slog s' = slog (stream good) ++ pre ++ tail /\ rate_request info 30000 pre /\
    in_current_rate (st_info s') = 30000 /\ st_status s' = Initialized /\
    decode_samples (data_sent tail) = Some (device_sample <$> points) /\
    SoftwareDecay.record_send 1000000 (Z.of_nat (length points)) 30000 (cu_estimator (backend good)) = Some (cu_estimator after).
Proof.
  refine (cube_usb_write_outcome (backend good) (stream good) host 1000000 40000 points after host (Ok Written) eq_refl eq_refl eq_refl eq_refl _ _).
  - apply Forall_replicate. unfold point_wf, in_u, umax. simpl. split_and!; done.
  - vm_compute. reflexivity.
Defined.

(** The five samples went out in three transfers, after the rate. *)
Example three_transfers :
  match cu_stream after with Some s => (fun x => match x with BulkOut ep data _ => (ep, length data) | _ => (0, O) end) <$> slog s | None => [] end =
  [(1, 5%nat); (0, 0%nat); (3, 16%nat); (3, 16%nat); (3, 8%nat)].
Proof. vm_compute. reflexivity. Qed.

Definition unplugged : FakeUsb := mkFake [inr UsbNoDevice] [].

(** A write to a device that was unplugged takes the stream away, and closes the
    handle. *)
Lemma cube_usb_goes_dark_witness :
  exists b' w' res h mid, cube_step (CuWrite 1000000 30000 points) (backend unplugged) host = Some ((b', w'), res) /\ cu_stream b' = None /\
    w' = dev_close h host /\ darkened (slog (stream unplugged) ++ mid) (log h).
Proof.
  pose proof (cube_usb_goes_dark (CuWrite 1000000 30000 points) (backend unplugged) host) as Hd.
  assert (Hs : match cube_step (CuWrite 1000000 30000 points) (backend unplugged) host with Some ((b', _), _) => cu_stream b' = None | None => False end)
    by (vm_compute; reflexivity).
  destruct (cube_step (CuWrite 1000000 30000 points) (backend unplugged) host) as [[[b' w'] res]|]; [|destruct Hs].
  change (cu_stream (backend unplugged)) with (Some (stream unplugged)) in Hd. cbn iota in Hd. rewrite Hs in Hd. destruct Hd as (h & mid & Hw & Hdark & _).
  exists b', w', res, h, mid. split; [reflexivity|]. split; [exact Hs|]. split; [exact Hw|exact Hdark].
Defined.

Example unplugged_closes :
  match cube_step CuStop (backend unplugged) host with Some ((_, w), _) => fh_closed w | None => 0%nat end = 1%nat.
Proof. vm_compute. reflexivity. Qed.

(** The scripted device answers every question of the opening handshake. *)
Definition answering : FakeDevice := mkDevice (LASERDOCK_VID, LASERDOCK_PID) [1] (mkFake [] (inl <$> replicate 20 (reply 1))).

Example opens_and_enables :
  match connect (cube_usb_new 0 answering) host with ((b, _), Ok _) => in_output_enabled <$> (st_info <$> cu_stream b) | _ => None end = Some true.
Proof. vm_compute. reflexivity. Qed.
End CubeUsbDemo.
